(* ===== verification/_CoqProject ===== *)
-Q . S2P
Prelude.v
Mem.v
Heap.v
HeapSpec.v
HeapProofs.v
HeapOps.v
HeapRealloc.v
HeapTop.v
HeapClient.v
Bytes.v
Input.v
Json.v
JsonWriter.v
JsonGrammar.v
JsonNav.v
JsonText.v
JsonOut.v
Kfmt.v
KfmtSpec.v
KfmtClaims.v
Sse.v
SseJson.v
SseDoc.v
SseFrame.v
SseRead.v
SseSpec.v
Rtc.v
RtcProofs.v
RtcRead.v
FileSpec.v
Paths.v
Vfs.v
Ramfs.v
RamfsFile.v
VfsSpec.v
VfsClaims.v
RamfsSpec.v
RamfsLife.v
Trace.v
Tool.v
ToolClaims.v
Agenda.v
AgendaLoad.v
AgendaRun.v
Block.v
RamDisk.v
FatVol.v
FatMount.v
FatFile.v
FatDisk.v
FatChain.v
FatRw.v
FatEntry.v
FatSpec.v
FatWrite.v
FatTrunc.v
FatDemo.v
FatClaims.v
FatOpen.v
FatFormat.v
FatName.v
FatDir.v
FatNameSpec.v
FatScan.v
FatItems.v
FatPlace.v
FatRoom.v
FatEdit.v
FatDirClaims.v
FatVnode.v
FatCache.v
FatLife.v
FatRefresh.v
FatNames.v
Dvm.v
DvmRun.v
DvmPath.v
DvmSafe.v
DvmClaims.v
DvmMem.v
