(* ===== verification/Prelude.v ===== *)
(** Fable OS, verified: a shallow embedding of the parts of the kernel that decide
    things, with the theorems that make them correct.

    * The program

    Fable OS is a freestanding x86-64 kernel whose user is a language model. A turn of
    the machine goes: a line of input is sent with the conversation as one JSON request
    (net/chat.c over the writer of net/json.c); the reply streams back over TLS and is
    put together again as one JSON document (net/sse.c); the document is read with
    net/json.c; the tools it calls act on the machine, most of them through files
    (fs/vfs/vfs.c over the RAM filesystem fs/native/ramfs.c and the FAT32 filesystem
    fs/fat on a disk), and some through programs for a small confined virtual machine
    (vm/dvm.c), the only way the model can touch devices. The tools are found and run by
    core/tool.c, and every action leaves a line of lib/trace.c on the console. What the
    machine does when nobody asks, at boot or on a schedule, is core/agenda.c's: it runs
    tools under a fault guard and keeps its schedule in a file. Everything is allocated
    from one heap (mm/heap.c), and time comes from one clock (drivers/rtc/rtc.c). There is
    no scheduler, no paging and no user mode: a store past a buffer is a store into the
    kernel. So the theorems are mostly of three sorts: a component stays inside its memory whatever its input; it
    implements a short description of what it promises; what one half writes the
    other reads back.

    * Files, and the code they model

    - Prelude.v: machine integers, the outcome monad [prog] (a result, a kernel panic,
      an access through a bad pointer, a loop out of fuel), shared tactics. Bytes.v:
      byte strings and buffers; a store outside a buffer is the outcome [Wild], so "no
      [Wild]" is memory safety.
    - Mem.v: the string and memory routines of lib/base.c.
    - mm/heap.c. Heap.v: the code, over an arena in which a header and a payload byte
      are different cells and overwriting either is visible. HeapSpec.v: the
      abstract allocator, a list of segments in address order. HeapProofs.v,
      HeapOps.v, HeapRealloc.v, HeapTop.v: each routine against it. HeapClient.v: what
      clients see.
    - net/json.c. Json.v and JsonWriter.v: the code. JsonGrammar.v: the grammar of
      RFC 8259 as inductive relations. JsonNav.v, JsonText.v, JsonOut.v: parsing and
      navigation, decoding, writing.
    - net/sse.c. Sse.v: the code (framing, reassembly, the HTTP driver). SseJson.v:
      facts on JSON texts it needs. SseDoc.v: the invariant of the document under
      construction. SseFrame.v, SseRead.v: whole responses. SseSpec.v: the
      line-based description of an event stream, and the equivalence.
    - drivers/rtc/rtc.c. Rtc.v: the code. RtcProofs.v, RtcRead.v: the calendar and
      reading a chip whose time moves meanwhile.
    - fs/vfs/vfs.c, core/kobject.c, fs/native/ramfs.c. Paths.v: cutting paths. Vfs.v:
      the filesystem-independent layer, a client of the class [Fs] (the operation
      table of a filesystem). VfsSpec.v: sessions of requests, and the laws [FsLaws] a
      filesystem promises.
      VfsClaims.v: what the VFS does on any filesystem with those laws. Ramfs.v: the
      RAM filesystem; RamfsFile.v, RamfsSpec.v: it keeps the laws. RamfsLife.v:
      reference counts along whole sessions. FileSpec.v: what a file is, whichever
      filesystem stores it.
    - vm/dvm.c. Dvm.v: programs, the validator, policies. DvmRun.v: the interpreter,
      every instruction and system call. DvmSafe.v: its invariant, with a
      weakest-precondition calculus. DvmPath.v: the confinement of paths.
      DvmClaims.v: whole runs. DvmMem.v: the block and text instructions.
    - lib/kfmt.c. Kfmt.v: vsnprintf. KfmtSpec.v: formats and the text they stand for.
      KfmtClaims.v: the equivalence, and rules that read a format off from the left.
    - drivers/block/block.c. Block.v: the layer and the laws of a disk; RamDisk.v: a disk
      that keeps them.
    - fs/fat. FatVol.v, FatMount.v, FatFile.v, FatName.v, FatDir.v, FatVnode.v: the code
      (volumes and the table, mounting, file data, names, directories, vnodes).
      FatDisk.v, FatChain.v, FatRw.v, FatEntry.v: disk transfers, table chains, reading
      and writing through them, directory records. FatSpec.v: a volume as a set of byte
      strings. FatWrite.v, FatTrunc.v, FatClaims.v: writing, truncating, crashes at any
      sector write. FatOpen.v, FatFormat.v, FatDemo.v: mounting and a concrete volume.
      FatNameSpec.v, FatScan.v, FatItems.v, FatPlace.v, FatRoom.v, FatEdit.v,
      FatDirClaims.v: directories as lists of names. FatCache.v, FatLife.v, FatRefresh.v,
      FatNames.v: the vnode cache along sessions, files by name.
    - lib/trace.c. Trace.v: the code and what a line says.
    - core/tool.c. Tool.v: the code. ToolClaims.v: the schema sent to the model, and what a
      dispatched call leaves behind.
    - core/agenda.c, and fault_guard_run of arch/x86_64/fault.c. Agenda.v: the code, over a
      machine of the agenda's variables, the trace module and the filesystems. AgendaLoad.v:
      the document it writes, saving, reading it back, the marker of an action under way.
      AgendaRun.v: ticks, against the class [FsRuns] of filesystems whose calls return.
    - drivers/input/input.c and kbd.c. Input.v: the line editor, the sources and their
      arbitration, the lines a run of bytes spells; the scancode decoder and the strokes of
      a hand.

    A definition has the name of the C function or structure it translates where Rocq
    allows it. State is passed explicitly: the heap, the filesystem and the virtual
    machine run in [prog] or a relative of it over a record of their variables.

    * What the theorems show

    - Heap: any legal sequence of calls behaves as a store of disjoint arrays
      ([heap_clients_isolated]); kmalloc is first fit and panics only when nothing fits;
      kfree, krealloc, kcalloc, kmemalign do what they promise; the statistics are
      exact.
    - JSON: json_parse accepts exactly the texts of the grammar up to 32 levels and
      locates exactly the value; navigation is a search in order; decoding stays in its
      buffer; strings and integers survive writing and reading back; a writer that
      overflows says so.
    - Streaming reader: whatever bytes arrive, it stays in its buffers and a streamed
      reply becomes one complete JSON document; chunk boundaries are invisible; framing
      is the line-based one; other bodies are delivered verbatim.
    - Clock: the calendar is the one obtained by ticking seconds; conversions are
      inverse; registers are decoded exactly; a reading is never torn.
    - VFS: a path is walked from the mount with the longest matching prefix; what is
      written is read back on any lawful filesystem; RAM files are byte strings;
      along any session each vnode's count is exactly the references to it.
    - Driver VM: every run ends within its budgets, changes memory and DMA only where
      its policy allows, reaches the outside only through granted calls, and names only
      paths inside its subtree; a refused program changes nothing.
    - Formatter: vsnprintf prints what the format stands for and stores what fits.
    - FAT: a mounted volume's files are byte strings; a write or a truncation refines the
      one on byte strings and leaves the others alone; a crash between any two sector
      writes leaves every other file readable and the table sound; names are found,
      added and removed as in a list; what is written is found again by name; along any
      session, whatever the disk does, vnodes are freed exactly when nothing refers to
      them.
    - Trace: a line cannot be forged by its arguments.
    - Tools: the schema is one JSON array of exactly the usable tools, those dispatch finds;
      every call is answered within its buffer and leaves a line.
    - Agenda: what was saved is scheduled again after a reboot; a boot item that killed the
      machine comes back disabled; left alone, the agenda runs dry. A counterexample shows
      boot items that are not re-armed.
    - Input: the lines delivered are the lines typed, source by source; no source starves;
      the keyboard types what its keys say and leaves the mouse its bytes.

    * Bounds and fuel

    - DVM: the loop of dvm_run_at has fuel max_steps + 1; each iteration counts a step
      and the code stops at max_steps, so the fuel is never used up (part of
      [dvm_run_within_budgets]).
    - Loops over a string or list (path walks, scans, copies) are structural, or have
      fuel one more than its length. The doubling loop of the RAM filesystem has fuel
      64, past which a capacity would not be a 64-bit number. JSON scanning recurses
      at most JSON_MAX_DEPTH + 1 deep, as the code does, and its loops on the text.
    - The agenda writes and reads its file in loops with fuel the number of bytes asked for:
      each round moves at least one.
    - input_poll's loops have the code's own bounds (a budget of bytes per source, one visit
      per source). input_readline polls until a line is there: the model polls a given
      number of times, and [readline_returns] shows one is enough once a line waits.
    - Heap walks have the length of the block list as fuel; the theorems exclude [Spin].
    - Integers are in [Z] with the wrap written out where the code can reach it (heap
      size rounding, int64 and uint64 in JSON and the VM, the shift amounts).

    * Modelling choices

    - NULL arguments that the code only guards against at entry are left out, except
      where a caller relies on them (JSON strings, VM hooks).
    - In the VFS, kmalloc is taken to return (it panics when the heap is exhausted);
      whether krealloc can grow a file is a parameter of the state, both cases covered.
      Reference counts are unbounded integers: they count open files and vnodes, which
      memory bounds below 2^31.
    - An input source is the list of what its getc_nb will return, call by call, and the
      keyboard's controller the list of what its ports will show; the theorems hold for
      every such list.
    - Message texts for traps and kprintf lines are not modelled, the decisions that
      produce them are; trace lines are.
    - In the agenda, a tool handler or the sink for sentences is a program on the whole
      machine: it may edit the agenda it runs under, as the code allows. The ticks' theorem
      is for actions that do not.
    - The machine outside the virtual machine (ports, DMA, kernel services) is a record
      of hooks over a state of its own; the theorems hold for every such record.
    - The clock chip is a function from the number of reads so far to registers; what is
      assumed of it (one second per tick, update flag while changing) is a hypothesis
      with a concrete instance.

    * Not modelled

    - lwIP and mbedTLS are vendored. net/net.c, net/fetch.c and drivers/net/e1000.c
      drive them and the hardware.
    - Port and memory-mapped I/O (PCI, serial, fw_cfg, ACPI, ATA transfers), exception
      entry, the boot assembly, pixel output and fonts: what they do is in the
      hardware.
    - The tools/ directory, net/chat.c and net/faultchat.c: text around the components
      above.
    - The assembler and disassembler of the virtual machine, the kernel's back end for
      its hooks, the C compiler, the application runtime, fibers and the capability
      broker: within reach of the same method, and the order in which the development
      would grow is the assembler, the expression language of apps/expr.c, the broker,
      fibers, and the compiler's lexer and parser. *)

From Stdlib Require Export ZArith Lia.
From stdpp Require Export base list strings numbers.

#[global] Open Scope Z_scope.

(** ** Machine integers *)

(** A [w]-bit unsigned value is a [Z] in [0, 2^w); arithmetic that can leave
    that range is written with an explicit wrap. *)
Definition wrap (w x : Z) : Z := x mod 2 ^ w.
Abbreviation wrap8 := (wrap 8).
Abbreviation wrap16 := (wrap 16).
Abbreviation wrap32 := (wrap 32).
Abbreviation wrap64 := (wrap 64).

(** The value of a [w]-bit pattern read as a two's complement integer. *)
Definition sgn (w x : Z) : Z :=
  let y := wrap w x in if y <? 2 ^ (w - 1) then y else y - 2 ^ w.

Lemma wrap_small w x : 0 <= x < 2 ^ w -> wrap w x = x.
Proof. apply Z.mod_small. Qed.

Lemma wrap_range w x : 0 <= w -> 0 <= wrap w x < 2 ^ w.
Proof. intros. apply Z.mod_pos_bound. lia. Qed.

Lemma wrap64_small x : 0 <= x < 18446744073709551616 -> wrap64 x = x.
Proof. apply (wrap_small 64). Qed.

(** [x & (2^k - 1)] and [x & ~(2^k - 1)] on non-negative values. *)
Lemma land_mask k x : 0 <= k -> Z.land x (2 ^ k - 1) = x mod 2 ^ k.
Proof. intros. by rewrite <- Z.land_ones, Z.ones_equiv, Z.sub_1_r by lia. Qed.

Lemma land_lnot_mask k x :
  0 <= k -> Z.land x (Z.lnot (2 ^ k - 1)) = 2 ^ k * (x / 2 ^ k).
Proof.
  intros Hk. replace (2 ^ k - 1) with (Z.ones k) by (rewrite Z.ones_equiv; lia).
  rewrite <- Z.ldiff_land, Z.ldiff_ones_r, Z.shiftl_mul_pow2, Z.shiftr_div_pow2 by lia.
  lia.
Qed.

(** ** Fallible stateful computations *)

(** The outcome of a kernel routine that runs on a state [S]. [Panic] is the
    kernel's [panic()], which does not return; [Wild] is a read through a pointer
    that does not point at an object of the expected kind (undefined behaviour in
    C, about which nothing is claimed); [Spin] is a bounded loop model that used
    up its fuel. *)
Inductive outcome (S A : Type) :=
  | Ok (a : A) (s : S)
  | Panic (why : string)
  | Wild
  | Spin.
Arguments Ok {S A} a s.
Arguments Panic {S A} why.
Arguments Wild {S A}.
Arguments Spin {S A}.

Definition prog (S A : Type) := S -> outcome S A.

Definition ret {S A} (a : A) : prog S A := fun s => Ok a s.
Definition bind {S A B} (m : prog S A) (k : A -> prog S B) : prog S B :=
  fun s => match m s with
           | Ok a s' => k a s'
           | Panic w => Panic w
           | Wild => Wild
           | Spin => Spin
           end.
Definition panic {S A} (why : string) : prog S A := fun _ => Panic why.
Definition gets {S A} (f : S -> A) : prog S A := fun s => Ok (f s) s.
Definition modify {S} (f : S -> S) : prog S unit := fun s => Ok tt (f s).

Declare Scope prog_scope.
Delimit Scope prog_scope with prog.
Notation "x <- m ;; k" := (bind m (fun x => k))
  (at level 100, m at next level, right associativity) : prog_scope.
Notation "m ;;; k" := (bind m (fun _ => k))
  (at level 100, right associativity) : prog_scope.

Lemma bind_ok {S A B} (m : prog S A) (k : A -> prog S B) s a s' :
  m s = Ok a s' -> bind m k s = k a s'.
Proof. unfold bind. by intros ->. Qed.

(** Range tests. *)
Lemma range_in a b x : a <= x < b -> (a <=? x) && (x <? b) = true.
Proof. intros [??]. by rewrite (proj2 (Z.leb_le _ _)), (proj2 (Z.ltb_lt _ _)). Qed.

Lemma range_out a b x : ~ (a <= x < b) -> (a <=? x) && (x <? b) = false.
Proof.
  intros H. destruct (Z.leb_spec a x), (Z.ltb_spec x b); try done. destruct H. done.
Qed.

(** The value a computation returns, if it returns. *)
Definition value_of {S A} (o : outcome S A) : option A :=
  match o with Ok a _ => Some a | _ => None end.

(** ** Automation *)

(** Turn boolean tests of the code into propositions. *)
Ltac b2p :=
  repeat match goal with
  | H : (_ && _)%bool = true |- _ => apply andb_true_iff in H as [? ?]
  | H : (_ && _)%bool = false |- _ => apply andb_false_iff in H
  | H : (_ || _)%bool = true |- _ => apply orb_true_iff in H
  | H : (_ || _)%bool = false |- _ => apply orb_false_iff in H as [? ?]
  | H : negb _ = true |- _ => apply negb_true_iff in H
  | H : negb _ = false |- _ => apply negb_false_iff in H
  | H : (_ =? _) = true |- _ => apply Z.eqb_eq in H
  | H : (_ =? _) = false |- _ => apply Z.eqb_neq in H
  | H : (_ <? _) = true |- _ => apply Z.ltb_lt in H
  | H : (_ <? _) = false |- _ => apply Z.ltb_ge in H
  | H : (_ <=? _) = true |- _ => apply Z.leb_le in H
  | H : (_ <=? _) = false |- _ => apply Z.leb_gt in H
  end.

(** Split on the test of the first [if] on integers in the goal. *)
Ltac ztest :=
  match goal with
  | |- context [ if ?a =? ?b then _ else _ ] => destruct (Z.eqb_spec a b)
  | |- context [ if ?a <? ?b then _ else _ ] => destruct (Z.ltb_spec a b)
  | |- context [ if ?a <=? ?b then _ else _ ] => destruct (Z.leb_spec a b)
  end.

(** Remove every [wrap64] whose argument provably fits. *)
Ltac unwrap64 :=
  repeat match goal with |- context [wrap 64 ?x] => rewrite (wrap64_small x) by lia end.
