(* ===== verification/Mem.v ===== *)
(** lib/base.c, "String / memory": the byte routines every other part of the
    kernel is built on, over a byte-addressed store. *)

From S2P Require Import Prelude.

(** A store gives each address its byte, or [None] where the content is not
    specified (never written, or covered by another object's header). *)
Definition mem := Z -> option Z.

Definition upd (m : mem) (a : Z) (v : option Z) : mem :=
  fun x => if x =? a then v else m x.

(** ** The loops *)

(** [while (n--) *d++ = *s++;] *)
Fixpoint copy_up (n : nat) (d s : Z) (m : mem) : mem :=
  match n with
  | O => m
  | S n' => copy_up n' (d + 1) (s + 1) (upd m d (m s))
  end.

(** [while (n--) *--d = *--s;] *)
Fixpoint copy_down (n : nat) (d s : Z) (m : mem) : mem :=
  match n with
  | O => m
  | S n' => copy_down n' (d - 1) (s - 1) (upd m (d - 1) (m (s - 1)))
  end.

Definition memcpy (dst src n : Z) (m : mem) : mem :=
  copy_up (Z.to_nat n) dst src m.

(** [while (n--) *d++ = (uint8_t)c;] *)
Fixpoint fill_up (n : nat) (d c : Z) (m : mem) : mem :=
  match n with
  | O => m
  | S n' => fill_up n' (d + 1) c (upd m d (Some (wrap8 c)))
  end.

Definition memset (dst c n : Z) (m : mem) : mem := fill_up (Z.to_nat n) dst c m.

Definition memmove (dst src n : Z) (m : mem) : mem :=
  if dst <? src then copy_up (Z.to_nat n) dst src m
  else copy_down (Z.to_nat n) (dst + n) (src + n) m.

(** [None]: an unspecified byte was compared. *)
Fixpoint cmp_up (n : nat) (x y : Z) (m : mem) : option Z :=
  match n with
  | O => Some 0
  | S n' => match m x, m y with
            | Some a, Some b => if a =? b then cmp_up n' (x + 1) (y + 1) m else Some (a - b)
            | _, _ => None
            end
  end.

Definition memcmp (a b n : Z) (m : mem) : option Z := cmp_up (Z.to_nat n) a b m.

(** [while (s[n]) n++;] with a bound on how far the scan goes. *)
Fixpoint strlen_from (fuel : nat) (s n : Z) (m : mem) : option Z :=
  match fuel with
  | O => None
  | S fuel' => match m (s + n) with
               | Some 0 => Some n
               | Some _ => strlen_from fuel' s (n + 1) m
               | None => None
               end
  end.

Definition strlen (fuel : nat) (s : Z) (m : mem) : option Z := strlen_from fuel s 0 m.

(** ** What they do *)

Lemma fill_up_spec n : forall d c m x,
  fill_up n d c m x
  = if (d <=? x) && (x <? d + Z.of_nat n) then Some (wrap8 c) else m x.
Proof.
  induction n as [|n IH]; intros d c m x; simpl.
  - destruct (d <=? x) eqn:?, (x <? d + Z.of_nat 0) eqn:?; simpl; b2p; try done; lia.
  - rewrite IH. unfold upd.
    destruct (d + 1 <=? x) eqn:?, (x <? d + 1 + Z.of_nat n) eqn:?, (x =? d) eqn:?,
      (d <=? x) eqn:?, (x <? d + Z.of_nat (S n)) eqn:?; simpl; b2p; try done; lia.
Qed.

Lemma memset_spec d c n m x :
  0 <= n ->
  memset d c n m x = if (d <=? x) && (x <? d + n) then Some (wrap8 c) else m x.
Proof. intros. unfold memset. rewrite fill_up_spec, Z2Nat.id; done. Qed.

(** The ascending copy is right when the destination does not start inside
    the part of the source still to be read. *)
Lemma copy_up_spec n : forall d s m x,
  d <= s \/ s + Z.of_nat n <= d ->
  copy_up n d s m x
  = if (d <=? x) && (x <? d + Z.of_nat n) then m (s + (x - d)) else m x.
Proof.
  induction n as [|n IH]; intros d s m x Hd; simpl.
  - destruct (d <=? x) eqn:?, (x <? d + Z.of_nat 0) eqn:?; simpl; b2p; try done; lia.
  - rewrite IH by lia. unfold upd.
    destruct (d + 1 <=? x) eqn:?, (x <? d + 1 + Z.of_nat n) eqn:?, (x =? d) eqn:?,
      (d <=? x) eqn:?, (x <? d + Z.of_nat (S n)) eqn:?; simpl; b2p;
      try lia; try done; repeat ztest; try lia; try (f_equal; lia).
Qed.

Lemma copy_down_spec n : forall d s m x,
  s <= d ->
  copy_down n d s m x
  = if (d - Z.of_nat n <=? x) && (x <? d) then m (s - (d - x)) else m x.
Proof.
  induction n as [|n IH]; intros d s m x Hd; simpl.
  - destruct (d - Z.of_nat 0 <=? x) eqn:?, (x <? d) eqn:?; simpl; b2p; try done; lia.
  - rewrite IH by lia. unfold upd.
    destruct (d - 1 - Z.of_nat n <=? x) eqn:?, (x <? d - 1) eqn:?, (x =? d - 1) eqn:?,
      (d - Z.of_nat (S n) <=? x) eqn:?, (x <? d) eqn:?; simpl; b2p;
      try lia; try done; repeat ztest; try lia; try (f_equal; lia).
Qed.

Lemma memcpy_spec d s n m x :
  0 <= n -> d <= s \/ s + n <= d ->
  memcpy d s n m x = if (d <=? x) && (x <? d + n) then m (s + (x - d)) else m x.
Proof. intros. unfold memcpy. rewrite copy_up_spec; rewrite Z2Nat.id; done. Qed.

Lemma memmove_spec d s n m x :
  0 <= n ->
  memmove d s n m x = if (d <=? x) && (x <? d + n) then m (s + (x - d)) else m x.
Proof.
  intros Hn. unfold memmove. destruct (Z.ltb_spec d s).
  - rewrite copy_up_spec by lia. by rewrite Z2Nat.id.
  - rewrite copy_down_spec by lia. rewrite Z2Nat.id by done.
    replace (d + n - n) with d by lia.
    replace (s + n - (d + n - x)) with (s + (x - d)) by lia. done.
Qed.

Lemma cmp_up_zero n : forall x y m,
  cmp_up n x y m = Some 0 <->
  (forall i, 0 <= i < Z.of_nat n -> m (x + i) = m (y + i) /\ m (x + i) <> None).
Proof.
  induction n as [|n IH]; intros x y m; simpl.
  - split; [lia | done].
  - split.
    + destruct (m x) as [a|] eqn:Ex, (m y) as [b|] eqn:Ey; try done.
      destruct (Z.eqb_spec a b) as [->|Hab]; [| intros [=]; lia].
      intros H i Hi. destruct (Z.eq_dec i 0) as [->|].
      * rewrite !Z.add_0_r, Ex, Ey. done.
      * destruct (proj1 (IH _ _ _) H (i - 1)) as [E1 E2]; [lia|].
        replace (x + 1 + (i - 1)) with (x + i) in * by lia.
        replace (y + 1 + (i - 1)) with (y + i) in * by lia. done.
    + intros H. destruct (H 0) as [E1 E2]; [lia|]. rewrite !Z.add_0_r in *.
      destruct (m x) as [a|] eqn:Ex; [| done]. rewrite <- E1, Z.eqb_refl.
      apply IH. intros i Hi. destruct (H (i + 1)) as [? ?]; [lia|].
      replace (x + 1 + i) with (x + (i + 1)) by lia.
      replace (y + 1 + i) with (y + (i + 1)) by lia. done.
Qed.
