(* ===== verification/Heap.v ===== *)
(** mm/heap.c: the first-fit kernel heap.

    The arena is a store of typed cells: [hdrs] gives the block header that
    starts at an address, [bytes] the payload byte at an address. Writing a
    header makes the bytes under it unspecified and destroys any header it
    overlaps; writing payload bytes destroys any header they overlap. So a
    routine that let a payload run into a header, or read a header that had been
    overwritten, is visible in the model. *)

From S2P Require Import Prelude Mem.
#[local] Open Scope prog_scope.

(** ** Data *)

Definition DEFAULT_ARENA_SIZE : Z := 16 * 1024 * 1024.
Definition BLOCK_MAGIC : Z := 0x424C4B21.
Definition POISON_BYTE : Z := 0xDE.
Definition ALIGN : Z := 16.
Definition MIN_PAYLOAD : Z := 16.

(** [free] is the code's 0/1 word; NULL links are address 0. *)
Record block := Block {
  magic : Z;
  bfree : bool;
  bsize : Z;
  bprev : Z;
  bnext : Z;
}.

(** sizeof(block_t): two uint32_t, one size_t and two pointers. *)
Definition sizeof_block : Z := 4 + 4 + 8 + 8 + 8.
Definition HDR : Z := (sizeof_block + ALIGN - 1) / ALIGN * ALIGN.

Record heap := Heap {
  heap_head : Z;
  arena_bytes : Z;
  stat_in_use : Z;
  stat_peak : Z;
  stat_used_blocks : Z;
  stat_free_blocks : Z;
  stat_allocs : Z;
  stat_frees : Z;
  hdrs : Z -> option block;
  bytes : mem;
}.

Definition set_free (f : bool) (b : block) : block :=
  Block (magic b) f (bsize b) (bprev b) (bnext b).
Definition set_size (z : Z) (b : block) : block :=
  Block (magic b) (bfree b) z (bprev b) (bnext b).
Definition set_prev (p : Z) (b : block) : block :=
  Block (magic b) (bfree b) (bsize b) p (bnext b).
Definition set_next (n : Z) (b : block) : block :=
  Block (magic b) (bfree b) (bsize b) (bprev b) n.
Definition set_magic (w : Z) (b : block) : block :=
  Block w (bfree b) (bsize b) (bprev b) (bnext b).

Definition with_mem (h : Z -> option block) (m : mem) (s : heap) : heap :=
  Heap (heap_head s) (arena_bytes s) (stat_in_use s) (stat_peak s) (stat_used_blocks s)
    (stat_free_blocks s) (stat_allocs s) (stat_frees s) h m.
Definition with_stats (in_use peak used free allocs frees : Z) (s : heap) : heap :=
  Heap (heap_head s) (arena_bytes s) in_use peak used free allocs frees (hdrs s) (bytes s).

(** ** The store *)

(** Do [HDR] bytes at [x] meet the [n] bytes at [a]? *)
Definition hits (x a n : Z) : bool := (0 <? n) && (x <? a + n) && (a <? x + HDR).

Definition put_header (a : Z) (b : block) (s : heap) : heap :=
  with_mem (fun x => if x =? a then Some b else if hits x a HDR then None else hdrs s x)
           (fun x => if (a <=? x) && (x <? a + HDR) then None else bytes s x) s.

(** Run a byte routine of lib/base.c that writes [n] bytes at [a]. *)
Definition put_bytes (a n : Z) (f : mem -> mem) (s : heap) : heap :=
  with_mem (fun x => if hits x a n then None else hdrs s x) (f (bytes s)) s.

Definition load (a : Z) : prog heap block :=
  fun s => match hdrs s a with Some b => Ok b s | None => Wild end.
Definition store (a : Z) (b : block) : prog heap unit := modify (put_header a b).
Definition upd_hdr (a : Z) (f : block -> block) : prog heap unit :=
  b <- load a ;; store a (f b).
(** [if (x->next) x->next->prev = q;] for [nx = x->next]. *)
Definition relink (nx q : Z) : prog heap unit :=
  if nx =? 0 then ret tt else upd_hdr nx (set_prev q).

(** ** Operations *)

Definition align_up (v a : Z) : Z := Z.land (wrap64 (v + a - 1)) (Z.lnot (a - 1)).

Definition payload_of (b : Z) : Z := wrap64 (b + HDR).
Definition block_of (p : Z) : Z := wrap64 (p - HDR).

Definition check_header (b : block) : prog heap unit :=
  if magic b =? BLOCK_MAGIC then ret tt else panic "heap corruption / invalid free".

Definition heap_init (base size : Z) : prog heap unit :=
  if base =? 0 then panic "heap_init: NULL region" else
  let start := align_up base ALIGN in
  let lost := wrap64 (start - base) in
  if size <? lost then panic "heap_init: region too small" else
  let size := size - lost in
  if size <=? HDR + MIN_PAYLOAD then panic "heap_init: region too small" else
  store start (Block BLOCK_MAGIC true (size - HDR) 0 0) ;;;
  modify (fun s => Heap start size 0 0 0 1 0 0 (hdrs s) (bytes s)).

(** Write a new free header at [rest] inside the block at [b], after [need]
    bytes of payload that [b] keeps: the eight assignments split() and the front
    carve of kmemalign() have in common. *)
Definition cut (b rest need size : Z) (blk : block) : prog heap unit :=
  store rest (Block BLOCK_MAGIC true size b (bnext blk)) ;;;
  relink (bnext blk) rest ;;;
  upd_hdr b (set_next rest) ;;;
  upd_hdr b (set_size need) ;;;
  modify (fun s => with_stats (stat_in_use s) (stat_peak s) (stat_used_blocks s)
                     (wrap64 (stat_free_blocks s + 1)) (stat_allocs s) (stat_frees s) s).

Definition split (b need : Z) : prog heap unit :=
  blk <- load b ;;
  if bsize blk <? wrap64 (need + HDR + MIN_PAYLOAD) then ret tt else
  cut b (wrap64 (payload_of b + need)) need (wrap64 (bsize blk - need - HDR)) blk.

(** [None] is the code's return 0. *)
Definition round_request (n : Z) (s : heap) : option Z :=
  let n := if n =? 0 then 1 else n in
  if arena_bytes s <? n then None else Some (align_up n ALIGN).

(** The tail kmalloc and kmemalign share: mark the carved block live. *)
Definition take (b : Z) : prog heap Z :=
  upd_hdr b (set_free false) ;;;
  blk <- load b ;;
  modify (fun s =>
    let in_use := wrap64 (stat_in_use s + bsize blk) in
    with_stats in_use (if stat_peak s <? in_use then in_use else stat_peak s)
      (wrap64 (stat_used_blocks s + 1)) (wrap64 (stat_free_blocks s - 1))
      (wrap64 (stat_allocs s + 1)) (stat_frees s) s) ;;;
  ret (payload_of b).

Fixpoint malloc_scan (fuel : nat) (b n : Z) : prog heap Z :=
  match fuel with
  | O => fun _ => Spin
  | S fuel' =>
      if b =? 0 then panic "kmalloc: out of memory" else
      blk <- load b ;;
      if negb (bfree blk) || (bsize blk <? n) then malloc_scan fuel' (bnext blk) n
      else split b n ;;; take b
  end.

(** No more than [arena_bytes / HDR] headers fit the arena; one more turn sees
    the NULL at the end of the list. *)
Definition walk_fuel (s : heap) : nat := S (Z.to_nat (arena_bytes s / HDR)).

Definition coalesce_next (b : Z) : prog heap unit :=
  blk <- load b ;;
  let n := bnext blk in
  if n =? 0 then ret tt else
  nb <- load n ;;
  if negb (bfree nb) then ret tt else
  check_header nb ;;;
  upd_hdr b (fun x => set_size (wrap64 (bsize x + (HDR + bsize nb))) x) ;;;
  upd_hdr b (set_next (bnext nb)) ;;;
  relink (bnext nb) b ;;;
  upd_hdr n (set_magic 0) ;;;
  modify (fun s => with_stats (stat_in_use s) (stat_peak s) (stat_used_blocks s)
                     (wrap64 (stat_free_blocks s - 1)) (stat_allocs s) (stat_frees s) s).

Section Allocator.

(** Where the linker put [default_arena]. *)
Variable default_arena : Z.

Definition ensure_init : prog heap unit :=
  head <- gets heap_head ;;
  if head =? 0 then heap_init default_arena DEFAULT_ARENA_SIZE else ret tt.

Definition kmalloc (n : Z) : prog heap Z :=
  ensure_init ;;;
  req <- gets (round_request n) ;;
  match req with
  | None => panic "kmalloc: out of memory"
  | Some n => s <- gets id ;; malloc_scan (walk_fuel s) (heap_head s) n
  end.

Definition kfree (p : Z) : prog heap unit :=
  if p =? 0 then ret tt else
  ensure_init ;;;
  let b := block_of p in
  blk <- load b ;;
  check_header blk ;;;
  if bfree blk then panic "kfree: double free" else
  upd_hdr b (set_free true) ;;;
  modify (fun s => with_stats (wrap64 (stat_in_use s - bsize blk)) (stat_peak s)
                     (wrap64 (stat_used_blocks s - 1)) (wrap64 (stat_free_blocks s + 1))
                     (stat_allocs s) (wrap64 (stat_frees s + 1)) s) ;;;
  modify (put_bytes (payload_of b) (bsize blk)
            (memset (payload_of b) POISON_BYTE (bsize blk))) ;;;
  coalesce_next b ;;;
  blk <- load b ;;
  if bprev blk =? 0 then ret tt else
  pb <- load (bprev blk) ;;
  if bfree pb then coalesce_next (bprev blk) else ret tt.

(** The in-place shrink of krealloc, entered with [want <= bsize blk]. *)
Definition shrink (b want : Z) : prog heap unit :=
  blk <- load b ;;
  let old := bsize blk in
  split b want ;;;
  blk <- load b ;;
  if bsize blk =? old then ret tt else
  modify (fun s => with_stats (wrap64 (stat_in_use s - (old - bsize blk))) (stat_peak s)
                     (stat_used_blocks s) (stat_free_blocks s) (stat_allocs s) (stat_frees s) s) ;;;
  if bnext blk =? 0 then ret tt else coalesce_next (bnext blk).

(** The grow-in-place of krealloc, entered when the next block is free and the
    two together are large enough. *)
Definition grow (b want : Z) : prog heap unit :=
  blk <- load b ;;
  modify (fun s => with_stats (wrap64 (stat_in_use s - bsize blk)) (stat_peak s)
                     (stat_used_blocks s) (stat_free_blocks s) (stat_allocs s) (stat_frees s) s) ;;;
  coalesce_next b ;;;
  split b want ;;;
  upd_hdr b (set_free false) ;;;
  blk <- load b ;;
  modify (fun s =>
    let in_use := wrap64 (stat_in_use s + bsize blk) in
    with_stats in_use (if stat_peak s <? in_use then in_use else stat_peak s)
      (stat_used_blocks s) (stat_free_blocks s) (stat_allocs s) (stat_frees s) s).

(** Can the block grow into its neighbour? *)
Definition can_grow (blk : block) (want : Z) : prog heap bool :=
  if bnext blk =? 0 then ret false else
  nb <- load (bnext blk) ;;
  ret (bfree nb && (want <=? wrap64 (bsize blk + HDR + bsize nb))).

Definition krealloc (p n : Z) : prog heap Z :=
  if p =? 0 then kmalloc n else
  if n =? 0 then kfree p ;;; ret 0 else
  let b := block_of p in
  blk <- load b ;;
  check_header blk ;;;
  let want := align_up n ALIGN in
  if want <=? bsize blk then shrink b want ;;; ret p else
  g <- can_grow blk want ;;
  if (g : bool) then grow b want ;;; ret p else
  np <- kmalloc n ;;
  blk <- load b ;;
  let len := if bsize blk <? n then bsize blk else n in
  modify (put_bytes np len (memcpy np p len)) ;;;
  kfree p ;;;
  ret np.

Definition kcalloc (count size : Z) : prog heap Z :=
  let total := wrap64 (count * size) in
  if negb (size =? 0) && negb (total / size =? count) then panic "kcalloc: size overflow" else
  p <- kmalloc total ;;
  modify (put_bytes p total (memset p 0 total)) ;;;
  ret p.

(** One block of kmemalign's scan: where an aligned payload would start in a
    free block whose payload is [pl], and the gap in front; [None] is [continue]. *)
Definition place_aligned (align pl : Z) : option (Z * Z) :=
  if Z.land pl (align - 1) =? 0 then Some (pl, 0) else
  let aligned := align_up (wrap64 (pl + HDR)) align in
  let aligned := if wrap64 (aligned - HDR) =? pl then wrap64 (aligned + align) else aligned in
  let front_gap := wrap64 (aligned - HDR - pl) in
  if front_gap <? MIN_PAYLOAD then None else Some (aligned, front_gap).

(** Shrink [b] to the front gap and put a free block after it. *)
Definition carve_front (b aligned front_gap : Z) : prog heap Z :=
  blk <- load b ;;
  let target := wrap64 (aligned - HDR) in
  cut b target front_gap (wrap64 (wrap64 (payload_of b + bsize blk) - aligned)) blk ;;;
  ret target.

Fixpoint memalign_scan (fuel : nat) (b align n : Z) : prog heap Z :=
  match fuel with
  | O => fun _ => Spin
  | S fuel' =>
      if b =? 0 then panic "kmemalign: out of memory" else
      blk <- load b ;;
      if negb (bfree blk) then memalign_scan fuel' (bnext blk) align n else
      match place_aligned align (payload_of b) with
      | None => memalign_scan fuel' (bnext blk) align n
      | Some (aligned, front_gap) =>
          if wrap64 (payload_of b + bsize blk) <? wrap64 (aligned + n)
          then memalign_scan fuel' (bnext blk) align n
          else target <- (if front_gap =? 0 then ret b else carve_front b aligned front_gap) ;;
               split target n ;;; take target
      end
  end.

Definition kmemalign (align n : Z) : prog heap Z :=
  ensure_init ;;;
  if align <=? ALIGN then kmalloc n else
  if negb (Z.land align (align - 1) =? 0) then panic "kmemalign: alignment not power of two" else
  req <- gets (round_request n) ;;
  match req with
  | None => panic "kmemalign: out of memory"
  | Some n => s <- gets id ;; memalign_scan (walk_fuel s) (heap_head s) align n
  end.

Record heap_stats_t := HeapStats {
  arena_size : Z; bytes_in_use : Z; bytes_free : Z; overhead : Z; peak_in_use : Z;
  free_blocks : Z; used_blocks : Z; total_allocs : Z; total_frees : Z;
}.

Definition heap_stats : prog heap heap_stats_t :=
  ensure_init ;;;
  gets (fun s =>
    let overhead := wrap64 (wrap64 (stat_used_blocks s + stat_free_blocks s) * HDR) in
    HeapStats (arena_bytes s) (stat_in_use s)
      (wrap64 (arena_bytes s - stat_in_use s - overhead)) overhead (stat_peak s)
      (stat_free_blocks s) (stat_used_blocks s) (stat_allocs s) (stat_frees s)).

Fixpoint check_walk (fuel : nat) (b counted : Z) : prog heap Z :=
  match fuel with
  | O => fun _ => Spin
  | S fuel' =>
      if b =? 0 then ret counted else
      blk <- load b ;;
      check_header blk ;;;
      let counted := wrap64 (counted + (HDR + bsize blk)) in
      if bnext blk =? 0 then check_walk fuel' (bnext blk) counted else
      nb <- load (bnext blk) ;;
      if negb (bprev nb =? b) then panic "heap: broken link" else
      if bfree blk && bfree nb then panic "heap: uncoalesced free blocks" else
      check_walk fuel' (bnext blk) counted
  end.

Definition heap_check : prog heap Z :=
  ensure_init ;;;
  s <- gets id ;;
  counted <- check_walk (walk_fuel s) (heap_head s) 0 ;;
  if negb (counted =? arena_bytes s) then panic "heap: size accounting mismatch" else ret 0.

End Allocator.

(** The state before anything ran: .bss is zero. *)
Definition heap_boot : heap := Heap 0 0 0 0 0 0 0 0 (fun _ => None) (fun _ => None).
