(* ===== verification/HeapSpec.v ===== *)
(** The heap's abstract contract and its layout: the arena as a list of
    segments in address order, the list-level allocator, and the relation
    between a segment list and the linked headers of mm/heap.c. *)

From S2P Require Import Prelude Mem Heap.

(** ** Segments *)

Record seg := Seg { sfree : bool; ssize : Z }.

Definition span (bs : list seg) : Z := foldr (fun b n => HDR + ssize b + n) 0 bs.
Definition used_bytes (bs : list seg) : Z :=
  foldr (fun b n => (if sfree b then 0 else ssize b) + n) 0 bs.
Definition free_bytes (bs : list seg) : Z :=
  foldr (fun b n => (if sfree b then ssize b else 0) + n) 0 bs.
Definition used_count (bs : list seg) : Z :=
  foldr (fun b n => (if sfree b then 0 else 1) + n) 0 bs.
Definition free_count (bs : list seg) : Z :=
  foldr (fun b n => (if sfree b then 1 else 0) + n) 0 bs.

Definition first_free (bs : list seg) : bool :=
  match bs with [] => false | b :: _ => sfree b end.
Fixpoint last_free (bs : list seg) : bool :=
  match bs with [] => false | [b] => sfree b | _ :: r => last_free r end.

(** No two free segments are neighbours. *)
Fixpoint coalesced (bs : list seg) : bool :=
  match bs with
  | [] => true
  | b :: r => negb (sfree b && first_free r) && coalesced r
  end.

(** Every segment but the last keeps the next header 16-byte aligned. *)
Fixpoint aligned (bs : list seg) : Prop :=
  match bs with
  | [] | [_] => True
  | b :: r => ssize b mod 16 = 0 /\ aligned r
  end.

(** ** The list-level allocator *)

Definition round16 (n : Z) : Z := 16 * ((n + 15) / 16).

(** Carve [need] bytes off the front when the rest can stand on its own. *)
Definition split_seg (b : seg) (need : Z) : list seg :=
  if ssize b <? need + HDR + MIN_PAYLOAD then [b]
  else [Seg (sfree b) need; Seg true (ssize b - need - HDR)].

Definition mark (f : bool) (bs : list seg) : list seg :=
  match bs with [] => [] | b :: r => Seg f (ssize b) :: r end.

(** Give back the segment list after merging its head with a free successor. *)
Definition merge_next (bs : list seg) : list seg :=
  match bs with
  | b :: c :: r => if sfree c then Seg (sfree b) (ssize b + (HDR + ssize c)) :: r else bs
  | _ => bs
  end.

(** First fit: the free segment to carve, with what is before and after it. *)
Fixpoint first_fit (fits : Z -> seg -> bool) (a : Z) (l bs : list seg)
  : option (list seg * seg * list seg) :=
  match bs with
  | [] => None
  | b :: r => if sfree b && fits a b then Some (l, b, r)
              else first_fit fits (a + HDR + ssize b) (l ++ [b]) r
  end.

(** The segment whose header is at [at_], with what is before and after it. *)
Fixpoint locate (at_ a : Z) (l bs : list seg) : option (list seg * seg * list seg) :=
  match bs with
  | [] => None
  | b :: r => if a =? at_ then Some (l, b, r) else locate at_ (a + HDR + ssize b) (l ++ [b]) r
  end.

(** Merge a freed head back into a free predecessor. *)
Fixpoint merge_back (l bs : list seg) : list seg :=
  match l with
  | [] => bs
  | [p] => if sfree p then merge_next (p :: bs) else p :: bs
  | c :: l' => c :: merge_back l' bs
  end.

(** The contract of kmalloc: the pointer returned and the new arena, or no
    memory. *)
Definition a_malloc (base : Z) (bs : list seg) (n : Z) : option (Z * list seg) :=
  let n := if n =? 0 then 1 else n in
  if span bs <? n then None else
  match first_fit (fun _ b => round16 n <=? ssize b) base [] bs with
  | Some (l, b, r) => Some (base + span l + HDR, l ++ mark false (split_seg b (round16 n)) ++ r)
  | None => None
  end.

(** The contract of kfree on the payload pointer of a live segment. *)
Definition a_free (base : Z) (bs : list seg) (p : Z) : option (list seg) :=
  match locate (p - HDR) base [] bs with
  | Some (l, b, r) =>
      if sfree b then None else Some (merge_back l (merge_next (Seg true (ssize b) :: r)))
  | None => None
  end.

(** ** Where a segment is *)

(** The segment whose header is at [a], in a layout that starts at [base]. *)
Definition placed (base : Z) (bs : list seg) (a : Z) (b : seg) : Prop :=
  exists l r, bs = l ++ b :: r /\ a = base + span l.

Definition in_hdr (base : Z) (bs : list seg) (x : Z) : Prop :=
  exists a b, placed base bs a b /\ a <= x < a + HDR.

(** ** Headers of a layout *)

(** Address of the last header of [l], or [p] when there is none. *)
Fixpoint last_addr (p a : Z) (l : list seg) : Z :=
  match l with [] => p | b :: r => last_addr a (a + HDR + ssize b) r end.

Definition link (r : list seg) (a nxt : Z) : Z := match r with [] => nxt | _ => a end.

Fixpoint chain (h : Z -> option block) (p a : Z) (bs : list seg) (nxt : Z) : Prop :=
  match bs with
  | [] => True
  | b :: r =>
      h a = Some (Block BLOCK_MAGIC (sfree b) (ssize b) p (link r (a + HDR + ssize b) nxt))
      /\ chain h a (a + HDR + ssize b) r nxt
  end.

Definition sizes_ok (bs : list seg) : Prop := Forall (fun b => 16 <= ssize b) bs.

(** The layout facts every primitive keeps, without the counters. *)
Record layout (s : heap) (bs : list seg) : Prop := {
  lay_chain : chain (hdrs s) 0 (heap_head s) bs 0;
  lay_base : 0 < heap_head s /\ heap_head s mod 16 = 0;
  lay_span : arena_bytes s = span bs;
  lay_top : heap_head s + span bs < 2 ^ 63;
  lay_sizes : sizes_ok bs;
  lay_aligned : aligned bs;
  lay_some : bs <> [];
}.

(** The invariant of mm/heap.c between calls. *)
Record heap_inv (s : heap) (bs : list seg) : Prop := {
  inv_layout : layout s bs;
  inv_coalesced : coalesced bs = true;
  inv_in_use : stat_in_use s = used_bytes bs;
  inv_used : stat_used_blocks s = used_count bs;
  inv_free : stat_free_blocks s = free_count bs;
  inv_peak : used_bytes bs <= stat_peak s;
}.

(** ** Layout lemmas *)

Lemma HDR_eq : HDR = 32. Proof. reflexivity. Qed.

Lemma span_app l r : span (l ++ r) = span l + span r.
Proof. induction l as [|b l IH]; simpl; [done | rewrite IH; lia]. Qed.
Lemma span_cons b r : span (b :: r) = HDR + ssize b + span r.
Proof. done. Qed.
Lemma used_bytes_app l r : used_bytes (l ++ r) = used_bytes l + used_bytes r.
Proof. induction l as [|b l IH]; simpl; [done | rewrite IH; lia]. Qed.
Lemma used_count_app l r : used_count (l ++ r) = used_count l + used_count r.
Proof. induction l as [|b l IH]; simpl; [done | rewrite IH; lia]. Qed.
Lemma free_count_app l r : free_count (l ++ r) = free_count l + free_count r.
Proof. induction l as [|b l IH]; simpl; [done | rewrite IH; lia]. Qed.
Lemma sizes_ok_app l r : sizes_ok (l ++ r) <-> sizes_ok l /\ sizes_ok r.
Proof. apply Forall_app. Qed.
Lemma sizes_ok_cons b r : sizes_ok (b :: r) <-> 16 <= ssize b /\ sizes_ok r.
Proof. apply Forall_cons_iff. Qed.

Lemma span_nonneg bs : sizes_ok bs -> 0 <= span bs.
Proof. rewrite ?HDR_eq. induction 1; simpl; rewrite ?HDR_eq in *; lia. Qed.

Lemma counts_bound bs : sizes_ok bs ->
  0 <= used_bytes bs /\ 0 <= free_bytes bs /\ 0 <= used_count bs /\ 0 <= free_count bs /\
  used_bytes bs + free_bytes bs + HDR * (used_count bs + free_count bs) = span bs.
Proof.
  rewrite HDR_eq.
  induction 1 as [|b r Hb Hr IH]; simpl; rewrite ?HDR_eq in *; [lia|]. destruct (sfree b); lia.
Qed.

Lemma length_bound bs : sizes_ok bs -> Z.of_nat (length bs) <= span bs / HDR.
Proof.
  intros H. apply Z.div_le_lower_bound; rewrite HDR_eq; [lia|].
  induction H as [|b r Hb Hr IH]; [done|].
  rewrite span_cons, HDR_eq. simpl length. lia.
Qed.

Lemma last_free_app l b : last_free (l ++ [b]) = sfree b.
Proof. induction l as [|c l IH]; [done|]. simpl. rewrite IH. by destruct l. Qed.

Lemma first_free_app l r : first_free (l ++ r) = match l with [] => first_free r | b :: _ => sfree b end.
Proof. by destruct l. Qed.

Lemma coalesced_app l r :
  coalesced (l ++ r) = coalesced l && coalesced r && negb (last_free l && first_free r).
Proof.
  induction l as [|b l IH]; simpl.
  - by destruct (coalesced r).
  - rewrite IH, first_free_app. destruct l as [|c l]; simpl.
    + by destruct (sfree b), (first_free r), (coalesced r).
    + by destruct (sfree b), (sfree c), (first_free l), (coalesced l), (coalesced r),
        (last_free (c :: l)).
Qed.

Lemma aligned_app l b r :
  aligned (l ++ b :: r) <-> Forall (fun c => ssize c mod 16 = 0) l /\ aligned (b :: r).
Proof.
  induction l as [|c l IH].
  - simpl. split; [intros; split; [constructor | done] | by intros [_ ?]].
  - rewrite Forall_cons_iff. destruct l as [|d l]; simpl in *; tauto.
Qed.

Lemma span_mod l : Forall (fun c => ssize c mod 16 = 0) l -> span l mod 16 = 0.
Proof.
  induction 1 as [|c l Hc Hl IH]; [done|]. rewrite span_cons, HDR_eq.
  Z.div_mod_to_equations. lia.
Qed.

Lemma last_addr_app p a l b : last_addr p a (l ++ [b]) = a + span l.
Proof.
  revert p a. induction l as [|c l IH]; intros p a; simpl; [lia|].
  rewrite IH. lia.
Qed.

Lemma chain_app h p a l r nxt :
  chain h p a (l ++ r) nxt <->
  chain h p a l (link r (a + span l) nxt) /\ chain h (last_addr p a l) (a + span l) r nxt.
Proof.
  revert p a. induction l as [|b l IH]; intros p a; simpl.
  - rewrite Z.add_0_r. destruct r; simpl; tauto.
  - rewrite IH, Z.add_assoc, (Z.add_assoc a HDR).
    destruct l as [|c l]; simpl; rewrite ?Z.add_0_r.
    + destruct r; simpl; tauto.
    + tauto.
Qed.

(** Only the headers' own addresses matter. *)
Lemma chain_ext h h' p a bs nxt :
  sizes_ok bs -> (forall x, a <= x <= a + span bs - 48 -> h' x = h x) ->
  chain h p a bs nxt -> chain h' p a bs nxt.
Proof.
  intros Hs. revert p a. induction Hs as [|b r Hb Hr IH]; intros p a He; [done|].
  pose proof (span_nonneg r Hr). simpl in *. rewrite HDR_eq in *. intros [E H'].
  split; [rewrite He; [done | lia]|].
  apply IH; [| done]. intros x Hx. apply He. lia.
Qed.

(** ** Disjointness *)

Lemma placed_app_cons base l b r : placed base (l ++ b :: r) (base + span l) b.
Proof. exists l, r. done. Qed.

Lemma app_cons_cases {A} (l l' : list A) b b' r r' :
  l ++ b :: r = l' ++ b' :: r' ->
  (l = l' /\ b = b' /\ r = r') \/ (exists m, l' = l ++ b :: m /\ r = m ++ b' :: r')
  \/ (exists m, l = l' ++ b' :: m /\ r' = m ++ b :: r).
Proof.
  revert l'. induction l as [|c l IH]; intros [|c' l'] [= -> E]; simpl.
  - left. by subst.
  - right; left. exists l'. by rewrite E.
  - right; right. exists l. by rewrite E.
  - destruct (IH _ E) as [(->&->&->)|[(m&->&->)|(m&->&->)]]; [left|right;left|right;right]; eauto.
Qed.

Lemma placed_disjoint base bs a b a' b' :
  sizes_ok bs -> placed base bs a b -> placed base bs a' b' ->
  (a = a' /\ b = b') \/ a + HDR + ssize b <= a' \/ a' + HDR + ssize b' <= a.
Proof.
  intros Hs (l&r&->&->) (l'&r'&E&->).
  destruct (app_cons_cases _ _ _ _ _ _ E) as [(->&->&->)|[(m&->&->)|(m&->&->)]]; [by left| |].
  - right; left. rewrite span_app, span_cons.
    rewrite !sizes_ok_app, !sizes_ok_cons, sizes_ok_app in Hs.
    pose proof (span_nonneg m ltac:(tauto)). lia.
  - right; right. rewrite span_app, span_cons.
    rewrite !sizes_ok_app, !sizes_ok_cons in Hs.
    pose proof (span_nonneg m ltac:(tauto)). lia.
Qed.

Lemma placed_range base bs a b :
  sizes_ok bs -> placed base bs a b -> base <= a /\ a + HDR + ssize b <= base + span bs /\ 16 <= ssize b.
Proof.
  intros Hs (l&r&->&->). rewrite sizes_ok_app, sizes_ok_cons in Hs.
  rewrite span_app, span_cons.
  pose proof (span_nonneg l ltac:(tauto)). pose proof (span_nonneg r ltac:(tauto)). lia.
Qed.

(** A segment's payload meets no header of its layout. *)
Lemma payload_not_hdr base bs a b x :
  sizes_ok bs -> placed base bs a b -> a + HDR <= x < a + HDR + ssize b -> ~ in_hdr base bs x.
Proof.
  intros Hs Hp Hx (a'&b'&Hp'&Hx').
  destruct (placed_disjoint _ _ _ _ _ _ Hs Hp Hp') as [[-> ->]|[H|H]]; [lia|lia|].
  pose proof (placed_range _ _ _ _ Hs Hp'). lia.
Qed.

(** ** Which bytes are headers *)

Lemma in_hdr_cons base b r x :
  in_hdr base (b :: r) x <-> base <= x < base + HDR \/ in_hdr (base + HDR + ssize b) r x.
Proof.
  split.
  - intros (a & c & ([|d l] & r' & [= -> ->] & ->) & Hx); simpl in Hx.
    + left. lia.
    + right. exists (base + HDR + ssize d + span l), c. split; [by exists l, r' | lia].
  - intros [Hx | (a & c & (l & r' & -> & ->) & Hx)].
    + exists base, b. split; [exists [], r; simpl; split; [done | lia] | lia].
    + exists (base + HDR + ssize b + span l), c. split; [| lia].
      exists (b :: l), r'. simpl. split; [done | lia].
Qed.

Lemma in_hdr_nil base x : ~ in_hdr base [] x.
Proof. intros (a & c & (l & r & E & _) & _). by destruct l. Qed.

Lemma in_hdr_app base l r x :
  in_hdr base (l ++ r) x <-> in_hdr base l x \/ in_hdr (base + span l) r x.
Proof.
  revert base. induction l as [|b l IH]; intros base.
  - simpl. rewrite Z.add_0_r. split; [tauto|]. intros [H|H]; [by apply in_hdr_nil in H | done].
  - rewrite span_cons. simpl app. rewrite !in_hdr_cons, IH.
    replace (base + HDR + ssize b + span l) with (base + (HDR + ssize b + span l)) by lia. tauto.
Qed.

(** ** first_fit and locate *)

Lemma first_fit_some f a l bs l' b r :
  first_fit f a l bs = Some (l', b, r) ->
  l ++ bs = l' ++ b :: r /\ sfree b = true /\ f (a + (span l' - span l)) b = true
  /\ exists m, l' = l ++ m /\ bs = m ++ b :: r.
Proof.
  revert a l. induction bs as [|c bs IH]; intros a l; simpl; [done|].
  destruct (sfree c && f a c) eqn:E.
  - intros [= -> -> ->]. b2p. split_and!; try done.
    + by rewrite Z.sub_diag, Z.add_0_r.
    + exists []. by rewrite app_nil_r.
  - intros H. apply IH in H as (H1 & H2 & H3 & m & -> & ->). split_and!; try done.
    + by rewrite <- app_assoc in H1.
    + rewrite !span_app in *. simpl in *. rewrite <- H3. f_equal. lia.
    + exists (c :: m). by rewrite <- app_assoc.
Qed.

Lemma locate_placed base bs a b l r :
  sizes_ok bs -> bs = l ++ b :: r -> a = base + span l -> locate a base [] bs = Some (l, b, r).
Proof.
  intros Hs -> ->. change l with ([] ++ l) at 3. generalize (@nil seg) as l0.
  revert base Hs. induction l as [|c l IH]; intros base Hs l0; simpl.
  - by rewrite Z.add_0_r, Z.eqb_refl, app_nil_r.
  - simpl in Hs. rewrite sizes_ok_cons, sizes_ok_app in Hs.
    pose proof (span_nonneg l ltac:(tauto)). rewrite HDR_eq in *.
    destruct (Z.eqb_spec base (base + (32 + ssize c + span l))); [lia|].
    replace (base + (32 + ssize c + span l)) with (base + 32 + ssize c + span l) by lia.
    specialize (IH (base + 32 + ssize c) ltac:(by rewrite sizes_ok_app; tauto) (l0 ++ [c])).
    rewrite IH. by rewrite <- app_assoc.
Qed.

Lemma round16_range n : 0 <= n -> n <= round16 n < n + 16 /\ round16 n mod 16 = 0.
Proof. unfold round16. intros. Z.div_mod_to_equations. lia. Qed.

Lemma align_up_16 n : 0 <= n -> n + 15 < 2 ^ 64 -> align_up n ALIGN = round16 n.
Proof.
  intros H1 H2. unfold align_up, ALIGN, round16. rewrite wrap64_small by lia.
  change (16 - 1) with (2 ^ 4 - 1). rewrite land_lnot_mask by lia.
  by replace (n + 16 - 1) with (n + 15) by lia.
Qed.
