(* ===== verification/HeapProofs.v ===== *)
(** The primitives of mm/heap.c against the layout of HeapSpec.v: split,
    coalesce_next, take and the front carve of kmemalign. *)

From S2P Require Import Prelude Mem Heap HeapSpec.

Create HintDb heap.

(** ** Header and byte access *)

Lemma hdrs_put_same a b s : hdrs (put_header a b s) a = Some b.
Proof. simpl. by rewrite Z.eqb_refl. Qed.

Lemma hdrs_put_other a b s x :
  x + HDR <= a \/ a + HDR <= x -> hdrs (put_header a b s) x = hdrs s x.
Proof.
  rewrite HDR_eq. intros H. simpl. destruct (Z.eqb_spec x a); [lia|].
  unfold hits. rewrite HDR_eq.
  destruct (x <? a + 32) eqn:?, (a <? x + 32) eqn:?; simpl; b2p; try done; lia.
Qed.

Lemma bytes_put a b s x :
  ~ (a <= x < a + HDR) -> bytes (put_header a b s) x = bytes s x.
Proof.
  intros H. simpl. destruct (a <=? x) eqn:?, (x <? a + HDR) eqn:?; simpl; b2p; try done; lia.
Qed.

Lemma load_ok a s b : hdrs s a = Some b -> load a s = Ok b s.
Proof. unfold load. by intros ->. Qed.

Lemma upd_hdr_ok a f s b : hdrs s a = Some b -> upd_hdr a f s = Ok tt (put_header a (f b) s).
Proof. intros H. unfold upd_hdr, bind. by rewrite (load_ok _ _ _ H). Qed.

(** Everything but the store is as it was. *)
Definition regs (s : heap) :=
  (heap_head s, arena_bytes s,
   (stat_in_use s, stat_peak s, stat_used_blocks s, stat_free_blocks s, stat_allocs s, stat_frees s)).

(** Two segment lists over the same addresses: the middle is replaced and the
    first header after it is told its new predecessor. *)
Lemma chain_replace h h' base l mid mid' r :
  sizes_ok l -> sizes_ok r -> mid <> [] -> mid' <> [] -> span mid' = span mid ->
  chain h 0 base (l ++ mid ++ r) 0 ->
  (forall x, x <= base + span l - 48 -> h' x = h x) ->
  (forall x, base + span l + span mid + 48 <= x -> h' x = h x) ->
  (forall n, r <> [] -> h (base + span l + span mid) = Some n ->
     h' (base + span l + span mid)
     = Some (set_prev (last_addr (last_addr 0 base l) (base + span l) mid') n)) ->
  chain h' (last_addr 0 base l) (base + span l) mid' (link r (base + span l + span mid) 0) ->
  chain h' 0 base (l ++ mid' ++ r) 0.
Proof.
  intros Hl Hr Hm Hm' Hsp Hc Hlo Hhi Hn Hmid.
  rewrite !chain_app in Hc. rewrite !chain_app. destruct Hc as (Hcl & _ & Hcr).
  rewrite Hsp. split_and!.
  - eapply chain_ext; [done | | ].
    + intros x Hx. apply Hlo. lia.
    + by destruct mid, mid'.
  - done.
  - destruct r as [|c r]; [done|]. simpl in Hcr |- *. destruct Hcr as [Hc Hcr].
    rewrite sizes_ok_cons in Hr. split.
    + rewrite (Hn _ ltac:(done) Hc). done.
    + eapply chain_ext; [tauto | | done]. intros x Hx. apply Hhi. rewrite HDR_eq in *. lia.
Qed.

(** The same, when the header after the middle already has the right link. *)
Lemma chain_focus h base l b r :
  chain h 0 base (l ++ b :: r) 0 ->
  h (base + span l) = Some (Block BLOCK_MAGIC (sfree b) (ssize b) (last_addr 0 base l)
                              (link r (base + span l + HDR + ssize b) 0))
  /\ (forall c r', r = c :: r' ->
        h (base + span l + HDR + ssize b)
        = Some (Block BLOCK_MAGIC (sfree c) (ssize c) (base + span l)
                  (link r' (base + span l + HDR + ssize b + HDR + ssize c) 0))).
Proof.
  rewrite chain_app. simpl. intros (_ & E & H). split; [done|].
  intros c r' ->. simpl in H. tauto.
Qed.

(** [relink] on the header after a segment, if there is one. *)
Lemma relink_ok s (r : list seg) N q n :
  0 < N -> (r <> [] -> hdrs s N = Some n) ->
  exists s', relink (link r N 0) q s = Ok tt s' /\ regs s' = regs s
    /\ (forall x, x + HDR <= N \/ N + HDR <= x -> hdrs s' x = hdrs s x)
    /\ (r <> [] -> hdrs s' N = Some (set_prev q n))
    /\ (forall x, (r <> [] -> ~ (N <= x < N + HDR)) -> bytes s' x = bytes s x).
Proof.
  intros HN Hn. unfold relink. destruct r as [|c r]; simpl.
  - exists s. split_and!; done.
  - destruct (Z.eqb_spec N 0); [lia|]. specialize (Hn ltac:(done)).
    eexists. split_and!; [by apply upd_hdr_ok | done | | | ].
    + intros x Hx. by apply hdrs_put_other.
    + intros _. apply hdrs_put_same.
    + intros x Hx. apply bytes_put. auto.
Qed.

Ltac step L := erewrite bind_ok; [| first [eapply L; eassumption | eapply L]].

(** ** Cutting a block in two *)

Definition stats (s : heap) :=
  (stat_in_use s, stat_peak s, stat_used_blocks s, stat_free_blocks s, stat_allocs s, stat_frees s).

Definition bump_free (k : Z) (s s' : heap) : Prop :=
  stats s' = (stat_in_use s, stat_peak s, stat_used_blocks s,
              wrap64 (stat_free_blocks s + k), stat_allocs s, stat_frees s).

Definition same_arena (s s' : heap) : Prop :=
  heap_head s' = heap_head s /\ arena_bytes s' = arena_bytes s.

(** Payload bytes outside the headers of the old and of the new layout. *)
Definition keeps (s : heap) (bs bs' : list seg) (s' : heap) : Prop :=
  forall x, ~ in_hdr (heap_head s) bs x -> ~ in_hdr (heap_head s) bs' x ->
  bytes s' x = bytes s x.

Lemma in_hdr_at base l b r x :
  base + span l <= x < base + span l + HDR -> in_hdr base (l ++ b :: r) x.
Proof. intros. exists (base + span l), b. split; [apply placed_app_cons | lia]. Qed.

Lemma in_hdr_at2 base l b c r x :
  base + span l + HDR + ssize b <= x < base + span l + HDR + ssize b + HDR ->
  in_hdr base (l ++ b :: c :: r) x.
Proof.
  intros. change (b :: c :: r) with ([b] ++ c :: r). rewrite app_assoc. apply in_hdr_at.
  rewrite span_app, span_cons. simpl. lia.
Qed.

Lemma layout_bounds s l b r :
  layout s (l ++ b :: r) ->
  0 <= span l /\ 16 <= ssize b /\ 0 <= span r /\ 0 < heap_head s
  /\ heap_head s + span l + HDR + ssize b + span r < 2 ^ 63.
Proof.
  intros [_ [? _] _ Ht Hs _ _]. rewrite span_app, span_cons in Ht.
  rewrite sizes_ok_app, sizes_ok_cons in Hs.
  pose proof (span_nonneg l ltac:(tauto)). pose proof (span_nonneg r ltac:(tauto)).
  split_and!; lia.
Qed.

(** A layout is kept by a change of the store that re-chains one stretch. *)
Lemma layout_replace s s' l mid mid' r :
  layout s (l ++ mid ++ r) -> mid <> [] -> mid' <> [] -> span mid' = span mid ->
  sizes_ok mid' -> aligned (l ++ mid' ++ r) -> same_arena s s' ->
  chain (hdrs s') 0 (heap_head s) (l ++ mid' ++ r) 0 ->
  layout s' (l ++ mid' ++ r).
Proof.
  intros [Hc Hb Hsp Ht Hs Ha Hn] Hm Hm' He Hs' Ha' [E1 E2] Hc'.
  rewrite !sizes_ok_app in Hs.
  constructor; rewrite ?E1, ?E2; auto.
  - by rewrite Hsp, !span_app, He.
  - by rewrite !span_app, He, <- !span_app.
  - rewrite !sizes_ok_app. tauto.
  - destruct l, mid'; done.
Qed.

Lemma aligned_cut l b r need sz :
  aligned (l ++ b :: r) -> need mod 16 = 0 -> sz = ssize b - need - HDR ->
  aligned (l ++ Seg (sfree b) need :: Seg true sz :: r).
Proof.
  rewrite !aligned_app. intros [? Ha] Hn ->. split; [done|].
  destruct r as [|c r]; simpl in *; [done|]. rewrite HDR_eq.
  split_and!; [done | Z.div_mod_to_equations; lia | tauto].
Qed.

(** The header of the segment that follows, if any. *)
Definition head_hdr (A N : Z) (r : list seg) : block :=
  match r with
  | [] => Block 0 false 0 0 0
  | c :: r' => Block BLOCK_MAGIC (sfree c) (ssize c) A (link r' (N + HDR + ssize c) 0)
  end.

Lemma chain_head h base l b r :
  chain h 0 base (l ++ b :: r) 0 -> r <> [] ->
  h (base + span l + HDR + ssize b)
  = Some (head_hdr (base + span l) (base + span l + HDR + ssize b) r).
Proof.
  intros H Hr. apply chain_focus in H as [_ H]. destruct r as [|c r]; [done|]. by apply H.
Qed.

(** What [cut] leaves in the store. *)
Lemma cut_run s A N (r : list seg) need sz blk n :
  hdrs s A = Some blk -> bnext blk = link r N 0 -> (r <> [] -> hdrs s N = Some n) ->
  0 < A -> 0 <= need -> A + HDR + need + HDR <= N ->
  exists s', cut A (A + HDR + need) need sz blk s = Ok tt s'
    /\ same_arena s s' /\ bump_free 1 s s'
    /\ hdrs s' A = Some (set_size need (set_next (A + HDR + need) blk))
    /\ hdrs s' (A + HDR + need) = Some (Block BLOCK_MAGIC true sz A (link r N 0))
    /\ (r <> [] -> hdrs s' N = Some (set_prev (A + HDR + need) n))
    /\ (forall x, x + HDR <= A \/ N + HDR <= x -> hdrs s' x = hdrs s x)
    /\ (forall x, ~ (A <= x < A + HDR) -> ~ (A + HDR + need <= x < A + HDR + need + HDR) ->
         (r <> [] -> ~ (N <= x < N + HDR)) -> bytes s' x = bytes s x).
Proof.
  intros HA Hnx HN H0 Hn Hfit. unfold cut, store, modify. rewrite Hnx.
  erewrite bind_ok by done. set (s1 := put_header _ _ s). rewrite HDR_eq in *.
  assert (H1 : forall x, x + 32 <= A + 32 + need \/ A + 32 + need + 32 <= x -> hdrs s1 x = hdrs s x)
    by (intros; apply hdrs_put_other; rewrite HDR_eq; lia).
  destruct (relink_ok s1 r N (A + 32 + need) n) as (s2 & E2 & R2 & Ho2 & Hn2 & Hb2); [lia | | ].
  { intros Hr. rewrite H1 by lia. auto. }
  rewrite (bind_ok _ _ _ _ _ E2). rewrite HDR_eq in *.
  assert (H2A : hdrs s2 A = Some blk) by (rewrite Ho2 by lia; rewrite H1 by lia; done).
  erewrite bind_ok by (by apply upd_hdr_ok).
  erewrite bind_ok by (apply upd_hdr_ok, hdrs_put_same). eexists. split; [done|].
  set (s4 := put_header A _ (put_header A _ s2)).
  assert (H4 : forall x, x + 32 <= A \/ A + 32 <= x -> hdrs s4 x = hdrs s2 x)
    by (intros; unfold s4; rewrite !hdrs_put_other by (rewrite HDR_eq; lia); done).
  unfold same_arena, bump_free, stats. injection R2 as ? ? ? ? ? ? ? ?. split_and!; cbn; try congruence.
  - by rewrite Z.eqb_refl.
  - change (hdrs s4 (A + 32 + need) = Some (Block BLOCK_MAGIC true sz A (link r N 0))).
    rewrite H4, Ho2 by lia. apply hdrs_put_same.
  - intros Hr. change (hdrs s4 N = Some (set_prev (A + 32 + need) n)).
    rewrite H4 by lia. auto.
  - intros x Hx. change (hdrs s4 x = hdrs s x). rewrite H4, Ho2 by lia. apply H1. lia.
  - intros x Hx1 Hx2 Hx3. change (bytes s4 x = bytes s x). unfold s4.
    rewrite !bytes_put by (rewrite HDR_eq; done). rewrite Hb2 by auto.
    apply bytes_put. rewrite HDR_eq. lia.
Qed.

Lemma cut_ok s l b r a need sz blk :
  layout s (l ++ b :: r) -> a = heap_head s + span l -> hdrs s a = Some blk ->
  16 <= need -> need mod 16 = 0 -> need + HDR + MIN_PAYLOAD <= ssize b ->
  sz = ssize b - need - HDR ->
  exists s', cut a (a + HDR + need) need sz blk s = Ok tt s'
    /\ layout s' (l ++ Seg (sfree b) need :: Seg true sz :: r)
    /\ same_arena s s' /\ bump_free 1 s s'
    /\ keeps s (l ++ b :: r) (l ++ Seg (sfree b) need :: Seg true sz :: r) s'.
Proof.
  intros L -> Hblk Hn Hm Hfit ->. pose proof (layout_bounds _ _ _ _ L) as B.
  pose proof (lay_chain _ _ L) as Hc. pose proof (chain_focus _ _ _ _ _ Hc) as [Ef _].
  pose proof (lay_sizes _ _ L) as Hss. rewrite sizes_ok_app, sizes_ok_cons in Hss.
  rewrite Ef in Hblk. injection Hblk as <-. unfold MIN_PAYLOAD in *. rewrite HDR_eq in *.
  set (A := heap_head s + span l) in *. set (N := A + 32 + ssize b) in *.
  destruct (cut_run s A N r need (ssize b - need - 32) _ _ Ef eq_refl (chain_head _ _ _ _ _ Hc))
    as (s' & E & Har & Hst & HA & HR & HN & Ho & Hby); rewrite ?HDR_eq in *; try lia.
  exists s'. split_and!; try done.
  - apply (layout_replace s _ l [b] [Seg (sfree b) need; Seg true (ssize b - need - 32)] r);
      rewrite ?span_cons; simpl; rewrite ?HDR_eq; try done; try lia.
    + repeat constructor; simpl; lia.
    + apply aligned_cut; [apply L | done | by rewrite HDR_eq].
    + apply (chain_replace (hdrs s) _ _ l [b] [Seg (sfree b) need; Seg true (ssize b - need - 32)] r); simpl; try done; try tauto; fold A;
        rewrite ?HDR_eq, ?Z.add_0_r, ?Z.add_assoc; fold N; try lia.
      * intros x Hx. apply Ho. lia.
      * intros x Hx. apply Ho. lia.
      * intros n Hr EN. rewrite (HN Hr).
        pose proof (chain_head _ _ _ _ _ Hc Hr) as Eh. rewrite HDR_eq in Eh. subst A N. congruence.
      * rewrite HA, HR. split_and!; done.
  - intros x Hx Hx'. apply Hby.
    + intros ?. apply Hx, in_hdr_at. rewrite HDR_eq. done.
    + intros ?. apply Hx', in_hdr_at2. simpl. rewrite HDR_eq. done.
    + intros Hr ?. destruct r as [|c r]; [done|]. apply Hx, in_hdr_at2. rewrite HDR_eq. done.
Qed.

(** ** split *)

Lemma bump_free_0 s s' :
  0 <= stat_free_blocks s < 2 ^ 63 -> stats s' = stats s -> bump_free 0 s s'.
Proof.
  intros H E. unfold bump_free, stats in *. rewrite Z.add_0_r, wrap64_small by lia. done.
Qed.

Lemma split_ok s l b r a need :
  layout s (l ++ b :: r) -> a = heap_head s + span l -> 0 <= stat_free_blocks s < 2 ^ 63 ->
  16 <= need -> need mod 16 = 0 -> need <= ssize b ->
  exists s', split a need s = Ok tt s'
    /\ layout s' (l ++ split_seg b need ++ r) /\ same_arena s s'
    /\ bump_free (Z.of_nat (length (split_seg b need)) - 1) s s'
    /\ keeps s (l ++ b :: r) (l ++ split_seg b need ++ r) s'.
Proof.
  intros L Ha Hf Hn Hm Hle. pose proof (layout_bounds _ _ _ _ L) as B.
  pose proof (chain_focus _ _ _ _ _ (lay_chain _ _ L)) as [Ef _]. rewrite <- Ha in Ef.
  unfold split, split_seg, payload_of, MIN_PAYLOAD. erewrite bind_ok by (by apply load_ok).
  cbn [bsize]. rewrite HDR_eq in *. rewrite (wrap64_small (need + 32 + 16)) by lia.
  destruct (Z.ltb_spec (ssize b) (need + 32 + 16)).
  - exists s. split_and!; try done. by apply bump_free_0.
  - unwrap64.
    destruct (cut_ok s l b r a need (ssize b - need - 32) _ L Ha Ef)
      as (s' & E & L' & A' & F' & K'); unfold MIN_PAYLOAD; rewrite ?HDR_eq in *; try lia.
    exists s'. split_and!; first [exact F' | done].
Qed.

(** ** Setting the free word *)

Lemma set_free_ok s l b r a f :
  layout s (l ++ b :: r) -> a = heap_head s + span l ->
  exists s', upd_hdr a (set_free f) s = Ok tt s'
    /\ layout s' (l ++ Seg f (ssize b) :: r) /\ regs s' = regs s
    /\ keeps s (l ++ b :: r) (l ++ Seg f (ssize b) :: r) s'.
Proof.
  intros L ->. pose proof (layout_bounds _ _ _ _ L) as B.
  pose proof (lay_chain _ _ L) as Hc. pose proof (chain_focus _ _ _ _ _ Hc) as [Ef _].
  pose proof (lay_sizes _ _ L) as Hss. rewrite sizes_ok_app, sizes_ok_cons in Hss.
  rewrite HDR_eq in *. set (A := heap_head s + span l) in *.
  eexists. split; [by apply upd_hdr_ok|]. set (s' := put_header A _ s).
  assert (Ho : forall x, x + 32 <= A \/ A + 32 <= x -> hdrs s' x = hdrs s x)
    by (intros; apply hdrs_put_other; rewrite HDR_eq; lia).
  assert (HA : hdrs s' A = Some (Block BLOCK_MAGIC f (ssize b) (last_addr 0 (heap_head s) l)
                                   (link r (A + 32 + ssize b) 0))) by apply hdrs_put_same.
  assert (Hr' : regs s' = regs s) by done. assert (Har : same_arena s s') by done.
  assert (Hby : forall x, ~ (A <= x < A + HDR) -> bytes s' x = bytes s x)
    by (intros; by apply bytes_put).
  clearbody s'. split_and!; [| done | ].
  - apply (layout_replace s _ l [b] [Seg f (ssize b)] r); simpl; try done.
    + repeat constructor; simpl; lia.
    + pose proof (lay_aligned _ _ L) as Ha. rewrite aligned_app in *. split; [tauto|].
      destruct r; simpl in *; tauto.
    + apply (chain_replace (hdrs s) _ _ l [b] [Seg f (ssize b)] r); simpl; try done; try tauto;
        fold A; rewrite ?HDR_eq, ?Z.add_0_r, ?Z.add_assoc.
      * intros x Hx. apply Ho. lia.
      * intros x Hx. apply Ho. lia.
      * intros n Hr En. rewrite Ho by lia. rewrite En.
        pose proof (chain_head _ _ _ _ _ Hc Hr) as Eh. rewrite HDR_eq in Eh. subst A.
        rewrite En in Eh. injection Eh as ->. by destruct r.
      * done.
  - intros x Hx _. apply Hby. intros ?. apply Hx, in_hdr_at. rewrite HDR_eq in *. lia.
Qed.

(** ** coalesce_next *)

Lemma coalesce_run s A N N2 (r : list seg) blk nb n2 :
  hdrs s A = Some blk -> bnext blk = N -> hdrs s N = Some nb -> bfree nb = true ->
  magic nb = BLOCK_MAGIC -> bnext nb = link r N2 0 -> (r <> [] -> hdrs s N2 = Some n2) ->
  0 < A -> A + HDR <= N -> N + HDR <= N2 ->
  exists s', coalesce_next A s = Ok tt s'
    /\ same_arena s s' /\ bump_free (-1) s s'
    /\ hdrs s' A = Some (set_next (link r N2 0) (set_size (wrap64 (bsize blk + (HDR + bsize nb))) blk))
    /\ hdrs s' N = Some (set_magic 0 nb)
    /\ (r <> [] -> hdrs s' N2 = Some (set_prev A n2))
    /\ (forall x, x + HDR <= A \/ N2 + HDR <= x -> hdrs s' x = hdrs s x)
    /\ (forall x, ~ (A <= x < A + HDR) -> ~ (N <= x < N + HDR) ->
         (r <> [] -> ~ (N2 <= x < N2 + HDR)) -> bytes s' x = bytes s x).
Proof.
  intros HA <- HN Hf Hm Hnx HN2 H0 H1 H2. unfold coalesce_next.
  erewrite bind_ok by (by apply load_ok). destruct (Z.eqb_spec (bnext blk) 0); [rewrite HDR_eq in *; lia|].
  erewrite bind_ok by (by apply load_ok). rewrite Hf. cbn [negb].
  unfold check_header. rewrite Hm, Z.eqb_refl. erewrite bind_ok by done.
  erewrite bind_ok by (by apply upd_hdr_ok).
  erewrite bind_ok by (apply upd_hdr_ok, hdrs_put_same).
  set (s2 := put_header A _ (put_header A _ s)). rewrite Hnx.
  assert (Ho : forall x, x + HDR <= A \/ A + HDR <= x -> hdrs s2 x = hdrs s x)
    by (intros; unfold s2; rewrite !hdrs_put_other by done; done).
  destruct (relink_ok s2 r N2 A n2) as (s3 & E3 & R3 & Ho3 & Hn3 & Hb3); [rewrite HDR_eq in *; lia | | ].
  { intros Hr. rewrite Ho by lia. auto. }
  rewrite (bind_ok _ _ _ _ _ E3).
  erewrite bind_ok by (apply (upd_hdr_ok _ _ _ nb); rewrite Ho3, Ho by lia; done).
  eexists. split; [done|]. set (s4 := put_header (bnext blk) _ s3). rewrite HDR_eq in *.
  assert (H4 : forall x, x + 32 <= bnext blk \/ bnext blk + 32 <= x -> hdrs s4 x = hdrs s3 x)
    by (intros; apply hdrs_put_other; rewrite HDR_eq; lia).
  unfold same_arena, bump_free, stats. injection R3 as ? ? ? ? ? ? ? ?. split_and!; try (cbn; congruence).
  - cbn. replace (stat_free_blocks s3 - 1) with (stat_free_blocks s3 + -1) by lia. congruence.
  - rewrite <- Hnx. change (hdrs s4 A = Some (set_next (bnext nb) (set_size (wrap64 (bsize blk + (32 + bsize nb))) blk))).
    rewrite H4, Ho3 by lia. apply hdrs_put_same.
  - apply (hdrs_put_same (bnext blk) (set_magic 0 nb) s3).
  - intros Hr. change (hdrs s4 N2 = Some (set_prev A n2)). rewrite H4 by lia. auto.
  - intros x Hx. change (hdrs s4 x = hdrs s x). rewrite H4, Ho3 by lia. apply Ho. lia.
  - intros x Hx1 Hx2 Hx3. change (bytes s4 x = bytes s x).
    unfold s4, s2 in *. rewrite bytes_put by (rewrite HDR_eq; done).
    rewrite Hb3 by done. rewrite !bytes_put by (rewrite HDR_eq; done). done.
Qed.

Lemma aligned_merge l b c r f :
  aligned (l ++ b :: c :: r) -> aligned (l ++ Seg f (ssize b + (HDR + ssize c)) :: r).
Proof.
  rewrite !aligned_app. intros [? Ha]. split; [done|].
  destruct r as [|d r]; [done|]. destruct Ha as (Hb & Hc & Hr). rewrite HDR_eq. split; [|done].
  simpl. Z.div_mod_to_equations. lia.
Qed.

Lemma in_hdr_at3 base l b c d r x :
  base + span l + HDR + ssize b + HDR + ssize c <= x
    < base + span l + HDR + ssize b + HDR + ssize c + HDR ->
  in_hdr base (l ++ b :: c :: d :: r) x.
Proof.
  intros. change (b :: c :: d :: r) with ([b] ++ c :: d :: r). rewrite app_assoc. apply in_hdr_at2.
  rewrite span_app, span_cons. simpl. lia.
Qed.

Lemma merge_free_ok s l b c r a :
  layout s (l ++ b :: c :: r) -> a = heap_head s + span l -> sfree c = true ->
  exists s', coalesce_next a s = Ok tt s'
    /\ layout s' (l ++ Seg (sfree b) (ssize b + (HDR + ssize c)) :: r) /\ same_arena s s'
    /\ bump_free (-1) s s'
    /\ keeps s (l ++ b :: c :: r) (l ++ Seg (sfree b) (ssize b + (HDR + ssize c)) :: r) s'
    /\ (exists x, hdrs s' (a + HDR + ssize b) = Some x /\ magic x = 0).
Proof.
  intros L -> Hc. pose proof (layout_bounds _ _ _ _ L) as B. rewrite span_cons in B.
  pose proof (lay_chain _ _ L) as Hch. pose proof (chain_focus _ _ _ _ _ Hch) as [Ef En].
  specialize (En c r eq_refl). pose proof (lay_sizes _ _ L) as Hss.
  rewrite sizes_ok_app, !sizes_ok_cons in Hss. destruct Hss as (Hsl & _ & Hsc & Hsr).
  assert (Hch' : chain (hdrs s) 0 (heap_head s) ((l ++ [b]) ++ c :: r) 0) by (by rewrite <- app_assoc).
  pose proof (chain_head _ _ _ _ _ Hch') as Eh. rewrite span_app, span_cons in Eh. cbn [span foldr] in Eh.
  rewrite HDR_eq in *. rewrite ?Z.add_0_r, ?Z.add_assoc in Eh. pose proof (span_nonneg r Hsr).
  set (A := heap_head s + span l) in *. set (N := A + 32 + ssize b) in *. set (N2 := N + 32 + ssize c) in *.
  destruct (coalesce_run s A N N2 r _ _ _ Ef eq_refl En Hc eq_refl eq_refl Eh)
    as (s' & E & Har & Hst & HA & HN & HN2 & Ho & Hby); rewrite ?HDR_eq in *; try lia.
  cbn [bsize set_size set_next magic bfree bprev] in HA. rewrite wrap64_small in HA by lia.
  exists s'. split_and!; try done.
  - apply (layout_replace s _ l [b; c] [Seg (sfree b) (ssize b + (32 + ssize c))] r);
      rewrite ?span_cons; cbn; rewrite ?HDR_eq; try done; try lia.
    + repeat constructor; simpl; lia.
    + rewrite <- HDR_eq. apply aligned_merge, L.
    + apply (chain_replace (hdrs s) _ _ l [b; c] [Seg (sfree b) (ssize b + (32 + ssize c))] r);
        rewrite ?span_cons; cbn; try done; fold A; rewrite ?HDR_eq; try lia;
        replace (A + (32 + ssize b + (32 + ssize c + 0))) with N2 by lia.
      * intros x Hx. apply Ho. lia.
      * intros x Hx. apply Ho. lia.
      * intros n Hr EN. rewrite (HN2 Hr). rewrite (Eh Hr) in EN. by injection EN as <-.
      * rewrite HA. done.
  - intros x Hx Hx'. apply Hby.
    + intros ?. apply Hx, in_hdr_at. rewrite HDR_eq. done.
    + intros ?. apply Hx, in_hdr_at2. rewrite HDR_eq. done.
    + intros Hr ?. destruct r as [|d r]; [done|]. apply Hx, in_hdr_at3. rewrite HDR_eq. done.
  - by eexists.
Qed.

Lemma coalesce_next_ok s l b r a :
  layout s (l ++ b :: r) -> a = heap_head s + span l -> 0 <= stat_free_blocks s < 2 ^ 63 ->
  exists s', coalesce_next a s = Ok tt s'
    /\ layout s' (l ++ merge_next (b :: r)) /\ same_arena s s'
    /\ bump_free (if first_free r then -1 else 0) s s'
    /\ keeps s (l ++ b :: r) (l ++ merge_next (b :: r)) s'
    /\ (first_free r = true -> exists x, hdrs s' (a + HDR + ssize b) = Some x /\ magic x = 0).
Proof.
  intros L Ha Hf. pose proof (layout_bounds _ _ _ _ L) as B.
  pose proof (chain_focus _ _ _ _ _ (lay_chain _ _ L)) as [Ef En]. rewrite <- Ha in Ef, En.
  destruct r as [|c r].
  - exists s. split_and!; try done; [| by apply bump_free_0].
    unfold coalesce_next. erewrite bind_ok by (by apply load_ok). done.
  - simpl. destruct (sfree c) eqn:Hc.
    { destruct (merge_free_ok s l b c r a L Ha Hc) as (s' & ? & ? & ? & ? & ? & ?). exists s'. split_and!; done. }
    exists s. split_and!; try done; [| by apply bump_free_0].
    unfold coalesce_next. erewrite bind_ok by (by apply load_ok). cbn [bnext link].
    rewrite HDR_eq in *. destruct (Z.eqb_spec (a + 32 + ssize b) 0); [lia|].
    erewrite bind_ok by (by apply load_ok, En). cbn [bfree]. by rewrite Hc.
Qed.
