(* ===== verification/HeapOps.v ===== *)
(** kmalloc and kfree implement the list-level allocator of HeapSpec.v, and
    keep the invariant and every other live payload. *)

From S2P Require Import Prelude Mem Heap HeapSpec HeapProofs.

Definition counted (s : heap) (bs : list seg) : Prop :=
  stat_in_use s = used_bytes bs /\ stat_used_blocks s = used_count bs
  /\ stat_free_blocks s = free_count bs /\ used_bytes bs <= stat_peak s.

Lemma inv_counted s bs : heap_inv s bs <-> layout s bs /\ coalesced bs = true /\ counted s bs.
Proof.
  unfold counted. split.
  - intros []. tauto.
  - intros (? & ? & ? & ? & ? & ?). constructor; done.
Qed.

Lemma layout_counts s bs : layout s bs ->
  0 <= used_bytes bs < 2 ^ 63 /\ 0 <= free_bytes bs < 2 ^ 63
  /\ 0 <= used_count bs < 2 ^ 63 /\ 0 <= free_count bs < 2 ^ 63
  /\ used_bytes bs + HDR * (used_count bs + free_count bs) <= span bs < 2 ^ 63.
Proof.
  intros L. pose proof (counts_bound _ (lay_sizes _ _ L)). pose proof (lay_top _ _ L).
  pose proof (lay_base _ _ L). rewrite HDR_eq in *. lia.
Qed.

Lemma keeps_trans s s1 s2 bs bs1 bs2 :
  same_arena s s1 ->
  (forall x, in_hdr (heap_head s) bs1 x -> in_hdr (heap_head s) bs x \/ in_hdr (heap_head s) bs2 x) ->
  keeps s bs bs1 s1 -> keeps s1 bs1 bs2 s2 -> keeps s bs bs2 s2.
Proof.
  intros [E _] Hsub K1 K2 x H1 H2. unfold keeps in *. rewrite E in K2.
  assert (~ in_hdr (heap_head s) bs1 x) by (intros Hx; destruct (Hsub _ Hx); tauto).
  rewrite K2, K1; done.
Qed.

Lemma same_arena_trans s s1 s2 : same_arena s s1 -> same_arena s1 s2 -> same_arena s s2.
Proof. unfold same_arena. intuition congruence. Qed.

Lemma regs_arena s s' : regs s' = regs s -> same_arena s s' /\ stats s' = stats s.
Proof. intros [= ]. unfold same_arena, stats. split; [done | congruence]. Qed.

Lemma layout_regs s s' bs :
  layout s bs -> same_arena s s' -> hdrs s' = hdrs s -> layout s' bs.
Proof. intros [] [E1 E2] E3. constructor; rewrite ?E1, ?E2, ?E3; done. Qed.

(** ** Carving and marking a free segment *)

Lemma take_ok s l b r a :
  layout s (l ++ b :: r) -> a = heap_head s + span l ->
  exists s', take a s = Ok (a + HDR) s' /\ layout s' (l ++ Seg false (ssize b) :: r)
    /\ same_arena s s' /\ keeps s (l ++ b :: r) (l ++ Seg false (ssize b) :: r) s'
    /\ stats s' = (wrap64 (stat_in_use s + ssize b),
                   (let u := wrap64 (stat_in_use s + ssize b) in
                    if stat_peak s <? u then u else stat_peak s),
                   wrap64 (stat_used_blocks s + 1), wrap64 (stat_free_blocks s - 1),
                   wrap64 (stat_allocs s + 1), stat_frees s).
Proof.
  intros L Ha. pose proof (layout_bounds _ _ _ _ L) as B. rewrite HDR_eq in B.
  destruct (set_free_ok s l b r a false L Ha) as (s1 & E1 & L1 & R1 & K1).
  destruct (regs_arena _ _ R1) as [A1 S1]. destruct A1 as [Eh Ea].
  pose proof (chain_focus _ _ _ _ _ (lay_chain _ _ L1)) as [Ef _]. rewrite Eh, <- Ha in Ef.
  unfold take. rewrite (bind_ok _ _ _ _ _ E1). erewrite bind_ok by (by apply load_ok).
  unfold modify. erewrite bind_ok by done. unfold ret, payload_of.
  rewrite (wrap64_small (a + HDR)) by (rewrite HDR_eq; lia).
  eexists. split; [done|]. split; [by eapply layout_regs|].
  split; [done|]. split; [done|]. cbn [bsize ssize]. unfold stats in *. cbn.
  injection S1 as -> -> -> -> -> ->. done.
Qed.

Lemma coalesced_mark l b r n :
  coalesced l = true -> coalesced (b :: r) = true -> sfree b = true ->
  coalesced (l ++ mark false (split_seg b n) ++ r) = true.
Proof.
  intros Hl Hr Hb. simpl in Hr. rewrite Hb in Hr. simpl in Hr.
  apply andb_true_iff in Hr as [Hf Hr]. apply negb_true_iff in Hf.
  rewrite coalesced_app, Hl. unfold split_seg.
  destruct (ssize b <? _); simpl; rewrite ?andb_false_r, ?Hf, ?Hr; done.
Qed.

Lemma split_seg_counts b n : sfree b = true ->
  span (split_seg b n) = HDR + ssize b
  /\ used_bytes (mark false (split_seg b n)) = ssize (hd b (split_seg b n))
  /\ used_count (mark false (split_seg b n)) = 1
  /\ free_count (mark false (split_seg b n)) = Z.of_nat (length (split_seg b n)) - 1.
Proof.
  intros Hb. unfold split_seg. destruct (_ <? _); simpl; rewrite ?Hb; split_and!; try done; simpl; lia.
Qed.

(** The head of [split_seg]: what the caller gets. *)
Lemma split_seg_cons b n : sfree b = true -> exists c t, split_seg b n = c :: t /\ sfree c = true
  /\ (forall base x, in_hdr base (mark false (split_seg b n)) x <-> in_hdr base (split_seg b n) x).
Proof.
  intros Hb. unfold split_seg. destruct (_ <? _); simpl; do 2 eexists; (split; [done|]);
    split; try done; intros; rewrite !in_hdr_cons; done.
Qed.

Lemma alloc_at_ok s l b r a n :
  layout s (l ++ b :: r) -> counted s (l ++ b :: r) -> a = heap_head s + span l ->
  coalesced l = true -> coalesced (b :: r) = true -> sfree b = true ->
  16 <= n -> n mod 16 = 0 -> n <= ssize b ->
  exists s', bind (split a n) (fun _ => take a) s = Ok (a + HDR) s'
    /\ heap_inv s' (l ++ mark false (split_seg b n) ++ r) /\ same_arena s s'
    /\ keeps s (l ++ b :: r) (l ++ mark false (split_seg b n) ++ r) s'.
Proof.
  intros L (Ci & Cu & Cf & Cp) Ha Hcl Hcr Hb Hn Hm Hle.
  destruct (layout_counts _ _ L) as (U1 & _ & U2 & U3 & U4).
  destruct (split_ok s l b r a n L Ha) as (s1 & E1 & L1 & A1 & F1 & K1); try done; [lia|].
  destruct (split_seg_counts b n Hb) as (Q1 & Q2 & Q3 & Q4).
  destruct (split_seg_cons b n Hb) as (c & t & Ec & Hc & Hh).
  rewrite (bind_ok _ _ _ _ _ E1). rewrite Ec in *. simpl app in *.
  destruct (take_ok s1 l c (t ++ r) a) as (s2 & E2 & L2 & A2 & K2 & S2); try done.
  { destruct A1 as [-> _]. done. }
  exists s2. rewrite E2. split; [done|]. simpl in L2, K2.
  assert (A12 := same_arena_trans _ _ _ A1 A2).
  split; [| split; [done | ]].
  - apply inv_counted. split; [done|]. split.
    { pose proof (coalesced_mark l b r n Hcl Hcr Hb) as HH. by rewrite Ec in HH. }
    pose proof (layout_counts _ _ L2) as (V1 & _ & V2 & V3 & V4).
    unfold counted. unfold bump_free, stats in F1, S2.
    injection S2 as -> -> -> -> _ _. injection F1 as -> -> -> -> _ _. cbn [hd length] in *.
    simpl mark in *. rewrite !used_bytes_app, !used_count_app, !free_count_app in *. simpl in *.
    rewrite Hb in *. rewrite !used_bytes_app, !used_count_app, !free_count_app in *.
    set (k := Z.of_nat (S (length t))) in *. rewrite HDR_eq in *.
    unwrap64. split_and!; try lia. ztest; lia.
  - eapply keeps_trans; [exact A1 | | exact K1 | exact K2].
    intros x Hx. right. destruct A1 as [E _]. rewrite in_hdr_app in *. destruct Hx as [?|Hx]; [by left|right].
    rewrite in_hdr_cons in *. done.
Qed.

(** ** kmalloc *)

Lemma malloc_scan_run s n bs : forall l fuel,
  layout s (l ++ bs) -> (length bs < fuel)%nat ->
  malloc_scan fuel (link bs (heap_head s + span l) 0) n s
  = match first_fit (fun _ b => n <=? ssize b) (heap_head s + span l) l bs with
    | Some (l', b, r) => bind (split (heap_head s + span l') n) (fun _ => take (heap_head s + span l')) s
    | None => Panic "kmalloc: out of memory"
    end.
Proof.
  induction bs as [|b bs IH]; intros l [|fuel] L Hf; simpl in Hf; try lia; [done|].
  pose proof (layout_bounds _ _ _ _ L) as B.
  pose proof (chain_focus _ _ _ _ _ (lay_chain _ _ L)) as [Ef _].
  cbn [malloc_scan link first_fit]. rewrite HDR_eq in B.
  destruct (Z.eqb_spec (heap_head s + span l) 0); [lia|].
  erewrite bind_ok by (by apply load_ok). cbn [bfree bsize bnext].
  assert (E : negb (sfree b) || (ssize b <? n) = negb (sfree b && (n <=? ssize b)))
    by (destruct (sfree b); simpl; [by rewrite Z.ltb_antisym | done]).
  rewrite E. destruct (sfree b && (n <=? ssize b)); cbn [negb]; [done|].
  specialize (IH (l ++ [b]) fuel). rewrite <- app_assoc, span_app, span_cons in IH. simpl in IH.
  replace (heap_head s + (span l + (HDR + ssize b + 0))) with (heap_head s + span l + HDR + ssize b) in IH by lia.
  apply IH; [done | lia].
Qed.

Lemma walk_fuel_enough s bs : layout s bs -> (length bs < walk_fuel s)%nat.
Proof.
  intros L. unfold walk_fuel. pose proof (length_bound _ (lay_sizes _ _ L)).
  rewrite (lay_span _ _ L). lia.
Qed.

Lemma ensure_init_ok d s bs : layout s bs -> ensure_init d s = Ok tt s.
Proof.
  intros L. pose proof (lay_base _ _ L). unfold ensure_init, gets. erewrite bind_ok by done.
  destruct (Z.eqb_spec (heap_head s) 0); [lia | done].
Qed.

Lemma layout_head s bs : layout s bs -> link bs (heap_head s) 0 = heap_head s.
Proof. intros L. pose proof (lay_some _ _ L). by destruct bs. Qed.

Lemma round_request_ok s bs n :
  layout s bs -> 0 <= n ->
  round_request n s = if span bs <? (if n =? 0 then 1 else n) then None
                      else Some (round16 (if n =? 0 then 1 else n)).
Proof.
  intros L Hn. pose proof (lay_top _ _ L). pose proof (lay_base _ _ L).
  unfold round_request. rewrite (lay_span _ _ L).
  set (m := if n =? 0 then 1 else n). assert (0 <= m) by (subst m; ztest; lia).
  destruct (Z.ltb_spec (span bs) m); [done|]. by rewrite align_up_16 by lia.
Qed.

Lemma kmalloc_run d s bs n :
  layout s bs -> 0 <= n ->
  kmalloc d n s =
    (if span bs <? (if n =? 0 then 1 else n) then Panic "kmalloc: out of memory" else
     let m := round16 (if n =? 0 then 1 else n) in
     match first_fit (fun _ b => m <=? ssize b) (heap_head s) [] bs with
     | Some (l, b, r) => bind (split (heap_head s + span l) m) (fun _ => take (heap_head s + span l)) s
     | None => Panic "kmalloc: out of memory"
     end).
Proof.
  intros L Hn. unfold kmalloc, gets.
  rewrite (bind_ok _ _ _ _ _ (ensure_init_ok d s bs L)). erewrite bind_ok by done.
  rewrite (round_request_ok s bs n L Hn). destruct (_ <? _); [done|].
  erewrite bind_ok by done. unfold id.
  pose proof (malloc_scan_run s (round16 (if n =? 0 then 1 else n)) bs [] (walk_fuel s) L
                (walk_fuel_enough _ _ L)) as H.
  cbn [span foldr] in H. rewrite Z.add_0_r, (layout_head _ _ L) in H. exact H.
Qed.

Lemma kmalloc_spec d s bs n :
  heap_inv s bs -> 0 <= n ->
  match a_malloc (heap_head s) bs n with
  | Some (p, bs') => exists s', kmalloc d n s = Ok p s' /\ heap_inv s' bs' /\ same_arena s s'
                                /\ keeps s bs bs' s'
  | None => kmalloc d n s = Panic "kmalloc: out of memory"
  end.
Proof.
  intros I Hn. apply inv_counted in I as (L & Hc & Hk). rewrite (kmalloc_run d s bs n L Hn).
  unfold a_malloc. destruct (_ <? _); [done|].
  assert (Hm : 0 <= (if n =? 0 then 1 else n) /\ 1 <= (if n =? 0 then 1 else n)) by (ztest; lia).
  pose proof (round16_range _ (proj1 Hm)) as [Hr Hr16]. cbv zeta.
  destruct (first_fit _ _ _ bs) as [[[l b] r]|] eqn:Ef; [| done].
  apply first_fit_some in Ef as (E & Hb & Hfit & _). simpl in E. subst bs. b2p.
  rewrite coalesced_app in Hc. b2p.
  apply alloc_at_ok; try done. Z.div_mod_to_equations. lia.
Qed.

(** ** kfree *)

Lemma chain_ext_placed h h' p a bs nxt :
  (forall x b, placed a bs x b -> h' x = h x) -> chain h p a bs nxt -> chain h' p a bs nxt.
Proof.
  revert p a. induction bs as [|b r IH]; intros p a He; [done|]. simpl. intros [E H]. split.
  - rewrite (He a b); [done|]. exists [], r. simpl. split; [done | lia].
  - apply IH; [| done]. intros x c (l & r' & -> & ->). apply (He _ c).
    exists (b :: l), r'. simpl. split; [done | lia].
Qed.

(** Writing inside a payload leaves every header alone. *)
Lemma put_bytes_layout s bs a b p n f :
  layout s bs -> placed (heap_head s) bs a b -> a + HDR <= p -> p + n <= a + HDR + ssize b ->
  layout (put_bytes p n f s) bs.
Proof.
  intros L Hp Hlo Hhi. destruct L as [Hc Hb Hsp Ht Hs Ha Hn]. constructor; try done. simpl.
  eapply chain_ext_placed; [| exact Hc]. intros x c Hx.
  pose proof (placed_disjoint _ _ _ _ _ _ Hs Hp Hx) as D.
  pose proof (placed_range _ _ _ _ Hs Hx) as (_ & _ & Hcz). unfold hits. rewrite HDR_eq in *.
  destruct (0 <? n) eqn:?, (x <? p + n) eqn:?, (p <? x + 32) eqn:?; simpl; b2p; try done.
  destruct D as [[-> ->]|[D|D]]; lia.
Qed.

(** [merge_next] on a free head. *)
Lemma merge_free_head z r :
  sizes_ok r -> exists z' r', merge_next (Seg true z :: r) = Seg true z' :: r' /\ z <= z'
    /\ HDR + z' + span r' = HDR + z + span r
    /\ (coalesced r = true -> coalesced (Seg true z' :: r') = true)
    /\ used_bytes r' = used_bytes r /\ used_count r' = used_count r
    /\ free_count r' = free_count r - (if first_free r then 1 else 0)
    /\ (forall base x, in_hdr (base + HDR + z') r' x -> in_hdr (base + HDR + z) r x).
Proof.
  intros Hs. destruct r as [|c r].
  { exists z, []. split_and!; try done; simpl; lia. }
  cbn [merge_next first_free sfree ssize]. rewrite sizes_ok_cons in Hs. destruct (sfree c) eqn:Hc.
  - exists (z + (HDR + ssize c)), r. rewrite span_cons, HDR_eq. simpl. rewrite Hc. simpl.
    split_and!; try done; try lia. intros base x Hx. rewrite in_hdr_cons. right. rewrite HDR_eq in *.
    by replace (base + 32 + z + 32 + ssize c) with (base + 32 + (z + (32 + ssize c))) by lia.
  - exists z, (c :: r). split_and!; try done; simpl; rewrite ?Hc; try lia. simpl. done.
Qed.

Lemma merge_back_snoc l q bs :
  merge_back (l ++ [q]) bs = l ++ (if sfree q then merge_next (q :: bs) else q :: bs).
Proof.
  induction l as [|c l IH]; [done|]. simpl. rewrite IH.
  destruct l; done.
Qed.

Lemma seg_eta b : Seg (sfree b) (ssize b) = b. Proof. by destruct b. Qed.

(** The backward merge at the end of kfree. *)
Definition free_back (b : Z) : prog heap unit :=
  bind (load b) (fun blk =>
  if bprev blk =? 0 then ret tt else
  bind (load (bprev blk)) (fun pb =>
  if bfree pb then coalesce_next (bprev blk) else ret tt)).

Lemma free_back_ok s l c r a :
  layout s (l ++ c :: r) -> a = heap_head s + span l -> 0 <= stat_free_blocks s < 2 ^ 63 ->
  sfree c = true ->
  exists s', free_back a s = Ok tt s' /\ layout s' (merge_back l (c :: r)) /\ same_arena s s'
    /\ bump_free (if last_free l then -1 else 0) s s'
    /\ keeps s (l ++ c :: r) (merge_back l (c :: r)) s'
    /\ (last_free l = true -> exists x, hdrs s' a = Some x /\ magic x = 0).
Proof.
  intros L Ha Hf Hc. pose proof (layout_bounds _ _ _ _ L) as B.
  pose proof (chain_focus _ _ _ _ _ (lay_chain _ _ L)) as [Ef _]. rewrite <- Ha in Ef.
  unfold free_back. erewrite bind_ok by (by apply load_ok). cbn [bprev].
  destruct l as [|q l _] using rev_ind.
  - exists s. split_and!; try done. by apply bump_free_0.
  - rewrite last_addr_app, last_free_app, merge_back_snoc, <- app_assoc in *. simpl app in *.
    rewrite span_app in B. pose proof (layout_bounds _ _ _ _ L) as B'.
    pose proof (chain_focus _ _ _ _ _ (lay_chain _ _ L)) as [Eq _].
    destruct (Z.eqb_spec (heap_head s + span l) 0); [lia|].
    erewrite bind_ok by (by apply load_ok). cbn [bfree]. destruct (sfree q) eqn:Hq.
    + destruct (coalesce_next_ok s l q (c :: r) _ L eq_refl Hf) as (s' & E & L' & A' & F' & K' & M').
      cbn [first_free] in F', M'. rewrite Hc in F', M'. specialize (M' eq_refl).
      replace (heap_head s + span l + HDR + ssize q) with a in M' by (rewrite Ha, span_app; simpl; lia). simpl in L', K'. rewrite Hq in L', K'. exists s'. split_and!; done.
    + exists s. split_and!; try done. by apply bump_free_0.
Qed.

Lemma kfree_unfold d p s bs b :
  layout s bs -> p <> 0 -> hdrs s (block_of p) = Some b -> magic b = BLOCK_MAGIC -> bfree b = false ->
  kfree d p s =
  bind (upd_hdr (block_of p) (set_free true)) (fun _ =>
  bind (modify (fun s => with_stats (wrap64 (stat_in_use s - bsize b)) (stat_peak s)
                     (wrap64 (stat_used_blocks s - 1)) (wrap64 (stat_free_blocks s + 1))
                     (stat_allocs s) (wrap64 (stat_frees s + 1)) s)) (fun _ =>
  bind (modify (put_bytes (payload_of (block_of p)) (bsize b)
            (memset (payload_of (block_of p)) POISON_BYTE (bsize b)))) (fun _ =>
  bind (coalesce_next (block_of p)) (fun _ => free_back (block_of p))))) s.
Proof.
  intros L Hp Hb Hm Hf. unfold kfree. destruct (Z.eqb_spec p 0); [done|].
  rewrite (bind_ok _ _ _ _ _ (ensure_init_ok d s bs L)).
  erewrite bind_ok by (by apply load_ok). unfold check_header. rewrite Hm, Z.eqb_refl.
  erewrite bind_ok by done. rewrite Hf. done.
Qed.

(** The state between the two merges: marked, counted and poisoned. *)
Lemma free_mark_ok s l b r a :
  layout s (l ++ b :: r) -> a = heap_head s + span l ->
  exists s', bind (upd_hdr a (set_free true)) (fun _ =>
    bind (modify (fun s => with_stats (wrap64 (stat_in_use s - ssize b)) (stat_peak s)
                     (wrap64 (stat_used_blocks s - 1)) (wrap64 (stat_free_blocks s + 1))
                     (stat_allocs s) (wrap64 (stat_frees s + 1)) s)) (fun _ =>
    modify (put_bytes (a + HDR) (ssize b) (memset (a + HDR) POISON_BYTE (ssize b))))) s = Ok tt s'
    /\ layout s' (l ++ Seg true (ssize b) :: r) /\ same_arena s s'
    /\ stats s' = (wrap64 (stat_in_use s - ssize b), stat_peak s, wrap64 (stat_used_blocks s - 1),
                   wrap64 (stat_free_blocks s + 1), stat_allocs s, wrap64 (stat_frees s + 1))
    /\ (forall x, ~ in_hdr (heap_head s) (l ++ b :: r) x ->
          bytes s' x = if (a + HDR <=? x) && (x <? a + HDR + ssize b) then Some POISON_BYTE else bytes s x).
Proof.
  intros L Ha. pose proof (layout_bounds _ _ _ _ L) as B.
  destruct (set_free_ok s l b r a true L Ha) as (s1 & E1 & L1 & R1 & K1).
  destruct (regs_arena _ _ R1) as [A1 S1]. rewrite (bind_ok _ _ _ _ _ E1).
  unfold modify. erewrite bind_ok by done. eexists. split; [done|].
  split; [| split; [done | split]].
  - eapply put_bytes_layout with (a := a) (b := Seg true (ssize b)).
    + eapply layout_regs; [exact L1 | done | done].
    + simpl. destruct A1 as [-> _]. rewrite Ha. apply placed_app_cons.
    + lia.
    + simpl. lia.
  - unfold stats in *. simpl. injection S1 as -> -> -> -> -> ->. done.
  - intros x Hx. cbn [bytes put_bytes with_mem with_stats]. rewrite memset_spec by lia.
    change (wrap8 POISON_BYTE) with POISON_BYTE. rewrite K1; [done | done |].
    intros H. apply Hx. rewrite in_hdr_app, in_hdr_cons in *. done.
Qed.

(** What the backward merge does to the counts. *)
Lemma merge_back_spec l z r :
  coalesced l = true -> coalesced (Seg true z :: r) = true ->
  let bs := merge_back l (Seg true z :: r) in
  coalesced bs = true /\ used_bytes bs = used_bytes l + used_bytes r
  /\ used_count bs = used_count l + used_count r
  /\ free_count bs = free_count l + 1 + free_count r - (if last_free l then 1 else 0)
  /\ (forall base x, in_hdr base bs x -> in_hdr base (l ++ Seg true z :: r) x).
Proof.
  intros Hl Hr bs. subst bs. destruct l as [|q l _] using rev_ind.
  { split_and!; try done; simpl; lia. }
  rewrite merge_back_snoc, last_free_app. rewrite coalesced_app in Hl. simpl in Hl, Hr.
  assert (Hf : first_free r = false) by (destruct (first_free r); done).
  assert (Hcr : coalesced r = true) by (destruct (coalesced r); [done | by rewrite andb_false_r in Hr]).
  assert (Hcl : coalesced l = true) by (destruct (coalesced l); done).
  destruct (sfree q) eqn:Hq; cbn [merge_next sfree ssize];
    rewrite coalesced_app, !used_bytes_app, !used_count_app, !free_count_app; simpl; rewrite Hq; simpl;
    rewrite Hf, Hcr, Hcl in *.
  - split_and!; try lia.
    + simpl in Hl. by destruct (last_free l).
    + intros base x. rewrite <- app_assoc, !in_hdr_app. simpl app. rewrite !in_hdr_cons. simpl.
      replace (base + span l + HDR + (ssize q + (HDR + z))) with (base + span l + HDR + ssize q + HDR + z) by lia.
      rewrite ?Z.add_0_r, ?Z.add_assoc. tauto.
  - rewrite andb_false_r. split_and!; try done; try lia.
    intros base x. by rewrite <- app_assoc.
Qed.

Lemma block_of_payload a : 0 <= a < 2 ^ 63 -> block_of (a + HDR) = a /\ payload_of a = a + HDR.
Proof.
  intros. unfold block_of, payload_of. rewrite HDR_eq. split; rewrite wrap64_small; lia.
Qed.

(** The list after a free: nothing but the freed segment changes hands. *)
Lemma free_list_spec l b r :
  sizes_ok r -> coalesced (l ++ b :: r) = true -> sfree b = false ->
  let bs := merge_back l (merge_next (Seg true (ssize b) :: r)) in
  coalesced bs = true /\ used_bytes bs = used_bytes (l ++ b :: r) - ssize b
  /\ used_count bs = used_count (l ++ b :: r) - 1
  /\ free_count bs = free_count (l ++ b :: r) + 1 + (if first_free r then -1 else 0)
                     + (if last_free l then -1 else 0)
  /\ (forall base x, in_hdr base bs x -> in_hdr base (l ++ b :: r) x).
Proof.
  intros Hs Hc Hb. rewrite coalesced_app in Hc. simpl in Hc. rewrite Hb in Hc. simpl in Hc.
  assert (Hcl : coalesced l = true) by (destruct (coalesced l); done).
  assert (Hcr : coalesced r = true) by (rewrite Hcl in Hc; destruct (coalesced r); done).
  destruct (merge_free_head (ssize b) r Hs) as (z & r' & Em & Hz & Hsz & Hcz & M1 & M2 & M3 & Mh).
  rewrite Em. cbv zeta. destruct (merge_back_spec l z r' Hcl (Hcz Hcr)) as (P1 & P2 & P3 & P4 & P5).
  rewrite P2, P3, P4, used_bytes_app, used_count_app, free_count_app, M1, M2, M3. simpl. rewrite Hb.
  split_and!; try done; try lia.
  - destruct (last_free l), (first_free r); lia.
  - intros base x Hx. apply P5 in Hx. rewrite in_hdr_app, in_hdr_cons in *. simpl in Hx.
    destruct Hx as [?|[?|Hx]]; [by left | by right; left | right; right; by apply Mh].
Qed.

(** Mark, poison and both merges, on the store. *)
Lemma free_run_ok d s l b r a :
  layout s (l ++ b :: r) -> sfree b = false -> a = heap_head s + span l ->
  0 <= stat_free_blocks s -> stat_free_blocks s + 1 < 2 ^ 63 ->
  (first_free r = true -> 1 <= stat_free_blocks s) ->
  exists s', kfree d (a + HDR) s = Ok tt s'
    /\ layout s' (merge_back l (merge_next (Seg true (ssize b) :: r))) /\ same_arena s s'
    /\ stat_in_use s' = wrap64 (stat_in_use s - ssize b) /\ stat_peak s' = stat_peak s
    /\ stat_used_blocks s' = wrap64 (stat_used_blocks s - 1)
    /\ stat_free_blocks s' = wrap64 (stat_free_blocks s + 1 + (if first_free r then -1 else 0)
                                     + (if last_free l then -1 else 0))
    /\ (last_free l = true -> exists x, hdrs s' a = Some x /\ magic x = 0)
    /\ (forall x, ~ in_hdr (heap_head s) (l ++ b :: r) x ->
          (forall y, in_hdr (heap_head s) (merge_back l (merge_next (Seg true (ssize b) :: r))) y ->
             in_hdr (heap_head s) (l ++ b :: r) y) ->
          bytes s' x = if (a + HDR <=? x) && (x <? a + HDR + ssize b) then Some POISON_BYTE else bytes s x).
Proof.
  intros L Hb Ha Hf0 Hf1 Hff. pose proof (layout_bounds _ _ _ _ L) as B. rewrite HDR_eq in B.
  pose proof (chain_focus _ _ _ _ _ (lay_chain _ _ L)) as [Ef _]. rewrite <- Ha in Ef.
  pose proof (lay_sizes _ _ L) as Hs. rewrite sizes_ok_app, sizes_ok_cons in Hs.
  destruct (block_of_payload a) as [Eb Ep]; [lia|].
  erewrite kfree_unfold; [| exact L | rewrite HDR_eq; lia | by rewrite Eb | done | done].
  rewrite Eb, Ep. cbn [bsize]. destruct (free_mark_ok s l b r a L Ha) as (s1 & E1 & L1 & A1 & S1 & By1).
  unfold modify, bind at 1 2 in E1. unfold modify, bind at 1 2.
  destruct (upd_hdr a (set_free true) s) as [u s0| | |]; try done.
  erewrite bind_ok by exact E1. clear E1 u s0.
  unfold stats in S1. injection S1 as Si1 Sp1 Su1 Sf1 _ _. rewrite wrap64_small in Sf1 by lia.
  destruct (coalesce_next_ok s1 l _ r a L1) as (s2 & E2 & L2 & A2 & F2 & K2 & _);
    [by destruct A1 as [-> _] | lia |]. rewrite (bind_ok _ _ _ _ _ E2).
  destruct (merge_free_head (ssize b) r ltac:(tauto)) as (z & r' & Em & _ & _ & _ & _ & _ & _ & Mh).
  rewrite Em in *. unfold bump_free, stats in F2. injection F2 as Si2 Sp2 Su2 Sf2 _ _.
  assert (A12 := same_arena_trans _ _ _ A1 A2). rewrite Sf1, wrap64_small in Sf2 by (destruct (first_free r); lia).
  destruct (free_back_ok s2 l (Seg true z) r' a L2) as (s3 & E3 & L3 & A3 & F3 & K3 & M3);
    [by destruct A12 as [-> _] | rewrite Sf2; destruct (first_free r); lia | done |].
  unfold bump_free, stats in F3. injection F3 as Si3 Sp3 Su3 Sf3 _ _.
  exists s3. split_and!; try congruence; try done; [by eapply same_arena_trans |].
  intros x Hx Hsub. assert (Hh : forall y, in_hdr (heap_head s) (l ++ Seg true z :: r') y -> in_hdr (heap_head s) (l ++ b :: r) y).
  { intros y. rewrite !in_hdr_app, !in_hdr_cons. simpl. specialize (Mh (heap_head s + span l) y). tauto. }
  destruct A1 as [H1 _], A12 as [H12 _]. unfold keeps in K2, K3. rewrite H1 in K2. rewrite H12 in K3.
  rewrite K3 by (intros HH; apply Hx; auto). rewrite K2; [by apply By1 | |].
  - intros HH. apply Hx. rewrite in_hdr_app, in_hdr_cons in *. done.
  - intros HH. apply Hx. auto.
Qed.

Lemma kfree_spec d s l b r a :
  heap_inv s (l ++ b :: r) -> sfree b = false -> a = heap_head s + span l ->
  exists s', kfree d (a + HDR) s = Ok tt s'
    /\ heap_inv s' (merge_back l (merge_next (Seg true (ssize b) :: r))) /\ same_arena s s'
    /\ (last_free l = true -> exists x, hdrs s' a = Some x /\ magic x = 0)
    /\ (forall x, ~ in_hdr (heap_head s) (l ++ b :: r) x ->
        bytes s' x = if (a + HDR <=? x) && (x <? a + HDR + ssize b) then Some POISON_BYTE else bytes s x).
Proof.
  intros I Hb Ha. apply inv_counted in I as (L & Hc & Ci & Cu & Cf & Cp).
  pose proof (layout_counts _ _ L) as U. rewrite HDR_eq in U.
  pose proof (lay_sizes _ _ L) as Hs. rewrite sizes_ok_app, sizes_ok_cons in Hs.
  destruct (free_list_spec l b r ltac:(tauto) Hc Hb) as (P1 & P2 & P3 & P4 & P5).
  assert (Hu : 1 <= used_count (l ++ b :: r) /\ ssize b <= used_bytes (l ++ b :: r)).
  { rewrite used_count_app, used_bytes_app. simpl. rewrite Hb.
    pose proof (counts_bound l ltac:(tauto)). pose proof (counts_bound r ltac:(tauto)). lia. }
  assert (Hff : first_free r = true -> 1 <= free_count (l ++ b :: r)).
  { intros Hf. rewrite free_count_app. simpl. destruct r as [|c r]; [done|]. simpl in *. rewrite Hf.
    rewrite sizes_ok_cons in Hs.
    pose proof (counts_bound l ltac:(tauto)). pose proof (counts_bound r ltac:(tauto)). destruct (sfree b); lia. }
  destruct (free_run_ok d s l b r a L Hb Ha) as (s' & E & L' & A' & S1 & S2 & S3 & S4 & M' & By); try lia.
  { rewrite Cf. done. }
  exists s'. split_and!; try done; [| intros x Hx; apply By; auto].
  pose proof (layout_counts _ _ L') as V. rewrite HDR_eq in V. destruct U as (U1 & _ & U2 & U3 & U4).
  apply inv_counted. split_and!; try done. unfold counted.
  rewrite S1, S2, S3, S4, Ci, Cu, Cf, P2, P3, P4. rewrite P2, P3, P4 in V.
  unwrap64. split_and!; lia.
Qed.
