(* ===== verification/HeapRealloc.v ===== *)
(** krealloc, kcalloc and kmemalign against the list-level allocator. *)

From S2P Require Import Prelude Mem Heap HeapSpec HeapProofs HeapOps.

(** ** Shrinking in place *)

(** A live segment cut down to [want], its remainder merged forward. *)
Definition shrink_seg (b : seg) (want : Z) (r : list seg) : list seg :=
  if ssize b <? want + HDR + MIN_PAYLOAD then b :: r
  else Seg (sfree b) want :: merge_next (Seg true (ssize b - want - HDR) :: r).

(** The store after a shrink that cut. *)
Lemma shrink_run s l b r a want :
  layout s (l ++ b :: r) -> a = heap_head s + span l -> 0 <= stat_free_blocks s -> stat_free_blocks s + 1 < 2 ^ 63 ->
  16 <= want -> want mod 16 = 0 -> want + HDR + MIN_PAYLOAD <= ssize b ->
  let bs' := l ++ Seg (sfree b) want :: merge_next (Seg true (ssize b - want - HDR) :: r) in
  exists s', shrink a want s = Ok tt s' /\ layout s' bs' /\ same_arena s s'
    /\ stats s' = (wrap64 (stat_in_use s - (ssize b - want)), stat_peak s, stat_used_blocks s,
                   wrap64 (stat_free_blocks s + 1 + (if first_free r then -1 else 0)),
                   stat_allocs s, stat_frees s)
    /\ keeps s (l ++ b :: r) bs' s'.
Proof.
  intros L Ha Hf0 Hf1 H16 Hm Hle bs'. unfold MIN_PAYLOAD in *.
  pose proof (layout_bounds _ _ _ _ L) as B. rewrite HDR_eq in B, Hle.
  pose proof (chain_focus _ _ _ _ _ (lay_chain _ _ L)) as [Ef _]. rewrite <- Ha in Ef.
  pose proof (lay_sizes _ _ L) as Hs. rewrite sizes_ok_app, sizes_ok_cons in Hs.
  unfold shrink. erewrite bind_ok by (by apply load_ok). cbn [bsize].
  destruct (split_ok s l b r a want L Ha) as (s1 & E1 & L1 & A1 & F1 & K1); try done; try lia.
  rewrite (bind_ok _ _ _ _ _ E1). unfold split_seg, MIN_PAYLOAD in *.
  destruct (Z.ltb_spec (ssize b) (want + HDR + 16)); [rewrite HDR_eq in *; lia|]. cbn [app] in *.
  pose proof (chain_focus _ _ _ _ _ (lay_chain _ _ L1)) as [Ef1 _].
  assert (Hh := proj1 A1). rewrite Hh, <- Ha in Ef1.
  erewrite bind_ok by (by apply load_ok). cbn [bsize ssize].
  destruct (Z.eqb_spec want (ssize b)); [lia|]. unfold modify. erewrite bind_ok by done.
  set (s2 := with_stats _ _ _ _ _ _ s1). cbn [bnext link ssize].
  destruct (Z.eqb_spec (a + HDR + want) 0); [rewrite HDR_eq in *; lia|].
  unfold bump_free, stats in F1. injection F1 as F1 F2 F3 F4 F5 F6. cbn in F4. rewrite wrap64_small in F4 by lia.
  destruct (coalesce_next_ok s2 (l ++ [Seg (sfree b) want]) (Seg true (ssize b - want - HDR)) r (a + HDR + want))
    as (s3 & E3 & L3 & A3 & F' & K3 & _).
  { rewrite <- app_assoc. by eapply layout_regs. }
  { rewrite span_app, span_cons. subst s2. cbn. rewrite Hh. lia. }
  { subst s2. cbn. lia. }
  rewrite <- !app_assoc in *. cbn [app] in *. exists s3. split_and!; try done.
  - eapply same_arena_trans; [exact A1 | exact A3].
  - unfold bump_free, stats in *. subst s2. cbn in F'. injection F' as -> -> -> -> -> ->.
    by rewrite F1, F2, F3, F4, F5, F6.
  - eapply keeps_trans; [exact A1 | | exact K1 | exact K3].
    intros x. unfold bs'. rewrite !in_hdr_app, !in_hdr_cons. simpl ssize.
    destruct (merge_free_head (ssize b - want - HDR) r ltac:(tauto)) as (z & r' & -> & _).
    rewrite in_hdr_cons. replace (heap_head s + span l + HDR + want + HDR + (ssize b - want - HDR))
      with (heap_head s + span l + HDR + ssize b) by lia. tauto.
Qed.

Lemma shrink_list_spec l b r want :
  sizes_ok r -> coalesced (l ++ b :: r) = true -> sfree b = false ->
  let bs' := l ++ Seg (sfree b) want :: merge_next (Seg true (ssize b - want - HDR) :: r) in
  coalesced bs' = true /\ used_bytes bs' = used_bytes (l ++ b :: r) - (ssize b - want)
  /\ used_count bs' = used_count (l ++ b :: r)
  /\ free_count bs' = free_count (l ++ b :: r) + 1 + (if first_free r then -1 else 0).
Proof.
  intros Hs Hc Hb. cbv zeta.
  destruct (merge_free_head (ssize b - want - HDR) r Hs) as (z & r' & -> & _ & _ & Hcz & M1 & M2 & M3 & _).
  rewrite coalesced_app in Hc. simpl in Hc. rewrite Hb in Hc. simpl in Hc.
  assert (Hcl : coalesced l = true) by (destruct (coalesced l); done).
  assert (Hcr : coalesced r = true) by (rewrite Hcl in Hc; destruct (coalesced r); done).
  rewrite coalesced_app, !used_bytes_app, !used_count_app, !free_count_app. specialize (Hcz Hcr).
  simpl in *. rewrite Hb, Hcl, Hcz, M1, M2, M3. simpl. rewrite andb_false_r.
  split_and!; try done; try lia. destruct (first_free r); lia.
Qed.

Lemma shrink_ok s l b r a want :
  heap_inv s (l ++ b :: r) -> sfree b = false -> a = heap_head s + span l ->
  16 <= want -> want mod 16 = 0 -> want <= ssize b ->
  exists s', shrink a want s = Ok tt s' /\ heap_inv s' (l ++ shrink_seg b want r) /\ same_arena s s'
    /\ keeps s (l ++ b :: r) (l ++ shrink_seg b want r) s'.
Proof.
  intros I Hb Ha H16 Hm Hle. assert (I' := I). apply inv_counted in I as (L & Hc & Ci & Cu & Cf & Cp).
  pose proof (layout_counts _ _ L) as U. rewrite HDR_eq in U.
  pose proof (chain_focus _ _ _ _ _ (lay_chain _ _ L)) as [Ef _]. rewrite <- Ha in Ef.
  pose proof (lay_sizes _ _ L) as Hs. rewrite sizes_ok_app, sizes_ok_cons in Hs.
  unfold shrink_seg. destruct (Z.ltb_spec (ssize b) (want + HDR + MIN_PAYLOAD)) as [Hlt|Hge].
  - exists s. split_and!; try done.
    assert (E : split a want s = Ok tt s).
    { unfold split. erewrite bind_ok by (by apply load_ok). cbn [bsize].
      pose proof (layout_bounds _ _ _ _ L) as B. unfold MIN_PAYLOAD in *. rewrite HDR_eq in *.
      rewrite wrap64_small by lia. by rewrite (proj2 (Z.ltb_lt _ _) Hlt). }
    unfold shrink. erewrite bind_ok by (by apply load_ok). rewrite (bind_ok _ _ _ _ _ E).
    erewrite bind_ok by (by apply load_ok). cbn [bsize]. by rewrite Z.eqb_refl.
  - destruct (shrink_run s l b r a want L Ha) as (s' & E & L' & A' & S' & K'); try done; try lia.
    exists s'. split_and!; try done. apply inv_counted.
    destruct (shrink_list_spec l b r want ltac:(tauto) Hc Hb) as (P1 & P2 & P3 & P4).
    split_and!; try done. pose proof (layout_counts _ _ L') as V. rewrite P2, P3, P4, HDR_eq in V.
    unfold stats in S'. injection S' as S1 S2 S3 S4 _ _. unfold counted.
    unfold MIN_PAYLOAD in *. rewrite HDR_eq in Hge.
    rewrite S1, S2, S3, S4, Ci, Cu, Cf, P2, P3, P4. unwrap64. split_and!; lia.
Qed.

(** ** Growing in place *)

Definition grow_seg (b c : seg) (want : Z) (r : list seg) : list seg :=
  split_seg (Seg (sfree b) (ssize b + (HDR + ssize c))) want ++ r.

Lemma grow_run s l b c r a want :
  layout s (l ++ b :: c :: r) -> a = heap_head s + span l -> sfree b = false -> sfree c = true ->
  1 <= stat_free_blocks s < 2 ^ 63 -> 16 <= want -> want mod 16 = 0 -> want <= ssize b + (HDR + ssize c) ->
  let bs' := l ++ grow_seg b c want r in
  let z := ssize (hd b (grow_seg b c want r)) in
  exists s', grow a want s = Ok tt s' /\ layout s' bs' /\ same_arena s s'
    /\ stat_in_use s' = wrap64 (wrap64 (stat_in_use s - ssize b) + z)
    /\ stat_peak s' = Z.max (stat_peak s) (stat_in_use s')
    /\ stat_used_blocks s' = stat_used_blocks s
    /\ stat_free_blocks s' = stat_free_blocks s - 1
         + (Z.of_nat (length (split_seg (Seg (sfree b) (ssize b + (HDR + ssize c))) want)) - 1)
    /\ keeps s (l ++ b :: c :: r) bs' s'.
Proof.
  intros L Ha Hb Hc Hf H16 Hm Hle bs' z. pose proof (layout_bounds _ _ _ _ L) as B. rewrite HDR_eq in B.
  pose proof (chain_focus _ _ _ _ _ (lay_chain _ _ L)) as [Ef _]. rewrite <- Ha in Ef.
  unfold grow, modify. erewrite bind_ok by (by apply load_ok). cbn [bsize]. erewrite bind_ok by done.
  set (s1 := with_stats _ _ _ _ _ _ s). set (big := Seg (sfree b) (ssize b + (HDR + ssize c))) in *.
  destruct (merge_free_ok s1 l b c r a) as (s2 & E2 & L2 & A2 & F2 & K2 & _); try done.
  { by eapply layout_regs. }
  rewrite (bind_ok _ _ _ _ _ E2). unfold bump_free, stats in F2. injection F2 as F2i F2p F2u F2f F2a F2r.
  cbn in F2f. rewrite wrap64_small in F2f by lia. fold big in L2, K2.
  assert (Hh2 : heap_head s2 = heap_head s) by apply A2.
  destruct (split_ok s2 l big r a want L2) as (s3 & E3 & L3 & A3 & F3 & K3); try done; try congruence; try lia.
  rewrite (bind_ok _ _ _ _ _ E3). unfold bump_free, stats in F3. injection F3 as F3i F3p F3u F3f F3a F3r.
  assert (Hh3 : heap_head s3 = heap_head s) by (destruct A3; congruence).
  assert (Hlen : 1 <= Z.of_nat (length (split_seg big want)) <= 2)
    by (unfold split_seg; destruct (_ <? _); simpl; lia).
  rewrite wrap64_small in F3f by lia.
  assert (Hd : exists t, split_seg big want = Seg false z :: t).
  { unfold z, grow_seg. fold big. unfold split_seg.
    destruct (_ <? _); eexists; simpl; rewrite ?Hb; subst big; simpl; rewrite ?Hb; done. }
  destruct Hd as [t Ht]. unfold bs', grow_seg. fold big. rewrite Ht in *. cbn [app] in *.
  destruct (set_free_ok s3 l (Seg false z) (t ++ r) a false L3) as (s4 & E4 & L4 & R4 & K4); [congruence|].
  rewrite (bind_ok _ _ _ _ _ E4). destruct (regs_arena _ _ R4) as [A4 S4]. cbn [ssize] in *.
  pose proof (chain_focus _ _ _ _ _ (lay_chain _ _ L4)) as [Ef4 _].
  assert (Hh4 : heap_head s4 = heap_head s) by (destruct A4; congruence). rewrite Hh4, <- Ha in Ef4.
  erewrite bind_ok by (by apply load_ok). cbn [bsize ssize].
  eexists. split; [done|]. unfold stats in S4. injection S4 as S4i S4p S4u S4f _ _.
  split_and!; cbn; try congruence.
  - by eapply layout_regs.
  - split; cbn; [congruence|]. destruct A2, A3, A4. cbn in *. congruence.
  - rewrite S4i, S4p, F3i, F3p, F2i, F2p. cbn. ztest; lia.
  - cbn [length] in F3f. rewrite S4f, F3f, F2f. lia.
  - assert (K24 : keeps s2 (l ++ big :: r) (l ++ Seg false z :: t ++ r) s4).
    { eapply keeps_trans; [exact A3 | | exact K3 | exact K4]. tauto. }
    assert (K12 : keeps s (l ++ b :: c :: r) (l ++ big :: r) s2) by exact K2.
    eapply keeps_trans; [exact A2 | | exact K12 | exact K24].
    intros x. subst big. rewrite !in_hdr_app, !in_hdr_cons. simpl ssize.
    replace (heap_head s + span l + HDR + (ssize b + (HDR + ssize c)))
      with (heap_head s + span l + HDR + ssize b + HDR + ssize c) by lia. tauto.
Qed.

Lemma grow_ok s l b c r a want :
  heap_inv s (l ++ b :: c :: r) -> a = heap_head s + span l -> sfree b = false -> sfree c = true ->
  16 <= want -> want mod 16 = 0 -> want <= ssize b + (HDR + ssize c) ->
  exists s', grow a want s = Ok tt s' /\ heap_inv s' (l ++ grow_seg b c want r) /\ same_arena s s'
    /\ keeps s (l ++ b :: c :: r) (l ++ grow_seg b c want r) s'.
Proof.
  intros I Ha Hb Hc H16 Hm Hle. apply inv_counted in I as (L & Hco & Ci & Cu & Cf & Cp).
  pose proof (layout_counts _ _ L) as U. rewrite HDR_eq in U.
  pose proof (lay_sizes _ _ L) as Hs. rewrite sizes_ok_app, !sizes_ok_cons in Hs.
  pose proof (counts_bound l ltac:(tauto)) as Bl. pose proof (counts_bound r ltac:(tauto)) as Br.
  rewrite used_bytes_app, used_count_app, free_count_app in *. simpl in Ci, Cu, Cf, Cp, U. rewrite Hb, Hc in *.
  destruct (grow_run s l b c r a want L Ha Hb Hc) as (s' & E & L' & A' & S1 & S2 & S3 & S4 & K'); try done; [lia|].
  exists s'. split_and!; try done. apply inv_counted. split; [done|].
  rewrite coalesced_app in Hco. simpl in Hco. rewrite Hb, Hc in Hco. simpl in Hco. b2p.
  pose proof (layout_counts _ _ L') as V. unfold counted.
  rewrite S2, S3, S4. unfold grow_seg, split_seg in *. rewrite Hb in *.
  rewrite coalesced_app, !used_bytes_app, !used_count_app, !free_count_app in *.
  destruct (ssize _ <? _); cbn [length] in *; simpl in *;
    rewrite ?andb_false_r; repeat match goal with H : _ = true |- _ => rewrite H end;
    repeat match goal with H : _ = false |- _ => rewrite H end;
    rewrite wrap64_small in S1 by (rewrite (wrap64_small (_ - _)) by lia; lia);
    rewrite wrap64_small in S1 by lia; split_and!; try done; lia.
Qed.

(** ** Who stays where *)

(** A live payload: [p] was returned for a segment of [z] bytes. *)
Definition live (base : Z) (bs : list seg) (p z : Z) : Prop :=
  exists b, placed base bs (p - HDR) b /\ sfree b = false /\ ssize b = z.

Lemma placed_replace base l b r mid a c :
  span mid = HDR + ssize b -> sfree b <> sfree c ->
  placed base (l ++ b :: r) a c -> placed base (l ++ mid ++ r) a c.
Proof.
  intros Hsp Hne (l1 & r1 & E & ->).
  destruct (app_cons_cases _ _ _ _ _ _ E) as [(-> & -> & ->)|[(m & -> & ->)|(m & -> & ->)]].
  - done.
  - exists (l ++ mid ++ m), r1. rewrite <- !app_assoc. split; [done|].
    rewrite !span_app, span_cons, Hsp. lia.
  - exists l1, (m ++ mid ++ r). rewrite <- !app_assoc. done.
Qed.

Lemma a_malloc_some base bs n q bs' :
  a_malloc base bs n = Some (q, bs') ->
  let m := round16 (if n =? 0 then 1 else n) in
  exists l b r, bs = l ++ b :: r /\ sfree b = true /\ m <= ssize b /\ q = base + span l + HDR
    /\ bs' = l ++ mark false (split_seg b m) ++ r.
Proof.
  unfold a_malloc. destruct (_ <? _); [done|]. cbv zeta.
  destruct (first_fit _ _ _ bs) as [[[l b] r]|] eqn:Ef; [|done]. intros [= <- <-].
  apply first_fit_some in Ef as (E & Hb & Hfit & _). b2p. exists l, b, r. done.
Qed.

Lemma mark_split b m : sfree b = true ->
  span (mark false (split_seg b m)) = HDR + ssize b
  /\ exists t, mark false (split_seg b m) = Seg false (if ssize b <? m + HDR + MIN_PAYLOAD then ssize b else m) :: t.
Proof.
  intros Hb. unfold split_seg. destruct (_ <? _); simpl; (split; [lia|]); eexists; reflexivity.
Qed.

(** An allocation keeps every live payload and adds one. *)
Lemma a_malloc_count base bs n q bs' :
  a_malloc base bs n = Some (q, bs') -> used_count bs' = used_count bs + 1.
Proof.
  intros H. apply a_malloc_some in H as (l & b & r & -> & Hb & _ & _ & ->).
  set (m := round16 _). destruct (split_seg_counts b m Hb) as (_ & _ & Hu & _).
  rewrite !used_count_app, Hu. simpl. rewrite Hb. lia.
Qed.

Lemma placed_unique base bs a b c :
  sizes_ok bs -> placed base bs a b -> placed base bs a c -> b = c.
Proof.
  intros Hs Hb Hc. pose proof (placed_range _ _ _ _ Hs Hb). pose proof (placed_range _ _ _ _ Hs Hc).
  destruct (placed_disjoint _ _ _ _ _ _ Hs Hb Hc) as [[_ ->]|[H'|H']]; [done | |]; rewrite HDR_eq in *; lia.
Qed.

Lemma a_malloc_live base bs n q bs' :
  sizes_ok bs -> a_malloc base bs n = Some (q, bs') -> 0 <= n ->
  (forall p z, live base bs p z -> live base bs' p z /\ p <> q)
  /\ exists z, live base bs' q z /\ n <= z.
Proof.
  intros Hs H Hn. apply a_malloc_some in H as (l & b & r & -> & Hb & Hm & -> & ->).
  set (m := round16 _) in *. destruct (mark_split b m Hb) as [Hsp [t Ht]].
  assert (Hnm : n <= m) by (subst m; ztest; [subst; done | apply round16_range; lia]).
  assert (Eq : base + span l + HDR - HDR = base + span l) by lia. split.
  - intros p z (c & Hp & Hc & Hz). split.
    + exists c. split_and!; try done. eapply placed_replace; [done | congruence | done].
    + intros ->. rewrite Eq in Hp.
      pose proof (placed_unique _ _ _ _ _ Hs Hp (placed_app_cons base l b r)). congruence.
  - rewrite Ht. eexists. split.
    + eexists. rewrite Eq. split_and!; [apply placed_app_cons | done | done].
    + simpl. ztest; lia.
Qed.

Lemma placed_cons base b r a c :
  placed base (b :: r) a c <-> (a = base /\ c = b) \/ placed (base + HDR + ssize b) r a c.
Proof.
  split.
  - intros ([|d l] & r' & [= -> ->] & ->).
    + left. simpl. split; [lia | done].
    + right. exists l, r'. rewrite span_cons. split; [done | lia].
  - intros [[-> ->]|(l & r' & -> & ->)].
    + exists [], r. simpl. split; [done | lia].
    + exists (b :: l), r'. rewrite span_cons. split; [done | lia].
Qed.

Lemma placed_nil base a c : ~ placed base [] a c.
Proof. intros (l & r & E & _). by destruct l. Qed.

Lemma placed_app base l r a c :
  placed base (l ++ r) a c <-> placed base l a c \/ placed (base + span l) r a c.
Proof.
  revert base. induction l as [|b l IH]; intros base.
  - simpl. rewrite Z.add_0_r. split; [tauto|]. intros [H|H]; [by apply placed_nil in H | done].
  - rewrite span_cons. simpl app. rewrite !placed_cons, IH.
    replace (base + HDR + ssize b + span l) with (base + (HDR + ssize b + span l)) by lia. tauto.
Qed.

(** Merging forward only swallows free segments. *)
Lemma placed_merge_next base f z r a c :
  sfree c = false -> placed (base + HDR + z) r a c -> placed base (merge_next (Seg f z :: r)) a c.
Proof.
  intros Hc H. destruct r as [|d r]; [by apply placed_nil in H|]. simpl.
  destruct (sfree d) eqn:Hd; rewrite !placed_cons in *; simpl ssize; [| tauto].
  destruct H as [[_ ->]|H]; [congruence|]. right.
  by replace (base + HDR + (z + (HDR + ssize d))) with (base + HDR + z + HDR + ssize d) by lia.
Qed.

Lemma placed_merge_back base l z r a c :
  sfree c = false -> placed base (l ++ Seg true z :: r) a c -> placed base (merge_back l (Seg true z :: r)) a c.
Proof.
  intros Hc. destruct l as [|q l _] using rev_ind; [done|].
  rewrite merge_back_snoc, <- app_assoc, !(placed_app base l). simpl app. rewrite placed_cons.
  intros [?|[[-> ->]|H]]; [by left | |].
  - right. rewrite Hc. rewrite placed_cons. by left.
  - right. destruct (sfree q) eqn:Hq; [| rewrite placed_cons; by right].
    destruct q as [qf qz]. by apply placed_merge_next.
Qed.

Lemma keeps_live s s' bs bs' p z z' x :
  sizes_ok bs -> sizes_ok bs' -> keeps s bs bs' s' -> live (heap_head s) bs p z -> live (heap_head s) bs' p z' ->
  p <= x < p + Z.min z z' -> bytes s' x = bytes s x.
Proof.
  intros Hs Hs' K (b & Hp & _ & <-) (b' & Hp' & _ & <-) Hx.
  apply K; eapply payload_not_hdr; try eassumption; lia.
Qed.

(** Every live payload other than [p] keeps its place, its size and its bytes. *)
Definition others_kept (s : heap) (bs : list seg) (p : Z) (s' : heap) (bs' : list seg) : Prop :=
  forall p2 z2, live (heap_head s) bs p2 z2 -> p2 <> p ->
    live (heap_head s) bs' p2 z2 /\ forall x, p2 <= x < p2 + z2 -> bytes s' x = bytes s x.

Lemma others_kept_intro s bs p s' bs' :
  sizes_ok bs -> sizes_ok bs' -> keeps s bs bs' s' ->
  (forall a c, sfree c = false -> a + HDR <> p -> placed (heap_head s) bs a c -> placed (heap_head s) bs' a c) ->
  others_kept s bs p s' bs'.
Proof.
  intros Hs Hs' K H p2 z2 L2 Hne. assert (L2' : live (heap_head s) bs' p2 z2).
  { destruct L2 as (c & Hc & Hf & Hz). exists c. split_and!; try done. apply H; [done | lia | done]. }
  split; [done|]. intros x Hx. eapply (keeps_live s s' bs bs' p2 z2 z2); try done. lia.
Qed.

Lemma inv_sizes s bs : heap_inv s bs -> sizes_ok bs.
Proof. intros I. apply I. Qed.

Lemma live_focus s bs p z :
  live (heap_head s) bs p z ->
  exists l b r, bs = l ++ b :: r /\ sfree b = false /\ ssize b = z /\ p = heap_head s + span l + HDR.
Proof. intros (b & (l & r & -> & E) & Hf & Hz). exists l, b, r. split_and!; try done. lia. Qed.

(** ** kfree on a live pointer *)

Lemma kfree_live d s bs p z :
  heap_inv s bs -> live (heap_head s) bs p z ->
  exists s' bs', kfree d p s = Ok tt s' /\ a_free (heap_head s) bs p = Some bs' /\ heap_inv s' bs'
    /\ same_arena s s' /\ others_kept s bs p s' bs' /\ used_count bs' = used_count bs - 1
    /\ forall x, p <= x < p + z -> bytes s' x = Some POISON_BYTE.
Proof.
  intros I Hl. destruct (live_focus _ _ _ _ Hl) as (l & b & r & -> & Hb & <- & ->).
  destruct (kfree_spec d s l b r _ I Hb eq_refl) as (s' & E & I' & A' & _ & By).
  pose proof (inv_sizes _ _ I) as Hs. pose proof (inv_sizes _ _ I') as Hs'.
  pose proof (placed_app_cons (heap_head s) l b r) as Hp. assert (Hs2 := Hs). rewrite sizes_ok_app, sizes_ok_cons in Hs2.
  eexists s', _. split; [done|]. split; [| split; [exact I' | split; [done | split; [| split]]]].
  - unfold a_free. replace (heap_head s + span l + HDR - HDR) with (heap_head s + span l) by lia.
    by rewrite (locate_placed _ _ _ b l r Hs), Hb.
  - intros p2 z2 L2 Hne. destruct (live_focus _ _ _ _ L2) as (l2 & c & r2 & E2 & Hc & <- & ->).
    pose proof (placed_app_cons (heap_head s) l2 c r2) as Hp2. rewrite <- E2 in Hp2. split.
    + exists c. split_and!; try done. replace (_ - HDR) with (heap_head s + span l2) by lia.
      destruct (merge_free_head (ssize b) r ltac:(tauto)) as (z & r' & Em & _ ). rewrite Em.
      apply placed_merge_back; [done|]. rewrite <- Em.
      rewrite placed_app, placed_cons in Hp2. rewrite placed_app.
      destruct Hp2 as [?|[[? ->]|?]]; [by left | lia | right; by apply placed_merge_next].
    + intros x Hx. rewrite By by (eapply payload_not_hdr; try eassumption; lia).
      destruct (placed_disjoint _ _ _ _ _ _ Hs Hp Hp2) as [[? ->]|[D|D]]; [lia | |];
        destruct (_ <=? x) eqn:?, (x <? _) eqn:?; simpl; b2p; try done; rewrite HDR_eq in *; lia.
  - apply free_list_spec; [tauto | apply I | done].
  - intros x Hx. rewrite By by (eapply payload_not_hdr; try eassumption; lia).
    rewrite (proj2 (Z.leb_le _ _)), (proj2 (Z.ltb_lt _ _)) by lia. done.
Qed.

(** ** kmalloc and kcalloc on top of the invariant *)

Lemma kmalloc_live d s bs n q bs' :
  heap_inv s bs -> 0 <= n -> a_malloc (heap_head s) bs n = Some (q, bs') ->
  exists s', kmalloc d n s = Ok q s' /\ heap_inv s' bs' /\ same_arena s s'
    /\ others_kept s bs 0 s' bs' /\ exists z, live (heap_head s) bs' q z /\ n <= z.
Proof.
  intros I Hn E. pose proof (kmalloc_spec d s bs n I Hn) as H. rewrite E in H.
  destruct H as (s' & E' & I' & A' & K'). pose proof (inv_sizes _ _ I) as Hs. pose proof (inv_sizes _ _ I') as Hs'.
  destruct (a_malloc_live _ _ _ _ _ Hs E Hn) as [Ho Hq].
  exists s'. split_and!; try done. intros p2 z2 L2 _. destruct (Ho _ _ L2) as [L2' _].
  split; [done|]. intros x Hx. eapply (keeps_live s s' bs bs' p2 z2 z2); try done. lia.
Qed.

(** Two live payloads at different addresses do not meet. *)
Lemma live_disjoint base bs p z q y :
  sizes_ok bs -> live base bs p z -> live base bs q y -> p <> q -> p + z + HDR <= q \/ q + y + HDR <= p.
Proof.
  intros Hs (b & Hb & _ & <-) (c & Hc & _ & <-) Hne.
  destruct (placed_disjoint _ _ _ _ _ _ Hs Hb Hc) as [[? _]|[?|?]]; lia.
Qed.

(** Writing inside one live payload keeps the invariant and the others. *)
Lemma put_bytes_live s bs p z n f :
  heap_inv s bs -> live (heap_head s) bs p z -> n <= z ->
  (forall x, ~ (p <= x < p + n) -> f (bytes s) x = bytes s x) ->
  heap_inv (put_bytes p n f s) bs /\ same_arena s (put_bytes p n f s)
  /\ others_kept s bs p (put_bytes p n f s) bs.
Proof.
  intros I Hl Hn Hf. pose proof (inv_sizes _ _ I) as Hs. split; [| split; [done|]].
  - destruct Hl as (b & Hp & Hb & <-). apply inv_counted in I as (L & ? & ?). apply inv_counted.
    split_and!; try done. eapply put_bytes_layout; try eassumption; lia.
  - intros p2 z2 L2 Hne. split; [done|]. intros x Hx. apply Hf.
    destruct (live_disjoint _ _ _ _ _ _ Hs Hl L2) as [?|?]; [done | |]; rewrite HDR_eq in *; lia.
Qed.

Lemma kcalloc_live d s bs count size q bs' :
  heap_inv s bs -> 0 <= count < 2 ^ 64 -> 0 <= size < 2 ^ 64 -> count * size < 2 ^ 64 ->
  a_malloc (heap_head s) bs (count * size) = Some (q, bs') ->
  exists s', kcalloc d count size s = Ok q s' /\ heap_inv s' bs' /\ same_arena s s'
    /\ others_kept s bs 0 s' bs'
    /\ (exists z, live (heap_head s) bs' q z /\ count * size <= z)
    /\ forall x, q <= x < q + count * size -> bytes s' x = Some 0.
Proof.
  intros I Hc Hz Ht E. assert (H0 : 0 <= count * size) by lia.
  destruct (kmalloc_live d s bs _ q bs' I H0 E) as (s1 & E1 & I1 & A1 & O1 & z & Lq & Hle).
  unfold kcalloc. rewrite wrap64_small by lia.
  assert (Eg : negb (size =? 0) && negb (count * size / size =? count) = false).
  { destruct (Z.eqb_spec size 0); [done|]. rewrite Z.div_mul by done. by rewrite Z.eqb_refl. }
  rewrite Eg, (bind_ok _ _ _ _ _ E1). unfold modify. erewrite bind_ok by done.
  assert (Hh : heap_head s1 = heap_head s) by apply A1.
  destruct (put_bytes_live s1 bs' q z (count * size) (memset q 0 (count * size)) I1) as (I2 & A2 & O2); try done.
  { by rewrite Hh. }
  { intros x Hx. rewrite memset_spec by lia. destruct (_ <=? _) eqn:?, (_ <? _) eqn:?; simpl; b2p; try done; lia. }
  eexists. split; [done|]. split_and!; try done.
  - intros p2 z2 L2 _. destruct (O1 _ _ L2) as [L2' B2]; [| clear O1].
    { destruct L2 as (c & Hp & _). apply (placed_range _ _ _ _ (inv_sizes _ _ I)) in Hp.
      pose proof (lay_base _ _ (inv_layout _ _ I)). rewrite HDR_eq in *. lia. }
    split; [done|]. intros x Hx. rewrite <- B2 by done. rewrite <- Hh in L2'.
    destruct (a_malloc_live _ _ _ _ _ (inv_sizes _ _ I) E H0) as [Hd _].
    by apply (O2 _ _ L2'); [apply (Hd _ _ L2) |].
  - by exists z.
  - intros x Hx. cbn. rewrite memset_spec by lia.
    by rewrite (proj2 (Z.leb_le _ _)), (proj2 (Z.ltb_lt _ _)) by lia.
Qed.

(** ** krealloc *)

Lemma krealloc_unfold d s l b r n :
  heap_inv s (l ++ b :: r) -> sfree b = false -> 1 <= n -> n + 15 < 2 ^ 64 ->
  let a := heap_head s + span l in
  let want := round16 n in
  krealloc d (a + HDR) n s =
  (if want <=? ssize b then bind (shrink a want) (fun _ => ret (a + HDR)) s else
   if match r with c :: _ => sfree c && (want <=? ssize b + HDR + ssize c) | [] => false end
   then bind (grow a want) (fun _ => ret (a + HDR)) s
   else bind (kmalloc d n) (fun np =>
        bind (load a) (fun blk =>
        let len := if bsize blk <? n then bsize blk else n in
        bind (modify (put_bytes np len (memcpy np (a + HDR) len))) (fun _ =>
        bind (kfree d (a + HDR)) (fun _ => ret np)))) s).
Proof.
  intros I Hb Hn1 Hn2 a want. pose proof (inv_layout _ _ I) as L. pose proof (layout_bounds _ _ _ _ L) as B.
  pose proof (chain_focus _ _ _ _ _ (lay_chain _ _ L)) as [Ef En]. fold a in Ef, En.
  assert (Ha : 0 < a < 2 ^ 63) by (subst a; rewrite HDR_eq in *; lia).
  destruct (block_of_payload a) as [Eb Ep]; [lia|]. unfold krealloc. rewrite Eb.
  destruct (Z.eqb_spec (a + HDR) 0); [rewrite HDR_eq in *; lia|]. destruct (Z.eqb_spec n 0); [lia|].
  erewrite bind_ok by (by apply load_ok). unfold check_header. cbn [magic]. rewrite Z.eqb_refl.
  erewrite bind_ok by done. rewrite align_up_16 by lia. fold want. cbn [bsize].
  destruct (want <=? ssize b); [done|].
  destruct r as [|c r]; [by erewrite bind_ok by done|].
  rewrite HDR_eq in *. rewrite span_cons, HDR_eq in B.
  pose proof (inv_sizes _ _ I) as Hs. rewrite sizes_ok_app, !sizes_ok_cons in Hs.
  pose proof (span_nonneg r ltac:(tauto)). 
  rewrite (bind_ok _ _ s (sfree c && (want <=? ssize b + 32 + ssize c)) s); [by destruct (sfree c && _)|].
  unfold can_grow. cbn [bnext link bsize]. destruct (Z.eqb_spec (a + 32 + ssize b) 0); [lia|].
  erewrite bind_ok by (by apply load_ok, En). cbn [bfree bsize].
  rewrite HDR_eq, wrap64_small by lia. done.
Qed.

(** Everything krealloc promises about the bytes it hands back. *)
Definition realloc_ok (s : heap) (bs : list seg) (p z n q : Z) (s' : heap) (bs' : list seg) : Prop :=
  heap_inv s' bs' /\ same_arena s s' /\ others_kept s bs p s' bs'
  /\ (exists z', live (heap_head s) bs' q z' /\ n <= z') /\ used_count bs' = used_count bs
  /\ (forall p2 z2, live (heap_head s) bs p2 z2 -> p2 <> p -> p2 <> q)
  /\ forall i, 0 <= i < Z.min z n -> bytes s' (q + i) = bytes s (p + i).

(** The in-place paths: one segment list replaced by another that still has
    the block, large enough, at the same address. *)
Lemma realloc_in_place s bs p z n s' bs' z' :
  heap_inv s bs -> heap_inv s' bs' -> same_arena s s' -> keeps s bs bs' s' ->
  live (heap_head s) bs p z -> live (heap_head s) bs' p z' -> n <= z' -> used_count bs' = used_count bs ->
  (forall a c, sfree c = false -> a + HDR <> p -> placed (heap_head s) bs a c -> placed (heap_head s) bs' a c) ->
  realloc_ok s bs p z n p s' bs'.
Proof.
  intros I I' A K L L' Hn Hu Ho. pose proof (inv_sizes _ _ I). pose proof (inv_sizes _ _ I').
  unfold realloc_ok. split_and!; try done.
  - by apply others_kept_intro.
  - by exists z'.
  - intros i Hi. eapply (keeps_live s s' bs bs' p z z'); try done. lia.
Qed.

Lemma live_here base l b r : sfree b = false -> live base (l ++ b :: r) (base + span l + HDR) (ssize b).
Proof.
  intros. exists b. replace (base + span l + HDR - HDR) with (base + span l) by lia.
  split; [apply placed_app_cons | done].
Qed.

Lemma krealloc_shrink d s l b r n :
  heap_inv s (l ++ b :: r) -> sfree b = false -> 1 <= n -> n + 15 < 2 ^ 64 -> round16 n <= ssize b ->
  let p := heap_head s + span l + HDR in
  exists s' bs', krealloc d p n s = Ok p s' /\ realloc_ok s (l ++ b :: r) p (ssize b) n p s' bs'.
Proof.
  intros I Hb Hn1 Hn2 Hw p. destruct (round16_range n ltac:(lia)) as [Hr Hr16].
  assert (16 <= round16 n) by (Z.div_mod_to_equations; lia).
  unfold p. rewrite (krealloc_unfold d s l b r n I Hb Hn1 Hn2). rewrite (proj2 (Z.leb_le _ _) Hw).
  destruct (shrink_ok s l b r _ (round16 n) I Hb eq_refl) as (s' & E & I' & A' & K'); try done.
  rewrite (bind_ok _ _ _ _ _ E). exists s'. eexists. split; [done|].
  set (z' := if ssize b <? round16 n + HDR + MIN_PAYLOAD then ssize b else round16 n).
  assert (Hd : exists t, shrink_seg b (round16 n) r = Seg false z' :: t).
  { unfold shrink_seg, z'. destruct (_ <? _); rewrite <- Hb, ?seg_eta; eauto. }
  destruct Hd as [t Ht]. eapply (realloc_in_place _ _ _ _ _ _ _ z'); try done.
  - by apply live_here.
  - rewrite Ht. change z' with (ssize (Seg false z')). by apply live_here.
  - subst z'. ztest; lia.
  - pose proof (inv_sizes _ _ I) as Hs. rewrite sizes_ok_app, sizes_ok_cons in Hs.
    pose proof (shrink_list_spec l b r (round16 n) ltac:(tauto) (inv_coalesced _ _ I) Hb) as (_ & _ & Hu & _).
    unfold shrink_seg. destruct (_ <? _); done.
  - intros a c Hc Hne Hp. rewrite placed_app, placed_cons in Hp. rewrite placed_app.
    destruct Hp as [?|[[-> ->]|Hp]]; [by left | subst p; lia |]. right. unfold shrink_seg.
    destruct (_ <? _); rewrite placed_cons; right; [done|]. apply placed_merge_next; [done|]. simpl.
    by replace (heap_head s + span l + HDR + round16 n + HDR + (ssize b - round16 n - HDR))
      with (heap_head s + span l + HDR + ssize b) by lia.
Qed.

Lemma krealloc_grow d s l b c r n :
  heap_inv s (l ++ b :: c :: r) -> sfree b = false -> sfree c = true -> 1 <= n -> n + 15 < 2 ^ 64 ->
  ssize b < round16 n <= ssize b + HDR + ssize c ->
  let p := heap_head s + span l + HDR in
  exists s' bs', krealloc d p n s = Ok p s' /\ realloc_ok s (l ++ b :: c :: r) p (ssize b) n p s' bs'.
Proof.
  intros I Hb Hc Hn1 Hn2 Hw p. destruct (round16_range n ltac:(lia)) as [Hr Hr16].
  assert (16 <= round16 n) by (Z.div_mod_to_equations; lia).
  unfold p. rewrite (krealloc_unfold d s l b (c :: r) n I Hb Hn1 Hn2).
  rewrite (proj2 (Z.leb_gt _ _)), Hc, (proj2 (Z.leb_le _ _)) by lia. cbn [andb].
  destruct (grow_ok s l b c r _ (round16 n) I eq_refl Hb Hc) as (s' & E & I' & A' & K'); try done; [lia|].
  rewrite (bind_ok _ _ _ _ _ E). exists s'. eexists. split; [done|].
  set (big := ssize b + (HDR + ssize c)).
  set (z' := if big <? round16 n + HDR + MIN_PAYLOAD then big else round16 n).
  assert (Hd : exists t, grow_seg b c (round16 n) r = Seg false z' :: t).
  { unfold grow_seg, split_seg, z', big. simpl. rewrite Hb. destruct (_ <? _); simpl; eauto. }
  destruct Hd as [t Ht]. eapply (realloc_in_place _ _ _ _ _ _ _ z'); try done.
  - by apply live_here.
  - rewrite Ht. change z' with (ssize (Seg false z')). by apply live_here.
  - subst z' big. ztest; lia.
  - unfold grow_seg, split_seg. rewrite !used_count_app. destruct (_ <? _); simpl; rewrite Hb, Hc; lia.
  - intros a d0 Hd Hne Hp. rewrite placed_app, !placed_cons in Hp. rewrite placed_app.
    destruct Hp as [?|[[-> ->]|[[-> ->]|Hp]]]; [by left | subst p; lia | congruence |]. right.
    unfold grow_seg. rewrite placed_app. right. unfold split_seg. simpl.
    destruct (_ <? _); rewrite ?span_cons; cbn [span foldr ssize];
      match goal with |- placed ?x _ _ _ => replace x with (heap_head s + span l + HDR + ssize b + HDR + ssize c) by lia end; done.
Qed.

Lemma live_pos s bs p z : heap_inv s bs -> live (heap_head s) bs p z -> 0 < p.
Proof.
  intros I (c & Hp & _). apply (placed_range _ _ _ _ (inv_sizes _ _ I)) in Hp.
  pose proof (lay_base _ _ (inv_layout _ _ I)). rewrite HDR_eq in *. lia.
Qed.

(** Allocate, copy, free. *)
Lemma memcpy_live s bs p z q zq len :
  heap_inv s bs -> live (heap_head s) bs p z -> live (heap_head s) bs q zq -> p <> q ->
  0 <= len <= z -> len <= zq ->
  let s' := put_bytes q len (memcpy q p len) s in
  heap_inv s' bs /\ same_arena s s' /\ others_kept s bs q s' bs
  /\ forall i, 0 <= i < len -> bytes s' (q + i) = bytes s (p + i).
Proof.
  intros I Hl Lq Hne Hlen Hzq s'. assert (Dj : q <= p \/ p + len <= q).
  { destruct (live_disjoint _ _ _ _ _ _ (inv_sizes _ _ I) Hl Lq Hne); rewrite HDR_eq in *; lia. }
  destruct (put_bytes_live s bs q zq len (memcpy q p len) I Lq Hzq) as (I' & A' & O').
  { intros x Hx. rewrite memcpy_spec by lia. by rewrite range_out. }
  split_and!; try done. intros i Hi. unfold s'. cbn. rewrite memcpy_spec by lia.
  rewrite range_in by lia. f_equal. lia.
Qed.

Lemma krealloc_copy d s bs p z n q bs1 :
  heap_inv s bs -> live (heap_head s) bs p z -> 1 <= n ->
  a_malloc (heap_head s) bs n = Some (q, bs1) ->
  exists s' bs',
    bind (kmalloc d n) (fun np =>
    bind (load (p - HDR)) (fun blk =>
    let len := if bsize blk <? n then bsize blk else n in
    bind (modify (put_bytes np len (memcpy np p len))) (fun _ =>
    bind (kfree d p) (fun _ => ret np)))) s = Ok q s'
    /\ realloc_ok s bs p z n q s' bs'.
Proof.
  intros I Hl Hn E. pose proof (live_pos _ _ _ _ I Hl) as Hp0.
  destruct (kmalloc_live d s bs n q bs1 I ltac:(lia) E) as (s1 & E1 & I1 & A1 & O1 & zq & Lq & Hzq).
  destruct (a_malloc_live _ _ _ _ _ (inv_sizes _ _ I) E ltac:(lia)) as [Hd _].
  destruct (Hd _ _ Hl) as [Hl1 Hne]. assert (Hh : heap_head s1 = heap_head s) by apply A1. rewrite <- Hh in Hl1, Lq.
  rewrite (bind_ok _ _ _ _ _ E1).
  assert (Eld : exists blk, hdrs s1 (p - HDR) = Some blk /\ bsize blk = z).
  { destruct (live_focus _ _ _ _ Hl1) as (l & b & r & -> & _ & <- & ->).
    pose proof (chain_focus _ _ _ _ _ (lay_chain _ _ (inv_layout _ _ I1))) as [Ef _].
    replace (_ - HDR) with (heap_head s1 + span l) by lia. eexists. split; [exact Ef | done]. }
  destruct Eld as (blk & Eld & Ez). erewrite bind_ok by (by apply load_ok). rewrite Ez. cbv zeta.
  set (len := if z <? n then z else n).
  assert (Hz : 16 <= z) by (destruct Hl as (b & Hp & _ & <-); apply (placed_range _ _ _ _ (inv_sizes _ _ I) Hp)).
  assert (Hlen : len = Z.min z n) by (subst len; ztest; lia).
  destruct (memcpy_live s1 bs1 p z q zq len I1 Hl1 Lq Hne) as (I2 & A2 & O2 & C2); [lia..|].
  unfold modify. erewrite bind_ok by done. set (s2 := put_bytes _ _ _ s1) in *.
  destruct (kfree_live d s2 bs1 p z I2 Hl1) as (s3 & bs3 & E3 & _ & I3 & A3 & O3 & U3 & _).
  rewrite (bind_ok _ _ _ _ _ E3). exists s3, bs3. split; [done|].
  destruct (O3 _ _ Lq ltac:(congruence)) as [Lq3 Bq].
  unfold others_kept in O2, O3. rewrite (proj1 A2), ?Hh in *. unfold realloc_ok. split_and!; try done.
  - eapply same_arena_trans; [exact (same_arena_trans _ _ _ A1 A2) | exact A3].
  - intros p2 z2 L2 Hne2. pose proof (live_pos _ _ _ _ I L2). destruct (O1 _ _ L2 ltac:(lia)) as [L2' B2].
    destruct (O3 _ _ L2' Hne2) as [L2'' B3]. split; [done|]. intros x Hx. rewrite B3 by done.
    rewrite <- B2 by done. by apply (O2 _ _ L2'); [apply (Hd _ _ L2)|].
  - by exists zq.
  - rewrite U3, (a_malloc_count _ _ _ _ _ E). lia.
  - intros p2 z2 L2 _. by apply (Hd _ _ L2).
  - intros i Hi. rewrite Bq by lia. rewrite C2 by lia. apply (O1 _ _ Hl); lia.
Qed.

(** krealloc on a live pointer, every path. *)
Lemma krealloc_live d s bs p z n :
  heap_inv s bs -> live (heap_head s) bs p z -> 1 <= n -> n + 15 < 2 ^ 64 ->
  (exists q s' bs', krealloc d p n s = Ok q s' /\ realloc_ok s bs p z n q s' bs')
  \/ (krealloc d p n s = Panic "kmalloc: out of memory" /\ a_malloc (heap_head s) bs n = None).
Proof.
  intros I Hl Hn1 Hn2. destruct (live_focus _ _ _ _ Hl) as (l & b & r & -> & Hb & <- & ->).
  destruct (Z.le_gt_cases (round16 n) (ssize b)) as [Hw|Hw].
  { left. destruct (krealloc_shrink d s l b r n I Hb Hn1 Hn2 Hw) as (s' & bs' & ? & ?). eauto. }
  destruct (match r with c :: _ => sfree c && (round16 n <=? ssize b + HDR + ssize c) | [] => false end) eqn:Eg.
  { destruct r as [|c r]; [done|]. b2p. left.
    destruct (krealloc_grow d s l b c r n I Hb) as (s' & bs' & ? & ?); try done. eauto. }
  rewrite (krealloc_unfold d s l b r n I Hb Hn1 Hn2), (proj2 (Z.leb_gt _ _)), Eg by lia.
  destruct (a_malloc (heap_head s) (l ++ b :: r) n) as [[q bs1]|] eqn:Em.
  - left. destruct (krealloc_copy d s _ _ _ n q bs1 I Hl Hn1 Em) as (s' & bs' & E & H).
    replace (heap_head s + span l + HDR - HDR) with (heap_head s + span l) in E by lia. eauto.
  - right. split; [| done]. pose proof (kmalloc_spec d s _ n I ltac:(lia)) as H. rewrite Em in H.
    unfold bind. by rewrite H.
Qed.
