(* ===== verification/HeapTop.v ===== *)
(** kmemalign, heap_init, heap_check and heap_stats, and the reachable states
    of the allocator. *)

From S2P Require Import Prelude Mem Heap HeapSpec HeapProofs HeapOps HeapRealloc.

(** ** kmemalign *)

(** Over-aligned placement never gives up a block for want of a front gap:
    payloads are 16-byte aligned, so a non-empty gap is at least MIN_PAYLOAD. *)
Lemma place_aligned_spec k pl :
  5 <= k <= 60 -> 0 <= pl < 2 ^ 62 -> pl mod 16 = 0 ->
  exists al gap, place_aligned (2 ^ k) pl = Some (al, gap) /\ al mod 2 ^ k = 0 /\ al < 2 ^ 63
    /\ ((gap = 0 /\ al = pl) \/ (16 <= gap /\ gap mod 16 = 0 /\ al = pl + gap + HDR)).
Proof.
  intros Hk Hpl H16. assert (Hp : 2 ^ k = 16 * 2 ^ (k - 4))
    by (rewrite <- (Z.pow_add_r 2 4) by lia; f_equal; lia).
  assert (Hk2 : 2 <= 2 ^ (k - 4)) by (change 2 with (2 ^ 1) at 1; apply Z.pow_le_mono_r; lia).
  assert (Hmax : 2 ^ k <= 2 ^ 60) by (apply Z.pow_le_mono_r; lia).
  unfold place_aligned, align_up, MIN_PAYLOAD. rewrite HDR_eq, land_mask by lia.
  destruct (Z.eqb_spec (pl mod 2 ^ k) 0) as [E|E].
  { exists pl, 0. split_and!; try done; [lia | by left]. }
  rewrite (wrap64_small (pl + 32)) by lia. rewrite (wrap64_small (pl + 32 + 2 ^ k - 1)) by lia.
  rewrite land_lnot_mask by lia.
  set (K := 2 ^ k) in *. set (u := (pl + 32 + K - 1) / K).
  assert (Hu : K * u <= pl + 32 + K - 1 < K * u + K) by (subst u; Z.div_mod_to_equations; lia).
  assert (Hpl16 : pl = 16 * (pl / 16)) by (Z.div_mod_to_equations; lia).
  assert (HKu : K * u = 16 * (2 ^ (k - 4) * u)) by lia.
  assert (Hmod : forall v, (K * v) mod K = 0) by (intros v; rewrite Z.mul_comm; apply Z.mod_mul; lia).
  rewrite (wrap64_small (K * u - 32)) by lia.
  destruct (Z.eqb_spec (K * u - 32) pl) as [E2|E2].
  - rewrite (wrap64_small (K * u + K)) by lia. rewrite wrap64_small by lia.
    destruct (Z.ltb_spec (K * u + K - 32 - pl) 16); [lia|].
    exists (K * u + K), (K * u + K - 32 - pl). split_and!; [done | | lia | right; split_and!; try lia].
    + replace (K * u + K) with (K * (u + 1)) by lia. apply Hmod.
    + replace (K * u + K - 32 - pl) with (2 ^ (k - 4) * 16) by lia. apply Z.mod_mul. lia.
  - rewrite wrap64_small by lia. destruct (Z.ltb_spec (K * u - 32 - pl) 16); [lia|].
    exists (K * u), (K * u - 32 - pl). split_and!; [done | apply Hmod | lia | right; split_and!; try lia].
    replace (K * u - 32 - pl) with ((2 ^ (k - 4) * u - 2 - pl / 16) * 16) by lia. apply Z.mod_mul. lia.
Qed.

(** Does the segment with header at [a] have room for an aligned payload? *)
Definition fits_aligned (align n a : Z) (b : seg) : bool :=
  match place_aligned align (a + HDR) with
  | Some (al, _) => al + n <=? a + HDR + ssize b
  | None => false
  end.

(** The contract of kmemalign. *)
Definition a_memalign (base : Z) (bs : list seg) (align n : Z) : option (Z * list seg) :=
  let n := if n =? 0 then 1 else n in
  if span bs <? n then None else
  match first_fit (fits_aligned align (round16 n)) base [] bs with
  | Some (l, b, r) =>
      match place_aligned align (base + span l + HDR) with
      | Some (al, gap) =>
          Some (al, if gap =? 0 then l ++ mark false (split_seg b (round16 n)) ++ r
                    else (l ++ [Seg true gap])
                         ++ mark false (split_seg (Seg true (ssize b - gap - HDR)) (round16 n)) ++ r)
      | None => None
      end
  | None => None
  end.

(** What the scan does with the block it settles on. *)
Definition alloc_aligned (b al gap n : Z) : prog heap Z :=
  bind (if gap =? 0 then ret b else carve_front b al gap)
    (fun target => bind (split target n) (fun _ => take target)).

Lemma layout_payload_aligned s l b r :
  layout s (l ++ b :: r) -> (heap_head s + span l + HDR) mod 16 = 0.
Proof.
  intros L. pose proof (lay_aligned _ _ L) as Ha. rewrite aligned_app in Ha. destruct Ha as [Ha _].
  apply span_mod in Ha. pose proof (lay_base _ _ L) as [_ Hb]. rewrite HDR_eq.
  Z.div_mod_to_equations. lia.
Qed.

Lemma memalign_scan_run s k n bs : forall l fuel,
  layout s (l ++ bs) -> (length bs < fuel)%nat -> 5 <= k <= 60 -> 0 <= n < 2 ^ 63 ->
  heap_head s + span (l ++ bs) < 2 ^ 62 ->
  memalign_scan fuel (link bs (heap_head s + span l) 0) (2 ^ k) n s
  = match first_fit (fits_aligned (2 ^ k) n) (heap_head s + span l) l bs with
    | Some (l', b, r) =>
        match place_aligned (2 ^ k) (heap_head s + span l' + HDR) with
        | Some (al, gap) => alloc_aligned (heap_head s + span l') al gap n s
        | None => Wild
        end
    | None => Panic "kmemalign: out of memory"
    end.
Proof.
  induction bs as [|b bs IH]; intros l [|fuel] L Hf Hk Hn Ht; simpl in Hf; try lia; [done|].
  pose proof (layout_bounds _ _ _ _ L) as B. rewrite HDR_eq in B. rewrite span_app, span_cons, HDR_eq in Ht.
  pose proof (chain_focus _ _ _ _ _ (lay_chain _ _ L)) as [Ef _].
  cbn [memalign_scan link first_fit]. set (a := heap_head s + span l) in *.
  destruct (Z.eqb_spec a 0); [lia|].
  erewrite bind_ok by (by apply load_ok). cbn [bfree bsize bnext].
  destruct (block_of_payload a) as [_ Ep]; [lia|]. rewrite Ep.
  assert (Hnext : memalign_scan fuel (link bs (a + HDR + ssize b) 0) (2 ^ k) n s =
    match first_fit (fits_aligned (2 ^ k) n) (a + HDR + ssize b) (l ++ [b]) bs with
    | Some (l', b, r) =>
        match place_aligned (2 ^ k) (heap_head s + span l' + HDR) with
        | Some (al, gap) => alloc_aligned (heap_head s + span l') al gap n s
        | None => Wild
        end
    | None => Panic "kmemalign: out of memory"
    end).
  { assert (Esp : heap_head s + span (l ++ [b]) = a + HDR + ssize b) by (rewrite span_app; simpl; lia).
    specialize (IH (l ++ [b]) fuel). rewrite <- app_assoc, Esp in IH. apply IH; try done; [lia|].
    simpl app. rewrite span_app, span_cons, HDR_eq. lia. }
  destruct (place_aligned_spec k (a + HDR)) as (al & gap & Epl & Hal & Halt & Hgap); try done.
  { rewrite HDR_eq. lia. }
  { subst a. eapply layout_payload_aligned. exact L. }
  unfold fits_aligned at 1. rewrite Epl. destruct (sfree b); cbn [negb andb]; [| exact Hnext].
  destruct (Z.leb_spec (al + n) (a + HDR + ssize b)) as [Hle|Hgt].
  - fold a. rewrite Epl, !wrap64_small by (rewrite ?HDR_eq in *; lia).
    rewrite (proj2 (Z.ltb_ge _ _)) by lia. done.
  - destruct (Z.ltb_spec (wrap64 (a + HDR + ssize b)) (wrap64 (al + n))) as [?|Hw]; [exact Hnext|].
    exfalso. rewrite (wrap64_small (a + HDR + ssize b)) in Hw by (rewrite HDR_eq; lia).
    rewrite wrap64_small in Hw by (destruct Hgap as [[-> ->]|(? & ? & ->)]; rewrite HDR_eq in *; lia).
    lia.
Qed.

Lemma carve_front_ok s l b r a gap :
  layout s (l ++ b :: r) -> counted s (l ++ b :: r) -> a = heap_head s + span l -> sfree b = true ->
  16 <= gap -> gap mod 16 = 0 -> gap + HDR + MIN_PAYLOAD <= ssize b ->
  let bs' := l ++ Seg true gap :: Seg true (ssize b - gap - HDR) :: r in
  exists s', carve_front a (a + HDR + gap + HDR) gap s = Ok (a + HDR + gap) s'
    /\ layout s' bs' /\ counted s' bs' /\ same_arena s s' /\ keeps s (l ++ b :: r) bs' s'.
Proof.
  intros L (Ci & Cu & Cf & Cp) Ha Hb H16 Hm Hfit bs'. pose proof (layout_bounds _ _ _ _ L) as B.
  pose proof (layout_counts _ _ L) as U. rewrite HDR_eq in B, U. unfold MIN_PAYLOAD in *.
  pose proof (chain_focus _ _ _ _ _ (lay_chain _ _ L)) as [Ef _]. rewrite <- Ha in Ef.
  destruct (block_of_payload a) as [_ Ep]; [lia|].
  unfold carve_front. erewrite bind_ok by (by apply load_ok). cbn [bsize]. rewrite Ep.
  replace (a + HDR + gap + HDR - HDR) with (a + HDR + gap) by lia.
  rewrite (wrap64_small (a + HDR + gap)), (wrap64_small (a + HDR + ssize b)) by (rewrite HDR_eq in *; lia).
  rewrite wrap64_small by (rewrite HDR_eq in *; lia).
  destruct (cut_ok s l b r a gap (ssize b - gap - HDR) _ L Ha Ef) as (s' & E & L' & A' & F' & K');
    unfold MIN_PAYLOAD; try done; try lia.
  replace (a + HDR + ssize b - (a + HDR + gap + HDR)) with (ssize b - gap - HDR) by lia.
  rewrite (bind_ok _ _ _ _ _ E). rewrite Hb in L', K'. exists s'. split_and!; try done.
  unfold bump_free, stats in F'. injection F' as F1 F2 F3 F4 _ _. unfold counted, bs'.
  rewrite used_bytes_app, used_count_app, free_count_app in *. simpl in *. rewrite Hb in *.
  rewrite F1, F2, F3, F4, Ci, Cu, Cf, wrap64_small by lia. split_and!; lia.
Qed.

Lemma alloc_aligned_ok s l b r al gap n :
  heap_inv s (l ++ b :: r) -> sfree b = true -> 16 <= n -> n mod 16 = 0 ->
  (gap = 0 /\ al = heap_head s + span l + HDR)
  \/ (16 <= gap /\ gap mod 16 = 0 /\ al = heap_head s + span l + HDR + gap + HDR) ->
  al + n <= heap_head s + span l + HDR + ssize b ->
  let bs' := if gap =? 0 then l ++ mark false (split_seg b n) ++ r
             else (l ++ [Seg true gap]) ++ mark false (split_seg (Seg true (ssize b - gap - HDR)) n) ++ r in
  exists s', alloc_aligned (heap_head s + span l) al gap n s = Ok al s'
    /\ heap_inv s' bs' /\ same_arena s s' /\ keeps s (l ++ b :: r) bs' s'.
Proof.
  intros I Hb H16 Hm Hal Hfit bs'. apply inv_counted in I as (L & Hc & Hk).
  rewrite coalesced_app in Hc. simpl in Hc. rewrite Hb, andb_true_r in Hc. simpl in Hc.
  assert (Hcl : coalesced l = true) by (destruct (coalesced l); done). rewrite Hcl in Hc. simpl in Hc.
  assert (Hcr : coalesced (b :: r) = true) by (simpl; rewrite Hb; simpl; destruct (negb (first_free r) && coalesced r); done).
  assert (Hcr' : forall z, coalesced (Seg true z :: r) = true) by (intros z; simpl in *; by rewrite Hb in Hcr).
  unfold alloc_aligned, bs'. destruct Hal as [[-> ->]|(Hg & Hgm & ->)].
  - cbn [Z.eqb]. unfold bind at 1, ret. apply alloc_at_ok; try done. lia.
  - destruct (Z.eqb_spec gap 0); [lia|].
    destruct (carve_front_ok s l b r _ gap L Hk eq_refl Hb Hg Hgm) as (s1 & E1 & L1 & Hk1 & A1 & K1);
      [unfold MIN_PAYLOAD; lia|]. rewrite (bind_ok _ _ _ _ _ E1).
    set (rest := Seg true (ssize b - gap - HDR)) in *.
    change (l ++ Seg true gap :: rest :: r) with (l ++ [Seg true gap] ++ rest :: r) in L1, Hk1, K1.
    rewrite app_assoc in L1, Hk1, K1. assert (Hh : heap_head s1 = heap_head s) by apply A1.
    destruct (alloc_at_ok s1 (l ++ [Seg true gap]) rest r (heap_head s + span l + HDR + gap) n)
      as (s2 & E2 & I2 & A2 & K2); try done.
    + rewrite Hh, span_app. simpl. lia.
    + rewrite coalesced_app, Hcl. simpl in *. destruct (last_free l); simpl in *; [|done].
      by rewrite andb_false_r in Hc.
    + apply Hcr'.
    + subst rest. simpl. lia.
    + exists s2. rewrite E2. split; [f_equal; lia|]. split_and!; try done.
      * eapply same_arena_trans; eassumption.
      * eapply keeps_trans; [exact A1 | | exact K1 | exact K2].
        intros x Hx. right. rewrite in_hdr_app in *. destruct Hx as [?|Hx]; [by left|right].
        unfold split_seg. destruct (_ <? _); simpl; rewrite ?in_hdr_cons in *; simpl ssize in *; [tauto|].
        replace (_ + HDR + n + HDR + (ssize rest - n - HDR))
          with (heap_head s + span (l ++ [Seg true gap]) + HDR + ssize rest) by lia. tauto.
Qed.

(** kmemalign for a power of two above 16. *)
Lemma kmemalign_spec d s bs k n :
  heap_inv s bs -> 5 <= k <= 60 -> 0 <= n -> heap_head s + span bs < 2 ^ 62 ->
  match a_memalign (heap_head s) bs (2 ^ k) n with
  | Some (p, bs') => exists s', kmemalign d (2 ^ k) n s = Ok p s' /\ heap_inv s' bs' /\ same_arena s s'
                                /\ keeps s bs bs' s' /\ p mod 2 ^ k = 0
  | None => kmemalign d (2 ^ k) n s = Panic "kmemalign: out of memory"
  end.
Proof.
  intros I Hk Hn Ht. pose proof (inv_layout _ _ I) as L. pose proof (lay_base _ _ L) as Hb0.
  assert (Hpow : 32 <= 2 ^ k) by (change 32 with (2 ^ 5); apply Z.pow_le_mono_r; lia).
  unfold kmemalign, gets. rewrite (bind_ok _ _ _ _ _ (ensure_init_ok d s bs L)).
  unfold ALIGN. destruct (Z.leb_spec (2 ^ k) 16); [lia|]. rewrite land_mask, Z.mod_same by lia.
  rewrite Z.eqb_refl. cbn [negb]. erewrite bind_ok by done. rewrite (round_request_ok s bs n L Hn). unfold a_memalign.
  set (m := if n =? 0 then 1 else n). assert (Hm : 1 <= m) by (subst m; ztest; lia).
  destruct (Z.ltb_spec (span bs) m); [done|]. pose proof (round16_range m ltac:(lia)) as [Hr Hr16].
  erewrite bind_ok by done. unfold id.
  pose proof (memalign_scan_run s k (round16 m) bs [] (walk_fuel s) L (walk_fuel_enough _ _ L) Hk
                ltac:(lia) Ht) as H'.
  change (span []) with 0 in H'. rewrite Z.add_0_r, (layout_head _ _ L) in H'. rewrite H'. clear H'.
  destruct (first_fit _ _ _ bs) as [[[l b] r]|] eqn:Ef; [|done].
  apply first_fit_some in Ef as (E & Hb & Hfit & _). simpl in E, Hfit. subst bs.
  rewrite Z.sub_0_r in Hfit. unfold fits_aligned in Hfit. pose proof (layout_bounds _ _ _ _ L) as B.
  rewrite span_app, span_cons in Ht. rewrite HDR_eq in *.
  destruct (place_aligned_spec k (heap_head s + span l + 32)) as (al & gap & Epl & Hal & Halt & Hgap); try lia.
  { pose proof (layout_payload_aligned _ _ _ _ L) as Hp. by rewrite HDR_eq in Hp. }
  rewrite Epl in *. b2p.
  assert (16 <= round16 m) by (Z.div_mod_to_equations; lia).
  assert (Hg : (gap = 0 /\ al = heap_head s + span l + HDR)
    \/ (16 <= gap /\ gap mod 16 = 0 /\ al = heap_head s + span l + HDR + gap + HDR)).
  { rewrite HDR_eq. destruct Hgap as [[-> ->]|(? & ? & ->)]; [by left | right; split_and!; try done; lia]. }
  rewrite <- HDR_eq in Hfit.
  destruct (alloc_aligned_ok s l b r al gap (round16 m) I Hb) as (s' & E' & I' & A' & K'); try done.
  exists s'. rewrite HDR_eq in *. split_and!; done.
Qed.

Lemma a_memalign_live base bs k n q bs' :
  sizes_ok bs -> a_memalign base bs (2 ^ k) n = Some (q, bs') -> 0 <= n ->
  (forall l b r, bs = l ++ b :: r -> exists al gap,
     place_aligned (2 ^ k) (base + span l + HDR) = Some (al, gap)
     /\ ((gap = 0 /\ al = base + span l + HDR) \/ (16 <= gap /\ al = base + span l + HDR + gap + HDR))) ->
  (forall p z, live base bs p z -> live base bs' p z /\ p <> q)
  /\ (exists z, live base bs' q z /\ n <= z) /\ used_count bs' = used_count bs + 1.
Proof.
  intros Hs H Hn Hg. unfold a_memalign in H. set (m := if n =? 0 then 1 else n) in *.
  assert (Hnm : n <= round16 m) by (subst m; ztest; [subst; done | apply round16_range; lia]).
  destruct (_ <? _); [done|]. destruct (first_fit _ _ _ bs) as [[[l b] r]|] eqn:Ef; [|done].
  apply first_fit_some in Ef as (E & Hb & Hfit & _). simpl in E. subst bs.
  destruct (Hg l b r eq_refl) as (al & gap & Ep & Hcase). rewrite Ep in H. injection H as <- <-.
  unfold fits_aligned in Hfit. simpl in Hfit. rewrite Z.sub_0_r, Ep in Hfit. b2p.
  destruct (Z.eqb_spec gap 0) as [->|Hgap].
  - destruct Hcase as [[_ ->]|[? _]]; [|lia]. destruct (mark_split b (round16 m) Hb) as [Hsp [t Ht]].
    split_and!.
    + intros p z (c & Hp & Hc & Hz). split.
      * exists c. split_and!; try done. eapply placed_replace; [done | congruence | done].
      * intros ->. replace (_ - HDR) with (base + span l) in Hp by lia.
        pose proof (placed_unique _ _ _ _ _ Hs Hp (placed_app_cons base l b r)). congruence.
    + rewrite Ht. eexists. split; [by apply live_here|]. simpl. ztest; lia.
    + destruct (split_seg_counts b (round16 m) Hb) as (_ & _ & Hu & _).
      rewrite !used_count_app, Hu. simpl. rewrite Hb. lia.
  - destruct Hcase as [[? _]|[Hg16 ->]]; [lia|]. set (rest := Seg true (ssize b - gap - HDR)).
    destruct (mark_split rest (round16 m) eq_refl) as [Hsp [t Ht]]. rewrite <- app_assoc. split_and!.
    + intros p z (c & Hp & Hc & Hz). split.
      * exists c. split_and!; try done.
        eapply (placed_replace base l b r ([Seg true gap] ++ _)) in Hp; [| | congruence].
        -- rewrite <- app_assoc in Hp. exact Hp.
        -- rewrite span_app, Hsp. simpl. lia.
      * intros ->. pose proof (placed_range _ _ _ _ Hs Hp) as (_ & _ & Hc16).
        pose proof (round16_range m ltac:(subst m; ztest; lia)).
        destruct (placed_disjoint _ _ _ _ _ _ Hs (placed_app_cons base l b r) Hp) as [[? _]|[?|?]];
          rewrite HDR_eq in *; lia.
    + rewrite Ht, app_assoc. eexists.
      replace (base + span l + HDR + gap + HDR) with (base + span (l ++ [Seg true gap]) + HDR)
        by (rewrite span_app; simpl; lia).
      split; [by apply live_here|]. subst rest. simpl in *. ztest; lia.
    + destruct (split_seg_counts rest (round16 m) eq_refl) as (_ & _ & Hu & _).
      rewrite !used_count_app, Hu. simpl. rewrite Hb. lia.
Qed.

Lemma kmemalign_live d s bs k n q bs' :
  heap_inv s bs -> 5 <= k <= 60 -> 0 <= n -> heap_head s + span bs < 2 ^ 62 ->
  a_memalign (heap_head s) bs (2 ^ k) n = Some (q, bs') ->
  exists s', kmemalign d (2 ^ k) n s = Ok q s' /\ heap_inv s' bs' /\ same_arena s s' /\ q mod 2 ^ k = 0
    /\ others_kept s bs 0 s' bs' /\ (exists z, live (heap_head s) bs' q z /\ n <= z)
    /\ used_count bs' = used_count bs + 1 /\ (forall p z, live (heap_head s) bs p z -> p <> q).
Proof.
  intros I Hk Hn Ht E. pose proof (kmemalign_spec d s bs k n I Hk Hn Ht) as H. rewrite E in H.
  destruct H as (s' & E' & I' & A' & K' & Hq). pose proof (inv_layout _ _ I) as L.
  destruct (a_memalign_live _ _ _ _ _ _ (inv_sizes _ _ I) E Hn) as (Ho & Hz & Hu).
  { intros l b r ->. pose proof (layout_bounds _ _ _ _ L) as B. rewrite span_app, span_cons in Ht.
    destruct (place_aligned_spec k (heap_head s + span l + HDR)) as (al & gap & Epl & _ & _ & Hg);
      [done | rewrite HDR_eq in *; lia | eapply layout_payload_aligned; exact L |].
    exists al, gap. split; [done|]. tauto. }
  exists s'. split_and!; try done; [| intros p z Hp; apply (Ho _ _ Hp)].
  intros p2 z2 L2 _. split; [by apply Ho|].
  intros x Hx. eapply (keeps_live s s' bs bs' p2 z2 z2); try eassumption; [by apply inv_sizes in I | by apply inv_sizes in I' | by apply Ho | lia].
Qed.

(** ** heap_check *)

Lemma check_walk_run s bs : forall l fuel counted,
  layout s (l ++ bs) -> coalesced bs = true -> (length bs < fuel)%nat -> 0 <= counted ->
  counted + span bs < 2 ^ 63 ->
  check_walk fuel (link bs (heap_head s + span l) 0) counted s = Ok (counted + span bs) s.
Proof.
  induction bs as [|b bs IH]; intros l [|fuel] ct L Hc Hf H0 Ht; simpl in Hf; try lia.
  { simpl. by rewrite Z.add_0_r. }
  pose proof (layout_bounds _ _ _ _ L) as B. rewrite HDR_eq in B.
  pose proof (chain_focus _ _ _ _ _ (lay_chain _ _ L)) as [Ef En].
  cbn [check_walk link]. set (a := heap_head s + span l) in *. destruct (Z.eqb_spec a 0); [lia|].
  erewrite bind_ok by (by apply load_ok). unfold check_header. cbn [magic]. rewrite Z.eqb_refl.
  erewrite bind_ok by done. cbn [bsize bnext bfree]. rewrite span_cons in *.
  rewrite wrap64_small by (rewrite HDR_eq in *; lia).
  assert (Esp : heap_head s + span (l ++ [b]) = a + HDR + ssize b) by (rewrite span_app; simpl; lia).
  specialize (IH (l ++ [b]) fuel (ct + (HDR + ssize b))). rewrite <- app_assoc, Esp in IH.
  simpl in Hc. apply andb_true_iff in Hc as [Hc1 Hc2].
  replace (ct + (HDR + ssize b + span bs)) with (ct + (HDR + ssize b) + span bs) by lia.
  destruct bs as [|c bs]; cbn [link]; [apply IH; try done; rewrite ?HDR_eq in *; simpl in *; lia|].
  destruct (Z.eqb_spec (a + HDR + ssize b) 0); [rewrite HDR_eq in *; lia|].
  erewrite bind_ok by (by apply load_ok, En). cbn [bprev bfree]. rewrite Z.eqb_refl. cbn [negb].
  simpl in Hc1. destruct (sfree b && sfree c); [done|]. apply IH; try done; rewrite ?HDR_eq in *; try lia.
Qed.

Lemma heap_check_ok d s bs : heap_inv s bs -> heap_check d s = Ok 0 s.
Proof.
  intros I. pose proof (inv_layout _ _ I) as L. pose proof (lay_top _ _ L). pose proof (lay_base _ _ L).
  unfold heap_check, gets. rewrite (bind_ok _ _ _ _ _ (ensure_init_ok d s bs L)).
  erewrite bind_ok by done. unfold id.
  pose proof (check_walk_run s bs [] (walk_fuel s) 0 L (inv_coalesced _ _ I) (walk_fuel_enough _ _ L)) as E.
  change (span []) with 0 in E. rewrite !Z.add_0_r, (layout_head _ _ L) in E.
  rewrite (bind_ok _ _ _ _ _ (E ltac:(lia) ltac:(lia))). rewrite (lay_span _ _ L), Z.add_0_l, Z.eqb_refl. done.
Qed.

(** ** heap_init *)

Lemma heap_init_ok base size s :
  0 < base -> base mod 16 = 0 -> base + size < 2 ^ 62 -> HDR + MIN_PAYLOAD < size ->
  exists s', heap_init base size s = Ok tt s' /\ heap_inv s' [Seg true (size - HDR)]
    /\ heap_head s' = base /\ span [Seg true (size - HDR)] = size.
Proof.
  intros H0 Hm Ht Hs. unfold MIN_PAYLOAD in *. rewrite HDR_eq in *. unfold heap_init, MIN_PAYLOAD.
  destruct (Z.eqb_spec base 0); [lia|]. rewrite align_up_16 by lia.
  assert (E : round16 base = base) by (unfold round16; Z.div_mod_to_equations; lia).
  rewrite E, Z.sub_diag, wrap64_small, HDR_eq by lia.
  destruct (Z.ltb_spec size 0); [lia|]. rewrite Z.sub_0_r. destruct (Z.leb_spec size (32 + 16)); [lia|].
  unfold store, modify. erewrite bind_ok by done. eexists. split; [done|].
  assert (Hsp : span [Seg true (size - 32)] = size) by (simpl; rewrite HDR_eq; lia).
  split_and!; try done. apply inv_counted. split_and!; try done.
  constructor; cbn [heap_head arena_bytes hdrs]; rewrite ?Hsp; try done; try lia.
  - simpl. rewrite Z.eqb_refl. done.
  - repeat constructor. simpl. lia.
Qed.

(** ** heap_stats *)

Lemma heap_stats_ok d s bs :
  heap_inv s bs ->
  exists st, heap_stats d s = Ok st s /\ bytes_in_use st = used_bytes bs /\ bytes_free st = free_bytes bs
    /\ overhead st = HDR * Z.of_nat (length bs) /\ arena_size st = span bs
    /\ used_blocks st = used_count bs /\ free_blocks st = free_count bs.
Proof.
  intros I. pose proof (inv_layout _ _ I) as L. apply inv_counted in I as (_ & _ & Ci & Cu & Cf & _).
  pose proof (layout_counts _ _ L) as U. pose proof (counts_bound _ (lay_sizes _ _ L)) as C.
  assert (Hlen : used_count bs + free_count bs = Z.of_nat (length bs)).
  { clear. induction bs as [|b bs IH]; [done|]. simpl length. simpl. destruct (sfree b); lia. }
  unfold heap_stats, gets. rewrite (bind_ok _ _ _ _ _ (ensure_init_ok d s bs L)).
  eexists. split; [done|]. cbn. rewrite (lay_span _ _ L), Ci, Cu, Cf. rewrite HDR_eq in *.
  rewrite (wrap64_small (used_count bs + free_count bs)) by lia.
  rewrite (wrap64_small (_ * 32)) by lia. rewrite wrap64_small by lia. split_and!; lia.
Qed.

(** [align & (align - 1)] is zero only for powers of two. *)
Lemma pow2_of_land a : 0 < a -> Z.land a (a - 1) = 0 -> a = 2 ^ Z.log2 a.
Proof.
  intros Ha H. pose proof (Z.log2_spec a Ha) as [Hlo Hhi]. pose proof (Z.log2_nonneg a).
  rewrite Z.pow_succ_r in Hhi by done.
  destruct (Z.eq_dec a (2 ^ Z.log2 a)) as [|Hne]; [done|]. exfalso.
  assert (Hb : forall c, 2 ^ Z.log2 a <= c < 2 * 2 ^ Z.log2 a -> Z.testbit c (Z.log2 a) = true).
  { intros c Hc. rewrite Z.testbit_true by done.
    replace (c / 2 ^ Z.log2 a) with 1; [done|]. apply Z.div_unique with (c - 2 ^ Z.log2 a); lia. }
  assert (Z.testbit (Z.land a (a - 1)) (Z.log2 a) = true) as Ht by (rewrite Z.land_spec, !Hb; [done | lia | lia]).
  by rewrite H, Z.bits_0 in Ht.
Qed.
