(* ===== verification/HeapClient.v ===== *)
(** The heap seen from its clients: any sequence of legal calls and in-bounds
    writes behaves as a store of disjoint arrays, and never breaks the arena. *)

From stdpp Require Import gmap.
From S2P Require Import Prelude Mem Heap HeapSpec HeapProofs HeapOps HeapRealloc HeapTop.

(** ** The abstract store: each live pointer owns an array of bytes. *)

Abbreviation objects := (gmap Z (list (option Z))).

Definition cells (n : Z) (v : option Z) : list (option Z) := replicate (Z.to_nat n) v.

Section Client.

Variable d : Z.

(** One call of a client that plays by include/heap.h: sizes are size_t, only
    live pointers are freed or resized, writes stay inside the size asked for. *)
Inductive cstep : heap * objects -> heap * objects -> Prop :=
  | c_malloc s s' own n p :
      0 <= n < 2 ^ 64 -> kmalloc d n s = Ok p s' ->
      cstep (s, own) (s', <[p := cells n None]> own)
  | c_calloc s s' own count size p :
      0 <= count < 2 ^ 64 -> 0 <= size < 2 ^ 64 -> count * size < 2 ^ 64 ->
      kcalloc d count size s = Ok p s' ->
      cstep (s, own) (s', <[p := cells (count * size) (Some 0)]> own)
  | c_memalign s s' own align n p :
      0 <= align <= 2 ^ 60 -> 0 <= n < 2 ^ 64 -> kmemalign d align n s = Ok p s' ->
      cstep (s, own) (s', <[p := cells n None]> own)
  | c_realloc s s' own p l n q :
      own !! p = Some l -> 1 <= n -> n + 15 < 2 ^ 64 -> krealloc d p n s = Ok q s' ->
      cstep (s, own) (s', <[q := resize (Z.to_nat n) None l]> (delete p own))
  | c_realloc_0 s s' own p l q :
      own !! p = Some l -> krealloc d p 0 s = Ok q s' ->
      cstep (s, own) (s', delete p own)
  | c_free s s' own p l :
      own !! p = Some l -> kfree d p s = Ok tt s' ->
      cstep (s, own) (s', delete p own)
  | c_write s own p l i v :
      own !! p = Some l -> 0 <= i < Z.of_nat (length l) -> 0 <= v < 256 ->
      cstep (s, own)
        (put_bytes (p + i) 1 (fun m => upd m (p + i) (Some v)) s,
         <[p := <[Z.to_nat i := Some v]> l]> own).

Inductive creach (c0 : heap * objects) : heap * objects -> Prop :=
  | creach_refl : creach c0 c0
  | creach_step c c' : creach c0 c -> cstep c c' -> creach c0 c'.

(** The concrete heap implements the abstract store. *)
Definition implements (s : heap) (own : objects) (bs : list seg) : Prop :=
  heap_inv s bs /\ heap_head s + span bs < 2 ^ 62 /\ used_count bs = Z.of_nat (size own)
  /\ forall p l, own !! p = Some l ->
       exists z, live (heap_head s) bs p z /\ Z.of_nat (length l) <= z
       /\ forall i v, l !! i = Some (Some v) -> bytes s (p + Z.of_nat i) = Some v.

Lemma arena_top s s' bs bs' :
  heap_inv s bs -> heap_inv s' bs' -> same_arena s s' ->
  heap_head s + span bs < 2 ^ 62 -> heap_head s' + span bs' < 2 ^ 62.
Proof.
  intros I I' [Eh Ea] H. rewrite <- (lay_span _ _ (inv_layout _ _ I)), <- Ea, (lay_span _ _ (inv_layout _ _ I')) in H.
  by rewrite Eh.
Qed.

(** Objects not named by an operation survive it. *)
Lemma implements_other s s' own bs bs' p q l :
  implements s own bs -> same_arena s s' -> others_kept s bs p s' bs' ->
  own !! q = Some l -> q <> p ->
  exists z, live (heap_head s') bs' q z /\ Z.of_nat (length l) <= z
    /\ forall i v, l !! i = Some (Some v) -> bytes s' (q + Z.of_nat i) = Some v.
Proof.
  intros (I & _ & _ & H) [Eh _] O Hq Hne. destruct (H _ _ Hq) as (z & Lz & Hl & Hb).
  destruct (O _ _ Lz Hne) as [Lz' B]. exists z. rewrite Eh. split_and!; try done.
  intros i v Hi. rewrite B; [by apply Hb|]. apply lookup_lt_Some in Hi. lia.
Qed.

(** A fresh object. *)
Lemma implements_alloc s s' own bs bs' p n c z :
  implements s own bs -> heap_inv s' bs' -> same_arena s s' -> others_kept s bs 0 s' bs' ->
  used_count bs' = used_count bs + 1 -> (forall q y, live (heap_head s) bs q y -> q <> p) ->
  live (heap_head s) bs' p z -> 0 <= n <= z ->
  (forall v, c = Some v -> forall x, p <= x < p + n -> bytes s' x = Some v) ->
  implements s' (<[p := cells n c]> own) bs'.
Proof.
  intros Im I' A O Hu Hf Lp Hn Hc. destruct Im as (I & Ht & Hs & Ho).
  assert (Hp : own !! p = None).
  { destruct (own !! p) eqn:E; [|done]. destruct (Ho _ _ E) as (y & Ly & _). by destruct (Hf _ _ Ly). }
  split_and!; [done | by apply (arena_top s s' bs bs') | rewrite map_size_insert_None by done; lia |].
  intros q l Hq. destruct (decide (q = p)) as [->|Hne].
  - rewrite lookup_insert_eq in Hq. injection Hq as <-. exists z. unfold cells. rewrite length_replicate.
    destruct A as [-> _]. split_and!; try done; [lia|].
    intros i v Hi. apply lookup_replicate in Hi as [E Hi]. apply (Hc v); [by symmetry | lia].
  - rewrite lookup_insert_ne in Hq by done. apply (implements_other s s' own bs bs' 0); try done.
    destruct (Ho _ _ Hq) as (y & Ly & _). pose proof (live_pos _ _ _ _ I Ly). lia.
Qed.

(** A dropped object. *)
Lemma implements_drop s s' own bs bs' p l :
  implements s own bs -> own !! p = Some l -> heap_inv s' bs' -> same_arena s s' ->
  others_kept s bs p s' bs' -> used_count bs' = used_count bs - 1 -> implements s' (delete p own) bs'.
Proof.
  intros Im Hp I' A O Hu. pose proof Im as (I & Ht & Hs & Ho).
  split_and!; [done | by apply (arena_top s s' bs bs') | |].
  - rewrite map_size_delete, Hp. cbn.
    assert (size own <> 0%nat) by (by eapply map_size_ne_0_lookup_2, mk_is_Some). lia.
  - intros q l' Hq. apply lookup_delete_Some in Hq as [Hne Hq].
    apply (implements_other s s' own bs bs' p); try done; congruence.
Qed.

Lemma step_malloc s s' own bs n p :
  implements s own bs -> 0 <= n < 2 ^ 64 -> kmalloc d n s = Ok p s' ->
  exists bs', implements s' (<[p := cells n None]> own) bs'.
Proof.
  intros Im Hn E. pose proof Im as (I & _).
  pose proof (kmalloc_spec d s bs n I ltac:(lia)) as H.
  destruct (a_malloc (heap_head s) bs n) as [[q bs']|] eqn:Em; [|congruence]. clear H.
  destruct (kmalloc_live d s bs n q bs' I ltac:(lia) Em) as (s1 & E1 & I1 & A1 & O1 & z & Lz & Hz).
  rewrite E in E1. injection E1 as -> ->. exists bs'.
  destruct (a_malloc_live _ _ _ _ _ (inv_sizes _ _ I) Em ltac:(lia)) as [Hd _].
  eapply (implements_alloc s s1 own bs bs' q n None z); try done; [by eapply a_malloc_count | | lia].
  intros q' y Ly. by apply (Hd _ _ Ly).
Qed.

Lemma step_calloc s s' own bs count sz p :
  implements s own bs -> 0 <= count < 2 ^ 64 -> 0 <= sz < 2 ^ 64 -> count * sz < 2 ^ 64 ->
  kcalloc d count sz s = Ok p s' ->
  exists bs', implements s' (<[p := cells (count * sz) (Some 0)]> own) bs'.
Proof.
  intros Im Hc Hz Ht E. pose proof Im as (I & _). assert (H0 : 0 <= count * sz) by lia.
  pose proof (kmalloc_spec d s bs _ I H0) as H.
  destruct (a_malloc (heap_head s) bs (count * sz)) as [[q bs']|] eqn:Em.
  - destruct (kcalloc_live d s bs count sz q bs' I Hc Hz Ht Em) as (s1 & E1 & I1 & A1 & O1 & (z & Lz & Hle) & Hb).
    rewrite E in E1. injection E1 as -> ->. exists bs'.
    destruct (a_malloc_live _ _ _ _ _ (inv_sizes _ _ I) Em H0) as [Hd _].
    eapply (implements_alloc s s1 own bs bs' q _ (Some 0) z); try done;
      first [by eapply a_malloc_count | lia | intros q' y Ly; by apply (Hd _ _ Ly) | by intros v [= <-]].
  - unfold kcalloc in E. rewrite wrap64_small in E by lia. destruct (_ && _); [done|].
    unfold bind in E. by rewrite H in E.
Qed.

Lemma step_memalign s s' own bs align n p :
  implements s own bs -> 0 <= align <= 2 ^ 60 -> 0 <= n < 2 ^ 64 -> kmemalign d align n s = Ok p s' ->
  exists bs', implements s' (<[p := cells n None]> own) bs'.
Proof.
  intros Im Ha Hn E. pose proof Im as (I & Ht & _). pose proof (inv_layout _ _ I) as L.
  assert (E' := E). unfold kmemalign in E. rewrite (bind_ok _ _ _ _ _ (ensure_init_ok d s bs L)) in E.
  unfold ALIGN in E. destruct (Z.leb_spec align 16); [by eapply step_malloc|].
  destruct (Z.eqb_spec (Z.land align (align - 1)) 0) as [Hp|]; [| done]. apply pow2_of_land in Hp; [|lia].
  set (k := Z.log2 align) in *. assert (Hk : 5 <= k <= 60).
  { split.
    - subst k. apply Z.log2_le_pow2; [lia|]. change (2 ^ 5) with 32. rewrite Hp.
      assert (4 < Z.log2 align) by (apply (Z.pow_lt_mono_r_iff 2); [lia | apply Z.log2_nonneg | rewrite <- Hp; lia]).
      change 32 with (2 ^ 5). apply Z.pow_le_mono_r; lia.
    - change 60 with (Z.log2 (2 ^ 60)). apply Z.log2_le_mono. lia. }
  rewrite Hp in E'. pose proof (kmemalign_spec d s bs k n I Hk ltac:(lia) Ht) as H'.
  destruct (a_memalign (heap_head s) bs (2 ^ k) n) as [[q bs']|] eqn:Em; [|congruence]. clear H'.
  destruct (kmemalign_live d s bs k n q bs' I Hk ltac:(lia) Ht Em) as (s1 & E1 & I1 & A1 & _ & O1 & (z & Lz & Hz) & Hu & Hd).
  rewrite E' in E1. injection E1 as -> ->. exists bs'.
  eapply (implements_alloc s s1 own bs bs' q n None z); try done. lia.
Qed.

Lemma step_free s s' own bs p l :
  implements s own bs -> own !! p = Some l -> kfree d p s = Ok tt s' ->
  exists bs', implements s' (delete p own) bs'.
Proof.
  intros Im Hp E. pose proof Im as (I & _ & _ & Ho). destruct (Ho _ _ Hp) as (z & Lz & _).
  destruct (kfree_live d s bs p z I Lz) as (s1 & bs' & E1 & _ & I1 & A1 & O1 & Hu & _).
  rewrite E in E1. injection E1 as ->. exists bs'. by eapply implements_drop.
Qed.

Lemma step_realloc s s' own bs p l n q :
  implements s own bs -> own !! p = Some l -> 1 <= n -> n + 15 < 2 ^ 64 -> krealloc d p n s = Ok q s' ->
  exists bs', implements s' (<[q := resize (Z.to_nat n) None l]> (delete p own)) bs'.
Proof.
  intros Im Hp Hn1 Hn2 E. pose proof Im as (I & Ht & Hs & Ho). destruct (Ho _ _ Hp) as (z & Lz & Hl & Hb).
  destruct (krealloc_live d s bs p z n I Lz Hn1 Hn2) as [(q' & s1 & bs' & E1 & R)|[E1 _]]; [|congruence].
  rewrite E in E1. injection E1 as -> ->. destruct R as (I1 & A1 & O1 & (z' & Lz' & Hz') & Hu & Hf & Hc).
  assert (Hfresh : delete p own !! q' = None).
  { destruct (delete p own !! q') as [l'|] eqn:Eq; [|done]. apply lookup_delete_Some in Eq as [? Eq].
    destruct (Ho _ _ Eq) as (y & Ly & _). by destruct (Hf _ _ Ly). }
  exists bs'. split_and!; [done | by apply (arena_top s s1 bs bs') | |].
  - rewrite map_size_insert_None, map_size_delete, Hp by done. cbn.
    assert (size own <> 0%nat) by (by eapply map_size_ne_0_lookup_2, mk_is_Some). lia.
  - intros r l' Hr. destruct (decide (r = q')) as [->|Hne].
    + rewrite lookup_insert_eq in Hr. injection Hr as <-. exists z'. rewrite length_resize.
      destruct A1 as [-> _]. split_and!; try done; [lia|]. intros i v Hi.
      assert (Hi' : (i < Z.to_nat n)%nat) by (apply lookup_lt_Some in Hi; by rewrite length_resize in Hi).
      destruct (decide (i < length l)%nat).
      * rewrite lookup_resize in Hi by lia. rewrite Hc by lia. by apply Hb.
      * rewrite lookup_resize_new in Hi by lia. done.
    + rewrite lookup_insert_ne in Hr by done. apply lookup_delete_Some in Hr as [? Hr].
      by apply (implements_other s s1 own bs bs' p).
Qed.

Lemma step_write s own bs p l i v :
  implements s own bs -> own !! p = Some l -> 0 <= i < Z.of_nat (length l) ->
  implements (put_bytes (p + i) 1 (fun m => upd m (p + i) (Some v)) s)
    (<[p := <[Z.to_nat i := Some v]> l]> own) bs.
Proof.
  intros (I & Ht & Hs & Ho) Hp Hi. destruct (Ho _ _ Hp) as (z & Lz & Hl & Hb).
  assert (Hmem : forall x, bytes (put_bytes (p + i) 1 (fun m => upd m (p + i) (Some v)) s) x
                           = if x =? p + i then Some v else bytes s x) by done.
  split_and!; try done.
  - apply inv_counted in I as (L & ? & ?). apply inv_counted. split_and!; try done.
    destruct Lz as (b & Hpl & _ & <-). eapply put_bytes_layout; try eassumption; lia.
  - rewrite map_size_insert_Some by eauto. done.
  - intros q l' Hq. destruct (decide (q = p)) as [->|Hne].
    + rewrite lookup_insert_eq in Hq. injection Hq as <-. exists z. rewrite length_insert.
      split_and!; try done. intros j w Hj. rewrite Hmem. destruct (Z.eqb_spec (p + Z.of_nat j) (p + i)).
      * replace j with (Z.to_nat i) in Hj by lia. rewrite list_lookup_insert_eq in Hj by lia. congruence.
      * rewrite list_lookup_insert_ne in Hj by lia. by apply Hb.
    + rewrite lookup_insert_ne in Hq by done. destruct (Ho _ _ Hq) as (y & Ly & Hly & Hby).
      exists y. split_and!; try done. intros j w Hj. rewrite Hmem.
      destruct (live_disjoint _ _ _ _ _ _ (inv_sizes _ _ I) Lz Ly ltac:(congruence)) as [D|D];
        apply lookup_lt_Some in Hj as Hj'; rewrite HDR_eq in D;
        (destruct (Z.eqb_spec (q + Z.of_nat j) (p + i)); [lia | by apply Hby]).
Qed.

Lemma cstep_implements c c' bs :
  implements c.1 c.2 bs -> cstep c c' -> exists bs', implements c'.1 c'.2 bs'.
Proof.
  intros Im H. destruct H; simpl in *.
  - by eapply step_malloc.
  - by eapply step_calloc.
  - by eapply step_memalign.
  - by eapply step_realloc.
  - unfold krealloc in *. destruct Im as (I & Ht & Hs & Ho) eqn:EI. destruct (Ho _ _ H) as (z & Lz & _).
    pose proof (live_pos _ _ _ _ I Lz). destruct (Z.eqb_spec p 0); [lia|]. cbn [Z.eqb] in *.
    destruct (kfree d p s) as [[] s1| | |] eqn:Ef; unfold bind in *; rewrite Ef in *; try done.
    injection H0 as _ <-. eapply step_free; [exact Im | done | done].
  - by eapply step_free.
  - eexists. by apply step_write.
Qed.

Lemma creach_implements c0 c bs :
  implements c0.1 c0.2 bs -> creach c0 c -> exists bs', implements c.1 c.2 bs'.
Proof.
  intros H0. induction 1 as [|c c' _ [bs' IH] Hs]; [eauto|]. by eapply cstep_implements.
Qed.

End Client.

(** ** What the heap promises *)

Lemma kfree_bad_header d s bs p b :
  layout s bs -> p <> 0 -> hdrs s (block_of p) = Some b ->
  magic b <> BLOCK_MAGIC \/ bfree b = true -> exists w, kfree d p s = Panic w.
Proof.
  intros L Hp Hb H. unfold kfree. destruct (Z.eqb_spec p 0); [done|].
  rewrite (bind_ok _ _ _ _ _ (ensure_init_ok d s bs L)).
  erewrite bind_ok by (by apply load_ok). unfold check_header.
  destruct (Z.eqb_spec (magic b) BLOCK_MAGIC); [| eexists; reflexivity].
  erewrite bind_ok by done. destruct H as [?| ->]; [done | eexists; reflexivity].
Qed.

Lemma kfree_second d s l b r a s' :
  heap_inv s (l ++ b :: r) -> sfree b = false -> a = heap_head s + span l ->
  kfree d (a + HDR) s = Ok tt s' -> exists w, kfree d (a + HDR) s' = Panic w.
Proof.
  intros I Hb Ha E. pose proof (layout_bounds _ _ _ _ (inv_layout _ _ I)) as B.
  destruct (kfree_spec d s l b r a I Hb Ha) as (s1 & E1 & I1 & A1 & M1 & _).
  rewrite E in E1. injection E1 as <-. rewrite HDR_eq in B.
  destruct (block_of_payload a) as [Eb _]; [lia|].
  destruct (last_free l) eqn:El.
  - destruct (M1 eq_refl) as (x & Hx & Hm).
    eapply (kfree_bad_header d s' _ _ x); [apply I1 | rewrite HDR_eq; lia | by rewrite Eb |].
    left. rewrite Hm. done.
  - pose proof (inv_sizes _ _ I) as Hs. rewrite sizes_ok_app, sizes_ok_cons in Hs.
    destruct (merge_free_head (ssize b) r ltac:(tauto)) as (z & r' & Em & _). rewrite Em in I1.
    assert (Eback : merge_back l (Seg true z :: r') = l ++ Seg true z :: r').
    { destruct l as [|q l _] using rev_ind; [done|]. rewrite last_free_app in El.
      by rewrite merge_back_snoc, El, <- app_assoc. }
    rewrite Eback in I1. pose proof (chain_focus _ _ _ _ _ (lay_chain _ _ (inv_layout _ _ I1))) as [Ef _].
    rewrite (proj1 A1), <- Ha in Ef.
    eapply (kfree_bad_header d s' _ _ _); [apply I1 | rewrite HDR_eq; lia | rewrite Eb; exact Ef | by right].
Qed.

Lemma heap_init_size base len s s' :
  0 < base -> base mod 16 = 0 -> 0 <= len -> base + len < 2 ^ 62 -> heap_init base len s = Ok tt s' -> HDR + MIN_PAYLOAD < len.
Proof.
  intros Hb Hm Hl Ht. unfold heap_init. destruct (Z.eqb_spec base 0); [lia|].
  assert (E : align_up base ALIGN = base).
  { rewrite align_up_16 by lia. unfold round16. Z.div_mod_to_equations; lia. }
  rewrite E, Z.sub_diag, wrap64_small by lia. destruct (_ <? _); [done|]. rewrite Z.sub_0_r.
  destruct (Z.leb_spec len (HDR + MIN_PAYLOAD)); done.
Qed.

(** A sample arena: 4 KiB at 0x1000, one 100-byte allocation. *)
Definition demo_init : heap :=
  match heap_init 0x1000 4096 heap_boot with Ok _ s => s | _ => heap_boot end.
Definition demo : heap := match kmalloc 0 100 demo_init with Ok _ s => s | _ => heap_boot end.
Definition demo_segs : list seg := [Seg false 112; Seg true 3920].
Definition demo_ptr : Z := 0x1020.

(** C1: clients are isolated. Start from a fresh arena and make any sequence of
    kmalloc, kcalloc, kmemalign, krealloc, kfree and in-bounds writes that
    respects the contract of include/heap.h. Then heap_check() still returns 0,
    the live-block counter is the number of objects the clients hold, every
    object is 16-byte aligned and reads back exactly what was last written to it
    (zeroes after kcalloc, the kept prefix after krealloc), and no two objects
    overlap. *)
Theorem heap_clients_isolated d base len s0 s1 s own :
  0 < base -> base mod 16 = 0 -> 0 <= len -> base + len < 2 ^ 62 ->
  heap_init base len s0 = Ok tt s1 -> creach d (s1, ∅) (s, own) ->
  heap_check d s = Ok 0 s /\ stat_used_blocks s = Z.of_nat (size own)
  /\ (forall p l, own !! p = Some l -> p mod 16 = 0
        /\ forall i v, l !! i = Some (Some v) -> bytes s (p + Z.of_nat i) = Some v)
  /\ (forall p l q k, own !! p = Some l -> own !! q = Some k -> p <> q ->
        p + Z.of_nat (length l) < q \/ q + Z.of_nat (length k) < p).
Proof.
  intros Hb Hm Hl Ht E R. assert (Hsz : HDR + MIN_PAYLOAD < len) by (by eapply heap_init_size).
  destruct (heap_init_ok base len s0 Hb Hm Ht Hsz) as (s1' & E1 & I1 & Hh & Hsp).
  rewrite E in E1. injection E1 as <-.
  destruct (creach_implements d (s1, ∅) (s, own) [Seg true (len - HDR)]) as (bs & I & _ & Hu & Ho); [|done|].
  { split_and!; simpl; [done | rewrite Hh; simpl in Hsp; lia | done | done]. }
  simpl in *. pose proof (inv_sizes _ _ I) as Hs. split_and!.
  - by eapply heap_check_ok.
  - by rewrite (inv_used _ _ I), Hu.
  - intros p l Hp. destruct (Ho _ _ Hp) as (z & Lz & _ & Hc). split; [|done].
    destruct (live_focus _ _ _ _ Lz) as (l0 & b & r & -> & _ & _ & ->).
    eapply layout_payload_aligned. apply I.
  - intros p l q k Hp Hq Hne. destruct (Ho _ _ Hp) as (z & Lz & ? & _). destruct (Ho _ _ Hq) as (y & Ly & ? & _).
    destruct (live_disjoint _ _ _ _ _ _ Hs Lz Ly Hne); rewrite HDR_eq in *; lia.
Qed.

Lemma heap_clients_isolated_witness :
  creach 0 (demo_init, ∅) (demo, {[demo_ptr := cells 100 None]}) /\ heap_check 0 demo = Ok 0 demo.
Proof.
  assert (R : creach 0 (demo_init, ∅) (demo, {[demo_ptr := cells 100 None]})).
  { eapply creach_step; [apply creach_refl|].
    apply (c_malloc 0 demo_init demo ∅ 100 demo_ptr); [lia | vm_compute; reflexivity]. }
  split; [exact R|].
  apply (heap_clients_isolated 0 0x1000 4096 heap_boot demo_init demo {[demo_ptr := cells 100 None]});
    [lia | reflexivity | lia | lia | vm_compute; reflexivity | exact R].
Defined.

Lemma demo_head : heap_head demo = 0x1000.
Proof. vm_compute. reflexivity. Qed.

Lemma demo_hdrs : hdrs demo 0x1000 = Some (Block BLOCK_MAGIC false 112 0 0x1090)
  /\ hdrs demo 0x1090 = Some (Block BLOCK_MAGIC true 3920 0x1000 0).
Proof. split; vm_compute; reflexivity. Qed.

Lemma demo_stats : stat_in_use demo = 112 /\ stat_peak demo = 112 /\ stat_used_blocks demo = 1
  /\ stat_free_blocks demo = 1 /\ arena_bytes demo = 4096.
Proof. repeat split; vm_compute; reflexivity. Qed.

Lemma demo_inv : heap_inv demo demo_segs /\ live (heap_head demo) demo_segs demo_ptr 112.
Proof.
  destruct demo_stats as (H1 & H2 & H3 & H4 & Ha). split.
  - apply inv_counted. split; [| split; [reflexivity|]].
    + constructor; rewrite ?demo_head, ?Ha.
      * destruct demo_hdrs as [E1 E2]. cbn [chain demo_segs link sfree ssize].
        change (0x1000 + HDR + 112) with 0x1090. rewrite E1, E2. repeat split.
      * split; reflexivity.
      * reflexivity.
      * reflexivity.
      * repeat constructor; discriminate.
      * repeat split.
      * discriminate.
    + unfold counted. rewrite H1, H2, H3, H4. repeat split; discriminate.
  - rewrite demo_head. exists (Seg false 112). split; [| done]. exists [], [Seg true 3920]. done.
Qed.

(** C27: kmalloc is first fit. On any arena in the invariant it returns exactly
    what the list-level allocator returns: the first free block that holds the
    request rounded up to 16, carved when the remainder can stand on its own, and
    it panics exactly when no free block fits or the request exceeds the arena
    (so a request near SIZE_MAX cannot wrap to a small one). *)
Theorem kmalloc_first_fit d s bs n :
  heap_inv s bs -> 0 <= n < 2 ^ 64 ->
  match a_malloc (heap_head s) bs n with
  | Some (p, bs') => exists s', kmalloc d n s = Ok p s' /\ heap_inv s' bs'
                                /\ others_kept s bs 0 s' bs' /\ exists z, live (heap_head s) bs' p z /\ n <= z
  | None => kmalloc d n s = Panic "kmalloc: out of memory"
  end.
Proof.
  intros I Hn. pose proof (kmalloc_spec d s bs n I ltac:(lia)) as H.
  destruct (a_malloc _ _ _) as [[p bs']|] eqn:E; [|done].
  destruct (kmalloc_live d s bs n p bs' I ltac:(lia) E) as (s' & ? & ? & ? & ? & ?). eauto.
Qed.

Lemma kmalloc_first_fit_witness :
  kmalloc 0 (2 ^ 64 - 1) demo = Panic "kmalloc: out of memory".
Proof.
  pose proof (kmalloc_first_fit 0 demo demo_segs (2 ^ 64 - 1) (proj1 demo_inv) ltac:(lia)) as H.
  rewrite demo_head in H. exact H.
Defined.

(** C29: kfree of a live pointer succeeds, poisons the payload with 0xDE, merges
    with both free neighbours (the list-level result stays coalesced), leaves
    every other live payload untouched, and an immediate second kfree of the
    same pointer always panics, whether or not the block was merged away. *)
Theorem kfree_poisons_and_catches_double_free d s bs p z :
  heap_inv s bs -> live (heap_head s) bs p z ->
  exists s' bs' w, kfree d p s = Ok tt s' /\ a_free (heap_head s) bs p = Some bs' /\ heap_inv s' bs'
    /\ others_kept s bs p s' bs' /\ (forall x, p <= x < p + z -> bytes s' x = Some POISON_BYTE)
    /\ kfree d p s' = Panic w.
Proof.
  intros I Hl. destruct (kfree_live d s bs p z I Hl) as (s' & bs' & E & Ea & I' & A' & O' & _ & Hp).
  destruct (live_focus _ _ _ _ Hl) as (l & b & r & -> & Hb & <- & ->).
  destruct (kfree_second d s l b r _ s' I Hb eq_refl E) as [w Ew].
  exists s', bs', w. split_and!; done.
Qed.

Lemma kfree_poisons_and_catches_double_free_witness :
  exists s' w, kfree 0 demo_ptr demo = Ok tt s' /\ kfree 0 demo_ptr s' = Panic w.
Proof.
  destruct (kfree_poisons_and_catches_double_free 0 demo demo_segs demo_ptr 112 (proj1 demo_inv) (proj2 demo_inv))
    as (s' & bs' & w & E & _ & _ & _ & _ & Ew). exists s', w. split; assumption.
Defined.

(** C32: krealloc of a live block to a non-zero size that does not wrap either
    panics because no block fits, or returns a block of at least the new size
    that holds the old contents up to the smaller of the two sizes, whichever of
    the shrink, grow-in-place and copy paths it took; the invariant, the counters
    and every other live payload are kept. *)
Theorem krealloc_keeps_contents d s bs p z n :
  heap_inv s bs -> live (heap_head s) bs p z -> 1 <= n -> n + 15 < 2 ^ 64 ->
  (exists q s' bs' z', krealloc d p n s = Ok q s' /\ heap_inv s' bs' /\ others_kept s bs p s' bs'
     /\ live (heap_head s) bs' q z' /\ n <= z'
     /\ forall i, 0 <= i < Z.min z n -> bytes s' (q + i) = bytes s (p + i))
  \/ (krealloc d p n s = Panic "kmalloc: out of memory" /\ a_malloc (heap_head s) bs n = None).
Proof.
  intros I Hl H1 H2. destruct (krealloc_live d s bs p z n I Hl H1 H2) as [(q & s' & bs' & E & R)|H]; [left|by right].
  destruct R as (? & ? & ? & (z' & ? & ?) & _ & _ & ?). exists q, s', bs', z'. split_and!; done.
Qed.

Lemma krealloc_keeps_contents_witness :
  (exists q s' bs' z', krealloc 0 demo_ptr 500 demo = Ok q s' /\ heap_inv s' bs' /\ others_kept demo demo_segs demo_ptr s' bs'
     /\ live (heap_head demo) bs' q z' /\ 500 <= z'
     /\ forall i, 0 <= i < Z.min 112 500 -> bytes s' (q + i) = bytes demo (demo_ptr + i))
  \/ (krealloc 0 demo_ptr 500 demo = Panic "kmalloc: out of memory" /\ a_malloc (heap_head demo) demo_segs 500 = None).
Proof.
  apply (krealloc_keeps_contents 0 demo demo_segs demo_ptr 112 500 (proj1 demo_inv) (proj2 demo_inv)); lia.
Defined.

(** Krealloc does not bound its request the way round_request() does for
    kmalloc. A size within 15 of SIZE_MAX rounds up to 0, the block "shrinks in
    place" to an empty payload, the call reports success with the same pointer,
    and the next kmalloc hands out memory inside the old block. *)
Theorem krealloc_near_size_max_shrinks_to_zero :
  value_of ((q <- krealloc 0 demo_ptr (2 ^ 64 - 1) ;;
             b <- load (block_of q) ;;
             r <- kmalloc 0 16 ;;
             ret (q, bsize b, r))%prog demo)
  = Some (demo_ptr, 0, demo_ptr + HDR) /\ demo_ptr <= demo_ptr + HDR < demo_ptr + 100.
Proof. split; [vm_compute; reflexivity | rewrite HDR_eq; lia]. Qed.

(** Kmemalign with a power-of-two alignment above 16 returns a payload on
    that alignment, of at least the requested size, keeps the invariant and every
    live payload, and panics exactly when no free block can hold an aligned
    payload behind a front gap that is itself a block. *)
Theorem kmemalign_aligned d s bs k n :
  heap_inv s bs -> 5 <= k <= 60 -> 0 <= n < 2 ^ 64 -> heap_head s + span bs < 2 ^ 62 ->
  match a_memalign (heap_head s) bs (2 ^ k) n with
  | Some (p, bs') => exists s' z, kmemalign d (2 ^ k) n s = Ok p s' /\ p mod 2 ^ k = 0 /\ heap_inv s' bs'
                       /\ others_kept s bs 0 s' bs' /\ live (heap_head s) bs' p z /\ n <= z
  | None => kmemalign d (2 ^ k) n s = Panic "kmemalign: out of memory"
  end.
Proof.
  intros I Hk Hn Ht. pose proof (kmemalign_spec d s bs k n I Hk ltac:(lia) Ht) as H.
  destruct (a_memalign _ _ _ _) as [[p bs']|] eqn:E; [|done].
  destruct (kmemalign_live d s bs k n p bs' I Hk ltac:(lia) Ht E) as (s' & ? & ? & ? & ? & ? & (z & ? & ?) & _).
  exists s', z. split_and!; done.
Qed.

Lemma kmemalign_aligned_witness :
  exists s' z, kmemalign 0 (2 ^ 8) 10 demo = Ok 0x1100 s' /\ 0x1100 mod 2 ^ 8 = 0 /\ 10 <= z.
Proof.
  assert (Ht : heap_head demo + span demo_segs < 2 ^ 62) by (rewrite demo_head; vm_compute; reflexivity).
  pose proof (kmemalign_aligned 0 demo demo_segs 8 10 (proj1 demo_inv) ltac:(lia) ltac:(lia) Ht) as H.
  rewrite demo_head in H.
  destruct (a_memalign 0x1000 demo_segs (2 ^ 8) 10) as [[p bs']|] eqn:E; vm_compute in E; [|discriminate E].
  injection E as <- _. destruct H as (s' & z & E & Hm & _ & _ & _ & Hz).
  exists s', z. split; [exact E | split; [exact Hm | exact Hz]].
Defined.

(** Kcalloc either refuses a product that does not fit size_t, or hands out
    [count * size] zero bytes under kmalloc's contract. *)
Theorem kcalloc_zeroed_or_refused d s bs count size :
  heap_inv s bs -> 0 <= count < 2 ^ 64 -> 0 <= size < 2 ^ 64 ->
  if 2 ^ 64 <=? count * size then kcalloc d count size s = Panic "kcalloc: size overflow"
  else match a_malloc (heap_head s) bs (count * size) with
       | Some (p, bs') => exists s', kcalloc d count size s = Ok p s' /\ heap_inv s' bs'
            /\ others_kept s bs 0 s' bs' /\ forall x, p <= x < p + count * size -> bytes s' x = Some 0
       | None => kcalloc d count size s = Panic "kmalloc: out of memory"
       end.
Proof.
  intros I Hc Hz. destruct (Z.leb_spec (2 ^ 64) (count * size)) as [Ho|Ho].
  - unfold kcalloc. destruct (Z.eqb_spec size 0); [lia|]. cbn [negb andb].
    destruct (Z.eqb_spec (wrap64 (count * size) / size) count) as [E|]; [|done]. exfalso.
    assert (Hlt : wrap64 (count * size) < count * size) by (pose proof (wrap_range 64 (count * size)); lia).
    pose proof (wrap_range 64 (count * size) ltac:(lia)).
    assert (wrap64 (count * size) / size < count) by (apply Z.div_lt_upper_bound; lia). lia.
  - destruct (a_malloc _ _ _) as [[p bs']|] eqn:Em.
    + destruct (kcalloc_live d s bs count size p bs' I Hc Hz Ho Em) as (s' & ? & ? & ? & ? & ? & ?). exists s'. split_and!; done.
    + pose proof (kmalloc_spec d s bs (count * size) I ltac:(lia)) as H. rewrite Em in H.
      unfold kcalloc. rewrite wrap64_small by lia.
      assert (Eg : negb (size =? 0) && negb (count * size / size =? count) = false).
      { destruct (Z.eqb_spec size 0); [done|]. rewrite Z.div_mul by done. by rewrite Z.eqb_refl. }
      rewrite Eg. unfold bind. by rewrite H.
Qed.

Lemma kcalloc_zeroed_or_refused_witness :
  kcalloc 0 (2 ^ 33) (2 ^ 33) demo = Panic "kcalloc: size overflow".
Proof.
  exact (kcalloc_zeroed_or_refused 0 demo demo_segs (2 ^ 33) (2 ^ 33) (proj1 demo_inv) ltac:(lia) ltac:(lia)).
Defined.

(** Heap_stats() is exact. In any invariant state the incrementally kept
    counters give the true sizes: bytes in use, bytes free (computed by
    subtraction) and header overhead add up to the arena. *)
Theorem heap_stats_exact d s bs :
  heap_inv s bs ->
  exists st, heap_stats d s = Ok st s /\ bytes_in_use st = used_bytes bs /\ bytes_free st = free_bytes bs
    /\ used_blocks st = used_count bs /\ free_blocks st = free_count bs
    /\ bytes_in_use st + bytes_free st + overhead st = arena_size st.
Proof.
  intros I. destruct (heap_stats_ok d s bs I) as (st & E & H1 & H2 & H3 & H4 & H5 & H6).
  exists st. split_and!; try done. rewrite H1, H2, H3, H4.
  pose proof (counts_bound _ (inv_sizes _ _ I)) as C.
  assert (Hlen : used_count bs + free_count bs = Z.of_nat (length bs)).
  { clear. induction bs as [|b bs IH]; [done|]. simpl length. simpl. destruct (sfree b); lia. }
  lia.
Qed.

Lemma heap_stats_exact_witness :
  exists st, heap_stats 0 demo = Ok st demo /\ bytes_in_use st = 112 /\ bytes_free st = 3920
    /\ used_blocks st = 1 /\ free_blocks st = 1 /\ bytes_in_use st + bytes_free st + overhead st = arena_size st.
Proof. exact (heap_stats_exact 0 demo demo_segs (proj1 demo_inv)). Defined.
