(* ===== verification/Bytes.v ===== *)
(** Byte strings and caller-supplied buffers: what the text-handling parts of the
    kernel (JSON, formatting, line editing) read and write. *)

From Stdlib Require Export Ascii.
From S2P Require Import Prelude.

(** A C string or a bounded span is the list of its bytes, each in [0, 256); a
    NUL-terminated string is the list of the bytes before the NUL. *)
Abbreviation bytes := (list Z).

Definition byte_ok (c : Z) : Prop := 0 <= c < 256.

(** Character constants, as the numbers the compiler sees. *)
Notation "'ch' x" :=
  (ltac:(let v := eval vm_compute in (Z.of_N (N_of_ascii x%char)) in exact v))
  (at level 10, only parsing).
Abbreviation QUOTE := 34.

(** A string literal. *)
Fixpoint lit (s : string) : bytes :=
  match s with
  | EmptyString => []
  | String a r => Z.of_N (N_of_ascii a) :: lit r
  end.

(** A literal with double quotes in it, written here as backquotes. *)
Definition qlit (s : string) : bytes :=
  map (fun c => if c =? ch "`" then QUOTE else c) (lit s).

Definition zlen (s : bytes) : Z := Z.of_nat (length s).

(** ** Buffers *)

(** A buffer the caller passed in is the list of the bytes it owns; a store
    outside it is [Wild]. *)
Definition poke (i c : Z) : prog bytes unit := fun b =>
  if (0 <=? i) && (i <? zlen b) then Ok tt (<[Z.to_nat i := c]> b) else Wild.

(** [for (i = 0; i < n; i++) dst[at + i] = src[i]] *)
Fixpoint pokes (at_ : Z) (src : bytes) : prog bytes unit :=
  match src with
  | [] => ret tt
  | c :: r => bind (poke at_ c) (fun _ => pokes (at_ + 1) r)
  end.

(** A buffer after [src] was stored at [off]. *)
Definition patch (off : Z) (src b : bytes) : bytes :=
  take (Z.to_nat off) b ++ src ++ drop (Z.to_nat off + length src) b.

Lemma zlen_nonneg s : 0 <= zlen s.
Proof. unfold zlen. lia. Qed.
Lemma zlen_app s t : zlen (s ++ t) = zlen s + zlen t.
Proof. unfold zlen. rewrite length_app. lia. Qed.
Lemma zlen_cons c s : zlen (c :: s) = zlen s + 1.
Proof. unfold zlen. cbn [length]. lia. Qed.
Lemma zlen_nil : zlen [] = 0.
Proof. reflexivity. Qed.

Create Rewrite HintDb zlen.
#[export] Hint Rewrite zlen_app zlen_cons zlen_nil : zlen.

Lemma poke_ok i c b :
  0 <= i < zlen b -> poke i c b = Ok tt (patch i [c] b).
Proof.
  intros H. unfold poke. rewrite range_in by lia. f_equal.
  unfold patch, zlen in *. cbn [length app].
  rewrite insert_take_drop by lia. do 3 f_equal. lia.
Qed.

Lemma patch_nil off b : patch off [] b = b.
Proof. unfold patch. cbn [length app]. rewrite Nat.add_0_r. apply take_drop. Qed.

Lemma zlen_patch off src b :
  0 <= off -> off + zlen src <= zlen b -> zlen (patch off src b) = zlen b.
Proof.
  unfold zlen, patch. intros H0 H.
  rewrite !length_app, length_take, length_drop. lia.
Qed.

(** Two stores in a row are one longer store. *)
Lemma patch_patch off s t b :
  0 <= off -> off + zlen s + zlen t <= zlen b ->
  patch (off + zlen s) t (patch off s b) = patch off (s ++ t) b.
Proof.
  unfold zlen, patch. intros H0 H.
  rewrite Z2Nat.inj_add, Nat2Z.id by lia. set (o := Z.to_nat off).
  assert (Ho : (o + length s + length t <= length b)%nat) by lia.
  assert (Hl : length (take o b) = o) by (rewrite length_take; lia).
  rewrite (take_app_ge (take o b)), Hl by lia.
  replace (o + length s - o)%nat with (length s) by lia.
  rewrite (take_app_le s), (take_ge s), <- !app_assoc by lia. do 3 f_equal.
  rewrite (drop_app_ge (take o b)), Hl by lia.
  rewrite (drop_app_ge s) by lia. rewrite drop_drop, length_app. f_equal. lia.
Qed.

Lemma pokes_ok src : forall off b,
  0 <= off -> off + zlen src <= zlen b -> pokes off src b = Ok tt (patch off src b).
Proof.
  induction src as [|c r IH]; intros off b H0 H; cbn [pokes].
  - by rewrite patch_nil.
  - autorewrite with zlen in H. pose proof (zlen_nonneg r).
    erewrite bind_ok by (apply poke_ok; lia).
    rewrite IH by (rewrite ?zlen_patch by (autorewrite with zlen; lia); lia).
    replace (off + 1) with (off + zlen [c]) by done.
    by rewrite patch_patch by (autorewrite with zlen; lia).
Qed.

(** The bytes before [off] survive a store at [off]. *)
Lemma take_patch off src b :
  0 <= off -> off + zlen src <= zlen b ->
  take (Z.to_nat off) (patch off src b) = take (Z.to_nat off) b.
Proof.
  unfold zlen, patch. intros H0 H.
  rewrite take_app_le by (rewrite length_take; lia). rewrite take_take. f_equal. lia.
Qed.

(** The C string that starts at the front of a buffer. *)
Fixpoint cstr (b : bytes) : bytes :=
  match b with
  | [] => []
  | c :: r => if c =? 0 then [] else c :: cstr r
  end.

Definition no_nul (s : bytes) : Prop := Forall (fun c => c <> 0) s.

Lemma cstr_app s r : no_nul s -> cstr (s ++ 0 :: r) = s.
Proof.
  induction 1 as [|c s Hc _ IH]; cbn [cstr app]; [done|].
  destruct (Z.eqb_spec c 0); [done|]. by rewrite IH.
Qed.

Lemma cstr_id s : no_nul s -> cstr s = s.
Proof.
  induction 1 as [|c s Hc _ IH]; cbn [cstr]; [done|].
  destruct (Z.eqb_spec c 0); [done|]. by rewrite IH.
Qed.
