(* ===== verification/Input.v ===== *)
(** drivers/input: the line editor and the arbitration between input sources of input.c, and
    the scancode decoder of kbd.c. The lines the kernel gets are the lines typed, source by
    source; no source starves; the keyboard types what its keys say. *)

From S2P Require Import Prelude Bytes.
Open Scope prog_scope.

Definition INPUT_LINE_MAX : Z := 4096.
Definition INPUT_NONE : Z := -1.
Definition INPUT_DRAIN_BUDGET : nat := 512.

(** * The line editor *)

Record input_line := Line {
  l_buf : bytes; l_cap : Z; l_len : Z; l_echo : bool; l_truncated : bool; l_eat_lf : bool }.

(** An editor and what was put on the console. *)
Definition editor : Type := input_line * bytes.

Definition set_line (n : Z) (b : bytes) (ed : input_line) : input_line :=
  Line b (l_cap ed) n (l_echo ed) (l_truncated ed) (l_eat_lf ed).
Definition set_cut (t : bool) (ed : input_line) : input_line :=
  Line (l_buf ed) (l_cap ed) (l_len ed) (l_echo ed) t (l_eat_lf ed).
Definition set_eat (e : bool) (ed : input_line) : input_line :=
  Line (l_buf ed) (l_cap ed) (l_len ed) (l_echo ed) (l_truncated ed) e.

(** [ed->buf[i] = c] *)
Definition ed_poke (i c : Z) : prog editor unit := fun s =>
  match poke i c (l_buf s.1) with
  | Ok _ b => Ok tt (set_line (l_len s.1) b s.1, s.2)
  | Panic w => Panic w
  | Wild => Wild
  | Spin => Spin
  end.

Definition on_ed (f : input_line -> input_line) : prog editor unit := modify (fun s => (f s.1, s.2)).

(** The console's bytes, when the editor echoes. *)
Definition echo (t : bytes) : prog editor unit :=
  modify (fun s => (s.1, if l_echo s.1 then s.2 ++ t else s.2)).

Definition input_line_reset : prog editor unit :=
  on_ed (fun ed => Line (l_buf ed) (l_cap ed) 0 (l_echo ed) false false) ;;;
  c <- gets (fun s => l_cap s.1) ;;
  if 0 <? c then ed_poke 0 0 else ret tt.

(** [buf] is the storage bound to the editor. *)
Definition input_line_init (buf : bytes) (cap : Z) (e : bool) : prog editor unit :=
  on_ed (fun ed => Line buf (if 2 <=? cap then cap else 0) (l_len ed) e (l_truncated ed) (l_eat_lf ed)) ;;;
  input_line_reset.

(** The byte after the test for the LF of a CRLF; whether it completed a line. *)
Definition push_byte (c : Z) : prog editor bool :=
  if (c =? 10) || (c =? 13) then
    (if c =? 13 then on_ed (set_eat true) else ret tt) ;;;
    echo [10] ;;;
    n <- gets (fun s => l_len s.1) ;;
    ed_poke n 0 ;;;
    ret true
  else if (c =? 8) || (c =? 127) then
    n <- gets (fun s => l_len s.1) ;;
    (if 0 <? n then
       on_ed (fun ed => set_line (n - 1) (l_buf ed) ed) ;;;
       ed_poke (n - 1) 0 ;;;
       echo [8; 32; 8]
     else ret tt) ;;;
    ret false
  else if c =? 0 then ret false
  else
    ed <- gets fst ;;
    (if l_len ed <? l_cap ed - 1 then
       ed_poke (l_len ed) c ;;;
       on_ed (fun ed => set_line (l_len ed + 1) (l_buf ed) ed) ;;;
       ed_poke (l_len ed + 1) 0 ;;;
       echo [c]
     else on_ed (set_cut true)) ;;;
    ret false.

Definition input_line_push (c : Z) : prog editor bool :=
  ed <- gets fst ;;
  if l_cap ed <=? 0 then ret false
  else
    let c := Z.land c 255 in
    if l_eat_lf ed then
      on_ed (set_eat false) ;;; if c =? 10 then ret false else push_byte c
    else push_byte c.

(** The line copied into [out], of [cap] bytes: the length and what [out] holds. *)
Definition input_line_take (out : bytes) : prog editor (Z * bytes) :=
  ed <- gets fst ;;
  let cap := zlen out in
  let n := if cap - 1 <? l_len ed then cap - 1 else l_len ed in
  (if cap - 1 <? l_len ed then on_ed (set_cut true) else ret tt) ;;;
  match (pokes 0 (take (Z.to_nat n) (l_buf ed)) ;;; poke n 0) out with
  | Ok _ out =>
      on_ed (fun ed => set_line 0 (l_buf ed) ed) ;;;
      (if 0 <? l_cap ed then ed_poke 0 0 else ret tt) ;;;
      ret (n, out)
  | _ => fun _ => Wild
  end.

(** * Sources *)

(** A source is a number; [feed] has what its getc_nb will return, call by call: a byte, or
    nothing now. Its structure keeps the editor when it is not registered. *)
Record sources := Sources {
  srcs : list nat; rr : option nat; last_src : option nat; last_trunc : bool; nsrcs : Z;
  eds : nat -> input_line; echoes : nat -> bool; feed : nat -> list (option Z); console : bytes }.

Definition upd {A} (i : nat) (x : A) (f : nat -> A) : nat -> A := fun j => if Nat.eqb i j then x else f j.

Definition on_source {A} (i : nat) (p : prog editor A) : prog sources A := fun s =>
  match p (eds s i, console s) with
  | Ok a (ed, t) => Ok a (Sources (srcs s) (rr s) (last_src s) (last_trunc s) (nsrcs s) (upd i ed (eds s)) (echoes s) (feed s) t)
  | Panic w => Panic w
  | Wild => Wild
  | Spin => Spin
  end.

Definition input_register_source (i : nat) : prog sources Z :=
  l <- gets srcs ;;
  if bool_decide (i ∈ l) then ret 0
  else
    e <- gets (fun s => echoes s i) ;;
    b <- gets (fun s => l_buf (eds s i)) ;;
    on_source i (input_line_init b INPUT_LINE_MAX e) ;;;
    modify (fun s => Sources (srcs s ++ [i]) (match rr s with Some r => Some r | None => Some i end)
                       (last_src s) (last_trunc s) (nsrcs s + 1) (eds s) (echoes s) (feed s) (console s)) ;;;
    ret 0.

Definition input_unregister_source (i : nat) : prog sources Z :=
  l <- gets srcs ;;
  if bool_decide (i ∈ l) then
    modify (fun s =>
      let l := List.filter (fun j => negb (Nat.eqb j i)) (srcs s) in
      Sources l (if bool_decide (rr s = Some i) then head l else rr s)
        (if bool_decide (last_src s = Some i) then None else last_src s)
        (last_trunc s) (nsrcs s - 1) (eds s) (echoes s) (feed s) (console s)) ;;;
    ret 0
  else ret (-1).

(** The source after [i] in the list, the first one after the last. *)
Fixpoint after (i : nat) (l : list nat) : option nat :=
  match l with
  | [] => None
  | j :: l => if Nat.eqb i j then head l else after i l
  end.
Definition next_after (i : nat) (s : sources) : option nat :=
  match after i (srcs s) with Some j => Some j | None => head (srcs s) end.

(** [s->getc_nb(s)] *)
Definition getc_nb (i : nat) : prog sources Z := fun s =>
  match feed s i with
  | [] => Ok INPUT_NONE s
  | r :: rest =>
      Ok (default INPUT_NONE r)
         (Sources (srcs s) (rr s) (last_src s) (last_trunc s) (nsrcs s) (eds s) (echoes s) (upd i rest (feed s)) (console s))
  end.

(** The inner loop: at most [budget] bytes of source [i]; the line, if one was completed. *)
Fixpoint drain (budget : nat) (i : nat) (out : bytes) : prog sources (option (Z * bytes)) :=
  match budget with
  | O => ret None
  | S budget =>
      c <- getc_nb i ;;
      if c =? INPUT_NONE then ret None
      else
        fin <- on_source i (input_line_push c) ;;
        if negb fin then drain budget i out
        else
          r <- on_source i (input_line_take out) ;;
          modify (fun s =>
            let ed := eds s i in
            let s := Sources (srcs s) (rr s) (Some i) (l_truncated ed) (nsrcs s) (upd i (set_cut false ed) (eds s))
                       (echoes s) (feed s) (console s) in
            Sources (srcs s) (next_after i s) (last_src s) (last_trunc s) (nsrcs s) (eds s) (echoes s) (feed s) (console s)) ;;;
          ret (Some r)
  end.

(** The outer loop with [todo] sources left to visit, [i] first. *)
Fixpoint visit (todo : nat) (i : nat) (out : bytes) : prog sources (Z * bytes) :=
  match todo with
  | O => modify (fun s => Sources (srcs s) (Some i) (last_src s) (last_trunc s) (nsrcs s) (eds s) (echoes s) (feed s) (console s)) ;;;
         ret (INPUT_NONE, out)
  | S todo =>
      r <- drain INPUT_DRAIN_BUDGET i out ;;
      match r with
      | Some r => ret r
      | None =>
          j <- gets (next_after i) ;;
          match j with
          | Some j => visit todo j out
          | None => fun _ => Wild
          end
      end
  end.

(** [input_poll(buf, cap)], [out] the [cap] bytes of [buf]. *)
Definition input_poll (out : bytes) : prog sources (Z * bytes) :=
  s <- gets (fun s => s) ;;
  if bool_decide (srcs s = []) || (zlen out <=? 0) then ret (INPUT_NONE, out)
  else
    match (match rr s with Some r => Some r | None => head (srcs s) end) with
    | Some i => visit (Z.to_nat (nsrcs s)) i out
    | None => fun _ => Wild
    end.

(** [input_readline(buf, cap)], with [polls] passes of its loop. *)
Fixpoint readline_loop (polls : nat) (out : bytes) : prog sources (Z * bytes) :=
  match polls with
  | O => fun _ => Spin
  | S polls =>
      r <- input_poll out ;;
      if negb (r.1 =? INPUT_NONE) then ret r else readline_loop polls r.2
  end.
Definition input_readline (polls : nat) (out : bytes) : prog sources (Z * bytes) :=
  match (if 0 <? zlen out then poke 0 0 else ret tt) out with
  | Ok _ out => l <- gets srcs ;; if bool_decide (l = []) then ret (INPUT_NONE, out) else readline_loop polls out
  | _ => fun _ => Wild
  end.

(** * Lines *)

(** A line being typed: its text, whether characters were lost, whether a LF belongs to the
    line before. *)
Record typed := Typed { t_text : bytes; t_cut : bool; t_cr : bool }.

Definition blank : typed := Typed [] false false.

(** One byte typed; the line it completes. *)
Definition key (t : typed) (c : Z) : typed * option (bytes * bool) :=
  if t_cr t && (c =? 10) then (Typed (t_text t) (t_cut t) false, None)
  else if (c =? 10) || (c =? 13) then (Typed [] false (c =? 13), Some (t_text t, t_cut t))
  else if (c =? 8) || (c =? 127) then (Typed (removelast (t_text t)) (t_cut t) false, None)
  else if c =? 0 then (Typed (t_text t) (t_cut t) false, None)
  else if zlen (t_text t) <? INPUT_LINE_MAX - 1 then (Typed (t_text t ++ [c]) (t_cut t) false, None)
  else (Typed (t_text t) true false, None).

(** The lines completed by some bytes, and the line left. *)
Fixpoint lines_of (t : typed) (bs : bytes) : list (bytes * bool) * typed :=
  match bs with
  | [] => ([], t)
  | c :: bs =>
      let (t, l) := key t c in
      let (ls, t) := lines_of t bs in
      (match l with Some l => l :: ls | None => ls end, t)
  end.

Lemma lines_of_app a : forall t b,
  lines_of t (a ++ b) = let (l1, t1) := lines_of t a in let (l2, t2) := lines_of t1 b in (l1 ++ l2, t2).
Proof.
  induction a as [|c a IH]; intros t b; cbn [lines_of app]; [by destruct (lines_of t b)|].
  destruct (key t c) as [t1 l]. rewrite IH. destruct (lines_of t1 a) as [l1 t2]. destruct (lines_of t2 b) as [l2 t3].
  by destruct l.
Qed.

(** ** The editor holds the line *)

(** [ed] is the editor of a source in which [t] has been typed. *)
Record holds (ed : input_line) (t : typed) : Prop := {
  h_cap : l_cap ed = INPUT_LINE_MAX;
  h_room : INPUT_LINE_MAX <= zlen (l_buf ed);
  h_len : l_len ed = zlen (t_text t);
  h_fits : zlen (t_text t) <= INPUT_LINE_MAX - 1;
  h_text : take (length (t_text t)) (l_buf ed) = t_text t;
  h_cut : l_truncated ed = t_cut t;
  h_cr : l_eat_lf ed = t_cr t }.

Lemma ed_poke_ok i c ed con : 0 <= i < zlen (l_buf ed) ->
  ed_poke i c (ed, con) = Ok tt (set_line (l_len ed) (patch i [c] (l_buf ed)) ed, con).
Proof. intros Hi. unfold ed_poke. cbn [fst snd]. by rewrite poke_ok. Qed.

Lemma take_of_app {A} (a b : list A) n l : take n l = a ++ b -> n = length (a ++ b) -> take (length a) l = a.
Proof.
  intros E ->. assert (E2 : take (length a) (take (length (a ++ b)) l) = a) by (rewrite E; apply take_app_length).
  rewrite take_take in E2. rewrite length_app in E2. by replace (length a `min` (length a + length b))%nat with (length a) in E2 by lia.
Qed.

Lemma take_text x c b : take (length x) b = x -> zlen x < zlen b -> take (length x) (patch (zlen x) [c] b) = x.
Proof.
  intros Hx Hl. pose proof (zlen_nonneg x). replace (length x) with (Z.to_nat (zlen x)) at 1 by (unfold zlen; lia).
  rewrite take_patch by (autorewrite with zlen; lia). by replace (Z.to_nat (zlen x)) with (length x) by (unfold zlen; lia).
Qed.

Lemma removelast_snoc (x : bytes) c : removelast (x ++ [c]) = x.
Proof. apply removelast_last. Qed.

Lemma push_byte_ok ed con t c : holds ed t -> l_eat_lf ed = false ->
  let (t', l) := key (Typed (t_text t) (t_cut t) false) c in
  exists ed' con', push_byte c (ed, con) = Ok (match l with Some _ => true | None => false end) (ed', con') /\
    match l with Some (line, cut) => holds ed' (Typed line cut (t_cr t')) /\ t' = Typed [] false (t_cr t') | None => holds ed' t' end.
Proof.
  intros [Hc Hr Hl Hf Ht Hcut Hcr] He. unfold key, push_byte. cbn [t_cr t_text t_cut andb]. rewrite Hcr in He.
  pose proof (zlen_nonneg (t_text t)). destruct t as [x cut cr]. cbn in *. subst cr.
  assert (M : INPUT_LINE_MAX = 4096) by done.
  destruct ((c =? 10) || (c =? 13)) eqn:Enl.
  { assert (Hx : forall e, exists ed' con', (echo [10] ;;; n <- gets (fun s => l_len s.1) ;; ed_poke n 0 ;;; ret true) (set_eat e ed, con)
      = Ok true (ed', con') /\ holds ed' (Typed x cut e)).
    { intros e. erewrite bind_ok by reflexivity. erewrite bind_ok by reflexivity. cbn [fst snd].
      erewrite bind_ok by (apply ed_poke_ok; cbn; lia). eexists _, _. split; [reflexivity|].
      split; cbn; try done; try lia.
      - rewrite zlen_patch by (autorewrite with zlen; cbn; lia). lia.
      - rewrite Hl. apply take_text; [done|lia]. }
    destruct (c =? 13).
    - erewrite bind_ok by reflexivity. destruct (Hx true) as (ed' & con' & E & Hh). exists ed', con'. split; [exact E|done].
    - erewrite bind_ok by reflexivity. destruct (Hx false) as (ed' & con' & E & Hh). exists ed', con'.
      replace (set_eat false ed) with ed in E by (destruct ed; cbn in *; by subst). split; [exact E|done]. }
  destruct ((c =? 8) || (c =? 127)) eqn:Ebs.
  { erewrite bind_ok by reflexivity. cbn [fst]. destruct (Z.ltb_spec 0 (l_len ed)).
    - assert (Hx : x <> []) by (intros ->; change (zlen []) with 0 in Hl; lia). destruct (exists_last Hx) as (y & z & ->).
      rewrite removelast_snoc. autorewrite with zlen in *. cbn [length] in *.
      pose proof (zlen_nonneg y). change (zlen (@nil Z)) with 0 in *.
      eexists _, _. split.
      + erewrite bind_ok; [reflexivity|]. erewrite bind_ok by reflexivity. cbn [fst snd].
        erewrite bind_ok by (apply ed_poke_ok; cbn; lia). reflexivity.
      + split; cbn; try done; try lia.
        * rewrite zlen_patch by (autorewrite with zlen; cbn; lia). lia.
        * rewrite Hl. replace (zlen y + (0 + 1) - 1) with (zlen y) by lia. apply take_text; [|lia].
          eapply take_of_app; [exact Ht|done].
    - assert (x = []) as -> by (destruct x; [done|autorewrite with zlen in *; pose proof (zlen_nonneg x); lia]).
      eexists _, _. split; [reflexivity|]. by split. }
  destruct (c =? 0); [eexists _, _; split; [reflexivity|by split]|].
  erewrite bind_ok by reflexivity. cbn [fst]. rewrite Hl, Hc. destruct (Z.ltb_spec (zlen x) (INPUT_LINE_MAX - 1)).
  - eexists _, _. split.
    + erewrite bind_ok; [reflexivity|]. erewrite bind_ok by (apply ed_poke_ok; lia). erewrite bind_ok by reflexivity. cbn [fst snd].
      erewrite bind_ok by (apply ed_poke_ok; cbn; rewrite zlen_patch by (autorewrite with zlen; lia); lia). reflexivity.
    + assert (P : zlen (patch (zlen x) [c] (l_buf ed)) = zlen (l_buf ed)) by (apply zlen_patch; autorewrite with zlen; lia).
      split; cbn [fst snd l_cap l_buf l_len l_truncated l_eat_lf set_line t_text t_cut t_cr]; autorewrite with zlen; try done; try lia.
      * rewrite zlen_patch by (autorewrite with zlen; lia). lia.
      * replace (length (x ++ [c])) with (Z.to_nat (zlen x + 1)) by (unfold zlen; rewrite length_app; cbn; lia).
        rewrite take_patch by (autorewrite with zlen; lia). unfold patch. rewrite app_assoc.
        replace (Z.to_nat (zlen x)) with (length x) by (unfold zlen; lia). rewrite Ht.
        replace (Z.to_nat (zlen x + 1)) with (length (x ++ [c])) by (unfold zlen; rewrite length_app; cbn; lia).
        apply take_app_length.
  - eexists _, _. split; [reflexivity|]. by split.
Qed.

Lemma push_ok ed con t c : holds ed t ->
  let (t', l) := key t (Z.land c 255) in
  exists ed' con', input_line_push c (ed, con) = Ok (match l with Some _ => true | None => false end) (ed', con') /\
    match l with Some (line, cut) => holds ed' (Typed line cut (t_cr t')) /\ t' = Typed [] false (t_cr t') | None => holds ed' t' end.
Proof.
  intros Hh. pose proof Hh as [Hc Hr Hl Hf Ht Hcut Hcr]. unfold input_line_push. erewrite bind_ok by reflexivity. cbn [fst].
  rewrite Hc. change (INPUT_LINE_MAX <=? 0) with false. cbn match. set (b := Z.land c 255). rewrite Hcr. unfold key.
  destruct t as [x cut cr]. cbn in Hcr. cbn [t_cr t_text t_cut]. destruct cr; cbn [andb].
  - erewrite bind_ok by reflexivity. assert (He : holds (set_eat false ed) (Typed x cut false)) by (by split).
    destruct (Z.eqb_spec b 10) as [Eb|Eb].
    + eexists _, _. split; [reflexivity|]. exact He.
    + pose proof (push_byte_ok (set_eat false ed) con _ b He eq_refl) as Hp. cbn [t_text t_cut] in Hp. unfold key in Hp. cbn [t_cr t_text t_cut andb] in Hp.
      rewrite (proj2 (Z.eqb_neq b 10)) in Hp by done. exact Hp.
  - exact (push_byte_ok ed con _ b Hh Hcr).
Qed.

(** The line as the caller's buffer of [cap] bytes takes it, and whether it lost characters. *)
Definition taken (cap : Z) (l : bytes * bool) : bytes * bool :=
  (take (Z.to_nat (cap - 1)) l.1, l.2 || (cap - 1 <? zlen l.1)).

Lemma taken_ok ed con line cut cr out : holds ed (Typed line cut cr) -> 1 <= zlen out ->
  exists ed', input_line_take out (ed, con) =
    Ok (zlen (taken (zlen out) (line, cut)).1, patch 0 ((taken (zlen out) (line, cut)).1 ++ [0]) out) (ed', con) /\
    holds ed' (Typed [] (taken (zlen out) (line, cut)).2 cr).
Proof.
  intros [Hc Hr Hl Hf Ht Hcut Hcr] Ho. cbn [t_text t_cut t_cr] in *. pose proof (zlen_nonneg line).
  unfold input_line_take. erewrite bind_ok by reflexivity. cbn [fst]. unfold taken. cbn [fst snd]. rewrite Hl.
  set (n := if zlen out - 1 <? zlen line then zlen out - 1 else zlen line).
  assert (Hn : 0 <= n <= zlen line /\ n <= zlen out - 1) by (unfold n; ztest; lia).
  assert (Etx : take (Z.to_nat n) (l_buf ed) = take (Z.to_nat (zlen out - 1)) line).
  { rewrite <- Ht. rewrite take_take. unfold n, zlen in *. ztest; f_equal; lia. }
  set (tx := take (Z.to_nat (zlen out - 1)) line) in *.
  assert (Hz : zlen tx = n) by (unfold tx, n, zlen; rewrite length_take; ztest; unfold zlen in *; lia).
  set (ed1 := if zlen out - 1 <? zlen line then set_cut true ed else ed).
  erewrite (bind_ok _ _ _ tt (ed1, con)) by (unfold ed1; by destruct (_ <? _)).
  erewrite (bind_ok _ _ out) by (rewrite Etx; apply pokes_ok; lia).
  rewrite poke_ok by (rewrite zlen_patch by lia; lia). erewrite bind_ok by reflexivity. cbn [fst snd].
  rewrite Hc. change (0 <? INPUT_LINE_MAX) with true. cbn match.
  assert (Hb : l_buf ed1 = l_buf ed) by (unfold ed1; by destruct (_ <? _)).
  erewrite bind_ok by (apply ed_poke_ok; cbn [set_line l_buf fst]; rewrite Hb; assert (INPUT_LINE_MAX = 4096) by done; lia).
  eexists. split.
  - assert (Ep : patch n [0] (patch 0 tx out) = patch 0 (tx ++ [0]) out).
    { rewrite <- Hz, <- (Z.add_0_l (zlen tx)). apply patch_patch; autorewrite with zlen; lia. }
    unfold ret. rewrite Ep, Hz. reflexivity.
  - split; cbn [set_line l_cap l_buf l_len l_truncated l_eat_lf t_text t_cut t_cr fst snd]; try done.
    + unfold ed1. by destruct (_ <? _).
    + rewrite Hb, zlen_patch by (autorewrite with zlen; assert (INPUT_LINE_MAX = 4096) by done; lia). done.
    + unfold ed1. destruct (_ <? _); cbn; rewrite ?Hcut; by destruct cut.
    + unfold ed1. by destruct (_ <? _).
Qed.

(** * One source *)

(** What at most [n] calls of getc_nb do to the line being typed: the line completed, the
    line left, the results left. *)
Fixpoint pull (n : nat) (t : typed) (f : list (option Z)) : option (bytes * bool) * typed * list (option Z) :=
  match n with
  | O => (None, t, f)
  | S n =>
      match f with
      | [] => (None, t, [])
      | None :: f => (None, t, f)
      | Some c :: f =>
          match key t c with
          | (t, Some l) => (Some l, t, f)
          | (t, None) => pull n t f
          end
      end
  end.

(** The bytes among results of getc_nb. *)
Definition got (f : list (option Z)) : bytes := omap (fun r => r) f.

Lemma pull_lines n : forall t f r t' f', pull n t f = (r, t', f') ->
  exists used, f = used ++ f' /\ lines_of t (got used) = (match r with Some l => [l] | None => [] end, t').
Proof.
  induction n as [|n IH]; intros t f r t' f' E; cbn [pull] in E; [injection E as <- <- <-; by exists []|].
  destruct f as [|[c|] f]; [injection E as <- <- <-; by exists []| |injection E as <- <- <-; by exists [None]].
  destruct (key t c) as [t1 [l|]] eqn:Ek.
  - injection E as <- <- <-. exists [Some c]. split; [done|]. cbn. by rewrite Ek.
  - destruct (IH _ _ _ _ _ E) as (used & -> & El). exists (Some c :: used). split; [done|]. cbn. rewrite Ek.
    fold (got used). by rewrite El.
Qed.

Definition feed_ok (f : list (option Z)) : Prop := forall c, Some c ∈ f -> byte_ok c.

Lemma feed_ok_drop f g : feed_ok (f ++ g) -> feed_ok g.
Proof. intros H c Hc. apply H. apply elem_of_app. by right. Qed.

(** The same registry, but for the cursor and the last line. *)
Definition registry (s s' : sources) : Prop := srcs s' = srcs s /\ nsrcs s' = nsrcs s /\ echoes s' = echoes s.

Lemma upd_same {A} i (x : A) f : upd i x f i = x.
Proof. unfold upd. by rewrite Nat.eqb_refl. Qed.
Lemma upd_other {A} i j (x : A) f : i <> j -> upd i x f j = f j.
Proof. intros Hn. unfold upd. by rewrite (proj2 (Nat.eqb_neq i j)). Qed.

Lemma land_byte c : byte_ok c -> Z.land c 255 = c.
Proof. intros Hc. unfold byte_ok in Hc. change 255 with (2 ^ 8 - 1). rewrite land_mask by lia. apply Z.mod_small. cbn. lia. Qed.

Lemma drain_ok n i out : 1 <= zlen out -> forall s t, holds (eds s i) t -> feed_ok (feed s i) ->
  match pull n t (feed s i) with
  | (r, t', f') =>
      exists s', drain n i out s = Ok (match r with
          | Some l => Some (zlen (taken (zlen out) l).1, patch 0 ((taken (zlen out) l).1 ++ [0]) out) | None => None end) s' /\
        registry s s' /\ holds (eds s' i) t' /\ feed s' i = f' /\
        (forall j, j <> i -> eds s' j = eds s j /\ feed s' j = feed s j) /\
        match r with
        | Some l => last_src s' = Some i /\ last_trunc s' = (taken (zlen out) l).2 /\ rr s' = next_after i s
        | None => last_src s' = last_src s /\ last_trunc s' = last_trunc s /\ rr s' = rr s
        end
  end.
Proof.
  intros Ho. induction n as [|n IH]; intros s t Hh Hf; cbn [pull drain]; [by exists s|].
  unfold getc_nb at 1. unfold bind at 1. destruct (feed s i) as [|[c|] f] eqn:Ef.
  - change (INPUT_NONE =? INPUT_NONE) with true. cbn match. exists s. by rewrite Ef.
  - change (default INPUT_NONE (Some c)) with c. assert (Hc : byte_ok c) by (apply Hf; by left).
    rewrite (proj2 (Z.eqb_neq c INPUT_NONE)) by (unfold byte_ok, INPUT_NONE in *; lia).
    set (s1 := Sources _ _ _ _ _ _ _ _ _).
    pose proof (push_ok (eds s i) (console s) t c Hh) as Hp. rewrite land_byte in Hp by done.
    destruct (key t c) as [t1 l] eqn:Ek. destruct Hp as (ed & con & Ep & Hl).
    erewrite bind_ok by (unfold on_source, s1; cbn [eds console srcs rr last_src last_trunc nsrcs echoes feed]; rewrite Ep; reflexivity).
    set (s2 := Sources _ _ _ _ _ _ _ _ _).
    assert (F2 : feed s2 i = f) by (cbn; apply upd_same). assert (E2 : eds s2 i = ed) by (cbn; apply upd_same).
    assert (O2 : forall j, j <> i -> eds s2 j = eds s j /\ feed s2 j = feed s j) by (intros j Hj; cbn; by rewrite !upd_other by done).
    destruct l as [[line cut]|]; cbn [negb].
    + destruct Hl as [Hl ->]. cbn [t_cr] in *.
      destruct (taken_ok (eds s2 i) (console s2) line cut (t_cr t1) out) as (ed' & Et & Hh'); [by rewrite E2|done|].
      erewrite bind_ok by (unfold on_source; rewrite Et; reflexivity). erewrite bind_ok by reflexivity.
      eexists. split; [reflexivity|]. cbn [srcs rr last_src last_trunc nsrcs eds echoes feed console registry].
      split; [done|]. rewrite !upd_same. split; [|split; [|split]].
      * destruct Hh' as [B1 B2 B3 B4 B5 B6 B7]. by split.
      * exact F2.
      * intros j Hj. rewrite !upd_other by done. by apply O2.
      * split; [done|]. split; [|done]. destruct Hh' as [_ _ _ _ _ B6 _]. exact B6.
    + specialize (IH s2 t1). rewrite E2, F2 in IH. specialize (IH Hl ltac:(by apply (feed_ok_drop [Some c]))).
      destruct (pull n t1 f) as [[r t'] f']. destruct IH as (s' & E & R & H1 & H2 & H3 & H4).
      exists s'. split; [exact E|]. split; [exact R|]. split; [done|]. split; [done|]. split; [|done].
      intros j Hj. destruct (H3 j Hj) as [-> ->]. by apply O2.
  - change (default INPUT_NONE None) with INPUT_NONE. change (INPUT_NONE =? INPUT_NONE) with true. cbn match. eexists. split; [reflexivity|]. cbn.
    split; [done|]. split; [done|]. split; [apply upd_same|]. split; [|done]. intros j Hj. by rewrite upd_other by done.
Qed.

(** * Arbitration *)

Definition nxt (l : list nat) (i : nat) : nat :=
  match after i l with Some j => j | None => default i (head l) end.

Lemma after_in i l j : after i l = Some j -> j ∈ l.
Proof.
  induction l as [|x l IH]; cbn [after]; [done|]. destruct (Nat.eqb i x); [|intros E; right; by apply IH].
  destruct l as [|y l]; [done|]. intros [= ->]. right. by left.
Qed.

Lemma nxt_in l i : i ∈ l -> nxt l i ∈ l.
Proof.
  intros Hi. unfold nxt. destruct (after i l) as [j|] eqn:E; [by eapply after_in|]. destruct l as [|x l]; [done|]. by left.
Qed.

Lemma next_after_nxt i s : srcs s <> [] -> next_after i s = Some (nxt (srcs s) i).
Proof. intros Hn. unfold next_after, nxt. destruct (after i (srcs s)); [done|]. by destruct (srcs s). Qed.

(** Position by position around the ring. *)
Lemma after_lookup l : forall p i, NoDup l -> l !! p = Some i -> after i l = l !! S p.
Proof.
  induction l as [|x l IH]; intros p i Hd Hp; [done|]. apply list.NoDup_cons in Hd as [Hx Hd]. cbn [after].
  destruct p as [|p].
  - injection Hp as ->. rewrite Nat.eqb_refl. cbn. by destruct l.
  - cbn in Hp. destruct (Nat.eqb_spec i x) as [->|]; [|by apply IH]. destruct Hx. by eapply list_elem_of_lookup_2.
Qed.

Lemma nxt_lookup l p i : NoDup l -> l !! p = Some i -> l !! (S p mod length l)%nat = Some (nxt l i).
Proof.
  intros Hd Hp. pose proof (lookup_lt_Some _ _ _ Hp) as Hlt. unfold nxt. rewrite (after_lookup l p i) by done.
  destruct (decide (S p = length l)) as [E|E].
  - rewrite E, Nat.Div0.mod_same. rewrite (lookup_ge_None_2 l (length l)) by lia. by destruct l.
  - rewrite Nat.mod_small by lia. destruct (lookup_lt_is_Some_2 l (S p)) as [j ->]; [lia|]. done.
Qed.

Lemma nxt_reaches l r i : NoDup l -> r ∈ l -> i ∈ l -> exists d, (d < length l)%nat /\ Nat.iter d (nxt l) r = i.
Proof.
  intros Hd Hr Hi. apply list_elem_of_lookup in Hr as [p Hp]. apply list_elem_of_lookup in Hi as [q Hq].
  pose proof (lookup_lt_Some _ _ _ Hp). pose proof (lookup_lt_Some _ _ _ Hq).
  assert (Hit : forall d, l !! ((p + d) mod length l)%nat = Some (Nat.iter d (nxt l) r)).
  { induction d as [|d IH]; [by rewrite Nat.add_0_r, Nat.mod_small|].
    change (Nat.iter (S d) (nxt l) r) with (nxt l (Nat.iter d (nxt l) r)). rewrite <- (nxt_lookup l _ _ Hd IH). f_equal. rewrite <- (Nat.add_1_r ((p + d) mod length l)), Nat.Div0.add_mod_idemp_l. f_equal. lia. }
  exists ((q + length l - p) mod length l)%nat. split; [apply Nat.mod_upper_bound; lia|].
  assert (E : Some (Nat.iter ((q + length l - p) mod length l) (nxt l) r) = Some i); [|congruence].
  rewrite <- Hit, Nat.Div0.add_mod_idemp_r. replace (p + (q + length l - p))%nat with (q + 1 * length l)%nat by lia.
  rewrite Nat.Div0.mod_add, Nat.mod_small by lia. done.
Qed.

(** The line delivered, and where it came from. *)
Definition delivery : Type := option (nat * (bytes * bool)).
Definition from (j : nat) (o : delivery) : list (bytes * bool) :=
  match o with Some (k, l) => if Nat.eqb k j then [l] else [] | None => [] end.

(** From [s] to [s'] the sources' bytes were consumed in order and gave the lines in [o]. *)
Definition moved (s : sources) (T : nat -> typed) (s' : sources) (T' : nat -> typed) (o : delivery) : Prop :=
  forall j, j ∈ srcs s -> exists used, feed s j = used ++ feed s' j /\ lines_of (T j) (got used) = (from j o, T' j).

Definition reply (out : bytes) (o : delivery) : Z * bytes :=
  match o with
  | Some (_, l) => (zlen (taken (zlen out) l).1, patch 0 ((taken (zlen out) l).1 ++ [0]) out)
  | None => (INPUT_NONE, out)
  end.

(** A whole line is waiting within the budget of one visit. *)
Definition ready (t : typed) (f : list (option Z)) : Prop := exists l t' f', pull INPUT_DRAIN_BUDGET t f = (Some l, t', f').

Lemma moved_step s T s1 T1 s2 T2 o : srcs s1 = srcs s ->
  moved s T s1 T1 None -> moved s1 T1 s2 T2 o -> moved s T s2 T2 o.
Proof.
  intros Es H1 H2 j Hj. destruct (H1 j Hj) as (u1 & F1 & L1). destruct (H2 j) as (u2 & F2 & L2); [by rewrite Es|].
  exists (u1 ++ u2). split; [by rewrite F1, F2, app_assoc|]. unfold got. rewrite omap_app. fold (got u1) (got u2).
  by rewrite lines_of_app, L1, L2.
Qed.

Definition sane (s : sources) (T : nat -> typed) : Prop :=
  (forall i, i ∈ srcs s -> holds (eds s i) (T i) /\ feed_ok (feed s i)) /\ srcs s <> [].

Lemma visit_ok out : 1 <= zlen out -> forall todo i s T, sane s T -> i ∈ srcs s ->
  exists o s' T', visit todo i out s = Ok (reply out o) s' /\ registry s s' /\ sane s' T' /\ moved s T s' T' o /\
    (exists r, rr s' = Some r /\ r ∈ srcs s) /\
    match o with
    | Some (j, l) => last_src s' = Some j /\ last_trunc s' = (taken (zlen out) l).2 /\ j ∈ srcs s
    | None => last_src s' = last_src s /\ last_trunc s' = last_trunc s
    end /\
    (forall k d, (d < todo)%nat -> Nat.iter d (nxt (srcs s)) i = k -> ready (T k) (feed s k) ->
       exists j l, o = Some (j, l) /\
         (j = k \/ (T' k = T k /\ feed s' k = feed s k /\
            exists d' r, (d' < d)%nat /\ rr s' = Some r /\ Nat.iter d' (nxt (srcs s)) r = k))).
Proof.
  intros Ho todo. induction todo as [|todo IH]; intros i s T Hs Hi; cbn [visit].
  - eexists None, _, T. split; [reflexivity|]. cbn. split; [done|]. split; [exact Hs|]. split; [|split; [by exists i|split; [done|lia]]].
    intros j Hj. by exists [].
  - pose proof Hs as [Hh Hne]. destruct (Hh i Hi) as [Hhi Hfi].
    pose proof (drain_ok INPUT_DRAIN_BUDGET i out Ho s (T i) Hhi Hfi) as Hd.
    destruct (pull INPUT_DRAIN_BUDGET (T i) (feed s i)) as [[r t'] f'] eqn:Ep.
    destruct Hd as (s1 & E1 & (R1 & R2 & R3) & Hh1 & F1 & O1 & C1). rewrite (bind_ok _ _ _ _ _ E1).
    set (T1 := upd i t' T).
    assert (Hs1 : sane s1 T1).
    { split; [|by rewrite R1]. intros j Hj. rewrite R1 in Hj. destruct (decide (i = j)) as [<-|Hij].
      - unfold T1. rewrite upd_same. split; [done|]. rewrite F1. destruct (pull_lines _ _ _ _ _ _ Ep) as (u & Eu & _).
        rewrite Eu in Hfi. by eapply feed_ok_drop.
      - unfold T1. rewrite upd_other by done. destruct (O1 j) as [-> ->]; [congruence|]. by apply Hh. }
    assert (Hm1 : moved s T s1 T1 (match r with Some l => Some (i, l) | None => None end)).
    { intros j Hj. unfold T1. destruct (decide (i = j)) as [<-|Hij].
      - rewrite upd_same, F1. destruct (pull_lines _ _ _ _ _ _ Ep) as (u & Eu & El). exists u. split; [done|]. rewrite El.
        destruct r; cbn; by rewrite ?Nat.eqb_refl.
      - rewrite upd_other by done. destruct (O1 j) as [_ ->]; [congruence|]. exists []. split; [done|]. cbn.
        destruct r; cbn; by rewrite ?(proj2 (Nat.eqb_neq i j)). }
    destruct r as [l|].
    + destruct C1 as (C1 & C2 & C3). exists (Some (i, l)), s1, T1. split; [done|]. split; [done|]. split; [done|]. split; [done|].
      rewrite C3, next_after_nxt by done. split; [eexists; split; [done|by apply nxt_in]|]. split; [done|].
      intros k d Hd Hk Hr. exists i, l. split; [done|]. destruct (decide (i = k)) as [|Hik]; [by left|right].
      unfold T1. rewrite upd_other by done. destruct (O1 k) as [_ ->]; [congruence|]. split; [done|]. split; [done|].
      destruct d as [|d]; [done|]. exists d, (nxt (srcs s) i). split; [lia|]. split; [done|]. by rewrite Nat.iter_succ_r in Hk.
    + erewrite bind_ok by reflexivity. rewrite next_after_nxt by (by rewrite R1). rewrite R1.
      destruct (IH (nxt (srcs s) i) s1 T1 Hs1) as (o & s2 & T2 & E2 & (Q1 & Q2 & Q3) & Hs2 & Hm2 & Hr2 & Hl2 & Hf2);
        [rewrite R1; by apply nxt_in|].
      exists o, s2, T2. split; [done|]. split; [split; [congruence|split; congruence]|]. split; [done|]. split; [by eapply moved_step|].
      rewrite R1 in Hr2. split; [done|]. split.
      { rewrite R1 in Hl2. destruct C1 as (C1 & C2 & C3). destruct o as [[j l]|]; [done|]. destruct Hl2 as [-> ->]. done. }
      intros k d Hd Hk Hr. destruct (decide (i = k)) as [<-|Hik].
      { destruct Hr as (l & x & y & Er). congruence. }
      destruct d as [|d]; [done|]. rewrite Nat.iter_succ_r in Hk. destruct (O1 k) as [_ Fk]; [congruence|].
      assert (Tk : T1 k = T k) by (unfold T1; by rewrite upd_other).
      destruct (Hf2 k d) as (j & l & -> & Hj); [lia|by rewrite R1|by rewrite Tk, Fk|].
      exists j, l. split; [done|]. destruct Hj as [->|(A1 & A2 & d' & r & A3 & A4 & A5)]; [by left|right].
      rewrite A1, A2, Tk, Fk. split; [done|]. split; [done|]. rewrite R1 in A5. exists d', r. split; [lia|done].
Qed.

(** ** Polling *)

Definition well (s : sources) (T : nat -> typed) : Prop :=
  sane s T /\ NoDup (srcs s) /\ nsrcs s = Z.of_nat (length (srcs s)) /\ exists r, rr s = Some r /\ r ∈ srcs s.

Lemma poll_ok out s T : 1 <= zlen out -> well s T ->
  exists o s' T', input_poll out s = Ok (reply out o) s' /\ registry s s' /\ well s' T' /\ moved s T s' T' o /\
    match o with Some (j, l) => last_src s' = Some j /\ last_trunc s' = (taken (zlen out) l).2 | None => True end /\
    (forall k d r, (d < length (srcs s))%nat -> rr s = Some r -> Nat.iter d (nxt (srcs s)) r = k -> ready (T k) (feed s k) ->
       exists j l, o = Some (j, l) /\
         (j = k \/ (T' k = T k /\ feed s' k = feed s k /\
            exists d' r', (d' < d)%nat /\ rr s' = Some r' /\ Nat.iter d' (nxt (srcs s)) r' = k))).
Proof.
  intros Ho (Hs & Hd & Hn & r & Hr & Hin). pose proof Hs as [_ Hne]. unfold input_poll. erewrite bind_ok by reflexivity.
  rewrite bool_decide_eq_false_2 by done. rewrite (proj2 (Z.leb_gt _ 0)) by lia. cbn [orb]. rewrite Hr, Hn, Nat2Z.id.
  destruct (visit_ok out Ho (length (srcs s)) r s T Hs Hin) as (o & s' & T' & E & (R1 & R2 & R3) & Hs' & Hm & (r' & Hr' & Hin') & Hl & Hf).
  exists o, s', T'. split; [done|]. split; [done|]. split; [|split; [done|split; [destruct o as [[j l]|]; [|done]; tauto|]]].
  - split; [done|]. rewrite R1, R2. split; [done|]. split; [done|]. by exists r'.
  - intros k d r0 Hlt [= <-]. by apply Hf.
Qed.

(** A client that polls [n] times with one buffer, and for each line asks where it came from
    and whether it lost characters. *)
Fixpoint session (n : nat) (out : bytes) : prog sources (list (option nat * bytes * bool)) :=
  match n with
  | O => ret []
  | S n =>
      r <- input_poll out ;;
      who <- gets last_src ;;
      cut <- gets last_trunc ;;
      rest <- session n r.2 ;;
      ret (if r.1 =? INPUT_NONE then rest else (who, take (Z.to_nat r.1) r.2, cut) :: rest)
  end.

(** What a session got from source [j]. *)
Definition delivered (j : nat) (rs : list (option nat * bytes * bool)) : list (bytes * bool) :=
  omap (fun r => if bool_decide (r.1.1 = Some j) then Some (r.1.2, r.2) else None) rs.

Lemma reply_text out o : 1 <= zlen out ->
  zlen (reply out o).2 = zlen out /\
  match o with
  | Some (_, l) => ((reply out o).1 =? INPUT_NONE) = false /\
      take (Z.to_nat (reply out o).1) (reply out o).2 = (taken (zlen out) l).1
  | None => ((reply out o).1 =? INPUT_NONE) = true
  end.
Proof.
  intros Ho. destruct o as [[j [line cut]]|]; cbn [reply fst snd]; [|done].
  set (tx := (taken (zlen out) (line, cut)).1). pose proof (zlen_nonneg tx).
  assert (Hz : zlen tx <= zlen out - 1) by (unfold tx, taken, zlen in *; cbn; rewrite length_take; lia).
  split; [apply zlen_patch; autorewrite with zlen; lia|]. split; [apply Z.eqb_neq; unfold INPUT_NONE; lia|].
  unfold patch. change (take (Z.to_nat 0) out) with (@nil Z). cbn [app]. rewrite <- app_assoc. unfold zlen.
  rewrite Nat2Z.id. apply take_app_length.
Qed.

Lemma session_step n out s : forall o s', input_poll out s = Ok (reply out o) s' -> 1 <= zlen out ->
  match o with Some (j, l) => last_src s' = Some j /\ last_trunc s' = (taken (zlen out) l).2 | None => True end ->
  forall rs s2, session n (reply out o).2 s' = Ok rs s2 ->
  session (S n) out s =
    Ok (match o with Some (j, l) => (Some j, (taken (zlen out) l).1, (taken (zlen out) l).2) :: rs | None => rs end) s2.
Proof.
  intros o s' E Ho Hl rs s2 E2. cbn [session]. rewrite (bind_ok _ _ _ _ _ E). do 2 (erewrite bind_ok by reflexivity).
  rewrite (bind_ok _ _ _ _ _ E2). destruct (reply_text out o Ho) as [_ Ht]. unfold ret. f_equal.
  destruct o as [[j l]|]; [|by rewrite Ht]. destruct Ht as [-> ->]. destruct Hl as [-> ->]. done.
Qed.

(** C15: the lines the kernel gets are the lines typed. However the bytes of the keyboard, the
    serial line and other sources arrive and whenever input_poll is called, nothing is written
    outside a buffer, and for every source the lines delivered under its name are exactly
    those its bytes spell (CR, LF and CRLF end one line, backspace takes back a character,
    NULs are dropped, what does not fit is cut), in order, none lost, none twice, none mixed
    with another source's; each is cut to the caller's buffer, and one that lost characters
    is flagged. *)
Theorem lines_are_the_lines_typed n out s T :
  1 <= zlen out -> well s T ->
  exists rs s' T', session n out s = Ok rs s' /\ well s' T' /\ srcs s' = srcs s /\
    forall j, j ∈ srcs s -> exists used ls,
      feed s j = used ++ feed s' j /\ lines_of (T j) (got used) = (ls, T' j) /\
      delivered j rs = map (taken (zlen out)) ls.
Proof.
  intros Ho. revert out s T Ho. induction n as [|n IH]; intros out s T Ho Hw.
  { exists [], s, T. split; [done|]. split; [done|]. split; [done|]. intros j _. by exists [], []. }
  destruct (poll_ok out s T Ho Hw) as (o & s1 & T1 & E1 & (R1 & _) & Hw1 & Hm1 & Hl1 & _).
  destruct (reply_text out o Ho) as [Hz _].
  destruct (IH (reply out o).2 s1 T1) as (rs & s2 & T2 & E2 & Hw2 & R2 & Hj2); [lia|done|].
  eexists _, s2, T2. split; [by apply (session_step n out s o s1 E1 Ho Hl1 rs s2 E2)|]. split; [done|]. split; [congruence|].
  intros j Hj. destruct (Hm1 j Hj) as (u1 & F1 & L1). destruct (Hj2 j) as (u2 & ls & F2 & L2 & D2); [by rewrite R1|].
  exists (u1 ++ u2), (from j o ++ ls). split; [by rewrite F1, F2, app_assoc|].
  split; [unfold got; rewrite omap_app; fold (got u1) (got u2); by rewrite lines_of_app, L1, L2|].
  rewrite map_app. rewrite Hz in D2. destruct o as [[k l]|]; cbn [from]; [|exact D2].
  unfold delivered. cbn [omap list_omap fst snd]. fold (delivered j rs).
  destruct (Nat.eqb_spec k j) as [->|Hkj].
  - rewrite bool_decide_eq_true_2 by done. rewrite D2. cbn [map app]. by rewrite <- surjective_pairing.
  - rewrite bool_decide_eq_false_2 by congruence. exact D2.
Qed.

(** C16: no source starves. If a whole line waits in a source, within the bytes one visit may
    take, then whatever the other sources send, that line is delivered by one of the next as
    many polls as there are sources. *)
Theorem no_source_starves k out s T :
  1 <= zlen out -> well s T -> k ∈ srcs s -> ready (T k) (feed s k) ->
  exists n rs text cut s', (n < length (srcs s))%nat /\ session (S n) out s = Ok (rs ++ [(Some k, text, cut)]) s' /\
    length rs = n /\ Forall (fun r => r.1.1 <> Some k) rs.
Proof.
  intros Ho Hw Hk Hr. pose proof Hw as (_ & Hd & _ & r & Hrr & Hrin).
  destruct (nxt_reaches (srcs s) r k Hd Hrin Hk) as (d & Hlt & Hit).
  cut (exists n rs text cut s', (n <= d)%nat /\ session (S n) out s = Ok (rs ++ [(Some k, text, cut)]) s' /\
    length rs = n /\ Forall (fun r => r.1.1 <> Some k) rs).
  { intros (n & rs & text & cut & s' & Hn & H). exists n, rs, text, cut, s'. split; [lia|done]. }
  clear Hrin. revert out s T r Ho Hw Hk Hr Hd Hrr Hlt Hit. induction d as [d IH] using lt_wf_ind.
  intros out s T r Ho Hw Hk Hr Hd Hrr Hlt Hit.
  destruct (poll_ok out s T Ho Hw) as (o & s1 & T1 & E1 & (R1 & _) & Hw1 & _ & Hl1 & Hf).
  destruct (Hf k d r Hlt Hrr Hit Hr) as (j & l & -> & Hj). destruct (reply_text out (Some (j, l)) Ho) as [Hz _].
  destruct (decide (j = k)) as [->|Hjk].
  - exists 0%nat, [], (taken (zlen out) l).1, (taken (zlen out) l).2, s1. split; [lia|]. split; [|done].
    by apply (session_step 0 out s (Some (k, l)) s1 E1 Ho Hl1 [] s1).
  - destruct Hj as [|(A1 & A2 & d' & r' & A3 & A4 & A5)]; [done|].
    destruct (IH d' A3 (reply out (Some (j, l))).2 s1 T1 r') as (n & rs & text & cut & s2 & Hn & E2 & Hlen & Hall);
      rewrite ?R1, ?A1, ?A2; try done; try lia.
    exists (S n), ((Some j, (taken (zlen out) l).1, (taken (zlen out) l).2) :: rs), text, cut, s2. split; [lia|].
    split; [by apply (session_step (S n) out s (Some (j, l)) s1 E1 Ho Hl1 _ s2 E2)|]. split; [cbn; lia|].
    apply Forall_cons_2; [cbn; congruence|done].
Qed.

(** With a whole line waiting anywhere, input_readline's first poll ends it. *)
Lemma readline_returns k n out s T : 1 <= zlen out -> well s T -> k ∈ srcs s -> ready (T k) (feed s k) ->
  exists o s' T', input_readline (S n) out s = Ok (reply (patch 0 [0] out) (Some o)) s' /\ well s' T'.
Proof.
  intros Ho Hw Hk Hr. pose proof Hw as ([_ Hne] & Hd & _ & r & Hrr & Hrin).
  destruct (nxt_reaches (srcs s) r k Hd Hrin Hk) as (d & Hlt & Hit).
  assert (Hp : zlen (patch 0 [0] out) = zlen out) by (apply zlen_patch; autorewrite with zlen; lia).
  destruct (poll_ok (patch 0 [0] out) s T) as (o & s' & T' & E & _ & Hw' & _ & _ & Hf); [lia|done|].
  destruct (Hf k d r Hlt Hrr Hit Hr) as (j & l & -> & _). exists (j, l), s', T'. split; [|done].
  destruct (reply_text (patch 0 [0] out) (Some (j, l))) as (_ & Hn & _); [lia|].
  unfold input_readline. rewrite (proj2 (Z.ltb_lt 0 (zlen out))) by lia. rewrite poke_ok by lia. erewrite bind_ok by reflexivity.
  rewrite bool_decide_eq_false_2 by done. cbn [readline_loop]. rewrite (bind_ok _ _ _ _ _ E). by rewrite Hn.
Qed.

(** ** Plugging sources in and out *)

(** No source yet. *)
Definition unplugged (s : sources) : Prop := srcs s = [] /\ nsrcs s = 0 /\ rr s = None.

Lemma register_ok i s T : unplugged s \/ well s T -> i ∉ srcs s -> INPUT_LINE_MAX <= zlen (l_buf (eds s i)) -> feed_ok (feed s i) ->
  exists s', input_register_source i s = Ok 0 s' /\ srcs s' = srcs s ++ [i] /\ eds s' = upd i (eds s' i) (eds s) /\ feed s' = feed s /\ well s' (upd i blank T).
Proof.
  intros Hw Hi Hb Hf. assert (M : INPUT_LINE_MAX = 4096) by done.
  unfold input_register_source. erewrite bind_ok by reflexivity. rewrite bool_decide_eq_false_2 by done.
  do 2 (erewrite bind_ok by reflexivity).
  assert (Ei : exists ed, input_line_init (l_buf (eds s i)) INPUT_LINE_MAX (echoes s i) (eds s i, console s) = Ok tt (ed, console s) /\ holds ed blank).
  { unfold input_line_init, input_line_reset. do 3 (erewrite bind_ok by reflexivity). cbn [fst snd l_cap].
    change (0 <? (if 2 <=? INPUT_LINE_MAX then INPUT_LINE_MAX else 0)) with true. cbv iota.
    rewrite ed_poke_ok by (cbn [l_buf]; lia). eexists. split; [reflexivity|]. split; try done; cbn.
    rewrite zlen_patch by (autorewrite with zlen; lia). done. }
  destruct Ei as (ed & Ei & Hh). erewrite bind_ok by (unfold on_source; rewrite Ei; reflexivity). erewrite bind_ok by reflexivity.
  eexists. split; [reflexivity|]. cbn [srcs eds feed]. split; [done|]. split; [by rewrite upd_same|]. split; [done|].
  assert (Hfact : NoDup (srcs s) /\ nsrcs s = Z.of_nat (length (srcs s)) /\ (forall j, j ∈ srcs s -> holds (eds s j) (T j) /\ feed_ok (feed s j)) /\
    (forall r, rr s = Some r -> r ∈ srcs s)).
  { destruct Hw as [(-> & -> & ->)|([Hs _] & Hd & Hn & r & Hr & Hin)].
    - split; [apply NoDup_nil_2|]. split; [done|]. split; [|done]. intros j Hj. by apply elem_of_nil in Hj.
    - split; [done|]. split; [done|]. split; [done|]. rewrite Hr. by intros ? [= <-]. }
  destruct Hfact as (Hd & Hn & Hs & Hr). split; [split|split; [|split]]; cbn [srcs eds feed nsrcs rr].
  - intros j Hj. destruct (decide (i = j)) as [<-|Hij]; [by rewrite !upd_same|]. rewrite !upd_other by done. apply Hs.
    apply elem_of_app in Hj as [Hj|Hj]; [done|]. apply list_elem_of_singleton in Hj. congruence.
  - by destruct (srcs s).
  - apply list.NoDup_app. split; [done|]. split; [|apply NoDup_singleton]. intros j Hj Hj'. apply list_elem_of_singleton in Hj'. by subst.
  - rewrite length_app. cbn. lia.
  - destruct (rr s) as [r|] eqn:Er; eexists; (split; [reflexivity|]); apply elem_of_app; [left; by apply Hr|right; by left].
Qed.

Lemma unregister_ok i s T : well s T -> i ∈ srcs s ->
  exists s', input_unregister_source i s = Ok 0 s' /\ srcs s' = List.filter (fun j => negb (Nat.eqb j i)) (srcs s) /\
    last_src s' <> Some i /\ (srcs s' <> [] -> well s' T).
Proof.
  intros ([Hs Hne] & Hd & Hn & r & Hr & Hin) Hi. unfold input_unregister_source. erewrite bind_ok by reflexivity.
  rewrite bool_decide_eq_true_2 by done. erewrite bind_ok by reflexivity. eexists. split; [reflexivity|]. cbn [srcs last_src].
  set (l := List.filter _ _). split; [done|]. split; [by case_bool_decide|]. intros Hl.
  assert (Hsub : forall j, j ∈ l <-> j ∈ srcs s /\ j <> i).
  { intros j. unfold l. rewrite !list_elem_of_In, List.filter_In, negb_true_iff, Nat.eqb_neq. done. }
  assert (Hlen : Z.of_nat (length (srcs s)) = Z.of_nat (length l) + 1).
  { unfold l. clear -Hd Hi. induction (srcs s) as [|x xs IH]; [by apply elem_of_nil in Hi|].
    apply list.NoDup_cons in Hd as [Hx Hd]. cbn [List.filter]. destruct (Nat.eqb_spec x i) as [->|Hxi]; cbn [negb length].
    - rewrite List.forallb_filter_id; [lia|]. apply forallb_forall. intros y Hy. apply negb_true_iff, Nat.eqb_neq.
      intros ->. apply Hx. by apply list_elem_of_In.
    - apply elem_of_cons in Hi as [->|Hi]; [done|]. specialize (IH Hd Hi). lia. }
  split; [split; [|done]|split; [|split]]; cbn [srcs eds feed nsrcs rr].
  - intros j Hj. by apply Hs, Hsub.
  - apply NoDup_ListNoDup, List.NoDup_filter. by apply NoDup_ListNoDup.
  - lia.
  - case_bool_decide as Hri.
    + destruct l as [|x l']; [done|]. exists x. split; [done|]. by left.
    + exists r. split; [done|]. apply Hsub. split; [done|]. congruence.
Qed.


(** ** Two people at one machine *)

(** A keyboard and a serial line, the first with two short lines, the second with one. *)
Definition two_feeds (i : nat) : list (option Z) :=
  match i with O => [Some 104; Some 105; Some 13; Some 10; None; Some 97; Some 10] | _ => [Some 111; Some 8; Some 107; Some 10] end.
Definition two_people : sources :=
  Sources [] None None false 0 (fun _ => Line (replicate 4096 0) 0 0 false false false) (fun _ => true) two_feeds [].

Lemma two_plugged : exists s, (input_register_source 0 ;;; input_register_source 1) two_people = Ok 0 s /\
  srcs s = [0%nat; 1%nat] /\ feed s = two_feeds /\ well s (upd 1%nat blank (upd 0%nat blank (fun _ => blank))).
Proof.
  assert (Hz : INPUT_LINE_MAX <= zlen (replicate 4096 0)) by (unfold zlen; rewrite length_replicate; unfold INPUT_LINE_MAX; lia).
  assert (Hf : forall i, feed_ok (two_feeds i)).
  { intros [|i] c Hc; cbn in Hc; rewrite !elem_of_cons, elem_of_nil in Hc; unfold byte_ok; intuition (simplify_eq; lia). }
  destruct (register_ok 0 two_people (fun _ => blank)) as (s1 & E1 & S1 & D1 & F1 & W1); [by left|by apply not_elem_of_nil|done|apply Hf|].
  destruct (register_ok 1 s1 (upd 0%nat blank (fun _ => blank))) as (s2 & E2 & S2 & D2 & F2 & W2); [by right| | | |].
  - rewrite S1. cbn [srcs two_people app]. rewrite list_elem_of_singleton. done.
  - rewrite D1, upd_other by done. exact Hz.
  - rewrite F1. apply Hf.
  - exists s2. rewrite (bind_ok _ _ _ _ _ E1), E2, S2, S1, F2, F1. done.
Qed.

Lemma lines_are_the_lines_typed_witness : exists s,
  (input_register_source 0 ;;; input_register_source 1) two_people = Ok 0 s /\
  exists rs s' T', session 3 [0; 0; 0; 0] s = Ok rs s' /\ well s' T' /\
    forall j, j ∈ srcs s -> exists used ls,
      feed s j = used ++ feed s' j /\ delivered j rs = map (taken 4) ls.
Proof.
  destruct two_plugged as (s & E & Hs & _ & Hw). exists s. split; [exact E|].
  destruct (lines_are_the_lines_typed 3 [0; 0; 0; 0] s _ ltac:(vm_compute; congruence) Hw) as (rs & s' & T' & E' & Hw' & _ & Hj).
  exists rs, s', T'. split; [exact E'|]. split; [exact Hw'|]. intros j Hin. destruct (Hj j Hin) as (used & ls & F & _ & D).
  exists used, ls. split; [exact F|exact D].
Defined.

Lemma no_source_starves_witness : exists s,
  (input_register_source 0 ;;; input_register_source 1) two_people = Ok 0 s /\
  exists n rs text cut s', (n < 2)%nat /\ session (S n) [0; 0; 0; 0] s = Ok (rs ++ [(Some 1%nat, text, cut)]) s'.
Proof.
  destruct two_plugged as (s & E & Hs & Hf & Hw). exists s. split; [exact E|].
  destruct (no_source_starves 1%nat [0; 0; 0; 0] s _ ltac:(vm_compute; congruence) Hw) as (n & rs & text & cut & s' & Hn & E' & _).
  - rewrite Hs. right. left.
  - rewrite Hf, upd_same. eexists _, _, _. vm_compute. reflexivity.
  - exists n, rs, text, cut, s'. rewrite Hs in Hn. split; [exact Hn|exact E'].
Defined.

(** * The keyboard *)

Definition PS2_OBF : Z := 1.
Definition PS2_AUX : Z := 32.
Definition PS2_ABSENT : Z := 255.
Definition PS2_MAX_BYTES : nat := 32.
Definition SC_EXTENDED : Z := 224.
Definition SC_LSHIFT : Z := 42.
Definition SC_RSHIFT : Z := 54.
Definition SC_KP_ENTER : Z := 28.
Definition SC_KP_SLASH : Z := 53.

Definition map_lower : bytes :=
  [0; 27] ++ lit "1234567890-=" ++ [8; 9] ++ lit "qwertyuiop[]" ++ [10; 0] ++ lit "asdfghjkl;'`" ++ [0] ++
  lit "\zxcvbnm,./" ++ [0] ++ lit "*" ++ [0] ++ lit " " ++ replicate 6 0.
Definition map_upper : bytes :=
  [0; 27] ++ lit "!@#$%^&*()_+" ++ [8; 9] ++ lit "QWERTYUIOP{}" ++ [10; 0] ++ lit "ASDFGHJKL:" ++ [34] ++ lit "~" ++ [0] ++
  lit "|ZXCVBNM<>?" ++ [0] ++ lit "*" ++ [0] ++ lit " " ++ replicate 6 0.

(** [ports] is what the controller will show, moment by moment: its status byte, and the byte
    in its output buffer. [to_mouse] has the bytes given to mouse_accept_byte. *)
Record kbd := Kbd { shift_down : bool; extended : bool; kbd_absent : bool; ports : list (Z * Z); to_mouse : bytes }.

(** [inb(PS2_STATUS)]: a moment with an empty buffer is over once it was seen. *)
Definition inb_status : prog kbd Z := fun k =>
  match ports k with
  | [] => Ok 0 k
  | (st, _) :: rest =>
      Ok st (if Z.land st PS2_OBF =? 0 then Kbd (shift_down k) (extended k) (kbd_absent k) rest (to_mouse k) else k)
  end.
(** [inb(PS2_DATA)] empties the buffer. *)
Definition inb_data : prog kbd Z := fun k =>
  match ports k with
  | [] => Ok 0 k
  | (_, d) :: rest => Ok d (Kbd (shift_down k) (extended k) (kbd_absent k) rest (to_mouse k))
  end.

Definition set_shift (b : bool) : prog kbd unit :=
  modify (fun k => Kbd b (extended k) (kbd_absent k) (ports k) (to_mouse k)).
Definition set_extended (b : bool) : prog kbd unit :=
  modify (fun k => Kbd (shift_down k) b (kbd_absent k) (ports k) (to_mouse k)).
Definition set_absent : prog kbd unit :=
  modify (fun k => Kbd (shift_down k) (extended k) true (ports k) (to_mouse k)).
Definition mouse_accept_byte (b : Z) : prog kbd unit :=
  modify (fun k => Kbd (shift_down k) (extended k) (kbd_absent k) (ports k) (to_mouse k ++ [b])).

(** [shift_down ? map_upper[sc] : map_lower[sc]]; 0 where the key has no character. *)
Definition kbd_char (sh : bool) (sc : Z) : Z := nth (Z.to_nat sc) (if sh then map_upper else map_lower) 0.

(** The body from the prefix test on: the character the byte gives, 0 for none. *)
Definition kbd_byte (sc : Z) : prog kbd Z :=
  if sc =? SC_EXTENDED then set_extended true ;;; ret 0
  else
    was_ext <- gets extended ;;
    set_extended false ;;;
    sh <- gets shift_down ;;
    let table := if 64 <=? sc then 0 else kbd_char sh sc in
    if was_ext : bool then
      if negb (sc =? SC_KP_ENTER) && negb (sc =? SC_KP_SLASH) then ret 0 else ret table
    else if negb (Z.land sc 128 =? 0) then
      let make := Z.land sc 127 in
      (if (make =? SC_LSHIFT) || (make =? SC_RSHIFT) then set_shift false else ret tt) ;;; ret 0
    else if (sc =? SC_LSHIFT) || (sc =? SC_RSHIFT) then set_shift true ;;; ret 0
    else ret table.

Fixpoint kbd_loop (i : nat) : prog kbd Z :=
  match i with
  | O => ret (-1)
  | S i =>
      st <- inb_status ;;
      if st =? PS2_ABSENT then set_absent ;;; ret (-1)
      else if Z.land st PS2_OBF =? 0 then ret (-1)
      else
        sc <- inb_data ;;
        if negb (Z.land st PS2_AUX =? 0) then mouse_accept_byte sc ;;; kbd_loop i
        else
          c <- kbd_byte sc ;;
          if c =? 0 then kbd_loop i else ret c
  end.

Definition kbd_getchar_nb : prog kbd Z :=
  a <- gets kbd_absent ;;
  if a : bool then ret (-1) else kbd_loop PS2_MAX_BYTES.

Definition kbd_src_getc : prog kbd Z :=
  c <- kbd_getchar_nb ;; ret (if c <? 0 then INPUT_NONE else c).

Fixpoint kbd_drain_loop (i : nat) : prog kbd unit :=
  match i with
  | O => ret tt
  | S i =>
      st <- inb_status ;;
      if st =? PS2_ABSENT then set_absent
      else if Z.land st PS2_OBF =? 0 then ret tt
      else inb_data ;;; kbd_drain_loop i
  end.
Definition kbd_drain : prog kbd unit := kbd_drain_loop PS2_MAX_BYTES.

Definition kbd_suspend : prog kbd Z := set_shift false ;;; set_extended false ;;; ret 0.
Definition kbd_resume : prog kbd Z := kbd_drain ;;; ret 0.

(** [n] calls of the source's getc_nb: what the input layer's [feed] of the keyboard is. *)
Fixpoint kbd_feed (n : nat) : prog kbd (list (option Z)) :=
  match n with
  | O => ret []
  | S n =>
      c <- kbd_src_getc ;;
      rest <- kbd_feed n ;;
      ret ((if c =? INPUT_NONE then None else Some c) :: rest)
  end.

(** ** Keys *)

(** What a hand does: a key of the main block goes down or up, or a grey one does. *)
Inductive stroke := Down (k : Z) | Up (k : Z) | GreyDown (k : Z) | GreyUp (k : Z).

(** The bytes of scancode set 1 for a stroke. *)
Definition wire (e : stroke) : bytes :=
  match e with Down k => [k] | Up k => [k + 128] | GreyDown k => [SC_EXTENDED; k] | GreyUp k => [SC_EXTENDED; k + 128] end.

(** A key has a code of seven bits whose release is not the prefix. *)
Definition stroke_ok (e : stroke) : Prop :=
  match e with Down k | Up k | GreyDown k | GreyUp k => 0 <= k < 128 /\ k <> 96 end.

Definition is_shift (k : Z) : bool := (k =? SC_LSHIFT) || (k =? SC_RSHIFT).

(** Whether shift is held after a stroke. *)
Definition shift_after (sh : bool) (e : stroke) : bool :=
  match e with
  | Down k => is_shift k || sh
  | Up k => negb (is_shift k) && sh
  | _ => sh
  end.

(** The character [c]; none if it is 0. *)
Definition one (c : Z) : bytes := if c =? 0 then [] else [c].
Definition keycap (sh : bool) (k : Z) : bytes := one (kbd_char sh k).

(** The characters a stroke types: the main block's keys, and of the grey ones Enter and /. *)
Definition typed_by (sh : bool) (e : stroke) : bytes :=
  match e with
  | Down k => if is_shift k then [] else keycap sh k
  | GreyDown k => if (k =? SC_KP_ENTER) || (k =? SC_KP_SLASH) then keycap sh k else []
  | _ => []
  end.

Fixpoint text_of (sh : bool) (es : list stroke) : bytes :=
  match es with
  | [] => []
  | e :: es => typed_by sh e ++ text_of (shift_after sh e) es
  end.

(** The bytes waiting in the controller for the keyboard ([aux] false) or the mouse. *)
Definition waiting (aux : bool) (p : list (Z * Z)) : bytes :=
  omap (fun x => if (Z.land x.1 PS2_OBF =? 0) || Bool.eqb aux (Z.land x.1 PS2_AUX =? 0) then None else Some x.2) p.

(** ** The decoder, a byte at a time *)

(** Shift and prefix before a byte; after it, and the characters it gives. *)
Definition decode1 (sh ext : bool) (sc : Z) : bool * bool * bytes :=
  if sc =? SC_EXTENDED then (sh, true, [])
  else if ext then (sh, false, if (sc =? SC_KP_ENTER) || (sc =? SC_KP_SLASH) then keycap sh sc else [])
  else if negb (Z.land sc 128 =? 0) then (negb (is_shift (Z.land sc 127)) && sh, false, [])
  else if is_shift sc then (true, false, [])
  else (sh, false, if 64 <=? sc then [] else keycap sh sc).

Fixpoint decode (sh ext : bool) (bs : bytes) : bytes :=
  match bs with
  | [] => []
  | b :: bs => let '(sh, ext, t) := decode1 sh ext b in t ++ decode sh ext bs
  end.

Lemma kbd_char_byte sh k : 0 <= kbd_char sh k < 256.
Proof.
  assert (H : forall l, forallb (fun c => (0 <=? c) && (c <? 256)) l = true -> 0 <= nth (Z.to_nat k) l 0 < 256).
  { intros l Hl. destruct (nth_in_or_default (Z.to_nat k) l 0) as [Hi| ->]; [|lia].
    rewrite forallb_forall in Hl. specialize (Hl _ Hi). lia. }
  destruct sh; by apply H.
Qed.

Lemma keycap_past sh k : 64 <= k -> keycap sh k = [].
Proof.
  intros Hk. unfold keycap, kbd_char. rewrite nth_overflow; [done|]. replace (length _) with 64%nat by (by destruct sh). lia.
Qed.

Lemma kbd_byte_ok sc k : exists c,
  let '(sh, ext, t) := decode1 (shift_down k) (extended k) sc in
  kbd_byte sc k = Ok c (Kbd sh ext (kbd_absent k) (ports k) (to_mouse k)) /\ t = one c /\ 0 <= c < 256.
Proof.
  destruct k as [sh ext ab p mo]. unfold kbd_byte, decode1, is_shift, keycap, bind, gets, modify, set_extended, set_shift, ret.
  cbn [shift_down extended kbd_absent ports to_mouse]. pose proof (kbd_char_byte sh sc) as Hb.
  destruct (sc =? SC_EXTENDED); [by exists 0|]. destruct ext.
  - rewrite <- negb_orb. destruct ((sc =? SC_KP_ENTER) || (sc =? SC_KP_SLASH)) eqn:E; cbn [negb]; [|by exists 0].
    apply orb_true_iff in E as [E|E]; apply Z.eqb_eq in E as ->; eexists; (split; [reflexivity|]); by destruct sh.
  - destruct (Z.land sc 128 =? 0); cbn [negb].
    + destruct ((sc =? SC_LSHIFT) || (sc =? SC_RSHIFT)); [by exists 0|]. destruct (64 <=? sc); [by exists 0|]. by exists (kbd_char sh sc).
    + exists 0. by destruct ((Z.land sc 127 =? SC_LSHIFT) || (Z.land sc 127 =? SC_RSHIFT)), sh.
Qed.

(** What is left to be typed and what the mouse is to get, in a state of the driver. *)
Definition to_type (k : kbd) : bytes := decode (shift_down k) (extended k) (waiting false (ports k)).
Definition for_mouse (k : kbd) : bytes := to_mouse k ++ waiting true (ports k).

Definition present (k : kbd) : Prop := kbd_absent k = false /\ Forall (fun x => x.1 <> PS2_ABSENT) (ports k).

(** A run of the driver from [k] to [k'] that returned [c]: nothing is lost or invented. *)
Record ran (c : Z) (k k' : kbd) : Prop := {
  ran_char : c = -1 \/ 0 < c < 256;
  ran_text : to_type k = (if c =? -1 then [] else [c]) ++ to_type k';
  ran_mouse : for_mouse k = for_mouse k';
  ran_present : present k';
  ran_less : (length (ports k') <= length (ports k))%nat }.

(** A state whose controller is a moment further. *)
Lemma ran_after c k k1 k' : to_type k = to_type k1 -> for_mouse k = for_mouse k1 ->
  (length (ports k1) <= length (ports k))%nat -> ran c k1 k' -> ran c k k'.
Proof. intros E1 E2 Hl [H1 H2 H3 H4 H5]. split; [done|congruence|congruence|done|lia]. Qed.

Lemma loop_ran i : forall k, present k ->
  exists c k', kbd_loop i k = Ok c k' /\ ran c k k' /\ (ports k <> [] -> (0 < i)%nat -> (length (ports k') < length (ports k))%nat).
Proof.
  induction i as [|i IH]; intros k [Ha Hp].
  { exists (-1), k. split; [done|]. split; [|lia]. by split; [left| | | |]. }
  cbn [kbd_loop]. unfold bind at 1, inb_status. destruct k as [sh ext ab p mo]. cbn [ports shift_down extended kbd_absent to_mouse] in *. subst ab.
  destruct p as [|[st d] p]; [eexists _, _; split; [reflexivity|]; split; [by split; [left| | | |]|done]|].
  apply Forall_cons_iff in Hp as [Hst Hp]. cbn [fst] in Hst. rewrite (proj2 (Z.eqb_neq _ _) Hst).
  destruct (Z.land st PS2_OBF =? 0) eqn:Eo.
  { eexists _, _. split; [reflexivity|]. split; [|cbn; lia]. split; [by left| | |by split|cbn; lia];
      unfold to_type, for_mouse, waiting; cbn; by rewrite Eo. }
  unfold bind at 1, inb_data. cbn [ports shift_down extended kbd_absent to_mouse].
  destruct (Z.land st PS2_AUX =? 0) eqn:Ea; cbn [negb].
  - destruct (kbd_byte_ok d (Kbd sh ext false p mo)) as (c & H). cbn [ports shift_down extended kbd_absent to_mouse] in H.
    destruct (decode1 sh ext d) as [[sh' ext'] t] eqn:Ed. destruct H as (E & -> & Hc). rewrite (bind_ok _ _ _ _ _ E).
    assert (Ht : to_type (Kbd sh ext false ((st, d) :: p) mo) = one c ++ to_type (Kbd sh' ext' false p mo)).
    { unfold to_type, waiting. cbn. rewrite Eo, Ea. cbn. by rewrite Ed. }
    assert (Hm : for_mouse (Kbd sh ext false ((st, d) :: p) mo) = for_mouse (Kbd sh' ext' false p mo)).
    { unfold for_mouse, waiting. cbn. by rewrite Eo, Ea. }
    unfold one in Ht. destruct (Z.eqb_spec c 0) as [->|Hc0].
    + destruct (IH (Kbd sh' ext' false p mo)) as (c & k' & E' & Hr & _); [done|]. exists c, k'. split; [done|].
      split; [eapply ran_after; [exact Ht|exact Hm|cbn; lia|exact Hr]|]. intros _ _. destruct Hr as [_ _ _ _ Hr]. cbn in *. lia.
    + eexists _, _. split; [reflexivity|]. split; [|cbn; lia]. split; [right; lia| |done|done|cbn; lia].
      by rewrite (proj2 (Z.eqb_neq c (-1))) by lia.
  - erewrite bind_ok by reflexivity. cbn [ports shift_down extended kbd_absent to_mouse].
    destruct (IH (Kbd sh ext false p (mo ++ [d]))) as (c & k' & E' & Hr & _); [done|]. exists c, k'. split; [done|].
    split; [|intros _ _; destruct Hr as [_ _ _ _ Hr]; cbn in *; lia].
    eapply ran_after; [| | |exact Hr]; [| |cbn; lia]; unfold to_type, for_mouse, waiting; cbn; rewrite Eo, Ea; cbn; [done|].
    by rewrite <- app_assoc.
Qed.

Lemma feed_ran n : forall k, present k ->
  exists f k', kbd_feed n k = Ok f k' /\ present k' /\ to_type k = got f ++ to_type k' /\ for_mouse k = for_mouse k' /\ feed_ok f /\
    ((length (ports k) <= n)%nat -> ports k' = []).
Proof.
  induction n as [|n IH]; intros k Hk.
  { exists [], k. split; [done|]. split; [done|]. split; [done|]. split; [done|]. split; [|destruct (ports k); cbn; [done|lia]].
    intros c Hc. by apply elem_of_nil in Hc. }
  destruct (loop_ran PS2_MAX_BYTES k Hk) as (c & k1 & E & [Hc Ht Hm Hk1 Hl] & Hless).
  destruct (IH k1 Hk1) as (f & k2 & E2 & Hk2 & Ht2 & Hm2 & Hf & Hend).
  assert (Eg : kbd_src_getc k = Ok c k1).
  { unfold kbd_src_getc, kbd_getchar_nb, bind, gets. destruct Hk as [-> _]. rewrite E. unfold ret, INPUT_NONE.
    destruct Hc as [->|Hc]; [done|]. by rewrite (proj2 (Z.ltb_ge c 0)) by lia. }
  eexists _, k2. split; [cbn [kbd_feed]; rewrite (bind_ok _ _ _ _ _ Eg), (bind_ok _ _ _ _ _ E2); reflexivity|]. split; [done|].
  unfold INPUT_NONE in *. split; [|split; [congruence|split]].
  - rewrite Ht, Ht2, app_assoc. f_equal. by destruct (c =? -1).
  - intros x Hx. apply elem_of_cons in Hx as [Hx|Hx]; [|by apply Hf]. destruct (Z.eqb_spec c (-1)); [done|]. simplify_eq. unfold byte_ok. lia.
  - intros Hlen. apply Hend. destruct (ports k) as [|x p] eqn:Ep; [cbn in Hl; lia|]. assert (Hlt := Hless ltac:(done) ltac:(unfold PS2_MAX_BYTES; lia)). lia.
Qed.

Lemma seven_bits k : 0 <= k < 128 /\ k <> 96 ->
  (Z.land k 128 =? 0) = true /\ (Z.land (k + 128) 128 =? 0) = false /\ Z.land (k + 128) 127 = k /\
  (k =? SC_EXTENDED) = false /\ (k + 128 =? SC_EXTENDED) = false /\ (k + 128 =? SC_KP_ENTER) = false /\ (k + 128 =? SC_KP_SLASH) = false.
Proof.
  intros [Hk Hk']. unfold SC_EXTENDED, SC_KP_ENTER, SC_KP_SLASH.
  assert (H : forallb (fun k => (Z.land k 128 =? 0) && negb (Z.land (k + 128) 128 =? 0) && (Z.land (k + 128) 127 =? k)) (seqZ 0 128) = true)
    by (vm_compute; reflexivity).
  rewrite forallb_forall in H. specialize (H k). rewrite <- list_elem_of_In, elem_of_seqZ in H. specialize (H ltac:(lia)).
  apply andb_true_iff in H as [H H3]. apply andb_true_iff in H as [H1 H2]. apply negb_true_iff in H2. apply Z.eqb_eq in H3.
  repeat (split; [done || (apply Z.eqb_neq; lia)|]). apply Z.eqb_neq. lia.
Qed.

(** Decoding the bytes of the strokes types what the strokes type. *)
Lemma decode_wire es : Forall stroke_ok es -> forall sh, decode sh false (concat (map wire es)) = text_of sh es.
Proof.
  induction 1 as [|e es He Hes IH]; intros sh; [done|]. cbn [map concat text_of].
  destruct e as [k|k|k|k]; destruct (seven_bits k He) as (A1 & A2 & A3 & A4 & A5 & A6 & A7); cbn [wire app decode typed_by shift_after]; unfold decode1.
  - rewrite A4, A1. cbn [negb]. destruct (is_shift k); cbn [app orb]; rewrite IH; [done|]. f_equal.
    destruct (Z.leb_spec 64 k); [|done]. by rewrite keycap_past.
  - rewrite A5, A2, A3. cbn [negb app]. by rewrite IH.
  - rewrite Z.eqb_refl, A4. cbn [app]. by rewrite IH.
  - rewrite Z.eqb_refl, A5, A6, A7. cbn [app orb]. by rewrite IH.
Qed.

(** C17: the keyboard types what its keys say. Whatever strokes wait in the controller, with
    the mouse's bytes between them and pauses anywhere, the driver's getc_nb called often
    enough yields exactly the characters of the keys pressed, upper case after a shift key
    went down and before one came up, whatever the grey keys send in between, never more than one per call; the mouse is given
    exactly its own bytes, in order, and no byte is left. *)
Theorem keys_type_text n es k :
  present k -> extended k = false -> Forall stroke_ok es ->
  waiting false (ports k) = concat (map wire es) -> (length (ports k) <= n)%nat ->
  exists f k', kbd_feed n k = Ok f k' /\ got f = text_of (shift_down k) es /\ feed_ok f /\
    to_mouse k' = to_mouse k ++ waiting true (ports k) /\ ports k' = [].
Proof.
  intros Hk He Hes Hw Hn. destruct (feed_ran n k Hk) as (f & k' & E & _ & Ht & Hm & Hf & Hend). specialize (Hend Hn).
  exists f, k'. split; [done|]. unfold to_type, for_mouse in Ht, Hm. rewrite Hend in Ht, Hm.
  cbn [waiting omap list_omap decode] in Ht, Hm. rewrite app_nil_r in Ht, Hm. rewrite He, Hw, decode_wire in Ht by done. done.
Qed.

(** Shift held, a grey arrow in between with its fake shift codes, and a mouse packet. *)
Definition held_shift : list stroke :=
  [Down 42; Down 35; Up 35; GreyUp 42; GreyDown 72; GreyUp 72; GreyDown 42; Down 23; Up 42; Down 23; GreyDown 28].
Definition at_the_desk : kbd :=
  Kbd false false false ((0, 0) :: map (fun b => (33, b)) [8; 28; 7] ++ map (fun b => (1, b)) (concat (map wire held_shift))) [].

Lemma keys_type_text_witness : exists f k', kbd_feed 40 at_the_desk = Ok f k' /\ got f = lit "HIi" ++ [10] /\ to_mouse k' = [8; 28; 7].
Proof.
  destruct (keys_type_text 40 held_shift at_the_desk) as (f & k' & E & G & _ & M & _).
  - split; [reflexivity|]. apply List.Forall_forall. intros [st d] Hin E. vm_compute in E. subst st. vm_compute in Hin. intuition congruence.
  - reflexivity.
  - repeat constructor; lia.
  - vm_compute. reflexivity.
  - vm_compute. lia.
  - exists f, k'. split; [exact E|]. split; [rewrite G; vm_compute; reflexivity|rewrite M; vm_compute; reflexivity].
Defined.
