(* ===== verification/Json.v ===== *)
(** net/json.c: the JSON scanner, navigator, decoder and writer.

    A pointer into a document together with the [end] it is checked against is
    the list of the bytes from the pointer up to [end]; [p < end] is that the list
    is not empty and [p++] drops its head. A located value (json_value_t) is its
    type and the bytes of its span. Value and output pointers are taken to be
    non-null; the string arguments the code tests for NULL are options. *)

From S2P Require Import Prelude Bytes.

Definition JSON_OK := 0.
Definition JSON_ENOENT := -2.
Definition JSON_ETYPE := -21.
Definition JSON_EINVAL := -22.
Definition JSON_ENOSPC := -28.
Definition JSON_EDEPTH := -40.
Definition JSON_MAX_DEPTH := 32.

(** Not a code of the C: what a loop of this model returns when its fuel is used
    up. No function returns it ([scan_value_total], [walk_total]). *)
Definition JSON_SPIN := 1.

Inductive json_type :=
  | T_INVALID | T_NULL | T_BOOL | T_NUMBER | T_STRING | T_ARRAY | T_OBJECT.
#[export] Instance json_type_eq : EqDecision json_type.
Proof. solve_decision. Defined.

Record json_value := JV { jtype : json_type; span : bytes }.
Definition no_value : json_value := JV T_INVALID [].

Definition is_ws (c : Z) : bool := (c =? 32) || (c =? 9) || (c =? 10) || (c =? 13).
Definition is_digit (c : Z) : bool := (ch "0" <=? c) && (c <=? ch "9").
Definition hexval (c : Z) : Z :=
  if (ch "0" <=? c) && (c <=? ch "9") then c - ch "0"
  else if (ch "a" <=? c) && (c <=? ch "f") then c - ch "a" + 10
  else if (ch "A" <=? c) && (c <=? ch "F") then c - ch "A" + 10
  else -1.

(** ** Scanner *)

(** A scan yields a position (and what it found) or NULL with [c->err]. *)
Inductive scan (A : Type) := At (a : A) | Fail (err : Z).
Arguments At {A} a.
Arguments Fail {A} err.

Definition sbind {A B} (m : scan A) (k : A -> scan B) : scan B :=
  match m with At a => k a | Fail e => Fail e end.

Declare Scope scan_scope.
Delimit Scope scan_scope with scan.
Notation "x <- m ;; k" := (sbind m (fun x => k))
  (at level 100, m at next level, right associativity) : scan_scope.

(** [skip_ws(p, end)] where [keep] bytes of the list lie at or beyond [end]. *)
Fixpoint skip_ws (keep : nat) (p : bytes) : bytes :=
  match p with
  | c :: r => if (keep <? length p)%nat && is_ws c then skip_ws keep r else p
  | [] => []
  end.

Definition simple_escape (e : Z) : bool :=
  (e =? QUOTE) || (e =? ch "\") || (e =? ch "/") || (e =? ch "b") ||
  (e =? ch "f") || (e =? ch "n") || (e =? ch "r") || (e =? ch "t").

(** The loop of scan_string, past the opening quote. *)
Fixpoint scan_body (p : bytes) : scan bytes :=
  match p with
  | [] => Fail JSON_EINVAL
  | c :: r =>
      if c =? QUOTE then At r
      else if c <? 32 then Fail JSON_EINVAL
      else if c =? ch "\" then
        match r with
        | [] => Fail JSON_EINVAL
        | e :: r1 =>
            if simple_escape e then scan_body r1
            else if e =? ch "u" then
              match r1 with
              | h1 :: h2 :: h3 :: h4 :: r2 =>
                  if (0 <=? hexval h1) && (0 <=? hexval h2) &&
                     (0 <=? hexval h3) && (0 <=? hexval h4)
                  then scan_body r2 else Fail JSON_EINVAL
              | _ => Fail JSON_EINVAL
              end
            else Fail JSON_EINVAL
        end
      else scan_body r
  end.

Definition scan_string (p : bytes) : scan bytes :=
  match p with
  | c :: r => if c =? QUOTE then scan_body r else Fail JSON_EINVAL
  | [] => Fail JSON_EINVAL
  end.

Fixpoint skip_digits (p : bytes) : bytes :=
  match p with
  | c :: r => if is_digit c then skip_digits r else p
  | [] => []
  end.

(** [if (p >= end || !is_digit( *p)) fail; while (...) p++;] *)
Definition scan_digits1 (p : bytes) : scan bytes :=
  match p with
  | c :: _ => if is_digit c then At (skip_digits p) else Fail JSON_EINVAL
  | [] => Fail JSON_EINVAL
  end.

Definition skip_if (f : Z -> bool) (p : bytes) : bytes :=
  match p with c :: r => if f c then r else p | [] => [] end.

Definition scan_int (p : bytes) : scan bytes :=
  match p with
  | c :: r => if c =? ch "0" then At r else scan_digits1 p
  | [] => Fail JSON_EINVAL
  end.
Definition scan_frac (p : bytes) : scan bytes :=
  match p with
  | c :: r => if c =? ch "." then scan_digits1 r else At p
  | [] => At p
  end.
Definition scan_exp (p : bytes) : scan bytes :=
  match p with
  | c :: r =>
      if (c =? ch "e") || (c =? ch "E")
      then scan_digits1 (skip_if (fun c => (c =? ch "+") || (c =? ch "-")) r)
      else At p
  | [] => At p
  end.

Definition scan_number (s : bytes) : scan bytes :=
  (p <- scan_int (skip_if (fun c => c =? ch "-") s) ;;
   p <- scan_frac p ;;
   p <- scan_exp p ;;
   if (length p =? length s)%nat then Fail JSON_EINVAL else At p)%scan.

Definition scan_lit (l p : bytes) : scan bytes :=
  if (length p <? length l)%nat then Fail JSON_EINVAL
  else if bool_decide (take (length l) p = l) then At (drop (length l) p)
  else Fail JSON_EINVAL.

Section Loops.
(** The recursive call [scan_value(c, p, depth + 1, 0)]. *)
Variable value : bytes -> scan bytes.

(** The [for (;;)] over the members of an object. *)
Fixpoint obj_loop (fuel : nat) (p : bytes) : scan bytes :=
  match fuel with
  | O => Fail JSON_SPIN
  | S fuel =>
      (p <- scan_string (skip_ws 0 p) ;;
       match skip_ws 0 p with
       | c :: p =>
           if c =? ch ":" then
             p <- value p ;;
             match skip_ws 0 p with
             | c :: p => if c =? ch "," then obj_loop fuel p
                         else if c =? ch "}" then At p else Fail JSON_EINVAL
             | [] => Fail JSON_EINVAL
             end
           else Fail JSON_EINVAL
       | [] => Fail JSON_EINVAL
       end)%scan
  end.

(** The [for (;;)] over the elements of an array. *)
Fixpoint arr_loop (fuel : nat) (p : bytes) : scan bytes :=
  match fuel with
  | O => Fail JSON_SPIN
  | S fuel =>
      (p <- value p ;;
       match skip_ws 0 p with
       | c :: p => if c =? ch "," then arr_loop fuel p
                   else if c =? ch "]" then At p else Fail JSON_EINVAL
       | [] => Fail JSON_EINVAL
       end)%scan
  end.

Definition scan_object (p : bytes) : scan bytes :=
  match skip_ws 0 p with
  | c :: r => if c =? ch "}" then At r else obj_loop (S (length p)) (c :: r)
  | [] => obj_loop (S (length p)) []
  end.
Definition scan_array (p : bytes) : scan bytes :=
  match skip_ws 0 p with
  | c :: r => if c =? ch "]" then At r else arr_loop (S (length p)) (c :: r)
  | [] => arr_loop (S (length p)) []
  end.
End Loops.

(** The bytes of [start] that were consumed when the scan stopped at [p]. *)
Definition consumed (start p : bytes) : bytes := take (length start - length p) start.

(** [fuel] only makes the recursion structural; the depth test stops it first
    when it starts above [JSON_MAX_DEPTH - depth + 1]. *)
Fixpoint scan_value (fuel : nat) (depth : Z) (p : bytes) : scan (bytes * json_value) :=
  match fuel with
  | O => Fail JSON_SPIN
  | S fuel =>
      if JSON_MAX_DEPTH <? depth then Fail JSON_EDEPTH
      else
        let value p := (r <- scan_value fuel (depth + 1) p ;; At (fst r))%scan in
        match skip_ws 0 p with
        | [] => Fail JSON_EINVAL
        | c :: r =>
            let start := c :: r in
            let found type (m : scan bytes) :=
              (p <- m ;; At (p, JV type (consumed start p)))%scan in
            if c =? QUOTE then found T_STRING (scan_string start)
            else if c =? ch "{" then found T_OBJECT (scan_object value r)
            else if c =? ch "[" then found T_ARRAY (scan_array value r)
            else if c =? ch "t" then found T_BOOL (scan_lit (lit "true") start)
            else if c =? ch "f" then found T_BOOL (scan_lit (lit "false") start)
            else if c =? ch "n" then found T_NULL (scan_lit (lit "null") start)
            else found T_NUMBER (scan_number start)
        end
  end.

Definition SCAN_FUEL : nat := 33.
Arguments SCAN_FUEL : simpl never.

Definition json_parse (text : option bytes) : Z * json_value :=
  match text with
  | None => (JSON_EINVAL, no_value)
  | Some text =>
      match scan_value SCAN_FUEL 1 text with
      | Fail e => (if e =? 0 then JSON_EINVAL else e, no_value)
      | At (p, out) =>
          match skip_ws 0 p with
          | [] => (JSON_OK, out)
          | _ => (JSON_EINVAL, JV T_INVALID (span out))
          end
      end
  end.

(** [json_parse_str] stops at the NUL: the text is the C string. *)
Definition json_parse_str (text : option bytes) : Z * json_value :=
  json_parse (cstr <$> text).

(** ** String decoding *)

Definition utf8_encode (cp : Z) : bytes :=
  if cp <? 128 then [wrap8 cp]
  else if cp <? 2048 then
    [wrap8 (Z.lor 192 (Z.shiftr cp 6)); wrap8 (Z.lor 128 (Z.land cp 63))]
  else if cp <? 65536 then
    [wrap8 (Z.lor 224 (Z.shiftr cp 12)); wrap8 (Z.lor 128 (Z.land (Z.shiftr cp 6) 63));
     wrap8 (Z.lor 128 (Z.land cp 63))]
  else
    [wrap8 (Z.lor 240 (Z.shiftr cp 18)); wrap8 (Z.lor 128 (Z.land (Z.shiftr cp 12) 63));
     wrap8 (Z.lor 128 (Z.land (Z.shiftr cp 6) 63)); wrap8 (Z.lor 128 (Z.land cp 63))].

Definition hex4 (p : bytes) : Z :=
  match p with
  | h1 :: h2 :: h3 :: h4 :: _ =>
      if (hexval h1 <? 0) || (hexval h2 <? 0) || (hexval h3 <? 0) || (hexval h4 <? 0)
      then -1
      else let step v h := Z.lor (Z.shiftl v 4) (hexval h) in
           step (step (step (step 0 h1) h2) h3) h4
  | _ => -1
  end.

(** The code point of the escape [\u] with digits [hi], followed by [p], and what
    is left. *)
Definition decode_u (hi : Z) (p : bytes) : Z * bytes :=
  if (55296 <=? hi) && (hi <=? 56319) then
    if (6 <=? zlen p) && bool_decide (take 2 p = [ch "\"; ch "u"]) then
      let lo := hex4 (drop 2 p) in
      if (56320 <=? lo) && (lo <=? 57343)
      then (65536 + Z.shiftl (hi - 55296) 10 + (lo - 56320), drop 6 p)
      else (65533, p)
    else (65533, p)
  else if (56320 <=? hi) && (hi <=? 57343) then (65533, p)
  else (hi, p).

(** [None] is the return value 0. *)
Definition decode_one (p : bytes) : option (bytes * bytes) :=
  match p with
  | [] => None
  | c :: r =>
      if negb (c =? ch "\") then Some ([c], r)
      else
        match r with
        | [] => None
        | e :: r =>
            if e =? QUOTE then Some ([QUOTE], r)
            else if e =? ch "\" then Some ([ch "\"], r)
            else if e =? ch "/" then Some ([ch "/"], r)
            else if e =? ch "b" then Some ([8], r)
            else if e =? ch "f" then Some ([12], r)
            else if e =? ch "n" then Some ([10], r)
            else if e =? ch "r" then Some ([13], r)
            else if e =? ch "t" then Some ([9], r)
            else if e =? ch "u" then
              let hi := hex4 r in
              if hi <? 0 then None
              else let '(cp, r) := decode_u hi (drop 4 r) in Some (utf8_encode cp, r)
            else None
        end
  end.

(** The bytes between the quotes: [v->start + 1] up to [v->start + v->len - 1]. *)
Definition body (v : json_value) : bytes := take (length (span v) - 2) (drop 1 (span v)).

Fixpoint str_loop (fuel : nat) (base cap : Z) (p : bytes) (off : Z) : prog bytes (Z * Z) :=
  match p with
  | [] => ret (JSON_OK, off)
  | _ =>
      match fuel with
      | O => fun _ => Spin
      | S fuel =>
          match decode_one p with
          | None => ret (JSON_EINVAL, off)
          | Some (buf, p) =>
              if cap <=? off + zlen buf then ret (JSON_ENOSPC, off)
              else bind (pokes (base + off) buf)
                     (fun _ => str_loop fuel base cap p (off + zlen buf))
          end
      end
  end.

(** [json_str(v, dst + base, cap, &out_len)]; the result is the return code and
    [out_len]. *)
Definition json_str (v : json_value) (base cap : Z) : prog bytes (Z * Z) :=
  (if cap =? 0 then ret (JSON_EINVAL, 0)
   else
     poke base 0 ;;;
     if negb (bool_decide (jtype v = T_STRING)) || (zlen (span v) <? 2)
     then ret (JSON_ETYPE, 0)
     else
       r <- str_loop (length (span v)) base cap (body v) 0 ;;
       poke (base + snd r) 0 ;;;
       ret r)%prog.

(** One decoded character against the expected string. *)
Fixpoint match_bytes (buf s : bytes) : option bytes :=
  match buf with
  | [] => Some s
  | b :: buf =>
      match s with
      | c :: s => if c =? b then match_bytes buf s else None
      | [] => None
      end
  end.

Fixpoint str_eq_loop (fuel : nat) (p s : bytes) : bool :=
  match p with
  | [] => bool_decide (s = [])
  | _ =>
      match fuel with
      | O => false
      | S fuel =>
          match decode_one p with
          | None => false
          | Some (buf, p) =>
              match match_bytes buf s with
              | Some s => str_eq_loop fuel p s
              | None => false
              end
          end
      end
  end.

Definition json_str_eq (v : json_value) (s : bytes) : bool :=
  if negb (bool_decide (jtype v = T_STRING)) || (zlen (span v) <? 2) then false
  else str_eq_loop (length (span v)) (body v) s.

(** ** Navigation *)

(** What a walk reports: the return code, the member and value it stored through
    [key_out] and [val_out], and the count. *)
Record walked := Walked { w_rc : Z; w_key : json_value; w_val : json_value; w_n : Z }.

Section Walk.
Variable is_obj : bool.
Variable key : option bytes.
Variable index : Z.
Variable counting : bool.

Definition walk_end (k v : json_value) (n : Z) : walked :=
  Walked (if counting then JSON_OK else JSON_ENOENT) k v n.

(** The member name and the colon; elements of an array have none. *)
Definition walk_key (p : bytes) : scan (json_value * bytes) :=
  if is_obj then
    (q <- scan_string p ;;
     let k := JV T_STRING (consumed p q) in
     match skip_ws 1 q with
     | c :: r => if (1 <? length (c :: r))%nat && (c =? ch ":") then At (k, r)
                 else Fail JSON_EINVAL
     | [] => Fail JSON_EINVAL
     end)%scan
  else At (no_value, p).

(** The loop; [p] runs up to [c.end], one byte beyond the loop's [end]. [k0] and
    [v0] are what [key_out] and [val_out] hold. *)
Fixpoint walk_loop (fuel : nat) (p : bytes) (n : Z) (k0 v0 : json_value) : walked :=
  if (length p <=? 1)%nat then walk_end k0 v0 n
  else
    match fuel with
    | O => Walked JSON_SPIN k0 v0 n
    | S fuel =>
        match walk_key p with
        | Fail _ => Walked JSON_EINVAL k0 v0 n
        | At (k, p) =>
            match scan_value SCAN_FUEL 1 p with
            | Fail _ => Walked JSON_EINVAL k0 v0 n
            | At (p, val) =>
                let hit := match key with
                           | Some key => is_obj && json_str_eq k key
                           | None => n =? index
                           end in
                if hit && negb counting then Walked JSON_OK k val n
                else
                  let k0 := if hit then k else k0 in
                  let v0 := if hit then val else v0 in
                  let p := skip_ws 1 p in
                  match p with
                  | c :: r =>
                      if (1 <? length p)%nat && (c =? ch ",")
                      then walk_loop fuel (skip_ws 1 r) (n + 1) k0 v0
                      else walk_end k0 v0 (n + 1)
                  | [] => walk_end k0 v0 (n + 1)
                  end
            end
        end
    end.
End Walk.

Definition walk (v : json_value) (key : option bytes) (index : Z) (counting : bool) : walked :=
  if bool_decide (jtype v = T_OBJECT) || bool_decide (jtype v = T_ARRAY) then
    walk_loop (bool_decide (jtype v = T_OBJECT)) key index counting
      (length (span v)) (skip_ws 1 (drop 1 (span v))) 0 no_value no_value
  else Walked JSON_ETYPE no_value no_value 0.

Definition json_count (v : json_value) : Z :=
  let w := walk v None 0 true in if w_rc w =? JSON_OK then w_n w else 0.

Definition json_get (obj : json_value) (key : option bytes) : Z * json_value :=
  match key with
  | None => (JSON_EINVAL, no_value)
  | Some key =>
      if negb (bool_decide (jtype obj = T_OBJECT)) then (JSON_ETYPE, no_value)
      else let w := walk obj (Some key) 0 false in (w_rc w, w_val w)
  end.

Definition json_at (arr : json_value) (index : Z) : Z * json_value :=
  if negb (bool_decide (jtype arr = T_ARRAY)) then (JSON_ETYPE, no_value)
  else let w := walk arr None index false in (w_rc w, w_val w).

Definition json_member (obj : json_value) (index : Z) : Z * json_value * json_value :=
  if negb (bool_decide (jtype obj = T_OBJECT)) then (JSON_ETYPE, no_value, no_value)
  else let w := walk obj None index false in (w_rc w, w_key w, w_val w).

Definition json_get_str (obj : json_value) (key : option bytes) (cap : Z) : prog bytes Z :=
  let '(rc, v) := json_get obj key in
  (if negb (rc =? JSON_OK)
   then (if cap =? 0 then ret tt else poke 0 0) ;;; ret rc
   else r <- json_str v 0 cap ;; ret (fst r))%prog.

(** ** Scalars *)

(** The digit loop of json_int from [p] with magnitude [mag]; [None] is the early
    return of JSON_EINVAL. *)
Fixpoint int_loop (limit : Z) (p : bytes) (mag : Z) (any : bool) : option (Z * bool * bytes) :=
  match p with
  | c :: r =>
      if is_digit c then
        if limit / 10 <? mag then None
        else let mag := wrap64 (wrap64 (mag * 10) + (c - ch "0")) in
             if limit <? mag then None else int_loop limit r mag true
      else Some (mag, any, p)
  | [] => Some (mag, any, p)
  end.

Definition json_int (v : json_value) : Z * option Z :=
  if negb (bool_decide (jtype v = T_NUMBER)) then (JSON_ETYPE, None)
  else
    let neg := match span v with c :: _ => c =? ch "-" | [] => false end in
    let p := skip_if (fun c => c =? ch "-") (span v) in
    let limit := if neg then 0x8000000000000000 else 0x7FFFFFFFFFFFFFFF in
    match int_loop limit p 0 false with
    | None => (JSON_EINVAL, None)
    | Some (mag, any, p) =>
        if negb any then (JSON_EINVAL, None)
        else
          let p := match p with
                   | c :: r => if c =? ch "." then skip_digits r else p
                   | [] => p
                   end in
          if (0 <? length p)%nat then (JSON_EINVAL, None)
          else if neg
          then (JSON_OK, Some (if mag =? 0x8000000000000000 then - 2 ^ 63
                               else - sgn 64 mag))
          else (JSON_OK, Some (sgn 64 mag))
    end.

Definition json_bool (v : json_value) : Z * option bool :=
  if negb (bool_decide (jtype v = T_BOOL)) then (JSON_ETYPE, None)
  else (JSON_OK, Some (zlen (span v) =? 4)).

(** ** Messages *)

Definition json_msg_content (root : json_value) : Z * json_value :=
  let '(rc, c) := json_get root (Some (lit "content")) in
  if negb (rc =? JSON_OK) then (rc, no_value)
  else if negb (bool_decide (jtype c = T_ARRAY)) then (JSON_ETYPE, no_value)
  else (JSON_OK, c).

(** The text of a content block, when it is a text block: the guards of the loop
    body of json_msg_text up to [found = 1]. *)
Definition text_block (blk : json_value) : option json_value :=
  if negb (bool_decide (jtype blk = T_OBJECT)) then None
  else
    let '(rc, type) := json_get blk (Some (lit "type")) in
    if negb (rc =? JSON_OK) then None
    else if negb (json_str_eq type (lit "text")) then None
    else
      let '(rc, text) := json_get blk (Some (lit "text")) in
      if negb (rc =? JSON_OK) then None
      else if negb (bool_decide (jtype text = T_STRING)) then None
      else Some text.

(** The [for] loop with [todo] rounds left; the result is the return code and
    [out_len]. *)
Fixpoint msg_loop (content : json_value) (cap : Z) (todo : nat) (i off : Z) (found : bool)
  : prog bytes (Z * Z) :=
  let stop := ret (if found then JSON_OK else JSON_ENOENT, off) in
  match todo with
  | O => stop
  | S todo =>
      let '(rc, blk) := json_at content i in
      if negb (rc =? JSON_OK) then stop
      else
        match text_block blk with
        | None => msg_loop content cap todo (i + 1) off found
        | Some text =>
            bind (json_str text off (cap - off)) (fun r =>
              if fst r =? JSON_ENOSPC then ret (JSON_ENOSPC, off + snd r)
              else msg_loop content cap todo (i + 1) (off + snd r) true)
        end
  end.

Definition json_msg_text (root : json_value) (cap : Z) : prog bytes (Z * Z) :=
  (if cap =? 0 then ret (JSON_EINVAL, 0)
   else
     poke 0 0 ;;;
     let '(rc, content) := json_msg_content root in
     if negb (rc =? JSON_OK) then ret (rc, 0)
     else msg_loop content cap (Z.to_nat (json_count content)) 0 0 false)%prog.

Definition json_msg_stop_reason (root : json_value) (cap : Z) : prog bytes Z :=
  (if cap =? 0 then ret JSON_EINVAL
   else
     poke 0 0 ;;;
     let '(rc, v) := json_get root (Some (lit "stop_reason")) in
     if negb (rc =? JSON_OK) then ret rc
     else if bool_decide (jtype v = T_NULL) then ret JSON_OK
     else r <- json_str v 0 cap ;; ret (fst r))%prog.
