(* ===== verification/JsonWriter.v ===== *)
(** net/json.c: escaping and the fixed-capacity writer. *)

From S2P Require Import Prelude Bytes Json.

(** ** Escaping *)

(** [emit(dst + base, cap, &need, c)]; the result is the new [need]. *)
Definition emit (base cap need c : Z) : prog bytes Z :=
  ((if wrap64 (need + 1) <? cap then poke (base + need) c else ret tt) ;;;
   ret (wrap64 (need + 1)))%prog.

Fixpoint emits (base cap : Z) (cs : bytes) (need : Z) : prog bytes Z :=
  match cs with
  | [] => ret need
  | c :: cs => bind (emit base cap need c) (emits base cap cs)
  end.

Definition hex (d : Z) : Z :=
  nth (Z.to_nat d) (lit "0123456789abcdef") 0.

(** What the switch of json_escape_n emits for one byte. *)
Definition escape_byte (c : Z) : bytes :=
  if c =? QUOTE then [ch "\"; QUOTE]
  else if c =? ch "\" then [ch "\"; ch "\"]
  else if c =? 8 then [ch "\"; ch "b"]
  else if c =? 12 then [ch "\"; ch "f"]
  else if c =? 10 then [ch "\"; ch "n"]
  else if c =? 13 then [ch "\"; ch "r"]
  else if c =? 9 then [ch "\"; ch "t"]
  else if c <? 32 then
    [ch "\"; ch "u"; ch "0"; ch "0"; hex (Z.land (Z.shiftr c 4) 15); hex (Z.land c 15)]
  else [c].

Fixpoint escape_loop (base cap : Z) (src : bytes) (need : Z) : prog bytes Z :=
  match src with
  | [] => ret need
  | c :: r => bind (emits base cap (escape_byte c) need) (escape_loop base cap r)
  end.

(** [json_escape_n(dst + base, cap, src, n)], [src] the [n] bytes it reads. *)
Definition json_escape_n (base cap : Z) (src : option bytes) : prog bytes Z :=
  (need <- escape_loop base cap (default [] src) 0 ;;
   (if cap =? 0 then ret tt else poke (base + if need <? cap then need else cap - 1) 0) ;;;
   ret need)%prog.

Definition json_escape (base cap : Z) (src : option bytes) : prog bytes Z :=
  json_escape_n base cap (cstr <$> src).

(** ** The writer *)

Record json_writer := JW { buf : bytes; cap : Z; len : Z; overflow : bool }.

Definition set_buf (b : bytes) (w : json_writer) := JW b (cap w) (len w) (overflow w).
Definition set_len (n : Z) (w : json_writer) := JW (buf w) (cap w) n (overflow w).
Definition set_overflow (w : json_writer) := JW (buf w) (cap w) (len w) true.

(** Run a routine on the writer's buffer. *)
Definition on_buf {A} (m : prog bytes A) : prog json_writer A := fun w =>
  match m (buf w) with
  | Ok a b => Ok a (set_buf b w)
  | Panic why => Panic why
  | Wild => Wild
  | Spin => Spin
  end.

Definition json_writer_init (b : bytes) (c : Z) : outcome json_writer unit :=
  if c =? 0 then Ok tt (JW b c 0 true)
  else on_buf (poke 0 0) (JW b c 0 false).

Definition json_put_char (c : Z) : prog json_writer unit := fun w =>
  if overflow w then Ok tt w
  else if cap w <=? wrap64 (len w + 1) then Ok tt (set_overflow w)
  else (on_buf (poke (len w) c) ;;;
        modify (set_len (len w + 1)) ;;;
        on_buf (poke (len w + 1) 0))%prog w.

(** [json_put_n(w, s, n)], [s] the [n] bytes it copies. *)
Definition json_put_n (s : option bytes) : prog json_writer unit := fun w =>
  match s with
  | None => Ok tt w
  | Some s =>
      if overflow w then Ok tt w
      else if cap w <=? wrap64 (len w + zlen s) then Ok tt (set_overflow w)
      else (on_buf (pokes (len w) s) ;;;
            modify (set_len (len w + zlen s)) ;;;
            on_buf (poke (len w + zlen s) 0))%prog w
  end.

Definition json_put (s : option bytes) : prog json_writer unit := json_put_n (cstr <$> s).

(** The digits of [v], least significant first, at most [room] of them. *)
Fixpoint uint_digits (room : nat) (v : Z) : option bytes :=
  if v =? 0 then Some []
  else match room with
       | O => None
       | S room => (fun t => ch "0" + v mod 10 :: t) <$> uint_digits room (v / 10)
       end.

Fixpoint put_chars (cs : bytes) : prog json_writer unit :=
  match cs with
  | [] => ret tt
  | c :: cs => bind (json_put_char c) (fun _ => put_chars cs)
  end.

(** The digits go through [char t[20]]; a 21st would be stored outside it. *)
Definition json_put_uint (v : Z) : prog json_writer unit :=
  match (if v =? 0 then Some [ch "0"] else uint_digits 20 v) with
  | None => fun _ => Wild
  | Some t => put_chars (rev t)
  end.

Definition json_put_int (v : Z) : prog json_writer unit :=
  if v <? 0
  then bind (json_put_char (ch "-"))
         (fun _ => json_put_uint (wrap64 (wrap64 (- (v + 1)) + 1)))
  else json_put_uint (wrap64 v).

Definition json_put_string (s : option bytes) : prog json_writer unit := fun w =>
  if overflow w then Ok tt w
  else (json_put_char QUOTE ;;;
        o <- gets overflow ;;
        if o : bool then ret tt
        else
          n <- gets len ;;
          c <- gets cap ;;
          need <- on_buf (json_escape n (c - n) s) ;;
          if c - n <=? wrap64 (need + 1)
          then modify set_overflow ;;; on_buf (poke n 0)
          else modify (set_len (n + need)) ;;; json_put_char QUOTE)%prog w.

Definition json_writer_ok (w : json_writer) : bool := negb (overflow w).
Definition json_writer_len (w : json_writer) : Z := len w.
