(* ===== verification/JsonGrammar.v ===== *)
(** The JSON grammar (RFC 8259, over bytes) as inductive relations, and the proof
    that the scanner of net/json.c accepts exactly it, up to the nesting limit. *)

From S2P Require Import Prelude Bytes Json.

(** ** The grammar *)

Definition ws (w : bytes) : Prop := Forall (fun c => is_ws c = true) w.

(** What may stand between the quotes of a string. *)
Inductive jchars : bytes -> Prop :=
  | jc_nil : jchars []
  | jc_raw c s : 32 <= c -> c <> QUOTE -> c <> ch "\" -> jchars s -> jchars (c :: s)
  | jc_esc e s : simple_escape e = true -> jchars s -> jchars (ch "\" :: e :: s)
  | jc_u h1 h2 h3 h4 s :
      0 <= hexval h1 -> 0 <= hexval h2 -> 0 <= hexval h3 -> 0 <= hexval h4 ->
      jchars s -> jchars (ch "\" :: ch "u" :: h1 :: h2 :: h3 :: h4 :: s).

Definition jstring (s : bytes) : Prop := exists b, s = QUOTE :: b ++ [QUOTE] /\ jchars b.

Definition digits (ds : bytes) : Prop := Forall (fun c => is_digit c = true) ds.
Definition digits1 (ds : bytes) : Prop := ds <> [] /\ digits ds.

(** No leading zero. *)
Definition jint (s : bytes) : Prop :=
  s = [ch "0"] \/ exists c ds, s = c :: ds /\ c <> ch "0" /\ digits s.
Definition jfrac (s : bytes) : Prop := s = [] \/ exists ds, s = ch "." :: ds /\ digits1 ds.
Definition jexp (s : bytes) : Prop :=
  s = [] \/ exists e sg ds, s = e :: sg ++ ds /\ (e = ch "e" \/ e = ch "E") /\
              (sg = [] \/ sg = [ch "+"] \/ sg = [ch "-"]) /\ digits1 ds.
Definition jnumber (s : bytes) : Prop :=
  exists m i f e, s = m ++ i ++ f ++ e /\ (m = [] \/ m = [ch "-"]) /\ jint i /\ jfrac f /\ jexp e.

(** [jval n t s]: [s] is a value of type [t] in which arrays and objects are nested
    at most [n] deep. [jelems] and [jmembers] are the non-empty insides of an array
    and of an object, with the values found in them. *)
Inductive jval : nat -> json_type -> bytes -> Prop :=
  | jv_string n s : jstring s -> jval (S n) T_STRING s
  | jv_number n s : jnumber s -> jval (S n) T_NUMBER s
  | jv_true n : jval (S n) T_BOOL (lit "true")
  | jv_false n : jval (S n) T_BOOL (lit "false")
  | jv_null n : jval (S n) T_NULL (lit "null")
  | jv_array0 n w : ws w -> jval (S n) T_ARRAY (ch "[" :: w ++ [ch "]"])
  | jv_array n es s : jelems n es s -> jval (S n) T_ARRAY (ch "[" :: s ++ [ch "]"])
  | jv_object0 n w : ws w -> jval (S n) T_OBJECT (ch "{" :: w ++ [ch "}"])
  | jv_object n ms s : jmembers n ms s -> jval (S n) T_OBJECT (ch "{" :: s ++ [ch "}"])
with jelems : nat -> list json_value -> bytes -> Prop :=
  | je_one n w1 t v w2 :
      ws w1 -> jval n t v -> ws w2 -> jelems n [JV t v] (w1 ++ v ++ w2)
  | je_more n w1 t v w2 es s :
      ws w1 -> jval n t v -> ws w2 -> jelems n es s ->
      jelems n (JV t v :: es) (w1 ++ v ++ w2 ++ ch "," :: s)
with jmembers : nat -> list (json_value * json_value) -> bytes -> Prop :=
  | jm_one n w1 k w2 w3 t v w4 :
      ws w1 -> jstring k -> ws w2 -> ws w3 -> jval n t v -> ws w4 ->
      jmembers n [(JV T_STRING k, JV t v)] (w1 ++ k ++ w2 ++ ch ":" :: w3 ++ v ++ w4)
  | jm_more n w1 k w2 w3 t v w4 ms s :
      ws w1 -> jstring k -> ws w2 -> ws w3 -> jval n t v -> ws w4 -> jmembers n ms s ->
      jmembers n ((JV T_STRING k, JV t v) :: ms)
        (w1 ++ k ++ w2 ++ ch ":" :: w3 ++ v ++ w4 ++ ch "," :: s).

(** A document whose root value is [v]. *)
Definition json_text (n : nat) (v : json_value) (text : bytes) : Prop :=
  exists w1 w2, text = w1 ++ span v ++ w2 /\ ws w1 /\ ws w2 /\ jval n (jtype v) (span v).

(** What can follow a value: nothing that would continue a number. *)
Definition follow (q : bytes) : Prop :=
  match q with
  | [] => True
  | c :: _ => is_digit c = false /\ c <> ch "." /\ c <> ch "e" /\ c <> ch "E"
  end.

Definition starts_no_ws (q : bytes) : Prop :=
  match q with [] => True | c :: _ => is_ws c = false end.

(** ** White space *)

Lemma ws_nil : ws [].
Proof. constructor. Qed.
Create HintDb json.
#[export] Hint Resolve ws_nil : json core.
#[export] Hint Constructors jchars : json.

Lemma skip_ws_app w q : ws w -> skip_ws 0 (w ++ q) = skip_ws 0 q.
Proof. induction 1 as [|c w Hc _ IH]; [done|]. cbn. by rewrite Hc. Qed.

Lemma skip_ws_id q : starts_no_ws q -> skip_ws 0 q = q.
Proof. destruct q as [|c q]; [done|]. cbn. by intros ->. Qed.

Lemma skip_ws_spec p : exists w, p = w ++ skip_ws 0 p /\ ws w /\ starts_no_ws (skip_ws 0 p).
Proof.
  induction p as [|c p (w & E & Hw & Hs)]; [by exists []; auto|].
  cbn. destruct (is_ws c) eqn:Hc.
  - exists (c :: w). split_and!; [cbn; by f_equal | by constructor | done].
  - by exists []; auto.
Qed.

Lemma skip_ws_cons p c r : skip_ws 0 p = c :: r -> exists w, p = w ++ c :: r /\ ws w /\ is_ws c = false.
Proof. intros E. destruct (skip_ws_spec p) as (w & H & ? & ?). rewrite E in *. eauto. Qed.

Lemma skip_ws_to w c q : ws w -> is_ws c = false -> skip_ws 0 (w ++ c :: q) = c :: q.
Proof. intros. rewrite skip_ws_app by done. by apply skip_ws_id. Qed.

(** ** Strings *)

Lemma scan_body_sound p : forall q,
  scan_body p = At q -> exists b, p = b ++ QUOTE :: q /\ jchars b.
Proof.
  induction p as [p IH] using (induction_ltof1 _ length); unfold ltof in IH; intros q.
  destruct p as [|c r]; cbn [scan_body]; [done|].
  destruct (Z.eqb_spec c QUOTE) as [->|Hq].
  { intros [= ->]. exists []. split; [done | constructor]. }
  destruct (Z.ltb_spec c 32); [done|].
  destruct (Z.eqb_spec c 92) as [->|Hb].
  2:{ intros H'. apply IH in H' as (b & -> & ?); [|cbn; lia].
      exists (c :: b). split; [done|]. by constructor. }
  destruct r as [|e r]; [done|]. destruct (simple_escape e) eqn:He.
  { intros H'. apply IH in H' as (b & -> & ?); [|cbn; lia].
    exists (92 :: e :: b). split; [done|]. by constructor. }
  destruct (Z.eqb_spec e 117) as [->|]; [|done].
  destruct r as [|h1 [|h2 [|h3 [|h4 r]]]]; try done.
  destruct (_ && _) eqn:Hh; [|done]. b2p.
  intros H'. apply IH in H' as (b & -> & ?); [|cbn; lia].
  exists (92 :: 117 :: h1 :: h2 :: h3 :: h4 :: b). split; [done|]. by constructor.
Qed.

Lemma scan_body_complete b q : jchars b -> scan_body (b ++ QUOTE :: q) = At q.
Proof.
  induction 1 as [|c s ??? _ IH|e s He _ IH|h1 h2 h3 h4 s ???? _ IH]; cbn [app scan_body].
  - done.
  - by rewrite (proj2 (Z.eqb_neq _ _)), (proj2 (Z.ltb_ge _ _)), (proj2 (Z.eqb_neq c 92)) by done.
  - cbn. by rewrite He.
  - cbn. by rewrite !(proj2 (Z.leb_le 0 _)) by done.
Qed.

Lemma scan_string_sound p q :
  scan_string p = At q -> exists s, p = s ++ q /\ jstring s.
Proof.
  destruct p as [|c r]; [done|]. cbn. destruct (Z.eqb_spec c QUOTE) as [->|]; [|done].
  intros (b & -> & Hb)%scan_body_sound. exists (QUOTE :: b ++ [QUOTE]).
  split; [cbn; by rewrite <- app_assoc | by exists b].
Qed.

Lemma scan_string_complete s q : jstring s -> scan_string (s ++ q) = At q.
Proof.
  intros (b & -> & Hb). cbn. rewrite <- app_assoc. by apply scan_body_complete.
Qed.

Lemma scan_string_err p e : scan_string p = Fail e -> e = JSON_EINVAL.
Proof.
  destruct p as [|c r]; [by intros [= <-]|]. cbn. destruct (c =? 34); [|by intros [= <-]].
  revert e. induction r as [r IH] using (induction_ltof1 _ length); unfold ltof in IH; intros e.
  destruct r as [|x r]; cbn [scan_body]; [by intros [= <-]|].
  destruct (x =? 34), (x <? 32), (x =? 92); try done; try by intros [= <-].
  - destruct r as [|y r]; [by intros [= <-]|]. destruct (simple_escape y); [apply IH; cbn; lia|].
    destruct (y =? 117); [|by intros [= <-]].
    destruct r as [|h1 [|h2 [|h3 [|h4 r]]]]; try by intros [= <-].
    destruct (_ && _); [apply IH; cbn; lia | by intros [= <-]].
  - apply IH. cbn. lia.
Qed.

(** ** Numbers *)

Definition no_digit (q : bytes) : Prop :=
  match q with [] => True | c :: _ => is_digit c = false end.

Lemma skip_digits_spec p : exists ds, p = ds ++ skip_digits p /\ digits ds.
Proof.
  induction p as [|c p (ds & E & Hd)]; [exists []; split; [done | constructor]|].
  cbn. destruct (is_digit c) eqn:Hc; [|exists []; split; [done | constructor]].
  exists (c :: ds). split; [cbn; by f_equal | by constructor].
Qed.

Lemma skip_digits_app ds q : digits ds -> no_digit q -> skip_digits (ds ++ q) = q.
Proof.
  induction 1 as [|c ds Hc _ IH]; intros Hq; cbn [app skip_digits].
  - destruct q as [|c q]; [done|]. cbn in *. by rewrite Hq.
  - rewrite Hc. auto.
Qed.

Lemma scan_digits1_sound p q : scan_digits1 p = At q -> exists ds, p = ds ++ q /\ digits1 ds.
Proof.
  destruct p as [|c p]; [done|]. cbn. destruct (is_digit c) eqn:Hc; [|done]. intros [= <-].
  destruct (skip_digits_spec p) as (ds & E & Hd).
  exists (c :: ds). split; [cbn; by f_equal|]. split; [done | by constructor].
Qed.

Lemma scan_digits1_complete ds q : digits1 ds -> no_digit q -> scan_digits1 (ds ++ q) = At q.
Proof.
  intros [Hne Hd] Hq. destruct ds as [|c ds]; [done|].
  pose proof (Forall_inv Hd) as Hc. cbn [app scan_digits1]. rewrite Hc. f_equal.
  by apply (skip_digits_app (c :: ds)).
Qed.

Lemma scan_int_sound p q : scan_int p = At q -> exists i, p = i ++ q /\ jint i.
Proof.
  destruct p as [|c p]; [done|]. cbn [scan_int]. destruct (Z.eqb_spec c 48) as [->|Hc].
  - intros [= ->]. exists [48]. split; [done | by left].
  - intros (ds & E & Hne & Hd)%scan_digits1_sound. exists ds. split; [done|].
    right. destruct ds as [|c' ds]; [done|]. injection E as -> ->. eauto 6.
Qed.

Lemma scan_int_complete i q : jint i -> no_digit q -> scan_int (i ++ q) = At q.
Proof.
  intros [->|(c & ds & -> & Hc & Hd)] Hq; [done|].
  cbn [app scan_int]. rewrite (proj2 (Z.eqb_neq _ _)) by done.
  by apply (scan_digits1_complete (c :: ds)).
Qed.

Lemma scan_frac_sound p q : scan_frac p = At q -> exists f, p = f ++ q /\ jfrac f.
Proof.
  destruct p as [|c p]; cbn; [intros [= <-]; exists []; split; [done | by left]|].
  destruct (Z.eqb_spec c 46) as [->|].
  - intros (ds & -> & Hd)%scan_digits1_sound. exists (46 :: ds). split; [done | right; eauto].
  - intros [= <-]. exists []. split; [done | by left].
Qed.

Lemma scan_frac_complete f q :
  jfrac f -> no_digit q -> (forall r, q <> ch "." :: r) -> scan_frac (f ++ q) = At q.
Proof.
  intros [->|(ds & -> & Hd)] Hq Hdot; cbn.
  - destruct q as [|c q]; [done|]. cbn. destruct (Z.eqb_spec c 46) as [->|]; [|done].
    by destruct (Hdot q).
  - by apply scan_digits1_complete.
Qed.

Lemma scan_exp_sound p q : scan_exp p = At q -> exists e, p = e ++ q /\ jexp e.
Proof.
  destruct p as [|c p]; cbn; [intros [= <-]; exists []; split; [done | by left]|].
  destruct (_ || _) eqn:Hc; [|intros [= <-]; exists []; split; [done | by left]].
  intros (ds & E & Hd)%scan_digits1_sound.
  assert (exists sg, p = sg ++ ds ++ q /\ (sg = [] \/ sg = [43] \/ sg = [45]))
    as (sg & -> & Hsg).
  { destruct p as [|x p]; cbn in E; [exists []; auto|].
    destruct (_ || _) eqn:Hx in E; [|exists []; rewrite <- E; auto].
    subst p. exists [x]. split; [done|]. apply orb_true_iff in Hx as [?|?]; b2p; subst; auto. }
  exists (c :: sg ++ ds). split; [cbn; by rewrite <- app_assoc|].
  right. exists c, sg, ds. split_and!; try done. apply orb_true_iff in Hc as [?|?]; b2p; auto.
Qed.

Lemma scan_exp_complete e q : jexp e -> follow q -> scan_exp (e ++ q) = At q.
Proof.
  assert (follow q -> no_digit q) as Hn by (destruct q; [done | by intros []]).
  intros [->|(c & sg & ds & -> & Hc & Hsg & Hd)] Hq; cbn [app].
  - destruct q as [|c q]; [done|]. cbn in *. destruct Hq as (_ & _ & ? & ?).
    by rewrite !(proj2 (Z.eqb_neq _ _)) by done.
  - cbn [scan_exp]. replace (_ || _) with true by (by destruct Hc as [->| ->]).
    rewrite <- app_assoc. rewrite <- (scan_digits1_complete ds q) by auto.
    destruct Hsg as [->|[->| ->]]; [|done|done]. cbn [app].
    destruct Hd as [Hne Hd]. destruct ds as [|x ds]; [done|]. cbn [app skip_if].
    pose proof (Forall_inv Hd) as Hx. unfold is_digit in Hx. b2p.
    by rewrite !(proj2 (Z.eqb_neq _ _)) by lia.
Qed.

Lemma jint_ne i : jint i -> exists c r, i = c :: r /\ 48 <= c <= 57.
Proof.
  intros [->|(c & ds & -> & _ & Hd)]; [exists 48, []; split; [done | lia]|].
  pose proof (Forall_inv Hd) as Hc. unfold is_digit in Hc. b2p. eauto.
Qed.

Lemma jexp_no_digit e q : jexp e -> follow q -> no_digit (e ++ q) /\ forall r, e ++ q <> ch "." :: r.
Proof.
  intros [->|(c & sg & ds & -> & Hc & _)] Hq; cbn.
  - destruct q as [|c q]; [by split|]. destruct Hq as (? & ? & _). split; [done|congruence].
  - by destruct Hc as [->| ->].
Qed.

Lemma scan_number_sound p q : scan_number p = At q -> exists s, p = s ++ q /\ jnumber s.
Proof.
  unfold scan_number, sbind.
  destruct (scan_int _) as [p1|] eqn:E1; [|done].
  destruct (scan_frac _) as [p2|] eqn:E2; [|done].
  destruct (scan_exp _) as [p3|] eqn:E3; [|done].
  destruct (_ =? _)%nat; [done|]. intros [= ->].
  apply scan_int_sound in E1 as (i & E1 & Hi). apply scan_frac_sound in E2 as (f & -> & Hf).
  apply scan_exp_sound in E3 as (e & -> & He).
  assert (exists m, p = m ++ i ++ f ++ e ++ q /\ (m = [] \/ m = [45])) as (m & -> & Hm).
  { destruct p as [|c p]; cbn in E1; [by exists []; auto|].
    destruct (Z.eqb_spec c 45) as [->|]; [exists [45] | exists []]; rewrite E1; auto. }
  exists (m ++ i ++ f ++ e). split; [by rewrite <- !app_assoc|]. by exists m, i, f, e.
Qed.

Lemma scan_number_complete s q : jnumber s -> follow q -> scan_number (s ++ q) = At q.
Proof.
  intros (m & i & f & e & -> & Hm & Hi & Hf & He) Hq. rewrite <- !app_assoc.
  destruct (jexp_no_digit e q He Hq) as [Hd Hdot].
  assert (no_digit (f ++ e ++ q)) by (by destruct Hf as [->|(?&->&?)]).
  assert (Hs : skip_if (fun c => c =? ch "-") (m ++ i ++ f ++ e ++ q) = i ++ f ++ e ++ q).
  { destruct (jint_ne i Hi) as (c & r & -> & ?).
    destruct Hm as [->| ->]; [|done]. cbn. by rewrite (proj2 (Z.eqb_neq _ _)) by lia. }
  unfold scan_number. rewrite Hs, scan_int_complete by done. cbn [sbind].
  rewrite scan_frac_complete by done. cbn [sbind]. rewrite scan_exp_complete by done. cbn [sbind].
  destruct (Nat.eqb_spec (length q) (length (m ++ i ++ f ++ e ++ q))) as [E|]; [|done].
  destruct (jint_ne i Hi) as (c & r & -> & ?). rewrite !length_app in E. cbn in E. lia.
Qed.

(** ** Literals *)

Lemma scan_lit_sound l p q : scan_lit l p = At q -> p = l ++ q.
Proof.
  unfold scan_lit. destruct (_ <? _)%nat; [done|]. case_bool_decide as E; [|done].
  intros [= <-]. by rewrite <- E at 1; rewrite take_drop.
Qed.

Lemma scan_lit_complete l q : scan_lit l (l ++ q) = At q.
Proof.
  unfold scan_lit. destruct (Nat.ltb_spec (length (l ++ q)) (length l)) as [H|H].
  - rewrite length_app in H. lia.
  - rewrite take_app_length, drop_app_length. by rewrite bool_decide_true.
Qed.

(** ** Soundness of the value scanner *)

Lemma jelems_ws n w es s : ws w -> jelems n es s -> jelems n es (w ++ s).
Proof.
  intros Hw []; rewrite app_assoc; constructor; try done; by apply Forall_app.
Qed.

Lemma jmembers_ws n w ms s : ws w -> jmembers n ms s -> jmembers n ms (w ++ s).
Proof.
  intros Hw []; rewrite app_assoc; constructor; try done; by apply Forall_app.
Qed.

Lemma consumed_app s q : consumed (s ++ q) q = s.
Proof.
  unfold consumed. rewrite length_app.
  replace (length s + length q - length q)%nat with (length s) by lia. apply take_app_length.
Qed.

Section Sound.
Variable n : nat.
Variable value : bytes -> scan bytes.
Hypothesis value_sound : forall p q,
  value p = At q -> exists w t v, ws w /\ p = w ++ v ++ q /\ jval n t v.

Lemma arr_loop_sound fuel : forall p q,
  arr_loop value fuel p = At q -> exists es s, p = s ++ ch "]" :: q /\ jelems n es s.
Proof using value_sound.
  induction fuel as [|fuel IH]; intros p q; cbn [arr_loop]; [done|]. unfold sbind.
  destruct (value p) as [p1|] eqn:E1; [|done].
  apply value_sound in E1 as (w1 & t & v & Hw1 & -> & Hv).
  destruct (skip_ws 0 p1) as [|c p2] eqn:E2; [done|].
  apply skip_ws_cons in E2 as (w2 & -> & Hw2 & _).
  destruct (Z.eqb_spec c 44) as [->|].
  - intros (es & s & -> & He)%IH. exists (JV t v :: es), (w1 ++ v ++ w2 ++ 44 :: s).
    split; [by rewrite <- !app_assoc | by constructor].
  - destruct (Z.eqb_spec c 93) as [->|]; [|done]. intros [= ->].
    exists [JV t v], (w1 ++ v ++ w2). split; [by rewrite <- !app_assoc | by constructor].
Qed.

Lemma obj_loop_sound fuel : forall p q,
  obj_loop value fuel p = At q -> exists ms s, p = s ++ ch "}" :: q /\ jmembers n ms s.
Proof using value_sound.
  induction fuel as [|fuel IH]; intros p q; cbn [obj_loop]; [done|]. unfold sbind.
  destruct (scan_string _) as [p1|] eqn:E1; [|done].
  apply scan_string_sound in E1 as (k & Ek & Hk).
  destruct (skip_ws_spec p) as (w1 & -> & Hw1 & _). rewrite Ek. clear Ek.
  destruct (skip_ws 0 p1) as [|c p2] eqn:E2; [done|].
  apply skip_ws_cons in E2 as (w2 & -> & Hw2 & _). destruct (Z.eqb_spec c 58) as [->|]; [|done].
  destruct (value p2) as [p3|] eqn:E3; [|done].
  apply value_sound in E3 as (w3 & t & v & Hw3 & -> & Hv).
  destruct (skip_ws 0 p3) as [|c p4] eqn:E4; [done|].
  apply skip_ws_cons in E4 as (w4 & -> & Hw4 & _). destruct (Z.eqb_spec c 44) as [->|].
  - intros (ms & s & -> & He)%IH.
    exists ((JV T_STRING k, JV t v) :: ms),
      (w1 ++ k ++ w2 ++ 58 :: w3 ++ v ++ w4 ++ 44 :: s).
    split; [|by constructor]. repeat (rewrite <- app_assoc; cbn [app]). done.
  - destruct (Z.eqb_spec c 125) as [->|]; [|done]. intros [= ->].
    exists [(JV T_STRING k, JV t v)], (w1 ++ k ++ w2 ++ 58 :: w3 ++ v ++ w4).
    split; [|by constructor]. repeat (rewrite <- app_assoc; cbn [app]). done.
Qed.

Lemma scan_array_sound p q :
  scan_array value p = At q ->
  exists s, p = s ++ ch "]" :: q /\ jval (S n) T_ARRAY (ch "[" :: s ++ [ch "]"]).
Proof using value_sound.
  unfold scan_array. destruct (skip_ws_spec p) as (w & E & Hw & _). intros H.
  assert (skip_ws 0 p = 93 :: q \/ exists f, arr_loop value f (skip_ws 0 p) = At q) as [H'|[f H']].
  { destruct (skip_ws 0 p) as [|c r]; [eauto|]. destruct (Z.eqb_spec c 93); [|eauto].
    left. congruence. }
  - rewrite H' in E. exists w. split; [done | by constructor].
  - apply arr_loop_sound in H' as (es & s & E' & He). rewrite E', app_assoc in E.
    exists (w ++ s). split; [done|]. apply (jv_array _ es). by apply jelems_ws.
Qed.

Lemma scan_object_sound p q :
  scan_object value p = At q ->
  exists s, p = s ++ ch "}" :: q /\ jval (S n) T_OBJECT (ch "{" :: s ++ [ch "}"]).
Proof using value_sound.
  unfold scan_object. destruct (skip_ws_spec p) as (w & E & Hw & _). intros H.
  assert (skip_ws 0 p = 125 :: q \/ exists f, obj_loop value f (skip_ws 0 p) = At q) as [H'|[f H']].
  { destruct (skip_ws 0 p) as [|c r]; [eauto|]. destruct (Z.eqb_spec c 125); [|eauto].
    left. congruence. }
  - rewrite H' in E. exists w. split; [done | by constructor].
  - apply obj_loop_sound in H' as (es & s & E' & He). rewrite E', app_assoc in E.
    exists (w ++ s). split; [done|]. apply (jv_object _ es). by apply jmembers_ws.
Qed.
End Sound.

(** What a branch of scan_value reports, given where its scan stopped. *)
Lemma found_at {t start m q val} :
  (p <- m ;; At (p, JV t (consumed start p)))%scan = At (q, val) ->
  m = At q /\ val = JV t (consumed start q).
Proof. destruct m; [|done]. by intros [= <- <-]. Qed.

Lemma scan_value_sound fuel : forall depth p q val,
  scan_value fuel depth p = At (q, val) ->
  exists w, ws w /\ p = w ++ span val ++ q /\
            jval (Z.to_nat (33 - depth)) (jtype val) (span val).
Proof.
  induction fuel as [|fuel IH]; intros depth p q val; cbn [scan_value]; [done|].
  unfold JSON_MAX_DEPTH. destruct (Z.ltb_spec 32 depth) as [|Hd]; [done|].
  replace (Z.to_nat (33 - depth)) with (S (Z.to_nat (33 - (depth + 1)))) by lia.
  set (m := Z.to_nat (33 - (depth + 1))).
  set (value := fun p => _).
  assert (Hval : forall p q, value p = At q ->
            exists w t v, ws w /\ p = w ++ v ++ q /\ jval m t v).
  { intros p' q'. unfold value, sbind.
    destruct (scan_value fuel _ p') as [[q'' val']|] eqn:E; [|done]. intros [= <-].
    apply IH in E as (w & ? & ? & ?). eauto 6. }
  destruct (skip_ws 0 p) as [|c r] eqn:Ep; [done|].
  apply skip_ws_cons in Ep as (w & -> & Hw & _). intros H. exists w. split; [done|].
  enough (exists s, c :: r = s ++ q /\ jval (S m) (jtype val) s /\
                    span val = consumed (c :: r) q) as (s & E & Hj & ->).
  { rewrite E, consumed_app. done. }
  repeat match type of H with
  | (if ?a =? ?b then _ else _) = _ => destruct (Z.eqb_spec a b) as [->|]
  end; apply found_at in H as [H ->]; cbn [jtype span].
  - apply scan_string_sound in H as (s & ? & ?). exists s. by repeat constructor.
  - apply (scan_object_sound m) in H as (s & -> & Hj); [|done].
    exists (123 :: s ++ [125]). cbn. by rewrite <- app_assoc.
  - apply (scan_array_sound m) in H as (s & -> & Hj); [|done].
    exists (91 :: s ++ [93]). cbn. by rewrite <- app_assoc.
  - apply scan_lit_sound in H. exists (lit "true"). by repeat constructor.
  - apply scan_lit_sound in H. exists (lit "false"). by repeat constructor.
  - apply scan_lit_sound in H. exists (lit "null"). by repeat constructor.
  - apply scan_number_sound in H as (s & ? & ?). exists s. by repeat constructor.
Qed.

(** ** Completeness of the value scanner *)

Lemma follow_ws w q : ws w -> follow q -> follow (w ++ q).
Proof.
  intros [|c w' Hc _] Hq; [done|]. cbn. unfold is_ws, is_digit in *.
  rewrite !orb_true_iff in Hc. destruct Hc as [[[?|?]|?]|?]; b2p; subst; by split_and!.
Qed.

Lemma jnumber_head s : jnumber s -> exists c r, s = c :: r /\ (c = ch "-" \/ 48 <= c <= 57).
Proof.
  intros (m & i & f & e & -> & Hm & Hi & _). destruct (jint_ne i Hi) as (c & r & -> & ?).
  destruct Hm as [->| ->]; cbn; eauto.
Qed.

Lemma is_ws_false c : 33 <= c -> is_ws c = false.
Proof. intros. unfold is_ws. by rewrite !(proj2 (Z.eqb_neq _ _)) by lia. Qed.

Lemma jval_head' n t v : jval n t v ->
  exists c r, v = c :: r /\ is_ws c = false /\ c <> ch "]".
Proof.
  intros []; cbn; try by repeat econstructor.
  - destruct H as (b & -> & _). cbn. by repeat econstructor.
  - destruct (jnumber_head s H) as (c & r & -> & ?). exists c, r. split_and!; [done| |lia].
    apply is_ws_false. lia.
Qed.

Lemma jval_head n t v : jval n t v -> exists c r, v = c :: r /\ is_ws c = false.
Proof. intros (c & r & ? & ? & _)%jval_head'. eauto. Qed.

Lemma jstring_head k : jstring k -> exists r, k = QUOTE :: r.
Proof. intros (b & -> & _). cbn. eauto. Qed.

Lemma jelems_length n es s : jelems n es s -> (length es <= length s)%nat.
Proof.
  induction 1; match goal with H : jval _ _ _ |- _ => apply jval_head in H as (c & r & -> & ?) end;
    rewrite !length_app; cbn in *; lia.
Qed.

Lemma jmembers_length n ms s : jmembers n ms s -> (length ms <= length s)%nat.
Proof.
  induction 1; match goal with H : jval _ _ _ |- _ => apply jval_head in H as (c & r & -> & ?) end;
    repeat (rewrite length_app; cbn [length]); cbn in *; lia.
Qed.

(** White space before the first element or member can be split off. *)
Lemma jelems_trim n es s : jelems n es s -> exists w c r,
  s = w ++ c :: r /\ ws w /\ is_ws c = false /\ c <> ch "]" /\ jelems n es (c :: r).
Proof.
  intros [? w1 t v w2 ? Hv|? w1 t v w2 es' s' ? Hv]; pose proof Hv as Hv';
    apply jval_head' in Hv' as (c & r & -> & ? & ?).
  - exists w1, c, (r ++ w2). split_and!; try done. by apply (je_one _ [] t (c :: r)); auto.
  - exists w1, c, (r ++ w2 ++ 44 :: s'). split_and!; try done. by apply (je_more _ [] t (c :: r)); auto.
Qed.

Lemma jmembers_trim n ms s : jmembers n ms s -> exists w r,
  s = w ++ QUOTE :: r /\ ws w /\ jmembers n ms (QUOTE :: r).
Proof.
  intros [? w1 k w2 w3 t v w4 ? Hk|? w1 k w2 w3 t v w4 ms' s' ? Hk]; pose proof Hk as Hk';
    apply jstring_head in Hk' as (r & ->).
  - exists w1, (r ++ w2 ++ 58 :: w3 ++ v ++ w4). split_and!; try done. by apply (jm_one _ [] (34 :: r)); auto.
  - exists w1, (r ++ w2 ++ 58 :: w3 ++ v ++ w4 ++ 44 :: s'). split_and!; try done.
    by apply (jm_more _ [] (34 :: r)); auto.
Qed.

Section Complete.
Variable n : nat.
Variable value : bytes -> scan bytes.
(** Whether the nesting limit is in the way. *)
Variable deep : Prop.

Definition reads (m : scan bytes) (q : bytes) : Prop :=
  m = At q \/ (m = Fail JSON_EDEPTH /\ deep).

Hypothesis value_complete : forall w t v q,
  ws w -> jval n t v -> follow q -> reads (value (w ++ v ++ q)) q.

Lemma arr_loop_complete es s : jelems n es s -> forall fuel q,
  (length es <= fuel)%nat -> reads (arr_loop value fuel (s ++ ch "]" :: q)) q.
Proof using value_complete.
  induction 1 as [n w1 t v w2 Hw1 Hv Hw2 | n w1 t v w2 es s Hw1 Hv Hw2 _ IH];
    intros [|fuel] q Hf; cbn in Hf; try lia; cbn [arr_loop]; rewrite <- !app_assoc; cbn [app].
  - destruct (value_complete w1 t v (w2 ++ 93 :: q)) as [->|[-> ?]];
      try done; try (by apply follow_ws); try (by right).
    cbn [sbind]. rewrite skip_ws_to by done. by left.
  - destruct (value_complete w1 t v (w2 ++ 44 :: s ++ 93 :: q)) as [->|[-> ?]];
      try done; try (by apply follow_ws); try (by right).
    cbn [sbind]. rewrite skip_ws_to by done. cbn. apply IH; [done | lia].
Qed.

Lemma obj_loop_complete ms s : jmembers n ms s -> forall fuel q,
  (length ms <= fuel)%nat -> reads (obj_loop value fuel (s ++ ch "}" :: q)) q.
Proof using value_complete.
  induction 1 as [n w1 k w2 w3 t v w4 Hw1 Hk Hw2 Hw3 Hv Hw4
                 | n w1 k w2 w3 t v w4 ms s Hw1 Hk Hw2 Hw3 Hv Hw4 _ IH];
    intros [|fuel] q Hf; cbn in Hf; try lia; cbn [obj_loop];
    repeat (rewrite <- app_assoc; cbn [app]);
    destruct (jstring_head k Hk) as (kr & Ek);
    (rewrite skip_ws_app by done);
    (rewrite skip_ws_id by (by rewrite Ek));
    (rewrite scan_string_complete by done); cbn [sbind];
    (rewrite skip_ws_to by done); cbn [Z.eqb Pos.eqb].
  - destruct (value_complete w3 t v (w4 ++ 125 :: q)) as [->|[-> ?]];
      try done; try (by apply follow_ws); try (by right).
    cbn [sbind]. rewrite skip_ws_to by done. by left.
  - destruct (value_complete w3 t v (w4 ++ 44 :: s ++ 125 :: q)) as [->|[-> ?]];
      try done; try (by apply follow_ws); try (by right).
    cbn [sbind]. rewrite skip_ws_to by done. cbn. apply IH; [done | lia].
Qed.

Lemma scan_array_complete es s q :
  jelems n es s -> reads (scan_array value (s ++ ch "]" :: q)) q.
Proof using value_complete.
  intros He. destruct (jelems_trim _ _ _ He) as (w & c & r & -> & Hw & Hc & Hc' & He').
  unfold scan_array. rewrite <- app_assoc. cbn [app]. rewrite skip_ws_to by done.
  rewrite (proj2 (Z.eqb_neq _ _)) by done.
  apply (arr_loop_complete es (c :: r)); [done|].
  apply jelems_length in He'. rewrite length_app. cbn in *. rewrite length_app. lia.
Qed.

Lemma scan_object_complete ms s q :
  jmembers n ms s -> reads (scan_object value (s ++ ch "}" :: q)) q.
Proof using value_complete.
  intros He. destruct (jmembers_trim _ _ _ He) as (w & r & -> & Hw & He').
  unfold scan_object. rewrite <- app_assoc. cbn [app]. rewrite skip_ws_to by done.
  apply (obj_loop_complete ms (34 :: r)); [done|].
  apply jmembers_length in He'. rewrite length_app. cbn in *. rewrite length_app. lia.
Qed.
End Complete.

(** A branch of scan_value whose scan reads up to [q]. *)
Lemma reads_found deep t s q m :
  reads deep m q ->
  (p <- m ;; At (p, JV t (consumed (s ++ q) p)))%scan = At (q, JV t s) \/
  ((p <- m ;; At (p, JV t (consumed (s ++ q) p)))%scan = Fail JSON_EDEPTH /\ deep).
Proof. intros [->|[-> ?]]; cbn; [left; by rewrite consumed_app | by right]. Qed.

(** A grammatical value is read to its end, unless it is nested too deep for the
    levels that are left, in which case the failure is JSON_EDEPTH. *)
Lemma scan_value_complete fuel : forall depth n w t v q,
  depth <= 33 -> (Z.to_nat (34 - depth) <= fuel)%nat ->
  ws w -> jval n t v -> follow q ->
  scan_value fuel depth (w ++ v ++ q) = At (q, JV t v) \/
  (scan_value fuel depth (w ++ v ++ q) = Fail JSON_EDEPTH /\ 33 - depth < Z.of_nat n).
Proof.
  induction fuel as [|fuel IH]; intros depth n w t v q Hd Hf Hw Hv Hq; [lia|].
  cbn [scan_value]. unfold JSON_MAX_DEPTH. destruct (Z.ltb_spec 32 depth) as [|Hd'].
  { right. split; [done|]. destruct Hv; lia. }
  destruct (jval_head _ _ _ Hv) as (c & r & Ev & Hc).
  assert (Es : skip_ws 0 (w ++ v ++ q) = v ++ q) by (rewrite Ev; by apply skip_ws_to).
  set (value := fun p => _).
  assert (Hval : forall n', n = S n' -> forall w t v q, ws w -> jval n' t v -> follow q ->
            reads (33 - depth < Z.of_nat n) (value (w ++ v ++ q)) q).
  { intros n' -> w' t' v' q' Hw' Hv' Hq'. unfold value.
    destruct (IH (depth + 1) n' w' t' v' q') as [->|[-> ?]]; try done; try lia.
    - by left.
    - right. split; [done|]. lia. }
  rewrite Es. destruct v as [|c' v]; [done|]. injection Ev as -> ->.
  cbn [app]. change (c :: r ++ q) with ((c :: r) ++ q).
  inversion Hv as [? s Hs|? s Hs| | | |? w' Hw'|? es s Hs|? w' Hw'|? ms s Hs]; subst.
  - destruct (jstring_head _ Hs) as [? [= -> ->]]. apply reads_found. left.
    by apply scan_string_complete.
  - destruct (jnumber_head _ Hs) as (? & ? & [= <- <-] & Hn).
    rewrite !(proj2 (Z.eqb_neq _ _)) by lia. apply reads_found. left.
    by apply scan_number_complete.
  - apply (reads_found _ _ (lit "true")). left. apply (scan_lit_complete (lit "true")).
  - apply (reads_found _ _ (lit "false")). left. apply (scan_lit_complete (lit "false")).
  - apply (reads_found _ _ (lit "null")). left. apply (scan_lit_complete (lit "null")).
  - cbn [Z.eqb Pos.eqb]. apply reads_found. left. unfold scan_array. rewrite <- app_assoc.
    cbn [app]. by rewrite skip_ws_to.
  - cbn [Z.eqb Pos.eqb]. apply reads_found. rewrite <- app_assoc.
    eapply scan_array_complete; eauto.
  - cbn [Z.eqb Pos.eqb]. apply reads_found. left. unfold scan_object. rewrite <- app_assoc.
    cbn [app]. by rewrite skip_ws_to.
  - cbn [Z.eqb Pos.eqb]. apply reads_found. rewrite <- app_assoc.
    eapply scan_object_complete; eauto.
Qed.
