(* ===== verification/JsonNav.v ===== *)
(** net/json.c: json_parse against the grammar, and navigation of parsed values. *)

From S2P Require Import Prelude Bytes Json JsonGrammar.

(** ** No scan runs out of fuel *)

Definition scan_err (e : Z) : Prop := e = JSON_EINVAL \/ e = JSON_EDEPTH.

Lemma scan_digits1_err p e : scan_digits1 p = Fail e -> e = JSON_EINVAL.
Proof. destruct p as [|c p]; cbn; [by intros [= <-]|]. destruct (is_digit c); [done|]. by intros [= <-]. Qed.

Lemma scan_number_err p e : scan_number p = Fail e -> e = JSON_EINVAL.
Proof.
  unfold scan_number, sbind.
  destruct (scan_int _) as [p1|e1] eqn:E1.
  - destruct (scan_frac _) as [p2|e2] eqn:E2.
    + destruct (scan_exp _) as [p3|e3] eqn:E3; [by destruct (_ =? _)%nat; [intros [= <-]|]|].
      intros [= ->]. destruct p2 as [|c p2]; [done|]. cbn in E3.
      destruct (_ || _); [|done]. by apply scan_digits1_err in E3.
    + intros [= ->]. destruct p1 as [|c p1]; [done|]. cbn in E2.
      destruct (_ =? _); [|done]. by apply scan_digits1_err in E2.
  - intros [= ->]. destruct (skip_if _ _) as [|c p2]; [by injection E1 as <-|]. cbn [scan_int] in E1.
    destruct (c =? 48); [done|]. by apply scan_digits1_err in E1.
Qed.

Lemma scan_lit_err l p e : scan_lit l p = Fail e -> e = JSON_EINVAL.
Proof.
  unfold scan_lit. destruct (_ <? _)%nat; [by intros [= <-]|].
  case_bool_decide; [done|]. by intros [= <-].
Qed.

Lemma scan_string_shrinks p q : scan_string p = At q -> (length q < length p)%nat.
Proof.
  intros (s & -> & Hs)%scan_string_sound. destruct (jstring_head _ Hs) as [r ->].
  rewrite length_app. cbn. lia.
Qed.

Lemma skip_ws_length k p : (length (skip_ws k p) <= length p)%nat.
Proof. induction p as [|c p IH]; [done|]. cbn [skip_ws]. destruct (_ && _); cbn; lia. Qed.

Lemma scan_value_shrinks fuel depth p q v :
  scan_value fuel depth p = At (q, v) -> (length q < length p)%nat.
Proof.
  intros (w & _ & -> & Hv)%scan_value_sound. destruct (jval_head _ _ _ Hv) as (c & r & -> & _).
  rewrite !length_app. cbn. lia.
Qed.

Section Total.
Variable value : bytes -> scan bytes.
Hypothesis value_err : forall p e, value p = Fail e -> scan_err e.
Hypothesis value_shrinks : forall p q, value p = At q -> (length q < length p)%nat.

Lemma arr_loop_err fuel : forall p e,
  (length p < fuel)%nat -> arr_loop value fuel p = Fail e -> scan_err e.
Proof using value_err value_shrinks.
  induction fuel as [|fuel IH]; intros p e Hf; [lia|]. cbn [arr_loop]. unfold sbind.
  destruct (value p) as [p1|e1] eqn:E1; [|intros [= <-]; eauto].
  apply value_shrinks in E1. pose proof (skip_ws_length 0 p1) as Hs.
  destruct (skip_ws 0 p1) as [|c p2]; [intros [= <-]; by left|]. cbn in Hs.
  destruct (c =? 44); [apply IH; lia|]. destruct (c =? 93); [done|]. intros [= <-]. by left.
Qed.

Lemma obj_loop_err fuel : forall p e,
  (length p < fuel)%nat -> obj_loop value fuel p = Fail e -> scan_err e.
Proof using value_err value_shrinks.
  induction fuel as [|fuel IH]; intros p e Hf; [lia|]. cbn [obj_loop]. unfold sbind.
  pose proof (skip_ws_length 0 p) as Hs0.
  destruct (scan_string _) as [p1|e1] eqn:E1.
  2:{ intros [= <-]. apply scan_string_err in E1 as ->. by left. }
  apply scan_string_shrinks in E1. pose proof (skip_ws_length 0 p1) as Hs1.
  destruct (skip_ws 0 p1) as [|c p2]; [intros [= <-]; by left|]. cbn in Hs1.
  destruct (c =? 58); [|intros [= <-]; by left].
  destruct (value p2) as [p3|e3] eqn:E3; [|intros [= <-]; eauto].
  apply value_shrinks in E3. pose proof (skip_ws_length 0 p3) as Hs3.
  destruct (skip_ws 0 p3) as [|c' p4]; [intros [= <-]; by left|]. cbn in Hs3.
  destruct (c' =? 44); [apply IH; lia|]. destruct (c' =? 125); [done|]. intros [= <-]. by left.
Qed.

Lemma scan_array_err p e : scan_array value p = Fail e -> scan_err e.
Proof using value_err value_shrinks.
  unfold scan_array. pose proof (skip_ws_length 0 p).
  destruct (skip_ws 0 p) as [|c r]; [|destruct (c =? 93); [done|]];
    intros E; eapply arr_loop_err in E; cbn in *; eauto; lia.
Qed.

Lemma scan_object_err p e : scan_object value p = Fail e -> scan_err e.
Proof using value_err value_shrinks.
  unfold scan_object. pose proof (skip_ws_length 0 p).
  destruct (skip_ws 0 p) as [|c r]; [|destruct (c =? 125); [done|]];
    intros E; eapply obj_loop_err in E; cbn in *; eauto; lia.
Qed.
End Total.

Lemma scan_value_err fuel : forall depth p e,
  depth <= 33 -> (Z.to_nat (34 - depth) <= fuel)%nat ->
  scan_value fuel depth p = Fail e -> scan_err e.
Proof.
  induction fuel as [|fuel IH]; intros depth p e Hd Hf; [lia|].
  cbn [scan_value]. unfold JSON_MAX_DEPTH. destruct (Z.ltb_spec 32 depth) as [|Hd'].
  { intros [= <-]. by right. }
  set (value := fun p => _).
  assert (Herr : forall p e, value p = Fail e -> scan_err e).
  { intros p' e'. unfold value, sbind. destruct (scan_value fuel _ p') eqn:E; [done|].
    intros [= <-]. apply IH in E; [done | lia | lia]. }
  assert (Hsh : forall p q, value p = At q -> (length q < length p)%nat).
  { intros p' q'. unfold value, sbind. destruct (scan_value fuel _ p') as [[q'' v]|] eqn:E; [|done].
    intros [= <-]. by apply scan_value_shrinks in E. }
  destruct (skip_ws 0 p) as [|c r]; [intros [= <-]; by left|]. unfold sbind.
  intros H. repeat match type of H with
  | (if ?b then _ else _) = _ => destruct b
  end; match type of H with
  | match ?m with _ => _ end = _ => destruct m as [?|e'] eqn:E; [done|]; injection H as <-
  end; solve [ left; eauto using scan_string_err, scan_lit_err, scan_number_err
             | eapply scan_array_err in E; eauto | eapply scan_object_err in E; eauto ].
Qed.

Lemma scan_value_total p e : scan_value SCAN_FUEL 1 p = Fail e -> scan_err e.
Proof. apply scan_value_err; [lia | unfold SCAN_FUEL; lia]. Qed.

(** ** json_parse accepts exactly the JSON texts *)

Lemma ws_follow w : ws w -> follow w.
Proof. intros. rewrite <- (app_nil_r w). by apply follow_ws. Qed.

Lemma skip_ws_all w : ws w -> skip_ws 0 w = [].
Proof. intros. rewrite <- (app_nil_r w). by apply skip_ws_app. Qed.

Lemma skip_ws_nil p : skip_ws 0 p = [] -> ws p.
Proof. intros E. destruct (skip_ws_spec p) as (w & H & ? & _). rewrite E, app_nil_r in H. by subst. Qed.

Lemma json_parse_ok_sound text v :
  json_parse (Some text) = (JSON_OK, v) -> json_text 32 v text.
Proof.
  unfold json_parse. destruct (scan_value SCAN_FUEL 1 text) as [[q val]|e] eqn:E.
  - apply scan_value_sound in E as (w & Hw & -> & Hv).
    destruct (skip_ws 0 q) eqn:Eq; [|done]. intros [= <-].
    exists w, q. by eauto using skip_ws_nil.
  - apply scan_value_total in E as [->| ->]; done.
Qed.

(** A JSON text of whatever depth is accepted, or refused for its depth only. *)
Lemma json_parse_text n v text :
  json_text n v text ->
  json_parse (Some text) = (JSON_OK, v) \/
  (json_parse (Some text) = (JSON_EDEPTH, no_value) /\ (32 < n)%nat).
Proof.
  intros (w1 & w2 & -> & Hw1 & Hw2 & Hv). unfold json_parse.
  destruct (scan_value_complete SCAN_FUEL 1 n w1 (jtype v) (span v) w2) as [->|[-> ?]];
    auto using ws_follow; try (unfold SCAN_FUEL; lia).
  - left. rewrite skip_ws_all by done. by destruct v.
  - right. split; [done|lia].
Qed.

Lemma json_parse_complete t s : jval 32 t s -> json_parse (Some s) = (JSON_OK, JV t s).
Proof.
  intros H. destruct (json_parse_text 32 (JV t s) s) as [|[_ ?]]; [|done|lia].
  exists [], []. cbn. rewrite app_nil_r. auto.
Qed.

(** ** Decoding a string body *)

(** What json_str and json_str_eq go through: the whole decoding of a body, or
    [None] when it is malformed. *)
Fixpoint decode_from (fuel : nat) (p : bytes) : option bytes :=
  match p with
  | [] => Some []
  | _ =>
      match fuel with
      | O => None
      | S fuel =>
          match decode_one p with
          | Some (b, q) => (b ++.) <$> decode_from fuel q
          | None => None
          end
      end
  end.
Definition decode (p : bytes) : option bytes := decode_from (length p) p.

Lemma utf8_encode_length cp : (1 <= length (utf8_encode cp) <= 4)%nat.
Proof. unfold utf8_encode. repeat case_match; cbn; lia. Qed.

Lemma decode_u_length hi p cp q : decode_u hi p = (cp, q) -> (length q <= length p)%nat.
Proof.
  unfold decode_u. repeat case_match; intros [= <- <-]; try lia. rewrite length_drop. lia.
Qed.

Lemma decode_one_shrinks p b q :
  decode_one p = Some (b, q) -> (length q < length p)%nat /\ (1 <= length b)%nat.
Proof.
  destruct p as [|c p]; [done|]. cbn [decode_one].
  destruct (negb _); [intros [= <- <-]; cbn; lia|]. destruct p as [|e p]; [done|].
  repeat match goal with |- (if ?x =? ?y then Some _ else _) = _ -> _ => destruct (x =? y) end;
    try (intros [= <- <-]; cbn; lia).
  destruct (e =? 117); [|done]. cbv zeta. destruct (hex4 p <? 0); [done|].
  destruct (decode_u _ _) as [cp r] eqn:E. intros [= <- <-].
  apply decode_u_length in E. rewrite length_drop in E. cbn.
  pose proof (utf8_encode_length cp). lia.
Qed.

Lemma decode_from_fuel f1 : forall f2 p,
  (length p <= f1)%nat -> (length p <= f2)%nat -> decode_from f1 p = decode_from f2 p.
Proof.
  induction f1 as [|f1 IH]; intros [|f2] [|c p] H1 H2; cbn in H1, H2; try lia; try done.
  cbn [decode_from]. destruct (decode_one (c :: p)) as [[b q]|] eqn:E; [|done].
  apply decode_one_shrinks in E as [E _]. cbn [mbind option_bind length] in *.
  by rewrite (IH f2 q) by lia.
Qed.

Lemma decode_step p b q :
  decode_one p = Some (b, q) -> decode p = (b ++.) <$> decode q.
Proof.
  intros E. pose proof (decode_one_shrinks _ _ _ E) as [Hl _].
  unfold decode. destruct p as [|c p]; [done|]. cbn [length decode_from]. rewrite E. cbn in *.
  rewrite (decode_from_fuel _ (length q)) by lia. by destruct (decode_from _ q).
Qed.

Lemma decode_bad p : p <> [] -> decode_one p = None -> decode p = None.
Proof. unfold decode. destruct p as [|c p]; [done|]. intros _ E. cbn [length decode_from]. by rewrite E. Qed.

Lemma match_bytes_spec b s : match_bytes b s = Some (drop (length b) s) /\ take (length b) s = b
                             \/ match_bytes b s = None /\ forall r, s <> b ++ r.
Proof.
  revert s. induction b as [|x b IH]; intros s; cbn [match_bytes length]; [left; done|].
  destruct s as [|c s]; [by right|]. destruct (Z.eqb_spec c x) as [->|].
  - cbn. destruct (IH s) as [[-> E]|[-> H]]; [left | right].
    + split; [done|]. by rewrite E.
    + split; [done|]. intros r [= E]. by apply (H r).
  - right. split; [done|]. by intros r [= ?].
Qed.

Lemma str_eq_loop_spec fuel : forall p s,
  (length p <= fuel)%nat -> str_eq_loop fuel p s = bool_decide (decode p = Some s).
Proof.
  induction fuel as [|fuel IH]; intros [|c p] s Hf; cbn in Hf; try lia.
  1,2: apply bool_decide_ext; unfold decode; cbn; naive_solver.
  cbn [str_eq_loop]. destruct (decode_one (c :: p)) as [[b q]|] eqn:E.
  2:{ by rewrite decode_bad, bool_decide_false. }
  pose proof (decode_one_shrinks _ _ _ E) as [Hl _]. cbn in Hl. rewrite (decode_step _ _ _ E).
  destruct (match_bytes_spec b s) as [[-> Hb]|[-> Hb]].
  - rewrite IH by lia. apply bool_decide_ext.
    rewrite <- (take_drop (length b) s) at 2. rewrite Hb.
    destruct (decode q) as [r|]; cbn; [|naive_solver]. split; [by intros [= ->]|].
    intros [= H%app_inv_head]. by subst.
  - rewrite bool_decide_false; [done|]. destruct (decode q) as [r|]; cbn; [|done].
    intros [= <-]. by apply (Hb r).
Qed.

Lemma body_jstring b : body (JV T_STRING (QUOTE :: b ++ [QUOTE])) = b.
Proof.
  unfold body. cbn. rewrite length_app. cbn.
  replace (length b + 1 - 1)%nat with (length b) by lia. apply take_app_length.
Qed.

Lemma body_length v : (length (body v) <= length (span v))%nat.
Proof. unfold body. rewrite length_take, length_drop. lia. Qed.

Lemma json_str_eq_spec k s :
  jstring k -> json_str_eq (JV T_STRING k) s = bool_decide (decode (body (JV T_STRING k)) = Some s).
Proof.
  intros (b & -> & _). unfold json_str_eq. rewrite bool_decide_true by done. cbn [negb orb].
  rewrite (proj2 (Z.ltb_ge _ _)).
  - apply str_eq_loop_spec. apply body_length.
  - cbn [span]. autorewrite with zlen. pose proof (zlen_nonneg b). lia.
Qed.

(** ** Navigation *)

(** The members of an object, or the elements of an array under no name, as they
    stand between the brackets. *)
Definition jitems (is_obj : bool) (n : nat) (its : list (json_value * json_value)) (s : bytes)
  : Prop :=
  if is_obj then jmembers n its s
  else exists es, its = (no_value,.) <$> es /\ jelems n es s.

Definition closer (is_obj : bool) : Z := if is_obj then ch "}" else ch "]".
Definition opener (is_obj : bool) : Z := if is_obj then ch "{" else ch "[".
Definition container (is_obj : bool) : json_type := if is_obj then T_OBJECT else T_ARRAY.

(** [v] is an object or array within the nesting limit that holds [its]. *)
Definition holds (is_obj : bool) (v : json_value) (its : list (json_value * json_value)) : Prop :=
  jtype v = container is_obj /\
  exists n s, (n <= 31)%nat /\ span v = opener is_obj :: s ++ [closer is_obj] /\
              ((its = [] /\ ws s) \/ jitems is_obj n its s).

(** Left-to-right search through the items: what [walk] computes. *)
Section WalkSpec.
Variables (is_obj : bool) (key : option bytes) (index : Z) (counting : bool).

Definition hits (i : Z) (k : json_value) : bool :=
  match key with
  | Some key => is_obj && json_str_eq k key
  | None => i =? index
  end.

Fixpoint search (its : list (json_value * json_value)) (i : Z) (k0 v0 : json_value) : walked :=
  match its with
  | [] => walk_end counting k0 v0 i
  | (k, v) :: its =>
      if hits i k && negb counting then Walked JSON_OK k v i
      else search its (i + 1) (if hits i k then k else k0) (if hits i k then v else v0)
  end.
End WalkSpec.

Lemma skip_ws1_app w q : ws w -> q <> [] -> skip_ws 1 (w ++ q) = skip_ws 1 q.
Proof.
  intros Hw Hq. induction Hw as [|c w Hc _ IH]; [done|]. cbn [app skip_ws].
  rewrite Hc, (proj2 (Nat.ltb_lt _ _)), IH; [done|].
  destruct q; [done|]. cbn. rewrite length_app. cbn. lia.
Qed.

Lemma skip_ws1_to w c q : ws w -> is_ws c = false -> skip_ws 1 (w ++ c :: q) = c :: q.
Proof.
  intros. rewrite skip_ws1_app by done. cbn [skip_ws].
  by replace (is_ws c) with false; rewrite andb_false_r.
Qed.

Lemma skip_ws1_one c : skip_ws 1 [c] = [c].
Proof. done. Qed.

Lemma closer_props o : is_ws (closer o) = false /\ follow [closer o].
Proof. by destruct o. Qed.

(** The front of the items, once the white space before it is gone. *)
Lemma jitems_front o n its s : jitems o n its s ->
  exists w c r, s = w ++ c :: r /\ ws w /\ is_ws c = false /\ jitems o n its (c :: r).
Proof.
  destruct o; cbn [jitems].
  - intros (w & r & -> & ? & ?)%jmembers_trim. exists w, QUOTE, r. by split_and!.
  - intros (es & -> & (w & c & r & -> & ? & ? & _ & ?)%jelems_trim).
    exists w, c, r. split_and!; try done. eauto.
Qed.

Definition next_items (o : bool) (n : nat) its (tail : bytes) : Prop :=
  (its = [] /\ tail = [closer o]) \/
  (exists s, tail = ch "," :: s ++ [closer o] /\ jitems o n its s).

Lemma jitems_step o n its c r : is_ws c = false -> jitems o n its (c :: r) ->
  exists k v its' w3 w4 tail,
    its = (k, v) :: its' /\ ws w3 /\ ws w4 /\ jval n (jtype v) (span v) /\
    walk_key o (c :: r ++ [closer o]) = At (k, w3 ++ span v ++ w4 ++ tail) /\
    next_items o n its' tail.
Proof.
  intros Hc. change (c :: r ++ [closer o]) with ((c :: r) ++ [closer o]). destruct o; cbn [jitems].
  - intros H. inversion H as [? w1 k w2 w3 t v w4 Hw1 Hk Hw2 Hw3 Hv Hw4 E1 E2 E3
                             |? w1 k w2 w3 t v w4 ms s Hw1 Hk Hw2 Hw3 Hv Hw4 Hm E1 E2 E3]; subst.
    all: assert (w1 = []) as -> by (destruct Hw1 as [|c' w' Hc']; [done|]; cbn in E3; congruence).
    all: cbn [app]; repeat (rewrite <- app_assoc; cbn [app]); unfold walk_key;
         rewrite scan_string_complete by done; cbn [sbind];
         rewrite skip_ws1_to by done; rewrite consumed_app;
         rewrite (proj2 (Nat.ltb_lt _ _)) by (cbn; rewrite !length_app; cbn; lia).
    + exists (JV T_STRING k), (JV t v), [], w3, w4, [125]. split_and!; try done. by left.
    + exists (JV T_STRING k), (JV t v), ms, w3, w4, (44 :: s ++ [125]).
      split_and!; try done. right. eauto.
  - intros (es & -> & H). inversion H as [? w1 t v w2 Hw1 Hv Hw2 E1 E2 E3
                                         |? w1 t v w2 es' s Hw1 Hv Hw2 Hm E1 E2 E3]; subst.
    all: assert (w1 = []) as -> by (destruct Hw1 as [|c' w' Hc']; [done|]; cbn in E3; congruence).
    all: cbn [app]; repeat (rewrite <- app_assoc; cbn [app]).
    + exists no_value, (JV t v), [], [], w2, [93]. split_and!; auto. by left.
    + exists no_value, (JV t v), ((no_value,.) <$> es'), [], w2, (44 :: s ++ [93]).
      split_and!; auto. right. exists s. split; [done|]. by exists es'.
Qed.

Lemma walk_loop_search o key index counting n : (n <= 31)%nat -> forall its fuel s i k0 v0,
  (length its <= fuel)%nat -> jitems o n its s ->
  walk_loop o key index counting fuel (skip_ws 1 (s ++ [closer o])) i k0 v0
  = search o key index counting its i k0 v0.
Proof.
  intros Hn its. induction its as [its IH] using (induction_ltof1 _ length); unfold ltof in IH.
  intros fuel s i k0 v0 Hf H.
  destruct (jitems_front _ _ _ _ H) as (w & c & r & -> & Hw & Hc & H').
  rewrite <- app_assoc. cbn [app]. rewrite skip_ws1_to by done.
  destruct (jitems_step _ _ _ _ _ Hc H')
    as (k & v & its' & w3 & w4 & tail & -> & Hw3 & Hw4 & Hv & Hk & Ht).
  cbn in Hf. destruct fuel as [|fuel]; [lia|]. cbn [walk_loop search].
  rewrite (proj2 (Nat.leb_gt _ _)) by (cbn; rewrite length_app; cbn; lia). rewrite Hk.
  assert (follow (w4 ++ tail)) as Hfol.
  { apply follow_ws; [done|]. destruct Ht as [[_ ->]|(s' & -> & _)]; [apply closer_props | done]. }
  destruct (scan_value_complete SCAN_FUEL 1 n w3 (jtype v) (span v) (w4 ++ tail))
    as [->|[_ ?]]; try done; try (unfold SCAN_FUEL; lia).
  replace (JV (jtype v) (span v)) with v by (by destruct v). fold (hits o key index i k).
  destruct (hits o key index i k && negb counting); [done|].
  destruct Ht as [[-> ->]|(s' & -> & Hs')].
  - rewrite skip_ws1_to by (try done; apply closer_props). done.
  - rewrite skip_ws1_to by done. rewrite (proj2 (Nat.ltb_lt _ _)) by (cbn; rewrite length_app; cbn; lia).
    cbn [andb Z.eqb Pos.eqb]. apply IH; [cbn; lia | lia | done].
Qed.

(** Navigation is a search through the items in the order they are written. *)
Lemma walk_search o v its key index counting :
  holds o v its ->
  walk v key index counting = search o key index counting its 0 no_value no_value.
Proof.
  intros (Ht & n & s & Hn & Es & H). unfold walk. rewrite Ht, Es.
  replace (_ || _) with true by (by destruct o).
  replace (bool_decide (container o = T_OBJECT)) with o by (by destruct o).
  change (drop 1 (opener o :: s ++ [closer o])) with (s ++ [closer o]).
  destruct H as [[-> Hw]|H].
  - rewrite skip_ws1_to by (try done; apply closer_props). cbn [length walk_loop search]. done.
  - eapply walk_loop_search; [done| |done].
    assert (length its <= length s)%nat; [|cbn; rewrite length_app; lia].
    destruct o; cbn in H; [by eapply jmembers_length|]. destruct H as (es & -> & H).
    rewrite length_fmap. by eapply jelems_length.
Qed.

(** Every object or array of an accepted text holds items. *)
Lemma jval_holds o n s : (n <= 32)%nat -> jval n (container o) s ->
  exists its, holds o (JV (container o) s) its.
Proof.
  intros Hn H. destruct o; inversion H; subst; try lia.
  - exists []. split; [done|]. eexists 0%nat, _. split_and!; [lia | done | by left].
  - eexists. split; [done|]. eexists _, _. split_and!; [|done | by right]. lia.
  - exists []. split; [done|]. eexists 0%nat, _. split_and!; [lia | done | by left].
  - eexists. split; [done|]. eexists _, _. split_and!; [|done | right; cbn; eauto]. lia.
Qed.

(** The names of members are strings and the values are values within the limit. *)
Definition item_ok (o : bool) (kv : json_value * json_value) : Prop :=
  (o = true -> jtype kv.1 = T_STRING /\ jstring (span kv.1)) /\
  exists n, (n <= 31)%nat /\ jval n (jtype kv.2) (span kv.2).

Lemma holds_items_ok o v its : holds o v its -> Forall (item_ok o) its.
Proof.
  intros (_ & n & s & Hn & _ & [[-> _]|H]); [constructor|]. destruct o; cbn in H.
  - induction H; constructor; try constructor; cbn; eauto.
  - destruct H as (es & -> & H).
    induction H; constructor; try (split; [done | cbn; eauto]); auto.
Qed.

Lemma search_counting o key index its : forall i k v,
  w_rc (search o key index true its i k v) = JSON_OK /\
  w_n (search o key index true its i k v) = i + Z.of_nat (length its).
Proof.
  induction its as [|[k' v'] its IH]; intros i k v; cbn [search].
  - cbn. lia.
  - rewrite andb_false_r. destruct (IH (i + 1) (if hits o key index i k' then k' else k)
      (if hits o key index i k' then v' else v)) as [-> ->]. cbn. lia.
Qed.

Lemma search_index o its : forall index i k v,
  i <= index ->
  search o None index false its i k v =
  match its !! Z.to_nat (index - i) with
  | Some (k', v') => Walked JSON_OK k' v' index
  | None => Walked JSON_ENOENT k v (i + Z.of_nat (length its))
  end.
Proof.
  induction its as [|[k' v'] its IH]; intros index i k v Hi; cbn [search hits].
  - by rewrite lookup_nil, Z.add_0_r.
  - destruct (Z.eqb_spec i index) as [->|]; cbn [andb negb].
    + by rewrite Z.sub_diag.
    + rewrite IH by lia.
      replace (Z.to_nat (index - i)) with (S (Z.to_nat (index - (i + 1)))) by lia.
      cbn [lookup list_lookup length]. rewrite Nat2Z.inj_succ.
      destruct (its !! _) as [[]|]; [done|]. f_equal. lia.
Qed.

(** The first member whose decoded name is [key]. *)
Definition named (key : bytes) (kv : json_value * json_value) : bool :=
  bool_decide (decode (body kv.1) = Some key).

Lemma search_key key its : Forall (item_ok true) its -> forall i k v,
  (fun w => (w_rc w, w_val w)) (search true (Some key) 0 false its i k v) =
  match find (named key) its with
  | Some kv => (JSON_OK, kv.2)
  | None => (JSON_ENOENT, v)
  end.
Proof.
  induction 1 as [|[k' v'] its [Hk _] _ IH]; intros i k v; cbn [search find]; [done|].
  destruct (Hk eq_refl) as [Ht Hs]. cbn in Ht, Hs. unfold hits, named at 1. cbn [andb fst].
  destruct k' as [t s]. cbn in Ht, Hs. subst t. rewrite json_str_eq_spec by done.
  destruct (bool_decide _); cbn [andb negb]; [done | apply IH].
Qed.

Lemma walk_key_shrinks o p k q : walk_key o p = At (k, q) -> (length q <= length p)%nat.
Proof.
  unfold walk_key. destruct o; [|by intros [= <- <-]]. unfold sbind.
  destruct (scan_string p) as [p1|] eqn:E; [|done]. apply scan_string_shrinks in E.
  pose proof (skip_ws_length 1 p1). destruct (skip_ws 1 p1) as [|c r]; [done|].
  destruct (_ && _); [|done]. intros [= <- <-]. cbn in *. lia.
Qed.

(** On any bytes at all, a walk ends with a code of the C. *)
Definition nav_code (rc : Z) : Prop := rc = JSON_OK \/ rc = JSON_ENOENT \/ rc = JSON_EINVAL.

Lemma walk_end_code c k v i : nav_code (w_rc (walk_end c k v i)).
Proof. unfold nav_code. destruct c; cbn; auto. Qed.
Lemma nav_einval k v i : nav_code (w_rc (Walked JSON_EINVAL k v i)).
Proof. unfold nav_code. cbn. auto. Qed.

Lemma walk_loop_total o key index counting fuel : forall p i k v,
  (length p <= fuel)%nat ->
  nav_code (w_rc (walk_loop o key index counting fuel p i k v)).
Proof.
  induction fuel as [|fuel IH]; intros p i k v Hf; cbn [walk_loop].
  { destruct p; [|cbn in Hf; lia]. apply walk_end_code. }
  destruct (_ <=? _)%nat; [apply walk_end_code|].
  destruct (walk_key o p) as [[k' q]|] eqn:Ek; [|apply nav_einval]. apply walk_key_shrinks in Ek.
  destruct (scan_value SCAN_FUEL 1 q) as [[q' v']|] eqn:Ev; [|apply nav_einval].
  apply scan_value_shrinks in Ev. pose proof (skip_ws_length 1 q').
  set (hit := match key with Some key => _ | None => _ end). destruct (hit && _); [by left|].
  destruct (skip_ws 1 q') as [|c r]; [apply walk_end_code|].
  destruct (_ && _); [|apply walk_end_code].
  apply IH. pose proof (skip_ws_length 1 r). cbn in *. lia.
Qed.

Lemma walk_total v key index counting : w_rc (walk v key index counting) <> JSON_SPIN.
Proof.
  unfold walk. destruct (_ || _); [|done]. set (l := skip_ws 1 _).
  assert (nav_code (w_rc (walk_loop (bool_decide (jtype v = T_OBJECT)) key index counting
                  (length (span v)) l 0 no_value no_value)))
    as [->|[->| ->]]; [|done..].
  apply walk_loop_total. unfold l. etrans; [apply skip_ws_length|]. rewrite length_drop. lia.
Qed.

(** ** Claims *)

(** C7: json_parse accepts a text exactly when it is one JSON value of RFC 8259,
    nested at most 32 deep, with white space around it, and the value it locates is
    that one: its type and exactly its bytes. *)
Theorem json_parse_exact text v :
  json_parse (Some text) = (JSON_OK, v) <-> json_text 32 v text.
Proof.
  split; [apply json_parse_ok_sound|].
  intros H. destruct (json_parse_text _ _ _ H) as [|[_ ?]]; [done | lia].
Qed.

(** Json_parse always returns JSON_OK, JSON_EINVAL or JSON_EDEPTH (it never
    fails to return, whatever the bytes), and a well-formed text whose only fault is
    to nest deeper than JSON_MAX_DEPTH is refused with JSON_EDEPTH, not JSON_EINVAL. *)
Theorem json_parse_error_codes text n v :
  json_text n v text -> (forall v', ~ json_text 32 v' text) ->
  json_parse (Some text) = (JSON_EDEPTH, no_value) /\
  forall text', (json_parse text').1 = JSON_OK \/ (json_parse text').1 = JSON_EINVAL \/
                (json_parse text').1 = JSON_EDEPTH.
Proof.
  intros H Hno. split.
  - destruct (json_parse_text _ _ _ H) as [Hp|[Hp _]]; [|done].
    by apply json_parse_ok_sound, Hno in Hp.
  - intros [t|]; [|by right; left]. unfold json_parse.
    destruct (scan_value SCAN_FUEL 1 t) as [[q val]|e] eqn:E.
    + destruct (skip_ws 0 q); [by left | by right; left].
    + apply scan_value_total in E as [->| ->]; [by right; left | by right; right].
Qed.

(** [n] brackets around nothing. *)
Fixpoint nest (n : nat) : bytes :=
  match n with
  | O => [ch "["; ch "]"]
  | S n => ch "[" :: nest n ++ [ch "]"]
  end.

Lemma nest_jval n : jval (S n) T_ARRAY (nest n).
Proof.
  induction n as [|n IH]; cbn [nest].
  - by apply (jv_array0 0 []).
  - apply (jv_array _ [JV T_ARRAY (nest n)]). rewrite <- (app_nil_r (nest n)) at 2.
    by apply (je_one _ [] T_ARRAY (nest n) []).
Qed.

Lemma json_parse_error_codes_witness :
  json_parse (Some (nest 32)) = (JSON_EDEPTH, no_value).
Proof.
  apply (json_parse_error_codes (nest 32) 33 (JV T_ARRAY (nest 32))).
  - exists [], []. split_and!; [reflexivity | apply ws_nil | apply ws_nil | apply nest_jval].
  - intros v' [E|[_ ?]]%json_parse_text; [|lia].
    assert (json_parse (Some (nest 32)) = (JSON_EDEPTH, no_value)) as E' by (vm_compute; reflexivity).
    by rewrite E' in E.
Defined.


Definition demo_array : json_value := JV T_ARRAY (lit "[ 7,[] ]").

