(* ===== verification/JsonText.v ===== *)
(** net/json.c: decoding strings and integers out of accepted values, and the
    escaping that undoes it. *)

From S2P Require Import Prelude Bytes Json JsonWriter JsonGrammar JsonNav.

(** ** Buffers, a little more *)

(** A longer store hides a shorter one at the same place. *)
Lemma patch_over off s t b :
  0 <= off -> zlen s <= zlen t -> off + zlen t <= zlen b ->
  patch off t (patch off s b) = patch off t b.
Proof.
  unfold zlen, patch. intros H0 Hst Hb. set (o := Z.to_nat off).
  assert (Hl : length (take o b) = o) by (rewrite length_take; lia).
  rewrite (take_app_le (take o b)), take_take, Nat.min_id by lia. do 2 f_equal.
  rewrite (drop_app_ge (take o b)), Hl by lia.
  rewrite (drop_app_ge s), drop_drop by lia. f_equal. lia.
Qed.

(** ** json_str *)

Lemma jchars_nth b : jchars b -> forall h1 h2 h3 h4 r,
  b = ch "\" :: ch "u" :: h1 :: h2 :: h3 :: h4 :: r -> jchars r.
Proof.
  intros [] h1' h2' h3' h4' r E; simplify_eq; try done.
Qed.

Lemma hexval_range h : -1 <= hexval h < 16.
Proof. unfold hexval. repeat case_match; b2p; lia. Qed.

(** A well-formed body decodes character by character. *)
Lemma jchars_step b : jchars b -> b <> [] ->
  exists x q, decode_one b = Some (x, q) /\ jchars q /\ (length x <= 4)%nat.
Proof.
  intros [|c s ??? Hs|e s He Hs|h1 h2 h3 h4 s H1 H2 H3 H4 Hs] Hne; [done| | |].
  - exists [c], s. cbn [decode_one]. rewrite (proj2 (Z.eqb_neq c 92)) by done. cbn. auto with lia.
  - unfold simple_escape in He. rewrite !orb_true_iff in He.
    decompose [or] He; b2p; subst; cbn; eexists _, _; (split; [reflexivity|]); cbn; auto with lia.
  - cbn [decode_one negb Z.eqb Pos.eqb]. cbv zeta.
    assert (0 <= hex4 (h1 :: h2 :: h3 :: h4 :: s)) as Hh.
    { cbn [hex4]. rewrite !(proj2 (Z.ltb_ge (hexval _) 0)) by done. cbn [orb].
      repeat (apply Z.lor_nonneg; split; [apply Z.shiftl_nonneg | done]). done. }
    rewrite (proj2 (Z.ltb_ge _ 0) Hh).
    change (drop 4 (h1 :: h2 :: h3 :: h4 :: s)) with s.
    destruct (decode_u (hex4 (h1 :: h2 :: h3 :: h4 :: s)) s) as [cp q] eqn:E. exists (utf8_encode cp), q.
    split; [done|]. split; [|apply utf8_encode_length].
    unfold decode_u in E. repeat case_match; injection E as <- <-; try done. b2p.
    case_bool_decide as Hp; [|done].
    destruct s as [|x1 [|x2 [|x3 [|x4 [|x5 [|x6 q]]]]]]; cbn in Hp |- *; try done;
      injection Hp as -> ->; try (unfold zlen in *; cbn in *; lia).
    by eapply jchars_nth.
Qed.

Lemma jchars_decode b : jchars b -> exists d, decode b = Some d.
Proof.
  induction b as [b IH] using (induction_ltof1 _ length); unfold ltof in IH. intros Hb.
  destruct b as [|c b]; [by exists []|].
  destruct (jchars_step _ Hb) as (x & q & E & Hq & _); [done|].
  pose proof (decode_one_shrinks _ _ _ E) as [Hl _].
  destruct (IH q Hl Hq) as [d Hd]. rewrite (decode_step _ _ _ E), Hd. eexists. reflexivity.
Qed.

(** What the loop of json_str leaves behind: a prefix of the decoding, cut only when
    fewer than four bytes of the room are left. *)
Lemma str_loop_spec base cap p : jchars p -> forall fuel off b d,
  (length p <= fuel)%nat -> 0 <= base -> 0 <= off < cap -> base + cap <= zlen b ->
  decode p = Some d ->
  exists rc out rest, d = out ++ rest /\
    str_loop fuel base cap p off b = Ok (rc, off + zlen out) (patch (base + off) out b) /\
    off + zlen out < cap /\
    ((rc = JSON_OK /\ rest = []) \/
     (rc = JSON_ENOSPC /\ cap <= off + zlen d /\ cap <= off + zlen out + 4)).
Proof.
  induction p as [p IH] using (induction_ltof1 _ length); unfold ltof in IH.
  intros Hp fuel off b d Hf Hbase Hoff Hcap Hd.
  destruct p as [|c p].
  { injection Hd as <-. exists JSON_OK, [], []. destruct fuel; cbn [str_loop]; rewrite patch_nil;
      (split_and!; [done| by rewrite zlen_nil, Z.add_0_r | rewrite zlen_nil; lia | by left]). }
  destruct fuel as [|fuel]; [cbn in Hf; lia|].
  destruct (jchars_step _ Hp) as (x & q & E & Hq & Hx4); [done|].
  pose proof (decode_one_shrinks _ _ _ E) as [Hl Hx1]. cbn in Hf, Hl.
  rewrite (decode_step _ _ _ E) in Hd. destruct (decode q) as [dq|] eqn:Edq; [|done].
  cbn in Hd. injection Hd as <-. cbn [str_loop]. rewrite E.
  destruct (Z.leb_spec cap (off + zlen x)) as [Hfull|Hroom].
  - exists JSON_ENOSPC, [], (x ++ dq). autorewrite with zlen. rewrite patch_nil, Z.add_0_r.
    pose proof (zlen_nonneg dq). split_and!; [done | done | lia | right].
    split_and!; [done | lia |]. unfold zlen in *. lia.
  - pose proof (zlen_nonneg x). erewrite bind_ok by (apply pokes_ok; lia).
    destruct (IH q Hl Hq fuel (off + zlen x) (patch (base + off) x b) dq)
      as (rc & out & rest & -> & Er & Hlt & Hcase); try done; try lia.
    { rewrite zlen_patch; lia. }
    exists rc, (x ++ out), rest. autorewrite with zlen in *. pose proof (zlen_nonneg out).
    rewrite Er, Z.add_assoc, patch_patch by lia. rewrite app_assoc.
    split_and!; [done | by rewrite Z.add_assoc | lia |].
    destruct Hcase as [[-> ->]|(-> & ? & ?)]; [by left | right; split_and!; [done | lia | lia]].
Qed.

Lemma json_str_spec k base cap b d :
  jstring k -> 0 <= base -> 1 <= cap -> base + cap <= zlen b ->
  decode (body (JV T_STRING k)) = Some d ->
  exists rc out rest, d = out ++ rest /\
    json_str (JV T_STRING k) base cap b = Ok (rc, zlen out) (patch base (out ++ [0]) b) /\
    zlen out < cap /\
    ((rc = JSON_OK /\ rest = []) \/
     (rc = JSON_ENOSPC /\ cap <= zlen d /\ cap <= zlen out + 4)).
Proof.
  intros Hk Hbase Hc Hb Hd. destruct Hk as (s & -> & Hs). rewrite body_jstring in Hd.
  unfold json_str. rewrite (proj2 (Z.eqb_neq _ _)) by lia.
  erewrite bind_ok by (apply poke_ok; lia).
  rewrite bool_decide_true by done. cbn [negb orb span]. rewrite (proj2 (Z.ltb_ge _ _)).
  2:{ autorewrite with zlen. pose proof (zlen_nonneg s). lia. }
  rewrite body_jstring.
  destruct (str_loop_spec base cap s Hs (length (QUOTE :: s ++ [QUOTE])) 0 (patch base [0] b) d)
    as (rc & out & rest & -> & Er & Hlt & Hcase); try done; try lia.
  { cbn. rewrite length_app. lia. }
  { rewrite zlen_patch; autorewrite with zlen; lia. }
  rewrite !Z.add_0_l, ?Z.add_0_r in *. pose proof (zlen_nonneg out).
  erewrite bind_ok by exact Er. cbn [snd].
  assert (Hz : zlen (patch base [0] b) = zlen b) by (rewrite zlen_patch; autorewrite with zlen; lia).
  erewrite bind_ok by (apply poke_ok; rewrite zlen_patch; autorewrite with zlen; lia).
  exists rc, out, rest. split_and!; [done| | done | done]. unfold ret. f_equal.
  rewrite patch_patch by (autorewrite with zlen; lia).
  apply patch_over; autorewrite with zlen; lia.
Qed.

(** ** json_int *)

(** The number a run of digits spells, after [acc]. *)
Definition dec_from (acc : Z) (ds : bytes) : Z := fold_left (fun a c => 10 * a + (c - ch "0")) ds acc.
Definition dec (ds : bytes) : Z := dec_from 0 ds.

Lemma is_digit_range c : is_digit c = true -> 48 <= c <= 57.
Proof. unfold is_digit. intros. b2p. lia. Qed.

Lemma dec_from_grows ds : forall a, digits ds -> 0 <= a -> a <= dec_from a ds.
Proof.
  induction ds as [|c ds IH]; intros a Hd Ha; cbn; [lia|].
  apply Forall_cons_iff in Hd as [Hc%is_digit_range Hd].
  specialize (IH (10 * a + (c - 48)) Hd). unfold dec_from in IH. lia.
Qed.

Lemma dec_from_app ds es a : dec_from a (ds ++ es) = dec_from (dec_from a ds) es.
Proof. apply fold_left_app. Qed.

Lemma int_loop_spec limit ds : forall q mag any,
  0 <= limit < 2 ^ 63 + 1 -> digits ds -> no_digit q -> 0 <= mag <= limit ->
  int_loop limit (ds ++ q) mag any =
  if limit <? dec_from mag ds then None
  else Some (dec_from mag ds, any || bool_decide (ds <> []), q).
Proof.
  induction ds as [|c ds IH]; intros q mag any Hl Hd Hq Hm.
  - cbn. rewrite (proj2 (Z.ltb_ge _ _)), orb_false_r by lia.
    destruct q as [|c q]; [done|]. cbn in *. by rewrite Hq.
  - apply Forall_cons_iff in Hd as [Hc Hd]. pose proof (is_digit_range c Hc).
    cbn [app int_loop]. rewrite Hc.
    change (dec_from mag (c :: ds)) with (dec_from (10 * mag + (c - 48)) ds).
    pose proof (dec_from_grows ds (10 * mag + (c - 48)) Hd ltac:(lia)).
    pose proof (Z.div_mod limit 10 ltac:(lia)). pose proof (Z.mod_pos_bound limit 10 ltac:(lia)).
    destruct (Z.ltb_spec (limit / 10) mag).
    { rewrite (proj2 (Z.ltb_lt _ _)) by lia. done. }
    replace (wrap64 (wrap64 (mag * 10) + (c - 48))) with (10 * mag + (c - 48)) by (unwrap64; lia).
    cbv zeta. destruct (Z.ltb_spec limit (10 * mag + (c - 48))).
    { rewrite (proj2 (Z.ltb_lt _ _)) by lia. done. }
    rewrite IH by (try done; lia). rewrite orb_true_r. done.
Qed.

(** The integer a number of the grammar stands for, when it has no exponent. *)
Definition signed (m i : bytes) : Z := if bool_decide (m = []) then dec i else - dec i.
Definition int64 (z : Z) : Prop := - 2 ^ 63 <= z < 2 ^ 63.
#[export] Instance int64_dec z : Decision (int64 z).
Proof. unfold int64. apply _. Defined.

Lemma jint_digits i : jint i -> digits i /\ i <> [].
Proof. intros [->|(c & ds & -> & _ & H)]; [split; [by constructor; [|constructor] | done] | done]. Qed.

Lemma sgn64_small z : 0 <= z < 2 ^ 63 -> sgn 64 z = z.
Proof. intros. unfold sgn. rewrite wrap64_small by lia. rewrite (proj2 (Z.ltb_lt _ _)) by lia. done. Qed.

Lemma int_tail f e : jfrac f -> jexp e ->
  (match f ++ e with c :: r => if c =? ch "." then skip_digits r else f ++ e | [] => f ++ e end)
  = e.
Proof.
  intros Hf He. assert (no_digit e /\ forall r, e <> ch "." :: r) as [Hn Hdot].
  { rewrite <- (app_nil_r e). by apply jexp_no_digit. }
  destruct Hf as [->|(ds & -> & _ & Hd)].
  - cbn. destruct e as [|c e]; [done|]. destruct (Z.eqb_spec c 46) as [->|]; [|done].
    by destruct (Hdot e).
  - cbn. by apply skip_digits_app.
Qed.

Lemma json_int_spec m i f e :
  (m = [] \/ m = [ch "-"]) -> jint i -> jfrac f -> jexp e ->
  json_int (JV T_NUMBER (m ++ i ++ f ++ e)) =
  if bool_decide (e = [] /\ int64 (signed m i)) then (JSON_OK, Some (signed m i))
  else (JSON_EINVAL, None).
Proof.
  intros Hm Hi Hf He. unfold json_int. rewrite bool_decide_true by done. cbn [negb span].
  destruct (jint_ne i Hi) as (c & r & Ei & Hc). destruct (jint_digits i Hi) as [Hid Hine].
  set (neg := match _ with _ :: _ => _ | [] => _ end). set (p := skip_if _ _).
  assert (neg = bool_decide (m <> []) /\ p = i ++ f ++ e) as [-> ->].
  { subst neg p. destruct Hm as [->| ->]; [|done]. rewrite Ei. cbn.
    by rewrite (proj2 (Z.eqb_neq _ _)) by lia. }
  set (limit := if bool_decide (m <> []) then 0x8000000000000000 else 0x7FFFFFFFFFFFFFFF).
  assert (Hn : no_digit (f ++ e)).
  { destruct Hf as [->|(?&->&?)]; [|done]. cbn.
    rewrite <- (app_nil_r e). by apply jexp_no_digit. }
  assert (Hl : 0 <= limit < 2 ^ 63 + 1) by (unfold limit; case_match; lia).
  rewrite int_loop_spec by (try done; lia). fold (dec i).
  pose proof (dec_from_grows i 0 Hid ltac:(lia)) as Hpos. fold (dec i) in Hpos.
  assert (Hfit : int64 (signed m i) <-> dec i <= limit).
  { unfold int64, signed, limit. destruct Hm as [->| ->]; cbn; lia. }
  destruct (Z.ltb_spec limit (dec i)).
  { rewrite bool_decide_false; [done|]. intros [_ ?%Hfit]. lia. }
  rewrite (bool_decide_true (i <> [])) by done. cbn [orb negb]. cbv zeta.
  rewrite int_tail by done. destruct e as [|x e].
  2:{ by rewrite (bool_decide_false (x :: e = [] /\ _)) by (by intros [? _]). }
  cbn [length Nat.ltb Nat.leb]. rewrite (bool_decide_true ([] = [] /\ _)) by (split; [done | by apply Hfit]).
  unfold signed, limit in *. destruct Hm as [->| ->]; cbn in *.
  - rewrite sgn64_small by lia. done.
  - destruct (Z.eqb_spec (dec i) 9223372036854775808) as [->|]; [done|].
    rewrite sgn64_small by lia. done.
Qed.

(** ** Escaping undone *)

Definition escaped (s : bytes) : bytes := s ≫= escape_byte.

Ltac byte_cases c :=
  repeat match goal with
  | H : 0 <= c < ?n |- _ =>
      let m := eval vm_compute in (n - 1) in
      destruct (Z.eq_dec c m) as [->|];
      [clear H | assert (0 <= c < m) by lia; clear H; try lia]
  end.

(** Every escape is one character of the grammar and decodes to the byte. *)
Lemma escape_byte_spec c q : byte_ok c ->
  decode_one (escape_byte c ++ q) = Some ([c], q) /\ (jchars q -> jchars (escape_byte c ++ q)).
Proof.
  unfold byte_ok. intros Hc. destruct (Z.ltb_spec c 32).
  - assert (0 <= c < 32) as H0 by lia. clear Hc H. byte_cases c; cbn; (split; [reflexivity|]);
      intros; first [by apply jc_esc | by apply jc_u].
  - unfold escape_byte. rewrite (proj2 (Z.ltb_ge c 32)) by done.
    destruct (Z.eqb_spec c 34) as [->|]; [split; [done|]; intros; by apply jc_esc|].
    destruct (Z.eqb_spec c 92) as [->|]; [split; [done|]; intros; by apply jc_esc|].
    rewrite !(proj2 (Z.eqb_neq c _)) by lia. cbn [app decode_one].
    rewrite (proj2 (Z.eqb_neq c 92)) by done. split; [done|]. intros. by apply jc_raw.
Qed.

Lemma escaped_jchars s : Forall byte_ok s -> jchars (escaped s).
Proof.
  induction 1 as [|c s Hc _ IH]; [constructor|]. cbn.
  by apply (proj2 (escape_byte_spec c _ Hc)).
Qed.

Lemma escaped_decode s : Forall byte_ok s -> decode (escaped s) = Some s.
Proof.
  induction 1 as [|c s Hc _ IH]; [done|].
  change (escaped (c :: s)) with (escape_byte c ++ escaped s).
  rewrite (decode_step _ [c] (escaped s)) by (by apply escape_byte_spec). by rewrite IH.
Qed.

Lemma escaped_jstring s : Forall byte_ok s -> jstring (QUOTE :: escaped s ++ [QUOTE]).
Proof. intros. exists (escaped s). split; [done | by apply escaped_jchars]. Qed.

(** ** Claims *)

(** Json_str on a string of an accepted text never stores outside the [cap]
    bytes it was given, always ends what it stored with a NUL, and stores the whole
    decoding exactly when it fits; otherwise it returns JSON_ENOSPC and has stored a
    prefix of the decoding that leaves at most three bytes of the room unused. *)
Theorem json_str_decodes_within_cap k base cap b :
  jstring k -> 0 <= base -> 1 <= cap -> base + cap <= zlen b ->
  exists d rc out rest,
    decode (body (JV T_STRING k)) = Some d /\ d = out ++ rest /\
    json_str (JV T_STRING k) base cap b = Ok (rc, zlen out) (patch base (out ++ [0]) b) /\
    zlen out < cap /\
    ((rc = JSON_OK /\ out = d /\ zlen d < cap) \/
     (rc = JSON_ENOSPC /\ cap <= zlen d /\ cap - 1 - zlen out <= 3)).
Proof.
  intros Hk Hbase Hc Hb. pose proof Hk as (s & -> & Hs).
  destruct (jchars_decode s Hs) as [d Hd]. rewrite <- (body_jstring s) in Hd.
  destruct (json_str_spec _ base cap b d Hk Hbase Hc Hb Hd) as (rc & out & rest & E & Er & Hlt & H).
  exists d, rc, out, rest. split_and!; try done.
  destruct H as [[-> ->]|(-> & ? & ?)]; [left | right; split_and!; [done | done | lia]].
  rewrite app_nil_r in E. subst d. done.
Qed.

Definition demo_string : bytes := QUOTE :: lit "h\u00e9y" ++ [QUOTE].

Lemma json_str_decodes_within_cap_witness :
  jstring demo_string /\
  exists d rc out rest,
    decode (body (JV T_STRING demo_string)) = Some d /\ d = out ++ rest /\
    json_str (JV T_STRING demo_string) 1 3 (replicate 5 7) =
      Ok (rc, zlen out) (patch 1 (out ++ [0]) (replicate 5 7)) /\
    zlen out < 3 /\
    ((rc = JSON_OK /\ out = d /\ zlen d < 3) \/
     (rc = JSON_ENOSPC /\ 3 <= zlen d /\ 3 - 1 - zlen out <= 3)).
Proof.
  assert (jstring demo_string) as H.
  { destruct (scan_string_sound demo_string []) as (s & E & H).
    - vm_compute. reflexivity.
    - rewrite app_nil_r in E. rewrite E. exact H. }
  split; [exact H|]. apply (json_str_decodes_within_cap demo_string 1 3 (replicate 5 7) H).
  - lia.
  - lia.
  - vm_compute. discriminate.
Defined.

(** Json_int on a number of the grammar gives exactly the integer it spells,
    with the fraction dropped, when that integer is an int64 (INT64_MIN included),
    and JSON_EINVAL when it is out of range or the number has an exponent. *)
Theorem json_int_exact m i f e :
  (m = [] \/ m = [ch "-"]) -> jint i -> jfrac f -> jexp e ->
  json_int (JV T_NUMBER (m ++ i ++ f ++ e)) =
  if bool_decide (e = [] /\ int64 (signed m i)) then (JSON_OK, Some (signed m i))
  else (JSON_EINVAL, None).
Proof. apply json_int_spec. Qed.

Lemma json_int_exact_witness :
  json_int (JV T_NUMBER (lit "-12.5")) = (JSON_OK, Some (-12)).
Proof.
  change (lit "-12.5") with ([ch "-"] ++ lit "12" ++ lit ".5" ++ []).
  rewrite (json_int_exact [ch "-"] (lit "12") (lit ".5") []).
  - reflexivity.
  - right. reflexivity.
  - right. exists 49, (lit "2"). split; [reflexivity|]. split; [discriminate|].
    repeat constructor.
  - right. exists (lit "5"). split; [reflexivity|]. split; [discriminate|]. repeat constructor.
  - left. reflexivity.
Defined.
