(* ===== verification/JsonOut.v ===== *)
(** net/json.c: what the writer has put in its buffer, for every sequence of calls,
    and that reading it back gives what was written. *)

From S2P Require Import Prelude Bytes Json JsonWriter JsonGrammar JsonNav JsonText.

(** ** The writer's invariant *)

(** The capacity lies inside the buffer, and the text is NUL-terminated inside the
    capacity; a writer without capacity is overflowed from the start. *)
Definition wf (w : json_writer) : Prop :=
  0 <= cap w <= zlen (buf w) /\ zlen (buf w) < 2 ^ 62 /\
  ((0 <= len w < cap w /\ buf w !! Z.to_nat (len w) = Some 0) \/
   (cap w = 0 /\ len w = 0 /\ overflow w = true)).

Definition text (w : json_writer) : bytes := take (Z.to_nat (len w)) (buf w).

Lemma zlen_text w : wf w -> zlen (text w) = len w.
Proof. unfold wf, text, zlen. intros H. rewrite length_take. lia. Qed.

(** The writer after [s] was appended with its NUL. *)
Definition appended (s : bytes) (w : json_writer) : json_writer :=
  JW (patch (len w) (s ++ [0]) (buf w)) (cap w) (len w + zlen s) false.

Lemma patch_lookup_last off s x b :
  0 <= off -> off + zlen s < zlen b ->
  patch off (s ++ [x]) b !! Z.to_nat (off + zlen s) = Some x.
Proof.
  unfold patch, zlen. intros H0 H.
  rewrite lookup_app_r by (rewrite length_take; lia). rewrite length_take.
  rewrite lookup_app_l by (rewrite length_app; cbn; lia).
  rewrite lookup_app_r by lia.
  by replace (_ - _)%nat with 0%nat by lia.
Qed.

Lemma take_patch_all off s t b :
  0 <= off -> off + zlen s + zlen t <= zlen b ->
  take (Z.to_nat (off + zlen s)) (patch off (s ++ t) b) = take (Z.to_nat off) b ++ s.
Proof.
  unfold patch, zlen. intros H0 H.
  rewrite take_app_ge by (rewrite length_take; lia). f_equal. rewrite length_take.
  rewrite <- app_assoc, take_app_le by lia. apply take_ge. lia.
Qed.

Lemma appended_wf s w :
  wf w -> len w + zlen s < cap w ->
  wf (appended s w) /\ text (appended s w) = text w ++ s.
Proof.
  intros (Hc & Hb & H) Hs. pose proof (zlen_nonneg s).
  assert (Hl : 0 <= len w) by lia. unfold appended, wf, text. cbn [buf cap len overflow].
  rewrite zlen_patch by (autorewrite with zlen; lia).
  split; [|by apply take_patch_all; autorewrite with zlen; lia].
  split_and!; try lia. left. split; [lia|]. apply patch_lookup_last; lia.
Qed.

Lemma set_overflow_wf w : wf w -> wf (set_overflow w) /\ text (set_overflow w) = text w.
Proof.
  intros (Hc & Hb & H). split; [|done]. unfold wf. cbn. split_and!; try lia.
  destruct H as [?|(? & ? & _)]; [by left | by right].
Qed.

(** ** What a call appends *)

(** [m] appends [s] when there is room for all of it and its NUL; otherwise it
    leaves the overflow flag set and at most a prefix of [s] behind. Nothing happens
    to a writer that has overflowed. *)
Definition appends (m : prog json_writer unit) (s : bytes) : Prop :=
  forall w, wf w -> exists w' s',
    m w = Ok tt w' /\ wf w' /\ cap w' = cap w /\
    s' `prefix_of` s /\ text w' = text w ++ s' /\
    (overflow w = true -> w' = w) /\
    (overflow w = false -> (overflow w' = false <-> len w + zlen s < cap w)) /\
    (overflow w' = false -> s' = s).

Lemma appends_overflowed m w : overflow w = true -> m w = Ok tt w -> wf w ->
  forall s, exists w' s',
    m w = Ok tt w' /\ wf w' /\ cap w' = cap w /\
    s' `prefix_of` s /\ text w' = text w ++ s' /\
    (overflow w = true -> w' = w) /\
    (overflow w = false -> (overflow w' = false <-> len w + zlen s < cap w)) /\
    (overflow w' = false -> s' = s).
Proof.
  intros Ho Em Hw s. exists w, []. rewrite app_nil_r.
  split_and!; try done; try congruence. apply prefix_nil.
Qed.

(** The two ways a single guarded store goes. *)
Lemma appends_guarded m s :
  (forall w, overflow w = true -> m w = Ok tt w) ->
  (forall w, wf w -> overflow w = false -> len w + zlen s < cap w -> m w = Ok tt (appended s w)) ->
  (forall w, wf w -> overflow w = false -> cap w <= len w + zlen s ->
     exists w', m w = Ok tt w' /\ wf w' /\ cap w' = cap w /\ text w' = text w /\ overflow w' = true) ->
  appends m s.
Proof.
  intros Hov Hfit Hfull w Hw.
  assert (overflow w = true \/ overflow w = false) as [Ho|Ho] by (destruct (overflow w); auto).
  { apply appends_overflowed; auto. }
  destruct (Z.ltb_spec (len w + zlen s) (cap w)) as [H|H].
  - destruct (appended_wf s w Hw H) as [? ?]. exists (appended s w), s.
    split_and!; try done; [by apply Hfit | congruence].
  - destruct (Hfull w Hw Ho H) as (w' & ? & ? & ? & ? & Ho'). exists w', [].
    rewrite Ho', app_nil_r. split_and!; try done; [apply prefix_nil | congruence |].
    intros _. split; [done | lia].
Qed.

Lemma appends_seq m s k t :
  appends m s -> appends k t -> appends (bind m (fun _ => k)) (s ++ t).
Proof.
  intros Hm Hk w Hw.
  destruct (Hm w Hw) as (w1 & s1 & E1 & Hw1 & Hc1 & Hp1 & Ht1 & Ho1 & Hf1 & Hs1).
  destruct (Hk w1 Hw1) as (w2 & s2 & E2 & Hw2 & Hc2 & Hp2 & Ht2 & Ho2 & Hf2 & Hs2).
  assert (Hl1 : len w1 = len w + zlen s1)
    by (rewrite <- !zlen_text by done; rewrite Ht1; apply zlen_app).
  pose proof (zlen_nonneg s). pose proof (zlen_nonneg t).
  destruct (overflow w1) eqn:Eo1.
  - specialize (Ho2 eq_refl) as ->. exists w1, s1. erewrite bind_ok by done.
    split_and!; try done; [by apply prefix_app_r | | congruence].
    intros Hov. rewrite Eo1. split; [done|]. autorewrite with zlen. intros.
    assert (true = false) by (apply (proj2 (Hf1 Hov)); lia). done.
  - rewrite (Hs1 eq_refl) in *. exists w2, (s ++ s2). erewrite bind_ok by done.
    split_and!; try done; [congruence | by apply prefix_app | by rewrite Ht2, Ht1, app_assoc | | |].
    + intros Ho. specialize (Ho1 Ho) as ->. congruence.
    + intros Ho. rewrite (Hf2 eq_refl), Hl1, Hc1, zlen_app. lia.
    + intros ->%Hs2. done.
Qed.

Lemma appends_ret : appends (ret tt) [].
Proof.
  intros w Hw. exists w, []. rewrite app_nil_r. split_and!; try done.
  intros Ho. split; [|done]. intros _. destruct Hw as (_ & _ & [?|(? & ? & ?)]); [|congruence].
  rewrite zlen_nil. lia.
Qed.

(** ** The calls *)

Lemma on_buf_ok {A} (m : prog bytes A) w a b :
  m (buf w) = Ok a b -> on_buf m w = Ok a (set_buf b w).
Proof. unfold on_buf. by intros ->. Qed.

Lemma wf_range w : wf w -> overflow w = false -> 0 <= len w < cap w /\ cap w <= zlen (buf w) < 2 ^ 62.
Proof. intros (? & ? & [[? ?]|(? & ? & ?)]) Ho; [lia | congruence]. Qed.

Lemma json_put_char_appends c : appends (json_put_char c) [c].
Proof.
  apply appends_guarded; intros w; unfold json_put_char.
  - by intros ->.
  - intros Hw Ho H. pose proof (wf_range w Hw Ho). autorewrite with zlen in H. rewrite Ho.
    rewrite wrap64_small, (proj2 (Z.leb_gt _ _)) by lia.
    erewrite bind_ok by (apply on_buf_ok, poke_ok; lia).
    erewrite bind_ok by reflexivity.
    erewrite on_buf_ok by (apply poke_ok; cbn; rewrite zlen_patch; autorewrite with zlen; lia).
    f_equal. unfold appended, set_buf, set_len. cbn [buf cap len overflow]. rewrite Ho. f_equal.
    apply (patch_patch (len w) [c] [0]); autorewrite with zlen; lia.
  - intros Hw Ho H. pose proof (wf_range w Hw Ho). autorewrite with zlen in H. rewrite Ho.
    rewrite wrap64_small, (proj2 (Z.leb_le _ _)) by lia. exists (set_overflow w).
    by destruct (set_overflow_wf w Hw).
Qed.

Lemma json_put_n_appends s : zlen s < 2 ^ 62 -> appends (json_put_n (Some s)) s.
Proof.
  intros Hs. pose proof (zlen_nonneg s).
  apply appends_guarded; intros w; unfold json_put_n.
  - by intros ->.
  - intros Hw Ho H'. pose proof (wf_range w Hw Ho). rewrite Ho.
    rewrite wrap64_small, (proj2 (Z.leb_gt _ _)) by lia.
    erewrite bind_ok by (apply on_buf_ok, pokes_ok; lia).
    erewrite bind_ok by reflexivity.
    erewrite on_buf_ok by (apply poke_ok; cbn; rewrite zlen_patch; lia).
    f_equal. unfold appended, set_buf, set_len. cbn [buf cap len overflow]. rewrite Ho. f_equal.
    apply patch_patch; autorewrite with zlen; lia.
  - intros Hw Ho H'. pose proof (wf_range w Hw Ho). rewrite Ho.
    rewrite wrap64_small, (proj2 (Z.leb_le _ _)) by lia. exists (set_overflow w).
    by destruct (set_overflow_wf w Hw).
Qed.

Lemma put_chars_appends cs : appends (put_chars cs) cs.
Proof.
  induction cs as [|c cs IH]; cbn [put_chars]; [apply appends_ret|].
  apply (appends_seq _ [c]); [apply json_put_char_appends | done].
Qed.

(** *** Decimal digits *)

(** What json_put_uint prints. *)
Definition decimal (v : Z) : bytes :=
  if v =? 0 then [ch "0"] else rev (default [] (uint_digits 20 v)).

Lemma uint_digits_spec room : forall v, 0 <= v < 10 ^ Z.of_nat room ->
  exists t, uint_digits room v = Some t /\ digits (rev t) /\ dec (rev t) = v /\
            (v <> 0 -> exists c r, rev t = c :: r /\ c <> ch "0").
Proof.
  induction room as [|room IH]; intros v Hv; cbn [uint_digits].
  { replace v with 0 by (cbn in Hv; lia). exists []. split_and!; [done | constructor | done | done]. }
  destruct (Z.eqb_spec v 0) as [->|Hv0].
  { exists []. split_and!; [done | constructor | done | done]. }
  pose proof (Z.div_mod v 10 ltac:(lia)). pose proof (Z.mod_pos_bound v 10 ltac:(lia)).
  rewrite Nat2Z.inj_succ, Z.pow_succ_r in Hv by lia.
  destruct (IH (v / 10)) as (t & Et & Hd & He & Hh); [split; [lia|]; nia|]. rewrite Et.
  exists (48 + v mod 10 :: t). cbn [rev]. split_and!; [done| | |].
  - apply Forall_app. split; [done|]. constructor; [|constructor].
    unfold is_digit. rewrite !(proj2 (Z.leb_le _ _)) by lia. done.
  - unfold dec in *. rewrite dec_from_app, He. cbn. lia.
  - intros _. destruct (decide (v / 10 = 0)) as [E|E].
    + rewrite E in Et. assert (t = []) as -> by (destruct room; by injection Et).
      exists (48 + v mod 10), []. split; [done | lia].
    + destruct (Hh E) as (c & r & -> & ?). exists c, (r ++ [48 + v mod 10]). done.
Qed.

Lemma decimal_spec v : 0 <= v < 2 ^ 64 ->
  jint (decimal v) /\ dec (decimal v) = v.
Proof.
  intros Hv. unfold decimal. destruct (Z.eqb_spec v 0) as [->|Hv0]; [split; [by left | done]|].
  destruct (uint_digits_spec 20 v) as (t & -> & Hd & He & Hh); [cbn; lia|]. cbn [default].
  destruct (Hh Hv0) as (c & r & Er & Hc). split; [|done].
  right. exists c, r. rewrite <- Er. done.
Qed.

Lemma json_put_uint_appends v : 0 <= v < 2 ^ 64 -> appends (json_put_uint v) (decimal v).
Proof.
  intros Hv. unfold json_put_uint, decimal. destruct (Z.eqb_spec v 0).
  - apply (put_chars_appends [48]).
  - destruct (uint_digits_spec 20 v) as (t & -> & _); [cbn; lia|]. apply put_chars_appends.
Qed.

(** What json_put_int prints. *)
Definition int_text (v : Z) : bytes :=
  if v <? 0 then ch "-" :: decimal (- v) else decimal v.

Lemma json_put_int_appends v : int64 v -> appends (json_put_int v) (int_text v).
Proof.
  unfold int64. intros Hv. unfold json_put_int, int_text. destruct (Z.ltb_spec v 0).
  - replace (wrap64 (wrap64 (- (v + 1)) + 1)) with (- v) by (unwrap64; lia).
    apply (appends_seq _ [45]); [apply json_put_char_appends|].
    apply json_put_uint_appends. lia.
  - rewrite wrap64_small by lia. apply json_put_uint_appends. lia.
Qed.

Lemma int_text_spec v : int64 v ->
  jnumber (int_text v) /\ json_int (JV T_NUMBER (int_text v)) = (JSON_OK, Some v).
Proof.
  unfold int64. intros Hv.
  assert (exists m i, int_text v = m ++ i ++ [] ++ [] /\ (m = [] \/ m = [45]) /\ jint i /\
            signed m i = v) as (m & i & -> & Hm & Hi & Hs).
  { unfold int_text. destruct (Z.ltb_spec v 0).
    - destruct (decimal_spec (- v)) as [Hi Hd]; [lia|]. exists [45], (decimal (- v)).
      rewrite app_nil_r. split_and!; auto. unfold signed. cbn. lia.
    - destruct (decimal_spec v) as [Hi Hd]; [lia|]. exists [], (decimal v).
      rewrite app_nil_r. split_and!; auto. }
  split; [exists m, i, [], []; split_and!; auto; by left|].
  rewrite json_int_spec by (try done; by left). rewrite Hs, bool_decide_true by done. done.
Qed.

(** *** Escaped strings *)

Lemma emits_spec base cap cs : forall need b,
  0 <= base -> base + cap <= zlen b -> 0 <= need -> need + zlen cs < 2 ^ 63 -> 0 <= cap < 2 ^ 62 ->
  let fit := take (Z.to_nat (cap - 1 - need)) cs in
  emits base cap cs need b = Ok (need + zlen cs) (patch (base + need) fit b).
Proof.
  induction cs as [|c cs IH]; intros need b Hb Hcap Hn Hs Hc; cbn [emits].
  - by rewrite take_nil, patch_nil, zlen_nil, Z.add_0_r.
  - autorewrite with zlen in Hs. pose proof (zlen_nonneg cs). unfold emit, bind at 1.
    rewrite wrap64_small by lia. destruct (Z.ltb_spec (need + 1) cap) as [H1|H1].
    + erewrite (bind_ok (poke _ _)) by (apply poke_ok; lia). cbn [ret].
      rewrite IH by (rewrite ?zlen_patch; autorewrite with zlen; lia).
      replace (Z.to_nat (cap - 1 - need)) with (S (Z.to_nat (cap - 1 - (need + 1)))) by lia.
      cbn [take firstn]. f_equal; [autorewrite with zlen; lia|].
      set (t := firstn _ cs).
      replace (base + (need + 1)) with ((base + need) + zlen [c]) by (rewrite zlen_cons, zlen_nil; lia).
      rewrite patch_patch; [done | lia |]. autorewrite with zlen.
      assert (zlen t <= cap - 1 - (need + 1)); [|lia].
      unfold t, zlen. rewrite length_firstn. lia.
    + cbn [bind ret]. rewrite IH by lia.
      replace (Z.to_nat (cap - 1 - (need + 1))) with 0%nat by lia.
      replace (Z.to_nat (cap - 1 - need)) with 0%nat by lia.
      rewrite !patch_nil. f_equal. autorewrite with zlen. lia.
Qed.

Lemma emits_app base cap s t need b :
  emits base cap (s ++ t) need b = bind (emits base cap s need) (emits base cap t) b.
Proof.
  revert need b. induction s as [|c s IH]; intros need b; [done|]. cbn [app emits].
  unfold bind in *. destruct (emit base cap need c b); try done.
Qed.

Lemma escape_loop_emits base cap src : forall need b,
  escape_loop base cap src need b = emits base cap (escaped src) need b.
Proof.
  induction src as [|c r IH]; intros need b; [done|]. cbn [escape_loop].
  change (escaped (c :: r)) with (escape_byte c ++ escaped r). rewrite emits_app.
  unfold bind. destruct (emits _ _ _ _ b); try done.
Qed.

(** snprintf-style: the length needed, and as much of the text as fits with a NUL. *)
Lemma json_escape_n_spec base cap s b :
  0 <= base -> base + cap <= zlen b -> 1 <= cap < 2 ^ 62 -> zlen (escaped s) < 2 ^ 62 ->
  json_escape_n base cap (Some s) b =
  Ok (zlen (escaped s)) (patch base (take (Z.to_nat (cap - 1)) (escaped s) ++ [0]) b).
Proof.
  intros Hb Hcap Hc Hs. unfold json_escape_n. cbn [default]. set (e := escaped s) in *.
  pose proof (zlen_nonneg e).
  assert (escape_loop base cap s 0 b =
          Ok (0 + zlen e) (patch (base + 0) (take (Z.to_nat (cap - 1 - 0)) e) b)) as E.
  { rewrite escape_loop_emits. apply emits_spec; lia. }
  rewrite (bind_ok _ _ _ _ _ E). clear E.
  rewrite Z.add_0_l, Z.add_0_r, Z.sub_0_r, (proj2 (Z.eqb_neq _ _)) by lia.
  set (t := take _ e).
  assert (Ht : (if zlen e <? cap then zlen e else cap - 1) = zlen t).
  { unfold t, zlen in *. rewrite length_take. case_match; b2p; lia. }
  rewrite Ht. assert (zlen t <= cap - 1) by (case_match; b2p; lia). pose proof (zlen_nonneg t).
  erewrite bind_ok by (apply poke_ok; rewrite zlen_patch; lia). unfold ret. f_equal.
  apply patch_patch; autorewrite with zlen; lia.
Qed.

(** The rest of json_put_string, past the opening quote. *)
Definition put_string_tail (s : option bytes) : prog json_writer unit :=
  (o <- gets overflow ;;
   if o : bool then ret tt
   else
     n <- gets len ;;
     c <- gets cap ;;
     need <- on_buf (json_escape n (c - n) s) ;;
     if c - n <=? wrap64 (need + 1)
     then modify set_overflow ;;; on_buf (poke n 0)
     else modify (set_len (n + need)) ;;; json_put_char QUOTE)%prog.

Lemma take_patch_0 off s t b :
  0 <= off -> off + zlen s <= zlen b -> off + zlen t <= zlen b ->
  take (Z.to_nat off) (patch off s (patch off t b)) = take (Z.to_nat off) b.
Proof. intros. by rewrite !take_patch by (rewrite ?zlen_patch; lia). Qed.

Lemma put_string_tail_full s w :
  wf w -> overflow w = false -> zlen (escaped (cstr s)) < 2 ^ 61 ->
  cap w <= len w + zlen (escaped (cstr s)) + 1 ->
  exists w', put_string_tail (Some s) w = Ok tt w' /\ wf w' /\ cap w' = cap w /\
             text w' = text w /\ overflow w' = true.
Proof.
  intros Hw Ho Hs Hfull. pose proof (wf_range w Hw Ho). set (e := escaped (cstr s)) in *.
  pose proof (zlen_nonneg e). unfold put_string_tail, gets, bind at 1. rewrite Ho.
  unfold bind at 1. unfold bind at 1. unfold json_escape. cbn [fmap option_fmap option_map].
  assert (Ee : json_escape_n (len w) (cap w - len w) (Some (cstr s)) (buf w) =
    Ok (zlen e) (patch (len w) (take (Z.to_nat (cap w - len w - 1)) e ++ [0]) (buf w))).
  { apply json_escape_n_spec; fold e; lia. }
  rewrite (bind_ok _ _ _ _ _ (on_buf_ok _ _ _ _ Ee)).
  rewrite wrap64_small, (proj2 (Z.leb_le _ _)) by lia. erewrite bind_ok by reflexivity.
  set (t := take _ e ++ [0]).
  assert (Ht : len w + zlen t <= zlen (buf w)).
  { unfold t, zlen in *. rewrite length_app, length_take. cbn. lia. }
  pose proof (zlen_nonneg t).
  eexists. split; [apply on_buf_ok, poke_ok; cbn; rewrite zlen_patch; lia|].
  unfold wf, text. cbn [buf cap len overflow set_buf set_overflow].
  assert (zlen [0] = 1) by done. rewrite !zlen_patch by (rewrite ?zlen_patch; lia).
  split_and!; try done; try lia; [|by apply take_patch_0; lia].
  left. split; [lia|]. rewrite <- (Z.add_0_r (len w)) at 1.
  apply (patch_lookup_last (len w) [] 0); rewrite ?zlen_patch, ?zlen_nil; lia.
Qed.

Lemma put_string_tail_fits s w :
  wf w -> overflow w = false -> zlen (escaped (cstr s)) < 2 ^ 61 ->
  len w + zlen (escaped (cstr s)) + 1 < cap w ->
  put_string_tail (Some s) w = Ok tt (appended (escaped (cstr s) ++ [QUOTE]) w).
Proof.
  intros Hw Ho Hs Hfit. pose proof (wf_range w Hw Ho). set (e := escaped (cstr s)) in *.
  pose proof (zlen_nonneg e). unfold put_string_tail, gets, bind at 1. rewrite Ho.
  unfold bind at 1. unfold bind at 1. unfold json_escape. cbn [fmap option_fmap option_map].
  assert (Ee : json_escape_n (len w) (cap w - len w) (Some (cstr s)) (buf w) =
    Ok (zlen e) (patch (len w) (take (Z.to_nat (cap w - len w - 1)) e ++ [0]) (buf w))).
  { apply json_escape_n_spec; fold e; lia. }
  rewrite (bind_ok _ _ _ _ _ (on_buf_ok _ _ _ _ Ee)).
  rewrite wrap64_small, (proj2 (Z.leb_gt _ _)) by lia. erewrite bind_ok by reflexivity.
  rewrite take_ge by (unfold zlen in *; lia).
  unfold json_put_char. cbn [overflow set_len set_buf cap len buf]. rewrite Ho.
  rewrite wrap64_small, (proj2 (Z.leb_gt _ _)) by lia.
  assert (Hz : zlen (e ++ [0]) = zlen e + 1) by (autorewrite with zlen; lia).
  erewrite bind_ok by (apply on_buf_ok, poke_ok; cbn; rewrite zlen_patch; lia).
  erewrite bind_ok by reflexivity.
  assert (zlen [34] = 1) by done.
  erewrite on_buf_ok by (apply poke_ok; cbn; rewrite !zlen_patch; rewrite ?zlen_patch; lia).
  f_equal. unfold appended, set_buf, set_len. cbn [buf cap len overflow]. rewrite Ho.
  assert (zlen [0] = 1) by done.
  f_equal; [|autorewrite with zlen; lia].
  rewrite <- (patch_patch (len w) e [0]) by lia.
  rewrite patch_over by (rewrite ?zlen_patch; lia).
  rewrite (patch_patch (len w) e [34]) by lia.
  replace (len w + zlen e + 1) with (len w + zlen (e ++ [34])) by (autorewrite with zlen; lia).
  apply patch_patch; autorewrite with zlen; lia.
Qed.

Definition string_text (s : bytes) : bytes := QUOTE :: escaped (cstr s) ++ [QUOTE].

Lemma json_put_string_appends s :
  zlen (escaped (cstr s)) < 2 ^ 61 -> appends (json_put_string (Some s)) (string_text s).
Proof.
  intros Hs.
  assert (appends (put_string_tail (Some s)) (escaped (cstr s) ++ [QUOTE])) as Ht.
  { apply appends_guarded; intros w; autorewrite with zlen.
    - intros Ho. unfold put_string_tail, gets, bind at 1. by rewrite Ho.
    - intros. apply put_string_tail_fits; try done. lia.
    - intros. apply put_string_tail_full; try done. lia. }
  pose proof (appends_seq _ _ _ _ (json_put_char_appends QUOTE) Ht) as H.
  intros w Hw.
  assert (overflow w = true \/ overflow w = false) as [Ho|Ho] by (destruct (overflow w); auto).
  - apply appends_overflowed; try done. unfold json_put_string. by rewrite Ho.
  - specialize (H w Hw). unfold json_put_string. rewrite Ho in *. exact H.
Qed.

(** ** Any sequence of calls *)

Inductive put :=
  | PutChar (c : Z)
  | PutN (s : bytes)
  | Put (s : bytes)
  | PutUint (v : Z)
  | PutInt (v : Z)
  | PutString (s : bytes).

Definition run_put (p : put) : prog json_writer unit :=
  match p with
  | PutChar c => json_put_char c
  | PutN s => json_put_n (Some s)
  | Put s => json_put (Some s)
  | PutUint v => json_put_uint v
  | PutInt v => json_put_int v
  | PutString s => json_put_string (Some s)
  end.

(** What the call stands for. *)
Definition render (p : put) : bytes :=
  match p with
  | PutChar c => [c]
  | PutN s => s
  | Put s => cstr s
  | PutUint v => decimal v
  | PutInt v => int_text v
  | PutString s => string_text s
  end.

(** The arguments have the widths of their C types, and strings are not longer than
    an address space could hold. *)
Definition put_ok (p : put) : Prop :=
  match p with
  | PutChar c => byte_ok c
  | PutN s | Put s => zlen s < 2 ^ 58
  | PutUint v => 0 <= v < 2 ^ 64
  | PutInt v => int64 v
  | PutString s => zlen s < 2 ^ 58
  end.

Fixpoint run_puts (ps : list put) : prog json_writer unit :=
  match ps with
  | [] => ret tt
  | p :: ps => bind (run_put p) (fun _ => run_puts ps)
  end.

Lemma cstr_length s : zlen (cstr s) <= zlen s.
Proof.
  induction s as [|c s IH]; cbn [cstr]; [lia|]. case_match; autorewrite with zlen; [|lia].
  pose proof (zlen_nonneg s). lia.
Qed.

Lemma escape_byte_length c : zlen (escape_byte c) <= 6.
Proof. unfold escape_byte. repeat case_match; autorewrite with zlen; lia. Qed.

Lemma escaped_length s : zlen (escaped s) <= 6 * zlen s.
Proof.
  induction s as [|c s IH]; [done|].
  change (escaped (c :: s)) with (escape_byte c ++ escaped s).
  autorewrite with zlen. pose proof (escape_byte_length c). lia.
Qed.

Lemma run_put_appends p : put_ok p -> appends (run_put p) (render p).
Proof.
  destruct p as [c|s|s|v|v|s]; cbn [run_put render put_ok].
  - intros _. apply json_put_char_appends.
  - intros. apply json_put_n_appends. lia.
  - intros. apply json_put_n_appends. pose proof (cstr_length s). lia.
  - apply json_put_uint_appends.
  - apply json_put_int_appends.
  - intros. apply json_put_string_appends.
    pose proof (escaped_length (cstr s)). pose proof (cstr_length s). lia.
Qed.

Lemma run_puts_appends ps : Forall put_ok ps -> appends (run_puts ps) (ps ≫= render).
Proof.
  induction 1 as [|p ps Hp _ IH]; cbn [run_puts]; [apply appends_ret|].
  apply (appends_seq _ (render p)); [by apply run_put_appends | done].
Qed.

Lemma json_writer_init_wf b c :
  0 <= c <= zlen b -> zlen b < 2 ^ 62 ->
  exists w, json_writer_init b c = Ok tt w /\ wf w /\ text w = [] /\ len w = 0 /\ cap w = c /\
            overflow w = (c =? 0).
Proof.
  intros Hc Hb. unfold json_writer_init. destruct (Z.eqb_spec c 0) as [->|].
  - eexists. split; [done|]. unfold wf. cbn. split_and!; auto; lia.
  - eexists. split; [apply on_buf_ok, poke_ok; cbn; lia|].
    unfold wf, text. cbn [set_buf buf cap len overflow].
    rewrite zlen_patch by (autorewrite with zlen; lia). split_and!; try done; try lia.
    left. split; [lia|]. apply (patch_lookup_last 0 [] 0); rewrite ?zlen_nil; lia.
Qed.

(** ** Claims *)

(** A fresh writer on [b] with capacity [c], after the calls [ps]. *)
Definition written (b : bytes) (c : Z) (ps : list put) : outcome json_writer unit :=
  match json_writer_init b c with
  | Ok _ w => run_puts ps w
  | o => o
  end.

Lemma written_spec b c ps :
  0 <= c <= zlen b -> zlen b < 2 ^ 62 -> Forall put_ok ps ->
  exists w, written b c ps = Ok tt w /\ wf w /\ cap w = c /\
    text w `prefix_of` (ps ≫= render) /\
    (json_writer_ok w = true <-> zlen (ps ≫= render) < c) /\
    (json_writer_ok w = true -> text w = ps ≫= render).
Proof.
  intros Hc Hb Hps. unfold written.
  destruct (json_writer_init_wf b c Hc Hb) as (w0 & -> & Hw0 & Ht0 & Hl0 & Hc0 & Ho0).
  destruct (run_puts_appends ps Hps w0 Hw0)
    as (w & s & E & Hw & Hcw & Hp & Ht & Hov & Hfit & Hs).
  rewrite Ht0 in Ht. cbn in Ht. exists w. split; [done|]. split; [done|].
  unfold json_writer_ok. rewrite !negb_true_iff, Ht.
  split_and!; [congruence | done | | done].
  pose proof (zlen_nonneg (ps ≫= render)). destruct (Z.eqb_spec c 0) as [->|].
  - rewrite (Hov Ho0), Ho0. split; [done | lia].
  - rewrite (Hfit Ho0). lia.
Qed.

(** For every sequence of calls on a fresh writer: no store ever leaves the
    buffer; the text is NUL-terminated inside the capacity; what is there is a prefix
    of what the calls stand for; and the one check json_writer_ok at the end tells
    exactly whether all of it fitted, in which case all of it is there. *)
Theorem json_writer_sequence b c ps :
  0 <= c <= zlen b -> zlen b < 2 ^ 62 -> Forall put_ok ps ->
  exists w, written b c ps = Ok tt w /\
    (0 < c -> 0 <= len w < c /\ buf w !! Z.to_nat (len w) = Some 0) /\
    text w `prefix_of` (ps ≫= render) /\
    (json_writer_ok w = true <-> zlen (ps ≫= render) < c) /\
    (json_writer_ok w = true -> text w = ps ≫= render).
Proof.
  intros Hc Hb Hps. destruct (written_spec b c ps Hc Hb Hps) as (w & E & Hw & <- & Hrest).
  exists w. split; [done|]. split; [|done].
  intros Hpos. destruct Hw as (_ & _ & [?|(? & _)]); [done | lia].
Qed.

Lemma json_writer_sequence_witness :
  exists w, written (replicate 16 7) 9 [Put (lit "[1, "); PutInt (-25); PutString (lit "x")] = Ok tt w /\
    (0 < 9 -> 0 <= len w < 9 /\ buf w !! Z.to_nat (len w) = Some 0) /\
    text w `prefix_of` ([Put (lit "[1, "); PutInt (-25); PutString (lit "x")] ≫= render) /\
    (json_writer_ok w = true <->
       zlen ([Put (lit "[1, "); PutInt (-25); PutString (lit "x")] ≫= render) < 9) /\
    (json_writer_ok w = true ->
       text w = [Put (lit "[1, "); PutInt (-25); PutString (lit "x")] ≫= render).
Proof.
  apply (json_writer_sequence (replicate 16 7) 9).
  - split; vm_compute; discriminate.
  - vm_compute. reflexivity.
  - repeat constructor; vm_compute; discriminate.
Defined.

(** An integer written with json_put_int and read back with json_parse and
    json_int is the same integer, for every int64, INT64_MIN included. *)
Theorem json_int_roundtrip b c v :
  0 <= c <= zlen b -> zlen b < 2 ^ 62 -> int64 v ->
  exists w, written b c [PutInt v] = Ok tt w /\
    (json_writer_ok w = true ->
     exists x, json_parse (Some (text w)) = (JSON_OK, x) /\ json_int x = (JSON_OK, Some v)).
Proof.
  intros Hc Hb Hv.
  destruct (written_spec b c [PutInt v]) as (w & E & _ & _ & _ & _ & Ht); [done | done | constructor; [done | constructor] |].
  exists w. split; [done|]. intros Hok. rewrite (Ht Hok).
  change ([PutInt v] ≫= render) with (int_text v ++ []). rewrite app_nil_r.
  destruct (int_text_spec v Hv) as [Hn Hj]. eexists. split; [|exact Hj].
  apply json_parse_complete. by constructor.
Qed.

Lemma json_int_roundtrip_witness :
  exists w, written (replicate 32 7) 32 [PutInt (- 2 ^ 63)] = Ok tt w /\
    (json_writer_ok w = true ->
     exists x, json_parse (Some (text w)) = (JSON_OK, x) /\ json_int x = (JSON_OK, Some (- 2 ^ 63))).
Proof.
  apply (json_int_roundtrip (replicate 32 7) 32 (- 2 ^ 63)).
  - split; vm_compute; discriminate.
  - vm_compute. reflexivity.
  - split; vm_compute; [discriminate | reflexivity].
Defined.

(** The calls that write an object with one string member. *)
Definition put_member (k s : bytes) : list put :=
  [Put (lit "{"); PutString k; Put (lit ":"); PutString s; Put (lit "}")].

(** C18: no byte of a string can escape its quotes: an object written with
    json_put_string for the member name and the value is accepted by json_parse,
    has exactly that one member, and json_get with the name gives a string that
    decodes to exactly the bytes that were written. *)
Theorem json_string_roundtrip b c k s :
  0 <= c <= zlen b -> zlen b < 2 ^ 62 -> zlen k < 2 ^ 58 -> zlen s < 2 ^ 58 ->
  Forall byte_ok k -> Forall byte_ok s -> no_nul k -> no_nul s ->
  exists w, written b c (put_member k s) = Ok tt w /\
    (json_writer_ok w = true ->
     exists obj val, json_parse (Some (text w)) = (JSON_OK, obj) /\ json_count obj = 1 /\
       json_get obj (Some k) = (JSON_OK, val) /\ jtype val = T_STRING /\
       decode (body val) = Some s).
Proof.
  intros Hc Hb Hk Hs Bk Bs Nk Ns.
  destruct (written_spec b c (put_member k s)) as (w & E & _ & _ & _ & _ & Ht);
    [done | done | repeat (constructor; [done|]); constructor |].
  exists w. split; [done|]. intros Hok. rewrite (Ht Hok).
  assert (Ek : string_text k = QUOTE :: escaped k ++ [QUOTE]) by (unfold string_text; by rewrite cstr_id).
  assert (Es : string_text s = QUOTE :: escaped s ++ [QUOTE]) by (unfold string_text; by rewrite cstr_id).
  set (kt := string_text k) in *. set (st := string_text s) in *.
  assert (Hkt : jstring kt) by (rewrite Ek; by apply escaped_jstring).
  assert (Hst : jstring st) by (rewrite Es; by apply escaped_jstring).
  set (its := [(JV T_STRING kt, JV T_STRING st)]).
  set (sp := [] ++ kt ++ [] ++ ch ":" :: [] ++ st ++ []).
  assert (Hm : jmembers 31 its sp) by (apply jm_one; auto; by constructor).
  assert (Hr : put_member k s ≫= render = ch "{" :: sp ++ [ch "}"]).
  { change (put_member k s ≫= render) with ([123] ++ kt ++ [58] ++ st ++ [125] ++ []).
    unfold sp. cbn [app]. rewrite app_nil_r, <- app_assoc. done. }
  rewrite Hr. exists (JV T_OBJECT (ch "{" :: sp ++ [ch "}"])), (JV T_STRING st).
  assert (Hits : holds true (JV T_OBJECT (ch "{" :: sp ++ [ch "}"])) its).
  { split; [done|]. exists 31%nat, sp. split_and!; [lia | done | by right]. }
  split_and!.
  - apply json_parse_complete. by apply (jv_object 31 its).
  - unfold json_count. rewrite (walk_search _ _ _ _ _ _ Hits).
    by destruct (search_counting true None 0 its 0 no_value no_value) as [-> ->].
  - unfold json_get. cbn [jtype]. rewrite bool_decide_true by done. cbn [negb].
    rewrite (walk_search _ _ _ _ _ _ Hits).
    pose proof (search_key k its (holds_items_ok _ _ _ Hits) 0 no_value no_value) as ->.
    cbn [find its]. unfold named. cbn [fst]. rewrite bool_decide_true; [done|].
    rewrite Ek, body_jstring. by apply escaped_decode.
  - done.
  - rewrite Es, body_jstring. by apply escaped_decode.
Qed.

Lemma json_string_roundtrip_witness :
  exists w, written (replicate 40 7) 40 (put_member (lit "k") [34; 10; 1; 200]) = Ok tt w /\
    (json_writer_ok w = true ->
     exists obj val, json_parse (Some (text w)) = (JSON_OK, obj) /\ json_count obj = 1 /\
       json_get obj (Some (lit "k")) = (JSON_OK, val) /\ jtype val = T_STRING /\
       decode (body val) = Some [34; 10; 1; 200]).
Proof.
  apply (json_string_roundtrip (replicate 40 7) 40 (lit "k") [34; 10; 1; 200]).
  - split; vm_compute; discriminate.
  - vm_compute. reflexivity.
  - vm_compute. reflexivity.
  - vm_compute. reflexivity.
  - repeat constructor; vm_compute; discriminate.
  - repeat constructor; vm_compute; discriminate.
  - repeat constructor; vm_compute; discriminate.
  - repeat constructor; vm_compute; discriminate.
Defined.
