(* ===== verification/Kfmt.v ===== *)
(** lib/kfmt.c: vsnprintf, the kernel's bounded formatter.

    The format is the list of its bytes before the terminator; reading at its end gives
    the NUL, and advancing past the NUL is [Wild]. A variadic argument carries the type
    it was passed with, and fetching it as another type is [Wild], as are signed
    overflow in the parser and reads past the object a %s argument points into. *)

From S2P Require Import Prelude Bytes.
Open Scope prog_scope.

Definition FMT_STAR_MAX : Z := 8192.
Definition INT_MAX : Z := 2147483647.

(** An [int] or [unsigned] (its 32-bit pattern), a [long] or [size_t] (its 64-bit
    pattern), a pointer: its address and the bytes readable from there. *)
Inductive varg := VInt (x : Z) | VLong (x : Z) | VPtr (addr : Z) (mem : bytes).

Record sbuf := Sbuf { s_p : bytes; s_cap : Z; s_len : Z }.

(** ** Output *)

Definition sb_putc (c : Z) : prog sbuf unit := fun s =>
  let len' := wrap64 (s_len s + 1) in
  if len' <? s_cap s
  then match poke (s_len s) c (s_p s) with
       | Ok _ p => Ok tt (Sbuf p (s_cap s) len')
       | _ => Wild
       end
  else Ok tt (Sbuf (s_p s) (s_cap s) len').

Fixpoint sb_puts (t : bytes) : prog sbuf unit :=
  match t with [] => ret tt | c :: r => sb_putc c ;;; sb_puts r end.

(** [while (n-- > 0) sb_putc(s, pad);] *)
Definition sb_pad (n pad : Z) : prog sbuf unit :=
  Nat.iter (Z.to_nat n) (fun k => sb_putc pad ;;; k) (ret tt).

(** [tmp[n++] = c], in an array of 32. *)
Definition tmp_put (tmp : bytes) (c : Z) : prog sbuf bytes :=
  if zlen tmp <? 32 then ret (tmp ++ [c]) else fun _ => Wild.

Definition digit_char (upper : bool) (d : Z) : Z :=
  nth (Z.to_nat d) (lit (if upper then "0123456789ABCDEF" else "0123456789abcdef")) 0.

(** [while (v) { tmp[n++] = digits[v % base]; v /= base; }] *)
Fixpoint put_digits (fuel : nat) (v base : Z) (upper : bool) (tmp : bytes)
    : prog sbuf bytes :=
  match fuel with
  | O => fun _ => Spin
  | S k =>
      if v =? 0 then ret tmp
      else tmp <- tmp_put tmp (digit_char upper (v mod base)) ;;
           put_digits k (v / base) base upper tmp
  end.

(** [while (n < prec) tmp[n++] = '0';] *)
Definition put_zeros (prec : Z) (tmp : bytes) : prog sbuf bytes :=
  Nat.iter (Z.to_nat (prec - zlen tmp))
    (fun (k : bytes -> prog sbuf bytes) tmp => tmp <- tmp_put tmp (ch "0") ;; k tmp)
    ret tmp.

(** The digits, least significant first, as they stand in [tmp]. *)
Definition int_digits (v base : Z) (upper : bool) (prec : Z) : prog sbuf bytes :=
  tmp <- (if (v =? 0) && negb (prec =? 0) then tmp_put [] (ch "0") else ret []) ;;
  tmp <- put_digits 65 v base upper tmp ;;
  put_zeros prec tmp.

Definition emit_int (v : Z) (neg : bool) (base : Z) (upper : bool)
    (width prec : Z) (ljust zero : bool) : prog sbuf unit :=
  let prec := if 32 <? prec then 32 else prec in
  tmp <- int_digits v base upper prec ;;
  let pad := width - zlen tmp - (if neg then 1 else 0) in
  let zpad := zero && negb ljust && (prec <? 0) in
  (if negb ljust && negb zpad then sb_pad pad (ch " ") else ret tt) ;;;
  (if neg then sb_putc (ch "-") else ret tt) ;;;
  (if zpad then sb_pad pad (ch "0") else ret tt) ;;;
  sb_puts (rev tmp) ;;;
  (if ljust then sb_pad pad (ch " ") else ret tt).

(** ** The parser *)

(** [*fmt] *)
Definition cur (fmt : bytes) : Z := match fmt with [] => 0 | c :: _ => c end.

Fixpoint parse_flags (fmt : bytes) (ljust zero : bool) : bytes * bool * bool :=
  match fmt with
  | c :: r =>
      if c =? ch "-" then parse_flags r true zero
      else if c =? ch "0" then parse_flags r ljust true
      else (fmt, ljust, zero)
  | [] => (fmt, ljust, zero)
  end.

(** [while ('0' <= *fmt <= '9') acc = acc * 10 + ( *fmt++ - '0');] on an [int]. *)
Fixpoint parse_number (fmt : bytes) (acc : Z) : option (bytes * Z) :=
  match fmt with
  | c :: r =>
      if (ch "0" <=? c) && (c <=? ch "9") then
        let acc' := acc * 10 + (c - ch "0") in
        if INT_MAX <? acc' then None else parse_number r acc'
      else Some (fmt, acc)
  | [] => Some (fmt, acc)
  end.

(** [va_arg(ap, int)], [va_arg(ap, long)] and their unsigned counterparts. *)
Definition va_int (ap : list varg) : option (Z * list varg) :=
  match ap with VInt x :: r => Some (sgn 32 x, r) | _ => None end.
Definition va_unsigned (ap : list varg) : option (Z * list varg) :=
  match ap with VInt x :: r => Some (wrap32 x, r) | _ => None end.
Definition va_long (ap : list varg) : option (Z * list varg) :=
  match ap with VLong x :: r => Some (sgn 64 x, r) | _ => None end.
Definition va_ulong (ap : list varg) : option (Z * list varg) :=
  match ap with VLong x :: r => Some (wrap64 x, r) | _ => None end.
Definition va_ptr (ap : list varg) : option (Z * bytes * list varg) :=
  match ap with VPtr a m :: r => Some (a, m, r) | _ => None end.

Definition parse_width (fmt : bytes) (ljust : bool) (ap : list varg)
    : option (bytes * Z * bool * list varg) :=
  if cur fmt =? ch "*" then
    match va_int ap with
    | Some (w, ap) =>
        let ljust := if w <? 0 then true else ljust in
        let uw := if w <? 0 then wrap32 (0 - wrap32 w) else wrap32 w in
        Some (tail fmt, (if FMT_STAR_MAX <? uw then FMT_STAR_MAX else uw), ljust, ap)
    | None => None
    end
  else match parse_number fmt 0 with
       | Some (fmt, w) => Some (fmt, w, ljust, ap)
       | None => None
       end.

Definition parse_prec (fmt : bytes) (ap : list varg) : option (bytes * Z * list varg) :=
  if cur fmt =? ch "." then
    let fmt := tail fmt in
    if cur fmt =? ch "*" then
      match va_int ap with
      | Some (p, ap) =>
          Some (tail fmt,
                (if p <? 0 then -1 else if FMT_STAR_MAX <? p then FMT_STAR_MAX else p), ap)
      | None => None
      end
    else match parse_number fmt 0 with
         | Some (fmt, p) => Some (fmt, p, ap)
         | None => None
         end
  else Some (fmt, -1, ap).

Fixpoint parse_ls (fmt : bytes) (lng : Z) : bytes * Z :=
  match fmt with
  | c :: r => if c =? ch "l" then parse_ls r (lng + 1) else (fmt, lng)
  | [] => (fmt, lng)
  end.

Definition parse_length (fmt : bytes) : bytes * Z :=
  let '(fmt, lng) := parse_ls fmt 0 in
  if cur fmt =? ch "z" then (tail fmt, 2) else (fmt, lng).

(** ** Conversions *)

(** [while (str2[n] && (prec < 0 || n < prec)) n++;] on the object [m]; the count is an
    [int]. *)
Fixpoint scan_str (m : bytes) (n prec : Z) : option Z :=
  match m with
  | [] => None
  | c :: r =>
      if negb (c =? 0) && ((prec <? 0) || (n <? prec))
      then if n =? INT_MAX then None else scan_str r (n + 1) prec
      else Some n
  end.

Definition va_uint (lng : Z) (ap : list varg) :=
  if 1 <=? lng then va_ulong ap else va_unsigned ap.

(** The [switch]; [c] is not the NUL. *)
Definition convert (c lng width prec : Z) (ljust zero : bool) (ap : list varg)
    : prog sbuf (list varg) :=
  let uint base upper :=
    match va_uint lng ap with
    | Some (v, ap) => emit_int v false base upper width prec ljust zero ;;; ret ap
    | None => fun _ => Wild
    end in
  if (c =? ch "d") || (c =? ch "i") then
    match (if 1 <=? lng then va_long ap else va_int ap) with
    | Some (v, ap) =>
        let mag := if v <? 0 then wrap64 (0 - wrap64 v) else wrap64 v in
        emit_int mag (v <? 0) 10 false width prec ljust zero ;;; ret ap
    | None => fun _ => Wild
    end
  else if c =? ch "u" then uint 10 false
  else if c =? ch "x" then uint 16 false
  else if c =? ch "X" then uint 16 true
  else if c =? ch "p" then
    match va_ptr ap with
    | Some (a, _, ap) =>
        sb_putc (ch "0") ;;; sb_putc (ch "x") ;;;
        emit_int (wrap64 a) false 16 false 0 (-1) false false ;;; ret ap
    | None => fun _ => Wild
    end
  else if c =? ch "c" then
    match va_int ap with
    | Some (v, ap) =>
        (if negb ljust then sb_pad (width - 1) (ch " ") else ret tt) ;;;
        sb_putc (wrap8 v) ;;;
        (if ljust then sb_pad (width - 1) (ch " ") else ret tt) ;;; ret ap
    | None => fun _ => Wild
    end
  else if c =? ch "s" then
    match va_ptr ap with
    | Some (a, m, ap) =>
        let m := if a =? 0 then lit "(null)" ++ [0] else m in
        match scan_str m 0 prec with
        | Some n =>
            (if negb ljust then sb_pad (width - n) (ch " ") else ret tt) ;;;
            sb_puts (take (Z.to_nat n) m) ;;;
            (if ljust then sb_pad (width - n) (ch " ") else ret tt) ;;; ret ap
        | None => fun _ => Wild
        end
    | None => fun _ => Wild
    end
  else if c =? ch "%" then sb_putc (ch "%") ;;; ret ap
  else sb_putc (ch "%") ;;; sb_putc c ;;; ret ap.

(** One directive, [fmt] being what follows the '%'; the result is what follows the
    directive. A directive cut off by the terminator takes the [default] arm, prints a
    '%', and the loop's increment then leaves the string. *)
Definition directive (fmt : bytes) (ap : list varg) : prog sbuf (bytes * list varg) :=
  let '(fmt, ljust, zero) := parse_flags fmt false false in
  match parse_width fmt ljust ap with
  | None => fun _ => Wild
  | Some (fmt, width, ljust, ap) =>
      match parse_prec fmt ap with
      | None => fun _ => Wild
      | Some (fmt, prec, ap) =>
          let '(fmt, lng) := parse_length fmt in
          match fmt with
          | [] => sb_putc (ch "%") ;;; (fun _ => Wild)
          | c :: fmt => ap <- convert c lng width prec ljust zero ap ;; ret (fmt, ap)
          end
      end
  end.

Fixpoint vsn_loop (fuel : nat) (fmt : bytes) (ap : list varg) : prog sbuf unit :=
  match fuel with
  | O => fun _ => Spin
  | S k =>
      match fmt with
      | [] => ret tt
      | c :: r =>
          if negb (c =? ch "%") then sb_putc c ;;; vsn_loop k r ap
          else match r with
               | [] => sb_putc (ch "%")
               | _ => q <- directive r ap ;; vsn_loop k q.1 q.2
               end
      end
  end.

(** The result is the returned [int], the state the caller's buffer. *)
Definition vsnprintf (size : Z) (fmt : bytes) (ap : list varg) : prog bytes Z := fun b =>
  match vsn_loop (S (length fmt)) fmt ap (Sbuf b size 0) with
  | Ok _ s =>
      let ret_ := sgn 32 (s_len s) in
      if s_cap s =? 0 then Ok ret_ (s_p s)
      else match poke (if s_len s <? s_cap s then s_len s else s_cap s - 1) 0 (s_p s) with
           | Ok _ p => Ok ret_ p
           | _ => Wild
           end
  | Panic w => Panic w
  | Wild => Wild
  | Spin => Spin
  end.

Definition snprintf (size : Z) (fmt : bytes) (args : list varg) : prog bytes Z :=
  vsnprintf size fmt args.
