(* ===== verification/KfmtSpec.v ===== *)
(** lib/kfmt.c against the description of formats in the C standard: a format is a
    sequence of plain characters and directives, each directive stands for a piece of
    text, and vsnprintf stores as much of the text as fits. *)

From S2P Require Import Prelude Bytes Kfmt.
Open Scope prog_scope.

(** ** Formats and what they stand for *)

Definition spaces (n : Z) : bytes := replicate (Z.to_nat n) (ch " ").
Definition zeros (n : Z) : bytes := replicate (Z.to_nat n) (ch "0").

(** The digits of [v] in [base], most significant first; none for 0. *)
Fixpoint numeral (fuel : nat) (v base : Z) (upper : bool) : bytes :=
  match fuel with
  | O => []
  | S k => if v =? 0 then []
           else numeral k (v / base) base upper ++ [digit_char upper (v mod base)]
  end.

Definition is_digit (c : Z) : bool := (ch "0" <=? c) && (c <=? ch "9").
Definition number (ds : bytes) : Z :=
  foldl (fun acc c => acc * 10 + (c - ch "0")) 0 ds.

(** A width or precision: digits, or '*', an argument. *)
Inductive count := Num (ds : bytes) | Star.

Record spec := Spec {
  sp_flags : bytes;               (* any of '-' and '0' *)
  sp_width : count;               (* Num [] when there is none *)
  sp_prec : option count;         (* None when there is no '.' *)
  sp_ls : nat;                    (* how many 'l' *)
  sp_z : bool;                    (* 'z' *)
  sp_conv : Z }.

Inductive item := Plain (c : Z) | Directive (d : spec).

Definition spell_count (n : count) : bytes :=
  match n with Num ds => ds | Star => [ch "*"] end.

Definition spell_spec (d : spec) : bytes :=
  sp_flags d ++ spell_count (sp_width d) ++
  (match sp_prec d with None => [] | Some p => ch "." :: spell_count p end) ++
  replicate (sp_ls d) (ch "l") ++ (if sp_z d then [ch "z"] else []) ++ [sp_conv d].

Definition spell_item (i : item) : bytes :=
  match i with Plain c => [c] | Directive d => ch "%" :: spell_spec d end.

Definition spell (f : list item) : bytes := concat (map spell_item f).

(** What makes a spelling readable: flags are flags, numbers are digits that fit an
    [int], a width does not start with the flag '0', and the conversion character is
    none of those that belong to the parts before it. *)
Definition count_ok (n : count) : Prop :=
  match n with Num ds => Forall (fun c => is_digit c = true) ds /\ number ds <= INT_MAX
             | Star => True end.
Definition modifier (c : Z) : bool :=
  is_digit c || existsb (Z.eqb c) (lit "-*.lz").
Definition spec_ok (d : spec) : Prop :=
  Forall (fun c => c = ch "-" \/ c = ch "0") (sp_flags d) /\
  count_ok (sp_width d) /\ (forall r, sp_width d <> Num (ch "0" :: r)) /\
  (forall p, sp_prec d = Some p -> count_ok p) /\
  modifier (sp_conv d) = false.
Definition item_ok (i : item) : Prop :=
  match i with Plain c => c <> ch "%" | Directive d => spec_ok d end.

(** The value of a width and of a precision, with the arguments left. A negative '*'
    width asks for left justification, a negative '*' precision counts as none. *)
Definition width_of (n : count) (ap : list varg) : option (Z * bool * list varg) :=
  match n with
  | Num ds => Some (number ds, false, ap)
  | Star => match va_int ap with
            | Some (w, ap) => Some (Z.min (Z.abs w) FMT_STAR_MAX, w <? 0, ap)
            | None => None
            end
  end.
Definition prec_of (n : option count) (ap : list varg)
    : option (option Z * list varg) :=
  match n with
  | None => Some (None, ap)
  | Some (Num ds) => Some (Some (number ds), ap)
  | Some Star => match va_int ap with
                 | Some (p, ap) =>
                     Some (if p <? 0 then None else Some (Z.min p FMT_STAR_MAX), ap)
                 | None => None
                 end
  end.

(** [t] in a field of [width]. *)
Definition field (width : Z) (ljust : bool) (t : bytes) : bytes :=
  if ljust then t ++ spaces (width - zlen t) else spaces (width - zlen t) ++ t.

(** An integer of magnitude [v]: at least one digit, or as many as the precision asks
    for (up to 32); zero padding goes between the sign and the digits, and only when
    there is no precision and no left justification. *)
Definition int_field (v : Z) (neg : bool) (base : Z) (upper : bool)
    (width : Z) (prec : option Z) (ljust zero : bool) : bytes :=
  let sign := if neg then [ch "-"] else [] in
  let least := match prec with None => 1 | Some p => Z.min p 32 end in
  let num := numeral 65 v base upper in
  let digits := zeros (least - zlen num) ++ num in
  if zero && negb ljust && bool_decide (prec = None)
  then sign ++ zeros (width - zlen sign - zlen digits) ++ digits
  else field width ljust (sign ++ digits).

(** The text of a %s argument: up to the NUL or the precision. The object must hold
    the byte that ends the text. *)
Fixpoint c_text (m : bytes) (limit : option nat) : option bytes :=
  match m, limit with
  | [], _ => None
  | _ :: _, Some O => Some []
  | c :: r, _ => if c =? 0 then Some []
                 else match c_text r (pred <$> limit) with
                      | Some t => Some (c :: t)
                      | None => None
                      end
  end.

Definition is_long (d : spec) : bool := sp_z d || negb (sp_ls d =? 0)%nat.

Definition conv_text (d : spec) (width : Z) (prec : option Z) (ljust : bool)
    (ap : list varg) : option (bytes * list varg) :=
  let zero := existsb (Z.eqb (ch "0")) (sp_flags d) in
  let long := is_long d in
  let uint base upper :=
    match va_uint (if long then 1 else 0) ap with
    | Some (v, ap) => Some (int_field v false base upper width prec ljust zero, ap)
    | None => None
    end in
  let c := sp_conv d in
  if (c =? ch "d") || (c =? ch "i") then
    match (if long then va_long ap else va_int ap) with
    | Some (v, ap) => Some (int_field (Z.abs v) (v <? 0) 10 false width prec ljust zero, ap)
    | None => None
    end
  else if c =? ch "u" then uint 10 false
  else if c =? ch "x" then uint 16 false
  else if c =? ch "X" then uint 16 true
  else if c =? ch "p" then
    match va_ptr ap with
    | Some (a, _, ap) =>
        Some (lit "0x" ++ int_field (wrap64 a) false 16 false 0 None false false, ap)
    | None => None
    end
  else if c =? ch "c" then
    match va_int ap with
    | Some (v, ap) => Some (field width ljust [wrap8 v], ap)
    | None => None
    end
  else if c =? ch "s" then
    match va_ptr ap with
    | Some (a, m, ap) =>
        match c_text (if a =? 0 then lit "(null)" ++ [0] else m) (Z.to_nat <$> prec) with
        | Some t => if zlen t <=? INT_MAX then Some (field width ljust t, ap) else None
        | None => None
        end
    | None => None
    end
  else if c =? ch "%" then Some ([ch "%"], ap)
  else Some ([ch "%"; c], ap).

Definition item_text (i : item) (ap : list varg) : option (bytes * list varg) :=
  match i with
  | Plain c => Some ([c], ap)
  | Directive d =>
      match width_of (sp_width d) ap with
      | None => None
      | Some (width, neg, ap) =>
          match prec_of (sp_prec d) ap with
          | None => None
          | Some (prec, ap) =>
              conv_text d width prec (neg || existsb (Z.eqb (ch "-")) (sp_flags d)) ap
          end
      end
  end.

(** The text of a format, and the arguments it leaves unused. *)
Fixpoint format_text (f : list item) (ap : list varg) : option (bytes * list varg) :=
  match f with
  | [] => Some ([], ap)
  | i :: f => match item_text i ap with
              | Some (t, ap) => match format_text f ap with
                                | Some (u, ap) => Some (t ++ u, ap)
                                | None => None
                                end
              | None => None
              end
  end.

(** A buffer that received [t] under C99's rule: what fits before the last byte, then a
    NUL; nothing when [size] is 0. *)
Definition truncated (size : Z) (t b : bytes) : bytes :=
  if size =? 0 then b
  else patch 0 (take (Z.to_nat (size - 1)) t ++ [0]) b.

(** ** Output *)

(** The state after [t] has been output from the start of [b]. *)
Definition after (b : bytes) (size : Z) (t : bytes) : sbuf :=
  Sbuf (patch 0 (take (Z.to_nat (size - 1)) t) b) size (zlen t).

(** [m] outputs [t] and returns [a], whatever was output before. *)
Definition outputs {A} (m : prog sbuf A) (t : bytes) (a : A) : Prop :=
  forall b size t0, 0 <= size <= zlen b -> zlen t0 + zlen t < 2 ^ 63 ->
    m (after b size t0) = Ok a (after b size (t0 ++ t)).

Lemma outputs_ret {A} (a : A) : outputs (ret a) [] a.
Proof. intros b size t0 ??. by rewrite app_nil_r. Qed.

Lemma outputs_bind {A B} (m : prog sbuf A) (k : A -> prog sbuf B) t a u c :
  outputs m t a -> outputs (k a) u c -> outputs (x <- m ;; k x) (t ++ u) c.
Proof.
  intros Hm Hk b size t0 Hs Hl. autorewrite with zlen in Hl.
  pose proof (zlen_nonneg t). pose proof (zlen_nonneg u). unfold bind.
  rewrite (Hm b size t0), (Hk b size (t0 ++ t)), <- app_assoc;
    autorewrite with zlen; try lia. done.
Qed.

Lemma outputs_bind_pure {A B} (m : prog sbuf A) (k : A -> prog sbuf B) a u c :
  outputs m [] a -> outputs (k a) u c -> outputs (x <- m ;; k x) u c.
Proof. intros Hm Hk. apply (outputs_bind m k [] a u c Hm Hk). Qed.

Lemma patch_at_end b t i c :
  i = zlen t -> zlen t < zlen b -> patch i [c] (patch 0 t b) = patch 0 (t ++ [c]) b.
Proof.
  intros -> H. rewrite <- (patch_patch 0 t [c] b); [by rewrite Z.add_0_l|lia|].
  rewrite zlen_cons, zlen_nil. lia.
Qed.

Lemma outputs_putc c : outputs (sb_putc c) [c] tt.
Proof.
  intros b size t0 Hs Hl. rewrite zlen_cons, zlen_nil in Hl. pose proof (zlen_nonneg t0).
  unfold sb_putc, after. cbn [s_len s_cap s_p]. rewrite wrap64_small by lia.
  assert (Hz : forall u, zlen u = Z.of_nat (length u)) by done.
  destruct (Z.ltb_spec (zlen t0 + 1) size).
  - rewrite poke_ok; [|rewrite zlen_patch; rewrite ?Hz, ?length_take in *; lia].
    rewrite !take_ge by (rewrite ?length_app; cbn; rewrite ?Hz in *; lia).
    rewrite patch_at_end by (rewrite ?Hz in *; lia). by autorewrite with zlen.
  - rewrite take_app_le by (rewrite ?Hz in *; lia). by autorewrite with zlen.
Qed.

Lemma outputs_puts t : outputs (sb_puts t) t tt.
Proof.
  induction t as [|c t IH]; [apply outputs_ret|].
  apply (outputs_bind _ _ [c] tt t tt); [apply outputs_putc|done].
Qed.

Lemma outputs_pad n c : outputs (sb_pad n c) (replicate (Z.to_nat n) c) tt.
Proof.
  unfold sb_pad. induction (Z.to_nat n) as [|k IH]; [apply outputs_ret|].
  apply (outputs_bind _ _ [c] tt (replicate k c) tt); [apply outputs_putc|done].
Qed.

Lemma outputs_when (x : bool) m t :
  outputs m t tt -> outputs (if x then m else ret tt) (if x then t else []) tt.
Proof. destruct x; [done|]. intros _. apply outputs_ret. Qed.

Create HintDb outputs.
#[local] Hint Resolve outputs_ret outputs_putc outputs_puts outputs_pad outputs_when
  : outputs.

(** ** Integers *)

Lemma numeral_length k : forall n v base upper,
  10 <= base -> 0 <= v < 10 ^ Z.of_nat n -> (length (numeral k v base upper) <= n)%nat.
Proof.
  induction k as [|k IH]; intros n v base upper Hb Hv; cbn [numeral length]; [lia|].
  ztest; [cbn; lia|]. destruct n as [|n]; [cbn in Hv; lia|].
  rewrite Nat2Z.inj_succ, Z.pow_succ_r in Hv by lia. rewrite length_app. cbn [length].
  assert (0 <= v / base < 10 ^ Z.of_nat n).
  { split; [apply Z.div_pos; lia|]. apply Z.div_lt_upper_bound; [lia|]. nia. }
  specialize (IH n _ base upper Hb H). lia.
Qed.

Lemma numeral_S k v base upper :
  numeral (S k) v base upper =
  if v =? 0 then []
  else numeral k (v / base) base upper ++ [digit_char upper (v mod base)].
Proof. done. Qed.

Lemma put_digits_S k v base upper tmp :
  put_digits (S k) v base upper tmp =
  if v =? 0 then ret tmp
  else tmp <- tmp_put tmp (digit_char upper (v mod base)) ;;
       put_digits k (v / base) base upper tmp.
Proof. done. Qed.

Lemma tmp_put_ok tmp c : zlen tmp < 32 -> outputs (tmp_put tmp c) [] (tmp ++ [c]).
Proof. intros H. unfold tmp_put. rewrite (proj2 (Z.ltb_lt _ _)) by done. apply outputs_ret. Qed.

Lemma put_digits_ok k : forall v base upper tmp,
  10 <= base -> 0 <= v < 2 ^ Z.of_nat k ->
  zlen tmp + zlen (numeral (S k) v base upper) <= 32 ->
  outputs (put_digits (S k) v base upper tmp) [] (tmp ++ rev (numeral (S k) v base upper)).
Proof.
  induction k as [|k IH]; intros v base upper tmp Hb Hv Hl;
    rewrite put_digits_S, numeral_S in *; destruct (Z.eqb_spec v 0) as [->|Hv0].
  1, 3: rewrite app_nil_r; apply outputs_ret.
  1: cbn in Hv; lia.
  autorewrite with zlen in Hl. rewrite rev_app_distr. cbn [rev app].
  change (digit_char upper (v mod base) :: ?x) with ([digit_char upper (v mod base)] ++ x).
  rewrite app_assoc. pose proof (zlen_nonneg (numeral (S k) (v / base) base upper)).
  eapply outputs_bind_pure; [apply tmp_put_ok; lia|]. apply IH; [done| |].
  - rewrite Nat2Z.inj_succ, Z.pow_succ_r in Hv by lia. split; [apply Z.div_pos; lia|].
    apply Z.div_lt_upper_bound; [lia|]. nia.
  - autorewrite with zlen. lia.
Qed.

Lemma put_zeros_ok prec tmp :
  prec <= 32 -> outputs (put_zeros prec tmp) [] (tmp ++ zeros (prec - zlen tmp)).
Proof.
  intros Hp. unfold put_zeros, zeros.
  assert (Hk : Z.of_nat (Z.to_nat (prec - zlen tmp)) + zlen tmp <= 32
               \/ Z.to_nat (prec - zlen tmp) = O) by lia.
  revert Hk. generalize (Z.to_nat (prec - zlen tmp)). intros n. revert tmp.
  induction n as [|k IH]; intros tmp Hk; cbn [replicate].
  - rewrite app_nil_r. apply outputs_ret.
  - change (Nat.iter (S k) ?f ?x tmp) with (f (Nat.iter k f x) tmp). cbn beta.
    rewrite cons_middle, app_assoc. eapply outputs_bind_pure; [apply tmp_put_ok; lia|].
    apply IH. left. autorewrite with zlen. lia.
Qed.

Lemma zlen_pad_zeros n : zlen (zeros n) = Z.max 0 n.
Proof. unfold zlen, zeros. rewrite length_replicate. lia. Qed.
Lemma zlen_rev t : zlen (rev t) = zlen t.
Proof. unfold zlen. by rewrite length_rev. Qed.

Lemma rev_zeros n : rev (zeros n) = zeros n.
Proof.
  unfold zeros. induction (Z.to_nat n) as [|k IH]; [done|].
  cbn [replicate rev]. rewrite IH. symmetry. apply replicate_cons_app.
Qed.

Definition c_prec (prec : option Z) : Z := default (-1) prec.
Definition prec_ok (prec : option Z) : Prop := forall p, prec = Some p -> 0 <= p.
Definition digits_text (v base : Z) (upper : bool) (prec : option Z) : bytes :=
  let num := numeral 65 v base upper in
  zeros (match prec with None => 1 | Some p => Z.min p 32 end - zlen num) ++ num.

Lemma pad_zeros_neg n : n <= 0 -> zeros n = [].
Proof. intros. unfold zeros. by replace (Z.to_nat n) with O by lia. Qed.
Lemma zeros_S n : 0 <= n -> ch "0" :: zeros n = zeros (n + 1).
Proof. intros. unfold zeros. by rewrite Z2Nat.inj_add, Nat.add_1_r by lia. Qed.

Lemma numeral_short v base upper :
  10 <= base -> 0 <= v < 2 ^ 64 -> zlen (numeral 65 v base upper) <= 20.
Proof.
  intros Hb Hv. pose proof (numeral_length 65 20 v base upper Hb). unfold zlen.
  assert (2 ^ 64 <= 10 ^ Z.of_nat 20) by (vm_compute; discriminate). lia.
Qed.

Lemma numeral_pos v base upper : v <> 0 -> 1 <= zlen (numeral 65 v base upper).
Proof.
  intros H. rewrite numeral_S. ztest; [done|]. autorewrite with zlen.
  pose proof (zlen_nonneg (numeral 64 (v / base) base upper)). lia.
Qed.

(** The digits, in the order they are stored in [tmp]. *)
Lemma emit_digits_ok v base upper prec :
  10 <= base -> 0 <= v < 2 ^ 64 -> prec_ok prec ->
  let p := if 32 <? c_prec prec then 32 else c_prec prec in
  outputs (int_digits v base upper p) [] (rev (digits_text v base upper prec)).
Proof.
  intros Hb Hv Hp p.
  assert (Hpp : p = match prec with None => -1 | Some q => Z.min q 32 end /\ p <= 32).
  { unfold p. destruct prec as [q|]; cbn; [|done]. specialize (Hp q eq_refl). ztest; lia. }
  clearbody p. destruct Hpp as [Hpp Hp32].
  pose proof (numeral_short v base upper Hb Hv) as Hn. unfold digits_text.
  rewrite rev_app_distr, rev_zeros.
  eapply (outputs_bind_pure _ _ (if (v =? 0) && negb (p =? 0) then [ch "0"] else [])).
  { destruct (_ && _); [by apply (tmp_put_ok [])|apply outputs_ret]. }
  eapply outputs_bind_pure.
  { apply (put_digits_ok 64); [done|done|].
    destruct (Z.eqb_spec v 0) as [->|]; cbn [andb]; [|autorewrite with zlen; lia].
    rewrite numeral_S. cbn. destruct (p =? 0); vm_compute; discriminate. }
  destruct (Z.eqb_spec v 0) as [->|Hv0]; cbn [andb app].
  - rewrite numeral_S. cbn [Z.eqb rev app]. rewrite !app_nil_r, zlen_nil.
    destruct (Z.eqb_spec p 0) as [->|Hp0]; cbn [negb].
    + replace (_ - 0) with 0 by (destruct prec; lia). apply (put_zeros_ok 0); lia.
    + enough (zeros (match prec with Some q => Z.min q 32 | None => 1 end - 0)
              = [ch "0"] ++ zeros (p - zlen [ch "0"])) as -> by by apply put_zeros_ok.
      change (zlen [ch "0"]) with 1. destruct prec as [q|]; subst p; [|done].
      specialize (Hp q eq_refl). cbn [app]. rewrite zeros_S by lia. f_equal. lia.
  - pose proof (numeral_pos v base upper Hv0).
    enough (zeros (match prec with Some q => Z.min q 32 | None => 1 end
                   - zlen (numeral 65 v base upper))
            = zeros (p - zlen (rev (numeral 65 v base upper)))) as -> by by apply put_zeros_ok.
    rewrite zlen_rev. destruct prec; subst p; [done|]. by rewrite !pad_zeros_neg by lia.
Qed.

Lemma outputs_text {A} (m : prog sbuf A) t t' a : outputs m t a -> t = t' -> outputs m t' a.
Proof. by intros ? <-. Qed.

Lemma emit_int_ok v neg base upper width prec ljust zero :
  10 <= base -> 0 <= v < 2 ^ 64 -> prec_ok prec ->
  outputs (emit_int v neg base upper width (c_prec prec) ljust zero)
    (int_field v neg base upper width prec ljust zero) tt.
Proof.
  intros Hb Hv Hp. unfold emit_int.
  eapply outputs_bind_pure; [by apply emit_digits_ok|].
  set (p := if 32 <? c_prec prec then 32 else c_prec prec).
  assert (Hpn : (p <? 0) = bool_decide (prec = None)).
  { unfold p. destruct prec as [q|]; cbn; [|done]. specialize (Hp q eq_refl).
    apply Z.ltb_ge. ztest; lia. }
  eapply outputs_text.
  { repeat (eapply outputs_bind; [eauto with outputs|]). eauto with outputs. }
  rewrite rev_involutive, Hpn, zlen_rev. clearbody p.
  unfold int_field. fold (digits_text v base upper prec). set (T := digits_text _ _ _ _).
  unfold field, spaces, zeros.
  destruct ljust, neg, zero, (bool_decide (prec = None)); cbn [andb negb app];
    rewrite ?app_nil_r, ?zlen_cons, ?zlen_nil, <- ?app_assoc; cbn [app];
    by repeat (f_equal; try lia).
Qed.

(** ** The parser *)

Lemma parse_flags_ok fs : forall rest l z,
  Forall (fun c => c = ch "-" \/ c = ch "0") fs ->
  cur rest <> ch "-" -> cur rest <> ch "0" ->
  parse_flags (fs ++ rest) l z =
  (rest, l || existsb (Z.eqb (ch "-")) fs, z || existsb (Z.eqb (ch "0")) fs).
Proof.
  induction fs as [|c fs IH]; intros rest l z Hf H1 H2.
  - rewrite !orb_false_r. destruct rest as [|c r]; [done|]. cbn in *.
    by do 2 (ztest; [done|]).
  - inversion_clear Hf as [|?? Hc Hf']. cbn [app parse_flags existsb].
    destruct Hc as [-> | ->]; cbn; rewrite IH by done; cbn; by rewrite ?orb_true_r.
Qed.

Lemma number_app acc ds :
  Forall (fun c => is_digit c = true) ds -> 0 <= acc ->
  acc <= foldl (fun acc c => acc * 10 + (c - ch "0")) acc ds.
Proof.
  intros H. revert acc. induction H as [|c ds Hc _ IH]; intros acc Ha; cbn [foldl]; [lia|].
  unfold is_digit in Hc. b2p. etransitivity; [|apply IH]; lia.
Qed.

Lemma parse_number_ok ds : forall rest acc,
  Forall (fun c => is_digit c = true) ds -> 0 <= acc -> is_digit (cur rest) = false ->
  foldl (fun acc c => acc * 10 + (c - ch "0")) acc ds <= INT_MAX ->
  parse_number (ds ++ rest) acc =
  Some (rest, foldl (fun acc c => acc * 10 + (c - ch "0")) acc ds).
Proof.
  induction ds as [|c ds IH]; intros rest acc Hd Ha Hr Hm; cbn [app foldl].
  - destruct rest as [|c r]; [done|]. cbn in *. unfold is_digit in Hr. by rewrite Hr.
  - inversion_clear Hd as [|?? Hc Hd']. cbn [parse_number]. unfold is_digit in Hc.
    rewrite Hc. cbn [foldl] in Hm. b2p.
    pose proof (number_app (acc * 10 + (c - ch "0")) ds Hd').
    rewrite (proj2 (Z.ltb_ge _ _)) by lia. apply IH; try done; lia.
Qed.

Lemma number_nonneg ds : Forall (fun c => is_digit c = true) ds -> 0 <= number ds.
Proof. intros H. by apply (number_app 0). Qed.

Lemma parse_ls_ok k : forall rest lng,
  cur rest <> ch "l" ->
  parse_ls (replicate k (ch "l") ++ rest) lng = (rest, lng + Z.of_nat k).
Proof.
  induction k as [|k IH]; intros rest lng H; cbn [replicate app].
  - destruct rest as [|c r]; cbn in *; [f_equal; lia|]. ztest; [done|]. f_equal. lia.
  - cbn [parse_ls]. rewrite IH by done. f_equal. lia.
Qed.

Lemma parse_length_ok k (z : bool) c rest :
  c <> ch "l" -> c <> ch "z" ->
  parse_length (replicate k (ch "l") ++ (if z then [ch "z"] else []) ++ c :: rest) =
  (c :: rest, if z then 2 else Z.of_nat k).
Proof.
  intros H1 H2. unfold parse_length. rewrite parse_ls_ok by by destruct z.
  destruct z; cbn; [done|]. by ztest.
Qed.

Lemma modifier_false c :
  modifier c = false ->
  is_digit c = false /\ c <> ch "-" /\ c <> ch "*" /\ c <> ch "." /\ c <> ch "l" /\ c <> ch "z".
Proof.
  unfold modifier. intros H. b2p. split; [done|].
  repeat split; intros ->; by cbn in *.
Qed.

(** [va_int] yields an [int]. *)
Lemma sgn32_range x : - 2 ^ 31 <= sgn 32 x < 2 ^ 31.
Proof.
  unfold sgn. pose proof (wrap_range 32 x ltac:(lia)). ztest; lia.
Qed.

Lemma star_width w :
  - 2 ^ 31 <= w < 2 ^ 31 ->
  (if w <? 0 then wrap32 (0 - wrap32 w) else wrap32 w) = Z.abs w.
Proof.
  intros H. ztest.
  - unfold wrap. rewrite Zminus_mod_idemp_r. replace (0 - w) with (Z.abs w) by lia.
    apply Z.mod_small. lia.
  - rewrite wrap_small; lia.
Qed.

Lemma parse_width_ok n rest l ap w neg ap' :
  count_ok n -> is_digit (cur rest) = false -> cur rest <> ch "*" ->
  width_of n ap = Some (w, neg, ap') ->
  parse_width (spell_count n ++ rest) l ap = Some (rest, w, neg || l, ap').
Proof.
  intros Hn Hd Hs Hw. unfold parse_width. destruct n as [ds|]; cbn [spell_count].
  - destruct Hn as [Hds Hm]. injection Hw as <- <- <-.
    rewrite (parse_number_ok ds) by done. destruct ds as [|c ds]; cbn [app cur].
    + by rewrite (proj2 (Z.eqb_neq _ _)).
    + inversion_clear Hds as [|?? Hc _]. unfold is_digit in Hc. b2p.
      rewrite (proj2 (Z.eqb_neq _ _)) by lia. done.
  - cbn [app cur Z.eqb]. cbn in Hw.
    destruct (va_int ap) as [[w0 ap0]|] eqn:E; [|done]. injection Hw as <- <- <-.
    destruct ap as [|[x|x|? ?] ap]; try done. injection E as <- <-. cbn.
    rewrite star_width by apply sgn32_range.
    replace (if sgn 32 x <? 0 then true else l) with ((sgn 32 x <? 0) || l)
      by by destruct (_ <? _).
    do 4 f_equal. ztest; lia.
Qed.

Lemma parse_prec_ok n rest ap prec ap' :
  (forall p, n = Some p -> count_ok p) -> is_digit (cur rest) = false ->
  cur rest <> ch "*" -> cur rest <> ch "." ->
  prec_of n ap = Some (prec, ap') ->
  parse_prec ((match n with None => [] | Some p => ch "." :: spell_count p end) ++ rest) ap
  = Some (rest, c_prec prec, ap') /\ prec_ok prec.
Proof.
  intros Hn Hd Hs Hdot Hp. unfold parse_prec. destruct n as [[ds|]|]; cbn [spell_count app].
  - injection Hp as <- <-. destruct (Hn _ eq_refl) as [Hds Hm].
    split; [|by intros p [= <-]; apply number_nonneg].
    cbn [cur Z.eqb tail]. rewrite (parse_number_ok ds) by done.
    destruct ds as [|c ds]; cbn [app cur].
    + by rewrite (proj2 (Z.eqb_neq _ _)).
    + inversion_clear Hds as [|?? Hc _]. unfold is_digit in Hc. b2p.
      rewrite (proj2 (Z.eqb_neq _ _)) by lia. done.
  - cbn in Hp |- *. destruct (va_int ap) as [[p0 ap0]|]; [|done]. injection Hp as <- <-.
    destruct (Z.ltb_spec p0 0); cbn [c_prec default]; [done|]. split.
    + do 3 f_equal. cbn. ztest; lia.
    + intros p [= <-]. unfold FMT_STAR_MAX. lia.
  - injection Hp as <- <-. by rewrite (proj2 (Z.eqb_neq _ _)).
Qed.

(** ** Conversions *)

Lemma scan_str_ok m : forall n prec t,
  prec_ok prec -> 0 <= n <= INT_MAX -> n <= c_prec prec \/ prec = None ->
  c_text m ((fun p => Z.to_nat (p - n)) <$> prec) = Some t -> n + zlen t <= INT_MAX ->
  scan_str m n (c_prec prec) = Some (n + zlen t) /\ take (length t) m = t.
Proof.
  induction m as [|c m IH]; intros n prec t Hp Hn Hle Ht Hl; [by destruct prec|].
  cbn [scan_str].
  destruct (decide (prec = Some n)) as [->|Hne].
  { cbn in Ht |- *. rewrite Z.sub_diag in Ht. injection Ht as <-.
    rewrite Z.ltb_irrefl, (proj2 (Z.ltb_ge n 0)), andb_false_r by lia.
    by rewrite zlen_nil, Z.add_0_r. }
  assert (Hgo : (c_prec prec <? 0) || (n <? c_prec prec) = true).
  { destruct prec as [p|]; [|done]. specialize (Hp p eq_refl). cbn in *.
    apply orb_true_iff. right. apply Z.ltb_lt. destruct Hle; [|done].
    assert (n <> p) by congruence. lia. }
  rewrite Hgo, andb_true_r.
  assert (Hlim : c_text (c :: m) ((fun p => Z.to_nat (p - n)) <$> prec) =
                 if c =? 0 then Some []
                 else match c_text m ((fun p => Z.to_nat (p - (n + 1))) <$> prec) with
                      | Some t => Some (c :: t) | None => None end).
  { destruct prec as [p|]; [|done]. specialize (Hp p eq_refl).
    b2p. cbn in Hle. destruct Hle as [Hle|]; [|done].
    assert (n <> p) by congruence. cbn [fmap option_fmap option_map].
    destruct (Z.to_nat (p - n)) as [|k] eqn:E; [lia|]. cbn [c_text fmap option_fmap option_map].
    by replace (Z.to_nat (p - (n + 1))) with (pred (S k)) by lia. }
  rewrite Hlim in Ht. destruct (Z.eqb_spec c 0) as [->|Hc]; cbn [negb].
  { injection Ht as <-. by rewrite zlen_nil, Z.add_0_r. }
  destruct (c_text m _) as [t'|] eqn:E; [|done]. injection Ht as <-.
  rewrite zlen_cons in *. pose proof (zlen_nonneg t'). ztest; [lia|].
  destruct (IH (n + 1) prec t') as [-> Htk]; try done; try lia.
  - destruct prec as [p|]; [|by right]. left. cbn in *. b2p. destruct Hle; [|done].
    assert (n <> p) by congruence. lia.
  - split; [f_equal; lia|]. cbn [length take]. by rewrite Htk.
Qed.

Lemma outputs_then {A} (m : prog sbuf unit) t (a : A) :
  outputs m t tt -> outputs (m ;;; ret a) t a.
Proof.
  intros H. eapply outputs_text; [by eapply outputs_bind, outputs_ret|]. apply app_nil_r.
Qed.

(** [t] set in a field: padding on one side. *)
Lemma outputs_field {A} m t n width ljust (a : A) :
  outputs m t tt -> n = zlen t ->
  outputs ((if negb ljust then sb_pad (width - n) (ch " ") else ret tt) ;;; m ;;;
           (if ljust then sb_pad (width - n) (ch " ") else ret tt) ;;; ret a)
    (field width ljust t) a.
Proof.
  intros Hm ->. eapply outputs_text.
  { do 2 (eapply outputs_bind; [eauto with outputs|]). apply outputs_then.
    eauto with outputs. }
  unfold field, spaces. destruct ljust; cbn [negb app]; [done|]. by rewrite app_nil_r.
Qed.

Lemma va_uint_ok lng ap v ap' :
  va_uint lng ap = Some (v, ap') -> 0 <= v < 2 ^ 64.
Proof.
  unfold va_uint, va_ulong, va_unsigned.
  destruct (1 <=? lng), ap as [|[x|x|? ?] ap]; intros E; simplify_eq.
  - apply wrap_range. lia.
  - pose proof (wrap_range 32 x). lia.
Qed.

Lemma magnitude v :
  - 2 ^ 63 <= v < 2 ^ 63 -> (if v <? 0 then wrap64 (0 - wrap64 v) else wrap64 v) = Z.abs v.
Proof.
  intros H. ztest.
  - unfold wrap. rewrite Zminus_mod_idemp_r. replace (0 - v) with (Z.abs v) by lia.
    apply Z.mod_small. lia.
  - rewrite wrap_small; lia.
Qed.

Lemma va_sint_ok (long : bool) ap v ap' :
  (if long then va_long ap else va_int ap) = Some (v, ap') -> - 2 ^ 63 <= v < 2 ^ 63.
Proof.
  destruct long, ap as [|[x|x|? ?] ap]; intros E; try done; injection E as <- <-.
  - unfold sgn. pose proof (wrap_range 64 x ltac:(lia)). ztest; lia.
  - pose proof (sgn32_range x). lia.
Qed.

Lemma lng_long (z : bool) k :
  (1 <=? (if z then 2 else Z.of_nat k)) = z || negb (k =? 0)%nat.
Proof. destruct z; [done|]. destruct k; [done|]. cbn [Nat.eqb negb orb]. apply Z.leb_le. lia. Qed.

Lemma va_uint_long d ap :
  va_uint (if sp_z d then 2 else Z.of_nat (sp_ls d)) ap = va_uint (if is_long d then 1 else 0) ap.
Proof. unfold va_uint. rewrite lng_long. fold (is_long d). by destruct (is_long d). Qed.

Lemma convert_uint d base upper width prec ljust zero ap t ap' :
  10 <= base -> prec_ok prec ->
  match va_uint (if is_long d then 1 else 0) ap with
  | Some (v, ap) => Some (int_field v false base upper width prec ljust zero, ap)
  | None => None
  end = Some (t, ap') ->
  outputs match va_uint (if sp_z d then 2 else Z.of_nat (sp_ls d)) ap with
          | Some (v, ap) =>
              emit_int v false base upper width (c_prec prec) ljust zero ;;; ret ap
          | None => fun _ => Wild
          end t ap'.
Proof.
  intros Hb Hp. rewrite va_uint_long.
  destruct (va_uint _ ap) as [[v ap1]|] eqn:E; [|done]. intros [= <- <-].
  apply outputs_then, emit_int_ok; [done|by eapply va_uint_ok|done].
Qed.

Lemma convert_str a m width prec ljust (ap : list varg) u :
  let m' := if a =? 0 then lit "(null)" ++ [0] else m in
  prec_ok prec -> c_text m' (Z.to_nat <$> prec) = Some u -> zlen u <= INT_MAX ->
  outputs match scan_str m' 0 (c_prec prec) with
          | Some n =>
              (if negb ljust then sb_pad (width - n) (ch " ") else ret tt) ;;;
              sb_puts (take (Z.to_nat n) m') ;;;
              (if ljust then sb_pad (width - n) (ch " ") else ret tt) ;;; ret ap
          | None => fun _ => Wild
          end (field width ljust u) ap.
Proof.
  intros m' Hp E Hu. destruct (scan_str_ok m' 0 prec u) as [-> Htk]; try done.
  - destruct prec as [p|]; [left; by apply Hp|by right].
  - rewrite <- E. f_equal. destruct prec; cbn; [|done]. by rewrite Z.sub_0_r.
  - rewrite Z.add_0_l. replace (Z.to_nat (zlen u)) with (length u) by (unfold zlen; lia).
    rewrite Htk. apply outputs_field; eauto with outputs.
Qed.

Lemma convert_ok d width prec ljust ap t ap' :
  prec_ok prec -> conv_text d width prec ljust ap = Some (t, ap') ->
  outputs (convert (sp_conv d) (if sp_z d then 2 else Z.of_nat (sp_ls d)) width
             (c_prec prec) ljust (existsb (Z.eqb (ch "0")) (sp_flags d)) ap) t ap'.
Proof.
  intros Hp Ht. unfold convert, conv_text in *.
  set (c := sp_conv d) in *. set (zero := existsb _ _) in *. clearbody c zero.
  destruct ((c =? ch "d") || (c =? ch "i")).
  { rewrite lng_long. fold (is_long d).
    destruct (if is_long d then _ else _) as [[v ap1]|] eqn:E; [|done]. injection Ht as <- <-. apply va_sint_ok in E. rewrite magnitude by done.
    apply outputs_then, emit_int_ok; [done|lia|done]. }
  do 3 (match goal with |- context [c =? ?k] => destruct (c =? k) end;
        [by apply convert_uint|]).
  destruct (c =? ch "p").
  { destruct (va_ptr ap) as [[[a m] ap1]|]; [|done]. injection Ht as <- <-.
    apply (outputs_bind _ _ [ch "0"] tt); [apply outputs_putc|].
    apply (outputs_bind _ _ [ch "x"] tt); [apply outputs_putc|].
    apply outputs_then, (emit_int_ok _ _ _ _ _ None); [done|by apply wrap_range|done]. }
  destruct (c =? ch "c").
  { destruct (va_int ap) as [[v ap1]|]; [|done]. injection Ht as <- <-.
    apply outputs_field; eauto with outputs. }
  destruct (c =? ch "s").
  { destruct (va_ptr ap) as [[[a m] ap1]|]; [|done].
    destruct (c_text _ _) as [u|] eqn:E; [|done].
    destruct (Z.leb_spec (zlen u) INT_MAX); [|done]. injection Ht as <- <-.
    by apply convert_str. }
  destruct (c =? ch "%"); injection Ht as <- <-.
  - apply outputs_then, outputs_putc.
  - apply (outputs_bind _ _ [ch "%"] tt); [apply outputs_putc|].
    apply outputs_then, outputs_putc.
Qed.

(** ** Whole formats *)

(** The part of a directive before its conversion character. *)
Definition spell_mods (d : spec) : bytes :=
  sp_flags d ++ spell_count (sp_width d) ++
  (match sp_prec d with None => [] | Some p => ch "." :: spell_count p end) ++
  replicate (sp_ls d) (ch "l") ++ (if sp_z d then [ch "z"] else []).

Lemma spell_spec_mods d : spell_spec d = spell_mods d ++ [sp_conv d].
Proof. unfold spell_spec, spell_mods. by rewrite <- !app_assoc. Qed.

(** What the tail of a directive after its precision can start with. *)
Lemma cur_length_part k (z : bool) rest :
  let c := cur (replicate k (ch "l") ++ (if z then [ch "z"] else []) ++ rest) in
  c = ch "l" \/ c = ch "z" \/ c = cur rest.
Proof. destruct k; [destruct z|]; cbn; auto. Qed.

(** All that precedes the conversion character, when what follows it ([rest]) does not
    look like more of it. *)
Lemma parse_mods d rest ap w neg ap1 prec ap2 :
  spec_ok d ->
  is_digit (cur rest) = false -> cur rest <> ch "-" -> cur rest <> ch "*" ->
  cur rest <> ch "." ->
  width_of (sp_width d) ap = Some (w, neg, ap1) ->
  prec_of (sp_prec d) ap1 = Some (prec, ap2) ->
  let tail_ := replicate (sp_ls d) (ch "l") ++ (if sp_z d then [ch "z"] else []) ++ rest in
  exists mid,
    parse_flags (spell_mods d ++ rest) false false =
      (spell_count (sp_width d) ++ mid, existsb (Z.eqb (ch "-")) (sp_flags d),
       existsb (Z.eqb (ch "0")) (sp_flags d)) /\
    parse_width (spell_count (sp_width d) ++ mid)
      (existsb (Z.eqb (ch "-")) (sp_flags d)) ap =
      Some (mid, w, neg || existsb (Z.eqb (ch "-")) (sp_flags d), ap1) /\
    parse_prec mid ap1 = Some (tail_, c_prec prec, ap2) /\ prec_ok prec.
Proof.
  intros (Hf & Hw & Hw0 & Hp & _) Hd Hm Hs Hdot Ew Ep tail_.
  assert (Ht : is_digit (cur tail_) = false /\ cur tail_ <> ch "-" /\ cur tail_ <> ch "*"
               /\ cur tail_ <> ch ".").
  { destruct (cur_length_part (sp_ls d) (sp_z d) rest) as [E|[E|E]];
      fold tail_ in E; rewrite E; done. }
  destruct Ht as (Htd & Htm & Hts & Htdot).
  set (mid := (match sp_prec d with None => [] | Some p => ch "." :: spell_count p end)
                ++ tail_).
  assert (Hmid : is_digit (cur mid) = false /\ cur mid <> ch "-" /\ cur mid <> ch "*")
    by by subst mid; destruct (sp_prec d).
  destruct Hmid as (Hmd & Hmm & Hms). exists mid.
  assert (Hcur : cur (spell_count (sp_width d) ++ mid) <> ch "-" /\
                 cur (spell_count (sp_width d) ++ mid) <> ch "0").
  { destruct (sp_width d) as [[|c ds]|]; cbn [spell_count app cur].
    - split; [done|]. intros E. by rewrite E in Hmd.
    - destruct Hw as [Hds _]. inversion_clear Hds as [|?? Hc _]. unfold is_digit in Hc. b2p.
      split; [lia|]. intros ->. by apply (Hw0 ds).
    - done. }
  split; [|split; [by apply parse_width_ok|by apply parse_prec_ok]].
  replace (spell_mods d ++ rest) with (sp_flags d ++ spell_count (sp_width d) ++ mid)
    by (unfold spell_mods, mid, tail_; by rewrite <- !app_assoc).
  destruct Hcur. by apply parse_flags_ok.
Qed.

Lemma directive_ok d rest ap t ap' :
  spec_ok d -> item_text (Directive d) ap = Some (t, ap') ->
  outputs (directive (spell_spec d ++ rest) ap) t (rest, ap').
Proof.
  intros Hok Ht. cbn [item_text] in Ht.
  destruct (width_of (sp_width d) ap) as [[[w neg] ap1]|] eqn:Ew; [|done].
  destruct (prec_of (sp_prec d) ap1) as [[prec ap2]|] eqn:Ep; [|done].
  destruct (modifier_false (sp_conv d)) as (Hd & Hm & Hs & Hdot & Hl & Hz); [apply Hok|].
  destruct (parse_mods d (sp_conv d :: rest) ap w neg ap1 prec ap2)
    as (mid & E1 & E2 & E3 & Hprec); try done.
  rewrite spell_spec_mods, <- app_assoc. cbn [app]. unfold directive.
  rewrite E1, E2, E3, parse_length_ok by done.
  eapply outputs_text; [eapply outputs_bind; [by apply convert_ok|apply outputs_ret]|].
  apply app_nil_r.
Qed.

Lemma vsn_loop_S k fmt ap :
  vsn_loop (S k) fmt ap =
  match fmt with
  | [] => ret tt
  | c :: r =>
      if negb (c =? ch "%") then sb_putc c ;;; vsn_loop k r ap
      else match r with
           | [] => sb_putc (ch "%")
           | _ => q <- directive r ap ;; vsn_loop k q.1 q.2
           end
  end.
Proof. done. Qed.

Lemma spell_cons i f : spell (i :: f) = spell_item i ++ spell f.
Proof. done. Qed.

(** The loop on a well-spelled format followed by [rest]. *)
Lemma vsn_loop_items f : forall k rest ap t ap' u,
  Forall item_ok f -> (length (spell f ++ rest) < k)%nat ->
  format_text f ap = Some (t, ap') ->
  (forall k', (length rest < k')%nat -> outputs (vsn_loop k' rest ap') u tt) ->
  outputs (vsn_loop k (spell f ++ rest) ap) (t ++ u) tt.
Proof.
  induction f as [|i f IH]; intros k rest ap t ap' u Hf Hk Ht Hrest.
  - injection Ht as <- <-. by apply Hrest.
  - inversion_clear Hf as [|?? Hi Hf']. cbn [format_text] in Ht.
    destruct (item_text i ap) as [[t1 ap1]|] eqn:E; [|done].
    destruct (format_text f ap1) as [[t2 ap2]|] eqn:E2; [|done]. injection Ht as <- <-.
    rewrite spell_cons, <- !app_assoc in *. destruct k as [|k]; [lia|].
    rewrite vsn_loop_S. rewrite length_app in Hk. destruct i as [c|d]; cbn [spell_item app].
    + injection E as <- <-. cbn in Hi, Hk. rewrite (proj2 (Z.eqb_neq _ _)) by done. cbn [negb].
      eapply outputs_bind; [apply outputs_putc|]. eapply IH; [done|lia|done|done].
    + cbn [Z.eqb negb]. cbn in Hk. pose proof (directive_ok d (spell f ++ rest) ap t1 ap1 Hi E) as Hd.
      destruct (spell_spec d ++ spell f ++ rest) eqn:El.
      { by rewrite spell_spec_mods in El; destruct (spell_mods d). }
      change (negb (ch "%" =? ch "%")) with false. cbn [Pos.eqb negb].
      eapply outputs_bind; [exact Hd|]. cbn [fst snd]. eapply IH; [done|lia|done|done].
Qed.

Lemma after_nil b size : after b size [] = Sbuf b size 0.
Proof. unfold after. by rewrite take_nil, patch_nil. Qed.

Lemma vsnprintf_outputs fmt ap t b size :
  outputs (vsn_loop (S (length fmt)) fmt ap) t tt ->
  0 <= size <= zlen b -> zlen t < 2 ^ 31 ->
  vsnprintf size fmt ap b = Ok (zlen t) (truncated size t b).
Proof.
  intros Ho Hs Hl. unfold vsnprintf. rewrite <- after_nil.
  rewrite (Ho b size []) by (rewrite ?zlen_nil; lia). cbn [app].
  unfold after. cbn [s_p s_cap s_len]. pose proof (zlen_nonneg t).
  replace (sgn 32 (zlen t)) with (zlen t)
    by (unfold sgn; rewrite wrap_small by lia; ztest; lia).
  unfold truncated. destruct (Z.eqb_spec size 0) as [->|Hz].
  { cbn. by rewrite patch_nil. }
  assert (Hz' : forall u, zlen u = Z.of_nat (length u)) by done.
  set (u := take (Z.to_nat (size - 1)) t).
  assert (Hu : zlen u = Z.min (size - 1) (zlen t)) by (rewrite !Hz'; unfold u; rewrite length_take; lia).
  rewrite poke_ok by (rewrite zlen_patch by lia; ztest; lia).
  rewrite patch_at_end; [done| |lia]. ztest; lia.
Qed.
