(* ===== verification/KfmtClaims.v ===== *)
(** lib/kfmt.c: what vsnprintf promises, and its integers read back with net/json.c. *)

From S2P Require Import Prelude Bytes Json JsonWriter JsonGrammar JsonNav JsonText JsonOut.
From S2P Require Import Kfmt KfmtSpec.

(** C33: for every well-formed format, vsnprintf returns the length of the text the
    format stands for with its arguments, and stores as much of it as fits before the
    last byte of the buffer, then a NUL; it touches nothing past [size], and a size of
    0 stores nothing. A lone '%' at the end of the format prints itself. *)
Theorem vsnprintf_formats f (bare : bool) ap t ap' b size :
  Forall item_ok f -> format_text f ap = Some (t, ap') ->
  0 <= size <= zlen b ->
  let tl := if bare then lit "%" else [] in
  zlen (t ++ tl) < 2 ^ 31 ->
  vsnprintf size (spell f ++ tl) ap b = Ok (zlen (t ++ tl)) (truncated size (t ++ tl) b).
Proof.
  intros Hf Ht Hs tl Hl. apply vsnprintf_outputs; [|done|done].
  eapply vsn_loop_items; [done|lia|done|]. intros k Hk. destruct k as [|k]; [lia|].
  rewrite vsn_loop_S. subst tl. destruct bare; cbn [lit]; [apply outputs_putc|apply outputs_ret].
Qed.

Definition demo_format : list item :=
  [Plain (ch "x"); Plain (ch "=");
   Directive (Spec (lit "0") (Num (lit "6")) None 1 false (ch "d"));
   Directive (Spec (lit "-") Star (Some (Num (lit "2"))) 0 false (ch "s"))].
Definition demo_args : list varg := [VLong (-42); VInt 4; VPtr 4096 (lit "abc" ++ [0])].

Lemma vsnprintf_formats_witness :
  spell demo_format ++ lit "%" = lit "x=%06ld%-*.2s%" /\
  vsnprintf 11 (spell demo_format ++ lit "%") demo_args (replicate 16 7) =
  Ok 13 (truncated 11 (lit "x=-00042ab  %") (replicate 16 7)).
Proof.
  split; [reflexivity|].
  apply (vsnprintf_formats demo_format true demo_args (lit "x=-00042ab  ") []).
  - constructor; [discriminate|]. constructor; [discriminate|].
    constructor; [|constructor; [|constructor]]; cbn.
    + split; [constructor; [right; reflexivity|constructor]|].
      split; [split; [repeat constructor|vm_compute; discriminate]|].
      split; [intros r E; discriminate E|]. split; [intros p E; discriminate E|reflexivity].
    + split; [constructor; [left; reflexivity|constructor]|]. split; [exact I|].
      split; [intros r E; discriminate E|]. split; [|reflexivity].
      intros p [= <-]. split; [repeat constructor|vm_compute; discriminate].
  - vm_compute. reflexivity.
  - split; vm_compute; discriminate.
  - vm_compute. reflexivity.
Defined.

(** ** Integers *)

Lemma digit_char_dec d : 0 <= d < 10 -> digit_char false d = 48 + d.
Proof.
  intros H. assert (Hc : d = 0 \/ d = 1 \/ d = 2 \/ d = 3 \/ d = 4 \/ d = 5 \/ d = 6 \/ d = 7
    \/ d = 8 \/ d = 9) by lia. by repeat destruct Hc as [->|Hc]; subst.
Qed.

Lemma numeral_uint_digits room : forall k v,
  0 <= v < 10 ^ Z.of_nat room -> (room <= k)%nat ->
  uint_digits room v = Some (rev (numeral k v 10 false)).
Proof.
  induction room as [|room IH]; intros k v Hv Hk; cbn [uint_digits].
  - replace v with 0 by (cbn in Hv; lia). by destruct k.
  - destruct k as [|k]; [lia|]. rewrite numeral_S. destruct (Z.eqb_spec v 0); [done|].
    rewrite Nat2Z.inj_succ, Z.pow_succ_r in Hv by lia.
    pose proof (Z.div_mod v 10 ltac:(lia)). pose proof (Z.mod_pos_bound v 10 ltac:(lia)).
    rewrite (IH k) by (try split; try lia; nia).
    by rewrite rev_app_distr, digit_char_dec by lia.
Qed.

Lemma plain_int_field v :
  int64 v -> int_field (Z.abs v) (v <? 0) 10 false 0 None false false = int_text v.
Proof.
  unfold int64. intros Hv. unfold int_field. cbn [andb].
  assert (Hd : forall u, 0 <= u < 2 ^ 64 ->
    zeros (1 - zlen (numeral 65 u 10 false)) ++ numeral 65 u 10 false = decimal u).
  { intros u Hu. unfold decimal. destruct (Z.eqb_spec u 0) as [->|Hu0]; [done|].
    rewrite (numeral_uint_digits 20 65) by (cbn; lia).
    change (default [] (Some ?x)) with x. rewrite rev_involutive, pad_zeros_neg; [done|].
    pose proof (numeral_pos u 10 false Hu0). lia. }
  rewrite Hd by lia. unfold field, spaces, int_text.
  set (t := (if v <? 0 then _ else _) ++ _). pose proof (zlen_nonneg t).
  replace (Z.to_nat (0 - zlen t)) with O by lia. cbn [replicate app]. subst t.
  ztest; cbn [app]; by rewrite ?Z.abs_neq, ?Z.abs_eq by lia.
Qed.

(** A signed value passed through its bit pattern. *)
Lemma sgn_wrap w v : 0 < w -> - 2 ^ (w - 1) <= v < 2 ^ (w - 1) -> sgn w (wrap w v) = v.
Proof.
  intros Hw Hv. unfold sgn, wrap. rewrite Zmod_mod.
  assert (E : 2 ^ w = 2 * 2 ^ (w - 1)) by (rewrite <- Z.pow_succ_r by lia; f_equal; lia).
  destruct (Z_lt_le_dec v 0).
  - replace (v mod 2 ^ w) with (v + 2 ^ w)
      by (rewrite <- (Z.mod_small (v + 2 ^ w) (2 ^ w)), <- (Z.mod_add v 1) by lia; f_equal; lia).
    ztest; lia.
  - rewrite Z.mod_small by lia. ztest; lia.
Qed.

(** The format "%ld". *)
Definition fmt_ld : bytes := lit "%ld".

Lemma int_text_short v : int64 v -> zlen (int_text v) <= 20.
Proof.
  intros Hv. rewrite <- plain_int_field by done. unfold int64 in Hv. unfold int_field. cbn [andb].
  pose proof (numeral_length 65 19 (Z.abs v) 10 false ltac:(lia) ltac:(cbn; lia)) as Hn.
  set (num := numeral _ _ _ _) in *. unfold field, spaces.
  assert (Hz : zlen num <= 19) by (unfold zlen; lia). pose proof (zlen_nonneg num).
  set (t := (if v <? 0 then _ else _) ++ _).
  assert (Ht : zlen t <= 20).
  { subst t. autorewrite with zlen. rewrite zlen_pad_zeros. destruct (v <? 0);
      autorewrite with zlen; lia. }
  pose proof (zlen_nonneg t). by replace (Z.to_nat (0 - zlen t)) with O by lia.
Qed.

Lemma decimal_short v (k : nat) : (1 <= k <= 18)%nat -> 0 <= v < 10 ^ Z.of_nat k -> zlen (decimal v) <= Z.of_nat k.
Proof.
  intros Hk Hv. assert (Hp : 10 ^ Z.of_nat k <= 10 ^ 18) by (apply Z.pow_le_mono_r; lia).
  change (10 ^ 18) with 1000000000000000000 in Hp.
  unfold decimal. destruct (Z.eqb_spec v 0); [unfold zlen; cbn [length]; lia|].
  rewrite (numeral_uint_digits 20 65) by (try change (10 ^ Z.of_nat 20) with 100000000000000000000; lia).
  change (default [] (Some ?x)) with x. rewrite rev_involutive.
  pose proof (numeral_length 65 k v 10 false ltac:(lia) ltac:(lia)). unfold zlen. lia.
Qed.

Lemma jint_no_nul i : jint i -> no_nul i.
Proof.
  assert (Hd : forall l, digits l -> no_nul l).
  { intros l. apply Forall_impl. intros c Hc. unfold Json.is_digit in Hc. b2p. lia. }
  intros [->|(c & r & E & _ & Hl)]; [by repeat constructor|]. by apply Hd.
Qed.

Lemma int_text_no_nul v : int64 v -> no_nul (int_text v).
Proof.
  unfold int64. intros Hv. unfold int_text. ztest.
  - constructor; [done|]. apply jint_no_nul, decimal_spec. lia.
  - apply jint_no_nul, decimal_spec. lia.
Qed.

Lemma snprintf_ld v b size :
  int64 v -> 0 <= size <= zlen b ->
  snprintf size fmt_ld [VLong (wrap64 v)] b = Ok (zlen (int_text v)) (truncated size (int_text v) b).
Proof.
  intros Hv Hs. unfold snprintf. apply vsnprintf_outputs; [|done|].
  2: pose proof (int_text_short v Hv); lia.
  rewrite <- (app_nil_r (int_text v)).
  apply (vsn_loop_items [Directive (Spec [] (Num []) None 1 false (ch "d"))] _ [] _ _ []).
  - constructor; [|constructor]. repeat split; try constructor; try done.
  - cbn. lia.
  - rewrite <- plain_int_field by done. cbn [format_text item_text width_of prec_of sp_width sp_prec].
    unfold conv_text, is_long. cbn [sp_conv sp_z sp_ls sp_flags Nat.eqb negb orb Z.eqb Pos.eqb].
    unfold va_long. rewrite (sgn_wrap 64) by done. by rewrite app_nil_r.
  - intros k Hk. destruct k; [lia|]. apply outputs_ret.
Qed.

(** Formatting an int64 with "%ld" and reading the text back with json_parse and
    json_int gives the same integer, INT64_MIN included, whenever snprintf's result
    says that the text fitted; 21 bytes are always enough. *)
Theorem formatted_int_roundtrip v b size :
  int64 v -> 0 < size <= zlen b ->
  exists n b', snprintf size fmt_ld [VLong (wrap64 v)] b = Ok n b' /\ n <= 20 /\
    (n < size ->
     exists x, json_parse (Some (cstr b')) = (JSON_OK, x) /\ json_int x = (JSON_OK, Some v)).
Proof.
  intros Hv Hs. rewrite snprintf_ld by (done || lia). do 2 eexists. split; [done|].
  split; [by apply int_text_short|]. intros Hn. unfold truncated.
  rewrite (proj2 (Z.eqb_neq _ _)) by lia. rewrite take_ge by (unfold zlen in Hn; lia).
  unfold patch. change (take (Z.to_nat 0) b) with (@nil Z). cbn [app].
  rewrite <- app_assoc. cbn [app]. rewrite cstr_app by by apply int_text_no_nul.
  destruct (int_text_spec v Hv) as [Hj Hi]. eexists. split; [|exact Hi].
  apply json_parse_complete. by constructor.
Qed.

Lemma formatted_int_roundtrip_witness :
  exists n b', snprintf 21 fmt_ld [VLong (wrap64 (- 2 ^ 63))] (replicate 21 7) = Ok n b' /\
    n <= 20 /\
    (n < 21 -> exists x, json_parse (Some (cstr b')) = (JSON_OK, x) /\
                         json_int x = (JSON_OK, Some (- 2 ^ 63))).
Proof.
  apply (formatted_int_roundtrip (- 2 ^ 63) (replicate 21 7) 21).
  - split; vm_compute; [discriminate | reflexivity].
  - split; [reflexivity | vm_compute; discriminate].
Defined.

(** ** Reading a format from left to right *)

(** The format prints [t]: the rules below read one character or one directive off its
    front, the way a caller of snprintf reads its own format. *)
Definition prints (fmt : bytes) (ap : list varg) (t : bytes) : Prop :=
  forall k, (length fmt < k)%nat -> outputs (vsn_loop k fmt ap) t tt.

(** A NUL-terminated array passed as a pointer. *)
Definition arg_str (s : bytes) : varg := VPtr 1 (s ++ [0]).

Definition bare (ls : nat) (c : Z) : spec := Spec [] (Num []) None ls false c.

Lemma prints_nil ap : prints [] ap [].
Proof. intros k Hk. destruct k; [lia|]. apply outputs_ret. Qed.

Lemma prints_plain c fmt ap t : c <> ch "%" -> prints fmt ap t -> prints (c :: fmt) ap (c :: t).
Proof.
  intros Hc Ht k Hk. apply (vsn_loop_items [Plain c] k fmt ap [c] ap t); try done.
  by constructor.
Qed.

Lemma prints_dir ls c fmt ap t ap' u :
  modifier c = false -> item_text (Directive (bare ls c)) ap = Some (t, ap') -> prints fmt ap' u ->
  prints (ch "%" :: replicate ls (ch "l") ++ c :: fmt) ap (t ++ u).
Proof.
  intros Hc Ht Hu k Hk.
  replace (ch "%" :: replicate ls (ch "l") ++ c :: fmt) with (spell [Directive (bare ls c)] ++ fmt) in *.
  2:{ unfold spell. cbn. by rewrite <- !app_assoc. }
  apply (vsn_loop_items _ k fmt ap t ap' u); [|done| |done].
  - constructor; [|constructor]. cbn. repeat split; try constructor; try done.
  - unfold format_text. by rewrite Ht, app_nil_r.
Qed.

Lemma c_text_str s r : no_nul s -> c_text (s ++ 0 :: r) None = Some s.
Proof.
  induction 1 as [|c s Hc _ IH]; [done|]. cbn [app c_text]. rewrite (proj2 (Z.eqb_neq c 0)) by done.
  cbn [fmap option_fmap option_map]. by rewrite IH.
Qed.

Lemma field_0 l t : field 0 l t = t.
Proof.
  unfold field, spaces. pose proof (zlen_nonneg t). replace (Z.to_nat (0 - zlen t)) with O by lia.
  destruct l; [by rewrite app_nil_r|done].
Qed.

Lemma prints_ptr a s r fmt ap t : a <> 0 -> no_nul s -> zlen s <= INT_MAX -> prints fmt ap t ->
  prints (ch "%" :: ch "s" :: fmt) (VPtr a (s ++ 0 :: r) :: ap) (s ++ t).
Proof.
  intros Ha Hs Hl Ht. apply (prints_dir 0 (ch "s") fmt _ s ap); [done| |done].
  cbn -[c_text zlen field]. rewrite (proj2 (Z.eqb_neq a 0)), c_text_str by done.
  by rewrite (proj2 (Z.leb_le _ _)), field_0 by done.
Qed.

Lemma prints_s s fmt ap t : no_nul s -> zlen s <= INT_MAX -> prints fmt ap t ->
  prints (ch "%" :: ch "s" :: fmt) (arg_str s :: ap) (s ++ t).
Proof. by apply prints_ptr. Qed.

Lemma prints_c v fmt ap t : prints fmt ap t ->
  prints (ch "%" :: ch "c" :: fmt) (VInt v :: ap) (wrap8 (sgn 32 v) :: t).
Proof.
  intros Ht. apply (prints_dir 0 (ch "c") fmt _ [wrap8 (sgn 32 v)] ap); [done| |done].
  cbn -[field]. by rewrite field_0.
Qed.

Lemma prints_ld v fmt ap t : int64 v -> prints fmt ap t ->
  prints (ch "%" :: ch "l" :: ch "d" :: fmt) (VLong (wrap64 v) :: ap) (int_text v ++ t).
Proof.
  intros Hv Ht. apply (prints_dir 1 (ch "d") fmt _ (int_text v) ap); [done| |done].
  cbn -[int_field sgn wrap]. by rewrite sgn_wrap, plain_int_field by done.
Qed.

Lemma prints_d v fmt ap t : - 2 ^ 31 <= v < 2 ^ 31 -> prints fmt ap t ->
  prints (ch "%" :: ch "d" :: fmt) (VInt (wrap32 v) :: ap) (int_text v ++ t).
Proof.
  intros Hv Ht. apply (prints_dir 0 (ch "d") fmt _ (int_text v) ap); [done| |done].
  cbn -[int_field sgn wrap]. rewrite sgn_wrap by done. rewrite plain_int_field; [done|]. unfold int64. lia.
Qed.

Lemma prints_u v fmt ap t : 0 <= v < 2 ^ 32 -> prints fmt ap t ->
  prints (ch "%" :: ch "u" :: fmt) (VInt v :: ap) (decimal v ++ t).
Proof.
  intros Hv Ht. apply (prints_dir 0 (ch "u") fmt _ (decimal v) ap); [done| |done].
  pose proof (plain_int_field v) as Hp. unfold int_text in Hp.
  rewrite Z.abs_eq, (proj2 (Z.ltb_ge v 0)) in Hp by lia. rewrite <- Hp by (unfold int64; lia).
  cbn -[int_field wrap]. by rewrite wrap_small by lia.
Qed.

Lemma snprintf_prints fmt ap t b size :
  prints fmt ap t -> 0 <= size <= zlen b -> zlen t < 2 ^ 31 ->
  snprintf size fmt ap b = Ok (zlen t) (truncated size t b).
Proof. intros Hp. apply vsnprintf_outputs. apply Hp. lia. Qed.

(** What the buffer's C string is afterwards. *)
Lemma cstr_truncated size t b : 0 < size <= zlen b -> no_nul t ->
  cstr (truncated size t b) = take (Z.to_nat (size - 1)) t.
Proof.
  intros Hs Hn. unfold truncated. rewrite (proj2 (Z.eqb_neq _ _)) by lia.
  unfold patch. cbn [Z.to_nat take app]. rewrite <- app_assoc. apply cstr_app. by apply Forall_take.
Qed.

Lemma zlen_truncated size t b : 0 <= size <= zlen b -> zlen (truncated size t b) = zlen b.
Proof.
  intros Hs. unfold truncated. destruct (Z.eqb_spec size 0); [done|].
  apply zlen_patch; [lia|]. unfold zlen in *. rewrite length_app, length_take. cbn. lia.
Qed.

(** ** Two ways out of bounds *)

(** A format whose last directive is cut off before its conversion character sends the
    parser past the terminator, although a lone '%' does not. *)
Lemma vsnprintf_runs_off_cut_format d ap w neg ap1 prec ap2 size b :
  spec_ok d -> spell_mods d <> [] -> 0 <= size <= zlen b ->
  width_of (sp_width d) ap = Some (w, neg, ap1) ->
  prec_of (sp_prec d) ap1 = Some (prec, ap2) ->
  vsnprintf size (lit "%" ++ spell_mods d) ap b = Wild.
Proof.
  intros Hok Hne Hs Ew Ep.
  destruct (parse_mods d [] ap w neg ap1 prec ap2) as (mid & E1 & E2 & E3 & _); try done.
  rewrite app_nil_r in E1. unfold vsnprintf. cbn [lit app length]. rewrite vsn_loop_S.
  change (negb (_ =? _)) with false. cbn match.
  destruct (spell_mods d) as [|c r] eqn:E; [done|]. unfold directive at 1, bind.
  rewrite E1, E2, E3. unfold parse_length. rewrite app_nil_r.
  rewrite parse_ls_ok by by destruct (sp_z d). rewrite <- after_nil.
  destruct (sp_z d); cbn [cur Z.eqb tail Pos.eqb];
    by rewrite (outputs_putc _ b size []) by (rewrite ?zlen_nil, ?zlen_cons, ?zlen_nil; lia).
Qed.

(** "%.*s" reads one byte past the precision: an array of exactly that many characters
    is overrun. *)
Lemma vsnprintf_reads_past_precision m size b :
  no_nul m -> 0 <= size <= zlen b -> zlen m < FMT_STAR_MAX ->
  vsnprintf size (lit "%.*s") [VInt (zlen m); VPtr 4096 m] b = Wild.
Proof.
  intros Hm Hs Hl. pose proof (zlen_nonneg m). unfold FMT_STAR_MAX in Hl.
  assert (Hscan : forall k n, no_nul k -> scan_str k n (n + zlen k) = None).
  { clear. induction k as [|c k IH]; intros n Hk; [done|]. inversion_clear Hk as [|?? Hc Hk'].
    pose proof (zlen_nonneg k). rewrite zlen_cons. cbn [scan_str]. cbv beta in Hc.
    rewrite (proj2 (Z.eqb_neq c 0)), (proj2 (Z.ltb_lt n (n + (zlen k + 1)))), orb_true_r by lia. cbn [negb andb].
    ztest; [done|]. rewrite <- (IH (n + 1)) by done. f_equal. lia. }
  set (ap := [VPtr 4096 m]).
  assert (Hp : parse_prec (lit ".*s") (VInt (zlen m) :: ap) = Some (lit "s", zlen m, ap)).
  { unfold parse_prec. cbn [lit cur tail va_int].
    replace (sgn 32 (zlen m)) with (zlen m)
      by (unfold sgn; rewrite wrap_small by lia; ztest; lia).
    cbn. by rewrite (proj2 (Z.ltb_ge (zlen m) 0)), (proj2 (Z.ltb_ge FMT_STAR_MAX (zlen m)))
      by (unfold FMT_STAR_MAX; lia). }
  assert (Hc : forall s, convert (ch "s") 0 0 (zlen m) false false ap s = Wild).
  { intros s. unfold convert. cbn [Z.eqb Pos.eqb orb va_ptr ap].
    change (zlen m) with (0 + zlen m). by rewrite Hscan. }
  assert (Hd : forall s, directive (lit ".*s") (VInt (zlen m) :: ap) s = Wild).
  { intros s. unfold directive.
    change (parse_flags (lit ".*s") false false) with (lit ".*s", false, false). cbn match.
    change (parse_width (lit ".*s") false ?l) with (Some (lit ".*s", 0, false, l)). cbn match.
    rewrite Hp. change (parse_length (lit "s")) with ([ch "s"], 0). cbn match.
    unfold bind. by rewrite Hc. }
  unfold vsnprintf. change (lit "%.*s") with (ch "%" :: lit ".*s"). cbn [length].
  rewrite vsn_loop_S. cbn [negb Z.eqb Pos.eqb]. change (lit ".*s") with (46 :: [42; 115]) in *.
  unfold bind. by rewrite Hd.
Qed.
