(* ===== verification/Sse.v ===== *)
(** net/sse.c: the streaming reader of model responses. Three layers: framing (bytes
    to events), reassembly (events to one JSON document) and the HTTP driver. *)

From S2P Require Import Prelude Bytes Json JsonWriter.

(** ** Constants (include/sse.h) *)

Definition SSE_OK := 0.
Definition SSE_ENOSPC := -28.
Definition SSE_EPROTO := -72.
Definition SSE_ESTREAM := -73.
Definition SSE_LINE_MAX := 4096.
Definition SSE_DATA_MAX := 4096.
Definition SSE_NAME_MAX := 64.
Definition SSE_ID_MAX := 64.
Definition SSE_TOOL_INPUT_MAX := 4096.
Definition SSE_HDR_MAX := 2048.
Definition SSE_ERR_MAX := 160.
Definition SSE_STOP_MAX := 32.
Definition SSE_TAIL_RESERVE := 128.
Definition MODEL_STATUS_LINE_MAX := 96.

Definition CR := 13.
Definition LF := 10.

(** A string literal with its double quotes written as single ones. *)
Definition qlit (s : string) : bytes := (fun c => if c =? ch "'" then QUOTE else c) <$> lit s.

(** ** Helpers *)

(** A character array is the list of the bytes copied into it, up to its NUL. *)
Definition first_nul (s : bytes) : bool := match s with [] => true | c :: _ => c =? 0 end.

Definition copy_clamped (cap : Z) (src : bytes) : bytes := take (Z.to_nat (cap - 1)) src.

Definition lower (c : Z) : Z := if (ch "A" <=? c) && (c <=? ch "Z") then c + 32 else c.

(** The [while (k < m && ...) k++; if (k == m)] of the searches. *)
Fixpoint ieq_at (needle p : bytes) : bool :=
  match needle, p with
  | [], _ => true
  | n :: needle, c :: p => (lower c =? lower n) && ieq_at needle p
  | _, [] => false
  end.

Fixpoint ifind (p needle : bytes) (i : Z) : Z :=
  match p with
  | [] => -1
  | _ :: r => if ieq_at needle p then i else ifind r needle (i + 1)
  end.

(** [prev] is the byte before [p], none on the first line's first byte. *)
Fixpoint hdr_field (prev : option Z) (p needle : bytes) (i : Z) : Z :=
  match p with
  | [] => -1
  | c :: r =>
      if match prev with Some b => b =? LF | None => false end && ieq_at needle p then i
      else hdr_field (Some c) r needle (i + 1)
  end.

(** ** Layer 1: framing *)

Record sse_event := Event { ev_type : bytes; ev_data : bytes; ev_id : bytes }.

Record sse_parser := Parser {
  line : bytes; line_over : bool; after_cr : bool; bom : Z;
  name : bytes; ident : bytes; data : bytes; ev_bad : bool;
  n_events : Z; n_dropped : Z; n_comments : Z; n_bad_lines : Z; n_bytes : Z }.

Definition sse_parser_init : sse_parser := Parser [] false false 0 [] [] [] false 0 0 0 0 0.

Definition SSE_BOM : bytes := [0xEF; 0xBB; 0xBF].

Definition set_line (l : bytes) (over : bool) (p : sse_parser) : sse_parser :=
  Parser l over (after_cr p) (bom p) (name p) (ident p) (data p) (ev_bad p)
    (n_events p) (n_dropped p) (n_comments p) (n_bad_lines p) (n_bytes p).
Definition set_cr (b : bool) (p : sse_parser) : sse_parser :=
  Parser (line p) (line_over p) b (bom p) (name p) (ident p) (data p) (ev_bad p)
    (n_events p) (n_dropped p) (n_comments p) (n_bad_lines p) (n_bytes p).
Definition set_bom (k : Z) (p : sse_parser) : sse_parser :=
  Parser (line p) (line_over p) (after_cr p) k (name p) (ident p) (data p) (ev_bad p)
    (n_events p) (n_dropped p) (n_comments p) (n_bad_lines p) (n_bytes p).
Definition set_event (nm : bytes) (i d : bytes) (bad : bool) (p : sse_parser) : sse_parser :=
  Parser (line p) (line_over p) (after_cr p) (bom p) nm i d bad
    (n_events p) (n_dropped p) (n_comments p) (n_bad_lines p) (n_bytes p).
Definition count (ev dr co ba by_ : Z) (p : sse_parser) : sse_parser :=
  Parser (line p) (line_over p) (after_cr p) (bom p) (name p) (ident p) (data p) (ev_bad p)
    (wrap32 (n_events p + ev)) (wrap32 (n_dropped p + dr)) (wrap32 (n_comments p + co))
    (wrap32 (n_bad_lines p + ba)) (wrap32 (n_bytes p + by_)).

Definition drop_lf (s : bytes) : bytes :=
  if nth (length s - 1) s 0 =? LF then removelast s else s.

Definition data_append (v : bytes) (p : sse_parser) : sse_parser :=
  let room := if zlen (data p) + 1 <? SSE_DATA_MAX then SSE_DATA_MAX - zlen (data p) - 1 else 0 in
  let over := room <? zlen v in
  let d := data p ++ (if over then take (Z.to_nat room) v else v) in
  let p := set_event (name p) (ident p) d (ev_bad p || over) p in
  if zlen d + 1 <? SSE_DATA_MAX then set_event (name p) (ident p) (d ++ [LF]) (ev_bad p) p
  else set_event (name p) (ident p) d true p.

(** The line's field name and value. *)
Fixpoint colon_split (l : bytes) : bytes * bytes :=
  match l with
  | [] => ([], [])
  | c :: r => if c =? ch ":" then ([], r) else let '(f, v) := colon_split r in (c :: f, v)
  end.
Definition skip_space (v : bytes) : bytes :=
  match v with c :: r => if c =? ch " " then r else v | [] => v end.

Section Framing.

Context {C : Type} (on_event : sse_event -> prog C unit).
Local Open Scope prog_scope.

Definition on_p (f : sse_parser -> sse_parser) : prog (sse_parser * C) unit := modify (fun s => (f s.1, s.2)).
Definition deliver (ev : sse_event) : prog (sse_parser * C) unit := fun s =>
  match on_event ev s.2 with
  | Ok a c => Ok a (s.1, c) | Panic why => Panic why | Wild => Wild | Spin => Spin
  end.

Definition dispatch : prog (sse_parser * C) unit :=
  p <- gets fst ;;
  if bool_decide (data p = []) then
    (if ev_bad p then on_p (count 0 1 0 0 0) else ret tt) ;;;
    on_p (fun p => set_event [] (ident p) (data p) false p)
  else
    let d := drop_lf (data p) in
    (if ev_bad p then on_p (count 0 1 0 0 0)
     else
       on_p (count 1 0 0 0 0) ;;;
       deliver (Event (if first_nul (name p) then lit "message" else name p) d (ident p))) ;;;
    on_p (fun p => set_event [] (ident p) [] false p).

Definition end_line : prog (sse_parser * C) unit :=
  p <- gets fst ;;
  let l := line p in
  on_p (fun p => set_line [] (line_over p) p) ;;;
  if line_over p then
    on_p (fun p => set_line [] false p) ;;; on_p (count 0 0 0 1 0) ;;;
    on_p (fun p => set_event (name p) (ident p) (data p) true p)
  else if bool_decide (l = []) then dispatch
  else if bool_decide (head l = Some (ch ":")) then on_p (count 0 0 1 0 0)
  else
    let '(field, val) := colon_split l in
    let val := skip_space val in
    if bool_decide (field = lit "data") then on_p (data_append val)
    else if bool_decide (field = lit "event") then
      on_p (fun p => set_event (copy_clamped SSE_NAME_MAX val) (ident p) (data p)
                       (ev_bad p || (SSE_NAME_MAX - 1 <? zlen val)) p)
    else if bool_decide (field = lit "id") then
      if existsb (fun c => c =? 0) val then ret tt
      else on_p (fun p => set_event (name p) (copy_clamped SSE_ID_MAX val) (data p) (ev_bad p) p)
    else ret tt.

Definition feed_byte (c : Z) : prog (sse_parser * C) unit :=
  p <- gets fst ;;
  if after_cr p && (c =? LF) then on_p (set_cr false)
  else
    on_p (set_cr false) ;;;
    if c =? CR then on_p (set_cr true) ;;; end_line
    else if c =? LF then end_line
    else on_p (fun p => if zlen (line p) <? SSE_LINE_MAX then set_line (line p ++ [c]) (line_over p) p
                        else set_line (line p) true p).

Fixpoint feed_bytes (bs : bytes) : prog (sse_parser * C) unit :=
  match bs with [] => ret tt | c :: bs => feed_byte c ;;; feed_bytes bs end.

Definition bom_replay : prog (sse_parser * C) unit :=
  matched <- gets (fun s => bom s.1) ;;
  on_p (set_bom 3) ;;; feed_bytes (take (Z.to_nat matched) SSE_BOM).

(** One round of the loop of sse_parser_feed. *)
Definition parser_byte (c : Z) : prog (sse_parser * C) unit :=
  on_p (count 0 0 0 0 1) ;;;
  k <- gets (fun s => bom s.1) ;;
  if k <? 3 then
    if c =? nth (Z.to_nat k) SSE_BOM 0 then on_p (set_bom (k + 1))
    else bom_replay ;;; feed_byte c
  else feed_byte c.

Fixpoint sse_parser_feed (bs : bytes) : prog (sse_parser * C) unit :=
  match bs with [] => ret tt | c :: bs => parser_byte c ;;; sse_parser_feed bs end.

Definition sse_parser_finish : prog (sse_parser * C) unit :=
  k <- gets (fun s => bom s.1) ;;
  (if k <? 3 then bom_replay else ret tt) ;;;
  p <- gets fst ;;
  (if negb (bool_decide (line p = [])) || line_over p then end_line else ret tt) ;;;
  p <- gets fst ;;
  if bool_decide (data p = []) then ret tt else dispatch.

End Framing.

(** ** Layer 2: reassembly *)

Inductive sse_blk := BLK_NONE | BLK_TEXT | BLK_TOOL | BLK_OTHER.
#[export] Instance sse_blk_eq : EqDecision sse_blk.
Proof. solve_decision. Defined.

(** [echoed] are the calls of [on_text], in order. *)
Record sse_msg := Msg {
  w : json_writer; echoed : list bytes;
  started : bool; block : sse_blk; done_ : bool; closed : bool; clipped : bool; frozen : bool;
  tool_over : bool; tool_lost : bool;
  blocks : Z; text_bytes : Z; deltas : Z; bad_events : Z; unknown_events : Z; stray_deltas : Z;
  stop : bytes; err : Z; err_msg : bytes; tool : bytes; scratch : bytes }.

Definition set_w (x : json_writer) (m : sse_msg) : sse_msg :=
  Msg x (echoed m) (started m) (block m) (done_ m) (closed m) (clipped m) (frozen m) (tool_over m) (tool_lost m)
    (blocks m) (text_bytes m) (deltas m) (bad_events m) (unknown_events m) (stray_deltas m)
    (stop m) (err m) (err_msg m) (tool m) (scratch m).
Definition set_started (m : sse_msg) : sse_msg :=
  Msg (w m) (echoed m) true (block m) (done_ m) (closed m) (clipped m) (frozen m) (tool_over m) (tool_lost m)
    (blocks m) (text_bytes m) (deltas m) (bad_events m) (unknown_events m) (stray_deltas m)
    (stop m) (err m) (err_msg m) (tool m) (scratch m).
Definition set_block (b : sse_blk) (m : sse_msg) : sse_msg :=
  Msg (w m) (echoed m) (started m) b (done_ m) (closed m) (clipped m) (frozen m) (tool_over m) (tool_lost m)
    (blocks m) (text_bytes m) (deltas m) (bad_events m) (unknown_events m) (stray_deltas m)
    (stop m) (err m) (err_msg m) (tool m) (scratch m).
Definition set_done (m : sse_msg) : sse_msg :=
  Msg (w m) (echoed m) (started m) (block m) true (closed m) (clipped m) (frozen m) (tool_over m) (tool_lost m)
    (blocks m) (text_bytes m) (deltas m) (bad_events m) (unknown_events m) (stray_deltas m)
    (stop m) (err m) (err_msg m) (tool m) (scratch m).
Definition set_closed (m : sse_msg) : sse_msg :=
  Msg (w m) (echoed m) (started m) (block m) (done_ m) true (clipped m) (frozen m) (tool_over m) (tool_lost m)
    (blocks m) (text_bytes m) (deltas m) (bad_events m) (unknown_events m) (stray_deltas m)
    (stop m) (err m) (err_msg m) (tool m) (scratch m).
Definition set_frozen (m : sse_msg) : sse_msg :=
  Msg (w m) (echoed m) (started m) (block m) (done_ m) (closed m) true true (tool_over m) (tool_lost m)
    (blocks m) (text_bytes m) (deltas m) (bad_events m) (unknown_events m) (stray_deltas m)
    (stop m) (err m) (err_msg m) (tool m) (scratch m).
Definition set_tool (t : bytes) (over lost : bool) (m : sse_msg) : sse_msg :=
  Msg (w m) (echoed m) (started m) (block m) (done_ m) (closed m) (clipped m) (frozen m) over lost
    (blocks m) (text_bytes m) (deltas m) (bad_events m) (unknown_events m) (stray_deltas m)
    (stop m) (err m) (err_msg m) t (scratch m).
Definition set_stop (t : bytes) (m : sse_msg) : sse_msg :=
  Msg (w m) (echoed m) (started m) (block m) (done_ m) (closed m) (clipped m) (frozen m) (tool_over m) (tool_lost m)
    (blocks m) (text_bytes m) (deltas m) (bad_events m) (unknown_events m) (stray_deltas m)
    t (err m) (err_msg m) (tool m) (scratch m).
Definition set_scratch (t : bytes) (m : sse_msg) : sse_msg :=
  Msg (w m) (echoed m) (started m) (block m) (done_ m) (closed m) (clipped m) (frozen m) (tool_over m) (tool_lost m)
    (blocks m) (text_bytes m) (deltas m) (bad_events m) (unknown_events m) (stray_deltas m)
    (stop m) (err m) (err_msg m) (tool m) t.
Definition set_error (e : Z) (t : bytes) (m : sse_msg) : sse_msg :=
  Msg (w m) (echoed m) (started m) (block m) (done_ m) (closed m) (clipped m) (frozen m) (tool_over m) (tool_lost m)
    (blocks m) (text_bytes m) (deltas m) (bad_events m) (unknown_events m) (stray_deltas m)
    (stop m) e t (tool m) (scratch m).
Definition echo (t : bytes) (m : sse_msg) : sse_msg :=
  Msg (w m) (echoed m ++ [t]) (started m) (block m) (done_ m) (closed m) (clipped m) (frozen m) (tool_over m) (tool_lost m)
    (blocks m) (wrap32 (text_bytes m + zlen t)) (deltas m) (bad_events m) (unknown_events m) (stray_deltas m)
    (stop m) (err m) (err_msg m) (tool m) (scratch m).
Definition tally (bl de ba un st : Z) (m : sse_msg) : sse_msg :=
  Msg (w m) (echoed m) (started m) (block m) (done_ m) (closed m) (clipped m) (frozen m) (tool_over m) (tool_lost m)
    (wrap32 (blocks m + bl)) (text_bytes m) (wrap32 (deltas m + de)) (wrap32 (bad_events m + ba))
    (wrap32 (unknown_events m + un)) (wrap32 (stray_deltas m + st))
    (stop m) (err m) (err_msg m) (tool m) (scratch m).

Definition blank_msg (x : json_writer) (sc : bytes) : sse_msg :=
  Msg x [] false BLK_NONE false false false false false false 0 0 0 0 0 0 [] SSE_OK [] [] sc.

(** [sc] is whatever the scratch array holds. *)
Definition sse_msg_init (out : bytes) (c : Z) (sc : bytes) : outcome sse_msg unit :=
  match json_writer_init out c with
  | Ok _ x => Ok tt (blank_msg x sc)
  | Panic why => Panic why | Wild => Wild | Spin => Spin
  end.

(** Writing to [m->w], and into the scratch array. *)
Definition put (f : prog json_writer unit) : prog sse_msg unit := fun m =>
  match f (w m) with
  | Ok a x => Ok a (set_w x m) | Panic why => Panic why | Wild => Wild | Spin => Spin
  end.
Definition in_scratch {A} (f : prog bytes A) : prog sse_msg A := fun m =>
  match f (scratch m) with
  | Ok a x => Ok a (set_scratch x m) | Panic why => Panic why | Wild => Wild | Spin => Spin
  end.

(** Decode a string into a local array of [cap] bytes: the code and the C string. *)
Definition local_str (v : json_value) (cap : Z) : prog sse_msg (Z * bytes) := fun m =>
  match json_str v 0 cap (replicate (Z.to_nat cap) 0) with
  | Ok (rc, _) b => Ok (rc, cstr b) m | Panic why => Panic why | Wild => Wild | Spin => Spin
  end.

Definition span_or (obj : option json_value) (key fb : bytes) : bytes :=
  match obj with
  | None => fb
  | Some obj =>
      let '(rc, v) := json_get obj (Some key) in
      if (rc =? JSON_OK) && bool_decide (jtype v = T_STRING) && (2 <=? zlen (span v)) then span v else fb
  end.

Definition str_inner (v : json_value) : option bytes :=
  if bool_decide (jtype v = T_STRING) && (2 <=? zlen (span v)) then Some (body v) else None.

Section Reassembly.

Local Open Scope prog_scope.

Definition freeze : prog sse_msg unit :=
  m <- gets id ;;
  if frozen m then ret tt
  else
    modify set_frozen ;;;
    match block m with
    | BLK_TEXT => put (json_put (Some (qlit "'}")))
    | BLK_TOOL => put (json_put (Some (lit "{}}")))
    | _ => ret tt
    end.

Definition mneed (n : Z) : prog sse_msg bool :=
  m <- gets id ;;
  if frozen m || overflow (w m) then ret false
  else if cap (w m) <=? wrap64 (len (w m) + n + SSE_TAIL_RESERVE) then freeze ;;; ret false
  else ret true.

Definition mput_n (s : bytes) : prog sse_msg unit :=
  ok <- mneed (zlen s) ;;
  if ok : bool then put (json_put_n (Some s)) else ret tt.

(** A run of mput and mput_n calls, one per fragment. *)
Fixpoint mputs (ss : list bytes) : prog sse_msg unit :=
  match ss with [] => ret tt | s :: ss => mput_n s ;;; mputs ss end.

Definition set_err (e : Z) (msg : bytes) : prog sse_msg unit :=
  m <- gets id ;;
  if negb (err m =? SSE_OK) then ret tt else modify (set_error e (copy_clamped SSE_ERR_MAX msg)).

Definition begin_message (msg : option json_value) : prog sse_msg unit :=
  m <- gets id ;;
  if started m then ret tt
  else
    let id_ := span_or msg (lit "id") (qlit "''") in
    let role := span_or msg (lit "role") (qlit "'assistant'") in
    let model := span_or msg (lit "model") (qlit "''") in
    ok <- mneed (52 + zlen id_ + zlen role + zlen model) ;;
    if negb ok then ret tt
    else
      mputs [qlit "{'id':"; id_; qlit ",'type':'message','role':"; role; qlit ",'model':"; model; qlit ",'content':["] ;;;
      modify set_started.

Definition close_block : prog sse_msg unit :=
  m <- gets id ;;
  (match block m with
   | BLK_TEXT => if frozen m then ret tt else put (json_put (Some (qlit "'}")))
   | BLK_TOOL =>
       let '(rc, v) := json_parse (Some (tool m)) in
       let ok := negb (tool_over m) && negb (bool_decide (tool m = [])) && (rc =? JSON_OK) &&
                 bool_decide (jtype v = T_OBJECT) in
       if frozen m then ret tt
       else
         ok <- (if ok then mneed (zlen (tool m) + 1) else ret false) ;;
         if ok : bool then put (json_put_n (Some (tool m))) ;;; put (json_put_char (ch "}"))
         else
           fr <- gets frozen ;;
           if fr : bool then ret tt else put (json_put (Some (lit "{}}")))
   | _ => ret tt
   end) ;;;
  modify (set_block BLK_NONE) ;;; modify (fun m => set_tool [] false (tool_lost m) m).

Definition is_type (cb : json_value) (t : bytes) : bool :=
  let '(rc, v) := json_get cb (Some (lit "type")) in (rc =? JSON_OK) && json_str_eq v t.

Definition start_block (ev : json_value) : prog sse_msg unit :=
  m <- gets id ;;
  (if bool_decide (block m = BLK_NONE) then ret tt else close_block) ;;;
  begin_message None ;;;
  let '(rc, cb) := json_get ev (Some (lit "content_block")) in
  if negb (rc =? JSON_OK) || negb (bool_decide (jtype cb = T_OBJECT)) then modify (tally 0 0 1 0 0)
  else
    n <- gets blocks ;;
    let comma := if n =? 0 then [] else [lit ","] in
    let commas := if n =? 0 then 0 else 1 in
    (if is_type cb (lit "text") then
       ok <- mneed (commas + 23) ;;
       (if ok : bool then mputs (comma ++ [qlit "{'type':'text','text':'"]) else ret tt) ;;;
       modify (set_block BLK_TEXT)
     else if is_type cb (lit "tool_use") then
       let id_ := span_or (Some cb) (lit "id") (qlit "''") in
       let nm := span_or (Some cb) (lit "name") (qlit "''") in
       ok <- mneed (commas + 41 + zlen id_ + zlen nm) ;;
       (if ok : bool then
          mputs (comma ++ [qlit "{'type':'tool_use','id':"; id_; qlit ",'name':"; nm; qlit ",'input':"])
        else ret tt) ;;;
       modify (set_block BLK_TOOL) ;;; modify (fun m => set_tool [] false (tool_lost m) m)
     else
       ok <- mneed (commas + zlen (span cb)) ;;
       (if ok : bool then mputs (comma ++ [span cb]) else ret tt) ;;;
       modify (set_block BLK_OTHER)) ;;;
    modify (tally 1 0 0 0 0).

Definition text_delta (d : json_value) : prog sse_msg unit :=
  let '(rc, v) := json_get d (Some (lit "text")) in
  match (if rc =? JSON_OK then str_inner v else None) with
  | None => modify (tally 0 0 1 0 0)
  | Some s =>
      modify (tally 0 1 0 0 0) ;;;
      mput_n s ;;;
      r <- in_scratch (json_str v 0 (SSE_DATA_MAX + 1)) ;;
      let '(rc, dn) := r in
      if ((rc =? JSON_OK) || (rc =? JSON_ENOSPC)) && negb (dn =? 0)
      then modify (fun m => echo (take (Z.to_nat dn) (scratch m)) m) else ret tt
  end.

Definition json_delta (d : json_value) : prog sse_msg unit :=
  let '(rc, v) := json_get d (Some (lit "partial_json")) in
  if negb (rc =? JSON_OK) then modify (tally 0 0 1 0 0)
  else
    r <- in_scratch (json_str v 0 (SSE_DATA_MAX + 1)) ;;
    let '(rc, dn) := r in
    if negb (rc =? JSON_OK) && negb (rc =? JSON_ENOSPC) then modify (tally 0 0 1 0 0)
    else
      (if rc =? JSON_ENOSPC then modify (fun m => set_tool (tool m) true true m) else ret tt) ;;;
      modify (tally 0 1 0 0 0) ;;;
      m <- gets id ;;
      if SSE_TOOL_INPUT_MAX <? zlen (tool m) + dn then
        let dn := if zlen (tool m) <? SSE_TOOL_INPUT_MAX then SSE_TOOL_INPUT_MAX - zlen (tool m) else 0 in
        modify (fun m => set_tool (tool m ++ take (Z.to_nat dn) (scratch m)) true true m)
      else modify (fun m => set_tool (tool m ++ take (Z.to_nat dn) (scratch m)) (tool_over m) (tool_lost m) m).

Definition apply_delta (ev : json_value) : prog sse_msg unit :=
  let '(rc, d) := json_get ev (Some (lit "delta")) in
  if negb (rc =? JSON_OK) || negb (bool_decide (jtype d = T_OBJECT)) then modify (tally 0 0 1 0 0)
  else
    b <- gets block ;;
    if bool_decide (b = BLK_NONE) then modify (tally 0 0 0 0 1)
    else
      let '(rc, dt) := json_get d (Some (lit "type")) in
      if negb (rc =? JSON_OK) then modify (tally 0 0 1 0 0)
      else if json_str_eq dt (lit "text_delta") && bool_decide (b = BLK_TEXT) then text_delta d
      else if json_str_eq dt (lit "input_json_delta") && bool_decide (b = BLK_TOOL) then json_delta d
      else modify (tally 0 0 0 1 0).

Definition message_delta (root : json_value) : prog sse_msg unit :=
  let '(rc1, d) := json_get root (Some (lit "delta")) in
  let '(rc2, sr) := json_get d (Some (lit "stop_reason")) in
  if (rc1 =? JSON_OK) && (rc2 =? JSON_OK) then
    match str_inner sr with
    | Some s => if zlen s <? SSE_STOP_MAX then modify (set_stop s)
                else modify (set_stop []) ;;; modify (tally 0 0 0 1 0)
    | None => ret tt
    end
  else ret tt.

Definition error_event (root : json_value) : prog sse_msg unit :=
  let '(rc1, e) := json_get root (Some (lit "error")) in
  let '(rc2, msg) := json_get e (Some (lit "message")) in
  r <- (if (rc1 =? JSON_OK) && (rc2 =? JSON_OK) then local_str msg SSE_ERR_MAX else ret (0, [])) ;;
  set_err SSE_ESTREAM (if bool_decide (r.2 = []) then lit "the stream reported an error" else r.2).

(** The name of the event: its "type" member, or else the framing's. *)
Definition event_kind (root : json_value) (ev : sse_event) : prog sse_msg bytes :=
  let '(rc, type) := json_get root (Some (lit "type")) in
  r <- (if rc =? JSON_OK then local_str type 40 else ret (rc, [])) ;;
  if negb (r.1 =? JSON_OK) || bool_decide (r.2 = []) then ret (copy_clamped 40 (cstr (ev_type ev))) else ret r.2.

Definition sse_msg_event (ev : sse_event) : prog sse_msg unit :=
  m <- gets id ;;
  if closed m then ret tt
  else if bool_decide (ev_data ev = lit "[DONE]") then modify set_done
  else
    let '(rc, root) := json_parse (Some (ev_data ev)) in
    if negb (rc =? JSON_OK) || negb (bool_decide (jtype root = T_OBJECT)) then modify (tally 0 0 1 0 0)
    else
      kind <- event_kind root ev ;;
      if bool_decide (kind = lit "content_block_delta") then apply_delta root
      else if bool_decide (kind = lit "content_block_start") then start_block root
      else if bool_decide (kind = lit "content_block_stop") then
        b <- gets block ;;
        (if bool_decide (b = BLK_NONE) then modify (tally 0 0 0 0 1) else ret tt) ;;; close_block
      else if bool_decide (kind = lit "message_start") then
        let '(rc, msg) := json_get root (Some (lit "message")) in
        begin_message (if (rc =? JSON_OK) && bool_decide (jtype msg = T_OBJECT) then Some msg else None)
      else if bool_decide (kind = lit "message_delta") then message_delta root
      else if bool_decide (kind = lit "message_stop") then modify set_done
      else if bool_decide (kind = lit "ping") then ret tt
      else if bool_decide (kind = lit "error") then error_event root
      else modify (tally 0 0 0 1 0).

Definition EMPTY_MSG : bytes := qlit "{'id':'','type':'message','role':'assistant','model':'','content':[".

(** [json_writer_init(&m->w, m->w.buf, m->w.cap)] *)
Definition restart : prog json_writer unit := fun x => json_writer_init (buf x) (cap x).

(** The return code and [*out_len]. *)
Definition sse_msg_finish : prog sse_msg (Z * Z) :=
  m <- gets id ;;
  (if closed m then ret tt
   else
     modify set_closed ;;;
     close_block ;;;
     st <- gets started ;;
     (if st : bool then ret tt
      else put restart ;;; put (json_put (Some EMPTY_MSG)) ;;; modify set_started) ;;;
     put (json_put (Some (qlit "],'stop_reason':"))) ;;;
     s <- gets stop ;;
     (if first_nul s then put (json_put (Some (lit "null")))
      else put (json_put_char QUOTE) ;;; put (json_put (Some s)) ;;; put (json_put_char QUOTE)) ;;;
     put (json_put (Some (qlit ",'stop_sequence':null}")))) ;;;
  m <- gets id ;;
  if negb (json_writer_ok (w m)) then ret (SSE_ENOSPC, 0)
  else
    let n := json_writer_len (w m) in
    if negb ((json_parse (Some (take (Z.to_nat n) (buf (w m))))).1 =? JSON_OK) then ret (SSE_EPROTO, n)
    else ret (err m, n).

End Reassembly.

Definition sse_msg_lost (m : sse_msg) : bool :=
  negb (bad_events m =? 0) || negb (stray_deltas m =? 0) || tool_lost m.

(** ** Layer 3: the HTTP response driver *)

(** [h->buf] and [h->cap] are the buffer and capacity of [h->m.w]: the verbatim body
    and the reassembled one share the caller's buffer. *)
Record sse_http := Http {
  hdr : bytes; hdr_over : bool; eoh : Z; in_body : bool; streaming : bool;
  status : Z; status_line : bytes; h_len : Z; h_overflow : bool;
  hp : sse_parser; hm : sse_msg }.

Definition set_hdr (x : bytes) (over : bool) (e : Z) (h : sse_http) : sse_http :=
  Http x over e (in_body h) (streaming h) (status h) (status_line h) (h_len h) (h_overflow h) (hp h) (hm h).
Definition set_body (st : bool) (code : Z) (sl : bytes) (h : sse_http) : sse_http :=
  Http (hdr h) (hdr_over h) (eoh h) true st code sl (h_len h) (h_overflow h) (hp h) (hm h).
Definition set_raw (n : Z) (over : bool) (h : sse_http) : sse_http :=
  Http (hdr h) (hdr_over h) (eoh h) (in_body h) (streaming h) (status h) (status_line h) n over (hp h) (hm h).
Definition set_pm (s : sse_parser * sse_msg) (h : sse_http) : sse_http :=
  Http (hdr h) (hdr_over h) (eoh h) (in_body h) (streaming h) (status h) (status_line h) (h_len h) (h_overflow h) s.1 s.2.

(** [buf[0] = '\0'] is a store of json_writer_init as well. *)
Definition sse_http_init (b : bytes) (c : Z) (sc : bytes) : outcome sse_http unit :=
  match sse_msg_init b c sc with
  | Ok _ m => Ok tt (Http [] false 0 false false 0 [] 0 false sse_parser_init m)
  | Panic why => Panic why | Wild => Wild | Spin => Spin
  end.

Fixpoint until_eol (p : bytes) : bytes :=
  match p with
  | c :: r => if (c =? CR) || (c =? LF) then [] else c :: until_eol r
  | [] => []
  end.
(** What follows the first space. *)
Fixpoint after_space (p : bytes) : bytes :=
  match p with c :: r => if c =? ch " " then r else after_space r | [] => [] end.

(** At most three digits: their value, how many, and the rest. *)
Fixpoint status_digits (room : nat) (p : bytes) (code digits : Z) : Z * Z * bytes :=
  match room, p with
  | S room, c :: r => if is_digit c then status_digits room r (code * 10 + (c - ch "0")) (digits + 1) else (code, digits, p)
  | _, _ => (code, digits, p)
  end.

Definition headers_done (h : sse_http) : sse_http :=
  let p := hdr h in
  let l := until_eol p in
  let '(code, digits, rest) := status_digits 3 (after_space l) 0 0 in
  let trailing := match rest with c :: _ => is_digit c | [] => false end in
  let code := if (digits =? 3) && negb trailing then code else 0 in
  let ct := hdr_field None p (lit "content-type:") 0 in
  let st := (code =? 200) && (0 <=? ct) &&
            (0 <=? ifind (until_eol (drop (Z.to_nat ct) p)) (lit "text/event-stream") 0) in
  set_body (streaming h || st) code (copy_clamped MODEL_STATUS_LINE_MAX l) h.

(** One round of the header loop. *)
Definition hdr_byte (c : Z) (h : sse_http) : sse_http :=
  let fits := zlen (hdr h) <? SSE_HDR_MAX in
  let h := set_hdr (if fits then hdr h ++ [c] else hdr h) (hdr_over h || negb fits) (eoh h) h in
  let next e := set_hdr (hdr h) (hdr_over h) e h in
  if eoh h =? 0 then next (if c =? CR then 1 else if c =? LF then 2 else 0)
  else if eoh h =? 1 then next (if c =? LF then 2 else if c =? CR then 1 else 0)
  else if eoh h =? 2 then
    if c =? LF then headers_done h else next (if c =? CR then 3 else 0)
  else
    if c =? LF then headers_done h else next (if c =? CR then 1 else 0).

Section Driver.

Local Open Scope prog_scope.

Definition on_pm (f : prog (sse_parser * sse_msg) unit) : prog sse_http unit := fun h =>
  match f (hp h, hm h) with
  | Ok a s => Ok a (set_pm s h) | Panic why => Panic why | Wild => Wild | Spin => Spin
  end.
Definition on_m {A} (f : prog sse_msg A) : prog sse_http A := fun h =>
  match f (hm h) with
  | Ok a m => Ok a (set_pm (hp h, m) h) | Panic why => Panic why | Wild => Wild | Spin => Spin
  end.

Definition raw_byte (c : Z) : prog sse_http unit :=
  h <- gets id ;;
  if h_len h + 1 <? cap (w (hm h)) then
    on_m (put (on_buf (poke (h_len h) c))) ;;;
    on_m (put (on_buf (poke (h_len h + 1) 0))) ;;;
    modify (set_raw (h_len h + 1) (h_overflow h))
  else modify (set_raw (h_len h) true).

Fixpoint raw_bytes (bs : bytes) : prog sse_http unit :=
  match bs with [] => ret tt | c :: bs => raw_byte c ;;; raw_bytes bs end.

(** The header loop; the result is what is left of the input. *)
Fixpoint hdr_loop (bs : bytes) : prog sse_http bytes :=
  match bs with
  | [] => ret []
  | c :: r =>
      h <- gets id ;;
      if in_body h then ret bs else modify (hdr_byte c) ;;; hdr_loop r
  end.

Definition sse_http_feed (bs : bytes) : prog sse_http unit :=
  rest <- hdr_loop bs ;;
  if bool_decide (rest = []) then ret tt
  else
    h <- gets id ;;
    if streaming h then on_pm (sse_parser_feed sse_msg_event rest) else raw_bytes rest.

Record model_response := Response {
  http_status : Z; r_status_line : bytes; r_body : bytes; body_len : Z; truncated : bool }.

(** The return code and [*out]. *)
Definition sse_http_finish : prog sse_http (Z * model_response) :=
  h <- gets id ;;
  let out len tr h' := Response (status h) (copy_clamped MODEL_STATUS_LINE_MAX (cstr (status_line h)))
                         (buf (w (hm h'))) len tr in
  if negb (in_body h) then ret (SSE_EPROTO, out 0 false h)
  else if negb (streaming h) then
    (if cap (w (hm h)) =? 0 then ret tt else on_m (put (on_buf (poke (h_len h) 0)))) ;;;
    h' <- gets id ;;
    ret (SSE_OK, out (h_len h) (h_overflow h) h')
  else
    on_pm (sse_parser_finish sse_msg_event) ;;;
    r <- on_m sse_msg_finish ;;
    h' <- gets id ;;
    let tr := negb (done_ (hm h')) || clipped (hm h') || sse_msg_lost (hm h') || hdr_over h' ||
              negb (n_dropped (hp h') =? 0) || negb (n_bad_lines (hp h') =? 0) in
    ret (r.1, out r.2 tr h').

(** A whole response, in the chunks the network delivers it in. *)
Fixpoint feed_chunks (chunks : list bytes) : prog sse_http unit :=
  match chunks with [] => ret tt | c :: chunks => sse_http_feed c ;;; feed_chunks chunks end.

End Driver.

(** Read a response into the buffer [b] with capacity [c]. *)
Definition read_response (b : bytes) (c : Z) (sc : bytes) (chunks : list bytes) : outcome sse_http (Z * model_response) :=
  match sse_http_init b c sc with
  | Ok _ h => bind (feed_chunks chunks) (fun _ => sse_http_finish) h
  | Panic why => Panic why | Wild => Wild | Spin => Spin
  end.
