(* ===== verification/SseJson.v ===== *)
(** JSON facts the streaming reader relies on: nesting bounds, the values json_get
    hands out, decoding into bounded arrays, and documents put together from parts. *)

From S2P Require Import Prelude Bytes Json JsonWriter JsonGrammar JsonNav JsonText JsonOut Sse.

(** ** Nesting bounds can be relaxed *)

Scheme jval_mind := Minimality for jval Sort Prop
  with jelems_mind := Minimality for jelems Sort Prop
  with jmembers_mind := Minimality for jmembers Sort Prop.
Combined Scheme json_mind from jval_mind, jelems_mind, jmembers_mind.

Lemma json_mono :
  (forall n t s, jval n t s -> forall k, (n <= k)%nat -> jval k t s) /\
  (forall n es s, jelems n es s -> forall k, (n <= k)%nat -> jelems k es s) /\
  (forall n ms s, jmembers n ms s -> forall k, (n <= k)%nat -> jmembers k ms s).
Proof.
  apply json_mind; intros; try (destruct k as [|k]; [lia|]);
    match goal with
    | |- jval _ T_ARRAY (_ :: ?s ++ _) => first [by apply jv_array0 | eapply jv_array; eauto with lia]
    | |- jval _ T_OBJECT (_ :: ?s ++ _) => first [by apply jv_object0 | eapply jv_object; eauto with lia]
    | |- jval _ _ _ => by constructor
    | |- _ => constructor; eauto
    end.
Qed.

Lemma jval_mono n k t s : jval n t s -> (n <= k)%nat -> jval k t s.
Proof. intros H Hk. by eapply (proj1 json_mono). Qed.

(** ** What json_get hands out *)

Lemma jelems_spans n es s : jelems n es s -> forall v, In v es -> (length (span v) <= length s)%nat.
Proof.
  induction 1 as [n w1 t v w2|n w1 t v w2 es s ? ? ? ? IH]; intros x Hx.
  - destruct Hx as [<-|[]]. cbn. rewrite !length_app. lia.
  - rewrite !length_app. cbn [length]. destruct Hx as [<-|Hx]; [cbn; lia|]. specialize (IH x Hx). lia.
Qed.

Lemma jmembers_spans n ms s : jmembers n ms s -> forall kv, In kv ms -> (length (span kv.2) <= length s)%nat.
Proof.
  induction 1 as [n w1 k w2 w3 t v w4|n w1 k w2 w3 t v w4 ms s ? ? ? ? ? ? ? IH]; intros x Hx.
  - destruct Hx as [<-|[]]. cbn. rewrite !length_app. cbn. rewrite !length_app. lia.
  - rewrite !length_app. cbn [length]. rewrite !length_app. cbn [length].
    destruct Hx as [<-|Hx]; [cbn; lia|]. specialize (IH x Hx). lia.
Qed.

(** A value within the nesting limit, and within [k] bytes. *)
Definition sound_value (k : Z) (v : json_value) : Prop :=
  (exists n, (n <= 32)%nat /\ jval n (jtype v) (span v)) /\ zlen (span v) <= k.

Lemma json_get_sound k obj key v : sound_value k obj -> json_get obj (Some key) = (JSON_OK, v) ->
  sound_value k v /\ jval 31 (jtype v) (span v).
Proof.
  intros ((n & Hn & Hv) & Hk). unfold json_get. case_bool_decide as Ht; cbn [negb]; [|done].
  destruct obj as [t s]. cbn in Ht, Hv, Hk. subst t. destruct (jval_holds true n s Hn Hv) as [its Hits].
  pose proof (holds_items_ok _ _ _ Hits) as Hok. rewrite (walk_search _ _ _ _ _ _ Hits). intros E.
  pose proof (search_key key its Hok 0 no_value no_value) as Hs. cbv beta in Hs. rewrite E in Hs.
  destruct (find (named key) its) as [kv|] eqn:Ef; [|done]. injection Hs as ->.
  apply find_some in Ef as [Hin _]. rewrite Stdlib.Lists.List.Forall_forall in Hok.
  destruct (Hok kv Hin) as [_ (n' & Hn' & Hj)]. split; [|by eapply jval_mono].
  split; [exists n'; split; [lia|done]|].
  destruct Hits as (_ & n2 & s2 & _ & Es & [[-> _]|H]); [done|]. cbn in Es. cbn [jitems] in H.
  pose proof (jmembers_spans n2 its s2 H kv Hin). subst s. unfold zlen in *. cbn [length] in Hk.
  rewrite length_app in Hk. lia.
Qed.

Lemma json_parse_sound text v : json_parse (Some text) = (JSON_OK, v) -> sound_value (zlen text) v.
Proof.
  intros H. apply json_parse_ok_sound in H as (w1 & w2 & -> & _ & _ & Hv). split; [by exists 32%nat|].
  unfold zlen. rewrite !length_app. lia.
Qed.

Lemma jval_string n v : jval n (jtype v) (span v) -> jtype v = T_STRING -> jstring (span v).
Proof. destruct v as [t s]. cbn. intros H ->. by inversion H. Qed.

Lemma jstring_ge2 s : jstring s -> 2 <= zlen s.
Proof. intros (b & -> & _). autorewrite with zlen. pose proof (zlen_nonneg b). lia. Qed.

(** ** Decoding into an array *)

Lemma jchars_body s : jstring s -> jchars (body (JV T_STRING s)) /\ zlen (body (JV T_STRING s)) + 2 = zlen s.
Proof. intros (b & -> & Hb). rewrite body_jstring. autorewrite with zlen. split; [done|lia]. Qed.

Lemma take_zlen_patch0 (s : bytes) b : zlen s < zlen b -> take (Z.to_nat (zlen s)) (patch 0 (s ++ [0]) b) = s.
Proof.
  intros H. unfold patch. change (take (Z.to_nat 0) b) with (@nil Z). cbn [app]. rewrite <- app_assoc.
  unfold zlen. by rewrite Nat2Z.id, take_app_length.
Qed.

(** The code, the bytes decoded and the array after, whatever the value. *)
Lemma json_str_runs n v c b : jval n (jtype v) (span v) -> 1 <= c <= zlen b ->
  exists rc out b', json_str v 0 c b = Ok (rc, zlen out) b' /\ zlen b' = zlen b /\ zlen out < c /\
    take (Z.to_nat (zlen out)) b' = out /\ (rc = JSON_OK \/ rc = JSON_ENOSPC \/ (rc = JSON_ETYPE /\ out = [])).
Proof.
  intros Hv Hc. destruct (decide (jtype v = T_STRING)) as [Ht|Ht].
  - pose proof (jval_string n v Hv Ht) as Hs. destruct v as [t s]. cbn in Ht, Hs. subst t.
    destruct (jchars_body s Hs) as [Hb _]. destruct (jchars_decode _ Hb) as [d Hd].
    destruct (json_str_spec s 0 c b d Hs) as (rc & out & rest & -> & E & Hl & Hcase); [lia..|done|].
    exists rc, out, (patch 0 (out ++ [0]) b). pose proof (zlen_nonneg out). split; [done|].
    split; [rewrite zlen_patch; autorewrite with zlen; lia|]. split; [done|].
    split; [apply take_zlen_patch0; lia|]. destruct Hcase as [[-> _]|(-> & _)]; auto.
  - exists JSON_ETYPE, [], (patch 0 [0] b). unfold json_str. rewrite (proj2 (Z.eqb_neq c 0)) by lia.
    erewrite bind_ok by (apply poke_ok; lia). rewrite bool_decide_eq_false_2 by done. cbn [negb orb].
    split; [done|]. split; [rewrite zlen_patch; autorewrite with zlen; lia|]. split; [unfold zlen; cbn; lia|]. auto.
Qed.

(** ** Documents from parts *)

Fixpoint members_text (ms : list (bytes * bytes)) : bytes :=
  match ms with
  | [] => []
  | [(k, v)] => k ++ ch ":" :: v
  | (k, v) :: ms => k ++ ch ":" :: v ++ ch "," :: members_text ms
  end.

(** The value may have white space around it. *)
Definition padded (n : nat) (t : json_type) (s : bytes) : Prop :=
  exists w1 v w2, s = w1 ++ v ++ w2 /\ ws w1 /\ ws w2 /\ jval n t v.
Definition member_ok (n : nat) (kv : bytes * bytes) : Prop := jstring kv.1 /\ exists t, padded n t kv.2.

Lemma padded_val n t s : jval n t s -> padded n t s.
Proof. intros H. exists [], s, []. rewrite app_nil_r. auto with json. Qed.

(** The text of a member, and the member a reader finds there. *)
Definition member_is (n : nat) (kv : bytes * bytes) (it : json_value * json_value) : Prop :=
  jstring kv.1 /\ it.1 = JV T_STRING kv.1 /\
  exists w1 w2, kv.2 = w1 ++ span it.2 ++ w2 /\ ws w1 /\ ws w2 /\ jval n (jtype it.2) (span it.2).

Lemma members_exact n ms its : Forall2 (member_is n) ms its -> ms <> [] -> jmembers n its (members_text ms).
Proof.
  induction 1 as [|[k v] [k' [t v']] ms its (Hk & Ek & w1 & w2 & E & H1 & H2 & Hv) Hr IH]; [done|]. intros _.
  cbn in *. subst v k'. destruct Hr as [|kv it ms its].
  - apply (jm_one n [] k [] w1 t v' w2); auto with json.
  - rewrite <- !app_assoc. apply (jm_more n [] k [] w1 t v' w2 _ _); auto with json.
Qed.

Lemma members_jmembers n ms : Forall (member_ok n) ms -> ms <> [] -> exists its, jmembers n its (members_text ms).
Proof.
  intros Hms Hne. cut (exists its, Forall2 (member_is n) ms its).
  { intros [its Hi]. exists its. by apply members_exact. }
  clear Hne. induction Hms as [|[k v] ms [Hk (t & w1 & v' & w2 & E & H1 & H2 & Hv)] _ [its IH]]; [by exists []|].
  exists ((JV T_STRING k, JV t v') :: its). constructor; [|done]. split; [done|]. split; [done|]. eauto 8.
Qed.

Lemma members_object n ms : Forall (member_ok n) ms -> ms <> [] ->
  jval (S n) T_OBJECT (ch "{" :: members_text ms ++ [ch "}"]).
Proof. intros H Hne. destruct (members_jmembers n ms H Hne) as [its Hi]. by eapply jv_object. Qed.

Fixpoint commas (bs : list bytes) : bytes :=
  match bs with
  | [] => []
  | [b] => b
  | b :: bs => b ++ ch "," :: commas bs
  end.

Lemma commas_exact n bs es : Forall2 (fun b e => span e = b /\ jval n (jtype e) b) bs es -> bs <> [] ->
  jelems n es (commas bs).
Proof.
  induction 1 as [|b [t v] bs es [E Hb] Hr IH]; [done|]. intros _. cbn in E, Hb. subst v.
  destruct Hr as [|b' e bs es]; cbn [commas].
  - pose proof (je_one n [] t b []) as He. cbn [app] in He. rewrite app_nil_r in He. apply He; auto with json.
  - apply (je_more n [] t b []); auto with json.
Qed.

Lemma commas_array n bs : Forall (fun b => exists t, jval n t b) bs ->
  jval (S n) T_ARRAY (ch "[" :: commas bs ++ [ch "]"]).
Proof.
  intros H. cut (exists es, Forall2 (fun b e => span e = b /\ jval n (jtype e) b) bs es).
  { intros [es He]. destruct bs as [|b bs]; [by apply (jv_array0 n [])|]. eapply jv_array. by apply commas_exact. }
  induction H as [|b bs [t Hb] _ [es IH]]; [by exists []|]. exists (JV t b :: es). by constructor.
Qed.

Lemma commas_snoc bs b : commas (bs ++ [b]) = commas bs ++ (if decide (bs = []) then [] else [ch ","]) ++ b.
Proof.
  induction bs as [|c bs IH]; [done|]. rewrite decide_False by done.
  destruct bs as [|d bs]; [done|]. change ((c :: d :: bs) ++ [b]) with (c :: (d :: bs) ++ [b]).
  assert (E : commas (c :: (d :: bs) ++ [b]) = c ++ ch "," :: commas ((d :: bs) ++ [b])) by done.
  rewrite E, IH, decide_False by done. cbn [commas]. rewrite <- app_assoc. done.
Qed.

Lemma commas_snoc_app bs b s : commas (bs ++ [b]) ++ s = commas (bs ++ [b ++ s]).
Proof. rewrite !commas_snoc. by rewrite <- !app_assoc. Qed.

Lemma commas_length bs : Forall (fun b => 1 <= zlen b) bs -> Z.of_nat (length bs) <= zlen (commas bs).
Proof.
  induction 1 as [|b bs Hb H IH]; [done|]. destruct bs as [|c bs]; cbn [commas length] in *; [lia|].
  autorewrite with zlen. lia.
Qed.
