(* ===== verification/SseDoc.v ===== *)
(** net/sse.c, reassembly: whatever the events, the document under construction can
    always be completed to valid JSON within the buffer. *)

From S2P Require Import Prelude Bytes Json JsonWriter JsonGrammar JsonNav JsonText JsonOut Sse SseJson.

(** Literals hold no NUL. *)
Lemma no_nul_check s : forallb (fun c => negb (c =? 0)) s = true -> no_nul s.
Proof.
  rewrite forallb_forall. intros H. apply Forall_forall. intros c Hc.
  apply H in Hc. by apply negb_true_iff, Z.eqb_neq in Hc.
Qed.
Ltac literal := apply no_nul_check; reflexivity.

(** Compute the lengths of literals. *)
Ltac lit_len :=
  repeat match goal with
  | |- context [zlen (qlit ?s)] => let v := eval vm_compute in (zlen (qlit s)) in change (zlen (qlit s)) with v
  | |- context [zlen (lit ?s)] => let v := eval vm_compute in (zlen (lit s)) in change (zlen (lit s)) with v
  | H : context [zlen (qlit ?s)] |- _ => let v := eval vm_compute in (zlen (qlit s)) in change (zlen (qlit s)) with v in H
  | H : context [zlen (lit ?s)] |- _ => let v := eval vm_compute in (zlen (lit s)) in change (zlen (lit s)) with v in H
  end.

(** ** Writing *)

(** [x'] is [x] with [s] appended. *)
Definition grown (x x' : json_writer) (s : bytes) : Prop :=
  wf x' /\ cap x' = cap x /\ overflow x' = false /\ text x' = text x ++ s /\ len x' = len x + zlen s.

Lemma appends_fit f s x : appends f s -> wf x -> overflow x = false -> len x + zlen s < cap x ->
  exists x', f x = Ok tt x' /\ grown x x' s.
Proof.
  intros Ha Hw Ho Hl. destruct (Ha x Hw) as (x' & s' & E & Hw' & Hc & _ & Ht & _ & Hf & Hs).
  assert (Ho' : overflow x' = false) by (by apply Hf). rewrite (Hs Ho') in Ht.
  exists x'. split; [done|]. split; [done|]. split; [done|]. split; [done|]. split; [done|].
  rewrite <- !zlen_text by done. rewrite Ht. by autorewrite with zlen.
Qed.

Lemma grown_trans x y z s t : grown x y s -> grown y z t -> grown x z (s ++ t).
Proof.
  intros (A1 & A2 & A3 & A4 & A5) (B1 & B2 & B3 & B4 & B5). split; [done|]. split; [congruence|]. split; [done|].
  split; [rewrite B4, A4; by rewrite app_assoc|]. autorewrite with zlen. lia.
Qed.

Lemma put_fits s x : wf x -> overflow x = false -> len x + zlen s < cap x ->
  exists x', json_put_n (Some s) x = Ok tt x' /\ grown x x' s.
Proof.
  intros Hw Ho Hl. destruct (wf_range x Hw Ho). apply appends_fit; [|done..]. apply json_put_n_appends. lia.
Qed.

Lemma put_str_fits s x : no_nul s -> wf x -> overflow x = false -> len x + zlen s < cap x ->
  exists x', json_put (Some s) x = Ok tt x' /\ grown x x' s.
Proof. intros Hn. unfold json_put. cbn. rewrite cstr_id by done. apply put_fits. Qed.

Lemma set_w_twice x y m : set_w x (set_w y m) = set_w x m.
Proof. done. Qed.

Lemma put_ok f x m : f (w m) = Ok tt x -> put f m = Ok tt (set_w x m).
Proof. unfold put. by intros ->. Qed.

(** ** mneed and mputs *)

(** What stays the same when output is frozen. *)
Definition frozen_of (m m' : sse_msg) : Prop :=
  frozen m' = true /\ started m' = started m /\ block m' = block m /\ closed m' = closed m /\
  stop m' = stop m /\ tool m' = tool m /\ scratch m' = scratch m /\ tool_over m' = tool_over m /\ err m' = err m.

(** The fragment the freeze appends. *)
Definition closer_of (b : sse_blk) : bytes :=
  match b with BLK_TEXT => qlit "'}" | BLK_TOOL => lit "{}}" | _ => [] end.

Lemma grown_refl x : wf x -> overflow x = false -> grown x x [].
Proof. intros. split; [done|]. split; [done|]. split; [done|]. rewrite app_nil_r. split; [done|]. unfold zlen. cbn. lia. Qed.

Lemma freeze_spec m : wf (w m) -> overflow (w m) = false -> frozen m = false -> len (w m) + 3 < cap (w m) ->
  exists m', freeze m = Ok tt m' /\ frozen_of m m' /\ grown (w m) (w m') (closer_of (block m)).
Proof.
  intros Hw Ho Hf Hl. unfold freeze. erewrite bind_ok by reflexivity. unfold id. rewrite Hf.
  erewrite bind_ok by reflexivity.
  destruct (block m) eqn:Eb; try (eexists; split; [reflexivity|]; split; [done|]; by apply grown_refl).
  - destruct (put_str_fits (qlit "'}") (w m)) as (x & E & Hg); [literal|done|done|lit_len; lia|].
    erewrite put_ok by exact E. eexists. split; [reflexivity|]. split; [|exact Hg]. by repeat split.
  - destruct (put_str_fits (lit "{}}") (w m)) as (x & E & Hg); [literal|done|done|lit_len; lia|].
    erewrite put_ok by exact E. eexists. split; [reflexivity|]. split; [|exact Hg]. by repeat split.
Qed.

Lemma mneed_spec n m : wf (w m) -> 0 <= n < 2 ^ 62 -> (frozen m = false -> overflow (w m) = false /\ len (w m) + 3 < cap (w m)) ->
  (mneed n m = Ok true m /\ frozen m = false /\ len (w m) + n + SSE_TAIL_RESERVE < cap (w m)) \/
  (frozen m = true /\ mneed n m = Ok false m) \/
  (frozen m = false /\ exists m', mneed n m = Ok false m' /\ frozen_of m m' /\ grown (w m) (w m') (closer_of (block m))).
Proof.
  intros Hw Hn Hnf. unfold mneed. erewrite bind_ok by reflexivity. unfold id.
  destruct (frozen m) eqn:Ef; cbn [orb]; [by auto|]. destruct (Hnf eq_refl) as [Ho Hl]. rewrite Ho.
  destruct (wf_range (w m) Hw Ho). rewrite wrap64_small by (unfold SSE_TAIL_RESERVE; lia).
  destruct (Z.leb_spec (cap (w m)) (len (w m) + n + SSE_TAIL_RESERVE)) as [Hge|Hlt]; [|by left].
  right. right. split; [done|]. destruct (freeze_spec m Hw Ho Ef Hl) as (m' & E & H1 & H2).
  exists m'. erewrite bind_ok by exact E. done.
Qed.

Lemma mputs_fit ss m : wf (w m) -> overflow (w m) = false -> frozen m = false ->
  len (w m) + zlen (concat ss) + SSE_TAIL_RESERVE < cap (w m) ->
  exists x, mputs ss m = Ok tt (set_w x m) /\ grown (w m) x (concat ss).
Proof.
  revert m. induction ss as [|s ss IH]; intros m Hw Ho Hf Hl; cbn [mputs concat] in *.
  - exists (w m). split; [by destruct m|by apply grown_refl].
  - autorewrite with zlen in Hl. pose proof (zlen_nonneg s). pose proof (zlen_nonneg (concat ss)).
    destruct (wf_range (w m) Hw Ho). unfold SSE_TAIL_RESERVE in *.
    destruct (put_fits s (w m) Hw Ho) as (x & Ex & Hg); [lia|]. pose proof Hg as (G1 & G2 & G3 & _ & G5).
    assert (E : mput_n s m = Ok tt (set_w x m)).
    { unfold mput_n. destruct (mneed_spec (zlen s) m Hw) as [(E & _)|[[? _]|(_ & m' & E & _ & Hg')]];
        [lia|split; [done|lia]| |congruence|].
      - erewrite bind_ok by exact E. by apply put_ok.
      - exfalso. revert E. unfold mneed. erewrite bind_ok by reflexivity. unfold id. rewrite Hf, Ho. cbn [orb].
        rewrite wrap64_small by (unfold SSE_TAIL_RESERVE; lia). unfold SSE_TAIL_RESERVE.
        destruct (Z.leb_spec (cap (w m)) (len (w m) + zlen s + 128)); [lia|]. done. }
    erewrite bind_ok by exact E. destruct (IH (set_w x m)) as (y & Ey & Hy); cbn [w set_w frozen]; try done; [lia|].
    exists y. rewrite Ey. split; [done|]. by eapply grown_trans.
Qed.

(** ** The document under construction *)

(** A content block; a tool call's input nests up to 32 levels inside one. *)
Definition item (s : bytes) : Prop := jval 33 T_OBJECT s.

Definition head_parts (i r mo : bytes) : list bytes :=
  [qlit "{'id':"; i; qlit ",'type':'message','role':"; r; qlit ",'model':"; mo; qlit ",'content':["].
Definition is_head (h : bytes) : Prop :=
  exists i r mo, h = concat (head_parts i r mo) /\ jstring i /\ jstring r /\ jstring mo.

Definition TXT : bytes := qlit "{'type':'text','text':'".
Definition tool_parts (i n : bytes) : list bytes :=
  [qlit "{'type':'tool_use','id':"; i; qlit ",'name':"; n; qlit ",'input':"].

Section Doc.

(** The capacity of the buffer, and whether the document has been closed. *)
Variables (c0 : Z) (cl : bool).

Record base (m : sse_msg) : Prop := {
  b_wf : wf (w m);
  b_c0 : cap (w m) = c0;
  b_cap : SSE_TAIL_RESERVE + 64 <= cap (w m) < 2 ^ 32;
  b_blocks : 0 <= blocks m < 2 ^ 32;
  b_stop : jchars (stop m) /\ zlen (stop m) < SSE_STOP_MAX;
  b_tool : zlen (tool m) <= SSE_TOOL_INPUT_MAX;
  b_scratch : zlen (scratch m) = SSE_DATA_MAX + 1;
  b_err : err m = SSE_OK \/ err m = SSE_ESTREAM;
  b_open : closed m = cl }.

(** Nothing yet; clipped before the first byte; between blocks (or clipped); inside a
    text block; inside a tool block. *)
Inductive content (m : sse_msg) : Prop :=
  | c_new : started m = false -> frozen m = false -> block m = BLK_NONE -> blocks m = 0 ->
      len (w m) = 0 -> overflow (w m) = false -> content m
  | c_lost : started m = false -> frozen m = true -> content m
  | c_shut h bs : started m = true -> is_head h -> Forall item bs -> overflow (w m) = false ->
      len (w m) + 125 < cap (w m) -> text (w m) = h ++ commas bs ->
      (frozen m = true \/ ((block m = BLK_NONE \/ block m = BLK_OTHER) /\ blocks m = Z.of_nat (length bs))) -> content m
  | c_text h bs t : started m = true -> is_head h -> Forall item bs -> overflow (w m) = false ->
      len (w m) + SSE_TAIL_RESERVE < cap (w m) -> text (w m) = h ++ commas (bs ++ [TXT ++ t]) -> jchars t ->
      frozen m = false -> block m = BLK_TEXT -> blocks m = Z.of_nat (length bs) + 1 -> content m
  | c_tool h bs i n : started m = true -> is_head h -> Forall item bs -> overflow (w m) = false ->
      len (w m) + SSE_TAIL_RESERVE < cap (w m) -> text (w m) = h ++ commas (bs ++ [concat (tool_parts i n)]) ->
      jstring i -> jstring n ->
      frozen m = false -> block m = BLK_TOOL -> blocks m = Z.of_nat (length bs) + 1 -> content m.

Definition inv (m : sse_msg) : Prop := base m /\ content m.

(** Only these fields matter. *)
Definition same (m m' : sse_msg) : Prop :=
  w m' = w m /\ started m' = started m /\ block m' = block m /\ frozen m' = frozen m /\ blocks m' = blocks m /\
  stop m' = stop m /\ zlen (tool m') <= SSE_TOOL_INPUT_MAX /\ zlen (scratch m') = SSE_DATA_MAX + 1 /\ closed m' = closed m /\
  (err m' = SSE_OK \/ err m' = SSE_ESTREAM).

Lemma inv_same m m' : inv m -> same m m' -> inv m'.
Proof.
  intros [[] Hc] (E1 & E2 & E3 & E4 & E5 & E6 & E7 & E8 & E9 & E10).
  split; [split; first [done|congruence]|].
  destruct Hc as [| |h bs|h bs t|h bs i n];
    [apply c_new|apply c_lost|eapply c_shut|eapply c_text|eapply c_tool]; rewrite ?E1, ?E2, ?E3, ?E4, ?E5; eauto.
Qed.

Lemma tally_same m de ba un st : base m -> same m (tally 0 de ba un st m).
Proof.
  intros []. unfold same. cbn. rewrite Z.add_0_r. repeat split; try done. by apply wrap_small.
Qed.

(** ** Pieces of the grammar *)

Lemma jstring_check s : (match scan_string s with At [] => true | _ => false end) = true -> jstring s.
Proof.
  destruct (scan_string s) as [[|? ?]|] eqn:E; [|done..]. intros _.
  apply scan_string_sound in E as (k & -> & Hk). by rewrite app_nil_r.
Qed.
Ltac lit_string := apply jstring_check; reflexivity.

Lemma item_text t : jchars t -> item (TXT ++ t ++ qlit "'}").
Proof.
  intros Ht. assert (E : TXT ++ t ++ qlit "'}" =
    ch "{" :: members_text [(qlit "'type'", qlit "'text'"); (qlit "'text'", QUOTE :: t ++ [QUOTE])] ++ [ch "}"]).
  { cbn. by rewrite <- app_assoc. }
  rewrite E. apply members_object; [|done]. repeat constructor; cbn [fst snd]; try lit_string.
  - exists T_STRING. apply padded_val. constructor. lit_string.
  - exists T_STRING. apply padded_val. constructor. by exists t.
Qed.

Lemma item_tool i n obj : jstring i -> jstring n -> padded 32 T_OBJECT obj ->
  item (concat (tool_parts i n) ++ obj ++ lit "}").
Proof.
  intros Hi Hn Ho. assert (E : concat (tool_parts i n) ++ obj ++ lit "}" =
    ch "{" :: members_text [(qlit "'type'", qlit "'tool_use'"); (qlit "'id'", i); (qlit "'name'", n);
                            (qlit "'input'", obj)] ++ [ch "}"]).
  { cbn. repeat (rewrite <- app_assoc; cbn). done. }
  rewrite E. apply members_object; [|done]. repeat constructor; cbn [fst snd]; try lit_string; eauto.
  - exists T_STRING. apply padded_val. constructor. lit_string.
  - exists T_STRING. apply padded_val. by constructor.
  - exists T_STRING. apply padded_val. by constructor.
Qed.

Lemma item_tool_empty i n : jstring i -> jstring n -> item (concat (tool_parts i n) ++ lit "{}" ++ lit "}").
Proof. intros. apply item_tool; [done..|]. apply padded_val, (jv_object0 31 []). auto with json. Qed.

Lemma item_nonempty s : item s -> 1 <= zlen s.
Proof. intros H. destruct (jval_head _ _ _ H) as (c & r & -> & _). autorewrite with zlen. pose proof (zlen_nonneg r). lia. Qed.

Lemma jchars_app s t : jchars s -> jchars t -> jchars (s ++ t).
Proof. induction 1; cbn [app]; intros; [done|apply jc_raw; auto|apply jc_esc; auto|apply jc_u; auto]. Qed.

(** The whole document. *)
Lemma document_jval h bs st : is_head h -> Forall item bs -> (st = lit "null" \/ jstring st) ->
  jval 35 T_OBJECT (h ++ commas bs ++ qlit "],'stop_reason':" ++ st ++ qlit ",'stop_sequence':null}").
Proof.
  intros (i & r & mo & -> & Hi & Hr & Hm) Hbs Hst.
  assert (E : concat (head_parts i r mo) ++ commas bs ++ qlit "],'stop_reason':" ++ st ++ qlit ",'stop_sequence':null}" =
    ch "{" :: members_text [(qlit "'id'", i); (qlit "'type'", qlit "'message'"); (qlit "'role'", r); (qlit "'model'", mo);
      (qlit "'content'", ch "[" :: commas bs ++ [ch "]"]); (qlit "'stop_reason'", st);
      (qlit "'stop_sequence'", lit "null")] ++ [ch "}"]).
  { cbn. repeat (rewrite <- app_assoc; cbn). done. }
  rewrite E. apply members_object; [|done]. repeat constructor; cbn [fst snd]; try lit_string.
  1-4: exists T_STRING; apply padded_val; constructor; first [done|lit_string].
  - exists T_ARRAY. apply padded_val, commas_array. eapply Forall_impl; [|exact Hbs]. intros b Hb. by exists T_OBJECT.
  - destruct Hst as [->|]; [exists T_NULL|exists T_STRING]; apply padded_val; by constructor.
  - exists T_NULL. apply padded_val. constructor.
Qed.

(** ** The operations keep the document completable *)

Lemma base_grown m m' : base m -> frozen_of m m' -> blocks m' = blocks m ->
  wf (w m') -> cap (w m') = cap (w m) -> base m'.
Proof.
  intros [] (F1 & F2 & F3 & F4 & F5 & F6 & F7 & F8 & F9) Hb Hw Hc. split; congruence.
Qed.

(** Freezing closes the open block. *)
Lemma content_freeze m m' : content m -> frozen m = false -> frozen_of m m' ->
  grown (w m) (w m') (closer_of (block m)) -> content m'.
Proof.
  intros Hc Hf (F1 & F2 & F3 & _) (G1 & G2 & G3 & G4 & G5). unfold SSE_TAIL_RESERVE in *.
  destruct Hc as [? ? Eb|? ?|h bs ? Hh Hbs Ho Hl Ht Hb|h bs t ? Hh Hbs Ho Hl Ht Hj ? Eb ?|h bs i n ? Hh Hbs Ho Hl Ht Hi Hn ? Eb ?];
    [apply c_lost; congruence|congruence|apply (c_shut m' h bs)|
     apply (c_shut m' h (bs ++ [TXT ++ t ++ qlit "'}"]))|
     apply (c_shut m' h (bs ++ [concat (tool_parts i n) ++ lit "{}" ++ lit "}"]))]; try done; try congruence; try (by left).
  - assert (closer_of (block m) = []) as E by (destruct Hb as [?|[[->| ->] _]]; [congruence|done|done]).
    rewrite E in *. unfold zlen in G5. cbn in G5. rewrite G2. lia.
  - assert (closer_of (block m) = []) as E by (destruct Hb as [?|[[->| ->] _]]; [congruence|done|done]).
    rewrite G4, E, app_nil_r. done.
  - apply Forall_app. split; [done|]. repeat constructor. by apply item_text.
  - rewrite Eb in G5. cbn [closer_of] in G5. lit_len. unfold SSE_TAIL_RESERVE in *. lia.
  - rewrite G4, Ht, Eb. cbn [closer_of]. rewrite <- app_assoc, commas_snoc_app. by rewrite <- app_assoc.
  - apply Forall_app. split; [done|]. repeat constructor. by apply item_tool_empty.
  - rewrite Eb in G5. cbn [closer_of] in G5. lit_len. unfold SSE_TAIL_RESERVE in *. lia.
  - rewrite G4, Ht, Eb. cbn [closer_of]. rewrite <- app_assoc, commas_snoc_app. done.
Qed.

Lemma freeze_blocks m m' : freeze m = Ok tt m' -> blocks m' = blocks m.
Proof.
  unfold freeze. erewrite bind_ok by reflexivity. destruct (frozen (id m)); [by inversion 1|].
  erewrite bind_ok by reflexivity. unfold put. destruct (block (id m)); try (by inversion 1);
    destruct (json_put _ _); try done; by inversion 1.
Qed.

Lemma mneed_blocks n m m' : mneed n m = Ok false m' -> blocks m' = blocks m.
Proof.
  unfold mneed. erewrite bind_ok by reflexivity. destruct (_ || _); [by inversion 1|]. destruct (_ <=? _); [|done].
  unfold bind, ret. destruct (freeze m) as [[] x| | |] eqn:E; try done. inversion 1; subst. by apply freeze_blocks in E.
Qed.

(** The reservation, on a document under construction. *)
Lemma mneed_inv n m : inv m -> 0 <= n < 2 ^ 62 ->
  (mneed n m = Ok true m /\ frozen m = false /\ overflow (w m) = false /\ len (w m) + n + SSE_TAIL_RESERVE < cap (w m)) \/
  (exists m', mneed n m = Ok false m' /\ inv m' /\ frozen m' = true /\ block m' = block m /\ started m' = started m /\
     blocks m' = blocks m /\ tool m' = tool m).
Proof.
  intros [Hb Hc] Hn. pose proof (b_wf _ Hb) as B1. pose proof (b_cap _ Hb) as B2. unfold SSE_TAIL_RESERVE in B2.
  assert (Hnf : frozen m = false -> overflow (w m) = false /\ len (w m) + 3 < cap (w m)).
  { intros Hf. destruct Hc as [| | | | ]; unfold SSE_TAIL_RESERVE in *; try congruence; (split; [done|lia]). }
  destruct (mneed_spec n m B1 Hn Hnf) as [(E & Hf & Hl)|[[Hf E]|(Hf & m' & E & F & G)]].
  - left. destruct (Hnf Hf). done.
  - right. exists m. split; [done|]. split; [by split|]. done.
  - right. exists m'. pose proof (mneed_blocks n m m' E) as Hbl. pose proof F as (F1 & F2 & F3 & F4 & F5 & F6 & _).
    split; [done|]. split; [|done]. split; [eapply base_grown; try done; apply G|]. by eapply content_freeze.
Qed.

Lemma base_set_w m x s : base m -> grown (w m) x s -> base (set_w x m).
Proof. intros [] (G1 & G2 & _). split; cbn; congruence. Qed.

(** After close_block there is no block, and the document is between blocks. *)
Definition between (m : sse_msg) : Prop := inv m /\ block m = BLK_NONE.

Lemma unblock m : inv m -> frozen m = true \/ (block m <> BLK_TEXT /\ block m <> BLK_TOOL) ->
  between (set_tool [] false (tool_lost (set_block BLK_NONE m)) (set_block BLK_NONE m)).
Proof.
  intros [[] Hc] H2. split; [|done]. split; [split; try done; cbn; unfold zlen, SSE_TOOL_INPUT_MAX; cbn; lia|].
  destruct Hc as [| |h bs ? ? ? ? ? ? Hb|h bs t|h bs i n]; [by apply c_new|by apply c_lost|eapply (c_shut _ h bs)| |]; try done.
  - cbn. destruct Hb as [?|[_ ?]]; [by left|right]. split; [by left|done].
  - by destruct H2 as [?|[? _]]; [congruence|].
  - by destruct H2 as [?|[_ ?]]; [congruence|].
Qed.

(** A block that has just been completed, before the flags are reset. *)
Lemma completed_between m x h bs s : base m -> grown (w m) x s -> started m = true -> is_head h ->
  Forall item bs -> len (w m) + zlen s + 125 < cap (w m) -> text (w m) ++ s = h ++ commas bs ->
  blocks m = Z.of_nat (length bs) ->
  between (set_tool [] false (tool_lost (set_block BLK_NONE (set_w x m))) (set_block BLK_NONE (set_w x m))).
Proof.
  intros Hb Hg Hs Hh Hbs Hl Ht Hn. pose proof Hg as (G1 & G2 & G3 & G4 & G5).
  pose proof (base_set_w m x s Hb Hg) as []. split; [|done].
  split; [split; try done; cbn; unfold zlen, SSE_TOOL_INPUT_MAX; cbn; lia|].
  apply (c_shut _ h bs); cbn; try done; [rewrite G2; lia|congruence|]. right. split; [by left|done].
Qed.

Lemma length_snoc {A} (l : list A) x : Z.of_nat (length (l ++ [x])) = Z.of_nat (length l) + 1.
Proof. rewrite length_app. cbn. lia. Qed.

(** The flags reset at the end of close_block. *)
Definition reset_block : prog sse_msg unit :=
  bind (modify (set_block BLK_NONE)) (fun _ => modify (fun m => set_tool [] false (tool_lost m) m)).

(** Closing a tool block writes its input when it is an object that fits, or else an
    empty object. *)
Lemma close_tool m h bs i n : base m -> started m = true -> is_head h -> Forall item bs -> overflow (w m) = false ->
  len (w m) + SSE_TAIL_RESERVE < cap (w m) -> text (w m) = h ++ commas (bs ++ [concat (tool_parts i n)]) ->
  jstring i -> jstring n -> blocks m = Z.of_nat (length bs) + 1 ->
  (exists m', bind (put (json_put (Some (lit "{}}")))) (fun _ => reset_block) m = Ok tt m' /\ between m') /\
  (forall v, json_parse (Some (tool m)) = (JSON_OK, v) -> jtype v = T_OBJECT ->
   len (w m) + (zlen (tool m) + 1) + SSE_TAIL_RESERVE < cap (w m) ->
   exists m', bind (bind (put (json_put_n (Some (tool m)))) (fun _ => put (json_put_char (ch "}")))) (fun _ => reset_block) m
     = Ok tt m' /\ between m').
Proof.
  intros Hb Hs Hh Hbs Ho Hl Ht Hi Hn Hbl. unfold SSE_TAIL_RESERVE in *. pose proof (b_wf _ Hb) as Hw. split.
  - destruct (put_str_fits (lit "{}}") (w m)) as (x & E & Hg); [literal|done|done|lit_len; lia|].
    erewrite bind_ok by (by apply put_ok). eexists. split; [reflexivity|].
    apply (completed_between m x h (bs ++ [concat (tool_parts i n) ++ lit "{}" ++ lit "}"]) (lit "{}}")); try done.
    + apply Forall_app. split; [done|]. repeat constructor. by apply item_tool_empty.
    + lit_len. lia.
    + rewrite Ht, <- app_assoc, commas_snoc_app. done.
    + by rewrite length_snoc.
  - intros v Ep Hv Hl2. pose proof (zlen_nonneg (tool m)).
    destruct (put_fits (tool m) (w m)) as (x & E & Hg); [done|done|lia|]. pose proof Hg as (G1 & G2 & G3 & G4 & G5).
    destruct (appends_fit _ _ x (json_put_char_appends (ch "}"))) as (y & Ey & Hy); [done|done|autorewrite with zlen; lia|].
    erewrite bind_ok; cycle 1.
    { erewrite bind_ok by (apply put_ok; exact E). apply put_ok. exact Ey. }
    eexists. split; [reflexivity|]. rewrite set_w_twice.
    apply (completed_between m y h (bs ++ [concat (tool_parts i n) ++ tool m ++ lit "}"]) (tool m ++ lit "}")); try done.
    + by eapply grown_trans.
    + apply Forall_app. split; [done|]. repeat constructor. apply item_tool; [done|done|].
      apply json_parse_ok_sound in Ep as (w1 & w2 & -> & ? & ? & Hj). rewrite Hv in Hj. by exists w1, (span v), w2.
    + autorewrite with zlen. lit_len. lia.
    + rewrite Ht, <- app_assoc, commas_snoc_app. done.
    + by rewrite length_snoc.
Qed.

Lemma close_block_inv m : inv m -> exists m', close_block m = Ok tt m' /\ between m'.
Proof.
  intros Hi. pose proof Hi as [Hb Hc]. unfold close_block. erewrite bind_ok by reflexivity. unfold id. fold reset_block.
  assert (Hun : frozen m = true \/ (block m <> BLK_TEXT /\ block m <> BLK_TOOL) ->
    exists m', bind (ret tt) (fun _ => reset_block) m = Ok tt m' /\ between m').
  { intros H. eexists. split; [reflexivity|]. by apply unblock. }
  destruct Hc as [? Hf Eb ? ? ?|? Hf|h bs ? Hh Hbs Ho Hl Ht [Hf|[[Eb|Eb] _]]|h bs t ? Hh Hbs Ho Hl Ht Hj Hf Eb ?
                 |h bs i n ? Hh Hbs Ho Hl Ht Hi1 Hn Hf Eb ?]; 
    try solve [destruct (block m); rewrite ?Hf; try (destruct (json_parse _) as [rc v]); apply Hun; by left];
    try (rewrite Eb; apply Hun; right; by rewrite Eb).
  - rewrite Eb, Hf. pose proof (b_wf _ Hb). unfold SSE_TAIL_RESERVE in *.
    destruct (put_str_fits (qlit "'}") (w m)) as (x & E & Hg); [literal|done|done|lit_len; lia|].
    erewrite bind_ok by (by apply put_ok). eexists. split; [reflexivity|].
    apply (completed_between m x h (bs ++ [TXT ++ t ++ qlit "'}"]) (qlit "'}")); try done.
    + apply Forall_app. split; [done|]. repeat constructor. by apply item_text.
    + lit_len. lia.
    + rewrite Ht, <- app_assoc, commas_snoc_app. by rewrite <- app_assoc.
    + by rewrite length_snoc.
  - rewrite Eb, Hf. destruct (close_tool m h bs i n) as [Hempty Hfull]; try done.
    destruct (json_parse (Some (tool m))) as [rc v] eqn:Ep. set (ok := _ && _).
    assert (Hno : exists m', bind (bind (ret false) (fun ok : bool => if ok then
        bind (put (json_put_n (Some (tool m)))) (fun _ => put (json_put_char 125))
      else bind (gets frozen) (fun fr : bool => if fr then ret tt else put (json_put (Some (lit "{}}")))))) (fun _ => reset_block) m
      = Ok tt m' /\ between m').
    { destruct Hempty as (m1 & E1 & H1). exists m1. split; [|done]. rewrite <- E1. unfold bind, ret, gets. by rewrite Hf. }
    destruct ok eqn:Eok; [|exact Hno]. apply andb_prop in Eok as [Eok Ety]. apply andb_prop in Eok as [_ Erc].
    apply Z.eqb_eq in Erc as ->. apply bool_decide_eq_true in Ety. pose proof (zlen_nonneg (tool m)).
    assert (Hn62 : 0 <= zlen (tool m) + 1 < 2 ^ 62) by (pose proof (b_tool _ Hb); unfold SSE_TOOL_INPUT_MAX in *; lia).
    destruct (mneed_inv (zlen (tool m) + 1) m Hi Hn62) as [(E & _ & _ & Hl2)|(m' & E & Hi' & Hf' & Eb' & _)].
    + destruct (Hfull v eq_refl Ety Hl2) as (m' & E' & H'). exists m'. split; [|done]. rewrite <- E'.
      unfold bind at 1 2. rewrite E. done.
    + eexists. split; [|apply (unblock m'); [done|by left]]. unfold bind at 1 2. rewrite E. unfold bind, gets. by rewrite Hf'.
Qed.

Lemma span_or_string k obj key fb : (forall o, obj = Some o -> sound_value k o) -> jstring fb -> zlen fb <= k ->
  jstring (span_or obj key fb) /\ zlen (span_or obj key fb) <= k.
Proof.
  intros Ho Hfb Hk. unfold span_or. destruct obj as [o|]; [|done]. destruct (json_get o (Some key)) as [rc v] eqn:E.
  destruct (_ && _) eqn:Eb; [|done]. b2p. subst. destruct (json_get_sound k o key v (Ho o eq_refl) E) as [[_ Hl] Hj].
  split; [|done]. eapply jval_string; [done|]. by apply bool_decide_eq_true in H1.
Qed.

(** Starting the document. *)
Lemma begin_message_inv k m msg : inv m -> 128 <= k < 2 ^ 32 -> (forall o, msg = Some o -> sound_value k o) ->
  exists m', begin_message msg m = Ok tt m' /\ inv m' /\ (started m' = true \/ frozen m' = true) /\ block m' = block m /\
    blocks m' = blocks m.
Proof.
  intros Hi Hk Hm. pose proof Hi as [Hb Hc]. unfold begin_message. erewrite bind_ok by reflexivity. unfold id.
  destruct (started m) eqn:Es; [exists m; split; [done|]; split; [done|]; split; [by left|done]|].
  destruct (span_or_string k msg (lit "id") (qlit "''") Hm) as [J1 L1]; [lit_string|lit_len; lia|].
  destruct (span_or_string k msg (lit "role") (qlit "'assistant'") Hm) as [J2 L2]; [lit_string|lit_len; lia|].
  destruct (span_or_string k msg (lit "model") (qlit "''") Hm) as [J3 L3]; [lit_string|lit_len; lia|].
  set (i := span_or msg (lit "id") _) in *. set (r := span_or msg (lit "role") _) in *.
  set (mo := span_or msg (lit "model") _) in *.
  pose proof (zlen_nonneg i). pose proof (zlen_nonneg r). pose proof (zlen_nonneg mo).
  assert (Hn : 0 <= 52 + zlen i + zlen r + zlen mo < 2 ^ 62) by lia.
  destruct (mneed_inv _ m Hi Hn) as [(E & Hf & Ho & Hl)|(m' & E & Hi' & Hf' & Eb' & Es' & En & _)]; cycle 1.
  { erewrite bind_ok by exact E. cbn [negb]. exists m'. split; [done|]. split; [done|]. by split; [right|]. }
  assert (Hlen : zlen (concat (head_parts i r mo)) = 52 + zlen i + zlen r + zlen mo).
  { cbn [head_parts concat]. autorewrite with zlen. lit_len. lia. }
  erewrite bind_ok by exact E. cbn [negb]. fold (head_parts i r mo).
  destruct (mputs_fit (head_parts i r mo) m) as (x & Ex & Hg); [by apply b_wf|done|done|lia|].
  erewrite bind_ok by exact Ex. eexists. split; [reflexivity|].
  pose proof Hg as (G1 & G2 & G3 & G4 & G5). pose proof (base_set_w _ _ _ Hb Hg) as [].
  destruct Hc as [? ? Eb Hbl Hl0 ?|? ?|? ? ?|? ? ? ?|? ? ? ? ?]; try congruence.
  split; [|by cbn; auto]. split; [by split|].
  apply (c_shut _ (concat (head_parts i r mo)) []); cbn [started set_started w set_w commas]; try done.
  - by exists i, r, mo.
  - cbn. unfold SSE_TAIL_RESERVE in *. lia.
  - rewrite app_nil_r, G4. unfold text. rewrite Hl0. done.
  - right. split; [by left|done].
Qed.

(** Output has stopped: only the counters and flags move. *)
Lemma frozen_inv m m' : inv m -> frozen m = true -> w m' = w m -> started m' = started m -> frozen m' = frozen m ->
  stop m' = stop m -> closed m' = closed m -> err m' = err m -> 0 <= blocks m' < 2 ^ 32 -> zlen (tool m') <= SSE_TOOL_INPUT_MAX ->
  zlen (scratch m') = SSE_DATA_MAX + 1 -> inv m'.
Proof.
  intros [[] Hc] Hf E1 E2 E3 E4 E5 E6 Hbl Ht Hsc. split; [split; congruence|].
  destruct Hc as [| |h bs|h bs t|h bs i n]; try congruence; [apply c_lost; congruence|].
  apply (c_shut m' h bs); try congruence. left. congruence.
Qed.

(** The separator and the opening fragments of a block. *)
Lemma open_parts m parts cost : inv m -> block m = BLK_NONE -> started m = true \/ frozen m = true ->
  zlen (concat parts) = cost -> 1 <= cost < 2 ^ 40 ->
  exists m1, bind (mneed ((if blocks m =? 0 then 0 else 1) + cost)) (fun ok : bool =>
      if ok then mputs ((if blocks m =? 0 then [] else [lit ","]) ++ parts) else ret tt) m = Ok tt m1 /\
    blocks m1 = blocks m /\ block m1 = BLK_NONE /\
    ((inv m1 /\ frozen m1 = true) \/
     (exists x h bs s, m1 = set_w x m /\ grown (w m) x s /\ started m = true /\ frozen m = false /\ is_head h /\ Forall item bs /\
        len x + SSE_TAIL_RESERVE < cap x /\ text x = h ++ commas (bs ++ [concat parts]) /\
        blocks m = Z.of_nat (length bs) /\ Z.of_nat (length bs) + 1 < 2 ^ 32)).
Proof.
  intros Hi Eb Hsf Hcost Hc1. pose proof Hi as [Hb Hc].
  assert (Hn : 0 <= (if blocks m =? 0 then 0 else 1) + cost < 2 ^ 62) by (destruct (blocks m =? 0); lia).
  destruct (mneed_inv _ m Hi Hn) as [(E & Hf & Ho & Hl)|(m' & E & Hi' & Hf' & Eb' & _ & En & _)]; cycle 1.
  { erewrite bind_ok by exact E. exists m'. split; [done|]. split; [done|]. split; [congruence|by left]. }
  erewrite bind_ok by exact E. destruct Hc as [| |h bs Hs Hh Hbs _ _ Ht [?|[_ Hbl]]| |]; try congruence; [destruct Hsf; congruence|].
  set (ss := (if blocks m =? 0 then [] else [lit ","]) ++ parts) in *.
  assert (Hz : zlen (concat ss) = (if blocks m =? 0 then 0 else 1) + cost).
  { unfold ss. rewrite concat_app. autorewrite with zlen. rewrite Hcost. by destruct (blocks m =? 0). }
  destruct (mputs_fit ss m) as (x & Ex & Hg); [by apply b_wf|done|done|lia|].
  exists (set_w x m). split; [exact Ex|]. split; [done|]. split; [done|]. right.
  exists x, h, bs, (concat ss). pose proof Hg as (G1 & G2 & G3 & G4 & G5).
  assert (Htx : text x = h ++ commas (bs ++ [concat parts])).
  { rewrite G4, Ht, <- app_assoc, commas_snoc. do 2 f_equal. unfold ss. rewrite concat_app. f_equal.
    destruct bs as [|b bs]; [by rewrite Hbl|]. rewrite decide_False by done.
    rewrite (proj2 (Z.eqb_neq (blocks m) 0)) by (rewrite Hbl; cbn; lia). done. }
  assert (Hlen : Z.of_nat (length (bs ++ [concat parts])) <= len x).
  { etrans; [apply commas_length|]. { apply Forall_app. split; [eapply Forall_impl; [|exact Hbs]; apply item_nonempty|].
      repeat constructor. lia. } rewrite <- (zlen_text x G1), Htx. autorewrite with zlen. pose proof (zlen_nonneg h). lia. }
  rewrite length_snoc in Hlen. pose proof (b_cap _ Hb). destruct (wf_range x G1 G3).
  do 6 (split; [done|]). split; [lia|]. split; [done|]. split; [done|lia].
Qed.

Lemma blocks_succ m : 0 <= wrap32 (blocks m + 1) < 2 ^ 32.
Proof. by apply wrap_range. Qed.

(** Opening a block of kind [b] whose opening fragments are [parts]. *)
Lemma open_block m m1 b t x h bs s parts : base m -> m1 = set_w x m -> grown (w m) x s -> started m = true -> frozen m = false ->
  is_head h -> Forall item bs -> len x + SSE_TAIL_RESERVE < cap x -> text x = h ++ commas (bs ++ [concat parts]) ->
  blocks m = Z.of_nat (length bs) -> Z.of_nat (length bs) + 1 < 2 ^ 32 ->
  zlen (tool t) <= SSE_TOOL_INPUT_MAX -> same (set_block b m1) t ->
  match b with
  | BLK_NONE => False
  | BLK_TEXT => concat parts = TXT
  | BLK_TOOL => exists i n, parts = tool_parts i n /\ jstring i /\ jstring n
  | BLK_OTHER => item (concat parts)
  end -> inv (tally 1 0 0 0 0 t).
Proof.
  intros Hb -> Hg Hs Hf Hh Hbs Hl Ht Hbl Hb32 Htool (S1 & S2 & S3 & S4 & S5 & S6 & S7 & S8 & S9 & S10) Hk.
  pose proof Hg as (G1 & G2 & G3 & _). pose proof (base_set_w _ _ _ Hb Hg) as [B1 B1' B2 B3 B4 B5 B6 B7' B7].
  cbn [w set_w set_block started block frozen blocks stop closed err] in *.
  assert (Hw32 : wrap32 (blocks t + 1) = Z.of_nat (length bs) + 1) by (rewrite S5, Hbl; apply wrap_small; lia).
  split.
  { split; cbn [w tally blocks stop tool scratch closed]; rewrite ?S1, ?S6; try done; [apply blocks_succ|congruence]. }
  destruct b; [done|apply (c_text _ h bs [])| |apply (c_shut _ h (bs ++ [concat parts]))];
    cbn [w tally started block frozen blocks] in *; rewrite ?S1, ?S2, ?S3, ?S4, ?Hw32; try done.
  - by rewrite app_nil_r, <- Hk.
  - constructor.
  - destruct Hk as (i & n & -> & Hi & Hn). apply (c_tool _ h bs i n); cbn [w tally started block frozen blocks];
      rewrite ?S1, ?S2, ?S3, ?S4, ?Hw32; done.
  - apply Forall_app. split; [done|]. by repeat constructor.
  - unfold SSE_TAIL_RESERVE in *. lia.
  - right. split; [by right|]. by rewrite length_snoc.
Qed.

(** Every operation returns and leaves the document completable. *)
Definition keeps (f : prog sse_msg unit) : Prop := forall m, inv m -> exists m', f m = Ok tt m' /\ inv m'.

Lemma keeps_tally de ba un st : keeps (modify (tally 0 de ba un st)).
Proof. intros m Hi. eexists. split; [reflexivity|]. eapply inv_same; [done|]. by apply tally_same, Hi. Qed.

Lemma keeps_ret : keeps (ret tt).
Proof. intros m Hi. by exists m. Qed.

Lemma keeps_close : keeps close_block.
Proof. intros m Hi. destruct (close_block_inv m Hi) as (m' & E & [H _]). by exists m'. Qed.

(** The tail of start_block, once the kind of the block and its fragments are known. *)
Lemma start_tail b (reset : sse_msg -> sse_msg) parts m : inv m -> block m = BLK_NONE -> started m = true \/ frozen m = true ->
  1 <= zlen (concat parts) < 2 ^ 40 ->
  (reset = id \/ reset = fun m => set_tool [] false (tool_lost m) m) ->
  match b with
  | BLK_NONE => False
  | BLK_TEXT => concat parts = TXT
  | BLK_TOOL => exists i n, parts = tool_parts i n /\ jstring i /\ jstring n
  | BLK_OTHER => item (concat parts)
  end ->
  exists m1, bind (mneed ((if blocks m =? 0 then 0 else 1) + zlen (concat parts))) (fun ok : bool =>
      if ok then mputs ((if blocks m =? 0 then [] else [lit ","]) ++ parts) else ret tt) m = Ok tt m1 /\
    inv (tally 1 0 0 0 0 (reset (set_block b m1))).
Proof.
  intros Hi Eb Hsf Hc Hr Hk. pose proof Hi as [Hb _].
  destruct (open_parts m parts _ Hi Eb Hsf eq_refl Hc) as (m1 & E & En & Eb1 & Hcase). exists m1. split; [done|].
  destruct Hcase as [[Hi1 Hf1]|(x & h & bs & s & Em & Hg & Hs & Hf & Hh & Hbs & Hl & Ht & Hbl & H32)].
  - pose proof Hi1 as [[] _]. apply (frozen_inv m1); [done|done| | | | | | |apply blocks_succ| |];
      destruct Hr as [->| ->]; try done.
  - assert (Htool : zlen (tool (reset (set_block b m1))) <= SSE_TOOL_INPUT_MAX).
    { subst m1. destruct Hb. destruct Hr as [->| ->]; [done|]. cbn. unfold zlen, SSE_TOOL_INPUT_MAX. cbn. lia. }
    eapply open_block; try done. subst m1. destruct Hb. unfold same.
    destruct Hr as [->| ->]; do 6 (split; [done|]); (split; [exact Htool|]); done.
Qed.

Lemma start_block_keeps k ev : 128 <= k < 2 ^ 32 -> sound_value k ev -> keeps (start_block ev).
Proof.
  intros Hk Hev m Hi. unfold start_block. erewrite bind_ok by reflexivity. unfold id.
  assert (Hclose : exists m1, (if bool_decide (block m = BLK_NONE) then ret tt else close_block) m = Ok tt m1 /\ between m1).
  { case_bool_decide; [by exists m|]. by apply close_block_inv. }
  destruct Hclose as (m1 & E1 & Hi1 & Eb1). erewrite bind_ok by exact E1.
  destruct (begin_message_inv k m1 None Hi1 Hk ltac:(done)) as (m2 & E2 & Hi2 & Hsf & Eb2 & _). erewrite bind_ok by exact E2.
  destruct (json_get ev (Some (lit "content_block"))) as [rc cb] eqn:Ecb.
  destruct (negb _ || negb _) eqn:Ebad; [by apply keeps_tally|]. b2p. apply bool_decide_eq_true in H0. subst rc.
  destruct (json_get_sound k ev _ cb Hev Ecb) as [Hcb Hj]. rewrite H0 in Hj.
  erewrite bind_ok by reflexivity. rewrite Eb1 in Eb2. set (n := blocks m2).
  destruct (span_or_string k (Some cb) (lit "id") (qlit "''")) as [J1 L1]; [by intros ? [= <-]|lit_string|lit_len; lia|].
  destruct (span_or_string k (Some cb) (lit "name") (qlit "''")) as [J2 L2]; [by intros ? [= <-]|lit_string|lit_len; lia|].
  set (i := span_or (Some cb) (lit "id") _) in *. set (nm := span_or (Some cb) (lit "name") _) in *.
  pose proof (zlen_nonneg i). pose proof (zlen_nonneg nm).
  assert (Htool : zlen (concat (tool_parts i nm)) = 41 + zlen i + zlen nm).
  { cbn [tool_parts concat]. autorewrite with zlen. lit_len. lia. }
  assert (Hcat : zlen (concat [TXT]) = 23 /\ concat [TXT] = TXT) by done. destruct Hcat as [HT1 HT2].
  destruct (is_type cb (lit "text")); [|destruct (is_type cb (lit "tool_use"))].
  - destruct (start_tail BLK_TEXT id [TXT] m2) as (m3 & E3 & H3); try done; [by left|].
    rewrite HT1 in E3. fold n in E3. fold TXT. eexists. split; [|exact H3]. unfold bind in E3 |- *.
    destruct (mneed _ m2) as [[] ?| | |]; try done; [|by injection E3 as ->]. by rewrite E3.
  - destruct (start_tail BLK_TOOL (fun m => set_tool [] false (tool_lost m) m) (tool_parts i nm) m2) as (m3 & E3 & H3);
      try done; [lia|by right|by exists i, nm|].
    rewrite Htool, !Z.add_assoc in E3. fold n in E3. fold (tool_parts i nm). eexists. split; [|exact H3]. unfold bind in E3 |- *.
    destruct (mneed _ m2) as [[] ?| | |]; try done; [|by injection E3 as ->]. by rewrite E3.
  - assert (Hone : concat [span cb] = span cb) by (cbn; by rewrite app_nil_r).
    destruct (start_tail BLK_OTHER id [span cb] m2) as (m3 & E3 & H3); rewrite ?Hone in *; try done.
    + destruct Hcb as [_ Hcl]. pose proof (item_nonempty (span cb) (jval_mono 31 33 _ _ Hj ltac:(lia))). lia.
    + by left.
    + apply (jval_mono 31); [done|lia].
    + fold n in E3. eexists. split; [|exact H3]. unfold bind in E3 |- *.
      destruct (mneed _ m2) as [[] ?| | |]; try done; [|by injection E3 as ->]. by rewrite E3.
Qed.

(** ** Deltas and the other events *)

Lemma in_scratch_str n v m : inv m -> jval n (jtype v) (span v) ->
  exists rc dn m', in_scratch (json_str v 0 (SSE_DATA_MAX + 1)) m = Ok (rc, dn) m' /\ inv m' /\ 0 <= dn <= SSE_DATA_MAX /\
    tool m' = tool m /\ dn <= zlen (scratch m').
Proof.
  intros Hi Hv. pose proof Hi as [[] _]. unfold SSE_DATA_MAX in *.
  destruct (json_str_runs n v (4096 + 1) (scratch m) Hv) as (rc & out & b & E & Hz & Hl & _); [lia|].
  pose proof (zlen_nonneg out). exists rc, (zlen out), (set_scratch b m). unfold in_scratch. rewrite E.
  split; [done|]. split; [|split; [lia|]; split; [done|]; cbn; lia].
  eapply inv_same; [done|]. unfold same. repeat split; try done. cbn. unfold SSE_DATA_MAX. lia.
Qed.

(** The text appended to an open text block. *)
Lemma mput_text m s : inv m -> block m = BLK_TEXT -> jchars s -> zlen s < 2 ^ 32 ->
  exists m', mput_n s m = Ok tt m' /\ inv m'.
Proof.
  intros Hi Eb Hj Hs. pose proof (zlen_nonneg s). unfold mput_n. assert (Hn : 0 <= zlen s < 2 ^ 62) by lia.
  destruct (mneed_inv _ m Hi Hn) as [(E & Hf & Ho & Hl)|(m' & E & Hi' & _)]; erewrite bind_ok by exact E; [|by exists m'].
  destruct Hi as [Hb Hc]. unfold SSE_TAIL_RESERVE in *. destruct (put_fits s (w m)) as (x & Ex & Hg); [apply Hb|done|lia|].
  rewrite (put_ok _ x m Ex). eexists. split; [reflexivity|]. split; [by eapply base_set_w|].
  pose proof Hg as (G1 & G2 & G3 & G4 & G5).
  destruct Hc as [| |h bs ? ? ? ? ? ? [?|[[?|?] _]]|h bs t|h bs i n]; try congruence.
  apply (c_text _ h bs (t ++ s)); cbn [w set_w started frozen block blocks]; try done.
  - unfold SSE_TAIL_RESERVE. lia.
  - rewrite G4. match goal with H : text (w m) = _ |- _ => rewrite H end. rewrite <- app_assoc, commas_snoc_app.
    by rewrite <- app_assoc.
  - by apply jchars_app.
Qed.

Lemma echo_same m t : inv m -> same m (echo t m).
Proof. intros [[] _]. by repeat split. Qed.

Lemma text_delta_inv k d m : 0 <= k < 2 ^ 32 -> sound_value k d -> inv m -> block m = BLK_TEXT ->
  exists m', text_delta d m = Ok tt m' /\ inv m'.
Proof.
  intros Hk Hd Hi Eb. unfold text_delta. destruct (json_get d (Some (lit "text"))) as [rc v] eqn:E.
  destruct (Z.eqb_spec rc JSON_OK) as [->|]; [|by apply keeps_tally].
  destruct (json_get_sound k d _ v Hd E) as [[_ Hl] Hj]. unfold str_inner. destruct (_ && _) eqn:Es; [|by apply keeps_tally].
  b2p. match goal with H : bool_decide _ = true |- _ => apply bool_decide_eq_true in H as Ht end.
  pose proof (jval_string _ _ Hj Ht) as Hs.
  assert (Hbody : jchars (body v) /\ zlen (body v) + 2 = zlen (span v)).
  { destruct v as [t s]. cbn in Ht, Hs |- *. subst t. by apply jchars_body. }
  destruct Hbody as [Hb Hbl]. erewrite bind_ok by reflexivity.
  assert (Hi0 : inv (tally 0 1 0 0 0 m)) by (eapply inv_same; [exact Hi|]; by apply tally_same, Hi).
  destruct (mput_text _ (body v) Hi0 Eb Hb) as (m1 & E1 & Hi1); [lia|]. erewrite bind_ok by exact E1.
  destruct (in_scratch_str 31 v m1 Hi1 Hj) as (rc & dn & m2 & E2 & Hi2 & _). erewrite bind_ok by exact E2.
  cbn beta iota. destruct (_ && negb _); [|by apply keeps_ret]. eexists. split; [reflexivity|].
  eapply inv_same; [exact Hi2|]. by apply echo_same.
Qed.

Lemma set_tool_same m t a b : inv m -> zlen t <= SSE_TOOL_INPUT_MAX -> same m (set_tool t a b m).
Proof. intros [[] _] H. repeat split; done. Qed.

Lemma json_delta_keeps k d : 0 <= k < 2 ^ 32 -> sound_value k d -> keeps (json_delta d).
Proof.
  intros Hk Hd m Hi. unfold json_delta. destruct (json_get d (Some (lit "partial_json"))) as [rc v] eqn:E.
  destruct (Z.eqb_spec rc JSON_OK) as [->|]; cbn [negb]; [|by apply keeps_tally].
  destruct (json_get_sound k d _ v Hd E) as [_ Hj].
  destruct (in_scratch_str 31 v m Hi Hj) as (rc & dn & m1 & E1 & Hi1 & Hdn & Et & Hsc). erewrite bind_ok by exact E1.
  cbn beta iota. destruct (_ && _); [by apply keeps_tally|].
  assert (Hmid : exists m2, (if rc =? JSON_ENOSPC then modify (fun m => set_tool (tool m) true true m) else ret tt) m1 = Ok tt m2 /\
    inv m2 /\ scratch m2 = scratch m1).
  { destruct (rc =? JSON_ENOSPC); [|by exists m1]. eexists. split; [reflexivity|]. split; [|done].
    eapply inv_same; [exact Hi1|]. apply set_tool_same; [done|]. apply Hi1. }
  destruct Hmid as (m2 & E2 & Hi2 & Es2). erewrite bind_ok by exact E2. erewrite bind_ok by reflexivity.
  set (m3 := tally 0 1 0 0 0 m2). assert (Hi3 : inv m3) by (eapply inv_same; [exact Hi2|]; by apply tally_same, Hi2).
  erewrite bind_ok by reflexivity. unfold id. pose proof (b_tool _ (proj1 Hi3)) as Ht3.
  assert (Htk : forall z, 0 <= z -> zlen (take (Z.to_nat z) (scratch m3)) <= z).
  { intros z Hz. unfold zlen. rewrite length_take. lia. }
  destruct (Z.ltb_spec SSE_TOOL_INPUT_MAX (zlen (tool m3) + dn)); (eexists; split; [reflexivity|]);
    (eapply inv_same; [exact Hi3|]); apply set_tool_same; try done; autorewrite with zlen.
  - destruct (Z.ltb_spec (zlen (tool m3)) SSE_TOOL_INPUT_MAX).
    + pose proof (Htk (SSE_TOOL_INPUT_MAX - zlen (tool m3)) ltac:(lia)). lia.
    + pose proof (Htk 0 ltac:(lia)). lia.
  - pose proof (Htk dn ltac:(lia)). lia.
Qed.

Lemma apply_delta_keeps k ev : 0 <= k < 2 ^ 32 -> sound_value k ev -> keeps (apply_delta ev).
Proof.
  intros Hk Hev m Hi. unfold apply_delta. destruct (json_get ev (Some (lit "delta"))) as [rc d] eqn:E.
  destruct (_ || _) eqn:Eb; [by apply keeps_tally|]. b2p. subst rc. destruct (json_get_sound k ev _ d Hev E) as [Hd _].
  erewrite bind_ok by reflexivity. destruct (bool_decide (block m = BLK_NONE)); [by apply keeps_tally|].
  destruct (json_get d (Some (lit "type"))) as [rc dt]. destruct (negb _); [by apply keeps_tally|].
  destruct (json_str_eq dt (lit "text_delta") && _) eqn:E1.
  { b2p. match goal with H : bool_decide _ = true |- _ => apply bool_decide_eq_true in H end. by eapply text_delta_inv. }
  clear E1. destruct (_ && _); [|by apply keeps_tally]. by eapply json_delta_keeps.
Qed.

Lemma message_delta_keeps k root : 0 <= k < 2 ^ 32 -> sound_value k root -> keeps (message_delta root).
Proof.
  intros Hk Hr m Hi. unfold message_delta. destruct (json_get root (Some (lit "delta"))) as [rc1 d] eqn:E1.
  destruct (json_get d (Some (lit "stop_reason"))) as [rc2 sr] eqn:E2. destruct (_ && _) eqn:Ec; [|by apply keeps_ret].
  b2p. subst. destruct (json_get_sound k root _ d Hr E1) as [Hd _]. destruct (json_get_sound k d _ sr Hd E2) as [_ Hj].
  unfold str_inner. destruct (_ && _) eqn:Es; [|by apply keeps_ret]. b2p.
  match goal with H : bool_decide _ = true |- _ => apply bool_decide_eq_true in H as Ht end.
  pose proof (jval_string _ _ Hj Ht) as Hs.
  assert (Hb : jchars (body sr)) by (destruct sr as [t s]; cbn in Ht, Hs |- *; subst t; by apply jchars_body).
  assert (Hset : forall s, jchars s -> zlen s < SSE_STOP_MAX -> inv (set_stop s m)).
  { intros s Hs1 Hs2. destruct Hi as [[] Hc]. split; [by split|].
    destruct Hc as [| |h bs|h bs t|h bs i n]; [by apply c_new|by apply c_lost|by apply (c_shut _ h bs)|
      by apply (c_text _ h bs t)|by apply (c_tool _ h bs i n)]. }
  destruct (Z.ltb_spec (zlen (body sr)) SSE_STOP_MAX); [eexists; split; [reflexivity|]; by apply Hset|].
  erewrite bind_ok by reflexivity. apply keeps_tally. apply Hset; [constructor|]. unfold zlen, SSE_STOP_MAX. cbn. lia.
Qed.

Lemma local_str_runs n v c m : jval n (jtype v) (span v) -> 1 <= c -> exists r, local_str v c m = Ok r m.
Proof.
  intros Hv Hc. unfold local_str.
  destruct (json_str_runs n v c (replicate (Z.to_nat c) 0) Hv) as (rc & out & b & -> & _); [|by eexists].
  unfold zlen. rewrite length_replicate. lia.
Qed.

Lemma error_event_keeps k root : sound_value k root -> keeps (error_event root).
Proof.
  intros Hr m Hi. unfold error_event. destruct (json_get root (Some (lit "error"))) as [rc1 e] eqn:E1.
  destruct (json_get e (Some (lit "message"))) as [rc2 msg] eqn:E2.
  assert (Hmid : exists r, (if (rc1 =? JSON_OK) && (rc2 =? JSON_OK) then local_str msg SSE_ERR_MAX else ret (0, [])) m = Ok r m).
  { destruct (_ && _) eqn:Ec; [|by eexists]. b2p. subst. destruct (json_get_sound k root _ e Hr E1) as [He _].
    destruct (json_get_sound k e _ msg He E2) as [_ Hj]. eapply local_str_runs; [exact Hj|]. unfold SSE_ERR_MAX. lia. }
  destruct Hmid as [r E]. erewrite bind_ok by exact E. unfold set_err. erewrite bind_ok by reflexivity.
  destruct (negb _); [by apply keeps_ret|]. eexists. split; [reflexivity|]. eapply inv_same; [exact Hi|].
  destruct Hi as [[] _]. do 9 (split; [done|]). by right.
Qed.

Lemma event_kind_runs k root ev m : sound_value k root -> exists kind, event_kind root ev m = Ok kind m.
Proof.
  intros Hr. unfold event_kind. destruct (json_get root (Some (lit "type"))) as [rc ty] eqn:E.
  assert (Hmid : exists r, (if rc =? JSON_OK then local_str ty 40 else ret (rc, [])) m = Ok r m).
  { destruct (Z.eqb_spec rc JSON_OK) as [->|]; [|by eexists]. destruct (json_get_sound k root _ ty Hr E) as [_ Hj].
    by eapply local_str_runs. }
  destruct Hmid as [r Er]. erewrite bind_ok by exact Er. destruct (_ || _); by eexists.
Qed.

Lemma set_done_same m : inv m -> same m (set_done m).
Proof. intros [[] _]. by repeat split. Qed.

Lemma sse_msg_event_keeps ev : zlen (ev_data ev) < 2 ^ 32 -> keeps (sse_msg_event ev).
Proof.
  intros Hd m Hi. unfold sse_msg_event. erewrite bind_ok by reflexivity. unfold id. destruct (closed m); [by apply keeps_ret|].
  case_bool_decide. { eexists. split; [reflexivity|]. eapply inv_same; [exact Hi|]. by apply set_done_same. }
  destruct (json_parse (Some (ev_data ev))) as [rc root] eqn:Ep.
  destruct (negb _ || negb _) eqn:Eb; [by apply keeps_tally|]. b2p. subst rc.
  pose proof (json_parse_sound _ _ Ep) as [Hv Hl]. pose proof (zlen_nonneg (ev_data ev)).
  set (k := Z.max 128 (zlen (ev_data ev))). assert (Hr : sound_value k root) by (split; [done|lia]).
  assert (Hk : 128 <= k < 2 ^ 32) by lia. assert (Hk0 : 0 <= k < 2 ^ 32) by lia. clearbody k.
  destruct (event_kind_runs k root ev m Hr) as [kind Ek]. erewrite bind_ok by exact Ek.
  destruct (bool_decide (kind = lit "content_block_delta")); [by eapply apply_delta_keeps|].
  destruct (bool_decide (kind = lit "content_block_start")); [by eapply start_block_keeps|].
  destruct (bool_decide (kind = lit "content_block_stop")).
  { erewrite bind_ok by reflexivity. destruct (bool_decide (block m = BLK_NONE)).
    - destruct (keeps_tally 0 0 0 1 m Hi) as (m' & E & Hi'). erewrite bind_ok by exact E. by apply keeps_close.
    - erewrite bind_ok by reflexivity. by apply keeps_close. }
  destruct (bool_decide (kind = lit "message_start")).
  { destruct (json_get root (Some (lit "message"))) as [rc msg] eqn:Em.
    destruct (begin_message_inv k m (if (rc =? JSON_OK) && bool_decide (jtype msg = T_OBJECT) then Some msg else None) Hi Hk)
      as (m' & E & Hi' & _); [|by exists m'].
    intros o Ho. destruct (_ && _) eqn:Ec; [|done]. injection Ho as <-. b2p. subst. by destruct (json_get_sound k root _ msg Hr Em). }
  destruct (bool_decide (kind = lit "message_delta")); [by eapply message_delta_keeps|].
  destruct (bool_decide (kind = lit "message_stop")).
  { eexists. split; [reflexivity|]. eapply inv_same; [exact Hi|]. by apply set_done_same. }
  destruct (bool_decide (kind = lit "ping")); [by apply keeps_ret|].
  destruct (bool_decide (kind = lit "error")); [by eapply error_event_keeps|by apply keeps_tally].
Qed.

(** ** Finishing *)

(** Appending while there is room. *)
Lemma puts_str s m : no_nul s -> wf (w m) -> overflow (w m) = false -> len (w m) + zlen s < cap (w m) ->
  exists x, put (json_put (Some s)) m = Ok tt (set_w x m) /\ grown (w m) x s.
Proof. intros Hn Hw Ho Hl. destruct (put_str_fits s (w m) Hn Hw Ho Hl) as (x & E & Hg). exists x. by rewrite (put_ok _ x m E). Qed.

Lemma puts_char c m : wf (w m) -> overflow (w m) = false -> len (w m) + 1 < cap (w m) ->
  exists x, put (json_put_char c) m = Ok tt (set_w x m) /\ grown (w m) x [c].
Proof.
  intros Hw Ho Hl. destruct (appends_fit _ _ (w m) (json_put_char_appends c)) as (x & E & Hg); [done|done|by autorewrite with zlen|].
  exists x. by rewrite (put_ok _ x m E).
Qed.

Lemma jchars_no_nul s : jchars s -> no_nul s.
Proof.
  assert (Hh : forall h, 0 <= hexval h -> h <> 0) by (intros h Hh ->; by cbn in Hh).
  induction 1 as [|c s Hc|e s He|]; repeat constructor; auto; try lia.
  intros ->. done.
Qed.

(** What the stop reason adds: null, or the string. *)
Definition stop_text (s : bytes) : bytes := if bool_decide (s = []) then lit "null" else QUOTE :: s ++ [QUOTE].

Lemma stop_put m : wf (w m) -> overflow (w m) = false -> jchars (stop m) -> zlen (stop m) < SSE_STOP_MAX ->
  len (w m) + 40 < cap (w m) ->
  exists x, (if first_nul (stop m) then put (json_put (Some (lit "null")))
             else bind (put (json_put_char QUOTE)) (fun _ => bind (put (json_put (Some (stop m))))
                    (fun _ => put (json_put_char QUOTE)))) m = Ok tt (set_w x m) /\ grown (w m) x (stop_text (stop m)).
Proof.
  intros Hw Ho Hj Hl Hc. unfold SSE_STOP_MAX, stop_text in *. pose proof (jchars_no_nul _ Hj) as Hn.
  destruct (stop m) as [|c s] eqn:Es; cbn [first_nul].
  - rewrite bool_decide_eq_true_2 by done. apply puts_str; [literal|done|done|lit_len; lia].
  - assert (Hc0 : c <> 0) by (by apply Forall_cons_iff in Hn as [? _]). rewrite (proj2 (Z.eqb_neq c 0)) by done.
    rewrite bool_decide_eq_false_2 by done. rewrite <- Es in *. clear Es.
    destruct (puts_char QUOTE m) as (x1 & E1 & G1); [done|done|lia|]. pose proof G1 as (A1 & A2 & A3 & _ & A5).
    autorewrite with zlen in A5. pose proof (zlen_nonneg (stop m)).
    destruct (puts_str (stop m) (set_w x1 m)) as (x2 & E2 & G2); cbn [w set_w]; [done|done|done|lia|].
    pose proof G2 as (B1 & B2 & B3 & _ & B5). cbn [w set_w] in *.
    destruct (puts_char QUOTE (set_w x2 m)) as (x3 & E3 & G3); cbn [w set_w]; [done|done|lia|].
    exists x3. erewrite bind_ok by exact E1. erewrite bind_ok by exact E2. rewrite set_w_twice, E3. split; [done|].
    change (QUOTE :: stop m ++ [QUOTE]) with ([QUOTE] ++ stop m ++ [QUOTE]). by eapply grown_trans, grown_trans.
Qed.

End Doc.
