(* ===== verification/SseFrame.v ===== *)
(** net/sse.c, framing: the parser stays in its buffers, whatever the bytes, and how
    they are split into chunks makes no difference. *)

From S2P Require Import Prelude Bytes Json JsonWriter Sse.

(** Each array holds what it is declared to hold. *)
Record pinv (p : sse_parser) : Prop := {
  p_line : zlen (line p) <= SSE_LINE_MAX;
  p_name : zlen (name p) < SSE_NAME_MAX;
  p_ident : zlen (ident p) < SSE_ID_MAX;
  p_data : zlen (data p) < SSE_DATA_MAX;
  p_bom : 0 <= bom p <= 3 }.

Lemma pinv_init : pinv sse_parser_init.
Proof. by split. Qed.

Lemma clamped_length c s : 1 <= c -> zlen (copy_clamped c s) < c.
Proof. unfold copy_clamped, zlen. intros. rewrite length_take. lia. Qed.

Lemma drop_lf_length s : zlen (drop_lf s) <= zlen s.
Proof.
  unfold drop_lf. destruct (_ =? _); [|lia]. unfold zlen. rewrite removelast_firstn_len, length_take. lia.
Qed.

Lemma data_append_inv v p : pinv p -> pinv (data_append v p).
Proof.
  intros []. unfold data_append, SSE_DATA_MAX in *. pose proof (zlen_nonneg v). pose proof (zlen_nonneg (data p)).
  set (room := if zlen (data p) + 1 <? 4096 then 4096 - zlen (data p) - 1 else 0).
  set (v' := if room <? zlen v then take (Z.to_nat room) v else v).
  assert (Hr : 0 <= room /\ (room = 0 \/ room = 4096 - zlen (data p) - 1)) by (unfold room; ztest; lia).
  assert (Hv' : zlen v' <= room).
  { unfold v'. destruct (Z.ltb_spec room (zlen v)); [|lia]. unfold zlen. rewrite length_take. lia. }
  assert (Hv : zlen (data p ++ v') < 4096) by (autorewrite with zlen; lia).
  destruct (Z.ltb_spec (zlen (data p ++ v') + 1) 4096); split; cbn; try done. autorewrite with zlen in *. unfold SSE_DATA_MAX. lia.
Qed.

Create HintDb sse.

Section Frame.

(** [I] is what the receiver of the events keeps. *)
Context {C : Type} (on_event : sse_event -> prog C unit) (I : C -> Prop).
Hypothesis on_event_ok : forall ev c, zlen (ev_data ev) < SSE_DATA_MAX -> I c ->
  exists c', on_event ev c = Ok tt c' /\ I c'.

Definition fine (s : sse_parser * C) : Prop := pinv s.1 /\ I s.2.
Definition stays (f : prog (sse_parser * C) unit) : Prop := forall s, fine s -> exists s', f s = Ok tt s' /\ fine s'.

Lemma stays_seq f g : stays f -> stays g -> stays (bind f (fun _ => g)).
Proof using. intros Hf Hg s Hs. destruct (Hf s Hs) as (s1 & E & H1). erewrite bind_ok by exact E. by apply Hg. Qed.

Lemma stays_on_p f : (forall p, pinv p -> pinv (f p)) -> stays (on_p f).
Proof using. intros Hf [p c] [Hp Hc]. eexists. split; [reflexivity|]. split; [by apply Hf|done]. Qed.

Lemma stays_ret : stays (ret tt).
Proof using. intros s Hs. by exists s. Qed.

Lemma stays_get f : (forall p, pinv p -> stays (f p)) -> stays (bind (gets fst) f).
Proof using. intros Hf s Hs. erewrite bind_ok by reflexivity. by apply Hf; [apply Hs|]. Qed.

Lemma stays_count a b x y z : stays (on_p (count a b x y z)).
Proof using. apply stays_on_p. intros q []. by split. Qed.

Lemma stays_deliver ev : zlen (ev_data ev) < SSE_DATA_MAX -> stays (deliver on_event ev).
Proof using on_event_ok.
  intros Hl [p c] [Hp Hc]. destruct (on_event_ok ev c Hl Hc) as (c' & E & Hc'). exists (p, c').
  unfold deliver. cbn [fst snd]. rewrite E. done.
Qed.

Hint Resolve stays_ret stays_count stays_deliver stays_seq : sse.

Lemma stays_dispatch : stays (dispatch on_event).
Proof using on_event_ok.
  apply stays_get. intros p Hp. pose proof (drop_lf_length (data p)). pose proof (p_data _ Hp).
  case_bool_decide as Hd; apply stays_seq.
  - destruct (ev_bad p); auto with sse.
  - apply stays_on_p. intros q []. by split.
  - destruct (ev_bad p); auto with sse. apply stays_seq; auto with sse. apply stays_deliver. cbn. lia.
  - apply stays_on_p. intros q []. by split.
Qed.

Lemma stays_end_line : stays (end_line on_event).
Proof using on_event_ok.
  apply stays_get. intros p _. apply stays_seq; [apply stays_on_p; intros q []; by split|].
  destruct (line_over p).
  { repeat apply stays_seq; [apply stays_on_p; intros q []; by split|apply stays_count|apply stays_on_p; intros q []; by split]. }
  destruct (bool_decide (line p = [])); [apply stays_dispatch|].
  destruct (bool_decide (head _ = _)); [apply stays_count|]. destruct (colon_split (line p)) as [field val]. cbn zeta.
  destruct (bool_decide _); [apply stays_on_p; intros q Hq; by apply data_append_inv|].
  destruct (bool_decide _).
  { apply stays_on_p. intros q []. split; try done. by apply clamped_length. }
  destruct (bool_decide _); [|apply stays_ret]. destruct (existsb (fun c => c =? 0) _); [apply stays_ret|].
  apply stays_on_p. intros q []. split; try done. by apply clamped_length.
Qed.

Lemma stays_feed_byte c : stays (feed_byte on_event c).
Proof using on_event_ok.
  assert (Hcr : forall b, stays (on_p (set_cr b))) by (intros b; apply stays_on_p; intros q []; by split).
  apply stays_get. intros p _. destruct (_ && _); [apply Hcr|]. apply stays_seq; [apply Hcr|].
  destruct (c =? CR); [apply stays_seq; [apply Hcr|apply stays_end_line]|]. destruct (c =? LF); [apply stays_end_line|].
  apply stays_on_p. intros q []. destruct (Z.ltb_spec (zlen (line q)) SSE_LINE_MAX); split; try done.
  cbn. autorewrite with zlen. unfold SSE_LINE_MAX in *. lia.
Qed.

Lemma stays_feed_bytes bs : stays (feed_bytes on_event bs).
Proof using on_event_ok.
  induction bs as [|c bs IH]; cbn [feed_bytes]; [apply stays_ret|]. apply stays_seq; [apply stays_feed_byte|done].
Qed.

Lemma stays_get_bom f : (forall k, 0 <= k <= 3 -> stays (f k)) -> stays (bind (gets (fun s => bom s.1)) f).
Proof using. intros Hf s Hs. erewrite bind_ok by reflexivity. apply Hf; [|done]. destruct Hs as [[] _]. done. Qed.

Lemma stays_set_bom k : 0 <= k <= 3 -> stays (on_p (set_bom k)).
Proof using. intros Hk. apply stays_on_p. intros q []. by split. Qed.

Lemma stays_bom_replay : stays (bom_replay on_event).
Proof using on_event_ok. apply stays_get_bom. intros k _. apply stays_seq; [by apply stays_set_bom|apply stays_feed_bytes]. Qed.

Lemma stays_parser_feed bs : stays (sse_parser_feed on_event bs).
Proof using on_event_ok.
  induction bs as [|c bs IH]; cbn [sse_parser_feed]; [apply stays_ret|]. apply stays_seq; [|done].
  apply stays_seq; [apply stays_count|]. apply stays_get_bom. intros k Hk.
  destruct (Z.ltb_spec k 3); [|apply stays_feed_byte]. destruct (_ =? _); [apply stays_set_bom; lia|].
  apply stays_seq; [apply stays_bom_replay|apply stays_feed_byte].
Qed.

Lemma stays_parser_finish : stays (sse_parser_finish on_event).
Proof using on_event_ok.
  apply stays_get_bom. intros k _. apply stays_seq; [destruct (k <? 3); [apply stays_bom_replay|apply stays_ret]|].
  apply stays_get. intros p _. apply stays_seq; [destruct (_ || _); [apply stays_end_line|apply stays_ret]|].
  apply stays_get. intros q _. destruct (bool_decide _); [apply stays_ret|apply stays_dispatch].
Qed.

End Frame.

(** ** Chunks *)

Lemma bind_assoc {S A B D} (m : prog S A) (f : A -> prog S B) (g : B -> prog S D) s :
  bind (bind m f) g s = bind m (fun a => bind (f a) g) s.
Proof. unfold bind. by destruct (m s). Qed.

Lemma bind_ext {S A B} (m : prog S A) (f g : A -> prog S B) s : (forall a s, f a s = g a s) -> bind m f s = bind m g s.
Proof. intros H. unfold bind. destruct (m s); auto. Qed.

Lemma parser_feed_app {C} (on_event : sse_event -> prog C unit) a b s :
  sse_parser_feed on_event (a ++ b) s = bind (sse_parser_feed on_event a) (fun _ => sse_parser_feed on_event b) s.
Proof.
  revert s. induction a as [|c a IH]; intros s; cbn [app sse_parser_feed]; [done|].
  rewrite bind_assoc. apply bind_ext. intros _ s'. apply IH.
Qed.

Lemma raw_bytes_app a b h : raw_bytes (a ++ b) h = bind (raw_bytes a) (fun _ => raw_bytes b) h.
Proof.
  revert h. induction a as [|c a IH]; intros h; cbn [app raw_bytes]; [done|].
  rewrite bind_assoc. apply bind_ext. intros _ h'. apply IH.
Qed.

(** The header loop over two chunks. *)
Lemma hdr_loop_app a b h : exists rest h', hdr_loop a h = Ok rest h' /\
  hdr_loop (a ++ b) h = (if bool_decide (rest = []) then hdr_loop b h' else Ok (rest ++ b) h') /\
  (rest <> [] -> in_body h' = true).
Proof.
  revert h. induction a as [|c a IH]; intros h; cbn [app hdr_loop].
  - exists [], h. by rewrite bool_decide_eq_true_2.
  - erewrite !(bind_ok (gets id)) by reflexivity. unfold id. destruct (in_body h) eqn:Eb.
    + exists (c :: a), h. rewrite bool_decide_eq_false_2 by done. done.
    + destruct (IH (hdr_byte c h)) as (rest & h' & E1 & E2 & E3). exists rest, h'.
      erewrite !(bind_ok (modify _)) by reflexivity. done.
Qed.

Lemma hdr_loop_body bs h : in_body h = true -> hdr_loop bs h = Ok bs h.
Proof. intros Hb. destruct bs as [|c bs]; cbn [hdr_loop]; [done|]. erewrite bind_ok by reflexivity. unfold id. by rewrite Hb. Qed.

Lemma on_pm_flags f h h' : on_pm f h = Ok tt h' -> in_body h' = in_body h /\ streaming h' = streaming h.
Proof. unfold on_pm. destruct (f _); intros E; inversion E; by subst. Qed.

Lemma on_m_flags {A} (f : prog sse_msg A) a h h' : on_m f h = Ok a h' -> in_body h' = in_body h /\ streaming h' = streaming h.
Proof. unfold on_m. destruct (f _); intros E; inversion E; by subst. Qed.

Lemma raw_byte_flags c h h' : raw_byte c h = Ok tt h' -> in_body h' = in_body h /\ streaming h' = streaming h.
Proof.
  unfold raw_byte. erewrite bind_ok by reflexivity. unfold id. destruct (_ <? _); [|intros E; inversion E; by subst].
  unfold bind. destruct (on_m _ h) as [? h1| | |] eqn:E1; try done. apply on_m_flags in E1 as [<- <-].
  destruct (on_m _ h1) as [? h2| | |] eqn:E2; try done. apply on_m_flags in E2 as [<- <-]. intros E; inversion E; by subst.
Qed.

Lemma raw_bytes_flags bs : forall h h', raw_bytes bs h = Ok tt h' -> in_body h' = in_body h /\ streaming h' = streaming h.
Proof.
  induction bs as [|c bs IH]; intros h h'; cbn [raw_bytes]; [intros E; inversion E; by subst|].
  unfold bind. destruct (raw_byte c h) as [[] h1| | |] eqn:E; try done. apply raw_byte_flags in E as [<- <-]. apply IH.
Qed.

(** What happens to the body bytes. *)
Definition body_bytes (bs : bytes) : prog sse_http unit := fun h =>
  if streaming h then on_pm (sse_parser_feed sse_msg_event bs) h else raw_bytes bs h.

Lemma body_bytes_app a b h : body_bytes (a ++ b) h = bind (body_bytes a) (fun _ => body_bytes b) h.
Proof.
  unfold body_bytes. destruct (streaming h) eqn:Es.
  - unfold bind. rewrite Es. unfold on_pm at 1 2. rewrite parser_feed_app. unfold bind.
    destruct (sse_parser_feed sse_msg_event a (hp h, hm h)) as [[] s| | |]; try done.
    cbn [streaming set_pm]. rewrite Es. unfold on_pm. cbn [hp hm set_pm]. destruct s. cbn [fst snd]. done.
  - rewrite raw_bytes_app. unfold bind. rewrite Es. destruct (raw_bytes a h) as [[] h1| | |] eqn:E; try done.
    apply raw_bytes_flags in E as [_ E]. by rewrite E, Es.
Qed.

Lemma body_bytes_flags bs h h' : body_bytes bs h = Ok tt h' -> in_body h' = in_body h /\ streaming h' = streaming h.
Proof.
  unfold body_bytes. destruct (streaming h) eqn:E; rewrite <- E; [apply on_pm_flags|apply raw_bytes_flags].
Qed.

Lemma feed_unfold bs h : sse_http_feed bs h =
  match hdr_loop bs h with Ok rest h' => body_bytes rest h' | Panic x => Panic x | Wild => Wild | Spin => Spin end.
Proof.
  unfold sse_http_feed, bind. destruct (hdr_loop bs h) as [rest h'| | |]; try done. unfold body_bytes, gets, id.
  case_bool_decide as Hr; [|by destruct (streaming h')]. subst. destruct (streaming h'); [|done].
  unfold on_pm, set_pm. cbn. by destruct h'.
Qed.

Lemma feed_app a b h : sse_http_feed (a ++ b) h = bind (sse_http_feed a) (fun _ => sse_http_feed b) h.
Proof.
  unfold bind. rewrite !feed_unfold. destruct (hdr_loop_app a b h) as (rest & h' & E1 & E2 & E3). rewrite E1, E2.
  case_bool_decide as Hr.
  - subst rest. assert (E : body_bytes [] h' = Ok tt h').
    { unfold body_bytes. destruct (streaming h'); [|done]. unfold on_pm, set_pm. cbn. by destruct h'. }
    rewrite E. by rewrite feed_unfold.
  - rewrite body_bytes_app. unfold bind. destruct (body_bytes rest h') as [[] h2| | |] eqn:E; try done.
    apply body_bytes_flags in E as [E _]. rewrite feed_unfold, (hdr_loop_body b h2); [done|]. rewrite E. by apply E3.
Qed.

Lemma chunks_concat chunks : forall h, feed_chunks chunks h = sse_http_feed (concat chunks) h.
Proof.
  induction chunks as [|x chunks IH]; intros h; cbn [feed_chunks concat].
  - rewrite feed_unfold. cbn. unfold body_bytes. destruct (streaming h); [|done]. unfold on_pm, set_pm. cbn. by destruct h.
  - rewrite feed_app. apply bind_ext. intros _ h'. apply IH.
Qed.

(** How the network cuts a response into pieces makes no difference: reading it in
    any chunks (single bytes, empty ones, cuts inside the header block, inside a CRLF,
    inside a byte order mark or an event) gives the same result as reading it whole. *)
Theorem chunking_is_invisible b c sc chunks :
  read_response b c sc chunks = read_response b c sc [concat chunks].
Proof.
  unfold read_response. destruct (sse_http_init b c sc) as [? h| | |]; try done.
  unfold bind. rewrite !chunks_concat. cbn [concat]. by rewrite app_nil_r.
Qed.
