(* ===== verification/SseRead.v ===== *)
(** net/sse.c as a whole: responses in any chunking, streamed or not. *)

From S2P Require Import Prelude Bytes Json JsonWriter JsonGrammar JsonNav JsonText JsonOut Sse SseJson SseDoc SseFrame.

(** ** The finished document *)

(** The tail of the document fits in what the reservation held back. *)
Lemma finish_tail m h bs : wf (w m) -> overflow (w m) = false -> jchars (stop m) -> zlen (stop m) < SSE_STOP_MAX ->
  is_head h -> Forall item bs -> text (w m) = h ++ commas bs -> len (w m) + 80 < cap (w m) ->
  exists x, bind (put (json_put (Some (qlit "],'stop_reason':")))) (fun _ => bind (gets stop) (fun s =>
      bind (if first_nul s then put (json_put (Some (lit "null")))
            else bind (put (json_put_char QUOTE)) (fun _ => bind (put (json_put (Some s)))
                   (fun _ => put (json_put_char QUOTE)))) (fun _ =>
      put (json_put (Some (qlit ",'stop_sequence':null}")))))) m = Ok tt (set_w x m) /\
    wf x /\ overflow x = false /\ cap x = cap (w m) /\ jval 35 T_OBJECT (text x).
Proof.
  intros Hw Ho Hj Hl Hh Hbs Ht Hc. unfold SSE_STOP_MAX in *.
  destruct (puts_str (qlit "],'stop_reason':") m) as (x1 & E1 & G1); [literal|done|done|lit_len; lia|].
  pose proof G1 as (A1 & A2 & A3 & A4 & A5). lit_len.
  destruct (stop_put (set_w x1 m)) as (x2 & E2 & G2); cbn [w set_w stop]; [done|done|done|done|lia|].
  pose proof G2 as (B1 & B2 & B3 & B4 & B5). cbn [w set_w stop] in *.
  assert (Hst : zlen (stop_text (stop m)) <= 40).
  { unfold stop_text. case_bool_decide; [lit_len; lia|]. autorewrite with zlen. lia. }
  destruct (puts_str (qlit ",'stop_sequence':null}") (set_w x2 m)) as (x3 & E3 & G3); cbn [w set_w]; [literal|done|done|lit_len; lia|].
  pose proof G3 as (C1 & C2 & C3 & C4 & C5). cbn [w set_w] in *.
  exists x3. erewrite bind_ok by exact E1. erewrite bind_ok by reflexivity. erewrite bind_ok by exact E2.
  rewrite set_w_twice, E3. split; [done|]. split; [done|]. split; [done|]. split; [congruence|].
  rewrite C4, B4, A4, Ht, <- !app_assoc. apply document_jval; [done|done|].
  unfold stop_text. case_bool_decide; [by left|right]. by exists (stop m).
Qed.

Lemma restart_ok m : wf (w m) -> 192 <= cap (w m) ->
  exists x, put restart m = Ok tt (set_w x m) /\ wf x /\ overflow x = false /\ cap x = cap (w m) /\ len x = 0.
Proof.
  intros (Hc & Hb & _) H192. destruct (json_writer_init_wf (buf (w m)) (cap (w m))) as (x & E & Hx); [lia..|].
  exists x. unfold put, restart. rewrite E. split; [done|]. revert E. unfold json_writer_init.
  rewrite (proj2 (Z.eqb_neq _ 0)) by lia. erewrite on_buf_ok by (apply poke_ok; cbn; lia). intros [= <-].
  split; [apply Hx|]. done.
Qed.

Lemma empty_is_head : is_head EMPTY_MSG.
Proof. exists (qlit "''"), (qlit "'assistant'"), (qlit "''"). split; [reflexivity|]. split_and!; apply jstring_check; reflexivity. Qed.

(** The return code for a finished document. *)
Definition finish_code (e : Z) (d : bytes) : Z := if (json_parse (Some d)).1 =? JSON_OK then e else SSE_EPROTO.

Lemma close_set c0 m : inv c0 false m -> inv c0 true (set_closed m).
Proof.
  intros [[] Hc]. split; [by split|].
  destruct Hc as [| |h bs|h bs t|h bs i n]; [by apply c_new|by apply c_lost|by apply (c_shut _ h bs)|
      by apply (c_text _ h bs t)|by apply (c_tool _ h bs i n)].
Qed.

(** The prefix of a message that never started. *)
Definition start_doc : prog sse_msg unit :=
  bind (gets started) (fun st : bool => if st then ret tt
    else bind (put restart) (fun _ => bind (put (json_put (Some EMPTY_MSG))) (fun _ => modify set_started))).

Lemma start_empty c0 cl m : inv c0 cl m -> block m = BLK_NONE ->
  exists m' h bs, start_doc m = Ok tt m' /\ stop m' = stop m /\ err m' = err m /\
    wf (w m') /\ overflow (w m') = false /\ is_head h /\ Forall item bs /\ text (w m') = h ++ commas bs /\
    len (w m') + 80 < cap (w m') /\ cap (w m') = c0.
Proof.
  intros [Hb Hc] Eb. pose proof Hb as [B1 B1' B2 _ _ _ _ _ _]. unfold SSE_TAIL_RESERVE in B2.
  unfold start_doc. erewrite bind_ok by reflexivity. destruct (started m) eqn:Es.
  - destruct Hc as [| |h bs ? Hh Hbs Ho Hl Ht|h bs t|h bs i n]; try congruence.
    exists m, h, bs. split_and!; try done. lia.
  - destruct (restart_ok m B1) as (x & E & X1 & X2 & X3 & X4); [lia|]. erewrite bind_ok by exact E.
    assert (HE : zlen EMPTY_MSG = 67) by done.
    destruct (puts_str EMPTY_MSG (set_w x m)) as (y & Ey & Hy); cbn [w set_w]; [literal|done|done|lia|].
    erewrite bind_ok by exact Ey. destruct Hy as (Y1 & Y2 & Y3 & Y4 & Y5). cbn [w set_w] in *.
    eexists _, EMPTY_MSG, []. cbn [commas]. rewrite app_nil_r. split; [reflexivity|]. cbn [w set_started set_w].
    split_and!; try done; [apply empty_is_head|by rewrite Y4; unfold text; rewrite X4|lia|congruence].
Qed.

Lemma finish_inv c0 m : inv c0 false m ->
  exists n m', sse_msg_finish m = Ok (finish_code (err m') (take (Z.to_nat n) (buf (w m'))), n) m' /\
    jval 35 T_OBJECT (take (Z.to_nat n) (buf (w m'))) /\ 0 <= n < c0 /\ (err m' = SSE_OK \/ err m' = SSE_ESTREAM).
Proof.
  intros Hi. pose proof (b_open _ _ _ (proj1 Hi)) as Hcl. unfold sse_msg_finish. erewrite bind_ok by reflexivity.
  unfold id at 1. rewrite Hcl. destruct (close_block_inv c0 true (set_closed m) (close_set c0 m Hi)) as (m1 & E1 & Hi1 & Eb1).
  destruct (start_empty c0 true m1 Hi1 Eb1) as (m2 & h & bs & E2 & Est & Eer & W2 & O2 & Hh & Hbs & T2 & L2 & C2).
  pose proof (proj1 Hi1) as [_ _ _ _ [J1 J2] _ _ Her _].
  destruct (finish_tail m2 h bs) as (y & E3 & Y1 & Y2 & Y3 & Y4); try done; [by rewrite Est..|].
  erewrite bind_ok; cycle 1.
  { erewrite bind_ok by reflexivity. erewrite bind_ok by exact E1. erewrite bind_ok by reflexivity.
    erewrite bind_ok by exact E2. exact E3. }
  erewrite bind_ok by reflexivity. unfold id. cbn [w set_w err]. unfold json_writer_ok, json_writer_len. rewrite Y2. cbn [negb].
  destruct (wf_range y Y1 Y2). exists (len y), (set_w y m2). cbn [w set_w err]. split; [|split; [exact Y4|split; [lia|by rewrite Eer]]].
  unfold finish_code. by destruct ((json_parse _).1 =? JSON_OK).
Qed.

(** ** The header block *)

(** The bytes read so far end in a blank line. *)
Definition ended (p : bytes) : bool :=
  match rev p with
  | c :: d :: r => (c =? LF) && ((d =? LF) || ((d =? CR) && match r with e :: _ => e =? LF | [] => false end))
  | _ => false
  end.

(** A header block: up to its first blank line. *)
Definition header_block (hd : bytes) : Prop :=
  ended hd = true /\ forall p q, hd = p ++ q -> q <> [] -> ended p = false.

(** The scan state after [p]. *)
Definition eoh_of (p : bytes) : Z :=
  match rev p with
  | c :: r => if c =? LF then 2
              else if c =? CR then match r with d :: _ => if d =? LF then 3 else 1 | [] => 1 end else 0
  | [] => 0
  end.

Lemma hdr_byte_scan c p h : in_body h = false -> eoh h = eoh_of p ->
  in_body (hdr_byte c h) = ended (p ++ [c]) /\ (ended (p ++ [c]) = false -> eoh (hdr_byte c h) = eoh_of (p ++ [c])) /\
  hp (hdr_byte c h) = hp h /\ hm (hdr_byte c h) = hm h /\ h_len (hdr_byte c h) = h_len h /\
  h_overflow (hdr_byte c h) = h_overflow h.
Proof.
  intros Hb He. unfold ended, eoh_of in *. rewrite rev_app_distr. cbn [rev app].
  unfold hdr_byte. cbn [eoh set_hdr]. rewrite He.
  assert (Hd : forall h, in_body (headers_done h) = true /\ hp (headers_done h) = hp h /\ hm (headers_done h) = hm h /\
    h_len (headers_done h) = h_len h /\ h_overflow (headers_done h) = h_overflow h).
  { intros g. unfold headers_done. by destruct (status_digits _ _ _ _) as [[? ?] ?]. }
  unfold CR, LF in *. destruct (rev p) as [|d r].
  - change (0 =? 0) with true. cbn match. cbn [in_body set_hdr eoh hp hm h_len h_overflow].
    destruct (Z.eqb_spec c 13), (Z.eqb_spec c 10); subst; done.
  - destruct (Z.eqb_spec d 10) as [->|Hd1].
    + change (2 =? 0) with false. change (2 =? 1) with false. change (2 =? 2) with true. cbn match.
      destruct (Z.eqb_spec c 10) as [->|]; [match goal with |- context [headers_done ?g] => destruct (Hd g) as (-> & -> & -> & -> & ->) end; done|].
      cbn. destruct (c =? 13); done.
    + destruct (Z.eqb_spec d 13) as [->|Hd2].
      * destruct r as [|e r]; [|destruct (Z.eqb_spec e 10) as [->|He1]].
        -- change (1 =? 0) with false. change (1 =? 1) with true. cbn match. cbn.
           destruct (Z.eqb_spec c 10), (Z.eqb_spec c 13); subst; done.
        -- change (3 =? 0) with false. change (3 =? 1) with false. change (3 =? 2) with false. cbn match.
           destruct (Z.eqb_spec c 10) as [->|]; [match goal with |- context [headers_done ?g] => destruct (Hd g) as (-> & -> & -> & -> & ->) end; done|].
           cbn. destruct (c =? 13); done.
        -- change (1 =? 0) with false. change (1 =? 1) with true. cbn match. cbn.
           destruct (Z.eqb_spec c 10), (Z.eqb_spec c 13); subst; done.
      * change (0 =? 0) with true. cbn match. cbn.
        destruct (Z.eqb_spec c 13), (Z.eqb_spec c 10); subst; try done.
Qed.

(** Reading a header block leaves the parts behind it as they were. *)
Definition untouched (h h' : sse_http) : Prop :=
  hp h' = hp h /\ hm h' = hm h /\ h_len h' = h_len h /\ h_overflow h' = h_overflow h.

Lemma hdr_loop_block q : forall p h body, in_body h = false -> eoh h = eoh_of p -> header_block (p ++ q) -> q <> [] ->
  exists h', hdr_loop (q ++ body) h = Ok body h' /\ in_body h' = true /\ untouched h h'.
Proof.
  induction q as [|c q IH]; intros p h body Hb He Hh Hq; [done|]. cbn [app hdr_loop].
  erewrite bind_ok by reflexivity. unfold id. rewrite Hb. erewrite bind_ok by reflexivity.
  destruct (hdr_byte_scan c p h Hb He) as (S1 & S2 & S3 & S4 & S5 & S6). destruct q as [|d q].
  - destruct Hh as [He1 _]. rewrite He1 in S1. exists (hdr_byte c h). cbn [app]. by rewrite (hdr_loop_body body).
  - assert (He0 : ended (p ++ [c]) = false).
    { destruct Hh as [_ Hh]. apply (Hh (p ++ [c]) (d :: q)); [|done]. by rewrite <- app_assoc. }
    rewrite He0 in S1. destruct (IH (p ++ [c]) (hdr_byte c h) body S1 (S2 He0)) as (h' & E & Hb' & U1 & U2 & U3 & U4); [|done|].
    { by rewrite <- app_assoc. }
    exists h'. split; [exact E|]. split; [done|]. unfold untouched. split_and!; congruence.
Qed.

Lemma hdr_byte_untouched c h :
  untouched h (hdr_byte c h) /\ (streaming (hdr_byte c h) = streaming h \/ in_body (hdr_byte c h) = true).
Proof.
  assert (Hd : forall g, untouched g (headers_done g) /\ in_body (headers_done g) = true)
    by (intros g; unfold headers_done; by destruct (status_digits _ _ _ _) as [[? ?] ?]).
  unfold hdr_byte. cbn zeta.
  set (g := set_hdr (if zlen (hdr h) <? SSE_HDR_MAX then hdr h ++ [c] else hdr h) _ (eoh h) h).
  destruct (Hd g) as [Hu Hi].
  destruct (eoh g =? 0), (eoh g =? 1), (eoh g =? 2), (c =? LF); (split; [first [exact Hu|done]|first [by left|by right]]).
Qed.

Lemma hdr_loop_any bs : forall h, (streaming h = true -> in_body h = true) ->
  exists rest h', hdr_loop bs h = Ok rest h' /\ untouched h h' /\ (rest = [] \/ in_body h' = true) /\
    (streaming h' = true -> in_body h' = true).
Proof.
  induction bs as [|c bs IH]; intros h Hh; cbn [hdr_loop].
  { exists [], h. split; [done|]. split; [done|]. by split; [left|]. }
  erewrite bind_ok by reflexivity. unfold id. destruct (in_body h) eqn:Eb.
  { exists (c :: bs), h. split; [done|]. split; [done|]. by split; [right|]. }
  destruct (hdr_byte_untouched c h) as [(V1 & V2 & V3 & V4) Hs].
  erewrite bind_ok by reflexivity. destruct (IH (hdr_byte c h)) as (rest & h' & E & (U1 & U2 & U3 & U4) & Hr).
  { destruct Hs as [->|?]; [|done]. intros Hs. by apply Hh in Hs. }
  exists rest, h'. split; [done|]. split; [|done]. unfold untouched. split_and!; congruence.
Qed.

(** ** Bodies that are not streams *)

(** The first bytes of the body [B], as many as fit with a NUL. *)
Definition holds_raw (c : Z) (B : bytes) (h : sse_http) : Prop :=
  let x := w (hm h) in
  cap x = c /\ c <= zlen (buf x) /\ h_len h = Z.min (zlen B) (c - 1) /\
  take (Z.to_nat (h_len h)) (buf x) = take (Z.to_nat (c - 1)) B /\ h_overflow h = (c - 1 <? zlen B).

Lemma put_poke i v h : 0 <= i < zlen (buf (w (hm h))) ->
  on_m (put (on_buf (poke i v))) h = Ok tt (set_pm (hp h, set_w (set_buf (patch i [v] (buf (w (hm h)))) (w (hm h))) (hm h)) h).
Proof. intros Hi. unfold on_m, put. erewrite on_buf_ok by (by apply poke_ok). done. Qed.

Lemma raw_byte_spec c v B h : 1 <= c -> holds_raw c B h -> exists h', raw_byte v h = Ok tt h' /\ holds_raw c (B ++ [v]) h'.
Proof.
  intros Hc (R1 & R2 & R3 & R4 & R5). pose proof (zlen_nonneg B). unfold raw_byte. erewrite bind_ok by reflexivity. unfold id.
  rewrite R1. destruct (Z.ltb_spec (h_len h + 1) c) as [Hl|Hl].
  - assert (Hz : h_len h = zlen B) by lia. set (x := w (hm h)) in *.
    assert (Hp : zlen (patch (h_len h) [v] (buf x)) = zlen (buf x)) by (apply zlen_patch; autorewrite with zlen; lia).
    erewrite bind_ok by (apply put_poke; fold x; lia).
    erewrite bind_ok by (apply put_poke; cbn [hm set_pm snd w set_w buf set_buf]; fold x; lia).
    eexists. split; [reflexivity|]. unfold holds_raw. cbn [hm set_raw set_pm snd w set_w cap set_buf buf h_len h_overflow]. fold x.
    change (h_len h + 1) with (h_len h + zlen [v]). rewrite patch_patch by (autorewrite with zlen; lia). autorewrite with zlen.
    split; [done|]. split; [rewrite zlen_patch; autorewrite with zlen; lia|]. split; [lia|]. split.
    + replace (h_len h + (0 + 1)) with (h_len h + zlen [v]) by (autorewrite with zlen; lia).
      rewrite take_patch_all by (autorewrite with zlen; lia). rewrite R4.
      rewrite !take_ge; [done|..]; unfold zlen in *; rewrite ?length_app; cbn; lia.
    + rewrite R5. lia.
  - eexists. split; [reflexivity|]. unfold holds_raw. cbn [hm set_raw h_len h_overflow]. autorewrite with zlen.
    split; [done|]. split; [done|]. split; [lia|]. split; [|lia]. rewrite R4. rewrite take_app_le; [done|]. unfold zlen in *. lia.
Qed.

Lemma raw_bytes_spec c bs : 1 <= c -> forall B h, holds_raw c B h -> exists h', raw_bytes bs h = Ok tt h' /\ holds_raw c (B ++ bs) h'.
Proof.
  intros Hc. induction bs as [|v bs IH]; intros B h Hh; cbn [raw_bytes]; [exists h; by rewrite app_nil_r|].
  destruct (raw_byte_spec c v B h Hc Hh) as (h1 & E & H1). erewrite bind_ok by exact E.
  destruct (IH _ _ H1) as (h2 & E2 & H2). exists h2. split; [done|]. by rewrite <- app_assoc in H2.
Qed.

(** ** Whole responses *)

(** The caller's buffer and the reader's scratch array. *)
Record buffers (b : bytes) (c : Z) (sc : bytes) : Prop := {
  bf_cap : SSE_TAIL_RESERVE + 64 <= c < 2 ^ 32;
  bf_buf : c <= zlen b < 2 ^ 62;
  bf_scratch : zlen sc = SSE_DATA_MAX + 1 }.

Lemma init_ok b c sc : buffers b c sc -> exists h, sse_http_init b c sc = Ok tt h /\ in_body h = false /\ eoh h = 0 /\
  streaming h = false /\ pinv (hp h) /\ inv c false (hm h) /\ holds_raw c [] h.
Proof.
  intros []. unfold SSE_TAIL_RESERVE, sse_http_init, sse_msg_init in *.
  destruct (json_writer_init_wf b c) as (x & E & Hw & Ht & Hl & Hc & Ho); [lia..|].
  rewrite E. eexists. split; [reflexivity|]. cbn [in_body eoh streaming hp hm]. do 3 (split; [done|]).
  split; [apply pinv_init|]. rewrite (proj2 (Z.eqb_neq c 0)) in Ho by lia. split.
  - split; [|by apply c_new]. split; cbn; try done.
    + unfold SSE_TAIL_RESERVE. lia.
    + split; [constructor|done].
    + by left.
  - unfold holds_raw. cbn. rewrite Hc, take_nil. change (zlen []) with 0. destruct Hw as (W1 & _). rewrite Hc in W1.
    split; [done|]. split; [lia|]. split; [lia|]. split; [done|]. lia.
Qed.

(** The events of a streamed body. *)
Lemma stream_ok c h bs : pinv (hp h) -> inv c false (hm h) ->
  exists h', on_pm (sse_parser_feed sse_msg_event bs) h = Ok tt h' /\ pinv (hp h') /\ inv c false (hm h').
Proof.
  intros Hp Hm. destruct (stays_parser_feed sse_msg_event (inv c false)
    (fun ev m Hl Hi => sse_msg_event_keeps c false ev (Z.lt_trans _ _ (2 ^ 32) Hl eq_refl) m Hi) bs (hp h, hm h)) as ([p m] & E & H1 & H2);
    [by split|]. exists (set_pm (p, m) h). unfold on_pm. rewrite E. done.
Qed.

Lemma stream_end c h : pinv (hp h) -> inv c false (hm h) ->
  exists h', on_pm (sse_parser_finish sse_msg_event) h = Ok tt h' /\ inv c false (hm h').
Proof.
  intros Hp Hm. destruct (stays_parser_finish sse_msg_event (inv c false)
    (fun ev m Hl Hi => sse_msg_event_keeps c false ev (Z.lt_trans _ _ (2 ^ 32) Hl eq_refl) m Hi) (hp h, hm h)) as ([p m] & E & H1 & H2);
    [by split|]. exists (set_pm (p, m) h). unfold on_pm. rewrite E. done.
Qed.

(** The document a streamed response leaves in the buffer, with its return code. *)
Definition document (rc : Z) (out : model_response) (d : bytes) : Prop :=
  d = take (Z.to_nat (body_len out)) (r_body out) /\ jval 35 T_OBJECT d /\
  (((rc = SSE_OK \/ rc = SSE_ESTREAM) /\ json_parse (Some d) = (JSON_OK, JV T_OBJECT d)) \/
   (rc = SSE_EPROTO /\ json_parse (Some d) = (JSON_EDEPTH, no_value))).

Lemma finish_stream c h : in_body h = true -> streaming h = true -> pinv (hp h) -> inv c false (hm h) ->
  exists rc out h', sse_http_finish h = Ok (rc, out) h' /\ streaming h' = true /\ in_body h' = true /\
    0 <= body_len out < c /\ exists d, document rc out d.
Proof.
  intros Hb Hs Hp Hm. unfold sse_http_finish. erewrite bind_ok by reflexivity. unfold id. rewrite Hb, Hs. cbn [negb].
  destruct (stream_end c h Hp Hm) as (h1 & E1 & Hm1). destruct (on_pm_flags _ _ _ E1) as [Fb Fs].
  destruct (finish_inv c (hm h1) Hm1) as (n & m2 & E2 & Hj & Hn & Her). erewrite bind_ok by exact E1.
  assert (E3 : on_m sse_msg_finish h1 = Ok (finish_code (err m2) (take (Z.to_nat n) (buf (w m2))), n) (set_pm (hp h1, m2) h1))
    by (unfold on_m; by rewrite E2).
  erewrite bind_ok by exact E3. erewrite bind_ok by reflexivity. unfold id. cbn [fst snd]. eexists _, _, _.
  split; [reflexivity|]. cbn [streaming in_body set_pm body_len r_body hm snd]. split; [congruence|]. split; [congruence|].
  split; [done|]. set (d := take (Z.to_nat n) (buf (w m2))) in *. exists d. split; [done|]. split; [done|].
  unfold finish_code. destruct (json_parse_text 35 (JV T_OBJECT d) d) as [Ep|[Ep _]].
  - exists [], []. cbn [app span]. rewrite app_nil_r. auto with json.
  - left. by rewrite Ep.
  - right. by rewrite Ep.
Qed.

Lemma finish_raw c B h : 1 <= c -> in_body h = true -> streaming h = false -> holds_raw c B h ->
  exists out h', sse_http_finish h = Ok (SSE_OK, out) h' /\ streaming h' = false /\
    body_len out = Z.min (zlen B) (c - 1) /\ take (Z.to_nat (body_len out)) (r_body out) = take (Z.to_nat (c - 1)) B /\
    truncated out = (c - 1 <? zlen B).
Proof.
  intros Hc Hb Hs (R1 & R2 & R3 & R4 & R5). pose proof (zlen_nonneg B). unfold sse_http_finish. erewrite bind_ok by reflexivity.
  unfold id. rewrite Hb, Hs. cbn [negb]. rewrite R1, (proj2 (Z.eqb_neq c 0)) by lia.
  erewrite bind_ok by (apply put_poke; lia). erewrite bind_ok by reflexivity. eexists _, _. split; [reflexivity|].
  split; [done|]. cbn [body_len r_body truncated hm set_pm snd w set_w buf set_buf]. split; [done|]. split; [|done].
  rewrite take_patch by (autorewrite with zlen; lia). done.
Qed.


(** A response that is not an event stream is delivered verbatim. After a header
    block (everything up to the first blank line), the body is copied byte for byte up
    to the capacity less its NUL, its length and the truncation flag say exactly how
    much there is, in whatever chunks the response arrived. *)
Theorem plain_body_verbatim b c sc chunks hd body : buffers b c sc -> header_block hd -> concat chunks = hd ++ body ->
  exists rc out h, read_response b c sc chunks = Ok (rc, out) h /\
    (streaming h = false ->
     rc = SSE_OK /\ body_len out = Z.min (zlen body) (c - 1) /\
     take (Z.to_nat (body_len out)) (r_body out) = take (Z.to_nat (c - 1)) body /\
     truncated out = (c - 1 <? zlen body)).
Proof.
  intros Hbuf Hh Ech. pose proof (bf_cap _ _ _ Hbuf) as Hc. unfold SSE_TAIL_RESERVE in Hc. assert (Hc1 : 1 <= c) by lia.
  destruct (init_ok b c sc Hbuf) as (h0 & E0 & Hb0 & He0 & Hs0 & Hp0 & Hm0 & Hr0). unfold read_response. rewrite E0.
  unfold bind. rewrite chunks_concat, Ech, feed_unfold.
  destruct (hdr_loop_block hd [] h0 body Hb0 He0 Hh) as (h1 & E1 & Hb1 & U1 & U2 & U3 & U4).
  { intros ->. destruct Hh as [Hh _]. by cbn in Hh. }
  rewrite E1. assert (Hraw1 : holds_raw c [] h1) by (unfold holds_raw in *; by rewrite U2, U3, U4).
  unfold body_bytes. destruct (streaming h1) eqn:Es1.
  - destruct (stream_ok c h1 body) as (h2 & E2 & Hp2 & Hm2); [congruence..|]. rewrite E2.
    destruct (on_pm_flags _ _ _ E2) as [Fb Fs]. rewrite Es1 in Fs. rewrite Hb1 in Fb.
    destruct (finish_stream c h2 Fb Fs Hp2 Hm2) as (rc & out & h3 & E3 & Hs3 & _ & Hl & Hd).
    exists rc, out, h3. split; [exact E3|congruence].
  - destruct (raw_bytes_spec c body Hc1 [] h1 Hraw1) as (h2 & E2 & Hr2). rewrite E2.
    destruct (raw_bytes_flags _ _ _ E2) as [Fb Fs]. rewrite Es1 in Fs. rewrite Hb1 in Fb.
    destruct (finish_raw c body h2 Hc1 Fb Fs Hr2) as (out & h3 & E3 & Hs3 & Hl).
    exists SSE_OK, out, h3. split; [exact E3|done].
Qed.

(** ** Examples *)

Definition demo_event (s : bytes) : bytes := lit "data: " ++ s ++ [LF; LF].
Definition demo_head : bytes :=
  lit "HTTP/1.1 200 OK" ++ [CR; LF] ++ lit "Content-Type: text/event-stream" ++ [CR; LF; CR; LF].
Definition demo_zeros (n : nat) : bytes := replicate n 0.

(** A text block cut off in the middle, in a buffer of the smallest capacity. *)
Definition demo_cut : bytes := demo_head ++
  demo_event (qlit "{'type':'content_block_start','content_block':{'type':'text','text':''}}") ++
  demo_event (qlit "{'type':'content_block_delta','delta':{'type':'text_delta','text':'Hel").


Definition demo_plain : bytes := lit "HTTP/1.1 401 Unauthorized" ++ [CR; LF; CR; LF].

Lemma plain_body_verbatim_witness :
  exists rc out h, read_response (demo_zeros 192) 192 (demo_zeros 4097) [demo_plain ++ lit "de"; []; lit "nied"] = Ok (rc, out) h /\
    take (Z.to_nat (body_len out)) (r_body out) = lit "denied" /\ truncated out = false.
Proof.
  destruct (plain_body_verbatim (demo_zeros 192) 192 (demo_zeros 4097) [demo_plain ++ lit "de"; []; lit "nied"] demo_plain (lit "denied"))
    as (rc & out & h & E & Hd).
  - split; [vm_compute; split; congruence|vm_compute; split; congruence|vm_compute; reflexivity].
  - split; [vm_compute; reflexivity|]. intros p q Hpq Hq.
    assert (Hall : Forall (fun n => ended (take n demo_plain) = false) (seq 0 (length demo_plain))).
    { vm_compute. repeat constructor. }
    rewrite Stdlib.Lists.List.Forall_forall in Hall. rewrite <- (take_app_length p q), <- Hpq. apply Hall. apply in_seq.
    rewrite Hpq, length_app. destruct q; [done|cbn; lia].
  - vm_compute. reflexivity.
  - exists rc, out, h. split; [exact E|].
    assert (Hs : match read_response (demo_zeros 192) 192 (demo_zeros 4097) [demo_plain ++ lit "de"; []; lit "nied"] with
                 | Ok _ h => streaming h | _ => true end = false) by (vm_compute; reflexivity).
    rewrite E in Hs. destruct (Hd Hs) as (_ & _ & Ht & Hr). split; [exact Ht|exact Hr].
Defined.

(** A tool call whose input, accepted on its own, nests too deep once it stands inside
    the document. *)
Definition demo_deep (n : nat) : bytes := demo_head ++
  demo_event (qlit "{'type':'content_block_start','content_block':{'type':'tool_use','id':'t','name':'n'}}") ++
  demo_event (qlit "{'type':'content_block_delta','delta':{'type':'input_json_delta','partial_json':'{" ++
              lit "\" ++ [QUOTE] ++ lit "a\" ++ [QUOTE] ++ lit ":" ++ replicate n (ch "[") ++ replicate n (ch "]") ++
              qlit "}'}}") ++
  demo_event (qlit "{'type':'content_block_stop'}") ++ demo_event (qlit "{'type':'message_stop'}").

Definition deep_code (n : nat) : option (Z * bool) :=
  match read_response (demo_zeros 600) 600 (demo_zeros 4097) [demo_deep n] with
  | Ok (rc, out) _ => Some (rc, truncated out) | _ => None
  end.

(** An input nested 29 deep is delivered; one nested 30 deep, which json_parse accepts,
    makes the whole reply SSE_EPROTO. *)
Lemma deep_tool_input_refused :
  deep_code 28 = Some (SSE_OK, false) /\ deep_code 29 = Some (SSE_EPROTO, false).
Proof. split; vm_compute; reflexivity. Qed.

(** A buffer of 100 bytes gets no message at all. *)
Lemma small_buffer_no_message :
  match read_response (demo_zeros 100) 100 (demo_zeros 4097) [demo_head] with
  | Ok (rc, out) _ => Some (rc, body_len out) | _ => None
  end = Some (SSE_ENOSPC, 0).
Proof. vm_compute. reflexivity. Qed.
