(* ===== verification/SseSpec.v ===== *)
(** Event framing as the WHATWG description has it, on whole lines, and the proof that
    the byte-at-a-time parser of net/sse.c delivers exactly those events. *)

From S2P Require Import Prelude Bytes Json JsonWriter Sse SseFrame.

(** ** The reference *)

(** One leading byte order mark is not part of the stream. *)
Definition strip_bom (bs : bytes) : bytes :=
  if bool_decide (take 3 bs = SSE_BOM) then drop 3 bs else bs.

(** CRLF and CR end lines as LF does. *)
Fixpoint newlines (bs : bytes) : bytes :=
  match bs with
  | [] => []
  | c :: r =>
      if c =? CR then
        LF :: match r with d :: r' => if d =? LF then newlines r' else newlines r | [] => [] end
      else c :: newlines r
  end.

(** The lines, and what follows the last line end. *)
Fixpoint lines (cur bs : bytes) : list bytes * bytes :=
  match bs with
  | [] => ([], cur)
  | c :: r => if c =? LF then let '(ls, last) := lines [] r in (cur :: ls, last) else lines (cur ++ [c]) r
  end.

(** An event being put together: its name, the id in force, its data lines, whether
    anything in it was over a limit; and the events delivered so far. *)
Record asm := Asm { a_name : bytes; a_id : bytes; a_data : list bytes; a_bad : bool; a_out : list sse_event }.

Definition with_lf (vs : list bytes) : bytes := concat ((fun v => v ++ [LF]) <$> vs).
Fixpoint joined (vs : list bytes) : bytes :=
  match vs with [] => [] | [v] => v | v :: vs => v ++ LF :: joined vs end.

Definition blank_line (a : asm) : asm :=
  Asm [] (a_id a) [] false
    (if bool_decide (a_data a = []) || a_bad a then a_out a
     else a_out a ++ [Event (if first_nul (a_name a) then lit "message" else a_name a) (joined (a_data a)) (a_id a)]).

Definition one_line (a : asm) (l : bytes) : asm :=
  if SSE_LINE_MAX <? zlen l then Asm (a_name a) (a_id a) (a_data a) true (a_out a)
  else if bool_decide (l = []) then blank_line a
  else if bool_decide (head l = Some (ch ":")) then a
  else
    let '(field, val) := colon_split l in
    let val := skip_space val in
    if bool_decide (field = lit "data") then
      Asm (a_name a) (a_id a) (a_data a ++ [val]) (a_bad a || (SSE_DATA_MAX <=? zlen (with_lf (a_data a ++ [val])))) (a_out a)
    else if bool_decide (field = lit "event") then
      Asm (copy_clamped SSE_NAME_MAX val) (a_id a) (a_data a) (a_bad a || (SSE_NAME_MAX <=? zlen val)) (a_out a)
    else if bool_decide (field = lit "id") && negb (existsb (fun c => c =? 0) val) then
      Asm (a_name a) (copy_clamped SSE_ID_MAX val) (a_data a) (a_bad a) (a_out a)
    else a.

(** The events of a stream: an unfinished last line counts as a line, and an event
    without its blank line is still delivered. *)
Definition stream_events (bs : bytes) : list sse_event :=
  let '(ls, last) := lines [] (newlines (strip_bom bs)) in
  let a := fold_left one_line (ls ++ if bool_decide (last = []) then [] else [last]) (Asm [] [] [] false []) in
  a_out (blank_line a).

(** ** The simulation *)

(** The receiver that keeps the events it is given. *)
Definition keep_event (ev : sse_event) : prog (list sse_event) unit := fun l => Ok tt (l ++ [ev]).

(** The parser with pending line [cur] stands for the assembly [a]. *)
Record stands (cur : bytes) (a : asm) (s : sse_parser * list sse_event) : Prop := {
  st_line : line s.1 = take (Z.to_nat SSE_LINE_MAX) cur;
  st_over : line_over s.1 = (SSE_LINE_MAX <? zlen cur);
  st_name : name s.1 = a_name a;
  st_id : ident s.1 = a_id a;
  st_bad : ev_bad s.1 = a_bad a;
  st_data : a_bad a = false -> data s.1 = with_lf (a_data a) /\ zlen (data s.1) < SSE_DATA_MAX;
  st_out : s.2 = a_out a }.

Lemma with_lf_nil vs : with_lf vs = [] <-> vs = [].
Proof. split; [|by intros ->]. destruct vs as [|v vs]; [done|]. unfold with_lf. cbn. by destruct v. Qed.

Lemma with_lf_snoc vs v : with_lf (vs ++ [v]) = with_lf vs ++ v ++ [LF].
Proof. unfold with_lf. rewrite fmap_app, concat_app. cbn. by rewrite app_nil_r. Qed.

Lemma joined_lf vs : vs <> [] -> with_lf vs = joined vs ++ [LF].
Proof.
  induction vs as [|v vs IH]; [done|]. intros _. unfold with_lf in *. destruct vs as [|v' vs]; cbn; [by rewrite app_nil_r|].
  cbn in IH. rewrite IH by done. rewrite <- !app_assoc. done.
Qed.

Lemma drop_lf_snoc s : drop_lf (s ++ [LF]) = s.
Proof.
  unfold drop_lf. rewrite length_app. cbn [length]. replace (length s + 1 - 1)%nat with (length s) by lia.
  rewrite app_nth2, Nat.sub_diag by lia. cbn [nth]. rewrite Z.eqb_refl. apply removelast_last.
Qed.

Lemma stands_dispatch a s : stands [] a s ->
  exists s', dispatch keep_event s = Ok tt s' /\ stands [] (blank_line a) s' /\ after_cr s'.1 = after_cr s.1 /\ bom s'.1 = bom s.1.
Proof.
  intros [H1 H2 H3 H4 H5 H6 H7]. destruct s as [p l]. cbn [fst snd] in *. unfold dispatch. erewrite bind_ok by reflexivity. cbn [fst].
  unfold blank_line. destruct (a_bad a) eqn:Eb; rewrite H5.
  - rewrite orb_true_r. destruct (bool_decide (data p = [])) eqn:Ed; eexists; (split; [reflexivity|]); (split; [|done]); split; cbn; try done.
    apply bool_decide_eq_true in Ed. by rewrite Ed.
  - destruct (H6 eq_refl) as [Hd Hl]. rewrite orb_false_r. destruct (decide (a_data a = [])) as [E|E].
    + rewrite (bool_decide_eq_true_2 _ E). rewrite bool_decide_eq_true_2 by (rewrite Hd, E; done).
      eexists. split; [reflexivity|]. split; [|done]. split; cbn; try done. rewrite Hd, E. done.
    + rewrite (bool_decide_eq_false_2 _ E). rewrite bool_decide_eq_false_2 by (rewrite Hd; by rewrite with_lf_nil).
      assert (Edl : drop_lf (data p) = joined (a_data a)) by (rewrite Hd, joined_lf by done; apply drop_lf_snoc).
      rewrite Edl, H3, H4. eexists. split; [reflexivity|]. split; [|done]. split; cbn; try done. by rewrite H7.
Qed.

Lemma data_append_keeps v p : line (data_append v p) = line p /\ line_over (data_append v p) = line_over p /\
  after_cr (data_append v p) = after_cr p /\ name (data_append v p) = name p /\ ident (data_append v p) = ident p /\
  bom (data_append v p) = bom p.
Proof. unfold data_append. by destruct (_ <? SSE_DATA_MAX). Qed.

Lemma data_append_sim v p vs : (ev_bad p = false -> data p = with_lf vs /\ zlen (data p) < SSE_DATA_MAX) ->
  ev_bad (data_append v p) = ev_bad p || (SSE_DATA_MAX <=? zlen (with_lf (vs ++ [v]))) \/ ev_bad p = true /\ ev_bad (data_append v p) = true.
Proof.
  intros H. destruct (ev_bad p) eqn:Eb.
  - right. split; [done|]. unfold data_append. destruct (zlen _ + 1 <? SSE_DATA_MAX) eqn:E; cbn; [|done]. by rewrite Eb.
  - left. destruct (H eq_refl) as [Hd Hl]. rewrite with_lf_snoc, <- Hd. cbn [orb]. unfold data_append, SSE_DATA_MAX in *.
    autorewrite with zlen. pose proof (zlen_nonneg v). pose proof (zlen_nonneg (data p)). rewrite Eb. cbn [orb].
    set (room := if zlen (data p) + 1 <? 4096 then 4096 - zlen (data p) - 1 else 0).
    assert (Hr : room = 4096 - zlen (data p) - 1) by (unfold room; ztest; lia).
    destruct (Z.ltb_spec room (zlen v)) as [Ho|Ho].
    + transitivity true; [match goal with |- ev_bad (if ?b then _ else _) = _ => by destruct b end|]. symmetry. apply Z.leb_le. lia.
    + autorewrite with zlen. destruct (Z.ltb_spec (zlen (data p) + zlen v + 1) 4096); cbn [ev_bad set_event]; symmetry;
        [apply Z.leb_gt|apply Z.leb_le]; lia.
Qed.

Lemma data_append_fits v p : zlen (data p ++ v ++ [LF]) < SSE_DATA_MAX -> data (data_append v p) = data p ++ v ++ [LF].
Proof.
  unfold data_append, SSE_DATA_MAX. autorewrite with zlen. intros H. pose proof (zlen_nonneg v). pose proof (zlen_nonneg (data p)).
  destruct (Z.ltb_spec (zlen (data p) + 1) 4096); [|lia]. destruct (Z.ltb_spec (4096 - zlen (data p) - 1) (zlen v)); [lia|].
  autorewrite with zlen. destruct (Z.ltb_spec (zlen (data p) + zlen v + 1) 4096); [|lia]. cbn. by rewrite <- app_assoc.
Qed.

Lemma stands_line cur a s : stands cur a s ->
  exists s', end_line keep_event s = Ok tt s' /\ stands [] (one_line a cur) s' /\ after_cr s'.1 = after_cr s.1 /\ bom s'.1 = bom s.1.
Proof.
  intros Hs. pose proof Hs as [H1 H2 H3 H4 H5 H6 H7]. destruct s as [p l]. cbn [fst snd] in *.
  unfold end_line. erewrite bind_ok by reflexivity. cbn [fst]. erewrite bind_ok by reflexivity. cbn [fst snd].
  unfold one_line. rewrite H2. destruct (Z.ltb_spec SSE_LINE_MAX (zlen cur)) as [Ho|Ho].
  { eexists. split; [reflexivity|]. split; [|done]. by split. }
  assert (Hcur : line p = cur) by (rewrite H1, take_ge; [done|unfold zlen in Ho; lia]). rewrite Hcur.
  assert (H0 : stands [] a (set_line [] false p, l)).
  { split; cbn; try done. }
  set (p0 := set_line [] false p) in *. case_bool_decide as E1.
  { destruct (stands_dispatch a (p0, l) H0) as (s' & E & Hs' & Hcr). by exists s'. }
  case_bool_decide as E2. { eexists. split; [reflexivity|]. split; [|done]. by destruct H0; split. }
  destruct (colon_split cur) as [field val]. cbn zeta. destruct H0 as [L1 L2 L3 L4 L5 L6 L7]. cbn [fst snd] in *.
  case_bool_decide as E3.
  { destruct (data_append_keeps (skip_space val) p0) as (K1 & K2 & K3 & K4 & K5 & K6).
    eexists. split; [reflexivity|]. cbn [fst snd]. split; [|by rewrite K3, K6].
    split; cbn [fst snd a_name a_id a_data a_bad a_out]; rewrite ?K1, ?K2, ?K4, ?K5; try done.
    - destruct (data_append_sim (skip_space val) p0 (a_data a)) as [E|[Ea Eb]]; [by rewrite L5|by rewrite E, L5|].
      rewrite Eb, <- L5, Ea. done.
    - intros Hb. apply orb_false_iff in Hb as [Hb1 Hb2]. apply Z.leb_gt in Hb2. destruct (L6 Hb1) as [Ld Ll].
      rewrite with_lf_snoc, <- Ld in *. rewrite data_append_fits by done. done. }
  case_bool_decide as E4.
  { eexists. split; [reflexivity|]. split; [|done]. cbn [fst snd]. split; cbn; try done.
    - rewrite <- L5. f_equal. unfold SSE_NAME_MAX. lia.
    - intros Hb. apply orb_false_iff in Hb as [Hb1 _]. auto. }
  case_bool_decide as E5; cbn [andb]; [|eexists; split; [reflexivity|]; split; [|done]; by split].
  destruct (existsb (fun c => c =? 0) (skip_space val)); cbn [negb];
    (eexists; split; [reflexivity|]; split; [|done]; by split).
Qed.

(** One byte, on the reference's side: after a CR an LF is skipped. *)
Definition byte_step (st : bool * bytes * asm) (c : Z) : bool * bytes * asm :=
  let '(cr, cur, a) := st in
  if cr && (c =? LF) then (false, cur, a)
  else if c =? CR then (true, [], one_line a cur)
  else if c =? LF then (false, [], one_line a cur)
  else (false, cur ++ [c], a).

Definition at_byte (st : bool * bytes * asm) (s : sse_parser * list sse_event) : Prop :=
  let '(cr, cur, a) := st in stands cur a s /\ after_cr s.1 = cr.

Lemma stands_cr cur a s b : stands cur a s -> stands cur a (set_cr b s.1, s.2).
Proof. intros []. by split. Qed.

Lemma byte_sim st s c : at_byte st s -> exists s', feed_byte keep_event c s = Ok tt s' /\ at_byte (byte_step st c) s' /\ bom s'.1 = bom s.1.
Proof.
  destruct st as [[cr cur] a]. intros [Hs Hcr]. unfold feed_byte, byte_step. erewrite bind_ok by reflexivity. rewrite Hcr.
  destruct (cr && (c =? LF)). { eexists. split; [reflexivity|]. split; [|done]. split; [by apply stands_cr|done]. }
  erewrite bind_ok by reflexivity. pose proof (stands_cr cur a s false Hs) as H0. destruct (Z.eqb_spec c CR).
  { erewrite bind_ok by reflexivity. cbn [fst snd]. destruct (stands_line cur a (set_cr true (set_cr false s.1), s.2)) as (s' & E & Hs' & Hc' & Hb').
    - apply (stands_cr cur a (set_cr false s.1, s.2)). done.
    - exists s'. split; [done|]. split; [by split|done]. }
  destruct (Z.eqb_spec c LF).
  { destruct (stands_line cur a (set_cr false s.1, s.2) H0) as (s' & E & Hs' & Hc' & Hb'). exists s'. split; [done|]. split; [by split|done]. }
  eexists. split; [reflexivity|]. cbn [fst snd]. destruct H0 as [H1 H2 H3 H4 H5 H6 H7]. cbn [fst snd] in *.
  assert (Hlen : zlen (line (set_cr false s.1)) = Z.min SSE_LINE_MAX (zlen cur)).
  { rewrite H1. unfold zlen, SSE_LINE_MAX. rewrite length_take. lia. }
  destruct (Z.ltb_spec (zlen (line (set_cr false s.1))) SSE_LINE_MAX) as [Hl|Hl]; (split; [|done]); (split; [|done]); split; cbn; try done; autorewrite with zlen.
  - cbn in H1. rewrite H1. unfold zlen, SSE_LINE_MAX in *. rewrite !take_ge; [done|rewrite length_app; cbn; lia|lia].
  - cbn in H2. rewrite H2. lia.
  - cbn in H1. rewrite H1, take_app_le; [done|]. unfold zlen, SSE_LINE_MAX in *. lia.
  - pose proof (zlen_nonneg cur). lia.
Qed.

Lemma bytes_sim bs : forall st s, at_byte st s ->
  exists s', feed_bytes keep_event bs s = Ok tt s' /\ at_byte (fold_left byte_step bs st) s' /\ bom s'.1 = bom s.1.
Proof.
  induction bs as [|c bs IH]; intros st s Hs; cbn [feed_bytes fold_left]; [by exists s|].
  destruct (byte_sim st s c Hs) as (s1 & E & H1 & B1). erewrite bind_ok by exact E. rewrite <- B1. by apply IH.
Qed.

Lemma fold_lines bs : forall cur a, exists cr,
  fold_left byte_step bs (false, cur, a) =
    (cr, (lines cur (newlines bs)).2, fold_left one_line (lines cur (newlines bs)).1 a).
Proof.
  induction bs as [bs IH] using (induction_ltof1 _ length); unfold ltof in IH. intros cur a.
  destruct bs as [|c r]; [by exists false|]. cbn [fold_left newlines]. unfold byte_step at 2. cbn [andb].
  destruct (Z.eqb_spec c CR) as [->|Hc].
  - cbn [lines]. rewrite Z.eqb_refl. destruct r as [|d r']; [by exists true|]. cbn [fold_left].
    assert (Hd : byte_step (true, [], one_line a cur) d =
      if d =? LF then (false, [], one_line a cur) else byte_step (false, [], one_line a cur) d).
    { unfold byte_step. cbn [andb]. by destruct (d =? LF). }
    rewrite Hd. destruct (Z.eqb_spec d LF) as [->|Hd'].
    + destruct (IH r' ltac:(cbn; lia) [] (one_line a cur)) as [cr E]. exists cr. rewrite E.
      by destruct (lines [] (newlines r')) as [ls last].
    + destruct (IH (d :: r') ltac:(cbn; lia) [] (one_line a cur)) as [cr E]. exists cr. cbn [fold_left] in E. rewrite E.
      by destruct (lines [] (newlines (d :: r'))) as [ls last].
  - cbn [lines]. destruct (Z.eqb_spec c LF) as [->|Hl].
    + destruct (IH r ltac:(cbn; lia) [] (one_line a cur)) as [cr E]. exists cr. rewrite E.
      by destruct (lines [] (newlines r)) as [ls last].
    + apply (IH r). cbn. lia.
Qed.

(** The bytes counter does not matter. *)
Lemma at_byte_count st s n : at_byte st s -> at_byte st (count 0 0 0 0 n s.1, s.2).
Proof. destruct st as [[cr cur] a]. intros [[] ?]. split; [by split|done]. Qed.

Lemma at_byte_bom st s k : at_byte st s -> at_byte st (set_bom k s.1, s.2).
Proof. destruct st as [[cr cur] a]. intros [[] ?]. split; [by split|done]. Qed.

(** Past the byte order mark. *)
Lemma parser_past bs : forall st s, at_byte st s -> bom s.1 = 3 ->
  exists s', sse_parser_feed keep_event bs s = Ok tt s' /\ at_byte (fold_left byte_step bs st) s' /\ bom s'.1 = 3.
Proof.
  induction bs as [|c bs IH]; intros st s Hs Hb; cbn [sse_parser_feed fold_left]; [by exists s|].
  unfold parser_byte. destruct (byte_sim st (count 0 0 0 0 1 s.1, s.2) c) as (s1 & E & H1 & B1); [by apply at_byte_count|].
  erewrite bind_ok; cycle 1.
  { erewrite bind_ok by reflexivity. erewrite bind_ok by reflexivity. cbn [fst snd bom count]. rewrite Hb. exact E. }
  apply IH; [done|]. rewrite B1. cbn. done.
Qed.

Definition asm0 : bool * bytes * asm := (false, [], Asm [] [] [] false []).

(** The replay of a partial mark and the byte that broke it. *)
Lemma parser_broken k c bs s : at_byte asm0 s -> bom s.1 = k -> 0 <= k < 3 -> c <> nth (Z.to_nat k) SSE_BOM 0 ->
  exists s', sse_parser_feed keep_event (c :: bs) s = Ok tt s' /\
    at_byte (fold_left byte_step (take (Z.to_nat k) SSE_BOM ++ c :: bs) asm0) s' /\ bom s'.1 = 3.
Proof.
  intros Hs Hb Hk Hc. cbn [sse_parser_feed]. unfold parser_byte.
  set (s0 := (set_bom 3 (count 0 0 0 0 1 s.1), s.2)).
  assert (H0 : at_byte asm0 s0) by (apply (at_byte_bom asm0 (count 0 0 0 0 1 s.1, s.2)); by apply at_byte_count).
  destruct (bytes_sim (take (Z.to_nat k) SSE_BOM) asm0 s0 H0) as (s1 & E1 & H1 & B1).
  destruct (byte_sim _ s1 c H1) as (s2 & E2 & H2 & B2).
  erewrite bind_ok; cycle 1.
  { erewrite bind_ok by reflexivity. erewrite bind_ok by reflexivity. cbn [fst snd bom count]. rewrite Hb.
    rewrite (proj2 (Z.ltb_lt k 3)) by lia. rewrite (proj2 (Z.eqb_neq c _)) by done. erewrite bind_ok; [exact E2|].
    unfold bom_replay. erewrite bind_ok by reflexivity. cbn [fst bom count]. rewrite Hb. erewrite bind_ok by reflexivity. exact E1. }
  rewrite fold_left_app. cbn [fold_left]. apply parser_past; [done|]. rewrite B2, B1. done.
Qed.

(** The whole feed: what is pending is a partial mark, or the reference's state. *)
Lemma parser_feed_sim bs : exists s', sse_parser_feed keep_event bs (sse_parser_init, []) = Ok tt s' /\
  ((bom s'.1 = 3 /\ at_byte (fold_left byte_step (strip_bom bs) asm0) s') \/
   (bom s'.1 < 3 /\ strip_bom bs = take (Z.to_nat (bom s'.1)) SSE_BOM /\ at_byte asm0 s')).
Proof.
  assert (Hinit : at_byte asm0 (sse_parser_init, [])) by (by repeat split).
  assert (Hstep : forall k s rest, at_byte asm0 s -> bom s.1 = k -> 0 <= k < 3 ->
    exists s1, sse_parser_feed keep_event (nth (Z.to_nat k) SSE_BOM 0 :: rest) s = sse_parser_feed keep_event rest s1 /\
      at_byte asm0 s1 /\ bom s1.1 = k + 1).
  { intros k s rest Hs Hb Hk. exists (set_bom (k + 1) (count 0 0 0 0 1 s.1), s.2).
    split; [|split; [|done]]; [|apply (at_byte_bom asm0 (count 0 0 0 0 1 s.1, s.2)); by apply at_byte_count].
    cbn [sse_parser_feed]. unfold parser_byte. erewrite bind_ok; [reflexivity|].
    erewrite bind_ok by reflexivity. erewrite bind_ok by reflexivity. cbn [fst snd bom count]. rewrite Hb.
    rewrite (proj2 (Z.ltb_lt k 3)) by lia. by rewrite Z.eqb_refl. }
  assert (Hbroken : forall k c r s, at_byte asm0 s -> bom s.1 = k -> 0 <= k < 3 -> c <> nth (Z.to_nat k) SSE_BOM 0 ->
    bs = take (Z.to_nat k) SSE_BOM ++ c :: r -> exists s', sse_parser_feed keep_event (c :: r) s = Ok tt s' /\
    ((bom s'.1 = 3 /\ at_byte (fold_left byte_step (strip_bom bs) asm0) s') \/
     (bom s'.1 < 3 /\ strip_bom bs = take (Z.to_nat (bom s'.1)) SSE_BOM /\ at_byte asm0 s'))).
  { intros k c r s Hs Hb Hk Hc Hbs. destruct (parser_broken k c r s Hs Hb Hk Hc) as (s' & E & H1 & H2).
    exists s'. split; [done|]. left. split; [done|]. unfold strip_bom. rewrite bool_decide_eq_false_2; [by rewrite Hbs|].
    rewrite Hbs. assert (Hk3 : k = 0 \/ k = 1 \/ k = 2) by lia. unfold SSE_BOM in *.
    destruct Hk3 as [->|[->| ->]]; intros E'; apply Hc; cbn in E'; injection E'; done. }
  destruct bs as [|c0 bs]; [eexists; split; [reflexivity|]; right; by split|].
  destruct (decide (c0 = 0xEF)) as [->|H0]; [|by apply (Hbroken 0)].
  destruct (Hstep 0 _ bs Hinit eq_refl) as (s1 & E1 & A1 & B1); [lia|]. change (nth (Z.to_nat 0) SSE_BOM 0) with 0xEF in E1. rewrite E1.
  destruct bs as [|c1 bs]; [exists s1; split; [done|]; right; rewrite B1; done|].
  destruct (decide (c1 = 0xBB)) as [->|H1]; [|by apply (Hbroken 1)].
  destruct (Hstep 1 _ bs A1 B1) as (s2 & E2 & A2 & B2); [lia|]. change (nth (Z.to_nat 1) SSE_BOM 0) with 0xBB in E2. rewrite E2.
  destruct bs as [|c2 bs]; [exists s2; split; [done|]; right; rewrite B2; done|].
  destruct (decide (c2 = 0xBF)) as [->|H2]; [|by apply (Hbroken 2)].
  destruct (Hstep 2 _ bs A2 B2) as (s3 & E3 & A3 & B3); [lia|]. change (nth (Z.to_nat 2) SSE_BOM 0) with 0xBF in E3. rewrite E3.
  destruct (parser_past bs asm0 s3 A3 B3) as (s' & E & H & B). exists s'. split; [done|]. left. split; [done|].
  unfold strip_bom. cbn [take drop]. by rewrite bool_decide_eq_true_2.
Qed.

(** The end of the stream: the last line, then the pending event. *)
Lemma finish_sim cr cur a s : at_byte (cr, cur, a) s -> bom s.1 = 3 ->
  exists s', sse_parser_finish keep_event s = Ok tt s' /\
    s'.2 = a_out (blank_line (if bool_decide (cur = []) then a else one_line a cur)).
Proof.
  intros [Hs _] Hb. unfold sse_parser_finish. erewrite bind_ok by reflexivity. rewrite Hb. change (3 <? 3) with false. cbn match.
  erewrite bind_ok by reflexivity. erewrite bind_ok by reflexivity.
  assert (Hpend : negb (bool_decide (line s.1 = [])) || line_over s.1 = negb (bool_decide (cur = []))).
  { rewrite (st_line _ _ _ Hs), (st_over _ _ _ Hs). destruct cur as [|c cur]; [done|]. rewrite (bool_decide_eq_false_2 (c :: cur = [])) by done.
    rewrite bool_decide_eq_false_2; [done|]. unfold SSE_LINE_MAX. by change (Z.to_nat 4096) with (S (Z.to_nat 4095)). }
  rewrite Hpend. clear Hpend. set (a' := if bool_decide (cur = []) then a else one_line a cur).
  assert (Hline : exists s1, (if negb (bool_decide (cur = [])) then end_line keep_event else ret tt) s = Ok tt s1 /\ stands [] a' s1).
  { unfold a'. case_bool_decide as E; cbn [negb]; [rewrite E in Hs; by exists s|].
    destruct (stands_line cur a s Hs) as (s1 & E1 & H1 & _). by exists s1. }
  destruct Hline as (s1 & E1 & H1). erewrite bind_ok by exact E1. erewrite bind_ok by reflexivity.
  pose proof H1 as [_ _ _ _ H5 H6 H7]. clearbody a'. destruct (bool_decide_reflect (data s1.1 = [])) as [Ed|Ed].
  - exists s1. split; [done|]. rewrite H7. unfold blank_line. destruct (a_bad a') eqn:Eb; [rewrite orb_true_r; done|].
    destruct (H6 eq_refl) as [Hd _]. rewrite Hd in Ed. apply with_lf_nil in Ed. rewrite (bool_decide_eq_true_2 (a_data a' = [])) by done. done.
  - destruct (stands_dispatch a' s1 H1) as (s2 & E2 & [] & _). by exists s2.
Qed.

Lemma stream_events_fold bs : exists cr cur a, fold_left byte_step (strip_bom bs) asm0 = (cr, cur, a) /\
  stream_events bs = a_out (blank_line (if bool_decide (cur = []) then a else one_line a cur)).
Proof.
  destruct (fold_lines (strip_bom bs) [] (Asm [] [] [] false [])) as [cr E]. unfold asm0, stream_events. rewrite E.
  destruct (lines [] (newlines (strip_bom bs))) as [ls last]. cbn [fst snd]. eexists _, _, _. split; [reflexivity|].
  rewrite fold_left_app. by case_bool_decide.
Qed.

(** C37: the framing layer delivers exactly the events of the stream. Read as whole
    lines (a byte order mark stripped; CR, LF and CRLF line ends; comments, unknown
    fields and ids with a NUL ignored; data lines joined), the stream has a sequence of
    events; the parser, fed byte by byte, hands over exactly these, in order, unchanged:
    an event with an over-long line, name or data is dropped whole, and nothing else
    is. *)
Theorem framing_delivers_stream_events bs :
  exists p, bind (sse_parser_feed keep_event bs) (fun _ => sse_parser_finish keep_event) (sse_parser_init, [])
    = Ok tt (p, stream_events bs).
Proof.
  destruct (parser_feed_sim bs) as (s & E & H). erewrite bind_ok by exact E.
  destruct (stream_events_fold bs) as (cr & cur & a & Ef & ->).
  destruct H as [[Hb Hs]|(Hb & Est & Hs)].
  - rewrite Ef in Hs. destruct (finish_sim cr cur a s Hs Hb) as ([p l] & E1 & E2). exists p. rewrite E1. by rewrite <- E2.
  - unfold sse_parser_finish. erewrite bind_ok by reflexivity. rewrite (proj2 (Z.ltb_lt _ 3)) by done.
    set (s0 := (set_bom 3 s.1, s.2)). assert (H0 : at_byte asm0 s0) by (by apply at_byte_bom).
    destruct (bytes_sim (take (Z.to_nat (bom s.1)) SSE_BOM) asm0 s0 H0) as (s1 & E1 & H1 & B1).
    rewrite <- Est, Ef in H1. assert (Hb1 : bom s1.1 = 3) by (by rewrite B1).
    destruct (finish_sim cr cur a s1 H1 Hb1) as ([p l] & E2 & E3). exists p. rewrite <- E3. cbn [snd]. rewrite <- E2.
    unfold sse_parser_finish. erewrite bind_ok; cycle 1.
    { unfold bom_replay. erewrite bind_ok by reflexivity. erewrite bind_ok by reflexivity. exact E1. }
    erewrite (bind_ok (gets (fun s => bom s.1))) by reflexivity. rewrite Hb1. done.
Qed.

(** A mark, a comment, a CRLF, two data lines, and no final blank line. *)
Example framing_demo : stream_events (SSE_BOM ++ lit ": hi" ++ [CR; LF] ++ lit "event: x" ++ [LF] ++ lit "data: a" ++ [CR] ++ lit "data:b")
  = [Event (lit "x") (lit "a" ++ [LF] ++ lit "b") []].
Proof. reflexivity. Qed.
