(* ===== verification/Rtc.v ===== *)
(** drivers/rtc/rtc.c: the CMOS real-time clock driver. Calendar arithmetic, the
    register decoding, the tear-free double sample and ISO 8601 formatting. C's
    integer division is [Z.quot] and [Z.rem]. *)

From S2P Require Import Prelude Bytes.

Definition RTC_OK := 0.
Definition RTC_EIO := -5.
Definition RTC_ENODEV := -19.
Definition RTC_EINVAL := -22.
Definition RTC_YEAR_MIN := 1970.
Definition RTC_YEAR_MAX := 2999.
Definition RTC_ISO8601_MAX := 21.

Definition RTC_REG_SECOND := 0x00.
Definition RTC_REG_MINUTE := 0x02.
Definition RTC_REG_HOUR := 0x04.
Definition RTC_REG_DAY := 0x07.
Definition RTC_REG_MONTH := 0x08.
Definition RTC_REG_YEAR := 0x09.
Definition RTC_REG_STATUS_A := 0x0A.
Definition RTC_REG_STATUS_B := 0x0B.
Definition RTC_REG_CENTURY := 0x32.
Definition RTC_STATUS_A_UIP := 0x80.
Definition RTC_STATUS_B_24H := 0x02.
Definition RTC_STATUS_B_BINARY := 0x04.
Definition RTC_HOUR_PM := 0x80.

Record rtc_time := RT { year : Z; month : Z; day : Z; hour : Z; minute : Z; second : Z }.

(** ** Calendar arithmetic *)

Definition rtc_is_leap_year (y : Z) : bool :=
  ((Z.rem y 4 =? 0) && negb (Z.rem y 100 =? 0)) || (Z.rem y 400 =? 0).

Definition MONTH_LEN : list Z := [31; 28; 31; 30; 31; 30; 31; 31; 30; 31; 30; 31].
Definition MONTH_START : list Z := [0; 0; 31; 59; 90; 120; 151; 181; 212; 243; 273; 304; 334].

Definition rtc_days_in_month (y m : Z) : Z :=
  if (m <? 1) || (12 <? m) then 0
  else if (m =? 2) && rtc_is_leap_year y then 29
  else nth (Z.to_nat (m - 1)) MONTH_LEN 0.

Definition rtc_time_valid (t : rtc_time) : bool :=
  if (year t <? RTC_YEAR_MIN) || (RTC_YEAR_MAX <? year t) then false
  else if (month t <? 1) || (12 <? month t) then false
  else if (hour t <? 0) || (23 <? hour t) then false
  else if (minute t <? 0) || (59 <? minute t) then false
  else if (second t <? 0) || (59 <? second t) then false
  else if (day t <? 1) || (rtc_days_in_month (year t) (month t) <? day t) then false
  else true.

Definition days_before_year (y : Z) : Z :=
  let y := y - 1 in
  y * 365 + Z.quot y 4 - Z.quot y 100 + Z.quot y 400 - 719162.

Definition days_before_month (y m : Z) : Z :=
  let d := nth (Z.to_nat m) MONTH_START 0 in
  if (2 <? m) && rtc_is_leap_year y then d + 1 else d.

Definition rtc_to_unix (t : rtc_time) : Z :=
  if negb (rtc_time_valid t) then RTC_EINVAL
  else
    let days := days_before_year (year t) + days_before_month (year t) (month t) + (day t - 1) in
    days * 86400 + hour t * 3600 + minute t * 60 + second t.

(** The year loop of rtc_from_unix: the year reached and the days left in it, or
    the early return past RTC_YEAR_MAX. *)
Fixpoint year_loop (fuel : nat) (y days : Z) : option (Z * Z) :=
  match fuel with
  | O => None
  | S fuel =>
      let len := if rtc_is_leap_year y then 366 else 365 in
      if days <? len then Some (y, days)
      else if RTC_YEAR_MAX <? y + 1 then None
      else year_loop fuel (y + 1) (days - len)
  end.

Fixpoint month_loop (fuel : nat) (y m days : Z) : option (Z * Z) :=
  match fuel with
  | O => None
  | S fuel =>
      let len := rtc_days_in_month y m in
      if days <? len then Some (m, days) else month_loop fuel y (m + 1) (days - len)
  end.

(** One round per year of the range, and one per month. *)
Definition YEAR_FUEL : nat := 1030.
Definition MONTH_FUEL : nat := 12.

Definition rtc_from_unix (ts : Z) : Z * option rtc_time :=
  if ts <? 0 then (RTC_EINVAL, None)
  else
    let days := Z.quot ts 86400 in
    let rem := Z.rem ts 86400 in
    match year_loop YEAR_FUEL RTC_YEAR_MIN days with
    | None => (RTC_EINVAL, None)
    | Some (y, days) =>
        match month_loop MONTH_FUEL y 1 days with
        | None => (RTC_EINVAL, None)
        | Some (m, days) =>
            (RTC_OK, Some (RT y m (days + 1) (Z.quot rem 3600) (Z.rem (Z.quot rem 60) 60)
                             (Z.rem rem 60)))
        end
    end.

Definition rtc_weekday (t : rtc_time) : Z :=
  let ts := rtc_to_unix t in
  if ts <? 0 then RTC_EINVAL else Z.rem (Z.quot ts 86400 + 4) 7.

(** ** Decoding the registers *)

Record cmos_snapshot := Snap {
  s_second : Z; s_minute : Z; s_hour : Z; s_day : Z; s_month : Z; s_year : Z;
  s_century : Z; s_status_b : Z }.
#[export] Instance cmos_snapshot_eq : EqDecision cmos_snapshot.
Proof. solve_decision. Defined.

Definition decode_byte (v : Z) (binary : bool) : Z :=
  if binary then v
  else if (9 <? Z.land v 0x0F) || (9 <? Z.shiftr v 4) then -1
  else Z.shiftr v 4 * 10 + Z.land v 0x0F.

(** The hour on a 24-hour clock, from the decoded 12-hour reading. *)
Definition hour_of_12 (h : Z) (pm : bool) : option Z :=
  if (h <? 1) || (12 <? h) then None
  else Some (Z.rem h 12 + if pm then 12 else 0).

Definition year_of (cent yr2 : Z) : Z :=
  if (19 <=? cent) && (cent <=? 29) then cent * 100 + yr2
  else if yr2 <? 70 then 2000 + yr2
  else 1900 + yr2.

Definition decode_snapshot (s : cmos_snapshot) : Z * option rtc_time :=
  let binary := negb (Z.land (s_status_b s) RTC_STATUS_B_BINARY =? 0) in
  let h24 := negb (Z.land (s_status_b s) RTC_STATUS_B_24H =? 0) in
  let pm := negb h24 && negb (Z.land (s_hour s) RTC_HOUR_PM =? 0) in
  let hour_raw := if h24 then s_hour s
                  else wrap8 (Z.land (s_hour s) (wrap8 (Z.lnot RTC_HOUR_PM))) in
  let sec := decode_byte (s_second s) binary in
  let min := decode_byte (s_minute s) binary in
  let hr := decode_byte hour_raw binary in
  let dy := decode_byte (s_day s) binary in
  let mon := decode_byte (s_month s) binary in
  let yr2 := decode_byte (s_year s) binary in
  let cent := decode_byte (s_century s) binary in
  if (sec <? 0) || (min <? 0) || (hr <? 0) || (dy <? 0) || (mon <? 0) || (yr2 <? 0)
  then (RTC_EINVAL, None)
  else if 99 <? yr2 then (RTC_EINVAL, None)
  else
    match (if h24 then Some hr else hour_of_12 hr pm) with
    | None => (RTC_EINVAL, None)
    | Some hr =>
        let t := RT (year_of cent yr2) mon dy hr min sec in
        if rtc_time_valid t then (RTC_OK, Some t) else (RTC_EINVAL, None)
    end.

(** ** Reading the chip *)

Definition RTC_UIP_SPINS := 1000000.
Definition RTC_UIP_WAIT_MS := 20.
Definition RTC_READ_PASSES : nat := 5.

Section Read.

(** The machine outside the driver: [cmos] is a register read through the backend
    ([g_cmos]) and [now_ms] the millisecond clock. Both let time pass. *)
Context {dev : Type} (cmos : Z -> dev -> Z * dev) (now_ms : dev -> Z * dev).

(** The [for] loop from iteration [i], [todo] iterations left. *)
Fixpoint uip_loop (todo : nat) (i start : Z) (d : dev) : bool * dev :=
  match todo with
  | O => (false, d)
  | S todo =>
      let '(a, d) := cmos RTC_REG_STATUS_A d in
      if Z.land a RTC_STATUS_A_UIP =? 0 then (true, d)
      else if Z.land i 0xFF =? 0xFF then
        let '(now, d) := now_ms d in
        if RTC_UIP_WAIT_MS <? wrap64 (now - start) then (false, d)
        else uip_loop todo (i + 1) start d
      else uip_loop todo (i + 1) start d
  end.

Definition uip_clear (d : dev) : bool * dev :=
  let '(start, d) := now_ms d in uip_loop (Z.to_nat RTC_UIP_SPINS) 0 start d.

Definition sample (d : dev) : cmos_snapshot * dev :=
  let '(b, d) := cmos RTC_REG_STATUS_B d in
  let '(sec, d) := cmos RTC_REG_SECOND d in
  let '(min, d) := cmos RTC_REG_MINUTE d in
  let '(hr, d) := cmos RTC_REG_HOUR d in
  let '(dy, d) := cmos RTC_REG_DAY d in
  let '(mon, d) := cmos RTC_REG_MONTH d in
  let '(yr, d) := cmos RTC_REG_YEAR d in
  let '(cent, d) := cmos RTC_REG_CENTURY d in
  (Snap sec min hr dy mon yr cent b, d).

Definition snapshot_eq (a b : cmos_snapshot) : bool :=
  (s_second a =? s_second b) && (s_minute a =? s_minute b) && (s_hour a =? s_hour b) &&
  (s_day a =? s_day b) && (s_month a =? s_month b) && (s_year a =? s_year b) &&
  (s_century a =? s_century b) && (s_status_b a =? s_status_b b).

(** [passes] sweeps left; [prev] is the previous sweep when [have_prev]. *)
Fixpoint read_loop (passes : nat) (prev : option cmos_snapshot) (d : dev)
  : Z * option rtc_time * dev :=
  match passes with
  | O => (RTC_EIO, None, d)
  | S passes =>
      let '(clear, d) := uip_clear d in
      if negb clear then (RTC_ENODEV, None, d)
      else
        let '(cur, d) := sample d in
        if match prev with Some p => snapshot_eq p cur | None => false end
        then (decode_snapshot cur, d)
        else read_loop passes (Some cur) d
  end.

Definition rtc_read (d : dev) : Z * option rtc_time * dev := read_loop RTC_READ_PASSES None d.

Definition rtc_unix_now (d : dev) : Z * dev :=
  let '(rc, t, d) := rtc_read d in
  match t with
  | Some t => (if negb (rc =? RTC_OK) then rc else rtc_to_unix t, d)
  | None => (rc, d)
  end.

End Read.

(** ** Formatting *)

Definition put2 (at_ v : Z) : prog bytes unit :=
  (poke at_ (ch "0" + Z.rem (Z.quot v 10) 10) ;;;
   poke (at_ + 1) (ch "0" + Z.rem v 10))%prog.

Definition rtc_format_iso8601 (t : rtc_time) (cap : Z) : prog bytes Z :=
  (if cap =? 0 then ret 0
   else if negb (rtc_time_valid t) || (cap <? RTC_ISO8601_MAX) then poke 0 0 ;;; ret 0
   else
     poke 0 (ch "0" + Z.rem (Z.quot (year t) 1000) 10) ;;;
     poke 1 (ch "0" + Z.rem (Z.quot (year t) 100) 10) ;;;
     poke 2 (ch "0" + Z.rem (Z.quot (year t) 10) 10) ;;;
     poke 3 (ch "0" + Z.rem (year t) 10) ;;;
     poke 4 (ch "-") ;;; put2 5 (month t) ;;;
     poke 7 (ch "-") ;;; put2 8 (day t) ;;;
     poke 10 (ch "T") ;;; put2 11 (hour t) ;;;
     poke 13 (ch ":") ;;; put2 14 (minute t) ;;;
     poke 16 (ch ":") ;;; put2 17 (second t) ;;;
     poke 19 (ch "Z") ;;;
     poke 20 0 ;;;
     ret 20)%prog.
