(* ===== verification/RtcProofs.v ===== *)
(** The calendar of drivers/rtc/rtc.c is the proleptic Gregorian one; register
    decoding inverts the chip's encodings; a reading is never torn. *)

From S2P Require Import Prelude Bytes Rtc.

(** ** Years and months *)

Definition year_len (y : Z) : Z := if rtc_is_leap_year y then 366 else 365.

Lemma rtc_is_leap_mod y : 0 <= y ->
  rtc_is_leap_year y = ((y mod 4 =? 0) && negb (y mod 100 =? 0)) || (y mod 400 =? 0).
Proof. intros. unfold rtc_is_leap_year. by rewrite !Z.rem_mod_nonneg by lia. Qed.

Lemma div_pred k y : 0 < k -> y / k - (y - 1) / k = if y mod k =? 0 then 1 else 0.
Proof.
  intros Hk. pose proof (Z.div_mod y k ltac:(lia)). pose proof (Z.mod_pos_bound y k Hk).
  destruct (Z.eqb_spec (y mod k) 0) as [E|E].
  - rewrite <- (Z.div_unique (y - 1) k (y / k - 1) (k - 1)); nia.
  - rewrite <- (Z.div_unique (y - 1) k (y / k) (y mod k - 1)); lia.
Qed.

Lemma days_before_year_succ y : 1 <= y ->
  days_before_year (y + 1) = days_before_year y + year_len y.
Proof.
  intros Hy. unfold days_before_year, year_len. rewrite rtc_is_leap_mod by lia.
  replace (y + 1 - 1) with y by lia. rewrite !Z.quot_div_nonneg by lia.
  pose proof (div_pred 4 y ltac:(lia)). pose proof (div_pred 100 y ltac:(lia)).
  pose proof (div_pred 400 y ltac:(lia)).
  assert (y mod 100 = 0 -> y mod 4 = 0) by (Z.div_mod_to_equations; lia).
  assert (y mod 400 = 0 -> y mod 100 = 0) by (Z.div_mod_to_equations; lia).
  destruct (Z.eqb_spec (y mod 4) 0), (Z.eqb_spec (y mod 100) 0), (Z.eqb_spec (y mod 400) 0);
    cbn [andb orb negb]; lia.
Qed.

Lemma year_len_range y : 365 <= year_len y <= 366.
Proof. unfold year_len. case_match; lia. Qed.

Lemma days_before_year_le y y' : 1 <= y <= y' -> days_before_year y + 365 * (y' - y) <= days_before_year y'.
Proof.
  intros [H1 H]. assert (exists n, y' = y + Z.of_nat n) as [n ->] by (exists (Z.to_nat (y' - y)); lia).
  clear H. induction n as [|n IH]; [rewrite Z.add_0_r; lia|].
  replace (y + Z.of_nat (S n)) with (y + Z.of_nat n + 1) by lia.
  rewrite days_before_year_succ by lia. pose proof (year_len_range (y + Z.of_nat n)). lia.
Qed.

Ltac month_cases m :=
  assert (m = 1 \/ m = 2 \/ m = 3 \/ m = 4 \/ m = 5 \/ m = 6 \/ m = 7 \/ m = 8 \/ m = 9 \/
          m = 10 \/ m = 11 \/ m = 12) as Hcases by lia;
  destruct Hcases as [->|[->|[->|[->|[->|[->|[->|[->|[->|[->|[->| ->]]]]]]]]]]].

(** The table entries, once the month is known. *)
Ltac eval_tables :=
  repeat match goal with |- context [nth ?n ?l ?d] =>
    let v := eval vm_compute in (nth n l d) in change (nth n l d) with v end;
  cbn [Z.eqb Z.ltb Z.compare Pos.eqb Pos.compare Pos.compare_cont andb orb].

Lemma days_before_month_succ y m : 1 <= m <= 11 ->
  days_before_month y (m + 1) = days_before_month y m + rtc_days_in_month y m.
Proof.
  intros Hm. unfold days_before_month, rtc_days_in_month.
  month_cases m; try lia; destruct (rtc_is_leap_year y); reflexivity.
Qed.

Lemma days_in_month_range y m : 1 <= m <= 12 -> 28 <= rtc_days_in_month y m <= 31.
Proof.
  intros Hm. unfold rtc_days_in_month. month_cases m; eval_tables; destruct (rtc_is_leap_year y); lia.
Qed.

Lemma days_before_month_1 y : days_before_month y 1 = 0.
Proof. done. Qed.

Lemma year_len_months y : days_before_month y 12 + rtc_days_in_month y 12 = year_len y.
Proof. unfold days_before_month, rtc_days_in_month, year_len. cbn. by destruct (rtc_is_leap_year y). Qed.

Lemma days_before_month_range y m : 1 <= m <= 12 ->
  0 <= days_before_month y m /\ days_before_month y m + rtc_days_in_month y m <= year_len y.
Proof.
  intros Hm. unfold days_before_month, rtc_days_in_month, year_len.
  month_cases m; eval_tables; destruct (rtc_is_leap_year y); lia.
Qed.

Lemma days_before_month_le y m m' : 1 <= m <= m' -> m' <= 12 ->
  days_before_month y m <= days_before_month y m'.
Proof.
  intros Hm Hm'. assert (1 <= m' <= 12) as H by lia. clear Hm'. unfold days_before_month.
  month_cases m'; month_cases m; try lia; eval_tables; destruct (rtc_is_leap_year y); lia.
Qed.

(** ** The loops of rtc_from_unix *)

Lemma year_loop_spec y r : 0 <= r < year_len y -> y <= RTC_YEAR_MAX -> forall fuel y0 days,
  1 <= y0 <= y -> (Z.to_nat (y - y0) < fuel)%nat ->
  days = days_before_year y - days_before_year y0 + r ->
  year_loop fuel y0 days = Some (y, r).
Proof.
  intros Hr Hy fuel. induction fuel as [|fuel IH]; intros y0 days H0 Hf ->; [lia|].
  cbn [year_loop]. fold (year_len y0). destruct (decide (y0 = y)) as [->|Hne].
  - rewrite (proj2 (Z.ltb_lt _ _)) by lia. do 2 f_equal. lia.
  - pose proof (days_before_year_le (y0 + 1) y ltac:(lia)).
    rewrite days_before_year_succ in H by lia.
    rewrite (proj2 (Z.ltb_ge _ _)) by lia.
    unfold RTC_YEAR_MAX in *. rewrite (proj2 (Z.ltb_ge _ _)) by lia.
    apply IH; [lia | lia |]. rewrite days_before_year_succ by lia. lia.
Qed.

Lemma year_loop_past fuel : forall y0 days,
  1 <= y0 <= RTC_YEAR_MAX ->
  days_before_year (RTC_YEAR_MAX + 1) - days_before_year y0 <= days ->
  year_loop fuel y0 days = None.
Proof.
  induction fuel as [|fuel IH]; intros y0 days H0 Hd; [done|]. cbn [year_loop]. fold (year_len y0).
  unfold RTC_YEAR_MAX in *.
  pose proof (days_before_year_le (y0 + 1) 3000 ltac:(lia)) as H.
  pose proof (days_before_year_succ y0 ltac:(lia)).
  change (2999 + 1) with 3000 in *.
  rewrite (proj2 (Z.ltb_ge _ _)) by lia. destruct (Z.ltb_spec 2999 (y0 + 1)); [done|].
  apply IH; lia.
Qed.

Lemma month_loop_spec y m r : 1 <= m <= 12 -> 0 <= r < rtc_days_in_month y m ->
  forall fuel m0 days, 1 <= m0 <= m -> (Z.to_nat (m - m0) < fuel)%nat ->
  days = days_before_month y m - days_before_month y m0 + r ->
  month_loop fuel y m0 days = Some (m, r).
Proof.
  intros Hm Hr fuel. induction fuel as [|fuel IH]; intros m0 days H0 Hf ->; [lia|].
  cbn [month_loop]. destruct (decide (m0 = m)) as [->|Hne].
  - rewrite (proj2 (Z.ltb_lt _ _)) by lia. do 2 f_equal. lia.
  - pose proof (days_before_month_succ y m0 ltac:(lia)).
    pose proof (days_before_month_le y (m0 + 1) m ltac:(lia) ltac:(lia)).
    rewrite (proj2 (Z.ltb_ge _ _)) by lia. apply IH; lia.
Qed.

(** Every day of a year is a day of one of its months. *)
Lemma month_split y r : 0 <= r < year_len y ->
  exists m d, 1 <= m <= 12 /\ 0 <= d < rtc_days_in_month y m /\ r = days_before_month y m + d.
Proof.
  intros Hr. pose proof (year_len_months y) as Hl.
  assert (exists m, 1 <= m <= 12 /\ days_before_month y m <= r < days_before_month y m + rtc_days_in_month y m)
    as (m & Hm & ?); [|exists m, (r - days_before_month y m); split_and!; lia].
  assert (H : forall n : nat, (n <= 11)%nat -> r < days_before_month y (Z.of_nat n + 1) + rtc_days_in_month y (Z.of_nat n + 1) ->
    exists m, 1 <= m <= 12 /\ days_before_month y m <= r < days_before_month y m + rtc_days_in_month y m).
  { induction n as [|n IH]; intros Hn Hlt.
    - exists 1. change (Z.of_nat 0 + 1) with 1 in Hlt. rewrite days_before_month_1 in *. lia.
    - destruct (Z.le_gt_cases (days_before_month y (Z.of_nat (S n) + 1)) r) as [Hge|Hlt'].
      + exists (Z.of_nat (S n) + 1). split; [lia|]. done.
      + apply IH; [lia|]. rewrite <- days_before_month_succ by lia.
        replace (Z.of_nat n + 1 + 1) with (Z.of_nat (S n) + 1) by lia. done. }
  apply (H 11%nat); [lia|]. change (Z.of_nat 11 + 1) with 12. lia.
Qed.

Lemma year_split days : 0 <= days < days_before_year (RTC_YEAR_MAX + 1) ->
  exists y r, RTC_YEAR_MIN <= y <= RTC_YEAR_MAX /\ 0 <= r < year_len y /\ days = days_before_year y + r.
Proof.
  intros Hd. assert (H : forall n : nat, days < days_before_year (1970 + Z.of_nat n) ->
    exists y, 1970 <= y < 1970 + Z.of_nat n /\ days_before_year y <= days < days_before_year (y + 1)).
  { induction n as [|n IH]; intros Hlt.
    - exfalso. rewrite Z.add_0_r in Hlt. change (days_before_year 1970) with 0 in Hlt. lia.
    - destruct (Z.le_gt_cases (days_before_year (1970 + Z.of_nat n)) days).
      + exists (1970 + Z.of_nat n).
        replace (1970 + Z.of_nat n + 1) with (1970 + Z.of_nat (S n)) by lia. lia.
      + destruct IH as (y & ? & ?); [done|]. exists y. lia. }
  destruct (H 1030%nat) as (y & Hy & Hr).
  { replace (1970 + Z.of_nat 1030) with 3000 by lia. apply Hd. }
  rewrite days_before_year_succ in Hr by lia.
  exists y, (days - days_before_year y). unfold RTC_YEAR_MIN, RTC_YEAR_MAX. lia.
Qed.

(** ** Valid times and timestamps *)

Definition valid (t : rtc_time) : Prop :=
  RTC_YEAR_MIN <= year t <= RTC_YEAR_MAX /\ 1 <= month t <= 12 /\ 0 <= hour t <= 23 /\
  0 <= minute t <= 59 /\ 0 <= second t <= 59 /\
  1 <= day t <= rtc_days_in_month (year t) (month t).

Lemma rtc_time_valid_iff t : rtc_time_valid t = true <-> valid t.
Proof.
  unfold rtc_time_valid, valid. split.
  - intros H. repeat (case_match; [done|]). b2p. lia.
  - intros H. repeat (case_match; b2p; [lia|]). done.
Qed.

(** The day number counted from the epoch, and the second of the day. *)
Definition day_number (t : rtc_time) : Z :=
  days_before_year (year t) + days_before_month (year t) (month t) + (day t - 1).
Definition day_second (t : rtc_time) : Z := hour t * 3600 + minute t * 60 + second t.

Lemma rtc_to_unix_valid t : valid t -> rtc_to_unix t = day_number t * 86400 + day_second t.
Proof.
  intros H%rtc_time_valid_iff. unfold rtc_to_unix, day_number, day_second. rewrite H. cbn. lia.
Qed.

Lemma day_second_range t : valid t -> 0 <= day_second t < 86400.
Proof. unfold valid, day_second. lia. Qed.

(** The first second past the range. *)
Definition UNIX_END : Z := days_before_year (RTC_YEAR_MAX + 1) * 86400.

Lemma day_number_range t : valid t -> 0 <= day_number t < days_before_year (RTC_YEAR_MAX + 1).
Proof.
  unfold valid, day_number, RTC_YEAR_MIN, RTC_YEAR_MAX. intros (Hy & Hm & _ & _ & _ & Hd).
  destruct (days_before_month_range (year t) (month t) Hm) as [? ?].
  pose proof (days_before_year_le 1970 (year t) ltac:(lia)).
  pose proof (days_before_year_le (year t + 1) 3000 ltac:(lia)) as Hend.
  rewrite days_before_year_succ in Hend by lia. change (days_before_year 1970) with 0 in *.
  change (2999 + 1) with 3000. lia.
Qed.

Lemma rtc_to_unix_range t : valid t -> 0 <= rtc_to_unix t < UNIX_END.
Proof.
  intros H. rewrite rtc_to_unix_valid by done. pose proof (day_second_range t H).
  pose proof (day_number_range t H). unfold UNIX_END. lia.
Qed.

Lemma time_split r : 0 <= r < 86400 ->
  r = Z.quot r 3600 * 3600 + Z.rem (Z.quot r 60) 60 * 60 + Z.rem r 60 /\
  0 <= Z.quot r 3600 <= 23 /\ 0 <= Z.rem (Z.quot r 60) 60 <= 59 /\ 0 <= Z.rem r 60 <= 59.
Proof.
  intros Hr. rewrite !Z.quot_div_nonneg, !Z.rem_mod_nonneg by (try lia; apply Z.div_pos; lia).
  Z.div_mod_to_equations. lia.
Qed.

Lemma time_join t : valid t ->
  Z.quot (day_second t) 3600 = hour t /\ Z.rem (Z.quot (day_second t) 60) 60 = minute t /\
  Z.rem (day_second t) 60 = second t.
Proof.
  intros H. pose proof (day_second_range t H).
  destruct (time_split (day_second t) ltac:(lia)) as (E & ? & ? & ?).
  destruct H as (_ & _ & ? & ? & ? & _). unfold day_second in *. lia.
Qed.

(** rtc_from_unix on the day and second of a valid time gives it back. *)
Lemma rtc_from_unix_at t : valid t -> rtc_from_unix (rtc_to_unix t) = (RTC_OK, Some t).
Proof.
  intros H. pose proof (rtc_to_unix_range t H) as Hr. pose proof (day_second_range t H).
  unfold rtc_from_unix. rewrite (proj2 (Z.ltb_ge _ _)) by lia.
  rewrite rtc_to_unix_valid in * by done.
  set (n := day_number t) in *. set (s := day_second t) in *.
  assert (Z.quot (n * 86400 + s) 86400 = n /\ Z.rem (n * 86400 + s) 86400 = s) as [-> ->].
  { rewrite Z.quot_div_nonneg, Z.rem_mod_nonneg by lia. Z.div_mod_to_equations. lia. }
  pose proof H as (Hy & Hm & _ & _ & _ & Hd). unfold RTC_YEAR_MIN, RTC_YEAR_MAX in *.
  destruct (days_before_month_range (year t) (month t) Hm) as [? ?].
  rewrite (year_loop_spec (year t) (days_before_month (year t) (month t) + (day t - 1)));
    [|lia|unfold RTC_YEAR_MAX; lia|lia|unfold YEAR_FUEL; lia|subst n; unfold day_number; change (days_before_year 1970) with 0; lia].
  rewrite (month_loop_spec _ (month t) (day t - 1));
    [|lia|lia|lia|unfold MONTH_FUEL; lia|rewrite days_before_month_1; lia].
  subst s. destruct (time_join t H) as (-> & -> & ->). destruct t. cbn. repeat f_equal. lia.
Qed.

(** Every second of the range is the timestamp of a valid time. *)
Lemma unix_surjective ts : 0 <= ts < UNIX_END -> exists t, valid t /\ rtc_to_unix t = ts.
Proof.
  intros Hts. unfold UNIX_END in Hts.
  pose proof (Z.div_mod ts 86400 ltac:(lia)). pose proof (Z.mod_pos_bound ts 86400 ltac:(lia)).
  destruct (year_split (ts / 86400)) as (y & r & Hy & Hr & Er).
  { split; [apply Z.div_pos; lia|]. apply Z.div_lt_upper_bound; lia. }
  destruct (month_split y r Hr) as (m & d & Hm & Hd & ->).
  destruct (time_split (ts mod 86400)) as (Es & ? & ? & ?); [lia|].
  set (t := RT y m (d + 1) (Z.quot (ts mod 86400) 3600) (Z.rem (Z.quot (ts mod 86400) 60) 60)
              (Z.rem (ts mod 86400) 60)).
  assert (valid t) as Hv by (unfold valid; cbn; lia).
  exists t. split; [done|]. rewrite rtc_to_unix_valid by done.
  unfold day_number, day_second. cbn [year month day hour minute second t]. lia.
Qed.

Lemma rtc_from_unix_past ts : UNIX_END <= ts -> rtc_from_unix ts = (RTC_EINVAL, None).
Proof.
  unfold UNIX_END. intros H. assert (0 <= ts).
  { pose proof (days_before_year_le 1970 3000 ltac:(lia)) as H0.
    change (days_before_year 1970) with 0 in H0. change (RTC_YEAR_MAX + 1) with 3000 in H. lia. }
  unfold rtc_from_unix. rewrite (proj2 (Z.ltb_ge _ _)) by lia.
  rewrite Z.quot_div_nonneg by lia. rewrite year_loop_past; [done | unfold RTC_YEAR_MIN, RTC_YEAR_MAX; lia |].
  change (days_before_year RTC_YEAR_MIN) with 0. rewrite Z.sub_0_r.
  apply Z.div_le_lower_bound; lia.
Qed.

(** ** The calendar as a clock: one tick at a time *)

(** The next second, by carrying into minutes, hours, days, months and years. *)
Definition tick (t : rtc_time) : rtc_time :=
  let '(RT y m d h mi s) := t in
  if s <? 59 then RT y m d h mi (s + 1)
  else if mi <? 59 then RT y m d h (mi + 1) 0
  else if h <? 23 then RT y m d (h + 1) 0 0
  else if d <? rtc_days_in_month y m then RT y m (d + 1) 0 0 0
  else if m <? 12 then RT y (m + 1) 1 0 0 0
  else RT (y + 1) 1 1 0 0 0.

Definition epoch : rtc_time := RT 1970 1 1 0 0 0.
Definition last_second : rtc_time := RT 2999 12 31 23 59 59.

Lemma tick_valid t : valid t -> t <> last_second -> valid (tick t).
Proof.
  destruct t as [y m d h mi s]. unfold valid, RTC_YEAR_MIN, RTC_YEAR_MAX. cbn.
  intros (Hy & Hm & Hh & Hmi & Hs & Hd) Hne.
  pose proof (days_in_month_range y (m + 1)). pose proof (days_in_month_range (y + 1) 1 ltac:(lia)).
  repeat case_match; b2p; cbn [year month day hour minute second]; split_and!; try lia.
  destruct (decide (y = 2999)) as [->|]; [|lia].
  exfalso. apply Hne. assert (m = 12) as -> by lia.
  change (rtc_days_in_month 2999 12) with 31 in *. unfold last_second. f_equal; lia.
Qed.

Lemma tick_unix t : valid t -> valid (tick t) -> rtc_to_unix (tick t) = rtc_to_unix t + 1.
Proof.
  intros Hv Hv'. rewrite !rtc_to_unix_valid by done. clear Hv'.
  destruct t as [y m d h mi s]. destruct Hv as (Hy & Hm & Hh & Hmi & Hs & Hd).
  cbn in Hy, Hm, Hh, Hmi, Hs, Hd. unfold tick, day_number, day_second, RTC_YEAR_MIN in *.
  repeat case_match; b2p; cbn [year month day hour minute second]; try lia.
  - rewrite days_before_month_succ by lia. lia.
  - assert (m = 12) as -> by lia. rewrite days_before_year_succ, days_before_month_1 by lia.
    pose proof (year_len_months y). lia.
Qed.

(** ** The chip's encodings *)

(** How the MC146818 shows a time, in each of its modes: [binary] or BCD, [h24] or
    12-hour with the PM flag. *)
Definition encode_byte (binary : bool) (v : Z) : Z := if binary then v else v / 10 * 16 + v mod 10.

Definition encode_hour (binary h24 : bool) (h : Z) : Z :=
  if h24 then encode_byte binary h
  else encode_byte binary (if h mod 12 =? 0 then 12 else h mod 12) + if 12 <=? h then 128 else 0.

Definition encode (binary h24 : bool) (t : rtc_time) : cmos_snapshot :=
  Snap (encode_byte binary (second t)) (encode_byte binary (minute t))
       (encode_hour binary h24 (hour t)) (encode_byte binary (day t))
       (encode_byte binary (month t)) (encode_byte binary (year t mod 100))
       (encode_byte binary (year t / 100))
       ((if h24 then RTC_STATUS_B_24H else 0) + (if binary then RTC_STATUS_B_BINARY else 0)).

Lemma forall_below (P : Z -> bool) (n : nat) :
  forallb (fun k => P (Z.of_nat k)) (seq 0 n) = true -> forall v, 0 <= v < Z.of_nat n -> P v = true.
Proof.
  intros H v Hv. rewrite forallb_forall in H. specialize (H (Z.to_nat v)).
  rewrite Z2Nat.id in H by lia. apply H, in_seq. lia.
Qed.

Lemma decode_encode_byte binary v : 0 <= v < 100 -> decode_byte (encode_byte binary v) binary = v.
Proof.
  intros Hv. apply Z.eqb_eq. revert v Hv.
  apply (forall_below (fun v => decode_byte (encode_byte binary v) binary =? v) 100).
  destruct binary; vm_compute; reflexivity.
Qed.

(** The two branches of the hour register at once. *)
Definition hour_back (binary h24 : bool) (h : Z) : bool :=
  let raw := encode_hour binary h24 h in
  let pm := negb h24 && negb (Z.land raw RTC_HOUR_PM =? 0) in
  let hr := decode_byte (if h24 then raw else wrap8 (Z.land raw (wrap8 (Z.lnot RTC_HOUR_PM)))) binary in
  (0 <=? hr) && bool_decide ((if h24 then Some hr else hour_of_12 hr pm) = Some h).

Lemma hour_back_ok binary h24 h : 0 <= h <= 23 -> hour_back binary h24 h = true.
Proof.
  intros Hh. apply (forall_below (hour_back binary h24) 24); [|lia].
  destruct binary, h24; vm_compute; reflexivity.
Qed.

Lemma decode_encode binary h24 t : valid t ->
  decode_snapshot (encode binary h24 t) = (RTC_OK, Some t).
Proof.
  intros Hv. pose proof Hv as (Hy & Hm & Hh & Hmi & Hs & Hd).
  pose proof (days_in_month_range (year t) (month t) Hm). unfold RTC_YEAR_MIN, RTC_YEAR_MAX in *.
  assert (0 <= year t mod 100 < 100 /\ 19 <= year t / 100 <= 29 /\
          year t = year t / 100 * 100 + year t mod 100) as (H1 & H2 & H3)
    by (Z.div_mod_to_equations; lia).
  pose proof (hour_back_ok binary h24 (hour t) Hh) as Hb. unfold hour_back in Hb. b2p.
  case_bool_decide as Eh; [|done].
  unfold decode_snapshot. cbn [encode s_second s_minute s_hour s_day s_month s_year s_century s_status_b].
  replace (negb (Z.land ((if h24 then RTC_STATUS_B_24H else 0) + (if binary then RTC_STATUS_B_BINARY else 0))
             RTC_STATUS_B_BINARY =? 0)) with binary by (by destruct binary, h24).
  replace (negb (Z.land ((if h24 then RTC_STATUS_B_24H else 0) + (if binary then RTC_STATUS_B_BINARY else 0))
             RTC_STATUS_B_24H =? 0)) with h24 by (by destruct binary, h24).
  rewrite !decode_encode_byte by lia. cbv zeta.
  rewrite !(proj2 (Z.ltb_ge _ _)) by lia. cbn [orb]. rewrite Eh.
  unfold year_of. rewrite !(proj2 (Z.leb_le _ _)) by lia. cbn [andb].
  replace (RT _ _ _ _ _ _) with t by (destruct t; cbn in *; f_equal; lia).
  by rewrite (proj2 (rtc_time_valid_iff t) Hv).
Qed.

Lemma decode_valid s rc t : decode_snapshot s = (rc, Some t) -> rc = RTC_OK /\ valid t.
Proof.
  unfold decode_snapshot. cbv zeta. set (h := if negb (Z.land _ RTC_STATUS_B_24H =? 0) then Some _ else _).
  destruct (_ || _); [done|]. destruct (99 <? _); [done|]. destruct h; [|done].
  destruct (rtc_time_valid _) eqn:E; [|done]. intros [= <- <-].
  split; [done|]. by apply rtc_time_valid_iff.
Qed.
