(* ===== verification/RtcRead.v ===== *)
(** rtc_read against a chip whose time moves while it is being read, and the
    claims about the clock driver. *)

From S2P Require Import Prelude Bytes Rtc RtcProofs.

(** ** What the hardware promises *)

(** The calendar time at second [c] of the Unix era. *)
Definition civil (c : Z) : rtc_time := default epoch (rtc_from_unix c).2.

Definition register (s : cmos_snapshot) (r : Z) : Z :=
  if r =? RTC_REG_SECOND then s_second s
  else if r =? RTC_REG_MINUTE then s_minute s
  else if r =? RTC_REG_HOUR then s_hour s
  else if r =? RTC_REG_DAY then s_day s
  else if r =? RTC_REG_MONTH then s_month s
  else if r =? RTC_REG_YEAR then s_year s
  else if r =? RTC_REG_CENTURY then s_century s
  else s_status_b s.

(** The MC146818 as include/rtc.h describes it: it keeps a time in seconds that
    never runs backwards, whatever is read; each calendar register shows its field of
    the time at the moment it is read; the encoding does not change. Nothing is said
    of status A. *)
Class Chip {dev : Type} (cmos : Z -> dev -> Z * dev) (now_ms : dev -> Z * dev) := {
  clock : dev -> Z;
  binary : bool;
  h24 : bool;
  clock_range d : 0 <= clock d < UNIX_END;
  cmos_forward r d : clock d <= clock (cmos r d).2;
  millis_forward d : clock d <= clock (now_ms d).2;
  cmos_shows r d : r <> RTC_REG_STATUS_A ->
    (cmos r d).1 = register (encode binary h24 (civil (clock d))) r }.

Section Sampling.

Context {dev : Type} {cmos : Z -> dev -> Z * dev} {now_ms : dev -> Z * dev}.
Context {chip : Chip cmos now_ms}.

Abbreviation clk := (@clock dev cmos now_ms chip).
Abbreviation shown c := (encode (@binary dev cmos now_ms chip) (@h24 dev cmos now_ms chip) (civil c)).

Lemma civil_valid c : 0 <= c < UNIX_END -> valid (civil c) /\ rtc_to_unix (civil c) = c.
Proof.
  intros Hc. destruct (unix_surjective c Hc) as (t & Hv & <-).
  unfold civil. by rewrite rtc_from_unix_at.
Qed.

Lemma uip_loop_forward todo : forall i start d,
  clk d <= clk (uip_loop cmos now_ms todo i start d).2.
Proof.
  induction todo as [|todo IH]; intros i start d; cbn [uip_loop]; [done|].
  pose proof (cmos_forward RTC_REG_STATUS_A d) as H1. destruct (cmos _ d) as [a d1]. cbn in H1.
  destruct (_ =? 0); [done|]. destruct (_ =? 255).
  - pose proof (millis_forward d1) as H2. destruct (now_ms d1) as [m d2]. cbn in H2.
    destruct (_ <? _); cbn [snd]; [lia|]. specialize (IH (i + 1) start d2). lia.
  - specialize (IH (i + 1) start d1). lia.
Qed.

Lemma uip_clear_forward d : clk d <= clk (uip_clear cmos now_ms d).2.
Proof.
  unfold uip_clear. pose proof (millis_forward d) as H1. destruct (now_ms d) as [m d1]. cbn in H1.
  pose proof (uip_loop_forward (Z.to_nat RTC_UIP_SPINS) 0 m d1). lia.
Qed.

(** A sweep between the instants [lo] and [hi]: the seconds were read first of the
    calendar fields, at [c], and every other field no earlier. *)
Definition swept (s : cmos_snapshot) (lo c hi : Z) : Prop :=
  lo <= c <= hi /\ s_second s = s_second (shown c) /\
  (c = hi -> s = shown c).

Lemma sample_swept d : exists c, swept (sample cmos d).1 (clk d) c (clk (sample cmos d).2).
Proof.
  unfold sample.
  pose proof (cmos_forward RTC_REG_STATUS_B d) as F0.
  pose proof (cmos_shows RTC_REG_STATUS_B d ltac:(done)) as V0. destruct (cmos _ d) as [b d0].
  pose proof (cmos_forward RTC_REG_SECOND d0) as F1.
  pose proof (cmos_shows RTC_REG_SECOND d0 ltac:(done)) as V1. destruct (cmos _ d0) as [sec d1].
  pose proof (cmos_forward RTC_REG_MINUTE d1) as F2.
  pose proof (cmos_shows RTC_REG_MINUTE d1 ltac:(done)) as V2. destruct (cmos _ d1) as [min d2].
  pose proof (cmos_forward RTC_REG_HOUR d2) as F3.
  pose proof (cmos_shows RTC_REG_HOUR d2 ltac:(done)) as V3. destruct (cmos _ d2) as [hr d3].
  pose proof (cmos_forward RTC_REG_DAY d3) as F4.
  pose proof (cmos_shows RTC_REG_DAY d3 ltac:(done)) as V4. destruct (cmos _ d3) as [dy d4].
  pose proof (cmos_forward RTC_REG_MONTH d4) as F5.
  pose proof (cmos_shows RTC_REG_MONTH d4 ltac:(done)) as V5. destruct (cmos _ d4) as [mon d5].
  pose proof (cmos_forward RTC_REG_YEAR d5) as F6.
  pose proof (cmos_shows RTC_REG_YEAR d5 ltac:(done)) as V6. destruct (cmos _ d5) as [yr d6].
  pose proof (cmos_forward RTC_REG_CENTURY d6) as F7.
  pose proof (cmos_shows RTC_REG_CENTURY d6 ltac:(done)) as V7. destruct (cmos _ d6) as [cent d7].
  cbn [fst snd] in *. cbn in V0, V1, V2, V3, V4, V5, V6, V7.
  exists (clk d0). split_and!; [lia | lia | by rewrite V1 |]. intros Heq.
  assert (clk d1 = clk d0) as E1 by lia. assert (clk d2 = clk d0) as E2 by lia.
  assert (clk d3 = clk d0) as E3 by lia. assert (clk d4 = clk d0) as E4 by lia.
  assert (clk d5 = clk d0) as E5 by lia. assert (clk d6 = clk d0) as E6 by lia.
  rewrite E1 in V2. rewrite E2 in V3. rewrite E3 in V4. rewrite E4 in V5. rewrite E5 in V6.
  rewrite E6 in V7. rewrite V0, V1, V2, V3, V4, V5, V6, V7. reflexivity.
Qed.

Lemma shown_second c : 0 <= c < UNIX_END ->
  decode_byte (s_second (shown c)) (@binary dev cmos now_ms chip) = c mod 60.
Proof.
  intros Hc. destruct (civil_valid c Hc) as [Hv E]. cbn [encode s_second].
  pose proof Hv as (_ & _ & ? & ? & ? & _).
  rewrite decode_encode_byte by lia. rewrite rtc_to_unix_valid in E by done.
  unfold day_second in E. Z.div_mod_to_equations. lia.
Qed.

Lemma snapshot_eq_true a b : snapshot_eq a b = true -> a = b.
Proof.
  unfold snapshot_eq. destruct a, b. cbn. intros H. b2p. congruence.
Qed.
Lemma snapshot_eq_refl a : snapshot_eq a a = true.
Proof. unfold snapshot_eq. by rewrite !Z.eqb_refl. Qed.

(** Two equal sweeps less than a minute apart were both taken within one second. *)
Lemma equal_sweeps s lo c hi lo' c' hi' :
  swept s lo c hi -> swept s lo' c' hi' -> hi <= lo' -> c' < c + 60 ->
  0 <= c -> c' < UNIX_END -> s = shown c.
Proof.
  intros (Hc & Hs & Hall) (Hc' & Hs' & _) Hle H60 H0 Hend.
  assert (c mod 60 = c' mod 60) as E.
  { rewrite <- (shown_second c), <- (shown_second c') by lia. congruence. }
  assert (c' = c) by (Z.div_mod_to_equations; lia). apply Hall. lia.
Qed.

Lemma read_loop_not_torn c0 passes : forall prev d rc t d',
  match prev with
  | Some p => exists lo c hi, swept p lo c hi /\ c0 <= lo /\ hi <= clk d
  | None => True
  end ->
  0 <= c0 <= clk d ->
  read_loop cmos now_ms passes prev d = (rc, Some t, d') -> clk d' < c0 + 60 ->
  exists c, c0 <= c <= clk d' /\ rc = RTC_OK /\ t = civil c.
Proof.
  induction passes as [|passes IH]; intros prev d rc t d' Hprev Hd; cbn [read_loop]; [done|].
  pose proof (uip_clear_forward d) as F1. destruct (uip_clear cmos now_ms d) as [ok d1]. cbn in F1.
  destruct (negb ok); [done|].
  destruct (sample_swept d1) as [c' Hc']. destruct (sample cmos d1) as [cur d2]. cbn in Hc'.
  set (stop := match prev with Some p => _ | None => _ end). destruct stop eqn:Es.
  - intros [= Ed <-] H60. subst stop. destruct prev as [p|]; [|done].
    apply snapshot_eq_true in Es as ->. destruct Hprev as (lo & c & hi & Hsw & Hlo & Hhi).
    pose proof Hsw as (? & _ & _). pose proof Hc' as (? & _ & _).
    pose proof (clock_range d2) as Hr.
    pose proof (equal_sweeps _ _ _ _ _ _ _ Hsw Hc' ltac:(lia) ltac:(lia) ltac:(lia) ltac:(lia)) as ->.
    destruct (civil_valid c ltac:(lia)) as [Hv _]. rewrite decode_encode in Ed by done.
    injection Ed as <- <-. exists c. split; [lia | done].
  - intros E H60. eapply (IH (Some cur) d2); [|destruct Hc' as (? & _ & _); lia | exact E | done].
    exists (clk d1), c', (clk d2). split; [done | lia].
Qed.

(** ** Enough passes *)

(** While status A says no update is in progress, the wait is over at once. *)
Hypothesis quiet : forall d, Z.land (cmos RTC_REG_STATUS_A d).1 RTC_STATUS_A_UIP = 0.

Lemma uip_clear_quiet d : (uip_clear cmos now_ms d).1 = true.
Proof using quiet.
  unfold uip_clear. destruct (now_ms d) as [m d1]. unfold RTC_UIP_SPINS.
  destruct (Z.to_nat 1000000) as [|n] eqn:En; [lia|]. cbn [uip_loop].
  pose proof (quiet d1) as Hq. destruct (cmos RTC_REG_STATUS_A d1) as [a d2]. cbn in Hq.
  by rewrite Hq.
Qed.

(** [c] is as far as the clock gets. *)
Section Last.
Variable c : Z.
Hypothesis latest : forall d, clk d <= c.

Lemma sample_latest d : clk d = c -> sample cmos d = (shown c, (sample cmos d).2) /\ clk (sample cmos d).2 = c.
Proof using latest.
  intros Hd. destruct (sample_swept d) as [c' (Hr & _ & Hall)].
  pose proof (latest (sample cmos d).2). split; [|lia].
  destruct (sample cmos d) as [s d']. cbn in *. f_equal.
  rewrite Hall by lia. f_equal. f_equal. lia.
Qed.

Lemma decode_shown d : clk d = c -> decode_snapshot (shown c) = (RTC_OK, Some (civil c)).
Proof using.
  intros Hd. apply decode_encode, civil_valid. rewrite <- Hd. apply clock_range.
Qed.

Lemma read_loop_latest n prev d : clk d = c ->
  exists d', read_loop cmos now_ms (S (S n)) prev d = (RTC_OK, Some (civil c), d').
Proof using quiet latest.
  intros Hd. cbn [read_loop].
  pose proof (uip_clear_forward d) as F1. pose proof (uip_clear_quiet d) as Q1.
  destruct (uip_clear cmos now_ms d) as [ok d1]. cbn in F1, Q1. subst ok. cbn [negb].
  pose proof (latest d1). destruct (sample_latest d1 ltac:(lia)) as [-> E2].
  set (d2 := (sample cmos d1).2) in *. clearbody d2. cbn [snd] in E2.
  destruct (match prev with Some p => _ | None => _ end).
  { exists d2. by rewrite (decode_shown d). }
  pose proof (uip_clear_forward d2) as F3. pose proof (uip_clear_quiet d2) as Q3.
  destruct (uip_clear cmos now_ms d2) as [ok d3]. cbn in F3, Q3. subst ok. cbn [negb].
  pose proof (latest d3). destruct (sample_latest d3 ltac:(lia)) as [-> _].
  rewrite snapshot_eq_refl, (decode_shown d) by done. eexists. reflexivity.
Qed.
End Last.

(** One pass. *)
Lemma read_loop_S n prev d :
  read_loop cmos now_ms (S n) prev d =
  let '(clear, d) := uip_clear cmos now_ms d in
  if negb clear then (RTC_ENODEV, None, d)
  else
    let '(cur, d) := sample cmos d in
    if match prev with Some p => snapshot_eq p cur | None => false end
    then (decode_snapshot cur, d)
    else read_loop cmos now_ms n (Some cur) d.
Proof using. reflexivity. Qed.

(** The clock ticks at most once while the chip is being read. *)
Lemma read_one_tick c d : (forall d', c <= clk d' <= c + 1) ->
  exists t d', rtc_read cmos now_ms d = (RTC_OK, Some t, d').
Proof using quiet.
  intros Hc. unfold rtc_read, RTC_READ_PASSES.
  assert (Hlast : forall d, clk d <= c + 1) by (intros; apply Hc).
  destruct (decide (clk d = c + 1)) as [E|E].
  { destruct (read_loop_latest (c + 1) Hlast 3 None d E) as [d' ->]. eauto. }
  rewrite read_loop_S. pose proof (uip_clear_quiet d) as Q1.
  destruct (uip_clear cmos now_ms d) as [ok d1]. cbn in Q1. subst ok. cbn [negb].
  destruct (sample_swept d1) as [c1 (R1 & _ & A1)]. destruct (sample cmos d1) as [s1 d2]. cbn in R1, A1.
  destruct (decide (clk d2 = c + 1)) as [E2|E2].
  { destruct (read_loop_latest (c + 1) Hlast 2 (Some s1) d2 E2) as [d' ->]. eauto. }
  pose proof (Hc d1). pose proof (Hc d2). rewrite (A1 ltac:(lia)). clear s1 A1.
  assert (Hd : decode_snapshot (shown c1) = (RTC_OK, Some (civil c1))).
  { apply decode_encode, civil_valid. pose proof (clock_range d1). pose proof (clock_range d2). lia. }
  rewrite read_loop_S. pose proof (uip_clear_quiet d2) as Q3.
  destruct (uip_clear cmos now_ms d2) as [ok d3]. cbn in Q3. subst ok. cbn [negb].
  destruct (sample_swept d3) as [c3 (R3 & _ & A3)]. destruct (sample cmos d3) as [s3 d4]. cbn in R3, A3.
  destruct (snapshot_eq (shown c1) s3) eqn:Es.
  { apply snapshot_eq_true in Es as <-. rewrite Hd. eauto. }
  destruct (decide (clk d4 = c + 1)) as [E4|E4].
  { destruct (read_loop_latest (c + 1) Hlast 1 (Some s3) d4 E4) as [d' ->]. eauto. }
  pose proof (Hc d3). pose proof (Hc d4). rewrite (A3 ltac:(lia)) in Es.
  replace c3 with c1 in Es by lia. by rewrite snapshot_eq_refl in Es.
Qed.
End Sampling.

(** ** ISO 8601 *)

Definition digit2 (v : Z) : bytes := [ch "0" + (v / 10) mod 10; ch "0" + v mod 10].

(** The text of include/rtc.h: YYYY-MM-DDTHH:MM:SSZ. *)
Definition iso_text (t : rtc_time) : bytes :=
  digit2 (year t / 100) ++ digit2 (year t) ++ [ch "-"] ++ digit2 (month t) ++ [ch "-"] ++
  digit2 (day t) ++ [ch "T"] ++ digit2 (hour t) ++ [ch ":"] ++ digit2 (minute t) ++ [ch ":"] ++
  digit2 (second t) ++ [ch "Z"].

(** Reading such a text back. *)
Definition num2 (a b : Z) : Z := (a - ch "0") * 10 + (b - ch "0").
Definition iso_read (s : bytes) : option rtc_time :=
  match s with
  | [y1; y2; y3; y4; _; m1; m2; _; d1; d2; _; h1; h2; _; n1; n2; _; s1; s2; _] =>
      Some (RT (num2 y1 y2 * 100 + num2 y3 y4) (num2 m1 m2) (num2 d1 d2)
               (num2 h1 h2) (num2 n1 n2) (num2 s1 s2))
  | _ => None
  end.

Lemma num2_digit2 v : 0 <= v -> num2 (ch "0" + (v / 10) mod 10) (ch "0" + v mod 10) = v mod 100.
Proof. intros. unfold num2. Z.div_mod_to_equations. lia. Qed.

Lemma iso_read_text t : valid t -> iso_read (iso_text t) = Some t.
Proof.
  intros (Hy & Hm & Hh & Hmi & Hs & Hd). unfold RTC_YEAR_MIN, RTC_YEAR_MAX in *.
  pose proof (days_in_month_range (year t) (month t) Hm).
  unfold iso_text, digit2. cbn [app iso_read]. rewrite !num2_digit2 by (try lia; apply Z.div_pos; lia).
  destruct t as [y m d h mi s]. cbn in *. f_equal. f_equal; Z.div_mod_to_equations; lia.
Qed.

(** A run of stores at the front of a buffer. *)
Lemma poke_next s c b off :
  off = zlen s -> zlen s < zlen b -> poke off c (patch 0 s b) = Ok tt (patch 0 (s ++ [c]) b).
Proof.
  intros -> H. pose proof (zlen_nonneg s). rewrite poke_ok by (rewrite zlen_patch; lia).
  f_equal. rewrite <- (patch_patch 0 s [c]); [done | lia |]. autorewrite with zlen. lia.
Qed.

Lemma iso_digits v : 0 <= v ->
  Z.rem (Z.quot v 1000) 10 = (v / 100 / 10) mod 10 /\ Z.rem (Z.quot v 100) 10 = (v / 100) mod 10 /\
  Z.rem (Z.quot v 10) 10 = (v / 10) mod 10 /\ Z.rem v 10 = v mod 10.
Proof.
  intros. rewrite !Z.quot_div_nonneg, !Z.rem_mod_nonneg by (try lia; apply Z.div_pos; lia).
  by rewrite Z.div_div by lia.
Qed.

Lemma rtc_format_text t cap b : valid t -> RTC_ISO8601_MAX <= cap -> cap <= zlen b ->
  rtc_format_iso8601 t cap b = Ok 20 (patch 0 (iso_text t ++ [0]) b).
Proof.
  intros Hv Hc Hb. unfold RTC_ISO8601_MAX in *. unfold rtc_format_iso8601, RTC_ISO8601_MAX.
  rewrite (proj2 (Z.eqb_neq _ _)), (proj2 (rtc_time_valid_iff t) Hv), (proj2 (Z.ltb_ge _ _)) by lia.
  cbn [negb orb]. destruct Hv as (Hy & Hm & Hh & Hmi & Hs & Hd). unfold RTC_YEAR_MIN in *.
  destruct (iso_digits (year t)) as (-> & -> & -> & ->); [lia|]. unfold put2.
  destruct (iso_digits (month t)) as (_ & _ & -> & ->); [lia|].
  destruct (iso_digits (day t)) as (_ & _ & -> & ->); [lia|].
  destruct (iso_digits (hour t)) as (_ & _ & -> & ->); [lia|].
  destruct (iso_digits (minute t)) as (_ & _ & -> & ->); [lia|].
  destruct (iso_digits (second t)) as (_ & _ & -> & ->); [lia|].
  rewrite <- (patch_nil 0 b) at 1. unfold bind, ret.
  repeat (rewrite poke_next; [cbn [app]|done|unfold zlen at 1; cbn [length]; lia]). done.
Qed.

(** ** Claims *)

(** Rtc_to_unix and rtc_from_unix are inverse bijections between the valid
    calendar times of 1970..2999 and the seconds from 0 up to the end of 2999;
    outside, both return RTC_EINVAL. *)
Theorem rtc_unix_bijection :
  (forall t, valid t ->
     0 <= rtc_to_unix t < UNIX_END /\ rtc_from_unix (rtc_to_unix t) = (RTC_OK, Some t)) /\
  (forall ts, 0 <= ts < UNIX_END ->
     exists t, rtc_from_unix ts = (RTC_OK, Some t) /\ valid t /\ rtc_to_unix t = ts) /\
  (forall ts, ts < 0 \/ UNIX_END <= ts -> rtc_from_unix ts = (RTC_EINVAL, None)) /\
  (forall t, ~ valid t -> rtc_to_unix t = RTC_EINVAL).
Proof.
  split_and!.
  - auto using rtc_to_unix_range, rtc_from_unix_at.
  - intros ts Hts. destruct (unix_surjective ts Hts) as (t & Hv & <-).
    exists t. auto using rtc_from_unix_at.
  - intros ts [H|H]; [|by apply rtc_from_unix_past].
    unfold rtc_from_unix. by rewrite (proj2 (Z.ltb_lt _ _)).
  - intros t H. unfold rtc_to_unix. destruct (rtc_time_valid t) eqn:E; [|done].
    by apply rtc_time_valid_iff in E.
Qed.

(** Rtc_to_unix counts seconds the way a calendar clock ticks: the epoch is 0,
    and the next second, carried into minutes, hours, days, months (with the leap
    days of the Gregorian rule) and years, is one more. The weekday moves on by one at
    every midnight, from the Thursday of the epoch. *)
Theorem rtc_to_unix_counts_ticks :
  rtc_to_unix epoch = 0 /\ rtc_weekday epoch = 4 /\
  forall t, valid t -> t <> last_second ->
    valid (tick t) /\ rtc_to_unix (tick t) = rtc_to_unix t + 1 /\
    rtc_weekday (tick t) =
      (rtc_weekday t + if day_second t =? 86399 then 1 else 0) mod 7.
Proof.
  split_and!; [done | done |]. intros t Hv Hne.
  pose proof (tick_valid t Hv Hne) as Hv'. pose proof (tick_unix t Hv Hv') as Hu.
  split_and!; [done | done |].
  pose proof (rtc_to_unix_range t Hv). unfold rtc_weekday. rewrite Hu.
  rewrite !(proj2 (Z.ltb_ge _ _)) by lia.
  pose proof (day_second_range t Hv). rewrite rtc_to_unix_valid in * by done.
  rewrite !Z.quot_div_nonneg by lia. rewrite !Z.rem_mod_nonneg by (try lia; Z.div_mod_to_equations; lia).
  rewrite Zplus_mod_idemp_l. f_equal.
  destruct (Z.eqb_spec (day_second t) 86399); Z.div_mod_to_equations; lia.
Qed.

(** Whatever mode the chip is in (BCD or binary, 12-hour with the PM flag or
    24-hour), decode_snapshot of the registers it shows for a valid time is that time;
    and no snapshot at all decodes to anything but RTC_EINVAL or a valid time. *)
Theorem decode_snapshot_inverts_chip b h t :
  valid t ->
  decode_snapshot (encode b h t) = (RTC_OK, Some t) /\
  forall s, decode_snapshot s = (RTC_EINVAL, None) \/
            exists t', decode_snapshot s = (RTC_OK, Some t') /\ valid t'.
Proof.
  intros Hv. split; [by apply decode_encode|]. intros s.
  destruct (decode_snapshot s) as [rc [t'|]] eqn:E.
  - right. apply decode_valid in E as [-> ?]. eauto.
  - left. unfold decode_snapshot in E. cbv zeta in E.
    set (h' := if negb (Z.land _ RTC_STATUS_B_24H =? 0) then Some _ else _) in E.
    destruct (_ || _) in E; [congruence|]. destruct (99 <? _) in E; [congruence|].
    destruct h'; [|congruence]. destruct (rtc_time_valid _) in E; congruence.
Qed.

Lemma decode_snapshot_inverts_chip_witness :
  decode_snapshot (encode false false (RT 2024 2 29 12 30 59)) =
  (RTC_OK, Some (RT 2024 2 29 12 30 59)).
Proof.
  apply (decode_snapshot_inverts_chip false false (RT 2024 2 29 12 30 59)).
  apply rtc_time_valid_iff. vm_compute. reflexivity.
Defined.


(** A chip that starts a second before the year 2000 and ticks after a dozen reads. *)
Definition toy_clock (reads : nat) : Z := 946684799 + if (11 <? reads)%nat then 1 else 0.
Definition toy_cmos (r : Z) (reads : nat) : Z * nat :=
  (if r =? RTC_REG_STATUS_A then 0 else register (encode false false (civil (toy_clock reads))) r,
   S reads).
Definition toy_ms (reads : nat) : Z * nat := (0, reads).

Lemma toy_clock_cases n : toy_clock n = 946684799 /\ (n <= 11)%nat \/ toy_clock n = 946684800 /\ (11 < n)%nat.
Proof. unfold toy_clock. destruct (Nat.ltb_spec 11 n); [right | left]; split; lia. Qed.

#[export] Instance toy_chip : Chip toy_cmos toy_ms.
Proof.
  refine {| clock := toy_clock; binary := false; h24 := false |}.
  - intros d. destruct (toy_clock_cases d) as [[-> _]|[-> _]]; split; vm_compute; congruence.
  - intros r d. change (toy_cmos r d).2 with (S d).
    destruct (toy_clock_cases d) as [[-> ?]|[-> ?]], (toy_clock_cases (S d)) as [[-> ?]|[-> ?]]; lia.
  - intros d. reflexivity.
  - intros r d Hr. unfold toy_cmos. cbn [fst]. destruct (Z.eqb_spec r RTC_REG_STATUS_A); congruence.
Defined.


(** Five passes are enough. When no update is in progress and the clock ticks at
    most once during the call, rtc_read succeeds. *)
Theorem rtc_read_succeeds {dev} cmos now_ms {chip : @Chip dev cmos now_ms} c d :
  (forall d', Z.land (cmos RTC_REG_STATUS_A d').1 RTC_STATUS_A_UIP = 0) ->
  (forall d', c <= clock d' <= c + 1) ->
  exists t d', rtc_read cmos now_ms d = (RTC_OK, Some t, d').
Proof. intros Hq Hc. by apply (read_one_tick Hq c). Qed.

Lemma rtc_read_succeeds_witness :
  exists t d', rtc_read toy_cmos toy_ms 0%nat = (RTC_OK, Some t, d').
Proof.
  apply (rtc_read_succeeds toy_cmos toy_ms 946684799 0%nat).
  - intros d'. reflexivity.
  - intros d'. change (clock d') with (toy_clock d').
    destruct (toy_clock_cases d') as [[-> _]|[-> _]]; lia.
Defined.

(** Rtc_format_iso8601 of a valid time, given room for 21 bytes, stores the
    20-character text and a NUL and nothing else, and that text reads back as exactly
    the time; an invalid time or a smaller buffer yields an empty string. *)
Theorem rtc_iso8601_roundtrip t cap b :
  1 <= cap <= zlen b ->
  (valid t -> RTC_ISO8601_MAX <= cap ->
     rtc_format_iso8601 t cap b = Ok 20 (patch 0 (iso_text t ++ [0]) b) /\
     zlen (iso_text t) = 20 /\ iso_read (iso_text t) = Some t) /\
  (~ valid t \/ cap < RTC_ISO8601_MAX ->
     rtc_format_iso8601 t cap b = Ok 0 (patch 0 [0] b)).
Proof.
  intros Hc. split.
  - intros Hv Hm. split_and!; [by apply rtc_format_text; [| |lia] | done | by apply iso_read_text].
  - intros H. unfold rtc_format_iso8601. rewrite (proj2 (Z.eqb_neq _ _)) by lia.
    replace (negb (rtc_time_valid t) || (cap <? RTC_ISO8601_MAX)) with true.
    + erewrite bind_ok by (apply poke_ok; lia). done.
    + destruct H as [H|H]; [|by rewrite (proj2 (Z.ltb_lt _ _)), orb_true_r].
      destruct (rtc_time_valid t) eqn:E; [by apply rtc_time_valid_iff in E | done].
Qed.

Lemma rtc_iso8601_roundtrip_witness :
  rtc_format_iso8601 (RT 1999 12 31 23 59 59) 21 (replicate 21 7) =
    Ok 20 (lit "1999-12-31T23:59:59Z" ++ [0]).
Proof.
  destruct (rtc_iso8601_roundtrip (RT 1999 12 31 23 59 59) 21 (replicate 21 7)) as [H _].
  - split; vm_compute; congruence.
  - destruct H as [E _].
    + apply rtc_time_valid_iff. vm_compute. reflexivity.
    + vm_compute. congruence.
    + rewrite E. vm_compute. reflexivity.
Defined.
