(* ===== verification/FileSpec.v ===== *)
(** What a file is, whichever filesystem stores it: a byte string. The RAM filesystem and
    the FAT filesystem are both shown to implement these three operations. *)

From S2P Require Import Prelude Bytes.

Definition zeros (n : Z) : bytes := replicate (Z.to_nat n) 0.

Definition f_read (c : bytes) (off len : Z) : bytes := take (Z.to_nat len) (drop (Z.to_nat off) c).

(** A gap before [off] is filled with zeroes. *)
Definition f_write (c : bytes) (off : Z) (buf : bytes) : bytes :=
  take (Z.to_nat off) (c ++ zeros (off - zlen c)) ++ buf ++ drop (Z.to_nat off + length buf) c.

Definition f_truncate (c : bytes) (size : Z) : bytes :=
  take (Z.to_nat size) c ++ zeros (size - zlen c).

Lemma zlen_zeros n : 0 <= n -> zlen (zeros n) = n.
Proof. intros. unfold zlen, zeros. rewrite length_replicate. lia. Qed.

Lemma zeros_app a b : 0 <= a -> 0 <= b -> zeros a ++ zeros b = zeros (a + b).
Proof. intros. unfold zeros. rewrite <- replicate_add. f_equal. lia. Qed.

Lemma zeros_neg n : n <= 0 -> zeros n = [].
Proof. intros. unfold zeros. by replace (Z.to_nat n) with 0%nat by lia. Qed.

Lemma drop_zeros n k : drop n (zeros k) = zeros (k - Z.of_nat n).
Proof. unfold zeros. rewrite drop_replicate. f_equal. lia. Qed.

Lemma zlen_f_write c off buf : 0 <= off -> zlen (f_write c off buf) = Z.max (zlen c) (off + zlen buf).
Proof.
  intros. unfold f_write, zlen in *. rewrite !length_app, length_take, length_app, length_drop.
  unfold zeros. rewrite length_replicate. lia.
Qed.

Lemma zlen_f_truncate c size : 0 <= size -> zlen (f_truncate c size) = size.
Proof.
  intros. unfold f_truncate, zlen in *. rewrite !length_app, length_take.
  unfold zeros. rewrite length_replicate. lia.
Qed.
