(* ===== verification/Paths.v ===== *)
(** Path strings: cutting them at '/' the way the kernel's loops do, and the list of
    components they stand for. *)

From S2P Require Import Prelude Bytes.

(** The bytes before the first [sep], and the rest from it on. *)
Fixpoint span_until (sep : Z) (s : bytes) : bytes * bytes :=
  match s with
  | [] => ([], [])
  | c :: r => if c =? sep then ([], s) else let '(a, b) := span_until sep r in (c :: a, b)
  end.

Fixpoint skip_seps (s : bytes) : bytes :=
  match s with
  | c :: r => if c =? ch "/" then skip_seps r else s
  | [] => []
  end.

(** ** Components *)

Definition flush (cur : bytes) (l : list bytes) : list bytes :=
  match cur with [] => l | _ => cur :: l end.

(** The non-empty components of a path; [cur] is the one being read. *)
Fixpoint comps (cur s : bytes) : list bytes :=
  match s with
  | [] => flush cur []
  | c :: r => if c =? ch "/" then flush cur (comps [] r) else comps (cur ++ [c]) r
  end.
Definition components (s : bytes) : list bytes := comps [] s.

Lemma flush_app cur l l' : flush cur l ++ l' = flush cur (l ++ l').
Proof. by destruct cur. Qed.

Lemma comps_app s : forall cur t, comps cur (s ++ ch "/" :: t) = comps cur s ++ components t.
Proof.
  induction s as [|c s IH]; intros cur t; cbn [app comps].
  - by rewrite flush_app.
  - ztest; [|apply IH]. rewrite IH. by rewrite flush_app.
Qed.

Lemma comps_span s : forall cur,
  comps cur s = flush (cur ++ (span_until (ch "/") s).1) (components (span_until (ch "/") s).2).
Proof.
  induction s as [|c s IH]; intros cur; cbn [comps span_until].
  - cbn. by rewrite app_nil_r.
  - ztest.
    + subst. cbn. by rewrite app_nil_r.
    + rewrite IH. destruct (span_until _ s) as [a b]. cbn [fst snd]. by rewrite <- app_assoc.
Qed.

Lemma components_skip s : components (skip_seps s) = components s.
Proof.
  unfold components. induction s as [|c s IH]; [done|]. cbn [skip_seps comps].
  destruct (Z.eqb_spec c (ch "/")) as [->|Hc]; [exact IH|].
  cbn [comps]. by destruct (Z.eqb_spec c (ch "/")).
Qed.

Lemma length_skip s : (length (skip_seps s) <= length s)%nat.
Proof. induction s as [|c s IH]; cbn [skip_seps]; [done|]. ztest; cbn [length]; lia. Qed.

(** After the separators there is a component, or nothing. *)
Lemma skip_shape s : skip_seps s = [] \/ exists c r, skip_seps s = c :: r /\ c <> ch "/".
Proof. induction s as [|c s IH]; cbn [skip_seps]; [auto|]. ztest; eauto. Qed.

Lemma span_length s : length s =
  (length (span_until (ch "/") s).1 + length (span_until (ch "/") s).2)%nat.
Proof.
  induction s as [|c s IH]; [done|]. cbn [span_until]. ztest; [done|].
  destruct (span_until _ s) as [a b]. cbn in *. lia.
Qed.

Lemma span_progress s : s <> [] -> (length (span_until (ch "/") (skip_seps s)).2 < length s)%nat.
Proof.
  intros Hs. pose proof (length_skip s) as H. pose proof (span_length (skip_seps s)) as H2.
  destruct (skip_shape s) as [E|(c & r & E & Hc)].
  - rewrite E in *. cbn in *. destruct s; [done|]. cbn. lia.
  - rewrite E in *. cbn [span_until] in *. destruct (Z.eqb_spec c (ch "/")); [done|].
    destruct (span_until _ r) as [a b]. cbn in *. lia.
Qed.
