(* ===== verification/Vfs.v ===== *)
(** fs/vfs/vfs.c and core/kobject.c: the filesystem-independent layer. It walks
    paths and calls a filesystem through its operation table, the class [Fs]. *)

From S2P Require Import Prelude Bytes Paths.

(** ** Constants (include/vfs.h) *)

Definition VFS_OK := 0.
Definition VFS_ENOENT := -2.
Definition VFS_EEXIST := -17.
Definition VFS_ENOTDIR := -20.
Definition VFS_EINVAL := -22.
Definition VFS_ENOSPC := -28.
Definition O_ACCMODE := 0x0003.
Definition O_RDONLY := 0x0000.
Definition O_WRONLY := 0x0001.
Definition O_RDWR := 0x0002.
Definition O_CREAT := 0x0100.
Definition O_TRUNC := 0x0200.
Definition O_APPEND := 0x0400.
Definition SEEK_SET := 0.
Definition SEEK_CUR := 1.
Definition SEEK_END := 2.
Definition VFS_NAME_MAX := 63.
Definition VFS_PATH_MAX := 127.
Definition MOUNTPOINT_CAP := 64.
Definition VFS_PERM_R := 0x4.
Definition VFS_PERM_W := 0x2.
Definition VFS_PERM_X := 0x1.

Inductive vnode_type := VNODE_FILE | VNODE_DIR.
#[export] Instance vnode_type_eq : EqDecision vnode_type.
Proof. solve_decision. Defined.

(** ** The operation table *)

(** A vnode pointer is a number. [S] is what the filesystems keep, the common part of
    every vnode included; an operation that is NULL in the vnode's table is [None].
    An operation that fills a buffer returns what it stored there; unlink drops a
    reference, which panics ([None]) when there is none to drop. *)
Class Fs (S : Type) := {
  v_type : S -> nat -> vnode_type;
  v_size : S -> nat -> Z;
  v_mode : S -> nat -> Z;
  v_mtime : S -> nat -> Z;
  v_refs : S -> nat -> Z;
  set_refs : nat -> Z -> S -> S;
  lookup_op : S -> nat -> option (bytes -> S -> Z * option nat * S);
  create_op : S -> nat -> option (bytes -> vnode_type -> S -> Z * option nat * S);
  unlink_op : S -> nat -> option (bytes -> S -> option (Z * S));
  read_op : S -> nat -> option (Z -> Z -> S -> Z * bytes * S);
  write_op : S -> nat -> option (bytes -> Z -> S -> Z * S);
  readdir_op : S -> nat -> option (Z -> Z -> S -> Z * bytes * S);
  truncate_op : S -> nat -> option (Z -> S -> Z * S);
  reclaim_op : S -> nat -> option (S -> S) }.

(** ** State *)

Record mount := Mount { mountpoint : bytes; root : nat }.

(** Registered types by name with their mount hook (which builds the superblock and
    names the root), newest first; the mount table, newest first. *)
Record vfs (S : Type) := Vfs {
  fstypes : list (bytes * (S -> Z * nat * S)); mounts : list mount; fs : S }.
Arguments Vfs {S}. Arguments fstypes {S}. Arguments mounts {S}. Arguments fs {S}.

(** An open handle. *)
Record file := File { node : nat; pos : Z; flags : Z }.

Section Vfs.

Context {S : Type} `{Fs S}.
Local Open Scope prog_scope.

Definition on_fs (f : S -> S) : prog (vfs S) unit := modify (fun v => Vfs (fstypes v) (mounts v) (f (fs v))).

(** Call an operation of the filesystem. *)
Definition call {A} (f : S -> A * S) : prog (vfs S) A := fun v =>
  let '(a, s) := f (fs v) in Ok a (Vfs (fstypes v) (mounts v) s).

Definition kobject_get (n : nat) : prog (vfs S) unit := on_fs (fun s => set_refs n (v_refs s n + 1) s).

Definition kobject_put (n : nat) : prog (vfs S) Z :=
  r <- gets (fun v => v_refs (fs v) n) ;;
  if r <=? 0 then panic "kobject_put: refcount underflow"
  else on_fs (set_refs n (r - 1)) ;;; ret (r - 1).

Definition vfs_init : prog (vfs S) unit := modify (fun v => Vfs [] [] (fs v)).

Definition vfs_register_fstype (name : bytes) (hook : S -> Z * nat * S) : prog (vfs S) Z :=
  ts <- gets fstypes ;;
  if existsb (fun t => bool_decide (t.1 = name)) ts then ret VFS_EEXIST
  else modify (fun v => Vfs ((name, hook) :: fstypes v) (mounts v) (fs v)) ;;; ret VFS_OK.

Definition vfs_mount (mp fstype : bytes) : prog (vfs S) Z :=
  ts <- gets fstypes ;;
  match find (fun t => bool_decide (t.1 = fstype)) ts with
  | None => ret VFS_ENOENT
  | Some t =>
      if negb (bool_decide (head mp = Some (ch "/"))) then ret VFS_EINVAL
      else if MOUNTPOINT_CAP <=? zlen mp then ret VFS_EINVAL
      else
        r <- call (fun s => let '(rc, n, s) := t.2 s in ((rc, n), s)) ;;
        if negb (r.1 =? VFS_OK) then ret r.1
        else modify (fun v => Vfs (fstypes v) (Mount mp r.2 :: mounts v) (fs v)) ;;; ret VFS_OK
  end.

(** ** Paths *)

Definition mount_len (m : mount) : Z :=
  if bool_decide (mountpoint m = lit "/") then 0 else zlen (mountpoint m).

Fixpoint starts_with (pre s : bytes) : bool :=
  match pre, s with
  | [], _ => true
  | p :: pre, c :: s => (c =? p) && starts_with pre s
  | _, [] => false
  end.

(** The loop body's two [continue]s. *)
Definition mount_match (path : bytes) (m : mount) : bool :=
  if bool_decide (mountpoint m = lit "/") then true
  else
    let next := nth (length (mountpoint m)) path 0 in
    starts_with (mountpoint m) path && ((next =? 0) || (next =? ch "/")).

Fixpoint best_mount (path : bytes) (ms : list mount) (best : option (mount * Z)) : option (mount * Z) :=
  match ms with
  | [] => best
  | m :: ms =>
      let len := mount_len m in
      best_mount path ms
        (if mount_match path m &&
            match best with None => true | Some (_, best_len) => best_len <=? len end
         then Some (m, len) else best)
  end.
Definition mount_for (path : bytes) (ms : list mount) : option (mount * Z) := best_mount path ms None.

(** The component and where it ends: 1, or 0 when none is left, or -1 when it does not
    fit in [cap] bytes with its NUL. *)
Definition next_component (p : bytes) (cap : Z) : Z * bytes * bytes :=
  let p := skip_seps p in
  match p with
  | [] => (0, [], p)
  | _ =>
      let '(comp, r) := span_until (ch "/") p in
      if cap - 1 <? zlen comp then (-1, [], p) else (1, comp, r)
  end.

(** The loop of resolve; each round consumes a byte of [rel] at least. *)
Fixpoint walk_path (fuel : nat) (rel : bytes) (cur : nat) : prog (vfs S) (option nat) :=
  match fuel with
  | O => fun _ => Spin
  | Datatypes.S fuel =>
      let '(rc, comp, rel) := next_component rel (VFS_NAME_MAX + 1) in
      if rc =? 1 then
        if bool_decide (comp = lit ".") then walk_path fuel rel cur
        else
          s <- gets fs ;;
          if negb (bool_decide (v_type s cur = VNODE_DIR)) then ret None
          else
            match lookup_op s cur with
            | None => ret None
            | Some op =>
                r <- call (fun s => op comp s) ;;
                match r with
                | (rc, Some next) => if rc =? VFS_OK then walk_path fuel rel next else ret None
                | (_, None) => ret None
                end
            end
      else if rc <? 0 then ret None
      else ret (Some cur)
  end.

Definition resolve_path (path : bytes) : prog (vfs S) (option nat) :=
  if negb (bool_decide (head path = Some (ch "/"))) then ret None
  else if VFS_PATH_MAX <? zlen path then ret None
  else
    ms <- gets mounts ;;
    match mount_for path ms with
    | None => ret None
    | Some (m, plen) =>
        let rel := drop (Z.to_nat plen) path in
        walk_path (Datatypes.S (length rel)) rel (root m)
    end.

(** The bytes before the last '/', and those after it. *)
Fixpoint split_last (path : bytes) : option (bytes * bytes) :=
  match path with
  | [] => None
  | c :: r =>
      match split_last r with
      | Some (d, l) => Some (c :: d, l)
      | None => if c =? ch "/" then Some ([], r) else None
      end
  end.

Definition resolve_parent (path : bytes) : prog (vfs S) (Z + nat * bytes) :=
  if negb (bool_decide (head path = Some (ch "/"))) then ret (inl VFS_EINVAL)
  else if VFS_PATH_MAX <? zlen path then ret (inl VFS_EINVAL)
  else
    match split_last path with
    | None => ret (inl VFS_EINVAL)
    | Some (dir, leaf) =>
        if bool_decide (leaf = []) then ret (inl VFS_EINVAL)
        else if VFS_NAME_MAX <? zlen leaf then ret (inl VFS_EINVAL)
        else
          p <- resolve_path (if bool_decide (dir = []) then lit "/" else dir) ;;
          match p with
          | None => ret (inl VFS_ENOENT)
          | Some p =>
              ty <- gets (fun v => v_type (fs v) p) ;;
              if negb (bool_decide (ty = VNODE_DIR)) then ret (inl VFS_ENOTDIR)
              else ret (inr (p, leaf))
          end
    end.

(** ** Files *)

Definition has (fl bit : Z) : bool := negb (Z.land fl bit =? 0).

Definition create_missing (path : bytes) : prog (vfs S) (option nat) :=
  r <- resolve_parent path ;;
  match r with
  | inl _ => ret None
  | inr (parent, leaf) =>
      s <- gets fs ;;
      match create_op s parent with
      | None => ret None
      | Some op =>
          c <- call (fun s => op leaf VNODE_FILE s) ;;
          if c.1 =? VFS_OK then ret c.2 else ret None
      end
  end.

Definition vfs_open (path : bytes) (fl : Z) : prog (vfs S) (option file) :=
  v <- resolve_path path ;;
  v <- (match v with
        | Some n => ret (Some n)
        | None => if has fl O_CREAT then create_missing path else ret None
        end) ;;
  match v with
  | None => ret None
  | Some n =>
      s <- gets fs ;;
      (if bool_decide (v_type s n = VNODE_FILE) && has fl O_TRUNC then
         match truncate_op s n with
         | Some op => call (fun s => op 0 s) ;;; ret tt
         | None => ret tt
         end
       else ret tt) ;;;
      kobject_get n ;;;
      size <- gets (fun v => v_size (fs v) n) ;;
      ret (Some (File n (if has fl O_APPEND then size else 0) fl))
  end.

Definition vfs_close (f : file) : prog (vfs S) unit :=
  r <- kobject_put (node f) ;;
  if r =? 0 then
    s <- gets fs ;;
    match reclaim_op s (node f) with
    | Some op => on_fs op
    | None => ret tt
    end
  else ret tt.

(** tools/vfs_tools.c: delete through the parent's operation table, there being no
    vfs_unlink. *)
Definition unlink_at (dir leaf : bytes) : prog (vfs S) Z :=
  d <- vfs_open dir O_RDONLY ;;
  match d with
  | None => ret VFS_ENOENT
  | Some d =>
      s <- gets fs ;;
      rc <- (if bool_decide (v_type s (node d) = VNODE_DIR) then
               match unlink_op s (node d) with
               | Some op => fun v =>
                   match op leaf (fs v) with
                   | Some (rc, s') => Ok rc (Vfs (fstypes v) (mounts v) s')
                   | None => Panic "kobject_put: refcount underflow"
                   end
               | None => ret VFS_EINVAL
               end
             else ret VFS_EINVAL) ;;
      vfs_close d ;;;
      ret rc
  end.

(** The byte count (or error), what landed in the buffer, and the handle after. *)
Definition vfs_read (f : file) (len : Z) : prog (vfs S) (Z * bytes * file) :=
  s <- gets fs ;;
  match read_op s (node f) with
  | None => ret (VFS_EINVAL, [], f)
  | Some op =>
      if Z.land (flags f) O_ACCMODE =? O_WRONLY then ret (VFS_EINVAL, [], f)
      else
        r <- call (fun s => op (pos f) len s) ;;
        let '(n, bs) := r in
        ret (n, bs, if 0 <? n then File (node f) (wrap64 (pos f + n)) (flags f) else f)
  end.

Definition vfs_write (f : file) (buf : bytes) : prog (vfs S) (Z * file) :=
  s <- gets fs ;;
  match write_op s (node f) with
  | None => ret (VFS_EINVAL, f)
  | Some op =>
      if Z.land (flags f) O_ACCMODE =? O_RDONLY then ret (VFS_EINVAL, f)
      else
        let f := if has (flags f) O_APPEND then File (node f) (v_size s (node f)) (flags f) else f in
        n <- call (fun s => op buf (pos f) s) ;;
        ret (n, if 0 <? n then File (node f) (wrap64 (pos f + n)) (flags f) else f)
  end.

(** [base + off] is a signed 64-bit sum (its overflow, undefined in C, wraps here). *)
Definition vfs_seek (f : file) (off whence : Z) : prog (vfs S) (Z * file) :=
  size <- gets (fun v => v_size (fs v) (node f)) ;;
  let base := if whence =? SEEK_SET then Some 0
              else if whence =? SEEK_CUR then Some (sgn 64 (pos f))
              else if whence =? SEEK_END then Some (sgn 64 size) else None in
  match base with
  | None => ret (VFS_EINVAL, f)
  | Some base =>
      let np := sgn 64 (base + off) in
      if np <? 0 then ret (VFS_EINVAL, f)
      else ret (np, File (node f) np (flags f))
  end.

Definition vfs_mkdir (path : bytes) : prog (vfs S) Z :=
  v <- resolve_path path ;;
  match v with
  | Some _ => ret VFS_EEXIST
  | None =>
      r <- resolve_parent path ;;
      match r with
      | inl rc => ret rc
      | inr (parent, leaf) =>
          s <- gets fs ;;
          match create_op s parent with
          | None => ret VFS_EINVAL
          | Some op => c <- call (fun s => op leaf VNODE_DIR s) ;; ret c.1
          end
      end
  end.

(** Type, size, mode and modification time. *)
Definition vfs_stat (path : bytes) : prog (vfs S) (Z + vnode_type * Z * Z * Z) :=
  v <- resolve_path path ;;
  match v with
  | None => ret (inl VFS_ENOENT)
  | Some n => gets (fun v => inr (v_type (fs v) n, v_size (fs v) n, v_mode (fs v) n, v_mtime (fs v) n))
  end.

Definition vfs_readdir (path : bytes) (index cap : Z) : prog (vfs S) (Z * bytes) :=
  if cap =? 0 then ret (VFS_EINVAL, [])
  else
    v <- resolve_path path ;;
    match v with
    | None => ret (VFS_ENOENT, [])
    | Some n =>
        s <- gets fs ;;
        if negb (bool_decide (v_type s n = VNODE_DIR)) then ret (VFS_ENOTDIR, [])
        else
          match readdir_op s n with
          | None => ret (VFS_ENOTDIR, [])
          | Some op => call (fun s => op index cap s)
          end
    end.

End Vfs.
