(* ===== verification/Ramfs.v ===== *)
(** fs/native/ramfs.c: the RAM filesystem behind the VFS. *)

From stdpp Require Import gmap.
From S2P Require Import Prelude Bytes FileSpec Paths Vfs.

Definition RAMFS_MAX_FILE := 1024 * 1024.

(** A vnode and the rnode that is its private part. [n_data] is the buffer of a file,
    as long as its capacity; [n_kids] lists the entries of a directory, newest
    first. *)
Record vnode := Vnode {
  n_type : vnode_type; n_mode : Z; n_size : Z; n_mtime : Z; n_refs : Z;
  n_data : bytes; n_kids : list (bytes * nat) }.

(** Allocated vnodes by address, the next free address, what millis() says, and
    whether krealloc can provide a buffer of a given size. *)
Record ramfs := Ramfs {
  nodes : gmap nat vnode; next_node : nat; now : Z; room : Z -> bool }.

Definition put_node (n : nat) (v : vnode) (s : ramfs) : ramfs :=
  Ramfs (<[n := v]> (nodes s)) (next_node s) (now s) (room s).

(** Change the vnode at [n]; a dangling pointer has no vnode to change. *)
Definition upd (n : nat) (f : vnode -> vnode) (s : ramfs) : ramfs :=
  match nodes s !! n with Some v => put_node n (f v) s | None => s end.

(** What the code reads through a pointer. *)
Definition at_node {A} (d : A) (f : vnode -> A) (s : ramfs) (n : nat) : A :=
  match nodes s !! n with Some v => f v | None => d end.

Definition set_mtime (t : Z) (v : vnode) : vnode :=
  Vnode (n_type v) (n_mode v) (n_size v) t (n_refs v) (n_data v) (n_kids v).
Definition set_refcount (r : Z) (v : vnode) : vnode :=
  Vnode (n_type v) (n_mode v) (n_size v) (n_mtime v) r (n_data v) (n_kids v).
Definition set_data (d : bytes) (v : vnode) : vnode :=
  Vnode (n_type v) (n_mode v) (n_size v) (n_mtime v) (n_refs v) d (n_kids v).
Definition set_size (z : Z) (v : vnode) : vnode :=
  Vnode (n_type v) (n_mode v) z (n_mtime v) (n_refs v) (n_data v) (n_kids v).
Definition set_kids (k : list (bytes * nat)) (v : vnode) : vnode :=
  Vnode (n_type v) (n_mode v) (n_size v) (n_mtime v) (n_refs v) (n_data v) k.

(** vfs_alloc_vnode with an empty rnode. *)
Definition vfs_alloc_vnode (ty : vnode_type) (t : Z) : vnode :=
  Vnode ty (Z.lor (Z.lor VFS_PERM_R VFS_PERM_W)
              (match ty with VNODE_DIR => VFS_PERM_X | VNODE_FILE => 0 end)) 0 t 1 [] [].

Definition alloc_node (ty : vnode_type) (s : ramfs) : nat * ramfs :=
  (next_node s,
   Ramfs (<[next_node s := vfs_alloc_vnode ty (now s)]> (nodes s)) (Datatypes.S (next_node s)) (now s) (room s)).

Definition find_entry (name : bytes) (kids : list (bytes * nat)) : option nat :=
  snd <$> find (fun e => bool_decide (e.1 = name)) kids.

Definition ramfs_lookup (dir : nat) (name : bytes) (s : ramfs) : Z * option nat * ramfs :=
  match find_entry name (at_node [] n_kids s dir) with
  | Some v => (VFS_OK, Some v, s)
  | None => (VFS_ENOENT, None, s)
  end.

Definition ramfs_create (dir : nat) (name : bytes) (ty : vnode_type) (s : ramfs)
  : Z * option nat * ramfs :=
  if VFS_NAME_MAX <? zlen name then (VFS_EINVAL, None, s)
  else
    match find_entry name (at_node [] n_kids s dir) with
    | Some _ => (VFS_EEXIST, None, s)
    | None =>
        let '(vn, s) := alloc_node ty s in
        let s := upd dir (fun d => set_kids ((name, vn) :: n_kids d) d) s in
        (VFS_OK, Some vn, upd dir (set_mtime (now s)) s)
    end.

Definition ramfs_reclaim (n : nat) (s : ramfs) : ramfs :=
  Ramfs (delete n (nodes s)) (next_node s) (now s) (room s).

(** Remove the first entry of that name. *)
Fixpoint drop_entry (name : bytes) (kids : list (bytes * nat)) : list (bytes * nat) :=
  match kids with
  | [] => []
  | e :: r => if bool_decide (e.1 = name) then r else e :: drop_entry name r
  end.

(** The reference the entry held is dropped; [None] is kobject_put's panic. *)
Definition ramfs_unlink (dir : nat) (name : bytes) (s : ramfs) : option (Z * ramfs) :=
  match find_entry name (at_node [] n_kids s dir) with
  | None => Some (VFS_ENOENT, s)
  | Some v =>
      if bool_decide (at_node VNODE_FILE n_type s v = VNODE_DIR) &&
         negb (bool_decide (at_node [] n_kids s v = []))
      then Some (VFS_EINVAL, s)
      else
        let s := upd dir (fun d => set_kids (drop_entry name (n_kids d)) d) s in
        let s := upd dir (set_mtime (now s)) s in
        let r := at_node 0 n_refs s v in
        if r <=? 0 then None
        else
          let s := upd v (set_refcount (r - 1)) s in
          Some (VFS_OK, if r - 1 =? 0 then ramfs_reclaim v s else s)
  end.

Definition ramfs_read (n : nat) (off len : Z) (s : ramfs) : Z * bytes * ramfs :=
  match nodes s !! n with
  | None => (VFS_EINVAL, [], s)
  | Some v =>
      if bool_decide (n_type v = VNODE_DIR) then (VFS_EINVAL, [], s)
      else if n_size v <=? off then (0, [], s)
      else
        let avail := n_size v - off in
        let len := if avail <? len then avail else len in
        (len, take (Z.to_nat len) (drop (Z.to_nat off) (n_data v)), s)
  end.

(** [while (cap < need) ...] *)
Fixpoint grow_cap (fuel : nat) (cap need : Z) : Z :=
  match fuel with
  | O => cap
  | Datatypes.S fuel =>
      if cap <? need then
        if RAMFS_MAX_FILE / 2 <? cap then need else grow_cap fuel (cap * 2) need
      else cap
  end.

Definition ramfs_grow (n : nat) (need : Z) (s : ramfs) : Z * ramfs :=
  let data := at_node [] n_data s n in
  let cap := zlen data in
  if need <=? cap then (VFS_OK, s)
  else if RAMFS_MAX_FILE <? need then (VFS_ENOSPC, s)
  else
    let cap' := grow_cap 64 (if cap =? 0 then 64 else cap) need in
    if negb (room s cap') then (VFS_ENOSPC, s)
    else (VFS_OK, upd n (set_data (data ++ zeros (cap' - cap))) s).

Definition ramfs_write (n : nat) (buf : bytes) (off : Z) (s : ramfs) : Z * ramfs :=
  let len := zlen buf in
  if bool_decide (at_node VNODE_DIR n_type s n = VNODE_DIR) then (VFS_EINVAL, s)
  else if len =? 0 then (0, s)
  else if (RAMFS_MAX_FILE <? off) || (RAMFS_MAX_FILE - off <? len) then (VFS_ENOSPC, s)
  else
    let '(rc, s) := ramfs_grow n (off + len) s in
    if negb (rc =? VFS_OK) then (rc, s)
    else
      let hole v := if n_size v <? off
                    then set_data (patch (n_size v) (zeros (off - n_size v)) (n_data v)) v else v in
      let store v := set_data (patch off buf (n_data v)) v in
      let extend v := if n_size v <? off + len then set_size (off + len) v else v in
      (len, upd n (fun v => set_mtime (now s) (extend (store (hole v)))) s).

(** strncpy pads with NULs. *)
Definition ramfs_readdir (dir : nat) (index cap : Z) (s : ramfs) : Z * bytes * ramfs :=
  if cap =? 0 then (VFS_EINVAL, [], s)
  else
    match at_node [] n_kids s dir !! Z.to_nat index with
    | Some (name, _) =>
        let text := take (Z.to_nat (cap - 1)) name in
        (VFS_OK, text ++ zeros (cap - zlen text), s)
    | None => (VFS_ENOENT, [], s)
    end.

Definition ramfs_truncate (n : nat) (size : Z) (s : ramfs) : Z * ramfs :=
  match nodes s !! n with
  | None => (VFS_EINVAL, s)
  | Some v =>
      if bool_decide (n_type v = VNODE_DIR) then (VFS_EINVAL, s)
      else
        let '(rc, s) :=
          if n_size v <? size then ramfs_grow n size s
          else if size <? n_size v
          then (VFS_OK, upd n (fun v => set_data (patch size (zeros (n_size v - size)) (n_data v)) v) s)
          else (VFS_OK, s) in
        if negb (rc =? VFS_OK) then (rc, s)
        else (VFS_OK, upd n (fun v => set_mtime (now s) (set_size size v)) s)
  end.

Definition ramfs_mount (s : ramfs) : Z * nat * ramfs :=
  let '(n, s) := alloc_node VNODE_DIR s in (VFS_OK, n, s).

(** The operation table. *)
#[export] Instance ramfs_ops : Fs ramfs := {|
  v_type s n := at_node VNODE_FILE n_type s n;
  v_size s n := at_node 0 n_size s n;
  v_mode s n := at_node 0 n_mode s n;
  v_mtime s n := at_node 0 n_mtime s n;
  v_refs s n := at_node 0 n_refs s n;
  set_refs n r s := upd n (set_refcount r) s;
  lookup_op s n := Some (ramfs_lookup n);
  create_op s n := Some (ramfs_create n);
  unlink_op s n := Some (ramfs_unlink n);
  read_op s n := Some (ramfs_read n);
  write_op s n := Some (ramfs_write n);
  readdir_op s n := Some (ramfs_readdir n);
  truncate_op s n := Some (ramfs_truncate n);
  reclaim_op s n := Some (ramfs_reclaim n) |}.

Definition ramfs_register : prog (vfs ramfs) Z := vfs_register_fstype (lit "ramfs") ramfs_mount.
