(* ===== verification/RamfsFile.v ===== *)
(** fs/native/ramfs.c: files. The growing buffer behind a file is invisible: reads,
    writes and truncations act on the file's contents as on a plain byte string. *)

From stdpp Require Import gmap.
From S2P Require Import Prelude Bytes FileSpec Paths Vfs Ramfs.

(** [v] is a file with contents [c]: the buffer holds them and then zeroes only. *)
Definition file_is (v : vnode) (c : bytes) : Prop :=
  n_type v = VNODE_FILE /\ n_size v = zlen c /\
  exists k, 0 <= k /\ n_data v = c ++ zeros k /\ zlen c + k <= RAMFS_MAX_FILE.

Definition holds (s : ramfs) (n : nat) (c : bytes) : Prop :=
  exists v, nodes s !! n = Some v /\ file_is v c.

(** Storing [buf] in a zero-padded buffer writes the abstract file. *)
Lemma patch_write c k off buf : 0 <= off -> 0 <= k -> off + zlen buf <= zlen c + k ->
  patch off buf (c ++ zeros k) = f_write c off buf ++ zeros (zlen c + k - zlen (f_write c off buf)) /\
  zlen (f_write c off buf) = Z.max (zlen c) (off + zlen buf) .
Proof.
  intros H0 Hk He. pose proof (zlen_f_write c off buf H0) as Hlen.
  split; [|done]. rewrite Hlen. unfold patch, f_write. rewrite <- !app_assoc. f_equal; [|f_equal].
  - unfold zlen in *. destruct (Z.le_ge_cases off (Z.of_nat (length c))).
    + rewrite !take_app_le by lia. done.
    + rewrite !take_app_ge by lia. f_equal. unfold zeros. rewrite !take_replicate. f_equal. lia.
  - unfold zlen in *. destruct (Z.le_ge_cases (off + Z.of_nat (length buf)) (Z.of_nat (length c))).
    + rewrite drop_app_le by lia. f_equal. f_equal. lia.
    + rewrite drop_app_ge by lia. rewrite (drop_ge c) by lia. cbn [app]. rewrite drop_zeros. f_equal. lia.
Qed.

(** Filling the hole changes nothing: it is zero already. *)
Lemma patch_hole c k off : 0 <= k -> zlen c < off <= zlen c + k ->
  patch (zlen c) (zeros (off - zlen c)) (c ++ zeros k) = c ++ zeros k.
Proof.
  intros Hk Ho. unfold patch. unfold zlen in *. rewrite Nat2Z.id, take_app_length.
  f_equal. rewrite drop_app_add. rewrite drop_zeros, zeros_app; [f_equal|lia|]; unfold zeros; rewrite length_replicate; lia.
Qed.

Lemma patch_cut c k size : 0 <= k -> 0 <= size <= zlen c ->
  patch size (zeros (zlen c - size)) (c ++ zeros k) = f_truncate c size ++ zeros (zlen c + k - size).
Proof.
  intros Hk Hs. unfold patch, f_truncate. rewrite (zeros_neg (size - zlen c)), app_nil_r by lia.
  rewrite take_app_le by (unfold zlen in *; lia). f_equal.
  replace (Z.to_nat size + length (zeros (zlen c - size)))%nat with (length c)
    by (unfold zeros, zlen in *; rewrite length_replicate; lia).
  rewrite drop_app_length, zeros_app by lia. f_equal. lia.
Qed.

(** ** Growing *)

Lemma grow_cap_bounds fuel : forall cap need, 0 < cap <= RAMFS_MAX_FILE -> need <= RAMFS_MAX_FILE ->
  need <= cap * 2 ^ Z.of_nat fuel ->
  need <= grow_cap fuel cap need <= RAMFS_MAX_FILE /\ cap <= Z.max cap (grow_cap fuel cap need).
Proof.
  induction fuel as [|fuel IH]; intros cap need Hc Hn Hp; cbn [grow_cap].
  - rewrite Z.mul_1_r in Hp. lia.
  - destruct (Z.ltb_spec cap need); [|lia]. destruct (Z.ltb_spec (RAMFS_MAX_FILE / 2) cap); [lia|].
    rewrite Nat2Z.inj_succ, Z.pow_succ_r in Hp by lia.
    destruct (IH (cap * 2) need) as [H1 H2]; [|lia|nia|lia].
    change (RAMFS_MAX_FILE / 2) with 524288 in *. change RAMFS_MAX_FILE with 1048576 in *. lia.
Qed.

(** Only the vnode at [n] may differ, and it keeps its type, mode, references and
    entries. *)
Definition only (n : nat) (s s' : ramfs) : Prop :=
  (forall m, m <> n -> nodes s' !! m = nodes s !! m) /\
  next_node s' = next_node s /\ now s' = now s /\ room s' = room s /\
  forall v, nodes s !! n = Some v -> exists v', nodes s' !! n = Some v' /\
    n_type v' = n_type v /\ n_mode v' = n_mode v /\ n_refs v' = n_refs v /\ n_kids v' = n_kids v.

Lemma only_refl n s : only n s s.
Proof. repeat split; eauto 10. Qed.

Lemma only_trans n s1 s2 s3 : only n s1 s2 -> only n s2 s3 -> only n s1 s3.
Proof.
  intros (A1 & A2 & A3 & A4 & A5) (B1 & B2 & B3 & B4 & B5). split.
  { intros m Hm. by rewrite B1, A1. }
  split; [congruence|]. split; [congruence|]. split; [congruence|].
  intros v Hv. destruct (A5 v Hv) as (v1 & E1 & ? & ? & ? & ?).
  destruct (B5 v1 E1) as (v2 & E2 & ? & ? & ? & ?). exists v2. repeat split; congruence.
Qed.

Lemma upd_at n f s v : nodes s !! n = Some v -> nodes (upd n f s) !! n = Some (f v).
Proof. intros Hv. unfold upd. rewrite Hv. cbn. by rewrite lookup_insert_eq. Qed.

Lemma upd_only n f s :
  (forall v, n_type (f v) = n_type v /\ n_mode (f v) = n_mode v /\ n_refs (f v) = n_refs v /\
             n_kids (f v) = n_kids v) -> only n s (upd n f s).
Proof.
  intros Hf. destruct (nodes s !! n) as [v|] eqn:E.
  - split.
    { intros m Hm. unfold upd. rewrite E. cbn. by rewrite lookup_insert_ne. }
    do 3 (split; [unfold upd; by rewrite E|]).
    intros w Hw. rewrite E in Hw. injection Hw as <-. exists (f v). split; [by apply upd_at|apply Hf].
  - unfold upd. rewrite E. apply only_refl.
Qed.

(** Growing provides the capacity and keeps the contents, or refuses and changes
    nothing; with memory to spare it provides. *)
Lemma ramfs_grow_spec n c need s : holds s n c -> 0 <= need <= RAMFS_MAX_FILE ->
  (exists s' v, ramfs_grow n need s = (VFS_OK, s') /\ nodes s' !! n = Some v /\ file_is v c /\
     need <= zlen (n_data v) /\ only n s s') \/
  (ramfs_grow n need s = (VFS_ENOSPC, s) /\ exists cap, need <= cap <= RAMFS_MAX_FILE /\ room s cap = false).
Proof.
  intros (v & Hv & Hf) Hn. pose proof Hf as (Ht & Hs & k & Hk & Hd & Hm).
  unfold ramfs_grow, at_node. rewrite Hv. destruct (Z.leb_spec need (zlen (n_data v))) as [Hle|Hgt].
  { left. exists s, v. split; [done|]. repeat split; eauto 10. }
  destruct (Z.ltb_spec RAMFS_MAX_FILE need); [lia|].
  set (cap0 := if zlen (n_data v) =? 0 then 64 else zlen (n_data v)).
  assert (Hcap : zlen (n_data v) = zlen c + k) by (rewrite Hd; autorewrite with zlen; by rewrite zlen_zeros).
  pose proof (zlen_nonneg c).
  assert (Hc0 : zlen (n_data v) <= cap0 /\ 0 < cap0 <= RAMFS_MAX_FILE).
  { unfold cap0. ztest; [change RAMFS_MAX_FILE with 1048576|]; lia. }
  destruct (grow_cap_bounds 64 cap0 need) as [Hg _]; [lia..| |].
  { change RAMFS_MAX_FILE with 1048576 in *. lia. }
  set (cap' := grow_cap 64 cap0 need) in *. clearbody cap'.
  destruct (room s cap') eqn:Er; cbn [negb]; [|right; eauto].
  left. eexists _, _. split; [reflexivity|]. split; [by apply upd_at|]. cbn [n_data set_data].
  split; [|split; [autorewrite with zlen; rewrite zlen_zeros; lia|by apply upd_only]].
  split; [done|]. split; [done|]. exists (cap' - zlen c). split; [lia|]. split; [|lia].
  cbn [n_data set_data]. rewrite Hd, <- app_assoc, zeros_app by (rewrite <- ?Hd; lia). do 2 f_equal.
  rewrite <- Hd. lia.
Qed.

(** The three steps of a write on a buffer that is large enough. *)
Lemma store_steps v c off buf t : file_is v c -> 0 <= off -> off + zlen buf <= zlen (n_data v) ->
  let hole v := if n_size v <? off
                then set_data (patch (n_size v) (zeros (off - n_size v)) (n_data v)) v else v in
  let store v := set_data (patch off buf (n_data v)) v in
  let extend v := if n_size v <? off + zlen buf then set_size (off + zlen buf) v else v in
  file_is (set_mtime t (extend (store (hole v)))) (f_write c off buf).
Proof.
  intros (Ht & Hs & k & Hk & Hd & Hm) H0 He hole store extend.
  assert (Hcap : zlen (n_data v) = zlen c + k) by (rewrite Hd; autorewrite with zlen; by rewrite zlen_zeros).
  assert (Hh : n_data (hole v) = c ++ zeros k /\ n_size (hole v) = zlen c /\ n_type (hole v) = VNODE_FILE).
  { unfold hole. rewrite Hs, Hd. pose proof (zlen_nonneg buf). ztest; cbn; [|done]. by rewrite patch_hole by lia. }
  destruct Hh as (Hh1 & Hh2 & Hh3).
  destruct (patch_write c k off buf) as [Hp Hl]; [lia..|].
  assert (He' : n_data (extend (store (hole v))) = patch off buf (c ++ zeros k) /\
    n_size (extend (store (hole v))) = zlen (f_write c off buf) /\ n_type (extend (store (hole v))) = VNODE_FILE).
  { unfold extend, store. cbn [n_size set_data]. rewrite Hh2, Hl. ztest; cbn; rewrite Hh1; repeat split; lia || done. }
  destruct He' as (E1 & E2 & E3). split; [done|]. split; [done|].
  exists (zlen c + k - zlen (f_write c off buf)). cbn [n_data set_mtime]. rewrite E1.
  split; [lia|]. split; [done|lia].
Qed.

Lemma ramfs_write_ok n c buf off s : holds s n c -> 0 <= off -> buf <> [] ->
  off + zlen buf <= RAMFS_MAX_FILE ->
  (exists s', ramfs_write n buf off s = (zlen buf, s') /\ holds s' n (f_write c off buf) /\ only n s s') \/
  (ramfs_write n buf off s = (VFS_ENOSPC, s) /\ exists cap, cap <= RAMFS_MAX_FILE /\ room s cap = false).
Proof.
  intros Hh H0 Hne He. pose proof Hh as (v & Hv & Hf). pose proof (zlen_nonneg buf).
  assert (Hb : zlen buf <> 0) by (destruct buf; [done|autorewrite with zlen; pose proof (zlen_nonneg buf); lia]).
  unfold ramfs_write. assert (Ety : at_node VNODE_DIR n_type s n = VNODE_FILE).
  { unfold at_node. rewrite Hv. apply Hf. }
  rewrite Ety. rewrite bool_decide_eq_false_2 by done. destruct (Z.eqb_spec (zlen buf) 0); [done|].
  replace ((RAMFS_MAX_FILE <? off) || (RAMFS_MAX_FILE - off <? zlen buf)) with false by lia.
  destruct (ramfs_grow_spec n c (off + zlen buf) s Hh) as [(s1 & v1 & E & Hv1 & Hf1 & Hl & Ho)|(E & cap & Hc & Hr)];
    [lia| |]; rewrite E.
  - left. cbn [negb Z.eqb]. eexists. split; [reflexivity|]. split.
    + eexists. split; [by apply upd_at|]. by apply store_steps.
    + eapply only_trans; [exact Ho|]. apply upd_only. intros w. by repeat (ztest; cbn).
  - right. split; [done|]. exists cap. split; [lia|done].
Qed.

Lemma ramfs_truncate_ok n c size s : holds s n c -> 0 <= size <= RAMFS_MAX_FILE ->
  (exists s', ramfs_truncate n size s = (VFS_OK, s') /\ holds s' n (f_truncate c size) /\ only n s s') \/
  (zlen c < size /\ ramfs_truncate n size s = (VFS_ENOSPC, s) /\
   exists cap, cap <= RAMFS_MAX_FILE /\ room s cap = false).
Proof.
  intros Hh Hs. pose proof Hh as (v & Hv & Hf). pose proof Hf as (Ht & Hsz & k & Hk & Hd & Hm).
  unfold ramfs_truncate. rewrite Hv, Ht, Hsz. rewrite bool_decide_eq_false_2 by done.
  assert (Hkids : forall t f, (forall v, n_type (f v) = n_type v /\ n_mode (f v) = n_mode v /\ n_refs (f v) = n_refs v /\
    n_kids (f v) = n_kids v) -> forall w, n_type (set_mtime t (set_size size (f w))) = n_type w /\
    n_mode (set_mtime t (set_size size (f w))) = n_mode w /\ n_refs (set_mtime t (set_size size (f w))) = n_refs w /\
    n_kids (set_mtime t (set_size size (f w))) = n_kids w) by (intros t f Hfw w; apply Hfw).
  destruct (Z.ltb_spec (zlen c) size) as [Hlt|Hge].
  - destruct (ramfs_grow_spec n c size s Hh Hs) as [(s1 & v1 & E & Hv1 & Hf1 & Hl & Ho)|(E & cap & Hc & Hr)];
      rewrite E; [left|right; split; [done|]; split; [done|]; exists cap; split; [lia|done]].
    cbn [negb Z.eqb]. eexists. split; [reflexivity|].
    split; [|eapply only_trans; [exact Ho|]; apply upd_only; by apply (Hkids _ id)].
    eexists. split; [by apply upd_at|]. destruct Hf1 as (T1 & S1 & k1 & K1 & D1 & M1).
    unfold f_truncate. rewrite take_ge by (unfold zlen in *; lia). split; [done|].
    rewrite D1 in Hl. autorewrite with zlen in Hl |- *. rewrite zlen_zeros in * by lia.
    split; [cbn; lia|]. exists (zlen c + k1 - size). split; [lia|]. split; [|lia].
    cbn [n_data set_mtime set_size]. rewrite D1, <- app_assoc, zeros_app by lia. do 2 f_equal. lia.
  - left. pose proof (zlen_nonneg c).
    assert (Hcut : file_is (set_mtime (now s) (set_size size
      (set_data (patch size (zeros (n_size v - size)) (n_data v)) v))) (f_truncate c size)).
    { assert (Hl : zlen (f_truncate c size) = size).
      { unfold f_truncate. rewrite zeros_neg, app_nil_r by lia. unfold zlen in *. rewrite length_take. lia. }
      split; [done|]. split; [done|]. exists (zlen c + k - size). split; [lia|].
      split; [|lia]. cbn [n_data set_mtime set_size set_data]. by rewrite Hsz, Hd, patch_cut by lia. }
    destruct (Z.ltb_spec size (zlen c)) as [Hlt|Hge2]; cbn [negb Z.eqb].
    + eexists. split; [reflexivity|]. split.
      * eexists. split; [by apply upd_at, upd_at|]. unfold upd. rewrite Hv. exact Hcut.
      * eapply only_trans; apply upd_only; done.
    + eexists. split; [reflexivity|]. split; [|by apply upd_only, (Hkids _ id)].
      eexists. split; [by apply upd_at|]. assert (size = zlen c) as -> by lia.
      unfold f_truncate. rewrite Z.sub_diag, zeros_neg, app_nil_r, take_ge by (unfold zlen in *; lia).
      split; [done|]. split; [done|]. by exists k.
Qed.

Lemma ramfs_read_bytes s n c : holds s n c -> forall off len, 0 <= off -> 0 <= len ->
  ramfs_read n off len s = (zlen (f_read c off len), f_read c off len, s).
Proof.
  intros (v & Hv & Ht & Hs & k & Hk & Hd & Hm) off len H0 Hl. pose proof (zlen_nonneg c).
  unfold ramfs_read. rewrite Hv, Ht, Hs, Hd. rewrite bool_decide_eq_false_2 by done.
  unfold f_read. destruct (Z.leb_spec (zlen c) off) as [Hge|Hlt].
  { rewrite drop_ge by (unfold zlen in *; lia). by rewrite take_nil. }
  rewrite drop_app_le by (unfold zlen in *; lia).
  assert (Htk : forall m, 0 <= m <= zlen c - off ->
    take (Z.to_nat m) (drop (Z.to_nat off) c ++ zeros k) = take (Z.to_nat m) (drop (Z.to_nat off) c)).
  { intros m Hmm. rewrite take_app_le; [done|]. rewrite length_drop. unfold zlen in *. lia. }
  destruct (Z.ltb_spec (zlen c - off) len); rewrite Htk by lia;
    rewrite ?(take_ge _ (Z.to_nat (zlen c - off))), ?(take_ge _ (Z.to_nat len))
      by (rewrite length_drop; unfold zlen in *; lia);
    f_equal; f_equal; unfold zlen in *; rewrite ?length_take, ?length_drop; lia.
Qed.

(** C38: files in the RAM filesystem behave like plain byte strings. Whatever buffer
    growing, shrinking and regrowing went before, a read returns exactly the bytes
    there are; a write stores its bytes, fills a gap with zeroes and keeps the rest; a
    truncation cuts or pads with zeroes; so bytes that were cut off never come back. A
    write or truncation past the file limit, or one the heap has no memory for, is
    refused with VFS_ENOSPC and changes nothing. *)
Theorem ramfs_files_are_byte_strings s n c :
  holds s n c ->
  (forall off len, 0 <= off -> 0 <= len ->
     ramfs_read n off len s = (zlen (f_read c off len), f_read c off len, s)) /\
  (forall buf off, 0 <= off ->
     if bool_decide (buf = []) then ramfs_write n buf off s = (0, s)
     else if RAMFS_MAX_FILE <? off + zlen buf then ramfs_write n buf off s = (VFS_ENOSPC, s)
     else (exists s', ramfs_write n buf off s = (zlen buf, s') /\ holds s' n (f_write c off buf) /\ only n s s') \/
          (ramfs_write n buf off s = (VFS_ENOSPC, s) /\ exists cap, cap <= RAMFS_MAX_FILE /\ room s cap = false)) /\
  (forall size, 0 <= size ->
     if RAMFS_MAX_FILE <? size then ramfs_truncate n size s = (VFS_ENOSPC, s)
     else (exists s', ramfs_truncate n size s = (VFS_OK, s') /\ holds s' n (f_truncate c size) /\ only n s s') \/
          (zlen c < size /\ ramfs_truncate n size s = (VFS_ENOSPC, s) /\
           exists cap, cap <= RAMFS_MAX_FILE /\ room s cap = false)).
Proof.
  intros Hh. pose proof Hh as (v & Hv & Ht & Hs & k & Hk & Hd & Hm). pose proof (zlen_nonneg c).
  assert (Hcap : zlen (n_data v) = zlen c + k) by (rewrite Hd; autorewrite with zlen; by rewrite zlen_zeros).
  split; [|split].
  - by apply ramfs_read_bytes.
  - intros buf off H0. case_bool_decide as Hb.
    + subst. unfold ramfs_write. unfold at_node. rewrite Hv, Ht. by rewrite bool_decide_eq_false_2 by done.
    + destruct (Z.ltb_spec RAMFS_MAX_FILE (off + zlen buf)) as [Hgt|]; [|by apply ramfs_write_ok].
      unfold ramfs_write, at_node. rewrite Hv, Ht. rewrite bool_decide_eq_false_2 by done.
      destruct (Z.eqb_spec (zlen buf) 0) as [E|_]; [destruct buf; [done|autorewrite with zlen in E; pose proof (zlen_nonneg buf); lia]|].
      by replace ((RAMFS_MAX_FILE <? off) || (RAMFS_MAX_FILE - off <? zlen buf)) with true by lia.
  - intros size H0. destruct (Z.ltb_spec RAMFS_MAX_FILE size) as [Hgt|]; [|by apply ramfs_truncate_ok].
    unfold ramfs_truncate. rewrite Hv, Ht, Hs. rewrite bool_decide_eq_false_2 by done.
    destruct (Z.ltb_spec (zlen c) size); [|lia]. unfold ramfs_grow, at_node. rewrite Hv.
    destruct (Z.leb_spec size (zlen (n_data v))); [lia|]. by destruct (Z.ltb_spec RAMFS_MAX_FILE size); [|lia].
Qed.

(** A file that was cut from "secret" to nothing and written at offset 4 reads back
    with zeroes in the gap. *)
Definition cut_file : ramfs :=
  Ramfs {[7%nat := Vnode VNODE_FILE 6 0 0 1 (zeros 64) []]} 8 0 (fun _ => true).

Lemma cut_file_empty : holds cut_file 7 [].
Proof. exists (Vnode VNODE_FILE 6 0 0 1 (zeros 64) []). split; [done|]. split; [done|]. split; [done|]. by exists 64. Qed.

Lemma ramfs_files_are_byte_strings_witness :
  exists s', ramfs_write 7 (lit "x") 4 cut_file = (1, s') /\ holds s' 7 [0; 0; 0; 0; 120].
Proof.
  destruct (ramfs_files_are_byte_strings cut_file 7 [] cut_file_empty) as (_ & H & _).
  destruct (H (lit "x") 4 ltac:(lia)) as [(s' & E & Hs & _)|(_ & cap & _ & Hr)]; [|discriminate].
  exists s'. split; [exact E|exact Hs].
Defined.
