(* ===== verification/VfsSpec.v ===== *)
(** The VFS seen from both sides: the requests programs make of it, in any order, and the
    references they hold; and what a filesystem promises to it. *)

From S2P Require Import Prelude Bytes Paths Vfs.

(** ** Counting references *)

Definition cnt_if {A} (f : A -> bool) (l : list A) : Z := Z.of_nat (length (List.filter f l)).

(** Mounts and handles that refer to [n]. *)
Definition mounts_of (n : nat) (ms : list mount) : Z := cnt_if (fun m => Nat.eqb (root m) n) ms.
Definition handles_on (n : nat) (hs : list file) : Z := cnt_if (fun f => Nat.eqb (node f) n) hs.

Lemma cnt_if_nonneg {A} (f : A -> bool) l : 0 <= cnt_if f l.
Proof. unfold cnt_if. lia. Qed.
Lemma cnt_if_cons {A} (f : A -> bool) x l : cnt_if f (x :: l) = (if f x then 1 else 0) + cnt_if f l.
Proof. unfold cnt_if. cbn. destruct (f x); cbn [length]; lia. Qed.
Lemma cnt_if_app {A} (f : A -> bool) l l' : cnt_if f (l ++ l') = cnt_if f l + cnt_if f l'.
Proof. unfold cnt_if. rewrite List.filter_app, length_app. lia. Qed.
Lemma cnt_if_in {A} (f : A -> bool) x l : x ∈ l -> f x = true -> 1 <= cnt_if f l.
Proof.
  intros Hx Hf. apply list_elem_of_split in Hx as (l1 & l2 & ->). rewrite cnt_if_app, cnt_if_cons, Hf.
  pose proof (cnt_if_nonneg f l1). pose proof (cnt_if_nonneg f l2). lia.
Qed.

Lemma handles_cons n f hs : handles_on n (f :: hs) = (if Nat.eqb (node f) n then 1 else 0) + handles_on n hs.
Proof. unfold handles_on. by rewrite cnt_if_cons. Qed.

Lemma handles_replace hs h f f' n : hs !! h = Some f -> node f' = node f ->
  handles_on n (<[h := f']> hs) = handles_on n hs.
Proof.
  revert h. induction hs as [|g hs IH]; intros [|h] E Hn; [done|done| |].
  - injection E as ->. change (<[0%nat := f']> (f :: hs)) with (f' :: hs). by rewrite !handles_cons, Hn.
  - change (<[S h := f']> (g :: hs)) with (g :: <[h := f']> hs). by rewrite !handles_cons, (IH h).
Qed.

Lemma handles_remove hs h f n : hs !! h = Some f ->
  handles_on n hs = handles_on n (f :: (take h hs ++ drop (S h) hs)).
Proof.
  intros E. rewrite <- (take_drop_middle hs h f E) at 1. rewrite handles_cons.
  unfold handles_on. rewrite !cnt_if_app, cnt_if_cons. lia.
Qed.

(** ** Sessions *)

(** What programs ask of the VFS; handles are named by position. *)
Inductive request :=
  | Open (path : bytes) (fl : Z)
  | Close (h : nat)
  | Read (h : nat) (len : Z)
  | Write (h : nat) (buf : bytes)
  | Seek (h : nat) (off whence : Z)
  | Mkdir (path : bytes)
  | Unlink (dir leaf : bytes)
  | MountAt (mp fstype : bytes)
  | Stat (path : bytes)
  | Readdir (path : bytes) (index cap : Z).

Section Session.

Context {T : Type} `{Fs T}.

Local Open Scope prog_scope.

(** Use the open handle [h], if there is one; [k] returns what replaces it. *)
Definition with_handle (h : nat) (hs : list file) (k : file -> prog (vfs T) (list file)) : prog (vfs T) (list file) :=
  match hs !! h with Some f => k f | None => ret hs end.

(** Answer one request; the result is the open handles after it. *)
Definition serve (r : request) (hs : list file) : prog (vfs T) (list file) :=
  match r with
  | Open path fl => f <- vfs_open path fl ;; ret (match f with Some f => f :: hs | None => hs end)
  | Close h => with_handle h hs (fun f => vfs_close f ;;; ret (take h hs ++ drop (S h) hs))
  | Read h len => with_handle h hs (fun f => x <- vfs_read f len ;; ret (<[h := x.2]> hs))
  | Write h buf => with_handle h hs (fun f => x <- vfs_write f buf ;; ret (<[h := x.2]> hs))
  | Seek h off whence => with_handle h hs (fun f => x <- vfs_seek f off whence ;; ret (<[h := x.2]> hs))
  | Mkdir path => vfs_mkdir path ;;; ret hs
  | Unlink dir leaf => unlink_at dir leaf ;;; ret hs
  | MountAt mp fstype => vfs_mount mp fstype ;;; ret hs
  | Stat path => vfs_stat path ;;; ret hs
  | Readdir path index cap => vfs_readdir path index cap ;;; ret hs
  end.

Fixpoint serve_all (rs : list request) (hs : list file) : prog (vfs T) (list file) :=
  match rs with
  | [] => ret hs
  | r :: rs => hs <- serve r hs ;; serve_all rs hs
  end.

End Session.

(** ** The VFS against its filesystems: what a filesystem promises ([FsLaws]), what a
    path resolves to, and what the file operations do on top of any filesystem that
    keeps its promises. *)

(** ** The contract *)

(** [entry s d name] is the vnode behind a name in directory [d], [file_of] the
    contents of a file, [spare s c] that contents [c] can be stored. *)
Class FsLaws (S : Type) `{Fs S} := {
  valid : S -> Prop;
  entry : S -> nat -> bytes -> option nat;
  file_of : S -> nat -> option bytes;
  spare : S -> bytes -> Prop;
  law_lookup : forall s d name, valid s -> v_type s d = VNODE_DIR ->
    exists op, lookup_op s d = Some op /\
      op name s = match entry s d name with
                  | Some c => (VFS_OK, Some c, s) | None => (VFS_ENOENT, None, s) end;
  law_create : forall s d name ty, valid s -> v_type s d = VNODE_DIR ->
    exists op, create_op s d = Some op /\
      (entry s d name <> None \/ VFS_NAME_MAX < zlen name -> exists rc, rc <> VFS_OK /\ op name ty s = (rc, None, s)) /\
      (entry s d name = None -> zlen name <= VFS_NAME_MAX ->
       exists c s', op name ty s = (VFS_OK, Some c, s') /\ valid s' /\ v_type s' c = ty /\
         entry s' d name = Some c /\ (ty = VNODE_FILE -> file_of s' c = Some []) /\
         (forall x, v_type s x = VNODE_DIR -> v_type s' x = VNODE_DIR) /\
         (forall x n, v_type s x = VNODE_DIR -> (x, n) <> (d, name) -> entry s' x n = entry s x n) /\
         (forall x b, file_of s x = Some b -> file_of s' x = Some b /\ x <> c) /\
         (forall b, spare s b -> spare s' b));
  law_entry : forall s d name c, valid s -> v_type s d = VNODE_DIR -> entry s d name = Some c ->
    1 <= v_refs s c /\ (v_type s c = VNODE_FILE -> file_of s c <> None);
  law_file : forall s n b, valid s -> file_of s n = Some b -> v_type s n = VNODE_FILE /\ v_size s n = zlen b;
  law_read : forall s n b, valid s -> file_of s n = Some b ->
    exists op, read_op s n = Some op /\ forall off len, 0 <= off -> 0 <= len ->
      let r := take (Z.to_nat len) (drop (Z.to_nat off) b) in op off len s = (zlen r, r, s);
  law_write : forall s n b, valid s -> file_of s n = Some b ->
    exists op, write_op s n = Some op /\ forall buf off, 0 <= off <= zlen b -> buf <> [] ->
      let b' := take (Z.to_nat off) b ++ buf ++ drop (Z.to_nat off + length buf) b in
      spare s b' -> exists s', op buf off s = (zlen buf, s') /\ valid s' /\ file_of s' n = Some b' /\
        (forall x, v_type s' x = v_type s x /\ v_refs s' x = v_refs s x /\ entry s' x = entry s x) /\
        (forall x, x <> n -> file_of s' x = file_of s x);
  law_truncate : forall s n b, valid s -> file_of s n = Some b ->
    exists op, truncate_op s n = Some op /\ exists s', op 0 s = (VFS_OK, s') /\ valid s' /\ file_of s' n = Some [] /\
        (forall x, v_type s' x = v_type s x /\ v_refs s' x = v_refs s x /\ entry s' x = entry s x) /\
        (forall x, x <> n -> file_of s' x = file_of s x) /\ (forall b, spare s b -> spare s' b);
  law_refs : forall s n r, valid s -> 1 <= v_refs s n -> 1 <= r ->
    let s' := set_refs n r s in
    valid s' /\ v_refs s' n = r /\ (forall x, x <> n -> v_refs s' x = v_refs s x) /\
    (forall x, v_type s' x = v_type s x /\ entry s' x = entry s x /\ file_of s' x = file_of s x) /\
    (forall b, spare s b -> spare s' b) }.

(** ** What a path names *)

(** A component that does not fit, a file used as a directory and a missing name all
    end the walk. *)
Fixpoint walk_names {S} `{FsLaws S} (s : S) (cs : list bytes) (cur : nat) : option nat :=
  match cs with
  | [] => Some cur
  | c :: cs =>
      if VFS_NAME_MAX <? zlen c then None
      else if bool_decide (c = lit ".") then walk_names s cs cur
      else if bool_decide (v_type s cur = VNODE_DIR) then
        match entry s cur c with Some n => walk_names s cs n | None => None end
      else None
  end.

(** [m] holds [path]: it is the root mount, or its mount point is [path] or a
    directory above it. *)
Definition covers (m : mount) (path : bytes) : Prop :=
  mountpoint m = lit "/" \/
  exists rest, path = mountpoint m ++ rest /\ (rest = [] \/ exists t, rest = ch "/" :: t).

Definition resolved {S} `{FsLaws S} (v : vfs S) (path : bytes) : option nat :=
  if bool_decide (head path = Some (ch "/")) && (zlen path <=? VFS_PATH_MAX) then
    match mount_for path (mounts v) with
    | Some (m, len) => walk_names (fs v) (components (drop (Z.to_nat len) path)) (root m)
    | None => None
    end
  else None.

(** ** Mounts *)

Lemma starts_with_spec pre : forall s, starts_with pre s = true <-> exists rest, s = pre ++ rest.
Proof.
  induction pre as [|p pre IH]; intros s; cbn [starts_with app]; [by split; eauto|].
  destruct s as [|c s]; [split; [done|by intros (? & ?)]|].
  rewrite andb_true_iff, Z.eqb_eq, IH. split.
  - intros (-> & rest & ->). eauto.
  - intros (rest & [= -> ->]). eauto.
Qed.

Lemma mount_match_spec path m : no_nul path -> mount_match path m = true <-> covers m path.
Proof.
  intros Hn. unfold mount_match, covers. case_bool_decide as E; [tauto|].
  rewrite andb_true_iff, starts_with_spec, orb_true_iff, !Z.eqb_eq. split.
  - intros [[rest ->] Hb]. right. exists rest. split; [done|].
    rewrite app_nth2, Nat.sub_diag in Hb by lia. destruct rest as [|c t]; [auto|]. cbn in Hb.
    apply Forall_app in Hn as [_ Hn]. apply Forall_cons_iff in Hn as [Hc _].
    destruct Hb as [->| ->]; [done|]. eauto.
  - intros [?|(rest & -> & Hr)]; [done|]. split; [eauto|]. rewrite app_nth2, Nat.sub_diag by lia.
    destruct Hr as [->|[t ->]]; auto.
Qed.

Lemma best_mount_spec path ms : forall best,
  match best_mount path ms best with
  | None => best = None /\ forall m, m ∈ ms -> mount_match path m = false
  | Some (m, len) =>
      (best = Some (m, len) \/ (m ∈ ms /\ mount_match path m = true /\ len = mount_len m)) /\
      (forall b bl, best = Some (b, bl) -> bl <= len) /\
      (forall m', m' ∈ ms -> mount_match path m' = true -> mount_len m' <= len)
  end.
Proof.
  induction ms as [|m ms IH]; intros best; cbn [best_mount].
  - destruct best as [[b bl]|]; [|split; [done|]; intros m Hm; by apply elem_of_nil in Hm].
    split; [auto|]. split; [by intros ? ? [= -> ->]|]. intros m Hm. by apply elem_of_nil in Hm.
  - set (best' := if _ && _ then _ else best). specialize (IH best').
    destruct (best_mount path ms best') as [[m1 len]|].
    + destruct IH as (H1 & H2 & H3). split; [|split].
      * destruct H1 as [H1|(H1 & H4 & H5)]; [|right; split; [by right|done]].
        subst best'. destruct (mount_match path m) eqn:Em; cbn [andb] in *; [|by left].
        destruct best as [[b bl]|]; [destruct (bl <=? mount_len m); [|by left]|];
          injection H1 as -> <-; right; (split; [by left|done]).
      * intros b bl ->. subst best'. destruct (mount_match path m) eqn:Em; cbn [andb] in *; [|eauto].
        destruct (Z.leb_spec bl (mount_len m)); [|eauto]. specialize (H2 m (mount_len m) eq_refl). lia.
      * intros m' Hm' Hmm. apply elem_of_cons in Hm' as [->|Hm']; [|auto]. subst best'. rewrite Hmm in *.
        cbn [andb] in *. destruct best as [[b bl]|]; [|eauto]. destruct (Z.leb_spec bl (mount_len m)); [eauto|].
        specialize (H2 b bl eq_refl). lia.
    + destruct IH as [H1 H2]. subst best'. destruct (mount_match path m) eqn:Em; cbn [andb] in *.
      * destruct best as [[b bl]|]; [|done]. by destruct (bl <=? mount_len m).
      * split; [done|]. intros m' Hm'. apply elem_of_cons in Hm' as [->|Hm']; auto.
Qed.

(** ** The component loop *)

Lemma next_component_spec rel cap :
  next_component rel cap =
  match components rel with
  | [] => (0, [], [])
  | c :: _ => if cap - 1 <? zlen c then (-1, [], skip_seps rel) else (1, c, (span_until (ch "/") (skip_seps rel)).2)
  end.
Proof.
  unfold next_component. rewrite <- (components_skip rel).
  destruct (skip_shape rel) as [E|(c & r & E & Hc)]; rewrite E; [done|].
  unfold components. rewrite comps_span. cbn [span_until app]. destruct (Z.eqb_spec c (ch "/")); [done|].
  destruct (span_until _ r) as [a b]. done.
Qed.

Lemma components_tail rel c cs : components rel = c :: cs ->
  components (span_until (ch "/") (skip_seps rel)).2 = cs.
Proof.
  rewrite <- (components_skip rel). destruct (skip_shape rel) as [E|(x & r & E & Hx)]; rewrite E; [done|].
  unfold components at 1. rewrite comps_span. cbn [span_until app]. destruct (Z.eqb_spec x (ch "/")); [done|].
  destruct (span_until _ r) as [a b]. cbn. by intros [= _ ->].
Qed.

Section Laws.

Context {S : Type} `{FsLaws S}.

Lemma walk_path_spec fuel : forall rel cur (v : vfs S), valid (fs v) -> (length rel < fuel)%nat ->
  walk_path fuel rel cur v = Ok (walk_names (fs v) (components rel) cur) v.
Proof using.
  induction fuel as [|fuel IH]; intros rel cur v Hv Hf; [lia|]. cbn [walk_path].
  rewrite next_component_spec. destruct (components rel) as [|c cs] eqn:Ec; [done|].
  cbn [walk_names]. replace (VFS_NAME_MAX + 1 - 1) with VFS_NAME_MAX by done.
  destruct (VFS_NAME_MAX <? zlen c); [done|]. change (1 =? 1) with true. cbn match.
  assert (Hne : rel <> []) by (by intros ->).
  pose proof (span_progress rel Hne) as Hp. pose proof (components_tail rel c cs Ec) as Hcs.
  assert (Hrec : forall n, walk_path fuel (span_until (ch "/") (skip_seps rel)).2 n v = Ok (walk_names (fs v) cs n) v).
  { intros n. rewrite IH by (done || lia). by rewrite Hcs. }
  case_bool_decide; [apply Hrec|]. erewrite bind_ok by reflexivity.
  case_bool_decide as Hd; cbn [negb]; [|done].
  destruct (law_lookup (fs v) cur c Hv Hd) as (op & -> & Eop).
  assert (Ecall : forall r, op c (fs v) = (r, fs v) -> call (fun s => op c s) v = Ok r v)
    by (intros r Er; unfold call; rewrite Er; by destruct v).
  destruct (entry (fs v) cur c); erewrite bind_ok by (by apply Ecall); [|done].
  change (VFS_OK =? VFS_OK) with true. apply Hrec.
Qed.
Lemma resolve_path_spec path (v : vfs S) : valid (fs v) -> resolve_path path v = Ok (resolved v path) v.
Proof using.
  intros Hv. unfold resolve_path, resolved. case_bool_decide; cbn [negb andb]; [|done].
  rewrite Z.leb_antisym. destruct (VFS_PATH_MAX <? zlen path); cbn [negb]; [done|].
  erewrite bind_ok by reflexivity. destruct (mount_for path (mounts v)) as [[m len]|]; [|done].
  by rewrite walk_path_spec by (done || lia).
Qed.

(** The walk sees only types and entries. *)
Lemma walk_names_ext (s s' : S) cs : (forall x, v_type s' x = v_type s x /\ entry s' x = entry s x) ->
  forall cur, walk_names s' cs cur = walk_names s cs cur.
Proof using.
  intros Hx. induction cs as [|c cs IH]; intros cur; cbn [walk_names]; [done|].
  destruct (Hx cur) as [-> ->]. destruct (entry s cur c); by rewrite ?IH.
Qed.

Lemma walk_names_app (s : S) cs l : forall cur,
  walk_names s (cs ++ [l]) cur = match walk_names s cs cur with Some p => walk_names s [l] p | None => None end.
Proof using.
  induction cs as [|c cs IH]; intros cur; [done|]. cbn [app walk_names].
  destruct (_ <? _); [done|]. case_bool_decide; [apply IH|]. case_bool_decide; [|done].
  destruct (entry s cur c); [apply IH|done].
Qed.

(** A successful walk survives the creation of a name that was not there. *)
Lemma walk_names_mono (s s' : S) d name cs :
  entry s d name = None -> (forall x, v_type s x = VNODE_DIR -> v_type s' x = VNODE_DIR) ->
  (forall x n, v_type s x = VNODE_DIR -> (x, n) <> (d, name) -> entry s' x n = entry s x n) ->
  forall cur p, walk_names s cs cur = Some p -> walk_names s' cs cur = Some p.
Proof using.
  intros Hno Hty Hent. induction cs as [|c cs IH]; intros cur p; cbn [walk_names]; [done|].
  destruct (_ <? _); [done|]. case_bool_decide; [apply IH|]. case_bool_decide as Hd; [|done].
  rewrite bool_decide_eq_true_2 by auto. destruct (entry s cur c) as [n|] eqn:E; [|done].
  rewrite Hent, E; [apply IH|done|]. intros [= -> ->]. congruence.
Qed.

(** A file at the end of a walk is an entry of some directory, or where it began. *)
Lemma walk_names_entry (s : S) cs : forall cur n, walk_names s cs cur = Some n ->
  n = cur \/ exists d name, v_type s d = VNODE_DIR /\ entry s d name = Some n.
Proof using.
  induction cs as [|c cs IH]; intros cur n; cbn [walk_names]; [intros [= <-]; auto|].
  destruct (_ <? _); [done|]. case_bool_decide; [apply IH|]. case_bool_decide as Hd; [|done].
  destruct (entry s cur c) as [x|] eqn:E; [|done]. intros Hw. apply IH in Hw as [->|?]; eauto.
Qed.

End Laws.

(** ** Parents *)

Lemma split_last_spec path d l : split_last path = Some (d, l) ->
  path = d ++ ch "/" :: l /\ Forall (fun c => c <> ch "/") l.
Proof.
  assert (Hno : forall r, split_last r = None -> Forall (fun c => c <> ch "/") r).
  { induction r as [|c r IH]; cbn [split_last]; [done|]. destruct (split_last r) as [[? ?]|]; [done|].
    ztest; [done|]. intros _. constructor; auto. }
  revert d l. induction path as [|c r IH]; intros d l; cbn [split_last]; [done|].
  destruct (split_last r) as [[d' l']|] eqn:E.
  - intros [= <- <-]. destruct (IH d' l' eq_refl) as [-> ?]. done.
  - ztest; [|done]. intros [= <- <-]. subst. split; [done|auto].
Qed.

Lemma components_leaf l : l <> [] -> Forall (fun c => c <> ch "/") l -> components l = [l].
Proof.
  assert (Hc : forall l cur, Forall (fun c => c <> ch "/") l -> comps cur l = flush (cur ++ l) []).
  { clear l. induction l as [|c l IH]; intros cur H; cbn [comps]; [by rewrite app_nil_r|].
    apply Forall_cons_iff in H as [Hx H]. destruct (Z.eqb_spec c (ch "/")); [done|].
    rewrite IH by done. by rewrite <- app_assoc. }
  intros Hne Hl. unfold components. rewrite Hc by done. by destruct l.
Qed.

(** The directory a leaf lives in, as a path. *)
Definition dir_path (d : bytes) : bytes := if bool_decide (d = []) then lit "/" else d.

(** A mount that covers [d ++ "/" ++ l] covers its directory, unless it is mounted at
    that very path. *)
Lemma covers_parent d l m : Forall (fun c => c <> ch "/") l -> mountpoint m <> d ++ ch "/" :: l ->
  covers m (d ++ ch "/" :: l) <-> covers m (dir_path d).
Proof.
  intros Hl Hne. unfold covers, dir_path. split; (intros [?|(rest & E & Hr)]; [by left|]).
  - destruct Hr as [->|[t ->]]; [by rewrite app_nil_r in E|].
    assert (Hd : exists r', d = mountpoint m ++ r' /\ (r' = [] \/ exists t, r' = ch "/" :: t)).
    { clear Hne. revert E. generalize (mountpoint m). intros mp. revert d.
      induction mp as [|x mp IH]; intros d; cbn [app].
      - destruct d as [|y d]; cbn [app]; [intros _; exists []; auto|]. intros [= -> _]. eauto.
      - destruct d as [|y d]; cbn [app]; intros E; injection E as Ex E.
        + exfalso. subst. apply Forall_app in Hl as [_ Hl]. by apply Forall_cons_iff in Hl as [Hl _].
        + destruct (IH d E) as (r' & -> & Hr'). exists r'. subst. done. }
    destruct Hd as (r' & -> & Hr'). right. case_bool_decide as Ed; [|by exists r'].
    apply app_nil in Ed as [-> ->]. exists (lit "/"). split; [done|]. right. by exists [].
  - case_bool_decide as Ed.
    + subst d. destruct (mountpoint m) as [|x mp] eqn:Em; [right; exists (ch "/" :: l); eauto|].
      left. cbn in E. injection E as <- E. symmetry in E. by apply app_nil in E as [-> _].
    + right. exists (rest ++ ch "/" :: l). rewrite E, <- app_assoc. split; [done|].
      right. destruct Hr as [->|[t ->]]; eauto.
Qed.

Lemma best_mount_ext path path' ms : (forall m, m ∈ ms -> mount_match path m = mount_match path' m) ->
  forall best, best_mount path ms best = best_mount path' ms best.
Proof.
  induction ms as [|m ms IH]; intros Hm best; cbn [best_mount]; [done|].
  rewrite (Hm m) by left. apply IH. intros m' Hm'. apply Hm. by right.
Qed.

Lemma covers_length m path : covers m path -> mountpoint m = lit "/" \/ mount_len m <= zlen path.
Proof.
  unfold covers, mount_len. intros [?|(rest & -> & _)]; [auto|]. right. autorewrite with zlen.
  pose proof (zlen_nonneg rest). pose proof (zlen_nonneg (mountpoint m)). case_bool_decide; lia.
Qed.

Lemma no_nul_dir d l : no_nul (d ++ ch "/" :: l) -> no_nul (dir_path d).
Proof. intros Hn. unfold dir_path. case_bool_decide; [by constructor|]. by apply Forall_app in Hn as [? _]. Qed.

(** The mount of a path that is no mount point is the mount of its directory, and
    strips no more than the directory. *)
Lemma mount_for_parent d l ms : no_nul (d ++ ch "/" :: l) -> Forall (fun c => c <> ch "/") l ->
  (forall m, m ∈ ms -> mountpoint m <> d ++ ch "/" :: l) ->
  mount_for (d ++ ch "/" :: l) ms = mount_for (dir_path d) ms /\
  (forall m len, mount_for (dir_path d) ms = Some (m, len) -> 0 <= len <= zlen d).
Proof.
  intros Hn Hl Hne. pose proof (no_nul_dir d l Hn) as Hnd. split.
  - apply best_mount_ext. intros m Hm.
    pose proof (mount_match_spec (d ++ ch "/" :: l) m Hn) as E1. pose proof (mount_match_spec (dir_path d) m Hnd) as E2.
    pose proof (covers_parent d l m Hl (Hne m Hm)) as E3.
    destruct (mount_match (d ++ _ :: l) m), (mount_match (dir_path d) m); intuition congruence.
  - intros m len E. pose proof (best_mount_spec (dir_path d) ms None) as Hb. unfold mount_for in E. rewrite E in Hb.
    destruct Hb as ([?|(Hm & Hmm & ->)] & _); [done|]. apply mount_match_spec in Hmm; [|done].
    pose proof (zlen_nonneg d). pose proof (zlen_nonneg (mountpoint m)).
    unfold mount_len. case_bool_decide as Er; [lia|].
    destruct Hmm as [?|(rest & E1 & Hr)]; [done|]. unfold dir_path in E1. case_bool_decide as Ed.
    + subst d. destruct (mountpoint m) as [|x mp]; [done|]. exfalso. apply Er. cbn in E1. injection E1 as <- E1.
      symmetry in E1. by apply app_nil in E1 as [-> _].
    + rewrite E1. autorewrite with zlen. pose proof (zlen_nonneg rest). lia.
Qed.

Section Resolve.

Context {S : Type} `{FsLaws S}.

(** A path that is a mount point resolves. *)
Lemma resolved_mountpoint (v : vfs S) m path : no_nul path -> head path = Some (ch "/") ->
  zlen path <= VFS_PATH_MAX -> path <> lit "/" -> m ∈ mounts v -> mountpoint m = path -> resolved v path <> None.
Proof using.
  intros Hn Hh Hl Hr Hm Hp. unfold resolved.
  rewrite bool_decide_eq_true_2 by done. rewrite (proj2 (Z.leb_le _ _)) by done. cbn [andb].
  assert (Hc : mount_match path m = true).
  { apply mount_match_spec; [done|]. right. exists []. rewrite app_nil_r. auto. }
  assert (Hml : mount_len m = zlen path).
  { unfold mount_len. rewrite bool_decide_eq_false_2 by congruence. congruence. }
  pose proof (best_mount_spec path (mounts v) None) as Hb. fold (mount_for path (mounts v)) in Hb.
  destruct (mount_for path (mounts v)) as [[m1 len]|]; [|destruct Hb as [_ Hb]; by rewrite (Hb m Hm) in Hc].
  destruct Hb as ([?|(Hm1 & Hmm & ->)] & _ & Hmax); [done|]. specialize (Hmax m Hm Hc).
  rewrite drop_ge; [done|]. unfold zlen in *. lia.
Qed.

(** The walk to a leaf goes through its directory. *)
Lemma resolved_leaf (v : vfs S) d l p : no_nul (d ++ ch "/" :: l) -> Forall (fun c => c <> ch "/") l -> l <> [] ->
  head (d ++ ch "/" :: l) = Some (ch "/") -> zlen (d ++ ch "/" :: l) <= VFS_PATH_MAX ->
  (forall m, m ∈ mounts v -> mountpoint m <> d ++ ch "/" :: l) ->
  resolved v (dir_path d) = Some p -> 
  exists cs m, m ∈ mounts v /\ walk_names (fs v) cs (root m) = Some p /\
    forall v' : vfs S, mounts v' = mounts v -> resolved v' (d ++ ch "/" :: l) = walk_names (fs v') (cs ++ [l]) (root m).
Proof using.
  intros Hn Hl Hle Hh Hlen Hne. destruct (mount_for_parent d l (mounts v) Hn Hl Hne) as [Em Hb].
  unfold resolved at 1. case_bool_decide; [|done]. destruct (_ <=? _); [|done]. cbn [andb].
  pose proof (best_mount_spec (dir_path d) (mounts v) None) as Hbest. fold (mount_for (dir_path d) (mounts v)) in Hbest.
  destruct (mount_for (dir_path d) (mounts v)) as [[m len]|] eqn:Ed; [|done]. intros Hw.
  specialize (Hb m len eq_refl). destruct Hbest as ([?|(Hm & _ & _)] & _); [done|].
  exists (components (drop (Z.to_nat len) d)), m. split; [done|].
  assert (Ec : components (drop (Z.to_nat len) (dir_path d)) = components (drop (Z.to_nat len) d)).
  { unfold dir_path. case_bool_decide as E; [|done]. subst d. unfold zlen in Hb. cbn in Hb.
    replace (Z.to_nat len) with 0%nat by lia. done. }
  rewrite Ec in Hw. split; [done|]. intros v' Hv'. unfold resolved.
  rewrite bool_decide_eq_true_2 by done. rewrite (proj2 (Z.leb_le _ _)) by done. cbn [andb].
  rewrite Hv', Em. rewrite drop_app_le by (unfold zlen in Hb; lia).
  unfold components at 1. by rewrite comps_app, (components_leaf l) by done.
Qed.

(** After a create in the directory, the path names the new vnode. *)
Lemma resolved_created (v : vfs S) s' d l p c : no_nul (d ++ ch "/" :: l) -> Forall (fun c => c <> ch "/") l ->
  l <> [] -> head (d ++ ch "/" :: l) = Some (ch "/") -> zlen (d ++ ch "/" :: l) <= VFS_PATH_MAX ->
  zlen l <= VFS_NAME_MAX -> resolved v (d ++ ch "/" :: l) = None ->
  resolved v (dir_path d) = Some p -> v_type (fs v) p = VNODE_DIR ->
  entry (fs v) p l = None /\
  (entry s' p l = Some c -> (forall x, v_type (fs v) x = VNODE_DIR -> v_type s' x = VNODE_DIR) ->
   (forall x n, v_type (fs v) x = VNODE_DIR -> (x, n) <> (p, l) -> entry s' x n = entry (fs v) x n) ->
   resolved (Vfs (fstypes v) (mounts v) s') (d ++ ch "/" :: l) = Some c).
Proof using.
  intros Hn Hl Hle Hh Hlen Hll Hnone Hdir Hty.
  assert (Hne : forall m, m ∈ mounts v -> mountpoint m <> d ++ ch "/" :: l).
  { intros m Hm E. eapply (resolved_mountpoint v m); try done.
    intros E2. destruct d as [|x [|? ?]]; [|done..]. cbn in E2. by injection E2 as ->. }
  destruct (resolved_leaf v d l p Hn Hl Hle Hh Hlen Hne Hdir) as (cs & m & Hm & Hw & Hres).
  assert (Hlast : forall s, v_type s p = VNODE_DIR -> walk_names s [l] p =
    if bool_decide (l = lit ".") then Some p else entry s p l).
  { intros s Hs. cbn [walk_names]. rewrite (proj2 (Z.ltb_ge _ _)) by done. case_bool_decide; [done|].
    rewrite bool_decide_eq_true_2 by done. by destruct (entry s p l). }
  rewrite (Hres v eq_refl), walk_names_app, Hw, (Hlast (fs v) Hty) in Hnone.
  destruct (bool_decide (l = lit ".")) eqn:Edot; [done|]. split; [done|]. intros He Ht Hx.
  rewrite Hres by done. cbn [fs]. rewrite walk_names_app.
  rewrite (walk_names_mono (fs v) s' p l cs Hnone Ht Hx _ _ Hw), Hlast by auto. done.
Qed.

End Resolve.
