(* ===== verification/VfsClaims.v ===== *)
(** The VFS: what its operations do on top of any filesystem that keeps its contract. *)

From S2P Require Import Prelude Bytes Paths Vfs VfsSpec.

Section Claims.

Context {S : Type} `{FsLaws S}.

(** A path names what its components name. Resolution picks, among the mounts
    that cover the path by whole components, one with the longest mount point, and
    from its root follows the components of the rest of the path one by one, "."
    standing still. A path that is relative or too long, a component that is too long,
    a missing name or a file in the middle resolve to nothing, never to something
    else; nothing is changed, and the walk always ends. *)
Theorem resolve_names_the_path (v : vfs S) path :
  valid (fs v) -> no_nul path ->
  resolve_path path v = Ok (resolved v path) v /\
  match mount_for path (mounts v) with
  | Some (m, len) => m ∈ mounts v /\ covers m path /\ len = mount_len m /\
      forall m', m' ∈ mounts v -> covers m' path -> mount_len m' <= len
  | None => forall m, m ∈ mounts v -> ~ covers m path
  end.
Proof using.
  intros Hv Hn. split; [by apply resolve_path_spec|].
  pose proof (best_mount_spec path (mounts v) None) as Hb. fold (mount_for path (mounts v)) in Hb.
  destruct (mount_for path (mounts v)) as [[m len]|].
  - destruct Hb as ([?|(Hm & Hmm & ->)] & _ & Hmax); [done|]. split; [done|].
    split; [by apply mount_match_spec|]. split; [done|]. intros m' Hm' Hc. apply Hmax; [done|].
    by apply mount_match_spec.
  - destruct Hb as [_ Hb]. intros m Hm Hc. apply mount_match_spec in Hc; [|done]. by rewrite Hb in Hc.
Qed.

(** ** Opening for writing *)

Definition roots_are_dirs (v : vfs S) : Prop := forall m, m ∈ mounts v -> v_type (fs v) (root m) = VNODE_DIR.

(** The path names a file, or nothing yet while its directory exists. *)
Definition openable (v : vfs S) (path : bytes) : Prop :=
  (exists n, resolved v path = Some n /\ v_type (fs v) n = VNODE_FILE) \/
  (resolved v path = None /\ head path = Some (ch "/") /\ zlen path <= VFS_PATH_MAX /\
   exists d l p, split_last path = Some (d, l) /\ l <> [] /\ zlen l <= VFS_NAME_MAX /\
     resolved v (dir_path d) = Some p /\ v_type (fs v) p = VNODE_DIR).

(** A state whose files are those of [s], but for [n] and files not in [s]. *)
Definition keeps_files (n : nat) (s s' : S) : Prop :=
  forall x b, x <> n -> file_of s x = Some b -> file_of s' x = Some b.

Definition keeps_dirs (s s' : S) : Prop := forall x, v_type s x = VNODE_DIR -> v_type s' x = VNODE_DIR.

Definition with_fs (v : vfs S) (s : S) : vfs S := Vfs (fstypes v) (mounts v) s.

Lemma resolved_ext (v : vfs S) s s' path : (forall x, v_type s' x = v_type s x /\ entry s' x = entry s x) ->
  resolved (with_fs v s') path = resolved (with_fs v s) path.
Proof using.
  intros Hx. unfold resolved. cbn [mounts fs with_fs]. destruct (_ && _); [|done].
  destruct (mount_for _ _) as [[m len]|]; [|done]. by apply walk_names_ext.
Qed.

Lemma resolved_file_entry (v : vfs S) path n : roots_are_dirs v -> valid (fs v) ->
  resolved v path = Some n -> v_type (fs v) n = VNODE_FILE ->
  1 <= v_refs (fs v) n /\ exists b, file_of (fs v) n = Some b.
Proof using.
  intros Hr Hv Hp Ht. unfold resolved in Hp. destruct (_ && _); [|done].
  pose proof (best_mount_spec path (mounts v) None) as Hb. fold (mount_for path (mounts v)) in Hb.
  destruct (mount_for path (mounts v)) as [[m len]|]; [|done]. destruct Hb as ([?|(Hm & _)] & _); [done|].
  apply walk_names_entry in Hp as [->|(d & name & Hd & He)]; [by rewrite (Hr m Hm) in Ht|].
  destruct (law_entry _ _ _ _ Hv Hd He) as [Hrf Hfo]. split; [done|].
  destruct (file_of (fs v) n) as [b|]; [by exists b|]. by destruct (Hfo Ht).
Qed.

Lemma call_ok {A} (f : S -> A * S) a s' (v : vfs S) : f (fs v) = (a, s') -> call f v = Ok a (with_fs v s').
Proof using. unfold call. by intros ->. Qed.

(** The create branch of vfs_open. *)
Lemma create_missing_ok (v : vfs S) path : valid (fs v) -> no_nul path -> openable v path -> resolved v path = None ->
  exists n s1, create_missing path v = Ok (Some n) (with_fs v s1) /\ valid s1 /\ v_type s1 n = VNODE_FILE /\
    file_of s1 n = Some [] /\ 1 <= v_refs s1 n /\ resolved (with_fs v s1) path = Some n /\ keeps_files n (fs v) s1 /\
    (forall b, spare (fs v) b -> spare s1 b) /\ keeps_dirs (fs v) s1.
Proof using.
  intros Hv Hn [(n & E & _)|(_ & Hh & Hlen & d & l & p & Es & Hl & Hll & Hd & Ht)] Hnone; [congruence|].
  destruct (split_last_spec path d l Es) as [Ep Hsl].
  destruct (law_create (fs v) p l VNODE_FILE Hv Ht) as (op & Eop & _ & Hok).
  destruct (resolved_created v (fs v) d l p 0%nat) as [He _]; try done; [by rewrite <- Ep..|].
  destruct (Hok He Hll) as (c & s1 & Ec & V1 & T1 & E1 & F1 & D1 & N1 & K1 & P1).
  destruct (resolved_created v s1 d l p c) as [_ Hr]; try done; [by rewrite <- Ep..|].
  destruct (law_entry s1 p l c V1 (D1 p Ht) E1) as [R1 _].
  exists c, s1. split; [|split; [done|]; split; [done|]; split; [auto|]; split; [done|]; split; [rewrite Ep; by apply Hr|];
    split; [|done]; intros x b Hx Hf; by apply K1].
  unfold create_missing. erewrite bind_ok; cycle 1.
  { unfold resolve_parent. rewrite bool_decide_eq_true_2 by done. cbn [negb].
    rewrite (proj2 (Z.ltb_ge _ _)) by done. rewrite Es. rewrite bool_decide_eq_false_2 by done.
    rewrite (proj2 (Z.ltb_ge _ _)) by done. fold (dir_path d).
    erewrite bind_ok by (by apply resolve_path_spec). rewrite Hd. erewrite bind_ok by reflexivity.
    rewrite bool_decide_eq_true_2 by done. reflexivity. }
  cbn match. erewrite bind_ok by reflexivity. rewrite Eop.
  erewrite bind_ok by (apply call_ok; exact Ec). done.
Qed.

Definition O_REWRITE := Z.lor O_CREAT (Z.lor O_TRUNC O_WRONLY).

Lemma open_rewrite (v : vfs S) path : valid (fs v) -> no_nul path -> roots_are_dirs v -> openable v path ->
  exists n s1, vfs_open path O_REWRITE v = Ok (Some (File n 0 O_REWRITE)) (with_fs v s1) /\ valid s1 /\
    file_of s1 n = Some [] /\ 2 <= v_refs s1 n /\ resolved (with_fs v s1) path = Some n /\ keeps_files n (fs v) s1 /\
    (forall b, spare (fs v) b -> spare s1 b) /\ keeps_dirs (fs v) s1 /\ v_type s1 n = VNODE_FILE.
Proof using.
  intros Hv Hn Hroots Hop.
  assert (Hfound : exists n s0 b,
    bind (match resolved v path with Some n => ret (Some n) | None => create_missing path end) (fun r => ret r) v
      = Ok (Some n) (with_fs v s0) /\ valid s0 /\ v_type s0 n = VNODE_FILE /\ file_of s0 n = Some b /\
    1 <= v_refs s0 n /\ resolved (with_fs v s0) path = Some n /\ keeps_files n (fs v) s0 /\
    (forall b, spare (fs v) b -> spare s0 b) /\ keeps_dirs (fs v) s0).
  { destruct (resolved v path) as [n|] eqn:E.
    - destruct Hop as [(n' & E' & Ht)|(? & _)]; [|congruence]. rewrite E in E'. injection E' as <-.
      destruct (resolved_file_entry v path n Hroots Hv E Ht) as (Hr & b & Hb).
      exists n, (fs v), b. assert (Ev : with_fs v (fs v) = v) by (by destruct v). rewrite Ev.
      do 6 (split; [done|]). split; [by intros ? ? _|]. split; [auto|by intros ?].
    - destruct (create_missing_ok v path Hv Hn Hop E) as (n & s1 & E1 & ? & ? & ? & ? & ? & ? & ? & ?).
      exists n, s1, []. split; [by rewrite (bind_ok _ _ _ _ _ E1)|done]. }
  destruct Hfound as (n & s0 & b & E0 & V0 & T0 & F0 & R0 & P0 & K0 & Sp0 & D0).
  destruct (law_truncate s0 n b V0 F0) as (op & Eop & s1 & E1 & V1 & F1 & X1 & K1 & Sp1).
  assert (R1 : 1 <= v_refs s1 n) by (destruct (X1 n) as (_ & -> & _); done).
  assert (R1' : 1 <= v_refs s1 n + 1) by lia.
  destruct (law_refs s1 n (v_refs s1 n + 1) V1 R1 R1') as (V2 & R2 & _ & X2 & Sp2).
  set (s2 := set_refs n (v_refs s1 n + 1) s1) in *. exists n, s2. split.
  - unfold vfs_open. erewrite bind_ok by (by apply resolve_path_spec).
    assert (Em : (match resolved v path with Some n => ret (Some n)
      | None => if has O_REWRITE O_CREAT then create_missing path else ret None end) v = Ok (Some n) (with_fs v s0)).
    { change (has O_REWRITE O_CREAT) with true. cbn match. revert E0. unfold bind, ret.
      destruct (resolved v path); [done|]. by destruct (create_missing path v). }
    erewrite bind_ok by exact Em. cbn match. erewrite bind_ok by reflexivity. cbn [fs with_fs].
    rewrite bool_decide_eq_true_2 by done. change (has O_REWRITE O_TRUNC) with true. cbn [andb]. rewrite Eop.
    erewrite bind_ok by (erewrite bind_ok by (apply call_ok; exact E1); reflexivity).
    erewrite bind_ok by reflexivity. erewrite bind_ok by reflexivity. done.
  - split; [done|]. destruct (X2 n) as (_ & _ & ->). split; [done|]. split; [lia|].
    split.
    { rewrite <- P0. apply resolved_ext. intros x. destruct (X1 x) as (A1 & _ & A2), (X2 x) as (B1 & B2 & _).
      split; congruence. }
    split; [|split; [auto|]].
    { intros x c Hx Hf. destruct (X2 x) as (_ & _ & ->). rewrite K1 by done. by apply K0. }
    split; [|by destruct (X2 n) as (-> & _), (X1 n) as (-> & _)].
    intros x Hx. destruct (X2 x) as (-> & _), (X1 x) as (-> & _). by apply D0.
Qed.
(** Closing a handle that is not the last reference. *)
Lemma close_shared (v : vfs S) f : valid (fs v) -> 2 <= v_refs (fs v) (node f) ->
  exists s', vfs_close f v = Ok tt (with_fs v s') /\ valid s' /\ v_refs s' (node f) = v_refs (fs v) (node f) - 1 /\
    (forall x, v_type s' x = v_type (fs v) x /\ entry s' x = entry (fs v) x /\ file_of s' x = file_of (fs v) x) /\
    (forall b, spare (fs v) b -> spare s' b).
Proof using.
  intros Hv Hr. assert (H1 : 1 <= v_refs (fs v) (node f)) by lia.
  assert (H2 : 1 <= v_refs (fs v) (node f) - 1) by lia.
  destruct (law_refs (fs v) (node f) (v_refs (fs v) (node f) - 1) Hv H1 H2) as (V2 & R2 & _ & X2 & Sp2).
  eexists. split; [|split; [exact V2|]; split; [exact R2|split; [exact X2|exact Sp2]]].
  unfold vfs_close, kobject_put. erewrite bind_ok; cycle 1.
  { erewrite bind_ok by reflexivity. cbn beta. rewrite (proj2 (Z.leb_gt _ _)) by lia.
    erewrite bind_ok by reflexivity. reflexivity. }
  cbn beta. by rewrite (proj2 (Z.eqb_neq _ 0)) by lia.
Qed.

Lemma open_read (v : vfs S) path n : valid (fs v) -> resolved v path = Some n -> 1 <= v_refs (fs v) n ->
  exists s', vfs_open path O_RDONLY v = Ok (Some (File n 0 O_RDONLY)) (with_fs v s') /\ valid s' /\
    v_refs s' n = v_refs (fs v) n + 1 /\
    (forall x, v_type s' x = v_type (fs v) x /\ entry s' x = entry (fs v) x /\ file_of s' x = file_of (fs v) x) /\
    (forall b, spare (fs v) b -> spare s' b).
Proof using.
  intros Hv Hp Hr. assert (H2 : 1 <= v_refs (fs v) n + 1) by lia.
  destruct (law_refs (fs v) n (v_refs (fs v) n + 1) Hv Hr H2) as (V2 & R2 & _ & X2 & Sp2).
  eexists. split; [|split; [exact V2|split; [exact R2|split; [exact X2|exact Sp2]]]].
  unfold vfs_open. erewrite bind_ok by (by apply resolve_path_spec). rewrite Hp.
  erewrite bind_ok by reflexivity. cbn match. erewrite bind_ok by reflexivity.
  change (has O_RDONLY O_TRUNC) with false. rewrite andb_false_r.
  do 3 (erewrite bind_ok by reflexivity). done.
Qed.

Lemma write_fresh (v : vfs S) n buf : valid (fs v) -> file_of (fs v) n = Some [] -> buf <> [] -> spare (fs v) buf ->
  exists s', vfs_write (File n 0 O_REWRITE) buf v = Ok (zlen buf, File n (wrap64 (0 + zlen buf)) O_REWRITE) (with_fs v s') /\
    valid s' /\ file_of s' n = Some buf /\
    (forall x, v_type s' x = v_type (fs v) x /\ v_refs s' x = v_refs (fs v) x /\ entry s' x = entry (fs v) x) /\
    (forall x, x <> n -> file_of s' x = file_of (fs v) x).
Proof using.
  intros Hv Hf Hne Hsp. destruct (law_write (fs v) n [] Hv Hf) as (op & Eop & Hw).
  destruct (Hw buf 0) as (s2 & E2 & V2 & F2 & X2 & K2); [unfold zlen; cbn; lia|done|by rewrite drop_nil, app_nil_r|].
  rewrite drop_nil, app_nil_r in F2. cbn [take app] in F2. exists s2. split; [|done].
  unfold vfs_write. erewrite bind_ok by reflexivity. cbn [node flags]. rewrite Eop.
  change (Z.land O_REWRITE O_ACCMODE =? O_RDONLY) with false. change (has O_REWRITE O_APPEND) with false. cbn match.
  erewrite bind_ok by (apply call_ok; exact E2). cbn [pos node flags].
  assert (0 < zlen buf) by (destruct buf; [done|autorewrite with zlen; pose proof (zlen_nonneg buf); lia]).
  by rewrite (proj2 (Z.ltb_lt _ _)) by done.
Qed.

Lemma read_at (v : vfs S) n b off len : valid (fs v) -> file_of (fs v) n = Some b -> 0 <= off -> 0 <= len ->
  let r := take (Z.to_nat len) (drop (Z.to_nat off) b) in
  vfs_read (File n off O_RDONLY) len v =
  Ok (zlen r, r, File n (if 0 <? zlen r then wrap64 (off + zlen r) else off) O_RDONLY) v.
Proof using.
  intros Hv Hf Ho Hl r. destruct (law_read (fs v) n b Hv Hf) as (rd & Erd & Hrd). specialize (Hrd off len Ho Hl).
  fold r in Hrd. assert (Ew : with_fs v (fs v) = v) by (by destruct v).
  unfold vfs_read. erewrite bind_ok by reflexivity. cbn [node flags]. rewrite Erd.
  change (Z.land O_RDONLY O_ACCMODE =? O_WRONLY) with false. cbn match.
  erewrite bind_ok by (apply call_ok; exact Hrd). rewrite Ew. cbn [pos node flags]. by destruct (0 <? zlen r).
Qed.

(** C22: what is written to a file is what is read back. On any filesystem that keeps
    its contract, opening a path for rewriting (creating it if need be), writing some
    bytes, closing, opening the path again and reading returns exactly those bytes,
    whatever the file held before; no other file changes. *)
Theorem vfs_write_read_roundtrip (v : vfs S) path buf :
  valid (fs v) -> roots_are_dirs v -> no_nul path -> openable v path -> buf <> [] ->
  spare (fs v) buf ->
  exists n f v1 v2 v3 v4 g,
    vfs_open path O_REWRITE v = Ok (Some (File n 0 O_REWRITE)) v1 /\
    vfs_write (File n 0 O_REWRITE) buf v1 = Ok (zlen buf, f) v2 /\
    vfs_close f v2 = Ok tt v3 /\
    vfs_open path O_RDONLY v3 = Ok (Some g) v4 /\
    (forall len, zlen buf <= len -> exists g', vfs_read g len v4 = Ok (zlen buf, buf, g') v4) /\
    keeps_files n (fs v) (fs v4).
Proof using.
  intros Hv Hroots Hn Hop Hne Hsp.
  destruct (open_rewrite v path Hv Hn Hroots Hop) as (n & s1 & E1 & V1 & F1 & R1 & P1 & K1 & Sp1 & _).
  destruct (write_fresh (with_fs v s1) n buf V1 F1 Hne (Sp1 _ Hsp)) as (s2 & Hw2 & V2 & F2 & X2 & K2).
  set (f := File n (wrap64 (0 + zlen buf)) O_REWRITE) in *. cbn [fs with_fs] in *.
  destruct (close_shared (with_fs v s2) f) as (s3 & E3 & V3 & R3 & X3 & _); [done| |].
  { cbn. destruct (X2 n) as (_ & -> & _). lia. }
  cbn [fs with_fs node f] in *.
  assert (P3 : resolved (with_fs v s3) path = Some n).
  { rewrite <- P1. apply resolved_ext. intros x. destruct (X2 x) as (A1 & _ & A2), (X3 x) as (B1 & B2 & _). split; congruence. }
  destruct (open_read (with_fs v s3) path n V3 P3) as (s4 & E4 & V4 & _ & X4 & _).
  { cbn [fs with_fs]. rewrite R3. destruct (X2 n) as (_ & -> & _). lia. }
  cbn [fs with_fs] in *.
  assert (F4 : file_of s4 n = Some buf) by (destruct (X4 n) as (_ & _ & ->), (X3 n) as (_ & _ & ->); done).
  exists n, f, (with_fs v s1), (with_fs v s2), (with_fs v s3), (with_fs v s4), (File n 0 O_RDONLY).
  split; [done|]. split; [done|]. split; [done|]. split; [done|]. split.
  - intros len Hlen. pose proof (zlen_nonneg buf).
    pose proof (read_at (with_fs v s4) n buf 0 len V4 F4 ltac:(lia) ltac:(lia)) as Hrd. cbv zeta in Hrd.
    rewrite drop_0, take_ge in Hrd by (unfold zlen in *; lia). eauto.
  - intros x b Hx Hf. cbn [fs with_fs]. destruct (X4 x) as (_ & _ & ->), (X3 x) as (_ & _ & ->). rewrite K2 by done. by apply K1.
Qed.
End Claims.
