(* ===== verification/RamfsSpec.v ===== *)
(** fs/native/ramfs.c keeps the contract of the VFS. *)

From stdpp Require Import gmap.
From S2P Require Import Prelude Bytes FileSpec Paths Vfs Ramfs RamfsFile VfsSpec VfsClaims.

(** Vnodes are allocated below [next_node]; a file's buffer is in order; the target of
    every entry is allocated and referenced. *)
Record ramfs_valid (s : ramfs) : Prop := {
  rv_fresh : forall n v, nodes s !! n = Some v -> (n < next_node s)%nat;
  rv_file : forall n v, nodes s !! n = Some v -> n_type v = VNODE_FILE -> exists c, file_is v c;
  rv_kids : forall n v name c, nodes s !! n = Some v -> (name, c) ∈ n_kids v ->
    exists w, nodes s !! c = Some w /\ 1 <= n_refs w }.

Definition r_entry (s : ramfs) (d : nat) (name : bytes) : option nat :=
  find_entry name (at_node [] n_kids s d).

Definition r_file (s : ramfs) (n : nat) : option bytes :=
  match nodes s !! n with
  | Some v => if bool_decide (n_type v = VNODE_FILE) then Some (take (Z.to_nat (n_size v)) (n_data v)) else None
  | None => None
  end.

Definition r_spare (s : ramfs) (c : bytes) : Prop :=
  zlen c <= RAMFS_MAX_FILE /\ forall cap, cap <= RAMFS_MAX_FILE -> room s cap = true.

Lemma find_entry_elem name kids c : find_entry name kids = Some c -> (name, c) ∈ kids.
Proof.
  unfold find_entry. destruct (find _ kids) as [[x y]|] eqn:E; [|done]. intros [= <-].
  apply find_some in E as [Hin Hb]. apply bool_decide_eq_true in Hb. cbn in *. subst. by apply list_elem_of_In.
Qed.

Lemma find_entry_cons name c kids n :
  find_entry n ((name, c) :: kids) = if bool_decide (name = n) then Some c else find_entry n kids.
Proof. unfold find_entry. cbn. by destruct (bool_decide (name = n)). Qed.

Lemma file_is_take v c : file_is v c -> take (Z.to_nat (n_size v)) (n_data v) = c.
Proof.
  intros (_ & -> & k & _ & -> & _). unfold zlen. rewrite Nat2Z.id. by rewrite take_app_length.
Qed.

Lemma r_file_holds s n c : ramfs_valid s -> r_file s n = Some c <-> holds s n c.
Proof.
  intros Hv. unfold r_file, holds. destruct (nodes s !! n) as [v|] eqn:E; [|split; [done|by intros (? & ? & _)]].
  case_bool_decide as Ht.
  - destruct (rv_file _ Hv n v E Ht) as [c' Hc]. rewrite (file_is_take v c' Hc). split.
    + intros [= <-]. eauto.
    + intros (v' & [= <-] & Hf). by rewrite <- (file_is_take v c' Hc), (file_is_take v c Hf).
  - split; [done|]. intros (v' & [= <-] & Hf). by destruct Hf.
Qed.

(** Changing one vnode in place, types and entries kept, references still positive. *)
Lemma only_valid n s s' : ramfs_valid s -> only n s s' ->
  (forall v, nodes s' !! n = Some v -> n_type v = VNODE_FILE -> exists c, file_is v c) ->
  (nodes s !! n = None -> nodes s' !! n = None) -> ramfs_valid s'.
Proof.
  intros Hv (O1 & O2 & _ & _ & O5) Hf Hnone.
  assert (Hback : forall m v', nodes s' !! m = Some v' -> exists v, nodes s !! m = Some v /\ n_kids v' = n_kids v).
  { intros m v' E. destruct (decide (m = n)) as [->|Hne]; [|exists v'; by rewrite <- O1].
    destruct (nodes s !! n) as [v|] eqn:En; [|by rewrite Hnone in E].
    destruct (O5 v eq_refl) as (v1 & E1 & _ & _ & _ & Hk). exists v. split; [done|]. congruence. }
  split.
  - intros m v' E. destruct (Hback m v' E) as (v & Ev & _). rewrite O2. by eapply rv_fresh.
  - intros m v' E Ht. destruct (decide (m = n)) as [->|Hne]; [by apply Hf|].
    rewrite O1 in E by done. by eapply rv_file.
  - intros m v' name c E Hin. destruct (Hback m v' E) as (v & Ev & Hk). rewrite Hk in Hin.
    destruct (rv_kids _ Hv m v name c Ev Hin) as (w & Ew & Hr). destruct (decide (c = n)) as [->|Hne].
    + destruct (O5 w Ew) as (w1 & E1 & _ & _ & Hr1 & _). exists w1. split; [done|]. by rewrite Hr1.
    + exists w. by rewrite O1.
Qed.

Lemma only_views n s s' : only n s s' -> (nodes s !! n = None -> nodes s' !! n = None) ->
  (forall x, v_type s' x = v_type s x /\ v_refs s' x = v_refs s x /\ r_entry s' x = r_entry s x) /\
  (forall x, x <> n -> r_file s' x = r_file s x) /\ (forall b, r_spare s b -> r_spare s' b).
Proof.
  intros (O1 & O2 & _ & O4 & O5) Hnone. split; [|split].
  - intros x. cbn [v_type v_refs ramfs_ops]. unfold r_entry, at_node.
    destruct (decide (x = n)) as [->|Hne]; [|by rewrite O1].
    destruct (nodes s !! n) as [v|] eqn:E; [|by rewrite Hnone].
    destruct (O5 v eq_refl) as (v' & -> & -> & _ & -> & ->). done.
  - intros x Hx. unfold r_file. by rewrite O1.
  - unfold r_spare. by rewrite O4.
Qed.

Lemma holds_only_valid n s s' c c' : ramfs_valid s -> holds s n c -> holds s' n c' -> only n s s' -> ramfs_valid s'.
Proof.
  intros Hv (v & Ev & _) (v' & Ev' & Hf') Ho. eapply only_valid; [done|done| |].
  - intros w Ew _. rewrite Ev' in Ew. injection Ew as <-. eauto.
  - intros E. congruence.
Qed.

(** ** Creation *)

Lemma create_ok s d name ty dv : ramfs_valid s -> nodes s !! d = Some dv -> r_entry s d name = None ->
  zlen name <= VFS_NAME_MAX ->
  let c := next_node s in
  exists s', ramfs_create d name ty s = (VFS_OK, Some c, s') /\
    nodes s' !! c = Some (vfs_alloc_vnode ty (now s)) /\ c <> d /\
    (exists dv', nodes s' !! d = Some dv' /\ n_type dv' = n_type dv /\ n_kids dv' = (name, c) :: n_kids dv /\
       n_refs dv' = n_refs dv /\ n_size dv' = n_size dv /\ n_data dv' = n_data dv) /\
    (forall x, x <> c -> x <> d -> nodes s' !! x = nodes s !! x) /\
    next_node s' = Datatypes.S c /\ room s' = room s /\ nodes s !! c = None.
Proof.
  intros Hv Ed He Hl c. assert (Hfresh : nodes s !! c = None).
  { destruct (nodes s !! c) as [w|] eqn:E; [|done]. pose proof (rv_fresh _ Hv c w E). lia. }
  assert (Hcd : c <> d) by congruence. eexists. unfold ramfs_create.
  rewrite (proj2 (Z.ltb_ge _ _)) by done. unfold r_entry in He. rewrite He. cbn [alloc_node].
  split; [reflexivity|]. fold c. unfold upd. cbn [nodes]. rewrite lookup_insert_ne, Ed by done. cbn [nodes put_node].
  rewrite lookup_insert_eq. cbn [nodes put_node next_node room].
  split; [by rewrite !lookup_insert_ne, lookup_insert_eq by done|]. split; [done|].
  split; [eexists; split; [by rewrite lookup_insert_eq|done]|].
  split; [|done]. intros x Hxc Hxd. by rewrite !lookup_insert_ne by done.
Qed.

Lemma new_file_empty t : file_is (vfs_alloc_vnode VNODE_FILE t) [].
Proof. split; [done|]. split; [done|]. by exists 0. Qed.

Lemma create_valid s d name ty dv : ramfs_valid s -> nodes s !! d = Some dv -> n_type dv = VNODE_DIR ->
  r_entry s d name = None -> zlen name <= VFS_NAME_MAX ->
  ramfs_valid (ramfs_create d name ty s).2.
Proof.
  intros Hv Ed Hd He Hl.
  destruct (create_ok s d name ty dv Hv Ed He Hl) as (s' & E & Ec & Hcd & (dv' & Ed' & Td & Kd & Rd & _) & Hx & Hn & _ & Hfr).
  rewrite E. cbn [snd]. set (c := next_node s) in *.
  assert (Hlive : forall x w, nodes s !! x = Some w -> exists w', nodes s' !! x = Some w' /\ n_refs w' = n_refs w).
  { intros x w Ew. destruct (decide (x = d)) as [->|]; [exists dv'; split; [done|congruence]|].
    exists w. rewrite Hx; [done|congruence|done]. }
  assert (Hcases : forall x w, nodes s' !! x = Some w -> x = c \/ x = d \/ nodes s !! x = Some w).
  { intros x w Ew. destruct (decide (x = c)); [auto|]. destruct (decide (x = d)); [auto|]. rewrite Hx in Ew; auto. }
  split.
  - intros x w Ew. rewrite Hn. destruct (Hcases x w Ew) as [->|[->|Ew']]; [lia| |];
      [pose proof (rv_fresh _ Hv d dv Ed)|pose proof (rv_fresh _ Hv x w Ew')]; lia.
  - intros x w Ew Ht. destruct (Hcases x w Ew) as [->|[->|Ew']]; [| |by eapply rv_file].
    + rewrite Ec in Ew. injection Ew as <-. destruct ty; [|done]. exists []. apply new_file_empty.
    + rewrite Ed' in Ew. injection Ew as <-. congruence.
  - intros x w nm y Ew Hin. destruct (decide (x = c)) as [->|Hxc].
    { rewrite Ec in Ew. injection Ew as <-. by apply elem_of_nil in Hin. }
    assert (Hold : (exists w0, nodes s !! x = Some w0 /\ (nm, y) ∈ n_kids w0) \/ y = c).
    { destruct (Hcases x w Ew) as [?|[->|Ew']]; [done| |eauto]. rewrite Ed' in Ew. injection Ew as <-.
      rewrite Kd in Hin. apply elem_of_cons in Hin as [[= _ ->]|Hin]; [auto|]. left. eauto. }
    destruct Hold as [(w0 & E0 & Hin0)| ->]; [|rewrite Ec; by eexists].
    destruct (rv_kids _ Hv x w0 nm y E0 Hin0) as (z & Ez & Hr). destruct (Hlive y z Ez) as (z' & Ez' & Hz).
    exists z'. split; [done|]. lia.
Qed.

Lemma dir_alloc s d : v_type s d = VNODE_DIR -> exists dv, nodes s !! d = Some dv /\ n_type dv = VNODE_DIR.
Proof. cbn [v_type ramfs_ops]. unfold at_node. destruct (nodes s !! d) as [v|]; [eauto|done]. Qed.

Lemma ramfs_law_create s d name ty : ramfs_valid s -> v_type s d = VNODE_DIR ->
  exists op, create_op s d = Some op /\
    (r_entry s d name <> None \/ VFS_NAME_MAX < zlen name -> exists rc, rc <> VFS_OK /\ op name ty s = (rc, None, s)) /\
    (r_entry s d name = None -> zlen name <= VFS_NAME_MAX ->
     exists c s', op name ty s = (VFS_OK, Some c, s') /\ ramfs_valid s' /\ v_type s' c = ty /\
       r_entry s' d name = Some c /\ (ty = VNODE_FILE -> r_file s' c = Some []) /\
       (forall x, v_type s x = VNODE_DIR -> v_type s' x = VNODE_DIR) /\
       (forall x n, v_type s x = VNODE_DIR -> (x, n) <> (d, name) -> r_entry s' x n = r_entry s x n) /\
       (forall x b, r_file s x = Some b -> r_file s' x = Some b /\ x <> c) /\
       (forall b, r_spare s b -> r_spare s' b)).
Proof.
  intros Hv Ht. eexists. split; [reflexivity|]. destruct (dir_alloc s d Ht) as (dv & Ed & Td). split.
  - intros Hbad. unfold ramfs_create. destruct (Z.ltb_spec VFS_NAME_MAX (zlen name)); [by exists VFS_EINVAL|].
    fold (r_entry s d name). destruct (r_entry s d name); [by exists VFS_EEXIST|]. destruct Hbad; [done|lia].
  - intros He Hl.
    pose proof (create_valid s d name ty dv Hv Ed Td He Hl) as Hv'.
    destruct (create_ok s d name ty dv Hv Ed He Hl) as (s' & E & Ec & Hcd & (dv' & Ed' & Td' & Kd & Rd & Sd & Dd) & Hx & Hn & Hroom & Hfr).
    rewrite E in Hv'. cbn [snd] in Hv'. exists (next_node s), s'. set (c := next_node s) in *.
    assert (Hty : forall x, x <> c -> v_type s' x = v_type s x).
    { intros x Hxc. cbn [v_type ramfs_ops]. unfold at_node. destruct (decide (x = d)) as [->|]; [by rewrite Ed', Ed|].
      by rewrite Hx. }
    assert (Hne : forall x, v_type s x = VNODE_DIR -> x <> c).
    { intros x Hd ->. destruct (dir_alloc s c Hd) as (? & ? & _). congruence. }
    do 2 (split; [done|]). split; [cbn [v_type ramfs_ops]; unfold at_node; by rewrite Ec|].
    split; [unfold r_entry, at_node; rewrite Ed', Kd, find_entry_cons; by rewrite bool_decide_eq_true_2|].
    split; [intros ->; unfold r_file; by rewrite Ec|].
    split; [intros x Hd; rewrite Hty; auto|]. split; [|split].
    + intros x n Hd Hxn. unfold r_entry, at_node. destruct (decide (x = d)) as [->|]; [|by rewrite Hx by auto].
      rewrite Ed', Ed, Kd, find_entry_cons. rewrite bool_decide_eq_false_2; [done|]. intros ->. done.
    + intros x b Hf. assert (Hxc : x <> c) by (intros ->; unfold r_file in Hf; by rewrite Hfr in Hf). split; [|done].
      destruct (decide (x = d)) as [->|]; [|unfold r_file; rewrite Hx by done; exact Hf].
      unfold r_file in *. rewrite Ed in Hf. rewrite Td in Hf. by rewrite bool_decide_eq_false_2 in Hf.
    + unfold r_spare. by rewrite Hroom.
Qed.

Lemma ramfs_law_refs s n r : ramfs_valid s -> 1 <= v_refs s n -> 1 <= r ->
  let s' := set_refs n r s in
  ramfs_valid s' /\ v_refs s' n = r /\ (forall x, x <> n -> v_refs s' x = v_refs s x) /\
  (forall x, v_type s' x = v_type s x /\ r_entry s' x = r_entry s x /\ r_file s' x = r_file s x) /\
  (forall b, r_spare s b -> r_spare s' b).
Proof.
  intros Hv H1 Hr s'. subst s'. cbn [set_refs v_refs v_type ramfs_ops] in *. unfold at_node in *.
  destruct (nodes s !! n) as [v|] eqn:E; [|lia].
  assert (En : nodes (upd n (set_refcount r) s) !! n = Some (set_refcount r v)) by (by apply upd_at).
  assert (Ex : forall x, x <> n -> nodes (upd n (set_refcount r) s) !! x = nodes s !! x).
  { intros x Hx. unfold upd. rewrite E. cbn. by rewrite lookup_insert_ne. }
  assert (Hall : next_node (upd n (set_refcount r) s) = next_node s /\ room (upd n (set_refcount r) s) = room s)
    by (unfold upd; by rewrite E). destruct Hall as [Hnx Hrm].
  split; [|split; [by rewrite En|split; [intros x Hx; by rewrite Ex|split]]].
  - split.
    + intros x w Ew. rewrite Hnx. destruct (decide (x = n)) as [->|]; [by eapply rv_fresh|]. rewrite Ex in Ew by done. by eapply rv_fresh.
    + intros x w Ew Ht. destruct (decide (x = n)) as [->|]; [|rewrite Ex in Ew by done; by eapply rv_file].
      rewrite En in Ew. injection Ew as <-. destruct (rv_file _ Hv n v E Ht) as [c Hc]. by exists c.
    + intros x w nm y Ew Hin. assert (Hw : exists w0, nodes s !! x = Some w0 /\ (nm, y) ∈ n_kids w0).
      { destruct (decide (x = n)) as [->|]; [|rewrite Ex in Ew by done; eauto]. rewrite En in Ew. injection Ew as <-. eauto. }
      destruct Hw as (w0 & E0 & Hin0). destruct (rv_kids _ Hv x w0 nm y E0 Hin0) as (z & Ez & Hz).
      destruct (decide (y = n)) as [->|]; [eexists; split; [exact En|done]|]. exists z. by rewrite Ex.
  - intros x. unfold r_entry, r_file, at_node. destruct (decide (x = n)) as [->|]; [by rewrite En, E|]. by rewrite Ex.
  - unfold r_spare. by rewrite Hrm.
Qed.

#[export] Instance ramfs_laws : FsLaws ramfs.
Proof.
  refine {| valid := ramfs_valid; entry := r_entry; file_of := r_file; spare := r_spare;
    law_create := ramfs_law_create; law_refs := ramfs_law_refs |}.
  - intros s d name Hv Hd. eexists. split; [reflexivity|]. unfold ramfs_lookup. fold (r_entry s d name).
    by destruct (r_entry s d name).
  - intros s d name c Hv Hd He. destruct (dir_alloc s d Hd) as (dv & Ed & _).
    unfold r_entry, at_node in He. rewrite Ed in He. apply find_entry_elem in He.
    destruct (rv_kids _ Hv d dv name c Ed He) as (w & Ew & Hr). cbn [v_refs v_type ramfs_ops]. unfold at_node, r_file.
    rewrite Ew. split; [done|]. intros Ht. by rewrite bool_decide_eq_true_2.
  - intros s n b Hv Hf. apply r_file_holds in Hf as (v & Ev & Ht & Hs & _); [|done].
    cbn [v_type v_size ramfs_ops]. unfold at_node. by rewrite Ev.
  - intros s n b Hv Hf. apply r_file_holds in Hf; [|done]. eexists. split; [reflexivity|]. intros off len H0 Hl.
    by apply (ramfs_read_bytes s n b).
  - intros s n b Hv Hf. apply r_file_holds in Hf; [|done]. eexists. split; [reflexivity|].
    intros buf off Ho Hne b' [Hsz Hroom].
    assert (Hb' : f_write b off buf = b').
    { unfold f_write. rewrite zeros_neg, app_nil_r by lia. done. }
    assert (Hlen : off + zlen buf <= RAMFS_MAX_FILE).
    { unfold b' in Hsz. autorewrite with zlen in Hsz. pose proof (zlen_nonneg (drop (Z.to_nat off + length buf) b)).
      unfold zlen in *. rewrite length_take in Hsz. lia. }
    destruct (ramfs_write_ok n b buf off s Hf) as [(s' & E & Hh & Ho')|(_ & cap & Hc & Hr)]; [lia|done|lia| |].
    + assert (Hnone : nodes s !! n = None -> nodes s' !! n = None) by (destruct Hf as (? & ? & _); congruence).
      destruct (only_views n s s' Ho' Hnone) as (X1 & X2 & X3). rewrite Hb' in Hh.
      assert (Hv' : ramfs_valid s') by (by eapply holds_only_valid).
      exists s'. split; [done|]. split; [done|]. split; [by apply r_file_holds|]. done.
    + by rewrite Hroom in Hr.
  - intros s n b Hv Hf. apply r_file_holds in Hf; [|done]. eexists. split; [reflexivity|].
    pose proof (zlen_nonneg b).
    destruct (ramfs_truncate_ok n b 0 s Hf) as [(s' & E & Hh & Ho')|(? & _)]; [unfold RAMFS_MAX_FILE; lia| |lia].
    assert (Hnone : nodes s !! n = None -> nodes s' !! n = None) by (destruct Hf as (? & ? & _); congruence).
    destruct (only_views n s s' Ho' Hnone) as (X1 & X2 & X3).
    unfold f_truncate in Hh. rewrite zeros_neg in Hh by lia. cbn [take app Z.to_nat] in Hh.
    assert (Hv' : ramfs_valid s') by (by eapply holds_only_valid).
    exists s'. split; [done|]. split; [done|]. split; [by apply r_file_holds|]. done.
Defined.

(** ** The contract at work *)

(** A machine that just mounted a RAM filesystem at "/". *)
Definition boot_fs : ramfs := Ramfs {[1%nat := vfs_alloc_vnode VNODE_DIR 0]} 2 0 (fun _ => true).
Definition boot_vfs : vfs ramfs := Vfs [(lit "ramfs", ramfs_mount)] [Mount (lit "/") 1] boot_fs.

Lemma boot_is_reached :
  bind vfs_init (fun _ => bind ramfs_register (fun _ => vfs_mount (lit "/") (lit "ramfs")))
    (Vfs [] [] (Ramfs ∅ 1 0 (fun _ => true))) = Ok VFS_OK boot_vfs.
Proof. reflexivity. Qed.

Lemma boot_valid : ramfs_valid boot_fs.
Proof.
  assert (Hone : forall n v, nodes boot_fs !! n = Some v -> n = 1%nat /\ v = vfs_alloc_vnode VNODE_DIR 0).
  { intros n v E. cbn [nodes boot_fs] in E. by apply lookup_singleton_Some in E as [<- <-]. }
  split; intros n v; [intros E|intros E Ht|intros name c E Hin]; apply Hone in E as [-> ->].
  - cbn. lia.
  - done.
  - by apply elem_of_nil in Hin.
Qed.

Lemma resolve_names_the_path_witness :
  resolve_path (lit "/.//missing") boot_vfs = Ok None boot_vfs.
Proof.
  destruct (resolve_names_the_path boot_vfs (lit "/.//missing")) as [E _].
  - exact boot_valid.
  - repeat constructor; discriminate.
  - exact E.
Defined.

Lemma vfs_write_read_roundtrip_witness :
  exists n f v1 v2 v3 v4 g,
    vfs_open (lit "/notes") O_REWRITE boot_vfs = Ok (Some (File n 0 O_REWRITE)) v1 /\
    vfs_write (File n 0 O_REWRITE) (lit "hi") v1 = Ok (2, f) v2 /\
    vfs_close f v2 = Ok tt v3 /\ vfs_open (lit "/notes") O_RDONLY v3 = Ok (Some g) v4 /\
    (forall len, 2 <= len -> exists g', vfs_read g len v4 = Ok (2, lit "hi", g') v4) /\
    keeps_files n boot_fs (fs v4).
Proof.
  apply (vfs_write_read_roundtrip boot_vfs (lit "/notes") (lit "hi")).
  - exact boot_valid.
  - intros m Hm. apply list_elem_of_singleton in Hm. subst m. reflexivity.
  - repeat constructor; discriminate.
  - right. repeat split; [vm_compute; discriminate|].
    exists [], (lit "notes"), 1%nat. repeat split; [discriminate|vm_compute; discriminate].
  - discriminate.
  - split; [vm_compute; discriminate|done].
Defined.
