(* ===== verification/RamfsLife.v ===== *)
(** Lifetimes: along any sequence of VFS operations every reference is counted, so no
    vnode is freed while something points at it and none is kept when nothing does. *)

From stdpp Require Import gmap.
From S2P Require Import Prelude Bytes FileSpec Paths Vfs Ramfs RamfsFile VfsSpec VfsClaims RamfsSpec.

(** ** Counting references *)

Definition points (n : nat) (kids : list (bytes * nat)) : Z := cnt_if (fun e => Nat.eqb e.2 n) kids.

(** Directory entries that refer to [n]. *)
Definition entries_to (n : nat) (m : gmap nat vnode) : Z :=
  map_fold (fun _ v acc => points n (n_kids v) + acc) 0 m.

Lemma entries_delete n k v m : m !! k = Some v -> entries_to n m = points n (n_kids v) + entries_to n (delete k m).
Proof. intros E. unfold entries_to. apply (map_fold_delete_L (fun _ v acc => points n (n_kids v) + acc)); [lia|done]. Qed.

Lemma entries_insert_new n k v m : m !! k = None -> entries_to n (<[k := v]> m) = points n (n_kids v) + entries_to n m.
Proof. intros E. unfold entries_to. apply (map_fold_insert_L (fun _ v acc => points n (n_kids v) + acc)); [lia|done]. Qed.

Lemma entries_insert n k v v' m : m !! k = Some v ->
  entries_to n (<[k := v']> m) = entries_to n m - points n (n_kids v) + points n (n_kids v').
Proof.
  intros E. rewrite (entries_delete n k v m E). rewrite <- insert_delete_eq.
  rewrite entries_insert_new by apply lookup_delete_eq. lia.
Qed.

Lemma entries_nonneg n m : 0 <= entries_to n m.
Proof.
  unfold entries_to. apply (map_fold_weak_ind (fun r _ => 0 <= r)); [lia|].
  intros k v m' r _ Hr. pose proof (cnt_if_nonneg (fun e : bytes * nat => Nat.eqb e.2 n) (n_kids v)). unfold points. lia.
Qed.

Lemma entries_in n d v name m : m !! d = Some v -> (name, n) ∈ n_kids v -> 1 <= entries_to n m.
Proof.
  intros E Hin. rewrite (entries_delete n d v m E). pose proof (entries_nonneg n (delete d m)).
  assert (1 <= points n (n_kids v)) by (apply (cnt_if_in _ (name, n)); [done|cbn; apply Nat.eqb_refl]). lia.
Qed.

(** ** The invariant *)

Record sound (v : vfs ramfs) (hs : list file) : Prop := {
  sd_fresh : forall n w, nodes (fs v) !! n = Some w -> (n < next_node (fs v))%nat;
  sd_file : forall n w, nodes (fs v) !! n = Some w -> n_type w = VNODE_FILE -> n_kids w = [] /\ exists c, file_is w c;
  sd_refs : forall n w, nodes (fs v) !! n = Some w ->
    n_refs w = entries_to n (nodes (fs v)) + mounts_of n (mounts v) + handles_on n hs /\ 1 <= n_refs w;
  sd_dead : forall n, nodes (fs v) !! n = None ->
    entries_to n (nodes (fs v)) = 0 /\ mounts_of n (mounts v) = 0 /\ handles_on n hs = 0;
  sd_orphan : forall n w, nodes (fs v) !! n = Some w -> entries_to n (nodes (fs v)) = 0 ->
    mounts_of n (mounts v) = 0 -> n_kids w = [];
  sd_size : forall n w, nodes (fs v) !! n = Some w -> 0 <= n_size w;
  sd_roots : forall m, m ∈ mounts v -> v_type (fs v) (root m) = VNODE_DIR }.

Lemma sound_entry v hs n w name c : sound v hs -> nodes (fs v) !! n = Some w -> (name, c) ∈ n_kids w ->
  exists x, nodes (fs v) !! c = Some x.
Proof.
  intros Hs E Hin. pose proof (entries_in c n w name _ E Hin). destruct (nodes (fs v) !! c) as [x|] eqn:Ec; [eauto|].
  destruct (sd_dead _ _ Hs c Ec). lia.
Qed.

Lemma sound_valid v hs : sound v hs -> ramfs_valid (fs v).
Proof.
  intros Hs. split.
  - apply (sd_fresh _ _ Hs).
  - intros n w E Ht. apply (sd_file _ _ Hs n w E Ht).
  - intros n w name c E Hin. destruct (sound_entry v hs n w name c Hs E Hin) as [x Ex].
    exists x. split; [done|]. apply (sd_refs _ _ Hs c x Ex).
Qed.

(** Only how often each vnode is open matters. *)
Lemma sound_handles v hs hs' : (forall n, handles_on n hs' = handles_on n hs) -> sound v hs -> sound v hs'.
Proof. intros Hh [A1 A2 A3 A4 A5 A6 A7]. split; try done; intros; rewrite Hh; auto. Qed.

(** Changing a vnode in place (not its entries or references). *)
Lemma sound_only v hs n s' : sound v hs -> only n (fs v) s' -> (nodes (fs v) !! n = None -> nodes s' !! n = None) ->
  (forall w, nodes s' !! n = Some w -> exists c, file_is w c) -> sound (with_fs v s') hs.
Proof.
  intros Hs Ho Hnone Hf. pose proof Ho as (O1 & O2 & _ & _ & O5).
  assert (Hents : forall x, entries_to x (nodes s') = entries_to x (nodes (fs v))).
  { intros x. assert (Em : nodes s' = match nodes s' !! n with Some w => <[n := w]> (nodes (fs v)) | None => nodes (fs v) end).
    { apply map_eq. intros k. destruct (decide (k = n)) as [->|Hk].
      - destruct (nodes s' !! n) as [w|] eqn:E; [by rewrite lookup_insert_eq|].
        destruct (nodes (fs v) !! n) as [w|] eqn:E0; [|done]. destruct (O5 w eq_refl) as (? & ? & _). congruence.
      - rewrite O1 by done. destruct (nodes s' !! n); [by rewrite lookup_insert_ne|done]. }
    rewrite Em. destruct (nodes s' !! n) as [w|] eqn:E; [|done].
    destruct (nodes (fs v) !! n) as [w0|] eqn:E0; [|by specialize (Hnone eq_refl)].
    destruct (O5 w0 eq_refl) as (w1 & E1 & _ & _ & _ & Hk). assert (w1 = w) as -> by congruence.
    rewrite (entries_insert x n w0 w _ E0), Hk. lia. }
  assert (Hback : forall m w', nodes s' !! m = Some w' -> exists w, nodes (fs v) !! m = Some w /\
    n_kids w' = n_kids w /\ n_refs w' = n_refs w /\ n_type w' = n_type w).
  { intros m w' E. destruct (decide (m = n)) as [->|Hm]; [|exists w'; by rewrite <- O1].
    destruct (nodes (fs v) !! n) as [w|] eqn:E0; [|specialize (Hnone eq_refl); congruence].
    destruct (O5 w eq_refl) as (w1 & E1 & ? & _ & ? & ?). exists w. assert (w1 = w') as -> by congruence. done. }
  destruct (only_views n (fs v) s' Ho Hnone) as (X1 & _).
  split; cbn [fs mounts with_fs].
  - intros m w' E. destruct (Hback m w' E) as (w & Ew & _). rewrite O2. by eapply sd_fresh.
  - intros m w' E Ht. destruct (Hback m w' E) as (w & Ew & Hk & _ & Hty).
    rewrite Hk. destruct (sd_file _ _ Hs m w Ew) as [Hkids Hc]; [congruence|]. split; [done|].
    destruct (decide (m = n)) as [->|Hm]; [by apply Hf|]. rewrite O1 in E by done. by assert (w' = w) as -> by congruence.
  - intros m w' E. destruct (Hback m w' E) as (w & Ew & _ & -> & _). rewrite Hents. by apply (sd_refs _ _ Hs).
  - intros m E. rewrite Hents. apply (sd_dead _ _ Hs). destruct (decide (m = n)) as [->|Hm]; [|by rewrite <- O1].
    destruct (nodes (fs v) !! n) as [w|] eqn:E0; [|done]. destruct (O5 w eq_refl) as (? & ? & _). congruence.
  - intros m w' E H0 H1. destruct (Hback m w' E) as (w & Ew & -> & _). rewrite Hents in H0. by eapply sd_orphan.
  - intros m w' E. destruct (decide (m = n)) as [->|Hm].
    + destruct (Hf w' E) as [c (_ & -> & _)]. apply zlen_nonneg.
    + rewrite O1 in E by done. by apply (sd_size _ _ Hs m).
  - intros m Hm. destruct (X1 (root m)) as (-> & _). by apply (sd_roots _ _ Hs).
Qed.

(** Replacing the vnode at [n] by one that differs in references, entries or times: the counts must still add up. *)
Lemma sound_replace v hs n w w' hs' : sound v hs -> nodes (fs v) !! n = Some w ->
  n_type w' = n_type w -> n_size w' = n_size w -> (n_type w = VNODE_FILE -> n_kids w' = n_kids w /\ exists c, file_is w' c) ->
  (forall x, points x (n_kids w') + handles_on x hs' =
             points x (n_kids w) + handles_on x hs + (if Nat.eqb x n then n_refs w' - n_refs w else 0)) ->
  1 <= n_refs w' ->
  (forall x z, nodes (fs v) !! x = Some z -> mounts_of x (mounts v) = 0 ->
     entries_to x (nodes (fs v)) - points x (n_kids w) + points x (n_kids w') = 0 ->
     (if Nat.eqb x n then n_kids w' else n_kids z) = []) ->
  sound (with_fs v (put_node n w' (fs v))) hs'.
Proof.
  intros Hs En Hty Hsz Hfile Hcount Hpos Horph.
  assert (Hents : forall x, entries_to x (nodes (put_node n w' (fs v))) =
    entries_to x (nodes (fs v)) - points x (n_kids w) + points x (n_kids w')).
  { intros x. by apply entries_insert. }
  assert (Hne : forall x, x <> n -> nodes (put_node n w' (fs v)) !! x = nodes (fs v) !! x).
  { intros x Hx. cbn. by rewrite lookup_insert_ne. }
  assert (Hn : nodes (put_node n w' (fs v)) !! n = Some w') by (cbn; by rewrite lookup_insert_eq).
  assert (Heq : forall x, Nat.eqb x n = false -> x <> n) by (intros x Hx; by apply Nat.eqb_neq).
  split; cbn [fs mounts with_fs].
  - intros x z E. destruct (decide (x = n)) as [->|Hx]; [exact (sd_fresh _ _ Hs n w En)|].
    rewrite Hne in E by done. by eapply (sd_fresh _ _ Hs).
  - intros x z E Ht. destruct (decide (x = n)) as [->|Hx].
    + rewrite Hn in E. injection E as <-. destruct (Hfile ltac:(congruence)) as [Hk Hc].
      rewrite Hk. split; [|done]. apply (sd_file _ _ Hs n w En). congruence.
    + rewrite Hne in E by done. exact (sd_file _ _ Hs x z E Ht).
  - intros x z E. rewrite Hents. specialize (Hcount x). destruct (decide (x = n)) as [->|Hx].
    + rewrite Hn in E. injection E as <-. rewrite Nat.eqb_refl in Hcount.
      destruct (sd_refs _ _ Hs n w En). split; [lia|done].
    + rewrite Hne in E by done. rewrite (proj2 (Nat.eqb_neq x n)) in Hcount by done.
      destruct (sd_refs _ _ Hs x z E). split; [lia|done].
  - intros x E. assert (Hx : x <> n) by (intros ->; congruence). rewrite Hne in E by done.
    destruct (sd_dead _ _ Hs x E) as (E1 & E2 & E3). rewrite Hents. specialize (Hcount x).
    rewrite (proj2 (Nat.eqb_neq x n)) in Hcount by done. rewrite (entries_delete x n w _ En) in *.
    pose proof (entries_nonneg x (delete n (nodes (fs v)))).
    pose proof (cnt_if_nonneg (fun e : bytes * nat => Nat.eqb e.2 x) (n_kids w)).
    pose proof (cnt_if_nonneg (fun e : bytes * nat => Nat.eqb e.2 x) (n_kids w')).
    pose proof (cnt_if_nonneg (fun f => Nat.eqb (node f) x) hs'). unfold points, handles_on in *. lia.
  - intros x z E H0 H1. rewrite Hents in H0. destruct (decide (x = n)) as [->|Hx].
    + rewrite Hn in E. injection E as <-. specialize (Horph n w En H1 H0). by rewrite Nat.eqb_refl in Horph.
    + rewrite Hne in E by done. specialize (Horph x z E H1 H0). by rewrite (proj2 (Nat.eqb_neq x n)) in Horph by done.
  - intros x z E. destruct (decide (x = n)) as [->|Hx].
    + rewrite Hn in E. injection E as <-. rewrite Hsz. exact (sd_size _ _ Hs n w En).
    + rewrite Hne in E by done. exact (sd_size _ _ Hs x z E).
  - intros m Hm. pose proof (sd_roots _ _ Hs m Hm) as Hr. cbn [v_type ramfs_ops] in *. unfold at_node in *.
    destruct (decide (root m = n)) as [Er|Hx]; [|by rewrite Hne]. rewrite Er in *. rewrite En in Hr. by rewrite Hn, Hty.
Qed.

(** A new vnode, held by a handle. *)
Lemma sound_alloc v hs ty : sound v hs ->
  let '(c, s') := alloc_node ty (fs v) in
  nodes (fs v) !! c = None /\ sound (with_fs v s') (File c 0 0 :: hs).
Proof.
  intros Hs. cbn [alloc_node]. set (c := next_node (fs v)).
  assert (Hfr : nodes (fs v) !! c = None).
  { destruct (nodes (fs v) !! c) as [w|] eqn:E; [|done]. pose proof (sd_fresh _ _ Hs c w E). lia. }
  split; [done|]. destruct (sd_dead _ _ Hs c Hfr) as (D1 & D2 & D3).
  assert (Hents : forall x, entries_to x (<[c := vfs_alloc_vnode ty (now (fs v))]> (nodes (fs v))) = entries_to x (nodes (fs v))).
  { intros x. by rewrite entries_insert_new. }
  assert (Hh : forall x, handles_on x (File c 0 0 :: hs) = (if Nat.eqb c x then 1 else 0) + handles_on x hs).
  { intros x. apply handles_cons. }
  split; cbn [fs mounts with_fs nodes next_node].
  - intros x w E. destruct (decide (x = c)) as [->|Hx]; [lia|]. rewrite lookup_insert_ne in E by done.
    pose proof (sd_fresh _ _ Hs x w E). lia.
  - intros x w E Ht. destruct (decide (x = c)) as [->|Hx].
    + rewrite lookup_insert_eq in E. injection E as <-. split; [done|]. exists []. destruct ty; [apply new_file_empty|done].
    + rewrite lookup_insert_ne in E by done. by apply (sd_file _ _ Hs x w E).
  - intros x w E. rewrite Hents, Hh. destruct (decide (x = c)) as [->|Hx].
    + rewrite lookup_insert_eq in E. injection E as <-. rewrite Nat.eqb_refl. cbn. lia.
    + rewrite lookup_insert_ne in E by done. rewrite (proj2 (Nat.eqb_neq c x)) by done.
      destruct (sd_refs _ _ Hs x w E). lia.
  - intros x E. assert (Hx : x <> c) by (intros ->; by rewrite lookup_insert_eq in E).
    rewrite lookup_insert_ne in E by done. rewrite Hents, Hh, (proj2 (Nat.eqb_neq c x)) by done. by apply (sd_dead _ _ Hs).
  - intros x w E H0 H1. destruct (decide (x = c)) as [->|Hx]; [rewrite lookup_insert_eq in E; by injection E as <-|].
    rewrite lookup_insert_ne in E by done. rewrite Hents in H0. by eapply (sd_orphan _ _ Hs).
  - intros x w E. destruct (decide (x = c)) as [->|Hx]; [rewrite lookup_insert_eq in E; by injection E as <-|].
    rewrite lookup_insert_ne in E by done. by apply (sd_size _ _ Hs x).
  - intros m Hm. pose proof (sd_roots _ _ Hs m Hm) as Hr. cbn [v_type ramfs_ops] in *. unfold at_node in *. cbn [nodes].
    rewrite lookup_insert_ne; [done|]. intros E. rewrite <- E, Hfr in Hr. done.
Qed.

(** Freeing a vnode nothing refers to. *)
Lemma sound_free v hs n w : sound v (File n 0 0 :: hs) -> nodes (fs v) !! n = Some w -> n_refs w = 1 ->
  sound (with_fs v (ramfs_reclaim n (fs v))) hs.
Proof.
  intros Hs En Hr. destruct (sd_refs _ _ Hs n w En) as [Href _].
  assert (Hh : forall x, handles_on x (File n 0 0 :: hs) = (if Nat.eqb n x then 1 else 0) + handles_on x hs) by (intros x; apply handles_cons).
  rewrite Hh, Nat.eqb_refl in Href.
  pose proof (entries_nonneg n (nodes (fs v))). pose proof (cnt_if_nonneg (fun m => Nat.eqb (root m) n) (mounts v)).
  pose proof (cnt_if_nonneg (fun f => Nat.eqb (node f) n) hs).
  assert (Hz : entries_to n (nodes (fs v)) = 0 /\ mounts_of n (mounts v) = 0 /\ handles_on n hs = 0)
    by (unfold mounts_of, handles_on in *; lia). destruct Hz as (Z1 & Z2 & Z3).
  pose proof (sd_orphan _ _ Hs n w En Z1 Z2) as Hk.
  assert (Hents : forall x, entries_to x (delete n (nodes (fs v))) = entries_to x (nodes (fs v))).
  { intros x. rewrite (entries_delete x n w _ En), Hk. done. }
  assert (Hsome : forall x z, delete n (nodes (fs v)) !! x = Some z -> x <> n /\ nodes (fs v) !! x = Some z)
    by (intros x z E; apply lookup_delete_Some in E as [? ?]; auto).
  split; cbn [fs mounts with_fs ramfs_reclaim nodes next_node].
  - intros x z E. apply Hsome in E as [_ E]. by eapply (sd_fresh _ _ Hs).
  - intros x z E Ht. apply Hsome in E as [_ E]. by apply (sd_file _ _ Hs x z E).
  - intros x z E. apply Hsome in E as [Hx E]. rewrite Hents. destruct (sd_refs _ _ Hs x z E) as [E1 E2].
    rewrite Hh, (proj2 (Nat.eqb_neq n x)) in E1 by done. split; [lia|done].
  - intros x E. rewrite Hents. apply lookup_delete_None in E as [<-|E]; [done|].
    destruct (sd_dead _ _ Hs x E) as (D1 & D2 & D3). rewrite Hh in D3. pose proof (cnt_if_nonneg (fun f => Nat.eqb (node f) x) hs).
    unfold handles_on in *. destruct (Nat.eqb n x); lia.
  - intros x z E H2 H3. apply Hsome in E as [_ E]. rewrite Hents in H2. by eapply (sd_orphan _ _ Hs).
  - intros x z E. apply Hsome in E as [_ E]. by apply (sd_size _ _ Hs x).
  - intros m Hm. pose proof (sd_roots _ _ Hs m Hm) as Hrt. cbn [v_type ramfs_ops] in *. unfold at_node in *.
    destruct (decide (root m = n)) as [E|Hne].
    { exfalso. assert (1 <= mounts_of n (mounts v)) by (apply (cnt_if_in _ m); [done|by apply Nat.eqb_eq]). lia. }
    destruct (nodes (fs v) !! root m) as [z|] eqn:E; [|done]. cbn. by rewrite lookup_delete_ne, E by done.
Qed.

(** ** Every VFS operation on the RAM filesystem keeps the reference counts, and what
    follows for whole sessions: nothing is freed while in use, nothing is leaked. *)

(** ** References and entries one at a time *)

Lemma sound_refcount v hs hs' n w r : sound v hs -> nodes (fs v) !! n = Some w -> 1 <= r ->
  (forall x, handles_on x hs' = handles_on x hs + (if Nat.eqb x n then r - n_refs w else 0)) ->
  sound (with_fs v (upd n (set_refcount r) (fs v))) hs'.
Proof.
  intros Hs En Hr Hh. unfold upd. rewrite En. apply (sound_replace v hs n w); try done.
  - intros Ht. destruct (sd_file _ _ Hs n w En Ht) as (_ & c & Hc). split; [done|]. by exists c.
  - intros x. cbn [n_kids set_refcount n_refs]. rewrite Hh. lia.
  - intros x z Ez H0 H1. cbn [n_kids set_refcount] in *. assert (Hk : n_kids z = []).
    { apply (sd_orphan _ _ Hs x z Ez); [lia|done]. }
    destruct (Nat.eqb_spec x n) as [->|]; [congruence|done].
Qed.

Lemma sound_get v hs n w p fl : sound v hs -> nodes (fs v) !! n = Some w ->
  sound (with_fs v (upd n (set_refcount (n_refs w + 1)) (fs v))) (File n p fl :: hs).
Proof.
  intros Hs En. destruct (sd_refs _ _ Hs n w En). apply (sound_refcount v hs _ n w); [done|done|lia|].
  intros x. rewrite handles_cons. cbn [node]. rewrite (Nat.eqb_sym n x). destruct (Nat.eqb x n); lia.
Qed.

(** A handle is on an allocated vnode. *)
Lemma sound_handle v hs f : sound v hs -> f ∈ hs -> exists w, nodes (fs v) !! node f = Some w /\ 1 <= n_refs w.
Proof.
  intros Hs Hf. destruct (nodes (fs v) !! node f) as [w|] eqn:E.
  - exists w. split; [done|]. apply (sd_refs _ _ Hs _ _ E).
  - destruct (sd_dead _ _ Hs _ E) as (_ & _ & H0).
    assert (1 <= handles_on (node f) hs) by (apply (cnt_if_in _ f); [done|apply Nat.eqb_refl]). lia.
Qed.

(** Dropping a handle's reference, freeing the vnode when it was the last. *)
Definition drop_ref (n : nat) (s : ramfs) : ramfs :=
  let r := at_node 0 n_refs s n in
  let s' := upd n (set_refcount (r - 1)) s in if r - 1 =? 0 then ramfs_reclaim n s' else s'.

Lemma sound_put v hs f : sound v (f :: hs) ->
  1 <= at_node 0 n_refs (fs v) (node f) /\ sound (with_fs v (drop_ref (node f) (fs v))) hs.
Proof.
  intros Hs. destruct (sound_handle v _ f Hs) as (w & Ew & Hw); [by left|].
  unfold drop_ref, at_node. rewrite Ew. split; [done|]. destruct (Z.eqb_spec (n_refs w - 1) 0) as [E|E].
  - assert (Er : ramfs_reclaim (node f) (upd (node f) (set_refcount (n_refs w - 1)) (fs v)) = ramfs_reclaim (node f) (fs v)).
    { unfold upd. rewrite Ew. unfold ramfs_reclaim. cbn [nodes put_node next_node now room]. by rewrite delete_insert_eq. }
    rewrite Er. apply (sound_free v hs (node f) w); [|done|lia].
    eapply sound_handles; [|exact Hs]. intros x. by rewrite !handles_cons.
  - apply (sound_refcount v (f :: hs) hs (node f) w); [done|done|lia|].
    intros x. rewrite handles_cons, (Nat.eqb_sym (node f) x). destruct (Nat.eqb x (node f)); lia.
Qed.

(** A directory that a path can name: an entry or a mount leads to it. *)
Definition linked (v : vfs ramfs) (n : nat) : Prop :=
  (exists w, nodes (fs v) !! n = Some w) /\ 1 <= entries_to n (nodes (fs v)) + mounts_of n (mounts v).

Lemma points_cons x name c kids : points x ((name, c) :: kids) = (if Nat.eqb c x then 1 else 0) + points x kids.
Proof. unfold points. by rewrite cnt_if_cons. Qed.

Lemma points_drop x name c kids : find_entry name kids = Some c ->
  points x kids = (if Nat.eqb c x then 1 else 0) + points x (drop_entry name kids).
Proof.
  induction kids as [|[n d] kids IH]; [done|]. rewrite find_entry_cons, points_cons. cbn [drop_entry fst].
  case_bool_decide; [by intros [= ->]|]. intros E. rewrite points_cons, (IH E). lia.
Qed.

(** The reference a new vnode is born with becomes that of its entry. *)
Lemma sound_link v hs d dv dv' name c p fl : sound v (File c p fl :: hs) -> linked v d ->
  nodes (fs v) !! d = Some dv -> n_type dv = VNODE_DIR -> n_type dv' = VNODE_DIR -> n_size dv' = n_size dv -> n_refs dv' = n_refs dv ->
  n_kids dv' = (name, c) :: n_kids dv -> sound (with_fs v (put_node d dv' (fs v))) hs.
Proof.
  intros Hs [_ Hl] Ed Ht Ht' Hz Hr Hk. destruct (sd_refs _ _ Hs d dv Ed).
  apply (sound_replace v (File c p fl :: hs) d dv); [done|done|congruence|done|congruence| |lia|].
  - intros x. rewrite Hk, points_cons, handles_cons. cbn [node]. destruct (Nat.eqb x d); lia.
  - intros x z Ez H1 H2. rewrite Hk, points_cons in H2. pose proof (entries_nonneg x (nodes (fs v))).
    destruct (Nat.eqb_spec x d) as [->|Hx]; [destruct (Nat.eqb c d); lia|].
    apply (sd_orphan _ _ Hs x z Ez); [destruct (Nat.eqb c x); lia|done].
Qed.

(** Removing an entry to a vnode without entries leaves its reference to whoever
    removed it. *)
Lemma sound_cut v hs d dv dv' name c cv : sound v hs -> nodes (fs v) !! d = Some dv ->
  find_entry name (n_kids dv) = Some c -> nodes (fs v) !! c = Some cv -> n_kids cv = [] ->
  n_type dv' = n_type dv -> n_size dv' = n_size dv -> (n_type dv = VNODE_FILE -> False) -> n_refs dv' = n_refs dv ->
  n_kids dv' = drop_entry name (n_kids dv) ->
  sound (with_fs v (put_node d dv' (fs v))) (File c 0 0 :: hs).
Proof.
  intros Hs Ed He Ec Hck Ht Hsz Hnf Hr Hk. destruct (sd_refs _ _ Hs d dv Ed).
  pose proof (find_entry_elem _ _ _ He) as Hin.
  apply (sound_replace v hs d dv); [done|done|done|done|intros; by destruct Hnf| |lia|].
  - intros x. rewrite (points_drop x name c _ He), Hk, handles_cons. cbn [node]. destruct (Nat.eqb x d); lia.
  - intros x z Ez H1 H2. rewrite (points_drop x name c _ He), Hk in H2.
    assert (Hz : x <> c -> n_kids z = []).
    { intros Hx. rewrite (proj2 (Nat.eqb_neq c x)) in H2 by done. apply (sd_orphan _ _ Hs x z Ez); [lia|done]. }
    destruct (Nat.eqb_spec x d) as [->|Hx].
    + assert (z = dv) as -> by congruence. destruct (decide (d = c)) as [->|Hd]; [assert (cv = dv) as -> by congruence|].
      * rewrite Hck in Hin. by apply elem_of_nil in Hin.
      * rewrite (Hz Hd) in Hin. by apply elem_of_nil in Hin.
    + destruct (decide (x = c)) as [->|Hx2]; [congruence|auto].
Qed.

(** ** The operations of the filesystem *)

Lemma put_put n a b s : put_node n a (put_node n b s) = put_node n a s.
Proof. unfold put_node. cbn. by rewrite insert_insert_eq. Qed.

Lemma upd_upd n f g s : upd n f (upd n g s) = upd n (fun v => f (g v)) s.
Proof.
  unfold upd. destruct (nodes s !! n) as [v|] eqn:E; [|by rewrite E].
  cbn [nodes put_node]. rewrite lookup_insert_eq. by rewrite put_put.
Qed.

Lemma linked_alloc v n c ty : nodes (fs v) !! c = None -> linked v n ->
  linked (with_fs v (put_node c (vfs_alloc_vnode ty (now (fs v))) (fs v))) n /\ n <> c.
Proof.
  intros Hc [[w E] Hl]. assert (n <> c) by congruence. split; [|done]. split.
  - exists w. cbn. by rewrite lookup_insert_ne.
  - cbn [fs mounts with_fs nodes put_node]. rewrite entries_insert_new by done.
    cbn [n_kids vfs_alloc_vnode]. change (points n []) with 0. lia.
Qed.

Lemma sound_create v hs d name ty : sound v hs -> linked v d -> v_type (fs v) d = VNODE_DIR ->
  let '(rc, r, s') := ramfs_create d name ty (fs v) in
  sound (with_fs v s') hs /\ (rc = VFS_OK -> exists c w, r = Some c /\ nodes s' !! c = Some w /\ n_type w = ty).
Proof.
  intros Hs Hl Ht. destruct (dir_alloc _ _ Ht) as (dv & Ed & Td). unfold ramfs_create.
  destruct (_ <? _); [split; [by destruct v|done]|]. destruct (find_entry _ _); [split; [by destruct v|done]|].
  pose proof (sound_alloc v hs ty Hs) as Ha. destruct (alloc_node ty (fs v)) as [c s1] eqn:E1.
  destruct Ha as [Hc Ha]. cbn [alloc_node] in E1. injection E1 as Ec Es1.
  assert (Hs1 : nodes s1 = <[c := vfs_alloc_vnode ty (now (fs v))]> (nodes (fs v))) by (by subst).
  destruct (linked_alloc v d c ty Hc Hl) as [Hl1 Hdc].
  assert (Ed1 : nodes s1 !! d = Some dv) by (rewrite Hs1; by rewrite lookup_insert_ne).
  cbn beta iota zeta. rewrite upd_upd. set (f := fun w => set_mtime _ _).
  assert (Hu : upd d f s1 = put_node d (f dv) s1) by (unfold upd; by rewrite Ed1). rewrite Hu. split.
  - apply (sound_link (with_fs v s1) hs d dv (f dv) name c 0 0); try done.
    destruct Hl1 as [Hw Hn]. split; [by exists dv|]. cbn [fs mounts with_fs nodes put_node] in *. by rewrite Hs1.
  - intros _. exists c, (vfs_alloc_vnode ty (now (fs v))). split; [done|]. split; [|done].
    cbn. rewrite lookup_insert_ne by done. rewrite Hs1. by rewrite lookup_insert_eq.
Qed.

(** Unlinking never panics. *)
Lemma sound_unlink v hs d name : sound v hs -> v_type (fs v) d = VNODE_DIR ->
  exists rc s', ramfs_unlink d name (fs v) = Some (rc, s') /\ sound (with_fs v s') hs.
Proof.
  intros Hs Ht. destruct (dir_alloc _ _ Ht) as (dv & Ed & Td). unfold ramfs_unlink.
  assert (Ek : at_node [] n_kids (fs v) d = n_kids dv) by (unfold at_node; by rewrite Ed). rewrite Ek.
  assert (Hsame : sound (with_fs v (fs v)) hs) by (by destruct v).
  destruct (find_entry name (n_kids dv)) as [c|] eqn:Ef; [|eauto].
  destruct (sound_entry v hs d dv name c Hs Ed (find_entry_elem _ _ _ Ef)) as [cv Ec].
  assert (Ecv : at_node VNODE_FILE n_type (fs v) c = n_type cv /\ at_node [] n_kids (fs v) c = n_kids cv)
    by (unfold at_node; by rewrite Ec).
  destruct Ecv as [-> ->]. destruct (bool_decide _ && _) eqn:Eb; [eauto|].
  assert (Hk : n_kids cv = []).
  { destruct (n_type cv) eqn:Etc; [by apply (sd_file _ _ Hs c cv Ec)|]. rewrite bool_decide_eq_true_2 in Eb by done.
    cbn [andb] in Eb. apply negb_false_iff in Eb. by apply bool_decide_eq_true in Eb. }
  cbn zeta. rewrite upd_upd. set (f := fun w => set_mtime _ _).
  assert (Hu : upd d f (fs v) = put_node d (f dv) (fs v)) by (unfold upd; by rewrite Ed). rewrite Hu.
  pose proof (sound_cut v hs d dv (f dv) name c cv Hs Ed Ef Ec Hk eq_refl eq_refl ltac:(congruence) eq_refl eq_refl) as H1.
  apply sound_put in H1 as [Hr H1]. cbn [fs with_fs node] in *. set (s1 := put_node d (f dv) (fs v)) in *.
  destruct (Z.leb_spec (at_node 0 n_refs s1 c) 0); [lia|]. eexists _, _. split; [reflexivity|]. exact H1.
Qed.

Lemma sound_write v hs n buf off : sound v hs -> 0 <= off ->
  sound (with_fs v (ramfs_write n buf off (fs v)).2) hs.
Proof.
  intros Hs H0. assert (Hsame : sound (with_fs v (fs v)) hs) by (by destruct v).
  destruct (nodes (fs v) !! n) as [w|] eqn:E.
  2:{ unfold ramfs_write, at_node. rewrite E. by rewrite bool_decide_eq_true_2. }
  destruct (n_type w) eqn:Ht.
  2:{ unfold ramfs_write, at_node. rewrite E, Ht. by rewrite bool_decide_eq_true_2. }
  destruct (sd_file _ _ Hs n w E Ht) as (_ & c & Hc). assert (Hh : holds (fs v) n c) by (by exists w).
  destruct (decide (buf = [])) as [->|Hb].
  { unfold ramfs_write. destruct (bool_decide _); done. }
  destruct (decide (off + zlen buf <= RAMFS_MAX_FILE)) as [Hle|Hgt].
  - destruct (ramfs_write_ok n c buf off (fs v) Hh H0 Hb Hle) as [(s' & -> & (w' & Ew' & Hc') & Ho)|[-> _]]; [|done].
    cbn [snd]. apply (sound_only v hs n); [done|done|congruence|]. intros z Ez. rewrite Ew' in Ez. injection Ez as <-. by eexists.
  - unfold ramfs_write. destruct (bool_decide _); [done|]. destruct (_ =? 0); [done|].
    by replace ((RAMFS_MAX_FILE <? off) || (RAMFS_MAX_FILE - off <? zlen buf)) with true by lia.
Qed.

Lemma sound_truncate v hs n w : sound v hs -> nodes (fs v) !! n = Some w -> n_type w = VNODE_FILE ->
  sound (with_fs v (ramfs_truncate n 0 (fs v)).2) hs /\
  exists w', nodes (ramfs_truncate n 0 (fs v)).2 !! n = Some w'.
Proof.
  intros Hs E Ht. destruct (sd_file _ _ Hs n w E Ht) as (_ & c & Hc). assert (Hh : holds (fs v) n c) by (by exists w).
  pose proof (zlen_nonneg c).
  destruct (ramfs_truncate_ok n c 0 (fs v) Hh) as [(s' & -> & (w' & Ew' & Hc') & Ho)|(? & _)];
    [unfold RAMFS_MAX_FILE; lia| |lia].
  split; [|by exists w']. cbn [snd]. apply (sound_only v hs n); [done|done|congruence|].
  intros z Ez. rewrite Ew' in Ez. injection Ez as <-. by eexists.
Qed.

(** ** The operations of the VFS *)

Lemma with_fs_same (v : vfs ramfs) : with_fs v (fs v) = v.
Proof. by destruct v. Qed.

Lemma resolve_runs v hs path : sound v hs ->
  resolve_path path v = Ok (resolved v path) v /\ (forall n, resolved v path = Some n -> linked v n).
Proof.
  intros Hs. split; [apply resolve_path_spec; by eapply sound_valid|].
  intros n. unfold resolved. destruct (_ && _); [|done].
  pose proof (best_mount_spec path (mounts v) None) as Hb. fold (mount_for path (mounts v)) in Hb.
  destruct (mount_for path (mounts v)) as [[m len]|]; [|done]. destruct Hb as ([?|(Hm & _)] & _); [done|].
  intros Hw. apply walk_names_entry in Hw as [->|(d & name & Hd & He)].
  - pose proof (sd_roots _ _ Hs m Hm) as Hr. destruct (dir_alloc _ _ Hr) as (w & Ew & _). split; [by exists w|].
    pose proof (entries_nonneg (root m) (nodes (fs v))).
    assert (1 <= mounts_of (root m) (mounts v)) by (apply (cnt_if_in _ m); [done|apply Nat.eqb_refl]). lia.
  - destruct (dir_alloc _ _ Hd) as (w & Ew & _). cbn [entry ramfs_laws] in He. unfold r_entry, at_node in He.
    rewrite Ew in He. apply find_entry_elem in He. split; [by eapply sound_entry|].
    pose proof (entries_in n d w name _ Ew He).
    pose proof (cnt_if_nonneg (fun m => Nat.eqb (root m) n) (mounts v)). unfold mounts_of. lia.
Qed.

Lemma parent_runs v hs path : sound v hs -> exists r, resolve_parent path v = Ok r v /\
  forall p leaf, r = inr (p, leaf) -> linked v p /\ v_type (fs v) p = VNODE_DIR.
Proof.
  intros Hs. unfold resolve_parent. destruct (negb _); [by eexists|]. destruct (_ <? _); [by eexists|].
  destruct (split_last path) as [[d l]|]; [|by eexists]. destruct (bool_decide (l = [])); [by eexists|].
  destruct (_ <? _); [by eexists|]. fold (dir_path d). destruct (resolve_runs v hs (dir_path d) Hs) as [E Hl].
  erewrite bind_ok by exact E. destruct (resolved v (dir_path d)) as [p|]; [|by eexists].
  erewrite bind_ok by reflexivity. case_bool_decide as Ht; cbn [negb]; [|by eexists].
  eexists. split; [done|]. intros ? ? [= <- <-]. auto.
Qed.

(** What opening does once it has a vnode. *)
Lemma finish_open v hs n w fl : sound v hs -> nodes (fs v) !! n = Some w ->
  exists f v', (bind (gets fs) (fun s =>
    bind (if bool_decide (v_type s n = VNODE_FILE) && has fl O_TRUNC then
            match truncate_op s n with
            | Some op => bind (call (fun s => op 0 s)) (fun _ => ret tt)
            | None => ret tt
            end
          else ret tt) (fun _ =>
    bind (kobject_get n) (fun _ =>
    bind (gets (fun v => v_size (fs v) n)) (fun size =>
    ret (Some (File n (if has fl O_APPEND then size else 0) fl))))))) v = Ok (Some f) v' /\
    sound v' (f :: hs) /\ fstypes v' = fstypes v /\ 0 <= pos f.
Proof.
  intros Hs E. assert (Hmid : exists s1 w1,
    (if bool_decide (v_type (fs v) n = VNODE_FILE) && has fl O_TRUNC then
            match truncate_op (fs v) n with
            | Some op => bind (call (fun s => op 0 s)) (fun _ => ret tt)
            | None => ret tt
            end
          else ret tt) v = Ok tt (with_fs v s1) /\ sound (with_fs v s1) hs /\ nodes s1 !! n = Some w1).
  { case_bool_decide as Ht; cbn [andb]; [destruct (has fl O_TRUNC)|];
      [|exists (fs v), w; rewrite with_fs_same; split; [done|]; done..].
    assert (Hty : n_type w = VNODE_FILE) by (cbn [v_type ramfs_ops] in Ht; unfold at_node in Ht; by rewrite E in Ht).
    destruct (sound_truncate v hs n w Hs E Hty) as [H1 [w1 H2]]. cbn [truncate_op ramfs_ops].
    exists (ramfs_truncate n 0 (fs v)).2, w1. split; [|done].
    unfold bind, call. by destruct (ramfs_truncate n 0 (fs v)). }
  destruct Hmid as (s1 & w1 & E1 & H1 & Ew1). erewrite bind_ok by reflexivity. erewrite bind_ok by exact E1.
  erewrite bind_ok by reflexivity. erewrite bind_ok by reflexivity. eexists _, _. split; [reflexivity|].
  split; [|split; [done|]].
  - pose proof (sound_get (with_fs v s1) hs n w1) as Hg. cbn [fs with_fs] in Hg.
    cbn [on_fs fs mounts fstypes with_fs set_refs v_refs ramfs_ops at_node]. unfold at_node. rewrite Ew1. by apply Hg.
  - cbn [pos]. destruct (has fl O_APPEND); [|lia]. cbn [fs v_size v_refs set_refs ramfs_ops]. unfold at_node at 1.
    rewrite (upd_at n _ s1 w1 Ew1). exact (sd_size _ _ H1 n w1 Ew1).
Qed.

Lemma open_runs v hs path fl : sound v hs -> exists r v', vfs_open path fl v = Ok r v' /\
  sound v' (match r with Some f => f :: hs | None => hs end) /\ fstypes v' = fstypes v /\
  (forall f, r = Some f -> 0 <= pos f).
Proof.
  intros Hs. unfold vfs_open. destruct (resolve_runs v hs path Hs) as [E Hl]. erewrite bind_ok by exact E.
  destruct (resolved v path) as [n|].
  { erewrite bind_ok by reflexivity. destruct (Hl n eq_refl) as [[w Ew] _].
    destruct (finish_open v hs n w fl Hs Ew) as (f & v' & Ef & H1 & H2 & H3).
    exists (Some f), v'. do 3 (split; [done|]). by intros ? [= <-]. }
  destruct (has fl O_CREAT); [|erewrite bind_ok by reflexivity; by exists None, v].
  assert (Hc : exists r v1, create_missing path v = Ok r v1 /\ sound v1 hs /\ fstypes v1 = fstypes v /\
    forall n, r = Some n -> exists w, nodes (fs v1) !! n = Some w).
  { unfold create_missing. destruct (parent_runs v hs path Hs) as (r & Er & Hr). erewrite bind_ok by exact Er.
    destruct r as [rc|[p leaf]]; [by exists None, v|]. destruct (Hr p leaf eq_refl) as [Hp Ht].
    erewrite bind_ok by reflexivity. cbn [create_op ramfs_ops].
    pose proof (sound_create v hs p leaf VNODE_FILE Hs Hp Ht) as H1.
    destruct (ramfs_create p leaf VNODE_FILE (fs v)) as [[rc r] s1] eqn:Ec. destruct H1 as [H1 H2].
    erewrite bind_ok by (apply call_ok; exact Ec). cbn [fst snd]. destruct (Z.eqb_spec rc VFS_OK) as [->|].
    - destruct (H2 eq_refl) as (c & w & -> & Ew & _). eexists _, _. split; [reflexivity|]. split; [done|]. split; [done|].
      intros ? [= <-]. by exists w.
    - by eexists _, _. }
  destruct Hc as (r & v1 & Er & H1 & Hf & Hn). erewrite bind_ok by exact Er. destruct r as [n|]; [|by exists None, v1].
  destruct (Hn n eq_refl) as [w Ew]. destruct (finish_open v1 hs n w fl H1 Ew) as (f & v' & Ef & H2 & H3 & H4).
  exists (Some f), v'. split; [done|]. split; [done|]. split; [congruence|]. by intros ? [= <-].
Qed.

Lemma close_runs v hs f : sound v (f :: hs) ->
  exists v', vfs_close f v = Ok tt v' /\ sound v' hs /\ fstypes v' = fstypes v.
Proof.
  intros Hs. destruct (sound_put v hs f Hs) as [Hr H1]. exists (with_fs v (drop_ref (node f) (fs v))).
  split; [|done]. unfold vfs_close, kobject_put. erewrite bind_ok; cycle 1.
  { erewrite bind_ok by reflexivity. cbn [v_refs ramfs_ops]. rewrite (proj2 (Z.leb_gt _ _)) by lia.
    erewrite bind_ok by reflexivity. reflexivity. }
  cbn beta. unfold drop_ref. destruct (Z.eqb_spec (at_node 0 n_refs (fs v) (node f) - 1) 0); done.
Qed.

Lemma mkdir_runs v hs path : sound v hs ->
  exists rc v', vfs_mkdir path v = Ok rc v' /\ sound v' hs /\ fstypes v' = fstypes v.
Proof.
  intros Hs. unfold vfs_mkdir. destruct (resolve_runs v hs path Hs) as [E _]. erewrite bind_ok by exact E.
  destruct (resolved v path); [by eexists _, _|]. destruct (parent_runs v hs path Hs) as (r & Er & Hr).
  erewrite bind_ok by exact Er. destruct r as [rc|[p leaf]]; [by eexists _, _|].
  destruct (Hr p leaf eq_refl) as [Hp Ht]. erewrite bind_ok by reflexivity. cbn [create_op ramfs_ops].
  pose proof (sound_create v hs p leaf VNODE_DIR Hs Hp Ht) as H1.
  destruct (ramfs_create p leaf VNODE_DIR (fs v)) as [[rc r] s1] eqn:Ec. destruct H1 as [H1 _].
  erewrite bind_ok by (apply call_ok; exact Ec). by eexists _, _.
Qed.

Lemma unlink_runs v hs dir leaf : sound v hs ->
  exists rc v', unlink_at dir leaf v = Ok rc v' /\ sound v' hs /\ fstypes v' = fstypes v.
Proof.
  intros Hs. unfold unlink_at. destruct (open_runs v hs dir O_RDONLY Hs) as (r & v1 & E & H1 & F1 & _).
  erewrite bind_ok by exact E. destruct r as [d|]; [|by eexists _, _].
  assert (Hmid : exists rc s2, (if bool_decide (v_type (fs v1) (node d) = VNODE_DIR) then
      match unlink_op (fs v1) (node d) with
      | Some op => fun v => match op leaf (fs v) with
                            | Some (rc, s') => Ok rc (Vfs (fstypes v) (mounts v) s')
                            | None => Panic "kobject_put: refcount underflow" end
      | None => ret VFS_EINVAL end else ret VFS_EINVAL) v1 = Ok rc (with_fs v1 s2) /\ sound (with_fs v1 s2) (d :: hs)).
  { case_bool_decide as Ht; [|exists VFS_EINVAL, (fs v1); by rewrite with_fs_same].
    destruct (sound_unlink v1 (d :: hs) (node d) leaf H1 Ht) as (rc & s2 & Eu & H2). cbn [unlink_op ramfs_ops].
    rewrite Eu. by exists rc, s2. }
  destruct Hmid as (rc & s2 & Eu & H2). erewrite bind_ok by reflexivity. erewrite bind_ok by exact Eu.
  destruct (close_runs _ hs d H2) as (v3 & E3 & H3 & F3). erewrite bind_ok by exact E3. eexists _, _.
  split; [reflexivity|]. split; [done|]. cbn [fstypes with_fs] in F3. congruence.
Qed.

(** The mount takes over the reference its root is born with. *)
Lemma mount_runs v hs mp type : sound v hs -> fstypes v = fstypes boot_vfs ->
  exists rc v', vfs_mount mp type v = Ok rc v' /\ sound v' hs /\ fstypes v' = fstypes v.
Proof.
  intros Hs Hf. unfold vfs_mount. erewrite bind_ok by reflexivity. rewrite Hf. cbn [fstypes boot_vfs find fst].
  case_bool_decide; [|by eexists _, _]. cbn match. destruct (negb _); [by eexists _, _|].
  destruct (_ <=? _); [by eexists _, _|]. pose proof (sound_alloc v hs VNODE_DIR Hs) as Ha.
  unfold ramfs_mount. cbn [alloc_node snd] in *. set (c := next_node (fs v)) in *. set (s1 := Ramfs _ _ _ _) in *.
  destruct Ha as [Hc Ha]. erewrite bind_ok by reflexivity. cbn [fst snd].
  change (VFS_OK =? VFS_OK) with true. cbn [negb]. cbn match. erewrite bind_ok by reflexivity.
  eexists _, _. split; [reflexivity|]. split; [|done].
  assert (Hm : forall x, mounts_of x (Mount mp c :: mounts v) = (if Nat.eqb c x then 1 else 0) + mounts_of x (mounts v))
    by (intros x; unfold mounts_of; by rewrite cnt_if_cons).
  assert (Hh : forall x, handles_on x (File c 0 0 :: hs) = (if Nat.eqb c x then 1 else 0) + handles_on x hs)
    by (intros x; apply handles_cons).
  cbn [fs mounts fstypes with_fs]. fold c. fold s1. split; cbn [fs mounts].
  - apply (sd_fresh _ _ Ha).
  - apply (sd_file _ _ Ha).
  - intros x w E. destruct (sd_refs _ _ Ha x w E) as [H1 H2]. cbn [fs mounts with_fs] in H1.
    rewrite Hh in H1. rewrite Hm. split; [lia|done].
  - intros x E. destruct (sd_dead _ _ Ha x E) as (H1 & H2 & H3). cbn [fs mounts with_fs] in *. rewrite Hh in H3. rewrite Hm.
    pose proof (cnt_if_nonneg (fun f => Nat.eqb (node f) x) hs). unfold handles_on in *. destruct (Nat.eqb c x); lia.
  - intros x w E H1 H2. rewrite Hm in H2. pose proof (cnt_if_nonneg (fun m => Nat.eqb (root m) x) (mounts v)).
    apply (sd_orphan _ _ Ha x w E H1). cbn [mounts with_fs]. unfold mounts_of in *. destruct (Nat.eqb c x); lia.
  - apply (sd_size _ _ Ha).
  - intros m Hin. apply elem_of_cons in Hin as [->|Hin]; [|by apply (sd_roots _ _ Ha)].
    cbn. unfold at_node. cbn. by rewrite lookup_insert_eq.
Qed.

(** ** Sessions *)

(** Every reference is accounted for and handle positions are offsets. *)
Definition accounted (v : vfs ramfs) (hs : list file) : Prop :=
  sound v hs /\ Forall (fun f => 0 <= pos f) hs /\ fstypes v = fstypes boot_vfs.

Lemma accounted_move v hs h f f' : accounted v hs -> hs !! h = Some f -> node f' = node f -> 0 <= pos f' ->
  accounted v (<[h := f']> hs).
Proof.
  intros (H1 & H2 & H3) E Hn Hp. split; [|split; [|done]].
  - eapply sound_handles; [|exact H1]. intros n. by apply handles_replace with f.
  - by apply Forall_insert.
Qed.

(** A call that moves the handle and changes the filesystem to [s']. *)
Lemma handle_runs v hs h f (m : prog (vfs ramfs) (list file)) f' s' : accounted v hs -> hs !! h = Some f ->
  m v = Ok (<[h := f']> hs) (with_fs v s') -> sound (with_fs v s') hs -> node f' = node f -> 0 <= pos f' ->
  exists hs' v', m v = Ok hs' v' /\ accounted v' hs'.
Proof.
  intros (H1 & H2 & H3) E Em Hs Hn Hp. eexists _, _. split; [exact Em|].
  apply (accounted_move _ hs h f); [|done..]. split; [done|]. by split.
Qed.

Lemma read_runs v hs h f len : accounted v hs -> hs !! h = Some f ->
  exists hs' v', bind (vfs_read f len) (fun x => ret (<[h := x.2]> hs)) v = Ok hs' v' /\ accounted v' hs'.
Proof.
  intros Ha E. assert (Hp : 0 <= pos f) by (destruct Ha as (_ & H & _); by eapply Forall_lookup_1 in H).
  assert (Hr : exists n bs f', vfs_read f len v = Ok (n, bs, f') v /\ node f' = node f /\ 0 <= pos f').
  { unfold vfs_read. erewrite bind_ok by reflexivity. cbn [read_op ramfs_ops]. destruct (_ =? _); [by eexists _, _, _|].
    assert (Ec : exists n bs, ramfs_read (node f) (pos f) len (fs v) = (n, bs, fs v)).
    { unfold ramfs_read. destruct (nodes (fs v) !! node f); [|eauto]. destruct (bool_decide _); [eauto|].
      destruct (_ <=? _); eauto. }
    destruct Ec as (n & bs & Ec). erewrite bind_ok by (apply call_ok; exact Ec). rewrite with_fs_same.
    eexists _, _, _. split; [reflexivity|]. destruct (0 <? n); [|done]. split; [done|]. apply wrap_range. lia. }
  destruct Hr as (n & bs & f' & Er & Hn & Hp'). apply (handle_runs v hs h f _ f' (fs v)); try done; rewrite with_fs_same.
  - by erewrite bind_ok by exact Er.
  - by destruct Ha.
Qed.

Lemma write_runs v hs h f buf : accounted v hs -> hs !! h = Some f ->
  exists hs' v', bind (vfs_write f buf) (fun x => ret (<[h := x.2]> hs)) v = Ok hs' v' /\ accounted v' hs'.
Proof.
  intros Ha E. assert (Hp : 0 <= pos f) by (destruct Ha as (_ & H & _); by eapply Forall_lookup_1 in H).
  assert (Hs : sound v hs) by (by destruct Ha).
  destruct (sound_handle v hs f Hs) as (w & Ew & _); [by eapply list_elem_of_lookup_2|].
  assert (Hr : exists n s' f', vfs_write f buf v = Ok (n, f') (with_fs v s') /\ sound (with_fs v s') hs /\
    node f' = node f /\ 0 <= pos f').
  { unfold vfs_write. erewrite bind_ok by reflexivity. cbn [write_op ramfs_ops].
    destruct (_ =? _); [exists VFS_EINVAL, (fs v), f; by rewrite with_fs_same|].
    set (g := if has _ _ then _ else f). assert (Hg : node g = node f /\ 0 <= pos g).
    { unfold g. destruct (has _ _); [|done]. split; [done|]. cbn. unfold at_node. rewrite Ew. by apply (sd_size _ _ Hs (node f)). }
    destruct Hg as [Hg1 Hg2]. destruct (ramfs_write (node f) buf (pos g) (fs v)) as [n s'] eqn:Ec.
    erewrite bind_ok by (apply call_ok; exact Ec). eexists _, _, _. split; [reflexivity|]. split.
    - pose proof (sound_write v hs (node f) buf (pos g) Hs Hg2) as H1. by rewrite Ec in H1.
    - destruct (0 <? n); [|done]. split; [done|]. apply wrap_range. lia. }
  destruct Hr as (n & s' & f' & Er & Hs' & Hn & Hp'). apply (handle_runs v hs h f _ f' s'); try done.
  by erewrite bind_ok by exact Er.
Qed.

Lemma seek_runs v hs h f off whence : accounted v hs -> hs !! h = Some f ->
  exists hs' v', bind (vfs_seek f off whence) (fun x => ret (<[h := x.2]> hs)) v = Ok hs' v' /\ accounted v' hs'.
Proof.
  intros Ha E. assert (Hp : 0 <= pos f) by (destruct Ha as (_ & H & _); by eapply Forall_lookup_1 in H).
  assert (Hr : exists n f', vfs_seek f off whence v = Ok (n, f') v /\ node f' = node f /\ 0 <= pos f').
  { unfold vfs_seek. erewrite bind_ok by reflexivity. cbn zeta. destruct (if whence =? SEEK_SET then _ else _) as [base|];
      [|by eexists _, _]. destruct (Z.ltb_spec (sgn 64 (base + off)) 0); by eexists _, _. }
  destruct Hr as (n & f' & Er & Hn & Hp'). apply (handle_runs v hs h f _ f' (fs v)); try done; rewrite with_fs_same.
  - by erewrite bind_ok by exact Er.
  - by destruct Ha.
Qed.

(** The operations that use no handle. *)
Lemma plain_runs {A} v hs (m : prog (vfs ramfs) A) : accounted v hs ->
  (exists a v', m v = Ok a v' /\ sound v' hs /\ fstypes v' = fstypes v) ->
  exists hs' v', bind m (fun _ => ret hs) v = Ok hs' v' /\ accounted v' hs'.
Proof.
  intros (H1 & H2 & H3) (a & v' & E & Hs & Hf). exists hs, v'. split; [by erewrite bind_ok by exact E|].
  split; [done|]. split; [done|]. congruence.
Qed.

Lemma serve_runs r v hs : accounted v hs -> exists hs' v', serve r hs v = Ok hs' v' /\ accounted v' hs'.
Proof.
  intros Ha. pose proof Ha as (Hs & Hp & Hf). assert (Hsame : exists hs' v', ret hs v = Ok hs' v' /\ accounted v' hs') by eauto.
  destruct r; cbn [serve]; try (unfold with_handle; destruct (hs !! h) as [f|] eqn:E; [|done]).
  - destruct (open_runs v hs path fl Hs) as (r & v' & E & H1 & H2 & H3). erewrite bind_ok by exact E.
    eexists _, _. split; [reflexivity|]. split; [done|]. split; [|congruence]. destruct r; [|done]. constructor; auto.
  - destruct (close_runs v (take h hs ++ drop (S h) hs) f) as (v' & E1 & H1 & H2).
    { eapply sound_handles; [|exact Hs]. intros n. symmetry. by apply handles_remove. }
    erewrite bind_ok by exact E1. eexists _, _. split; [reflexivity|]. split; [done|]. split; [|congruence].
    apply Forall_app. split; [by apply Forall_take|by apply Forall_drop].
  - by apply read_runs.
  - by apply write_runs.
  - by apply seek_runs.
  - apply plain_runs; [done|]. by apply mkdir_runs.
  - apply plain_runs; [done|]. by apply unlink_runs.
  - apply plain_runs; [done|]. by apply mount_runs.
  - apply plain_runs; [done|]. unfold vfs_stat. destruct (resolve_runs v hs path Hs) as [E _].
    erewrite bind_ok by exact E. destruct (resolved v path); by eexists _, _.
  - apply plain_runs; [done|]. unfold vfs_readdir. destruct (cap =? 0); [by eexists _, _|].
    destruct (resolve_runs v hs path Hs) as [E _]. erewrite bind_ok by exact E.
    destruct (resolved v path) as [n|]; [|by eexists _, _]. erewrite bind_ok by reflexivity.
    destruct (negb _); [by eexists _, _|]. cbn [readdir_op ramfs_ops].
    assert (Er : exists a, ramfs_readdir n index cap (fs v) = (a, fs v)).
    { unfold ramfs_readdir. destruct (cap =? 0); [eauto|]. destruct (_ !! _) as [[? ?]|]; eauto. }
    destruct Er as [a Er]. exists a, v. split; [|done]. erewrite call_ok by exact Er. by rewrite with_fs_same.
Qed.

Lemma serve_all_runs rs : forall v hs, accounted v hs ->
  exists hs' v', serve_all rs hs v = Ok hs' v' /\ accounted v' hs'.
Proof.
  induction rs as [|r rs IH]; intros v hs Ha; cbn [serve_all]; [eauto|].
  destruct (serve_runs r v hs Ha) as (hs1 & v1 & E & H1). erewrite bind_ok by exact E. by apply IH.
Qed.

Lemma boot_accounted : accounted boot_vfs [].
Proof.
  assert (Hone : forall n w, nodes boot_fs !! n = Some w -> n = 1%nat /\ w = vfs_alloc_vnode VNODE_DIR 0).
  { intros n w E. cbn [nodes boot_fs] in E. by apply lookup_singleton_Some in E as [<- <-]. }
  assert (Hent : forall n, entries_to n (nodes boot_fs) = 0).
  { intros n. unfold boot_fs. cbn [nodes]. rewrite <- insert_empty, entries_insert_new by apply lookup_empty. done. }
  split; [|done]. split; cbn [fs mounts boot_vfs].
  - intros n w E. apply Hone in E as [-> ->]. cbn. lia.
  - intros n w E. by apply Hone in E as [-> ->].
  - intros n w E. apply Hone in E as [-> ->]. rewrite Hent. done.
  - intros n E. rewrite Hent. split; [done|]. split; [|done]. unfold mounts_of. rewrite cnt_if_cons. cbn [root].
    destruct (Nat.eqb_spec 1 n) as [<-|]; [done|done].
  - intros n w E. by apply Hone in E as [-> ->].
  - intros n w E. by apply Hone in E as [-> ->].
  - intros m Hm. apply list_elem_of_singleton in Hm. by subst m.
Qed.

(** C9: object lifetimes in the VFS are right. Whatever programs ask of a freshly
    booted VFS with RAM filesystems (opening, reading, writing, seeking, closing,
    making directories, deleting, mounting, in any order, failures included), every
    call returns as long as kmalloc does: no reference count underflows, no path walk
    runs on. Afterwards every
    open handle, mount and directory entry refers to an allocated vnode (nothing in use
    was freed), and every allocated vnode's count is exactly the number of entries,
    mounts and handles that refer to it, at least one (nothing is leaked). *)
Theorem vfs_sessions_keep_lifetimes (rs : list request) :
  exists hs v, serve_all rs [] boot_vfs = Ok hs v /\
    (forall f, f ∈ hs -> is_Some (nodes (fs v) !! node f)) /\
    (forall m, m ∈ mounts v -> is_Some (nodes (fs v) !! root m)) /\
    (forall d w name c, nodes (fs v) !! d = Some w -> (name, c) ∈ n_kids w -> is_Some (nodes (fs v) !! c)) /\
    (forall n w, nodes (fs v) !! n = Some w ->
       n_refs w = entries_to n (nodes (fs v)) + mounts_of n (mounts v) + handles_on n hs /\ 1 <= n_refs w).
Proof.
  destruct (serve_all_runs rs boot_vfs [] boot_accounted) as (hs & v & E & Hs & _). exists hs, v. split; [done|].
  split; [|split; [|split]].
  - intros f Hf. destruct (sound_handle v hs f Hs Hf) as (w & Ew & _). eauto.
  - intros m Hm. destruct (dir_alloc _ _ (sd_roots _ _ Hs m Hm)) as (w & Ew & _). eauto.
  - intros d w name c Ed Hin. destruct (sound_entry v hs d w name c Hs Ed Hin) as [x Ex]. eauto.
  - apply (sd_refs _ _ Hs).
Qed.

(** A file deleted while open is kept until it is closed, then freed. *)
Example deleted_while_open :
  let rs := [Open (lit "/a") (Z.lor O_CREAT O_RDWR); Write 0 (lit "hi"); Unlink (lit "/") (lit "a"); Seek 0 0 SEEK_SET] in
  (match serve_all rs [] boot_vfs with
   | Ok hs v => n_size <$> (nodes (fs v) !! 2%nat) | _ => None end) = Some 2 /\
  (match serve_all (rs ++ [Close 0]) [] boot_vfs with
   | Ok hs v => size (nodes (fs v)) | _ => 0%nat end) = 1%nat.
Proof. by vm_compute. Qed.
