(* ===== verification/Trace.v ===== *)
(** lib/trace.c: the lines in which the kernel says what was done.

    The console is the list of the texts given to kputs, oldest first. The arrays on the
    stack of [emit] start as zero bytes here; the code writes each before it reads it. *)

From S2P Require Import Prelude Bytes Json JsonWriter JsonGrammar JsonNav JsonText JsonOut.
From S2P Require Import Kfmt KfmtSpec KfmtClaims Vfs.
Open Scope prog_scope.

Definition TRACE_LINE_MAX : Z := 512.

Record trace := Trace {
  trace_seq : Z;            (* lines requested *)
  trace_written : Z;        (* lines emitted *)
  trace_is_on : bool;
  console : list bytes }.

Definition err_names : list (Z * bytes) :=
  [(VFS_ENOENT, lit "ENOENT"); (VFS_EEXIST, lit "EEXIST"); (VFS_ENOTDIR, lit "ENOTDIR");
   (VFS_EINVAL, lit "EINVAL"); (VFS_ENOSPC, lit "ENOSPC");
   (-70, lit "ETRANSPORT"); (-71, lit "ETIMEOUT"); (-72, lit "EPROTO"); (-73, lit "ESCRIPT")].

Definition trace_errname (err : Z) : option bytes :=
  snd <$> find (fun p => p.1 =? err) err_names.

(** ** Making text safe to print *)

Definition hostile (c : Z) : bool :=
  (c <? 32) || (c =? 127) || (c =? ch "[") || (c =? ch "]").

Definition escape (c : Z) : bytes :=
  if hostile c
  then [ch "\"; ch "x"; hex (Z.land (Z.shiftr c 4) 15); hex (Z.land c 15)] else [c].

(** The loop from [src[i]] on, with [o] bytes written. *)
Fixpoint sanitize_loop (cap : Z) (src : bytes) (o : Z) : prog bytes Z :=
  match src with
  | [] => ret o
  | c :: r =>
      if hostile c then
        if cap <=? o + 4 then ret o
        else pokes o (escape c) ;;; sanitize_loop cap r (o + 4)
      else
        if cap <=? o + 1 then ret o
        else poke o c ;;; sanitize_loop cap r (o + 1)
  end.

(** [sanitize(dst, cap, src)], with [dst] the buffer it runs on. *)
Definition sanitize (cap : Z) (src : option bytes) : prog bytes Z :=
  if cap =? 0 then ret 0
  else match src with
       | None => poke 0 0 ;;; ret 0
       | Some src => o <- sanitize_loop cap src 0 ;; poke o 0 ;;; ret o
       end.

(** ** One line *)

(** Work on an array of one's own. *)
Definition on_array {S A} (b : bytes) (m : prog bytes A) : prog S (A * bytes) := fun s =>
  match m b with
  | Ok a b' => Ok (a, b') s
  | Panic w => Panic w
  | Wild => Wild
  | Spin => Spin
  end.

Definition array (n : Z) : bytes := replicate (Z.to_nat n) 0.

(** The [op] field, clipped when '[' and it do not fit in [avail]. *)
Definition clip_op (avail : Z) (sop : bytes) : prog trace bytes :=
  if avail <? zlen (cstr sop) + 1 then
    let keep := if 4 <? avail then avail - 4 else 0 in
    q <- on_array sop (poke keep 0 ;;; if keep =? 0 then ret tt else poke (keep - 1) (ch ".")) ;;
    ret q.2
  else ret sop.

(** snprintf into [line]. *)
Definition line_of (fmt : string) (args : list varg) : prog trace bytes :=
  q <- on_array (array TRACE_LINE_MAX) (snprintf TRACE_LINE_MAX (lit fmt ++ [10]) args) ;; ret q.2.

Definition render_line (avail : Z) (sop args result : bytes) : prog trace bytes :=
  let oplen := zlen (cstr sop) in
  let short := line_of "[%s -> %s]" [VPtr 1 sop; arg_str result] in
  if cur args =? 0 then short
  else
    let room := if oplen + 1 <? avail then avail - oplen - 1 else 0 in
    if room <? zlen (cstr args) then
      q <- on_array args (if 3 <? room then poke (room - 3) 0 else poke 0 0) ;;
      if cur q.2 =? 0 then short
      else line_of "[%s %s... -> %s]" [VPtr 1 sop; VPtr 1 q.2; arg_str result]
    else line_of "[%s %s -> %s]" [VPtr 1 sop; VPtr 1 args; arg_str result].

Definition kputs (s : bytes) : prog trace unit :=
  modify (fun t => Trace (trace_seq t) (trace_written t) (trace_is_on t) (console t ++ [cstr s])).

Definition emit (op args_fmt : option bytes) (ap : list varg) (result : option bytes) : prog trace unit :=
  modify (fun t => Trace (wrap32 (trace_seq t + 1)) (trace_written t) (trace_is_on t) (console t)) ;;;
  on <- gets trace_is_on ;;
  if negb on then ret tt
  else
    let op := default (lit "?") op in
    let result := default (lit "?") result in
    sop <- on_array (array 128) (sanitize 128 (Some op)) ;;
    raw <- on_array (array TRACE_LINE_MAX)
             (poke 0 0 ;;;
              match args_fmt with
              | Some (c :: f) => vsnprintf TRACE_LINE_MAX (c :: f) ap ;;; ret tt
              | _ => ret tt
              end) ;;
    args <- on_array (array TRACE_LINE_MAX) (sanitize TRACE_LINE_MAX (Some (cstr raw.2))) ;;
    let reserve := 4 + zlen result + 2 + 1 in
    let avail := if reserve + 2 <? TRACE_LINE_MAX then TRACE_LINE_MAX - reserve - 1 else 0 in
    sop <- clip_op avail sop.2 ;;
    line <- render_line avail sop args.2 result ;;
    kputs line ;;;
    modify (fun t => Trace (trace_seq t) (wrap64 (trace_written t + 1)) (trace_is_on t) (console t)).

(** ** The entry points *)

Definition trace_ok (op args_fmt : option bytes) (ap : list varg) : prog trace unit :=
  emit op args_fmt ap (Some (lit "ok")).

Definition trace_ret (r : Z) (op args_fmt : option bytes) (ap : list varg) : prog trace unit :=
  res <- on_array (array 32) (snprintf 32 (lit "%ld") [VLong (wrap64 r)]) ;;
  emit op args_fmt ap (Some (cstr res.2)).

Definition trace_err (err : Z) (op args_fmt : option bytes) (ap : list varg) : prog trace unit :=
  res <- on_array (array 32)
           (match trace_errname err with
            | Some name => snprintf 32 (lit "%s") [arg_str name]
            | None => if err =? 0 then snprintf 32 (lit "%s") [arg_str (lit "error")]
                      else snprintf 32 (lit "%d") [VInt (wrap32 err)]
            end) ;;
  emit op args_fmt ap (Some (cstr res.2)).

Definition trace_count (t : trace) : Z := trace_seq t.
Definition trace_reset : prog trace unit :=
  modify (fun t => Trace 0 (trace_written t) (trace_is_on t) (console t)).
Definition trace_set_enabled (on : bool) : prog trace unit :=
  modify (fun t => Trace (trace_seq t) (trace_written t) on (console t)).
Definition trace_enabled (t : trace) : bool := trace_is_on t.
Definition trace_emissions (t : trace) : Z := trace_written t.

(** * What a line says *)

(** As much of the escaped text as [room] bytes hold, whole escapes only. *)
Fixpoint sane (room : Z) (s : bytes) : bytes :=
  match s with
  | [] => []
  | c :: r => if zlen (escape c) <=? room then escape c ++ sane (room - zlen (escape c)) r else []
  end.

Definition plain (s : bytes) : Prop := Forall (fun c => hostile c = false) s.

Lemma hex_plain d : 0 <= d < 16 -> hostile (hex d) = false.
Proof.
  intros H. assert (Hn : (Z.to_nat d < 16)%nat) by lia. unfold hex. revert Hn. generalize (Z.to_nat d).
  intros n Hn. do 16 (destruct n as [|n]; [reflexivity|]). lia.
Qed.

Lemma escape_plain c : plain (escape c).
Proof.
  unfold escape. destruct (hostile c) eqn:E; [|by repeat constructor].
  assert (Hd : forall x, 0 <= Z.land x 15 < 16).
  { intros x. change 15 with (Z.ones 4). rewrite Z.land_ones by lia. apply Z.mod_pos_bound. lia. }
  repeat constructor; by apply hex_plain.
Qed.

Lemma sane_plain s : forall room, plain (sane room s).
Proof.
  induction s as [|c r IH]; intros room; cbn [sane]; [constructor|].
  destruct (_ <=? _); [|constructor]. apply Forall_app_2; [apply escape_plain|apply IH].
Qed.

Lemma escape_len c : zlen (escape c) = if hostile c then 4 else 1.
Proof. unfold escape. by destruct (hostile c). Qed.

Lemma sane_len s : forall room, 0 <= room -> zlen (sane room s) <= room.
Proof.
  induction s as [|c r IH]; intros room Hr; cbn [sane]; [done|].
  destruct (Z.leb_spec (zlen (escape c)) room); [|done].
  autorewrite with zlen. specialize (IH (room - zlen (escape c))). lia.
Qed.

Lemma plain_no_nul s : plain s -> no_nul s.
Proof. apply Forall_impl. intros c Hc ->. done. Qed.

(** Text that holds nothing hostile and fits is left as it is. *)
Lemma sane_id s : forall room, plain s -> zlen s <= room -> sane room s = s.
Proof.
  induction s as [|c r IH]; intros room Hp Hl; [done|]. inversion_clear Hp as [|?? Hc Hr]. cbn [sane].
  unfold escape. rewrite Hc. autorewrite with zlen in *. pose proof (zlen_nonneg r).
  rewrite (proj2 (Z.leb_le _ _)) by lia. cbn [app]. f_equal. apply IH; [done|lia].
Qed.

Lemma sanitize_loop_ok s : forall cap o b t,
  0 <= o < cap -> cap <= zlen b -> zlen t = o ->
  sanitize_loop cap s o (patch 0 t b) =
  Ok (o + zlen (sane (cap - 1 - o) s)) (patch 0 (t ++ sane (cap - 1 - o) s) b).
Proof.
  induction s as [|c r IH]; intros cap o b t Ho Hc Ht; cbn [sanitize_loop sane].
  { by rewrite app_nil_r, Z.add_0_r. }
  pose proof (escape_len c) as El. pose proof (zlen_nonneg (escape c)).
  assert (Hstep : zlen (escape c) <= cap - 1 - o ->
    pokes o (escape c) (patch 0 t b) = Ok tt (patch 0 (t ++ escape c) b)).
  { intros Hl. rewrite pokes_ok by (rewrite ?zlen_patch by lia; lia).
    by rewrite <- Ht, <- (Z.add_0_l (zlen t)), patch_patch by lia. }
  assert (Hnext : zlen (escape c) <= cap - 1 - o ->
    sanitize_loop cap r (o + zlen (escape c)) (patch 0 (t ++ escape c) b) =
    Ok (o + zlen (escape c ++ sane (cap - 1 - o - zlen (escape c)) r))
       (patch 0 (t ++ escape c ++ sane (cap - 1 - o - zlen (escape c)) r) b)).
  { intros Hl. rewrite IH by (autorewrite with zlen; lia).
    replace (cap - 1 - (o + zlen (escape c))) with (cap - 1 - o - zlen (escape c)) by lia.
    autorewrite with zlen. rewrite <- app_assoc. f_equal. lia. }
  destruct (Z.leb_spec (zlen (escape c)) (cap - 1 - o)) as [Hl|Hl].
  - specialize (Hstep Hl). specialize (Hnext Hl).
    destruct (hostile c) eqn:Eh; rewrite El in Hl; rewrite (proj2 (Z.leb_gt _ _)) by lia.
    + rewrite (bind_ok _ _ _ _ _ Hstep), <- Hnext. by rewrite El.
    + rewrite <- Hnext, El. unfold escape in Hstep |- *. rewrite Eh in *. cbn [pokes] in Hstep.
      unfold bind, ret in *. destruct (poke o c (patch 0 t b)) as [[] b1| | |]; try done. by injection Hstep as ->.
  - rewrite app_nil_r, Z.add_0_r.
    destruct (hostile c) eqn:Eh; rewrite El in Hl; by rewrite (proj2 (Z.leb_le _ _)) by lia.
Qed.

Lemma sanitize_ok cap s b : 0 < cap <= zlen b ->
  sanitize cap (Some s) b = Ok (zlen (sane (cap - 1) s)) (patch 0 (sane (cap - 1) s ++ [0]) b).
Proof.
  intros Hc. unfold sanitize. rewrite (proj2 (Z.eqb_neq cap 0)) by lia.
  pose proof (sanitize_loop_ok s cap 0 b [] ltac:(lia) ltac:(lia) eq_refl) as E. rewrite patch_nil in E.
  rewrite Z.sub_0_r in E. cbn [app] in E. rewrite (bind_ok _ _ _ _ _ E). rewrite Z.add_0_l.
  set (t := sane (cap - 1) s). pose proof (sane_len s (cap - 1) ltac:(lia)). fold t in H.
  pose proof (zlen_nonneg t).
  erewrite bind_ok by (apply poke_ok; rewrite zlen_patch by lia; lia).
  rewrite <- (Z.add_0_l (zlen t)) at 2. rewrite patch_patch by (autorewrite with zlen; lia). done.
Qed.

(** What stands between the bracket and the arrow: the operation, then as much of the
    arguments as the line has room for once the result is in it. *)
Definition line_body (op args result : bytes) : bytes :=
  let o := sane 127 op in
  let a := sane 511 args in
  let room := 503 - zlen result - zlen o in
  if bool_decide (a = []) then o
  else if zlen a <=? room then o ++ ch " " :: a
  else o ++ ch " " :: take (Z.to_nat (room - 3)) a ++ lit "...".

Definition trace_line (op args result : bytes) : bytes :=
  lit "[" ++ line_body op args result ++ lit " -> " ++ result ++ lit "]" ++ [10].

Lemma line_body_plain op args result : plain (line_body op args result).
Proof.
  unfold line_body. pose proof (sane_plain op 127) as Ho. pose proof (sane_plain args 511) as Ha.
  destruct (bool_decide _); [done|]. destruct (_ <=? _); apply Forall_app_2; try done;
    (apply Forall_cons_2; [done|]); [done|].
  apply Forall_app_2; [by apply Forall_take|by repeat constructor].
Qed.

Lemma trace_line_short op args result : zlen result <= 31 -> zlen (trace_line op args result) <= 511.
Proof.
  intros Hr. unfold trace_line, line_body. pose proof (sane_len op 127 ltac:(lia)).
  pose proof (zlen_nonneg result). set (o := sane 127 op) in *. set (a := sane 511 args).
  pose proof (zlen_nonneg o).
  destruct (bool_decide _); [autorewrite with zlen; cbn [lit zlen length]; autorewrite with zlen; lia|].
  destruct (Z.leb_spec (zlen a) (503 - zlen result - zlen o)) as [Hl|Hl]; autorewrite with zlen.
  - change (zlen (lit "[")) with 1. change (zlen (lit " -> ")) with 4. change (zlen (lit "]")) with 1. lia.
  - change (zlen (lit "[")) with 1. change (zlen (lit " -> ")) with 4. change (zlen (lit "]")) with 1.
    change (zlen (lit "...")) with 3.
    assert (zlen (take (Z.to_nat (503 - zlen result - zlen o - 3)) a) <= 503 - zlen result - zlen o - 3)
      by (unfold zlen at 1; rewrite length_take; lia). lia.
Qed.

Lemma zlen_array n : 0 <= n -> zlen (array n) = n.
Proof. intros. unfold zlen, array. rewrite length_replicate. lia. Qed.

Lemma on_array_ok {S A} b (m : prog bytes A) a b' (s : S) : m b = Ok a b' -> on_array b m s = Ok (a, b') s.
Proof. unfold on_array. by intros ->. Qed.

Lemma cstr_cut s r : cstr (s ++ 0 :: r) = cstr s.
Proof. induction s as [|c s IH]; [done|]. cbn [app cstr]. by rewrite IH. Qed.

Lemma no_nul_cstr s : no_nul (cstr s).
Proof.
  induction s as [|c s IH]; cbn [cstr]; [constructor|]. destruct (Z.eqb_spec c 0); by constructor.
Qed.

Lemma patch_front t b : patch 0 t b = t ++ drop (length t) b.
Proof. done. Qed.

(** A NUL stored inside a string cuts it there. *)
Lemma poke_cut i a r : 0 <= i <= zlen a ->
  exists r', poke i 0 (a ++ 0 :: r) = Ok tt (take (Z.to_nat i) a ++ 0 :: r').
Proof.
  intros Hi. rewrite poke_ok by (autorewrite with zlen; pose proof (zlen_nonneg r); lia).
  unfold patch. cbn [app]. rewrite take_app_le by (unfold zlen in Hi; lia). eauto.
Qed.

(** Reads a literal format off, up to the arguments of the "%s" in it. *)
Ltac print_plain := apply prints_plain; [discriminate|].

Lemma cur_text a r : plain a -> (cur (a ++ 0 :: r) =? 0) = bool_decide (a = []).
Proof.
  intros Ha. destruct a as [|c a]; [done|]. cbn [app cur]. inversion_clear Ha as [|?? Hc].
  by destruct (Z.eqb_spec c 0) as [->|].
Qed.

Lemma line_of_ok fmt args t (s : trace) :
  prints (lit fmt ++ [10]) args t -> zlen t <= 511 -> no_nul t ->
  exists b, line_of fmt args s = Ok b s /\ cstr b = t.
Proof.
  intros Hp Hl Hn. assert (Hz : 0 < TRACE_LINE_MAX <= zlen (array TRACE_LINE_MAX)).
  { rewrite zlen_array; unfold TRACE_LINE_MAX; lia. }
  unfold line_of. erewrite bind_ok by (apply on_array_ok, snprintf_prints; [exact Hp|lia|lia]).
  eexists. split; [reflexivity|]. cbn [snd]. rewrite cstr_truncated by done. apply take_ge.
  unfold zlen in Hl. unfold TRACE_LINE_MAX. lia.
Qed.

Lemma line_printed o ro a ra result :
  no_nul o -> zlen o <= 511 -> no_nul a -> zlen a <= 511 -> no_nul result -> zlen result <= 511 ->
  let tl := ch " " :: ch "-" :: ch ">" :: ch " " :: result ++ [ch "]"; 10] in
  prints (lit "[%s -> %s]" ++ [10]) [VPtr 1 (o ++ 0 :: ro); arg_str result] (ch "[" :: o ++ tl) /\
  prints (lit "[%s %s -> %s]" ++ [10]) [VPtr 1 (o ++ 0 :: ro); VPtr 1 (a ++ 0 :: ra); arg_str result]
    (ch "[" :: o ++ ch " " :: a ++ tl) /\
  prints (lit "[%s %s... -> %s]" ++ [10]) [VPtr 1 (o ++ 0 :: ro); VPtr 1 (a ++ 0 :: ra); arg_str result]
    (ch "[" :: o ++ ch " " :: a ++ lit "..." ++ tl).
Proof.
  intros Ho Lo Ha La Hr Lr tl. unfold INT_MAX.
  assert (Ht : prints (lit " -> %s]" ++ [10]) [arg_str result] tl).
  { do 4 print_plain. apply prints_s; [done|unfold INT_MAX; lia|]. do 2 print_plain. apply prints_nil. }
  repeat split; print_plain; (apply prints_ptr; [done|done|unfold INT_MAX; lia|]); [exact Ht| |];
    print_plain; (apply prints_ptr; [done|done|unfold INT_MAX; lia|]); [exact Ht|].
  do 3 print_plain. exact Ht.
Qed.

Lemma render_line_ok op args ro ra result (s : trace) :
  no_nul result -> zlen result <= 31 ->
  exists b, render_line (504 - zlen result) (sane 127 op ++ 0 :: ro) (sane 511 args ++ 0 :: ra) result s = Ok b s /\
            cstr b = trace_line op args result.
Proof.
  intros Hr Lr. pose proof (trace_line_short op args result Lr) as Hs.
  assert (Hn : no_nul (trace_line op args result)).
  { unfold trace_line. repeat apply Forall_app_2; try done; try (by repeat constructor).
    apply plain_no_nul, line_body_plain. }
  revert Hs Hn. unfold trace_line, line_body, render_line.
  pose proof (sane_plain op 127) as Po. pose proof (sane_plain args 511) as Pa.
  pose proof (sane_len op 127 ltac:(lia)) as Lo. pose proof (sane_len args 511 ltac:(lia)) as La.
  set (o := sane 127 op) in *. set (a := sane 511 args) in *. pose proof (zlen_nonneg o). pose proof (zlen_nonneg result).
  rewrite cur_text, !cstr_app by (done || by apply plain_no_nul).
  rewrite (proj2 (Z.ltb_lt (zlen o + 1) _)) by lia.
  replace (504 - zlen result - zlen o - 1) with (503 - zlen result - zlen o) by lia.
  set (room := 503 - zlen result - zlen o).
  destruct (line_printed o ro a ra result) as (P1 & P2 & _); try (by apply plain_no_nul); try done; try lia.
  destruct (bool_decide_reflect (a = [])) as [_|Hne]; intros Hs Hn.
  { by apply line_of_ok. }
  destruct (Z.leb_spec (zlen a) room) as [Hl|Hl].
  { rewrite (proj2 (Z.ltb_ge _ _)) by lia. rewrite <- app_assoc in *. by apply line_of_ok. }
  rewrite (proj2 (Z.ltb_lt _ _)) by lia. rewrite (proj2 (Z.ltb_lt 3 room)) by lia.
  destruct (poke_cut (room - 3) a ra) as [r' E]; [lia|].
  erewrite bind_ok by (by apply on_array_ok). cbn [snd].
  set (a' := take (Z.to_nat (room - 3)) a) in *.
  assert (Pa' : plain a') by (by apply Forall_take).
  assert (La' : zlen a' = room - 3) by (unfold a', zlen in *; rewrite length_take; lia).
  assert (Ha' : a' <> []) by (intros Ea; rewrite Ea, zlen_nil in La'; lia).
  rewrite cur_text, bool_decide_eq_false_2 by done.
  destruct (line_printed o ro a' r' result) as (_ & _ & P3); try (by apply plain_no_nul); try done; try lia.
  repeat rewrite <- app_assoc in *. cbn [app] in *. rewrite <- app_assoc in *. by apply line_of_ok.
Qed.

(** The arguments of a call print as [T]. *)
Definition args_text (args_fmt : option bytes) (ap : list varg) (T : bytes) : Prop :=
  match args_fmt with
  | Some (c :: f) => prints (c :: f) ap T /\ zlen T < 2 ^ 31
  | _ => T = []
  end.

(** What of it reaches the line. *)
Definition seen (T : bytes) : bytes := cstr (take 511 T).

Lemma emit_off op fmt ap result t : trace_is_on t = false ->
  emit op fmt ap result t = Ok tt (Trace (wrap32 (trace_seq t + 1)) (trace_written t) false (console t)).
Proof. intros E. unfold emit, bind, modify, gets. cbn [trace_is_on]. by rewrite E. Qed.

Lemma raw_args fmt ap T (s : trace) : args_text fmt ap T ->
  exists u b, on_array (array TRACE_LINE_MAX)
    (poke 0 0 ;;; match fmt with
                  | Some (c :: f) => vsnprintf TRACE_LINE_MAX (c :: f) ap ;;; ret tt
                  | _ => ret tt
                  end) s = Ok (u, b) s /\ cstr b = seen T.
Proof.
  intros HT. assert (Hz : zlen (array TRACE_LINE_MAX) = 512) by (by apply zlen_array).
  set (b0 := array TRACE_LINE_MAX) in *.
  assert (E0 : poke 0 0 b0 = Ok tt (patch 0 [0] b0)) by (apply poke_ok; lia).
  assert (Hz' : zlen (patch 0 [0] b0) = 512) by (by rewrite zlen_patch by (autorewrite with zlen; lia)).
  assert (Hcase : (exists c f, fmt = Some (c :: f)) \/
    T = [] /\ (match fmt with Some (c :: f) => vsnprintf TRACE_LINE_MAX (c :: f) ap ;;; ret tt | _ => ret tt end) = ret tt).
  { destruct fmt as [[|c f]|]; [right|left; eauto|right]; done. }
  destruct Hcase as [(c & f & ->)|[-> ->]].
  - destruct HT as [Hp Hl]. exists tt. eexists. split.
    + apply on_array_ok. rewrite (bind_ok _ _ _ _ _ E0).
      erewrite bind_ok by (apply snprintf_prints; [exact Hp|rewrite Hz'; unfold TRACE_LINE_MAX; lia|done]). done.
    + unfold truncated. change (TRACE_LINE_MAX =? 0) with false. cbn match.
      rewrite patch_front, <- app_assoc. cbn [app]. by rewrite cstr_cut.
  - exists tt. eexists. split; [apply on_array_ok; rewrite (bind_ok _ _ _ _ _ E0); reflexivity|done].
Qed.

Lemma emit_on op fmt ap T result t : trace_is_on t = true -> args_text fmt ap T ->
  no_nul result -> zlen result <= 31 ->
  emit op fmt ap (Some result) t =
  Ok tt (Trace (wrap32 (trace_seq t + 1)) (wrap64 (trace_written t + 1)) true
               (console t ++ [trace_line (default (lit "?") op) (seen T) result])).
Proof.
  intros Hon HT Hr Lr. unfold emit. erewrite bind_ok by reflexivity.
  erewrite bind_ok by reflexivity. cbn [trace_is_on]. rewrite Hon. cbn [negb].
  set (t1 := Trace _ _ _ _). change (default (lit "?") (Some result)) with result.
  erewrite bind_ok by (apply on_array_ok, sanitize_ok; by rewrite zlen_array).
  destruct (raw_args fmt ap T t1 HT) as (u & b & E & Eb). erewrite bind_ok by exact E. cbn [snd]. rewrite Eb.
  erewrite bind_ok by (apply on_array_ok, sanitize_ok; by rewrite zlen_array).
  change (128 - 1) with 127. change (TRACE_LINE_MAX - 1) with 511. cbn [snd].
  rewrite !patch_front, <- !app_assoc. cbn [app]. set (op' := default (lit "?") op).
  pose proof (zlen_nonneg result). rewrite (proj2 (Z.ltb_lt (4 + zlen result + 2 + 1 + 2) _)) by (unfold TRACE_LINE_MAX; lia).
  replace (TRACE_LINE_MAX - (4 + zlen result + 2 + 1) - 1) with (504 - zlen result) by (unfold TRACE_LINE_MAX; lia).
  assert (Ec : forall r, clip_op (504 - zlen result) (sane 127 op' ++ 0 :: r) t1 = Ok (sane 127 op' ++ 0 :: r) t1).
  { intros r. unfold clip_op. rewrite cstr_app by (apply plain_no_nul, sane_plain).
    pose proof (sane_len op' 127 ltac:(lia)). by rewrite (proj2 (Z.ltb_ge _ _)) by lia. }
  erewrite bind_ok by apply Ec.
  destruct (render_line_ok op' (seen T) (drop (length (sane 127 op' ++ [0])) (array 128))
    (drop (length (sane 511 (seen T) ++ [0])) (array TRACE_LINE_MAX)) result t1 Hr Lr) as (line & El & Ecl).
  erewrite bind_ok by exact El. unfold kputs, bind, modify. cbn. by rewrite Ecl.
Qed.

(** ** The three entry points *)

Inductive verdict := Success | Returned (r : Z) | Failed (err : Z).

Definition trace_says (v : verdict) : option bytes -> option bytes -> list varg -> prog trace unit :=
  match v with Success => trace_ok | Returned r => trace_ret r | Failed e => trace_err e end.

Definition verdict_ok (v : verdict) : Prop :=
  match v with Success => True | Returned r => int64 r | Failed e => - 2 ^ 31 <= e < 2 ^ 31 end.

Definition verdict_text (v : verdict) : bytes :=
  match v with
  | Success => lit "ok"
  | Returned r => int_text r
  | Failed e => match trace_errname e with
                | Some name => name
                | None => if e =? 0 then lit "error" else int_text e
                end
  end.

Lemma err_name_cases (P : bytes -> Prop) e name :
  Forall (fun p => P p.2) err_names -> trace_errname e = Some name -> P name.
Proof.
  intros HP E. unfold trace_errname in E. destruct (find _ _) as [p|] eqn:Ef; [|done]. injection E as <-.
  apply find_some in Ef as [Hin _]. rewrite Forall_forall in HP. by apply HP.
Qed.

Lemma int_text_plain v : int64 v -> plain (int_text v).
Proof.
  assert (Hd : forall l, digits l -> plain l).
  { intros l. apply Forall_impl. intros c Hc. unfold Json.is_digit in Hc. b2p. unfold hostile.
    by rewrite !(proj2 (Z.eqb_neq _ _)), (proj2 (Z.ltb_ge _ _)) by lia. }
  assert (Hj : forall i, jint i -> plain i).
  { intros i [->|(c & r & E & _ & Hl)]; [by repeat constructor|]. by apply Hd. }
  unfold int64. intros Hv. unfold int_text. ztest.
  - constructor; [done|]. apply Hj, decimal_spec. lia.
  - apply Hj, decimal_spec. lia.
Qed.

Lemma int32_int64 e : - 2 ^ 31 <= e < 2 ^ 31 -> int64 e.
Proof. unfold int64. lia. Qed.

Lemma verdict_text_plain v : verdict_ok v -> plain (verdict_text v) /\ zlen (verdict_text v) <= 31.
Proof.
  assert (Hi : forall x, int64 x -> plain (int_text x) /\ zlen (int_text x) <= 31).
  { intros x Hx. split; [by apply int_text_plain|]. pose proof (int_text_short x Hx). lia. }
  destruct v as [|r|e]; cbn [verdict_text verdict_ok]; intros Hv; [split; [by repeat constructor|done]|by apply Hi|].
  destruct (trace_errname e) as [name|] eqn:E.
  - apply (err_name_cases (fun n => plain n /\ zlen n <= 31) e); [|done].
    repeat (constructor; [split; [by repeat constructor|done]|]). constructor.
  - ztest; [split; [by repeat constructor|done]|]. by apply Hi, int32_int64.
Qed.

Lemma says_emit v op fmt ap t : verdict_ok v ->
  trace_says v op fmt ap t = emit op fmt ap (Some (verdict_text v)) t.
Proof.
  intros Hv. assert (Hbuf : 0 < 32 <= zlen (array 32)) by done.
  assert (Hk : forall f args text, prints f args text -> no_nul text -> zlen text <= 31 ->
    (res <- on_array (array 32) (snprintf 32 f args) ;; emit op fmt ap (Some (cstr res.2))) t =
    emit op fmt ap (Some text) t).
  { intros f args text Hp Hn Hl. erewrite bind_ok by (apply on_array_ok, snprintf_prints; [exact Hp|lia|lia]). cbn [snd].
    rewrite cstr_truncated, take_ge by (done || unfold zlen in *; lia). done. }
  destruct (verdict_text_plain v Hv) as [Hpl Hlen]. apply plain_no_nul in Hpl.
  assert (Hs : forall s, no_nul s -> zlen s <= 31 -> prints (lit "%s") [arg_str s] s).
  { intros s Hs Hl. rewrite <- (app_nil_r s) at 2. apply prints_s; [done|unfold INT_MAX; lia|apply prints_nil]. }
  destruct v as [|r|e]; cbn [verdict_text verdict_ok trace_says] in *.
  - done.
  - apply Hk; [|done|done].
    rewrite <- (app_nil_r (int_text r)). apply prints_ld; [done|apply prints_nil].
  - unfold trace_err. destruct (trace_errname e) as [name|]; [apply Hk; [by apply Hs|done|done]|].
    destruct (e =? 0); [apply Hk; [by apply Hs|done|done]|]. apply Hk; [|done|done].
    rewrite <- (app_nil_r (int_text e)). apply prints_d; [done|apply prints_nil].
Qed.

Lemma trace_says_ok v op fmt ap T t : verdict_ok v -> args_text fmt ap T ->
  trace_says v op fmt ap t =
  Ok tt (if trace_is_on t
         then Trace (wrap32 (trace_seq t + 1)) (wrap64 (trace_written t + 1)) true
                (console t ++ [trace_line (default (lit "?") op) (seen T) (verdict_text v)])
         else Trace (wrap32 (trace_seq t + 1)) (trace_written t) false (console t)).
Proof.
  intros Hv HT. rewrite says_emit by done. destruct (verdict_text_plain v Hv) as [Hp Hl].
  destruct (trace_is_on t) eqn:E; [by apply emit_on; [|..|apply plain_no_nul|]|by apply emit_off].
Qed.

(** C8: a trace line cannot be forged. Whatever operation name and arguments a caller
    passes, one call prints one line of at most 511 bytes: a bracket, the name and the
    arguments with every control character and bracket escaped (the arguments cut short
    with an ellipsis when there is no room), an arrow, the result in full, a bracket, a
    newline; so the line has no other bracket or newline, and neither side of the arrow
    can fake the frame. With tracing off nothing is printed and nothing counted as
    printed. *)
Theorem trace_line_unforgeable v op fmt ap T t :
  verdict_ok v -> args_text fmt ap T ->
  let name := default (lit "?") op in
  let body := line_body name (seen T) (verdict_text v) in
  let line := lit "[" ++ body ++ lit " -> " ++ verdict_text v ++ lit "]" ++ [10] in
  trace_says v op fmt ap t =
    Ok tt (if trace_is_on t
           then Trace (wrap32 (trace_seq t + 1)) (wrap64 (trace_written t + 1)) true (console t ++ [line])
           else Trace (wrap32 (trace_seq t + 1)) (trace_written t) false (console t)) /\
  Forall (fun c => hostile c = false) (body ++ lit " -> " ++ verdict_text v) /\ zlen line <= 511 /\
  (plain name -> zlen name <= 127 -> plain (seen T) -> 0 < zlen (seen T) <= 503 - zlen (verdict_text v) - zlen name ->
   body = name ++ ch " " :: seen T).
Proof.
  intros Hv HT name body line. destruct (verdict_text_plain v Hv) as [Hp Hl].
  split; [by apply trace_says_ok|]. split.
  { repeat apply Forall_app_2; [apply line_body_plain|by repeat constructor|done]. }
  split; [by apply trace_line_short|]. intros Pn Ln Ps [Hne Ls].
  pose proof (zlen_nonneg name). pose proof (zlen_nonneg (verdict_text v)).
  unfold body, line_body. rewrite !sane_id by (done || lia).
  rewrite bool_decide_eq_false_2 by (intros E; rewrite E in Hne; done).
  by rewrite (proj2 (Z.leb_le _ _)) by lia.
Qed.

Lemma trace_line_unforgeable_witness :
  console (default (Trace 0 0 true []) (match trace_says (Failed (-2)) (Some (lit "vfs_read"))
      (Some (lit "%s")) [arg_str (lit "/x]" ++ [10] ++ lit "[vfs_write")] (Trace 0 0 true []) with
    | Ok _ t => Some t | _ => None end)) =
  [lit "[vfs_read /x\x5d\x0a\x5bvfs_write -> ENOENT]" ++ [10]].
Proof.
  destruct (trace_line_unforgeable (Failed (-2)) (Some (lit "vfs_read")) (Some (lit "%s"))
    [arg_str (lit "/x]" ++ [10] ++ lit "[vfs_write")] (lit "/x]" ++ [10] ++ lit "[vfs_write") (Trace 0 0 true []))
    as [-> _].
  - cbn. lia.
  - split; [|reflexivity]. rewrite <- (app_nil_r (lit "/x]" ++ [10] ++ lit "[vfs_write")) at 2.
    apply prints_s; [repeat constructor; discriminate|vm_compute; discriminate|apply prints_nil].
  - vm_compute. reflexivity.
Defined.
