(* ===== verification/Tool.v ===== *)
(** core/tool.c: the model's system calls: the registry, the advertised schema, the
    result buffer, dispatch.

    [M] is the state of the machine outside the caller's result buffer; a handler runs on
    both and may stop in a fatal exception ([None]), which abandons the calls above it up
    to a guard. The linker's table of tools is a parameter. *)

From S2P Require Import Prelude Bytes Json JsonWriter Kfmt KfmtClaims Trace.
Open Scope prog_scope.

Definition TOOL_NAME_MAX : Z := 48.
Definition TOOL_OK : Z := 0.
Definition TOOL_ENOENT : Z := -2.
Definition TOOL_EINVAL : Z := -22.

(** [input] is the span, [input_len] its length. *)
Record tool_call := Call { id : option bytes; call_name : option bytes; input : bytes }.

(** The bytes of [buf] are the ones its caller owns. *)
Record tool_result := Result {
  buf : bytes; cap : Z; len : Z; is_error : bool; truncated : bool }.

(** Where the trace module's state is in the machine. *)
Class HasTrace (M : Type) := {
  get_trace : M -> trace;
  set_trace : trace -> M -> M;
  get_set_trace : forall t m, get_trace (set_trace t m) = t }.

Definition handler (M : Type) := tool_call -> prog (M * tool_result) (option Z).

Record tool (M : Type) := Tool {
  name : option bytes; description : option bytes; input_schema : option bytes;
  flags : Z; invoke : option (handler M); functions : option (list bytes) }.
Arguments Tool {M}. Arguments name {M}. Arguments description {M}. Arguments input_schema {M}.
Arguments flags {M}. Arguments invoke {M}. Arguments functions {M}.

(** ** Registry *)

(** The loop, with [n] rounds left. *)
Fixpoint name_scan (n : nat) (s : bytes) : bool :=
  match n with
  | O => false
  | S n => match s with
           | [] => true
           | c :: s => if (c <? 32) || (c =? 127) || (c =? ch "[") || (c =? ch "]") then false
                       else name_scan n s
           end
  end.

Definition name_ok (s : option bytes) : bool :=
  match s with
  | None | Some [] => false
  | Some s => name_scan (Z.to_nat TOOL_NAME_MAX) s
  end.

Fixpoint name_eq_scan (n : nat) (a b : bytes) : bool :=
  match n with
  | O => false
  | S n => match a, b with
           | [], [] => true
           | x :: a, y :: b => if x =? y then name_eq_scan n a b else false
           | _, _ => false
           end
  end.

Definition name_eq (a b : option bytes) : bool :=
  match a, b with
  | Some a, Some b => name_eq_scan (Z.to_nat TOOL_NAME_MAX) a b
  | _, _ => false
  end.

(** ** The writer that keeps counting *)

Record sbuf := Sink { dst : option bytes; s_cap : Z; need : Z }.

Definition sput_char (c : Z) : prog sbuf unit := fun s =>
  let need' := wrap64 (need s + 1) in
  match dst s with
  | Some d =>
      if negb (s_cap s =? 0) && (need' <? s_cap s)
      then match poke (need s) c d with
           | Ok _ d => Ok tt (Sink (Some d) (s_cap s) need')
           | _ => Wild
           end
      else Ok tt (Sink (Some d) (s_cap s) need')
  | None => Ok tt (Sink None (s_cap s) need')
  end.

Fixpoint sput (p : bytes) : prog sbuf unit :=
  match p with [] => ret tt | c :: p => sput_char c ;;; sput p end.

(** The switch is that of json_escape_n. *)
Fixpoint sput_escaped (p : bytes) : prog sbuf unit :=
  match p with [] => ret tt | c :: p => sput (escape_byte c) ;;; sput_escaped p end.

Definition sput_json_string (p : option bytes) : prog sbuf unit :=
  sput_char QUOTE ;;; sput_escaped (default [] p) ;;; sput_char QUOTE.

(** The loop over [fn], with [fi] names written. *)
Fixpoint sput_functions (fs : list bytes) (fi : Z) : prog sbuf unit :=
  match fs with
  | [] => ret tt
  | f :: fs =>
      (if fi =? 0 then ret tt else sput_char (ch ",")) ;;;
      sput_json_string (Some f) ;;; sput_functions fs (fi + 1)
  end.

Section Tools.

Context {M : Type} `{HasTrace M}.
Variable tool_table : list (tool M).

Definition tool_count : Z := Z.of_nat (length tool_table).

Definition tool_at (index : Z) : option (tool M) :=
  if (index <? 0) || (tool_count <=? index) then None else tool_table !! Z.to_nat index.

Definition tool_usable (t : tool M) : bool :=
  match invoke t with
  | None => false
  | Some _ =>
      if negb (name_ok (name t)) then false
      else match input_schema t with
           | None => false
           | Some s =>
               let '(rc, v) := json_parse (Some s) in
               if negb (rc =? JSON_OK) then false else bool_decide (jtype v = T_OBJECT)
           end
  end.

Definition tool_find (n : option bytes) : option (tool M) :=
  match n with
  | None => None
  | Some _ => find (fun t => tool_usable t && name_eq (name t) n) tool_table
  end.

Definition sput_tool (t : tool M) : prog sbuf unit :=
  sput (qlit "{`name`:") ;;;
  sput_json_string (name t) ;;;
  sput (qlit ",`description`:") ;;;
  sput_json_string (Some (default [] (description t))) ;;;
  sput (qlit ",`input_schema`:") ;;;
  sput (default [] (input_schema t)) ;;;
  match functions t with
  | Some fs =>
      sput (qlit ",`functions`:[") ;;; sput_functions fs 0 ;;; sput_char (ch "]")
  | None => ret tt
  end ;;;
  sput_char (ch "}").

(** The loop over the table, with [emitted] tools written. *)
Fixpoint sput_tools (ts : list (tool M)) (emitted : Z) : prog sbuf unit :=
  match ts with
  | [] => ret tt
  | t :: ts =>
      if negb (tool_usable t) then sput_tools ts emitted
      else (if emitted =? 0 then ret tt else sput_char (ch ",")) ;;;
           sput_tool t ;;; sput_tools ts (emitted + 1)
  end.

(** On the caller's buffer, or none. *)
Definition tools_build_schema (c : Z) : prog (option bytes) Z := fun d =>
  match (sput_char (ch "[") ;;; sput_tools tool_table 0 ;;; sput_char (ch "]")) (Sink d c 0) with
  | Ok _ s =>
      match dst s with
      | Some b =>
          if c =? 0 then Ok (need s) (Some b)
          else match poke (if need s <? c then need s else c - 1) 0 b with
               | Ok _ b => Ok (need s) (Some b)
               | _ => Wild
               end
      | None => Ok (need s) None
      end
  | Panic w => Panic w
  | Wild => Wild
  | Spin => Spin
  end.

(** ** Results *)

Definition tool_result_init (b : bytes) (c : Z) : outcome tool_result unit :=
  if c =? 0 then Ok tt (Result b c 0 false false)
  else match poke 0 0 b with
       | Ok _ b => Ok tt (Result b c 0 false false)
       | _ => Wild
       end.

(** Run [m] on the bytes from [off] on. *)
Definition from_offset {A} (off : Z) (m : prog bytes A) : prog bytes A := fun b =>
  if (0 <=? off) && (off <=? zlen b) then
    match m (drop (Z.to_nat off) b) with
    | Ok a b' => Ok a (take (Z.to_nat off) b ++ b')
    | Panic w => Panic w
    | Wild => Wild
    | Spin => Spin
    end
  else Wild.

Definition tool_result_printf (fmt : bytes) (ap : list varg) : prog tool_result Z := fun r =>
  if cap r =? 0 then Ok 0 r
  else if cap r <=? len r then Ok 0 (Result (buf r) (cap r) (cap r - 1) (is_error r) true)
  else
    let room := cap r - len r in
    match from_offset (len r) (vsnprintf room fmt ap) (buf r) with
    | Ok n b =>
        if n <? 0 then Ok 0 (Result b (cap r) (len r) (is_error r) (truncated r))
        else if room <=? n then Ok (room - 1) (Result b (cap r) (cap r - 1) (is_error r) true)
        else Ok n (Result b (cap r) (len r + n) (is_error r) (truncated r))
    | Panic w => Panic w
    | Wild => Wild
    | Spin => Spin
    end.

(** ** Dispatch *)

Definition on_result {A} (m : prog tool_result A) : prog (M * tool_result) A := fun s =>
  match m s.2 with
  | Ok a r => Ok a (s.1, r)
  | Panic w => Panic w
  | Wild => Wild
  | Spin => Spin
  end.

Definition on_trace {A} (m : prog trace A) : prog (M * tool_result) A := fun s =>
  match m (get_trace s.1) with
  | Ok a t => Ok a (set_trace t s.1, s.2)
  | Panic w => Panic w
  | Wild => Wild
  | Spin => Spin
  end.

Definition set_error : prog tool_result unit :=
  modify (fun r => Result (buf r) (cap r) (len r) true (truncated r)).

(** The names, while a whole one fits. *)
Fixpoint list_names (ts : list (tool M)) : prog tool_result unit :=
  match ts with
  | [] => ret tt
  | k :: ts =>
      if negb (tool_usable k) then list_names ts
      else
        l <- gets len ;;
        c <- gets cap ;;
        if c <=? l + zlen (default [] (name k)) + 2
        then tool_result_printf (lit " ...") [] ;;; ret tt
        else tool_result_printf (lit " %s") [arg_str (default [] (name k))] ;;; list_names ts
  end.

Definition unknown_tool (n : option bytes) : prog (M * tool_result) Z :=
  let shown := arg_str (default (lit "(null)") n) in
  on_result (set_error ;;;
             tool_result_printf (lit "no such tool: %s. available:") [shown] ;;;
             list_names tool_table) ;;;
  on_trace (trace_err TOOL_ENOENT (Some (lit "tool_dispatch")) (Some (lit "%s")) [shown]) ;;;
  ret TOOL_ENOENT.

(** What happens to a result that was cut short. *)
Definition truncation_notice : prog tool_result unit := fun r =>
  match snprintf 48 ([10] ++ lit "[result truncated at %u bytes]") [VInt (wrap32 (cap r - 1))] (array 48) with
  | Ok nn note =>
      if (0 <? nn) && (nn + 1 <? cap r) then
        let text := take (Z.to_nat nn) note in
        if len r + nn <? cap r then
          match (pokes (len r) text ;;; poke (len r + nn) 0) (buf r) with
          | Ok _ b => Ok tt (Result b (cap r) (len r + nn) (is_error r) (truncated r))
          | _ => Wild
          end
        else
          match (pokes (cap r - 1 - nn) text ;;; poke (cap r - 1) 0) (buf r) with
          | Ok _ b => Ok tt (Result b (cap r) (cap r - 1) (is_error r) (truncated r))
          | _ => Wild
          end
      else Ok tt r
  | Panic w => Panic w
  | Wild => Wild
  | Spin => Spin
  end.

Definition tool_dispatch (call : tool_call) : prog (M * tool_result) (option Z) :=
  c <- gets (fun s => cap s.2) ;;
  if c =? 0 then ret (Some TOOL_EINVAL)
  else match tool_find (call_name call) with
  | None => rc <- unknown_tool (call_name call) ;; ret (Some rc)
  | Some t =>
      saved_on <- gets (fun s => trace_enabled (get_trace s.1)) ;;
      before <- gets (fun s => trace_emissions (get_trace s.1)) ;;
      on_trace (trace_set_enabled true) ;;;
      rc <- match invoke t with Some f => f call | None => fun _ => Wild end ;;
      match rc with
      | None => ret None
      | Some rc =>
          on_trace (trace_set_enabled saved_on) ;;;
          (if rc =? TOOL_OK then ret tt else on_result set_error) ;;;
          tr <- gets (fun s => truncated s.2) ;;
          (if tr : bool then on_result truncation_notice else ret tt) ;;;
          now <- gets (fun s => trace_emissions (get_trace s.1)) ;;
          (if now =? before then
             e <- gets (fun s => is_error s.2) ;;
             if e : bool
             then on_trace (trace_err rc (name t) (Some (lit "%s")) [arg_str []])
             else on_trace (trace_ok (name t) (Some (lit "%s")) [arg_str []])
           else ret tt) ;;;
          ret (Some TOOL_OK)
      end
  end.

End Tools.
