(* ===== verification/ToolClaims.v ===== *)
(** core/tool.c: the advertised schema is one well-formed JSON array of exactly the tools
    that can be called; a dispatch always leaves its line and stays in its buffer. *)

From S2P Require Import Prelude Bytes Json JsonWriter JsonGrammar JsonNav JsonText JsonOut SseJson.
From S2P Require Import Kfmt KfmtSpec KfmtClaims Trace Tool.
Open Scope prog_scope.

(** * The schema *)

(** ** The counting writer *)

(** After [t] was written from the start of [d]. *)
Definition sunk (d : option bytes) (c : Z) (t : bytes) : sbuf :=
  Sink (patch 0 (take (Z.to_nat (c - 1)) t) <$> d) c (zlen t).

Definition room_for (d : option bytes) (c : Z) : Prop := forall b, d = Some b -> 0 <= c <= zlen b.

(** [m] writes [t], as far as there is room, and counts all of it. *)
Definition writes (m : prog sbuf unit) (t : bytes) : Prop :=
  forall d c t0, room_for d c -> zlen t0 + zlen t < 2 ^ 64 ->
    m (sunk d c t0) = Ok tt (sunk d c (t0 ++ t)).

Lemma writes_nil : writes (ret tt) [].
Proof. intros d c t0 _ _. by rewrite app_nil_r. Qed.

Lemma writes_seq m1 m2 t1 t2 : writes m1 t1 -> writes m2 t2 -> writes (m1 ;;; m2) (t1 ++ t2).
Proof.
  intros H1 H2 d c t0 Hr Hl. autorewrite with zlen in Hl. pose proof (zlen_nonneg t1). pose proof (zlen_nonneg t2).
  rewrite (bind_ok _ _ _ _ _ (H1 d c t0 Hr ltac:(lia))), H2 by (done || (autorewrite with zlen; lia)).
  by rewrite app_assoc.
Qed.

Lemma writes_char x : writes (sput_char x) [x].
Proof.
  intros d c t0 Hr Hl. autorewrite with zlen in Hl. pose proof (zlen_nonneg t0).
  unfold sput_char, sunk. cbn [dst s_cap need]. rewrite wrap64_small by lia.
  replace (zlen (t0 ++ [x])) with (zlen t0 + 1) by (autorewrite with zlen; lia).
  destruct d as [b|]; [|done]. specialize (Hr b eq_refl). cbn [fmap option_fmap option_map].
  assert (Hz : forall u, zlen u = Z.of_nat (length u)) by done.
  destruct (Z.eqb_spec c 0) as [->|Hc]; cbn [negb andb]; [done|].
  destruct (Z.ltb_spec (zlen t0 + 1) c).
  - rewrite poke_ok by (rewrite zlen_patch; rewrite ?Hz, ?length_take in *; lia).
    rewrite !take_ge by (rewrite ?length_app; cbn; rewrite ?Hz in *; lia).
    by rewrite patch_at_end by (rewrite ?Hz in *; lia).
  - by rewrite take_app_le by (rewrite ?Hz in *; lia).
Qed.

Create HintDb writes.
#[local] Hint Resolve writes_nil writes_seq writes_char : writes.

Lemma writes_sput t : writes (sput t) t.
Proof. induction t as [|x t IH]; [apply writes_nil|]. apply (writes_seq _ _ [x] t); auto with writes. Qed.

Lemma writes_escaped t : writes (sput_escaped t) (escaped t).
Proof.
  induction t as [|x t IH]; [apply writes_nil|].
  change (escaped (x :: t)) with (escape_byte x ++ escaped t). apply writes_seq; [apply writes_sput|done].
Qed.

(** ** The text *)

Definition jstr (s : bytes) : bytes := QUOTE :: escaped s ++ [QUOTE].

Lemma writes_jstr s : writes (sput_json_string s) (jstr (default [] s)).
Proof.
  apply (writes_seq _ _ [QUOTE] (escaped (default [] s) ++ [QUOTE])); [apply writes_char|].
  apply writes_seq; [apply writes_escaped|apply writes_char].
Qed.

Lemma commas_cons b bs : commas (b :: bs) = b ++ concat (map (cons (ch ",")) bs).
Proof.
  revert b. induction bs as [|c bs IH]; intros b; [by rewrite app_nil_r|].
  change (commas (b :: c :: bs)) with (b ++ ch "," :: commas (c :: bs)). by rewrite IH.
Qed.

Lemma writes_functions fs : writes (sput_functions fs 0) (commas (map jstr fs)).
Proof.
  assert (Ht : forall fs fi, 0 < fi -> writes (sput_functions fs fi) (concat (map (cons (ch ",")) (map jstr fs)))).
  { clear fs. induction fs as [|f fs IH]; intros fi Hfi; cbn [sput_functions map concat]; [apply writes_nil|].
    rewrite (proj2 (Z.eqb_neq fi 0)) by lia. apply (writes_seq _ _ [ch ","] (jstr f ++ _)); [apply writes_char|].
    apply writes_seq; [apply (writes_jstr (Some f))|apply IH; lia]. }
  destruct fs as [|f fs]; [apply writes_nil|]. cbn [map sput_functions]. rewrite commas_cons.
  apply (writes_seq _ _ [] (jstr f ++ _)); [apply writes_nil|].
  apply writes_seq; [apply (writes_jstr (Some f))|by apply Ht].
Qed.

Section Schema.

Context {M : Type} `{HasTrace M}.
Implicit Type t : tool M.

Definition tool_members t : list (bytes * bytes) :=
  [(jstr (lit "name"), jstr (default [] (name t)));
   (jstr (lit "description"), jstr (default [] (description t)));
   (jstr (lit "input_schema"), default [] (input_schema t))] ++
  match functions t with
  | Some fs => [(jstr (lit "functions"), ch "[" :: commas (map jstr fs) ++ [ch "]"])]
  | None => []
  end.

Definition tool_text t : bytes := ch "{" :: members_text (tool_members t) ++ [ch "}"].

Lemma writes_tool t : writes (sput_tool t) (tool_text t).
Proof using.
  set (tl := match functions t with
             | Some fs => qlit ",`functions`:[" ++ commas (map jstr fs) ++ [ch "]"] | None => [] end).
  replace (tool_text t) with
    (qlit "{`name`:" ++ jstr (default [] (name t)) ++ qlit ",`description`:" ++ jstr (default [] (description t)) ++
     qlit ",`input_schema`:" ++ default [] (input_schema t) ++ tl ++ [ch "}"]).
  - unfold sput_tool. repeat apply writes_seq; try apply writes_sput; try apply writes_jstr; [| |apply writes_char].
    + apply (writes_jstr (Some (default [] (description t)))).
    + subst tl. destruct (functions t) as [fs|]; [|apply writes_nil].
      apply writes_seq; [apply writes_sput|]. apply writes_seq; [apply writes_functions|apply writes_char].
  - unfold tool_text, tool_members. subst tl. destruct (functions t) as [fs|]; cbn [app members_text];
      repeat (rewrite <- !app_assoc; cbn [app]); reflexivity.
Qed.

Definition schema_text (tool_table : list (tool M)) : bytes :=
  ch "[" :: commas (map tool_text (List.filter tool_usable tool_table)) ++ [ch "]"].

Lemma writes_tools ts : writes (sput_tools ts 0) (commas (map tool_text (List.filter tool_usable ts))).
Proof using.
  assert (Ht : forall ts n, 0 < n ->
    writes (sput_tools ts n) (concat (map (cons (ch ",")) (map tool_text (List.filter tool_usable ts))))).
  { clear ts. induction ts as [|t ts IH]; intros n Hn; cbn [sput_tools List.filter]; [apply writes_nil|].
    destruct (tool_usable t); cbn [negb map concat]; [|by apply IH].
    rewrite (proj2 (Z.eqb_neq n 0)) by lia. apply (writes_seq _ _ [ch ","] (tool_text t ++ _)); [apply writes_char|].
    apply writes_seq; [apply writes_tool|apply IH; lia]. }
  induction ts as [|t ts IH]; cbn [sput_tools List.filter]; [apply writes_nil|].
  destruct (tool_usable t); cbn [negb map]; [|done]. rewrite commas_cons.
  apply (writes_seq _ _ [] (tool_text t ++ _)); [apply writes_nil|].
  apply writes_seq; [apply writes_tool|by apply Ht].
Qed.

Lemma build_schema_text tool_table c d :
  room_for d c -> zlen (schema_text tool_table) < 2 ^ 64 ->
  tools_build_schema tool_table c d =
  Ok (zlen (schema_text tool_table)) (KfmtSpec.truncated c (schema_text tool_table) <$> d).
Proof using.
  intros Hr Hl. unfold tools_build_schema.
  assert (Hw : writes (sput_char (ch "[") ;;; sput_tools tool_table 0 ;;; sput_char (ch "]")) (schema_text tool_table)).
  { apply (writes_seq _ _ [ch "["]); [apply writes_char|]. apply writes_seq; [apply writes_tools|apply writes_char]. }
  assert (E0 : Sink d c 0 = sunk d c []).
  { unfold sunk. rewrite take_nil. destruct d as [b|]; [|done]. cbn. by rewrite patch_nil. }
  rewrite E0, (Hw d c []) by done. cbn [app]. unfold sunk. cbn [dst need].
  destruct d as [b|]; [|done]. cbn [fmap option_fmap option_map]. specialize (Hr b eq_refl).
  unfold KfmtSpec.truncated. destruct (Z.eqb_spec c 0) as [->|Hc]; [cbn; by rewrite patch_nil|].
  set (u := take (Z.to_nat (c - 1)) (schema_text tool_table)).
  assert (Hu : zlen u = Z.min (c - 1) (zlen (schema_text tool_table)))
    by (unfold u, zlen; rewrite length_take; lia).
  pose proof (zlen_nonneg (schema_text tool_table)).
  rewrite poke_ok by (rewrite zlen_patch by lia; ztest; lia).
  rewrite patch_at_end; [done| |lia]. ztest; lia.
Qed.

(** ** It is JSON *)

(** The strings of a descriptor are strings of chars. *)
Definition chars_of t : Prop :=
  Forall (fun s => Forall byte_ok (default [] s)) [name t; description t; input_schema t] /\
  Forall (Forall byte_ok) (default [] (functions t)).

Lemma jstr_jval n s : Forall byte_ok s -> jval (S n) T_STRING (jstr s).
Proof using. intros Hs. constructor. by apply escaped_jstring. Qed.

Lemma jstr_lit s : Forall byte_ok (lit s).
Proof using.
  induction s as [|a s IH]; constructor; [|done]. unfold byte_ok. pose proof (N_ascii_bounded a). lia.
Qed.

(** What a reader of the array finds for a tool. *)
Definition tool_items t (schema : json_value) : list (json_value * json_value) :=
  let str s := JV T_STRING (jstr s) in
  [(str (lit "name"), str (default [] (name t)));
   (str (lit "description"), str (default [] (description t)));
   (str (lit "input_schema"), schema)] ++
  match functions t with
  | Some fs => [(str (lit "functions"), JV T_ARRAY (ch "[" :: commas (map jstr fs) ++ [ch "]"]))]
  | None => []
  end.

Lemma usable_schema t : tool_usable t = true ->
  exists n s v, name t = Some n /\ input_schema t = Some s /\ json_parse (Some s) = (JSON_OK, v) /\
    jtype v = T_OBJECT /\ name_ok (Some n) = true /\ invoke t <> None.
Proof using.
  unfold tool_usable. destruct (invoke t); [|done]. destruct (name_ok (name t)) eqn:En; cbn [negb]; [|done].
  destruct (input_schema t) as [s|]; [|done]. destruct (json_parse (Some s)) as [rc v] eqn:Ep.
  destruct (Z.eqb_spec rc JSON_OK) as [->|]; cbn [negb]; [|done]. intros Ht. apply bool_decide_eq_true in Ht.
  destruct (name t) as [n|]; [|done]. by exists n, s, v.
Qed.

Lemma tool_text_json t : tool_usable t = true -> chars_of t ->
  exists schema, json_parse (input_schema t) = (JSON_OK, schema) /\ jtype schema = T_OBJECT /\
    jmembers 32 (tool_items t schema) (members_text (tool_members t)).
Proof using.
  intros Hu [Hs Hf]. destruct (usable_schema t Hu) as (n & s & v & En & Es & Ep & Ht & _). rewrite Es.
  exists v. split; [done|]. split; [done|].
  pose proof Ep as (w1 & w2 & E & W1 & W2 & Hv)%json_parse_ok_sound.
  rewrite !Forall_cons_iff in Hs. destruct Hs as (Hn & Hd & _). rewrite En in Hn.
  assert (Hk : forall x, jstring (jstr (lit x))) by (intros x; apply escaped_jstring, jstr_lit).
  assert (Hstr : forall x y, Forall byte_ok y ->
    member_is 32 (jstr (lit x), jstr y) (JV T_STRING (jstr (lit x)), JV T_STRING (jstr y))).
  { intros x y Hy. split; [apply Hk|]. split; [done|]. exists [], []. cbn [fst snd span jtype]. rewrite app_nil_r.
    split; [done|]. split; [apply ws_nil|]. split; [apply ws_nil|by apply jstr_jval]. }
  apply members_exact; [|by unfold tool_members].
  unfold tool_members, tool_items. rewrite En, Es. apply Forall2_app.
  - constructor; [by apply Hstr|]. constructor; [by apply Hstr|]. constructor; [|constructor].
    split; [apply Hk|]. split; [done|]. by exists w1, w2.
  - destruct (functions t) as [fs|]; [|constructor]. constructor; [|constructor].
    split; [apply Hk|]. split; [done|]. exists [], []. cbn [fst snd span jtype]. rewrite app_nil_r.
    split; [done|]. split; [apply ws_nil|]. split; [apply ws_nil|]. apply commas_array. cbn in Hf.
    clear -Hf. induction Hf as [|f fs Hf _ IH]; constructor; [|done]. exists T_STRING. by apply jstr_jval.
Qed.

(** ** Lookup *)

Lemma name_scan_short n : forall s, name_scan n s = true -> (length s < n)%nat /\ plain s.
Proof using.
  induction n as [|n IH]; intros s E; [done|]. destruct s as [|c s]; [split; [cbn; lia|constructor]|].
  cbn [name_scan] in E. fold (hostile c) in E. destruct (hostile c) eqn:Eh; [done|].
  destruct (IH s E). split; [cbn; lia|by constructor].
Qed.

Lemma name_ok_plain s : name_ok (Some s) = true -> zlen s <= 47 /\ plain s /\ s <> [].
Proof using.
  intros E. unfold name_ok in E. destruct s as [|c s]; [done|]. apply name_scan_short in E as [Hl Hp].
  unfold zlen, TOOL_NAME_MAX in *. split; [lia|done].
Qed.

Lemma name_eq_scan_ok n : forall a b, (length a < n)%nat -> name_eq_scan n a b = bool_decide (a = b).
Proof using.
  induction n as [|n IH]; intros a b Hl; [lia|]. cbn [name_eq_scan].
  destruct a as [|x a], b as [|y b]; try done. cbn in Hl. rewrite IH by lia.
  destruct (Z.eqb_spec x y) as [->|Hne]; [apply bool_decide_ext; split; congruence|].
  symmetry. apply bool_decide_eq_false_2. congruence.
Qed.

Lemma name_eq_ok a b : name_ok (Some a) = true -> name_eq (Some a) (Some b) = bool_decide (a = b).
Proof using.
  intros [Hl _]%name_ok_plain. apply name_eq_scan_ok. unfold zlen, TOOL_NAME_MAX in *. lia.
Qed.

Lemma tool_find_some tool_table n t : tool_find tool_table (Some n) = Some t ->
  t ∈ tool_table /\ tool_usable t = true /\ name t = Some n.
Proof using.
  intros E. apply find_some in E as [Hin E]. apply andb_true_iff in E as [Hu He].
  split; [by apply list_elem_of_In|]. split; [done|].
  destruct (usable_schema t Hu) as (m & _ & _ & En & _ & _ & _ & Hm & _). rewrite En in *.
  rewrite name_eq_ok in He by done. apply bool_decide_eq_true in He. by subst.
Qed.

Lemma tool_find_none tool_table n t : tool_find tool_table (Some n) = None ->
  t ∈ tool_table -> tool_usable t = true -> name t <> Some n.
Proof using.
  intros E Hin Hu En. apply list_elem_of_In in Hin. pose proof (find_none _ _ E t Hin) as He. cbv beta in He.
  destruct (usable_schema t Hu) as (m & _ & _ & Em & _ & _ & _ & Hm & _).
  assert (m = n) as -> by congruence.
  by rewrite Hu, En, name_eq_ok, bool_decide_eq_true_2 in He.
Qed.

(** C11: what is advertised is what can be called. Whatever the descriptors hold, the text
    tools_build_schema puts into the request is one well-formed JSON array with one object
    for each usable tool, in order, whose members are exactly the tool's name, description,
    its schema (the value json_parse found in it) and its functions; so no descriptor can
    break the request. The length returned is that of the whole text and the buffer holds
    as much as fits, NUL-terminated. A name is found by tool_find exactly if a usable tool
    has it. *)
Theorem schema_matches_dispatch (tool_table : list (tool M)) c b :
  Forall chars_of tool_table -> 0 <= c <= zlen b -> zlen (schema_text tool_table) < 2 ^ 64 ->
  let text := schema_text tool_table in
  tools_build_schema tool_table c (Some b) = Ok (zlen text) (Some (KfmtSpec.truncated c text b)) /\
  (exists es inside, text = ch "[" :: inside ++ [ch "]"] /\
    (es = [] /\ inside = [] \/ jelems 33 es inside) /\
    Forall2 (fun t e => jtype e = T_OBJECT /\ exists schema s,
        span e = ch "{" :: s ++ [ch "}"] /\ json_parse (input_schema t) = (JSON_OK, schema) /\
        jmembers 32 (tool_items t schema) s /\ decode (body (JV T_STRING (jstr (default [] (name t))))) = name t)
      (List.filter tool_usable tool_table) es) /\
  (forall n, tool_find tool_table (Some n) <> None <->
    exists t, t ∈ tool_table /\ tool_usable t = true /\ name t = Some n).
Proof using.
  intros Hc Hb Hl text. split; [by rewrite build_schema_text by (done || by intros ? [= <-])|]. split.
  - set (ts := List.filter tool_usable tool_table) in *.
    assert (Hu : Forall (fun t => tool_usable t = true /\ chars_of t) ts).
    { apply List.Forall_forall. intros t Ht. apply filter_In in Ht as [Hin Hu].
      rewrite List.Forall_forall in Hc. auto. }
    assert (Hes : exists es, Forall2 (fun b e => span e = b /\ jval 33 (jtype e) b) (map tool_text ts) es /\
      Forall2 (fun t e => jtype e = T_OBJECT /\ exists schema s,
        span e = ch "{" :: s ++ [ch "}"] /\ json_parse (input_schema t) = (JSON_OK, schema) /\
        jmembers 32 (tool_items t schema) s /\ decode (body (JV T_STRING (jstr (default [] (name t))))) = name t) ts es).
    { clear -Hu. induction Hu as [|t ts [Hu Hc] _ (es & H1 & H2)]; [by exists []|].
      destruct (tool_text_json t Hu Hc) as (schema & Ep & Ht & Hm).
      exists (JV T_OBJECT (tool_text t) :: es). split; constructor; try done.
      - split; [done|]. by eapply jv_object.
      - split; [done|]. exists schema, (members_text (tool_members t)). repeat split; try done.
        destruct (usable_schema t Hu) as (n & _ & _ & En & _). rewrite En. unfold jstr. rewrite body_jstring.
        apply escaped_decode. destruct Hc as [Hc _]. apply Forall_inv in Hc. by rewrite En in Hc. }
    destruct Hes as (es & H1 & H2). exists es, (commas (map tool_text ts)). split; [done|]. split; [|done].
    destruct ts as [|t ts]; [left; by inversion H1|right; by apply commas_exact].
  - intros n. split.
    + destruct (tool_find tool_table (Some n)) as [t|] eqn:E; [|done]. intros _. exists t. by apply tool_find_some.
    + intros (t & Hin & Hu & En) E. by eapply tool_find_none.
Qed.

End Schema.

(** * Results *)

(** The text so far is in the buffer and ends before its last byte. *)
Definition result_ok (r : tool_result) : Prop := 0 <= len r < cap r /\ cap r = zlen (buf r).
Definition r_text (r : tool_result) : bytes := take (Z.to_nat (len r)) (buf r).

(** [r'] is [r] with [t] appended, as far as it fits. *)
Record appended (t : bytes) (r r' : tool_result) : Prop := {
  app_ok : result_ok r';
  app_cap : cap r' = cap r;
  app_error : is_error r' = is_error r;
  app_text : r_text r' = take (Z.to_nat (cap r - 1)) (r_text r ++ t);
  app_cut : truncated r' = truncated r || (cap r <=? len r + zlen t) }.

Lemma r_text_len r : result_ok r -> zlen (r_text r) = len r.
Proof. intros [Hl Hc]. unfold r_text, zlen in *. rewrite length_take. lia. Qed.

Lemma printf_appends fmt ap t r : result_ok r -> prints fmt ap t -> zlen t < 2 ^ 31 ->
  exists n r', tool_result_printf fmt ap r = Ok n r' /\ appended t r r'.
Proof.
  intros Hr Hp Hl. pose proof Hr as [Hlen Hcap]. unfold tool_result_printf. pose proof (zlen_nonneg t).
  rewrite (proj2 (Z.eqb_neq _ 0)), (proj2 (Z.leb_gt (cap r) _)) by lia.
  set (room := cap r - len r). set (b1 := drop (Z.to_nat (len r)) (buf r)).
  assert (Hb1 : zlen b1 = room) by (unfold b1, room, zlen in *; rewrite length_drop; lia).
  assert (E : from_offset (len r) (vsnprintf room fmt ap) (buf r) =
    Ok (zlen t) (r_text r ++ KfmtSpec.truncated room t b1)).
  { unfold from_offset. rewrite (proj2 (Z.leb_le 0 _)), (proj2 (Z.leb_le (len r) _)) by lia. cbn [andb].
    fold b1. by erewrite snprintf_prints by (done || lia). }
  rewrite E. set (b' := r_text r ++ _). pose proof (r_text_len r Hr) as Ht.
  assert (Hb' : zlen b' = cap r).
  { unfold b'. rewrite zlen_app, zlen_truncated by lia. unfold room in *. lia. }
  assert (Hpre : forall k, 0 <= k <= room - 1 -> k <= zlen t ->
    take (Z.to_nat (len r + k)) b' = r_text r ++ take (Z.to_nat k) t).
  { intros k Hk Hkt. unfold b', KfmtSpec.truncated. rewrite (proj2 (Z.eqb_neq room 0)) by lia.
    rewrite take_app_ge by (unfold zlen in *; lia). f_equal.
    replace (Z.to_nat (len r + k) - length (r_text r))%nat with (Z.to_nat k) by (unfold zlen in *; lia).
    rewrite patch_front, <- app_assoc, take_app_le, take_take
      by (rewrite ?length_take; unfold zlen in *; lia). f_equal. lia. }
  rewrite (proj2 (Z.ltb_ge (zlen t) 0)) by lia. destruct (Z.leb_spec room (zlen t)) as [Hbig|Hfit].
  - do 2 eexists. split; [reflexivity|]. split; cbn [len cap buf is_error truncated]; try done.
    + split; [cbn; lia|done].
    + unfold r_text at 1. cbn [len buf]. replace (cap r - 1) with (len r + (room - 1)) by (unfold room; lia).
      rewrite Hpre by lia. rewrite take_app_ge by (unfold zlen in *; lia). do 2 f_equal. unfold zlen in *. lia.
    + rewrite (proj2 (Z.leb_le _ _)) by (unfold room in *; lia). by rewrite orb_true_r.
  - do 2 eexists. split; [reflexivity|]. split; cbn [len cap buf is_error truncated]; try done.
    + split; [cbn; unfold room in *; lia|done].
    + unfold r_text at 1. cbn [len buf]. rewrite Hpre, !take_ge; try done; try lia.
      * rewrite length_app. unfold room, zlen in *. lia.
      * unfold zlen. lia.
    + rewrite (proj2 (Z.leb_gt _ _)) by (unfold room in *; lia). by rewrite orb_false_r.
Qed.

(** The end of a result that was cut short. *)
Definition notice (c : Z) : bytes := [10] ++ lit "[result truncated at " ++ decimal (wrap32 (c - 1)) ++ lit " bytes]".

Definition with_notice (r : tool_result) : bytes :=
  let n := notice (cap r) in
  if zlen n + 1 <? cap r then take (Z.to_nat (cap r - 1 - zlen n)) (r_text r) ++ n else r_text r.

Lemma notice_printed c :
  prints ([10] ++ lit "[result truncated at %u bytes]") [VInt (wrap32 (c - 1))] (notice c) /\
  zlen (notice c) <= 47 /\ no_nul (notice c) /\ 0 < zlen (notice c).
Proof.
  pose proof (wrap_range 32 (c - 1) ltac:(lia)) as Hw. set (v := wrap32 (c - 1)) in *.
  assert (Hi : int64 v) by (unfold int64; lia).
  assert (Ed : decimal v = int_text v) by (unfold int_text; by rewrite (proj2 (Z.ltb_ge v 0)) by lia).
  pose proof (decimal_short v 10 ltac:(lia) ltac:(cbn; lia)). pose proof (zlen_nonneg (decimal v)).
  assert (Hl : zlen (notice c) = 29 + zlen (decimal v)).
  { unfold notice. fold v. autorewrite with zlen. change (zlen (lit "[result truncated at ")) with 21.
    change (zlen (lit " bytes]")) with 7. lia. }
  split; [|split; [lia|split; [|lia]]].
  - unfold notice. fold v. do 22 print_plain. apply prints_u; [done|]. do 7 print_plain. apply prints_nil.
  - unfold notice. fold v. rewrite Ed. repeat apply Forall_app_2; try (by repeat constructor). by apply int_text_no_nul.
Qed.

Lemma take_text_short r k : result_ok r -> 0 <= k <= len r -> take (Z.to_nat k) (r_text r) = take (Z.to_nat k) (buf r).
Proof. intros _ Hk. unfold r_text. rewrite take_take. f_equal. lia. Qed.

(** Storing [n] and a NUL over the end of a buffer. *)
Lemma notice_stored b at_ n : 0 <= at_ -> at_ + zlen n < zlen b ->
  exists b', (pokes at_ n ;;; poke (at_ + zlen n) 0) b = Ok tt b' /\ zlen b' = zlen b /\
    take (Z.to_nat (at_ + zlen n)) b' = take (Z.to_nat at_) b ++ n.
Proof.
  intros H0 H1. pose proof (zlen_nonneg n). assert (H2 : zlen (patch at_ n b) = zlen b) by (apply zlen_patch; lia).
  erewrite bind_ok by (apply pokes_ok; lia). rewrite poke_ok by lia. eexists. split; [done|].
  rewrite take_patch, zlen_patch by (autorewrite with zlen; lia). split; [done|].
  unfold patch, zlen in *. rewrite app_assoc, take_app_le by (rewrite length_app, length_take; lia).
  apply take_ge. rewrite length_app, length_take. lia.
Qed.

Lemma notice_ok r : result_ok r ->
  exists r', truncation_notice r = Ok tt r' /\ result_ok r' /\ cap r' = cap r /\ is_error r' = is_error r /\
    truncated r' = truncated r /\ r_text r' = with_notice r.
Proof.
  intros Hr. pose proof Hr as [Hlen Hcap]. destruct (notice_printed (cap r)) as (Hp & Hs & Hn & Hpos).
  unfold truncation_notice, with_notice. set (n := notice (cap r)) in *.
  rewrite (snprintf_prints _ _ n) by (done || rewrite ?zlen_array by lia; lia).
  assert (Et : take (Z.to_nat (zlen n)) (KfmtSpec.truncated 48 n (array 48)) = n).
  { unfold KfmtSpec.truncated. change (48 =? 0) with false. cbn match.
    rewrite (take_ge n) by (unfold zlen in *; lia). apply take_zlen_patch0. rewrite zlen_array; lia. }
  rewrite Et, (proj2 (Z.ltb_lt 0 (zlen n))) by done. cbn [andb].
  destruct (Z.ltb_spec (zlen n + 1) (cap r)) as [Hroom|Hroom]; [|by exists r].
  destruct (Z.ltb_spec (len r + zlen n) (cap r)) as [Hfit|Hfull].
  - destruct (notice_stored (buf r) (len r) n) as (b' & E & Hb & Ht); [lia..|]. rewrite E. eexists.
    split; [reflexivity|]. split; [split; cbn [len cap buf]; lia|]. repeat (split; [done|]). unfold r_text at 1. cbn [len buf].
    rewrite Ht. f_equal. fold (r_text r). symmetry. apply take_ge. pose proof (r_text_len r Hr). unfold zlen in *. lia.
  - destruct (notice_stored (buf r) (cap r - 1 - zlen n) n) as (b' & E & Hb & Ht); [lia..|].
    replace (cap r - 1 - zlen n + zlen n) with (cap r - 1) in * by lia. rewrite E. eexists.
    split; [reflexivity|]. split; [split; cbn [len cap buf]; lia|]. repeat (split; [done|]). unfold r_text at 1. cbn [len buf].
    by rewrite Ht, take_text_short by (done || lia).
Qed.

(** * Dispatch *)

Section Dispatch.

Context {M : Type} `{HasTrace M}.
Implicit Type t : tool M.

Definition names ts : list bytes := map (fun t => default [] (name t)) (List.filter tool_usable ts).

(** [r'] lists the names [ns] whole after what [r] says, then perhaps that there are more. *)
Lemma list_names_ok (ts : list (tool M)) : forall r, result_ok r ->
  exists r' ns rest dots, list_names ts r = Ok tt r' /\ result_ok r' /\ cap r' = cap r /\ is_error r' = is_error r /\
    names ts = ns ++ rest /\ (dots = [] /\ rest = [] \/ dots = lit " ...") /\
    r_text r' = take (Z.to_nat (cap r - 1)) (r_text r ++ concat (map (cons (ch " ")) ns) ++ dots) /\
    (ns <> [] -> len r + zlen (concat (map (cons (ch " ")) ns)) < cap r).
Proof using.
  induction ts as [|t ts IH]; intros r Hr.
  { exists r, [], [], []. pose proof (r_text_len r Hr) as Hl. destruct Hr as [? ?].
    repeat (split; [done|]). split; [by left|]. split; [|done]. rewrite !app_nil_r. symmetry. apply take_ge.
    unfold zlen in *. lia. }
  cbn [list_names]. unfold names. cbn [List.filter]. destruct (tool_usable t) eqn:Eu; cbn [negb]; [|by apply IH].
  destruct (usable_schema t Eu) as (n & _ & _ & En & _ & _ & _ & Hn & _). rewrite En.
  apply name_ok_plain in Hn as (Hnl & Hpl & _). pose proof (r_text_len r Hr) as Hl. pose proof (zlen_nonneg n).
  erewrite bind_ok by reflexivity. erewrite bind_ok by reflexivity. change (default [] (Some n)) with n.
  destruct (Z.leb_spec (cap r) (len r + zlen n + 2)) as [Hfull|Hroom].
  - destruct (printf_appends (lit " ...") [] (lit " ...") r Hr) as (k & r' & E & Ha); [|done|].
    { do 4 print_plain. apply prints_nil. }
    exists r', [], (map (fun t => default [] (name t)) (t :: List.filter tool_usable ts)), (lit " ...").
    rewrite (bind_ok _ _ _ _ _ E). destruct Ha as [A1 A2 A3 A4 _]. repeat (split; [done|]). split; [by right|].
    split; [done|done].
  - destruct (printf_appends (lit " %s") [arg_str n] (ch " " :: n) r Hr) as (k & r1 & E & Ha); [|autorewrite with zlen; lia|].
    { print_plain. rewrite <- (app_nil_r n) at 2. apply prints_s; [by apply plain_no_nul|unfold INT_MAX; lia|apply prints_nil]. }
    rewrite (bind_ok _ _ _ _ _ E). destruct Ha as [A1 A2 A3 A4 A5].
    assert (Et : r_text r1 = r_text r ++ ch " " :: n).
    { rewrite A4. apply take_ge. rewrite length_app. cbn. destruct Hr. unfold zlen in *. lia. }
    assert (El : len r1 = len r + 1 + zlen n).
    { rewrite <- (r_text_len r1 A1), Et. autorewrite with zlen. lia. }
    destruct (IH r1 A1) as (r' & ns & rest & dots & E' & B1 & B2 & B3 & B4 & B5 & B6 & B7).
    exists r', (n :: ns), rest, dots. split; [done|]. split; [done|]. split; [congruence|]. split; [congruence|].
    split; [unfold names in B4; cbn [map app]; rewrite En, B4; done|]. split; [done|]. cbn [map concat]. split.
    + rewrite B6, Et, A2, <- !app_assoc. done.
    + intros _. autorewrite with zlen. rewrite A2, El in B7. destruct ns as [|n' ns]; [cbn; autorewrite with zlen; lia|].
      specialize (B7 ltac:(done)). lia.
Qed.

(** The emission counter after [n] more lines. *)
Definition counted (n : nat) (w : Z) : Z := Nat.iter n (fun w => wrap64 (w + 1)) w.

Lemma counted_sum n w : (0 < n)%nat -> counted n w = wrap64 (w + Z.of_nat n).
Proof using.
  intros Hn. destruct n as [|n]; [lia|]. clear Hn. induction n as [|n IH]; [done|].
  change (counted (S (S n)) w) with (wrap64 (counted (S n) w + 1)). rewrite IH. unfold wrap.
  rewrite Zplus_mod_idemp_l. f_equal. lia.
Qed.

Lemma counted_same n w : counted n w = w -> Z.of_nat n < 2 ^ 64 -> n = 0%nat.
Proof using.
  intros E Hn. destruct n as [|n]; [done|]. rewrite counted_sum in E by lia. exfalso.
  pose proof (wrap_range 64 (w + Z.of_nat (S n)) ltac:(lia)) as Hr. rewrite E in Hr. unfold wrap in E.
  pose proof (Z.div_mod (w + Z.of_nat (S n)) (2 ^ 64) ltac:(lia)) as Hd. rewrite E in Hd. nia.
Qed.

(** The console grew by [ls], and the count of emissions with it. *)
Definition new_lines (x y : trace) (ls : list bytes) : Prop :=
  console y = console x ++ ls /\ trace_written y = counted (length ls) (trace_written x).

Lemma new_lines_trans x y z l1 l2 : new_lines x y l1 -> new_lines y z l2 -> new_lines x z (l1 ++ l2).
Proof using.
  intros [C1 W1] [C2 W2]. split; [by rewrite C2, C1, app_assoc|].
  rewrite W2, W1, length_app, Nat.add_comm. unfold counted. by rewrite Nat.iter_add.
Qed.

(** What a handler promises: it returns or faults with the result buffer intact, and
    says what it does through the trace module only. *)
Definition handler_ok (f : handler M) : Prop := forall call m r, result_ok r ->
  exists rc m' r' ls, f call (m, r) = Ok rc (m', r') /\ result_ok r' /\ cap r' = cap r /\
    new_lines (get_trace m) (get_trace m') ls /\ Z.of_nat (length ls) < 2 ^ 64 /\
    (forall x, rc = Some x -> - 2 ^ 31 <= x < 2 ^ 31).

(** [m'] is [m] but for the trace module: what does not depend on that module carries over. *)
Definition only_trace (m m' : M) : Prop :=
  forall P : M -> Prop, (forall y x, P x -> P (set_trace y x)) -> P m -> P m'.

Lemma only_trace_set y m : only_trace m (set_trace y m).
Proof using. intros P Hs Hm. by apply Hs. Qed.

Definition said (v : verdict) (op : option bytes) (T : bytes) (on : bool) : list bytes :=
  if on then [trace_line (default (lit "?") op) (seen T) (verdict_text v)] else [].

Lemma on_trace_says v op fmt ap T (m : M) r : verdict_ok v -> args_text fmt ap T ->
  exists m', on_trace (trace_says v op fmt ap) (m, r) = Ok tt (m', r) /\
    new_lines (get_trace m) (get_trace m') (said v op T (trace_is_on (get_trace m))) /\
    trace_is_on (get_trace m') = trace_is_on (get_trace m) /\ only_trace m m'.
Proof using.
  intros Hv HT. unfold on_trace. cbn [fst snd]. rewrite (trace_says_ok v op fmt ap T) by done.
  eexists. split; [reflexivity|]. rewrite get_set_trace. unfold new_lines, said.
  split; [|split; [|apply only_trace_set]];
    destruct (trace_is_on (get_trace m)); cbn [console trace_written trace_is_on length]; rewrite ?app_nil_r; done.
Qed.

(** The answer to an unknown name. *)
Definition unknown_text (shown : bytes) : bytes := lit "no such tool: " ++ shown ++ lit ". available:".

Lemma unknown_tool_ok (ts : list (tool M)) n (m : M) r :
  result_ok r -> no_nul (default [] n) -> zlen (default [] n) < 2 ^ 30 ->
  let shown := default (lit "(null)") n in
  exists m' r' ns rest dots, unknown_tool ts n (m, r) = Ok TOOL_ENOENT (m', r') /\ result_ok r' /\ cap r' = cap r /\
    is_error r' = true /\ names ts = ns ++ rest /\ (dots = [] /\ rest = [] \/ dots = lit " ...") /\
    r_text r' = take (Z.to_nat (cap r - 1))
      (r_text r ++ unknown_text shown ++ concat (map (cons (ch " ")) ns) ++ dots) /\
    (ns <> [] -> zlen (r_text r ++ unknown_text shown ++ concat (map (cons (ch " ")) ns)) < cap r) /\
    new_lines (get_trace m) (get_trace m')
      (said (Failed TOOL_ENOENT) (Some (lit "tool_dispatch")) shown (trace_is_on (get_trace m))) /\ only_trace m m'.
Proof using.
  intros Hr Hn Hl shown.
  assert (Hs : no_nul shown /\ zlen shown < 2 ^ 30).
  { unfold shown. destruct n; [done|]. split; [by repeat constructor|done]. }
  destruct Hs as [Sn Sl]. pose proof (zlen_nonneg shown).
  set (r0 := Result (buf r) (cap r) (len r) true (truncated r)). assert (Hr0 : result_ok r0) by exact Hr.
  assert (Hu : zlen (unknown_text shown) = 26 + zlen shown).
  { unfold unknown_text. autorewrite with zlen. change (zlen (lit "no such tool: ")) with 14.
    change (zlen (lit ". available:")) with 12. lia. }
  destruct (printf_appends (lit "no such tool: %s. available:") [arg_str shown] (unknown_text shown) r0 Hr0)
    as (k & r1 & E1 & [A1 A2 A3 A4 A5]); [|lia|].
  { do 14 print_plain. apply prints_s; [done|unfold INT_MAX; lia|]. do 12 print_plain. apply prints_nil. }
  destruct (list_names_ok ts r1 A1) as (r2 & ns & rest & dots & E2 & B1 & B2 & B3 & B4 & B5 & B6 & B7).
  destruct (on_trace_says (Failed TOOL_ENOENT) (Some (lit "tool_dispatch")) (Some (lit "%s")) [arg_str shown] shown m r2)
    as (m' & E3 & N3 & _ & Ot); [cbn; unfold TOOL_ENOENT; lia| |].
  { split; [|lia]. rewrite <- (app_nil_r shown) at 2. apply prints_s; [done|unfold INT_MAX; lia|apply prints_nil]. }
  exists m', r2, ns, rest, dots. cbn [cap buf len is_error r0] in *. split.
  { unfold unknown_tool. fold shown. erewrite bind_ok.
    2:{ unfold on_result. cbn [fst snd]. erewrite bind_ok by reflexivity. fold r0. rewrite (bind_ok _ _ _ _ _ E1), E2.
        reflexivity. }
    cbn [fst]. change (trace_err TOOL_ENOENT) with (trace_says (Failed TOOL_ENOENT)). by rewrite (bind_ok _ _ _ _ _ E3). }
  split; [done|]. split; [congruence|]. split; [congruence|]. split; [done|]. split; [done|].
  assert (Et0 : r_text r0 = r_text r) by done. rewrite Et0 in A4.
  pose proof (r_text_len r1 A1) as L1.
  split; [|split; [|done]].
  - rewrite B6, A4, A2. set (x := r_text r ++ unknown_text shown). rewrite (app_assoc (r_text r)). fold x.
    set (y := concat _ ++ dots). set (k' := Z.to_nat (cap r - 1)). destruct (decide (length x <= k')%nat) as [Hx|Hx].
    + by rewrite (take_ge x).
    + rewrite take_app_le by (rewrite length_take; lia). rewrite take_take, Nat.min_id. by rewrite take_app_le by lia.
  - intros Hne. specialize (B7 Hne). rewrite app_assoc, zlen_app. rewrite <- L1, A4, A2 in B7.
    set (x := r_text r ++ unknown_text shown) in *. set (y := concat _) in *. pose proof (zlen_nonneg y).
    assert (Hy : 0 < zlen y).
    { unfold y. destruct ns as [|n0 ns]; [done|]. cbn [map concat]. autorewrite with zlen.
      pose proof (zlen_nonneg n0). pose proof (zlen_nonneg (concat (map (cons (ch " ")) ns))). lia. }
    unfold zlen at 1 in B7. rewrite length_take in B7. destruct Hr. unfold zlen in *. lia.
Qed.

Lemma set_on (on : bool) (m : M) r : exists m', on_trace (trace_set_enabled on) (m, r) = Ok tt (m', r) /\
  console (get_trace m') = console (get_trace m) /\ trace_written (get_trace m') = trace_written (get_trace m) /\
  trace_is_on (get_trace m') = on /\ only_trace m m'.
Proof using. eexists. split; [reflexivity|]. cbn [fst]. rewrite get_set_trace. do 3 (split; [done|]). apply only_trace_set. Qed.

(** The kernel's own line, when the handler printed none. *)
Lemma fallback_line t n rc (m : M) r before ls : - 2 ^ 31 <= rc < 2 ^ 31 ->
  new_lines before (get_trace m) ls -> Z.of_nat (length ls) < 2 ^ 64 -> name t = Some n ->
  exists m' ls', (now <- gets (fun s => trace_emissions (get_trace s.1)) ;;
    if now =? trace_written before then
      e <- gets (fun s => is_error s.2) ;;
      if e : bool
      then on_trace (trace_err rc (name t) (Some (lit "%s")) [arg_str []])
      else on_trace (trace_ok (name t) (Some (lit "%s")) [arg_str []])
    else ret tt) (m, r) = Ok tt (m', r) /\
    new_lines before (get_trace m') (ls ++ ls') /\ trace_is_on (get_trace m') = trace_is_on (get_trace m) /\
    (trace_is_on (get_trace m) = true -> ls ++ ls' <> []) /\ only_trace m m'.
Proof using.
  intros Hrc N Hb En. pose proof N as [_ W]. erewrite bind_ok by reflexivity. cbn [fst]. unfold trace_emissions.
  destruct (Z.eqb_spec (trace_written (get_trace m)) (trace_written before)) as [E|E].
  - rewrite E in W. symmetry in W. apply counted_same in W; [|done]. destruct ls; [|done].
    erewrite bind_ok by reflexivity. cbn [snd].
    assert (HT : args_text (Some (lit "%s")) [arg_str []] []).
    { split; [|done]. apply (prints_s [] [] [] []); [constructor|done|apply prints_nil]. }
    set (v := if is_error r then Failed rc else Success).
    assert (Hv : verdict_ok v) by (by unfold v; destruct (is_error r)).
    destruct (on_trace_says v (name t) (Some (lit "%s")) [arg_str []] [] m r Hv HT) as (m' & E' & N' & O' & Ot).
    exists m', (said v (name t) [] (trace_is_on (get_trace m))). split; [|split; [|split; [done|split; [|done]]]].
    + rewrite <- E'. unfold v. by destruct (is_error r).
    + by eapply new_lines_trans.
    + intros ->. done.
  - exists m, []. rewrite app_nil_r. split; [done|]. split; [done|]. split; [done|]. split; [|by intros P _].
    intros _ ->. by destruct N as [_ N].
Qed.

(** A handler that keeps [P], which says nothing of the trace module. *)
Definition handler_keeps (P : M -> Prop) (f : handler M) : Prop := forall call m r, P m -> result_ok r ->
  exists rc m' r' ls, f call (m, r) = Ok rc (m', r') /\ result_ok r' /\ cap r' = cap r /\
    new_lines (get_trace m) (get_trace m') ls /\ Z.of_nat (length ls) < 2 ^ 64 /\
    (forall x, rc = Some x -> - 2 ^ 31 <= x < 2 ^ 31) /\ P m'.

Lemma dispatch_keeps (P : M -> Prop) (tool_table : list (tool M)) call (m : M) r :
  (forall y x, P x -> P (set_trace y x)) -> (forall t f, t ∈ tool_table -> invoke t = Some f -> handler_keeps P f) -> P m ->
  result_ok r -> no_nul (default [] (call_name call)) -> zlen (default [] (call_name call)) < 2 ^ 30 ->
  exists rc m' r' ls, tool_dispatch tool_table call (m, r) = Ok rc (m', r') /\ result_ok r' /\ cap r' = cap r /\
    new_lines (get_trace m) (get_trace m') ls /\ P m' /\
    match tool_find tool_table (call_name call) with
    | None => rc = Some TOOL_ENOENT /\ is_error r' = true /\
        let shown := default (lit "(null)") (call_name call) in
        ls = said (Failed TOOL_ENOENT) (Some (lit "tool_dispatch")) shown (trace_is_on (get_trace m)) /\
        exists ns rest dots, names tool_table = ns ++ rest /\ (dots = [] /\ rest = [] \/ dots = lit " ...") /\
          r_text r' = take (Z.to_nat (cap r - 1))
            (r_text r ++ unknown_text shown ++ concat (map (cons (ch " ")) ns) ++ dots) /\
          (ns <> [] -> zlen (r_text r ++ unknown_text shown ++ concat (map (cons (ch " ")) ns)) < cap r)
    | Some t => rc = None \/
        rc = Some TOOL_OK /\ trace_is_on (get_trace m') = trace_is_on (get_trace m) /\
        (trace_is_on (get_trace m) = true -> ls <> []) /\
        exists f m0 hrc m1 r1, invoke t = Some f /\ f call (m0, r) = Ok (Some hrc) (m1, r1) /\
          is_error r' = is_error r1 || negb (hrc =? TOOL_OK) /\
          r_text r' = if truncated r1 then with_notice r1 else r_text r1
    end.
Proof using.
  intros HP Hh Hm Hr Hn Hl. pose proof Hr as [Hlen _]. unfold tool_dispatch. erewrite bind_ok by reflexivity.
  cbn [snd]. rewrite (proj2 (Z.eqb_neq (cap r) 0)) by lia.
  destruct (tool_find tool_table (call_name call)) as [t|] eqn:Ef.
  2:{ destruct (unknown_tool_ok tool_table (call_name call) m r Hr Hn Hl)
        as (m' & r' & ns & rest & dots & E & A1 & A2 & A3 & A4 & A5 & A6 & A7 & A8 & A9).
      rewrite (bind_ok _ _ _ _ _ E). do 4 eexists. split; [reflexivity|]. split; [done|]. split; [done|]. split; [exact A8|]. split; [by apply A9|].
      split; [done|]. split; [done|]. split; [done|]. by exists ns, rest, dots. }
  destruct (call_name call) as [n|]; [|done]. apply tool_find_some in Ef as (Hin & Hu & En).
  destruct (usable_schema t Hu) as (_ & _ & _ & _ & _ & _ & _ & _ & Hi). destruct (invoke t) as [f|] eqn:Ei; [|done].
  do 2 (erewrite bind_ok by reflexivity). cbn [fst].
  destruct (set_on true m r) as (m0 & E0 & C0 & W0 & O0 & T0). rewrite (bind_ok _ _ _ _ _ E0).
  destruct (Hh t f Hin Ei call m0 r (T0 P HP Hm) Hr) as (rc & m1 & r1 & ls & E1 & R1 & P1 & [C1 W1] & B1 & I1 & K1).
  rewrite C0 in C1. rewrite W0 in W1. rewrite (bind_ok _ _ _ _ _ E1). destruct rc as [hrc|].
  2:{ exists None, m1, r1, ls. repeat (split; [done|]). by left. }
  destruct (set_on (trace_enabled (get_trace m)) m1 r1) as (m2 & E2 & C2 & W2 & O2 & T2). rewrite (bind_ok _ _ _ _ _ E2).
  set (r2 := if hrc =? TOOL_OK then r1 else Result (buf r1) (cap r1) (len r1) true (truncated r1)).
  assert (Eset : (if hrc =? TOOL_OK then ret tt else on_result set_error) (m2, r1) = Ok tt (m2, r2))
    by (unfold r2; by destruct (hrc =? TOOL_OK)).
  rewrite (bind_ok _ _ _ _ _ Eset). assert (R2 : result_ok r2) by (unfold r2; by destruct (hrc =? TOOL_OK)).
  assert (F2 : truncated r2 = truncated r1 /\ cap r2 = cap r1 /\ r_text r2 = r_text r1 /\ with_notice r2 = with_notice r1 /\
    is_error r2 = is_error r1 || negb (hrc =? TOOL_OK)).
  { unfold r2. destruct (hrc =? TOOL_OK); cbn; by rewrite ?orb_false_r, ?orb_true_r. }
  destruct F2 as (F1 & F2 & F3 & F4 & F5). erewrite bind_ok by reflexivity. cbn [snd].
  assert (Hnote : exists r3, (if truncated r2 then on_result truncation_notice else ret tt) (m2, r2) = Ok tt (m2, r3) /\
    result_ok r3 /\ cap r3 = cap r2 /\ is_error r3 = is_error r2 /\
    r_text r3 = if truncated r2 then with_notice r2 else r_text r2).
  { destruct (truncated r2); [|exists r2; auto]. destruct (notice_ok r2 R2) as (r3 & E & ? & ? & ? & _ & ?).
    exists r3. unfold on_result. cbn [fst snd]. rewrite E. auto. }
  destruct Hnote as (r3 & E3 & R3 & P3 & X3 & T3). rewrite (bind_ok _ _ _ _ _ E3).
  destruct (fallback_line t n hrc m2 r3 (get_trace m) ls) as (m' & ls' & E4 & N4 & O4 & L4 & T4).
  { by apply I1. } { split; congruence. } { done. } { done. }
  erewrite (bind_ok (gets _)) by reflexivity. erewrite (bind_ok (gets _)) in E4 by reflexivity. cbn [fst] in *.
  rewrite (bind_ok _ _ _ _ _ E4). exists (Some TOOL_OK), m', r3, (ls ++ ls'). split; [done|]. split; [done|].
  split; [congruence|]. split; [done|]. split; [by apply T4, T2|]. right. split; [done|]. split; [rewrite O4, O2; done|].
  split; [intros Hon; apply L4; by rewrite O2|].
  exists f, m0, hrc, m1, r1. split; [done|]. split; [done|]. split; [congruence|]. by rewrite T3, F1, F3, F4.
Qed.


End Dispatch.

(** * A concrete table *)

#[export] Instance trace_machine : HasTrace trace :=
  {| get_trace t := t; set_trace t _ := t; get_set_trace t _ := eq_refl |}.

Definition demo_handler : handler trace := fun _ =>
  on_result (tool_result_printf (lit "listed") []) ;;; ret (Some TOOL_OK).

Definition demo_tools : list (tool trace) :=
  [Tool (Some (lit "ls")) (Some (qlit "list a `dir`")) (Some (lit "{}")) 0 (Some demo_handler) (Some [lit "all"]);
   Tool (Some (lit "broken")) None (Some (lit "{}}")) 0 (Some demo_handler) None].

Lemma schema_matches_dispatch_witness :
  tools_build_schema demo_tools 99 (Some (replicate 99 7)) =
  Ok 84 (Some (qlit "[{`name`:`ls`,`description`:`list a \`dir\``,`input_schema`:{},`functions`:[`all`]}]" ++
               0 :: replicate 14 7)).
Proof.
  destruct (schema_matches_dispatch demo_tools 99 (replicate 99 7)) as [E _].
  - repeat constructor; discriminate.
  - split; vm_compute; discriminate.
  - vm_compute. reflexivity.
  - rewrite E. vm_compute. reflexivity.
Defined.

Lemma demo_handler_ok : handler_ok demo_handler.
Proof.
  intros call m r Hr. destruct (printf_appends (lit "listed") [] (lit "listed") r Hr) as (n & r' & E & A); [|reflexivity|].
  { do 6 print_plain. apply prints_nil. }
  exists (Some TOOL_OK), m, r', []. split.
  { unfold demo_handler, on_result, bind. cbn [fst snd]. by rewrite E. }
  split; [apply A|]. split; [apply A|]. split; [split; [symmetry; apply app_nil_r|reflexivity]|].
  split; [reflexivity|]. intros x [= <-]. split; [discriminate|reflexivity].
Qed.

