(* ===== verification/Agenda.v ===== *)
(** core/agenda.c: what the machine does when nobody asked.

    The text fields of an item are C strings, here the bytes before the NUL. The table is
    the array of its eight slots and [g_n], so that the pointer run_item keeps across an
    action is a slot number and may find another item there. The tool table and the sink
    for sentences are parameters: programs on the whole machine, the agenda included.
    kprintf lines are not modelled, trace lines are. *)

From S2P Require Import Prelude Bytes Json Kfmt KfmtClaims Paths Vfs VfsSpec Trace Tool.
Open Scope prog_scope.

Definition AGENDA_OK : Z := 0.
Definition AGENDA_EINVAL : Z := -22.
Definition AGENDA_ENOENT : Z := -2.
Definition AGENDA_ENOSPC : Z := -28.
Definition AGENDA_EIO : Z := -5.
Definition AGENDA_EBUSY : Z := -16.
Definition AGENDA_EOFF : Z := -1.
Definition AGENDA_ENOTOOL : Z := -70.
Definition AGENDA_ENOSAY : Z := -71.
Definition AGENDA_ESAY : Z := -73.
Definition AGENDA_EFAULT : Z := -104.
Definition AGENDA_ERETIRED : Z := -11.
Definition AGENDA_EDENIED : Z := -13.
Definition CHAT_EREENTER : Z := -103.

Definition AGENDA_MAX_ITEMS : nat := 8.
Definition AGENDA_NAME_MAX : Z := 32.
Definition AGENDA_TOOL_MAX : Z := TOOL_NAME_MAX + 1.
Definition AGENDA_ARG_MAX : Z := 288.
Definition AGENDA_WHY_MAX : Z := 128.
Definition AGENDA_NOTE_MAX : Z := 112.
Definition AGENDA_MIN_PERIOD_MS : Z := 10000.
Definition AGENDA_MAX_RUNS : Z := 64.
Definition AGENDA_MAX_RUNS_TOTAL : Z := 256.
Definition AGENDA_MAX_FAILURES : Z := 3.
Definition AGENDA_FILE_MAX : Z := 12288.
Definition AGENDA_WHEN_BOOT : Z := 0.
Definition AGENDA_WHEN_EVERY : Z := 1.
Definition AGENDA_WHEN_ONCE : Z := 2.
Definition AGENDA_WHEN_COUNT : Z := 3.
Definition AGENDA_DO_TOOL : Z := 0.
Definition AGENDA_DO_SAY : Z := 1.
Definition AGENDA_DO_COUNT : Z := 2.
Definition AGENDA_STORE_DISK : bytes := lit "/disk/agenda.json".
Definition AGENDA_STORE_RAM : bytes := lit "/agenda.json".
Definition FS_DISK_MOUNT : bytes := lit "/disk".

Record agenda_item := Item {
  i_name : bytes; note : bytes; used : bool; when : Z; act : Z; enabled : bool;
  attempting : bool; period_ms : Z; max_runs : Z; i_tool : bytes; arg : bytes;
  runs : Z; failures : Z; total_failures : Z; escapes : Z; last_ms : Z; next_ms : Z;
  last_rc : Z; last_why : bytes }.

Definition zero_item : agenda_item :=
  Item [] [] false 0 0 false false 0 0 [] [] 0 0 0 0 0 0 0 [].

(** The statics of the module; [g_store] is [None] until the store was chosen, then
    whether it is the disk's. *)
Record agenda := Agenda {
  g_item : list agenda_item; g_n : nat; g_on : bool; g_running : bool;
  g_runs : Z; g_fails : Z; g_escapes : Z; g_say : bool; g_store : option bool }.

(** ** Text *)

(** [copy_text(dst, cap, src)]: what [dst] holds afterwards. *)
Definition copy_text (cap : Z) (src : bytes) : bytes :=
  map (fun c => if (c <? 32) || (c =? 127) then ch " " else if c =? ch "[" then ch "("
                else if c =? ch "]" then ch ")" else c)
      (take (Z.to_nat (cap - 1)) src).

Definition copy_payload (cap : Z) (src : bytes) : bytes :=
  map (fun c => if (c <? 32) || (c =? 127) then ch " " else c) (take (Z.to_nat (cap - 1)) src).

Definition arg_copy (cap : Z) (src : bytes) (a : Z) : bytes :=
  if a =? AGENDA_DO_TOOL then copy_payload cap src else copy_text cap src.

Definition when_tab : list bytes := [lit "boot"; lit "every"; lit "once"].
Definition act_tab : list bytes := [lit "tool"; lit "say"].

Definition agenda_when_name (w : Z) : bytes :=
  if (w <? 0) || (AGENDA_WHEN_COUNT <=? w) then lit "?" else nth (Z.to_nat w) when_tab [].
Definition agenda_act_name (a : Z) : bytes :=
  if (a <? 0) || (AGENDA_DO_COUNT <=? a) then lit "?" else nth (Z.to_nat a) act_tab [].

Definition agenda_strerror (rc : Z) : bytes :=
  if rc =? AGENDA_OK then lit "ok"
  else if rc =? AGENDA_EINVAL then lit "the item is malformed"
  else if rc =? AGENDA_ENOENT then lit "there is no agenda item with that name"
  else if rc =? AGENDA_ENOSPC then lit "the agenda is full"
  else if rc =? -17 then lit "an item of that name already exists"
  else if rc =? AGENDA_EIO then lit "the agenda store could not be read or written"
  else if rc =? AGENDA_EBUSY then lit "an autonomous action is already running"
  else if rc =? AGENDA_EOFF then lit "the agenda is switched off"
  else if rc =? AGENDA_ENOTOOL then lit "no tool of that name is registered in this build"
  else if rc =? AGENDA_ENOSAY then
    qlit "nothing is bound to say a sentence to, so a `say` item cannot run"
  else if rc =? AGENDA_ESAY then
    lit "the sentence was started but the turn did not complete; this is the model transport, not the store"
  else if rc =? AGENDA_EFAULT then
    lit "the action took a fatal CPU exception and its call chain was abandoned"
  else if rc =? AGENDA_ERETIRED then lit "the item is disabled or has used up its runs for this boot"
  else if rc =? AGENDA_EDENIED then
    lit "that tool succeeds by ending the boot, so it cannot be scheduled unattended"
  else lit "unknown agenda result".

(** [ap(dst, cap, &off, fmt, ...)], on the [cap] bytes of [dst]; the new [off]. *)
Definition ap (off : Z) (fmt : bytes) (args : list varg) : prog bytes Z := fun b =>
  let cap := zlen b in
  let used := if off <? cap then off else cap in
  (n <- from_offset used (vsnprintf (cap - used) fmt args) ;;
   ret (if 0 <? n then off + n else off)) b.

(** ** Validation *)

Definition name_char (c : Z) : bool :=
  ((ch "a" <=? c) && (c <=? ch "z")) || ((ch "0" <=? c) && (c <=? ch "9")) ||
  (c =? ch "_") || (c =? ch "-").

Definition name_ok (s : bytes) : bool :=
  if (zlen s =? 0) || (AGENDA_NAME_MAX <=? zlen s) then false
  else if negb (forallb name_char s) then false
  else negb (cur s =? ch "-").

Definition deny_tab : list bytes := [lit "power_off"; lit "power_reboot"].
Definition agenda_denied_tool (i : Z) : option bytes :=
  if (i <? 0) || (Z.of_nat (length deny_tab) <=? i) then None else deny_tab !! Z.to_nat i.
Definition ends_the_boot (tool : bytes) : bool :=
  existsb (fun d => bool_decide (tool = d)) deny_tab.

(** ** The machine *)

Definition FAULT_GUARD_OK : Z := 0.
Definition FAULT_GUARD_ESCAPED : Z := 1.
Definition FAULT_GUARD_EDEPTH : Z := -40.
Definition FAULT_GUARD_DEPTH_MAX : Z := 4.
Definition FAULT_ESCAPE_MAX : Z := 8.

(** The agenda, the trace module, the filesystems with the handles open on them, and of the
    fault module the guards armed and the escapes taken. *)
Record machine (S : Type) := Machine {
  ag : agenda; tr : trace; vf : vfs S; handles : list file; g_gdepth : Z; fault_escapes : Z }.
Arguments Machine {S}. Arguments ag {S}. Arguments tr {S}. Arguments vf {S}.
Arguments handles {S}. Arguments g_gdepth {S}. Arguments fault_escapes {S}.

Definition set_ag {S} (a : agenda) (m : machine S) := Machine a (tr m) (vf m) (handles m) (g_gdepth m) (fault_escapes m).
Definition set_tr {S} (t : trace) (m : machine S) := Machine (ag m) t (vf m) (handles m) (g_gdepth m) (fault_escapes m).
Definition set_vf {S} (v : vfs S) (m : machine S) := Machine (ag m) (tr m) v (handles m) (g_gdepth m) (fault_escapes m).
Definition set_gdepth {S} (d : Z) (m : machine S) := Machine (ag m) (tr m) (vf m) (handles m) d (fault_escapes m).

#[export] Instance machine_trace {S} : HasTrace (machine S) :=
  {| get_trace := tr; set_trace := set_tr; get_set_trace t m := eq_refl |}.

Section Agenda.

Context {S : Type} `{Fs S}.
Variable tool_table : list (tool (machine S)).
(** The bound sink: [None] when it took a fatal exception. *)
Variable say : bytes -> prog (machine S) (option Z).

Definition on_ag (f : agenda -> agenda) : prog (machine S) unit := modify (fun m => set_ag (f (ag m)) m).

Definition on_tr {A} (p : prog trace A) : prog (machine S) A := fun m =>
  match p (tr m) with Ok a t => Ok a (set_tr t m) | Panic w => Panic w | Wild => Wild | Spin => Spin end.

Definition on_vf {A} (p : prog (vfs S) A) : prog (machine S) A := fun m =>
  match p (vf m) with Ok a v => Ok a (set_vf v m) | Panic w => Panic w | Wild => Wild | Spin => Spin end.

Definition validate (input : option agenda_item) : prog bytes Z :=
  w <- gets zlen ;;
  (if w =? 0 then ret tt else poke 0 0) ;;;
  let refuse rc fmt args := ap 0 fmt args ;;; ret rc in
  match input with
  | None => refuse AGENDA_EINVAL (lit "no item was described") []
  | Some it =>
      if negb (name_ok (i_name it)) then
        refuse AGENDA_EINVAL
          (qlit "`%s` is not a usable name: 1 to %u characters of lowercase letters, digits, '_' and '-', not starting with '-'")
          [arg_str (if cur (i_name it) =? 0 then lit "(empty)" else i_name it); VInt (AGENDA_NAME_MAX - 1)]
      else if AGENDA_WHEN_COUNT <=? when it then
        refuse AGENDA_EINVAL (qlit "`when` must be boot, every or once") []
      else if AGENDA_DO_COUNT <=? act it then
        refuse AGENDA_EINVAL (lit "the action must be a tool call or a sentence") []
      else if (when it =? AGENDA_WHEN_EVERY) && (period_ms it <? AGENDA_MIN_PERIOD_MS) then
        refuse AGENDA_EINVAL
          (qlit "an `every` item may not fire more often than every %u ms; %u was asked for. This floor is not about speed: an unattended action that repeats faster than the console can be read is indistinguishable from a runaway loop, and a sentence costs an API round trip every time")
          [VInt AGENDA_MIN_PERIOD_MS; VInt (period_ms it)]
      else if (max_runs it =? 0) || (AGENDA_MAX_RUNS <? max_runs it) then
        refuse AGENDA_EINVAL (qlit "`max_runs` must be 1..%u; %u was asked for") [VInt AGENDA_MAX_RUNS; VInt (max_runs it)]
      else if zlen (arg it) =? 0 then
        refuse AGENDA_EINVAL
          (if act it =? AGENDA_DO_TOOL
           then qlit "a tool item needs its arguments, as a JSON object - `{}` if the tool takes none"
           else lit "a sentence item needs the sentence") []
      else if negb (act it =? AGENDA_DO_TOOL) then ret AGENDA_OK
      else if zlen (i_tool it) =? 0 then refuse AGENDA_EINVAL (lit "a tool item needs the tool's name") []
      else match tool_find tool_table (Some (i_tool it)) with
      | None =>
          refuse AGENDA_ENOTOOL
            (qlit "no tool called `%s` is registered in this build, so this item would fail at every boot with nobody there to read it. %d tools exist; name one of them")
            [arg_str (i_tool it); VInt (wrap32 (tool_count tool_table))]
      | Some _ =>
          if ends_the_boot (i_tool it) then
            refuse AGENDA_EDENIED
              (qlit "`%s` cannot be scheduled: succeeding ends the boot, and a boot item runs before the prompt, so nothing could undo it")
              [arg_str (i_tool it)]
          else
            let '(rc, v) := json_parse (Some (arg it)) in
            if negb (rc =? JSON_OK) || negb (bool_decide (jtype v = T_OBJECT)) then
              refuse AGENDA_EINVAL
                (qlit "the arguments must be one JSON object, e.g. {} or {`name`:`...`}; this is not") []
            else ret AGENDA_OK
      end
  end.

(** ** The store *)

(** choose_store(), then whether the store is the disk's. *)
Definition agenda_persistent : prog (machine S) bool :=
  c <- gets (fun m => g_store (ag m)) ;;
  match c with
  | Some p => ret p
  | None =>
      st <- on_vf (vfs_stat FS_DISK_MOUNT) ;;
      let p := match st with inr (ty, _, _, _) => bool_decide (ty = VNODE_DIR) | inl _ => false end in
      on_ag (fun a => Agenda (g_item a) (g_n a) (g_on a) (g_running a) (g_runs a) (g_fails a) (g_escapes a) (g_say a) (Some p)) ;;;
      ret p
  end.

Definition agenda_store : prog (machine S) bytes :=
  p <- agenda_persistent ;; ret (if p : bool then AGENDA_STORE_DISK else AGENDA_STORE_RAM).

(** A char as the [int] it is passed as. *)
Definition arg_char (c : Z) : varg := VInt (wrap32 (sgn 8 c)).

Fixpoint put_json_chars (off : Z) (s : bytes) : prog bytes Z :=
  match s with
  | [] => ret off
  | c :: s =>
      off <- (if c =? QUOTE then ap off (qlit "\`") []
              else if c =? ch "\" then ap off (lit "\\") []
              else if c =? 10 then ap off (lit "\n") []
              else if c =? 13 then ap off (lit "\r") []
              else if c =? 9 then ap off (lit "\t") []
              else if c <? 32 then ap off (lit " ") []
              else ap off (lit "%c") [arg_char c]) ;;
      put_json_chars off s
  end.

Definition put_json_str (off : Z) (s : bytes) : prog bytes Z :=
  off <- ap off (qlit "`") [] ;; off <- put_json_chars off s ;; ap off (qlit "`") [].

Definition bool_word (x : bool) : bytes := if x then lit "true" else lit "false".

Definition render_item (off : Z) (first : bool) (it : agenda_item) : prog bytes Z :=
  off <- ap off (qlit "%s{`name`:") [arg_str (if first then [] else lit ",")] ;;
  off <- put_json_str off (i_name it) ;;
  off <- ap off (qlit ",`when`:") [] ;;
  off <- put_json_str off (agenda_when_name (when it)) ;;
  off <- ap off (qlit ",`do`:") [] ;;
  off <- put_json_str off (agenda_act_name (act it)) ;;
  off <- ap off (qlit ",`period_ms`:%u,`max_runs`:%u,`enabled`:%s,`attempting`:%s")
           [VInt (period_ms it); VInt (max_runs it); arg_str (bool_word (enabled it));
            arg_str (bool_word (attempting it))] ;;
  off <- (if act it =? AGENDA_DO_TOOL then
            off <- ap off (qlit ",`tool`:") [] ;; put_json_str off (i_tool it)
          else ret off) ;;
  off <- ap off (qlit ",`arg`:") [] ;;
  off <- put_json_str off (arg it) ;;
  off <- ap off (qlit ",`note`:") [] ;;
  off <- put_json_str off (note it) ;;
  ap off (lit "}") [].

Fixpoint render_items (off : Z) (first : bool) (its : list agenda_item) : prog bytes Z :=
  match its with
  | [] => ret off
  | it :: its => off <- render_item off first it ;; render_items off false its
  end.

(** The first [g_n] slots. *)
Definition items (a : agenda) : list agenda_item := take (g_n a) (g_item a).

Definition render (a : agenda) : prog bytes Z :=
  off <- ap 0 (qlit "{`agenda`:1,`items`:[") [] ;;
  off <- render_items off true (items a) ;;
  ap off (lit "]}" ++ [10]) [].

Fixpoint write_loop (fuel : nat) (f : file) (rest : bytes) : prog (vfs S) Z :=
  match rest with
  | [] => vfs_close f ;;; ret AGENDA_OK
  | _ =>
      match fuel with
      | O => fun _ => Spin
      | Datatypes.S fuel =>
          r <- vfs_write f rest ;;
          let '(n, f) := r in
          if n <=? 0 then vfs_close f ;;; ret AGENDA_EIO
          else write_loop fuel f (drop (Z.to_nat n) rest)
      end
  end.

Definition file_write (path buf : bytes) : prog (vfs S) Z :=
  f <- vfs_open path (Z.lor O_CREAT (Z.lor O_WRONLY O_TRUNC)) ;;
  match f with
  | None => ret AGENDA_EIO
  | Some f => write_loop (length buf) f buf
  end.

(** [got] is what the buffer holds so far. *)
Fixpoint read_loop (fuel : nat) (f : file) (cap : Z) (got : bytes) : prog (vfs S) (Z * bytes) :=
  if cap <=? zlen got + 1 then vfs_close f ;;; ret (AGENDA_EIO, [])
  else
    match fuel with
    | O => fun _ => Spin
    | Datatypes.S fuel =>
        r <- vfs_read f (cap - 1 - zlen got) ;;
        let '(n, bs, f) := r in
        if n <? 0 then vfs_close f ;;; ret (AGENDA_EIO, [])
        else if n =? 0 then vfs_close f ;;; ret (AGENDA_OK, got)
        else read_loop fuel f cap (got ++ bs)
    end.

Definition file_read (path : bytes) (cap : Z) : prog (vfs S) (Z * bytes) :=
  f <- vfs_open path O_RDONLY ;;
  match f with
  | None => ret (AGENDA_ENOENT, [])
  | Some f => read_loop (Z.to_nat cap) f cap []
  end.

Definition agenda_flush : prog (machine S) Z :=
  a <- gets ag ;;
  q <- on_array (array AGENDA_FILE_MAX) (render a) ;;
  let '(n, g_file) := q in
  if AGENDA_FILE_MAX <=? n then agenda_store ;;; ret AGENDA_EIO
  else path <- agenda_store ;; on_vf (file_write path (take (Z.to_nat n) g_file)).

(** *** Reading it back *)

(** The index of a word in a table, or -1. *)
Fixpoint index_of (i : Z) (tab : list bytes) (w : bytes) : Z :=
  match tab with
  | [] => -1
  | x :: tab => if bool_decide (w = x) then i else index_of (i + 1) tab w
  end.
Definition when_of (w : bytes) : Z := index_of 0 when_tab w.
Definition act_of (w : bytes) : Z := index_of 0 act_tab w.

(** The code and what [dst] holds: 0 for a missing field, -1 for one that does not fit. *)
Definition get_str {T} (o : json_value) (key : bytes) (cap : Z) (payload : bool) : prog T (Z * bytes) :=
  let '(rc, v) := json_get o (Some key) in
  if negb (rc =? JSON_OK) then ret (0, [])
  else if negb (bool_decide (jtype v = T_STRING)) then ret (-1, [])
  else
    q <- on_array (array (AGENDA_ARG_MAX * 2)) (json_str v 0 (AGENDA_ARG_MAX * 2)) ;;
    let '((rc, n), raw) := q in
    if negb (rc =? JSON_OK) then ret (-1, [])
    else if cap <=? n then ret (-1, [])
    else ret (1, if payload : bool then copy_payload cap (cstr raw) else copy_text cap (cstr raw)).

(** A number in the given range, or the default. *)
Definition get_uint (o : json_value) (key : bytes) (least most dflt : Z) : Z :=
  let '(rc, v) := json_get o (Some key) in
  if (rc =? JSON_OK) && bool_decide (jtype v = T_NUMBER) then
    match json_int v with
    | (rc, Some n) => if (rc =? JSON_OK) && (least <=? n) && (n <=? most) then n else dflt
    | (_, None) => dflt
    end
  else dflt.

(** Whether the field is there and is the boolean [b]. *)
Definition get_bool (o : json_value) (key : bytes) (b : bool) : bool :=
  let '(rc, v) := json_get o (Some key) in
  if (rc =? JSON_OK) && bool_decide (jtype v = T_BOOL) then
    match json_bool v with
    | (rc, Some x) => (rc =? JSON_OK) && Bool.eqb x b
    | (_, None) => false
    end
  else false.

(** The body of the loop up to the checks: the item and whether it carries the marker. *)
Definition item_of {T} (e : json_value) : prog T (option (agenda_item * bool)) :=
  name <- get_str e (lit "name") AGENDA_NAME_MAX false ;;
  if negb (name.1 =? 1) then ret None
  else
  word <- get_str e (lit "when") 24 false ;;
  if negb (word.1 =? 1) then ret None
  else
  let w := when_of word.2 in
  if w <? 0 then ret None
  else
  word <- get_str e (lit "do") 24 false ;;
  if negb (word.1 =? 1) then ret None
  else
  let a := act_of word.2 in
  if a <? 0 then ret None
  else
  tool <- get_str e (lit "tool") AGENDA_TOOL_MAX false ;;
  if tool.1 <? 0 then ret None
  else
  arg <- get_str e (lit "arg") AGENDA_ARG_MAX (a =? AGENDA_DO_TOOL) ;;
  if negb (arg.1 =? 1) then ret None
  else
  note <- get_str e (lit "note") AGENDA_NOTE_MAX false ;;
  if note.1 <? 0 then ret None
  else
  let period := get_uint e (lit "period_ms") 1 (0x7FFFFFFF - 1) AGENDA_MIN_PERIOD_MS in
  let max := get_uint e (lit "max_runs") 1 AGENDA_MAX_RUNS AGENDA_MAX_RUNS in
  let on := negb (get_bool e (lit "enabled") false) in
  let marked := get_bool e (lit "attempting") true in
  ret (Some (Item name.2 note.2 false w a (if marked then false else on) false period max tool.2 arg.2
                  0 0 0 0 0 0 0 [], marked)).

Definition find_item (a : agenda) (name : bytes) : option nat :=
  fst <$> list_find (fun it => i_name it = name) (items a).

Definition with_items (l : list agenda_item) (n : nat) (a : agenda) : agenda :=
  Agenda l n (g_on a) (g_running a) (g_runs a) (g_fails a) (g_escapes a) (g_say a) (g_store a).

Definition mark_used (it : agenda_item) : agenda_item :=
  Item (i_name it) (note it) true (when it) (act it) (enabled it) (attempting it) (period_ms it)
    (max_runs it) (i_tool it) (arg it) (runs it) (failures it) (total_failures it) (escapes it)
    (last_ms it) (next_ms it) (last_rc it) (last_why it).

(** One element of the array; the result is whether the marker was found in it. *)
Definition load_one (ja : json_value) (i : Z) : prog (machine S) bool :=
  let '(rc, e) := json_at ja i in
  if negb (rc =? JSON_OK) || negb (bool_decide (jtype e = T_OBJECT)) then ret false
  else
  r <- item_of e ;;
  match r with
  | None => ret false
  | Some (it, marked) =>
      q <- on_array (array AGENDA_WHY_MAX) (validate (Some it)) ;;
      if negb (q.1 =? AGENDA_OK) then ret marked
      else
      a <- gets ag ;;
      match find_item a (i_name it) with
      | Some _ => ret marked
      | None =>
          on_ag (fun a => with_items (<[g_n a := mark_used it]> (g_item a)) (Datatypes.S (g_n a)) a) ;;;
          ret marked
      end
  end.

(** The loop with [todo] elements left. *)
Fixpoint load_loop (ja : json_value) (todo : nat) (i : Z) (store_dirty : bool) : prog (machine S) bool :=
  match todo with
  | O => ret store_dirty
  | Datatypes.S todo =>
      n <- gets (fun m => g_n (ag m)) ;;
      if (AGENDA_MAX_ITEMS <=? n)%nat then ret store_dirty
      else d <- load_one ja i ;; load_loop ja todo (i + 1) (store_dirty || d)
  end.

Definition agenda_load : prog (machine S) Z :=
  path <- agenda_store ;;
  r <- on_vf (file_read path AGENDA_FILE_MAX) ;;
  let '(rc, text) := r in
  on_ag (with_items (replicate AGENDA_MAX_ITEMS zero_item) 0) ;;;
  if rc =? AGENDA_ENOENT then ret 0
  else if negb (rc =? AGENDA_OK) || (zlen text =? 0) then ret AGENDA_EIO
  else
  let '(prc, root) := json_parse (Some text) in
  if negb (prc =? JSON_OK) || negb (bool_decide (jtype root = T_OBJECT)) then ret AGENDA_EIO
  else
  let '(grc, ja) := json_get root (Some (lit "items")) in
  if negb (grc =? JSON_OK) || negb (bool_decide (jtype ja = T_ARRAY)) then ret AGENDA_EIO
  else
  dirty <- load_loop ja (Z.to_nat (json_count ja)) 0 false ;;
  (if dirty : bool then agenda_flush ;;; ret tt else ret tt) ;;;
  gets (fun m => Z.of_nat (g_n (ag m))).

(** ** Editing *)

(** The slot that a new item of this name goes to. *)
Definition agenda_save (input : option agenda_item) (why : bytes) : prog (machine S) (Z * bytes) :=
  let why := if zlen why =? 0 then array AGENDA_WHY_MAX else why in
  let it := match input with
            | None => zero_item
            | Some x =>
                Item (copy_text AGENDA_NAME_MAX (i_name x)) (copy_text AGENDA_NOTE_MAX (note x)) false
                  (when x) (act x) (enabled x) false
                  (if period_ms x =? 0 then AGENDA_MIN_PERIOD_MS else period_ms x)
                  (if max_runs x =? 0 then AGENDA_MAX_RUNS else max_runs x)
                  (copy_text AGENDA_TOOL_MAX (i_tool x)) (arg_copy AGENDA_ARG_MAX (arg x) (act x))
                  0 0 0 0 0 0 0 []
            end in
  q <- on_array why (validate (Some it)) ;;
  let '(rc, why) := q in
  if negb (rc =? AGENDA_OK) then ret (rc, why)
  else
  a <- gets ag ;;
  match (match find_item a (i_name it) with
         | Some k => Some (k, g_n a)
         | None => if (AGENDA_MAX_ITEMS <=? g_n a)%nat then None else Some (g_n a, Datatypes.S (g_n a))
         end) with
  | None =>
      q <- on_array why (poke 0 0 ;;;
             ap 0 (lit "the agenda already holds %u items, which is all it holds. Remove one first")
               [VInt (Z.of_nat AGENDA_MAX_ITEMS)]) ;;
      ret (AGENDA_ENOSPC, q.2)
  | Some (k, n) =>
      on_ag (fun a => with_items (<[k := mark_used it]> (g_item a)) n a) ;;;
      frc <- agenda_flush ;;
      if negb (frc =? AGENDA_OK) then
        path <- agenda_store ;;
        q <- on_array why (poke 0 0 ;;;
               ap 0 (lit "the item is live in memory but could not be written to %s, so it will NOT survive a reboot")
                 [arg_str path]) ;;
        ret (AGENDA_EIO, q.2)
      else ret (AGENDA_OK, why)
  end.

(** The items after slot [i] move down, the last slot is cleared. *)
Definition remove_slot (i : nat) (a : agenda) : agenda :=
  with_items (take i (g_item a) ++ drop (Datatypes.S i) (items a) ++ zero_item :: drop (g_n a) (g_item a)) (pred (g_n a)) a.

Definition agenda_remove (name : bytes) : prog (machine S) Z :=
  a <- gets ag ;;
  match find_item a name with
  | None => ret AGENDA_ENOENT
  | Some i => on_ag (remove_slot i) ;;; agenda_flush ;;; ret AGENDA_OK
  end.

Definition upd_item (i : nat) (f : agenda_item -> agenda_item) : prog (machine S) unit :=
  on_ag (fun a => with_items (alter f i (g_item a)) (g_n a) a).

Definition switch_item (on : bool) (it : agenda_item) : agenda_item :=
  Item (i_name it) (note it) (used it) (when it) (act it) on (attempting it) (period_ms it)
    (max_runs it) (i_tool it) (arg it) (runs it) (if on then 0 else failures it) (total_failures it)
    (escapes it) (last_ms it) (next_ms it) (last_rc it) (last_why it).

Definition agenda_set_enabled (name : bytes) (on : bool) : prog (machine S) Z :=
  a <- gets ag ;;
  match find_item a name with
  | None => ret AGENDA_ENOENT
  | Some i => upd_item i (switch_item on) ;;; agenda_flush ;;; ret AGENDA_OK
  end.

Definition agenda_enable (on : bool) : prog (machine S) unit :=
  on_ag (fun a => Agenda (g_item a) (g_n a) on (g_running a) (g_runs a) (g_fails a) (g_escapes a) (g_say a) (g_store a)).

Definition agenda_bind_say (bound : bool) : prog (machine S) unit :=
  on_ag (fun a => Agenda (g_item a) (g_n a) (g_on a) (g_running a) (g_runs a) (g_fails a) (g_escapes a) bound (g_store a)).

Definition agenda_reset : prog (machine S) unit :=
  on_ag (fun a => Agenda (replicate AGENDA_MAX_ITEMS zero_item) 0 true false 0 0 0 (g_say a) (g_store a)).

(** ** Running one item *)

Definition slot (i : nat) (a : agenda) : agenda_item := nth i (g_item a) zero_item.

(** The guarded body on slot [i]: [c->rc] and the text of [c->result]. *)
Definition run_body (i : nat) : prog (machine S) (option (Z * bytes)) :=
  it <- gets (fun m => slot i (ag m)) ;;
  if act it =? AGENDA_DO_SAY then
    bound <- gets (fun m => g_say (ag m)) ;;
    if negb bound then ret (Some (AGENDA_ENOSAY, []))
    else
      rc <- say (arg it) ;;
      match rc with
      | None => ret None
      | Some rc =>
          ret (Some (if rc =? 0 then AGENDA_OK
                     else if rc =? CHAT_EREENTER then AGENDA_EBUSY else AGENDA_ESAY, []))
      end
  else
    match tool_result_init (array 512) 512 with
    | Ok _ r => fun m =>
        match tool_dispatch tool_table (Call (Some (lit "toolu_kernel_agenda")) (Some (i_tool it)) (arg it)) (m, r) with
        | Ok None (m, _) => Ok None m
        | Ok (Some rc) (m, r) =>
            Ok (Some (if rc =? TOOL_ENOENT then AGENDA_ENOTOOL
                      else if negb (rc =? TOOL_OK) then AGENDA_EINVAL
                      else if is_error r then AGENDA_EINVAL else AGENDA_OK, cstr (buf r))) m
        | Panic w => Panic w
        | Wild => Wild
        | Spin => Spin
        end
    | _ => fun _ => Wild
    end.

(** arch/x86_64/fault.c: the code, and what the body left unless it was abandoned. A fault
    past the escape budget halts the machine. *)
Definition fault_guard_run {A} (body : prog (machine S) (option A)) : prog (machine S) (Z * option A) :=
  d <- gets g_gdepth ;;
  if FAULT_GUARD_DEPTH_MAX <=? d then ret (FAULT_GUARD_EDEPTH, None)
  else
    modify (set_gdepth (d + 1)) ;;;
    r <- body ;;
    match r with
    | Some a => modify (set_gdepth d) ;;; ret (FAULT_GUARD_OK, Some a)
    | None =>
        n <- gets fault_escapes ;;
        if FAULT_ESCAPE_MAX <=? n then panic "fatal exception"
        else modify (fun m => Machine (ag m) (tr m) (vf m) (handles m) d (n + 1)) ;;;
             ret (FAULT_GUARD_ESCAPED, None)
    end.

(** Up to the first newline. *)
Fixpoint to_newline (s : bytes) : bytes :=
  match s with
  | [] => []
  | c :: s => if c =? 10 then [] else c :: to_newline s
  end.

Definition first_line (cap : Z) (src : bytes) : bytes :=
  let i := zlen (take (Z.to_nat (cap - 1)) (to_newline src)) in
  copy_text (if i + 1 <? cap then i + 1 else cap) src.

Definition set_running (x : bool) (a : agenda) : agenda :=
  Agenda (g_item a) (g_n a) (g_on a) x (g_runs a) (g_fails a) (g_escapes a) (g_say a) (g_store a).
Definition set_counts (r f e : Z) (a : agenda) : agenda :=
  Agenda (g_item a) (g_n a) (g_on a) (g_running a) r f e (g_say a) (g_store a).

(** Fields of an item that change while it runs. *)
Definition set_enabled (on : bool) (it : agenda_item) : agenda_item :=
  Item (i_name it) (note it) (used it) (when it) (act it) on (attempting it) (period_ms it)
    (max_runs it) (i_tool it) (arg it) (runs it) (failures it) (total_failures it)
    (escapes it) (last_ms it) (next_ms it) (last_rc it) (last_why it).
Definition set_attempting (x : bool) (it : agenda_item) : agenda_item :=
  Item (i_name it) (note it) (used it) (when it) (act it) (enabled it) x (period_ms it)
    (max_runs it) (i_tool it) (arg it) (runs it) (failures it) (total_failures it)
    (escapes it) (last_ms it) (next_ms it) (last_rc it) (last_why it).
(** runs, failures, total_failures, escapes, last_ms, next_ms, last_rc, last_why *)
Definition set_stats (r f t e l n rc : Z) (w : bytes) (it : agenda_item) : agenda_item :=
  Item (i_name it) (note it) (used it) (when it) (act it) (enabled it) (attempting it) (period_ms it)
    (max_runs it) (i_tool it) (arg it) r f t e l n rc w.

Definition started (now : Z) (it : agenda_item) : agenda_item :=
  set_stats (wrap32 (runs it + 1)) (failures it) (total_failures it) (escapes it) now (next_ms it)
    (last_rc it) (last_why it) it.

(** The durable marker: whether it was recorded. *)
Definition mark_attempt (i : nat) : prog (machine S) bool :=
  w <- gets (fun m => when (slot i (ag m))) ;;
  if w =? AGENDA_WHEN_BOOT then
    upd_item i (set_attempting true) ;;;
    frc <- agenda_flush ;;
    if frc =? AGENDA_OK then ret true else upd_item i (set_attempting false) ;;; ret false
  else ret false.

Definition clear_attempt (i : nat) (marked : bool) : prog (machine S) unit :=
  if marked then upd_item i (set_attempting false) ;;; agenda_flush ;;; ret tt else ret tt.

(** The outcome recorded: [code] is what the action came to, [w] the words for it. *)
Definition record_outcome (i : nat) (code : Z) (w : bytes) : prog (machine S) unit :=
  it <- gets (fun m => slot i (ag m)) ;;
  if code =? AGENDA_OK then
    upd_item i (set_stats (runs it) 0 (total_failures it) (escapes it) (last_ms it) (next_ms it) code w) ;;;
    on_tr (trace_ret (runs it) (Some (lit "agenda.done")) (Some (lit "%s ok")) [arg_str (i_name it)])
  else
    upd_item i (set_stats (runs it) (wrap32 (failures it + 1)) (wrap32 (total_failures it + 1)) (escapes it)
                  (last_ms it) (next_ms it) code w) ;;;
    on_ag (fun a => set_counts (g_runs a) (wrap32 (g_fails a + 1)) (g_escapes a) a) ;;;
    on_tr (trace_err code (Some (lit "agenda.done")) (Some (lit "%s fail=%u"))
             [arg_str (i_name it); VInt (wrap32 (failures it + 1))]).

(** Retirement; the result is whether it has to be written to the store. *)
Definition retire (i : nat) (now : Z) : prog (machine S) bool :=
  it <- gets (fun m => slot i (ag m)) ;;
  if AGENDA_MAX_FAILURES <=? failures it then upd_item i (set_enabled false) ;;; ret true
  else if max_runs it <=? runs it then upd_item i (set_enabled false) ;;; ret false
  else if when it =? AGENDA_WHEN_ONCE then upd_item i (set_enabled false) ;;; ret true
  else if when it =? AGENDA_WHEN_BOOT then upd_item i (set_enabled false) ;;; ret false
  else upd_item i (set_stats (runs it) (failures it) (total_failures it) (escapes it) (last_ms it)
                     (wrap64 (now + period_ms it)) (last_rc it) (last_why it)) ;;; ret false.

(** Everything after the guard: [g] is its code, [c] what the body left. *)
Definition settle (i : nat) (now : Z) (g : Z) (c : option (Z * bytes)) : prog (machine S) Z :=
  it <- gets (fun m => slot i (ag m)) ;;
  let finish code w :=
    record_outcome i code w ;;;
    durable <- retire i now ;;
    (if durable : bool then agenda_flush ;;; ret tt else ret tt) ;;;
    ret code in
  if g =? FAULT_GUARD_ESCAPED then
    upd_item i (set_stats (runs it) (failures it) (total_failures it) (wrap32 (escapes it + 1)) (last_ms it)
                  (next_ms it) (last_rc it) (last_why it)) ;;;
    on_ag (fun a => set_counts (g_runs a) (g_fails a) (wrap32 (g_escapes a + 1)) a) ;;;
    finish AGENDA_EFAULT (copy_text AGENDA_WHY_MAX
      (lit "a fatal CPU exception abandoned this action's call chain; the machine survived and the fault is in the fault ring"))
  else match c with
  | None =>
      on_ag (fun a => set_counts (if g_runs a =? 0 then 0 else g_runs a - 1) (g_fails a) (g_escapes a) a) ;;;
      on_tr (trace_err AGENDA_EBUSY (Some (lit "agenda.run")) (Some (lit "%s not-guarded")) [arg_str (i_name it)]) ;;;
      upd_item i (set_stats (wrap32 (runs it - 1)) (failures it) (total_failures it) (escapes it) (last_ms it)
                    (next_ms it) AGENDA_EBUSY (copy_text AGENDA_WHY_MAX
        (lit "no fault guard could be armed, so the action was not attempted; an unguarded autonomous action could halt the machine"))) ;;;
      ret AGENDA_EBUSY
  | Some (code, result) =>
      finish code (first_line AGENDA_WHY_MAX
        (if code =? AGENDA_OK then (if act it =? AGENDA_DO_TOOL then result else lit "sentence delivered")
         else if cur result =? 0 then agenda_strerror code else result))
  end.

Definition run_item (i : nat) (now : Z) : prog (machine S) Z :=
  a <- gets ag ;;
  if negb (g_on a) then ret AGENDA_EOFF
  else if g_running a then ret AGENDA_EBUSY
  else if AGENDA_MAX_RUNS_TOTAL <=? g_runs a then upd_item i (set_enabled false) ;;; ret AGENDA_ERETIRED
  else
    on_ag (fun a => set_running true (set_counts (wrap32 (g_runs a + 1)) (g_fails a) (g_escapes a) a)) ;;;
    upd_item i (started now) ;;;
    it <- gets (fun m => slot i (ag m)) ;;
    on_tr (trace_ok (Some (lit "agenda.run")) (Some (lit "%s %s %s runs=%u"))
             [arg_str (i_name it); arg_str (agenda_when_name (when it)); arg_str (agenda_act_name (act it));
              VInt (runs it)]) ;;;
    marked <- mark_attempt i ;;
    q <- fault_guard_run (run_body i) ;;
    clear_attempt i marked ;;;
    on_ag (set_running false) ;;;
    settle i now q.1 q.2.

Definition agenda_run_now (name : bytes) (now : Z) : prog (machine S) Z :=
  a <- gets ag ;;
  match find_item a name with
  | None => ret AGENDA_ENOENT
  | Some i => run_item i now
  end.

(** ** The tick *)

Definition due (now : Z) (it : agenda_item) : bool :=
  enabled it && (runs it <? max_runs it) && negb (when it =? AGENDA_WHEN_BOOT) &&
  ((when it =? AGENDA_WHEN_ONCE) || (next_ms it =? 0) || (next_ms it <=? now)).

Definition pick_due (now : Z) (a : agenda) : option nat :=
  fst <$> list_find (fun it => due now it = true) (items a).

Definition agenda_due (now : Z) (a : agenda) : option bytes :=
  if negb (g_on a) || g_running a then None else (fun i => i_name (slot i a)) <$> pick_due now a.

Definition agenda_tick (now : Z) : prog (machine S) Z :=
  a <- gets ag ;;
  if negb (g_on a) || g_running a then ret 0
  else match pick_due now a with
       | None => ret 0
       | Some i => run_item i now ;;; ret 1
       end.

(** From slot [i], with [todo] slots of the table left. *)
Fixpoint boot_loop (todo : nat) (i : nat) (now n : Z) : prog (machine S) Z :=
  match todo with
  | O => ret n
  | Datatypes.S todo =>
      a <- gets ag ;;
      if (g_n a <=? i)%nat then ret n
      else if negb (enabled (slot i a)) || negb (when (slot i a) =? AGENDA_WHEN_BOOT)
      then boot_loop todo (i + 1) now n
      else run_item i now ;;; boot_loop todo (i + 1) now (n + 1)
  end.

Definition agenda_run_boot (now : Z) : prog (machine S) Z :=
  on <- gets (fun m => g_on (ag m)) ;;
  if negb on then ret 0 else boot_loop AGENDA_MAX_ITEMS 0 now 0.

Definition agenda_bounds_ok : Z :=
  Z.of_nat (length (List.filter (fun t => match name t with
                                          | Some n => negb (zlen n <? AGENDA_TOOL_MAX) | None => false end) tool_table)).

Definition agenda_denylist_unresolved : Z :=
  Z.of_nat (length (List.filter (fun n => match tool_find tool_table (Some n) with Some _ => false | None => true end) deny_tab)).

(** The two checks before it only print. *)
Definition agenda_bringup (now : Z) : prog (machine S) Z :=
  agenda_load ;;; agenda_persistent ;;; agenda_run_boot now.

End Agenda.
