(* ===== verification/AgendaLoad.v ===== *)
(** core/agenda.c: the store. What agenda_flush writes is a JSON document that agenda_load
    reads back as the same schedule; an item whose marker was left set comes back disabled,
    durably. *)

From S2P Require Import Prelude Bytes Json JsonWriter JsonGrammar JsonNav JsonText JsonOut SseJson.
From S2P Require Import Kfmt KfmtSpec KfmtClaims Paths Vfs VfsSpec VfsClaims Ramfs RamfsSpec Trace Tool ToolClaims Agenda.
Open Scope prog_scope.

(** * Rendering *)

(** [m] appends [t] at its offset and counts all of it, whether it fits or not. *)
Definition puts (m : Z -> prog bytes Z) (t : bytes) : Prop :=
  forall b u, 0 < zlen b -> zlen u + zlen t < 2 ^ 31 ->
    m (zlen u) (KfmtSpec.truncated (zlen b) u b) = Ok (zlen (u ++ t)) (KfmtSpec.truncated (zlen b) (u ++ t) b).

(** A buffer whose text was cut at its end holds the same whatever follows. *)
Lemma truncated_full c u t b : c <= zlen u + 1 -> KfmtSpec.truncated c (u ++ t) b = KfmtSpec.truncated c u b.
Proof.
  intros Hc. unfold KfmtSpec.truncated. destruct (c =? 0); [done|].
  by rewrite take_app_le by (unfold zlen in *; lia).
Qed.

Lemma truncated_more u t b : zlen u < zlen b ->
  u ++ KfmtSpec.truncated (zlen b - zlen u) t (drop (length u) (KfmtSpec.truncated (zlen b) u b)) =
  KfmtSpec.truncated (zlen b) (u ++ t) b.
Proof.
  intros Hl. pose proof (zlen_nonneg u). unfold KfmtSpec.truncated.
  rewrite (proj2 (Z.eqb_neq (zlen b) 0)), (proj2 (Z.eqb_neq (zlen b - zlen u) 0)) by lia.
  rewrite (take_ge u) by (unfold zlen in *; lia). rewrite !patch_front, <- !app_assoc. cbn [app].
  rewrite drop_app_length. set (k := Z.to_nat (zlen b - zlen u - 1)).
  replace (take (Z.to_nat (zlen b - 1)) (u ++ t)) with (u ++ take k t).
  2:{ rewrite take_app_ge by (unfold zlen in *; lia). do 2 f_equal. unfold k, zlen in *. lia. }
  rewrite <- app_assoc. do 2 f_equal. cbn [app]. rewrite !length_app. cbn [length].
  rewrite Nat.add_1_r. cbn [drop]. f_equal. rewrite drop_drop. f_equal. lia.
Qed.

Lemma puts_ap fmt args t : prints fmt args t -> puts (fun off => ap off fmt args) t.
Proof.
  intros Hp b u Hb Hl. pose proof (zlen_nonneg u). pose proof (zlen_nonneg t).
  assert (Hz : zlen (KfmtSpec.truncated (zlen b) u b) = zlen b) by (apply zlen_truncated; lia).
  unfold ap. rewrite Hz. set (bb := KfmtSpec.truncated (zlen b) u b) in *.
  assert (Ev : exists b', from_offset (if zlen u <? zlen b then zlen u else zlen b)
      (vsnprintf (zlen b - (if zlen u <? zlen b then zlen u else zlen b)) fmt args) bb = Ok (zlen t) b' /\
      b' = KfmtSpec.truncated (zlen b) (u ++ t) b).
  { unfold from_offset. rewrite Hz. destruct (Z.ltb_spec (zlen u) (zlen b)) as [Hu|Hu].
    - rewrite (proj2 (Z.leb_le 0 _)), (proj2 (Z.leb_le _ (zlen b))) by lia. cbn [andb].
      assert (Hd : zlen (drop (Z.to_nat (zlen u)) bb) = zlen b - zlen u)
        by (unfold zlen in *; rewrite length_drop; lia).
      erewrite snprintf_prints by (done || lia). eexists. split; [reflexivity|].
      rewrite <- truncated_more by done. fold bb. replace (Z.to_nat (zlen u)) with (length u) by (unfold zlen; lia).
      f_equal. unfold bb, KfmtSpec.truncated. rewrite (proj2 (Z.eqb_neq (zlen b) 0)) by lia.
      rewrite (take_ge u), patch_front, <- app_assoc by (unfold zlen in *; lia). apply take_app_length.
    - rewrite (proj2 (Z.leb_le 0 _)), (proj2 (Z.leb_le _ (zlen b))) by lia. cbn [andb].
      rewrite Z.sub_diag. pose proof (zlen_nonneg (drop (Z.to_nat (zlen b)) bb)).
      erewrite snprintf_prints by (done || lia). eexists. split; [reflexivity|].
      rewrite truncated_full by lia. apply take_drop. }
  destruct Ev as (b' & Ev & ->). rewrite (bind_ok _ _ _ _ _ Ev). unfold ret. f_equal. autorewrite with zlen.
  ztest; lia.
Qed.

Lemma puts_seq m1 m2 t1 t2 : puts m1 t1 -> puts m2 t2 -> puts (fun off => off <- m1 off ;; m2 off) (t1 ++ t2).
Proof.
  intros H1 H2 b u Hb Hl. pose proof (zlen_nonneg t2). autorewrite with zlen in Hl.
  rewrite (bind_ok _ _ _ _ _ (H1 b u Hb ltac:(lia))), app_assoc. apply H2; [done|]. autorewrite with zlen. lia.
Qed.

Lemma puts_ret : puts (fun off => ret off) [].
Proof. intros b u _ _. by rewrite app_nil_r. Qed.

(** The characters an item can hold: copy_payload leaves no others. *)
Definition shown (c : Z) : Prop := 32 <= c < 256 /\ c <> 127.

Lemma shown_byte_ok s : Forall shown s -> Forall byte_ok s.
Proof. apply Forall_impl. unfold shown, byte_ok. lia. Qed.
Lemma shown_no_nul s : Forall shown s -> no_nul s.
Proof. apply Forall_impl. unfold shown. lia. Qed.

Lemma puts_json_char c : shown c ->
  puts (fun off => if c =? QUOTE then ap off (qlit "\`") []
              else if c =? ch "\" then ap off (lit "\\") []
              else if c =? 10 then ap off (lit "\n") []
              else if c =? 13 then ap off (lit "\r") []
              else if c =? 9 then ap off (lit "\t") []
              else if c <? 32 then ap off (lit " ") []
              else ap off (lit "%c") [arg_char c]) (escape_byte c).
Proof.
  intros [Hc _]. unfold escape_byte. destruct (Z.eqb_spec c QUOTE) as [->|].
  { apply puts_ap. do 2 print_plain. apply prints_nil. }
  destruct (Z.eqb_spec c (ch "\")) as [->|]; [apply puts_ap; do 2 print_plain; apply prints_nil|].
  rewrite !(proj2 (Z.eqb_neq c _)), (proj2 (Z.ltb_ge c 32)) by lia. apply puts_ap.
  assert (Hm : wrap8 c = c) by (apply wrap_small; cbn; lia).
  assert (Hs : sgn 8 c = c \/ sgn 8 c = c - 256) by (unfold sgn; rewrite Hm; destruct (_ <? _); auto).
  assert (E : wrap8 (sgn 32 (wrap32 (sgn 8 c))) = c).
  { rewrite (sgn_wrap 32) by (cbn; lia). destruct Hs as [-> | ->]; [done|].
    rewrite <- Hm at 2. unfold wrap. rewrite <- (Z_mod_plus_full c (-1) (2 ^ 8)). f_equal. }
  rewrite <- E at 2. unfold arg_char. apply prints_c, prints_nil.
Qed.

Lemma puts_jstr s : Forall shown s -> puts (fun off => put_json_str off s) (jstr s).
Proof.
  intros Hs. apply (puts_seq _ _ [QUOTE] (escaped s ++ [QUOTE])).
  { apply puts_ap. print_plain. apply prints_nil. }
  apply (puts_seq _ _ (escaped s) [QUOTE]).
  2:{ apply puts_ap. print_plain. apply prints_nil. }
  induction Hs as [|c s Hc _ IH]; [apply puts_ret|]. cbn [put_json_chars].
  apply (puts_seq _ _ (escape_byte c) (escaped s)); [by apply puts_json_char|done].
Qed.

(** ** The document *)

(** An object from its members, under names and with values already parsed. *)
Definition object (ms : list (bytes * json_value)) : json_value :=
  JV T_OBJECT (ch "{" :: members_text (map (fun kv => (jstr kv.1, span kv.2)) ms) ++ [ch "}"]).
Definition string_json (s : bytes) : json_value := JV T_STRING (jstr s).
Definition uint_json (n : Z) : json_value := JV T_NUMBER (decimal n).
Definition bool_json (x : bool) : json_value := JV T_BOOL (bool_word x).

Definition item_members (it : agenda_item) : list (bytes * json_value) :=
  [(lit "name", string_json (i_name it)); (lit "when", string_json (agenda_when_name (when it)));
   (lit "do", string_json (agenda_act_name (act it)));
   (lit "period_ms", uint_json (period_ms it)); (lit "max_runs", uint_json (max_runs it));
   (lit "enabled", bool_json (enabled it)); (lit "attempting", bool_json (attempting it))] ++
  (if act it =? AGENDA_DO_TOOL then [(lit "tool", string_json (i_tool it))] else []) ++
  [(lit "arg", string_json (arg it)); (lit "note", string_json (note it))].

Definition item_json (it : agenda_item) : json_value := object (item_members it).
Definition items_json (its : list agenda_item) : json_value :=
  JV T_ARRAY (ch "[" :: commas (map (fun it => span (item_json it)) its) ++ [ch "]"]).
Definition doc_json (its : list agenda_item) : json_value :=
  object [(lit "agenda", uint_json 1); (lit "items", items_json its)].
(** What the store holds for a table of these items. *)
Definition doc (its : list agenda_item) : bytes := span (doc_json its) ++ [10].

(** An item that can be rendered. *)
Definition printable (it : agenda_item) : Prop :=
  Forall shown (i_name it) /\ Forall shown (note it) /\ Forall shown (i_tool it) /\ Forall shown (arg it) /\
  0 <= period_ms it < 2 ^ 32 /\ 0 <= max_runs it < 2 ^ 32.

Lemma shown_lit (s : bytes) : forallb (fun c => (32 <=? c) && (c <? 127)) s = true -> Forall shown s.
Proof.
  intros Hf. apply List.Forall_forall. intros c Hc. rewrite forallb_forall in Hf. specialize (Hf c Hc).
  unfold shown. b2p. lia.
Qed.

Lemma shown_nth i tab : Forall (Forall shown) tab -> Forall shown (nth i tab []).
Proof. intros Ht. revert i. induction Ht as [|x l Hx _ IH]; intros [|i]; cbn; auto. Qed.
Lemma shown_when w : Forall shown (agenda_when_name w).
Proof.
  unfold agenda_when_name. destruct (_ || _); [by apply shown_lit|].
  apply shown_nth. repeat (apply Forall_cons_2; [by apply shown_lit|]). apply Forall_nil_2.
Qed.
Lemma shown_act a : Forall shown (agenda_act_name a).
Proof.
  unfold agenda_act_name. destruct (_ || _); [by apply shown_lit|].
  apply shown_nth. repeat (apply Forall_cons_2; [by apply shown_lit|]). apply Forall_nil_2.
Qed.

Lemma no_nul_word x : no_nul (bool_word x).
Proof. destruct x; by repeat constructor. Qed.

Ltac put_plain := apply puts_ap; repeat print_plain; apply prints_nil.

Lemma puts_item first it : printable it ->
  puts (fun off => render_item off first it) ((if first then [] else [ch ","]) ++ span (item_json it)).
Proof.
  intros (Hn & Ht & Hl & Ha & Hp & Hr).
  set (tl := if act it =? AGENDA_DO_TOOL then qlit ",`tool`:" ++ jstr (i_tool it) else []).
  replace ((if first then [] else [ch ","]) ++ span (item_json it)) with
    (((if first then [] else [ch ","]) ++ qlit "{`name`:") ++ jstr (i_name it) ++
     qlit ",`when`:" ++ jstr (agenda_when_name (when it)) ++ qlit ",`do`:" ++ jstr (agenda_act_name (act it)) ++
     (qlit ",`period_ms`:" ++ decimal (period_ms it) ++ qlit ",`max_runs`:" ++ decimal (max_runs it) ++
      qlit ",`enabled`:" ++ bool_word (enabled it) ++ qlit ",`attempting`:" ++ bool_word (attempting it) ++ []) ++
     tl ++ qlit ",`arg`:" ++ jstr (arg it) ++ qlit ",`note`:" ++ jstr (note it) ++ [ch "}"]).
  - unfold render_item. apply puts_seq.
    { apply puts_ap, prints_s; [by destruct first; repeat constructor|by destruct first|].
      repeat print_plain. apply prints_nil. }
    apply puts_seq; [by apply puts_jstr|]. apply puts_seq; [put_plain|].
    apply puts_seq; [apply puts_jstr, shown_when|]. apply puts_seq; [put_plain|].
    apply puts_seq; [apply puts_jstr, shown_act|]. apply puts_seq.
    { apply puts_ap. repeat print_plain. apply prints_u; [done|]. repeat print_plain. apply prints_u; [done|].
      repeat print_plain. apply prints_s; [apply no_nul_word|by destruct (enabled it)|].
      repeat print_plain. apply prints_s; [apply no_nul_word|by destruct (attempting it)|]. apply prints_nil. }
    apply puts_seq.
    { subst tl. destruct (act it =? AGENDA_DO_TOOL); [|apply puts_ret]. apply puts_seq; [put_plain|by apply puts_jstr]. }
    apply puts_seq; [put_plain|]. apply puts_seq; [by apply puts_jstr|]. apply puts_seq; [put_plain|].
    apply puts_seq; [by apply puts_jstr|put_plain].
  - unfold item_json, object, item_members. subst tl. cbn [span].
    destruct (act it =? AGENDA_DO_TOOL); cbn [app map members_text fst snd span string_json uint_json bool_json];
      destruct first; repeat (rewrite <- !app_assoc; cbn [app]); reflexivity.
Qed.

Lemma puts_items its : Forall printable its ->
  puts (fun off => render_items off true its) (commas (map (fun it => span (item_json it)) its)).
Proof.
  assert (Ht : forall its, Forall printable its -> puts (fun off => render_items off false its)
    (concat (map (cons (ch ",")) (map (fun it => span (item_json it)) its)))).
  { clear its. induction 1 as [|it its Hi _ IH]; cbn [render_items map concat]; [apply puts_ret|].
    apply (puts_seq _ _ ([ch ","] ++ span (item_json it))); [by apply (puts_item false)|done]. }
  intros [|it l Hi Hl]; cbn [render_items map]; [apply puts_ret|]. rewrite commas_cons.
  apply (puts_seq _ _ ([] ++ span (item_json it))); [by apply (puts_item true)|by apply Ht].
Qed.

(** The bytes render leaves in a zeroed array, and what it returns. *)
Lemma render_doc a (c : Z) : Forall printable (items a) -> 0 < c -> zlen (doc (items a)) < 2 ^ 31 ->
  render a (array c) = Ok (zlen (doc (items a))) (KfmtSpec.truncated c (doc (items a)) (array c)).
Proof.
  intros Hi Hc Hl.
  assert (Hz : zlen (array c) = c) by (unfold array, zlen; rewrite length_replicate; lia).
  assert (Hr : puts (fun off => off <- ap off (qlit "{`agenda`:1,`items`:[") [] ;;
     off <- render_items off true (items a) ;; ap off (lit "]}" ++ [10]) []) (doc (items a))).
  { replace (doc (items a)) with (qlit "{`agenda`:1,`items`:[" ++
      commas (map (fun it => span (item_json it)) (items a)) ++ lit "]}" ++ [10]).
    - apply puts_seq; [put_plain|]. apply puts_seq; [by apply puts_items|put_plain].
    - unfold doc, doc_json, object, items_json. cbn [span map members_text fst snd].
      repeat (rewrite <- !app_assoc; cbn [app]). reflexivity. }
  specialize (Hr (array c) []). rewrite Hz in Hr. specialize (Hr Hc Hl).
  replace (KfmtSpec.truncated c [] (array c)) with (array c) in Hr; [exact Hr|].
  unfold KfmtSpec.truncated. rewrite (proj2 (Z.eqb_neq c 0)) by lia. rewrite take_nil, patch_front. cbn [app length].
  unfold array. destruct (Z.to_nat c) eqn:E; [lia|]. done.
Qed.

(** ** It fits *)

Definition fits (it : agenda_item) : Prop :=
  zlen (i_name it) < AGENDA_NAME_MAX /\ zlen (note it) < AGENDA_NOTE_MAX /\
  zlen (i_tool it) < AGENDA_TOOL_MAX /\ zlen (arg it) < AGENDA_ARG_MAX.

Lemma jstr_shown_length s : Forall shown s -> zlen (jstr s) <= 2 * zlen s + 2.
Proof.
  intros Hs. unfold jstr. autorewrite with zlen. cut (zlen (escaped s) <= 2 * zlen s); [lia|].
  induction Hs as [|c s [Hc _] _ IH]; [done|]. change (escaped (c :: s)) with (escape_byte c ++ escaped s).
  autorewrite with zlen. cut (zlen (escape_byte c) <= 2); [lia|]. unfold escape_byte.
  do 2 (destruct (c =? _); [done|]). rewrite !(proj2 (Z.eqb_neq c _)), (proj2 (Z.ltb_ge c 32)) by lia. done.
Qed.

Lemma nth_length i (tab : list bytes) k : Forall (fun w => zlen w <= k) tab -> 0 <= k -> zlen (nth i tab []) <= k.
Proof. intros Ht Hk. revert i. induction Ht as [|x l Hx _ IH]; intros [|i]; cbn [nth]; auto. Qed.

Lemma words_length it : zlen (agenda_when_name (when it)) <= 5 /\ zlen (agenda_act_name (act it)) <= 4.
Proof.
  unfold agenda_when_name, agenda_act_name. split; (destruct (_ || _); [done|]); apply nth_length; try done;
    repeat (apply Forall_cons_2; [done|]); apply Forall_nil_2.
Qed.

Lemma item_length it : printable it -> fits it -> zlen (span (item_json it)) <= 1200.
Proof.
  intros (Hn & Ht & Hl & Ha & Hp & Hr) (Ln & Lo & Lt & La).
  pose proof (jstr_shown_length _ Hn). pose proof (jstr_shown_length _ Ht). pose proof (jstr_shown_length _ Hl).
  pose proof (jstr_shown_length _ Ha). destruct (words_length it) as [Lw Lx].
  pose proof (jstr_shown_length _ (shown_when (when it))). pose proof (jstr_shown_length _ (shown_act (act it))).
  pose proof (decimal_short (period_ms it) 10 ltac:(lia) ltac:(cbn in *; lia)).
  pose proof (decimal_short (max_runs it) 10 ltac:(lia) ltac:(cbn in *; lia)).
  assert (Hw : forall x, zlen (bool_word x) <= 5) by (by intros []).
  pose proof (Hw (enabled it)). pose proof (Hw (attempting it)).
  change AGENDA_NAME_MAX with 32 in *. change AGENDA_NOTE_MAX with 112 in *. change AGENDA_TOOL_MAX with 49 in *.
  change AGENDA_ARG_MAX with 288 in *.
  unfold item_json, object, item_members. cbn [span].
  destruct (act it =? AGENDA_DO_TOOL); cbn [app map members_text fst snd span string_json uint_json bool_json];
    autorewrite with zlen;
    repeat match goal with |- context [zlen (jstr (lit ?k))] =>
      let n := eval vm_compute in (zlen (jstr (lit k))) in change (zlen (jstr (lit k))) with n end; lia.
Qed.

Lemma concat_length (bs : list bytes) k : Forall (fun b => zlen b <= k) bs -> zlen (concat bs) <= k * Z.of_nat (length bs).
Proof.
  induction 1 as [|b bs Hb _ IH]; [unfold zlen; cbn [concat length]; lia|].
  cbn [concat length]. autorewrite with zlen. lia.
Qed.

Lemma commas_bound (bs : list bytes) k : Forall (fun b => zlen b <= k) bs -> zlen (commas bs) <= (k + 1) * Z.of_nat (length bs).
Proof.
  intros [|b l Hb Hl]; [unfold zlen; cbn [commas length]; lia|]. rewrite commas_cons. autorewrite with zlen.
  pose proof (concat_length (map (cons (ch ",")) l) (k + 1)) as Hc. rewrite length_map in Hc. cbn [length].
  cut (Forall (fun b => zlen b <= k + 1) (map (cons (ch ",")) l)); [intros Hf; specialize (Hc Hf); lia|].
  apply Forall_map. revert Hl. apply Forall_impl. intros x Hx. autorewrite with zlen. lia.
Qed.

(** The store of a full table is well within the file's bound. *)
Lemma doc_length its : Forall printable its -> Forall fits its -> (length its <= AGENDA_MAX_ITEMS)%nat ->
  zlen (doc its) < AGENDA_FILE_MAX - 1.
Proof.
  intros Hp Hf Hl. unfold AGENDA_MAX_ITEMS in Hl.
  pose proof (commas_bound (map (fun it => span (item_json it)) its) 1200) as Hc. rewrite length_map in Hc.
  assert (Hb : Forall (fun b => zlen b <= 1200) (map (fun it => span (item_json it)) its)).
  { apply Forall_map. rewrite List.Forall_forall in *. intros it Hin. apply item_length; auto. }
  specialize (Hc Hb). unfold doc, doc_json, object, items_json. cbn [span map members_text fst snd uint_json].
  set (cs := commas _) in *. autorewrite with zlen.
  change (zlen (jstr (lit "agenda"))) with 8. change (zlen (jstr (lit "items"))) with 7. change (zlen (decimal 1)) with 1.
  change AGENDA_FILE_MAX with 12288. lia.
Qed.

(** * Navigating the document *)

Definition member_val (n : nat) (kv : bytes * json_value) : Prop :=
  Forall byte_ok kv.1 /\ jval n (jtype kv.2) (span kv.2).

Lemma object_members n ms : Forall (member_val n) ms -> ms <> [] ->
  jmembers n (map (fun kv => (string_json kv.1, kv.2)) ms) (members_text (map (fun kv => (jstr kv.1, span kv.2)) ms)).
Proof.
  intros Hm Hne. apply members_exact; [|by destruct ms].
  induction Hm as [|[k v] ms [Hk Hv] _ IH]; [constructor|]. constructor; [|destruct ms; [constructor|by apply IH]].
  cbn in *. split; [by apply escaped_jstring|]. split; [done|]. exists [], []. cbn. rewrite app_nil_r. auto with json.
Qed.

Lemma object_jval n ms : Forall (member_val n) ms -> ms <> [] -> jval (S n) T_OBJECT (span (object ms)).
Proof. intros Hm Hne. eapply jv_object. by apply object_members. Qed.

Lemma object_get n ms key : (n <= 31)%nat -> Forall (member_val n) ms -> ms <> [] ->
  json_get (object ms) (Some key) =
  match find (fun kv => bool_decide (kv.1 = key)) ms with Some kv => (JSON_OK, kv.2) | None => (JSON_ENOENT, no_value) end.
Proof.
  intros Hn Hm Hne.
  assert (Hh : holds true (object ms) (map (fun kv => (string_json kv.1, kv.2)) ms)).
  { split; [done|]. eexists n, _. split; [done|]. split; [reflexivity|]. right. by apply object_members. }
  unfold json_get. rewrite bool_decide_eq_true_2 by done. cbn [negb].
  rewrite (walk_search _ _ _ _ _ _ Hh). pose proof (search_key key _ (holds_items_ok _ _ _ Hh) 0 no_value no_value) as Hs.
  cbv beta in Hs. cbv zeta. rewrite Hs. clear Hs Hh Hne.
  induction Hm as [|[k v] ms [Hk Hv] _ IH]; [done|]. cbn [map find fst snd].
  assert (E : named key (string_json k, v) = bool_decide (k = key)).
  { unfold named. cbn [fst]. unfold string_json, jstr. rewrite body_jstring, escaped_decode by done.
    apply bool_decide_ext. split; congruence. }
  rewrite E. by case_bool_decide.
Qed.

Lemma string_val n s : Forall shown s -> jval (S n) T_STRING (jstr s).
Proof. intros Hs. constructor. by apply escaped_jstring, shown_byte_ok. Qed.
Lemma uint_val n v : 0 <= v < 2 ^ 32 -> jval (S n) T_NUMBER (decimal v).
Proof.
  intros Hv. constructor. destruct (int_text_spec v) as [Hj _]; [unfold int64; lia|].
  revert Hj. unfold int_text. by rewrite (proj2 (Z.ltb_ge v 0)) by lia.
Qed.
Lemma bool_val n x : jval (S n) T_BOOL (bool_word x).
Proof. destruct x; constructor. Qed.

Lemma item_members_val it : printable it -> Forall (member_val 1) (item_members it).
Proof.
  intros (Hn & Ht & Hl & Ha & Hp & Hr). unfold item_members.
  assert (Hs : forall k s, Forall shown s -> member_val 1 (lit k, string_json s))
    by (intros k s Hs; split; [apply jstr_lit|by apply string_val]).
  assert (Hu : forall k v, 0 <= v < 2 ^ 32 -> member_val 1 (lit k, uint_json v))
    by (intros k v Hv; split; [apply jstr_lit|by apply uint_val]).
  assert (Hb : forall k x, member_val 1 (lit k, bool_json x)) by (intros k x; split; [apply jstr_lit|apply bool_val]).
  apply Forall_app_2; [|apply Forall_app_2].
  - repeat apply Forall_cons_2; auto using shown_when, shown_act.
  - destruct (act it =? AGENDA_DO_TOOL); auto.
  - repeat apply Forall_cons_2; auto.
Qed.

Lemma item_get it key : printable it ->
  json_get (item_json it) (Some key) =
  match find (fun kv => bool_decide (kv.1 = key)) (item_members it) with
  | Some kv => (JSON_OK, kv.2) | None => (JSON_ENOENT, no_value) end.
Proof. intros Hp. by apply (object_get 1); [lia|apply item_members_val|]. Qed.

(** * One item *)

Lemma cstr_patch0 s b : no_nul s -> cstr (patch 0 (s ++ [0]) b) = s.
Proof. intros Hs. rewrite patch_front, <- app_assoc. by apply cstr_app. Qed.

Lemma get_str_json {T} e key cap payload s (m : T) :
  json_get e (Some key) = (JSON_OK, string_json s) -> Forall shown s -> zlen s < cap <= AGENDA_ARG_MAX * 2 ->
  get_str e key cap payload m = Ok (1, if payload : bool then copy_payload cap s else copy_text cap s) m.
Proof.
  intros Eg Hs Hc. unfold get_str. rewrite Eg. change (negb (JSON_OK =? JSON_OK)) with false. cbn match. rewrite bool_decide_eq_true_2 by done. cbn [negb].
  change (AGENDA_ARG_MAX * 2) with 576 in *. pose proof (shown_byte_ok s Hs) as Hb.
  destruct (json_str_spec (jstr s) 0 576 (array 576) s) as (rc & out & rest & E & Er & Hl & Hcase).
  - by apply escaped_jstring.
  - lia.
  - lia.
  - unfold array, zlen. rewrite length_replicate. lia.
  - unfold jstr. by rewrite body_jstring, escaped_decode.
  - destruct Hcase as [[-> ->]|(_ & ? & _)]; [|lia]. rewrite app_nil_r in E. subst out.
    unfold string_json. erewrite bind_ok by (unfold on_array; rewrite Er; reflexivity).
    change (negb (JSON_OK =? JSON_OK)) with false. cbn match.
    rewrite (proj2 (Z.leb_gt cap _)) by lia. rewrite cstr_patch0 by (by apply shown_no_nul). done.
Qed.

Lemma get_str_none {T} e key cap payload (m : T) :
  json_get e (Some key) = (JSON_ENOENT, no_value) -> get_str e key cap payload m = Ok (0, []) m.
Proof. intros Eg. unfold get_str. by rewrite Eg. Qed.

Lemma get_uint_json e key least most dflt v : json_get e (Some key) = (JSON_OK, uint_json v) ->
  0 <= v < 2 ^ 32 -> least <= v <= most -> get_uint e key least most dflt = v.
Proof.
  intros Eg Hv Hr. unfold get_uint. rewrite Eg. change (JSON_OK =? JSON_OK) with true. cbn [andb]. rewrite bool_decide_eq_true_2 by done.
  destruct (int_text_spec v) as [_ Ei]; [unfold int64; lia|].
  revert Ei. unfold int_text. rewrite (proj2 (Z.ltb_ge v 0)) by lia. intros Ei. unfold uint_json. rewrite Ei.
  rewrite !(proj2 (Z.leb_le _ _)) by lia. done.
Qed.

Lemma get_bool_json e key b x : json_get e (Some key) = (JSON_OK, bool_json x) -> get_bool e key b = Bool.eqb x b.
Proof. intros Eg. unfold get_bool. rewrite Eg. by destruct x, b. Qed.

(** An item with the text agenda_save gives it, and numbers the loader takes. *)
Definition storable (it : agenda_item) : Prop :=
  Forall shown (i_name it) /\ Forall shown (note it) /\ Forall shown (i_tool it) /\ Forall shown (arg it) /\ fits it /\
  copy_text AGENDA_NAME_MAX (i_name it) = i_name it /\ copy_text AGENDA_NOTE_MAX (note it) = note it /\
  copy_text AGENDA_TOOL_MAX (i_tool it) = i_tool it /\ arg_copy AGENDA_ARG_MAX (arg it) (act it) = arg it /\
  0 <= when it < AGENDA_WHEN_COUNT /\ 0 <= act it < AGENDA_DO_COUNT /\
  0 < period_ms it < 0x7FFFFFFF /\ 0 < max_runs it <= AGENDA_MAX_RUNS.

(** What the loader makes of an item, before it counts it in. *)
Definition loaded (it : agenda_item) : agenda_item :=
  Item (i_name it) (note it) false (when it) (act it) (enabled it && negb (attempting it)) false (period_ms it)
    (max_runs it) (if act it =? AGENDA_DO_TOOL then i_tool it else []) (arg it) 0 0 0 0 0 0 0 [].

Lemma storable_printable it : storable it -> printable it.
Proof. intros (? & ? & ? & ? & _ & _ & _ & _ & _ & _ & _ & ? & Hm). unfold AGENDA_MAX_RUNS in Hm. repeat split; auto; lia. Qed.

Lemma when_of_name w : 0 <= w < AGENDA_WHEN_COUNT -> when_of (copy_text 24 (agenda_when_name w)) = w.
Proof. unfold AGENDA_WHEN_COUNT. intros Hw. assert (w = 0 \/ w = 1 \/ w = 2) as [->|[->| ->]] by lia; reflexivity. Qed.
Lemma act_of_name a : 0 <= a < AGENDA_DO_COUNT -> act_of (copy_text 24 (agenda_act_name a)) = a.
Proof. unfold AGENDA_DO_COUNT. intros Hw. assert (a = 0 \/ a = 1) as [->| ->] by lia; reflexivity. Qed.

Ltac get_member Hp := rewrite item_get by exact Hp; unfold item_members;
  (reflexivity || match goal with |- context [act ?it =? _] => destruct (act it =? AGENDA_DO_TOOL); reflexivity end).

Lemma item_of_json {T} it (m : T) : storable it ->
  item_of (item_json it) m = Ok (Some (loaded it, attempting it)) m.
Proof.
  intros Hs. pose proof (storable_printable it Hs) as Hp.
  destruct Hs as (Hn & Ht & Hl & Ha & (Ln & Lo & Lt & La) & En & Eo & Et & Ea & Hw & Hac & Hpe & Hmr).
  destruct (words_length it) as [Lw Lx]. unfold item_of.
  change (AGENDA_NAME_MAX) with 32 in *. change AGENDA_NOTE_MAX with 112 in *. change AGENDA_TOOL_MAX with 49 in *.
  change AGENDA_ARG_MAX with 288 in *.
  erewrite bind_ok by (apply (get_str_json _ _ _ _ (i_name it)); [get_member Hp|done|done]).
  cbn [fst snd]. change (negb (1 =? 1)) with false. cbn match.
  erewrite bind_ok by (apply (get_str_json _ _ _ _ (agenda_when_name (when it))); [get_member Hp|apply shown_when|split; [lia|done]]).
  cbn [fst snd]. change (negb (1 =? 1)) with false. cbn match. rewrite when_of_name by done. rewrite (proj2 (Z.ltb_ge _ 0)) by lia.
  erewrite bind_ok by (apply (get_str_json _ _ _ _ (agenda_act_name (act it))); [get_member Hp|apply shown_act|split; [lia|done]]).
  cbn [fst snd]. change (negb (1 =? 1)) with false. cbn match. rewrite act_of_name by done. rewrite (proj2 (Z.ltb_ge _ 0)) by lia.
  assert (Etool : exists r, get_str (item_json it) (lit "tool") 49 false m =
      Ok (r, if act it =? AGENDA_DO_TOOL then i_tool it else []) m /\ 0 <= r).
  { destruct (act it =? AGENDA_DO_TOOL) eqn:E.
    - exists 1. split; [|lia]. erewrite get_str_json; [by rewrite Et| |done|done].
      rewrite item_get by exact Hp. unfold item_members. by rewrite E.
    - exists 0. split; [|lia]. apply get_str_none. rewrite item_get by exact Hp. unfold item_members. by rewrite E. }
  destruct Etool as (r & Etool & Hr). rewrite (bind_ok _ _ _ _ _ Etool). cbn [fst snd].
  rewrite (proj2 (Z.ltb_ge r 0)) by lia.
  erewrite bind_ok by (apply (get_str_json _ _ _ _ (arg it)); [get_member Hp|done|done]).
  cbn [fst snd]. change (negb (1 =? 1)) with false. cbn match.
  erewrite bind_ok by (apply (get_str_json _ _ _ _ (note it)); [get_member Hp|done|done]).
  cbn [fst snd]. change (1 <? 0) with false. cbn match.
  erewrite get_uint_json by (first [get_member Hp|lia]).
  rewrite (get_uint_json _ (lit "max_runs") _ _ _ (max_runs it)) by (first [get_member Hp|unfold AGENDA_MAX_RUNS in *; lia]).
  erewrite !get_bool_json by get_member Hp. cbn match. rewrite Eo, En. unfold arg_copy in Ea. rewrite Ea.
  unfold loaded. by destruct (enabled it), (attempting it).
Qed.

Section Load.

Context {S : Type} `{FsLaws S}.
Variable tool_table : list (tool (machine S)).

(** What validate asks of an item. *)
Definition acceptable (it : agenda_item) : bool :=
  name_ok (i_name it) && (when it <? AGENDA_WHEN_COUNT) && (act it <? AGENDA_DO_COUNT) &&
  negb ((when it =? AGENDA_WHEN_EVERY) && (period_ms it <? AGENDA_MIN_PERIOD_MS)) &&
  negb ((max_runs it =? 0) || (AGENDA_MAX_RUNS <? max_runs it)) && negb (zlen (arg it) =? 0) &&
  (negb (act it =? AGENDA_DO_TOOL) ||
   (negb (zlen (i_tool it) =? 0) && bool_decide (is_Some (tool_find tool_table (Some (i_tool it)))) &&
    negb (ends_the_boot (i_tool it)) &&
    ((json_parse (Some (arg it))).1 =? JSON_OK) && bool_decide (jtype (json_parse (Some (arg it))).2 = T_OBJECT))).

Lemma validate_ok it b : acceptable it = true -> 0 < zlen b ->
  validate tool_table (Some it) b = Ok AGENDA_OK (patch 0 [0] b).
Proof using.
  unfold acceptable. intros Ha Hb. apply andb_true_iff in Ha as [Ha Htool].
  repeat match goal with Hx : _ && _ = true |- _ => apply andb_true_iff in Hx as [Hx ?] end.
  unfold validate. erewrite bind_ok by reflexivity. rewrite (proj2 (Z.eqb_neq (zlen b) 0)) by lia.
  erewrite bind_ok by (apply poke_ok; lia). rewrite Ha. cbn [negb].
  rewrite (proj2 (Z.leb_gt AGENDA_WHEN_COUNT _)), (proj2 (Z.leb_gt AGENDA_DO_COUNT _)) by (b2p; lia).
  repeat match goal with Hx : negb _ = true |- _ => apply negb_true_iff in Hx; rewrite Hx end.
  destruct (act it =? AGENDA_DO_TOOL); cbn [negb orb] in *; [|done].
  repeat match goal with Hx : _ && _ = true |- _ => apply andb_true_iff in Hx as [Hx ?] end.
  repeat match goal with Hx : negb _ = true |- _ => apply negb_true_iff in Hx; rewrite Hx end.
  repeat match goal with Hx : bool_decide _ = true |- _ => apply bool_decide_eq_true in Hx end.
  match goal with Hx : is_Some _ |- _ => destruct Hx as [x ->] end.
  destruct (json_parse (Some (arg it))) as [rc v]. cbn [fst snd] in *.
  repeat match goal with Hx : (rc =? _) = true |- _ => rewrite Hx end. by rewrite bool_decide_eq_true_2.
Qed.

(** A refusal says why, as far as the buffer goes. *)
Definition refused (b : bytes) (r : outcome bytes Z) : Prop :=
  exists rc t, rc <> AGENDA_OK /\ t <> [] /\ r = Ok rc (KfmtSpec.truncated (zlen b) t b).

Lemma ap_start fmt args t b : prints fmt args t -> zlen t < 2 ^ 31 -> 0 < zlen b ->
  ap 0 fmt args (patch 0 [0] b) = Ok (zlen t) (KfmtSpec.truncated (zlen b) t b).
Proof using.
  intros Hp Hl Hb. pose proof (puts_ap _ _ _ Hp b [] Hb Hl) as E.
  replace (KfmtSpec.truncated (zlen b) [] b) with (patch 0 [0] b) in E; [done|].
  unfold KfmtSpec.truncated. rewrite (proj2 (Z.eqb_neq (zlen b) 0)) by lia. by rewrite take_nil.
Qed.

Lemma refuse_ok rc fmt args t b : prints fmt args t -> zlen t < 2 ^ 31 -> 0 < zlen b -> rc <> AGENDA_OK -> t <> [] ->
  refused b ((ap 0 fmt args ;;; ret rc) (patch 0 [0] b)).
Proof using.
  intros Hp Hl Hb Hrc Ht. exists rc, t. split; [done|]. split; [done|].
  by rewrite (bind_ok _ _ _ _ _ (ap_start _ _ _ _ Hp Hl Hb)).
Qed.

(** The text up to the next directive. *)
Lemma prints_run fmt pre post args t : fmt = pre ++ post -> forallb (fun c => negb (c =? ch "%")) pre = true ->
  prints post args t -> prints fmt args (pre ++ t).
Proof using.
  intros -> Hf Ht. induction pre as [|c pre IH]; [done|]. cbn [forallb] in Hf. apply andb_true_iff in Hf as [Hc Hf].
  apply negb_true_iff, Z.eqb_neq in Hc. apply prints_plain; [done|by apply IH].
Qed.

Ltac print_run :=
  match goal with |- prints ?fmt _ _ =>
    let pre := eval vm_compute in (span_until (ch "%") fmt).1 in
    let post := eval vm_compute in (span_until (ch "%") fmt).2 in
    eapply (prints_run fmt pre post); [vm_compute; reflexivity|vm_compute; reflexivity|]
  end.

Ltac print_args := repeat first
  [ apply prints_nil | apply prints_s; [assumption|unfold INT_MAX; lia|]
  | apply prints_u; [done || lia|] | apply prints_d; [lia|] | print_run ].

Ltac text_length := repeat rewrite zlen_app; change (zlen (@nil Z)) with 0;
  repeat match goal with |- context [zlen (?c :: ?l)] =>
    let n := eval vm_compute in (zlen (c :: l)) in change (zlen (c :: l)) with n end; lia.

Ltac refusal := eapply refuse_ok; [print_args|text_length|assumption|discriminate|discriminate].

Lemma validate_refuses it b : acceptable it = false -> 0 < zlen b ->
  no_nul (i_name it) -> no_nul (i_tool it) -> zlen (i_name it) < 2 ^ 16 -> zlen (i_tool it) < 2 ^ 16 ->
  0 <= period_ms it < 2 ^ 32 -> 0 <= max_runs it < 2 ^ 32 -> tool_count tool_table < 2 ^ 16 ->
  refused b (validate tool_table (Some it) b).
Proof using.
  intros Ha Hb Nn Nt Ln Lt Hp Hr Htab. unfold acceptable in Ha. unfold validate.
  destruct (json_parse (Some (arg it))) as [rc v]. cbn [fst snd] in Ha. erewrite bind_ok by reflexivity.
  rewrite (proj2 (Z.eqb_neq (zlen b) 0)) by lia. erewrite bind_ok by (apply poke_ok; lia).
  pose proof (decimal_short (period_ms it) 10 ltac:(lia) ltac:(change (10 ^ Z.of_nat 10) with 10000000000; lia)).
  pose proof (decimal_short (max_runs it) 10 ltac:(lia) ltac:(change (10 ^ Z.of_nat 10) with 10000000000; lia)).
  assert (Hn31 : zlen (decimal (AGENDA_NAME_MAX - 1)) = 2) by reflexivity.
  assert (Hn10 : zlen (decimal AGENDA_MIN_PERIOD_MS) = 5) by reflexivity.
  assert (Hn64 : zlen (decimal AGENDA_MAX_RUNS) = 2) by reflexivity.
  destruct (name_ok (i_name it)); cbn [negb andb] in *.
  2:{ set (s := if cur (i_name it) =? 0 then _ else _).
      assert (no_nul s /\ zlen s < 2 ^ 16) as [Hs1 Hs2] by (subst s; destruct (_ =? 0); [split; [by repeat constructor|done]|done]).
      refusal. }
  destruct (Z.ltb_spec (when it) AGENDA_WHEN_COUNT); cbn [andb] in *.
  2:{ rewrite (proj2 (Z.leb_le AGENDA_WHEN_COUNT _)) by lia. refusal. }
  rewrite (proj2 (Z.leb_gt AGENDA_WHEN_COUNT _)) by lia.
  destruct (Z.ltb_spec (act it) AGENDA_DO_COUNT); cbn [andb] in *.
  2:{ rewrite (proj2 (Z.leb_le AGENDA_DO_COUNT _)) by lia. refusal. }
  rewrite (proj2 (Z.leb_gt AGENDA_DO_COUNT _)) by lia.
  destruct (_ && (period_ms it <? _)); cbn [negb andb] in *; [refusal|].
  destruct (_ || (AGENDA_MAX_RUNS <? _)); cbn [negb andb] in *; [refusal|].
  destruct (zlen (arg it) =? 0); cbn [negb andb] in *; [destruct (act it =? AGENDA_DO_TOOL); refusal|].
  destruct (act it =? AGENDA_DO_TOOL); cbn [negb orb] in *; [|done].
  destruct (zlen (i_tool it) =? 0); cbn [negb andb] in *; [refusal|].
  destruct (tool_find tool_table (Some (i_tool it))) as [t|].
  2:{ assert (Hc : 0 <= tool_count tool_table < 2 ^ 16) by (unfold tool_count in *; lia).
      pose proof (int_text_short (tool_count tool_table) ltac:(unfold int64; lia)). refusal. }
  rewrite bool_decide_eq_true_2 in Ha by done. cbn [andb] in Ha.
  destruct (ends_the_boot (i_tool it)); cbn [negb andb] in *; [refusal|].
  destruct (rc =? JSON_OK); cbn [negb orb andb] in *; [|refusal]. case_bool_decide; cbn [negb] in *; [done|refusal].
Qed.

Lemma acceptable_loaded it : acceptable (loaded it) = acceptable it.
Proof using. unfold acceptable, loaded. cbn. by destruct (act it =? AGENDA_DO_TOOL). Qed.

(** * The whole table *)

Definition reloaded (it : agenda_item) : agenda_item := mark_used (loaded it).

Definition with_table (its : list agenda_item) (m : machine S) : machine S :=
  set_ag (with_items (map reloaded its ++ replicate (AGENDA_MAX_ITEMS - length its) zero_item) (length its) (ag m)) m.

Lemma items_json_holds its : Forall storable its -> jval 3 T_ARRAY (span (items_json its)) /\
  holds false (items_json its) (map (fun it => (no_value, item_json it)) its).
Proof using.
  intros Hs.
  assert (Hf : Forall2 (fun b e => span e = b /\ jval 2 (jtype e) b) (map (fun it => span (item_json it)) its) (map item_json its)).
  { induction Hs as [|it its Hi _ IH]; constructor; [|done]. split; [done|].
    apply object_jval; [|done]. by apply item_members_val, storable_printable. }
  destruct its as [|it its].
  - split; [by apply (jv_array0 2 [])|]. split; [done|]. eexists 0%nat, []. split; [lia|]. split; [done|]. left. auto with json.
  - split; [eapply jv_array; by apply commas_exact|]. split; [done|]. eexists 2%nat, _. split; [lia|].
    split; [reflexivity|]. right. exists (map item_json (it :: its)). split; [|by apply commas_exact].
    clear. induction (it :: its); cbn; congruence.
Qed.

Lemma items_at its (i : nat) it : Forall storable its -> its !! i = Some it ->
  json_at (items_json its) (Z.of_nat i) = (JSON_OK, item_json it).
Proof using.
  intros Hs Hi. destruct (items_json_holds its Hs) as [_ Hh]. unfold json_at. rewrite bool_decide_eq_true_2 by done.
  cbn [negb]. rewrite (walk_search _ _ _ _ _ _ Hh), search_index by lia.
  rewrite Z.sub_0_r, Nat2Z.id.
  change (map ?f ?l) with (f <$> l). rewrite list_lookup_fmap, Hi. done.
Qed.

Lemma items_count its : Forall storable its -> json_count (items_json its) = Z.of_nat (length its).
Proof using.
  intros Hs. destruct (items_json_holds its Hs) as [_ Hh]. unfold json_count. rewrite (walk_search _ _ _ _ _ _ Hh).
  destruct (search_counting false None 0 (map (fun it => (no_value, item_json it)) its) 0 no_value no_value) as [-> ->].
  by rewrite length_map.
Qed.

Lemma doc_parses its : Forall storable its ->
  json_parse (Some (doc its)) = (JSON_OK, doc_json its) /\
  json_get (doc_json its) (Some (lit "items")) = (JSON_OK, items_json its).
Proof using.
  intros Hs. destruct (items_json_holds its Hs) as [Hv _].
  assert (Hm : Forall (member_val 3) [(lit "agenda", uint_json 1); (lit "items", items_json its)]).
  { apply Forall_cons_2; [split; [apply jstr_lit|by apply uint_val]|].
    apply Forall_cons_2; [split; [apply jstr_lit|done]|apply Forall_nil_2]. }
  split.
  - destruct (json_parse_text 4 (doc_json its) (doc its)) as [|[_ ?]]; [|done|lia].
    exists [], [10]. split; [done|]. split; [constructor|]. split; [by repeat constructor|]. by apply object_jval.
  - unfold doc_json. by rewrite (object_get 3) by (done || lia).
Qed.

Lemma find_item_none a x : ~ In x (map i_name (items a)) -> find_item a x = None.
Proof using.
  intros Hx. unfold find_item. rewrite (proj2 (list_find_None _ _)); [done|].
  apply List.Forall_forall. intros it Hin E. apply Hx. subst x. by apply in_map.
Qed.

Lemma items_with_table its m : items (ag (with_table its m)) = map reloaded its.
Proof using. unfold items, with_table. cbn. rewrite <- (length_map reloaded its) at 1. apply take_app_length. Qed.

Lemma load_one_ok its pre it rest m : its = pre ++ it :: rest -> (length its <= AGENDA_MAX_ITEMS)%nat ->
  Forall storable its -> acceptable it = true -> NoDup (map i_name its) ->
  load_one tool_table (items_json its) (Z.of_nat (length pre)) (with_table pre m) =
  Ok (attempting it) (with_table (pre ++ [it]) m).
Proof using.
  intros -> Hl Hs Ha Hd. unfold load_one.
  assert (Hat : (pre ++ it :: rest) !! length pre = Some it) by (by apply list_lookup_middle).
  rewrite (items_at _ _ it Hs Hat).
  change (negb (JSON_OK =? JSON_OK)) with false. rewrite bool_decide_eq_true_2 by done. cbn [negb orb].
  apply Forall_app in Hs as [_ Hs]. apply Forall_cons_iff in Hs as [Hi _].
  rewrite (bind_ok _ _ _ _ _ (item_of_json it _ Hi)). cbn match.
  assert (Ev : on_array (array AGENDA_WHY_MAX) (validate tool_table (Some (loaded it))) (with_table pre m) =
    Ok (AGENDA_OK, patch 0 [0] (array AGENDA_WHY_MAX)) (with_table pre m)).
  { unfold on_array. by rewrite validate_ok by (by rewrite ?acceptable_loaded). }
  rewrite (bind_ok _ _ _ _ _ Ev). change (negb ((AGENDA_OK, patch 0 [0] (array AGENDA_WHY_MAX)).1 =? AGENDA_OK)) with false.
  cbn match. erewrite bind_ok by reflexivity. rewrite find_item_none.
  2:{ rewrite items_with_table, map_map. rewrite map_app in Hd. cbn [map] in Hd. apply NoDup_ListNoDup, NoDup_remove_2 in Hd.
      intros Hin. apply Hd. apply in_or_app. by left. }
  erewrite bind_ok by reflexivity. unfold ret. f_equal. unfold with_table, set_ag. cbn [ag tr vf handles g_gdepth fault_escapes].
  f_equal. unfold with_items. cbn [g_item g_n g_on g_running g_runs g_fails g_escapes g_say g_store].
  rewrite length_app in *. cbn [length] in *. unfold AGENDA_MAX_ITEMS in *. f_equal; [|lia].
  rewrite map_app, <- app_assoc. cbn [map app].
  rewrite <- (length_map reloaded pre) at 1. rewrite insert_app_r_alt by lia. rewrite Nat.sub_diag. f_equal.
  replace (8 - length pre)%nat with (Datatypes.S (8 - (length pre + 1))) by lia. done.
Qed.

Lemma load_loop_ok its rest : forall pre m d, its = pre ++ rest -> (length its <= AGENDA_MAX_ITEMS)%nat ->
  Forall storable its -> Forall (fun it => acceptable it = true) its -> NoDup (map i_name its) ->
  load_loop tool_table (items_json its) (length rest) (Z.of_nat (length pre)) d (with_table pre m) =
  Ok (d || existsb attempting rest) (with_table its m).
Proof using.
  induction rest as [|it rest IH]; intros pre m d E Hl Hs Ha Hd.
  - rewrite app_nil_r in E. subst its. cbn. by rewrite orb_false_r.
  - cbn [length load_loop existsb]. erewrite bind_ok by reflexivity. cbn [ag with_table set_ag with_items g_n].
    assert (Hlt : (length pre < 8)%nat) by (subst its; rewrite length_app in Hl; cbn in Hl; unfold AGENDA_MAX_ITEMS in Hl; lia).
    rewrite (proj2 (Nat.leb_gt _ _)) by (unfold AGENDA_MAX_ITEMS; lia).
    assert (Hit : acceptable it = true).
    { subst its. apply Forall_app in Ha as [_ Ha]. by apply Forall_cons_iff in Ha as [? _]. }
    rewrite (bind_ok _ _ _ _ _ (load_one_ok its pre it rest m E Hl Hs Hit Hd)).
    rewrite orb_assoc. replace (Z.of_nat (length pre) + 1) with (Z.of_nat (length (pre ++ [it])))
      by (rewrite length_app; cbn; lia).
    apply IH; auto. by rewrite <- app_assoc.
Qed.

(** * The store *)

Definition store_path (disk : bool) : bytes := if disk then AGENDA_STORE_DISK else AGENDA_STORE_RAM.

(** The file at [path] holds [text]. *)
Definition stored (v : vfs S) (path text : bytes) : Prop :=
  exists n, resolved v path = Some n /\ v_type (fs v) n = VNODE_FILE /\ 1 <= v_refs (fs v) n /\
            file_of (fs v) n = Some text.

(** A filesystem in order. *)
Definition mounted (v : vfs S) : Prop := valid (fs v) /\ roots_are_dirs v.

Lemma stored_openable v path text : stored v path text -> openable v path.
Proof using. intros (n & E & T & _). left. by exists n. Qed.

Lemma no_nul_store disk : no_nul (store_path disk).
Proof using. destruct disk; by repeat constructor. Qed.

Lemma file_write_ok v path buf : mounted v -> no_nul path -> openable v path -> buf <> [] -> spare (fs v) buf ->
  exists v', file_write path buf v = Ok AGENDA_OK v' /\ mounted v' /\ stored v' path buf.
Proof using.
  intros [Hv Hr] Hn Hop Hne Hsp.
  destruct (open_rewrite v path Hv Hn Hr Hop) as (n & s1 & E1 & V1 & F1 & R1 & P1 & _ & Sp1 & D1 & T1).
  destruct (write_fresh (with_fs v s1) n buf V1 F1 Hne (Sp1 _ Hsp)) as (s2 & E2 & V2 & F2 & X2 & _).
  set (f := File n (wrap64 (0 + zlen buf)) O_REWRITE) in *. cbn [fs with_fs] in *.
  destruct (close_shared (with_fs v s2) f) as (s3 & E3 & V3 & R3 & X3 & _); [done| |].
  { cbn. destruct (X2 n) as (_ & -> & _). lia. }
  cbn [fs with_fs node f] in *. exists (with_fs v s3). split; [|split; [split; [done|]|]].
  - unfold file_write. change (Z.lor O_CREAT (Z.lor O_WRONLY O_TRUNC)) with O_REWRITE.
    rewrite (bind_ok _ _ _ _ _ E1). cbn match. pose proof (zlen_nonneg buf).
    assert (Hpos : 0 < zlen buf) by (destruct buf; [done|autorewrite with zlen; pose proof (zlen_nonneg buf); lia]).
    assert (El : exists k, length buf = Datatypes.S k) by (destruct buf; [done|by eexists]). destruct El as [k Ek].
    rewrite Ek. assert (Es : write_loop (Datatypes.S k) (File n 0 O_REWRITE) buf = (r <- vfs_write (File n 0 O_REWRITE) buf ;;
      let '(n, f) := r in if n <=? 0 then vfs_close f ;;; ret AGENDA_EIO else write_loop k f (drop (Z.to_nat n) buf)))
      by (by destruct buf).
    rewrite Es, (bind_ok _ _ _ _ _ E2). rewrite (proj2 (Z.leb_gt _ 0)) by done.
    rewrite drop_ge by (unfold zlen; lia). assert (Ew : forall k, write_loop k f [] = (vfs_close f ;;; ret AGENDA_OK)) by (by intros []).
    rewrite Ew. change (with_fs (with_fs v s1) s2) with (with_fs v s2). by rewrite (bind_ok _ _ _ _ _ E3).
  - intros m Hm. cbn [fs with_fs]. destruct (X3 (root m)) as (-> & _), (X2 (root m)) as (-> & _). apply D1. by apply Hr.
  - exists n. cbn [fs with_fs]. destruct (X3 n) as (-> & _ & ->), (X2 n) as (-> & Hrf & _).
    rewrite R3, Hrf. split; [|split; [done|split; [lia|done]]].
    rewrite <- P1. apply resolved_ext. intros x. destruct (X2 x) as (A1 & _ & A2), (X3 x) as (B1 & B2 & _). split; congruence.
Qed.

Lemma file_read_ok v path text cap : mounted v -> stored v path text -> text <> [] -> zlen text + 1 < cap < 2 ^ 62 ->
  exists v', file_read path cap v = Ok (AGENDA_OK, text) v' /\ mounted v' /\ stored v' path text /\
    (forall b, spare (fs v) b -> spare (fs v') b).
Proof using.
  intros [Hv Hr] (n & P & T & R & F) Hne Hc.
  assert (Hpos : 0 < zlen text) by (destruct text; [done|autorewrite with zlen; pose proof (zlen_nonneg text); lia]).
  destruct (open_read v path n Hv P R) as (s1 & E1 & V1 & R1 & X1 & Sp1).
  assert (F1 : file_of s1 n = Some text) by (destruct (X1 n) as (_ & _ & ->); done).
  destruct (close_shared (with_fs v s1) (File n (zlen text) O_RDONLY)) as (s2 & E2 & V2 & R2 & X2 & Sp2); [done|cbn; lia|].
  cbn [fs with_fs node] in *. exists (with_fs v s2). split; [|split; [split; [done|]|split; [|by auto]]].
  - unfold file_read. rewrite (bind_ok _ _ _ _ _ E1). cbn match.
    replace (Z.to_nat cap) with (Datatypes.S (Datatypes.S (Z.to_nat (cap - 2)))) by lia. cbn [read_loop].
    change (zlen []) with 0. rewrite (proj2 (Z.leb_gt cap _)) by lia.
    pose proof (read_at (with_fs v s1) n text 0 (cap - 1 - 0) V1 F1 ltac:(lia) ltac:(lia)) as Hrd. cbv zeta in Hrd.
    rewrite drop_0, take_ge in Hrd by (unfold zlen in *; lia).
    rewrite (proj2 (Z.ltb_lt 0 _)), wrap64_small in Hrd by lia. rewrite (bind_ok _ _ _ _ _ Hrd). cbn [app].
    rewrite (proj2 (Z.ltb_ge _ 0)), (proj2 (Z.eqb_neq _ 0)), (proj2 (Z.leb_gt cap _)) by lia.
    pose proof (read_at (with_fs v s1) n text (0 + zlen text) (cap - 1 - zlen text) V1 F1 ltac:(lia) ltac:(lia)) as Hrd2.
    cbv zeta in Hrd2. rewrite drop_ge, take_nil in Hrd2 by (unfold zlen in *; lia).
    change (zlen []) with 0 in Hrd2. change (0 <? 0) with false in Hrd2. cbn match in Hrd2.
    rewrite (bind_ok _ _ _ _ _ Hrd2). change (0 <? 0) with false. change (0 =? 0) with true. cbn match.
    by rewrite (bind_ok _ _ _ _ _ E2).
  - intros m Hm. cbn [fs with_fs]. destruct (X2 (root m)) as (-> & _), (X1 (root m)) as (-> & _). by apply Hr.
  - exists n. cbn [fs with_fs]. destruct (X2 n) as (-> & _ & ->), (X1 n) as (-> & _).
    rewrite R2, R1. split; [|split; [done|split; [lia|done]]].
    rewrite <- P. assert (Ev : v = with_fs v (fs v)) by (by destruct v). rewrite Ev at 2. apply resolved_ext.
    intros x. destruct (X2 x) as (B1 & B2 & _), (X1 x) as (A1 & A2 & _). split; congruence.
Qed.

(** The store the machine uses: the one it chose, or the one choose_store would choose. *)
Definition disk_there (v : vfs S) : bool :=
  match resolved v FS_DISK_MOUNT with Some n => bool_decide (v_type (fs v) n = VNODE_DIR) | None => false end.
Definition uses_store (disk : bool) (m : machine S) : Prop :=
  g_store (ag m) = Some disk \/ (g_store (ag m) = None /\ disk = disk_there (vf m)).

Definition at_store (disk : bool) (m : machine S) : machine S :=
  set_ag (Agenda (g_item (ag m)) (g_n (ag m)) (g_on (ag m)) (g_running (ag m)) (g_runs (ag m)) (g_fails (ag m))
            (g_escapes (ag m)) (g_say (ag m)) (Some disk)) m.

Lemma agenda_store_ok disk m : mounted (vf m) -> uses_store disk m ->
  agenda_store m = Ok (store_path disk) (at_store disk m).
Proof using.
  intros [Hv _] Hu. unfold agenda_store.
  cut (agenda_persistent m = Ok disk (at_store disk m)); [intros E; by rewrite (bind_ok _ _ _ _ _ E)|].
  unfold agenda_persistent. erewrite bind_ok by reflexivity. destruct Hu as [Eg|[Eg ->]]; rewrite Eg.
  - unfold ret. f_equal. unfold at_store. rewrite <- Eg. by destruct m as [[] ? ? ? ? ?].
  - assert (Es : on_vf (vfs_stat FS_DISK_MOUNT) m = Ok (match resolved (vf m) FS_DISK_MOUNT with
        | Some n => inr (v_type (fs (vf m)) n, v_size (fs (vf m)) n, v_mode (fs (vf m)) n, v_mtime (fs (vf m)) n)
        | None => inl VFS_ENOENT end) m).
    { unfold on_vf, vfs_stat. rewrite (bind_ok _ _ _ _ _ (resolve_path_spec FS_DISK_MOUNT (vf m) Hv)).
      destruct (resolved (vf m) FS_DISK_MOUNT); cbn; by destruct m. }
    rewrite (bind_ok _ _ _ _ _ Es). erewrite bind_ok by reflexivity. unfold disk_there, ret.
    by destruct (resolved (vf m) FS_DISK_MOUNT).
Qed.

(** A table the store takes. *)
Definition table_ok (its : list agenda_item) : Prop :=
  (length its <= AGENDA_MAX_ITEMS)%nat /\ Forall storable its.

Lemma doc_ne its : doc its <> [].
Proof using. unfold doc. cbn [doc_json object span app]. discriminate. Qed.

Lemma table_length its : table_ok its -> zlen (doc its) < AGENDA_FILE_MAX - 1.
Proof using.
  intros [Hl Hs]. apply doc_length; [| |done]; revert Hs; apply Forall_impl; [apply storable_printable|].
  intros it (_ & _ & _ & _ & Hf & _). exact Hf.
Qed.

Lemma take_truncated c t b : zlen t < c -> take (Z.to_nat (zlen t)) (KfmtSpec.truncated c t b) = t.
Proof using.
  intros Ht. pose proof (zlen_nonneg t). unfold KfmtSpec.truncated. rewrite (proj2 (Z.eqb_neq c 0)) by lia.
  rewrite (take_ge t) by (unfold zlen in *; lia). rewrite patch_front, <- app_assoc. unfold zlen. rewrite Nat2Z.id.
  apply take_app_length.
Qed.

Lemma agenda_flush_ok disk (m : machine S) : mounted (vf m) -> uses_store disk m -> table_ok (items (ag m)) ->
  openable (vf m) (store_path disk) -> spare (fs (vf m)) (doc (items (ag m))) ->
  exists v, agenda_flush m = Ok AGENDA_OK (at_store disk (set_vf v m)) /\ mounted v /\
            stored v (store_path disk) (doc (items (ag m))).
Proof using.
  intros Hm Hu Ht Ho Hsp. pose proof (table_length _ Ht) as Hl.
  assert (Hlt : 0 < AGENDA_FILE_MAX < 2 ^ 31) by done.
  unfold agenda_flush. erewrite bind_ok by reflexivity.
  assert (Hp : Forall printable (items (ag m))) by (destruct Ht as [_ Hs]; revert Hs; apply Forall_impl, storable_printable).
  assert (Er : on_array (array AGENDA_FILE_MAX) (render (ag m)) m =
    Ok (zlen (doc (items (ag m))), KfmtSpec.truncated AGENDA_FILE_MAX (doc (items (ag m))) (array AGENDA_FILE_MAX)) m).
  { unfold on_array. by rewrite render_doc by (done || lia). }
  rewrite (bind_ok _ _ _ _ _ Er). rewrite (proj2 (Z.leb_gt AGENDA_FILE_MAX _)) by lia.
  rewrite (bind_ok _ _ _ _ _ (agenda_store_ok disk m Hm Hu)).
  rewrite take_truncated by lia.
  destruct (file_write_ok (vf m) (store_path disk) (doc (items (ag m))) Hm (no_nul_store disk) Ho (doc_ne _) Hsp) as (v & E & Hv & Hst).
  exists v. split; [|split; assumption]. unfold on_vf. change (vf (at_store disk m)) with (vf m). rewrite E. reflexivity.
Qed.

Lemma storable_reloaded it : storable it -> storable (reloaded it).
Proof using.
  intros (Hn & Ht & Hl & Ha & (Ln & Lo & Lt & La) & En & Eo & Et & Ea & Hw & Hac & Hpe & Hmr).
  unfold storable, fits, reloaded, mark_used, loaded. cbn [i_name note i_tool arg when act period_ms max_runs].
  destruct (act it =? AGENDA_DO_TOOL); [auto 20|]. repeat split; auto; lia.
Qed.

Lemma table_reloaded its : table_ok its -> table_ok (map reloaded its).
Proof using.
  intros [Hl Hs]. split; [by rewrite length_map|]. apply Forall_map. revert Hs. apply Forall_impl. apply storable_reloaded.
Qed.

Lemma agenda_load_ok disk its (m : machine S) : mounted (vf m) -> uses_store disk m -> table_ok its ->
  Forall (fun it => acceptable it = true) its -> NoDup (map i_name its) ->
  stored (vf m) (store_path disk) (doc its) ->
  (existsb attempting its = true -> spare (fs (vf m)) (doc (map reloaded its))) ->
  exists m', agenda_load tool_table m = Ok (Z.of_nat (length its)) m' /\ items (ag m') = map reloaded its /\
    stored (vf m') (store_path disk) (doc (if existsb attempting its then map reloaded its else its)).
Proof using.
  intros Hm Hu Ht Ha Hd Hst Hsp. pose proof (table_length its Ht) as Hl. pose proof (zlen_nonneg (doc its)).
  assert (Hlt : 0 < AGENDA_FILE_MAX < 2 ^ 31) by (split; reflexivity).
  destruct (file_read_ok (vf m) (store_path disk) (doc its) AGENDA_FILE_MAX Hm Hst (doc_ne its)) as (v1 & E1 & Hm1 & Hst1 & Sp1); [lia|].
  unfold agenda_load. rewrite (bind_ok _ _ _ _ _ (agenda_store_ok disk m Hm Hu)).
  assert (Er : on_vf (file_read (store_path disk) AGENDA_FILE_MAX) (at_store disk m) = Ok (AGENDA_OK, doc its) (set_vf v1 (at_store disk m))).
  { unfold on_vf. change (vf (at_store disk m)) with (vf m). rewrite E1. reflexivity. }
  rewrite (bind_ok _ _ _ _ _ Er). cbn beta iota.
  set (m1 := set_vf v1 (at_store disk m)).
  assert (E0 : on_ag (with_items (replicate AGENDA_MAX_ITEMS zero_item) 0) m1 = Ok tt (with_table [] m1)) by reflexivity.
  rewrite (bind_ok _ _ _ _ _ E0). change (AGENDA_OK =? AGENDA_ENOENT) with false. change (negb (AGENDA_OK =? AGENDA_OK)) with false.
  assert (Hz : 0 < zlen (doc its)) by (unfold doc; autorewrite with zlen; pose proof (zlen_nonneg (span (doc_json its))); lia).
  rewrite (proj2 (Z.eqb_neq (zlen (doc its)) 0)) by lia. cbn [orb].
  destruct (doc_parses its (proj2 Ht)) as [Ep Eg]. rewrite Ep. change (negb (JSON_OK =? JSON_OK)) with false.
  rewrite (bool_decide_eq_true_2 (jtype (doc_json its) = _)) by reflexivity. cbn [negb orb]. rewrite Eg.
  change (negb (JSON_OK =? JSON_OK)) with false. rewrite (bool_decide_eq_true_2 (jtype (items_json its) = _)) by reflexivity.
  cbn [negb orb]. rewrite items_count by apply Ht. rewrite Nat2Z.id.
  pose proof (load_loop_ok its its [] m1 false eq_refl (proj1 Ht) (proj2 Ht) Ha Hd) as Eloop. cbn [length Z.of_nat orb] in Eloop.
  rewrite (bind_ok _ _ _ _ _ Eloop). pose proof (items_with_table its m1) as Hit. destruct (existsb attempting its).
  - destruct (agenda_flush_ok disk (with_table its m1)) as (v2 & E2 & Hm2 & Hst2).
    + exact Hm1.
    + left. reflexivity.
    + rewrite Hit. by apply table_reloaded.
    + eapply stored_openable. exact Hst1.
    + rewrite Hit. apply Sp1. by apply Hsp.
    + rewrite Hit in Hst2. exists (at_store disk (set_vf v2 (with_table its m1))). split; [|split; [|exact Hst2]].
      * rewrite (bind_ok (agenda_flush ;;; ret tt) _ _ _ _ (bind_ok _ _ _ _ _ E2)). reflexivity.
      * rewrite <- Hit. reflexivity.
  - eexists. split; [reflexivity|]. split; [exact Hit|exact Hst1].
Qed.

(** * Saving *)

(** The copy agenda_save makes of what it is given. *)
Definition tidied (x : agenda_item) : agenda_item :=
  Item (copy_text AGENDA_NAME_MAX (i_name x)) (copy_text AGENDA_NOTE_MAX (note x)) false (when x) (act x) (enabled x) false
    (if period_ms x =? 0 then AGENDA_MIN_PERIOD_MS else period_ms x)
    (if max_runs x =? 0 then AGENDA_MAX_RUNS else max_runs x)
    (copy_text AGENDA_TOOL_MAX (i_tool x)) (arg_copy AGENDA_ARG_MAX (arg x) (act x)) 0 0 0 0 0 0 0 [].

(** Field values as the struct's types have them. *)
Definition item_typed (x : agenda_item) : Prop :=
  Forall byte_ok (i_name x) /\ Forall byte_ok (note x) /\ Forall byte_ok (i_tool x) /\ Forall byte_ok (arg x) /\
  0 <= when x /\ 0 <= act x /\ 0 <= period_ms x < 2 ^ 32 /\ 0 <= max_runs x < 2 ^ 32.

Lemma copy_map cap f s : (forall c, byte_ok c -> shown (f c) /\ f (f c) = f c) -> 0 < cap -> Forall byte_ok s ->
  let t := map f (take (Z.to_nat (cap - 1)) s) in
  Forall shown t /\ zlen t < cap /\ map f (take (Z.to_nat (cap - 1)) t) = t.
Proof using.
  intros Hf Hc Hs t. assert (Hk : Forall byte_ok (take (Z.to_nat (cap - 1)) s)) by (by apply Forall_take).
  assert (Hl : zlen t < cap) by (unfold t, zlen; rewrite length_map, length_take; lia).
  split; [|split; [done|]].
  - unfold t. apply Forall_map. revert Hk. apply Forall_impl. intros c Hc'. by apply Hf.
  - rewrite take_ge by (unfold zlen in *; lia). unfold t. rewrite map_map. apply map_ext_in. intros c Hin.
    rewrite List.Forall_forall in Hk. by apply Hf, Hk.
Qed.

Lemma copy_text_ok cap s : 0 < cap -> Forall byte_ok s ->
  Forall shown (copy_text cap s) /\ zlen (copy_text cap s) < cap /\ copy_text cap (copy_text cap s) = copy_text cap s.
Proof using.
  intros Hc Hs. apply copy_map; [|done|done]. unfold byte_ok, shown. intros c Hb.
  destruct (Z.ltb_spec c 32); [split; [cbn; lia|done]|]. destruct (Z.eqb_spec c 127) as [->|]; [split; [cbn; lia|done]|].
  cbn [orb]. destruct (Z.eqb_spec c (ch "[")) as [->|]; [split; [cbn; lia|done]|].
  destruct (Z.eqb_spec c (ch "]")) as [->|]; [split; [cbn; lia|done]|].
  rewrite !(proj2 (Z.eqb_neq c _)), (proj2 (Z.ltb_ge c 32)) by done. split; [lia|done].
Qed.

Lemma arg_copy_ok cap s a : 0 < cap -> Forall byte_ok s ->
  Forall shown (arg_copy cap s a) /\ zlen (arg_copy cap s a) < cap /\ arg_copy cap (arg_copy cap s a) a = arg_copy cap s a.
Proof using.
  intros Hc Hs. unfold arg_copy. destruct (a =? AGENDA_DO_TOOL); [|by apply copy_text_ok].
  apply copy_map; [|done|done]. unfold byte_ok, shown. intros c Hb.
  destruct (Z.ltb_spec c 32); [split; [cbn; lia|done]|]. destruct (Z.eqb_spec c 127) as [->|]; [split; [cbn; lia|done]|].
  cbn [orb]. rewrite (proj2 (Z.eqb_neq c _)), (proj2 (Z.ltb_ge c 32)) by done. split; [lia|done].
Qed.

Lemma storable_tidied x : item_typed x -> acceptable (tidied x) = true -> period_ms x < 0x7FFFFFFF -> storable (tidied x).
Proof using.
  intros (Bn & Bo & Bt & Ba & Hw & Hac & Hp & Hr) Hacc Hper. unfold acceptable in Hacc.
  repeat match goal with Hx : _ && _ = true |- _ => apply andb_true_iff in Hx as [Hx ?] end.
  destruct (copy_text_ok AGENDA_NAME_MAX _ ltac:(done) Bn) as (N1 & N2 & N3).
  destruct (copy_text_ok AGENDA_NOTE_MAX _ ltac:(done) Bo) as (O1 & O2 & O3).
  destruct (copy_text_ok AGENDA_TOOL_MAX _ ltac:(done) Bt) as (T1 & T2 & T3).
  destruct (arg_copy_ok AGENDA_ARG_MAX _ (act x) ltac:(done) Ba) as (A1 & A2 & A3).
  unfold storable, fits. cbn [tidied i_name note i_tool arg when act period_ms max_runs] in *.
  assert (Hper' : 0 < (if period_ms x =? 0 then AGENDA_MIN_PERIOD_MS else period_ms x) < 0x7FFFFFFF)
    by (unfold AGENDA_MIN_PERIOD_MS; destruct (Z.eqb_spec (period_ms x) 0); lia).
  assert (Hrun : 0 < (if max_runs x =? 0 then AGENDA_MAX_RUNS else max_runs x) <= AGENDA_MAX_RUNS).
  { destruct (Z.eqb_spec (max_runs x) 0); [done|].
    match goal with Hx : negb (_ || _) = true |- _ => apply negb_true_iff, orb_false_iff in Hx as [_ Hx] end. b2p. lia. }
  b2p. auto 20 with lia.
Qed.

(** A schedule as agenda_save builds them. *)
Definition schedule_ok (its : list agenda_item) : Prop :=
  table_ok its /\ Forall (fun it => acceptable it = true) its /\ NoDup (map i_name its).

(** The item of the same name is replaced, a new one goes last. *)
Definition put_item (it : agenda_item) (its : list agenda_item) : list agenda_item :=
  match list_find (fun x => i_name x = i_name it) its with
  | Some (k, _) => <[k := it]> its
  | None => its ++ [it]
  end.

Lemma put_item_names it its : NoDup (map i_name its) -> NoDup (map i_name (put_item it its)).
Proof using.
  intros Hd. unfold put_item. change (map i_name ?l) with (i_name <$> l) in *. destruct (list_find _ its) as [[k y]|] eqn:E.
  - apply list_find_Some in E as (Ey & En & _). rewrite list_fmap_insert, list_insert_id; [done|].
    rewrite list_lookup_fmap, Ey. cbn. by rewrite En.
  - rewrite fmap_app. apply list.NoDup_app. split; [done|]. split; [|apply NoDup_singleton]. intros n Hn Hin.
    apply list_elem_of_singleton in Hin. apply list_elem_of_fmap in Hn as (y & -> & Hy).
    apply list_find_None in E. rewrite List.Forall_forall in E.
    apply list_elem_of_In in Hy. by apply (E y Hy).
Qed.

Lemma put_item_all (P : agenda_item -> Prop) it its : P it -> Forall P its -> Forall P (put_item it its).
Proof using.
  intros Hi Hs. unfold put_item. destruct (list_find _ its) as [[k y]|]; [by apply Forall_insert|].
  apply Forall_app_2; [done|by constructor].
Qed.

(** Room for the item. *)
Definition has_room (it : agenda_item) (its : list agenda_item) : Prop :=
  (length (put_item it its) <= AGENDA_MAX_ITEMS)%nat.

Definition shape_ok (a : agenda) : Prop := length (g_item a) = AGENDA_MAX_ITEMS /\ (g_n a <= AGENDA_MAX_ITEMS)%nat.

Lemma items_length a : shape_ok a -> length (items a) = g_n a.
Proof using. intros [Hl Hn]. unfold items. rewrite length_take. lia. Qed.

(** The slot agenda_save chooses, and the table with the item in it. *)
Lemma save_slot a it : shape_ok a ->
  match (match find_item a (i_name it) with
         | Some k => Some (k, g_n a)
         | None => if (AGENDA_MAX_ITEMS <=? g_n a)%nat then None else Some (g_n a, Datatypes.S (g_n a))
         end) with
  | Some (k, n) => has_room it (items a) /\
      items (with_items (<[k := mark_used it]> (g_item a)) n a) = put_item (mark_used it) (items a) /\
      shape_ok (with_items (<[k := mark_used it]> (g_item a)) n a)
  | None => ~ has_room it (items a)
  end.
Proof using.
  intros Hsh. pose proof (items_length a Hsh) as Hil. destruct Hsh as [Hl Hn]. unfold find_item, has_room, put_item, shape_ok.
  change (i_name (mark_used it)) with (i_name it). destruct (list_find _ (items a)) as [[k y]|] eqn:E; cbn [fmap option_fmap option_map fst].
  - apply list_find_Some in E as (Ey & _ & _). pose proof (lookup_lt_Some _ _ _ Ey) as Hk. rewrite length_insert.
    split; [lia|]. unfold items, with_items. cbn [g_item g_n]. rewrite length_insert. split; [|done].
    rewrite take_insert_lt; [done|]. rewrite Hil in Hk. done.
  - rewrite length_app. cbn [length]. destruct (Nat.leb_spec AGENDA_MAX_ITEMS (g_n a)); [lia|]. split; [lia|].
    unfold items, with_items. cbn [g_item g_n]. rewrite length_insert. split; [|lia].
    rewrite (take_S_r _ _ (mark_used it)) by (apply list_lookup_insert_eq; lia). by rewrite take_insert_ge by lia.
Qed.

Lemma agenda_save_refuses x why m : item_typed x -> tool_count tool_table < 2 ^ 16 ->
  acceptable (tidied x) = false ->
  exists rc why', rc <> AGENDA_OK /\ agenda_save tool_table (Some x) why m = Ok (rc, why') m.
Proof using.
  intros (Bn & Bo & Bt & Ba & Hw & Hac & Hp & Hr) Htab Hacc. unfold agenda_save.
  set (w := if zlen why =? 0 then _ else _). assert (Hwl : 0 < zlen w).
  { subst w. destruct (Z.eqb_spec (zlen why) 0); [done|]. pose proof (zlen_nonneg why). lia. }
  fold (tidied x). destruct (copy_text_ok AGENDA_NAME_MAX _ ltac:(done) Bn) as (N1 & N2 & _).
  destruct (copy_text_ok AGENDA_TOOL_MAX _ ltac:(done) Bt) as (T1 & T2 & _).
  destruct (validate_refuses (tidied x) w Hacc Hwl) as (rc & t & Hrc & Ht & E); cbn [tidied i_name i_tool period_ms max_runs].
  - by apply shown_no_nul.
  - by apply shown_no_nul.
  - change AGENDA_NAME_MAX with 32 in *. lia.
  - change AGENDA_TOOL_MAX with 49 in *. lia.
  - unfold AGENDA_MIN_PERIOD_MS. destruct (period_ms x =? 0); lia.
  - unfold AGENDA_MAX_RUNS. destruct (max_runs x =? 0); lia.
  - done.
  - exists rc. eexists. split; [done|]. erewrite bind_ok by (unfold on_array; rewrite E; reflexivity).
    cbn beta iota. by rewrite (proj2 (Z.eqb_neq rc AGENDA_OK)).
Qed.

Lemma mark_used_ok it : (storable (mark_used it) <-> storable it) /\ acceptable (mark_used it) = acceptable it.
Proof using. split; reflexivity. Qed.

Lemma schedule_put it its : schedule_ok its -> has_room it its -> storable it -> acceptable it = true ->
  schedule_ok (put_item (mark_used it) its).
Proof using.
  intros ((_ & Hs) & Ha & Hd) Hr Hst Hacc. destruct (mark_used_ok it) as [H1 H2].
  split; [split|split].
  - revert Hr. unfold has_room, put_item. change (i_name (mark_used it)) with (i_name it).
    destruct (list_find _ its) as [[k y]|]; [by rewrite !length_insert|by rewrite !length_app].
  - apply put_item_all; [by apply H1|done].
  - apply put_item_all; [by rewrite H2|done].
  - by apply put_item_names.
Qed.

Lemma has_room_dec it its : Decision (has_room it its).
Proof using. unfold has_room. apply _. Defined.

Lemma validated it (m : machine S) w : acceptable it = true -> 0 < zlen w ->
  on_array w (validate tool_table (Some it)) m = Ok (AGENDA_OK, patch 0 [0] w) m.
Proof using. intros Ha Hw. unfold on_array. by rewrite validate_ok. Qed.

Lemma agenda_save_full x why m : acceptable (tidied x) = true -> shape_ok (ag m) -> ~ has_room (tidied x) (items (ag m)) ->
  exists why', agenda_save tool_table (Some x) why m = Ok (AGENDA_ENOSPC, why') m.
Proof using.
  intros Hacc Hsh Hfull. unfold agenda_save.
  set (w := if zlen why =? 0 then _ else _). assert (Hwl : 0 < zlen w).
  { subst w. destruct (Z.eqb_spec (zlen why) 0); [done|]. pose proof (zlen_nonneg why). lia. }
  fold (tidied x). rewrite (bind_ok _ _ _ _ _ (validated (tidied x) m w Hacc Hwl)). cbn beta iota.
  change (negb (AGENDA_OK =? AGENDA_OK)) with false. cbn match. erewrite bind_ok by reflexivity.
  pose proof (save_slot (ag m) (tidied x) Hsh) as Hslot. change (copy_text AGENDA_NAME_MAX (i_name x)) with (i_name (tidied x)).
  destruct (match find_item _ _ with Some _ => _ | None => _ end) as [[k n]|]; [tauto|].
  set (b := patch 0 [0] w). assert (Hb : 0 < zlen b) by (unfold b; rewrite zlen_patch; autorewrite with zlen; lia).
  assert (Hp : exists t, prints (lit "the agenda already holds %u items, which is all it holds. Remove one first")
    [VInt (Z.of_nat AGENDA_MAX_ITEMS)] t /\ zlen t < 2 ^ 31).
  { assert (H8 : zlen (decimal (Z.of_nat AGENDA_MAX_ITEMS)) = 1) by reflexivity. eexists. split; [print_args|]. text_length. }
  destruct Hp as (t & Hp & Ht). eexists. erewrite bind_ok; [reflexivity|]. unfold on_array.
  erewrite bind_ok by (apply poke_ok; lia). rewrite (ap_start _ _ _ _ Hp Ht Hb). reflexivity.
Qed.

Lemma agenda_save_stores disk x why m : acceptable (tidied x) = true -> storable (tidied x) -> shape_ok (ag m) ->
  schedule_ok (items (ag m)) -> has_room (tidied x) (items (ag m)) ->
  mounted (vf m) -> uses_store disk m -> openable (vf m) (store_path disk) ->
  spare (fs (vf m)) (doc (put_item (mark_used (tidied x)) (items (ag m)))) ->
  exists why' m1, agenda_save tool_table (Some x) why m = Ok (AGENDA_OK, why') m1 /\
    items (ag m1) = put_item (mark_used (tidied x)) (items (ag m)) /\ shape_ok (ag m1) /\ mounted (vf m1) /\
    stored (vf m1) (store_path disk) (doc (items (ag m1))).
Proof using.
  intros Hacc Hst Hsh Hsch Hroom Hm Hu Ho Hsp. unfold agenda_save.
  set (w := if zlen why =? 0 then _ else _). assert (Hwl : 0 < zlen w).
  { subst w. destruct (Z.eqb_spec (zlen why) 0); [done|]. pose proof (zlen_nonneg why). lia. }
  fold (tidied x). rewrite (bind_ok _ _ _ _ _ (validated (tidied x) m w Hacc Hwl)). cbn beta iota.
  change (negb (AGENDA_OK =? AGENDA_OK)) with false. cbn match. erewrite bind_ok by reflexivity.
  pose proof (save_slot (ag m) (tidied x) Hsh) as Hslot.
  change (copy_text AGENDA_NAME_MAX (i_name x)) with (i_name (tidied x)).
  destruct (match find_item _ _ with Some _ => _ | None => _ end) as [[k n]|]; [|tauto].
  destruct Hslot as (_ & Hit & Hsh'). erewrite bind_ok by reflexivity.
  set (a' := with_items (<[k := mark_used (tidied x)]> (g_item (ag m))) n (ag m)) in *.
  destruct (agenda_flush_ok disk (set_ag a' m)) as (v & E & Hv & Hstd).
  - exact Hm.
  - exact Hu.
  - change (ag (set_ag a' m)) with a'. rewrite Hit. by apply schedule_put.
  - exact Ho.
  - change (ag (set_ag a' m)) with a'. rewrite Hit. exact Hsp.
  - rewrite (bind_ok _ _ _ _ _ E). change (negb (AGENDA_OK =? AGENDA_OK)) with false. cbn match.
    eexists _, _. split; [reflexivity|]. split; [exact Hit|]. split; [exact Hsh'|]. split; [exact Hv|exact Hstd].
Qed.

(** * What survives a reboot *)


Lemma items_upd i f (a : agenda) : (i < g_n a)%nat ->
  items (with_items (alter f i (g_item a)) (g_n a) a) = alter f i (items a).
Proof using. intros Hi. unfold items. cbn [g_item g_n with_items]. by rewrite take_alter_lt. Qed.

Lemma schedule_marked i x its : schedule_ok its -> schedule_ok (alter (set_attempting x) i its).
Proof using.
  intros ((Hl & Hs) & Ha & Hd). split; [split|split].
  - by rewrite length_alter.
  - apply Forall_alter; [done|]. intros it _ Hi. exact Hi.
  - apply Forall_alter; [done|]. intros it _ Hi. exact Hi.
  - change (map i_name ?l) with (i_name <$> l) in *. rewrite (list_fmap_alter i_name _ (fun n => n)) by (by apply Forall_true).
    by rewrite list_alter_id.
Qed.

End Load.

(** ** On a machine that has just booted from memory *)

Definition demo_item : agenda_item :=
  Item (lit "tea") (lit "why not") false AGENDA_WHEN_BOOT AGENDA_DO_SAY true false 0 0 [] (qlit "say `tea` [now]") 0 0 0 0 0 0 0 [].

Definition demo_machine (its : list agenda_item) : machine ramfs :=
  Machine (Agenda (its ++ replicate (8 - length its) zero_item) (length its) true false 0 0 0 true None)
    (Trace 0 0 true []) boot_vfs [] 0 0.

Lemma demo_mounted its : mounted (vf (demo_machine its)).
Proof.
  split; [exact boot_valid|]. intros m Hm. apply list_elem_of_singleton in Hm. subst m. reflexivity.
Qed.
Lemma demo_openable its : openable (vf (demo_machine its)) (store_path false).
Proof.
  right. repeat split; [vm_compute; discriminate|].
  exists [], (lit "agenda.json"), 1%nat. repeat split; [discriminate|vm_compute; discriminate].
Qed.
Lemma demo_typed : item_typed demo_item.
Proof.
  repeat split; try (vm_compute; discriminate); try (vm_compute; reflexivity);
    repeat (apply Forall_cons_2; [split; [vm_compute; discriminate|vm_compute; reflexivity]|]); apply Forall_nil_2.
Qed.


Definition demo_stored : agenda_item := reloaded (tidied demo_item).

Lemma demo_storable : storable demo_stored.
Proof. apply storable_reloaded, (storable_tidied (S := ramfs) []); [exact demo_typed|vm_compute; reflexivity|reflexivity]. Qed.

Lemma demo_room : match mark_attempt 0 (demo_machine [demo_stored]) with
                  | Ok _ m1 => forall c, room (fs (vf m1)) c = true
                  | _ => False
                  end.
Proof. vm_compute. reflexivity. Qed.

