(* ===== verification/AgendaRun.v ===== *)
(** core/agenda.c: the tick. Left to itself the agenda runs dry: whatever the clock says and
    however its actions end, only so many ticks find anything to do. *)

From S2P Require Import Prelude Bytes Json JsonText JsonOut Kfmt KfmtSpec KfmtClaims Paths Vfs VfsSpec VfsClaims Ramfs RamfsSpec RamfsLife.
From S2P Require Import Trace Tool ToolClaims Agenda AgendaLoad.
Open Scope prog_scope.

(** * Filesystems whose calls return *)

(** In every state it can be in, given the handles open on it, the calls the store uses
    return and leave it in such a state. *)
Class FsRuns (S : Type) `{Fs S} := {
  steady : vfs S -> list file -> Prop;
  run_open : forall v hs path fl, steady v hs ->
    exists r v', vfs_open path fl v = Ok r v' /\ steady v' (match r with Some f => f :: hs | None => hs end);
  run_write : forall v hs f buf, steady v (f :: hs) ->
    exists n f' v', vfs_write f buf v = Ok (n, f') v' /\ steady v' (f' :: hs);
  run_close : forall v hs f, steady v (f :: hs) -> exists v', vfs_close f v = Ok tt v' /\ steady v' hs;
  run_stat : forall v hs path, steady v hs -> exists r, vfs_stat path v = Ok r v }.

#[export] Instance ramfs_runs : FsRuns ramfs.
Proof.
  refine {| steady := accounted |}.
  - intros v hs path fl (Hs & Hp & Hf). destruct (open_runs v hs path fl Hs) as (r & v' & E & H1 & H2 & H3).
    exists r, v'. split; [done|]. split; [done|]. split; [|congruence]. destruct r; [|done]. constructor; auto.
  - intros v hs f buf Ha. destruct (write_runs v (f :: hs) 0 f buf Ha eq_refl) as (hs' & v' & E & Ha').
    unfold bind in E. destruct (vfs_write f buf v) as [[n f']| | |]; [|done..]. injection E as <- <-.
    by exists n, f', s.
  - intros v hs f (Hs & Hp & Hf). destruct (close_runs v hs f Hs) as (v' & E & H1 & H2). exists v'. split; [done|].
    split; [done|]. split; [by apply Forall_cons_iff in Hp as [_ Hp]|congruence].
  - intros v hs path (Hs & _). unfold vfs_stat. destruct (resolve_runs v hs path Hs) as [E _].
    erewrite bind_ok by exact E. destruct (resolved v path); by eexists.
Defined.

Section Tick.

Context {S : Type} `{FsRuns S}.
Variable tool_table : list (tool (machine S)).
Variable say : bytes -> prog (machine S) (option Z).

Lemma write_loop_runs fuel : forall v hs f rest, steady v (f :: hs) -> (length rest <= fuel)%nat ->
  exists rc v', write_loop fuel f rest v = Ok rc v' /\ steady v' hs.
Proof using.
  induction fuel as [|fuel IH]; intros v hs f rest Hv Hl.
  - destruct rest; [|cbn in Hl; lia]. destruct (run_close v hs f Hv) as (v' & E & Hv'). cbn [write_loop].
    rewrite (bind_ok _ _ _ _ _ E). by eexists _, _.
  - destruct rest as [|c rest]; cbn [write_loop].
    { destruct (run_close v hs f Hv) as (v' & E & Hv'). rewrite (bind_ok _ _ _ _ _ E). by eexists _, _. }
    destruct (run_write v hs f (c :: rest) Hv) as (n & f' & v1 & E & Hv1). rewrite (bind_ok _ _ _ _ _ E). cbn beta iota.
    destruct (Z.leb_spec n 0).
    + destruct (run_close v1 hs f' Hv1) as (v' & E' & Hv'). rewrite (bind_ok _ _ _ _ _ E'). by eexists _, _.
    + apply IH; [done|]. rewrite length_drop. cbn [length] in *. lia.
Qed.

Lemma file_write_runs v hs path buf : steady v hs -> exists rc v', file_write path buf v = Ok rc v' /\ steady v' hs.
Proof using.
  intros Hv. unfold file_write. destruct (run_open v hs path (Z.lor O_CREAT (Z.lor O_WRONLY O_TRUNC)) Hv) as (r & v1 & E & Hv1).
  rewrite (bind_ok _ _ _ _ _ E). destruct r as [f|]; [|by eexists _, _]. by apply write_loop_runs.
Qed.

(** * States between the steps of a run *)

(** An item whose text can be shown and stored. *)
Definition textual (it : agenda_item) : Prop := printable it /\ fits it /\ 0 <= runs it < 2 ^ 32.

Definition calm (m : machine S) : Prop :=
  steady (vf m) (handles m) /\ shape_ok (ag m) /\ Forall textual (g_item (ag m)).

(** From [m] to [m'] the item in slot [i] became [x], nothing else of the table changed. *)
Definition stage (i : nat) (x : agenda_item) (m m' : machine S) : Prop :=
  g_item (ag m') = <[i := x]> (g_item (ag m)) /\ g_n (ag m') = g_n (ag m) /\ g_on (ag m') = g_on (ag m) /\
  g_running (ag m') = g_running (ag m) /\ g_gdepth m' = g_gdepth m /\ steady (vf m') (handles m').

Lemma stage_refl i x m : g_item (ag m) !! i = Some x -> steady (vf m) (handles m) -> stage i x m m.
Proof using. intros Hi Hs. unfold stage. by rewrite list_insert_id. Qed.

Lemma stage_trans i x y m1 m2 m3 : stage i x m1 m2 -> stage i y m2 m3 -> stage i y m1 m3.
Proof using.
  intros (A1 & A2 & A3 & A4 & A5 & A6) (B1 & B2 & B3 & B4 & B5 & B6).
  unfold stage. rewrite B1, A1, list_insert_insert_eq. repeat split; congruence.
Qed.

Lemma stage_at i x m m' : stage i x m m' -> (i < length (g_item (ag m)))%nat -> g_item (ag m') !! i = Some x.
Proof using. intros (-> & _) Hi. by apply list_lookup_insert_eq. Qed.

Lemma stage_calm i x m m' : calm m -> textual x -> stage i x m m' -> calm m'.
Proof using.
  intros (_ & [Hl Hn] & Ht) Hx (A1 & A2 & _ & _ & _ & A6). split; [done|]. unfold shape_ok. rewrite A1, A2, length_insert.
  split; [done|]. by apply Forall_insert.
Qed.

Lemma agenda_flush_runs i x m : calm m -> g_item (ag m) !! i = Some x ->
  exists rc m', agenda_flush m = Ok rc m' /\ stage i x m m'.
Proof using.
  intros (Hs & [Hl Hn] & Ht) Hi. assert (Hit : Forall textual (items (ag m))) by (by apply Forall_take).
  assert (Hp : Forall printable (items (ag m))) by (revert Hit; apply Forall_impl; by intros ? [? _]).
  assert (Hf : Forall fits (items (ag m))) by (revert Hit; apply Forall_impl; by intros ? (_ & ? & _)).
  pose proof (doc_length _ Hp Hf) as Hdl. rewrite items_length in Hdl by done. specialize (Hdl Hn).
  assert (Hlt : 0 < AGENDA_FILE_MAX < 2 ^ 31) by (split; reflexivity).
  unfold agenda_flush. erewrite bind_ok by reflexivity.
  erewrite bind_ok by (unfold on_array; rewrite render_doc by (assumption || lia); reflexivity). cbn beta iota.
  rewrite (proj2 (Z.leb_gt AGENDA_FILE_MAX _)) by lia.
  assert (Hst : exists path m1, agenda_store m = Ok path m1 /\ stage i x m m1).
  { unfold agenda_store, agenda_persistent. destruct (g_store (ag m)) as [p|] eqn:Eg.
    - erewrite bind_ok by (erewrite bind_ok by reflexivity; rewrite Eg; reflexivity). eexists _, _. split; [reflexivity|].
      by apply stage_refl.
    - destruct (run_stat (vf m) (handles m) FS_DISK_MOUNT Hs) as [r Er].
      erewrite bind_ok.
      2:{ erewrite bind_ok by reflexivity. rewrite Eg. erewrite bind_ok by (unfold on_vf; rewrite Er; reflexivity).
          erewrite bind_ok by reflexivity. reflexivity. }
      eexists _, _. split; [reflexivity|]. unfold stage. cbn. rewrite list_insert_id by done. by repeat split. }
  destruct Hst as (path & m1 & E & Hst). rewrite (bind_ok _ _ _ _ _ E).
  destruct (file_write_runs (vf m1) (handles m1) path (take (Z.to_nat (zlen (doc (items (ag m)))))
    (KfmtSpec.truncated AGENDA_FILE_MAX (doc (items (ag m))) (array AGENDA_FILE_MAX)))) as (rc & v & Ew & Hv); [apply Hst|].
  exists rc, (set_vf v m1). split; [unfold on_vf; rewrite Ew; reflexivity|].
  destruct Hst as (A1 & A2 & A3 & A4 & A5 & A6). by repeat split.
Qed.

Lemma slot_at i x (m : machine S) : g_item (ag m) !! i = Some x -> slot i (ag m) = x.
Proof using. intros Hi. unfold slot. by apply nth_lookup_Some with (d := zero_item) in Hi. Qed.

Lemma upd_item_runs i x f m : steady (vf m) (handles m) -> g_item (ag m) !! i = Some x ->
  exists m', upd_item i f m = Ok tt m' /\ stage i (f x) m m'.
Proof using.
  intros Hs Hi. eexists. split; [reflexivity|]. unfold stage. cbn. split; [|by repeat split].
  apply list_eq. intros j. rewrite list_lookup_alter, list_lookup_insert.
  pose proof (lookup_lt_Some _ _ _ Hi). destruct (decide (i = j)) as [<-|Hj]; [by rewrite Hi, decide_True|].
  by rewrite decide_False by tauto.
Qed.

(** The same instructions. *)
Definition same_plan (x y : agenda_item) : Prop :=
  i_name y = i_name x /\ note y = note x /\ i_tool y = i_tool x /\ arg y = arg x /\ when y = when x /\ act y = act x /\
  period_ms y = period_ms x /\ max_runs y = max_runs x.

(** The item after a step that is not the start of a run. *)
Definition settled (x y : agenda_item) : Prop :=
  same_plan x y /\ runs y = runs x /\ (enabled y = true -> enabled x = true).

Lemma settled_trans x y z : settled x y -> settled y z -> settled x z.
Proof using.
  intros ((A1 & A2 & A3 & A4 & A5 & A6 & A7 & A8) & A9 & A10) ((B1 & B2 & B3 & B4 & B5 & B6 & B7 & B8) & B9 & B10).
  split; [|split; [congruence|auto]]. unfold same_plan. repeat split; congruence.
Qed.

Lemma textual_settled x y : settled x y -> textual x -> textual y.
Proof using.
  intros ((E1 & E2 & E3 & E4 & _ & _ & E5 & E6) & Er & _). unfold textual, printable, fits. by rewrite E1, E2, E3, E4, E5, E6, Er.
Qed.

(** A trace line about the item. *)
Lemma trace_runs v op fmt args T i x m : verdict_ok v -> args_text fmt args T -> steady (vf m) (handles m) ->
  g_item (ag m) !! i = Some x -> exists m', on_tr (trace_says v op fmt args) m = Ok tt m' /\ stage i x m m'.
Proof using.
  intros Hv HT Hs Hi. unfold on_tr. rewrite (trace_says_ok v op fmt args T) by done. eexists. split; [reflexivity|].
  unfold stage. cbn. rewrite list_insert_id by done. by repeat split.
Qed.

Lemma name_text x : textual x -> no_nul (i_name x) /\ zlen (i_name x) < 32.
Proof using. intros ((Hn & _) & (Hl & _) & _). split; [by apply shown_no_nul|done]. Qed.

(** The codes an action can come to. *)
Definition code_ok (code : Z) : Prop := - 2 ^ 31 <= code < 2 ^ 31.

Lemma record_outcome_runs i x code w m : calm m -> g_item (ag m) !! i = Some x -> code_ok code ->
  exists m' y, record_outcome i code w m = Ok tt m' /\ stage i y m m' /\ settled x y.
Proof using.
  intros Hc Hi Hcode. pose proof Hc as (Hs & _ & Ht).
  assert (Hx : textual x) by (eapply Forall_lookup_1 in Ht; done). destruct (name_text x Hx) as [Nn Nl].
  unfold record_outcome. erewrite bind_ok by reflexivity. rewrite (slot_at i x m Hi).
  destruct (Z.eqb_spec code AGENDA_OK) as [->|Hne].
  - destruct (upd_item_runs i x (set_stats (runs x) 0 (total_failures x) (escapes x) (last_ms x) (next_ms x) AGENDA_OK w) m Hs Hi)
      as (m1 & E1 & S1). rewrite (bind_ok _ _ _ _ _ E1).
    set (y := set_stats _ _ _ _ _ _ _ _ x) in *.
    assert (Hy : settled x y) by (by repeat split).
    destruct (trace_runs (Returned (runs x)) (Some (lit "agenda.done")) (Some (lit "%s ok")) [arg_str (i_name x)]
      (i_name x ++ lit " ok") i y m1) as (m2 & E2 & S2).
    + destruct Hx as (_ & _ & Hr). cbn. unfold int64. lia.
    + split; [apply prints_s; [done|unfold INT_MAX; lia|]; repeat print_plain; apply prints_nil|].
      autorewrite with zlen. change (zlen (lit " ok")) with 3. lia.
    + apply S1.
    + eapply stage_at; [done|]. by eapply lookup_lt_Some.
    + exists m2, y. split; [exact E2|]. split; [by eapply stage_trans|done].
  - set (f := set_stats (runs x) (wrap32 (failures x + 1)) (wrap32 (total_failures x + 1)) (escapes x) (last_ms x) (next_ms x) code w).
    destruct (upd_item_runs i x f m Hs Hi) as (m1 & E1 & S1). rewrite (bind_ok _ _ _ _ _ E1).
    erewrite bind_ok by reflexivity. set (m1' := set_ag _ m1).
    assert (S1' : stage i (f x) m m1') by exact S1.
    destruct (trace_runs (Failed code) (Some (lit "agenda.done")) (Some (lit "%s fail=%u"))
      [arg_str (i_name x); VInt (wrap32 (failures x + 1))] (i_name x ++ lit " fail=" ++ decimal (wrap32 (failures x + 1)) ++ [])
      i (f x) m1') as (m2 & E2 & S2).
    + exact Hcode.
    + pose proof (wrap_range 32 (failures x + 1) ltac:(lia)) as Hw. split.
      * apply prints_s; [done|unfold INT_MAX; lia|]. do 6 print_plain. apply prints_u; [done|apply prints_nil].
      * pose proof (decimal_short (wrap32 (failures x + 1)) 10 ltac:(lia) ltac:(change (10 ^ Z.of_nat 10) with 10000000000; lia)).
        autorewrite with zlen. change (zlen (lit " fail=")) with 6. change (zlen (@nil Z)) with 0. lia.
    + apply S1'.
    + eapply stage_at; [exact S1'|]. by eapply lookup_lt_Some.
    + exists m2, (f x). split; [exact E2|]. split; [by eapply stage_trans|by repeat split].
Qed.

Lemma retire_runs i x now m : steady (vf m) (handles m) -> g_item (ag m) !! i = Some x ->
  exists d m' y, retire i now m = Ok d m' /\ stage i y m m' /\ settled x y.
Proof using.
  intros Hs Hi. unfold retire. erewrite bind_ok by reflexivity. rewrite (slot_at i x m Hi).
  assert (Ho : forall d, exists m' y, (upd_item i (set_enabled false) ;;; ret (d : bool)) m = Ok d m' /\ stage i y m m' /\ settled x y).
  { intros d. destruct (upd_item_runs i x (set_enabled false) m Hs Hi) as (m1 & E1 & S1).
    exists m1, (set_enabled false x). split; [by rewrite (bind_ok _ _ _ _ _ E1)|]. split; [done|]. by repeat split. }
  do 4 (match goal with |- context [if ?c then _ else _] => destruct c end; [eexists; apply Ho|]).
  match goal with |- context [upd_item i ?f] => destruct (upd_item_runs i x f m Hs Hi) as (m1 & E1 & S1) end.
  eexists _, m1, _. split; [by rewrite (bind_ok _ _ _ _ _ E1)|]. split; [exact S1|]. by repeat split.
Qed.

(** The end of a run: the outcome recorded, the item retired or rearmed, the store told. *)
Definition finish (i : nat) (now code : Z) (w : bytes) : prog (machine S) Z :=
  record_outcome i code w ;;;
  durable <- retire i now ;;
  (if durable : bool then agenda_flush ;;; ret tt else ret tt) ;;;
  ret code.

Lemma finish_runs i x now code w m : calm m -> g_item (ag m) !! i = Some x -> code_ok code ->
  exists m' y, finish i now code w m = Ok code m' /\ stage i y m m' /\ settled x y.
Proof using.
  intros Hc Hi Hcode. pose proof Hc as (Hs & [Hl _] & Ht).
  assert (Hx : textual x) by (eapply Forall_lookup_1 in Ht; done). pose proof (lookup_lt_Some _ _ _ Hi) as Hlt.
  destruct (record_outcome_runs i x code w m Hc Hi Hcode) as (m1 & y1 & E1 & S1 & P1).
  unfold finish. rewrite (bind_ok _ _ _ _ _ E1). pose proof (stage_at _ _ _ _ S1 Hlt) as Hi1.
  destruct (retire_runs i y1 now m1) as (d & m2 & y2 & E2 & S2 & P2); [apply S1|exact Hi1|].
  rewrite (bind_ok _ _ _ _ _ E2). pose proof (settled_trans _ _ _ P1 P2) as P12. pose proof (stage_trans _ _ _ _ _ _ S1 S2) as S12.
  destruct d.
  - destruct (agenda_flush_runs i y2 m2) as (rc & m3 & E3 & S3).
    + eapply stage_calm; [exact Hc| |exact S12]. by eapply textual_settled.
    + by eapply stage_at.
    + rewrite (bind_ok (agenda_flush ;;; ret tt) _ _ _ _ (bind_ok _ _ _ _ _ E3)).
      exists m3, y2. split; [reflexivity|]. split; [by eapply stage_trans|done].
  - erewrite bind_ok by reflexivity. by exists m2, y2.
Qed.

(** * What an action may do *)

(** The agenda and the depth of guards as before, the filesystem in order. *)
Definition frame (m m' : machine S) : Prop :=
  ag m' = ag m /\ g_gdepth m' = g_gdepth m /\ steady (vf m') (handles m').

(** Actions that return or fault, and leave the agenda alone. *)
Definition quiet : Prop :=
  (forall t f, t ∈ tool_table -> invoke t = Some f -> forall m, handler_keeps (frame m) f) /\
  (forall txt m, steady (vf m) (handles m) -> exists rc m', say txt m = Ok rc m' /\ frame m m').

Lemma run_body_runs i x m : quiet -> steady (vf m) (handles m) -> g_item (ag m) !! i = Some x -> textual x ->
  exists r m', run_body tool_table say i m = Ok r m' /\ frame m m' /\ (forall code res, r = Some (code, res) -> code_ok code).
Proof using.
  intros [Qt Qs] Hs Hi Hx. unfold run_body. erewrite bind_ok by reflexivity. rewrite (slot_at i x m Hi).
  assert (Hf : frame m m) by done. destruct (act x =? AGENDA_DO_SAY).
  - erewrite bind_ok by reflexivity. destruct (g_say (ag m)); cbn [negb].
    2:{ eexists _, m. split; [reflexivity|]. split; [done|]. by intros ? ? [= <- _]. }
    destruct (Qs (arg x) m Hs) as (rc & m' & E & Hf'). rewrite (bind_ok _ _ _ _ _ E). destruct rc as [rc|].
    + eexists _, m'. split; [reflexivity|]. split; [done|]. intros ? ? [= <- _]. destruct (rc =? 0); [done|].
      by destruct (rc =? CHAT_EREENTER).
    + eexists _, m'. split; [reflexivity|]. split; [done|]. by intros.
  - unfold tool_result_init. change (512 =? 0) with false. cbn match.
    assert (H512 : zlen (array 512) = 512) by reflexivity. rewrite poke_ok by lia. cbn match.
    set (r0 := Result _ _ _ _ _). set (call := Call _ _ _).
    assert (Hr0 : result_ok r0).
    { split; [cbn; lia|]. unfold r0. cbn [buf cap]. rewrite zlen_patch; [by rewrite H512|lia|rewrite H512; done]. }
    destruct Hx as ((_ & _ & Ht & _) & (_ & _ & Lt & _) & _). change AGENDA_TOOL_MAX with 49 in Lt.
    destruct (dispatch_keeps (frame m) tool_table call m r0) as (rc & m' & r' & ls & E & _ & _ & _ & Hf' & _).
    + intros y z (A1 & A2 & A3). done.
    + intros t f Hin Hiv. by apply Qt with t.
    + done.
    + done.
    + cbn. by apply shown_no_nul.
    + change (default [] (call_name call)) with (i_tool x). lia.
    + rewrite E. destruct rc as [rc|]; eexists _, m'; (split; [reflexivity|]); (split; [done|]); [|by intros].
      intros ? ? [= <- _]. destruct (rc =? TOOL_ENOENT); [done|]. destruct (rc =? TOOL_OK); cbn [negb]; [|done].
      by destruct (is_error r').
Qed.

Lemma guard_runs i x m : quiet -> steady (vf m) (handles m) -> g_item (ag m) !! i = Some x -> textual x ->
  g_gdepth m < FAULT_GUARD_DEPTH_MAX ->
  (exists g c m', fault_guard_run (run_body tool_table say i) m = Ok (g, c) m' /\ frame m m' /\
     (g = FAULT_GUARD_ESCAPED \/ exists code res, g = FAULT_GUARD_OK /\ c = Some (code, res) /\ code_ok code)) \/
  fault_guard_run (run_body tool_table say i) m = Panic "fatal exception".
Proof using.
  intros Q Hs Hi Hx Hd. unfold fault_guard_run. erewrite bind_ok by reflexivity.
  rewrite (proj2 (Z.leb_gt FAULT_GUARD_DEPTH_MAX _)) by done. erewrite bind_ok by reflexivity.
  set (m0 := set_gdepth _ m). destruct (run_body_runs i x m0 Q Hs Hi Hx) as (r & m1 & E & (F1 & F2 & F3) & Hcode).
  rewrite (bind_ok _ _ _ _ _ E). destruct r as [[code res]|].
  - left. erewrite bind_ok by reflexivity. eexists _, _, _. split; [reflexivity|]. split; [done|]. right. eauto 6.
  - erewrite bind_ok by reflexivity. destruct (FAULT_ESCAPE_MAX <=? fault_escapes m1); [by right|]. left.
    erewrite bind_ok by reflexivity. eexists _, _, _. split; [reflexivity|]. split; [done|]. by left.
Qed.

Lemma settle_runs i x now g c m : calm m -> g_item (ag m) !! i = Some x ->
  (g = FAULT_GUARD_ESCAPED \/ exists code res, g = FAULT_GUARD_OK /\ c = Some (code, res) /\ code_ok code) ->
  exists rc m' y, settle i now g c m = Ok rc m' /\ stage i y m m' /\ settled x y.
Proof using.
  intros Hc Hi Hg. pose proof Hc as (Hs & [Hl _] & Ht). pose proof (lookup_lt_Some _ _ _ Hi) as Hlt.
  assert (Hx : textual x) by (eapply Forall_lookup_1 in Ht; done).
  unfold settle. erewrite bind_ok by reflexivity. rewrite (slot_at i x m Hi).
  destruct Hg as [-> |(code & res & -> & -> & Hcode)].
  - change (FAULT_GUARD_ESCAPED =? FAULT_GUARD_ESCAPED) with true. cbn match.
    set (f := set_stats (runs x) (failures x) (total_failures x) (wrap32 (escapes x + 1)) (last_ms x) (next_ms x) (last_rc x) (last_why x)).
    destruct (upd_item_runs i x f m Hs Hi) as (m1 & E1 & S1). rewrite (bind_ok _ _ _ _ _ E1).
    erewrite bind_ok by reflexivity. set (m1' := set_ag _ m1). assert (S1' : stage i (f x) m m1') by exact S1.
    assert (Hfx : settled x (f x)) by (by repeat split).
    destruct (finish_runs i (f x) now AGENDA_EFAULT (copy_text AGENDA_WHY_MAX
      (lit "a fatal CPU exception abandoned this action's call chain; the machine survived and the fault is in the fault ring")) m1')
      as (m2 & y & E2 & S2 & P2).
    + eapply stage_calm; [exact Hc| |exact S1']. by eapply textual_settled.
    + by eapply stage_at.
    + done.
    + exists AGENDA_EFAULT, m2, y. split; [exact E2|]. split; [by eapply stage_trans|by eapply settled_trans].
  - change (FAULT_GUARD_OK =? FAULT_GUARD_ESCAPED) with false. cbn match.
    match goal with |- context [first_line ?cap ?w] => destruct (finish_runs i x now code (first_line cap w) m Hc Hi Hcode) as (m2 & y & E2 & S2 & P2) end.
    exists code, m2, y. done.
Qed.

(** * The tick *)

(** The item after a run: the same instructions; still on only if it was, with one run used. *)
Definition ran (x y : agenda_item) : Prop :=
  same_plan x y /\ 0 <= runs y < 2 ^ 32 /\ (enabled y = true -> enabled x = true /\ runs y = runs x + 1).

Lemma textual_ran x y : ran x y -> textual x -> textual y.
Proof using.
  intros ((E1 & E2 & E3 & E4 & _ & _ & E5 & E6) & Er & _) (Hp & Hf & _). unfold textual, printable, fits.
  rewrite E1, E2, E3, E4, E5, E6. by split.
Qed.

Lemma run_item_runs i x now m : quiet -> calm m -> g_item (ag m) !! i = Some x -> runs x < max_runs x ->
  when x <> AGENDA_WHEN_BOOT -> g_on (ag m) = true -> g_running (ag m) = false -> g_gdepth m < FAULT_GUARD_DEPTH_MAX ->
  (exists rc m' y, run_item tool_table say i now m = Ok rc m' /\ stage i y m m' /\ ran x y) \/
  run_item tool_table say i now m = Panic "fatal exception".
Proof using.
  intros Q Hc Hi Hruns Hw Hon Hrun Hd. pose proof Hc as (Hs & [Hl _] & Ht). pose proof (lookup_lt_Some _ _ _ Hi) as Hlt.
  assert (Hx : textual x) by (eapply Forall_lookup_1 in Ht; done). destruct (name_text x Hx) as [Nn Nl].
  pose proof Hx as ((_ & _ & _ & _ & _ & Hmr) & _ & Hr).
  unfold run_item. erewrite bind_ok by reflexivity. rewrite Hon, Hrun. cbn [negb].
  destruct (AGENDA_MAX_RUNS_TOTAL <=? g_runs (ag m)).
  { left. destruct (upd_item_runs i x (set_enabled false) m Hs Hi) as (m1 & E1 & S1). rewrite (bind_ok _ _ _ _ _ E1).
    exists AGENDA_ERETIRED, m1, (set_enabled false x). split; [done|]. split; [done|]. by repeat split; cbn; try lia. }
  erewrite bind_ok by reflexivity. set (m0 := set_ag _ m).
  destruct (upd_item_runs i x (started now) m0 Hs Hi) as (m1 & E1 & S1). rewrite (bind_ok _ _ _ _ _ E1).
  set (x1 := started now x) in *. erewrite bind_ok by reflexivity.
  assert (Hi1 : g_item (ag m1) !! i = Some x1) by (by eapply stage_at). rewrite (slot_at i x1 m1 Hi1).
  assert (Hr1 : runs x1 = runs x + 1) by (unfold x1; cbn; apply wrap_small; lia).
  assert (Hran : ran x x1).
  { split; [by repeat split|]. rewrite Hr1. split; [lia|]. done. }
  pose proof (textual_ran x x1 Hran Hx) as Hx1.
  destruct (trace_runs Success (Some (lit "agenda.run")) (Some (lit "%s %s %s runs=%u"))
    [arg_str (i_name x1); arg_str (agenda_when_name (when x1)); arg_str (agenda_act_name (act x1)); VInt (runs x1)]
    (i_name x1 ++ lit " " ++ agenda_when_name (when x1) ++ lit " " ++ agenda_act_name (act x1) ++ lit " runs=" ++ decimal (runs x1) ++ [])
    i x1 m1) as (m2 & E2 & S2); [done| |apply S1|exact Hi1|].
  { destruct (words_length x1) as [Lw La]. change (i_name x1) with (i_name x). split.
    - apply prints_s; [done|unfold INT_MAX; lia|]. print_plain.
      apply prints_s; [apply shown_no_nul, shown_when|unfold INT_MAX; lia|]. print_plain.
      apply prints_s; [apply shown_no_nul, shown_act|unfold INT_MAX; lia|]. do 6 print_plain.
      apply prints_u; [lia|apply prints_nil].
    - pose proof (decimal_short (runs x1) 10 ltac:(lia) ltac:(change (10 ^ Z.of_nat 10) with 10000000000; lia)).
      autorewrite with zlen. change (zlen (lit " ")) with 1. change (zlen (lit " runs=")) with 6. change (zlen (@nil Z)) with 0. lia. }
  change (trace_ok (Some (lit "agenda.run"))) with (trace_says Success (Some (lit "agenda.run"))).
  rewrite (bind_ok _ _ _ _ _ E2). pose proof (stage_trans _ _ _ _ _ _ S1 S2) as S02.
  assert (Hi2 : g_item (ag m2) !! i = Some x1) by (by eapply stage_at).
  assert (Em : mark_attempt i m2 = Ok false m2).
  { unfold mark_attempt. erewrite bind_ok by reflexivity. rewrite (slot_at i x1 m2 Hi2). change (when x1) with (when x).
    by rewrite (proj2 (Z.eqb_neq _ _)) by done. }
  rewrite (bind_ok _ _ _ _ _ Em). destruct S02 as (A1 & A2 & A3 & A4 & A5 & A6).
  destruct (guard_runs i x1 m2 Q A6 Hi2 Hx1) as [(g & c & m3 & E3 & (F1 & F2 & F3) & Hg)|Ep].
  { rewrite A5. exact Hd. }
  2:{ right. unfold bind at 1. by rewrite Ep. }
  left. rewrite (bind_ok _ _ _ _ _ E3). cbn [fst snd clear_attempt]. erewrite bind_ok by reflexivity. erewrite bind_ok by reflexivity.
  set (m4 := set_ag _ m3).
  assert (S4 : stage i x1 m m4).
  { unfold stage, m4. cbn [ag set_ag set_running g_item g_n g_on g_running g_gdepth vf handles]. rewrite F1, F2, A1, A2, A3, A5.
    repeat split; auto. }
  destruct (settle_runs i x1 now g c m4) as (rc & m5 & y & E5 & S5 & P5).
  - by eapply stage_calm.
  - by eapply stage_at.
  - done.
  - exists rc, m5, y. split; [exact E5|]. split; [by eapply stage_trans|].
    destruct P5 as (P1 & P2 & P3). split; [|split; [rewrite P2; lia|]].
    + destruct P1 as (B1 & B2 & B3 & B4 & B5 & B6 & B7 & B8). unfold same_plan. by rewrite B1, B2, B3, B4, B5, B6, B7, B8.
    + intros Hy. split; [|congruence]. by apply P3 in Hy.
Qed.

(** Runs an item may still use. *)
Definition weight (x : agenda_item) : Z :=
  if enabled x && negb (when x =? AGENDA_WHEN_BOOT) then Z.max 0 (max_runs x - runs x) else 0.
Definition budget (a : agenda) : Z := foldr (fun x n => weight x + n) 0 (items a).

Lemma weight_bounds x : 0 <= weight x /\ (0 <= runs x -> max_runs x <= AGENDA_MAX_RUNS -> weight x <= AGENDA_MAX_RUNS).
Proof using. unfold weight, AGENDA_MAX_RUNS. destruct (_ && _); lia. Qed.

Lemma budget_insert i x y l : l !! i = Some x ->
  foldr (fun x n => weight x + n) 0 (<[i := y]> l) = foldr (fun x n => weight x + n) 0 l - weight x + weight y.
Proof using.
  revert i. induction l as [|z l IH]; intros [|i] Hi; [done|done| |].
  - injection Hi as ->. change (<[0%nat := y]> (x :: l)) with (y :: l). cbn [foldr]. lia.
  - change (<[Datatypes.S i := y]> (z :: l)) with (z :: <[i := y]> l). cbn [foldr]. rewrite (IH i Hi). lia.
Qed.

Lemma weight_ran now x y : due now x = true -> ran x y -> weight y <= weight x - 1.
Proof using.
  unfold due. intros Hd ((_ & _ & _ & _ & Ew & _ & _ & Em) & _ & He). b2p.
  repeat match goal with Hx : _ && _ = true |- _ => apply andb_true_iff in Hx as [Hx ?] end. b2p.
  unfold weight. rewrite Ew, Em.
  repeat match goal with Hx : enabled x = true |- _ => rewrite Hx end.
  rewrite (proj2 (Z.eqb_neq (when x) _)) by done. cbn [negb andb]. destruct (enabled y); cbn [andb]; [|lia].
  destruct (He eq_refl) as [_ ->]. lia.
Qed.

Definition idle (m : machine S) : Prop :=
  calm m /\ g_running (ag m) = false /\ g_gdepth m < FAULT_GUARD_DEPTH_MAX.

Lemma tick_runs now m : quiet -> idle m ->
  (exists n m', agenda_tick tool_table say now m = Ok n m' /\ idle m' /\ 0 <= n /\ budget (ag m') + n <= budget (ag m)) \/
  agenda_tick tool_table say now m = Panic "fatal exception".
Proof using.
  intros Q Hidle. pose proof Hidle as (Hc & Hrun & Hd). unfold agenda_tick. erewrite bind_ok by reflexivity.
  rewrite Hrun. destruct (g_on (ag m)) eqn:Hon; cbn [negb orb].
  2:{ left. exists 0, m. split; [done|]. split; [done|]. lia. }
  unfold pick_due. destruct (list_find _ (items (ag m))) as [[i x]|] eqn:El; cbn [fmap option_fmap option_map fst].
  2:{ left. exists 0, m. split; [done|]. split; [done|]. lia. }
  apply list_find_Some in El as (Hi & Hdue & _). pose proof Hi as Hi'. unfold items in Hi'. apply lookup_take_Some in Hi' as [Hg Hn].
  assert (Hdx : runs x < max_runs x /\ when x <> AGENDA_WHEN_BOOT).
  { unfold due in Hdue. repeat match goal with Hx : _ && _ = true |- _ => apply andb_true_iff in Hx as [Hx ?] end. b2p. done. }
  destruct (run_item_runs i x now m Q Hc Hg (proj1 Hdx) (proj2 Hdx) Hon Hrun Hd) as [(rc & m' & y & E & Hst & Hr)|E].
  2:{ right. unfold bind. by rewrite E. }
  left. rewrite (bind_ok _ _ _ _ _ E). exists 1, m'. split; [done|].
  pose proof Hst as (A1 & A2 & A3 & A4 & A5 & A6). split; [|split; [lia|]].
  - split; [|split; congruence]. eapply stage_calm; [exact Hc| |exact Hst]. eapply textual_ran; [exact Hr|].
    destruct Hc as (_ & _ & Ht). by eapply Forall_lookup_1 in Ht.
  - unfold budget, items. rewrite A1, A2, take_insert_lt by done. rewrite (budget_insert i x y) by exact Hi.
    pose proof (weight_ran now x y Hdue Hr). fold (items (ag m)). lia.
Qed.

(** The idle loop: the number of ticks that found something to do. *)
Fixpoint ticks (ts : list Z) : prog (machine S) Z :=
  match ts with
  | [] => ret 0
  | now :: ts => n <- agenda_tick tool_table say now ;; k <- ticks ts ;; ret (n + k)
  end.

End Tick.

(** * On a machine with one tool *)

Definition beep : handler (machine ramfs) := fun _ =>
  on_result (tool_result_printf (lit "ok then") []) ;;; ret (Some 0).
Definition demo_table : list (tool (machine ramfs)) :=
  [Tool (Some (lit "beep")) (Some (lit "makes a noise")) (Some (lit "{}")) 0 (Some beep) None].
Definition demo_say (_ : bytes) : prog (machine ramfs) (option Z) := ret (Some 0).

Lemma demo_quiet : quiet demo_table demo_say.
Proof.
  split; [|intros txt m Hs; by exists (Some 0), m].
  intros t f Ht Ef m. apply list_elem_of_singleton in Ht. subst t. injection Ef as <-. intros call x r Hf Hr.
  destruct (printf_appends (lit "ok then") [] (lit "ok then") r Hr) as (k & r' & E & Ha); [|done|].
  { do 7 print_plain. apply prints_nil. }
  destruct Ha as [A1 A2 _ _ _]. exists (Some 0), x, r', []. split.
  { unfold beep. erewrite bind_ok by (unfold on_result; cbn [fst snd]; rewrite E; reflexivity). done. }
  split; [done|]. split; [done|]. split; [|split; [done|split; [|done]]].
  - split; [by rewrite app_nil_r|done].
  - by intros ? [= <-].
Qed.

Definition demo_job (name : string) (w : Z) : agenda_item :=
  Item (lit name) [] false w AGENDA_DO_TOOL true false 10000 2 (lit "beep") (lit "{}") 0 0 0 0 0 0 0 [].


(** The statics as a boot sets them up, the filesystems as they were. *)
Definition reboot (m : machine ramfs) : machine ramfs :=
  Machine (Agenda (replicate 8 zero_item) 0 true false 0 0 0 true None) (Trace 0 0 true []) (vf m) [] 0 0.

(** Save two boot items, boot, boot again: what each boot ran and what the second loaded. *)
Definition two_boots : prog (machine ramfs) (Z * Z * list (bytes * bool)) :=
  agenda_save demo_table (Some (demo_job "first" AGENDA_WHEN_BOOT)) [] ;;;
  agenda_save demo_table (Some (demo_job "second" AGENDA_WHEN_BOOT)) [] ;;;
  modify reboot ;;; n1 <- agenda_bringup demo_table demo_say 0 ;;
  modify reboot ;;; agenda_load demo_table ;;;
  its <- gets (fun m => map (fun it => (i_name it, enabled it)) (items (ag m))) ;;
  modify reboot ;;; n2 <- agenda_bringup demo_table demo_say 0 ;;
  ret (n1, n2, its).

