(* ===== verification/Block.v ===== *)
(** drivers/block/block.c: the block layer. A disk driver is reached through its
    operation table, the class [BlockOps]; what a filesystem relies on is [DiskLaws]. *)

From S2P Require Import Prelude Bytes.

(** ** Computations that return an error code *)

(** A routine that returns a code first and stores its result through a pointer:
    [inl rc] is [return rc] with [rc] an error. *)
Definition io (S A : Type) := S -> (Z + A) * S.

Definition iret {S A} (a : A) : io S A := fun s => (inr a, s).
Definition ifail {S A} (rc : Z) : io S A := fun s => (inl rc, s).
Definition ibind {S A B} (m : io S A) (k : A -> io S B) : io S B := fun s =>
  match m s with (inl rc, s) => (inl rc, s) | (inr a, s) => k a s end.
Definition iget {S A} (f : S -> A) : io S A := fun s => (inr (f s), s).
Definition iset {S} (f : S -> S) : io S unit := fun s => (inr tt, f s).

Declare Scope io_scope.
Delimit Scope io_scope with io.
Notation "x <- m ;; k" := (ibind m (fun x => k))
  (at level 100, m at next level, right associativity) : io_scope.
Notation "m ;;; k" := (ibind m (fun _ => k))
  (at level 100, right associativity) : io_scope.
Open Scope io_scope.

(** ** Constants (include/block.h) *)

Definition BLOCK_OK := 0.
Definition BLOCK_EIO := -5.
Definition BLOCK_EINVAL := -22.
Definition BLOCK_ENOSPC := -28.
Definition BLOCK_EROFS := -30.
Definition SECTOR : Z := 512.

(** ** Devices *)

(** [ops_read lba count] returns a code and what it stored in the buffer; an operation
    that is NULL is [None]. *)
Class BlockOps (D : Type) := {
  ops_read : Z -> Z -> D -> Z * bytes * D;
  ops_write : option (Z -> Z -> bytes -> D -> Z * D);
  ops_flush : option (D -> Z * D) }.

Record block_device (D : Type) := BlockDevice {
  bd_sectors : Z; bd_read_only : bool; bd_drv : D;
  bd_reads : Z; bd_writes : Z; bd_flushes : Z; bd_errors : Z }.
Arguments BlockDevice {D}. Arguments bd_sectors {D}. Arguments bd_read_only {D}.
Arguments bd_drv {D}. Arguments bd_reads {D}. Arguments bd_writes {D}.
Arguments bd_flushes {D}. Arguments bd_errors {D}.

Section Block.
Context {D : Type} `{BlockOps D}.
Implicit Types (bd : block_device D).

Definition bd_put bd (drv : D) (r w f e : Z) : block_device D :=
  BlockDevice (bd_sectors bd) (bd_read_only bd) drv
    (wrap64 (bd_reads bd + r)) (wrap64 (bd_writes bd + w))
    (wrap64 (bd_flushes bd + f)) (wrap64 (bd_errors bd + e)).

Definition bd_error {A} (rc : Z) : io (block_device D) A := fun bd =>
  (inl rc, bd_put bd (bd_drv bd) 0 0 0 1).

(** A device and a buffer are given. *)
Definition check_range (lba count : Z) bd : Z :=
  if count =? 0 then BLOCK_EINVAL
  else if bd_sectors bd <=? lba then BLOCK_ENOSPC
  else if bd_sectors bd - lba <? count then BLOCK_ENOSPC
  else BLOCK_OK.

Definition block_read (lba count : Z) : io (block_device D) bytes := fun bd =>
  let rc := check_range lba count bd in
  if negb (rc =? BLOCK_OK) then bd_error rc bd
  else
    let '(rc, buf, drv) := ops_read lba count (bd_drv bd) in
    if negb (rc =? BLOCK_OK) then (inl rc, bd_put bd drv 0 0 0 1)
    else (inr buf, bd_put bd drv count 0 0 0).

Definition block_write (lba count : Z) (buf : bytes) : io (block_device D) unit := fun bd =>
  let rc := check_range lba count bd in
  if negb (rc =? BLOCK_OK) then bd_error rc bd
  else if bd_read_only bd then bd_error BLOCK_EROFS bd
  else match ops_write with
       | None => bd_error BLOCK_EROFS bd
       | Some op =>
           let '(rc, drv) := op lba count buf (bd_drv bd) in
           if negb (rc =? BLOCK_OK) then (inl rc, bd_put bd drv 0 0 0 1)
           else (inr tt, bd_put bd drv 0 count 0 0)
       end.

Definition block_flush : io (block_device D) unit := fun bd =>
  match ops_flush with
  | None => (inr tt, bd)
  | Some op =>
      let '(rc, drv) := op (bd_drv bd) in
      if negb (rc =? BLOCK_OK) then (inl rc, bd_put bd drv 0 0 0 1)
      else (inr tt, bd_put bd drv 0 0 1 0)
  end.

End Block.

(** ** What a filesystem relies on *)

(** The [k]-th sector's worth of a transfer buffer. *)
Definition chunk (buf : bytes) (k : Z) : bytes :=
  take 512 (drop (Z.to_nat (k * SECTOR)) buf).

(** include/block.h: a read that succeeds delivers the sectors and changes none; a
    write that succeeds replaces exactly the sectors asked for. A sector write is
    all-or-nothing (fs/fat/fat.h), so after a failed write each of them is either as
    before or as asked. *)
Class DiskLaws (D : Type) `{BlockOps D} := {
  capacity : D -> Z;
  sector : D -> Z -> bytes;
  law_sector_len : forall d i, zlen (sector d i) = SECTOR;
  law_sector_bytes : forall d i, Forall byte_ok (sector d i);
  law_disk_read : forall d lba n, 0 <= lba -> 0 < n -> lba + n <= capacity d ->
    let '(rc, buf, d') := ops_read lba n d in
    capacity d' = capacity d /\ (forall i, sector d' i = sector d i) /\
    (rc = BLOCK_OK -> zlen buf = n * SECTOR /\
       forall k, 0 <= k < n -> chunk buf k = sector d (lba + k));
  law_disk_write : forall op, ops_write = Some op ->
    forall d lba n buf, 0 <= lba -> 0 < n -> lba + n <= capacity d ->
    zlen buf = n * SECTOR -> Forall byte_ok buf ->
    let '(rc, d') := op lba n buf d in
    capacity d' = capacity d /\
    (forall i, ~ (lba <= i < lba + n) -> sector d' i = sector d i) /\
    (forall k, 0 <= k < n -> sector d' (lba + k) = chunk buf k \/
                             (rc <> BLOCK_OK /\ sector d' (lba + k) = sector d (lba + k)));
  law_disk_flush : forall op, ops_flush = Some op -> forall d,
    let '(rc, d') := op d in
    capacity d' = capacity d /\ forall i, sector d' i = sector d i }.
