(* ===== verification/RamDisk.v ===== *)
(** A disk in memory that can be told to fail: a device that keeps the contract of the
    block layer, on which the filesystem can be run. *)

From S2P Require Import Prelude Bytes Block.

(** [faults] says, for each coming transfer, whether it fails. *)
Record ramdisk := RamDisk { secs : list bytes; faults : list bool }.

(** A stored sector, as 512 bytes. *)
Definition norm (b : bytes) : bytes := take 512 (map wrap8 b ++ replicate 512 0).
Definition ram_sector (d : ramdisk) (i : Z) : bytes :=
  norm (if i <? 0 then [] else nth (Z.to_nat i) (secs d) []).

Definition next_fault (d : ramdisk) : bool := default false (head (faults d)).
Definition later (d : ramdisk) : ramdisk := RamDisk (secs d) (tail (faults d)).

Definition read_from (d : ramdisk) (lba : Z) (n : nat) : bytes :=
  concat (map (fun k => ram_sector d (lba + Z.of_nat k)) (seq 0 n)).

Fixpoint write_at (lba : nat) (n : nat) (buf : bytes) (l : list bytes) : list bytes :=
  match n with
  | O => l
  | S n => <[lba := take 512 buf]> (write_at (S lba) n (drop 512 buf) l)
  end.

#[export] Instance ram_ops : BlockOps ramdisk := {
  ops_read lba n d :=
    if next_fault d then (BLOCK_EIO, [], later d)
    else (BLOCK_OK, read_from d lba (Z.to_nat n), later d);
  ops_write := Some (fun lba n buf d =>
    if next_fault d then (BLOCK_EIO, later d)
    else (BLOCK_OK, RamDisk (write_at (Z.to_nat lba) (Z.to_nat n) buf (secs d)) (tail (faults d))));
  ops_flush := None }.

Lemma norm_len b : length (norm b) = 512%nat.
Proof. unfold norm. rewrite length_take, length_app, length_replicate. lia. Qed.

Lemma norm_bytes b : Forall byte_ok (norm b).
Proof.
  unfold norm. apply Forall_take, Forall_app. split.
  - apply List.Forall_map, List.Forall_forall. intros c _. by apply (wrap_range 8).
  - apply Forall_replicate. done.
Qed.

Lemma norm_id b : length b = 512%nat -> Forall byte_ok b -> norm b = b.
Proof.
  intros Hl Hb. unfold norm. rewrite take_app_le by (rewrite length_map; lia).
  rewrite take_ge by (rewrite length_map; lia).
  rewrite <- (map_id b) at 2. apply map_ext_in. intros c Hc.
  apply (wrap_small 8). rewrite List.Forall_forall in Hb. by apply Hb.
Qed.

Lemma length_write_at n : forall lba buf l, length (write_at lba n buf l) = length l.
Proof.
  induction n as [|n IH]; intros lba buf l; [done|]. cbn [write_at].
  by rewrite length_insert, IH.
Qed.

Lemma write_at_out n : forall lba buf l i,
  ~ (lba <= i < lba + n)%nat -> nth i (write_at lba n buf l) [] = nth i l [].
Proof.
  induction n as [|n IH]; intros lba buf l i Hi; [done|]. cbn [write_at].
  rewrite !nth_lookup, list_lookup_insert_ne by lia. rewrite <- !nth_lookup. apply IH. lia.
Qed.

Lemma write_at_in n : forall lba buf l k,
  (k < n)%nat -> (lba + n <= length l)%nat ->
  nth (lba + k) (write_at lba n buf l) [] = take 512 (drop (k * 512) buf).
Proof.
  induction n as [|n IH]; intros lba buf l k Hk Hl; [lia|]. cbn [write_at].
  rewrite nth_lookup. destruct k as [|k].
  - rewrite Nat.add_0_r, list_lookup_insert_eq by (rewrite length_write_at; lia).
    by rewrite drop_0.
  - rewrite list_lookup_insert_ne by lia. rewrite <- nth_lookup.
    replace (lba + S k)%nat with (S lba + k)%nat by lia.
    rewrite IH by lia. by rewrite drop_drop.
Qed.

Lemma read_from_chunks d lba n : forall k j,
  (k < n)%nat ->
  take 512 (drop (k * 512) (concat (map (fun k => ram_sector d (lba + Z.of_nat k)) (seq j n))))
  = ram_sector d (lba + Z.of_nat (j + k)).
Proof.
  induction n as [|n IH]; intros k j Hk; [lia|]. cbn [seq map concat].
  assert (Hl : length (ram_sector d (lba + Z.of_nat j)) = 512%nat) by apply norm_len.
  destruct k as [|k].
  - rewrite drop_0, take_app_le, take_ge, Nat.add_0_r by lia. done.
  - rewrite drop_app_ge by lia. rewrite Hl.
    replace (S k * 512 - 512)%nat with (k * 512)%nat by lia.
    rewrite IH by lia. do 2 f_equal. lia.
Qed.

Lemma read_from_len d lba n : length (read_from d lba n) = (n * 512)%nat.
Proof.
  unfold read_from. enough (Hj : forall j, length (concat (map (fun k =>
    ram_sector d (lba + Z.of_nat k)) (seq j n))) = (n * 512)%nat) by apply Hj.
  induction n as [|n IH]; intros j; [done|].
  cbn [seq map concat]. rewrite length_app, IH. unfold ram_sector. rewrite norm_len. lia.
Qed.

#[export] Instance ram_laws : DiskLaws ramdisk.
Proof.
  refine {| capacity d := Z.of_nat (length (secs d)); sector := ram_sector |}.
  - intros d i. unfold zlen, ram_sector. by rewrite norm_len.
  - intros d i. apply norm_bytes.
  - intros d lba n Hl Hn Hc. cbn [ops_read ram_ops]. destruct (next_fault d).
    { split; [done|]. split; [done|]. discriminate. }
    split; [done|]. split; [done|]. intros _. split.
    + unfold zlen. rewrite read_from_len. unfold SECTOR. lia.
    + intros k Hk. unfold chunk, SECTOR. rewrite Z2Nat.inj_mul by lia.
      unfold read_from. rewrite (read_from_chunks d lba _ (Z.to_nat k) 0) by lia. f_equal. lia.
  - intros op [= <-] d lba n buf Hl Hn Hc Hb Hbytes. destruct (next_fault d).
    { split; [done|]. split; [done|]. intros k Hk. right. done. }
    cbn [secs]. rewrite length_write_at. split; [done|]. split.
    + intros i Hi. unfold ram_sector. cbn [secs].
      ztest; [done|]. by rewrite write_at_out by lia.
    + intros k Hk. left. unfold ram_sector. cbn [secs]. ztest; [lia|].
      replace (Z.to_nat (lba + k)) with (Z.to_nat lba + Z.to_nat k)%nat by lia.
      rewrite write_at_in by lia. unfold chunk, SECTOR.
      rewrite Z2Nat.inj_mul by lia. apply norm_id.
      * rewrite length_take, length_drop. unfold zlen, SECTOR in Hb. lia.
      * by apply Forall_take, Forall_drop.
  - intros op [=].
Defined.
