(* ===== verification/FatVol.v ===== *)
(** fs/fat/fat_vol.c (and the inline parts of fs/fat/fat.h): a FAT32 volume on a block
    device. Sector I/O with its one-sector cache, the allocation table, the
    allocator, mount-time validation and formatting. *)

From S2P Require Import Prelude Bytes Vfs Rtc Block.

(** ** On-disk constants *)

Definition FAT_DIRENT_SIZE : Z := 32.
Definition FAT_FREE : Z := 0.
Definition FAT_EOC : Z := 0x0FFFFFF8.
Definition FAT_EOC_WRITE : Z := 0x0FFFFFFF.
Definition FAT_MASK : Z := 0x0FFFFFFF.
Definition FAT_ATTR_VOLUME_ID : Z := 0x08.
Definition FAT_ATTR_DIRECTORY : Z := 0x10.
Definition FAT_ATTR_ARCHIVE : Z := 0x20.
Definition FAT_ATTR_LFN : Z := 0x0F.
Definition FAT_DELETED : Z := 0xE5.
Definition FAT_NO_ENTRY : Z := 0xFFFFFFFF.
Definition FAT_MAX_FILE : Z := 0xFFFFFFFF.

(** ** Little-endian fields of a buffer *)

Definition at_ (b : bytes) (i : Z) : Z := nth (Z.to_nat i) b 0.

Definition fat_rd16 (b : bytes) (i : Z) : Z := Z.lor (at_ b i) (Z.shiftl (at_ b (i + 1)) 8).
Definition fat_rd32 (b : bytes) (i : Z) : Z :=
  Z.lor (Z.lor (Z.lor (at_ b i) (Z.shiftl (at_ b (i + 1)) 8))
               (Z.shiftl (at_ b (i + 2)) 16)) (Z.shiftl (at_ b (i + 3)) 24).

(** A store into a buffer of the routine's own. *)
Definition put8 (i x : Z) (b : bytes) : bytes := <[Z.to_nat i := x]> b.
Definition put_bytes (i : Z) (s b : bytes) : bytes := patch i s b.
Definition fat_wr16 (i v : Z) (b : bytes) : bytes :=
  put8 (i + 1) (wrap8 (Z.shiftr (wrap16 v) 8)) (put8 i (Z.land v 0xFF) b).
Definition fat_wr32 (i v : Z) (b : bytes) : bytes :=
  put8 (i + 3) (Z.land (Z.shiftr v 24) 0xFF) (put8 (i + 2) (Z.land (Z.shiftr v 16) 0xFF)
    (put8 (i + 1) (Z.land (Z.shiftr v 8) 0xFF) (put8 i (Z.land v 0xFF) b))).

Definition zero_sector : bytes := replicate 512 0.

(** ** The volume *)

Record fat_vol := FatVol {
  sec_per_clus : Z; bytes_per_clus : Z; reserved_sec : Z; num_fats : Z;
  fat_sectors : Z; total_sectors : Z; data_start : Z; clusters : Z;
  root_clus : Z; fsinfo_sec : Z; alloc_hint : Z; read_only : bool;
  cache_sec : Z; cache_valid : bool; cache : bytes }.

(** [clock] is what the rest of the machine says about the time: the uptime in
    milliseconds and what rtc_read reports. *)
Record clock := Clock { now_ms : Z; now_rtc : option rtc_time }.

Record vst (D : Type) := Vst { vol : fat_vol; dev : block_device D; clk : clock }.
Arguments Vst {D}. Arguments vol {D}. Arguments dev {D}. Arguments clk {D}.

Definition set_cache (sec : Z) (valid : bool) (b : bytes) (v : fat_vol) : fat_vol :=
  FatVol (sec_per_clus v) (bytes_per_clus v) (reserved_sec v) (num_fats v) (fat_sectors v)
    (total_sectors v) (data_start v) (clusters v) (root_clus v) (fsinfo_sec v)
    (alloc_hint v) (read_only v) sec valid b.
Definition set_hint (h : Z) (v : fat_vol) : fat_vol :=
  FatVol (sec_per_clus v) (bytes_per_clus v) (reserved_sec v) (num_fats v) (fat_sectors v)
    (total_sectors v) (data_start v) (clusters v) (root_clus v) (fsinfo_sec v)
    h (read_only v) (cache_sec v) (cache_valid v) (cache v).

Section Volume.
Context {D : Type} `{BlockOps D}.
Implicit Types (s : vst D).

Definition upd_vol (f : fat_vol -> fat_vol) s : vst D := Vst (f (vol s)) (dev s) (clk s).

(** Call the block layer; a failure is reported as VFS_EINVAL, after [on_err] has run. *)
Definition via {A} (m : io (block_device D) A) (on_err : fat_vol -> fat_vol) : io (vst D) A :=
  fun s => match m (dev s) with
           | (inr a, d) => (inr a, Vst (vol s) d (clk s))
           | (inl _, d) => (inl VFS_EINVAL, Vst (on_err (vol s)) d (clk s))
           end.

(** *** Sector I/O *)

Definition drop_cache (v : fat_vol) : fat_vol := set_cache (cache_sec v) false (cache v) v.

Definition cache_invalidate_range (sec n : Z) (v : fat_vol) : fat_vol :=
  if cache_valid v && (sec <=? cache_sec v) && (cache_sec v <? wrap32 (sec + n))
  then drop_cache v else v.

Definition fat_sector_read (sec : Z) : io (vst D) bytes :=
  v <- iget vol ;;
  if cache_valid v && (cache_sec v =? sec) then iret (cache v)
  else b <- via (block_read sec 1) drop_cache ;;
       iset (upd_vol (set_cache sec true b)) ;;; iret b.

Definition fat_sector_read_into (sec : Z) : io (vst D) bytes := fat_sector_read sec.

Definition fat_sector_write (sec : Z) (buf : bytes) : io (vst D) unit :=
  v <- iget vol ;;
  if read_only v then ifail VFS_EINVAL
  else via (block_write sec 1 buf) (cache_invalidate_range sec 1) ;;;
       iset (upd_vol (fun v =>
         if cache_valid v && (cache_sec v =? sec) then set_cache sec true buf v else v)).

Definition fat_sectors_read (sec n : Z) : io (vst D) bytes :=
  if n =? 0 then iret [] else via (block_read sec n) id.

Definition fat_sectors_write (sec n : Z) (src : bytes) : io (vst D) unit :=
  v <- iget vol ;;
  if read_only v then ifail VFS_EINVAL
  else if n =? 0 then iret tt
  else iset (upd_vol (cache_invalidate_range sec n)) ;;; via (block_write sec n src) id.

Definition fat_barrier : io (vst D) unit := via block_flush id.

(** *** Clusters and the allocation table *)

Definition fat_clus_valid (v : fat_vol) (clus : Z) : bool :=
  (2 <=? clus) && (clus <? wrap32 (clusters v + 2)).

Definition fat_clus_sector (v : fat_vol) (clus : Z) : Z :=
  wrap32 (data_start v + wrap32 (clus - 2) * sec_per_clus v).

Definition entry_sec (v : fat_vol) (clus : Z) : Z :=
  wrap32 (reserved_sec v + wrap32 (clus * 4) / SECTOR).
Definition entry_off (clus : Z) : Z := wrap32 (clus * 4) mod SECTOR.

Definition fat_get (clus : Z) : io (vst D) Z :=
  v <- iget vol ;;
  if negb (fat_clus_valid v clus) then ifail VFS_EINVAL
  else p <- fat_sector_read (entry_sec v clus) ;;
       iret (Z.land (fat_rd32 p (entry_off clus)) FAT_MASK).

(** [for (i = 0; i < num_fats; i++)] the same bytes into copy [i]. *)
Fixpoint write_copies (k : nat) (i sec0 : Z) (buf : bytes) : io (vst D) unit :=
  match k with
  | O => iret tt
  | S k =>
      v <- iget vol ;;
      fat_sector_write (wrap32 (sec0 + i * fat_sectors v)) buf ;;;
      write_copies k (i + 1) sec0 buf
  end.

Definition fat_set (clus val : Z) : io (vst D) unit :=
  v <- iget vol ;;
  if negb (fat_clus_valid v clus) then ifail VFS_EINVAL
  else
    buf <- fat_sector_read_into (entry_sec v clus) ;;
    let off := entry_off clus in
    let cur := fat_rd32 buf off in
    let buf := fat_wr32 off (Z.lor (Z.land cur 0xF0000000) (Z.land val FAT_MASK)) buf in
    write_copies (Z.to_nat (num_fats v)) 0 (entry_sec v clus) buf.

(** The next cluster of a chain; 0 at its end. *)
Definition fat_chain_next (clus : Z) : io (vst D) Z :=
  val <- fat_get clus ;;
  v <- iget vol ;;
  if FAT_EOC <=? val then iret 0
  else if (val <? 2) || (wrap32 (clusters v + 2) <=? val) then ifail VFS_EINVAL
  else iret val.

Fixpoint zero_sectors (k : nat) (sec : Z) : io (vst D) unit :=
  match k with
  | O => iret tt
  | S k => fat_sector_write sec zero_sector ;;; zero_sectors k (wrap32 (sec + 1))
  end.

Definition fat_zero_cluster (clus : Z) : io (vst D) unit :=
  v <- iget vol ;;
  zero_sectors (Z.to_nat (sec_per_clus v)) (fat_clus_sector v clus).

(** The scan of fat_alloc_cluster; [n] candidates have been looked at. *)
Fixpoint alloc_scan (k : nat) (start n : Z) : io (vst D) Z :=
  match k with
  | O => ifail VFS_ENOSPC
  | S k =>
      v <- iget vol ;;
      let c := wrap32 (start + n) in
      let c := if wrap32 (clusters v + 2) <=? c then wrap32 (c - clusters v) else c in
      val <- fat_get c ;;
      if negb (val =? FAT_FREE) then alloc_scan k start (n + 1)
      else
        fat_zero_cluster c ;;;
        fat_set c FAT_EOC_WRITE ;;;
        iset (upd_vol (fun v =>
          set_hint (if wrap32 (clusters v + 2) <=? wrap32 (c + 1) then 2 else c + 1) v)) ;;;
        iret c
  end.

Definition fat_alloc_cluster : io (vst D) Z :=
  v <- iget vol ;;
  if read_only v then ifail VFS_ENOSPC
  else
    let start := if fat_clus_valid v (alloc_hint v) then alloc_hint v else 2 in
    alloc_scan (Z.to_nat (clusters v)) start 0.

(** [for (guard = 0; guard <= clusters; guard++)] *)
Fixpoint free_walk (k : nat) (c : Z) : io (vst D) unit :=
  match k with
  | O => ifail VFS_EINVAL
  | S k =>
      v <- iget vol ;;
      if negb (fat_clus_valid v c) then iret tt
      else
        val <- fat_get c ;;
        fat_set c FAT_FREE ;;;
        iset (upd_vol (fun v => if c <? alloc_hint v then set_hint c v else v)) ;;;
        if (FAT_EOC <=? val) || (val <? 2) then iret tt else free_walk k val
  end.

Definition fat_free_chain (first : Z) : io (vst D) unit :=
  if first =? 0 then iret tt
  else v <- iget vol ;; free_walk (Z.to_nat (clusters v + 1)) first.

End Volume.
