(* ===== verification/FatMount.v ===== *)
(** fs/fat/fat_vol.c: mount-time validation and formatting. *)

From S2P Require Import Prelude Bytes Vfs Rtc Block FatVol.

(** Offsets into the boot sector. *)
Definition BPB_BytsPerSec := 11.
Definition BPB_SecPerClus := 13.
Definition BPB_RsvdSecCnt := 14.
Definition BPB_NumFATs := 16.
Definition BPB_RootEntCnt := 17.
Definition BPB_TotSec16 := 19.
Definition BPB_Media := 21.
Definition BPB_FATSz16 := 22.
Definition BPB_SecPerTrk := 24.
Definition BPB_NumHeads := 26.
Definition BPB_HiddSec := 28.
Definition BPB_TotSec32 := 32.
Definition BPB_FATSz32 := 36.
Definition BPB_ExtFlags := 40.
Definition BPB_FSVer := 42.
Definition BPB_RootClus := 44.
Definition BPB_FSInfo := 48.
Definition BPB_BkBootSec := 50.
Definition BS_DrvNum := 64.
Definition BS_BootSig := 66.
Definition BS_VolID := 67.
Definition BS_VolLab := 71.
Definition BS_FilSysType := 82.

(** [memset(v, 0, sizeof *v)] *)
Definition blank_vol : fat_vol :=
  FatVol 0 0 0 0 0 0 0 0 0 0 0 false 0 false (replicate 512 0).

(** fat_now: DOS date and time of the clock, 1980-01-01 when it cannot be read. *)
Definition fat_now (c : clock) : Z * Z :=
  match now_rtc c with
  | Some t =>
      if (year t <? 1980) || (2107 <? year t) then (33, 0)
      else (wrap16 (Z.lor (Z.lor (Z.shiftl (year t - 1980) 9) (Z.shiftl (month t) 5)) (day t)),
            wrap16 (Z.lor (Z.lor (Z.shiftl (hour t) 11) (Z.shiftl (minute t) 5))
                          (Z.quot (second t) 2)))
  | None => (33, 0)
  end.

Section Mount.
Context {D : Type} `{BlockOps D}.

Definition reject {A} : io (vst D) A := ifail VFS_EINVAL.

(** The checks on the boot sector [bs] of a device of [sectors] sectors; what a good
    one says about the volume. *)
Definition check_bpb (sectors : Z) (ro : bool) (bs : bytes) : option fat_vol :=
  let bps := fat_rd16 bs BPB_BytsPerSec in
  let spc := at_ bs BPB_SecPerClus in
  let reserved := fat_rd16 bs BPB_RsvdSecCnt in
  let nfats := at_ bs BPB_NumFATs in
  let rootent := fat_rd16 bs BPB_RootEntCnt in
  let tot16 := fat_rd16 bs BPB_TotSec16 in
  let fatsz16 := fat_rd16 bs BPB_FATSz16 in
  let tot32 := fat_rd32 bs BPB_TotSec32 in
  let fatsz32 := fat_rd32 bs BPB_FATSz32 in
  let fsver := fat_rd16 bs BPB_FSVer in
  let rootclus := fat_rd32 bs BPB_RootClus in
  let fsinfo := fat_rd16 bs BPB_FSInfo in
  if negb (fat_rd16 bs 510 =? 0xAA55) then None
  else if negb (bps =? SECTOR) then None
  else if (spc =? 0) || negb (Z.land spc (spc - 1) =? 0) || (128 <? spc) then None
  else if reserved =? 0 then None
  else if (nfats =? 0) || (4 <? nfats) then None
  else if negb (rootent =? 0) || negb (fatsz16 =? 0) || negb (tot16 =? 0) then None
  else if negb (fsver =? 0) then None
  else if fatsz32 =? 0 then None
  else if tot32 =? 0 then None
  else if sectors <? tot32 then None
  else if (0xFFFFFFFF - reserved) / fatsz32 <? nfats then None
  else
    let data_start := wrap32 (reserved + nfats * fatsz32) in
    if tot32 <=? data_start then None
    else
      let clusters := (tot32 - data_start) / spc in
      if clusters <? 1 then None
      else if (rootclus <? 2) || (wrap32 (clusters + 2) <=? rootclus) then None
      else if fatsz32 * (SECTOR / 4) <? clusters + 2 then None
      else Some (FatVol spc (spc * SECTOR) reserved nfats fatsz32 tot32 data_start clusters
                   rootclus
                   (if negb (fsinfo =? 0) && negb (fsinfo =? 0xFFFF) && (fsinfo <? reserved)
                    then fsinfo else 0)
                   2 ro 0 false (replicate 512 0)).

(** The entries of clusters 0 and 1. *)
Definition media_ok (fatsec : bytes) : bool :=
  let e0 := Z.land (fat_rd32 fatsec 0) FAT_MASK in
  let e1 := Z.land (fat_rd32 fatsec 4) FAT_MASK in
  (Z.land e0 0x0FFFFF00 =? 0x0FFFFF00) && (0xF0 <=? Z.land e0 0xFF) && (FAT_EOC <=? e1).

(** The "next free" hint of FSInfo; a sector that cannot be read is ignored. *)
Definition read_hint : io (vst D) unit := fun s =>
  let v := vol s in
  if fsinfo_sec v =? 0 then (inr tt, s)
  else match fat_sector_read (fsinfo_sec v) s with
       | (inl _, s) => (inr tt, s)
       | (inr fi, s) =>
           if (fat_rd32 fi 0 =? 0x41615252) && (fat_rd32 fi 484 =? 0x61417272) &&
              fat_clus_valid v (fat_rd32 fi 492)
           then (inr tt, upd_vol (set_hint (fat_rd32 fi 492)) s)
           else (inr tt, s)
       end.

Definition fat_volume_open : io (vst D) unit :=
  iset (upd_vol (fun _ => blank_vol)) ;;;
  bs <- via (block_read 0 1) id ;;
  d <- iget dev ;;
  match check_bpb (bd_sectors d) (bd_read_only d) bs with
  | None => reject
  | Some v =>
      iset (upd_vol (fun _ => v)) ;;;
      fatsec <- fat_sector_read (reserved_sec v) ;;
      if negb (media_ok fatsec) then reject else read_hint
  end.

(** *** mkfs *)

Fixpoint blank_scan (k : nat) (sec : Z) (bd : block_device D) : bool * block_device D :=
  match k with
  | O => (true, bd)
  | S k =>
      match block_read sec 1 bd with
      | (inl _, bd) => (false, bd)
      | (inr buf, bd) =>
          if forallb (fun c => c =? 0) buf then blank_scan k (sec + 1) bd else (false, bd)
      end
  end.

Definition fat_device_is_blank (nsectors : Z) (bd : block_device D) : bool * block_device D :=
  let n := if bd_sectors bd <? nsectors then wrap32 (bd_sectors bd) else nsectors in
  blank_scan (Z.to_nat n) 0 bd.

Definition choose_spc (sectors : Z) : Z :=
  let mb := sectors / 2048 in
  if mb <=? 260 then 1
  else if mb <=? 8192 then 8
  else if mb <=? 16384 then 16
  else if mb <=? 32768 then 32
  else 64.

(** [for (guard = 0; guard < 64; guard++)]: a FAT size that describes the clusters it
    leaves room for, and their number. *)
Fixpoint solve_fatsz (guard : nat) (avail nfats spc fatsz clus : Z) : Z * Z :=
  match guard with
  | O => (fatsz, clus)
  | S g =>
      if avail <=? wrap32 (nfats * fatsz) then (fatsz, 0)
      else
        let clus := (avail - wrap32 (nfats * fatsz)) / spc in
        let need := wrap32 (wrap32 (clus + 2) * 4 + SECTOR - 1) / SECTOR in
        if need <=? fatsz then (fatsz, clus) else solve_fatsz g avail nfats spc need clus
  end.

(** [for (s = from; s < to; s += 64) block_write(s, min(to - s, 64), zeros)] *)
Fixpoint wipe (fuel : nat) (s to : Z) : io (block_device D) unit :=
  match fuel with
  | O => iret tt
  | S k =>
      if to <=? s then iret tt
      else
        let n := if 64 <? to - s then 64 else to - s in
        block_write s n (replicate (Z.to_nat (n * SECTOR)) 0) ;;; wipe k (s + 64) to
  end.

(** The label, upper-cased, over eleven blanks. *)
Definition up_char (c : Z) : Z := if (ch "a" <=? c) && (c <=? ch "z") then c - 32 else c.
Definition label_field (l : bytes) : bytes :=
  let l := take 11 l in map up_char l ++ replicate (11 - length l) (ch " ").

Definition boot_sector (total fatsz spc ms : Z) (label : bytes) : bytes :=
  let reserved := 32 in
  let nfats := 2 in
  fat_wr16 510 0xAA55
  (put_bytes BS_FilSysType (lit "FAT32   ")
  (put_bytes BS_VolLab (label_field label)
  (fat_wr32 BS_VolID (Z.lxor (wrap32 ms) 0x54414C4B)
  (put8 BS_BootSig 0x29
  (put8 BS_DrvNum 0x80
  (fat_wr16 BPB_BkBootSec 6
  (fat_wr16 BPB_FSInfo 1
  (fat_wr32 BPB_RootClus 2
  (fat_wr16 BPB_FSVer 0
  (fat_wr16 BPB_ExtFlags 0
  (fat_wr32 BPB_FATSz32 fatsz
  (fat_wr32 BPB_TotSec32 total
  (fat_wr32 BPB_HiddSec 0
  (fat_wr16 BPB_NumHeads 255
  (fat_wr16 BPB_SecPerTrk 63
  (fat_wr16 BPB_FATSz16 0
  (put8 BPB_Media 0xF8
  (fat_wr16 BPB_TotSec16 0
  (fat_wr16 BPB_RootEntCnt 0
  (put8 BPB_NumFATs nfats
  (fat_wr16 BPB_RsvdSecCnt reserved
  (put8 BPB_SecPerClus spc
  (fat_wr16 BPB_BytsPerSec SECTOR
  (put_bytes 3 (lit "MSWIN4.1")
  (put_bytes 0 [0xEB; 0x58; 0x90] zero_sector))))))))))))))))))))))))).

Definition fsinfo_sector : bytes :=
  fat_wr32 508 0xAA550000 (fat_wr32 492 3 (fat_wr32 488 0xFFFFFFFF
    (fat_wr32 484 0x61417272 (fat_wr32 0 0x41615252 zero_sector)))).

Definition first_fat_sector : bytes :=
  fat_wr32 8 FAT_EOC_WRITE (fat_wr32 4 0x0FFFFFFF (fat_wr32 0 0x0FFFFFF8 zero_sector)).

Definition label_sector (c : clock) (label : bytes) : bytes :=
  let '(d, t) := fat_now c in
  fat_wr16 24 d (fat_wr16 22 t (put8 11 FAT_ATTR_VOLUME_ID
    (put_bytes 0 (label_field label) zero_sector))).

(** Every failure of the block layer is VFS_EINVAL. *)
Definition or_einval {A} (m : io (block_device D) A) : io (block_device D) A := fun bd =>
  match m bd with (inl _, bd) => (inl VFS_EINVAL, bd) | r => r end.

(** The label is the default one when it is NULL; [mem] says whether kcalloc has the
    32 KiB for the zeroes. *)
Definition fat32_format (mem : bool) (c : clock) (label : option bytes) : io (block_device D) unit :=
  bd <- iget id ;;
  let label := default (lit "FABLEOS") label in
  if bd_read_only bd then ifail VFS_EINVAL
  else
    let total := if 0x0FFFFFFF <? bd_sectors bd then 0x0FFFFFFF else bd_sectors bd in
    let reserved := 32 in
    let nfats := 2 in
    let spc := choose_spc total in
    if total <=? reserved + nfats + spc * 2 then ifail VFS_EINVAL
    else
      let '(fatsz, clus) := solve_fatsz 64 (total - reserved) nfats spc 1 0 in
      if clus <? 2 then ifail VFS_EINVAL
      else if negb mem then ifail VFS_ENOSPC
      else
        let data_start := reserved + nfats * fatsz in
        or_einval (
          wipe (Z.to_nat data_start) 0 data_start ;;;
          wipe (Z.to_nat spc) data_start (data_start + spc) ;;;
          let boot := boot_sector total fatsz spc (now_ms c) label in
          block_write 0 1 boot ;;; block_write 6 1 boot ;;;
          block_write 1 1 fsinfo_sector ;;; block_write 7 1 fsinfo_sector ;;;
          block_write reserved 1 first_fat_sector ;;;
          block_write (reserved + fatsz) 1 first_fat_sector ;;;
          block_write data_start 1 (label_sector c label) ;;;
          block_flush).

End Mount.
