(* ===== verification/FatFile.v ===== *)
(** fs/fat/fat.c: files. Cluster chains, byte-range transfers, the commit of a size, and
    the read, write and truncate operations of a file's vnode; with the two routines of
    fs/fat/fat_dir.c that the commit uses. *)

From S2P Require Import Prelude Bytes Vfs Rtc Block FatVol FatMount.

Definition FAT_MAX_HOLE : Z := 1024 * 1024.

(** Short-entry field offsets. *)
Definition DE_ATTR := 11.
Definition DE_ACC_DATE := 18.
Definition DE_CLUS_HI := 20.
Definition DE_WRT_TIME := 22.
Definition DE_WRT_DATE := 24.
Definition DE_CLUS_LO := 26.
Definition DE_SIZE := 28.

(** An in-core inode with the fields of its vnode the filesystem uses. *)
Record inode := Inode {
  first_clus : Z; dir_clus : Z; dir_index : Z; dir_first_index : Z; attr : Z;
  cur_index : Z; cur_clus : Z;
  n_type : vnode_type; n_size : Z; n_mtime : Z; n_mode : Z }.

Definition set_first (c : Z) (n : inode) : inode :=
  Inode c (dir_clus n) (dir_index n) (dir_first_index n) (attr n) (cur_index n) (cur_clus n)
    (n_type n) (n_size n) (n_mtime n) (n_mode n).
Definition set_cursor (i c : Z) (n : inode) : inode :=
  Inode (first_clus n) (dir_clus n) (dir_index n) (dir_first_index n) (attr n) i c
    (n_type n) (n_size n) (n_mtime n) (n_mode n).
Definition set_size (size ms : Z) (n : inode) : inode :=
  Inode (first_clus n) (dir_clus n) (dir_index n) (dir_first_index n) (attr n)
    (cur_index n) (cur_clus n) (n_type n) size ms (n_mode n).

(** The volume and the inode at hand. *)
Record fst_ (D : Type) := Fst { fv : vst D; ino : inode }.
Arguments Fst {D}. Arguments fv {D}. Arguments ino {D}.

Section File.
Context {D : Type} `{BlockOps D}.

(** Run an operation of the volume. *)
Definition lift {A} (m : io (vst D) A) : io (fst_ D) A := fun s =>
  let '(r, v) := m (fv s) in (r, Fst v (ino s)).
Definition upd_ino (f : inode -> inode) (s : fst_ D) : fst_ D := Fst (fv s) (f (ino s)).
Definition the_vol (s : fst_ D) : fat_vol := vol (fv s).

(** *** The cluster chain *)

(** [while (i < pos)] *)
Fixpoint chain_walk (k : nat) (c : Z) : io (vst D) Z :=
  match k with
  | O => iret c
  | S k =>
      nx <- fat_chain_next c ;;
      if nx =? 0 then ifail VFS_ENOENT else chain_walk k nx
  end.

Definition chain_at (pos : Z) : io (fst_ D) Z :=
  n <- iget ino ;;
  let cursor := negb (cur_clus n =? 0) && (cur_index n <=? pos) in
  if negb cursor && (first_clus n =? 0) then ifail VFS_ENOENT
  else
    let '(c, i) := if cursor then (cur_clus n, cur_index n) else (first_clus n, 0) in
    c <- lift (chain_walk (Z.to_nat (pos - i)) c) ;;
    iset (upd_ino (set_cursor pos c)) ;;; iret c.

(** [for (i = 1; i < need; i++)]: [k] clusters more after [c]. *)
Fixpoint extend_chain (k : nat) (c : Z) : io (vst D) unit :=
  match k with
  | O => iret tt
  | S k =>
      nx <- fat_chain_next c ;;
      nx <- (if nx =? 0 then
               nx <- fat_alloc_cluster ;; fat_set c nx ;;; iret nx
             else iret nx) ;;
      extend_chain k nx
  end.

Definition clusters_for (v : fat_vol) (n : Z) : Z :=
  wrap32 ((n + bytes_per_clus v - 1) / bytes_per_clus v).

Definition ensure_clusters (n : Z) : io (fst_ D) unit :=
  if n =? 0 then iret tt
  else
    v <- iget the_vol ;;
    let need := clusters_for v n in
    nd <- iget ino ;;
    (if first_clus nd =? 0 then
       c <- lift fat_alloc_cluster ;;
       iset (upd_ino (fun n => set_cursor 0 c (set_first c n)))
     else iret tt) ;;;
    nd <- iget ino ;;
    lift (extend_chain (Z.to_nat (need - 1)) (first_clus nd)).

(** One step of rw_bytes at offset [off] of the file with [p] left to transfer: how
    many bytes it moves, and what it leaves of them in the buffer. *)
Definition rw_step (writing : bool) (off : Z) (p : bytes) : io (fst_ D) bytes :=
  v <- iget the_vol ;;
  let pos := wrap32 (off / bytes_per_clus v) in
  let within := off mod bytes_per_clus v in
  clus <- chain_at pos ;;
  let n := Z.min (bytes_per_clus v - within) (zlen p) in
  let sec := wrap32 (fat_clus_sector v clus + within / SECTOR) in
  let soff := within mod SECTOR in
  if (soff =? 0) && (SECTOR <=? n) then
    let nsec := n / SECTOR in
    let now := take (Z.to_nat (nsec * SECTOR)) p in
    if writing then lift (fat_sectors_write sec nsec now) ;;; iret now
    else lift (fat_sectors_read sec nsec)
  else
    let n := Z.min (SECTOR - soff) n in
    let now := take (Z.to_nat n) p in
    if writing then
      tmp <- lift (fat_sector_read_into sec) ;;
      lift (fat_sector_write sec (patch soff now tmp)) ;;; iret now
    else
      sp <- lift (fat_sector_read sec) ;;
      iret (take (Z.to_nat n) (drop (Z.to_nat soff) sp)).

(** [while (len)]; the buffer [p] holds the [len] bytes, and is returned as it is left.
    Each round moves at least a byte. *)
Fixpoint rw_loop (fuel : nat) (writing : bool) (off : Z) (p : bytes) : io (fst_ D) bytes :=
  match fuel with
  | O => ifail VFS_EINVAL
  | S k =>
      if zlen p =? 0 then iret []
      else
        now <- rw_step writing off p ;;
        rest <- rw_loop k writing (off + zlen now) (drop (length now) p) ;;
        iret (now ++ rest)
  end.

Definition rw_bytes (writing : bool) (off : Z) (p : bytes) : io (fst_ D) bytes :=
  rw_loop (S (length p)) writing off p.

(** [while (from < to)], a sector of zeros at a time. *)
Fixpoint zero_loop (fuel : nat) (from to : Z) : io (fst_ D) unit :=
  match fuel with
  | O => ifail VFS_EINVAL
  | S k =>
      if to <=? from then iret tt
      else
        let n := Z.min (to - from) SECTOR in
        rw_bytes true from (replicate (Z.to_nat n) 0) ;;; zero_loop k (from + n) to
  end.

Definition zero_range (from to : Z) : io (fst_ D) unit :=
  zero_loop (S (Z.to_nat (to - from))) from to.

(** *** The directory entry of a file *)

(** Sector and offset of an entry; [None] past the end of the directory. *)
Fixpoint locate_walk (k : nat) (c : Z) : io (vst D) (option Z) :=
  match k with
  | O => iret (Some c)
  | S k =>
      nx <- fat_chain_next c ;;
      if nx =? 0 then iret None else locate_walk k nx
  end.

Definition locate (dclus index : Z) : io (vst D) (option (Z * Z)) :=
  v <- iget vol ;;
  let epc := bytes_per_clus v / FAT_DIRENT_SIZE in
  let within := index mod epc in
  c <- locate_walk (Z.to_nat (index / epc)) dclus ;;
  match c with
  | None => iret None
  | Some c =>
      if negb (fat_clus_valid v c) then ifail VFS_EINVAL
      else
        let byte := within * FAT_DIRENT_SIZE in
        iret (Some (wrap32 (fat_clus_sector v c + byte / SECTOR), byte mod SECTOR))
  end.

(** The entry at [off] with a new first cluster and size, written [now]. *)
Definition new_entry (now : Z * Z) (off first size : Z) (sec : bytes) : bytes :=
  let '(date, time) := now in
  let sec := fat_wr16 (off + DE_CLUS_HI) (Z.shiftr first 16) sec in
  let sec := fat_wr16 (off + DE_CLUS_LO) (Z.land first 0xFFFF) sec in
  let sec := fat_wr32 (off + DE_SIZE) size sec in
  let sec := fat_wr16 (off + DE_WRT_TIME) time sec in
  let sec := fat_wr16 (off + DE_WRT_DATE) date sec in
  let sec := fat_wr16 (off + DE_ACC_DATE) date sec in
  put8 (off + DE_ATTR) (Z.lor (at_ sec (off + DE_ATTR)) FAT_ATTR_ARCHIVE) sec.

Definition fat_dir_update (dclus index first size : Z) : io (vst D) unit :=
  v <- iget vol ;;
  if read_only v then ifail VFS_EINVAL
  else if index =? FAT_NO_ENTRY then iret tt
  else
    l <- locate dclus index ;;
    match l with
    | None => ifail VFS_ENOENT
    | Some (s, off) =>
        sec <- fat_sector_read_into s ;;
        if (at_ sec off =? 0) || (at_ sec off =? FAT_DELETED) ||
           (at_ sec (off + DE_ATTR) =? FAT_ATTR_LFN) then ifail VFS_ENOENT
        else
          c <- iget clk ;;
          fat_sector_write s (new_entry (fat_now c) off first size sec)
    end.

Definition commit (size : Z) : io (fst_ D) unit :=
  lift fat_barrier ;;;
  n <- iget ino ;;
  lift (fat_dir_update (dir_clus n) (dir_index n) (first_clus n) (wrap32 size)) ;;;
  lift fat_barrier.

(** *** Vnode operations *)

(** The returned [int64_t] is a count, or an error code; [len] bytes at [buf]. *)
Definition fat_op_read (off len : Z) : io (fst_ D) bytes :=
  n <- iget ino ;;
  if negb (bool_decide (n_type n = VNODE_FILE)) then ifail VFS_EINVAL
  else if n_size n <=? off then iret []
  else
    let len := Z.min len (n_size n - off) in
    if len =? 0 then iret [] else rw_bytes false off (replicate (Z.to_nat len) 0).

Definition publish (size : Z) : io (fst_ D) unit :=
  iset (fun s => upd_ino (set_size size (now_ms (clk (fv s)))) s).

Definition fat_op_write (buf : bytes) (off : Z) : io (fst_ D) Z :=
  n <- iget ino ;;
  v <- iget the_vol ;;
  let len := zlen buf in
  if negb (bool_decide (n_type n = VNODE_FILE)) then ifail VFS_EINVAL
  else if read_only v then ifail VFS_EINVAL
  else if len =? 0 then iret 0
  else if (FAT_MAX_FILE <? off) || (FAT_MAX_FILE - off <? len) then ifail VFS_ENOSPC
  else if (n_size n <? off) && (FAT_MAX_HOLE <? off - n_size n) then ifail VFS_EINVAL
  else
    ensure_clusters (off + len) ;;;
    (if n_size n <? off then zero_range (n_size n) off else iret tt) ;;;
    rw_bytes true off buf ;;;
    let newsize := Z.max (off + len) (n_size n) in
    commit newsize ;;;
    publish newsize ;;;
    iret len.

(** The part of a shrink after the smaller size is committed: cut the chain after
    [keep] clusters, or free all of it. *)
Definition trim (keep old_first : Z) : io (fst_ D) unit :=
  if keep =? 0 then lift (fat_free_chain old_first)
  else fun s =>
    match chain_at (keep - 1) s with
    | (inl rc, s) => if rc =? VFS_ENOENT then (inr tt, s) else (inl rc, s)
    | (inr last, s) =>
        (tail_ <- lift (fat_chain_next last) ;;
         if tail_ =? 0 then iret tt
         else lift (fat_set last FAT_EOC_WRITE) ;;;
              lift fat_barrier ;;;
              lift (fat_free_chain tail_)) s
    end.

Definition fat_op_truncate (size : Z) : io (fst_ D) unit :=
  n <- iget ino ;;
  v <- iget the_vol ;;
  if negb (bool_decide (n_type n = VNODE_FILE)) then ifail VFS_EINVAL
  else if read_only v then ifail VFS_EINVAL
  else if FAT_MAX_FILE <? size then ifail VFS_ENOSPC
  else if size =? n_size n then iret tt
  else if n_size n <? size then
    if FAT_MAX_HOLE <? size - n_size n then ifail VFS_EINVAL
    else
      ensure_clusters size ;;;
      zero_range (n_size n) size ;;;
      commit size ;;;
      publish size
  else
    let keep := if size =? 0 then 0 else clusters_for v size in
    (if keep =? 0 then iset (upd_ino (set_first 0)) else iret tt) ;;;
    (fun s => match commit size s with
              | (inl rc, s) => (inl rc, upd_ino (set_first (first_clus n)) s)
              | r => r
              end) ;;;
    publish size ;;;
    iset (upd_ino (set_cursor 0 0)) ;;;
    trim keep (first_clus n) ;;;
    lift fat_barrier.

End File.
