(* ===== verification/FatDisk.v ===== *)
(** The FAT volume as its users see it: a static geometry, the sectors of the disk, and
    a cache that never shows. What every sector access does, failures included. *)

From S2P Require Import Prelude Bytes Vfs Rtc Block FatVol.

(** ** Reasoning about computations that return error codes *)

(** After [m], [Q] if it returned a result, [E] if it returned a code. *)
Definition iwp {S A} (m : io S A) (s : S) (Q : A -> S -> Prop) (E : Z -> S -> Prop) : Prop :=
  match m s with (inr a, s') => Q a s' | (inl rc, s') => E rc s' end.

Lemma iwp_ret {S A} (a : A) (s : S) (Q : A -> S -> Prop) E : Q a s -> iwp (iret a) s Q E.
Proof. done. Qed.
Lemma iwp_fail {S A} rc (s : S) (Q : A -> S -> Prop) (E : Z -> S -> Prop) :
  E rc s -> iwp (ifail rc) s Q E.
Proof. done. Qed.
Lemma iwp_get {S A} (f : S -> A) (s : S) (Q : A -> S -> Prop) E : Q (f s) s -> iwp (iget f) s Q E.
Proof. done. Qed.
Lemma iwp_set {S} (f : S -> S) (s : S) (Q : unit -> S -> Prop) E : Q tt (f s) -> iwp (iset f) s Q E.
Proof. done. Qed.
Lemma iwp_bind {S A B} (m : io S A) (k : A -> io S B) (s : S) Q E :
  iwp m s (fun a s' => iwp (k a) s' Q E) E -> iwp (ibind m k) s Q E.
Proof. unfold iwp, ibind. by destruct (m s) as [[rc|a] s']. Qed.
Lemma iwp_mono {S A} (m : io S A) (s : S) (Q Q' : A -> S -> Prop) (E E' : Z -> S -> Prop) :
  iwp m s Q E -> (forall a s', Q a s' -> Q' a s') -> (forall rc s', E rc s' -> E' rc s') ->
  iwp m s Q' E'.
Proof. unfold iwp. destruct (m s) as [[rc|a] s']; eauto. Qed.

(** Use what is known of the first part of a sequence. *)
Lemma iwp_seq {S A B} (m : io S A) (k : A -> io S B) (s : S) Q0 E0 Q E :
  iwp m s Q0 E0 -> (forall a s', Q0 a s' -> iwp (k a) s' Q E) ->
  (forall rc s', E0 rc s' -> E rc s') -> iwp (ibind m k) s Q E.
Proof. intros Hm Hq He. apply iwp_bind. by eapply iwp_mono. Qed.

(** ** Little-endian fields *)

Lemma at_put8 b i j x :
  0 <= i < zlen b -> 0 <= j -> at_ (put8 i x b) j = if j =? i then x else at_ b j.
Proof.
  unfold at_, put8, zlen. intros Hi Hj. rewrite !nth_lookup.
  destruct (Z.eqb_spec j i) as [->|Hn].
  - rewrite list_lookup_insert_eq by lia. done.
  - rewrite list_lookup_insert_ne by lia. done.
Qed.

Lemma zlen_put8 b i x : zlen (put8 i x b) = zlen b.
Proof. unfold zlen, put8. by rewrite length_insert. Qed.

Lemma zlen_wr32 b i v : zlen (fat_wr32 i v b) = zlen b.
Proof. unfold fat_wr32. by rewrite !zlen_put8. Qed.
Lemma zlen_wr16 b i v : zlen (fat_wr16 i v b) = zlen b.
Proof. unfold fat_wr16. by rewrite !zlen_put8. Qed.

Lemma put8_bytes b i x : byte_ok x -> Forall byte_ok b -> Forall byte_ok (put8 i x b).
Proof. intros. by apply Forall_insert. Qed.

Lemma land_ff_byte x : byte_ok (Z.land x 0xFF).
Proof. change 255 with (2 ^ 8 - 1). rewrite land_mask by lia. by apply Z.mod_pos_bound. Qed.

Lemma wr32_bytes b i v : Forall byte_ok b -> Forall byte_ok (fat_wr32 i v b).
Proof. intros. unfold fat_wr32. repeat apply put8_bytes; auto using land_ff_byte. Qed.
Lemma wr16_bytes b i v : Forall byte_ok b -> Forall byte_ok (fat_wr16 i v b).
Proof.
  intros. unfold fat_wr16. apply put8_bytes; [by apply (wrap_range 8)|].
  by apply put8_bytes; [apply land_ff_byte|].
Qed.

(** Values below [2^k] and multiples of [2^k] do not overlap. *)
Lemma lor_shiftl k a b : 0 <= k -> 0 <= a < 2 ^ k -> Z.lor a (Z.shiftl b k) = a + b * 2 ^ k.
Proof.
  intros Hk Ha. assert (Hz : Z.land a (Z.shiftl b k) = 0).
  { replace a with (Z.land a (Z.ones k)) by (rewrite Z.land_ones, Z.mod_small by lia; done).
    rewrite <- Z.land_assoc, (Z.land_comm (Z.ones k)), Z.land_ones, Z.shiftl_mul_pow2 by lia.
    by rewrite Z.mod_mul, Z.land_0_r by lia. }
  pose proof (Z.add_lor_land a (Z.shiftl b k)) as H.
  rewrite Hz, Z.shiftl_mul_pow2 in * by lia. lia.
Qed.

Lemma rd16_value b i :
  byte_ok (at_ b i) -> fat_rd16 b i = at_ b i + at_ b (i + 1) * 2 ^ 8.
Proof. intros. unfold fat_rd16. by apply lor_shiftl. Qed.

Lemma rd32_value b i :
  byte_ok (at_ b i) -> byte_ok (at_ b (i + 1)) -> byte_ok (at_ b (i + 2)) ->
  fat_rd32 b i = at_ b i + at_ b (i + 1) * 2 ^ 8 + at_ b (i + 2) * 2 ^ 16 + at_ b (i + 3) * 2 ^ 24.
Proof.
  unfold byte_ok. intros. unfold fat_rd32. rewrite (lor_shiftl 8) by lia.
  rewrite (lor_shiftl 16) by lia. rewrite (lor_shiftl 24) by lia. done.
Qed.

Lemma at_byte b i : Forall byte_ok b -> byte_ok (at_ b i).
Proof.
  intros H. unfold at_. destruct (nth_in_or_default (Z.to_nat i) b 0) as [Hin| ->]; [|done].
  rewrite List.Forall_forall in H. by apply H.
Qed.

Lemma rd32_range b i : Forall byte_ok b -> 0 <= fat_rd32 b i < 2 ^ 32.
Proof.
  intros H. rewrite rd32_value by by apply at_byte.
  pose proof (at_byte b i H). pose proof (at_byte b (i + 1) H).
  pose proof (at_byte b (i + 2) H). pose proof (at_byte b (i + 3) H). unfold byte_ok in *. lia.
Qed.

Lemma rd16_range b i : Forall byte_ok b -> 0 <= fat_rd16 b i < 2 ^ 16.
Proof.
  intros H. rewrite rd16_value by by apply at_byte.
  pose proof (at_byte b i H). pose proof (at_byte b (i + 1) H). unfold byte_ok in *. lia.
Qed.

Lemma byte_of v k : 0 <= k -> Z.land (Z.shiftr v k) 0xFF = v / 2 ^ k mod 256.
Proof.
  intros. change 255 with (2 ^ 8 - 1). by rewrite land_mask, Z.shiftr_div_pow2 by lia.
Qed.

Lemma at_wr32 b i v j :
  0 <= i -> i + 4 <= zlen b -> 0 <= j ->
  at_ (fat_wr32 i v b) j =
  if j =? i + 3 then v / 2 ^ 24 mod 256
  else if j =? i + 2 then v / 2 ^ 16 mod 256
  else if j =? i + 1 then v / 2 ^ 8 mod 256
  else if j =? i then v mod 256 else at_ b j.
Proof.
  intros. unfold fat_wr32. rewrite !at_put8 by (rewrite ?zlen_put8; lia).
  rewrite !byte_of by lia. by rewrite (land_mask 8).
Qed.

Lemma rd32_wr32 b i v :
  Forall byte_ok b -> 0 <= i -> i + 4 <= zlen b -> 0 <= v < 2 ^ 32 ->
  fat_rd32 (fat_wr32 i v b) i = v.
Proof.
  intros Hb Hi Hl Hv. rewrite rd32_value by by apply at_byte, wr32_bytes.
  rewrite !at_wr32 by lia. repeat (ztest; try lia).
  assert (E1 : v / 2 ^ 16 = v / 2 ^ 8 / 256) by (by rewrite Z.div_div by lia).
  assert (E2 : v / 2 ^ 24 = v / 2 ^ 16 / 256) by (by rewrite Z.div_div by lia).
  rewrite (Z.mod_small (v / 2 ^ 24)).
  - pose proof (Z.div_mod v 256). pose proof (Z.div_mod (v / 2 ^ 8) 256).
    pose proof (Z.div_mod (v / 2 ^ 16) 256). change (v / 2 ^ 8) with (v / 256) in *. lia.
  - split; [apply Z.div_pos; lia|]. apply Z.div_lt_upper_bound; lia.
Qed.

Lemma rd32_wr32_ne b i j v :
  0 <= i -> i + 4 <= zlen b -> 0 <= j -> i + 4 <= j \/ j + 4 <= i ->
  fat_rd32 (fat_wr32 i v b) j = fat_rd32 b j.
Proof.
  intros. unfold fat_rd32. rewrite !at_wr32 by lia. by repeat (ztest; try lia).
Qed.

(** ** The volume and its disk *)

(** Nothing of the disk fails. *)
Definition reliable (D : Type) `{BlockOps D} : Prop :=
  (forall lba n (d : D), (ops_read lba n d).1.1 = BLOCK_OK) /\
  (exists op, ops_write = Some op /\ forall lba n b (d : D), (op lba n b d).1 = BLOCK_OK) /\
  (forall op (d : D), ops_flush = Some op -> (op d).1 = BLOCK_OK).

(** What mounting establishes: the areas of the volume do not overlap and lie on the
    disk, and the table describes every cluster. *)
Record geometry (v : fat_vol) : Prop := {
  g_spc : 1 <= sec_per_clus v <= 128;
  g_pow2 : (sec_per_clus v | 128);
  g_bpc : bytes_per_clus v = sec_per_clus v * SECTOR;
  g_reserved : 1 <= reserved_sec v;
  g_fats : 1 <= num_fats v <= 4;
  g_fatsz : 1 <= fat_sectors v;
  g_data : data_start v = reserved_sec v + num_fats v * fat_sectors v;
  g_clusters : 1 <= clusters v;
  g_end : data_start v + clusters v * sec_per_clus v <= total_sectors v;
  g_total : total_sectors v <= 2 ^ 28;
  g_table : clusters v + 2 <= fat_sectors v * 128;
  g_root : 2 <= root_clus v < clusters v + 2 }.

Section Disk.
Context {D : Type} `{DiskLaws D}.
Implicit Types (s t : vst D).

Definition sec s (i : Z) : bytes := sector (bd_drv (dev s)) i.

(** Everything but the cache, the allocation hint, the counters and the medium. *)
Definition static s : fat_vol * Z * bool * clock :=
  (set_hint 0 (set_cache 0 false [] (vol s)), bd_sectors (dev s), bd_read_only (dev s), clk s).

Record inv s : Prop := {
  i_geometry : geometry (vol s);
  i_device : total_sectors (vol s) <= bd_sectors (dev s) <= capacity (bd_drv (dev s));
  i_ro : read_only (vol s) = bd_read_only (dev s);
  i_cache : cache_valid (vol s) = true ->
            0 <= cache_sec (vol s) < 2 ^ 32 /\ cache (vol s) = sec s (cache_sec (vol s)) }.

(** [t] comes after [s]: still a good volume, the same one. *)
Definition next s t : Prop := inv t /\ static t = static s.

(** ... and no sector changed; nor did the hint. *)
Definition same s t : Prop :=
  next s t /\ (forall i, sec t i = sec s i) /\ alloc_hint (vol t) = alloc_hint (vol s).

Lemma next_refl s : inv s -> next s s.
Proof. done. Qed.
Lemma next_trans s t u : next s t -> next t u -> next s u.
Proof. intros [_ E] [Hu Eu]. split; [done|congruence]. Qed.
Lemma same_refl s : inv s -> same s s.
Proof. done. Qed.
Lemma same_trans s t u : same s t -> same t u -> same s u.
Proof.
  intros (Hn & He & Hh) (Hn' & He' & Hh'). split; [by eapply next_trans|].
  split; [|congruence]. intros i. by rewrite He', He.
Qed.

(** The fields of the volume that do not change. *)
Lemma static_vol s t : static t = static s ->
  sec_per_clus (vol t) = sec_per_clus (vol s) /\ bytes_per_clus (vol t) = bytes_per_clus (vol s) /\
  reserved_sec (vol t) = reserved_sec (vol s) /\ num_fats (vol t) = num_fats (vol s) /\
  fat_sectors (vol t) = fat_sectors (vol s) /\ total_sectors (vol t) = total_sectors (vol s) /\
  data_start (vol t) = data_start (vol s) /\ clusters (vol t) = clusters (vol s) /\
  root_clus (vol t) = root_clus (vol s) /\ read_only (vol t) = read_only (vol s) /\
  bd_sectors (dev t) = bd_sectors (dev s) /\ bd_read_only (dev t) = bd_read_only (dev s) /\
  clk t = clk s.
Proof. unfold static. intros [=]. repeat split; done. Qed.

Lemma geometry_static s t :
  static t = static s -> geometry (vol s) -> geometry (vol t).
Proof.
  intros E [?????? ??????]. destruct (static_vol s t E) as (?&?&?&?&?&?&?&?&?&?&?&?&?).
  split; congruence || lia.
Qed.

(** *** The block layer *)

Definition bd_same (a b : block_device D) : Prop :=
  bd_sectors b = bd_sectors a /\ bd_read_only b = bd_read_only a /\
  capacity (bd_drv b) = capacity (bd_drv a) /\
  forall i, sector (bd_drv b) i = sector (bd_drv a) i.

Lemma check_range_ok lba n (bd : block_device D) :
  0 < n -> check_range lba n bd = BLOCK_OK <-> lba + n <= bd_sectors bd.
Proof.
  intros Hn. unfold check_range, BLOCK_ENOSPC, BLOCK_OK. rewrite (proj2 (Z.eqb_neq _ _)) by lia.
  destruct (Z.leb_spec (bd_sectors bd) lba); [lia|]. ztest; lia.
Qed.

Lemma block_read_spec lba n (bd : block_device D) :
  0 <= lba -> 0 < n -> bd_sectors bd <= capacity (bd_drv bd) ->
  iwp (block_read lba n) bd
    (fun b bd' => bd_same bd bd' /\ zlen b = n * SECTOR /\
       forall k, 0 <= k < n -> chunk b k = sector (bd_drv bd) (lba + k))
    (fun _ bd' => bd_same bd bd' /\ (lba + n <= bd_sectors bd -> ~ reliable D)).
Proof.
  intros Hl Hn Hc. unfold iwp, block_read. pose proof (check_range_ok lba n bd Hn) as Hr.
  destruct (Z.eqb_spec (check_range lba n bd) BLOCK_OK) as [E|E]; cbn [negb].
  - apply Hr in E. assert (Hle : lba + n <= capacity (bd_drv bd)) by lia.
    pose proof (law_disk_read (bd_drv bd) lba n Hl Hn Hle) as Hlaw.
    destruct (ops_read lba n (bd_drv bd)) as [[rc b] d] eqn:Eo.
    destruct Hlaw as (Hcap & Hsec & Hok).
    destruct (Z.eqb_spec rc BLOCK_OK) as [->|Hrc]; cbn [negb].
    + destruct (Hok eq_refl) as [Hlen Hch]. done.
    + split; [done|]. intros _ (Hrd & _ & _). apply Hrc. specialize (Hrd lba n (bd_drv bd)).
      by rewrite Eo in Hrd.
  - split; [done|]. intros Hle. by apply Hr in Hle.
Qed.

(** [b] is [a] with the sectors from [lba] on replaced by [buf]; when [all] is false,
    only some of them are. *)
Definition bd_wrote (all : Prop) (lba n : Z) (buf : bytes) (a b : block_device D) : Prop :=
  bd_sectors b = bd_sectors a /\ bd_read_only b = bd_read_only a /\
  capacity (bd_drv b) = capacity (bd_drv a) /\
  (forall i, ~ (lba <= i < lba + n) -> sector (bd_drv b) i = sector (bd_drv a) i) /\
  (forall k, 0 <= k < n -> sector (bd_drv b) (lba + k) = chunk buf k \/
     (~ all /\ sector (bd_drv b) (lba + k) = sector (bd_drv a) (lba + k))).

Lemma bd_wrote_none lba n buf bd bd' : bd_same bd bd' -> bd_wrote False lba n buf bd bd'.
Proof.
  intros (H1 & H2 & H3 & H4). do 4 (split; [done || by intros|]). intros k Hk. right.
  split; [tauto|]. apply H4.
Qed.

Lemma block_write_spec lba n buf (bd : block_device D) :
  0 <= lba -> 0 < n -> bd_sectors bd <= capacity (bd_drv bd) ->
  zlen buf = n * SECTOR -> Forall byte_ok buf ->
  iwp (block_write lba n buf) bd
    (fun _ bd' => bd_wrote True lba n buf bd bd')
    (fun _ bd' => bd_wrote False lba n buf bd bd' /\
       (lba + n <= bd_sectors bd -> bd_read_only bd = false -> ~ reliable D)).
Proof.
  intros Hl Hn Hc Hb Hbytes. unfold iwp, block_write. pose proof (check_range_ok lba n bd Hn) as Hr.
  destruct (Z.eqb_spec (check_range lba n bd) BLOCK_OK) as [E|E]; cbn [negb].
  2: { split; [by apply bd_wrote_none|]. intros Hle. by apply Hr in Hle. }
  apply Hr in E. destruct (bd_read_only bd) eqn:Ero.
  { split; [by apply bd_wrote_none|done]. }
  destruct ops_write as [op|] eqn:Eop.
  2: { split; [by apply bd_wrote_none|].
       intros _ _ (_ & (op & Ho & _) & _). congruence. }
  assert (Hle : lba + n <= capacity (bd_drv bd)) by lia.
  pose proof (law_disk_write op Eop (bd_drv bd) lba n buf Hl Hn Hle Hb Hbytes) as Hlaw.
  destruct (op lba n buf (bd_drv bd)) as [rc d] eqn:Eo. destruct Hlaw as (Hcap & Hout & Hin).
  destruct (Z.eqb_spec rc BLOCK_OK) as [->|Hrc]; cbn [negb].
  - do 4 (split; [done|]). intros k Hk. destruct (Hin k Hk) as [?|[? ?]]; [by left|].
    done.
  - split.
    + do 4 (split; [done|]). intros k Hk. destruct (Hin k Hk) as [?|[_ ?]]; [by left|].
      right. split; [tauto|done].
    + intros _ _ (_ & (op' & Ho & Hw) & _). apply Hrc. rewrite Eop in Ho. injection Ho as <-.
      specialize (Hw lba n buf (bd_drv bd)). by rewrite Eo in Hw.
Qed.

Lemma block_flush_spec (bd : block_device D) :
  iwp block_flush bd (fun _ bd' => bd_same bd bd') (fun _ bd' => bd_same bd bd' /\ ~ reliable D).
Proof.
  unfold iwp, block_flush. destruct ops_flush as [op|] eqn:Eop; [|done].
  pose proof (law_disk_flush op Eop (bd_drv bd)) as Hlaw.
  destruct (op (bd_drv bd)) as [rc d] eqn:Eo. destruct Hlaw as [Hcap Hsec].
  destruct (Z.eqb_spec rc BLOCK_OK) as [->|Hrc]; cbn [negb]; [done|].
  split; [done|]. intros (_ & _ & Hf). apply Hrc. specialize (Hf op (bd_drv bd) Eop).
  by rewrite Eo in Hf.
Qed.

Lemma iwp_via {A} (m : io (block_device D) A) on_err s Q E (Q' : A -> vst D -> Prop) E' :
  iwp m (dev s) Q E ->
  (forall a d, Q a d -> Q' a (Vst (vol s) d (clk s))) ->
  (forall rc d, E rc d -> E' VFS_EINVAL (Vst (on_err (vol s)) d (clk s))) ->
  iwp (via m on_err) s Q' E'.
Proof. unfold iwp, via. destruct (m (dev s)) as [[rc|a] d]; eauto. Qed.

(** *** Sectors *)

Lemma chunk_0 b : zlen b = SECTOR -> chunk b 0 = b.
Proof. unfold zlen, SECTOR, chunk. intros. rewrite drop_0. apply take_ge. lia. Qed.

(** [t] is [s] with sector [i] replaced. *)
Definition stored s t (i : Z) (b : bytes) : Prop :=
  next s t /\ alloc_hint (vol t) = alloc_hint (vol s) /\
  forall j, sec t j = if j =? i then b else sec s j.

(** A volume on a device whose sectors did not change, with a new cache. *)
Lemma same_cache s d cs cv cb :
  inv s -> bd_same (dev s) d ->
  (cv = true -> 0 <= cs < 2 ^ 32 /\ cb = sector (bd_drv d) cs) ->
  same s (Vst (set_cache cs cv cb (vol s)) d (clk s)).
Proof.
  intros [Hg Hd Hr Hc] (E1 & E2 & E3 & E4) Hcache.
  assert (Hst : static (Vst (set_cache cs cv cb (vol s)) d (clk s)) = static s).
  { unfold static. cbn [vol dev clk]. by rewrite E1, E2. }
  split; [|split; [|done]].
  - split; [|done]. split; [by eapply geometry_static|cbn; lia|cbn; congruence|done].
  - intros i. apply E4.
Qed.

Lemma set_cache_id v : set_cache (cache_sec v) (cache_valid v) (cache v) v = v.
Proof. by destruct v. Qed.

(** The cache of [s] is right for a device with the same sectors. *)
Lemma same_device s d : inv s -> bd_same (dev s) d -> same s (Vst (vol s) d (clk s)).
Proof.
  intros Hi Hd. rewrite <- (set_cache_id (vol s)). apply same_cache; [done|done|].
  intros Hv. destruct (i_cache _ Hi Hv) as [Hr ->]. split; [done|]. symmetry. apply Hd.
Qed.

Lemma dev_cap s : inv s -> bd_sectors (dev s) <= capacity (bd_drv (dev s)).
Proof. intros Hi. pose proof (i_device _ Hi). lia. Qed.

Lemma sector_read_spec s i :
  inv s -> 0 <= i < bd_sectors (dev s) -> i < 2 ^ 32 ->
  iwp (fat_sector_read i) s (fun b t => same s t /\ b = sec s i)
    (fun rc t => same s t /\ rc = VFS_EINVAL /\ ~ reliable D).
Proof.
  intros Hi Hr H32. unfold fat_sector_read. apply iwp_bind, iwp_get.
  destruct (cache_valid (vol s) && _) eqn:E.
  { b2p. subst. apply iwp_ret. split; [done|]. by apply (i_cache _ Hi). }
  clear E. apply iwp_bind.
  eapply iwp_via; [apply (block_read_spec i 1); [lia|lia|by apply dev_cap]|..].
  - intros b d (Hd & Hl & Hc). apply iwp_bind, iwp_set, iwp_ret.
    assert (Hb : b = sec s i).
    { rewrite <- (chunk_0 b Hl), Hc by lia. by rewrite Z.add_0_r. }
    split; [|done]. apply (same_cache s d i true b Hi Hd). intros _. split; [lia|].
    rewrite Hb. symmetry. apply Hd.
  - intros rc d [Hd Hn]. split; [by apply same_cache|]. split; [done|]. apply Hn. lia.
Qed.

(** What a write makes of the cache. *)
Lemma stored_intro s d cs cv cb i b all :
  inv s -> bd_wrote all i 1 b (dev s) d -> zlen b = SECTOR ->
  (cv = true -> 0 <= cs < 2 ^ 32 /\ cb = sector (bd_drv d) cs) ->
  let t := Vst (set_cache cs cv cb (vol s)) d (clk s) in
  stored s t i b \/ (~ all /\ stored s t i (sec s i)).
Proof.
  intros [Hg Hd Hr Hc] (E1 & E2 & E3 & E4 & E5) Hl Hcache t.
  assert (Hst : static t = static s).
  { unfold static, t. cbn [vol dev clk]. by rewrite E1, E2. }
  assert (Hn : next s t).
  { split; [|done]. split; [by eapply geometry_static|cbn; lia|cbn; congruence|done]. }
  specialize (E5 0 ltac:(lia)). rewrite Z.add_0_r, chunk_0 in E5 by done.
  assert (Hset : forall b', sector (bd_drv d) i = b' -> stored s t i b').
  { intros b' Hb. split; [done|]. split; [done|]. intros j. unfold sec, t. cbn [dev].
    destruct (Z.eqb_spec j i) as [->|]; [done|]. apply E4. lia. }
  destruct E5 as [E5|[Ha E5]]; [by left; apply Hset|right; split; [done|by apply Hset]].
Qed.

Lemma sector_write_spec s i b :
  inv s -> 0 <= i < bd_sectors (dev s) -> i + 1 < 2 ^ 32 -> read_only (vol s) = false ->
  zlen b = SECTOR -> Forall byte_ok b ->
  iwp (fat_sector_write i b) s (fun _ t => stored s t i b)
    (fun rc t => (stored s t i b \/ stored s t i (sec s i)) /\ rc = VFS_EINVAL /\ ~ reliable D).
Proof.
  intros Hi Hr H32 Hro Hl Hb. unfold fat_sector_write. apply iwp_bind, iwp_get. rewrite Hro.
  apply iwp_bind. eapply iwp_via.
  { apply (block_write_spec i 1); [lia|lia|by apply dev_cap|lia|done]. }
  - intros [] d Hw. apply iwp_set. cbn [upd_vol vol dev clk]. unfold upd_vol. cbn [vol dev clk].
    pose proof Hw as (_ & _ & _ & Hout & Hin). specialize (Hin 0 ltac:(lia)).
    rewrite Z.add_0_r, chunk_0 in Hin by done. destruct Hin as [Hin|[Hin _]]; [|done].
    destruct (cache_valid (vol s) && (cache_sec (vol s) =? i)) eqn:E.
    + destruct (stored_intro s d i true b i b True) as [?|[? _]]; try done.
      intros _. split; [lia|done].
    + rewrite <- (set_cache_id (vol s)). 
      destruct (stored_intro s d (cache_sec (vol s)) (cache_valid (vol s)) (cache (vol s)) i b True)
        as [?|[? _]]; try done.
      intros Hv. destruct (i_cache _ Hi Hv) as [Hcr ->]. split; [done|].
      rewrite Hv in E. cbn in E. b2p. symmetry. apply Hout. lia.
  - intros rc d [Hw Hn]. split; [|split; [done|]].
    2: { apply Hn; [lia|]. by rewrite <- (i_ro _ Hi). }
    pose proof Hw as (_ & _ & _ & Hout & _).
    unfold cache_invalidate_range. rewrite (wrap_small 32) by lia.
    destruct (_ && (cache_sec (vol s) <? i + 1)) eqn:E.
    + destruct (stored_intro s d (cache_sec (vol s)) false (cache (vol s)) i b False)
        as [?|[_ ?]]; try done; [by left|by right].
    + rewrite <- (set_cache_id (vol s)).
      destruct (stored_intro s d (cache_sec (vol s)) (cache_valid (vol s)) (cache (vol s)) i b False)
        as [?|[_ ?]]; try done; [|by left|by right].
      intros Hv. destruct (i_cache _ Hi Hv) as [Hcr ->]. split; [done|].
      rewrite Hv in E. cbn [andb] in E. symmetry. apply Hout. b2p. destruct E; b2p; lia.
Qed.

Lemma barrier_spec s :
  inv s -> iwp fat_barrier s (fun _ t => same s t) (fun rc t => same s t /\ rc = VFS_EINVAL /\ ~ reliable D).
Proof.
  intros Hi. eapply iwp_via; [apply block_flush_spec|..].
  - intros [] d Hd. by apply same_device.
  - intros rc d [Hd Hn]. split; [by apply same_device|done].
Qed.

End Disk.
