(* ===== verification/FatChain.v ===== *)
(** The allocation table of a FAT volume: entries, chains, the allocator, as operations
    on a map from clusters to entries. *)

From S2P Require Import Prelude Bytes Rtc Vfs Block FatVol FatFile FatDisk.

Section Table.
Context {D : Type} `{DiskLaws D}.
Implicit Types (s t u : vst D).

Definition valid s (c : Z) : Prop := 2 <= c < clusters (vol s) + 2.

(** The entry of a cluster, in the first copy of the table. *)
Definition entry s (c : Z) : Z :=
  Z.land (fat_rd32 (sec s (reserved_sec (vol s) + c * 4 / SECTOR)) (c * 4 mod SECTOR)) FAT_MASK.

(** The [k]-th sector of a cluster, and all of its bytes. *)
Definition dsec s (c k : Z) : Z := data_start (vol s) + (c - 2) * sec_per_clus (vol s) + k.
Definition clus_data s (c : Z) : bytes :=
  concat (map (fun k => sec s (dsec s c (Z.of_nat k))) (seq 0 (Z.to_nat (sec_per_clus (vol s))))).

(** Sectors of neither copy of the table. *)
Definition outside_table s (i : Z) : Prop := i < reserved_sec (vol s) \/ data_start (vol s) <= i.

(** [t] is [s] with the entry of [c] replaced. *)
Definition linked s t (c x : Z) : Prop :=
  next s t /\ alloc_hint (vol t) = alloc_hint (vol s) /\
  (forall c', valid s c' -> entry t c' = if c' =? c then x else entry s c') /\
  (forall i, outside_table s i -> sec t i = sec s i).

(** *** Arithmetic of the geometry *)

Lemma geo_bounds s : inv s ->
  2 <= reserved_sec (vol s) + 1 /\ data_start (vol s) < 2 ^ 28 /\
  clusters (vol s) < 2 ^ 28 /\ reserved_sec (vol s) < data_start (vol s) /\
  data_start (vol s) < total_sectors (vol s) <= bd_sectors (dev s) /\
  reserved_sec (vol s) + fat_sectors (vol s) <= data_start (vol s).
Proof. intros [[] Hd _ _]. nia. Qed.

Lemma clus_valid_spec s c : inv s -> fat_clus_valid (vol s) c = true <-> valid s c.
Proof.
  intros Hi. pose proof (geo_bounds s Hi). pose proof (g_clusters _ (i_geometry _ Hi)).
  unfold fat_clus_valid, valid. rewrite wrap_small by lia.
  rewrite andb_true_iff, Z.leb_le, Z.ltb_lt. done.
Qed.

Lemma entry_place s c : inv s -> valid s c ->
  entry_sec (vol s) c = reserved_sec (vol s) + c * 4 / SECTOR /\
  entry_off c = c * 4 mod SECTOR /\
  0 <= c * 4 / SECTOR < fat_sectors (vol s) /\
  0 <= c * 4 mod SECTOR /\ c * 4 mod SECTOR + 4 <= SECTOR /\
  c * 4 mod SECTOR = 4 * (c mod 128).
Proof.
  intros Hi [H1 H2]. pose proof (geo_bounds s Hi) as (? & ? & ? & ? & ? & ?).
  pose proof (g_table _ (i_geometry _ Hi)). pose proof (g_clusters _ (i_geometry _ Hi)).
  unfold entry_sec, entry_off, SECTOR. rewrite (wrap_small 32 (c * 4)) by lia.
  assert (E : c * 4 mod 512 = 4 * (c mod 128)).
  { change 512 with (128 * 4). rewrite Z.mul_mod_distr_r by lia. lia. }
  assert (Eq : c * 4 / 512 = c / 128).
  { change 512 with (128 * 4). by rewrite Z.div_mul_cancel_r by lia. }
  pose proof (Z.mod_pos_bound c 128). rewrite E, Eq.
  assert (0 <= c / 128 < fat_sectors (vol s)).
  { split; [apply Z.div_pos; lia|]. apply Z.div_lt_upper_bound; lia. }
  rewrite wrap_small by lia. lia.
Qed.

Lemma dsec_range s c k : inv s -> valid s c -> 0 <= k < sec_per_clus (vol s) ->
  fat_clus_sector (vol s) c = dsec s c 0 /\
  data_start (vol s) <= dsec s c k /\ dsec s c k + 1 <= total_sectors (vol s) /\
  dsec s c k < bd_sectors (dev s) /\ dsec s c k + 1 < 2 ^ 32.
Proof.
  intros Hi [H1 H2] Hk. pose proof (geo_bounds s Hi) as (? & ? & ? & ? & ? & ?).
  pose proof (i_geometry _ Hi) as []. unfold fat_clus_sector, dsec, valid in *.
  rewrite (wrap_small 32 (c - 2)) by lia.
  assert ((c - 2) * sec_per_clus (vol s) + sec_per_clus (vol s) <= clusters (vol s) * sec_per_clus (vol s))
    by nia.
  assert (0 <= (c - 2) * sec_per_clus (vol s)) by nia.
  rewrite wrap_small by lia. lia.
Qed.

(** *** Entries *)

Lemma get_spec s c :
  inv s -> valid s c ->
  iwp (fat_get c) s (fun x t => same s t /\ x = entry s c)
    (fun rc t => same s t /\ rc = VFS_EINVAL /\ ~ reliable D).
Proof.
  intros Hi Hc. unfold fat_get. apply iwp_bind, iwp_get.
  rewrite (proj2 (clus_valid_spec s c Hi) Hc). cbn [negb].
  destruct (entry_place s c Hi Hc) as (-> & -> & Hs & _).
  pose proof (geo_bounds s Hi).
  eapply iwp_seq; [apply sector_read_spec; [done|lia|lia]|..].
  - intros b t [Hsame ->]. apply iwp_ret. done.
  - done.
Qed.

(** The copies [i, i + k) of the table sector [sec0]. *)
Definition copy_of s (sec0 i k j : Z) : Prop :=
  exists m, i <= m < i + k /\ j = sec0 + m * fat_sectors (vol s).

Lemma static_copy s t sec0 i k j : static t = static s -> copy_of t sec0 i k j <-> copy_of s sec0 i k j.
Proof. intros E. destruct (static_vol s t E) as (_&_&_&_&Ef&_). unfold copy_of. by rewrite Ef. Qed.

(** [t] is [s] with [buf] in the copies; in all of them, when [all]. *)
Definition copied s t (sec0 i k : Z) (buf : bytes) (all : Prop) : Prop :=
  next s t /\ alloc_hint (vol t) = alloc_hint (vol s) /\
  (forall j, ~ copy_of s sec0 i k j -> sec t j = sec s j) /\
  (forall j, copy_of s sec0 i k j -> sec t j = buf \/ (~ all /\ sec t j = sec s j)).

Lemma write_copies_spec k : forall s i sec0 buf,
  inv s -> read_only (vol s) = false -> zlen buf = SECTOR -> Forall byte_ok buf ->
  0 <= i -> i + Z.of_nat k <= num_fats (vol s) ->
  reserved_sec (vol s) <= sec0 < reserved_sec (vol s) + fat_sectors (vol s) ->
  iwp (write_copies k i sec0 buf) s
    (fun _ t => copied s t sec0 i (Z.of_nat k) buf True)
    (fun rc t => copied s t sec0 i (Z.of_nat k) buf False /\ rc = VFS_EINVAL /\ ~ reliable D).
Proof.
  induction k as [|k IH]; intros s i sec0 buf Hi Hro Hl Hb Hi0 Hk Hs; cbn [write_copies].
  { apply iwp_ret. split; [done|]. split; [done|]. split; [done|]. intros j (m & ? & _). lia. }
  pose proof (geo_bounds s Hi) as (? & ? & ? & ? & ? & ?). pose proof (i_geometry _ Hi) as [].
  set (j0 := sec0 + i * fat_sectors (vol s)).
  assert (Hj : 0 <= j0 < data_start (vol s)) by (unfold j0; nia).
  apply iwp_bind, iwp_get. rewrite (wrap_small 32) by (fold j0; lia). fold j0.
  assert (Hstep : forall (all : Prop) t b, stored s t j0 b -> b = buf \/ (~ all /\ b = sec s j0) ->
    forall u, copied t u sec0 (i + 1) (Z.of_nat k) buf all ->
    copied s u sec0 i (Z.of_nat (S k)) buf all).
  { intros all t b (Hn & Hh & Hst) Hbuf u (Hn' & Hh' & Hout & Hin).
    destruct Hn as [Hit Est]. pose proof (static_vol s t Est) as (_&_&_&_&Ef&_).
    split; [by eapply next_trans|]. split; [congruence|].
    assert (Hiff : forall j, copy_of s sec0 i (Z.of_nat (S k)) j <->
              j = j0 \/ copy_of t sec0 (i + 1) (Z.of_nat k) j).
    { intros j. rewrite (static_copy s t) by done. split.
      - intros (m & Hm & ->). destruct (decide (m = i)) as [->|]; [by left|]. right. exists m.
        split; [lia|done].
      - intros [->|(m & Hm & ->)]; [exists i|exists m]; (split; [lia|done]). }
    assert (Hne : ~ copy_of t sec0 (i + 1) (Z.of_nat k) j0).
    { intros (m & Hm & E). unfold j0 in E. rewrite Ef in E. nia. }
    split; intros j Hj'; rewrite Hiff in Hj'.
    - rewrite Hout by tauto. rewrite Hst, (proj2 (Z.eqb_neq _ _)) by tauto. done.
    - destruct (decide (j = j0)) as [->|Hjn].
      + rewrite Hout, Hst, Z.eqb_refl by done. destruct Hbuf as [?|[??]]; auto.
      + destruct Hj' as [?|Hj']; [done|]. destruct (Hin j Hj') as [?|[? E]]; [by left|].
        right. split; [done|]. by rewrite E, Hst, (proj2 (Z.eqb_neq _ _)). }
  eapply iwp_seq; [apply sector_write_spec; try done; lia|..].
  - intros [] t Hst. pose proof Hst as ([Hit Est] & _).
    pose proof (static_vol s t Est) as (_&_&Er&En&Ef&_&_&_&_&Ero&_).
    eapply iwp_mono; [apply IH; try done; congruence || lia|..].
    + intros [] u Hu. eapply Hstep; [done|by left|done].
    + intros rc u (Hu & ? & ?). split; [|done]. eapply Hstep; [done|by left|done].
  - intros rc t (Hst & ? & ?). split; [|done].
    assert (exists b, stored s t j0 b /\ (b = buf \/ (~ False /\ b = sec s j0))) as (b & Hb1 & Hb2).
    { destruct Hst; [exists buf|exists (sec s j0)]; split; auto; right; split; auto. }
    eapply Hstep; [exact Hb1|exact Hb2|]. pose proof Hb1 as ([Hit Est] & _).
    split; [done|]. split; [done|]. split; [done|]. intros j Hj'. right. split; [tauto|done].
Qed.

Lemma lor_range k a b : 0 <= k -> 0 <= a < 2 ^ k -> 0 <= b < 2 ^ k -> 0 <= Z.lor a b < 2 ^ k.
Proof.
  intros Hk Ha Hb. assert (E : Z.land (Z.lor a b) (Z.ones k) = Z.lor a b).
  { rewrite Z.land_lor_distr_l, !Z.land_ones, !Z.mod_small by lia. done. }
  rewrite Z.land_ones in E by lia. rewrite <- E. apply Z.mod_pos_bound. lia.
Qed.

Lemma mask_small x : 0 <= x < 2 ^ 28 -> Z.land x FAT_MASK = x.
Proof.
  intros. change FAT_MASK with (2 ^ 28 - 1). rewrite land_mask by lia. by apply Z.mod_small.
Qed.

(** The reserved bits of an entry are kept and do not show. *)
Lemma merge_entry cur x :
  0 <= cur < 2 ^ 32 -> 0 <= x < 2 ^ 28 ->
  let y := Z.lor (Z.land cur 0xF0000000) (Z.land x FAT_MASK) in
  0 <= y < 2 ^ 32 /\ Z.land y FAT_MASK = x.
Proof.
  intros Hc Hx y. unfold y. rewrite mask_small by done. split.
  - apply lor_range; [lia| |lia].
    replace (Z.land cur 0xF0000000) with (Z.land (Z.land cur 0xF0000000) (Z.ones 32))
      by by rewrite <- Z.land_assoc.
    rewrite Z.land_ones by lia. apply Z.mod_pos_bound. lia.
  - rewrite Z.land_lor_distr_l, <- Z.land_assoc, (mask_small x) by done.
    change (Z.land 0xF0000000 FAT_MASK) with 0. by rewrite Z.land_0_r, Z.lor_0_l.
Qed.

Lemma sec_bytes s i : Forall byte_ok (sec s i) /\ zlen (sec s i) = SECTOR.
Proof. split; [apply law_sector_bytes|apply law_sector_len]. Qed.

Lemma entry_range s c : 0 <= entry s c < 2 ^ 28.
Proof.
  unfold entry. change FAT_MASK with (2 ^ 28 - 1). rewrite land_mask by lia.
  apply Z.mod_pos_bound. lia.
Qed.

Lemma small_multiple a b m f : 0 <= a < f -> 0 <= b < f -> 0 <= m -> a = b + m * f -> m = 0.
Proof. nia. Qed.
Lemma multiple_below a m n f : 0 <= a < f -> 0 <= m < n -> 0 <= a + m * f < n * f.
Proof. nia. Qed.

(** What writing an entry into its sector does to the entries. *)
Lemma copied_linked s t c x :
  inv s -> valid s c -> 0 <= x < 2 ^ 28 ->
  let q := reserved_sec (vol s) + c * 4 / SECTOR in
  let off := c * 4 mod SECTOR in
  let y := Z.lor (Z.land (fat_rd32 (sec s q) off) 0xF0000000) (Z.land x FAT_MASK) in
  let buf := fat_wr32 off y (sec s q) in
  forall all, copied s t q 0 (num_fats (vol s)) buf all ->
  linked s t c x \/ (~ all /\ linked s t c (entry s c)).
Proof.
  intros Hi Hc Hx q off y buf all (Hn & Hh & Hout & Hin).
  pose proof (geo_bounds s Hi) as (? & ? & ? & ? & ? & ?). pose proof (i_geometry _ Hi) as [].
  destruct (sec_bytes s q) as [Hb Hl].
  destruct (entry_place s c Hi Hc) as (_ & _ & Hq & Ho1 & Ho2 & Ho3). fold off in Ho1, Ho2, Ho3.
  destruct (merge_entry (fat_rd32 (sec s q) off) x (rd32_range _ _ Hb) Hx) as [Hy Hyx]. fold y in Hy, Hyx.
  destruct Hn as [Hit Est]. pose proof (static_vol s t Est) as (_&_&Er&_&_&_&Ed&Ec&_).
  assert (Hother : forall c', valid s c' -> c' <> c -> c' * 4 / SECTOR = c * 4 / SECTOR ->
    fat_rd32 buf (c' * 4 mod SECTOR) = fat_rd32 (sec s q) (c' * 4 mod SECTOR)).
  { intros c' Hc' Hne Hd. destruct (entry_place s c' Hi Hc') as (_ & _ & _ & Hp1 & Hp2 & Hp3).
    apply rd32_wr32_ne; [lia|lia|lia|]. rewrite Ho3, Hp3.
    assert (c' mod 128 <> c mod 128); [|lia]. intros E.
    unfold SECTOR in Hd. change 512 with (128 * 4) in Hd. rewrite !Z.div_mul_cancel_r in Hd by lia.
    pose proof (Z.div_mod c 128). pose proof (Z.div_mod c' 128). lia. }
  assert (Hfar : forall c', valid s c' -> c' * 4 / SECTOR <> c * 4 / SECTOR ->
    sec t (reserved_sec (vol s) + c' * 4 / SECTOR) = sec s (reserved_sec (vol s) + c' * 4 / SECTOR)).
  { intros c' Hc' Hne. destruct (entry_place s c' Hi Hc') as (_ & _ & Hq' & _). apply Hout.
    intros (m & Hm & E). unfold q in E.
    assert (m = 0) as -> by (eapply (small_multiple _ (c * 4 / SECTOR)); [exact Hq'|exact Hq|..]; lia). lia. }
  assert (Htab : forall i, outside_table s i -> sec t i = sec s i).
  { intros i Hout'. apply Hout. intros (m & Hm & ->). unfold q, outside_table in Hout'.
    pose proof (multiple_below (c * 4 / SECTOR) m (num_fats (vol s)) _ Hq ltac:(lia)). lia. }
  assert (Hgo : forall b, sec t q = b -> fat_rd32 b off = y \/ fat_rd32 b off = fat_rd32 (sec s q) off ->
    b = buf \/ b = sec s q -> linked s t c (Z.land (fat_rd32 b off) FAT_MASK)).
  { intros b Eb Hv Hb'. split; [done|]. split; [done|]. split; [|done]. intros c' Hc'.
    unfold entry. rewrite Er. destruct (Z.eqb_spec c' c) as [->|Hne]; [fold q off; by rewrite Eb|].
    destruct (decide (c' * 4 / SECTOR = c * 4 / SECTOR)) as [E|E].
    - rewrite E. fold q. rewrite Eb. destruct Hb' as [->| ->]; [by rewrite Hother|done].
    - by rewrite Hfar. }
  assert (Hcq : copy_of s q 0 (num_fats (vol s)) q) by (exists 0; lia).
  assert (Hrd : fat_rd32 buf off = y) by (apply rd32_wr32; [done|lia|lia|done]).
  destruct (Hin q Hcq) as [E|[Ha E]].
  - left. rewrite <- Hyx, <- Hrd. apply Hgo; auto.
  - right. split; [done|]. apply Hgo; auto.
Qed.

Lemma set_spec s c x :
  inv s -> read_only (vol s) = false -> valid s c -> 0 <= x < 2 ^ 28 ->
  iwp (fat_set c x) s (fun _ t => linked s t c x)
    (fun rc t => (linked s t c x \/ linked s t c (entry s c)) /\ rc = VFS_EINVAL /\ ~ reliable D).
Proof.
  intros Hi Hro Hc Hx. unfold fat_set. apply iwp_bind, iwp_get.
  rewrite (proj2 (clus_valid_spec s c Hi) Hc). cbn [negb].
  destruct (entry_place s c Hi Hc) as (-> & -> & Hq & Ho1 & Ho2 & _).
  pose proof (geo_bounds s Hi) as (? & ? & ? & ? & ? & ?). pose proof (i_geometry _ Hi) as [].
  assert (Hself : forall t, same s t -> linked s t c (entry s c)).
  { intros t ([Hit Est] & Hsec & Hh). split; [done|]. split; [done|]. split; [|done].
    intros c' Hc'. unfold entry. pose proof (static_vol s t Est) as (_&_&->&_). rewrite Hsec.
    by destruct (Z.eqb_spec c' c) as [->|]. }
  eapply iwp_seq; [apply sector_read_spec; [done|lia|lia]|..].
  2: { intros rc t (Hs & ? & ?). split; [right; by apply Hself|done]. }
  intros b t [Hs ->]. destruct Hs as ([Hit Est] & Hsec & Hh).
  pose proof (static_vol s t Est) as (_&_&Er&En&Ef&_&_&_&_&Ero&_).
  destruct (sec_bytes s (reserved_sec (vol s) + c * 4 / SECTOR)) as [Hb Hl].
  set (buf := fat_wr32 _ _ _).
  assert (Hc' : forall u all, copied t u (reserved_sec (vol s) + c * 4 / SECTOR) 0 (num_fats (vol s)) buf all ->
    linked s u c x \/ (~ all /\ linked s u c (entry s c))).
  { intros u all (Hn & Hh' & Hout & Hin). apply (copied_linked s u c x Hi Hc Hx).
    split; [by eapply next_trans|]. split; [congruence|].
    split; intros j Hj; rewrite <- (static_copy s t) in Hj by done.
    - by rewrite Hout, Hsec.
    - destruct (Hin j Hj) as [?|[? ->]]; [by left|]. right. split; [done|]. apply Hsec. }
  eapply iwp_mono.
  - apply write_copies_spec; [done|congruence|unfold buf; by rewrite zlen_wr32|by apply wr32_bytes|lia|..].
    + rewrite Z2Nat.id, En by lia. lia.
    + rewrite Er, Ef. lia.
  - intros [] u Hu. rewrite Z2Nat.id in Hu by lia. destruct (Hc' u True Hu) as [?|[? _]]; [done|tauto].
  - intros rc u (Hu & ? & ?). rewrite Z2Nat.id in Hu by lia. split; [|done].
    destruct (Hc' u False Hu) as [?|[_ ?]]; [by left|by right].
Qed.

End Table.

(** ** Cluster chains of a FAT volume: following, allocating and freeing them, and what
    stays untouched meanwhile. *)

Section Chain.
Context {D : Type} `{DiskLaws D}.
Implicit Types (s t u : vst D) (l : list Z) (X : Z -> Prop).

(** Cluster [c] has the same entry, and the same bytes. *)
Definition data_same s t c : Prop :=
  forall k, 0 <= k < sec_per_clus (vol s) -> sec t (dsec s c k) = sec s (dsec s c k).

(** From [s] to [t] only the clusters of [X] changed; nothing before the table did. *)
Definition frame X s t : Prop :=
  next s t /\ (forall c, valid s c -> ~ X c -> entry t c = entry s c /\ data_same s t c) /\
  (forall i, i < reserved_sec (vol s) -> sec t i = sec s i).

(** The chain of a file: each cluster's entry names the next, the last one's ends it. *)
Fixpoint chain s l : Prop :=
  match l with
  | [] => True
  | c :: r => valid s c /\ chain s r /\
              match r with [] => FAT_EOC <= entry s c | d :: _ => entry s c = d end
  end.

Lemma static_valid s t c : static t = static s -> valid t c <-> valid s c.
Proof. intros E. unfold valid. by destruct (static_vol s t E) as (_&_&_&_&_&_&_&->&_). Qed.

Lemma static_dsec s t c k : static t = static s -> dsec t c k = dsec s c k.
Proof. intros E. unfold dsec. by destruct (static_vol s t E) as (->&_&_&_&_&_&->&_). Qed.

Lemma frame_refl X s : inv s -> frame X s s.
Proof. intros Hi. split; [done|]. split; [|done]. intros c _ _. split; [done|]. by intros k _. Qed.

Lemma frame_trans X s t u : frame X s t -> frame X t u -> frame X s u.
Proof.
  intros (Hn & Hc & Hr) (Hn' & Hc' & Hr'). pose proof Hn as [_ Est].
  pose proof (static_vol s t Est) as (Espc&_&Er&_).
  split; [by eapply next_trans|]. split.
  - intros c Hv Hx. destruct (Hc c Hv Hx) as [E1 D1].
    destruct (Hc' c) as [E2 D2]; [by apply (static_valid s t)|done|]. split; [congruence|].
    intros k Hk. rewrite <- (D1 k Hk). rewrite <- (static_dsec s t) by done. apply D2. by rewrite Espc.
  - intros i Hi. rewrite Hr' by lia. by apply Hr.
Qed.

Lemma frame_mono X Y s t : (forall c, X c -> Y c) -> frame X s t -> frame Y s t.
Proof. intros HXY (Hn & Hc & Hr). split; [done|]. split; [|done]. intros c Hv Hy. apply Hc; auto. Qed.

Lemma same_entry s t c : same s t -> entry t c = entry s c.
Proof.
  intros ([_ Est] & Hsec & _). unfold entry.
  destruct (static_vol s t Est) as (_&_&->&_). by rewrite Hsec.
Qed.

Lemma same_frame X s t : same s t -> frame X s t.
Proof.
  intros Hs. pose proof Hs as (Hn & Hsec & _). split; [done|]. split; [|by intros].
  intros c _ _. split; [by apply same_entry|]. intros k _. apply Hsec.
Qed.

Lemma linked_frame s t c x : inv s -> linked s t c x -> frame (eq c) s t.
Proof.
  intros Hi (Hn & _ & He & Ho). split; [done|]. pose proof (geo_bounds s Hi). split.
  - intros c' Hv Hx. split; [rewrite He by done; by rewrite (proj2 (Z.eqb_neq _ _)) by congruence|].
    intros k Hk. apply Ho. right. apply (dsec_range s c' k Hi Hv Hk).
  - intros i Hlt. apply Ho. left. lia.
Qed.

Lemma linked_data s t c x c' : inv s -> linked s t c x -> valid s c' -> data_same s t c'.
Proof.
  intros Hi (_ & _ & _ & Ho) Hv k Hk. apply Ho. right. apply (dsec_range s c' k Hi Hv Hk).
Qed.

Lemma chain_same s t l : static t = static s ->
  (forall c, c ∈ l -> valid s c -> entry t c = entry s c) -> chain s l -> chain t l.
Proof.
  intros Est. induction l as [|c r IH]; intros He Hl; [done|]. destruct Hl as (Hv & Hr & Hn).
  cbn [chain]. split; [by apply (static_valid s t)|]. split.
  - apply IH; [|done]. intros d Hd. apply He. by right.
  - rewrite (He c) by (done || left). done.
Qed.

Lemma chain_frame X s t l :
  frame X s t -> (forall c, c ∈ l -> ~ X c) -> chain s l -> chain t l.
Proof.
  intros (Hn & Hc & _) Hx. apply chain_same; [apply Hn|]. intros c Hl Hv.
  apply Hc; [done|by apply Hx].
Qed.

(** A valid cluster number is not an end mark. *)
Lemma valid_below_eoc s c : inv s -> valid s c -> 2 <= c < FAT_EOC.
Proof.
  intros Hi [H1 H2]. pose proof (i_geometry _ Hi) as []. unfold FAT_EOC. nia.
Qed.

Lemma chain_valid s l c : chain s l -> c ∈ l -> valid s c.
Proof.
  induction l as [|d r IH]; intros Hl Hc; [by apply elem_of_nil in Hc|].
  destruct Hl as (Hv & Hr & _). apply elem_of_cons in Hc as [->|Hc]; [done|by apply IH].
Qed.

(** A chain is determined by its first cluster, so it never comes back to a cluster. *)
Lemma chain_inj s c r r' : inv s -> chain s (c :: r) -> chain s (c :: r') -> r = r'.
Proof.
  intros Hi. revert c r'. induction r as [|d r IH]; intros c r' H1 H2;
    destruct H1 as (Hv & Hr & Hn); destruct r' as [|d' r']; destruct H2 as (_ & Hr' & Hn').
  - done.
  - destruct Hr' as (Hv' & _). pose proof (valid_below_eoc s d' Hi Hv'). lia.
  - destruct Hr as (Hv' & _). pose proof (valid_below_eoc s d Hi Hv'). lia.
  - assert (d = d') as <- by congruence. f_equal. by apply (IH d).
Qed.

Lemma chain_suffix s l r : chain s (l ++ r) -> chain s r.
Proof. induction l as [|c l IH]; [done|]. intros (_ & Hr & _). by apply IH. Qed.

Lemma chain_nodup s l : inv s -> chain s l -> NoDup l.
Proof.
  intros Hi. induction l as [|c r IH]; intros Hl; [constructor|].
  constructor; [|apply IH; apply Hl]. intros Hc.
  apply list_elem_of_split in Hc as (r1 & r2 & ->).
  assert (E : r1 ++ c :: r2 = r2).
  { apply (chain_inj s c); [done|done|]. apply (chain_suffix s (c :: r1)). done. }
  apply (f_equal length) in E. rewrite length_app in E. cbn in E. lia.
Qed.

(** *** Following a chain *)

Lemma next_spec s c :
  inv s -> valid s c ->
  iwp (fat_chain_next c) s
    (fun n t => same s t /\ ((n = 0 /\ FAT_EOC <= entry s c) \/ (n = entry s c /\ valid s n)))
    (fun rc t => same s t /\ rc = VFS_EINVAL /\
       (~ reliable D \/ (entry s c < FAT_EOC /\ ~ valid s (entry s c)))).
Proof.
  intros Hi Hc. unfold fat_chain_next. eapply iwp_seq; [by apply get_spec|..].
  2: { intros rc t (Hs & -> & Hr). auto. }
  intros x t [Hs ->]. apply iwp_bind, iwp_get. pose proof Hs as ([Hit Est] & _).
  pose proof (static_vol s t Est) as (_&_&_&_&_&_&_&->&_).
  pose proof (geo_bounds s Hi). pose proof (g_clusters _ (i_geometry _ Hi)).
  rewrite wrap_small by lia. destruct (Z.leb_spec FAT_EOC (entry s c)); [apply iwp_ret; auto|].
  destruct (_ || _) eqn:E; [apply iwp_fail|apply iwp_ret].
  - split; [done|]. split; [done|]. right. split; [done|]. unfold valid. b2p.
    destruct E; b2p; lia.
  - split; [done|]. right. split; [done|]. unfold valid. b2p. lia.
Qed.

(** The next cluster of a chain. *)
Lemma chain_next_spec s l i c :
  inv s -> chain s l -> l !! i = Some c ->
  iwp (fat_chain_next c) s
    (fun n t => same s t /\ match l !! S i with Some d => n = d /\ n <> 0 | None => n = 0 end)
    (fun rc t => same s t /\ rc = VFS_EINVAL /\ ~ reliable D).
Proof.
  intros Hi Hl Hc.
  assert (Hv : valid s c) by (eapply chain_valid; [done|by eapply list_elem_of_lookup_2]).
  assert (He : match l !! S i with Some d => entry s c = d /\ valid s d | None => FAT_EOC <= entry s c end).
  { rewrite <- (take_drop i l) in Hl. rewrite (drop_S l c i Hc) in Hl.
    apply chain_suffix in Hl. destruct Hl as (_ & Hr & Hn).
    replace (l !! S i) with (drop (S i) l !! 0%nat) by (rewrite lookup_drop; f_equal; lia).
    destruct (drop (S i) l) as [|d r]; cbn; [done|]. split; [done|]. apply Hr. }
  eapply iwp_mono; [by apply next_spec|..].
  - intros n t [Hs Hn]. split; [done|]. destruct (l !! S i) as [d|].
    + destruct He as [<- Hd]. pose proof (valid_below_eoc s _ Hi Hd).
      destruct Hn as [[? ?]|[-> ?]]; [lia|]. split; [done|lia].
    + destruct Hn as [[? _]|[-> Hd]]; [done|]. pose proof (valid_below_eoc s _ Hi Hd). lia.
  - intros rc t (Hs & -> & Hr). split; [done|]. split; [done|]. destruct Hr as [?|[Hlt Hnv]]; [done|].
    destruct (l !! S i) as [d|]; [|lia]. destruct He as [E ?]. by rewrite E in Hnv.
Qed.

Lemma chain_walk_spec k : forall s l i c,
  inv s -> chain s l -> l !! i = Some c ->
  iwp (chain_walk k c) s (fun x t => same s t /\ l !! (i + k)%nat = Some x)
    (fun rc t => same s t /\ ((rc = VFS_ENOENT /\ l !! (i + k)%nat = None) \/
                              (rc = VFS_EINVAL /\ ~ reliable D))).
Proof.
  induction k as [|k IH]; intros s l i c Hi Hl Hc; cbn [chain_walk].
  { apply iwp_ret. by rewrite Nat.add_0_r. }
  eapply iwp_seq; [by apply (chain_next_spec s l i)|..].
  2: { intros rc t (Hs & -> & ?). auto. }
  intros n t [Hs Hn]. replace (i + S k)%nat with (S i + k)%nat by lia.
  destruct (l !! S i) as [d|] eqn:E.
  - destruct Hn as [-> Hn0]. rewrite (proj2 (Z.eqb_neq _ _)) by done.
    pose proof Hs as ([Hit Est] & _).
    eapply iwp_mono; [apply (IH t l (S i) d); [done| |done]|..].
    + eapply chain_same; [done|by intros; apply same_entry|done].
    + intros x u [Hs' Hx]. split; [by eapply same_trans|done].
    + intros rc u [Hs' Hx]. split; [by eapply same_trans|done].
  - subst n. cbn [Z.eqb]. apply iwp_fail. split; [done|]. left. split; [done|].
    apply lookup_ge_None in E. apply lookup_ge_None. lia.
Qed.

(** *** Allocation *)

Lemma dsec_inj s c c' k k' :
  0 <= k < sec_per_clus (vol s) -> 0 <= k' < sec_per_clus (vol s) ->
  dsec s c k = dsec s c' k' -> c = c' /\ k = k'.
Proof. unfold dsec. intros. assert (c = c') by nia. subst. lia. Qed.

Lemma zero_sector_ok : zlen zero_sector = SECTOR /\ Forall byte_ok zero_sector.
Proof. split; [done|]. by apply Forall_replicate. Qed.

Lemma zero_sectors_spec k : forall s c j,
  inv s -> read_only (vol s) = false -> valid s c -> 0 <= j -> j + Z.of_nat k <= sec_per_clus (vol s) ->
  let inside i := exists m, j <= m < j + Z.of_nat k /\ i = dsec s c m in
  iwp (zero_sectors k (dsec s c j)) s
    (fun _ t => next s t /\ alloc_hint (vol t) = alloc_hint (vol s) /\
       (forall i, ~ inside i -> sec t i = sec s i) /\ (forall i, inside i -> sec t i = zero_sector))
    (fun rc t => next s t /\ (forall i, ~ inside i -> sec t i = sec s i) /\ rc = VFS_EINVAL /\ ~ reliable D).
Proof.
  induction k as [|k IH]; intros s c j Hi Hro Hc Hj Hk inside; cbn [zero_sectors].
  { apply iwp_ret. do 2 (split; [done|]). split; [done|]. intros i (m & ? & _). lia. }
  destruct zero_sector_ok as [Hzl Hzb].
  destruct (dsec_range s c j Hi Hc ltac:(lia)) as (_ & ? & ? & ? & ?).
  pose proof (geo_bounds s Hi).
  eapply iwp_seq; [apply (sector_write_spec s (dsec s c j) zero_sector Hi); [lia|lia|done|done|done]|..].
  - intros [] t Hst. pose proof Hst as ([Hit Est] & Hh & Hsec).
    pose proof (static_vol s t Est) as (Espc&_&_&_&_&_&_&_&_&Ero&_).
    replace (wrap32 (dsec s c j + 1)) with (dsec t c (j + 1))
      by (rewrite (static_dsec s t) by done; rewrite wrap_small by lia; unfold dsec; lia).
    assert (Hiff : forall i, inside i <-> i = dsec s c j \/
              exists m, j + 1 <= m < j + 1 + Z.of_nat k /\ i = dsec t c m).
    { intros i. unfold inside. split.
      - intros (m & Hm & ->). destruct (decide (m = j)) as [->|]; [by left|]. right. exists m.
        split; [lia|]. by rewrite (static_dsec s t).
      - intros [->|(m & Hm & ->)]; [exists j; split; [lia|done]|]. exists m. split; [lia|].
        by rewrite (static_dsec s t). }
    eapply iwp_mono; [apply (IH t c (j + 1)); [done|congruence|by apply (static_valid s t)|lia|lia]|..].
    + intros [] u (Hn & Hh' & Hout & Hin). split; [by eapply next_trans|]. split; [congruence|].
      split; intros i Hii; rewrite Hiff in Hii.
      * rewrite Hout by tauto. rewrite Hsec, (proj2 (Z.eqb_neq _ _)) by tauto. done.
      * destruct Hii as [->|Hm]; [|by apply Hin].
        rewrite Hout, Hsec, Z.eqb_refl; [done|]. intros (m & Hm & E).
        rewrite (static_dsec s t) in E by done. unfold dsec in E. lia.
    + intros rc u (Hn & Hout & ? & ?). split; [by eapply next_trans|]. split; [|done].
      intros i Hii. rewrite Hiff in Hii. rewrite Hout by tauto.
      rewrite Hsec, (proj2 (Z.eqb_neq _ _)) by tauto. done.
  - intros rc t (Hst & ? & ?). split; [by destruct Hst as [[]|[]]|]. split; [|done].
    intros i Hii. assert (i <> dsec s c j) by (intros ->; apply Hii; exists j; split; [lia|done]).
    destruct Hst as [(_ & _ & ->)|(_ & _ & ->)]; by rewrite (proj2 (Z.eqb_neq _ _)).
Qed.

Lemma dsec_not_table s c k i :
  inv s -> valid s c -> 0 <= k < sec_per_clus (vol s) -> ~ outside_table s i -> dsec s c k <> i.
Proof.
  intros Hi Hc Hk Ho <-. apply Ho. right. apply (dsec_range s c k Hi Hc Hk).
Qed.

(** Changing sectors of one cluster's data leaves every entry and every other cluster. *)
Lemma data_frame s t c :
  inv s -> valid s c -> next s t ->
  (forall i, ~ (exists m, 0 <= m < sec_per_clus (vol s) /\ i = dsec s c m) -> sec t i = sec s i) ->
  frame (eq c) s t /\ forall c', valid s c' -> entry t c' = entry s c'.
Proof.
  intros Hi Hc Hn Hsec. pose proof Hn as [_ Est]. pose proof (geo_bounds s Hi) as (? & ? & ? & ? & ? & ?).
  assert (He : forall c', valid s c' -> entry t c' = entry s c').
  { intros c' Hc'. destruct (entry_place s c' Hi Hc') as (_ & _ & Hq & _).
    unfold entry. destruct (static_vol s t Est) as (_&_&->&_). rewrite Hsec; [done|].
    intros (m & Hm & E). symmetry in E. revert E. apply dsec_not_table; try done.
    unfold outside_table. lia. }
  split; [|done]. split; [done|]. split.
  - intros c' Hc' Hne. split; [by apply He|]. intros k Hk. apply Hsec. intros (m & Hm & E).
    apply dsec_inj in E as [E _]; [|done|done]. congruence.
  - intros i Hlt. apply Hsec. intros (m & Hm & E). symmetry in E. revert E.
    pose proof (dsec_range s c m Hi Hc Hm). lia.
Qed.

Definition zeroed s t c : Prop :=
  forall k, 0 <= k < sec_per_clus (vol s) -> sec t (dsec s c k) = zero_sector.

Lemma zero_cluster_spec s c :
  inv s -> read_only (vol s) = false -> valid s c ->
  iwp (fat_zero_cluster c) s
    (fun _ t => frame (eq c) s t /\ alloc_hint (vol t) = alloc_hint (vol s) /\
       (forall c', valid s c' -> entry t c' = entry s c') /\ zeroed s t c)
    (fun rc t => frame (eq c) s t /\ (forall c', valid s c' -> entry t c' = entry s c') /\
       rc = VFS_EINVAL /\ ~ reliable D).
Proof.
  intros Hi Hro Hc. unfold fat_zero_cluster. apply iwp_bind, iwp_get.
  pose proof (g_spc _ (i_geometry _ Hi)).
  destruct (dsec_range s c 0 Hi Hc ltac:(lia)) as (-> & _).
  eapply iwp_mono; [apply (zero_sectors_spec (Z.to_nat (sec_per_clus (vol s))) s c 0 Hi Hro Hc); lia|..].
  - rewrite Z2Nat.id, Z.add_0_l by lia. intros [] t (Hn & Hh & Hout & Hin).
    destruct (data_frame s t c Hi Hc Hn Hout) as [Hf He]. split; [done|]. split; [done|].
    split; [done|]. intros k Hk. apply Hin. by exists k.
  - rewrite Z2Nat.id, Z.add_0_l by lia. intros rc t (Hn & Hout & ? & ?).
    destruct (data_frame s t c Hi Hc Hn Hout) as [Hf He]. done.
Qed.

(** [t] is [s] with the free cluster [c] zeroed and marked as the end of a chain. *)
Definition allocated s t c : Prop :=
  valid s c /\ entry s c = FAT_FREE /\ frame (eq c) s t /\ FAT_EOC <= entry t c /\ zeroed s t c.

(** Only clusters that were free in [s] changed. *)
Definition only_free s t : Prop := frame (fun c => entry s c = FAT_FREE) s t.

(** The [n]-th cluster the allocator looks at. *)
Definition candidate s (start n : Z) : Z :=
  let c := start + n in if clusters (vol s) + 2 <=? c then c - clusters (vol s) else c.

Lemma candidate_valid s start n :
  inv s -> valid s start -> 0 <= n < clusters (vol s) -> valid s (candidate s start n).
Proof.
  unfold valid, candidate. intros Hi ??. cbn zeta. ztest; lia.
Qed.

Lemma candidate_covers s start c :
  valid s start -> valid s c -> exists n, 0 <= n < clusters (vol s) /\ candidate s start n = c.
Proof.
  unfold valid, candidate. intros. cbn zeta.
  destruct (Z_lt_le_dec c start); [exists (c + clusters (vol s) - start)|exists (c - start)];
    (split; [lia|]); ztest; lia.
Qed.

Lemma set_hint_inv s h : inv s -> inv (upd_vol (set_hint h) s).
Proof. intros [[] ? ? ?]. split; [split; done|done|done|done]. Qed.

Lemma set_hint_frame X s t h : frame X s t -> frame X s (upd_vol (set_hint h) t).
Proof.
  intros ([Hi Est] & Hc & Hr). split; [split; [by apply set_hint_inv|done]|].
  split; [|done]. intros c Hv Hx. by apply Hc.
Qed.

Lemma zeroed_static s t u c : static t = static s -> zeroed t u c -> zeroed s u c.
Proof.
  intros Est Hz k Hk. rewrite <- (static_dsec s t) by done. apply Hz.
  by destruct (static_vol s t Est) as (->&_).
Qed.

Lemma alloc_scan_spec k : forall s start n,
  inv s -> read_only (vol s) = false -> valid s start -> 0 <= n -> n + Z.of_nat k = clusters (vol s) ->
  (forall m, 0 <= m < n -> entry s (candidate s start m) <> FAT_FREE) ->
  iwp (alloc_scan k start n) s (fun c t => allocated s t c)
    (fun rc t => only_free s t /\
       (reliable D -> rc = VFS_ENOSPC /\ forall c, valid s c -> entry s c <> FAT_FREE)).
Proof.
  induction k as [|k IH]; intros s start n Hi Hro Hst Hn Hk Hseen; cbn [alloc_scan].
  { apply iwp_fail. split; [by apply frame_refl|]. intros _. split; [done|]. intros c Hc.
    destruct (candidate_covers s start c Hst Hc) as (m & Hm & <-). apply Hseen. lia. }
  apply iwp_bind, iwp_get. pose proof (geo_bounds s Hi) as (_ & _ & Hcl & _).
  unfold valid in Hst. rewrite !(wrap_small 32) by lia.
  assert (Ec : (if clusters (vol s) + 2 <=? start + n
                then wrap32 (start + n - clusters (vol s)) else start + n) = candidate s start n).
  { unfold candidate. cbn zeta. ztest; [|done]. apply wrap_small. lia. }
  rewrite Ec. set (c := candidate s start n) in *.
  assert (Hc : valid s c) by (apply candidate_valid; [done|done|lia]).
  eapply iwp_seq; [by apply get_spec|..].
  2: { intros rc t (Hs & ? & ?). split; [by apply same_frame|]. done. }
  intros x t [Hs ->]. pose proof Hs as ([Hit Est] & Hsec & Hh).
  pose proof (static_vol s t Est) as (Espc&_&_&_&_&_&_&Ecl&_&Ero&_).
  destruct (Z.eqb_spec (entry s c) FAT_FREE) as [Hfree|Hused]; cbn [negb].
  - assert (Hct : valid t c) by by apply (static_valid s t).
    assert (Hof : forall u, frame (eq c) t u -> only_free s u).
    { intros u Hu. eapply frame_trans; [by apply same_frame|].
      eapply frame_mono; [|exact Hu]. by intros ? <-. }
    eapply iwp_seq; [apply zero_cluster_spec; [done|congruence|done]|..].
    2: { intros rc u (Hu & ? & ? & ?). split; [by apply Hof|done]. }
    intros [] u (Hu & Hhu & Heu & Hz). pose proof Hu as ([Hiu Esu] & _).
    pose proof (static_vol t u Esu) as (Espc'&_&_&_&_&_&_&Ecl'&_&Ero'&_).
    assert (Hcu : valid u c) by by apply (static_valid t u).
    eapply iwp_seq; [apply set_spec; [done|congruence|done|done]|..].
    2: { intros rc w (Hw & ? & ?). split; [|done]. apply Hof. eapply frame_trans; [done|].
         destruct Hw; by eapply linked_frame. }
    intros [] w Hw. apply iwp_bind, iwp_set, iwp_ret.
    assert (Hfw : frame (eq c) s w).
    { eapply frame_trans; [by apply same_frame|]. eapply frame_trans; [done|].
      by eapply linked_frame. }
    split; [done|]. split; [done|]. split; [by apply set_hint_frame|]. split.
    + pose proof Hw as (_ & _ & Hwe & _).
      change (FAT_EOC <= entry w c). rewrite Hwe, Z.eqb_refl by done. done.
    + intros m Hm. change (sec w (dsec s c m) = zero_sector).
      pose proof (linked_data u w c _ c Hiu Hw Hcu m) as Hd.
      rewrite (static_dsec t u), (static_dsec s t) in Hd by done. rewrite Hd by congruence || lia.
      rewrite <- (static_dsec s t) by done. apply Hz. by rewrite Espc.
  - assert (Hcand : forall m, candidate t start m = candidate s start m)
      by (intros m; unfold candidate; by rewrite Ecl).
    eapply iwp_mono; [apply (IH t start (n + 1)); [done|congruence|unfold valid; lia|lia|lia|]|..].
    + intros m Hm. rewrite Hcand, (same_entry s t) by done.
      destruct (decide (m = n)) as [->|]; [done|]. apply Hseen. lia.
    + intros c' u (Hv & He & Hf & Hx & Hz). split; [by apply (static_valid s t)|].
      split; [by rewrite <- (same_entry s t)|]. split; [|split; [done|by eapply zeroed_static]].
      eapply frame_trans; [by apply same_frame|done].
    + intros rc u [Hf Hx]. split.
      * eapply frame_trans; [by apply same_frame|]. eapply frame_mono; [|exact Hf].
        intros c'. cbv beta. by rewrite (same_entry s t).
      * intros Hrel. destruct (Hx Hrel) as [-> Hall]. split; [done|]. intros c' Hc'.
        rewrite <- (same_entry s t) by done. apply Hall. by apply (static_valid s t).
Qed.

Lemma alloc_spec s :
  inv s -> read_only (vol s) = false ->
  iwp fat_alloc_cluster s (fun c t => allocated s t c)
    (fun rc t => only_free s t /\
       (reliable D -> rc = VFS_ENOSPC /\ forall c, valid s c -> entry s c <> FAT_FREE)).
Proof.
  intros Hi Hro. unfold fat_alloc_cluster. apply iwp_bind, iwp_get. rewrite Hro.
  pose proof (g_clusters _ (i_geometry _ Hi)).
  apply alloc_scan_spec; [done|done| |lia|lia|lia].
  destruct (fat_clus_valid (vol s) (alloc_hint (vol s))) eqn:E; [by apply clus_valid_spec|].
  unfold valid. lia.
Qed.

End Chain.
