(* ===== verification/FatRw.v ===== *)
(** fs/fat/fat.c: making the chain of a file longer, and the transfers that read and write
    the bytes on it. *)

From S2P Require Import Prelude Bytes Rtc Vfs Block FatVol FatMount FatFile FatDisk FatChain.

(** The last cluster of a chain. *)
Abbreviation last := list.last.

Section Grow.
Context {D : Type} `{DiskLaws D}.
Implicit Types (s t u : vst D) (l new : list Z).

(** From [s] to [t] the chain [l] got the clusters [new] at its end: they were free,
    and are zeroed. Nothing else changed but the entry of the last cluster of [l] and,
    when [leak], other clusters that were free. *)
Record longer (leak : Prop) s t l new : Prop := {
  gr_next : next s t;
  gr_chain : chain t (l ++ new);
  gr_new : forall c, c ∈ new -> valid s c /\ entry s c = FAT_FREE /\ zeroed s t c;
  gr_rest : forall c, valid s c -> c ∉ new -> ~ (leak /\ entry s c = FAT_FREE) ->
            data_same s t c /\ (last l <> Some c -> entry t c = entry s c);
  gr_low : forall i, i < reserved_sec (vol s) -> sec t i = sec s i }.

Lemma chain_used s l c : inv s -> chain s l -> c ∈ l -> entry s c <> FAT_FREE.
Proof.
  intros Hi. induction l as [|d r IH]; intros Hl Hc; [by apply elem_of_nil in Hc|].
  destruct Hl as (Hv & Hr & Hn). apply elem_of_cons in Hc as [->|Hc]; [|by apply IH].
  destruct r as [|e r].
  - unfold FAT_FREE, FAT_EOC in *. lia.
  - destruct Hr as (Hv' & _). pose proof (valid_below_eoc s e Hi Hv'). unfold FAT_FREE. lia.
Qed.

Lemma last_elem l c : last l = Some c -> c ∈ l.
Proof. intros. by apply last_Some_elem_of. Qed.

Lemma data_same_trans s t u c :
  static t = static s -> data_same s t c -> data_same t u c -> data_same s u c.
Proof.
  intros Est H1 H2 k Hk. rewrite <- (H1 k Hk), <- (static_dsec s t) by done. apply H2.
  by destruct (static_vol s t Est) as (->&_).
Qed.

Lemma longer_refl leak s l : inv s -> chain s l -> longer leak s s l [].
Proof.
  intros Hi Hl. split; [done|by rewrite app_nil_r|by intros c ?%elem_of_nil|by intros|done].
Qed.

Lemma longer_same leak s t l : same s t -> chain s l -> longer leak s t l [].
Proof.
  intros Hs Hl. pose proof Hs as ([Hi Est] & Hsec & _).
  split; [done| |by intros c ?%elem_of_nil| |by intros].
  - rewrite app_nil_r. eapply chain_same; [done|by intros; apply same_entry|done].
  - intros c _ _ _. split; [by intros k _|]. intros _. by apply same_entry.
Qed.

(** A chain that grew, and grew again. *)
Lemma longer_trans leak s t u l new1 new2 :
  longer False s t l new1 -> longer leak t u (l ++ new1) new2 -> longer leak s u l (new1 ++ new2).
Proof.
  intros [Hn1 Hc1 Hnew1 Hr1 Hl1] [Hn2 Hc2 Hnew2 Hr2 Hl2]. pose proof Hn1 as [Hit Est].
  assert (Hold : forall c, c ∈ new2 -> (c ∉ l ++ new1) /\ valid s c /\ entry s c = FAT_FREE).
  { intros c Hc. destruct (Hnew2 c Hc) as (Hv & Hf & _).
    assert (Hout : c ∉ l ++ new1) by (intros Hin; by apply (chain_used t _ c Hit Hc1)).
    apply (static_valid s t) in Hv; [|done]. split; [done|]. split; [done|].
    rewrite elem_of_app in Hout. destruct (Hr1 c Hv) as [_ He]; [tauto|tauto|].
    rewrite <- He; [done|]. intros Hlast%last_elem. tauto. }
  split.
  - by eapply next_trans.
  - by rewrite app_assoc.
  - intros c [Hc|Hc]%elem_of_app.
    + destruct (Hnew1 c Hc) as (Hv & Hf & Hz). split; [done|]. split; [done|].
      assert (Hds : data_same t u c).
      { apply (Hr2 c); [by apply (static_valid s t)|intros Hin; destruct (Hold c Hin) as [Ho _]; apply Ho, elem_of_app; auto|].
        intros [_ Hfr]. revert Hfr. eapply chain_used; [done|exact Hc1|apply elem_of_app; auto]. }
      intros k Hk. rewrite <- (Hz k Hk), <- (static_dsec s t) by done. apply Hds.
      by destruct (static_vol s t Est) as (->&_).
    + destruct (Hold c Hc) as (_ & Hv & Hf). split; [done|]. split; [done|].
      destruct (Hnew2 c Hc) as (_ & _ & Hz). by eapply zeroed_static.
  - intros c Hv Hnin Hleak. rewrite elem_of_app in Hnin.
    destruct (Hr1 c Hv) as [Hd1 He1]; [tauto|tauto|].
    destruct (decide (last l = Some c)) as [Hlast|Hlast].
    + destruct (Hr2 c) as [Hd2 _]; [by apply (static_valid s t)|tauto| |split; [by eapply data_same_trans|done]].
      intros [_ Hf]. revert Hf. apply (chain_used t (l ++ new1)); [done|done|].
      apply elem_of_app. left. by apply last_elem.
    + specialize (He1 Hlast).
      destruct (Hr2 c) as [Hd2 He2]; [by apply (static_valid s t)|tauto|by rewrite He1|].
      split; [by eapply data_same_trans|]. intros _. rewrite <- He1. apply He2.
      destruct new1 as [|d new1]; [by rewrite app_nil_r|].
      rewrite last_app_cons. intros E%last_elem. tauto.
  - intros i Hi. rewrite Hl2; [by apply Hl1|]. destruct (static_vol s t Est) as (_&_&->&_). done.
Qed.

(** One cluster more after the last. *)
Lemma allocated_used s t c c' :
  allocated s t c -> valid s c' -> entry s c' <> FAT_FREE -> entry t c' = entry s c' /\ data_same s t c'.
Proof. intros (_ & Hf & (_ & Hc & _) & _) Hv Hu. apply Hc; [done|]. by intros ->. Qed.

Lemma chain_snoc s l c d :
  chain s (l ++ [c]) -> valid s d -> d ∉ l ++ [c] ->
  forall t, static t = static s -> FAT_EOC <= entry t d -> entry t c = d ->
  (forall e, e ∈ l -> entry t e = entry s e) -> chain t (l ++ [c; d]).
Proof.
  intros Hl Hd Hout t Est Ht Hc He. assert (Hdt : valid t d) by by apply (static_valid s t).
  induction l as [|e r IH].
  - destruct Hl as (Hv & _). cbn [app chain]. split; [by apply (static_valid s t)|done].
  - cbn [app] in Hl |- *. destruct Hl as (Hv & Hr & Hn). cbn [chain].
    split; [by apply (static_valid s t)|]. split.
    + apply IH; [done|intros Hin; apply Hout; by right|]. intros x Hx. apply He. by right.
    + rewrite He by left. destruct r; cbn [app] in *; done.
Qed.

Lemma append_cluster s t u l c d :
  inv s -> chain s (l ++ [c]) -> allocated s t d -> linked t u c d ->
  longer False s u (l ++ [c]) [d].
Proof.
  intros Hi Hl Ha Hk. pose proof Ha as (Hv & Hf & Hfr & He & Hz).
  pose proof Hfr as (Hn & Hfc & Hlow). pose proof Hn as [Hit Est].
  pose proof Hk as (Hn' & _ & Hent & Hout). pose proof Hn' as [_ Est'].
  assert (Hne : d ∉ l ++ [c]) by (intros Hin; by apply (chain_used s _ d Hi Hl)).
  assert (Hcin : c ∈ l ++ [c]) by (apply elem_of_app; right; left).
  assert (Hcv : valid s c) by by eapply chain_valid.
  assert (Hcd : d <> c) by by intros ->.
  split.
  - by eapply next_trans.
  - rewrite <- app_assoc. apply (chain_snoc s l c d); [done|done|done|congruence|..].
    + rewrite Hent by by apply (static_valid s t). rewrite (proj2 (Z.eqb_neq _ _)) by done. done.
    + rewrite Hent, Z.eqb_refl by by apply (static_valid s t). done.
    + intros e Hin. assert (valid s e)
        by (eapply chain_valid; [exact Hl|apply elem_of_app; by left]).
      rewrite Hent by by apply (static_valid s t).
      assert (e <> c).
      { intros ->. pose proof (chain_nodup s _ Hi Hl) as Hnd. apply list.NoDup_app in Hnd as (_ & Hnd & _).
        apply (Hnd c); [done|left]. }
      rewrite (proj2 (Z.eqb_neq _ _)) by done.
      apply Hfc; [done|]. intros ->. apply Hne, elem_of_app. by left.
  - intros x ->%list_elem_of_singleton. split; [done|]. split; [done|]. intros k Hk'.
    rewrite <- (Hz k Hk'). pose proof (linked_data t u c d d Hit Hk) as Hd.
    rewrite <- (static_dsec s t) by done. apply Hd; [by apply (static_valid s t)|].
    by destruct (static_vol s t Est) as (->&_).
  - intros x Hx Hnx _. assert (x <> d) by (intros ->; apply Hnx; left). destruct (Hfc x Hx) as [E1 D1]; [congruence|].
    assert (Hxt : valid t x) by by apply (static_valid s t). split.
    + eapply data_same_trans; [done|done|]. by eapply linked_data.
    + rewrite last_snoc. intros Hxc. rewrite Hent, (proj2 (Z.eqb_neq _ _)) by congruence || done. done.
  - intros i Hlt. rewrite Hout; [by apply Hlow|]. left.
    destruct (static_vol s t Est) as (_&_&->&_). done.
Qed.

(** A failed allocation, or a failed link, leaves the chain and what is in use. *)
Lemma leak_grown s t l : inv s -> only_free s t -> chain s l -> longer True s t l [].
Proof.
  intros Hi (Hn & Hc & Hlow) Hl. split; [done| |by intros c ?%elem_of_nil| |done].
  - rewrite app_nil_r. eapply chain_same; [apply Hn| |done]. intros c Hin Hv. apply Hc; [done|].
    by apply (chain_used s l).
  - intros c Hv _ Hu. destruct (Hc c Hv) as [E1 D1]; [tauto|]. done.
Qed.

Lemma longer_weaken s t l new : longer False s t l new -> longer True s t l new.
Proof.
  intros [? ? ? Hr ?]. split; [done..| |done]. intros c Hv Hn Hu. apply Hr; [done|done|tauto].
Qed.

Lemma allocated_only_free s t c : allocated s t c -> only_free s t.
Proof. intros (_ & Hf & Hfr & _). eapply frame_mono; [|exact Hfr]. by intros ? <-. Qed.

(** An entry written with the value it had. *)
Lemma linked_noop X s t c : inv s -> linked s t c (entry s c) -> frame X s t.
Proof.
  intros Hi Hl. destruct (linked_frame s t c _ Hi Hl) as (Hn & _ & Hlow).
  split; [done|]. split; [|done]. intros x Hv _. split; [|by eapply linked_data].
  destruct Hl as (_ & _ & He & _). rewrite He by done. by destruct (Z.eqb_spec x c) as [->|].
Qed.

Lemma extend_chain_spec k : forall s l i c,
  inv s -> read_only (vol s) = false -> chain s l -> l !! i = Some c ->
  iwp (extend_chain k c) s
    (fun _ t => exists new, longer False s t l new /\ length (l ++ new) = Nat.max (length l) (i + 1 + k))
    (fun rc t => exists new, longer True s t l new /\
       (reliable D -> rc = VFS_ENOSPC /\ (length (l ++ new) < i + 1 + k)%nat /\
                      forall x, valid s x -> entry s x = FAT_FREE -> x ∈ new)).
Proof.
  induction k as [|k IH]; intros s l i c Hi Hro Hl Hc; cbn [extend_chain].
  { apply iwp_ret. exists []. split; [by apply longer_refl|]. apply lookup_lt_Some in Hc.
    rewrite app_nil_r. lia. }
  pose proof (lookup_lt_Some _ _ _ Hc) as Hlt.
  (* what follows once the chain is [l ++ add] and the walk is at position [S i] *)
  assert (Hrec : forall t add d, longer False s t l add -> (l ++ add) !! S i = Some d ->
    length (l ++ add) = Nat.max (length l) (S i + 1) ->
    iwp (extend_chain k d) t
      (fun _ u => exists new, longer False s u l new /\ length (l ++ new) = Nat.max (length l) (i + 1 + S k))
      (fun rc u => exists new, longer True s u l new /\
         (reliable D -> rc = VFS_ENOSPC /\ (length (l ++ new) < i + 1 + S k)%nat /\
                        forall x, valid s x -> entry s x = FAT_FREE -> x ∈ new))).
  { intros t add d Hg Hd Hlen. pose proof Hg as [[Hit Est] Hct Hnew Hrest _].
    pose proof (static_vol s t Est) as (_&_&_&_&_&_&_&_&_&Ero&_).
    eapply iwp_mono; [apply (IH t (l ++ add) (S i) d); [done|congruence|done|done]|..].
    - intros [] u (new & Hg' & Hlen'). exists (add ++ new). split; [by eapply longer_trans|].
      rewrite app_assoc, Hlen', Hlen. lia.
    - intros rc u (new & Hg' & Hx). exists (add ++ new). split; [by eapply longer_trans|].
      intros Hrel. destruct (Hx Hrel) as (-> & Hlen' & Hall). split; [done|].
      rewrite app_assoc. split; [lia|]. intros x Hv Hf. apply elem_of_app.
      destruct (decide (x ∈ add)) as [|Hna]; [by left|right]. apply Hall; [by apply (static_valid s t)|].
      destruct (Hrest x Hv Hna) as [_ He]; [tauto|]. rewrite He; [done|].
      intros E%last_elem. by apply (chain_used s l x). }
  eapply iwp_seq; [by apply (chain_next_spec s l i)|..].
  2: { intros rc t (Hs & -> & Hr). exists []. split; [|done]. by apply longer_same. }
  intros n t [Hs Hn]. pose proof Hs as ([Hit Est] & _).
  destruct (l !! S i) as [d|] eqn:E.
  - destruct Hn as [-> Hn0]. rewrite (proj2 (Z.eqb_neq _ _)) by done. apply iwp_bind, iwp_ret.
    apply (Hrec t []); [by apply longer_same|by rewrite app_nil_r|].
    apply lookup_lt_Some in E. rewrite app_nil_r. lia.
  - subst n. cbn [Z.eqb]. apply lookup_ge_None in E.
    assert (exists l0, l = l0 ++ [c]) as [l0 ->].
    { exists (take i l). rewrite <- (take_drop i l) at 1. f_equal.
      rewrite (drop_S l c i Hc). f_equal. apply drop_ge. lia. }
    pose proof (static_vol s t Est) as (_&_&_&_&_&_&_&_&_&Ero&_).
    assert (Hlt' : chain t (l0 ++ [c])) by (eapply chain_same; [done|by intros; apply same_entry|done]).
    assert (Hvc : valid t c) by (eapply chain_valid; [exact Hlt'|apply elem_of_app; right; left]).
    apply iwp_bind. eapply iwp_seq; [apply alloc_spec; [done|congruence]|..].
    2: { intros rc u [Hof Hx]. exists []. split.
         - change [] with ([] ++ [] : list Z). eapply longer_trans; [by apply longer_same|].
           rewrite app_nil_r. by apply leak_grown.
         - intros Hrel. destruct (Hx Hrel) as [-> Hall]. split; [done|].
           rewrite app_nil_r. split; [lia|]. intros x Hv Hf. exfalso.
           apply (Hall x); [by apply (static_valid s t)|]. by rewrite (same_entry s t). }
    intros d u Ha. pose proof Ha as (Hvd & _ & (Hnu & _) & _). pose proof Hnu as [Hiu Esu].
    pose proof (static_vol t u Esu) as (_&_&_&_&_&_&_&_&_&Ero'&_).
    eapply iwp_seq; [apply set_spec; [done|congruence|by apply (static_valid t u)|]|..].
    { pose proof (valid_below_eoc t d Hit Hvd). unfold FAT_EOC in *. lia. }
    2: { intros rc w (Hw & -> & Hr). destruct Hw as [Hw|Hw].
         - exists [d]. split; [|done]. apply longer_weaken.
           change [d] with ([] ++ [d]). eapply longer_trans; [by apply longer_same|].
           rewrite app_nil_r. by apply (append_cluster t u).
         - exists []. split; [|done]. change [] with ([] ++ [] : list Z).
           eapply longer_trans; [by apply longer_same|]. rewrite app_nil_r. apply leak_grown; [done| |done].
           eapply frame_trans; [exact (allocated_only_free t u d Ha)|].
           by apply (linked_noop _ u w c). }
    intros [] w Hw. apply iwp_ret. apply (Hrec w [d]).
    + change [d] with ([] ++ [d]). eapply longer_trans; [by apply longer_same|].
      rewrite app_nil_r. by apply (append_cluster t u).
    + rewrite length_app in *. cbn in *. rewrite lookup_app_r by (rewrite length_app; cbn; lia).
      rewrite length_app. cbn. by replace (S i - (length l0 + 1))%nat with O by lia.
    + rewrite !length_app in *. cbn in *. lia.
Qed.

End Grow.

(** ** fs/fat/fat.c: the bytes of a file, one by one, and the transfers that read and write
    ranges of them. *)

Section Rw.
Context {D : Type} `{DiskLaws D}.
Implicit Types (s t u : vst D) (l : list Z).

(** *** Runs of sectors *)

Lemma sectors_read_spec s i n :
  inv s -> 0 <= i -> 0 < n -> i + n <= bd_sectors (dev s) ->
  iwp (fat_sectors_read i n) s
    (fun b t => same s t /\ zlen b = n * SECTOR /\ forall k, 0 <= k < n -> chunk b k = sec s (i + k))
    (fun rc t => same s t /\ rc = VFS_EINVAL /\ ~ reliable D).
Proof.
  intros Hi Hi0 Hn Hr. unfold fat_sectors_read. rewrite (proj2 (Z.eqb_neq _ _)) by lia.
  eapply iwp_via; [apply (block_read_spec i n); [lia|lia|by apply dev_cap]|..].
  - intros b d (Hd & Hl & Hc). split; [by apply same_device|done].
  - intros rc d [Hd Hx]. split; [by apply same_device|]. split; [done|]. by apply Hx.
Qed.

Lemma sectors_write_spec s i n b :
  inv s -> 0 <= i -> 0 < n -> i + n <= bd_sectors (dev s) -> i + n < 2 ^ 32 ->
  read_only (vol s) = false -> zlen b = n * SECTOR -> Forall byte_ok b ->
  iwp (fat_sectors_write i n b) s
    (fun _ t => next s t /\ (forall j, ~ (i <= j < i + n) -> sec t j = sec s j) /\
       forall k, 0 <= k < n -> sec t (i + k) = chunk b k)
    (fun rc t => next s t /\ (forall j, ~ (i <= j < i + n) -> sec t j = sec s j) /\
       rc = VFS_EINVAL /\ ~ reliable D).
Proof.
  intros Hi Hi0 Hn Hr H32 Hro Hl Hb. unfold fat_sectors_write. apply iwp_bind, iwp_get.
  rewrite Hro, (proj2 (Z.eqb_neq _ _)) by lia. apply iwp_bind, iwp_set.
  set (v' := cache_invalidate_range i n (vol s)).
  assert (Hv : exists cv, v' = set_cache (cache_sec (vol s)) cv (cache (vol s)) (vol s) /\
    (cv = true -> cache_valid (vol s) = true /\ ~ (i <= cache_sec (vol s) < i + n))).
  { unfold v', cache_invalidate_range. rewrite wrap_small by lia.
    destruct (_ && (cache_sec (vol s) <? i + n)) eqn:E; [by exists false|].
    exists (cache_valid (vol s)). rewrite set_cache_id. split; [done|]. intros Hcv. split; [done|].
    rewrite Hcv in E. cbn [andb] in E. b2p. destruct E; b2p; lia. }
  destruct Hv as (cv & Ev & Hcv).
  assert (Hgo : forall d all, bd_wrote all i n b (dev s) d ->
    next s (Vst v' d (clk s))).
  { rewrite Ev. intros d all (E1 & E2 & E3 & Hout & _). destruct Hi as [Hg Hd Hro' Hc]. unfold next.
    set (t := Vst _ _ _).
    assert (Est : static t = static s) by (unfold static, t; cbn [vol dev clk]; by rewrite E1, E2).
    split; [|done]. split; [by eapply geometry_static|cbn; lia|cbn; congruence|].
    intros Hv. destruct (Hcv Hv) as [Hv' Hne]. destruct (Hc Hv') as [Hcr Hce]. split; [done|].
    cbn [vol cache cache_sec set_cache t]. rewrite Hce. symmetry. apply Hout. done. }
  eapply iwp_via; [apply (block_write_spec i n b); [done|done|exact (dev_cap s Hi)|done|done]|..].
  - intros [] d Hw. split; [exact (Hgo d _ Hw)|]. destruct Hw as (_ & _ & _ & Hout & Hin).
    split; [done|]. intros k Hk. destruct (Hin k Hk) as [?|[? _]]; [done|tauto].
  - intros rc d [Hw Hx]. split; [exact (Hgo d _ Hw)|]. destruct Hw as (_ & _ & _ & Hout & _).
    split; [done|]. split; [done|]. apply Hx; [done|].
    change (bd_read_only (dev s) = false). by rewrite <- (i_ro _ Hi).
Qed.

(** *** The bytes of a chain *)

Definition fbyte s l (j : Z) : Z :=
  let v := vol s in
  at_ (sec s (dsec s (nth (Z.to_nat (j / bytes_per_clus v)) l 0) (j mod bytes_per_clus v / SECTOR)))
      (j mod SECTOR).

Definition room s l : Z := Z.of_nat (length l) * bytes_per_clus (vol s).

(** Only bytes of the chain [l] changed: not the table, and no other cluster. *)
Record within s t l : Prop := {
  wi_next : next s t;
  wi_entry : forall c, valid s c -> entry t c = entry s c;
  wi_data : forall c, valid s c -> c ∉ l -> data_same s t c;
  wi_low : forall i, i < reserved_sec (vol s) -> sec t i = sec s i }.

(** ... and of those only [off, off + n). *)
Definition scribbled s t l (off n : Z) : Prop :=
  within s t l /\ forall j, 0 <= j < room s l -> ~ (off <= j < off + n) -> fbyte t l j = fbyte s l j.

(** ... which now hold [p]. *)
Definition written s t l (off : Z) (p : bytes) : Prop :=
  within s t l /\ forall j, 0 <= j < room s l ->
    fbyte t l j = if (off <=? j) && (j <? off + zlen p) then at_ p (j - off) else fbyte s l j.

Lemma bpc_pos s : inv s -> 0 < bytes_per_clus (vol s) /\ bytes_per_clus (vol s) mod SECTOR = 0 /\
  bytes_per_clus (vol s) = sec_per_clus (vol s) * SECTOR /\ bytes_per_clus (vol s) <= 65536.
Proof.
  intros Hi. pose proof (g_spc _ (i_geometry _ Hi)). rewrite (g_bpc _ (i_geometry _ Hi)).
  unfold SECTOR.
  rewrite Z.mod_mul by lia. lia.
Qed.

(** Where byte [j] of a chain lies. *)
Lemma byte_place s l j :
  inv s -> chain s l -> 0 <= j < room s l ->
  exists c, l !! Z.to_nat (j / bytes_per_clus (vol s)) = Some c /\
    nth (Z.to_nat (j / bytes_per_clus (vol s))) l 0 = c /\ valid s c /\
    0 <= j mod bytes_per_clus (vol s) / SECTOR < sec_per_clus (vol s).
Proof.
  intros Hi Hl Hj. destruct (bpc_pos s Hi) as (Hb & _ & Eb & _). unfold room in Hj.
  assert (Hlt : (Z.to_nat (j / bytes_per_clus (vol s)) < length l)%nat).
  { apply Nat2Z.inj_lt. rewrite Z2Nat.id by (apply Z.div_pos; lia).
    apply Z.div_lt_upper_bound; lia. }
  destruct (lookup_lt_is_Some_2 l _ Hlt) as [c Hc]. exists c. split; [done|]. split.
  { rewrite nth_lookup, Hc. done. }
  split; [eapply chain_valid; [done|by eapply list_elem_of_lookup_2]|].
  pose proof (Z.mod_pos_bound j (bytes_per_clus (vol s)) Hb). unfold SECTOR in *.
  split; [apply Z.div_pos; lia|]. apply Z.div_lt_upper_bound; lia.
Qed.

Lemma static_room s t l : static t = static s -> room t l = room s l.
Proof. intros E. unfold room. by destruct (static_vol s t E) as (_&->&_). Qed.

Lemma fbyte_same s t l j :
  inv s -> chain s l -> static t = static s -> 0 <= j < room s l ->
  (forall c, c ∈ l -> data_same s t c) -> fbyte t l j = fbyte s l j.
Proof.
  intros Hi Hl Est Hj Hd. destruct (byte_place s l j Hi Hl Hj) as (c & Hc & Hn & Hv & Hk).
  unfold fbyte. destruct (static_vol s t Est) as (_&->&_). rewrite Hn, (static_dsec s t) by done.
  f_equal. apply Hd; [by eapply list_elem_of_lookup_2|done].
Qed.

Lemma within_refl s l : inv s -> within s s l.
Proof. intros Hi. split; [done|done|by intros c _ _ k _|done]. Qed.

Lemma within_trans s t u l : within s t l -> within t u l -> within s u l.
Proof.
  intros [Hn He Hd Hl] [Hn' He' Hd' Hl']. pose proof Hn as [_ Est]. split.
  - by eapply next_trans.
  - intros c Hv. rewrite He' by by apply (static_valid s t). by apply He.
  - intros c Hv Hc. eapply data_same_trans; [done|by apply Hd|].
    apply Hd'; [by apply (static_valid s t)|done].
  - intros i Hi. rewrite Hl'; [by apply Hl|]. by destruct (static_vol s t Est) as (_&_&->&_).
Qed.

Lemma within_chain s t l m : within s t l -> chain s m -> chain t m.
Proof. intros [[_ Est] He _ _]. apply chain_same; [done|]. intros. by apply He. Qed.

Lemma within_same s t l : same s t -> within s t l.
Proof.
  intros Hs. pose proof Hs as (Hn & Hsec & _). split; [done| | |by intros].
  - intros. by apply same_entry.
  - intros c _ _ k _. apply Hsec.
Qed.

Lemma fbyte_all_same s t l j : same s t -> fbyte t l j = fbyte s l j.
Proof.
  intros ([_ Est] & Hsec & _). unfold fbyte.
  destruct (static_vol s t Est) as (_&->&_). by rewrite (static_dsec s t), Hsec.
Qed.

Lemma scribbled_same s t l off n : same s t -> scribbled s t l off n.
Proof. intros Hs. split; [by apply within_same|]. intros. by apply fbyte_all_same. Qed.

(** The write of [p] happened as a whole, or not at all. *)
Definition atomically s t l (off : Z) (p : bytes) : Prop :=
  written s t l off p \/ scribbled s t l off 0.

Lemma written_scribbled s t l off p : written s t l off p -> scribbled s t l off (zlen p).
Proof.
  intros [Hw Hb]. split; [done|]. intros j Hj Hn. rewrite Hb by done. by rewrite range_out.
Qed.

Lemma atomically_scribbled s t l off p : atomically s t l off p -> scribbled s t l off (zlen p).
Proof.
  intros [Hw|[Hw Hb]]; [by apply written_scribbled|]. split; [done|]. intros. apply Hb; [done|lia].
Qed.

(** *** Changing sectors of one cluster of a chain *)

Lemma cluster_index s j pos k0 n :
  inv s -> 0 <= pos -> 0 <= k0 -> k0 + n <= sec_per_clus (vol s) ->
  (pos * bytes_per_clus (vol s) + k0 * SECTOR <= j < pos * bytes_per_clus (vol s) + (k0 + n) * SECTOR <->
   j / bytes_per_clus (vol s) = pos /\ k0 <= j mod bytes_per_clus (vol s) / SECTOR < k0 + n).
Proof.
  intros Hi Hpos Hk Hn. destruct (bpc_pos s Hi) as (Hb & _ & Eb & _). unfold SECTOR in *.
  set (b := bytes_per_clus (vol s)) in *.
  pose proof (Z.div_mod j b ltac:(lia)) as Hj. pose proof (Z.mod_pos_bound j b Hb) as Hm.
  set (r := j mod b) in *. set (q := j / b) in *.
  pose proof (Z.div_mod r 512 ltac:(lia)). pose proof (Z.mod_pos_bound r 512 ltac:(lia)).
  split.
  - intros Hr. assert (q = pos) by nia. subst q. lia.
  - intros [-> Hr]. lia.
Qed.

Lemma nodup_lookup l i j (c : Z) : NoDup l -> l !! i = Some c -> l !! j = Some c -> i = j.
Proof. intros. by eapply NoDup_lookup. Qed.

Lemma cluster_write s t l pos c k0 n :
  inv s -> chain s l -> 0 <= pos -> l !! Z.to_nat pos = Some c ->
  0 <= k0 -> 0 < n -> k0 + n <= sec_per_clus (vol s) -> next s t ->
  (forall i, ~ (dsec s c k0 <= i < dsec s c k0 + n) -> sec t i = sec s i) ->
  within s t l /\
  forall j, 0 <= j < room s l ->
    fbyte t l j =
    if (pos * bytes_per_clus (vol s) + k0 * SECTOR <=? j) &&
       (j <? pos * bytes_per_clus (vol s) + (k0 + n) * SECTOR)
    then at_ (sec t (dsec s c (j mod bytes_per_clus (vol s) / SECTOR))) (j mod SECTOR)
    else fbyte s l j.
Proof.
  intros Hi Hl Hpos Hc Hk0 Hn Hkn Hnext Hsec. pose proof Hnext as [_ Est].
  assert (Hin : c ∈ l) by by eapply list_elem_of_lookup_2.
  assert (Hv : valid s c) by by eapply chain_valid.
  assert (Hrun : forall i, ~ (exists m, 0 <= m < sec_per_clus (vol s) /\ i = dsec s c m) -> sec t i = sec s i).
  { intros i Hne. apply Hsec. intros Hii. apply Hne. exists (i - dsec s c 0). unfold dsec in *. lia. }
  destruct (data_frame s t c Hi Hv Hnext Hrun) as [(_ & Hfc & Hlow) He]. split.
  { split; [done|done| |done]. intros c' Hv' Hc'. apply Hfc; [done|]. by intros ->. }
  intros j Hj. destruct (byte_place s l j Hi Hl Hj) as (c' & Hc' & Hn' & Hv' & Hk').
  pose proof (cluster_index s j pos k0 n Hi Hpos Hk0 Hkn) as Hidx.
  assert (Hq : 0 <= j / bytes_per_clus (vol s)) by (apply Z.div_pos; [lia|]; apply (bpc_pos s Hi)).
  unfold fbyte at 1. destruct (static_vol s t Est) as (_&->&_). rewrite Hn', (static_dsec s t) by done.
  destruct (_ && _) eqn:Er.
  - b2p. destruct (proj1 Hidx) as [Ep _]; [lia|]. rewrite Ep in Hc'.
    assert (c' = c) as -> by congruence. done.
  - unfold fbyte. rewrite Hn'. f_equal. apply Hsec. intros Hii.
    assert (exists m, k0 <= m < k0 + n /\ dsec s c' (j mod bytes_per_clus (vol s) / SECTOR) = dsec s c m)
      as (m & Hm & E) by (exists (dsec s c' (j mod bytes_per_clus (vol s) / SECTOR) - dsec s c 0);
                          unfold dsec in *; lia).
    apply dsec_inj in E as [-> E]; [|done|lia]. subst m.
    pose proof (nodup_lookup l _ _ c (chain_nodup s l Hi Hl) Hc' Hc) as Ei.
    apply Z2Nat.inj in Ei; [|done|done]. b2p. destruct Er; b2p; [|];
      destruct (proj2 Hidx) as [? ?]; [split; [done|lia]|lia|split; [done|lia]|lia].
Qed.

(** *** The inode *)

(** The first cluster and the cursor of [n] belong to the chain [l]. *)
Definition at_chain (n : inode) l : Prop :=
  first_clus n = default 0 (head l) /\
  (cur_clus n <> 0 -> 0 <= cur_index n /\ l !! Z.to_nat (cur_index n) = Some (cur_clus n)).

(** Everything else of the inode. *)
Definition rest_of (n : inode) : inode := set_first 0 (set_cursor 0 0 n).

Lemma iwp_lift {A} (m : io (vst D) A) (s : fst_ D) Q E (Q' : A -> fst_ D -> Prop) E' :
  iwp m (fv s) Q E ->
  (forall a v, Q a v -> Q' a (Fst v (ino s))) -> (forall rc v, E rc v -> E' rc (Fst v (ino s))) ->
  iwp (lift m) s Q' E'.
Proof. unfold iwp, lift. destruct (m (fv s)) as [[rc|a] v]; eauto. Qed.

Lemma chain_at_spec (s : fst_ D) l pos :
  inv (fv s) -> chain (fv s) l -> at_chain (ino s) l -> 0 <= pos ->
  iwp (chain_at pos) s
    (fun c f => same (fv s) (fv f) /\ l !! Z.to_nat pos = Some c /\ at_chain (ino f) l /\
                rest_of (ino f) = rest_of (ino s))
    (fun rc f => same (fv s) (fv f) /\ ino f = ino s /\
       ((rc = VFS_ENOENT /\ l !! Z.to_nat pos = None) \/ (rc = VFS_EINVAL /\ ~ reliable D))).
Proof.
  intros Hi Hl [Hf Hcur] Hpos. unfold chain_at. apply iwp_bind, iwp_get.
  set (n := ino s) in *.
  assert (Hgo : forall c i, 0 <= i <= pos -> l !! Z.to_nat i = Some c ->
    iwp (c' <- lift (chain_walk (Z.to_nat (pos - i)) c) ;;
        iset (upd_ino (set_cursor pos c')) ;;; iret c')%io s
    (fun c f => same (fv s) (fv f) /\ l !! Z.to_nat pos = Some c /\ at_chain (ino f) l /\
                rest_of (ino f) = rest_of n)
    (fun rc f => same (fv s) (fv f) /\ ino f = n /\
       ((rc = VFS_ENOENT /\ l !! Z.to_nat pos = None) \/ (rc = VFS_EINVAL /\ ~ reliable D)))).
  { intros c i Hir Hc. apply iwp_bind.
    eapply iwp_lift; [by apply (chain_walk_spec _ (fv s) l (Z.to_nat i) c)|..];
      replace (Z.to_nat i + Z.to_nat (pos - i))%nat with (Z.to_nat pos) by lia.
    - intros c' v [Hs Hc']. apply iwp_bind, iwp_set, iwp_ret. split; [done|]. split; [done|]. split; [|done].
      split; [done|]. intros _. done.
    - intros rc v [Hs Hx]. done. }
  destruct (Z.eqb_spec (cur_clus n) 0) as [Hz|Hz]; cbn [negb andb].
  - destruct (Z.eqb_spec (first_clus n) 0) as [Hz'|Hz'].
    + apply iwp_fail. split; [done|]. split; [done|]. left. split; [done|].
      destruct l as [|c r]; [done|]. cbn in Hf. destruct Hl as [Hv _].
      pose proof (valid_below_eoc _ _ Hi Hv). lia.
    + apply (Hgo _ 0); [lia|]. destruct l as [|c r]; [done|]. cbn in Hf. by rewrite Hf.
  - destruct (Hcur Hz) as [Hci Hcl]. destruct (Z.leb_spec (cur_index n) pos); cbn [negb andb].
    + by apply Hgo.
    + assert (first_clus n <> 0 /\ l !! 0%nat = Some (first_clus n)) as [Hz' H0'].
      { rewrite Hf. destruct l as [|c r]; [done|]. destruct Hl as [Hv _].
        pose proof (valid_below_eoc _ _ Hi Hv). cbn. split; [lia|done]. }
      rewrite (proj2 (Z.eqb_neq _ _)) by done. apply (Hgo _ 0); [lia|done].
Qed.

Lemma chain_length s l : inv s -> chain s l -> Z.of_nat (length l) <= clusters (vol s).
Proof.
  intros Hi Hl. pose proof (g_clusters _ (i_geometry _ Hi)).
  assert (Hincl : incl l (map (fun k => 2 + Z.of_nat k) (seq 0 (Z.to_nat (clusters (vol s)))))).
  { intros c Hc. apply list_elem_of_In in Hc. pose proof (chain_valid s l c Hl Hc) as [? ?].
    apply in_map_iff. exists (Z.to_nat (c - 2)). split; [lia|]. apply in_seq. lia. }
  apply NoDup_incl_length in Hincl; [|by apply NoDup_ListNoDup, (chain_nodup s)].
  rewrite length_map, length_seq in Hincl. lia.
Qed.

(** *** One transfer *)

(** Where the byte at offset [off] of a file is, as the code computes it. *)
Lemma step_place s l off :
  inv s -> chain s l -> 0 <= off < room s l ->
  let b := bytes_per_clus (vol s) in
  let pos := off / b in
  let w := off mod b in
  wrap32 pos = pos /\ 0 <= pos /\ 0 <= w < b /\ off = pos * b + w /\
  0 <= w / SECTOR < sec_per_clus (vol s) /\ w = w / SECTOR * SECTOR + w mod SECTOR /\
  0 <= w mod SECTOR < SECTOR /\ off mod SECTOR = w mod SECTOR /\ off + (b - w) <= room s l /\
  exists c, l !! Z.to_nat pos = Some c /\ valid s c /\
    wrap32 (fat_clus_sector (vol s) c + w / SECTOR) = dsec s c (w / SECTOR).
Proof.
  intros Hi Hl Ho b pos w. destruct (bpc_pos s Hi) as (Hb & Hm & Eb & _).
  destruct (byte_place s l off Hi Hl Ho) as (c & Hc & _ & Hv & Hk). fold b pos w in Hc, Hk, Hb, Eb, Hm.
  pose proof (chain_length s l Hi Hl) as Hlen. pose proof (geo_bounds s Hi) as (_ & _ & Hcl & _).
  pose proof (Z.div_mod off b ltac:(lia)) as Hdm. fold pos w in Hdm.
  pose proof (Z.mod_pos_bound off b Hb) as Hw. fold w in Hw.
  assert (Hpos : 0 <= pos) by (apply Z.div_pos; lia).
  apply lookup_lt_Some in Hc as Hlt.
  pose proof (Z.div_mod w SECTOR) as Hws. pose proof (Z.mod_pos_bound w SECTOR). unfold SECTOR in *.
  split; [apply wrap_small; lia|]. do 5 (split; [lia|]). split; [lia|]. split; [|split].
  - rewrite Hdm. replace b with (sec_per_clus (vol s) * 512) by done.
    replace (sec_per_clus (vol s) * 512 * pos + w) with (w + (sec_per_clus (vol s) * pos) * 512) by lia.
    apply Z.mod_add. lia.
  - unfold room. fold b. nia.
  - exists c. split; [done|]. split; [done|].
    destruct (dsec_range s c (w / 512) Hi Hv Hk) as (-> & ? & ? & ? & ?).
    unfold dsec in *. pose proof (geo_bounds s Hi). rewrite wrap_small; lia.
Qed.

Lemma at_take b n i : 0 <= i < n -> at_ (take (Z.to_nat n) b) i = at_ b i.
Proof. intros. unfold at_. rewrite !nth_lookup, lookup_take_lt by lia. done. Qed.
Lemma at_drop b n i : 0 <= n -> 0 <= i -> at_ (drop (Z.to_nat n) b) i = at_ b (n + i).
Proof.
  intros. unfold at_. rewrite !nth_lookup, lookup_drop. by rewrite Z2Nat.inj_add by lia.
Qed.

(** A byte of a buffer, through the sectors it is cut into. *)
Lemma at_chunk b i : 0 <= i -> at_ (chunk b (i / SECTOR)) (i mod SECTOR) = at_ b i.
Proof.
  intros Hi. unfold chunk, SECTOR. pose proof (Z.mod_pos_bound i 512 ltac:(lia)).
  pose proof (Z.div_mod i 512 ltac:(lia)). pose proof (Z.div_pos i 512 ltac:(lia) ltac:(lia)).
  rewrite (at_take _ 512) by lia. rewrite at_drop by lia. f_equal. lia.
Qed.

Lemma at_patch off p b i :
  0 <= off -> off + zlen p <= zlen b -> 0 <= i ->
  at_ (patch off p b) i = if (off <=? i) && (i <? off + zlen p) then at_ p (i - off) else at_ b i.
Proof.
  intros Ho Hl Hi. unfold at_, patch, zlen in *. rewrite !nth_lookup.
  destruct (Z_lt_le_dec i off).
  - rewrite range_out by lia. rewrite lookup_app_l by (rewrite length_take; lia).
    by rewrite lookup_take_lt by lia.
  - rewrite lookup_app_r by (rewrite length_take; lia). rewrite length_take.
    replace (Z.to_nat i - Nat.min (Z.to_nat off) (length b))%nat with (Z.to_nat (i - off)) by lia.
    destruct (Z_lt_le_dec i (off + Z.of_nat (length p))).
    + rewrite range_in by lia. by rewrite lookup_app_l by lia.
    + rewrite range_out by lia. rewrite lookup_app_r, lookup_drop by lia. do 2 f_equal. lia.
Qed.

Lemma zlen_take n b : 0 <= n -> zlen (take (Z.to_nat n) b) = Z.min n (zlen b).
Proof. intros. unfold zlen. rewrite length_take. lia. Qed.

(** What a step has done to the file and the inode. *)
Definition moved (s f : fst_ D) l : Prop := at_chain (ino f) l /\ rest_of (ino f) = rest_of (ino s).

Lemma written_trans_same s t u l off p : same s t -> written t u l off p -> written s u l off p.
Proof.
  intros Hs [Hw Hb]. pose proof Hs as ([_ Est] & _). split.
  - eapply within_trans; [by apply within_same|done].
  - intros j Hj. rewrite Hb by by rewrite (static_room s t). by rewrite (fbyte_all_same s t).
Qed.
Lemma scribbled_trans_same s t u l off n : same s t -> scribbled t u l off n -> scribbled s u l off n.
Proof.
  intros Hs [Hw Hb]. pose proof Hs as ([_ Est] & _). split.
  - eapply within_trans; [by apply within_same|done].
  - intros j Hj Hn. rewrite Hb by (done || by rewrite (static_room s t)). by apply fbyte_all_same.
Qed.

Section Step.
Context (s : vst D) (l : list Z) (pos c k0 : Z).
Hypotheses (Hi : inv s) (Hl : chain s l) (Hpos : 0 <= pos) (Hc : l !! Z.to_nat pos = Some c).
Hypotheses (Hk0 : 0 <= k0).
Let b := bytes_per_clus (vol s).
Let start := pos * b + k0 * SECTOR.

Lemma step_valid : valid s c.
Proof using Hl Hc. eapply chain_valid; [done|by eapply list_elem_of_lookup_2]. Qed.

(** Byte [start + i] of the file is byte [i] of the run of sectors that starts at [k0]. *)
Lemma step_index n j :
  k0 + n <= sec_per_clus (vol s) -> start <= j < start + n * SECTOR ->
  j / b = pos /\ j mod b / SECTOR = k0 + (j - start) / SECTOR /\ j mod SECTOR = (j - start) mod SECTOR.
Proof using Hi Hpos Hk0.
  intros Hn Hj. unfold start in *.
  destruct (proj1 (cluster_index s j pos k0 n Hi Hpos Hk0 Hn)) as [Ep _]; [fold b; lia|].
  fold b in Ep. destruct (bpc_pos s Hi) as (Hb & _ & Eb & _). fold b in Hb, Eb.
  split; [done|]. pose proof (Z.div_mod j b ltac:(lia)) as Hdm. rewrite Ep in Hdm.
  assert (Em : j mod b = k0 * SECTOR + (j - (pos * b + k0 * SECTOR))) by lia. rewrite Em. split.
  - unfold SECTOR. rewrite Z.add_comm, Z.div_add by lia. lia.
  - set (d := j - (pos * b + k0 * SECTOR)). replace j with (d + (pos * sec_per_clus (vol s) + k0) * SECTOR)
      by (unfold d; rewrite Eb; lia).
    apply Z.mod_add. unfold SECTOR. lia.
Qed.

Lemma run_write n now :
  read_only (vol s) = false -> 0 < n -> k0 + n <= sec_per_clus (vol s) ->
  zlen now = n * SECTOR -> Forall byte_ok now ->
  iwp (fat_sectors_write (dsec s c k0) n now) s
    (fun _ t => written s t l start now)
    (fun rc t => scribbled s t l start (zlen now) /\ rc = VFS_EINVAL /\ ~ reliable D).
Proof using Hi Hl Hpos Hc Hk0.
  intros Hro Hn Hkn Hz Hby. pose proof step_valid as Hv.
  destruct (dsec_range s c k0 Hi Hv ltac:(lia)) as (_ & ? & ? & ? & ?).
  destruct (dsec_range s c (k0 + n - 1) Hi Hv ltac:(lia)) as (_ & _ & ? & ? & ?).
  pose proof (geo_bounds s Hi).
  assert (Hsh : start + n * SECTOR = pos * b + (k0 + n) * SECTOR) by (unfold start; lia).
  eapply iwp_mono.
  { apply sectors_write_spec; try done; unfold dsec in *; lia. }
  - intros [] t (Hnx & Hout & Hin).
    destruct (cluster_write s t l pos c k0 n) as [Hwi Hb']; try done. split; [done|].
    intros j Hj. rewrite Hb' by done. fold b start. rewrite <- Hsh, Hz.
    destruct (_ && _) eqn:E; [|done]. b2p. destruct (step_index n j Hkn ltac:(lia)) as (_ & -> & ->).
    assert (0 <= (j - start) / SECTOR < n).
    { unfold SECTOR in *. split; [apply Z.div_pos; lia|]. apply Z.div_lt_upper_bound; lia. }
    replace (dsec s c (k0 + (j - start) / SECTOR)) with (dsec s c k0 + (j - start) / SECTOR)
      by (unfold dsec; lia).
    rewrite Hin by done. apply at_chunk. lia.
  - intros rc t (Hnx & Hout & ? & ?). split; [|done].
    destruct (cluster_write s t l pos c k0 n) as [Hwi Hb']; try done. split; [done|].
    intros j Hj Hne. rewrite Hb' by done. fold b start. rewrite <- Hsh, <- Hz. by rewrite range_out.
Qed.

Lemma run_read n :
  0 < n -> k0 + n <= sec_per_clus (vol s) -> start + n * SECTOR <= room s l ->
  iwp (fat_sectors_read (dsec s c k0) n) s
    (fun now t => same s t /\ zlen now = n * SECTOR /\
       forall i, 0 <= i < zlen now -> at_ now i = fbyte s l (start + i))
    (fun rc t => same s t /\ rc = VFS_EINVAL /\ ~ reliable D).
Proof using Hi Hl Hpos Hc Hk0.
  intros Hn Hkn Hroom. pose proof step_valid as Hv.
  destruct (dsec_range s c k0 Hi Hv ltac:(lia)) as (_ & ? & ? & ? & ?).
  destruct (dsec_range s c (k0 + n - 1) Hi Hv ltac:(lia)) as (_ & _ & ? & ? & ?).
  pose proof (geo_bounds s Hi).
  eapply iwp_mono; [apply sectors_read_spec; try done; unfold dsec in *; lia|..]; [|done].
  intros now t (Hs & Hz & Hch). split; [done|]. split; [done|]. intros i Hii.
  destruct (step_index n (start + i) Hkn ltac:(lia)) as (Ep & Ek & Em).
  replace (start + i - start) with i in * by lia.
  unfold fbyte. fold b. rewrite Ep, Ek, Em, nth_lookup, Hc. change (default 0 (Some c)) with c.
  assert (0 <= i / SECTOR < n).
  { unfold SECTOR in *. split; [apply Z.div_pos; lia|]. apply Z.div_lt_upper_bound; lia. }
  rewrite <- (at_chunk now i) by lia. rewrite Hch by done. do 2 f_equal. unfold dsec. lia.
Qed.

(** The bytes of the sector at [k0]. *)
Lemma sector_fbyte j :
  k0 < sec_per_clus (vol s) -> start <= j < start + SECTOR ->
  at_ (sec s (dsec s c k0)) (j - start) = fbyte s l j.
Proof using Hi Hpos Hc Hk0.
  intros Hk Hr. destruct (step_index 1 j ltac:(lia) ltac:(lia)) as (Ep & Ek & Em).
  unfold fbyte. fold b. rewrite Ep, Ek, Em, nth_lookup, Hc. change (default 0 (Some c)) with c.
  by rewrite (Z.div_small (j - start)), Z.add_0_r, Z.mod_small by lia.
Qed.

Lemma part_write so now :
  read_only (vol s) = false -> k0 < sec_per_clus (vol s) -> 0 <= so -> 0 < zlen now ->
  so + zlen now <= SECTOR -> Forall byte_ok now ->
  iwp (fat_sector_write (dsec s c k0) (patch so now (sec s (dsec s c k0)))) s
    (fun _ t => written s t l (start + so) now)
    (fun rc t => atomically s t l (start + so) now /\ rc = VFS_EINVAL /\ ~ reliable D).
Proof using Hi Hl Hpos Hc Hk0.
  intros Hro Hk Hso Hn0 Hfit Hby. pose proof step_valid as Hv.
  destruct (dsec_range s c k0 Hi Hv ltac:(lia)) as (_ & ? & ? & ? & ?).
  pose proof (geo_bounds s Hi). destruct (sec_bytes s (dsec s c k0)) as [Hsb Hsl].
  set (old := sec s (dsec s c k0)) in *.
  assert (Hgo : forall t x, stored s t (dsec s c k0) x ->
    within s t l /\ forall j, 0 <= j < room s l ->
      fbyte t l j = if (start <=? j) && (j <? start + SECTOR) then at_ x (j - start) else fbyte s l j).
  { intros t x (Hnx & _ & Hst).
    destruct (cluster_write s t l pos c k0 1) as [Hwi Hb']; try done; try lia.
    { intros i Hne. rewrite Hst, (proj2 (Z.eqb_neq _ _)) by lia. done. }
    split; [done|]. intros j Hj. rewrite Hb' by done. fold b start.
    replace (pos * b + (k0 + 1) * SECTOR) with (start + SECTOR) by (unfold start; lia).
    destruct (_ && _) eqn:E; [|done]. b2p. destruct (step_index 1 j ltac:(lia) ltac:(lia)) as (_ & -> & ->).
    rewrite (Z.div_small (j - start)), Z.add_0_r, Hst, Z.eqb_refl, Z.mod_small by lia. done. }
  assert (Hold : forall j, start <= j < start + SECTOR -> at_ old (j - start) = fbyte s l j)
    by (intros; by apply sector_fbyte).
  assert (Hpl : zlen (patch so now old) = SECTOR) by (rewrite zlen_patch; lia).
  assert (Hpb : Forall byte_ok (patch so now old)).
  { unfold patch. repeat apply Forall_app_2; [by apply Forall_take|done|by apply Forall_drop]. }
  assert (Hwr : forall t, stored s t (dsec s c k0) (patch so now old) -> written s t l (start + so) now).
  { intros t Hst. destruct (Hgo t _ Hst) as [Hwi Hb']. split; [done|]. intros j Hj. rewrite Hb' by done.
    destruct (Z_lt_le_dec j start); [by rewrite !range_out by lia|].
    destruct (Z_lt_le_dec j (start + SECTOR)); [|by rewrite !range_out by lia].
    rewrite (range_in start) by lia. rewrite at_patch by lia.
    destruct (_ && (j - start <? _)) eqn:E; b2p.
    - rewrite range_in by lia. f_equal. lia.
    - rewrite range_out by (destruct E; b2p; lia). by apply Hold. }
  eapply iwp_mono; [by apply sector_write_spec; try done; lia|..].
  - intros [] t Hst. by apply Hwr.
  - intros rc t (Hst & ? & ?). split; [|done]. destruct Hst as [Hst|Hst].
    + left. by apply Hwr.
    + right. destruct (Hgo t _ Hst) as [Hwi Hb']. split; [done|]. intros j Hj _. rewrite Hb' by done.
      destruct (_ && _) eqn:E; [|done]. b2p. by apply Hold.
Qed.

End Step.

Lemma take_length_take {A} n (p : list A) : take (length (take n p)) p = take n p.
Proof. rewrite length_take. destruct (Nat.le_ge_cases n (length p)).
  - by rewrite Nat.min_l.
  - by rewrite Nat.min_r, !take_ge by lia.
Qed.

Lemma rw_step_write (s : fst_ D) l off p :
  inv (fv s) -> read_only (vol (fv s)) = false -> chain (fv s) l -> at_chain (ino s) l ->
  Forall byte_ok p -> 0 < zlen p -> 0 <= off < room (fv s) l ->
  iwp (rw_step true off p) s
    (fun now f => now = take (length now) p /\ 0 < zlen now /\ off + zlen now <= room (fv s) l /\
                  written (fv s) (fv f) l off now /\ moved s f l)
    (fun rc f => scribbled (fv s) (fv f) l off (zlen p) /\ moved s f l /\ rc = VFS_EINVAL /\ ~ reliable D).
Proof.
  intros Hi Hro Hl Hat Hp Hp0 Ho. unfold rw_step. apply iwp_bind, iwp_get. unfold the_vol.
  destruct (step_place (fv s) l off Hi Hl Ho) as (-> & Hpos & Hw & Eoff & Hk & Ew & Hso & _ & Hroom & c0 & Hc0 & Hv & Esec).
  set (b := bytes_per_clus (vol (fv s))) in *. set (pos := off / b) in *. set (w := off mod b) in *.
  destruct (bpc_pos (fv s) Hi) as (_ & _ & Eb & _). fold b in Eb.
  eapply iwp_seq; [by apply (chain_at_spec s l pos)|..].
  2: { intros rc f (Hs & Hino & Hx). split; [by apply scribbled_same|]. split; [split; by rewrite Hino|].
       destruct Hx as [[_ Hx]|[-> Hx]]; [congruence|done]. }
  intros c f (Hs & Hc & Hat' & Hrest). assert (c = c0) as -> by congruence. clear Hc. rewrite Esec.
  pose proof Hs as ([Hit Est] & _). pose proof (static_vol _ _ Est) as (Espc&Ebpc&_&_&_&_&_&_&_&Ero&_).
  assert (Hlf : chain (fv f) l) by (eapply chain_same; [done|by intros; apply same_entry|done]).
  rewrite <- (static_dsec (fv s) (fv f)) by done.
  assert (Hscr : forall v n, 0 <= n <= zlen p -> scribbled (fv f) v l off n -> scribbled (fv s) v l off (zlen p)).
  { intros v n Hn Hsc. apply (scribbled_trans_same _ (fv f)); [done|]. destruct Hsc as [Hwi Hby].
    split; [done|]. intros j Hj Hne. apply Hby; [done|lia]. }
  assert (Hstart : pos * bytes_per_clus (vol (fv f)) + w / SECTOR * SECTOR + w mod SECTOR = off) by lia.
  destruct (_ && _) eqn:E.
  - b2p. set (nsec := Z.min (b - w) (zlen p) / SECTOR).
    assert (Hns : 0 < nsec /\ nsec * SECTOR <= Z.min (b - w) (zlen p)).
    { unfold nsec, SECTOR in *. pose proof (Z.div_mod (Z.min (b - w) (zlen p)) 512 ltac:(lia)).
      pose proof (Z.mod_pos_bound (Z.min (b - w) (zlen p)) 512 ltac:(lia)). lia. }
    set (now := take (Z.to_nat (nsec * SECTOR)) p).
    assert (Hnow : zlen now = nsec * SECTOR) by (unfold now; rewrite zlen_take; unfold SECTOR in *; lia).
    apply iwp_bind. eapply iwp_lift.
    { apply (run_write (fv f) l pos c0 (w / SECTOR) Hit Hlf Hpos Hc0 ltac:(lia) nsec now);
        [congruence|lia|unfold SECTOR in *; lia|done|by apply Forall_take]. }
    + intros [] v Hwr. apply iwp_ret. split; [by unfold now; rewrite take_length_take|].
      split; [unfold SECTOR in *; lia|]. split; [lia|]. split; [|done].
      apply (written_trans_same _ (fv f)); [done|]. by replace off with
        (pos * bytes_per_clus (vol (fv f)) + w / SECTOR * SECTOR) by lia.
    + intros rc v (Hsc & ? & ?). split; [|done]. apply (Hscr v (zlen now)); [lia|].
      by replace off with (pos * bytes_per_clus (vol (fv f)) + w / SECTOR * SECTOR) by lia.
  - clear E. set (n := Z.min (SECTOR - w mod SECTOR) (Z.min (b - w) (zlen p))).
    assert (Hn : 0 < n /\ n <= zlen p /\ n <= SECTOR - w mod SECTOR /\ n <= b - w) by lia.
    set (now := take (Z.to_nat n) p).
    assert (Hnow : zlen now = n) by (unfold now; rewrite zlen_take; lia).
    destruct (dsec_range (fv f) c0 (w / SECTOR) Hit) as (_ & ? & ? & ? & ?);
      [by apply (static_valid (fv s))|congruence || lia|].
    pose proof (geo_bounds (fv f) Hit).
    apply iwp_bind. eapply iwp_lift; [apply (sector_read_spec (fv f)); [done|lia|lia]|..].
    2: { intros rc v (Hs' & ? & ?). split; [|done]. apply (Hscr v n); [lia|]. by apply scribbled_same. }
    intros tmp v [Hs' ->]. pose proof Hs' as ([Hiv Esv] & Hsecv & _).
    pose proof (static_vol _ _ Esv) as (Espc'&Ebpc'&_&_&_&_&_&_&_&Ero'&_).
    assert (Hlv : chain v l) by (eapply chain_same; [done|by intros; apply same_entry|done]).
    rewrite <- (static_dsec (fv f) v) by done. rewrite <- Hsecv.
    apply iwp_bind. eapply iwp_lift.
    { apply (part_write v l pos c0 (w / SECTOR) Hiv Hlv Hpos Hc0 ltac:(lia) (w mod SECTOR) now);
        [congruence|congruence || lia|lia|lia|lia|by apply Forall_take]. }
    + intros [] u Hwr. apply iwp_ret. split; [by unfold now; rewrite take_length_take|].
      split; [lia|]. split; [lia|]. split; [|done].
      apply (written_trans_same _ (fv f)); [done|]. apply (written_trans_same _ v); [done|].
      by replace off with (pos * bytes_per_clus (vol v) + w / SECTOR * SECTOR + w mod SECTOR) by lia.
    + intros rc u (Hsc & ? & ?). split; [|done]. apply (Hscr u n); [lia|].
      apply (scribbled_trans_same _ v); [done|]. rewrite <- Hnow. apply atomically_scribbled.
      by replace off with (pos * bytes_per_clus (vol v) + w / SECTOR * SECTOR + w mod SECTOR) by lia.
Qed.

Lemma rw_step_read (s : fst_ D) l off p :
  inv (fv s) -> chain (fv s) l -> at_chain (ino s) l -> 0 < zlen p -> 0 <= off < room (fv s) l ->
  iwp (rw_step false off p) s
    (fun now f => 0 < zlen now <= zlen p /\ off + zlen now <= room (fv s) l /\ same (fv s) (fv f) /\
       (forall i, 0 <= i < zlen now -> at_ now i = fbyte (fv s) l (off + i)) /\ moved s f l)
    (fun rc f => same (fv s) (fv f) /\ moved s f l /\ rc = VFS_EINVAL /\ ~ reliable D).
Proof.
  intros Hi Hl Hat Hp0 Ho. unfold rw_step. apply iwp_bind, iwp_get. unfold the_vol.
  destruct (step_place (fv s) l off Hi Hl Ho) as (-> & Hpos & Hw & Eoff & Hk & Ew & Hso & _ & Hroom & c0 & Hc0 & Hv & Esec).
  set (b := bytes_per_clus (vol (fv s))) in *. set (pos := off / b) in *. set (w := off mod b) in *.
  destruct (bpc_pos (fv s) Hi) as (_ & _ & Eb & _). fold b in Eb.
  eapply iwp_seq; [by apply (chain_at_spec s l pos)|..].
  2: { intros rc f (Hs & Hino & Hx). split; [done|]. split; [split; by rewrite Hino|].
       destruct Hx as [[_ Hx]|[-> Hx]]; [congruence|done]. }
  intros c f (Hs & Hc & Hat' & Hrest). assert (c = c0) as -> by congruence. clear Hc. rewrite Esec.
  pose proof Hs as ([Hit Est] & Hsec & _). pose proof (static_vol _ _ Est) as (Espc&Ebpc&_&_&_&_&_&_&_&Ero&_).
  assert (Hlf : chain (fv f) l) by (eapply chain_same; [done|by intros; apply same_entry|done]).
  rewrite <- (static_dsec (fv s) (fv f)) by done.
  destruct (_ && _) eqn:E.
  - b2p. set (nsec := Z.min (b - w) (zlen p) / SECTOR).
    assert (Hns : 0 < nsec /\ nsec * SECTOR <= Z.min (b - w) (zlen p)).
    { unfold nsec, SECTOR in *. pose proof (Z.div_mod (Z.min (b - w) (zlen p)) 512 ltac:(lia)).
      pose proof (Z.mod_pos_bound (Z.min (b - w) (zlen p)) 512 ltac:(lia)). lia. }
    eapply iwp_lift.
    { apply (run_read (fv f) l pos c0 (w / SECTOR) Hit Hlf Hpos Hc0 ltac:(lia) nsec);
        [lia|unfold SECTOR in *; lia|rewrite (static_room (fv s)) by done; lia]. }
    + intros now v (Hs' & Hz & Hb). split; [unfold SECTOR in *; lia|]. split; [lia|].
      split; [by eapply same_trans|]. split; [|done]. intros i Hii. rewrite Hb by done.
      rewrite (fbyte_all_same (fv s)) by done. f_equal. lia.
    + intros rc v (Hs' & ? & ?). split; [by eapply same_trans|done].
  - clear E. set (n := Z.min (SECTOR - w mod SECTOR) (Z.min (b - w) (zlen p))).
    assert (Hn : 0 < n /\ n <= zlen p /\ n <= SECTOR - w mod SECTOR /\ n <= b - w) by lia.
    destruct (dsec_range (fv f) c0 (w / SECTOR) Hit) as (_ & ? & ? & ? & ?);
      [by apply (static_valid (fv s))|congruence || lia|].
    pose proof (geo_bounds (fv f) Hit).
    apply iwp_bind. eapply iwp_lift; [apply (sector_read_spec (fv f)); [done|lia|lia]|..].
    2: { intros rc v (Hs' & ? & ?). split; [by eapply same_trans|done]. }
    intros sp v [Hs' ->]. apply iwp_ret.
    destruct (sec_bytes (fv f) (dsec (fv f) c0 (w / SECTOR))) as [_ Hsl].
    set (now := take _ _).
    assert (Hz : zlen now = n).
    { unfold now. rewrite zlen_take by lia. unfold zlen in *. rewrite length_drop. lia. }
    split; [lia|]. split; [lia|]. split; [by eapply same_trans|]. split; [|done].
    intros i Hii. unfold now. rewrite at_take by lia. rewrite at_drop by lia.
    destruct (step_index (fv s) pos (w / SECTOR) Hi Hpos ltac:(lia) 1 (off + i)) as (Ep & Ek & Em);
      [lia|fold b; lia|]. fold b in Ep, Ek, Em.
    unfold fbyte. fold b. rewrite Ep, Ek, Em, nth_lookup, Hc0. change (default 0 (Some c0)) with c0.
    replace (off + i - (pos * b + w / SECTOR * SECTOR)) with (w mod SECTOR + i) by lia.
    rewrite (Z.div_small (w mod SECTOR + i)), Z.add_0_r, (Z.mod_small (w mod SECTOR + i)) by lia.
    rewrite Hsec, (static_dsec (fv s)) by done. done.
Qed.

End Rw.
