(* ===== verification/FatEntry.v ===== *)
(** fs/fat/fat.c: reading and writing ranges of a file, growing it, and its directory
    entry. *)

From S2P Require Import Prelude Bytes Rtc Vfs Block FatVol FatMount FatFile FatDisk FatChain FatRw.

Section Ops.
Context {D : Type} `{DiskLaws D}.
Implicit Types (v w : vst D) (s f : fst_ D) (l : list Z).

(** *** Ranges *)

Lemma written_app v w x l off p q :
  written v w l off p -> written w x l (off + zlen p) q -> written v x l off (p ++ q).
Proof.
  intros [Hw Hb] [Hw' Hb']. pose proof (wi_next _ _ _ Hw) as [_ Est]. split; [by eapply within_trans|].
  intros j Hj. rewrite Hb' by by rewrite (static_room v w). rewrite zlen_app.
  pose proof (zlen_nonneg p). pose proof (zlen_nonneg q).
  destruct (_ && (j <? off + zlen p + zlen q)) eqn:E1; b2p.
  - rewrite range_in by lia. unfold at_. rewrite app_nth2 by (unfold zlen in *; lia). f_equal.
    unfold zlen in *. lia.
  - rewrite Hb by done. destruct (_ && (j <? off + zlen p)) eqn:E2; b2p.
    + rewrite range_in by lia. unfold at_. rewrite app_nth1 by (unfold zlen in *; lia). done.
    + rewrite range_out; [done|]. destruct E1, E2; b2p; lia.
Qed.

Lemma scribbled_trans v w x l off n : scribbled v w l off n -> scribbled w x l off n -> scribbled v x l off n.
Proof.
  intros [Hw Hb] [Hw' Hb']. pose proof (wi_next _ _ _ Hw) as [_ Est]. split; [by eapply within_trans|].
  intros j Hj Hne. rewrite Hb' by (done || by rewrite (static_room v w)). by apply Hb.
Qed.

Lemma scribbled_mono v w l off n off' n' :
  off' <= off -> off + n <= off' + n' -> scribbled v w l off n -> scribbled v w l off' n'.
Proof. intros H1 H2 [Hw Hb]. split; [done|]. intros j Hj Hne. apply Hb; [done|lia]. Qed.

Lemma written_nil v l off : inv v -> written v v l off [].
Proof.
  intros Hi. split; [by apply within_refl|]. intros j Hj. rewrite zlen_nil. by rewrite range_out by lia.
Qed.

Lemma moved_trans s f g l : moved s f l -> moved f g l -> moved s g l.
Proof. intros [_ H1] [H2 H3]. split; [done|congruence]. Qed.

Lemma rw_write_spec k : forall s l off p,
  inv (fv s) -> read_only (vol (fv s)) = false -> chain (fv s) l -> at_chain (ino s) l ->
  Forall byte_ok p -> 0 <= off -> off + zlen p <= room (fv s) l -> (length p < k)%nat ->
  iwp (rw_loop k true off p) s
    (fun _ f => written (fv s) (fv f) l off p /\ moved s f l)
    (fun rc f => scribbled (fv s) (fv f) l off (zlen p) /\ moved s f l /\ rc = VFS_EINVAL /\ ~ reliable D).
Proof.
  induction k as [|k IH]; intros s l off p Hi Hro Hl Hat Hp Ho Hr Hk; [lia|]. cbn [rw_loop].
  destruct (Z.eqb_spec (zlen p) 0) as [Hz|Hz].
  { apply iwp_ret. destruct p; [|rewrite zlen_cons in Hz; pose proof (zlen_nonneg p); lia].
    split; [by apply written_nil|done]. }
  pose proof (zlen_nonneg p).
  eapply iwp_seq; [by apply (rw_step_write s l off p); try done; lia|..]; [|done].
  intros now f (Enow & Hn0 & Hnr & Hw & Hm).
  set (rest := drop (length now) p). assert (Ep : p = now ++ rest).
  { unfold rest. rewrite Enow at 1. by rewrite take_drop. }
  assert (Hzp : zlen p = zlen now + zlen rest) by (rewrite Ep at 1; apply zlen_app).
  pose proof (wi_next _ _ _ (proj1 Hw)) as [Hif Est].
  pose proof (static_vol _ _ Est) as (_&_&_&_&_&_&_&_&_&Ero&_).
  eapply iwp_seq.
  { apply (IH f l (off + zlen now) rest); [done|congruence|by eapply within_chain, Hl; apply Hw|apply Hm|..].
    - by apply Forall_drop.
    - lia.
    - rewrite (static_room (fv s)) by done. lia.
    - unfold rest, zlen in *. rewrite length_drop. lia. }
  - intros r g [Hw' Hm']. apply iwp_ret. split; [rewrite Ep; by eapply written_app|by eapply moved_trans].
  - intros rc g (Hs' & Hm' & ?). split; [|split; [by eapply moved_trans|done]].
    pose proof (zlen_nonneg rest).
    eapply scribbled_trans; [eapply scribbled_mono; [| |apply written_scribbled, Hw]; lia|].
    eapply scribbled_mono; [| |exact Hs']; lia.
Qed.

(** [n] bytes of a chain from [off] on. *)
Definition fbytes v l (off : Z) (n : nat) : bytes := map (fun k => fbyte v l (off + Z.of_nat k)) (seq 0 n).

Lemma at_fbytes v l off n i : 0 <= i < Z.of_nat n -> at_ (fbytes v l off n) i = fbyte v l (off + i).
Proof.
  intros Hi. unfold at_, fbytes. rewrite nth_lookup, list_lookup_fmap.
  rewrite lookup_seq_lt by lia. cbn. f_equal. lia.
Qed.

Lemma zlen_fbytes v l off n : zlen (fbytes v l off n) = Z.of_nat n.
Proof. unfold zlen, fbytes. by rewrite length_map, length_seq. Qed.

Lemma bytes_ext (a b : bytes) :
  zlen a = zlen b -> (forall i, 0 <= i < zlen a -> at_ a i = at_ b i) -> a = b.
Proof.
  unfold zlen, at_. intros Hl Ha. apply (nth_ext _ _ 0 0); [lia|]. intros n Hn.
  specialize (Ha (Z.of_nat n) ltac:(lia)). by rewrite Nat2Z.id in Ha.
Qed.

Lemma rw_read_spec k : forall s l off p,
  inv (fv s) -> chain (fv s) l -> at_chain (ino s) l -> 0 <= off -> off + zlen p <= room (fv s) l ->
  (length p < k)%nat ->
  iwp (rw_loop k false off p) s
    (fun r f => r = fbytes (fv s) l off (length p) /\ same (fv s) (fv f) /\ moved s f l)
    (fun rc f => same (fv s) (fv f) /\ moved s f l /\ rc = VFS_EINVAL /\ ~ reliable D).
Proof.
  induction k as [|k IH]; intros s l off p Hi Hl Hat Ho Hr Hk; [lia|]. cbn [rw_loop].
  destruct (Z.eqb_spec (zlen p) 0) as [Hz|Hz].
  { apply iwp_ret. by destruct p. }
  pose proof (zlen_nonneg p).
  eapply iwp_seq; [by apply (rw_step_read s l off p); try done; lia|..]; [|done].
  intros now f (Hn0 & Hnr & Hs & Hb & Hm). set (rest := drop (length now) p).
  assert (Hzr : zlen rest = zlen p - zlen now) by (unfold rest, zlen in *; rewrite length_drop; lia).
  pose proof Hs as ([Hif Est] & _).
  eapply iwp_seq.
  { apply (IH f l (off + zlen now) rest); [done|eapply chain_same; [done|by intros; apply same_entry|done]|apply Hm|..].
    - lia.
    - rewrite (static_room (fv s)) by done. lia.
    - unfold zlen in *. lia. }
  - intros r g (-> & Hs' & Hm'). apply iwp_ret.
    split; [|split; [by eapply same_trans|by eapply moved_trans]].
    apply bytes_ext; rewrite zlen_app, !zlen_fbytes; [unfold zlen in *; lia|]. intros i Hi'.
    rewrite at_fbytes by (unfold zlen in *; lia). destruct (Z_lt_le_dec i (zlen now)).
    + unfold at_ at 1. rewrite app_nth1 by (unfold zlen in *; lia). apply Hb. lia.
    + unfold at_. rewrite app_nth2 by (unfold zlen in *; lia).
      replace (Z.to_nat i - length now)%nat with (Z.to_nat (i - zlen now)) by (unfold zlen in *; lia).
      fold (at_ (fbytes (fv f) l (off + zlen now) (length rest)) (i - zlen now)).
      rewrite at_fbytes, (fbyte_all_same (fv s)) by (done || unfold zlen in *; lia). f_equal. lia.
  - intros rc g (Hs' & Hm' & ?). split; [by eapply same_trans|]. split; [by eapply moved_trans|done].
Qed.

Lemma zero_range_spec s l from to :
  inv (fv s) -> read_only (vol (fv s)) = false -> chain (fv s) l -> at_chain (ino s) l ->
  0 <= from <= to -> to <= room (fv s) l ->
  iwp (zero_range from to) s
    (fun _ f => written (fv s) (fv f) l from (replicate (Z.to_nat (to - from)) 0) /\ moved s f l)
    (fun rc f => scribbled (fv s) (fv f) l from (to - from) /\ moved s f l /\ rc = VFS_EINVAL /\ ~ reliable D).
Proof.
  unfold zero_range. intros Hi Hro Hl Hat Hf Hr.
  assert (Hk : (Z.to_nat (to - from) < S (Z.to_nat (to - from)))%nat) by lia. revert Hk.
  generalize (S (Z.to_nat (to - from))). intros k. revert s from Hi Hro Hl Hat Hf Hr.
  induction k as [|k IH]; intros s from Hi Hro Hl Hat Hf Hr Hk; [lia|]. cbn [zero_loop].
  destruct (Z.leb_spec to from).
  { apply iwp_ret. replace (Z.to_nat (to - from)) with O by lia. split; [by apply written_nil|done]. }
  set (n := Z.min (to - from) SECTOR). assert (Hn : 0 < n <= to - from) by (unfold n, SECTOR; lia).
  assert (Hzn : zlen (replicate (Z.to_nat n) 0) = n) by (unfold zlen; rewrite length_replicate; lia).
  unfold rw_bytes. eapply iwp_seq.
  { apply (rw_write_spec _ s l from (replicate (Z.to_nat n) 0)); try done; [by apply Forall_replicate|lia|lia|lia]. }
  2: { intros rc f (Hs & ?). split; [|done]. rewrite Hzn in Hs. eapply scribbled_mono; [| |exact Hs]; lia. }
  intros _ f [Hw Hm]. pose proof (wi_next _ _ _ (proj1 Hw)) as [Hif Est].
  pose proof (static_vol _ _ Est) as (_&_&_&_&_&_&_&_&_&Ero&_).
  eapply iwp_mono.
  { apply (IH f (from + n)); [done|congruence|by eapply within_chain, Hl; apply Hw|apply Hm|lia|..].
    - rewrite (static_room (fv s)) by done. lia.
    - lia. }
  - intros [] g [Hw' Hm']. split; [|by eapply moved_trans].
    replace (Z.to_nat (to - from)) with (Z.to_nat n + Z.to_nat (to - (from + n)))%nat by lia.
    rewrite replicate_add. eapply written_app; [done|]. by rewrite Hzn.
  - intros rc g (Hs & Hm' & ?). split; [|split; [by eapply moved_trans|done]].
    eapply scribbled_trans; [eapply scribbled_mono; [| |apply written_scribbled, Hw]; lia|].
    eapply scribbled_mono; [| |exact Hs]; lia.
Qed.

(** *** Growing *)

Lemma at_chain_app n l new : at_chain n l -> l <> [] -> at_chain n (l ++ new).
Proof.
  intros [Hf Hc] Hne. split; [by destruct l|]. intros Hz. destruct (Hc Hz) as [H1 H2].
  split; [done|]. by apply lookup_app_l_Some.
Qed.

Lemma clusters_for_ceil v n :
  inv v -> 0 < n <= 2 ^ 32 ->
  let b := bytes_per_clus (vol v) in
  clusters_for (vol v) n = (n + b - 1) / b /\ 1 <= clusters_for (vol v) n /\
  n <= clusters_for (vol v) n * b /\ (clusters_for (vol v) n - 1) * b < n.
Proof.
  intros Hi Hn b. destruct (bpc_pos v Hi) as (Hb & _ & Eb & Hb2). fold b in Hb, Hb2, Eb.
  pose proof (g_spc _ (i_geometry _ Hi)). unfold SECTOR in Eb.
  pose proof (Z.div_mod (n + b - 1) b ltac:(lia)). pose proof (Z.mod_pos_bound (n + b - 1) b Hb).
  unfold clusters_for. fold b. set (q := (n + b - 1) / b) in *.
  assert (0 <= q < 2 ^ 32) by nia. rewrite wrap_small by lia. nia.
Qed.

Definition out_of_space v (rc : Z) l new (need : Z) : Prop :=
  reliable D -> rc = VFS_ENOSPC /\ Z.of_nat (length (l ++ new)) < need /\
                forall x, valid v x -> entry v x = FAT_FREE -> x ∈ new.

Lemma longer_first v w c : allocated v w c -> inv v -> longer False v w [] [c].
Proof.
  intros (Hv & Hf & (Hn & Hfc & Hlow) & He & Hz) Hi. pose proof Hn as [_ Est]. split; [done| | | |done].
  - cbn. split; [by apply (static_valid v w)|done].
  - intros x ->%list_elem_of_singleton. done.
  - intros x Hx Hnx _. destruct (Hfc x Hx) as [E1 D1]; [|done]. intros ->. apply Hnx. left.
Qed.

Lemma ensure_clusters_spec s l n :
  inv (fv s) -> read_only (vol (fv s)) = false -> chain (fv s) l -> at_chain (ino s) l -> 0 < n <= 2 ^ 32 ->
  let need := clusters_for (vol (fv s)) n in
  iwp (ensure_clusters n) s
    (fun _ f => exists new, longer False (fv s) (fv f) l new /\
       Z.of_nat (length (l ++ new)) = Z.max (Z.of_nat (length l)) need /\ moved s f (l ++ new))
    (fun rc f => exists new, longer True (fv s) (fv f) l new /\ moved s f (l ++ new) /\
       out_of_space (fv s) rc l new need).
Proof.
  intros Hi Hro Hl Hat Hn need. unfold ensure_clusters. rewrite (proj2 (Z.eqb_neq _ _)) by lia.
  apply iwp_bind, iwp_get. fold (the_vol s). apply iwp_bind, iwp_get.
  destruct (clusters_for_ceil (fv s) n Hi Hn) as (_ & Hneed & _). fold need in Hneed.
  (* from a chain that has a first cluster on *)
  assert (Hgo : forall f add c r, longer False (fv s) (fv f) l add -> l ++ add = c :: r -> moved s f (l ++ add) ->
    Z.of_nat (length (l ++ add)) = Z.max (Z.of_nat (length l)) 1 ->
    iwp (lift (extend_chain (Z.to_nat (need - 1)) c)) f
      (fun _ g => exists new, longer False (fv s) (fv g) l new /\
         Z.of_nat (length (l ++ new)) = Z.max (Z.of_nat (length l)) need /\ moved s g (l ++ new))
      (fun rc g => exists new, longer True (fv s) (fv g) l new /\ moved s g (l ++ new) /\
         out_of_space (fv s) rc l new need)).
  { intros f add c r Hg El Hm Hlen. pose proof Hg as [[Hif Est] Hch Hnew Hrest _].
    pose proof (static_vol _ _ Est) as (_&_&_&_&_&_&_&_&_&Ero&_).
    assert (Hm' : forall v new, moved s (Fst v (ino f)) (l ++ add ++ new)).
    { intros v new. split; [|apply Hm]. rewrite app_assoc. apply at_chain_app; [apply Hm|by rewrite El]. }
    eapply iwp_lift; [apply (extend_chain_spec _ (fv f) (l ++ add) 0 c); [done|congruence|done|by rewrite El]|..].
    - intros [] v (new & Hg' & Hlen'). exists (add ++ new). split; [by eapply longer_trans|].
      split; [|done]. rewrite app_assoc, Hlen'. lia.
    - intros rc v (new & Hg' & Hx). exists (add ++ new). split; [by eapply longer_trans|]. split; [done|].
      intros Hrel. destruct (Hx Hrel) as (-> & Hlen' & Hall). split; [done|]. rewrite app_assoc.
      split; [lia|]. intros x Hv Hf. apply elem_of_app.
      destruct (decide (x ∈ add)) as [|Hna]; [by left|right]. apply Hall; [by apply (static_valid (fv s))|].
      destruct (Hrest x Hv Hna) as [_ He]; [tauto|]. rewrite He; [done|].
      intros E%last_elem. by apply (chain_used (fv s) l x). }
  pose proof Hat as [Hf Hcur]. destruct l as [|c r].
  - cbn in Hf. rewrite Hf, Z.eqb_refl. apply iwp_bind, iwp_bind.
    eapply iwp_lift; [by apply alloc_spec|..].
    + intros c v Ha. apply iwp_set, iwp_bind, iwp_get. cbn [upd_ino ino fv first_clus set_cursor set_first].
      apply (Hgo _ [c] c []); [by apply longer_first|done| |done].
      split; [|done]. split; [done|]. intros _. done.
    + intros rc v [Hof Hx]. exists []. split; [by apply leak_grown|]. split; [done|].
      intros Hrel. destruct (Hx Hrel) as [-> Hall]. split; [done|]. split; [cbn; lia|].
      intros x Hv Hfr. by destruct (Hall x Hv).
  - cbn in Hf. assert (c <> 0) by (destruct Hl as [Hv _]; pose proof (valid_below_eoc _ _ Hi Hv); lia).
    rewrite Hf, (proj2 (Z.eqb_neq c 0)) by done. apply iwp_bind, iwp_ret, iwp_bind, iwp_get. rewrite Hf.
    apply (Hgo s [] c r); [by apply longer_refl|by rewrite app_nil_r|by rewrite app_nil_r|].
    rewrite app_nil_r. cbn [length]. lia.
Qed.

End Ops.

(** ** The directory entry of a file: finding it and committing a new size to it. *)

(** *** The 32 bytes of an entry inside their sector *)

Definition slice (off : Z) (b : bytes) : bytes := take 32 (drop (Z.to_nat off) b).

Lemma zlen_slice off b : 0 <= off -> off + 32 <= zlen b -> zlen (slice off b) = 32.
Proof. unfold zlen, slice. intros. rewrite length_take, length_drop. lia. Qed.

Lemma patch_slice off b : 0 <= off -> off + 32 <= zlen b -> patch off (slice off b) b = b.
Proof.
  intros H0 H1. transitivity (take (Z.to_nat off) b ++ drop (Z.to_nat off) b); [|apply take_drop].
  unfold patch. f_equal.
  unfold slice. rewrite length_take, length_drop, Nat.min_l by (unfold zlen in *; lia).
  rewrite <- drop_drop. apply take_drop.
Qed.

Lemma at_slice off b i : 0 <= off -> 0 <= i < 32 -> at_ (slice off b) i = at_ b (off + i).
Proof. intros. unfold slice. rewrite (at_take _ 32) by lia. apply at_drop; lia. Qed.

Lemma put8_patch off i x e b :
  0 <= off -> 0 <= i < zlen e -> off + zlen e <= zlen b ->
  put8 (off + i) x (patch off e b) = patch off (put8 i x e) b.
Proof.
  intros H0 Hi Hl. apply bytes_ext.
  { rewrite zlen_put8, !zlen_patch; rewrite ?zlen_put8; lia. }
  intros j Hj. rewrite zlen_put8, zlen_patch in Hj by lia.
  rewrite at_put8 by (rewrite ?zlen_patch; lia). rewrite !at_patch by (rewrite ?zlen_put8; lia).
  rewrite zlen_put8. destruct (_ && _) eqn:E; b2p.
  - rewrite at_put8 by lia. destruct (Z.eqb_spec j (off + i)), (Z.eqb_spec (j - off) i); done || lia.
  - destruct (Z.eqb_spec j (off + i)); [|done]. destruct E; b2p; lia.
Qed.

Lemma wr16_patch off i x e b :
  0 <= off -> 0 <= i -> i + 2 <= zlen e -> off + zlen e <= zlen b ->
  fat_wr16 (off + i) x (patch off e b) = patch off (fat_wr16 i x e) b.
Proof.
  intros. unfold fat_wr16. rewrite put8_patch by lia. rewrite <- Z.add_assoc.
  apply put8_patch; rewrite ?zlen_put8; lia.
Qed.

Lemma wr32_patch off i x e b :
  0 <= off -> 0 <= i -> i + 4 <= zlen e -> off + zlen e <= zlen b ->
  fat_wr32 (off + i) x (patch off e b) = patch off (fat_wr32 i x e) b.
Proof.
  intros. unfold fat_wr32. rewrite put8_patch by lia. rewrite <- !Z.add_assoc.
  by rewrite !put8_patch by (rewrite ?zlen_put8; lia).
Qed.

Lemma zlen_new_entry now off first size b : zlen (new_entry now off first size b) = zlen b.
Proof. unfold new_entry. destruct now. by rewrite zlen_put8, !zlen_wr16, zlen_wr32, !zlen_wr16. Qed.

Lemma new_entry_patch now off first size b :
  0 <= off -> off + 32 <= zlen b ->
  new_entry now off first size b = patch off (new_entry now 0 first size (slice off b)) b.
Proof.
  intros H0 H1. rewrite <- (patch_slice off b H0 H1) at 1. unfold new_entry. destruct now as [d t].
  pose proof (zlen_slice off b H0 H1) as Hs.
  unfold DE_CLUS_HI, DE_CLUS_LO, DE_SIZE, DE_WRT_TIME, DE_WRT_DATE, DE_ACC_DATE, DE_ATTR.
  rewrite !Z.add_0_l.
  repeat (rewrite wr16_patch || rewrite wr32_patch); rewrite ?zlen_wr16, ?zlen_wr32, ?zlen_wr16; try lia.
  set (e := fat_wr16 18 _ _). assert (He : zlen e = 32) by (unfold e; by rewrite !zlen_wr16, zlen_wr32, !zlen_wr16).
  replace (at_ (patch off e b) (off + 11)) with (at_ e 11).
  { by rewrite put8_patch by lia. }
  rewrite at_patch by lia. rewrite range_in by lia. f_equal. lia.
Qed.

(** What a reader finds in an entry. *)
Definition de_size (e : bytes) : Z := fat_rd32 e DE_SIZE.
Definition de_clus (e : bytes) : Z :=
  Z.lor (Z.shiftl (fat_rd16 e DE_CLUS_HI) 16) (fat_rd16 e DE_CLUS_LO).
Definition de_live (e : bytes) : Prop :=
  at_ e 0 <> 0 /\ at_ e 0 <> FAT_DELETED /\ at_ e DE_ATTR <> FAT_ATTR_LFN.

Section Entry.
Context {D : Type} `{DiskLaws D}.
Implicit Types (v w : vst D) (s f : fst_ D) (l dl : list Z).

(** Entry [i] of the directory whose chain is [dl]. *)
Definition dirent v dl (i : Z) : bytes := fbytes v dl (i * 32) 32.

Lemma locate_walk_spec k : forall v dl i c,
  inv v -> chain v dl -> dl !! i = Some c ->
  iwp (locate_walk k c) v (fun r w => same v w /\ r = dl !! (i + k)%nat)
    (fun rc w => same v w /\ rc = VFS_EINVAL /\ ~ reliable D).
Proof.
  induction k as [|k IH]; intros v dl i c Hi Hl Hc; cbn [locate_walk].
  { apply iwp_ret. by rewrite Nat.add_0_r. }
  eapply iwp_seq; [by apply (chain_next_spec v dl i)|..]; [|done].
  intros n w [Hs Hn]. pose proof Hs as ([Hiw Est] & _).
  destruct (dl !! S i) as [d|] eqn:Hd.
  2: { rewrite Hn. cbn [Z.eqb]. apply iwp_ret. split; [done|]. symmetry. apply lookup_ge_None_2.
       apply lookup_ge_None_1 in Hd. lia. }
  destruct Hn as [-> Hn0].
  rewrite (proj2 (Z.eqb_neq _ _)) by done. replace (i + S k)%nat with (S i + k)%nat in * by lia.
  eapply iwp_mono; [apply (IH w dl (S i) d); [done| |done]|..].
  - eapply chain_same; [done|by intros; apply same_entry|done].
  - intros r x [Hs' ->]. split; [by eapply same_trans|done].
  - intros rc x (Hs' & ?). split; [by eapply same_trans|done].
Qed.

(** The place of entry [i]: cluster, sector in the cluster, offset in the sector. *)
Definition entry_at v dl (i pos c k0 off : Z) : Prop :=
  0 <= pos /\ dl !! Z.to_nat pos = Some c /\ 0 <= k0 < sec_per_clus (vol v) /\ 0 <= off /\
  off + 32 <= SECTOR /\ pos * bytes_per_clus (vol v) + k0 * SECTOR + off = i * 32.

(** Slots to a cluster. *)
Lemma slots_per_cluster v : inv v ->
  bytes_per_clus (vol v) / 32 = sec_per_clus (vol v) * 16 /\ 0 < bytes_per_clus (vol v) / 32 /\
  bytes_per_clus (vol v) = bytes_per_clus (vol v) / 32 * 32.
Proof.
  intros Hi. destruct (bpc_pos v Hi) as (Hb & _ & Eb & _). pose proof (g_spc _ (i_geometry _ Hi)). unfold SECTOR in Eb.
  assert (E : bytes_per_clus (vol v) / 32 = sec_per_clus (vol v) * 16); [|lia].
  rewrite Eb. replace (sec_per_clus (vol v) * 512) with (sec_per_clus (vol v) * 16 * 32) by lia. apply Z.div_mul. lia.
Qed.

(** The sector and offset the code computes for a slot. *)
Lemma slot_place v dl i c :
  inv v -> chain v dl -> 0 <= i ->
  let epc := bytes_per_clus (vol v) / 32 in
  dl !! Z.to_nat (i / epc) = Some c ->
  let byte := i mod epc * 32 in
  entry_at v dl i (i / epc) c (byte / SECTOR) (byte mod SECTOR) /\
  wrap32 (fat_clus_sector (vol v) c + byte / SECTOR) = dsec v c (byte / SECTOR).
Proof.
  intros Hi Hl Hi0 epc Hc byte. destruct (slots_per_cluster v Hi) as (Eepc & Hepc & Ebpc). fold epc in Eepc, Hepc, Ebpc.
  pose proof (Z.div_mod i epc ltac:(lia)) as Hdm. pose proof (Z.mod_pos_bound i epc Hepc) as Hm.
  pose proof (Z.div_pos i epc Hi0 Hepc) as Hq. unfold byte. clear byte. set (pos := i / epc) in *. set (r := i mod epc) in *.
  assert (Hv : valid v c) by (eapply chain_valid; [done|by eapply list_elem_of_lookup_2]).
  pose proof (Z.div_mod (r * 32) SECTOR) as Hds. pose proof (Z.mod_pos_bound (r * 32) SECTOR) as Hms.
  assert (Hk : 0 <= r * 32 / SECTOR < sec_per_clus (vol v)).
  { unfold SECTOR. split; [apply Z.div_pos; lia|]. apply Z.div_lt_upper_bound; lia. }
  assert (Hoff : r * 32 mod SECTOR = 32 * (r mod 16)).
  { unfold SECTOR. change 512 with (16 * 32). rewrite Z.mul_mod_distr_r by lia. lia. }
  pose proof (Z.mod_pos_bound r 16). split.
  - do 3 (split; [done|]). unfold SECTOR in *. split; [lia|]. split; [lia|]. rewrite Ebpc. nia.
  - destruct (dsec_range v c (r * 32 / SECTOR) Hi Hv Hk) as (-> & _ & _ & _ & ?).
    pose proof (geo_bounds v Hi). destruct (dsec_range v c 0 Hi Hv ltac:(lia)) as (_ & ? & _).
    rewrite wrap_small; unfold dsec in *; lia.
Qed.

Lemma locate_spec v dl i dclus :
  inv v -> chain v dl -> head dl = Some dclus -> 0 <= i -> (i + 1) * 32 <= room v dl ->
  iwp (locate dclus i) v
    (fun r w => same v w /\ exists pos c k0 off, entry_at v dl i pos c k0 off /\ r = Some (dsec v c k0, off))
    (fun rc w => same v w /\ rc = VFS_EINVAL /\ ~ reliable D).
Proof.
  intros Hi Hl Hh Hi0 Hr. unfold locate. apply iwp_bind, iwp_get. unfold FAT_DIRENT_SIZE.
  destruct (slots_per_cluster v Hi) as (Eepc & Hepc & Ebpc). set (epc := bytes_per_clus (vol v) / 32) in *.
  pose proof (Z.div_mod i epc ltac:(lia)) as Hdm. pose proof (Z.mod_pos_bound i epc Hepc) as Hm.
  pose proof (Z.div_pos i epc Hi0 Hepc) as Hq.
  assert (Hlt : i / epc < Z.of_nat (length dl)).
  { apply Z.div_lt_upper_bound; [done|]. unfold room in Hr. rewrite Ebpc in Hr. lia. }
  assert (Hc0 : dl !! 0%nat = Some dclus) by by destruct dl.
  eapply iwp_seq; [apply (locate_walk_spec (Z.to_nat (i / epc)) v dl 0 dclus); done|..]; [|done].
  intros x w [Hs ->]. cbn [Nat.add].
  destruct (lookup_lt_is_Some_2 dl (Z.to_nat (i / epc))) as [c Hc]; [lia|]. rewrite Hc.
  assert (Hv : valid v c) by (eapply chain_valid; [done|by eapply list_elem_of_lookup_2]).
  rewrite (proj2 (clus_valid_spec v c Hi) Hv). cbn [negb]. apply iwp_ret. split; [done|].
  destruct (slot_place v dl i c Hi Hl Hi0 Hc) as [Hat E]. fold epc in Hat, E. rewrite E. eauto 10.
Qed.

Lemma dirent_slice v dl i pos c k0 off :
  inv v -> chain v dl -> entry_at v dl i pos c k0 off ->
  dirent v dl i = slice off (sec v (dsec v c k0)).
Proof.
  intros Hi Hl (Hpos & Hc & Hk & Hoff & Hfit & Ei). destruct (sec_bytes v (dsec v c k0)) as [_ Hz].
  unfold dirent. apply bytes_ext; rewrite zlen_fbytes.
  { rewrite zlen_slice by lia. done. }
  intros j Hj. rewrite at_fbytes, at_slice by lia.
  rewrite <- (sector_fbyte v dl pos c k0) by (done || lia). f_equal. lia.
Qed.

(** An entry in use: on the directory's chain, and neither deleted nor part of a name. *)
Record has_entry v dl (dclus i : Z) : Prop := {
  he_chain : chain v dl;
  he_head : head dl = Some dclus;
  he_range : 0 <= i < FAT_NO_ENTRY /\ (i + 1) * 32 <= room v dl;
  he_live : de_live (dirent v dl i) }.

Lemma new_entry_bytes now off first size b : Forall byte_ok b -> Forall byte_ok (new_entry now off first size b).
Proof.
  intros Hb. unfold new_entry. destruct now as [d t]. set (e := fat_wr16 _ _ _).
  assert (He : Forall byte_ok e) by (unfold e; repeat apply wr16_bytes || apply wr32_bytes; done).
  apply put8_bytes; [|done].
  assert (Hr : 0 <= Z.lor (at_ e (off + DE_ATTR)) FAT_ATTR_ARCHIVE < 2 ^ 8); [|done].
  apply lor_range; [lia| |done]. by apply at_byte.
Qed.

Lemma atomically_trans_same v w x l off p : same v w -> atomically w x l off p -> atomically v x l off p.
Proof. intros Hs [Hw|Hw]; [left; by eapply written_trans_same|right; by eapply scribbled_trans_same]. Qed.

Lemma dir_update_spec v dl dclus i first size :
  inv v -> read_only (vol v) = false -> has_entry v dl dclus i ->
  iwp (fat_dir_update dclus i first size) v
    (fun _ w => written v w dl (i * 32) (new_entry (fat_now (clk v)) 0 first size (dirent v dl i)))
    (fun rc w => atomically v w dl (i * 32) (new_entry (fat_now (clk v)) 0 first size (dirent v dl i)) /\
       rc = VFS_EINVAL /\ ~ reliable D).
Proof.
  intros Hi Hro [Hl Hh [Hi0 Hr] Hlive]. unfold fat_dir_update. apply iwp_bind, iwp_get. rewrite Hro.
  rewrite (proj2 (Z.eqb_neq _ _)) by lia.
  eapply iwp_seq; [apply (locate_spec v dl i dclus); try done; lia|..].
  2: { intros rc w (Hs & ?). split; [by right; apply scribbled_same|done]. }
  intros x w (Hs & pos & c & k0 & off & Hat & ->). pose proof Hs as ([Hiw Est] & Hsec & _).
  pose proof Hat as (Hpos & Hc & Hk & Hoff & Hfit & Ei).
  assert (Hv : valid v c) by (eapply chain_valid; [done|by eapply list_elem_of_lookup_2]).
  destruct (dsec_range v c k0 Hi Hv Hk) as (_ & ? & ? & ? & ?). pose proof (geo_bounds v Hi).
  pose proof (static_vol _ _ Est) as (Espc&Ebpc&_&_&_&_&_&_&_&Ero&Ebd&_&Eclk).
  eapply iwp_seq; [apply (sector_read_spec w); [done|lia|lia]|..].
  2: { intros rc x (Hs' & ?). split; [|done]. right. apply scribbled_same. by eapply same_trans. }
  intros sc x [Hs' ->]. rewrite Hsec.
  assert (Hsx : same v x) by by eapply same_trans. clear Hs'.
  destruct (sec_bytes v (dsec v c k0)) as [Hsb Hsl].
  pose proof (dirent_slice v dl i pos c k0 off Hi Hl Hat) as Hde.
  destruct Hlive as (H0' & H1' & H2').
  assert (Hat_ : forall j, 0 <= j < 32 -> at_ (sec v (dsec v c k0)) (off + j) = at_ (dirent v dl i) j).
  { intros j Hj. rewrite Hde, at_slice by lia. done. }
  replace off with (off + 0) at 1 2 by lia. rewrite !Hat_ by (unfold DE_ATTR; lia).
  rewrite !(proj2 (Z.eqb_neq _ _)) by done. cbn [orb].
  apply iwp_bind, iwp_get. pose proof Hsx as ([Hix Esx] & Hsecx & _).
  pose proof (static_vol _ _ Esx) as (Espcx&Ebpcx&_&_&_&_&_&_&_&Erox&_&_&->).
  rewrite new_entry_patch, <- Hde by lia. set (e := new_entry _ 0 _ _ _).
  assert (Hez : zlen e = 32) by (unfold e; rewrite zlen_new_entry; apply zlen_fbytes).
  assert (Heb : Forall byte_ok e).
  { unfold e. apply new_entry_bytes. rewrite Hde. unfold slice. by apply Forall_take, Forall_drop. }
  rewrite <- Hsecx. rewrite <- (static_dsec v x) by done.
  assert (Hlx : chain x dl) by (eapply chain_same; [done|by intros; apply same_entry|done]).
  eapply iwp_mono.
  { apply (part_write x dl pos c k0 Hix Hlx Hpos Hc ltac:(lia) off e); [congruence|lia|lia|lia|lia|done]. }
  - intros [] y Hy. eapply written_trans_same; [done|]. rewrite <- Ei, <- Ebpcx. done.
  - intros rc y (Hy & ?). split; [|done]. eapply atomically_trans_same; [done|].
    rewrite <- Ei, <- Ebpcx. done.
Qed.

Lemma commit_spec s dl size :
  inv (fv s) -> read_only (vol (fv s)) = false -> has_entry (fv s) dl (dir_clus (ino s)) (dir_index (ino s)) ->
  0 <= size < 2 ^ 32 ->
  let e := new_entry (fat_now (clk (fv s))) 0 (first_clus (ino s)) size (dirent (fv s) dl (dir_index (ino s))) in
  iwp (commit size) s
    (fun _ f => ino f = ino s /\ written (fv s) (fv f) dl (dir_index (ino s) * 32) e)
    (fun rc f => ino f = ino s /\ atomically (fv s) (fv f) dl (dir_index (ino s) * 32) e /\
       rc = VFS_EINVAL /\ ~ reliable D).
Proof.
  intros Hi Hro Hh Hsz e. unfold commit. set (n := ino s) in *.
  apply iwp_bind. eapply iwp_lift; [by apply barrier_spec|..].
  2: { intros rc v (Hs & ? & ?). split; [done|]. split; [by right; apply scribbled_same|done]. }
  intros [] v Hs. pose proof Hs as ([Hiv Est] & Hsec & _).
  pose proof (static_vol _ _ Est) as (_&_&_&_&_&_&_&_&_&Ero&_&_&Eclk).
  assert (Hde : dirent v dl (dir_index n) = dirent (fv s) dl (dir_index n)) by (apply map_ext; intros; by apply fbyte_all_same).
  assert (Hhv : has_entry v dl (dir_clus n) (dir_index n)).
  { destruct Hh as [Hl Hhd [? ?] Hlive]. split; [|done|split; [done|by rewrite (static_room (fv s))]|by rewrite Hde].
    eapply chain_same; [done|by intros; apply same_entry|done]. }
  apply iwp_bind, iwp_get. rewrite wrap_small by lia. apply iwp_bind.
  pose proof (dir_update_spec v dl _ _ (first_clus n) size Hiv ltac:(congruence) Hhv) as Hup.
  rewrite Hde, Eclk in Hup. fold e in Hup. eapply iwp_lift; [exact Hup|..].
  2: { intros rc w (Hw & ? & ?). split; [done|]. split; [|done]. by eapply atomically_trans_same. }
  intros [] w Hw. assert (Hw' : written (fv s) w dl (dir_index n * 32) e) by by eapply written_trans_same.
  pose proof (wi_next _ _ _ (proj1 Hw')) as [Hiw Esw].
  assert (Hend : forall x, same w x -> written (fv s) x dl (dir_index n * 32) e).
  { intros x Hx. rewrite <- (app_nil_r e). eapply written_app; [done|]. split; [by apply within_same|].
    intros j Hj. rewrite zlen_nil, range_out by lia. by apply fbyte_all_same. }
  eapply iwp_lift; [by apply barrier_spec|..].
  - intros [] x Hx. by split; [|apply Hend].
  - intros rc x (Hx & ? & ?). split; [done|]. split; [by left; apply Hend|done].
Qed.

End Entry.
