(* ===== verification/FatSpec.v ===== *)
(** fs/fat: what a file on a FAT volume is. The bytes of a cluster chain under a directory
    entry are a byte string; what a change leaves of the files it does not touch. *)

From S2P Require Import Prelude Bytes FileSpec Vfs Rtc Block FatVol FatMount FatFile.
From S2P Require Import FatDisk FatChain FatRw FatEntry.

(** The length of a buffer after stores into it. *)
Ltac field_len := repeat (rewrite zlen_wr16 || rewrite zlen_wr32 || rewrite zlen_put8).

Section Spec.
Context {D : Type} `{DiskLaws D}.
Implicit Types (v w u : vst D) (s f : fst_ D) (l dl new : list Z) (X : Z -> Prop).

(** The first [zlen c] bytes of the chain [l] are [c]. *)
Definition holds v l (c : bytes) : Prop :=
  zlen c <= room v l /\ forall j, 0 <= j < zlen c -> fbyte v l j = at_ c j.

(** Entry [i] of the directory with chain [dl] describes a file with chain [l] and
    contents [c]: what a mount of this disk would find there. *)
Record on_disk v l dl (dclus i : Z) (c : bytes) : Prop := {
  od_entry : has_entry v dl dclus i;
  od_chain : chain v l;
  od_first : de_clus (dirent v dl i) = default 0 (head l);
  od_size : de_size (dirent v dl i) = zlen c;
  od_bytes : holds v l c }.

(** ... and the inode at hand is in step with it. *)
Record fat_file s l dl (c : bytes) : Prop := {
  ff_inv : inv (fv s);
  ff_type : n_type (ino s) = VNODE_FILE;
  ff_size : n_size (ino s) = zlen c;
  ff_at : at_chain (ino s) l;
  ff_disk : on_disk (fv s) l dl (dir_clus (ino s)) (dir_index (ino s)) c;
  ff_apart : forall x, x ∈ l -> x ∉ dl }.

(** *** Frames *)

(** The clusters a change to the file with chain [l] may touch. *)
Definition reach v l (x : Z) : Prop := x ∈ l \/ entry v x = FAT_FREE.

Lemma longer_frame leak v w l new :
  longer leak v w l new -> frame (reach v l) v w.
Proof.
  intros [Hn _ Hnew Hrest Hlow]. split; [done|]. split; [|done]. intros x Hv Hx.
  assert (x ∉ new) by (intros Hin; destruct (Hnew x Hin) as (_ & Hf & _); apply Hx; by right).
  destruct (Hrest x Hv) as [Hd He]; [done|intros [_ Hf]; apply Hx; by right|].
  split; [|done]. apply He. intros Hl%last_elem. apply Hx. by left.
Qed.

Lemma within_frame X v w l : within v w l -> (forall x, x ∈ l -> X x) -> frame X v w.
Proof.
  intros [Hn He Hd Hlow] Hx. split; [done|]. split; [|done]. intros x Hv Hnx.
  split; [by apply He|apply Hd; [done|]]. intros Hin. by apply Hnx, Hx.
Qed.

Lemma longer_reach leak v w l new x : longer leak v w l new -> x ∈ l ++ new -> reach v l x.
Proof. intros [_ _ Hnew _ _] [Hx|Hx]%elem_of_app; [by left|right; by apply (Hnew x)]. Qed.

Lemma frame_fbyte X v w l j :
  frame X v w -> inv v -> chain v l -> (forall x, x ∈ l -> ~ X x) -> 0 <= j < room v l ->
  fbyte w l j = fbyte v l j.
Proof.
  intros ([_ Est] & Hf & _) Hi Hl Hx Hj. apply fbyte_same; [done|done|done|done|].
  intros x Hin. apply Hf; [by eapply chain_valid|by apply Hx].
Qed.

Lemma dirent_ext v w dl i :
  (forall j, i * 32 <= j < i * 32 + 32 -> fbyte w dl j = fbyte v dl j) -> dirent w dl i = dirent v dl i.
Proof.
  intros Hb. apply bytes_ext; unfold dirent; rewrite !zlen_fbytes; [done|].
  intros j Hj. rewrite !at_fbytes by done. apply Hb. lia.
Qed.

Lemma has_entry_next v w dl dclus i :
  has_entry v dl dclus i -> static w = static v -> chain w dl -> de_live (dirent w dl i) ->
  has_entry w dl dclus i.
Proof. intros [Hc Hh [? ?] Hlive] Est ??. split; [done|done|by rewrite (static_room v)|done]. Qed.

Lemma frame_dirent X v w dl dclus i :
  frame X v w -> inv v -> (forall x, x ∈ dl -> ~ X x) -> has_entry v dl dclus i ->
  has_entry w dl dclus i /\ dirent w dl i = dirent v dl i.
Proof.
  intros Hf Hi Hx He. pose proof He as [Hc Hh [? ?] Hlive]. pose proof Hf as ([_ Est] & _).
  assert (E : dirent w dl i = dirent v dl i).
  { apply dirent_ext. intros j Hj. eapply frame_fbyte; [done|done|done|done|lia]. }
  split; [|done]. eapply has_entry_next; [done|done|by eapply chain_frame|by rewrite E].
Qed.

Lemma holds_ext v w l c :
  static w = static v -> holds v l c -> (forall j, 0 <= j < zlen c -> fbyte w l j = fbyte v l j) -> holds w l c.
Proof.
  intros Est [Hr Hb] He. split; [by rewrite (static_room v)|]. intros j Hj. by rewrite He, Hb.
Qed.

(** A file none of whose clusters is touched is as it was. *)
Lemma on_disk_frame X v w l dl dclus i c :
  frame X v w -> inv v -> (forall x, x ∈ l \/ x ∈ dl -> ~ X x) ->
  on_disk v l dl dclus i c -> on_disk w l dl dclus i c.
Proof.
  intros Hf Hi Hx [He Hl Hfst Hsz Hb]. pose proof Hf as ([_ Est] & _).
  destruct (frame_dirent X v w dl dclus i) as [He' E]; [done|done|auto|done|].
  split; [done|eapply chain_frame; [done|auto|done]|by rewrite E|by rewrite E|].
  eapply holds_ext; [done|done|]. destruct Hb as [Hr _]. intros j Hj.
  eapply frame_fbyte; [done|done|done|auto|lia].
Qed.

(** *** The contents of a chain *)

Lemma longer_fbyte leak v w l new j :
  longer leak v w l new -> inv v -> chain v l -> 0 <= j < room v l -> fbyte w (l ++ new) j = fbyte v l j.
Proof.
  intros Hg Hi Hl Hj. pose proof Hg as [[_ Est] _ Hnew Hrest _].
  destruct (bpc_pos v Hi) as (Hb & _). unfold room in Hj.
  transitivity (fbyte w l j).
  - unfold fbyte. rewrite app_nth1; [done|]. destruct (static_vol v w Est) as (_&->&_).
    pose proof (Z.div_lt_upper_bound j (bytes_per_clus (vol v)) (Z.of_nat (length l)) ltac:(lia) ltac:(lia)).
    pose proof (Z.div_pos j (bytes_per_clus (vol v))). lia.
  - apply fbyte_same; [done|done|done|done|]. intros x Hx.
    pose proof (chain_used v l x Hi Hl Hx). apply (Hrest x); [by eapply chain_valid| |tauto].
    intros Hin. by destruct (Hnew x Hin) as (_ & ? & _).
Qed.

Lemma longer_holds leak v w l new c :
  longer leak v w l new -> inv v -> chain v l -> holds v l c -> holds w (l ++ new) c.
Proof.
  intros Hg Hi Hl [Hr Hb]. pose proof (gr_next _ _ _ _ _ Hg) as [_ Est]. split.
  - rewrite (static_room v) by done. destruct (bpc_pos v Hi) as (? & _). unfold room in *.
    rewrite length_app. nia.
  - intros j Hj. rewrite (longer_fbyte leak v w) by (done || lia). by apply Hb.
Qed.

Lemma room_app v l new : inv v -> room v l <= room v (l ++ new).
Proof. intros Hi. destruct (bpc_pos v Hi) as (? & _). unfold room. rewrite length_app. nia. Qed.

Lemma nth_zeros n k : nth k (zeros n) 0 = 0.
Proof.
  unfold zeros. rewrite nth_lookup. destruct (replicate _ _ !! _) eqn:E; [|done].
  by apply lookup_replicate in E as [-> _].
Qed.

(** A file grown by zeroes up to where the write starts, then written. *)
Lemma at_f_write c off buf j : 0 <= off -> 0 <= j < zlen (f_write c off buf) ->
  at_ (f_write c off buf) j =
  if (off <=? j) && (j <? off + zlen buf) then at_ buf (j - off) else if j <? zlen c then at_ c j else 0.
Proof.
  intros Hoff Hj. rewrite zlen_f_write in Hj by done. unfold f_write, at_. pose proof (zlen_nonneg c).
  assert (Ht : length (take (Z.to_nat off) (c ++ zeros (off - zlen c))) = Z.to_nat off).
  { rewrite length_take, length_app. unfold zeros, zlen. rewrite length_replicate. unfold zlen in *. lia. }
  destruct (Z_lt_le_dec j off).
  - rewrite range_out, app_nth1 by lia. rewrite !nth_lookup, lookup_take_lt by lia.
    destruct (Z.ltb_spec j (zlen c)).
    + rewrite lookup_app_l by (unfold zlen in *; lia). done.
    + rewrite lookup_app_r by (unfold zlen in *; lia). unfold zeros.
      rewrite lookup_replicate_2 by (unfold zlen in *; lia). done.
  - rewrite app_nth2, Ht by lia. destruct (Z_lt_le_dec j (off + zlen buf)).
    + rewrite range_in, app_nth1 by (unfold zlen in *; lia). f_equal. lia.
    + rewrite range_out, app_nth2 by (unfold zlen in *; lia). destruct (Z.ltb_spec j (zlen c)); [|lia].
      rewrite !nth_lookup, lookup_drop. do 2 f_equal. unfold zlen in *. lia.
Qed.

Lemma at_f_truncate c size j : 0 <= j < size ->
  at_ (f_truncate c size) j = if j <? zlen c then at_ c j else 0.
Proof.
  intros Hj. unfold f_truncate, at_. destruct (Z.ltb_spec j (zlen c)).
  - rewrite app_nth1 by (rewrite length_take; unfold zlen in *; lia).
    rewrite !nth_lookup, lookup_take_lt by lia. done.
  - rewrite app_nth2 by (rewrite length_take; unfold zlen in *; lia). apply nth_zeros.
Qed.

(** *** The new entry *)

Lemma at_wr16 b i x j :
  0 <= i -> i + 2 <= zlen b -> 0 <= j ->
  at_ (fat_wr16 i x b) j = if j =? i + 1 then wrap8 (Z.shiftr (wrap16 x) 8) else if j =? i then Z.land x 0xFF else at_ b j.
Proof.
  intros. unfold fat_wr16. rewrite at_put8 by (rewrite ?zlen_put8; lia).
  destruct (j =? i + 1); [done|]. by rewrite at_put8 by lia.
Qed.

Lemma rd16_wr16 b i x :
  0 <= i -> i + 2 <= zlen b -> 0 <= x < 2 ^ 16 -> fat_rd16 (fat_wr16 i x b) i = x.
Proof.
  intros Hi Hl Hx. unfold fat_rd16. rewrite !at_wr16 by lia. rewrite !Z.eqb_refl, (proj2 (Z.eqb_neq _ _)) by lia.
  change 255 with (2 ^ 8 - 1). rewrite land_mask by lia.
  pose proof (Z.mod_pos_bound x (2 ^ 8)). pose proof (Z.div_mod x (2 ^ 8)).
  rewrite lor_shiftl, (wrap_small 16), Z.shiftr_div_pow2 by lia. unfold wrap.
  rewrite (Z.mod_small (x / 2 ^ 8)); [lia|].
  split; [apply Z.div_pos; lia|apply Z.div_lt_upper_bound; lia].
Qed.

Lemma rd16_ext a b i : at_ a i = at_ b i -> at_ a (i + 1) = at_ b (i + 1) -> fat_rd16 a i = fat_rd16 b i.
Proof. unfold fat_rd16. congruence. Qed.
Lemma rd32_ext a b i :
  at_ a i = at_ b i -> at_ a (i + 1) = at_ b (i + 1) -> at_ a (i + 2) = at_ b (i + 2) ->
  at_ a (i + 3) = at_ b (i + 3) -> fat_rd32 a i = fat_rd32 b i.
Proof. unfold fat_rd32. congruence. Qed.

(** Read a byte past the fields that do not hold it. *)
Ltac field_at :=
  repeat (first [rewrite at_put8 by (field_len; lia) | rewrite at_wr16 by (field_len; lia)
                |rewrite at_wr32 by (field_len; lia)];
          repeat match goal with |- context [?a =? ?b] =>
            first [rewrite (proj2 (Z.eqb_neq a b)) by lia | rewrite (proj2 (Z.eqb_eq a b)) by lia] end).

Lemma new_entry_fields now first size e :
  zlen e = 32 -> Forall byte_ok e -> 0 <= first < 2 ^ 32 -> 0 <= size < 2 ^ 32 ->
  let e' := new_entry now 0 first size e in
  de_size e' = size /\ de_clus e' = first /\ (de_live e -> de_live e') /\
  forall j, 0 <= j < 18 -> j <> DE_ATTR -> at_ e' j = at_ e j.
Proof.
  intros Hz Hby Hf Hs. unfold new_entry, de_size, de_clus, de_live. destruct now as [d t].
  unfold DE_CLUS_HI, DE_CLUS_LO, DE_SIZE, DE_WRT_TIME, DE_WRT_DATE, DE_ACC_DATE, DE_ATTR. cbn [Z.add].
  set (hi := Z.shiftr first 16). set (lo := Z.land first 0xFFFF).
  assert (Hlo : lo = first mod 2 ^ 16) by (unfold lo; change 0xFFFF with (2 ^ 16 - 1); by rewrite land_mask by lia).
  assert (Hhi : hi = first / 2 ^ 16) by (unfold hi; by rewrite Z.shiftr_div_pow2 by lia).
  clearbody hi lo. pose proof (Z.mod_pos_bound first (2 ^ 16) ltac:(lia)).
  pose proof (Z.div_mod first (2 ^ 16) ltac:(lia)).
  assert (0 <= hi < 2 ^ 16).
  { rewrite Hhi. split; [apply Z.div_pos; lia|apply Z.div_lt_upper_bound; lia]. }
  set (e1 := fat_wr16 20 hi e). set (e2 := fat_wr16 26 lo e1). set (e3 := fat_wr32 28 size e2).
  assert (Hz2 : zlen e2 = 32) by (unfold e2, e1; by field_len).
  assert (Hz3 : zlen e3 = 32) by (unfold e3; by field_len).
  split; [|split; [|split]].
  - rewrite (rd32_ext _ e3); [|field_at; unfold e3, e2, e1; field_at; done..]. unfold e3. apply rd32_wr32; [|lia|lia|lia].
    by apply wr16_bytes, wr16_bytes.
  - rewrite (rd16_ext _ e1 20), (rd16_ext _ e2 26).
    2-5: field_at; unfold e3, e2, e1; field_at; done.
    unfold e2, e1. rewrite !rd16_wr16 by (field_len; lia). rewrite Z.lor_comm, lor_shiftl by lia. lia.
  - intros (Ha & Hb & Hc). field_at. unfold e3, e2, e1. field_at. split; [done|]. split; [done|].
    intros E. apply (f_equal (fun x => Z.testbit x 5)) in E. rewrite Z.lor_spec in E.
    change (Z.testbit FAT_ATTR_ARCHIVE 5) with true in E. by rewrite orb_true_r in E.
  - intros j Hj Hn. field_at. unfold e3, e2, e1. by field_at.
Qed.

Lemma new_entry_attr now first size e : zlen e = 32 ->
  at_ (new_entry now 0 first size e) 11 = Z.lor (at_ e 11) FAT_ATTR_ARCHIVE.
Proof.
  intros Hz. unfold new_entry. destruct now as [d t].
  unfold DE_CLUS_HI, DE_CLUS_LO, DE_SIZE, DE_WRT_TIME, DE_WRT_DATE, DE_ACC_DATE, DE_ATTR. cbn [Z.add]. field_at. done.
Qed.

Lemma fbytes_ok v l off n : Forall byte_ok (fbytes v l off n).
Proof.
  apply Forall_map, List.Forall_forall. intros k _. unfold fbyte. apply at_byte, sec_bytes.
Qed.

(** The entry once a commit has written it. *)
Lemma written_entry w u dl dclus i now first size :
  inv w -> has_entry w dl dclus i ->
  written w u dl (i * 32) (new_entry now 0 first size (dirent w dl i)) ->
  0 <= first < 2 ^ 32 -> 0 <= size < 2 ^ 32 ->
  has_entry u dl dclus i /\ de_clus (dirent u dl i) = first /\ de_size (dirent u dl i) = size.
Proof.
  intros Hi He [Hw Hb] Hf Hs. pose proof He as [Hc Hh [? ?] Hlive].
  assert (Hz : zlen (dirent w dl i) = 32) by apply zlen_fbytes.
  assert (Hby : Forall byte_ok (dirent w dl i)) by apply fbytes_ok.
  destruct (new_entry_fields now first size (dirent w dl i) Hz Hby Hf Hs) as (Esz & Ecl & Hlv & _).
  assert (E : dirent u dl i = new_entry now 0 first size (dirent w dl i)).
  { apply bytes_ext; [rewrite zlen_new_entry, Hz; apply zlen_fbytes|]. unfold dirent at 1 2. rewrite zlen_fbytes.
    intros j Hj. rewrite at_fbytes, Hb by lia. rewrite zlen_new_entry, Hz, range_in by lia. f_equal. lia. }
  rewrite E. split; [|done]. pose proof (wi_next _ _ _ Hw) as [_ Est].
  eapply has_entry_next; [done|done|by eapply within_chain|]. rewrite E. by apply Hlv.
Qed.

(** *** Other files *)

(** The file of entry [i2] of [dl2] is not the one of entry [i] of [dl], and shares no
    cluster with it. *)
Definition apart l dl (i : Z) (l2 dl2 : list Z) (i2 : Z) : Prop :=
  (forall x, x ∈ l2 -> (x ∉ l) /\ x ∉ dl) /\ (forall x, x ∈ dl2 -> x ∉ l) /\
  ((dl2 = dl /\ i2 <> i) \/ forall x, x ∈ dl2 -> x ∉ dl).

(** The directory is as it was, but for what is not the name in entry [i]. *)
Definition dir_kept v w l dl (i : Z) : Prop :=
  (forall x, x ∈ dl -> x ∉ l) -> chain v dl -> 0 <= i -> (i + 1) * 32 <= room v dl ->
  static w = static v /\ chain w dl /\
  (forall j, 0 <= j < room v dl -> j <> i * 32 + DE_ATTR -> ~ (i * 32 + 18 <= j < i * 32 + 32) -> fbyte w dl j = fbyte v dl j) /\
  (fbyte w dl (i * 32 + DE_ATTR) = fbyte v dl (i * 32 + DE_ATTR) \/
   fbyte w dl (i * 32 + DE_ATTR) = Z.lor (fbyte v dl (i * 32 + DE_ATTR)) FAT_ATTR_ARCHIVE).

(** Every other file on the disk is as it was, and so are the names in the directory. *)
Definition others_kept v w l dl (i : Z) : Prop :=
  (forall l2 dl2 dclus2 i2 c2,
     apart l dl i l2 dl2 i2 -> on_disk v l2 dl2 dclus2 i2 c2 -> on_disk w l2 dl2 dclus2 i2 c2) /\
  dir_kept v w l dl i.

Lemma dir_kept_bytes v w l dl i :
  static w = static v -> ((forall x, x ∈ dl -> x ∉ l) -> chain v dl -> chain w dl) ->
  ((forall x, x ∈ dl -> x ∉ l) -> chain v dl -> forall j, 0 <= j < room v dl -> fbyte w dl j = fbyte v dl j) -> dir_kept v w l dl i.
Proof.
  intros Est Hc Hb Hx Hl Hi Hr. split; [done|]. split; [by apply Hc|]. unfold DE_ATTR. split; [|left]; intros; apply Hb; done || lia.
Qed.

(** A commit, done or not done. *)
Lemma committed_others v w l dl i now first size :
  inv v -> chain v dl -> 0 <= i -> (i + 1) * 32 <= room v dl -> 0 <= first < 2 ^ 32 -> 0 <= size < 2 ^ 32 ->
  atomically v w dl (i * 32) (new_entry now 0 first size (dirent v dl i)) -> others_kept v w l dl i.
Proof.
  intros Hi Hdl Hi0 Hroom Hf32 Hs32 Hat. assert (Hez : zlen (dirent v dl i) = 32) by apply zlen_fbytes.
  assert (Hsc : scribbled v w dl (i * 32) 32).
  { destruct Hat as [Hw|Hw]; [|eapply scribbled_mono; [| |exact Hw]; lia]. apply written_scribbled in Hw.
    rewrite zlen_new_entry, Hez in Hw. done. }
  destruct Hsc as [Hw Hb]. pose proof (wi_next _ _ _ Hw) as [_ Est]. split.
  - intros l2 dl2 dclus2 i2 c2 (Ha & _ & Hd) Ho.
    assert (Hf : frame (fun x => x ∈ dl) v w) by by eapply within_frame.
    destruct Hd as [[-> Hne]|Hd].
    + pose proof Ho as [He Hl Hfst Hsz Hby]. pose proof He as [_ _ [? ?] Hlive].
      assert (E : dirent w dl i2 = dirent v dl i2).
      { apply dirent_ext. intros j Hj. apply Hb; lia. }
      split; [eapply has_entry_next; [done|done|by eapply within_chain|by rewrite E]| |by rewrite E..|].
      * by eapply within_chain.
      * eapply holds_ext; [done|done|]. destruct Hby as [Hr _]. intros j Hj.
        eapply frame_fbyte; [done|done|done|intros x Hx; by apply Ha|lia].
    + eapply on_disk_frame; [done|done| |done]. intros x [Hx|Hx]; [by apply Ha|by apply Hd].
  - intros _ _ _ _. split; [done|]. split; [by eapply within_chain|].
    assert (Hby : Forall byte_ok (dirent v dl i)) by apply fbytes_ok.
    destruct (new_entry_fields now first size (dirent v dl i) Hez Hby Hf32 Hs32) as (_ & _ & _ & Hsame).
    assert (Hat' : forall k, 0 <= k < 32 -> fbyte w dl (i * 32 + k) = at_ (new_entry now 0 first size (dirent v dl i)) k \/
                                     fbyte w dl (i * 32 + k) = fbyte v dl (i * 32 + k)).
    { intros k Hk. destruct Hat as [[_ Hwr]|[_ Hsc]]; [left|right; apply Hsc; lia].
      rewrite Hwr, zlen_new_entry, Hez, range_in by lia. f_equal. lia. }
    split.
    + intros j Hj Hn1 Hn2. destruct (Z_lt_le_dec j (i * 32)); [apply Hb; lia|]. destruct (Z_lt_le_dec j (i * 32 + 32)); [|apply Hb; lia].
      replace j with (i * 32 + (j - i * 32)) in * by lia. set (k := j - i * 32) in *.
      destruct (Hat' k ltac:(lia)) as [->| ->]; [|done]. rewrite Hsame by lia. unfold dirent. rewrite at_fbytes by lia. done.
    + unfold DE_ATTR in *. destruct (Hat' 11 ltac:(lia)) as [->| ->]; [right|by left]. rewrite (new_entry_attr _ _ _ _ Hez).
      unfold dirent. by rewrite at_fbytes by lia.
Qed.

Lemma frame_others v w l dl i : inv v -> frame (reach v l) v w -> others_kept v w l dl i.
Proof.
  intros Hi Hf. split.
  - intros l2 dl2 dclus2 i2 c2 (Ha & Hd & _) Ho. eapply on_disk_frame; [done|done| |done].
    pose proof Ho as [[Hdl _ _ _] Hl _ _ _].
    intros x [Hx|Hx] [Hr|Hr]; [by destruct (Ha x Hx)|by apply (chain_used v l2 x)|by apply (Hd x Hx)|by apply (chain_used v dl2 x)].
  - assert (Hno : (forall x, x ∈ dl -> x ∉ l) -> chain v dl -> forall x, x ∈ dl -> ~ reach v l x)
      by (intros Hx Hl x Hin [Hr|Hr]; [by apply (Hx x)|by apply (chain_used v dl x)]).
    apply dir_kept_bytes; [apply Hf|intros Hx Hl; eapply chain_frame; [exact Hf|by apply Hno|done]|intros Hx Hl j Hj].
    eapply frame_fbyte; [exact Hf|done|done|by apply Hno|done].
Qed.

Lemma others_trans v w u l dl i : others_kept v w l dl i -> others_kept w u l dl i -> others_kept v u l dl i.
Proof.
  intros [H1' D1] [H2' D2]. split; [intros l2 dl2 dc2 i2 c2 Ha Ho; apply H2'; [done|]; by apply H1'|].
  intros Hx Hl Hi Hr. destruct (D1 Hx Hl Hi Hr) as (E1 & C1 & B1 & A1).
  destruct (D2 Hx C1 Hi ltac:(by rewrite (static_room v))) as (E2 & C2 & B2 & A2). rewrite (static_room v) in B2 by done.
  split; [congruence|]. split; [done|]. split; [intros j ???; by rewrite B2, B1|].
  destruct A2 as [->| ->], A1 as [->| ->]; auto. right. rewrite <- Z.lor_assoc. f_equal.
Qed.

End Spec.
