(* ===== verification/FatWrite.v ===== *)
(** fs/fat/fat.c: writing a file, in three parts. Staging: clusters are added, a gap is zeroed
    and the data is stored while the directory entry still has the old size. Committing the
    new size, and what the disk holds when that fails. fat_op_write as a whole. *)

From S2P Require Import Prelude Bytes Rtc FileSpec Vfs Block FatVol FatMount FatFile FatDisk FatChain.
From S2P Require Import FatRw FatEntry FatSpec.

Section Stage.
Context {D : Type} `{DiskLaws D}.
Implicit Types (v w u : vst D) (s f g : fst_ D) (l dl new : list Z).

(** From [s] to [f] the file with chain [l] got the clusters [new] and other bytes, and
    nothing but clusters of its own and free ones changed. *)
Record staged s f l new : Prop := {
  st_frame : frame (reach (fv s) l) (fv s) (fv f);
  st_chain : chain (fv f) (l ++ new);
  st_moved : moved s f (l ++ new);
  st_new : forall x, x ∈ new -> valid (fv s) x /\ entry (fv s) x = FAT_FREE }.

Lemma staged_static s f l new : staged s f l new -> inv (fv f) /\ static (fv f) = static (fv s).
Proof. intros [([? ?] & _) _ _ _]. done. Qed.

Lemma staged_ro s f l new : staged s f l new -> read_only (vol (fv f)) = read_only (vol (fv s)).
Proof. intros [_ E]%staged_static. by destruct (static_vol _ _ E) as (_&_&_&_&_&_&_&_&_&->&_). Qed.

Lemma longer_staged leak s f l new :
  longer leak (fv s) (fv f) l new -> moved s f (l ++ new) -> staged s f l new.
Proof.
  intros Hg Hm. split; [by eapply longer_frame|by apply (gr_chain _ _ _ _ _ Hg)|done|].
  intros x Hx. destruct (gr_new _ _ _ _ _ Hg x Hx) as (? & ? & _). done.
Qed.

Lemma staged_within s f g l new :
  staged s f l new -> within (fv f) (fv g) (l ++ new) -> moved f g (l ++ new) -> staged s g l new.
Proof.
  intros [Hf Hc Hm Hn] Hw Hm'. split; [|by eapply within_chain|by eapply moved_trans|done].
  eapply frame_trans; [done|]. eapply within_frame; [done|].
  intros x [Hx|Hx]%elem_of_app; [by left|right; by apply Hn].
Qed.

(** All free clusters together are too few for [n] bytes. *)
Definition disk_full v l (n : Z) : Prop := exists new,
  NoDup (l ++ new) /\ room v (l ++ new) < n /\ forall x, valid v x -> entry v x = FAT_FREE -> x ∈ new.

Lemma stage_clusters s l n c :
  inv (fv s) -> read_only (vol (fv s)) = false -> chain (fv s) l -> at_chain (ino s) l ->
  0 < n <= 2 ^ 32 -> holds (fv s) l c ->
  iwp (ensure_clusters n) s
    (fun _ f => exists new, staged s f l new /\ holds (fv f) (l ++ new) c /\ n <= room (fv f) (l ++ new))
    (fun rc f => exists new, staged s f l new /\ holds (fv f) (l ++ new) c /\
       (reliable D -> rc = VFS_ENOSPC /\ disk_full (fv s) l n)).
Proof.
  intros Hi Hro Hl Hat Hn Hh. destruct (clusters_for_ceil (fv s) n Hi Hn) as (_ & _ & Hup & Hlow).
  set (need := clusters_for (vol (fv s)) n) in *. destruct (bpc_pos (fv s) Hi) as (Hb & _).
  eapply iwp_mono; [by apply (ensure_clusters_spec s l n)|..].
  - intros [] f (new & Hg & Hlen & Hm). exists new. split; [by eapply longer_staged|].
    split; [by eapply longer_holds|]. pose proof (gr_next _ _ _ _ _ Hg) as [_ Est].
    rewrite (static_room (fv s)) by done. unfold room. fold need in Hlen. nia.
  - intros rc f (new & Hg & Hm & Hx). exists new. split; [by eapply longer_staged|].
    split; [by eapply longer_holds|]. intros Hrel. destruct (Hx Hrel) as (-> & Hlen & Hall). split; [done|].
    exists new. pose proof (gr_next _ _ _ _ _ Hg) as [Hif _].
    split; [eapply (chain_nodup (fv f)); [done|apply Hg]|]. split; [|done]. fold need in Hlen. unfold room. nia.
Qed.

(** A gap between the end of the file and the place of the write. *)
Lemma stage_gap s f l new c off :
  staged s f l new -> read_only (vol (fv s)) = false -> holds (fv f) (l ++ new) c ->
  zlen c <= off <= room (fv f) (l ++ new) ->
  iwp (zero_range (zlen c) off) f
    (fun _ g => staged s g l new /\ holds (fv g) (l ++ new) (f_write c off []))
    (fun rc g => staged s g l new /\ holds (fv g) (l ++ new) c /\ rc = VFS_EINVAL /\ ~ reliable D).
Proof.
  intros Hst Hro [Hr Hb] Hoff. pose proof (staged_static _ _ _ _ Hst) as [Hif Est].
  pose proof (staged_ro _ _ _ _ Hst) as Ero. pose proof (zlen_nonneg c).
  eapply iwp_mono; [apply (zero_range_spec f (l ++ new)); [done|congruence|apply Hst|apply Hst|lia|lia]|..].
  - intros [] g [[Hw Hx] Hm]. split; [by eapply staged_within|]. pose proof (wi_next _ _ _ Hw) as [_ Esg].
    unfold holds. rewrite zlen_f_write, zlen_nil by lia. rewrite (static_room (fv f)) by done.
    split; [lia|]. intros j Hj.
    rewrite Hx by lia. change (replicate _ 0) with (zeros (off - zlen c)). rewrite zlen_zeros by lia.
    rewrite at_f_write, zlen_nil, (range_out off) by (rewrite ?zlen_f_write, ?zlen_nil; lia).
    destruct (Z.ltb_spec j (zlen c)).
    + rewrite range_out by lia. apply Hb. lia.
    + rewrite range_in by lia. apply nth_zeros.
  - intros rc g ([Hw Hx] & Hm & Hrc). split; [by eapply staged_within|]. split; [|done].
    pose proof (wi_next _ _ _ Hw) as [_ Esg]. split; [by rewrite (static_room (fv f))|].
    intros j Hj. rewrite Hx by lia. apply Hb. lia.
Qed.

(** ... when there is one. *)
Lemma f_write_nothing c off : 0 <= off <= zlen c -> f_write c off [] = c.
Proof.
  intros Hoff. apply bytes_ext; rewrite ?zlen_f_write, ?zlen_nil by lia; [lia|]. intros j Hj.
  rewrite at_f_write, zlen_nil, range_out by (rewrite ?zlen_f_write, ?zlen_nil by lia; lia).
  by rewrite (proj2 (Z.ltb_lt _ _)) by lia.
Qed.

Lemma stage_gap_if s f l new c off :
  staged s f l new -> read_only (vol (fv s)) = false -> holds (fv f) (l ++ new) c ->
  0 <= off <= room (fv f) (l ++ new) ->
  iwp (if zlen c <? off then zero_range (zlen c) off else iret tt) f
    (fun _ g => staged s g l new /\ holds (fv g) (l ++ new) (f_write c off []))
    (fun rc g => staged s g l new /\ holds (fv g) (l ++ new) c /\ rc = VFS_EINVAL /\ ~ reliable D).
Proof.
  intros Hst Hro Hh Hoff. destruct (Z.ltb_spec (zlen c) off).
  - apply (stage_gap s f l new c off); [done|done|done|lia].
  - apply iwp_ret. split; [done|]. by rewrite f_write_nothing by lia.
Qed.

(** Bytes outside [off, off + n) are those of [c]. *)
Definition holds_outside v l (c : bytes) (off n : Z) : Prop :=
  zlen c <= room v l /\
  forall j, 0 <= j < zlen c -> ~ (off <= j < off + n) -> fbyte v l j = at_ c j.

Lemma holds_write_outside v l c off buf :
  0 <= off -> holds v l (f_write c off buf) -> holds_outside v l c off (zlen buf).
Proof.
  intros Hoff [Hr Hb]. rewrite zlen_f_write in Hr, Hb by done. split; [lia|].
  intros j Hj Hn. rewrite Hb, at_f_write, range_out by (rewrite ?zlen_f_write by done; lia).
  by rewrite (proj2 (Z.ltb_lt _ _)) by lia.
Qed.

Lemma stage_data s f l new c off buf :
  staged s f l new -> read_only (vol (fv s)) = false -> Forall byte_ok buf -> 0 <= off ->
  holds (fv f) (l ++ new) (f_write c off []) -> off + zlen buf <= room (fv f) (l ++ new) ->
  iwp (rw_bytes true off buf) f
    (fun _ g => staged s g l new /\ holds (fv g) (l ++ new) (f_write c off buf))
    (fun rc g => staged s g l new /\ holds_outside (fv g) (l ++ new) c off (zlen buf) /\
       rc = VFS_EINVAL /\ ~ reliable D).
Proof.
  intros Hst Hro Hby Hoff [Hr Hb] Hfit. pose proof (staged_static _ _ _ _ Hst) as [Hif Est].
  pose proof (staged_ro _ _ _ _ Hst) as Ero. pose proof (zlen_nonneg buf).
  rewrite zlen_f_write, zlen_nil in Hr by lia. rewrite zlen_f_write, zlen_nil in Hb by lia.
  assert (Hold : forall j, 0 <= j < Z.max (zlen c) off -> fbyte (fv f) (l ++ new) j = if j <? zlen c then at_ c j else 0).
  { intros j Hj. rewrite Hb by lia.
    rewrite at_f_write, zlen_nil, (range_out off) by (rewrite ?zlen_f_write, ?zlen_nil; lia). done. }
  eapply iwp_mono; [apply (rw_write_spec _ f (l ++ new)); [done|congruence|apply Hst|apply Hst|done|lia|lia|lia]|..].
  - intros _ g [[Hw Hx] Hm]. split; [by eapply staged_within|]. pose proof (wi_next _ _ _ Hw) as [_ Esg].
    unfold holds. rewrite zlen_f_write, (static_room (fv f)) by (done || lia). split; [lia|]. intros j Hj.
    rewrite Hx, at_f_write by (rewrite ?zlen_f_write; lia). destruct (_ && _) eqn:E; [done|].
    apply Hold. b2p. destruct E; b2p; lia.
  - intros rc g ([Hw Hx] & Hm & Hrc). split; [by eapply staged_within|]. split; [|done].
    pose proof (wi_next _ _ _ Hw) as [_ Esg]. split; [rewrite (static_room (fv f)) by done; lia|].
    intros j Hj Hne. rewrite Hx, Hold by lia. destruct (Z.ltb_spec j (zlen c)); [done|lia].
Qed.

End Stage.

(** ** fs/fat/fat.c: committing a staged write, and what the disk holds when it fails. *)

Section Commit.
Context {D : Type} `{DiskLaws D}.
Implicit Types (v w u : vst D) (s f g : fst_ D) (l dl new : list Z).

(** What cannot move. *)
Lemma rest_fields (n m : inode) : rest_of n = rest_of m ->
  dir_clus n = dir_clus m /\ dir_index n = dir_index m /\ n_type n = n_type m /\ n_size n = n_size m.
Proof. intros [=]. done. Qed.

Abbreviation dcl s := (dir_clus (ino s)).
Abbreviation dix s := (dir_index (ino s)).

Lemma staged_apart s f l dl new c x :
  fat_file s l dl c -> staged s f l new -> x ∈ l ++ new -> x ∉ dl.
Proof.
  intros Hff Hst [Hx|Hx]%elem_of_app Hd; [by apply (ff_apart _ _ _ _ Hff x)|].
  destruct (st_new _ _ _ _ Hst x Hx) as [_ Hf].
  by apply (chain_used (fv s) dl x (ff_inv _ _ _ _ Hff) (he_chain _ _ _ _ (od_entry _ _ _ _ _ _ (ff_disk _ _ _ _ Hff)))).
Qed.

Lemma file_dir_untouched s l dl c x : fat_file s l dl c -> x ∈ dl -> ~ reach (fv s) l x.
Proof.
  intros Hff Hx [Hl|Hf]; [by apply (ff_apart _ _ _ _ Hff x)|].
  by apply (chain_used (fv s) dl x (ff_inv _ _ _ _ Hff) (he_chain _ _ _ _ (od_entry _ _ _ _ _ _ (ff_disk _ _ _ _ Hff)))).
Qed.

(** The directory entry while a write is staged: the old one. *)
Lemma staged_entry s f l dl new c :
  fat_file s l dl c -> staged s f l new ->
  has_entry (fv f) dl (dcl s) (dix s) /\ dirent (fv f) dl (dix s) = dirent (fv s) dl (dix s).
Proof.
  intros Hff Hst. eapply frame_dirent; [apply Hst|apply Hff| |apply Hff].
  intros x Hx. by eapply file_dir_untouched.
Qed.

(** The contents found on the disk are the old ones, but for bytes in [off, off + n). *)
Definition same_outside (c c0 : bytes) (off n : Z) : Prop :=
  zlen c0 = zlen c /\ forall j, 0 <= j < zlen c -> ~ (off <= j < off + n) -> at_ c0 j = at_ c j.

Lemma staged_old s f l dl new c off n :
  fat_file s l dl c -> staged s f l new -> holds_outside (fv f) (l ++ new) c off n ->
  exists l0 c0, same_outside c c0 off n /\ on_disk (fv f) l0 dl (dcl s) (dix s) c0 /\
                (forall x, x ∈ l0 -> x ∉ dl).
Proof.
  intros Hff Hst [Hr Hb]. destruct (staged_entry s f l dl new c Hff Hst) as [He E].
  pose proof (ff_disk _ _ _ _ Hff) as [_ _ Hfst Hsz [Hr0 _]].
  pose proof (staged_static _ _ _ _ Hst) as [Hif Est].
  set (l0 := match l with [] => [] | _ => l ++ new end).
  assert (Hpre : l0 = l ++ new \/ (l0 = [] /\ c = [])).
  { destruct l as [|x r]; [right|by left]. split; [done|]. unfold room in Hr0. cbn in Hr0.
    destruct c as [|y c]; [done|]. rewrite zlen_cons in Hr0. pose proof (zlen_nonneg c). lia. }
  assert (Hin : forall x, x ∈ l0 -> x ∈ l ++ new) by (intros x; destruct Hpre as [->|[-> _]]; [done|by intros ?%elem_of_nil]).
  assert (Hroom : zlen c <= room (fv f) l0) by (by destruct Hpre as [->|[-> ->]]).
  exists l0, (fbytes (fv f) l0 0 (Z.to_nat (zlen c))). pose proof (zlen_nonneg c).
  assert (Hz : zlen (fbytes (fv f) l0 0 (Z.to_nat (zlen c))) = zlen c) by (rewrite zlen_fbytes; lia).
  split; [split; [done|]|split; [split|]].
  - intros j Hj Hne. rewrite at_fbytes, Z.add_0_l by lia. destruct Hpre as [->|[-> ->]]; [by apply Hb|].
    rewrite zlen_nil in Hj. lia.
  - done.
  - destruct Hpre as [->|[-> _]]; [apply Hst|done].
  - rewrite E, Hfst. unfold l0. by destruct l.
  - by rewrite E, Hsz, Hz.
  - split; [by rewrite Hz|]. rewrite Hz. intros j Hj. by rewrite at_fbytes, Z.add_0_l by lia.
  - intros x Hx. eapply staged_apart; [done|done|by apply Hin].
Qed.

(** A commit that did not happen. *)
Lemma on_disk_unwritten w u l dl dclus i c off :
  inv w -> (forall x, x ∈ l -> x ∉ dl) -> scribbled w u dl off 0 ->
  on_disk w l dl dclus i c -> on_disk u l dl dclus i c.
Proof.
  intros Hi Hx [Hw Hb] [He Hl Hf Hs [Hr Hc]]. pose proof (wi_next _ _ _ Hw) as [_ Est].
  pose proof He as [_ _ [? ?] Hlive].
  assert (E : dirent u dl i = dirent w dl i) by (apply dirent_ext; intros; apply Hb; lia).
  split; [eapply has_entry_next; [done|done|apply (within_chain w u dl); [done|apply He]|by rewrite E]
         |by eapply within_chain|by rewrite E|by rewrite E|].
  eapply holds_ext; [done|by split|]. intros j Hj.
  eapply (frame_fbyte (fun x => x ∈ dl)); [by eapply within_frame|done|done|done|lia].
Qed.

Lemma on_disk_written w u l dl dclus i now c :
  inv w -> has_entry w dl dclus i -> (forall x, x ∈ l -> x ∉ dl) -> chain w l -> holds w l c -> zlen c < 2 ^ 32 ->
  written w u dl (i * 32) (new_entry now 0 (default 0 (head l)) (zlen c) (dirent w dl i)) ->
  on_disk u l dl dclus i c.
Proof.
  intros Hi He Hx Hl [Hr Hc] H32 Hw. pose proof (proj1 Hw) as Hwi. pose proof (wi_next _ _ _ Hwi) as [_ Est].
  pose proof (zlen_nonneg c).
  destruct (written_entry w u dl dclus i now (default 0 (head l)) (zlen c)) as (He' & Ec & Es); [done|done|done| |lia|].
  { destruct l as [|x r]; cbn; [lia|]. destruct Hl as [Hv _]. pose proof (valid_below_eoc _ _ Hi Hv).
    unfold FAT_EOC in *. unfold id. lia. }
  split; [done|by eapply within_chain|done|done|].
  eapply holds_ext; [done|by split|]. intros j Hj.
  eapply (frame_fbyte (fun x => x ∈ dl)); [by eapply within_frame|done|done|done|lia].
Qed.

Lemma frame_then_others s f g l dl c now first size :
  fat_file s l dl c -> frame (reach (fv s) l) (fv s) (fv f) -> 0 <= first < 2 ^ 32 -> 0 <= size < 2 ^ 32 ->
  atomically (fv f) (fv g) dl (dix s * 32) (new_entry now 0 first size (dirent (fv f) dl (dix s))) ->
  others_kept (fv s) (fv g) l dl (dix s).
Proof.
  intros Hff Hf Hf32 Hs32 Hat. eapply others_trans; [apply frame_others; [apply Hff|done]|].
  pose proof Hf as ([Hif Est] & _). pose proof (od_entry _ _ _ _ _ _ (ff_disk _ _ _ _ Hff)) as [_ _ [? ?] _].
  eapply committed_others; [done| |lia|by rewrite (static_room (fv s))|exact Hf32|exact Hs32|exact Hat].
  eapply chain_frame; [done|intros x Hx; by eapply file_dir_untouched|apply Hff].
Qed.

(** What the disk holds, wherever a write or a truncation to [c'] was cut off: the
    file is there with its old size, or with the new one and its new contents. *)
Definition crash_safe s g l dl (c c' : bytes) (off n : Z) : Prop :=
  others_kept (fv s) (fv g) l dl (dix s) /\
  exists l0 c0, on_disk (fv g) l0 dl (dcl s) (dix s) c0 /\ (c0 = c' \/ same_outside c c0 off n).

Lemma staged_crash s f l dl new c c' off n :
  fat_file s l dl c -> staged s f l new -> holds_outside (fv f) (l ++ new) c off n ->
  crash_safe s f l dl c c' off n.
Proof.
  intros Hff Hst Hh. split; [apply frame_others; [apply Hff|apply Hst]|].
  destruct (staged_old s f l dl new c off n Hff Hst Hh) as (l0 & c0 & Hs & Ho & _). eauto 6.
Qed.

Lemma holds_outside_all v l c off n : holds v l c -> holds_outside v l c off n.
Proof. intros [Hr Hb]. split; [done|]. intros. by apply Hb. Qed.

(** Everything that a commit publishes is on the disk: the chain [m] with the contents
    [c'], for an inode that starts with it; and a file with the old size still is. *)
Record ready s f l dl (m : list Z) (c c' : bytes) (off n : Z) : Prop := {
  rd_frame : frame (reach (fv s) l) (fv s) (fv f);
  rd_chain : chain (fv f) m;
  rd_holds : holds (fv f) m c';
  rd_first : first_clus (ino f) = default 0 (head m);
  rd_rest : rest_of (ino f) = rest_of (ino s);
  rd_apart : forall x, x ∈ m -> x ∉ dl;
  rd_old : exists l0 c0, same_outside c c0 off n /\ on_disk (fv f) l0 dl (dcl s) (dix s) c0 /\
                         forall x, x ∈ l0 -> x ∉ dl }.

Lemma commit_ready s f l dl m c c' off n :
  fat_file s l dl c -> ready s f l dl m c c' off n -> read_only (vol (fv s)) = false -> zlen c' < 2 ^ 32 ->
  iwp (commit (zlen c')) f
    (fun _ g => ino g = ino f /\ next (fv s) (fv g) /\ on_disk (fv g) m dl (dcl s) (dix s) c' /\
       others_kept (fv s) (fv g) l dl (dix s) /\ within (fv f) (fv g) dl)
    (fun rc g => ino g = ino f /\ crash_safe s g l dl c c' off n /\ rc = VFS_EINVAL /\ ~ reliable D).
Proof.
  intros Hff Hrd Hro H32. pose proof Hrd as [([Hif Est] & Hcl) Hch Hh Hfirst Hrest Hap (l0 & c0 & Hold & Ho0 & Hx0)].
  destruct (rest_fields _ _ Hrest) as (Edc & Edi & _ & _).
  pose proof (static_vol _ _ Est) as (_&_&_&_&_&_&_&_&_&Ero&_). pose proof (zlen_nonneg c').
  destruct (frame_dirent _ (fv s) (fv f) dl (dcl s) (dix s) (rd_frame _ _ _ _ _ _ _ _ _ Hrd)) as [He _];
    [apply Hff|intros x Hx; by eapply file_dir_untouched|apply Hff|].
  assert (Hf32 : 0 <= first_clus (ino f) < 2 ^ 32).
  { rewrite Hfirst. destruct m as [|x r]; cbn; [lia|]. destruct Hch as [Hv _]. pose proof (valid_below_eoc _ _ Hif Hv).
    unfold FAT_EOC in *. unfold id. lia. }
  rewrite <- Edi in *. rewrite <- Edc in *.
  assert (Hok : forall g, written (fv f) (fv g) dl (dix f * 32)
      (new_entry (fat_now (clk (fv f))) 0 (first_clus (ino f)) (zlen c') (dirent (fv f) dl (dix f))) ->
    next (fv s) (fv g) /\ on_disk (fv g) m dl (dcl f) (dix f) c' /\ others_kept (fv s) (fv g) l dl (dix f) /\
    within (fv f) (fv g) dl).
  { intros g Hw. split; [eapply next_trans; [by split|apply (wi_next _ _ _ (proj1 Hw))]|]. split; [|split; [|apply Hw]].
    - rewrite Hfirst in Hw. by eapply on_disk_written.
    - rewrite Edi in Hw |- *. eapply frame_then_others; [done|apply Hrd|exact Hf32| |by left; exact Hw]. lia. }
  eapply iwp_mono; [apply (commit_spec f dl (zlen c')); [done|congruence|done|lia]|..].
  - intros [] g [Ei Hw]. split; [done|]. by apply Hok.
  - intros rc g (Ei & [Hw|Hw] & Hrc); (split; [done|split; [|done]]).
    + destruct (Hok g Hw) as (_ & Ho & Hk & _). split; [by rewrite <- Edi|]. rewrite <- Edi, <- Edc. eauto 6.
    + split.
      * rewrite Edi in Hw. apply (frame_then_others s f g l dl c (fat_now (clk (fv f))) (first_clus (ino f)) (zlen c')); [done|apply Hrd|exact Hf32|lia|by right].
      * exists l0, c0. split; [|by right]. rewrite <- Edi, <- Edc.
        eapply on_disk_unwritten; [exact Hif|done|exact Hw|done].
Qed.

Lemma staged_ready s f l dl new c c' off n :
  fat_file s l dl c -> staged s f l new -> holds (fv f) (l ++ new) c' ->
  holds_outside (fv f) (l ++ new) c off n -> ready s f l dl (l ++ new) c c' off n.
Proof.
  intros Hff Hst Hh Hout. split; [apply Hst..|done|apply Hst|apply Hst| |].
  - intros x. by eapply staged_apart.
  - by eapply staged_old.
Qed.

End Commit.

(** ** fs/fat/fat.c: fat_op_read and fat_op_write on a file. *)

Section Write.
Context {D : Type} `{DiskLaws D}.
Implicit Types (s f g : fst_ D) (l dl new : list Z).

Lemma max_write c off buf : 0 <= off -> Z.max (off + zlen buf) (zlen c) = zlen (f_write c off buf).
Proof. intros. rewrite zlen_f_write by done. lia. Qed.

(** The inode is brought in step with what was committed. *)
Lemma published s f g l dl c c' ms :
  fat_file s l dl c -> ino g = ino f -> inv (fv g) ->
  forall new, staged s f l new -> on_disk (fv g) (l ++ new) dl (dir_clus (ino s)) (dir_index (ino s)) c' ->
  fat_file (upd_ino (set_size (zlen c') ms) g) (l ++ new) dl c'.
Proof.
  intros Hff Ei Hig new Hst Ho. pose proof (st_moved _ _ _ _ Hst) as [Hat Hrest].
  destruct (rest_fields _ _ Hrest) as (Edc & Edi & Ety & _).
  split; cbn [upd_ino fv ino n_type n_size set_size dir_clus dir_index].
  - done.
  - rewrite Ei, Ety. apply Hff.
  - done.
  - rewrite Ei. exact Hat.
  - by rewrite Ei, Edc, Edi.
  - intros x. by eapply staged_apart.
Qed.

(** What every operation on a file keeps. *)
Record kept s f l dl : Prop := {
  kp_others : others_kept (fv s) (fv f) l dl (dir_index (ino s));
  kp_ro : read_only (vol (fv f)) = false;
  kp_place : dir_clus (ino f) = dir_clus (ino s) /\ dir_index (ino f) = dir_index (ino s) }.

Lemma published_kept s f k l dl new ms n :
  read_only (vol (fv s)) = false -> staged s f l new -> ino k = ino f -> static (fv k) = static (fv s) ->
  others_kept (fv s) (fv k) l dl (dir_index (ino s)) -> kept s (upd_ino (set_size n ms) k) l dl.
Proof.
  intros Hro Hst Ei Esk Hk. destruct (rest_fields _ _ (proj2 (st_moved _ _ _ _ Hst))) as (Edc & Edi & _).
  destruct (static_vol _ _ Esk) as (_&_&_&_&_&_&_&_&_&Ero&_).
  split; cbn [upd_ino fv ino set_size dir_clus dir_index]; [done|congruence|by rewrite Ei].
Qed.

(** The whole write, on any disk. *)
Definition write_done s l dl (c buf : bytes) (off n : Z) f : Prop :=
  n = zlen buf /\ kept s f l dl /\
  exists new, fat_file f (l ++ new) dl (f_write c off buf).

Definition write_failed s l dl (c buf : bytes) (off rc : Z) f : Prop :=
  crash_safe s f l dl c (f_write c off buf) off (zlen buf) /\ n_size (ino f) = zlen c /\
  (reliable D -> rc = VFS_ENOSPC /\ disk_full (fv s) l (off + zlen buf) /\
     exists l0, on_disk (fv f) l0 dl (dir_clus (ino s)) (dir_index (ino s)) c).

Lemma staged_failed s f l dl new c buf off rc :
  fat_file s l dl c -> staged s f l new -> holds_outside (fv f) (l ++ new) c off (zlen buf) ->
  rc = VFS_EINVAL /\ ~ reliable D -> write_failed s l dl c buf off rc f.
Proof.
  intros Hff Hst Hh [Hrc Hnr]. split; [by eapply staged_crash|].
  destruct (rest_fields _ _ (proj2 (st_moved _ _ _ _ Hst))) as (_ & _ & _ & ->).
  split; [apply Hff|by intros ?].
Qed.

(** Only clusters were added. *)
Lemma staged_intact s f l dl new c :
  fat_file s l dl c -> staged s f l new -> holds (fv f) (l ++ new) c ->
  exists l0, on_disk (fv f) l0 dl (dir_clus (ino s)) (dir_index (ino s)) c.
Proof.
  intros Hff Hst Hh.
  destruct (staged_old s f l dl new c 0 0 Hff Hst) as (l0 & c0 & [Ez Es] & Ho & _); [by apply holds_outside_all|].
  exists l0. replace c with c0; [done|]. apply bytes_ext; [done|]. intros j Hj. apply Es; lia.
Qed.

Lemma write_spec s l dl c buf off :
  fat_file s l dl c -> read_only (vol (fv s)) = false -> Forall byte_ok buf -> buf <> [] -> 0 <= off ->
  zlen c <= FAT_MAX_FILE -> off + zlen buf <= FAT_MAX_FILE -> off - zlen c <= FAT_MAX_HOLE ->
  iwp (fat_op_write buf off) s (write_done s l dl c buf off) (write_failed s l dl c buf off).
Proof.
  intros Hff Hro Hby Hne Hoff Hmx Hfit Hgap. pose proof (zlen_nonneg c). unfold FAT_MAX_FILE in *.
  assert (Hz : 0 < zlen buf) by (destruct buf; [done|rewrite zlen_cons; pose proof (zlen_nonneg buf); lia]).
  unfold fat_op_write, FAT_MAX_FILE. apply iwp_bind, iwp_get, iwp_bind, iwp_get. unfold the_vol.
  rewrite (ff_type _ _ _ _ Hff), (ff_size _ _ _ _ Hff), Hro, bool_decide_eq_true_2 by done. cbn [negb].
  rewrite (proj2 (Z.eqb_neq _ _)) by lia.
  replace ((4294967295 <? off) || (4294967295 - off <? zlen buf)) with false by lia.
  replace ((zlen c <? off) && (FAT_MAX_HOLE <? off - zlen c)) with false by lia.
  eapply iwp_seq; [apply (stage_clusters s l (off + zlen buf) c); [apply Hff|done|apply Hff|apply Hff|lia|apply Hff]|..].
  2: { intros rc f (new & Hst & Hh & Hx).
    destruct (rest_fields _ _ (proj2 (st_moved _ _ _ _ Hst))) as (_ & _ & _ & Esz).
    split; [eapply staged_crash; [done|done|by apply holds_outside_all]|].
    split; [rewrite Esz; apply Hff|]. intros Hrel. destruct (Hx Hrel) as [-> Hfull].
    split; [done|]. split; [done|]. by eapply staged_intact. }
  intros [] f (new & Hst & Hh & Hr).
  eapply iwp_seq; [apply (stage_gap_if s f l new c off); [done|done|done|lia]|..].
  2: { intros rc g (Hst' & Hh' & Hrc). eapply staged_failed; [done|done|by apply holds_outside_all|done]. }
  intros [] g [Hst' Hh']. eapply iwp_seq; [apply (stage_data s g l new c off buf); try done|..].
  { destruct (staged_static _ _ _ _ Hst), (staged_static _ _ _ _ Hst').
    rewrite (static_room (fv s)) by done. by rewrite (static_room (fv s)) in Hr. }
  2: { intros rc h (Hst2 & Hh2 & Hrc). by eapply staged_failed. }
  intros _ h [Hst2 Hh2]. rewrite max_write by done.
  eapply iwp_seq; [apply (commit_ready s h l dl (l ++ new) c (f_write c off buf) off (zlen buf)); try done|..].
  { apply staged_ready; try done. by apply holds_write_outside. }
  { rewrite zlen_f_write by done. lia. }
  2: { intros rc k (Ei & Hcr & Hrc & Hnr). split; [done|]. rewrite Ei.
    destruct (rest_fields _ _ (proj2 (st_moved _ _ _ _ Hst2))) as (_ & _ & _ & ->).
    split; [apply Hff|by intros ?]. }
  intros [] k (Ei & [Hik Esk] & Ho & Hk & _). apply iwp_bind, iwp_set, iwp_ret. split; [done|].
  split; [|exists new; by eapply published].
  by eapply (published_kept s h k).
Qed.

End Write.
