(* ===== verification/FatTrunc.v ===== *)
(** fs/fat/fat.c: truncating a file. Giving the clusters of a chain back, cutting a chain
    short, and fat_op_truncate as a whole. *)

From S2P Require Import Prelude Bytes Rtc FileSpec Vfs Block FatVol FatMount FatFile FatDisk FatChain.
From S2P Require Import FatRw FatEntry FatSpec FatWrite.

Section Free.
Context {D : Type} `{DiskLaws D}.
Implicit Types (v w u : vst D) (l : list Z).

(** A chain has no more clusters than the volume. *)
Lemma chain_fits v l : inv v -> chain v l -> Z.of_nat (length l) <= clusters (vol v).
Proof.
  intros Hi Hl. pose proof (g_clusters _ (i_geometry _ Hi)).
  assert (Hle : (length l <= length (seqZ 2 (clusters (vol v))))%nat).
  { apply NoDup_incl_length; [by apply NoDup_ListNoDup, (chain_nodup v)|]. intros x Hx%list_elem_of_In.
    apply list_elem_of_In, elem_of_seqZ. pose proof (chain_valid v l x Hl Hx). unfold valid in *. lia. }
  rewrite length_seqZ in Hle. lia.
Qed.

Lemma free_walk_spec k : forall v c r,
  inv v -> read_only (vol v) = false -> chain v (c :: r) -> (length (c :: r) <= k)%nat ->
  iwp (free_walk k c) v
    (fun _ w => frame (fun x => x ∈ c :: r) v w /\ forall x, x ∈ c :: r -> entry w x = FAT_FREE)
    (fun rc w => frame (fun x => x ∈ c :: r) v w /\ rc = VFS_EINVAL /\ ~ reliable D).
Proof.
  induction k as [|k IH]; intros v c r Hi Hro Hl Hk; [cbn in Hk; lia|]. cbn [free_walk].
  pose proof Hl as (Hv & Hr & Hn). apply iwp_bind, iwp_get. rewrite (proj2 (clus_valid_spec v c Hi) Hv). cbn [negb].
  pose proof (chain_nodup v _ Hi Hl) as Hnd. apply list.NoDup_cons in Hnd as [Hnotin _].
  eapply iwp_seq; [by apply get_spec|..].
  2: { intros rc w (Hs & ?). split; [by apply same_frame|done]. }
  intros x w [Hs ->]. pose proof Hs as ([Hiw Esw] & _).
  pose proof (static_vol _ _ Esw) as (_&_&_&_&_&_&_&_&_&Ero&_).
  assert (Hself : forall u y, linked w u c y -> frame (eq c) v u).
  { intros u y Hu. eapply frame_trans; [by apply same_frame|by eapply linked_frame]. }
  assert (Hsub : forall u, frame (eq c) v u -> frame (fun y => y ∈ c :: r) v u).
  { intros u. apply frame_mono. intros y ->. left. }
  eapply iwp_seq; [apply (set_spec w c FAT_FREE); [done|congruence|by apply (static_valid v w)|done]|..].
  2: { intros rc u ([Hu|Hu] & ?); (split; [by eapply Hsub, Hself|done]). }
  intros [] u Hu. apply iwp_bind, iwp_set.
  set (u' := upd_vol _ u). assert (Hfu : frame (eq c) v u').
  { unfold u', upd_vol. pose proof (Hself u _ Hu) as Hfr. destruct (c <? alloc_hint (vol u)); [by apply set_hint_frame|].
    by destruct u. }
  pose proof Hfu as ([Hiu Esu] & _). pose proof (static_vol _ _ Esu) as (_&_&_&_&_&_&_&_&_&Erou&_).
  assert (Hcf : entry u' c = FAT_FREE).
  { destruct Hu as (_ & _ & He & _). transitivity (entry u c); [by unfold u', upd_vol, entry, sec; destruct (c <? _)|].
    rewrite He by by apply (static_valid v w). by rewrite Z.eqb_refl. }
  destruct r as [|d r].
  - rewrite (proj2 (Z.leb_le _ _)) by done. apply iwp_ret. split; [by apply Hsub|].
    intros x ->%list_elem_of_singleton. done.
  - rewrite Hn. destruct Hr as (Hvd & _). pose proof (valid_below_eoc v d Hi Hvd).
    rewrite (proj2 (Z.leb_gt _ _)), (proj2 (Z.ltb_ge _ _)) by lia. cbn [orb].
    assert (Hlu : chain u' (d :: r)).
    { eapply chain_frame; [done| |by eapply (chain_suffix v [c])]. by intros x Hx <-. }
    assert (Hgrow : forall x, frame (fun y => y ∈ d :: r) u' x -> frame (fun y => y ∈ c :: d :: r) v x).
    { intros x Hx. eapply frame_trans; [by apply Hsub|]. eapply frame_mono; [|done]. intros y Hy. by right. }
    eapply iwp_mono; [apply (IH u' d r); [done|congruence|done|cbn in *; lia]|..].
    + intros [] x [Hx He]. split; [by apply Hgrow|]. intros y [->|Hy]%elem_of_cons; [|by apply He].
      rewrite <- Hcf. apply Hx; [by apply (static_valid v u')|done].
    + intros rc x (Hx & ?). split; [by apply Hgrow|done].
Qed.

Lemma free_chain_spec v l :
  inv v -> read_only (vol v) = false -> chain v l ->
  iwp (fat_free_chain (default 0 (head l))) v
    (fun _ w => frame (fun x => x ∈ l) v w /\ forall x, x ∈ l -> entry w x = FAT_FREE)
    (fun rc w => frame (fun x => x ∈ l) v w /\ rc = VFS_EINVAL /\ ~ reliable D).
Proof.
  intros Hi Hro Hl. unfold fat_free_chain. destruct l as [|c r].
  - cbn. split; [by apply frame_refl|]. by intros x ?%elem_of_nil.
  - change (default 0 (head (c :: r))) with c. pose proof (proj1 Hl) as Hv.
    pose proof (valid_below_eoc v c Hi Hv). rewrite (proj2 (Z.eqb_neq _ _)) by lia.
    apply iwp_bind, iwp_get. apply free_walk_spec; [done|done|done|].
    pose proof (chain_fits v _ Hi Hl). lia.
Qed.

End Free.

(** ** fs/fat/fat.c: the end of a shrinking truncation, which cuts the chain behind the
    clusters it keeps and frees the rest. *)

Section Trim.
Context {D : Type} `{DiskLaws D}.
Implicit Types (v w u : vst D) (s f : fst_ D) (l : list Z).

Lemma chain_cut v w a x b :
  chain v (a ++ x :: b) -> static w = static v -> FAT_EOC <= entry w x ->
  (forall y, y ∈ a -> entry w y = entry v y) -> chain w (a ++ [x]).
Proof.
  intros Hl Est He Ha. induction a as [|y a IH].
  - destruct Hl as (Hv & _). cbn [app chain]. split; [by apply (static_valid v w)|done].
  - cbn [app] in Hl |- *. destruct Hl as (Hv & Hr & Hn). cbn [chain].
    split; [by apply (static_valid v w)|]. split; [apply IH; [done|]; intros z Hz; apply Ha; by right|].
    rewrite Ha by left. by destruct a.
Qed.

(** The chain as a trim to [keep] clusters leaves it: [cut] says whether it got as far as
    cutting the chain. *)
Record trimmed v w l (keep : nat) (cut : bool) : Prop := {
  tr_frame : frame (fun x => x ∈ l) v w;
  tr_chain : chain w (if cut then take keep l else l);
  tr_data : forall x, x ∈ take keep l -> data_same v w x }.

Lemma trimmed_same v w l keep : chain v l -> same v w -> trimmed v w l keep false.
Proof.
  intros Hl Hs. pose proof Hs as ([_ Est] & Hsec & _).
  split; [by apply same_frame|eapply chain_same; [done|by intros; apply same_entry|done]|by intros x _ k _].
Qed.

Lemma trimmed_link v w l a x b y :
  inv v -> l = a ++ x :: b -> chain v l -> linked v w x y ->
  (y = FAT_EOC_WRITE \/ y = entry v x) ->
  trimmed v w l (S (length a)) (bool_decide (y = FAT_EOC_WRITE)).
Proof.
  intros Hi -> Hl Hk Hy. pose proof Hk as ([_ Est] & _ & He & _).
  pose proof (chain_nodup v _ Hi Hl) as Hnd. apply list.NoDup_app in Hnd as (_ & Hax & _).
  assert (Hval : forall z, z ∈ a ++ x :: b -> valid v z) by (intros z; by apply chain_valid).
  assert (Ha : forall z, z ∈ a -> entry w z = entry v z).
  { intros z Hz. rewrite He by (apply Hval, elem_of_app; auto). destruct (Z.eqb_spec z x) as [->|]; [|done].
    destruct (Hax x Hz). left. }
  assert (Htk : take (S (length a)) (a ++ x :: b) = a ++ [x]) by (replace (S (length a)) with (length a + 1)%nat by lia; by rewrite take_app_add).
  split.
  - eapply frame_mono; [|by eapply linked_frame]. intros z <-. apply elem_of_app. right. left.
  - case_bool_decide as Ey.
    + rewrite Htk. eapply chain_cut; [exact Hl|done| |done].
      rewrite He by (apply Hval, elem_of_app; right; left). rewrite Z.eqb_refl, Ey. unfold FAT_EOC, FAT_EOC_WRITE. lia.
    + eapply chain_same; [done| |exact Hl]. intros z _ Hv. rewrite He by done.
      destruct (Z.eqb_spec z x) as [->|]; [|done]. destruct Hy; [done|congruence].
  - intros z Hz. eapply linked_data; [done|done|]. apply Hval. rewrite Htk in Hz.
    apply elem_of_app in Hz as [?|Hz]; apply elem_of_app; [by left|right].
    apply list_elem_of_singleton in Hz as ->. left.
Qed.

(** After the cut only clusters behind it change. *)
Lemma trimmed_more v w u l keep :
  inv v -> chain v l -> trimmed v w l keep true -> frame (fun x => x ∈ drop keep l) w u -> trimmed v u l keep true.
Proof.
  intros Hi Hl [Hf Hc Hd] Hu. pose proof Hf as ([_ Est] & _).
  assert (Hdis : forall x, x ∈ take keep l -> x ∉ drop keep l).
  { intros x Hx. pose proof (chain_nodup v l Hi Hl) as Hnd. rewrite <- (take_drop keep l) in Hnd.
    apply list.NoDup_app in Hnd as (_ & Hdj & _). by apply Hdj. }
  assert (Hin : forall x, x ∈ take keep l \/ x ∈ drop keep l -> x ∈ l).
  { intros x Hx. rewrite <- (take_drop keep l). by apply elem_of_app. }
  split.
  - eapply frame_trans; [done|]. eapply frame_mono; [|done]. cbn. intros x Hx. auto.
  - eapply chain_frame; [done| |done]. intros x Hx. by apply Hdis.
  - intros x Hx. eapply data_same_trans; [done|by apply Hd|]. apply Hu; [|by apply Hdis].
    apply (static_valid v w); [done|]. eapply chain_valid; [done|auto].
Qed.

Lemma iwp_and {S A} (m : io S A) (s : S) (Q Q' : A -> S -> Prop) (E E' : Z -> S -> Prop) :
  iwp m s Q E -> iwp m s Q' E' -> iwp m s (fun a t => Q a t /\ Q' a t) (fun rc t => E rc t /\ E' rc t).
Proof. unfold iwp. by destruct (m s) as [[rc|a] t]. Qed.

(** chain_at leaves the cursor where it went. *)
Lemma chain_at_cursor s pos :
  iwp (chain_at pos) s (fun c f => cur_index (ino f) = pos /\ cur_clus (ino f) = c) (fun _ f => ino f = ino s).
Proof.
  unfold chain_at. apply iwp_bind, iwp_get. destruct (_ && (first_clus (ino s) =? 0)); [done|].
  destruct (if _ && _ then _ else _) as [c i]. apply iwp_bind.
  eapply (iwp_lift _ _ (fun _ _ => True) (fun _ _ => True)); [|done|done].
  unfold iwp. by destruct (chain_walk _ _ _) as [[?|?] ?].
Qed.

Lemma at_chain_take n l keep :
  at_chain n l -> (0 < keep)%nat -> cur_index n < Z.of_nat keep -> at_chain n (take keep l).
Proof.
  intros [Hf Hc] Hk Hlt. split; [destruct keep; [lia|by destruct l]|]. intros Hz. destruct (Hc Hz) as [Hp Hl].
  split; [done|]. rewrite lookup_take_lt by lia. done.
Qed.

(** What is free again when nothing failed. *)
Definition tail_free w l (keep : nat) : Prop := forall x, x ∈ drop keep l -> entry w x = FAT_FREE.

Lemma trim_all_spec s l :
  inv (fv s) -> read_only (vol (fv s)) = false -> chain (fv s) l ->
  iwp (trim 0 (default 0 (head l))) s
    (fun _ f => ino f = ino s /\ trimmed (fv s) (fv f) l 0 true /\ tail_free (fv f) l 0)
    (fun rc f => ino f = ino s /\ trimmed (fv s) (fv f) l 0 true /\ rc = VFS_EINVAL /\ ~ reliable D).
Proof.
  intros Hi Hro Hl. unfold trim. rewrite Z.eqb_refl.
  assert (Htr : forall w, frame (fun x => x ∈ l) (fv s) w -> trimmed (fv s) w l 0 true).
  { intros w Hf. split; [done|done|]. rewrite take_0. by intros x ?%elem_of_nil. }
  eapply iwp_lift; [by apply (free_chain_spec (fv s) l)|..].
  - intros [] v [Hf He]. split; [done|]. split; [by apply Htr|]. intros x Hx. rewrite drop_0 in Hx. by apply He.
  - intros rc v (Hf & ?). split; [done|]. split; [by apply Htr|done].
Qed.

(** The part after the last cluster kept, [x], has been found. *)
Lemma cut_spec s l a x b :
  inv (fv s) -> read_only (vol (fv s)) = false -> l = a ++ x :: b -> chain (fv s) l ->
  let keep := S (length a) in
  iwp (tail_ <- lift (fat_chain_next x) ;;
       if tail_ =? 0 then iret tt
       else lift (fat_set x FAT_EOC_WRITE) ;;; lift fat_barrier ;;; lift (fat_free_chain tail_)) s
    (fun _ f => ino f = ino s /\ trimmed (fv s) (fv f) l keep true /\ tail_free (fv f) l keep)
    (fun rc f => ino f = ino s /\ (exists cut, trimmed (fv s) (fv f) l keep cut) /\ rc = VFS_EINVAL /\ ~ reliable D).
Proof.
  intros Hi Hro El Hl keep. assert (Hx : l !! length a = Some x) by (rewrite El; by apply list_lookup_middle).
  assert (Hb : drop keep l = b).
  { unfold keep. rewrite El. replace (S (length a)) with (length a + 1)%nat by lia. by rewrite drop_app_add. }
  apply iwp_bind. eapply iwp_lift; [by apply (chain_next_spec (fv s) l (length a))|..].
  2: { intros rc v (Hs & ?). split; [done|]. split; [exists false; by apply trimmed_same|done]. }
  intros d v [Hs Hd]. pose proof Hs as ([Hiv Esv] & _).
  assert (Hd' : l !! S (length a) = head b).
  { rewrite El, lookup_app_r by lia. replace (S (length a) - length a)%nat with 1%nat by lia. by destruct b. }
  rewrite Hd' in Hd. destruct b as [|e b]; cbn [head] in Hd.
  { rewrite Hd, Z.eqb_refl. apply iwp_ret. split; [done|]. unfold tail_free. rewrite Hb.
    split; [|by intros z ?%elem_of_nil].
    destruct (trimmed_same (fv s) v l keep Hl Hs) as [Hf Hc Hda]. split; [done| |done].
    rewrite take_ge; [done|]. rewrite El, length_app. cbn. unfold keep. lia. }
  destruct Hd as [-> Hne]. rewrite (proj2 (Z.eqb_neq _ _)) by done.
  pose proof (static_vol _ _ Esv) as (_&_&_&_&_&_&_&_&_&Ero&_).
  assert (Hlv : chain v l) by (eapply chain_same; [done|by intros; apply same_entry|done]).
  assert (Htr : forall u cut, trimmed v u l keep cut -> trimmed (fv s) u l keep cut).
  { intros u cut [Hf Hc Hda]. split; [eapply frame_trans; [by apply same_frame|done]|done|].
    intros z Hz. eapply data_same_trans; [done| |by apply Hda]. intros k _. apply Hs. }
  apply iwp_bind. eapply iwp_lift.
  { apply (set_spec v x FAT_EOC_WRITE); [done|congruence| |done]. eapply chain_valid; [done|by eapply list_elem_of_lookup_2]. }
  2: { intros rc u (Hu & Hrc). cbn [ino]. split; [done|]. split; [|done].
    destruct Hu as [Hu|Hu]; eexists; (eapply Htr, trimmed_link; [done|done|done|done|by auto]). }
  intros [] u Hu. assert (Htail : chain u (e :: b)).
  { eapply chain_frame; [by eapply linked_frame| |apply (chain_suffix v (a ++ [x])); rewrite <- app_assoc; cbn [app]; by rewrite <- El].
    intros z Hz <-. pose proof (chain_nodup v l Hiv Hlv) as Hnd. rewrite El in Hnd.
    apply list.NoDup_app in Hnd as (_ & _ & Hnd). by apply list.NoDup_cons in Hnd as [? _]. }
  apply (trimmed_link v u l a x (e :: b)) in Hu; [|done|done|done|by left].
  rewrite bool_decide_eq_true_2 in Hu by done. fold keep in Hu. pose proof (tr_frame _ _ _ _ _ Hu) as ([Hiu Esu] & _).
  pose proof (static_vol _ _ Esu) as (_&_&_&_&_&_&_&_&_&Erou&_).
  apply iwp_bind. eapply iwp_lift; [by apply barrier_spec|..].
  2: { intros rc y (Hy & Hrc). cbn [ino]. split; [done|]. split; [|done]. exists true.
    eapply Htr, trimmed_more; [done|done|done|by apply same_frame]. }
  intros [] y Hy. pose proof Hy as ([Hiy Esy] & _).
  pose proof (static_vol _ _ Esy) as (_&_&_&_&_&_&_&_&_&Eroy&_).
  assert (Hly : chain y (e :: b)) by (eapply chain_same; [done|by intros; apply same_entry|done]).
  assert (Hend : forall z, frame (fun c => c ∈ e :: b) y z -> trimmed (fv s) z l keep true).
  { intros z Hz. eapply Htr, trimmed_more; [done|done|done|]. rewrite Hb.
    eapply frame_trans; [by apply same_frame|done]. }
  eapply iwp_lift; [apply (free_chain_spec y (e :: b)); [done|cbn [fv] in *; congruence|done]|..].
  - intros [] z [Hz Hfree]. split; [done|]. split; [by apply Hend|]. unfold tail_free. by rewrite Hb.
  - intros rc z (Hz & Hrc). split; [done|]. split; [exists true; by apply Hend|done].
Qed.

Lemma trim_some_spec s l keep first :
  inv (fv s) -> read_only (vol (fv s)) = false -> chain (fv s) l -> at_chain (ino s) l ->
  (1 <= keep <= length l)%nat ->
  iwp (trim (Z.of_nat keep) first) s
    (fun _ f => moved s f (take keep l) /\ trimmed (fv s) (fv f) l keep true /\ tail_free (fv f) l keep)
    (fun rc f => rest_of (ino f) = rest_of (ino s) /\ (exists cut, trimmed (fv s) (fv f) l keep cut) /\
       rc = VFS_EINVAL /\ ~ reliable D).
Proof.
  intros Hi Hro Hl Hat Hk. unfold trim. rewrite (proj2 (Z.eqb_neq _ _)) by lia.
  pose proof (iwp_and _ _ _ _ _ _ (chain_at_spec s l (Z.of_nat keep - 1) Hi Hl Hat ltac:(lia))
                (chain_at_cursor s (Z.of_nat keep - 1))) as Hca.
  unfold iwp in Hca |- *. destruct (chain_at _ s) as [[rc|x] f].
  - destruct Hca as [(Hs & Ei & Hrc) _]. destruct Hrc as [[-> Hnone]|[-> Hnr]].
    + apply lookup_ge_None in Hnone. lia.
    + cbn [VFS_EINVAL VFS_ENOENT Z.eqb Pos.eqb]. split; [by rewrite Ei|]. split; [exists false; by apply trimmed_same|done].
  - destruct Hca as [(Hs & Hx & Hat' & Hrest) [Hci Hcc]]. pose proof Hs as ([Hif Est] & _).
    pose proof (static_vol _ _ Est) as (_&_&_&_&_&_&_&_&_&Ero&_).
    assert (Hlf : chain (fv f) l) by (eapply chain_same; [done|by intros; apply same_entry|done]).
    apply list_elem_of_split_length in Hx as (a & b & El & Hlen).
    replace keep with (S (length a)) by lia.
    assert (Htr : forall w k cut, trimmed (fv f) w l k cut -> trimmed (fv s) w l k cut).
    { intros w k cut [Hf Hc Hda]. split; [eapply frame_trans; [by apply same_frame|done]|done|].
      intros z Hz. eapply data_same_trans; [done| |by apply Hda]. intros j _. apply Hs. }
    pose proof (cut_spec f l a x b Hif ltac:(congruence) El Hlf) as Hcut. unfold iwp in Hcut.
    destruct ((_ <- _ ;; _) f) as [[rc|[]] g].
    + destruct Hcut as (Ei & [cut Ht] & Hrc). split; [by rewrite Ei|]. split; [exists cut; by apply Htr|done].
    + destruct Hcut as (Ei & Ht & Hfree). split; [|split; [by apply Htr|done]].
      split; [|by rewrite Ei]. rewrite Ei. apply at_chain_take; [done|lia|lia].
Qed.

End Trim.

(** ** fs/fat/fat.c: fat_op_truncate. A shrink commits the smaller size, then trims the chain;
    a growth zeroes the new part, then commits. *)

Section Trunc.
Context {D : Type} `{DiskLaws D}.
Implicit Types (v w u : vst D) (s f g : fst_ D) (l dl new : list Z).

Definition trunc_done s l dl (c : bytes) (size : Z) f : Prop :=
  kept s f l dl /\ exists m, fat_file f m dl (f_truncate c size).

Definition trunc_failed s l dl (c : bytes) (size rc : Z) f : Prop :=
  crash_safe s f l dl c (f_truncate c size) 0 0 /\
  (reliable D -> rc = VFS_ENOSPC /\ disk_full (fv s) l size /\
     exists l0, on_disk (fv f) l0 dl (dir_clus (ino s)) (dir_index (ino s)) c).

(** *** Growing *)

Lemma truncate_grow c size : zlen c <= size -> f_truncate c size = f_write c size [].
Proof.
  intros Hs. unfold f_truncate, f_write. rewrite take_ge, take_ge, (drop_ge c); [by rewrite !app_nil_r|..];
    rewrite ?length_app; unfold zlen, zeros in *; rewrite ?length_replicate; lia.
Qed.

Lemma grow_spec s l dl c size :
  fat_file s l dl c -> read_only (vol (fv s)) = false -> zlen c < size -> size < 2 ^ 32 ->
  iwp (ensure_clusters size ;;; zero_range (zlen c) size ;;; commit size ;;; publish size) s
    (fun _ => trunc_done s l dl c size) (trunc_failed s l dl c size).
Proof.
  intros Hff Hro Hlt H32. pose proof (zlen_nonneg c).
  assert (Hfail : forall f new rc, staged s f l new -> holds (fv f) (l ++ new) c ->
    rc = VFS_EINVAL /\ ~ reliable D -> trunc_failed s l dl c size rc f).
  { intros f new rc Hst Hh [-> Hnr]. split; [|by intros ?]. eapply staged_crash; [done|done|by apply holds_outside_all]. }
  eapply iwp_seq; [apply (stage_clusters s l size c); [apply Hff|done|apply Hff|apply Hff|lia|apply Hff]|..].
  2: { intros rc f (new & Hst & Hh & Hx).
    split; [eapply staged_crash; [done|done|by apply holds_outside_all]|].
    intros Hrel. destruct (Hx Hrel) as [-> Hfull]. split; [done|]. split; [done|]. by eapply staged_intact. }
  intros [] f (new & Hst & Hh & Hr).
  eapply iwp_seq; [apply (stage_gap s f l new c size); [done|done|done|lia]|..].
  2: { intros rc g (Hst' & Hh' & Hrc). by eapply Hfail. }
  intros [] g [Hst' Hh']. rewrite <- truncate_grow in Hh' by lia.
  pose proof (zlen_f_truncate c size ltac:(lia)) as Hz.   assert (Hout : holds_outside (fv g) (l ++ new) c 0 0).
  { destruct Hh' as [Hr' Hb']. rewrite Hz in Hr', Hb'. split; [lia|]. intros j Hj _.
    rewrite Hb', at_f_truncate by lia. by rewrite (proj2 (Z.ltb_lt _ _)) by lia. }
  pose proof (commit_ready s g l dl (l ++ new) c (f_truncate c size) 0 0 Hff
    ltac:(by apply staged_ready) Hro ltac:(lia)) as Hcm. rewrite Hz in Hcm.
  eapply iwp_seq; [exact Hcm|..].
  2: { intros rc k (Ei & Hcr & Hrc & Hnr). split; [done|by intros ?]. }
  intros [] k (Ei & [Hik Esk] & Ho & Hk & _). apply iwp_set.
  split; [by eapply (published_kept s g k)|]. exists (l ++ new). rewrite <- Hz at 1. by eapply published.
Qed.

(** *** Shrinking *)

Lemma fbyte_take v l keep j :
  inv v -> 0 <= j < room v (take keep l) -> fbyte v (take keep l) j = fbyte v l j.
Proof.
  intros Hi Hj. destruct (bpc_pos v Hi) as (Hb & _). unfold room in Hj. unfold fbyte.
  set (b := bytes_per_clus (vol v)) in *.
  assert (Hlt : j / b < Z.of_nat (length (take keep l))) by (apply Z.div_lt_upper_bound; lia).
  pose proof (Z.div_pos j b). rewrite length_take in Hlt. rewrite !nth_lookup, lookup_take_lt by lia. done.
Qed.

Lemma holds_take v l keep c : inv v -> zlen c <= room v (take keep l) -> holds v l c -> holds v (take keep l) c.
Proof. intros Hi Hr [_ Hb]. split; [done|]. intros j Hj. rewrite fbyte_take by (done || lia). by apply Hb. Qed.

(** The file that was committed is there however far the trim got. *)
Lemma on_disk_trimmed v w l dl dclus i c keep cut :
  inv v -> chain v l -> (forall x, x ∈ l -> x ∉ dl) -> trimmed v w l keep cut -> (cut = true \/ (0 < keep)%nat) ->
  has_entry v dl dclus i -> de_clus (dirent v dl i) = default 0 (head (take keep l)) ->
  de_size (dirent v dl i) = zlen c -> holds v (take keep l) c ->
  on_disk w (if cut then take keep l else l) dl dclus i c.
Proof.
  intros Hi Hl Hap [Hf Hc Hd] Hcut He Hfst Hsz Hh. pose proof Hf as ([Hiw Est] & _).
  destruct (frame_dirent _ v w dl dclus i Hf Hi) as [He' E]; [by intros x Hx Hxl; apply (Hap x)|done|].
  assert (Hcv : forall x, x ∈ take keep l -> valid v x).
  { intros x Hx. eapply chain_valid; [done|]. rewrite <- (take_drop keep l). apply elem_of_app. auto. }
  assert (Hb : forall j, 0 <= j < zlen c -> fbyte w (take keep l) j = at_ c j).
  { destruct Hh as [Hr Hb]. intros j Hj. rewrite <- Hb by done. destruct (bpc_pos v Hi) as (Hb0 & _).
    assert (Hj' : 0 <= j < room v (take keep l)) by lia. unfold fbyte.
    destruct (static_vol _ _ Est) as (_&->&_). rewrite (static_dsec v w) by done. unfold room in Hj'.
    set (b := bytes_per_clus (vol v)) in *.
    assert (Hlt : j / b < Z.of_nat (length (take keep l))) by (apply Z.div_lt_upper_bound; lia).
    pose proof (Z.div_pos j b). f_equal. apply Hd.
    - apply list_elem_of_In, nth_In. lia.
    - destruct (bpc_pos v Hi) as (_ & _ & Eb & _). fold b in Eb. pose proof (Z.mod_pos_bound j b Hb0).
      split; [apply Z.div_pos; unfold SECTOR; lia|]. apply Z.div_lt_upper_bound; unfold SECTOR in *; lia. }
  assert (Hroom : zlen c <= room w (take keep l)) by (rewrite (static_room v) by done; apply Hh).
  split; [done|done| |by rewrite E|].
  - rewrite E, Hfst. destruct cut; [done|]. destruct Hcut; [done|]. destruct keep as [|keep]; [lia|by destruct l].
  - destruct cut; [by split|]. split.
    + rewrite <- (take_drop keep l). pose proof (room_app w (take keep l) (drop keep l) Hiw). lia.
    + intros j Hj. rewrite <- Hb by done. symmetry. apply fbyte_take; [done|lia].
Qed.

(** Restoring the first cluster when the commit fails changes no disk. *)
Lemma iwp_restore (h : inode -> inode) (m : io (fst_ D) unit) f Q E :
  iwp m f Q E ->
  iwp (fun s => match m s with (inl rc, s) => (inl rc, upd_ino h s) | r => r end) f Q
    (fun rc g => exists g0, E rc g0 /\ g = upd_ino h g0).
Proof. unfold iwp. destruct (m f) as [[rc|a] g]; eauto. Qed.

(** What a shrink keeps. *)
Definition keep_of v (size : Z) : nat := Z.to_nat (if size =? 0 then 0 else clusters_for (vol v) size).

Lemma keep_enough v l c size :
  inv v -> 0 <= size < zlen c -> zlen c < 2 ^ 32 -> zlen c <= room v l ->
  (if size =? 0 then 0 else clusters_for (vol v) size) = Z.of_nat (keep_of v size) /\
  (keep_of v size <= length l)%nat /\ size <= room v (take (keep_of v size) l) /\
  (keep_of v size = 0%nat <-> size = 0).
Proof.
  intros Hi Hs H32 Hr. unfold keep_of. destruct (Z.eqb_spec size 0) as [->|Hz].
  - change (Z.to_nat 0) with 0%nat. rewrite take_0. unfold room. cbn. lia.
  - destruct (clusters_for_ceil v size Hi ltac:(lia)) as (_ & H1' & H2' & H3').
    set (k := clusters_for (vol v) size) in *. unfold room in *. destruct (bpc_pos v Hi) as (Hb & _).
    assert (k <= Z.of_nat (length l)) by nia. rewrite length_take, Nat.min_l by lia. lia.
Qed.

Lemma on_disk_same v w l dl dclus i c : inv v -> same v w -> on_disk v l dl dclus i c -> on_disk w l dl dclus i c.
Proof. intros Hi Hs. apply (on_disk_frame (fun _ => False)); [by apply same_frame|done|tauto]. Qed.

(** A chain cut to [size] bytes, or none of it, holds the cut contents. *)
Lemma shrink_ready s l dl c size :
  fat_file s l dl c -> 0 <= size < zlen c -> zlen c < 2 ^ 32 ->
  let m := match keep_of (fv s) size with O => [] | _ => l end in
  let f := match keep_of (fv s) size with O => upd_ino (set_first 0) s | _ => s end in
  ready s f l dl m c (f_truncate c size) 0 0 /\ fv f = fv s.
Proof.
  intros Hff Hs H32 m f. pose proof (ff_disk _ _ _ _ Hff) as [He Hl Hfst Hsz [Hr Hb]].
  destruct (keep_enough (fv s) l c size (ff_inv _ _ _ _ Hff) Hs H32 Hr) as (_ & _ & _ & Hk0).
  assert (Efv : fv f = fv s) by (unfold f; by destruct (keep_of _ _)). split; [|done].
  pose proof (zlen_f_truncate c size ltac:(lia)) as Hz. pose proof (ff_at _ _ _ _ Hff) as [Hfirst _].
  split; rewrite ?Efv.
  - apply frame_refl, Hff.
  - unfold m. by destruct (keep_of _ _).
  - unfold holds. rewrite Hz. unfold m. destruct (keep_of _ _) eqn:Ek.
    + assert (size = 0) as -> by (by apply Hk0). unfold room. cbn. split; [lia|intros; lia].
    + split; [lia|]. intros j Hj. rewrite Hb, at_f_truncate by lia. by rewrite (proj2 (Z.ltb_lt _ _)) by lia.
  - unfold f, m. by destruct (keep_of _ _).
  - unfold f. by destruct (keep_of _ _).
  - intros x Hx. apply (ff_apart _ _ _ _ Hff). unfold m in Hx. destruct (keep_of _ _); [by apply elem_of_nil in Hx|done].
  - exists l, c. split; [done|]. split; [apply Hff|apply Hff].
Qed.

(** Both ways of trimming, in one. *)
Lemma trim_spec s l keep :
  inv (fv s) -> read_only (vol (fv s)) = false -> chain (fv s) l ->
  (keep <= length l)%nat -> at_chain (ino s) (match keep with O => [] | _ => l end) ->
  iwp (trim (Z.of_nat keep) (default 0 (head l))) s
    (fun _ f => moved s f (take keep l) /\ trimmed (fv s) (fv f) l keep true)
    (fun rc f => rest_of (ino f) = rest_of (ino s) /\
       (exists cut, trimmed (fv s) (fv f) l keep cut /\ (cut = true \/ (0 < keep)%nat)) /\ ~ reliable D).
Proof.
  intros Hi Hro Hl Hk Hat. destruct keep as [|keep].
  - eapply iwp_mono; [by apply trim_all_spec|..].
    + intros [] f (Ei & Ht & _). split; [|done]. rewrite take_0. split; by rewrite Ei.
    + intros rc f (Ei & Ht & _ & ?). split; [by rewrite Ei|]. split; [exists true; auto|done].
  - eapply iwp_mono; [apply (trim_some_spec s l (S keep)); [done..|lia]|..].
    + intros [] f (Hm & Ht & _). done.
    + intros rc f (Hr & [cut Ht] & _ & ?). split; [done|]. split; [exists cut; split; [done|right; lia]|done].
Qed.

Lemma trimmed_others v w l dl i keep cut : inv v -> trimmed v w l keep cut -> others_kept v w l dl i.
Proof. intros Hi [Hf _ _]. apply frame_others; [done|]. eapply frame_mono; [|done]. intros x Hx. by left. Qed.

Lemma same_others v w l dl i : inv v -> same v w -> others_kept v w l dl i.
Proof. intros Hi Hs. apply frame_others; [done|]. by apply same_frame. Qed.

Lemma trim_committed s l dl c' keep :
  let m := match keep with O => [] | _ => l end in
  read_only (vol (fv s)) = false -> chain (fv s) l -> (keep <= length l)%nat ->
  (forall x, x ∈ l -> x ∉ dl) -> fat_file s m dl c' -> zlen c' <= room (fv s) (take keep l) ->
  iwp (trim (Z.of_nat keep) (default 0 (head l)) ;;; lift fat_barrier) s
    (fun _ f => kept s f l dl /\ fat_file f (take keep l) dl c')
    (fun rc f => others_kept (fv s) (fv f) l dl (dir_index (ino s)) /\
       (exists l0, on_disk (fv f) l0 dl (dir_clus (ino s)) (dir_index (ino s)) c') /\ ~ reliable D).
Proof.
  intros m Hro Hl Hk Hap Hff Hroom. pose proof (ff_inv _ _ _ _ Hff) as Hi.
  pose proof (ff_disk _ _ _ _ Hff) as [He _ Hfst Hsz Hh].
  assert (Hhead : default 0 (head m) = default 0 (head (take keep l))).
  { unfold m. destruct keep; [done|]. by destruct l. }
  assert (Hht : holds (fv s) (take keep l) c').
  { unfold m in Hh. destruct keep; [done|]. by apply holds_take. }
  assert (Hod : forall w cut, trimmed (fv s) w l keep cut -> cut = true \/ (0 < keep)%nat ->
    on_disk w (if cut then take keep l else l) dl (dir_clus (ino s)) (dir_index (ino s)) c').
  { intros w cut Ht Hc. eapply on_disk_trimmed; try done. by rewrite Hfst. }
  eapply iwp_seq; [by apply (trim_spec s l keep); try done; apply Hff|..].
  2: { intros rc f (_ & (cut & Ht & Hc) & Hnr). split; [by eapply trimmed_others|].
    split; [eexists; by apply (Hod _ cut)|done]. }
  intros [] f [[Hat Hrest] Ht]. destruct (rest_fields _ _ Hrest) as (Edc & Edi & Ety & Esz).
  pose proof (tr_frame _ _ _ _ _ Ht) as ([Hif Esf] & _). pose proof (Hod _ true Ht (or_introl eq_refl)) as Ho.
  pose proof (trimmed_others _ _ l dl (dir_index (ino s)) _ _ Hi Ht) as Hk1.
  pose proof (static_vol _ _ Esf) as (_&_&_&_&_&_&_&_&_&Ero&_).
  eapply iwp_lift; [by apply barrier_spec|..].
  - intros [] w Hw. pose proof Hw as ([Hiw Esw] & _).
    pose proof (static_vol _ _ Esw) as (_&_&_&_&_&_&_&_&_&Erow&_). split.
    { split; cbn [fv ino]; [eapply others_trans; [exact Hk1|by apply same_others]|congruence|done]. }
    split; cbn [fv ino]; [done|by rewrite Ety; apply Hff|by rewrite Esz; apply Hff|done| |].
    + rewrite Edc, Edi. eapply on_disk_same; [exact Hif|exact Hw|exact Ho].
    + intros x Hx. apply Hap. rewrite <- (take_drop keep l). apply elem_of_app. auto.
  - intros rc w (Hw & _ & Hnr). split; [eapply others_trans; [exact Hk1|by apply same_others]|].
    split; [|done]. exists (take keep l). eapply on_disk_same; [exact Hif|exact Hw|exact Ho].
Qed.

Lemma shrink_spec s l dl c size :
  fat_file s l dl c -> read_only (vol (fv s)) = false -> 0 <= size < zlen c -> zlen c < 2 ^ 32 ->
  let keep := if size =? 0 then 0 else clusters_for (vol (fv s)) size in
  iwp ((if keep =? 0 then iset (upd_ino (set_first 0)) else iret tt) ;;;
       (fun s1 => match commit size s1 with
              | (inl rc, s2) => (inl rc, upd_ino (set_first (first_clus (ino s))) s2)
              | r => r
              end) ;;;
       publish size ;;; iset (upd_ino (set_cursor 0 0)) ;;;
       trim keep (first_clus (ino s)) ;;; lift fat_barrier) s
    (fun _ => trunc_done s l dl c size) (trunc_failed s l dl c size).
Proof.
  intros Hff Hro Hs H32 keep0. pose proof (ff_inv _ _ _ _ Hff) as Hi.
  pose proof (od_bytes _ _ _ _ _ _ (ff_disk _ _ _ _ Hff)) as [Hr _].
  destruct (keep_enough (fv s) l c size Hi Hs H32 Hr) as (Ek & Hkl & Hkr & _). unfold keep0. rewrite Ek. clear keep0.
  destruct (shrink_ready s l dl c size Hff Hs H32) as [Hrd Efv]. set (keep := keep_of (fv s) size) in *.
  set (m := match keep with O => [] | _ => l end) in *. set (f := match keep with O => _ | _ => s end) in *.
  pose proof (zlen_f_truncate c size ltac:(lia)) as Hz. set (c' := f_truncate c size) in *.
  apply iwp_bind. assert (Hgo : forall Q E, iwp (if Z.of_nat keep =? 0 then iset (upd_ino (set_first 0)) else iret tt) s Q E <-> Q tt f).
  { intros Q E. unfold f. by destruct keep. }
  apply Hgo. clear Hgo.
  pose proof (commit_ready s f l dl m c c' 0 0 Hff Hrd Hro ltac:(lia)) as Hcm. rewrite Hz in Hcm.
  eapply iwp_seq; [apply iwp_restore, Hcm|..].
  2: { intros rc g (g0 & (_ & Hcr & _ & Hnr) & ->). split; [exact Hcr|by intros ?]. }
  intros [] g (Ei & [Hig Esg] & Ho & Hk & Hw). apply iwp_bind, iwp_set, iwp_bind, iwp_set.
  set (h := upd_ino (set_cursor 0 0) _). pose proof (ff_at _ _ _ _ Hff) as [Hfirst _]. rewrite Hfirst.
  assert (Hlh : chain (fv g) l).
  { eapply within_chain; [done|]. rewrite Efv. apply Hff. }
  destruct (rest_fields _ _ (rd_rest _ _ _ _ _ _ _ _ _ Hrd)) as (Edc & Edi & Ety & _).
  pose proof (static_vol _ _ Esg) as (_&_&_&_&_&_&_&_&_&Ero&_).
  assert (Hffh : fat_file h m dl c').
  { split; unfold h; cbn [upd_ino fv ino n_type n_size set_size set_cursor dir_clus dir_index].
    - done.
    - rewrite Ei, Ety. apply Hff.
    - done.
    - split; [rewrite Ei; apply Hrd|done].
    - by rewrite Ei, Edc, Edi.
    - apply Hrd. }
  assert (Eix : dir_index (ino h) = dir_index (ino s) /\ dir_clus (ino h) = dir_clus (ino s)).
  { unfold h. cbn [upd_ino ino set_size set_cursor dir_index dir_clus]. by rewrite Ei, Edi, Edc. }
  destruct Eix as [Eix Ecx].
  eapply iwp_mono; [apply (trim_committed h l dl c' keep); unfold h; cbn [upd_ino fv];
    [congruence|done|done|apply Hff|done|by rewrite (static_room (fv s)), Hz by done]|..].
  - intros [] k ([Hk2 Hro2 Hp] & Hf2). rewrite Eix in Hk2. rewrite Eix, Ecx in Hp.
    split; [split; [by eapply others_trans|done|done]|]. eauto.
  - intros rc k (Hk2 & (l0 & Ho2) & Hnr). rewrite Eix, Ecx in *. split; [|by intros ?].
    split; [by eapply others_trans|]. exists l0, c'. auto.
Qed.

Lemma trunc_spec s l dl c size :
  fat_file s l dl c -> read_only (vol (fv s)) = false -> zlen c <= FAT_MAX_FILE ->
  0 <= size <= FAT_MAX_FILE -> size - zlen c <= FAT_MAX_HOLE ->
  iwp (fat_op_truncate size) s (fun _ => trunc_done s l dl c size) (trunc_failed s l dl c size).
Proof.
  intros Hff Hro Hmax Hs Hgap. unfold fat_op_truncate. apply iwp_bind, iwp_get, iwp_bind, iwp_get. unfold the_vol.
  rewrite (ff_type _ _ _ _ Hff), (ff_size _ _ _ _ Hff), Hro, bool_decide_eq_true_2 by done. cbn [negb].
  rewrite (proj2 (Z.ltb_ge FAT_MAX_FILE size)) by lia. unfold FAT_MAX_FILE in *.
  destruct (Z.eqb_spec size (zlen c)) as [->|Hne].
  { apply iwp_ret. split; [split; [by apply same_others; [apply Hff|apply same_refl, Hff]|done|done]|]. exists l. unfold f_truncate.
    rewrite Z.sub_diag, take_ge, zeros_neg, app_nil_r by (unfold zlen; lia). done. }
  destruct (Z.ltb_spec (zlen c) size).
  - rewrite (proj2 (Z.ltb_ge _ _)) by done. apply grow_spec; [done|done|lia|lia].
  - apply shrink_spec; [done|done|lia|lia].
Qed.

End Trunc.
