(* ===== verification/FatDemo.v ===== *)
(** A small volume to run the filesystem on: a formatted disk of sixty sectors with an empty
    file in its root directory. *)

From S2P Require Import Prelude Bytes FileSpec Vfs Rtc Block RamDisk FatVol FatMount FatFile.
From S2P Require Import FatDisk FatChain FatRw FatEntry FatSpec.

Definition demo_clock := Clock 1000 None.
(** [fl] says which transfers fail. *)
Definition demo_blank (fl : list bool) : block_device ramdisk := BlockDevice 60 false (RamDisk (replicate 60 []) fl) 0 0 0 0.
Definition demo_volume : vst ramdisk := Eval vm_compute in
  snd (fat_volume_open (Vst blank_vol (snd (fat32_format true demo_clock None (demo_blank []))) demo_clock)).
(** An empty file HELLO.TXT in slot 1 of the root directory. *)
Definition demo_root (b : bytes) : bytes := put8 43 32 (put_bytes 32 (lit "HELLO   TXT") b).
Definition demo_file : fst_ ramdisk := Eval vm_compute in
  Fst (snd ((b <- fat_sector_read 34 ;; fat_sector_write 34 (demo_root b)) demo_volume))
      (Inode 0 2 1 1 32 0 0 VNODE_FILE 0 0 0).

Lemma demo_file_inv : inv (fv demo_file).
Proof.
  split; [split; first [by exists 128|vm_compute; try split; try discriminate; reflexivity]|vm_compute; split; discriminate|reflexivity|].
  intros _. split; [vm_compute; split; [discriminate|reflexivity]|vm_compute; reflexivity].
Qed.

Lemma demo_fat_file : fat_file demo_file [] [2] [].
Proof.
  split; [apply demo_file_inv|reflexivity|reflexivity|split; [reflexivity|done]| |by intros x ?%elem_of_nil].
  split; [|done|vm_compute; reflexivity|vm_compute; reflexivity|].
  - split; [|reflexivity|vm_compute; split; [split; [discriminate|reflexivity]|discriminate]|vm_compute; repeat split; discriminate].
    cbn [chain]. split; [vm_compute; split; [discriminate|reflexivity]|]. split; [done|]. vm_compute. discriminate.
  - split; [vm_compute; discriminate|]. intros j Hj. rewrite zlen_nil in Hj. lia.
Qed.
