(* ===== verification/FatClaims.v ===== *)
(** fs/fat/fat.c: what the vnode operations of a file promise. *)

From S2P Require Import Prelude Bytes FileSpec Vfs Rtc Block FatVol FatMount FatFile.
From S2P Require Import FatDisk FatChain FatRw FatEntry FatSpec FatWrite.
From S2P Require Import FatTrunc RamDisk FatDemo.

Section Claims.
Context {D : Type} `{DiskLaws D}.
Implicit Types (s f : fst_ D) (l dl : list Z).

(** A size field has 32 bits. *)
Lemma file_max s l dl c : fat_file s l dl c -> zlen c <= FAT_MAX_FILE.
Proof.
  intros Hff. pose proof (od_size _ _ _ _ _ _ (ff_disk _ _ _ _ Hff)) as <-. unfold de_size, FAT_MAX_FILE.
  pose proof (rd32_range (dirent (fv s) dl (dir_index (ino s))) DE_SIZE (fbytes_ok _ _ _ _)). lia.
Qed.

Lemma fat_file_same s f l dl c :
  fat_file s l dl c -> same (fv s) (fv f) -> moved s f l -> fat_file f l dl c.
Proof.
  intros Hff Hs [Hat Hrest]. destruct (rest_fields _ _ Hrest) as (Edc & Edi & Ety & Esz).
  pose proof (ff_inv _ _ _ _ Hff) as Hi. split.
  - apply Hs.
  - rewrite Ety. apply Hff.
  - rewrite Esz. apply Hff.
  - done.
  - rewrite Edc, Edi. eapply on_disk_same; [exact Hi|done|apply Hff].
  - apply Hff.
Qed.

(** The first tests of an operation on a file. *)
Tactic Notation "enter" reference(op) constr(Hff) constr(Ero) :=
  unfold op, ibind, iget, the_vol;
  rewrite (ff_type _ _ _ _ Hff), (ff_size _ _ _ _ Hff), Ero, bool_decide_eq_true_2 by done; cbn [negb].

Lemma read_spec s l dl c off len :
  fat_file s l dl c -> 0 <= off -> 0 <= len ->
  iwp (fat_op_read off len) s
    (fun b f => b = f_read c off len /\ fat_file f l dl c /\ same (fv s) (fv f))
    (fun rc f => rc = VFS_EINVAL /\ ~ reliable D /\ same (fv s) (fv f) /\ fat_file f l dl c).
Proof.
  intros Hff Hoff Hlen. pose proof (ff_inv _ _ _ _ Hff) as Hi. pose proof (zlen_nonneg c).
  pose proof (ff_disk _ _ _ _ Hff) as [_ Hl _ _ [Hr Hb]].
  unfold fat_op_read. apply iwp_bind, iwp_get.
  rewrite (ff_type _ _ _ _ Hff), (ff_size _ _ _ _ Hff), bool_decide_eq_true_2 by done. cbn [negb].
  destruct (Z.leb_spec (zlen c) off).
  { apply iwp_ret. unfold f_read. rewrite drop_ge by (unfold zlen in *; lia). by rewrite take_nil. }
  set (n := Z.min len (zlen c - off)). assert (Hn : 0 <= n <= zlen c - off) by lia.
  assert (Er : fbytes (fv s) l off (Z.to_nat n) = f_read c off len).
  { apply bytes_ext; unfold f_read; rewrite zlen_fbytes; unfold zlen in *; [rewrite length_take, length_drop; lia|].
    intros i Hi'. rewrite at_fbytes, (at_take _ len), at_drop, Hb by (rewrite ?length_drop; lia). f_equal; lia. }
  destruct (Z.eqb_spec n 0) as [E0|]; [rewrite E0 in Er; apply iwp_ret; by rewrite <- Er|].
  assert (Hz : zlen (replicate (Z.to_nat n) 0) = n) by (unfold zlen; rewrite length_replicate; lia).
  eapply iwp_mono.
  - apply (rw_read_spec _ s l off (replicate (Z.to_nat n) 0)); [done|done|apply Hff|done|lia|lia].
  - intros b f (-> & Hs & Hm). rewrite length_replicate. split; [done|]. split; [by eapply fat_file_same|done].
  - intros rc f (Hs & Hm & Hrc & Hnr). do 3 (split; [done|]). by eapply fat_file_same.
Qed.

(** Fat_op_read returns exactly the bytes of the file between the offset and the
    end of the file, whichever clusters they lie in and wherever the inode's chain
    cursor is, and changes nothing on the disk. It fails only when the disk does. *)
Theorem fat_read_contents s l dl c off len :
  fat_file s l dl c -> 0 <= off -> 0 <= len ->
  match fat_op_read off len s with
  | (inr b, f) => b = f_read c off len /\ fat_file f l dl c /\ same (fv s) (fv f)
  | (inl rc, f) => rc = VFS_EINVAL /\ ~ reliable D /\ same (fv s) (fv f) /\ fat_file f l dl c
  end.
Proof.
  intros Hff Hoff Hlen. pose proof (read_spec s l dl c off len Hff Hoff Hlen) as Hr. unfold iwp in Hr.
  by destruct (fat_op_read off len s) as [[rc|b] f].
Qed.

(** C20: fat_op_write implements the write on byte strings: the bytes are stored, a gap
    behind the old end is filled with zeroes, the rest is kept, the directory entry on
    the disk has the new size and first cluster, the inode agrees, and every other file
    of the volume is as it was. It is refused on a read-only volume, past the size
    limit, or with a gap over a mebibyte, and then nothing happened; on a disk that does
    not fail, a write that starts can only fail with VFS_ENOSPC, when all free clusters
    together are too few, and the old contents are still there. *)
Theorem fat_write_refines s l dl c buf off :
  fat_file s l dl c -> Forall byte_ok buf -> 0 <= off ->
  if read_only (vol (fv s)) then fat_op_write buf off s = (inl VFS_EINVAL, s)
  else if zlen buf =? 0 then fat_op_write buf off s = (inr 0, s)
  else if FAT_MAX_FILE <? off + zlen buf then fat_op_write buf off s = (inl VFS_ENOSPC, s)
  else if FAT_MAX_HOLE <? off - zlen c then fat_op_write buf off s = (inl VFS_EINVAL, s)
  else match fat_op_write buf off s with
       | (inr n, f) => n = zlen buf /\ others_kept (fv s) (fv f) l dl (dir_index (ino s)) /\
                       exists new, fat_file f (l ++ new) dl (f_write c off buf)
       | (inl rc, f) => reliable D -> rc = VFS_ENOSPC /\ disk_full (fv s) l (off + zlen buf) /\
                       exists l0, on_disk (fv f) l0 dl (dir_clus (ino s)) (dir_index (ino s)) c
       end.
Proof.
  intros Hff Hby Hoff. pose proof (file_max _ _ _ _ Hff) as Hmax. pose proof (zlen_nonneg buf). pose proof (zlen_nonneg c).
  destruct (read_only (vol (fv s))) eqn:Ero; [by enter fat_op_write Hff Ero|].
  destruct (Z.eqb_spec (zlen buf) 0) as [E|Hne]; [by enter fat_op_write Hff Ero; rewrite E|].
  destruct (Z.ltb_spec FAT_MAX_FILE (off + zlen buf)).
  { enter fat_op_write Hff Ero. rewrite (proj2 (Z.eqb_neq _ _) Hne).
    by replace ((FAT_MAX_FILE <? off) || (FAT_MAX_FILE - off <? zlen buf)) with true by lia. }
  destruct (Z.ltb_spec FAT_MAX_HOLE (off - zlen c)) as [Hh|].
  { enter fat_op_write Hff Ero. rewrite (proj2 (Z.eqb_neq _ _) Hne).
    replace ((FAT_MAX_FILE <? off) || (FAT_MAX_FILE - off <? zlen buf)) with false by lia.
    by replace ((zlen c <? off) && (FAT_MAX_HOLE <? off - zlen c)) with true by (unfold FAT_MAX_HOLE in *; lia). }
  pose proof (write_spec s l dl c buf off Hff Ero Hby) as Hw. unfold iwp in Hw.
  destruct (fat_op_write buf off s) as [[rc|n] f].
  - by apply Hw; [intros ->|..]; try lia.
  - destruct Hw as (-> & [Hk _ _] & Hf); try lia; [by intros ->|]. done.
Qed.

(** C34: fat_op_truncate implements the truncation of byte strings: a shrink cuts, a growth
    pads with zeroes, so bytes that were cut off never come back; the entry on the disk
    and the inode agree on it, and every other file of the volume is as it was. *)
Theorem fat_truncate_refines s l dl c size :
  fat_file s l dl c -> 0 <= size ->
  if read_only (vol (fv s)) then fat_op_truncate size s = (inl VFS_EINVAL, s)
  else if FAT_MAX_FILE <? size then fat_op_truncate size s = (inl VFS_ENOSPC, s)
  else if FAT_MAX_HOLE <? size - zlen c then fat_op_truncate size s = (inl VFS_EINVAL, s)
  else match fat_op_truncate size s with
       | (inr _, f) => others_kept (fv s) (fv f) l dl (dir_index (ino s)) /\
                       exists m, fat_file f m dl (f_truncate c size)
       | (inl rc, f) => reliable D -> rc = VFS_ENOSPC /\ disk_full (fv s) l size /\
                       exists l0, on_disk (fv f) l0 dl (dir_clus (ino s)) (dir_index (ino s)) c
       end.
Proof.
  intros Hff Hsz. destruct (read_only (vol (fv s))) eqn:Ero; [by enter fat_op_truncate Hff Ero|].
  destruct (Z.ltb_spec FAT_MAX_FILE size) as [Hbig|].
  { enter fat_op_truncate Hff Ero. by rewrite (proj2 (Z.ltb_lt _ _) Hbig). }
  destruct (Z.ltb_spec FAT_MAX_HOLE (size - zlen c)) as [Hh|].
  { enter fat_op_truncate Hff Ero. rewrite (proj2 (Z.ltb_ge _ _)), (proj2 (Z.eqb_neq _ _)), (proj2 (Z.ltb_lt _ _)), (proj2 (Z.ltb_lt _ _)); [done|unfold FAT_MAX_HOLE in *; lia..]. }
  pose proof (trunc_spec s l dl c size Hff Ero (file_max _ _ _ _ Hff)) as Ht. unfold iwp in Ht.
  destruct (fat_op_truncate size s) as [[rc|n] f].
  - by apply Ht; lia || apply (file_max s l dl).
  - destruct Ht as ([Hk _ _] & Hf); [lia..|]. done.
Qed.


End Claims.

(** *** Runs *)

Definition demo_text : bytes := lit "hello".

Lemma fat_read_contents_witness :
  exists f, fat_op_read 0 10 demo_file = (inr [], f) /\ fat_file f [] [2] [].
Proof.
  pose proof (fat_read_contents demo_file [] [2] [] 0 10 demo_fat_file ltac:(lia) ltac:(lia)) as H.
  assert (E : fst (fat_op_read 0 10 demo_file) = inr []) by (vm_compute; reflexivity).
  destruct (fat_op_read 0 10 demo_file) as [r f]. cbn [fst] in E. subst r. exists f. split; [reflexivity|apply H].
Defined.

Lemma fat_write_refines_witness :
  exists new f, fat_op_write demo_text 1000 demo_file = (inr 5, f) /\
                fat_file f new [2] (f_write [] 1000 demo_text).
Proof.
  assert (Hb : Forall byte_ok demo_text) by (repeat apply Forall_cons_2; try apply Forall_nil_2; vm_compute; split; discriminate || reflexivity).
  pose proof (fat_write_refines demo_file [] [2] [] demo_text 1000 demo_fat_file Hb ltac:(lia)) as H.
  assert (E : fst (fat_op_write demo_text 1000 demo_file) = inr 5) by (vm_compute; reflexivity).
  revert H E. generalize (fat_op_write demo_text 1000 demo_file). intros [r f] H E. cbn [fst] in E. subst r.
  change (read_only (vol (fv demo_file))) with false in H. change (zlen demo_text =? 0) with false in H.
  change (FAT_MAX_FILE <? 1000 + zlen demo_text) with false in H.
  change (FAT_MAX_HOLE <? 1000 - zlen []) with false in H. cbn iota in H.
  destruct H as (_ & _ & new & H). exists new, f. split; [reflexivity|exact H].
Defined.

Lemma fat_truncate_refines_witness :
  exists m f, fat_op_truncate 600 demo_file = (inr tt, f) /\ fat_file f m [2] (f_truncate [] 600).
Proof.
  pose proof (fat_truncate_refines demo_file [] [2] [] 600 demo_fat_file ltac:(lia)) as H.
  assert (E : fst (fat_op_truncate 600 demo_file) = inr tt) by (vm_compute; reflexivity).
  revert H E. generalize (fat_op_truncate 600 demo_file). intros [r f] H E. cbn [fst] in E. subst r.
  change (read_only (vol (fv demo_file))) with false in H. change (FAT_MAX_FILE <? 600) with false in H.
  change (FAT_MAX_HOLE <? 600 - zlen []) with false in H. cbn iota in H.
  destruct H as (_ & m & H). exists m, f. split; [reflexivity|exact H].
Defined.

