(* ===== verification/FatOpen.v ===== *)
(** fs/fat/fat_vol.c: mounting. Whatever the disk holds, a volume that is accepted is one the
    rest of the filesystem can work on. *)

From S2P Require Import Prelude Bytes Vfs Rtc Block FatVol FatMount FatFile.
From S2P Require Import FatDisk FatChain FatRw FatEntry FatSpec RamDisk FatDemo.

Lemma pow2_divides n : 1 <= n <= 128 -> Z.land n (n - 1) = 0 -> (n | 128).
Proof.
  intros Hn He. assert (Hall : forallb (fun k => negb (Z.land (Z.of_nat k) (Z.of_nat k - 1) =? 0) || (128 mod Z.of_nat k =? 0)) (seq 1 128) = true)
    by reflexivity.
  rewrite forallb_forall in Hall. specialize (Hall (Z.to_nat n)). rewrite Z2Nat.id, He in Hall by lia. cbn [Z.eqb negb orb] in Hall.
  apply Z.mod_divide; [lia|]. apply Z.eqb_eq, Hall, in_seq. lia.
Qed.

Lemma check_bpb_geometry sectors ro bs v :
  Forall byte_ok bs -> sectors <= 2 ^ 28 -> check_bpb sectors ro bs = Some v ->
  geometry v /\ total_sectors v <= sectors /\ read_only v = ro /\ cache_valid v = false /\
  0 <= fsinfo_sec v < reserved_sec v /\ reserved_sec v < 2 ^ 16.
Proof.
  intros Hb Hs. unfold check_bpb.
  pose proof (rd16_range bs BPB_RsvdSecCnt Hb) as Hres. pose proof (rd16_range bs BPB_FSInfo Hb) as Hfi.
  pose proof (rd32_range bs BPB_TotSec32 Hb) as Htot. pose proof (rd32_range bs BPB_FATSz32 Hb) as Hfz.
  pose proof (at_byte bs BPB_SecPerClus Hb) as Hspc. pose proof (at_byte bs BPB_NumFATs Hb) as Hnf.
  unfold byte_ok in *.
  set (res := fat_rd16 bs BPB_RsvdSecCnt) in *. set (fi := fat_rd16 bs BPB_FSInfo) in *.
  set (tot := fat_rd32 bs BPB_TotSec32) in *. set (fz := fat_rd32 bs BPB_FATSz32) in *.
  set (spc := at_ bs BPB_SecPerClus) in *. set (nf := at_ bs BPB_NumFATs) in *.
  set (root := fat_rd32 bs BPB_RootClus). clearbody res fi tot fz spc nf root.
  destruct (negb (_ =? 43605)); [done|]. destruct (negb (_ =? SECTOR)); [done|].
  destruct (_ || (128 <? spc)) eqn:E1; [done|]. apply orb_false_iff in E1 as [[E1 Ep]%orb_false_iff E1']. apply negb_false_iff, Z.eqb_eq in Ep.
  destruct (Z.eqb_spec res 0); [done|]. destruct (_ || (4 <? nf)) eqn:E2; [done|]. apply orb_false_iff in E2 as [E2 E2'].
  destruct (_ || negb (_ =? 0)); [done|]. destruct (negb (_ =? 0)); [done|].
  destruct (Z.eqb_spec fz 0); [done|]. destruct (Z.eqb_spec tot 0); [done|].
  destruct (Z.ltb_spec sectors tot); [done|]. destruct (Z.ltb_spec ((4294967295 - res) / fz) nf) as [|Hov]; [done|].
  b2p. assert (Hds : 0 <= res + nf * fz < 2 ^ 32).
  { pose proof (Z.mul_div_le (4294967295 - res) fz). nia. }
  rewrite !(wrap_small 32 (res + nf * fz)) by lia. set (ds := res + nf * fz) in *.
  destruct (Z.leb_spec tot ds); [done|].
  destruct (Z.ltb_spec ((tot - ds) / spc) 1) as [|Hcl]; [done|].
  pose proof (Z.mul_div_le (tot - ds) spc ltac:(lia)) as Hmul. set (cl := (tot - ds) / spc) in *. clearbody cl.
  assert (cl < 2 ^ 28) by nia. rewrite (wrap_small 32) by lia.
  destruct (_ || (cl + 2 <=? root)) eqn:E3; [done|]. apply orb_false_iff in E3 as [E3 E3'].
  change (SECTOR / 4) with 128. destruct (Z.ltb_spec (fz * 128) (cl + 2)); [done|].
  intros [= <-]. cbn [total_sectors read_only cache_valid fsinfo_sec reserved_sec]. b2p.
  split; [split; cbn; unfold ds in *; try lia; by apply pow2_divides; lia|]. do 3 (split; [lia || done|]). split; [|lia].
  destruct (negb (fi =? 0) && negb (fi =? 65535) && (fi <? res)) eqn:E4; b2p; lia.
Qed.

Section Open.
Context {D : Type} `{DiskLaws D}.
Implicit Types (s t : vst D).

(** A device as the ATA driver registers it: sectors it has, at most 2^28. *)
Definition device_ok (bd : block_device D) : Prop :=
  bd_sectors bd <= capacity (bd_drv bd) /\ bd_sectors bd <= 2 ^ 28.

Lemma read_hint_spec s :
  inv s -> 0 <= fsinfo_sec (vol s) < reserved_sec (vol s) ->
  iwp read_hint s
    (fun _ t => inv t /\ static t = static s /\ (forall i, sec t i = sec s i) /\
       let fi := sec s (fsinfo_sec (vol s)) in
       (reliable D -> alloc_hint (vol t) =
          if negb (fsinfo_sec (vol s) =? 0) && (fat_rd32 fi 0 =? 0x41615252) && (fat_rd32 fi 484 =? 0x61417272) &&
             fat_clus_valid (vol s) (fat_rd32 fi 492)
          then fat_rd32 fi 492 else alloc_hint (vol s)))
    (fun _ _ => False).
Proof.
  intros Hi Hf. unfold iwp, read_hint. destruct (Z.eqb_spec (fsinfo_sec (vol s)) 0); [done|]. cbn [negb andb].
  pose proof (geo_bounds s Hi). pose proof (i_geometry _ Hi) as []. pose proof (i_device _ Hi).
  assert (Hr : iwp (fat_sector_read (fsinfo_sec (vol s))) s (fun b t => same s t /\ b = sec s (fsinfo_sec (vol s)))
    (fun rc t => same s t /\ rc = VFS_EINVAL /\ ~ reliable D)) by (apply sector_read_spec; [done|lia|lia]).
  unfold iwp in Hr. destruct (fat_sector_read _ s) as [[rc|fi] t].
  - destruct Hr as (([Hit Est] & Hsec & _) & _ & Hnr). done.
  - destruct Hr as (([Hit Est] & Hsec & Hh) & ->).
    destruct ((_ && _) && _); [|done]. split; [by apply set_hint_inv|]. done.
Qed.

(** What a boot sector that is accepted leads to. *)
Lemma open_with s bs v :
  device_ok (dev s) -> bs = sec s 0 -> check_bpb (bd_sectors (dev s)) (bd_read_only (dev s)) bs = Some v ->
  let t0 := Vst v (dev s) (clk s) in
  inv t0 /\
  iwp (fatsec <- fat_sector_read (reserved_sec v) ;; if negb (media_ok fatsec) then reject else read_hint) t0
    (fun _ t => next t0 t /\ (forall i, sec t i = sec s i) /\
       (reliable D -> alloc_hint (vol t) =
          let fi := sec s (fsinfo_sec v) in
          if negb (fsinfo_sec v =? 0) && (fat_rd32 fi 0 =? 0x41615252) && (fat_rd32 fi 484 =? 0x61417272) &&
             fat_clus_valid v (fat_rd32 fi 492)
          then fat_rd32 fi 492 else 2))
    (fun rc t => rc = VFS_EINVAL /\ (forall i, sec t i = sec s i) /\
       (media_ok (sec s (reserved_sec v)) = true -> ~ reliable D)).
Proof.
  intros [Hcap H28] -> Hb t0. destruct (sec_bytes s 0) as [Hby _].
  destruct (check_bpb_geometry _ _ _ _ Hby H28 Hb) as (Hg & Htot & Hro & Hcv & Hfi & Hrs).
  assert (Hi0 : inv t0) by (split; cbn; [done|lia|done|by rewrite Hcv]).
  assert (Hh0 : alloc_hint v = 2).
  { unfold check_bpb in Hb. repeat match type of Hb with (if ?c then _ else _) = _ => destruct c; [done|] end. by injection Hb as <-. }
  split; [done|]. pose proof (geo_bounds t0 Hi0). pose proof Hg as []. pose proof (i_device _ Hi0) as Hd. cbn in Hd.
  eapply iwp_seq; [apply (sector_read_spec t0); [done|cbn; lia|lia]|..].
  2: { intros rc t (([_ _] & Hsec & _) & -> & Hnr). done. }
  intros b t (([Hit Est] & Hsec & Hh) & ->). destruct (media_ok _) eqn:Em; cbn [negb].
  2: { apply iwp_fail. done. }
  assert (Ef : fsinfo_sec (vol t) = fsinfo_sec v) by (unfold static in Est; by injection Est as [=]).
  pose proof (static_vol _ _ Est) as (_&_&Er&_&_&_&_&Ecl&_). change (reserved_sec (vol t0)) with (reserved_sec v) in Er.
  eapply iwp_mono; [apply read_hint_spec; [done|rewrite Ef, Er; lia]|..].
  - intros [] u (Hiu & Esu & Hsecu & Hhu). split; [split; [done|congruence]|].
    split; [intros i; by rewrite Hsecu, Hsec|]. intros Hrel. rewrite (Hhu Hrel), Ef, Hh, Hsec. cbn [vol t0] in *.
    unfold fat_clus_valid. rewrite Ecl, <- Hh0. done.
  - by intros.
Qed.

Lemma open_spec s :
  device_ok (dev s) ->
  iwp fat_volume_open s
    (fun _ t => exists v, check_bpb (bd_sectors (dev s)) (bd_read_only (dev s)) (sec s 0) = Some v /\
       inv t /\ static t = static (Vst v (dev s) (clk s)) /\ (forall i, sec t i = sec s i) /\
       (reliable D -> alloc_hint (vol t) =
          let fi := sec s (fsinfo_sec v) in
          if negb (fsinfo_sec v =? 0) && (fat_rd32 fi 0 =? 0x41615252) && (fat_rd32 fi 484 =? 0x61417272) &&
             fat_clus_valid v (fat_rd32 fi 492)
          then fat_rd32 fi 492 else 2))
    (fun rc t => rc = VFS_EINVAL /\ (forall i, sec t i = sec s i) /\
       forall v, check_bpb (bd_sectors (dev s)) (bd_read_only (dev s)) (sec s 0) = Some v ->
         media_ok (sec s (reserved_sec v)) = true -> ~ reliable D).
Proof.
  intros Hd. unfold fat_volume_open. apply iwp_bind, iwp_set, iwp_bind. destruct (sec_bytes s 0) as [Hby _].
  eapply iwp_via; [apply (block_read_spec 0 1); [lia|lia|apply Hd]|..].
  2: { intros rc d ((_ & _ & _ & Hsec) & Hnr). split; [done|]. split; [done|]. intros v Hv _. apply Hnr. cbn.
    destruct (check_bpb_geometry _ _ _ _ Hby (proj2 Hd) Hv) as ([] & ? & _). nia. }
  intros bs d ((E1 & E2 & E3 & Hsec) & Hz & Hch). apply iwp_bind, iwp_get. cbn [dev upd_vol vol clk] in *.
  set (s1 := Vst blank_vol d (clk s)). assert (Hd1 : device_ok (dev s1)) by (unfold device_ok, s1; cbn; rewrite E1, E3; apply Hd).
  assert (Hs1 : forall i, sec s1 i = sec s i) by done.
  assert (Hbs : bs = sec s1 0).
  { unfold sec, s1. cbn [dev]. rewrite Hsec. change 0 with (0 + 0) at 1.
    rewrite <- (Hch 0) by lia. symmetry. apply chunk_0. lia. }
  rewrite <- E1, <- E2, <- Hs1, <- Hbs in *.
  destruct (check_bpb (bd_sectors d) _ bs) as [v|] eqn:Eb; [|done]. apply iwp_bind, iwp_set.
  destruct (open_with s1 bs v Hd1 Hbs Eb) as [Hi0 Hopen]. cbn [dev clk s1] in *.
  eapply iwp_mono; [exact Hopen|..].
  - intros [] t ([Hit Est] & Hsect & Hh). exists v. split; [done|]. split; [done|].
    split; [rewrite Est; unfold static; cbn [vol dev clk]; by rewrite E1, E2|]. split; [intros i; by rewrite Hsect|].
    intros Hrel. rewrite (Hh Hrel), Hs1. done.
  - intros rc t (-> & Hsect & Hm). split; [done|]. split; [intros i; by rewrite Hsect|].
    intros v' [= <-]. rewrite <- Hs1. done.
Qed.

(** C30: Whatever bytes a disk holds, mounting it changes nothing on it, and either fails
    with VFS_EINVAL or yields a volume the rest of the filesystem is safe on: the table and
    every sector of every cluster lie on the disk, apart from each other, none of the
    32-bit sector computations wraps, and the root directory is a cluster of the volume. *)
Theorem mount_is_safe s :
  device_ok (dev s) ->
  match fat_volume_open s with
  | (inr _, t) =>
      inv t /\ (forall i, sec t i = sec s i) /\ valid t (root_clus (vol t)) /\
      (forall c k, valid t c -> 0 <= k < sec_per_clus (vol t) ->
         data_start (vol t) <= dsec t c k < bd_sectors (dev t) /\
         fat_clus_sector (vol t) c + k = dsec t c k) /\
      (forall c, valid t c -> reserved_sec (vol t) <= entry_sec (vol t) c < reserved_sec (vol t) + fat_sectors (vol t))
  | (inl rc, t) => rc = VFS_EINVAL /\ forall i, sec t i = sec s i
  end.
Proof.
  intros Hd. pose proof (open_spec s Hd) as Ho. unfold iwp in Ho.
  destruct (fat_volume_open s) as [[rc|[]] t]; [by destruct Ho as (-> & ? & _)|].
  destruct Ho as (v & _ & Hit & _ & Hsec & _). split; [done|]. split; [done|].
  split; [apply (i_geometry _ Hit)|]. pose proof (geo_bounds t Hit). split.
  - intros c k Hv Hk. destruct (dsec_range t c k Hit Hv Hk) as (-> & ? & ? & ? & ?). unfold dsec in *. lia.
  - intros c Hv. destruct (entry_place t c Hit Hv) as (-> & _ & ?). lia.
Qed.

End Open.

Lemma mount_is_safe_witness :
  exists t, fat_volume_open (Vst blank_vol (dev demo_volume) demo_clock) = (inr tt, t) /\ inv t.
Proof.
  pose proof (mount_is_safe (Vst blank_vol (dev demo_volume) demo_clock)) as H.
  assert (E : fst (fat_volume_open (Vst blank_vol (dev demo_volume) demo_clock)) = inr tt) by (vm_compute; reflexivity).
  destruct (fat_volume_open _) as [r t]. cbn [fst] in E. subst r. exists t. split; [reflexivity|].
  apply H. split; vm_compute; discriminate.
Defined.
