(* ===== verification/FatFormat.v ===== *)
(** fs/fat/fat_vol.c: mkfs. A disk that was formatted mounts, and the volume is empty. *)

From S2P Require Import Prelude Bytes Vfs Rtc Block FatVol FatMount FatFile.
From S2P Require Import FatDisk FatChain FatRw FatEntry FatSpec FatOpen RamDisk FatDemo.

(** *** The boot sector *)

(** Four bytes stored as fat_wr32 stores them, two as fat_wr16 does. *)
Lemma rd32_stored b i x : 0 <= x < 2 ^ 32 ->
  (at_ b i, at_ b (i + 1), at_ b (i + 2), at_ b (i + 3)) =
  (let q := fat_wr32 0 x [0; 0; 0; 0] in (at_ q 0, at_ q 1, at_ q 2, at_ q 3)) -> fat_rd32 b i = x.
Proof.
  intros Hx [=E0 E1 E2 E3]. transitivity (fat_rd32 (fat_wr32 0 x [0; 0; 0; 0]) 0).
  - unfold fat_rd32. by rewrite E0, E1, E2, E3.
  - apply rd32_wr32; [by repeat apply Forall_cons_2; try apply Forall_nil_2|lia|done|done].
Qed.

(** The geometry a formatted disk of [total] sectors gets. *)
Definition layout (total fatsz spc clus : Z) : fat_vol :=
  FatVol spc (spc * SECTOR) 32 2 fatsz total (32 + 2 * fatsz) clus 2 1 2 false 0 false (replicate 512 0).

Lemma length_label l : length (label_field l) = 11%nat.
Proof. unfold label_field. rewrite length_app, length_map, length_replicate, length_take. lia. Qed.

Lemma boot_sector_fields total fatsz spc ms label :
  0 <= total < 2 ^ 32 -> 0 <= fatsz < 2 ^ 32 ->
  let b := boot_sector total fatsz spc ms label in
  fat_rd16 b 510 = 0xAA55 /\ fat_rd16 b BPB_BytsPerSec = SECTOR /\ at_ b BPB_SecPerClus = spc /\
  fat_rd16 b BPB_RsvdSecCnt = 32 /\ at_ b BPB_NumFATs = 2 /\ fat_rd16 b BPB_RootEntCnt = 0 /\
  fat_rd16 b BPB_TotSec16 = 0 /\ fat_rd16 b BPB_FATSz16 = 0 /\ fat_rd32 b BPB_TotSec32 = total /\
  fat_rd32 b BPB_FATSz32 = fatsz /\ fat_rd16 b BPB_FSVer = 0 /\ fat_rd32 b BPB_RootClus = 2 /\
  fat_rd16 b BPB_FSInfo = 1.
Proof.
  intros Ht Hf b. pose proof (length_label label) as Hl. unfold b, boot_sector. clear b.
  destruct (label_field label) as [|l0 [|l1 [|l2 [|l3 [|l4 [|l5 [|l6 [|l7 [|l8 [|l9 [|l10 [|]]]]]]]]]]]]; try discriminate Hl.
  repeat split; try (apply rd32_stored; [done|]); reflexivity.
Qed.

(** *** The size of the table *)

Lemma choose_spc_cases total : choose_spc total ∈ [1; 8; 16; 32; 64].
Proof. unfold choose_spc. repeat (destruct (_ <=? _)); repeat (left || right). Qed.

(** The table describes the clusters that are left, and fits. *)
Record solved (total spc fatsz clus : Z) : Prop := {
  so_fatsz : 1 <= fatsz;
  so_clus : clus = (total - 32 - 2 * fatsz) / spc;
  so_enough : clus + 2 <= fatsz * 128;
  so_two : 2 <= clus;
  so_fits : 32 + 2 * fatsz < total }.

Lemma table_size clus : 0 <= clus < 2 ^ 28 ->
  let need := wrap32 (wrap32 (clus + 2) * 4 + SECTOR - 1) / SECTOR in
  clus + 2 <= need * 128 /\ (need - 1) * 128 < clus + 2.
Proof.
  intros Hc need. unfold need, SECTOR. rewrite (wrap_small 32 (clus + 2)), wrap_small by lia.
  pose proof (Z.div_mod ((clus + 2) * 4 + 512 - 1) 512). pose proof (Z.mod_pos_bound ((clus + 2) * 4 + 512 - 1) 512). lia.
Qed.

(** One round of the loop from [fatsz] on. *)
Lemma solve_step g avail spc fatsz clus :
  0 < spc -> 0 < fatsz < 2 ^ 28 -> 2 * fatsz < avail -> avail < 2 ^ 28 ->
  let clus' := (avail - 2 * fatsz) / spc in
  let need := wrap32 (wrap32 (clus' + 2) * 4 + SECTOR - 1) / SECTOR in
  0 <= clus' < 2 ^ 28 /\
  solve_fatsz (S g) avail 2 spc fatsz clus =
  if need <=? fatsz then (fatsz, clus') else solve_fatsz g avail 2 spc need clus'.
Proof.
  intros Hs Hf Ha H28 clus' need. split.
  - unfold clus'. split; [apply Z.div_pos; lia|apply Z.div_lt_upper_bound; nia].
  - cbn [solve_fatsz]. rewrite (wrap_small 32 (2 * fatsz)) by lia. rewrite (proj2 (Z.leb_gt _ _)) by lia. done.
Qed.

Lemma solve_fatsz_ok total :
  36 < total < 2 ^ 28 -> 34 + choose_spc total * 2 < total ->
  exists fatsz clus, solve_fatsz 64 (total - 32) 2 (choose_spc total) 1 0 = (fatsz, clus) /\
                     solved total (choose_spc total) fatsz clus.
Proof.
  intros Ht Hbig. assert (Hspc : 1 <= choose_spc total <= 64).
  { unfold choose_spc. repeat (destruct (_ <=? _)); lia. }
  set (spc := choose_spc total) in *. clearbody spc.
  destruct (solve_step 63 (total - 32) spc 1 0) as [Hc0 ->]; [lia..|].
  assert (E34 : total - 32 - 2 * 1 = total - 34) by lia. rewrite E34 in *.
  pose proof (Z.div_mod (total - 34) spc ltac:(lia)) as Hd0. pose proof (Z.mod_pos_bound (total - 34) spc ltac:(lia)).
  set (c0 := (total - 34) / spc) in *.
  destruct (table_size c0 Hc0) as [Hn1 Hn2]. set (need := wrap32 _ / SECTOR) in *. clearbody need.
  assert (2 <= c0) by nia.
  destruct (Z.leb_spec need 1).
  { exists 1, c0. split; [done|]. split; [lia|unfold c0; f_equal; lia|lia|lia|lia]. }
  assert (c0 - 2 <= spc * (c0 - 2)) by nia. assert (Hfit : 2 * need + 2 * spc <= total - 32) by lia.
  destruct (solve_step 62 (total - 32) spc need c0) as [Hc1 ->]; [lia..|].
  set (c1 := (total - 32 - 2 * need) / spc) in *. pose proof (Z.div_mod (total - 32 - 2 * need) spc ltac:(lia)) as Hd1.
  pose proof (Z.mod_pos_bound (total - 32 - 2 * need) spc ltac:(lia)). fold c1 in Hd1.
  assert (c1 <= c0) by nia. destruct (table_size c1 Hc1) as [Hm1 Hm2]. set (need1 := wrap32 _ / SECTOR) in *. clearbody need1.
  rewrite (proj2 (Z.leb_le need1 need)) by lia. exists need, c1. split; [done|].
  split; [lia|done|lia|nia|lia].
Qed.

Lemma boot_sector_accepted sectors total fatsz clus ms label :
  36 < total < 2 ^ 28 -> total <= sectors -> solved total (choose_spc total) fatsz clus ->
  check_bpb sectors false (boot_sector total fatsz (choose_spc total) ms label) =
  Some (layout total fatsz (choose_spc total) clus).
Proof.
  intros Ht Hsec [Hf Hc He H2 Hfit]. pose proof (choose_spc_cases total) as Hspc.
  set (spc := choose_spc total) in *. clearbody spc.
  destruct (boot_sector_fields total fatsz spc ms label) as
    (E1 & E2 & E3 & E4 & E5 & E6 & E7 & E8 & E9 & E10 & E11 & E12 & E13); [lia|lia|].
  unfold check_bpb. rewrite E1, E2, E3, E4, E5, E6, E7, E8, E9, E10, E11, E12, E13. clear E1 E2 E3 E4 E5 E6 E7 E8 E9 E10 E11 E12 E13.
  cbn [Z.eqb Pos.eqb negb]. rewrite Z.eqb_refl. cbn [negb orb].
  assert (Hs : (spc =? 0) || negb (Z.land spc (spc - 1) =? 0) || (128 <? spc) = false /\ 1 <= spc).
  { repeat (apply elem_of_cons in Hspc as [->|Hspc]; [by split; [|lia]|]). by apply elem_of_nil in Hspc. }
  destruct Hs as [-> Hs1]. cbn [Z.ltb Z.compare Pos.compare Pos.compare_cont orb].
  rewrite (proj2 (Z.eqb_neq fatsz 0)), (proj2 (Z.eqb_neq total 0)), (proj2 (Z.ltb_ge sectors total)) by lia.
  assert (Hdiv : 2 <= (4294967295 - 32) / fatsz) by (apply Z.div_le_lower_bound; lia).
  rewrite (proj2 (Z.ltb_ge _ 2)) by done. rewrite (wrap_small 32 (32 + 2 * fatsz)) by lia.
  rewrite (proj2 (Z.leb_gt total _)) by lia. replace (total - (32 + 2 * fatsz)) with (total - 32 - 2 * fatsz) by lia.
  rewrite <- Hc. rewrite (proj2 (Z.ltb_ge clus 1)) by lia.
  assert (clus < 2 ^ 28) by (rewrite Hc; apply Z.div_lt_upper_bound; nia).
  rewrite (wrap_small 32 (clus + 2)) by lia. rewrite (proj2 (Z.leb_gt _ 2)) by lia.
  change (SECTOR / 4) with 128. rewrite (proj2 (Z.ltb_ge _ (clus + 2))) by lia. done.
Qed.

Section Format.
Context {D : Type} `{DiskLaws D}.
Implicit Types (bd : block_device D) (t : vst D).

(** [b] is the device [a] with [f] written to it. *)
Definition put_secs (f : Z -> option bytes) a b : Prop :=
  bd_sectors b = bd_sectors a /\ bd_read_only b = bd_read_only a /\ capacity (bd_drv b) = capacity (bd_drv a) /\
  forall i, sector (bd_drv b) i = default (sector (bd_drv a) i) (f i).

Definition one_sec (lba : Z) (buf : bytes) (i : Z) : option bytes := if i =? lba then Some buf else None.
Definition zero_secs (from to i : Z) : option bytes :=
  if (from <=? i) && (i <? to) then Some zero_sector else None.
(** [g] after [f]. *)
Definition then_secs (f g : Z -> option bytes) (i : Z) : option bytes :=
  match g i with Some b => Some b | None => f i end.

Lemma put_secs_trans f g a b c : put_secs f a b -> put_secs g b c -> put_secs (then_secs f g) a c.
Proof.
  intros (A1 & A2 & A3 & A4) (B1 & B2 & B3 & B4). repeat split; try congruence. intros i.
  rewrite B4, A4. unfold then_secs. by destruct (g i).
Qed.

(** What a formatting step needs of the device. *)
Definition writable bd : Prop := bd_read_only bd = false /\ bd_sectors bd <= capacity (bd_drv bd).
Lemma put_secs_writable f a b : put_secs f a b -> writable a -> writable b /\ bd_sectors b = bd_sectors a.
Proof. intros (A1 & A2 & A3 & _) [? ?]. unfold writable. rewrite A1, A2, A3. done. Qed.

Lemma write_one_spec bd lba buf :
  writable bd -> 0 <= lba < bd_sectors bd -> zlen buf = SECTOR -> Forall byte_ok buf ->
  iwp (block_write lba 1 buf) bd (fun _ b => put_secs (one_sec lba buf) bd b) (fun _ _ => ~ reliable D).
Proof.
  intros [Hro Hcap] Hl Hz Hb. eapply iwp_mono; [apply (block_write_spec lba 1); [lia|lia|done|lia|done]|..].
  - intros [] b (E1 & E2 & E3 & Hout & Hin). do 3 (split; [done|]). intros i. unfold one_sec.
    destruct (Z.eqb_spec i lba) as [->|]; [|apply Hout; lia].
    destruct (Hin 0 ltac:(lia)) as [E|[E _]]; [|by destruct E]. rewrite Z.add_0_r, chunk_0 in E by done. done.
  - intros rc b [_ Hn]. apply Hn; [lia|done].
Qed.

Lemma chunk_zeros n k : 0 <= k < n -> chunk (replicate (Z.to_nat (n * SECTOR)) 0) k = zero_sector.
Proof.
  intros Hk. unfold chunk, zero_sector, SECTOR. rewrite drop_replicate, take_replicate. f_equal. lia.
Qed.

Lemma wipe_spec fuel : forall bd (s to : Z),
  writable bd -> 0 <= s -> to <= bd_sectors bd -> to - s <= Z.of_nat fuel ->
  iwp (wipe fuel s to) bd (fun _ b => put_secs (zero_secs s to) bd b) (fun _ _ => ~ reliable D).
Proof.
  assert (Hnone : forall bd (s to : Z), to <= s -> put_secs (zero_secs s to) bd bd).
  { intros bd s to Hle. do 3 (split; [done|]). intros i. unfold zero_secs. by rewrite range_out by lia. }
  induction fuel as [|k IH]; intros bd s to [Hro Hcap] Hs Hto Hf; cbn [wipe]; [apply iwp_ret, Hnone; lia|].
  destruct (Z.leb_spec to s); [by apply iwp_ret, Hnone|].
  set (n := if 64 <? to - s then 64 else to - s).
  assert (Hn : 0 < n <= to - s /\ n <= 64 /\ (s + n = to \/ n = 64)) by (unfold n; destruct (Z.ltb_spec 64 (to - s)); lia).
  clearbody n. assert (Hz : zlen (replicate (Z.to_nat (n * SECTOR)) 0) = n * SECTOR).
  { unfold zlen, SECTOR. rewrite length_replicate. lia. }
  eapply iwp_seq; [apply (block_write_spec s n); [lia|lia|done|done|by apply Forall_replicate]|..].
  2: { intros rc b [_ Hnr]. apply Hnr; [lia|done]. }
  intros [] b (E1 & E2 & E3 & Hout & Hin).
  assert (Hb : put_secs (zero_secs s (s + n)) bd b).
  { do 3 (split; [done|]). intros i. unfold zero_secs. destruct (_ && _) eqn:E; b2p.
    - destruct (Hin (i - s) ltac:(lia)) as [Ei|[Ei _]]; [|by destruct Ei].
      rewrite chunk_zeros in Ei by lia. by replace (s + (i - s)) with i in Ei by lia.
    - apply Hout. destruct E; b2p; lia. }
  destruct (put_secs_writable _ _ _ Hb ltac:(by split)) as [Hwb Esb].
  eapply iwp_mono; [apply (IH b (s + 64) to); [done|lia|lia|lia]|..]; [|done].
  intros [] c Hc. pose proof (put_secs_trans _ _ _ _ _ Hb Hc) as (? & ? & ? & Hi). do 3 (split; [done|]).
  intros i. rewrite Hi. f_equal. unfold then_secs, zero_secs.
  destruct (Z.leb_spec (s + 64) i), (Z.ltb_spec i to), (Z.leb_spec s i), (Z.ltb_spec i (s + n)); cbn; done || lia.
Qed.

Lemma then_write f bd b lba buf (k : io (block_device D) unit) Q :
  writable bd -> put_secs f bd b -> 0 <= lba < bd_sectors bd -> zlen buf = SECTOR -> Forall byte_ok buf ->
  (forall c, put_secs (then_secs f (one_sec lba buf)) bd c -> iwp k c Q (fun _ _ => ~ reliable D)) ->
  iwp (block_write lba 1 buf ;;; k) b Q (fun _ _ => ~ reliable D).
Proof.
  intros Hw Hp Hl Hz Hb Hk. destruct (put_secs_writable _ _ _ Hp Hw) as [Hwb Es].
  eapply iwp_seq; [apply (write_one_spec b); [done|lia|done|done]|..]; [|done].
  intros [] c Hc. apply Hk. by eapply put_secs_trans.
Qed.

(** A formatted disk, sector by sector. *)
Definition image (fatsz spc : Z) (boot lab : bytes) (i : Z) : option bytes :=
  if i =? 32 + 2 * fatsz then Some lab
  else if (i =? 32) || (i =? 32 + fatsz) then Some first_fat_sector
  else if (i =? 1) || (i =? 7) then Some fsinfo_sector
  else if (i =? 0) || (i =? 6) then Some boot
  else if (0 <=? i) && (i <? 32 + 2 * fatsz + spc) then Some zero_sector else None.

Lemma put_secs_ext f g a b : (forall i, f i = g i) -> put_secs f a b -> put_secs g a b.
Proof. intros Hfg (A1 & A2 & A3 & A4). do 3 (split; [done|]). intros i. by rewrite A4, Hfg. Qed.

Lemma format_steps bd fatsz spc boot lab :
  writable bd -> 1 <= fatsz -> 0 < spc -> 32 + 2 * fatsz + spc <= bd_sectors bd ->
  zlen boot = SECTOR -> Forall byte_ok boot -> zlen lab = SECTOR -> Forall byte_ok lab ->
  let data_start := 32 + 2 * fatsz in
  iwp (wipe (Z.to_nat data_start) 0 data_start ;;;
       wipe (Z.to_nat spc) data_start (data_start + spc) ;;;
       block_write 0 1 boot ;;; block_write 6 1 boot ;;;
       block_write 1 1 fsinfo_sector ;;; block_write 7 1 fsinfo_sector ;;;
       block_write 32 1 first_fat_sector ;;; block_write (32 + fatsz) 1 first_fat_sector ;;;
       block_write data_start 1 lab ;;; block_flush) bd
    (fun _ b => put_secs (image fatsz spc boot lab) bd b) (fun _ _ => ~ reliable D).
Proof.
  intros Hw Hf Hs Hfit Hzb Hbb Hzl Hbl ds.
  assert (Hfs : zlen fsinfo_sector = SECTOR /\ Forall byte_ok fsinfo_sector).
  { unfold fsinfo_sector. split; [by field_len|]. repeat apply wr32_bytes. by apply Forall_replicate. }
  assert (Hft : zlen first_fat_sector = SECTOR /\ Forall byte_ok first_fat_sector).
  { unfold first_fat_sector. split; [by field_len|]. repeat apply wr32_bytes. by apply Forall_replicate. }
  destruct Hfs as [Hfs1 Hfs2], Hft as [Hft1 Hft2].
  eapply iwp_seq; [apply wipe_spec; [done|lia|unfold ds; lia|unfold ds; lia]|..]; [|done].
  intros [] b1 H1. destruct (put_secs_writable _ _ _ H1 Hw) as [Hw1 Es1].
  eapply iwp_seq; [apply wipe_spec; [done|unfold ds; lia|unfold ds; lia|lia]|..]; [|done].
  intros [] b2 H2. pose proof (put_secs_trans _ _ _ _ _ H1 H2) as H3.
  do 7 (eapply (then_write _ bd); [done|eassumption|unfold ds; lia|done|done|];
        match goal with |- forall c, _ => let c := fresh "c" in let Hc := fresh "Hc" in intros c Hc end).
  eapply iwp_mono; [apply block_flush_spec|..]; [|by intros ?? []].
  intros [] e (E1 & E2 & E3 & E4).
  match type of E1 with _ = bd_sectors ?c =>
    match goal with H : put_secs _ bd c |- _ => destruct H as (A1 & A2 & A3 & A4) end end.
  do 3 (split; [congruence|]). intros i. rewrite E4, A4. f_equal. unfold then_secs, one_sec, zero_secs, image. fold ds.
  destruct (i =? ds); [done|]. destruct (Z.eqb_spec i (32 + fatsz)); [by rewrite orb_true_r|].
  rewrite orb_false_r. destruct (i =? 32); [done|]. destruct (i =? 7); [by rewrite orb_true_r|].
  rewrite orb_false_r. destruct (i =? 1); [done|]. destruct (i =? 6); [by rewrite orb_true_r|]. rewrite orb_false_r.
  destruct (i =? 0); [done|].
  destruct (Z.leb_spec ds i), (Z.ltb_spec i (ds + spc)), (Z.leb_spec 0 i), (Z.ltb_spec i ds); cbn; reflexivity || lia.
Qed.

(** A sector's worth of bytes. *)
Definition sector_ok (b : bytes) : Prop := zlen b = SECTOR /\ Forall byte_ok b.

Lemma wr16_ok i x b : sector_ok b -> sector_ok (fat_wr16 i x b).
Proof. intros [Hz Hb]. split; [by rewrite zlen_wr16|by apply wr16_bytes]. Qed.
Lemma wr32_ok i x b : sector_ok b -> sector_ok (fat_wr32 i x b).
Proof. intros [Hz Hb]. split; [by rewrite zlen_wr32|by apply wr32_bytes]. Qed.
Lemma put8_ok i x b : byte_ok x -> sector_ok b -> sector_ok (put8 i x b).
Proof. intros Hx [Hz Hb]. split; [by rewrite zlen_put8|by apply put8_bytes]. Qed.
Lemma put_bytes_ok i p b :
  0 <= i -> i + zlen p <= SECTOR -> Forall byte_ok p -> sector_ok b -> sector_ok (put_bytes i p b).
Proof.
  intros Hi Hl Hp [Hz Hb]. split; [unfold put_bytes; rewrite zlen_patch; lia|].
  unfold put_bytes, patch. apply Forall_app_2; [by apply Forall_take|]. apply Forall_app_2; [done|by apply Forall_drop].
Qed.
Lemma label_field_ok l : Forall byte_ok l -> zlen (label_field l) = 11 /\ Forall byte_ok (label_field l).
Proof.
  intros Hl. split; [unfold zlen; by rewrite length_label|]. unfold label_field. apply Forall_app_2.
  - apply Forall_map. apply List.Forall_forall. intros x Hx.
    assert (Hb : byte_ok x) by (pose proof (Forall_take byte_ok 11 l Hl) as Ht; rewrite List.Forall_forall in Ht; by apply Ht).
    unfold up_char, byte_ok in *. destruct (_ && _) eqn:E; b2p; lia.
  - by apply Forall_replicate.
Qed.
Lemma zero_ok : sector_ok zero_sector.
Proof. split; [done|by apply Forall_replicate]. Qed.

Lemma boot_sector_ok total fatsz spc ms label :
  Forall byte_ok label -> byte_ok spc -> sector_ok (boot_sector total fatsz spc ms label).
Proof.
  intros Hl Hs. destruct (label_field_ok label Hl) as [Hz Hb]. unfold boot_sector.
  repeat first [apply wr16_ok | apply wr32_ok | apply put8_ok; [done|] | apply put_bytes_ok; [done|..]];
    try apply zero_ok; try done; try (by repeat apply Forall_cons_2; try apply Forall_nil_2).
  rewrite Hz. done.
Qed.

Lemma label_sector_ok c label : Forall byte_ok label -> sector_ok (label_sector c label).
Proof.
  intros Hl. destruct (label_field_ok label Hl) as [Hz Hb]. unfold label_sector. destruct (fat_now c) as [d t].
  apply wr16_ok, wr16_ok, put8_ok; [done|]. apply put_bytes_ok; [done|by rewrite Hz|done|apply zero_ok].
Qed.

(** Why a format fails: with a disk that works, only on a read-only or tiny disk or
    without memory. *)
Definition format_refused (mem : bool) bd (rc : Z) : Prop :=
  (rc = VFS_ENOSPC /\ mem = false) \/
  (rc = VFS_EINVAL /\ (reliable D -> bd_read_only bd = true \/ bd_sectors bd <= 36)).

(** mkfs writes the image, and refuses only a disk that is read-only or too small. *)
Lemma format_spec mem c label bd :
  bd_sectors bd <= capacity (bd_drv bd) -> 0 <= bd_sectors bd < 2 ^ 28 -> Forall byte_ok (default (lit "FABLEOS") label) ->
  let total := bd_sectors bd in
  iwp (fat32_format mem c label) bd
    (fun _ b => exists fatsz clus, solved total (choose_spc total) fatsz clus /\ 36 < total /\ bd_read_only bd = false /\
       put_secs (image fatsz (choose_spc total)
                   (boot_sector total fatsz (choose_spc total) (now_ms c) (default (lit "FABLEOS") label))
                   (label_sector c (default (lit "FABLEOS") label))) bd b)
    (fun rc b => format_refused mem bd rc).
Proof.
  intros Hcap H28 Hlab total. unfold fat32_format. apply iwp_bind, iwp_get. unfold id. cbn zeta.
  set (lb := default (lit "FABLEOS") label) in *. fold total in H28, Hcap |- *.
  destruct (bd_read_only bd) eqn:Ero; [apply iwp_fail; right; auto|].
  rewrite (proj2 (Z.ltb_ge 268435455 total)) by lia.
  assert (Hspc : byte_ok (choose_spc total) /\ 1 <= choose_spc total /\ (total <= 36 + 2 * (choose_spc total - 1) -> total <= 36)).
  { unfold choose_spc, byte_ok. pose proof (Z.div_mod total 2048). pose proof (Z.mod_pos_bound total 2048).
    repeat match goal with |- context [?a <=? ?b] => destruct (Z.leb_spec a b) end; lia. }
  destruct Hspc as (Hsb & Hs1 & Hsmall).
  destruct (Z.leb_spec total (32 + 2 + choose_spc total * 2)); [apply iwp_fail; right; split; [done|]; intros _; right; lia|].
  destruct (solve_fatsz_ok total) as (fatsz & clus & -> & Hso); [lia|lia|]. pose proof Hso as [Hf Hc He H2 Hfit].
  rewrite (proj2 (Z.ltb_ge clus 2)) by lia. destruct mem; cbn [negb]; [|apply iwp_fail; by left].
  destruct (boot_sector_ok total fatsz (choose_spc total) (now_ms c) lb Hlab Hsb) as [Hb1 Hb2].
  destruct (label_sector_ok c lb Hlab) as [Hl1 Hl2].
  assert (Hend : 32 + 2 * fatsz + choose_spc total <= total).
  { pose proof (Z.mul_div_le (total - 32 - 2 * fatsz) (choose_spc total) ltac:(lia)). rewrite <- Hc in *. nia. }
  pose proof (format_steps bd fatsz (choose_spc total) _ _ ltac:(by split) Hf ltac:(lia) Hend Hb1 Hb2 Hl1 Hl2) as Hst.
  unfold iwp, or_einval in *. destruct ((wipe _ _ _ ;;; _) bd) as [[rc|[]] b].
  - right. split; [done|]. by intros ?.
  - exists fatsz, clus. split; [done|]. split; [lia|]. done.
Qed.

(** Entries of a fresh table. *)
Lemma first_fat_entries x : 2 <= x < 128 ->
  Z.land (fat_rd32 first_fat_sector (4 * x)) FAT_MASK = if x =? 2 then FAT_EOC_WRITE else FAT_FREE.
Proof.
  intros Hx.
  assert (Hall : forallb (fun n => let x := Z.of_nat n in
    Z.land (fat_rd32 first_fat_sector (4 * x)) FAT_MASK =? if x =? 2 then FAT_EOC_WRITE else FAT_FREE) (seq 2 126) = true)
    by (vm_compute; reflexivity).
  rewrite forallb_forall in Hall. specialize (Hall (Z.to_nat x)). rewrite Z2Nat.id in Hall by lia.
  apply Z.eqb_eq, Hall, in_seq. lia.
Qed.

Lemma zero_entry i : 0 <= i -> Z.land (fat_rd32 zero_sector i) FAT_MASK = FAT_FREE.
Proof.
  intros Hi. assert (Hz : forall j, at_ zero_sector j = 0) by (intros j; apply (nth_zeros 512)).
  unfold fat_rd32. by rewrite !Hz.
Qed.

(** The sectors of an image that mounting and the table use. *)
Lemma image_sectors fatsz spc boot lab i : 1 <= fatsz -> 0 < spc ->
  image fatsz spc boot lab 0 = Some boot /\ image fatsz spc boot lab 1 = Some fsinfo_sector /\
  (0 <= i < fatsz -> image fatsz spc boot lab (32 + i) = Some (if i =? 0 then first_fat_sector else zero_sector) /\
     image fatsz spc boot lab (32 + fatsz + i) = Some (if i =? 0 then first_fat_sector else zero_sector)) /\
  (0 <= i < spc -> image fatsz spc boot lab (32 + 2 * fatsz + i) = Some (if i =? 0 then lab else zero_sector)).
Proof.
  intros Hf Hs. unfold image. split; [|split; [|split]].
  - rewrite !(proj2 (Z.eqb_neq 0 _)) by lia. done.
  - rewrite !(proj2 (Z.eqb_neq 1 _)) by lia. done.
  - intros Hi. rewrite (proj2 (Z.eqb_neq (32 + i) (32 + 2 * fatsz))) by lia.
    rewrite (proj2 (Z.eqb_neq (32 + fatsz + i) (32 + 2 * fatsz))) by lia.
    destruct (Z.eqb_spec i 0) as [->|Hn].
    + rewrite !Z.add_0_r, !Z.eqb_refl, orb_true_r. done.
    + rewrite !(proj2 (Z.eqb_neq (32 + i) _)), !(proj2 (Z.eqb_neq (32 + fatsz + i) _)) by lia. cbn [orb].
      rewrite !range_in by lia. done.
  - intros Hi. destruct (Z.eqb_spec i 0) as [->|Hn]; [by rewrite Z.add_0_r, Z.eqb_refl|].
    rewrite !(proj2 (Z.eqb_neq (32 + 2 * fatsz + i) _)) by lia. cbn [orb]. by rewrite range_in by lia.
Qed.

(** A freshly formatted volume: only the root directory is in use, it holds the label
    and nothing else, and the two tables agree. *)
Record fresh_volume (total : Z) t : Prop := {
  fr_inv : inv t;
  fr_size : total_sectors (vol t) = total /\ sec_per_clus (vol t) = choose_spc total /\ 2 <= clusters (vol t);
  fr_waste : total - sec_per_clus (vol t) < data_start (vol t) + clusters (vol t) * sec_per_clus (vol t);
  fr_root : root_clus (vol t) = 2 /\ chain t [2];
  fr_free : forall c, valid t c -> c <> 2 -> entry t c = FAT_FREE;
  fr_dir : forall j, 32 <= j < room t [2] -> fbyte t [2] j = 0;
  fr_tables : num_fats (vol t) = 2 /\ forall i, 0 <= i < fat_sectors (vol t) ->
    sec t (reserved_sec (vol t) + fat_sectors (vol t) + i) = sec t (reserved_sec (vol t) + i) }.

Lemma mounted_fresh total fatsz clus boot lab t bd :
  solved total (choose_spc total) fatsz clus -> 36 < total < 2 ^ 28 -> inv t ->
  static t = static (Vst (layout total fatsz (choose_spc total) clus) bd (clk t)) ->
  (forall i b, image fatsz (choose_spc total) boot lab i = Some b -> sec t i = b) ->
  zlen lab = SECTOR -> (forall j, 32 <= j -> at_ lab j = 0) ->
  fresh_volume total t.
Proof.
  intros [Hf Hc He H2 Hfit] Ht Hi Est Himg Hlz Hl0.
  pose proof (static_vol _ _ Est) as (Espc&Ebpc&Er&En&Efs&Etot&Eds&Ecl&Ero&_). cbn [vol layout sec_per_clus bytes_per_clus
    reserved_sec num_fats fat_sectors total_sectors data_start clusters root_clus] in *.
  pose proof (g_spc _ (i_geometry _ Hi)) as Hspc. rewrite Espc in Hspc. set (spc := choose_spc total) in *.
  assert (Hent : forall c, valid t c -> entry t c = if c =? 2 then FAT_EOC_WRITE else FAT_FREE).
  { intros c Hv. destruct (entry_place t c Hi Hv) as (_ & _ & Hq & _ & _ & Eo). unfold entry. rewrite Er, Eo.
    rewrite Efs in Hq. destruct (image_sectors fatsz spc boot lab (c * 4 / SECTOR) Hf ltac:(lia)) as (_ & _ & Hi' & _).
    destruct (Hi' Hq) as [E1 _]. rewrite (Himg _ _ E1). unfold valid in Hv.
    assert (Eq : c * 4 / SECTOR = c / 128) by (unfold SECTOR; change 512 with (128 * 4); by rewrite Z.div_mul_cancel_r by lia).
    rewrite Eq. pose proof (Z.div_mod c 128 ltac:(lia)). pose proof (Z.mod_pos_bound c 128 ltac:(lia)).
    destruct (Z.eqb_spec (c / 128) 0) as [E0|E0].
    - assert (Em : c mod 128 = c) by lia. rewrite Em. apply first_fat_entries. lia.
    - rewrite zero_entry by lia. rewrite (proj2 (Z.eqb_neq c 2)); [done|]. intros ->. by apply E0. }
  assert (Hv2 : valid t 2) by (unfold valid; lia).
  split.
  - done.
  - lia.
  - rewrite Espc, Eds, Ecl. pose proof (Z.div_mod (total - 32 - 2 * fatsz) spc ltac:(lia)) as Hdm.
    pose proof (Z.mod_pos_bound (total - 32 - 2 * fatsz) spc ltac:(lia)). rewrite <- Hc in Hdm. lia.
  - split; [done|]. cbn [chain]. split; [done|]. split; [done|]. rewrite Hent by done. done.
  - intros c Hv Hn. rewrite Hent by done. by rewrite (proj2 (Z.eqb_neq _ _)).
  - intros j Hj. unfold room in Hj. cbn [length] in Hj. rewrite Ebpc in Hj. unfold SECTOR in Hj.
    assert (Hj' : 0 <= j < bytes_per_clus (vol t)) by (rewrite Ebpc; unfold SECTOR; lia).
    unfold fbyte. rewrite Z.div_small, Z.mod_small by done. change (nth (Z.to_nat 0) [2] 0) with 2.
    assert (Hk : 0 <= j / SECTOR < spc).
    { unfold SECTOR. split; [apply Z.div_pos; lia|apply Z.div_lt_upper_bound; lia]. }
    destruct (image_sectors fatsz spc boot lab (j / SECTOR) Hf ltac:(lia)) as (_ & _ & _ & Hi').
    unfold dsec. replace (data_start (vol t) + (2 - 2) * sec_per_clus (vol t) + j / SECTOR)
      with (32 + 2 * fatsz + j / SECTOR) by lia. rewrite (Himg _ _ (Hi' Hk)).
    destruct (Z.eqb_spec (j / SECTOR) 0) as [E0|]; [|apply (nth_zeros 512)].
    apply Hl0. unfold SECTOR in *. pose proof (Z.div_mod j 512). lia.
  - split; [done|]. intros i Hi'. rewrite Er, Efs in *.
    destruct (image_sectors fatsz spc boot lab i Hf ltac:(lia)) as (_ & _ & Hs' & _). destruct (Hs' Hi') as [E1 E2].
    by rewrite (Himg _ _ E1), (Himg _ _ E2).
Qed.

Lemma label_sector_rest c label j : 32 <= j -> at_ (label_sector c label) j = 0.
Proof.
  intros Hj. pose proof (length_label label) as Hl. unfold label_sector. destruct (fat_now c) as [d tm].
  assert (Hz : zlen (put_bytes 0 (label_field label) zero_sector) = SECTOR).
  { unfold put_bytes. rewrite zlen_patch; [done|lia|]. unfold zlen. by rewrite Hl. }
  rewrite at_wr16, at_wr16, at_put8 by (field_len; rewrite ?Hz; try unfold SECTOR; lia).
  rewrite !(proj2 (Z.eqb_neq j _)) by lia. unfold put_bytes, patch, at_. rewrite Hl.
  change (take (Z.to_nat 0) zero_sector) with (@nil Z). cbn [app]. rewrite app_nth2 by lia. rewrite nth_lookup, lookup_drop.
  rewrite <- nth_lookup. apply (nth_zeros 512).
Qed.


End Format.

