(* ===== verification/FatName.v ===== *)
(** fs/fat/fat_dir.c: names. UTF-8 and UCS-2, 8.3 names, the checksum that ties long-name
    records to their short entry. *)

From S2P Require Import Prelude Bytes Paths Vfs Rtc Block FatVol FatMount FatFile.

Definition LFN_CHARS : Z := 13.
Definition FAT_KANJI_E5 : Z := 0x05.
Definition DE_NTRES := 12.

(** *** Characters *)

(** The code point at [p], which is not at its end, and its length in bytes. *)
Definition utf8_unit (p : bytes) : option (Z * nat) :=
  let b0 := at_ p 0 in
  let b1 := at_ p 1 in
  let b2 := at_ p 2 in
  if b0 <? 0x80 then Some (b0, 1%nat)
  else if Z.land b0 0xE0 =? 0xC0 then
    if negb (Z.land b1 0xC0 =? 0x80) then None
    else
      let cp := Z.lor (Z.shiftl (Z.land b0 0x1F) 6) (Z.land b1 0x3F) in
      if cp <? 0x80 then None else Some (cp, 2%nat)
  else if Z.land b0 0xF0 =? 0xE0 then
    if negb (Z.land b1 0xC0 =? 0x80) || negb (Z.land b2 0xC0 =? 0x80) then None
    else
      let cp := Z.lor (Z.lor (Z.shiftl (Z.land b0 0x0F) 12) (Z.shiftl (Z.land b1 0x3F) 6))
                      (Z.land b2 0x3F) in
      if cp <? 0x800 then None
      else if (0xD800 <=? cp) && (cp <=? 0xDFFF) then None
      else Some (cp, 3%nat)
  else None.

(** To the terminating NUL; [room] is what is left of [cap]. *)
Fixpoint utf8_loop (fuel : nat) (p : bytes) (room : Z) : option (list Z) :=
  match fuel with
  | O => None
  | S k =>
      match p with
      | [] => Some []
      | _ =>
          match utf8_unit p with
          | None => None
          | Some (cp, n) =>
              if room <=? 0 then None
              else match utf8_loop k (drop n p) (room - 1) with
                   | None => None
                   | Some us => Some (cp :: us)
                   end
          end
      end
  end.

(** The code units, or [None] for -1. *)
Definition utf8_to_ucs2 (s : bytes) (cap : Z) : option (list Z) := utf8_loop (S (length s)) s cap.

(** [o] bytes are in [dst] already. *)
Fixpoint ucs2_loop (src : list Z) (o cap : Z) : option bytes :=
  match src with
  | [] => Some []
  | cp :: src =>
      if (0xD800 <=? cp) && (cp <=? 0xDFFF) then None
      else
        let u :=
          if cp <? 0x80 then [cp]
          else if cp <? 0x800 then [Z.lor 0xC0 (Z.shiftr cp 6); Z.lor 0x80 (Z.land cp 0x3F)]
          else [Z.lor 0xE0 (Z.shiftr cp 12); Z.lor 0x80 (Z.land (Z.shiftr cp 6) 0x3F);
                Z.lor 0x80 (Z.land cp 0x3F)] in
        if cap <=? o + zlen u then None
        else match ucs2_loop src (o + zlen u) cap with
             | None => None
             | Some r => Some (u ++ r)
             end
  end.

Definition ucs2_to_utf8 (src : list Z) (cap : Z) : option bytes := ucs2_loop src 0 cap.

Definition up (c : Z) : Z := if (ch "a" <=? c) && (c <=? ch "z") then c - 32 else c.

Fixpoint name_eq_ci (a b : bytes) : bool :=
  match a, b with
  | x :: a, y :: b => if up x =? up y then name_eq_ci a b else false
  | [], [] => true
  | _, _ => false
  end.

(** *** Short names *)

Definition sum_step (sum c : Z) : Z := wrap8 (Z.shiftl (Z.land sum 1) 7 + Z.shiftr sum 1 + c).
(** The eleven bytes at [name]. *)
Definition fat_short_checksum (name : bytes) : Z := fold_left sum_step (take 11 name) 0.

Definition lower_if (low : bool) (c : Z) : Z :=
  if low && (ch "A" <=? c) && (c <=? ch "Z") then c + 32 else c.

(** Up to the first space. *)
Fixpoint short_run (low : bool) (p : bytes) : bytes :=
  match p with
  | [] => []
  | c :: p => if c =? ch " " then [] else lower_if low c :: short_run low p
  end.

Definition short_to_string (e : bytes) : bytes :=
  let lower_base := negb (Z.land (at_ e DE_NTRES) 0x08 =? 0) in
  let lower_ext := negb (Z.land (at_ e DE_NTRES) 0x10 =? 0) in
  let base := take 8 e in
  let base := match base with
              | c :: b => (if c =? FAT_KANJI_E5 then FAT_DELETED else c) :: b
              | [] => [] end in
  short_run lower_base base ++
  (if at_ e 8 =? ch " " then [] else ch "." :: short_run lower_ext (take 3 (drop 8 e))).

Definition short_char_ok (c : Z) : bool :=
  ((ch "A" <=? c) && (c <=? ch "Z")) || ((ch "0" <=? c) && (c <=? ch "9")) ||
  existsb (fun x => x =? c) (lit "$%'-_@~`!(){}^#&").

(** Leading dots and spaces. *)
Fixpoint skip_dots (p : bytes) : bytes :=
  match p with
  | c :: p' => if (c =? ch ".") || (c =? ch " ") then skip_dots p' else p
  | [] => []
  end.

(** The last dot: what comes before it and what follows it. *)
Fixpoint last_dot (p : bytes) : option (bytes * bytes) :=
  match p with
  | [] => None
  | c :: p' =>
      match last_dot p' with
      | Some (b, e) => Some (c :: b, e)
      | None => if c =? ch "." then Some ([], p') else None
      end
  end.

(** One character of a short name, and whether it is not the one asked for. *)
Definition short_char (c : Z) : Z * bool :=
  let low := (ch "a" <=? c) && (c <=? ch "z") in
  let c := if low then up c else c in
  if short_char_ok c then (c, low) else (ch "_", true).

(** The first [cap] of the characters, and whether anything was lost. *)
Definition short_part (cap : nat) (p : bytes) : bytes * bool :=
  let cs := map short_char p in
  (take cap (map fst cs), existsb snd cs || (Z.of_nat cap <? zlen p)).

Definition pad_to (n : nat) (b : bytes) : bytes := b ++ replicate (n - length b) (ch " ").

(** The eleven bytes, and needs_lfn. *)
Definition short_name_build (name : bytes) : bytes * bool :=
  let p := skip_dots name in
  let lead := negb (zlen p =? zlen name) in
  let '(base, ext) := match last_dot p with Some (b, e) => (b, Some e) | None => (p, None) end in
  let dots := existsb (fun c => c =? ch ".") base ||
              match ext with Some [] => true | _ => false end in
  let '(b, lost) := short_part 8 base in
  let '(b, none) := match b with [] => ([ch "_"], true) | _ => (b, false) end in
  let '(e, elost) := match ext with Some x => short_part 3 x | None => ([], false) end in
  let out := pad_to 8 b ++ pad_to 3 e in
  let out := match out with
             | c :: r => (if c =? FAT_DELETED then FAT_KANJI_E5 else c) :: r
             | [] => [] end in
  (out, lead || dots || lost || none || elost).

(** A name a directory may hold. *)
Definition fat_name_ok (name : bytes) : bool :=
  let len := zlen name in
  if len =? 0 then false
  else if VFS_NAME_MAX <? len then false
  else if bool_decide (name = lit ".") || bool_decide (name = lit "..") then false
  else if (at_ name (len - 1) =? ch ".") || (at_ name (len - 1) =? ch " ") then false
  else if existsb (fun c => (c <? 0x20) || existsb (fun x => x =? c) (QUOTE :: lit "/\:*?<>|")) name then false
  else match utf8_to_ucs2 name (VFS_NAME_MAX + 1) with None => false | Some _ => true end.
