(* ===== verification/FatDir.v ===== *)
(** fs/fat/fat_dir.c: directories. Scanning entries and long-name records, finding a name,
    adding and removing entries. *)

From S2P Require Import Prelude Bytes Paths Vfs Rtc Block FatVol FatMount FatFile FatName.

Definition ENTS_PER_SECTOR : Z := 16.
Definition FAT_MAX_DIR_ENTRIES : Z := 65536.
Definition DE_CRT_TIME := 14.
Definition DE_CRT_DATE := 16.

Record fat_dirent := Dirent {
  d_name : bytes; d_index : Z; d_first_index : Z; d_clus : Z; d_size : Z; d_attr : Z; d_raw : bytes }.

(** A scan cursor: the entry to look at next, the cluster it is in, and the long name
    collected so far. *)
Record fat_dircur := Dircur {
  c_dir_clus : Z; c_index : Z; c_clus : Z; c_clus_index : Z;
  c_lfn : list Z; c_have : Z; c_count : Z; c_sum : Z; c_first : Z }.

Definition fat_dircur_init (dclus : Z) : fat_dircur :=
  Dircur dclus 0 0 0 (replicate 260 0) 0 0 0 0.

Definition set_place (index clus pos : Z) (c : fat_dircur) : fat_dircur :=
  Dircur (c_dir_clus c) index clus pos (c_lfn c) (c_have c) (c_count c) (c_sum c) (c_first c).
Definition lfn_reset (c : fat_dircur) : fat_dircur :=
  Dircur (c_dir_clus c) (c_index c) (c_clus c) (c_clus_index c) (c_lfn c) 0 0 0 0.
Definition set_lfn (l : list Z) (have count sum first : Z) (c : fat_dircur) : fat_dircur :=
  Dircur (c_dir_clus c) (c_index c) (c_clus c) (c_clus_index c) l have count sum first.

(** *** One entry *)

Definition lfn_offsets : list Z := [1; 3; 5; 7; 9; 14; 16; 18; 20; 22; 24; 28; 30].
Definition lfn_extract (e : bytes) : list Z := map (fat_rd16 e) lfn_offsets.

(** What fat_dir_next does with the entry [e] it has read and stepped over. *)
Inductive verdict :=
| Stop
| Skip (c : fat_dircur)
| Found (d : fat_dirent) (c : fat_dircur).

Definition lfn_entry (e : bytes) (c : fat_dircur) : verdict :=
  let ord := at_ e 0 in
  let last := negb (Z.land ord 0x40 =? 0) in
  let seq := Z.land ord 0x3F in
  if (seq <? 1) || (20 <? seq) then Skip (lfn_reset c)
  else
    let c := if last then set_lfn (replicate 260 0) 0 seq (at_ e 13) (c_index c - 1) c else c in
    if (c_count c =? 0) || negb (at_ e 13 =? c_sum c) || negb (seq =? c_count c - c_have c)
    then Skip (lfn_reset c)
    else Skip (set_lfn (patch ((seq - 1) * LFN_CHARS) (lfn_extract e) (c_lfn c))
                 (c_have c + 1) (c_count c) (c_sum c) (c_first c) c).

Definition long_name (e : bytes) (c : fat_dircur) : option bytes :=
  if (0 <? c_count c) && (c_have c =? c_count c) && (c_sum c =? fat_short_checksum e) then
    match ucs2_to_utf8 (cstr (take (Z.to_nat (c_count c * LFN_CHARS)) (c_lfn c))) (VFS_NAME_MAX + 1) with
    | Some (x :: r) => Some (x :: r)
    | _ => None
    end
  else None.

Definition judge (e : bytes) (c : fat_dircur) : verdict :=
  let this_index := c_index c - 1 in
  if at_ e 0 =? 0x00 then Stop
  else if at_ e 0 =? FAT_DELETED then Skip (lfn_reset c)
  else if at_ e DE_ATTR =? FAT_ATTR_LFN then lfn_entry e c
  else if negb (Z.land (at_ e DE_ATTR) FAT_ATTR_VOLUME_ID =? 0) then Skip (lfn_reset c)
  else
    let mk name first :=
      Dirent name this_index first
        (Z.lor (Z.shiftl (fat_rd16 e DE_CLUS_HI) 16) (fat_rd16 e DE_CLUS_LO))
        (fat_rd32 e DE_SIZE) (at_ e DE_ATTR) e in
    match long_name e c with
    | Some name => Found (mk name (c_first c)) (lfn_reset c)
    | None => Found (mk (cstr (short_to_string e)) this_index) (lfn_reset c)
    end.

Section Dir.
Context {D : Type} `{BlockOps D}.

(** *** Scanning *)

(** The entry at the cursor, and the cursor behind it; [None] at the end of the chain.
    The walk to the cluster of the entry is the one of [locate]. *)
Definition dir_slot (c : fat_dircur) : io (vst D) (option (bytes * fat_dircur)) :=
  v <- iget vol ;;
  let epc := bytes_per_clus v / FAT_DIRENT_SIZE in
  let want := c_index c / epc in
  let '(clus, pos) := if c_clus c =? 0 then (c_dir_clus c, 0) else (c_clus c, c_clus_index c) in
  w <- locate_walk (Z.to_nat (want - pos)) clus ;;
  match w with
  | None => iret None
  | Some clus =>
      if negb (fat_clus_valid v clus) then ifail VFS_EINVAL
      else
        let byte := (c_index c mod epc) * FAT_DIRENT_SIZE in
        p <- fat_sector_read (wrap32 (fat_clus_sector v clus + byte / SECTOR)) ;;
        let e := take 32 (drop (Z.to_nat (byte mod SECTOR)) p) in
        iret (Some (e, set_place (c_index c + 1) clus (Z.max pos want) c))
  end.

(** [for (;;)]: the next entry, or [None] at the end. *)
Fixpoint dir_scan (fuel : nat) (c : fat_dircur) : io (vst D) (option (fat_dirent * fat_dircur)) :=
  match fuel with
  | O => ifail VFS_EINVAL
  | S k =>
      if FAT_MAX_DIR_ENTRIES <=? c_index c then iret None
      else
        s <- dir_slot c ;;
        match s with
        | None => iret None
        | Some (e, c) =>
            match judge e c with
            | Stop => iret None
            | Skip c => dir_scan k c
            | Found d c => iret (Some (d, c))
            end
        end
  end.

Definition fat_dir_next (c : fat_dircur) : io (vst D) (option (fat_dirent * fat_dircur)) :=
  dir_scan (S (Z.to_nat (FAT_MAX_DIR_ENTRIES - c_index c))) c.

(** [for (;;)]: each round passes an entry. *)
Fixpoint find_loop (fuel : nat) (ok : fat_dirent -> bool) (c : fat_dircur) : io (vst D) (option fat_dirent) :=
  match fuel with
  | O => ifail VFS_EINVAL
  | S k =>
      r <- fat_dir_next c ;;
      match r with
      | None => iret None
      | Some (d, c) => if ok d then iret (Some d) else find_loop k ok c
      end
  end.

Definition fat_dir_find (dclus : Z) (name : bytes) : io (vst D) fat_dirent :=
  r <- find_loop (Z.to_nat (FAT_MAX_DIR_ENTRIES + 1)) (fun d => name_eq_ci (d_name d) name)
         (fat_dircur_init dclus) ;;
  match r with Some d => iret d | None => ifail VFS_ENOENT end.

Definition dot_name (d : fat_dirent) : bool :=
  bool_decide (d_name d = lit ".") || bool_decide (d_name d = lit "..").

Definition fat_dir_is_empty (dclus : Z) : io (vst D) bool :=
  r <- find_loop (Z.to_nat (FAT_MAX_DIR_ENTRIES + 1)) (fun d => negb (dot_name d)) (fat_dircur_init dclus) ;;
  match r with Some _ => iret false | None => iret true end.

(** *** A new directory *)

Definition stamp (e : bytes) (off : Z) (now : Z * Z) : bytes :=
  let '(date, time) := now in
  fat_wr16 (off + DE_CRT_DATE) date (fat_wr16 (off + DE_CRT_TIME) time
    (fat_wr16 (off + DE_WRT_DATE) date (fat_wr16 (off + DE_WRT_TIME) time e))).

(** One of the two entries every directory starts with. *)
Definition dot_entry (off : Z) (dots : bytes) (clus : Z) (now : Z * Z) (sec : bytes) : bytes :=
  let sec := put_bytes off (pad_to 11 dots) sec in
  let sec := put8 (off + DE_ATTR) FAT_ATTR_DIRECTORY sec in
  let sec := fat_wr16 (off + DE_CLUS_HI) (Z.shiftr clus 16) sec in
  let sec := fat_wr16 (off + DE_CLUS_LO) (Z.land clus 0xFFFF) sec in
  stamp sec off now.

Definition fat_dir_init_cluster (clus parent : Z) : io (vst D) unit :=
  v <- iget vol ;;
  c <- iget clk ;;
  let now := fat_now c in
  let pc := if parent =? root_clus v then 0 else parent in
  fat_sector_write (fat_clus_sector v clus)
    (dot_entry FAT_DIRENT_SIZE (lit "..") pc now (dot_entry 0 (lit ".") clus now zero_sector)).

(** [for (;;)]: the last cluster of the directory. *)
Fixpoint dir_last (k : nat) (last : Z) : io (vst D) Z :=
  match k with
  | O => ifail VFS_EINVAL
  | S k =>
      nx <- fat_chain_next last ;;
      if nx =? 0 then iret last else dir_last k nx
  end.

Definition dir_extend (dclus : Z) : io (vst D) Z :=
  v <- iget vol ;;
  last <- dir_last (Z.to_nat (clusters v + 1)) dclus ;;
  nc <- fat_alloc_cluster ;;
  fat_barrier ;;;
  fat_set last nc ;;;
  iret nc.

(** *** Short names in use *)

Definition or_taken (m : io (vst D) bool) : io (vst D) bool := fun s =>
  match m s with (inl _, s) => (inr true, s) | r => r end.

(** [for (i = 0; i < epc; i++, index++)]: [Some] when the answer is known. *)
Fixpoint taken_slots (k : nat) (i clus : Z) (nm : bytes) : io (vst D) (option bool) :=
  match k with
  | O => iret None
  | S k =>
      v <- iget vol ;;
      let byte := i * FAT_DIRENT_SIZE in
      p <- fat_sector_read (wrap32 (fat_clus_sector v clus + byte / SECTOR)) ;;
      let e := drop (Z.to_nat (byte mod SECTOR)) p in
      if at_ e 0 =? 0x00 then iret (Some false)
      else if at_ e 0 =? FAT_DELETED then taken_slots k (i + 1) clus nm
      else if at_ e DE_ATTR =? FAT_ATTR_LFN then taken_slots k (i + 1) clus nm
      else if bool_decide (take 11 e = nm) then iret (Some true)
      else taken_slots k (i + 1) clus nm
  end.

Fixpoint taken_loop (fuel : nat) (clus index : Z) (nm : bytes) : io (vst D) bool :=
  match fuel with
  | O => iret false
  | S k =>
      v <- iget vol ;;
      if negb (fat_clus_valid v clus && (index <? FAT_MAX_DIR_ENTRIES)) then iret false
      else
        let epc := bytes_per_clus v / FAT_DIRENT_SIZE in
        r <- taken_slots (Z.to_nat epc) 0 clus nm ;;
        match r with
        | Some b => iret b
        | None =>
            nx <- fat_chain_next clus ;;
            if nx =? 0 then iret false else taken_loop k nx (index + epc) nm
        end
  end.

(** A disk error counts as taken. *)
Definition short_name_taken (dclus : Z) (nm : bytes) : io (vst D) bool :=
  or_taken (taken_loop (Z.to_nat FAT_MAX_DIR_ENTRIES) dclus 0 nm).

Fixpoint cut_blanks (cut : nat) (base : bytes) : nat :=
  match cut with
  | O => O
  | S k => if at_ base (Z.of_nat k) =? ch " " then cut_blanks k base else S k
  end.

(** NAME~n *)
Definition tilde_name (base : bytes) (n : Z) : bytes :=
  let cut := cut_blanks 6 base in
  pad_to 8 (take cut base ++ [ch "~"; ch "0" + n]) ++ drop 8 base.

Definition hex_digit (x : Z) : Z := at_ (lit "0123456789ABCDEF") (Z.land x 0xF).

Definition name_hash (longname : bytes) : Z := fold_left (fun h c => wrap32 (h * 31 + c)) longname 0.

(** The form with a hash, for try [i]. *)
Definition hash_name (base : bytes) (h i : Z) : bytes :=
  let x := Z.land (wrap32 (h + wrap32 (i * 2654435761))) 0xFFFF in
  let nb c := if c =? ch " " then ch "_" else c in
  [nb (at_ base 0); nb (at_ base 1); hex_digit (Z.shiftr x 12); hex_digit (Z.shiftr x 8);
   hex_digit (Z.shiftr x 4); hex_digit x; ch "~"; ch "1"] ++ drop 8 base.

(** The first of the names [f i], [f (i + 1)], ... that is not taken. *)
Fixpoint first_untaken (k : nat) (f : Z -> bytes) (i dclus : Z) : io (vst D) (option bytes) :=
  match k with
  | O => iret None
  | S k =>
      t <- short_name_taken dclus (f i) ;;
      if t : bool then first_untaken k f (i + 1) dclus else iret (Some (f i))
  end.

Definition short_alias_pick (dclus : Z) (longname base : bytes) : io (vst D) bytes :=
  r <- first_untaken 4 (tilde_name base) 1 dclus ;;
  match r with
  | Some nm => iret nm
  | None =>
      r <- first_untaken 4096 (hash_name base (name_hash longname)) 0 dclus ;;
      match r with Some nm => iret nm | None => ifail VFS_EEXIST end
  end.

(** *** Adding an entry *)

(** [for (i = 0; i < ENTS_PER_SECTOR; i++)]: the start of a run of [total] free slots, or
    the first slot that is an end mark. *)
Fixpoint run_scan (k : nat) (i run total : Z) (first_zero : option Z) (sec : bytes) : Z + option Z :=
  match k with
  | O => inr first_zero
  | S k =>
      let f := at_ sec (i * FAT_DIRENT_SIZE) in
      let first_zero := match first_zero with
                        | None => if f =? 0x00 then Some i else None
                        | z => z end in
      if (f =? 0x00) || (f =? FAT_DELETED) then
        if run + 1 =? total then inl (i + 1 - total)
        else run_scan k (i + 1) (run + 1) total first_zero sec
      else run_scan k (i + 1) 0 total first_zero sec
  end.

(** Slots [i, 16) retired to deleted. *)
Fixpoint retire (k : nat) (i : Z) (sec : bytes) : bytes :=
  match k with
  | O => sec
  | S k => retire k (i + 1) (put8 (i * FAT_DIRENT_SIZE) FAT_DELETED sec)
  end.

(** [for (s = 0; s < sec_per_clus; s++)]: slot and sector, when found. *)
Fixpoint place_sectors (k : nat) (s clus total : Z) : io (vst D) (option (Z * Z)) :=
  match k with
  | O => iret None
  | S k =>
      v <- iget vol ;;
      let sn := wrap32 (fat_clus_sector v clus + s) in
      sec <- fat_sector_read_into sn ;;
      match run_scan 16 0 0 total None sec with
      | inl slot => iret (Some (s * ENTS_PER_SECTOR + slot, sn))
      | inr None => place_sectors k (s + 1) clus total
      | inr (Some z) =>
          fat_sector_write sn (retire (Z.to_nat (ENTS_PER_SECTOR - z)) z sec) ;;;
          place_sectors k (s + 1) clus total
      end
  end.

(** [while (found_index == FAT_NO_ENTRY)] *)
Fixpoint place_loop (fuel : nat) (dclus clus base_index total : Z) : io (vst D) (Z * Z) :=
  match fuel with
  | O => ifail VFS_ENOSPC
  | S k =>
      v <- iget vol ;;
      if negb (fat_clus_valid v clus) then ifail VFS_EINVAL
      else if FAT_MAX_DIR_ENTRIES <=? base_index then ifail VFS_ENOSPC
      else
        r <- place_sectors (Z.to_nat (sec_per_clus v)) 0 clus total ;;
        match r with
        | Some (i, sn) => iret (base_index + i, sn)
        | None =>
            nx <- fat_chain_next clus ;;
            nx <- (if nx =? 0 then dir_extend dclus else iret nx) ;;
            place_loop k dclus nx (base_index + bytes_per_clus v / FAT_DIRENT_SIZE) total
        end
  end.

(** Unit [ci] of a long name as it is stored. *)
Definition lfn_unit (ucs : list Z) (ci : Z) : Z :=
  let nchars := zlen ucs in
  if ci <? nchars then at_ ucs ci else if ci =? nchars then 0x0000 else 0xFFFF.

(** Record [ord] of a long name. *)
Definition lfn_record (ucs : list Z) (sum ord : Z) (last : bool) : bytes :=
  let e := replicate 32 0 in
  let e := put8 0 (Z.lor ord (if last then 0x40 else 0)) e in
  let e := put8 DE_ATTR FAT_ATTR_LFN e in
  let e := put8 13 sum e in
  fold_left (fun e k => fat_wr16 (at_ lfn_offsets k) (lfn_unit ucs ((ord - 1) * LFN_CHARS + k)) e)
    (map Z.of_nat (seq 0 13)) e.

(** [for (i = 0; i < nlfn; i++)]: the records, the last piece first. *)
Definition lfn_records (ucs : list Z) (sum : Z) (nlfn : nat) : list bytes :=
  map (fun i => lfn_record ucs sum (Z.of_nat (nlfn - i)) (Nat.eqb i 0)) (seq 0 nlfn).

Definition short_record (sname : bytes) (attr first size : Z) (now : Z * Z) : bytes :=
  let '(date, time) := now in
  let e := put_bytes 0 sname (replicate 32 0) in
  let e := put8 DE_ATTR attr e in
  let e := fat_wr16 DE_CRT_TIME time e in
  let e := fat_wr16 DE_CRT_DATE date e in
  let e := fat_wr16 DE_ACC_DATE date e in
  let e := fat_wr16 DE_WRT_TIME time e in
  let e := fat_wr16 DE_WRT_DATE date e in
  let e := fat_wr16 DE_CLUS_HI (Z.shiftr first 16) e in
  let e := fat_wr16 DE_CLUS_LO (Z.land first 0xFFFF) e in
  fat_wr32 DE_SIZE size e.

Definition fat_dir_add (dclus : Z) (name : bytes) (attr first size : Z) : io (vst D) fat_dirent :=
  v <- iget vol ;;
  if negb (fat_name_ok name) then ifail VFS_EINVAL
  else if read_only v then ifail VFS_EINVAL
  else
    match utf8_to_ucs2 name (VFS_NAME_MAX + 1) with
    | None => ifail VFS_EINVAL
    | Some ucs =>
        let '(sname, needs_lfn) := short_name_build name in
        sname <- (if needs_lfn : bool then short_alias_pick dclus name sname
                  else t <- short_name_taken dclus sname ;;
                       if t : bool then ifail VFS_EEXIST else iret sname) ;;
        let nlfn := if needs_lfn then (zlen ucs + LFN_CHARS - 1) / LFN_CHARS else 0 in
        let nlfn := if (nlfn =? 0) && needs_lfn then 1 else nlfn in
        let total := nlfn + 1 in
        if ENTS_PER_SECTOR <? total then ifail VFS_EINVAL
        else
          p <- place_loop (Z.to_nat FAT_MAX_DIR_ENTRIES) dclus dclus 0 total ;;
          let '(found, sn) := p in
          sec <- fat_sector_read_into sn ;;
          let slot0 := found mod ENTS_PER_SECTOR in
          let sum := fat_short_checksum sname in
          c <- iget clk ;;
          let e := short_record sname attr first size (fat_now c) in
          fat_sector_write sn
            (put_bytes (slot0 * FAT_DIRENT_SIZE) (concat (lfn_records ucs sum (Z.to_nat nlfn)) ++ e) sec) ;;;
          iret (Dirent name (found + nlfn) found first size attr e)
    end.

(** *** Removing one *)

(** [for (i = index + 1; i-- > first_index; )] *)
Fixpoint remove_loop (k : nat) (i index dclus : Z) : io (vst D) unit :=
  match k with
  | O => iret tt
  | S k =>
      l <- locate dclus i ;;
      match l with
      | None => iret tt
      | Some (s, off) =>
          sec <- fat_sector_read_into s ;;
          fat_sector_write s (put8 off FAT_DELETED sec) ;;;
          (if i =? index then fat_barrier else iret tt) ;;;
          remove_loop k (i - 1) index dclus
      end
  end.

Definition fat_dir_remove (dclus : Z) (de : fat_dirent) : io (vst D) unit :=
  v <- iget vol ;;
  if read_only v then ifail VFS_EINVAL
  else remove_loop (Z.to_nat (d_index de + 1 - d_first_index de)) (d_index de) (d_index de) dclus.

End Dir.
