(* ===== verification/FatNameSpec.v ===== *)
(** fs/fat/fat_dir.c: names survive the encodings. A name that is accepted comes back from
    UCS-2, and one stored as 8.3 only comes back from its eleven bytes. *)

From S2P Require Import Prelude Bytes Paths Vfs Rtc Block FatVol FatMount FatFile FatName.
From S2P Require Import FatDisk FatRw FatEntry FatSpec.

(** *** UTF-8 *)

(** A property of all bytes, by trying them. *)
Lemma all_bytes (P : Z -> bool) : forallb (fun n => P (Z.of_nat n)) (seq 0 256) = true -> forall b, byte_ok b -> P b = true.
Proof.
  intros Hall b Hb. rewrite forallb_forall in Hall. specialize (Hall (Z.to_nat b)). unfold byte_ok in Hb.
  rewrite Z2Nat.id in Hall by lia. apply Hall, in_seq. lia.
Qed.

Lemma lead2 b : byte_ok b -> Z.land b 0xE0 = 0xC0 -> b = 192 + Z.land b 0x1F /\ 0 <= Z.land b 0x1F < 32.
Proof.
  intros Hb He. pose proof (all_bytes (fun b => negb (Z.land b 0xE0 =? 0xC0) ||
    ((b =? 192 + Z.land b 0x1F) && (0 <=? Z.land b 0x1F) && (Z.land b 0x1F <? 32))) eq_refl b Hb) as H.
  cbv beta in H. rewrite He in H. cbn [Z.eqb Pos.eqb negb orb] in H. b2p. lia.
Qed.
Lemma lead3 b : byte_ok b -> Z.land b 0xF0 = 0xE0 -> b = 224 + Z.land b 0x0F /\ 0 <= Z.land b 0x0F < 16.
Proof.
  intros Hb He. pose proof (all_bytes (fun b => negb (Z.land b 0xF0 =? 0xE0) ||
    ((b =? 224 + Z.land b 0x0F) && (0 <=? Z.land b 0x0F) && (Z.land b 0x0F <? 16))) eq_refl b Hb) as H.
  cbv beta in H. rewrite He in H. cbn [Z.eqb Pos.eqb negb orb] in H. b2p. lia.
Qed.
Lemma cont b : byte_ok b -> Z.land b 0xC0 = 0x80 -> b = 128 + Z.land b 0x3F /\ 0 <= Z.land b 0x3F < 64.
Proof.
  intros Hb He. pose proof (all_bytes (fun b => negb (Z.land b 0xC0 =? 0x80) ||
    ((b =? 128 + Z.land b 0x3F) && (0 <=? Z.land b 0x3F) && (Z.land b 0x3F <? 64))) eq_refl b Hb) as H.
  cbv beta in H. rewrite He in H. cbn [Z.eqb Pos.eqb negb orb] in H. b2p. lia.
Qed.

Lemma lor_low k a x : 0 <= k -> 0 <= x < 2 ^ k -> Z.lor (Z.shiftl a k) x = a * 2 ^ k + x.
Proof. intros. rewrite Z.lor_comm, lor_shiftl by lia. lia. Qed.

(** The encoding of one code unit. *)
Definition utf8_of (cp : Z) : bytes :=
  if cp <? 0x80 then [cp]
  else if cp <? 0x800 then [Z.lor 0xC0 (Z.shiftr cp 6); Z.lor 0x80 (Z.land cp 0x3F)]
  else [Z.lor 0xE0 (Z.shiftr cp 12); Z.lor 0x80 (Z.land (Z.shiftr cp 6) 0x3F); Z.lor 0x80 (Z.land cp 0x3F)].

Lemma utf8_two x y : 2 <= x < 32 -> 0 <= y < 64 -> utf8_of (x * 64 + y) = [192 + x; 128 + y].
Proof.
  intros Hx Hy. unfold utf8_of. rewrite (proj2 (Z.ltb_ge _ _)), (proj2 (Z.ltb_lt _ _)) by lia.
  change 0x3F with (2 ^ 6 - 1). rewrite land_mask, Z.shiftr_div_pow2 by lia. change (2 ^ 6) with 64.
  rewrite Z.add_comm, Z.mod_add, Z.div_add, Z.mod_small, Z.div_small by lia. cbn [Z.add].
  change 0xC0 with (Z.shiftl 3 6). change 0x80 with (Z.shiftl 1 7). rewrite !lor_low by lia. done.
Qed.

Lemma utf8_three x y z : 0 <= x < 16 -> 0 <= y < 64 -> 0 <= z < 64 -> 2048 <= x * 4096 + y * 64 + z ->
  utf8_of (x * 4096 + y * 64 + z) = [224 + x; 128 + y; 128 + z].
Proof.
  intros Hx Hy Hz Hbig. unfold utf8_of. rewrite !(proj2 (Z.ltb_ge _ _)) by lia.
  change 0x3F with (2 ^ 6 - 1). rewrite !land_mask, !Z.shiftr_div_pow2 by lia.
  assert (E1 : (x * 4096 + y * 64 + z) / 2 ^ 12 = x) by (symmetry; apply (Z.div_unique _ _ _ (y * 64 + z)); lia).
  assert (E2 : (x * 4096 + y * 64 + z) / 2 ^ 6 = x * 64 + y) by (symmetry; apply (Z.div_unique _ _ _ z); lia).
  assert (E3 : (x * 64 + y) mod 2 ^ 6 = y) by (symmetry; apply (Z.mod_unique _ _ x); lia).
  assert (E4 : (x * 4096 + y * 64 + z) mod 2 ^ 6 = z) by (symmetry; apply (Z.mod_unique _ _ (x * 64 + y)); lia).
  rewrite E1, E2, E3, E4. change 0xE0 with (Z.shiftl 7 5). change 0x80 with (Z.shiftl 1 7).
  rewrite !lor_low by lia. done.
Qed.

(** A code unit of a name. *)
Definition unit_ok (u : Z) : Prop := 0 < u < 0x10000 /\ ~ (0xD800 <= u <= 0xDFFF).

Lemma utf8_unit_two b0 b1 :
  byte_ok b0 -> byte_ok b1 -> Z.land b0 224 = 192 -> Z.land b1 192 = 128 ->
  let cp := Z.lor (Z.shiftl (Z.land b0 0x1F) 6) (Z.land b1 0x3F) in
  0x80 <= cp -> unit_ok cp /\ utf8_of cp = [b0; b1].
Proof.
  intros Hb0 Hb1 E0 E1 cp Hcp. destruct (lead2 b0 Hb0 E0) as [Hl0 ?]. destruct (cont b1 Hb1 E1) as [Hl1 ?].
  unfold cp in *. clear cp. rewrite lor_low in * by lia. change (2 ^ 6) with 64 in *. unfold unit_ok.
  rewrite utf8_two by lia. rewrite <- Hl0, <- Hl1. split; [lia|done].
Qed.

Lemma utf8_unit_three b0 b1 b2 :
  byte_ok b0 -> byte_ok b1 -> byte_ok b2 -> Z.land b0 240 = 224 -> Z.land b1 192 = 128 -> Z.land b2 192 = 128 ->
  let cp := Z.lor (Z.lor (Z.shiftl (Z.land b0 0x0F) 12) (Z.shiftl (Z.land b1 0x3F) 6)) (Z.land b2 0x3F) in
  0x800 <= cp -> ~ (0xD800 <= cp <= 0xDFFF) -> unit_ok cp /\ utf8_of cp = [b0; b1; b2].
Proof.
  intros Hb0 Hb1 Hb2 E0 E1 E2 cp Hcp Hs. destruct (lead3 b0 Hb0 E0) as [Hl0 ?].
  destruct (cont b1 Hb1 E1) as [Hl1 ?]. destruct (cont b2 Hb2 E2) as [Hl2 ?].
  assert (Ecp : cp = Z.land b0 15 * 4096 + Z.land b1 63 * 64 + Z.land b2 63).
  { unfold cp. rewrite lor_low by (rewrite ?Z.shiftl_mul_pow2; lia). rewrite Z.shiftl_mul_pow2 by lia.
    replace (Z.land b0 15 * 2 ^ 12 + Z.land b1 63 * 2 ^ 6) with (Z.shiftl (Z.land b0 15 * 64 + Z.land b1 63) 6)
      by (rewrite Z.shiftl_mul_pow2; lia). rewrite lor_low by lia. lia. }
  rewrite Ecp in *. unfold unit_ok. rewrite utf8_three by lia. rewrite <- Hl0, <- Hl1, <- Hl2. split; [lia|done].
Qed.

Lemma utf8_unit_spec b0 p cp n :
  Forall byte_ok (b0 :: p) -> b0 <> 0 -> utf8_unit (b0 :: p) = Some (cp, n) ->
  unit_ok cp /\ b0 :: p = utf8_of cp ++ drop n (b0 :: p).
Proof.
  intros Hb H0 Hu. assert (Hb0 : byte_ok b0) by by inversion Hb. unfold utf8_unit in Hu.
  change (at_ (b0 :: p) 0) with b0 in Hu. set (b1 := at_ (b0 :: p) 1) in *. set (b2 := at_ (b0 :: p) 2) in *.
  assert (Hb1 : byte_ok b1) by by apply at_byte. assert (Hb2 : byte_ok b2) by by apply at_byte.
  destruct (Z.ltb_spec b0 128) as [Hs|_].
  { injection Hu as <- <-. unfold utf8_of, unit_ok, byte_ok in *. rewrite (proj2 (Z.ltb_lt _ _)) by lia. split; [lia|done]. }
  destruct (Z.eqb_spec (Z.land b0 224) 192) as [E0|_].
  - destruct (Z.eqb_spec (Z.land b1 192) 128) as [E1|]; [|done]. cbn [negb] in Hu.
    destruct (Z.ltb_spec (Z.lor (Z.shiftl (Z.land b0 31) 6) (Z.land b1 63)) 128); [done|]. injection Hu as <- <-.
    destruct (utf8_unit_two b0 b1) as [Hc ->]; try done. split; [done|].
    destruct p as [|c1 p]; [by cbn in E1|done].
  - destruct (Z.eqb_spec (Z.land b0 240) 224) as [E0|]; [|done].
    destruct (Z.eqb_spec (Z.land b1 192) 128) as [E1|]; [|done].
    destruct (Z.eqb_spec (Z.land b2 192) 128) as [E2|]; [|done]. cbn [negb orb] in Hu.
    destruct (Z.ltb_spec (Z.lor (Z.lor (Z.shiftl (Z.land b0 15) 12) (Z.shiftl (Z.land b1 63) 6)) (Z.land b2 63)) 2048); [done|].
    destruct (_ && _) eqn:Es; [done|]. injection Hu as <- <-.
    destruct (utf8_unit_three b0 b1 b2) as [Hc ->]; try done; [b2p; destruct Es; b2p; lia|].
    split; [done|]. destruct p as [|c1 [|c2 p]]; [by cbn in E1|by cbn in E2|done].
Qed.

Lemma utf8_to_ucs2_units fuel : forall p room us,
  Forall byte_ok p -> no_nul p -> utf8_loop fuel p room = Some us ->
  p = concat (map utf8_of us) /\ Forall unit_ok us.
Proof.
  induction fuel as [|k IH]; intros p room us Hb Hn Hu; cbn [utf8_loop] in Hu; [done|].
  destruct p as [|b0 p]; [by injection Hu as <-|].
  destruct (utf8_unit (b0 :: p)) as [[cp n]|] eqn:E; [|done]. destruct (room <=? 0); [done|].
  destruct (utf8_loop k (drop n (b0 :: p)) (room - 1)) as [us'|] eqn:Er; [|done]. injection Hu as <-.
  destruct (utf8_unit_spec b0 p cp n) as [Hcp Hp]; [done|by inversion Hn|done|].
  destruct (IH (drop n (b0 :: p)) (room - 1) us') as [Ep Hus]; [by apply Forall_drop|by apply Forall_drop|done|].
  split; [cbn [map concat]; by rewrite <- Ep|by apply Forall_cons_2].
Qed.

(** Code units of a name are spelled as the name. *)
Lemma ucs2_units us : Forall unit_ok us -> forall o cap,
  0 <= o -> o + zlen (concat (map utf8_of us)) < cap -> ucs2_loop us o cap = Some (concat (map utf8_of us)).
Proof.
  induction 1 as [|u us Hu _ IH]; intros o cap Ho Hc; [done|]. cbn [map concat ucs2_loop] in *.
  destruct Hu as [Hr Hs]. fold (utf8_of u). pose proof (zlen_nonneg (concat (map utf8_of us))).
  rewrite zlen_app in Hc. pose proof (zlen_nonneg (utf8_of u)).
  replace ((55296 <=? u) && (u <=? 57343)) with false by lia.
  rewrite (proj2 (Z.leb_gt cap _)) by lia. rewrite IH by lia. done.
Qed.

(** A name that converts to UCS-2 converts back to itself. *)
Lemma ucs2_roundtrip name cap us :
  Forall byte_ok name -> no_nul name -> zlen name <= VFS_NAME_MAX ->
  utf8_to_ucs2 name cap = Some us ->
  ucs2_to_utf8 us (VFS_NAME_MAX + 1) = Some name /\ Forall unit_ok us.
Proof.
  intros Hb Hn Hl Hu. destruct (utf8_to_ucs2_units _ name cap us Hb Hn Hu) as [-> Hus].
  split; [|done]. apply ucs2_units; [done|lia|lia].
Qed.

Lemma units_length us : zlen us <= zlen (concat (map utf8_of us)).
Proof.
  induction us as [|u us IH]; [done|]. cbn [map concat]. rewrite zlen_cons, zlen_app.
  assert (1 <= zlen (utf8_of u)) by (unfold utf8_of; repeat destruct (_ <? _); unfold zlen; cbn [length]; lia). lia.
Qed.

(** *** 8.3 *)

(** A character that goes into a short name unchanged. *)
Definition plain (c : Z) : Prop := short_char c = (c, false).

Lemma plain_ok c : plain c -> short_char_ok c = true /\ c <> ch " " /\ c <> ch "." /\ c <> 0 /\ c <> FAT_DELETED /\ c <> FAT_KANJI_E5 /\
  ~ (ch "a" <= c <= ch "z").
Proof.
  unfold plain, short_char. destruct ((ch "a" <=? c) && (c <=? ch "z")) eqn:E; cbn [fst].
  - intros Hp. exfalso. destruct (short_char_ok (up c)); by injection Hp.
  - destruct (short_char_ok c) eqn:Ec; [|by intros [=]]. intros _. split; [done|].
    repeat split; try (intros ->; done). b2p. destruct E; b2p; lia.
Qed.

Lemma kept_plain c : snd (short_char c) = false -> plain c.
Proof.
  unfold plain, short_char. destruct ((ch "a" <=? c) && (c <=? ch "z")); cbn [fst].
  - by destruct (short_char_ok (up c)).
  - by destruct (short_char_ok c).
Qed.

Lemma short_part_exact cap p b : short_part cap p = (b, false) -> b = p /\ Forall plain p /\ (length p <= cap)%nat.
Proof.
  unfold short_part. intros Hq. injection Hq as Hb Hf. apply orb_false_iff in Hf as [Hs Hl].
  assert (Hp : Forall plain p).
  { clear Hb Hl. induction p as [|c p IH]; [by apply Forall_nil_2|]. cbn [map existsb] in Hs.
    apply orb_false_iff in Hs as [Hc Hs]. apply Forall_cons_2; [by apply kept_plain|by apply IH]. }
  assert (Hlen : (length p <= cap)%nat) by (b2p; unfold zlen in *; lia).
  split; [|done]. subst b.
  assert (Em : map fst (map short_char p) = p).
  { clear Hs Hl Hlen. induction Hp as [|c p Hc _ IH]; [done|]. cbn [map]. by rewrite Hc, IH. }
  rewrite Em. by apply take_ge.
Qed.

Lemma last_dot_split p : match last_dot p with
  | Some (b, e) => p = b ++ ch "." :: e
  | None => Forall (fun c => c <> ch ".") p end.
Proof.
  induction p as [|c p IH]; cbn [last_dot]; [by apply Forall_nil_2|]. destruct (last_dot p) as [[b e]|].
  - by rewrite IH.
  - destruct (Z.eqb_spec c (ch ".")) as [->|]; [done|]. by apply Forall_cons_2.
Qed.

Lemma skip_dots_suffix p : exists d, p = d ++ skip_dots p.
Proof.
  induction p as [|c p [d IH]]; [by exists []|]. cbn [skip_dots]. destruct (_ || _); [|by exists []].
  exists (c :: d). cbn [app]. by rewrite <- IH.
Qed.

(** The stored part up to the padding. *)
Lemma short_run_padded n b : Forall plain b -> (length b <= n)%nat -> short_run false (pad_to n b) = b.
Proof.
  intros Hb Hl. unfold pad_to. assert (Hz : forall k, short_run false (replicate k (ch " ")) = []) by (by intros [|k]).
  revert n Hl. induction Hb as [|c b Hc _ IH]; intros n Hl; cbn [app length short_run]; [by rewrite Nat.sub_0_r, Hz|].
  destruct (plain_ok c Hc) as (_ & Hs & _). rewrite (proj2 (Z.eqb_neq _ _)) by done. f_equal.
  cbn [length] in *. replace (n - S (length b))%nat with (n - 1 - length b)%nat by lia. apply IH. lia.
Qed.

Lemma length_pad n b : (length b <= n)%nat -> length (pad_to n b) = n.
Proof. intros. unfold pad_to. rewrite length_app, length_replicate. lia. Qed.

(** What a name that needs no long-name records is. *)
Lemma short_name_exact name sname :
  short_name_build name = (sname, false) ->
  exists b e, Forall plain b /\ Forall plain e /\ b <> [] /\ (length b <= 8)%nat /\ (length e <= 3)%nat /\
    sname = pad_to 8 b ++ pad_to 3 e /\
    name = match e with [] => b | _ => b ++ ch "." :: e end.
Proof.
  unfold short_name_build. destruct (skip_dots_suffix name) as [d Hd]. set (p := skip_dots name) in *.
  assert (Hlead : zlen p = zlen name -> name = p).
  { intros E. rewrite Hd, zlen_app in E. destruct d as [|x d]; [done|].
    rewrite zlen_cons in E. pose proof (zlen_nonneg d). lia. }
  assert (Hfst : forall c r, plain c -> (if c =? FAT_DELETED then FAT_KANJI_E5 else c) :: r = c :: r :> bytes).
  { intros c r Hc. destruct (plain_ok c Hc) as (_ & _ & _ & _ & Hne & _). by rewrite (proj2 (Z.eqb_neq _ _) Hne). }
  intros Hq. pose proof (last_dot_split p) as Hld. destruct (last_dot p) as [[base ext]|].
  - destruct (short_part 8 base) as [b lost] eqn:Eb. destruct (short_part 3 ext) as [e elost] eqn:Ee.
    destruct b as [|c0 b]; [injection Hq as _ Hf; by rewrite !orb_true_r in Hf|].
    injection Hq as Hs Hf. repeat (apply orb_false_iff in Hf as [Hf ?]). b2p. subst lost elost.
    destruct (short_part_exact _ _ _ Eb) as (<- & Hpb & Hlb). destruct (short_part_exact _ _ _ Ee) as (-> & Hpe & Hle).
    exists (c0 :: b), ext. rewrite Hfst in Hs by by inversion Hpb.
    do 5 (split; [done|]). split; [by rewrite <- Hs|]. rewrite Hlead, Hld by done. by destruct ext.
  - destruct (short_part 8 p) as [b lost] eqn:Eb.
    destruct b as [|c0 b]; [injection Hq as _ Hf; by rewrite !orb_true_r in Hf|].
    injection Hq as Hs Hf. repeat (apply orb_false_iff in Hf as [Hf ?]). b2p. subst lost.
    destruct (short_part_exact _ _ _ Eb) as (Ep & Hpb & Hlb).
    exists (c0 :: b), []. rewrite <- Ep in Hpb. rewrite Hfst in Hs by by inversion Hpb.
    do 2 (split; [done || by apply Forall_nil_2|]). split; [done|]. split; [by rewrite Ep|].
    split; [cbn; lia|]. split; [by rewrite <- Hs|]. rewrite Hlead by done. by rewrite Ep.
Qed.

Lemma short_to_string_exact b e rest :
  Forall plain b -> Forall plain e -> b <> [] -> (length b <= 8)%nat -> (length e <= 3)%nat ->
  let r := pad_to 8 b ++ pad_to 3 e ++ rest in at_ r DE_NTRES = 0 ->
  short_to_string r = match e with [] => b | _ => b ++ ch "." :: e end.
Proof.
  intros Hb He Hne Hlb Hle r Hz. unfold short_to_string. rewrite Hz. cbn [Z.land negb Z.eqb].
  assert (Eb : take 8 r = pad_to 8 b) by (unfold r; rewrite take_app_le, take_ge by (rewrite length_pad; lia); done).
  assert (Ee : drop 8 r = pad_to 3 e ++ rest) by (unfold r; rewrite drop_app_ge, length_pad by (rewrite ?length_pad; lia); done).
  assert (Ee3 : take 3 (drop 8 r) = pad_to 3 e) by (rewrite Ee, take_app_le, take_ge by (rewrite length_pad; lia); done).
  assert (E8 : at_ r 8 = at_ (pad_to 3 e) 0).
  { unfold at_. replace (Z.to_nat 8) with (8 + Z.to_nat 0)%nat by done.
    rewrite !nth_lookup, <- lookup_drop, Ee, lookup_app_l by (rewrite length_pad; cbn; lia). done. }
  rewrite Eb, Ee3, E8. destruct b as [|c0 b]; [done|].
  destruct (plain_ok c0) as (_ & _ & _ & _ & _ & Hk & _); [by inversion Hb|].
  assert (Hrun : forall q, pad_to 8 (c0 :: b) = c0 :: q ->
    match pad_to 8 (c0 :: b) with c :: b0 => (if c =? FAT_KANJI_E5 then FAT_DELETED else c) :: b0 | [] => [] end = pad_to 8 (c0 :: b)).
  { intros q ->. by rewrite (proj2 (Z.eqb_neq _ _) Hk). }
  rewrite (Hrun _ eq_refl), short_run_padded by done. destruct e as [|x e].
  - cbn. by rewrite app_nil_r.
  - destruct (plain_ok x) as (_ & Hx & _); [by inversion He|].
    change (at_ (pad_to 3 (x :: e)) 0) with x. rewrite (proj2 (Z.eqb_neq _ _) Hx), short_run_padded by done. done.
Qed.
