(* ===== verification/FatScan.v ===== *)
(** fs/fat/fat_dir.c: what a scan of a directory finds. The cursor, the cluster chain and
    the sector cache are invisible: fat_dir_next yields the entries that the slots of the
    directory stand for, in order. *)

From S2P Require Import Prelude Bytes Paths Vfs Rtc Block FatVol FatMount FatFile FatName FatDir.
From S2P Require Import FatDisk FatChain FatRw FatEntry FatSpec.

(** *** The entries a list of slots stands for *)

Fixpoint entries (es : list bytes) (c : fat_dircur) : list fat_dirent :=
  match es with
  | [] => []
  | e :: r =>
      match judge e (set_place (c_index c + 1) 0 0 c) with
      | Stop => []
      | Skip c => entries r c
      | Found d c => d :: entries r c
      end
  end.

(** Cursors that decode the same: at the same slot with the same long name pending, or
    none. *)
Definition csim (a b : fat_dircur) : Prop :=
  c_index a = c_index b /\
  ((c_count a = 0 /\ c_count b = 0) \/
   (c_lfn a = c_lfn b /\ c_have a = c_have b /\ c_count a = c_count b /\ c_sum a = c_sum b /\ c_first a = c_first b)).

Lemma csim_refl c : csim c c.
Proof. split; [done|by right]. Qed.
Lemma csim_sym a b : csim a b -> csim b a.
Proof. intros [H1 [[H2 H3]|(H2 & H3 & H4 & H5 & H6)]]; (split; [done|]); [by left|by right]. Qed.

Lemma csim_reset a b : c_index a = c_index b -> csim (lfn_reset a) (lfn_reset b).
Proof. intros. split; [done|by left]. Qed.
Lemma csim_place a b i x y x' y' : csim a b -> csim (set_place i x y a) (set_place i x' y' b).
Proof. intros [_ H]. split; [done|exact H]. Qed.

Definition verdict_sim (x y : verdict) : Prop :=
  match x, y with
  | Stop, Stop => True
  | Skip a, Skip b => csim a b
  | Found d a, Found d' b => d = d' /\ csim a b
  | _, _ => False
  end.

Lemma lfn_entry_sim e a b : csim a b -> verdict_sim (lfn_entry e a) (lfn_entry e b).
Proof.
  intros Hs. pose proof Hs as [Hi Hl]. unfold lfn_entry. destruct (_ || (20 <? _)); [by apply csim_reset|].
  destruct (negb (Z.land (at_ e 0) 64 =? 0)); cbn [c_count c_have c_sum c_lfn c_first c_index set_lfn].
  - rewrite Hi. destruct (_ || _); [by apply csim_reset|]. split; [done|by right].
  - destruct Hl as [[-> ->]|(El & Eh & Ec & Es & Ef)].
    + cbn [Z.eqb orb]. by apply csim_reset.
    + rewrite El, Eh, Ec, Es, Ef. destruct (_ || _); [by apply csim_reset|]. split; [done|by right].
Qed.

Lemma judge_sim e a b : csim a b -> verdict_sim (judge e a) (judge e b).
Proof.
  intros Hs. pose proof Hs as [Hi Hl]. unfold judge. destruct (at_ e 0 =? 0); [done|].
  destruct (at_ e 0 =? FAT_DELETED); [by apply csim_reset|].
  destruct (at_ e DE_ATTR =? FAT_ATTR_LFN); [by apply lfn_entry_sim|].
  destruct (negb (Z.land (at_ e DE_ATTR) FAT_ATTR_VOLUME_ID =? 0)); [by apply csim_reset|].
  assert (El : long_name e a = long_name e b /\ (long_name e a <> None -> c_first a = c_first b)).
  { unfold long_name. destruct Hl as [[-> ->]|(-> & -> & -> & -> & ->)]; done. }
  destruct El as [<- Hf]. rewrite Hi. destruct (long_name e a); (split; [|by apply csim_reset]); [|done].
  by rewrite Hf.
Qed.

Lemma entries_sim es : forall a b, csim a b -> entries es a = entries es b.
Proof.
  induction es as [|e es IH]; intros a b Hs; [done|]. cbn [entries].
  pose proof (judge_sim e _ _ (csim_place a b (c_index b + 1) 0 0 0 0 Hs)) as Hj. destruct Hs as [-> _].
  destruct (judge e _), (judge e _); try done; cbn in Hj.
  - by apply IH.
  - destruct Hj as [-> Hc]. f_equal. by apply IH.
Qed.

(** judge looks at the slot number and the pending name only. *)
Lemma judge_keeps e c c' :
  judge e c = Skip c' \/ (exists d, judge e c = Found d c') ->
  c_index c' = c_index c /\ c_dir_clus c' = c_dir_clus c /\ c_clus c' = c_clus c /\ c_clus_index c' = c_clus_index c.
Proof.
  unfold judge, lfn_entry. destruct (at_ e 0 =? 0); [by intros [?|[??]]|].
  repeat match goal with
  | |- context [if ?b then _ else _] => destruct b
  | |- context [match long_name ?a ?b with _ => _ end] => destruct (long_name a b)
  end; by (intros [[= <-]|[d [= _ <-]]] || intros [[=]|[d [= _ <-]]] || intros [[= <-]|[d [=]]]).
Qed.

(** The entry found is the slot before the cursor. *)
Lemma judge_slot e c d c' : judge e c = Found d c' -> d_index d = c_index c - 1.
Proof.
  unfold judge. destruct (at_ e 0 =? 0); [done|]. destruct (at_ e 0 =? FAT_DELETED); [done|].
  destruct (at_ e DE_ATTR =? FAT_ATTR_LFN).
  - unfold lfn_entry. destruct (_ || _); [done|]. cbn zeta. by destruct (_ || _).
  - destruct (negb _); [done|]. by destruct (long_name e c); intros [= <- <-].
Qed.

Section Scan.
Context {D : Type} `{DiskLaws D}.
Implicit Types (v w : vst D) (dl : list Z).

(** The slots of a directory; a scan looks at no more than 65536 of them. *)
Definition nslots v dl : Z := Z.of_nat (length dl) * (bytes_per_clus (vol v) / 32).
Definition slots v dl : list bytes :=
  map (dirent v dl) (seqZ 0 (Z.min (nslots v dl) FAT_MAX_DIR_ENTRIES)).

(** What the directory holds. *)
Definition dir_list v dl (dclus : Z) : list fat_dirent := entries (slots v dl) (fat_dircur_init dclus).

(** A cursor on the chain. *)
Record cursor_ok v dl (c : fat_dircur) : Prop := {
  cu_head : head dl = Some (c_dir_clus c);
  cu_index : 0 <= c_index c;
  cu_place : c_clus c <> 0 -> 0 <= c_clus_index c <= c_index c / (bytes_per_clus (vol v) / 32) /\
             dl !! Z.to_nat (c_clus_index c) = Some (c_clus c) }.

Lemma dir_slot_spec v dl c :
  inv v -> chain v dl -> cursor_ok v dl c ->
  iwp (dir_slot c) v
    (fun r w => same v w /\
       match r with
       | None => nslots v dl <= c_index c
       | Some (e, c') => c_index c < nslots v dl /\ e = dirent v dl (c_index c) /\
           exists clus pos, c' = set_place (c_index c + 1) clus pos c /\ cursor_ok v dl c'
       end)
    (fun rc w => same v w /\ rc = VFS_EINVAL /\ ~ reliable D).
Proof.
  intros Hi Hl [Hh Hi0 Hp]. unfold dir_slot. apply iwp_bind, iwp_get. unfold FAT_DIRENT_SIZE.
  destruct (slots_per_cluster v Hi) as (Eepc & Hepc & Ebpc). set (epc := bytes_per_clus (vol v) / 32) in *.
  set (i := c_index c) in *. pose proof (Z.div_pos i epc Hi0 Hepc) as Hq.
  assert (Hst : exists clus pos, (if c_clus c =? 0 then (c_dir_clus c, 0) else (c_clus c, c_clus_index c)) = (clus, pos) /\
    0 <= pos <= i / epc /\ dl !! Z.to_nat pos = Some clus).
  { destruct (Z.eqb_spec (c_clus c) 0) as [_|Hn].
    - exists (c_dir_clus c), 0. split; [done|]. split; [lia|]. by destruct dl.
    - destruct (Hp Hn) as [? ?]. eauto 6. }
  destruct Hst as (clus & pos & -> & Hpos & Hclus).
  assert (Hns : nslots v dl <= i <-> Z.of_nat (length dl) <= i / epc).
  { unfold nslots. fold epc. split; intros Hle; [by apply Z.div_le_lower_bound; [|lia]|].
    pose proof (Z.mul_div_le i epc Hepc). nia. }
  eapply iwp_seq; [by apply (locate_walk_spec (Z.to_nat (i / epc - pos)) v dl (Z.to_nat pos) clus)|..]; [|done].
  intros x w [Hs ->]. replace (Z.to_nat pos + Z.to_nat (i / epc - pos))%nat with (Z.to_nat (i / epc)) by lia.
  rewrite Z.max_r by lia. destruct (dl !! Z.to_nat (i / epc)) as [cl|] eqn:Hcl.
  2: { apply iwp_ret. split; [done|]. apply Hns. apply lookup_ge_None_1 in Hcl. lia. }
  assert (Hv : valid v cl) by (eapply chain_valid; [done|by eapply list_elem_of_lookup_2]).
  rewrite (proj2 (clus_valid_spec v cl Hi) Hv). cbn [negb].
  destruct (slot_place v dl i cl Hi Hl Hi0 Hcl) as [Hat E]. fold epc in Hat, E. rewrite E.
  pose proof Hat as (_ & _ & Hk & _). destruct (dsec_range v cl _ Hi Hv Hk) as (_ & ? & ? & ? & ?).
  pose proof (geo_bounds v Hi). pose proof Hs as ([Hiw Est] & Hsec & _).
  pose proof (static_vol _ _ Est) as (_&_&_&_&_&_&_&_&_&_&Ebd&_&_).
  eapply iwp_seq; [apply (sector_read_spec w); [done|lia|lia]|..].
  2: { intros rc y (Hs' & ?). split; [by eapply same_trans|done]. }
  intros b y [Hs' ->]. apply iwp_ret. split; [by eapply same_trans|].
  apply lookup_lt_Some in Hcl as Hlt. split; [lia|]. rewrite Hsec.
  split; [symmetry; by apply dirent_slice with (pos := i / epc) (c := cl)|].
  exists cl, (i / epc). split; [done|]. split; cbn; [done|lia|]. intros _. fold epc. split; [|done].
  split; [done|]. apply Z.div_le_mono; lia.
Qed.

(** A later state of the same volume has the same slots. *)
Lemma dirent_same v w dl i : same v w -> dirent w dl i = dirent v dl i.
Proof. intros Hs. apply map_ext. intros. by apply fbyte_all_same. Qed.
Lemma static_nslots v w dl : static w = static v -> nslots w dl = nslots v dl.
Proof. intros E. pose proof (static_vol _ _ E) as (_&Eb&_). unfold nslots. by rewrite Eb. Qed.
Lemma slots_same v w dl : same v w -> slots w dl = slots v dl.
Proof.
  intros Hs. unfold slots. rewrite (static_nslots v w) by apply Hs. apply map_ext. intros. by apply dirent_same.
Qed.
Lemma chain_now v w dl : same v w -> chain v dl -> chain w dl.
Proof. intros Hs. eapply chain_same; [apply Hs|by intros; apply same_entry]. Qed.
Lemma cursor_now v w dl c : same v w -> cursor_ok v dl c -> cursor_ok w dl c.
Proof.
  intros Hs [? ? Hp]. pose proof (static_vol _ _ (proj2 (proj1 Hs))) as (_&Eb&_). split; [done|done|].
  by rewrite Eb.
Qed.

(** What a scan from the cursor still has to yield. *)
Definition rest v dl (c : fat_dircur) : list fat_dirent :=
  entries (drop (Z.to_nat (c_index c)) (slots v dl)) c.

Lemma length_slots v dl : inv v -> Z.of_nat (length (slots v dl)) = Z.min (nslots v dl) FAT_MAX_DIR_ENTRIES.
Proof.
  intros Hi. destruct (slots_per_cluster v Hi) as (_ & He & _). unfold slots. rewrite length_map, length_seqZ.
  assert (0 <= nslots v dl) by (apply Z.mul_nonneg_nonneg; lia). unfold FAT_MAX_DIR_ENTRIES in *. lia.
Qed.

Lemma slots_lookup v dl i :
  inv v -> 0 <= i < nslots v dl -> i < FAT_MAX_DIR_ENTRIES -> slots v dl !! Z.to_nat i = Some (dirent v dl i).
Proof.
  intros Hi Hr Hm. unfold slots. rewrite list_lookup_fmap, lookup_seqZ_lt by lia. cbn [fmap option_fmap option_map].
  f_equal. f_equal. lia.
Qed.

Lemma rest_end v dl c :
  inv v -> 0 <= c_index c -> nslots v dl <= c_index c \/ FAT_MAX_DIR_ENTRIES <= c_index c -> rest v dl c = [].
Proof.
  intros Hi Hge Hd. unfold rest. rewrite drop_ge; [done|]. pose proof (length_slots v dl Hi). lia.
Qed.

Lemma rest_step v dl c clus pos :
  inv v -> 0 <= c_index c < nslots v dl -> c_index c < FAT_MAX_DIR_ENTRIES ->
  rest v dl c =
  match judge (dirent v dl (c_index c)) (set_place (c_index c + 1) clus pos c) with
  | Stop => []
  | Skip c' => rest v dl c'
  | Found d c' => d :: rest v dl c'
  end.
Proof.
  intros Hi Hr Hm. unfold rest at 1. rewrite (drop_S _ (dirent v dl (c_index c))) by by apply slots_lookup.
  cbn [entries]. set (e := dirent _ _ _).
  pose proof (judge_sim e _ _ (csim_place c c (c_index c + 1) 0 0 clus pos (csim_refl c))) as Hj.
  pose proof (judge_keeps e (set_place (c_index c + 1) clus pos c)) as Hk.
  replace (S (Z.to_nat (c_index c))) with (Z.to_nat (c_index c + 1)) by lia. unfold rest.
  destruct (judge e _) as [|a|d a], (judge e _) as [|b|d' b]; try done; cbn in Hj.
  - destruct (Hk b (or_introl eq_refl)) as [-> _]. cbn. by apply entries_sim.
  - destruct Hj as [<- Hj]. destruct (Hk b (or_intror (ex_intro _ d eq_refl))) as [-> _]. cbn. f_equal. by apply entries_sim.
Qed.

Definition scanned v dl c (r : option (fat_dirent * fat_dircur)) : Prop :=
  match r with
  | None => rest v dl c = []
  | Some (d, c') => rest v dl c = d :: rest v dl c' /\ cursor_ok v dl c' /\
                    c_index c < c_index c' /\ c_index c < FAT_MAX_DIR_ENTRIES
  end.

Lemma dir_scan_spec fuel : forall v dl c,
  inv v -> chain v dl -> cursor_ok v dl c -> (Z.to_nat (FAT_MAX_DIR_ENTRIES - c_index c) < fuel)%nat ->
  iwp (dir_scan fuel c) v (fun r w => same v w /\ scanned v dl c r)
    (fun rc w => same v w /\ rc = VFS_EINVAL /\ ~ reliable D).
Proof.
  induction fuel as [|k IH]; intros v dl c Hi Hl Hc Hf; [lia|]. cbn [dir_scan].
  pose proof (cu_index _ _ _ Hc) as Hge. destruct (Z.leb_spec FAT_MAX_DIR_ENTRIES (c_index c)) as [Hm|Hm].
  { apply iwp_ret. split; [done|]. apply rest_end; auto. }
  eapply iwp_seq; [by apply (dir_slot_spec v dl c)|..]; [|done].
  intros [[e c']|] w [Hs Hr].
  2: { apply iwp_ret. split; [done|]. apply rest_end; auto. }
  destruct Hr as (Hn & -> & clus & pos & -> & Hc'). pose proof (rest_step v dl c clus pos Hi ltac:(lia) Hm) as Hstep.
  set (c' := set_place _ _ _ c) in *. pose proof (judge_keeps (dirent v dl (c_index c)) c') as Hk.
  assert (Hok : forall a, c_index a = c_index c' /\ c_dir_clus a = c_dir_clus c' /\ c_clus a = c_clus c' /\
    c_clus_index a = c_clus_index c' -> cursor_ok v dl a /\ c_index a = c_index c + 1).
  { intros a (E1 & E2 & E3 & E4). destruct Hc' as [? ? ?]. split; [|by rewrite E1]. split; rewrite ?E1, ?E2, ?E3, ?E4; done. }
  destruct (judge _ c') as [|a|d a].
  - apply iwp_ret. done.
  - destruct (Hok a (Hk a (or_introl eq_refl))) as [Ha Ea].
    eapply iwp_mono; [apply (IH w dl a); [apply Hs|by eapply chain_now|by eapply cursor_now|lia]|..].
    + intros r x [Hs' Hr]. split; [by eapply same_trans|]. unfold scanned, rest in *. rewrite (slots_same v w) in Hr by done.
      rewrite Hstep. destruct r as [[d c'']|]; [|done]. destruct Hr as (-> & Hc'' & ? & ?). split; [done|].
      split; [|lia]. destruct Hs as ([? Est] & _). destruct Hc'' as [? ? Hp]. split; [done|done|].
      pose proof (static_vol _ _ Est) as (_&<-&_). done.
    + intros rc x (Hs' & ?). split; [by eapply same_trans|done].
  - destruct (Hok a (Hk a (or_intror (ex_intro _ d eq_refl)))) as [Ha Ea]. apply iwp_ret. split; [done|].
    split; [done|]. split; [done|lia].
Qed.

Lemma find_loop_spec ok fuel : forall v dl c,
  inv v -> chain v dl -> cursor_ok v dl c -> (Z.to_nat (FAT_MAX_DIR_ENTRIES - c_index c) < fuel)%nat ->
  iwp (find_loop fuel ok c) v (fun r w => same v w /\ r = find ok (rest v dl c))
    (fun rc w => same v w /\ rc = VFS_EINVAL /\ ~ reliable D).
Proof.
  induction fuel as [|k IH]; intros v dl c Hi Hl Hc Hf; [lia|]. cbn [find_loop].
  pose proof (cu_index _ _ _ Hc) as Hge.
  eapply iwp_seq; [apply (dir_scan_spec _ v dl c); try done; lia|..]; [|done].
  intros [[d c']|] w [Hs Hr]; cbn [scanned] in Hr.
  2: { apply iwp_ret. rewrite Hr. done. }
  destruct Hr as (-> & Hc' & Hlt & Hm). cbn [find]. destruct (ok d); [by apply iwp_ret|].
  eapply iwp_mono; [apply (IH w dl c'); [apply Hs|by eapply chain_now|by eapply cursor_now|lia]|..].
  - intros r x [Hs' ->]. split; [by eapply same_trans|]. unfold rest. by rewrite (slots_same v w).
  - intros rc x (Hs' & ?). split; [by eapply same_trans|done].
Qed.

Lemma cursor_init v dl dclus : head dl = Some dclus -> cursor_ok v dl (fat_dircur_init dclus).
Proof. intros Hh. split; cbn; [done|lia|done]. Qed.

Lemma find_all_spec ok v dl dclus :
  inv v -> chain v dl -> head dl = Some dclus ->
  iwp (find_loop (Z.to_nat (FAT_MAX_DIR_ENTRIES + 1)) ok (fat_dircur_init dclus)) v
    (fun r w => same v w /\ r = find ok (dir_list v dl dclus))
    (fun rc w => same v w /\ rc = VFS_EINVAL /\ ~ reliable D).
Proof.
  intros Hi Hl Hh. change (dir_list v dl dclus) with (rest v dl (fat_dircur_init dclus)).
  apply find_loop_spec; [done|done|by apply cursor_init|]. unfold FAT_MAX_DIR_ENTRIES. cbn [c_index fat_dircur_init]. lia.
Qed.

(** fat_dir_find is a linear search of what the directory holds. *)
Lemma dir_find_spec v dl dclus name :
  inv v -> chain v dl -> head dl = Some dclus ->
  iwp (fat_dir_find dclus name) v
    (fun d w => same v w /\ find (fun d => name_eq_ci (d_name d) name) (dir_list v dl dclus) = Some d)
    (fun rc w => same v w /\
       (rc = VFS_ENOENT /\ find (fun d => name_eq_ci (d_name d) name) (dir_list v dl dclus) = None \/
        rc = VFS_EINVAL /\ ~ reliable D)).
Proof.
  intros Hi Hl Hh. unfold fat_dir_find.
  eapply iwp_seq; [by apply (find_all_spec _ v dl)|..].
  - intros r w [Hs ->]. destruct (find _ _); [by apply iwp_ret|]. split; [done|]. by left.
  - intros rc w (Hs & ?). split; [done|]. by right.
Qed.

Lemma dir_is_empty_spec v dl dclus :
  inv v -> chain v dl -> head dl = Some dclus ->
  iwp (fat_dir_is_empty dclus) v
    (fun b w => same v w /\ b = forallb dot_name (dir_list v dl dclus))
    (fun rc w => same v w /\ rc = VFS_EINVAL /\ ~ reliable D).
Proof.
  intros Hi Hl Hh. unfold fat_dir_is_empty.
  eapply iwp_seq; [by apply (find_all_spec _ v dl)|..]; [|done].
  intros r w [Hs ->]. assert (Hf : forall l, forallb dot_name l = match find (fun d => negb (dot_name d)) l with Some _ => false | None => true end).
  { induction l as [|d l IH]; [done|]. cbn. destruct (dot_name d); [done|done]. }
  rewrite Hf. destruct (find _ _); by apply iwp_ret.
Qed.

End Scan.
