(* ===== verification/FatItems.v ===== *)
(** fs/fat/fat_dir.c: directories as lists of entries. The records fat_dir_add stores for a
    name read back as one entry of that name; a directory in good order is a list of such
    sets. *)

From S2P Require Import Prelude Bytes Rtc Paths Vfs Block FatVol FatMount FatFile FatDisk FatChain FatRw.
From S2P Require Import FatEntry FatSpec FatName FatDir FatNameSpec FatScan.

(** *** One long-name record *)

Definition lo8 (x : Z) : Z := Z.land x 0xFF.
Definition hi8 (x : Z) : Z := wrap8 (Z.shiftr (wrap16 x) 8).

Lemma lfn_record_eq ucs sum ord last :
  let u k := lfn_unit ucs ((ord - 1) * LFN_CHARS + k) in
  lfn_record ucs sum ord last =
  [Z.lor ord (if last then 0x40 else 0);
   lo8 (u 0); hi8 (u 0); lo8 (u 1); hi8 (u 1); lo8 (u 2); hi8 (u 2); lo8 (u 3); hi8 (u 3); lo8 (u 4); hi8 (u 4);
   FAT_ATTR_LFN; 0; sum;
   lo8 (u 5); hi8 (u 5); lo8 (u 6); hi8 (u 6); lo8 (u 7); hi8 (u 7); lo8 (u 8); hi8 (u 8); lo8 (u 9); hi8 (u 9);
   lo8 (u 10); hi8 (u 10); 0; 0; lo8 (u 11); hi8 (u 11); lo8 (u 12); hi8 (u 12)].
Proof. reflexivity. Qed.

Lemma join8 x : 0 <= x < 2 ^ 16 -> Z.lor (lo8 x) (Z.shiftl (hi8 x) 8) = x.
Proof.
  intros Hx. apply (rd16_wr16 (replicate 2 0) 0 x); [lia|done|done].
Qed.

Lemma lo8_byte x : byte_ok (lo8 x).
Proof. unfold byte_ok, lo8. change 0xFF with (2 ^ 8 - 1). rewrite land_mask by lia. pose proof (Z.mod_pos_bound x (2 ^ 8)). lia. Qed.
Lemma hi8_byte x : byte_ok (hi8 x).
Proof. unfold hi8, wrap, byte_ok. pose proof (Z.mod_pos_bound (Z.shiftr (x mod 2 ^ 16) 8) (2 ^ 8)). lia. Qed.

(** The units a record holds. *)
Definition piece (ucs : list Z) (ord : Z) : list Z :=
  map (fun k => lfn_unit ucs ((ord - 1) * LFN_CHARS + Z.of_nat k)) (seq 0 13).

Lemma lfn_unit_range ucs i : Forall unit_ok ucs -> 0 <= lfn_unit ucs i < 2 ^ 16.
Proof.
  intros Hu. unfold lfn_unit. destruct (Z.ltb_spec i (zlen ucs)) as [Hi|]; [|destruct (_ =? _); lia].
  unfold at_. destruct (nth_in_or_default (Z.to_nat i) ucs 0) as [Hin| ->]; [|lia].
  rewrite List.Forall_forall in Hu. destruct (Hu _ Hin). lia.
Qed.

Lemma extract_record ucs sum ord last : Forall unit_ok ucs -> lfn_extract (lfn_record ucs sum ord last) = piece ucs ord.
Proof.
  intros Hu. transitivity (map (fun k => let x := lfn_unit ucs ((ord - 1) * LFN_CHARS + Z.of_nat k) in
    Z.lor (lo8 x) (Z.shiftl (hi8 x) 8)) (seq 0 13)); [reflexivity|].
  apply map_ext. intros k. by apply join8, lfn_unit_range.
Qed.

(** What the scanner sees of a record. *)
Lemma record_seq ord last : 1 <= ord <= 20 ->
  let x := Z.lor ord (if last : bool then 0x40 else 0) in
  x <> 0 /\ x <> FAT_DELETED /\ byte_ok x /\ Z.land x 0x3F = ord /\ negb (Z.land x 0x40 =? 0) = last.
Proof.
  intros Ho. pose proof (all_bytes (fun o => negb ((1 <=? o) && (o <=? 20)) ||
    let x := Z.lor o (if last then 0x40 else 0) in
    negb (x =? 0) && negb (x =? FAT_DELETED) && (0 <=? x) && (x <=? 255) && (Z.land x 0x3F =? o) &&
    Bool.eqb (negb (Z.land x 0x40 =? 0)) last) (ltac:(destruct last; reflexivity)) ord ltac:(unfold byte_ok; lia)) as Ha.
  cbv beta zeta in Ha. replace ((1 <=? ord) && (ord <=? 20)) with true in Ha by lia. cbn [negb orb] in Ha.
  b2p. unfold byte_ok. repeat split; try lia. by apply eqb_prop.
Qed.

Section Records.
Context (ucs : list Z) (sum : Z) (Hu : Forall unit_ok ucs).

Lemma judge_record ord last c : 1 <= ord <= 20 ->
  judge (lfn_record ucs sum ord last) c =
  let c := if last then set_lfn (replicate 260 0) 0 ord sum (c_index c - 1) c else c in
  if (c_count c =? 0) || negb (sum =? c_sum c) || negb (ord =? c_count c - c_have c) then Skip (lfn_reset c)
  else Skip (set_lfn (patch ((ord - 1) * LFN_CHARS) (piece ucs ord) (c_lfn c))
               (c_have c + 1) (c_count c) (c_sum c) (c_first c) c).
Proof using Hu.
  intros Ho. destruct (record_seq ord last Ho) as (H0 & H1 & _ & H2 & H3).
  assert (E : at_ (lfn_record ucs sum ord last) 0 = Z.lor ord (if last then 0x40 else 0)) by done.
  assert (Es : at_ (lfn_record ucs sum ord last) 13 = sum) by done.
  unfold judge, lfn_entry. rewrite E, Es, H2, H3, extract_record by done. rewrite !(proj2 (Z.eqb_neq _ _)) by done.
  change (at_ (lfn_record ucs sum ord last) DE_ATTR =? FAT_ATTR_LFN) with true. cbn iota beta.
  rewrite !(proj2 (Z.ltb_ge _ _)) by lia. done.
Qed.

(** A cursor that has the pieces from [m] on of a name of [n] records. *)
Record gathered (n m first : Z) (c : fat_dircur) : Prop := {
  ga_count : c_count c = n; ga_have : c_have c = n - m; ga_sum : c_sum c = sum; ga_first : c_first c = first;
  ga_len : zlen (c_lfn c) = 260;
  ga_units : forall i, m * LFN_CHARS <= i < n * LFN_CHARS -> at_ (c_lfn c) i = lfn_unit ucs i }.

Lemma zlen_piece ord : zlen (piece ucs ord) = 13.
Proof. unfold zlen, piece. by rewrite length_map, length_seq. Qed.

Lemma at_piece ord i : 0 <= i < 13 -> at_ (piece ucs ord) i = lfn_unit ucs ((ord - 1) * LFN_CHARS + i).
Proof.
  intros Hi. unfold at_, piece. rewrite (nth_indep _ 0 (lfn_unit ucs ((ord - 1) * LFN_CHARS + Z.of_nat 0)))
    by (rewrite length_map, length_seq; lia).
  rewrite (map_nth (fun k => lfn_unit ucs ((ord - 1) * LFN_CHARS + Z.of_nat k))), seq_nth by lia. f_equal. lia.
Qed.

(** One more piece. *)
Lemma gather n m first c :
  0 < m <= n -> n <= 20 -> gathered n m first c ->
  gathered n (m - 1) first (set_lfn (patch ((m - 1) * LFN_CHARS) (piece ucs m) (c_lfn c))
               (c_have c + 1) (c_count c) (c_sum c) (c_first c) c).
Proof.
  intros Hm Hn [Ec Eh Es Ef El Hun]. split; cbn [c_count c_have c_sum c_first c_lfn set_lfn]; unfold LFN_CHARS in *; try done; [lia|..].
  - rewrite zlen_patch; rewrite ?zlen_piece; lia.
  - intros i Hi. rewrite at_patch by (rewrite ?zlen_piece; lia). rewrite zlen_piece. destruct (_ && _) eqn:E; b2p.
    + rewrite at_piece by lia. unfold LFN_CHARS. f_equal. lia.
    + apply Hun. destruct E; b2p; lia.
Qed.

Definition tail_records (m : nat) : list bytes :=
  map (fun i => lfn_record ucs sum (Z.of_nat (m - i)) false) (seq 0 m).

Lemma tail_records_S m : tail_records (S m) = lfn_record ucs sum (Z.of_nat (S m)) false :: tail_records m.
Proof.
  unfold tail_records. cbn [seq map]. f_equal. rewrite <- seq_shift, map_map. by apply map_ext.
Qed.

Lemma lfn_records_S m : lfn_records ucs sum (S m) = lfn_record ucs sum (Z.of_nat (S m)) true :: tail_records m.
Proof.
  unfold lfn_records, tail_records. cbn [seq map]. f_equal. rewrite <- seq_shift, map_map. by apply map_ext.
Qed.

Lemma scan_tail n first m : forall c r,
  Z.of_nat m <= n <= 20 -> gathered n (Z.of_nat m) first c ->
  exists c', gathered n 0 first c' /\ c_index c' = c_index c + Z.of_nat m /\
             entries (tail_records m ++ r) c = entries r c'.
Proof using Hu.
  induction m as [|m IH]; intros c r Hm Hg.
  { exists c. split; [done|]. split; [cbn; lia|done]. }
  rewrite tail_records_S. cbn [app entries]. rewrite judge_record by lia. cbn zeta.
  pose proof Hg as [Ec Eh Es Ef _ _]. cbn [c_count c_have c_sum set_place].
  rewrite Ec, Eh, Es, Z.eqb_refl, (proj2 (Z.eqb_neq n 0)) by lia.
  replace (Z.of_nat (S m) =? n - (n - Z.of_nat (S m))) with true by lia. cbn [negb orb].
  edestruct (IH (set_place (c_index c + 1) 0 0 (set_lfn (patch ((Z.of_nat (S m) - 1) * LFN_CHARS) (piece ucs (Z.of_nat (S m))) (c_lfn c))
    (c_have c + 1) (c_count c) (c_sum c) (c_first c) c)) r) as (c' & Hg' & Ei & E); [lia| |].
  { replace (Z.of_nat m) with (Z.of_nat (S m) - 1) by lia. eapply gather in Hg; [|lia|lia]. destruct Hg. by split. }
  exists c'. split; [done|]. cbn in Ei. split; [lia|]. rewrite <- E. apply entries_sim. split; [done|]. right.
  cbn. rewrite Ec, Es, Eh. done.
Qed.

(** All the records, from a cursor with nothing pending. *)
Lemma scan_records n c r :
  (1 <= n <= 20)%nat ->
  exists c', gathered (Z.of_nat n) 0 (c_index c) c' /\ c_index c' = c_index c + Z.of_nat n /\
             entries (lfn_records ucs sum n ++ r) c = entries r c'.
Proof using Hu.
  intros Hn. destruct n as [|m]; [lia|]. rewrite lfn_records_S. cbn [app entries]. rewrite judge_record by lia.
  cbn [c_count c_have c_sum c_lfn c_first set_place set_lfn]. rewrite Z.eqb_refl, (proj2 (Z.eqb_neq _ 0)) by lia.
  replace (Z.of_nat (S m) =? Z.of_nat (S m) - 0) with true by lia. cbn [negb orb].
  replace (c_index (set_place (c_index c + 1) 0 0 c) - 1) with (c_index c) by (cbn; lia).
  match goal with |- context [entries (tail_records m ++ r) ?c1] => set (c1' := c1) end.
  assert (Hg : gathered (Z.of_nat (S m)) (Z.of_nat m) (c_index c) c1').
  { replace (Z.of_nat m) with (Z.of_nat (S m) - 1) by lia.
    apply (gather (Z.of_nat (S m)) (Z.of_nat (S m)) (c_index c)
             (set_lfn (replicate 260 0) 0 (Z.of_nat (S m)) sum (c_index c) (set_place (c_index c + 1) 0 0 c)));
      [lia|lia|]. split; cbn [c_count c_have c_sum c_first c_lfn set_lfn]; [done|lia|done|done|done|lia]. }
  destruct (scan_tail (Z.of_nat (S m)) (c_index c) m c1' r ltac:(lia) Hg) as (c' & Hg' & Ei & E). exists c'. split; [done|].
  split; [rewrite Ei; unfold c1'; cbn [c_index set_lfn set_place]; lia|done].
Qed.

End Records.

(** The name the gathered pieces spell. *)
Lemma gathered_name ucs sum n first c :
  Forall unit_ok ucs -> 0 < n <= 20 -> zlen ucs <= n * LFN_CHARS -> gathered ucs sum n 0 first c ->
  cstr (take (Z.to_nat (c_count c * LFN_CHARS)) (c_lfn c)) = ucs.
Proof.
  intros Hu Hn Hl [-> _ _ _ El Hun]. unfold LFN_CHARS in *. set (b := take _ _).
  assert (Hz : zlen b = n * 13) by (unfold b; rewrite zlen_take by lia; lia).
  assert (Hb : forall i, 0 <= i < n * 13 -> at_ b i = lfn_unit ucs i).
  { intros i Hi. unfold b. rewrite at_take by lia. apply Hun. lia. }
  clearbody b. assert (Hno : no_nul ucs) by (eapply Forall_impl; [|exact Hu]; intros x [? _]; lia).
  assert (Eb : b = ucs ++ drop (length ucs) b).
  { rewrite <- (take_drop (length ucs) b) at 1. f_equal. apply bytes_ext.
    - unfold zlen in *. rewrite length_take. lia.
    - intros i Hi. unfold zlen in Hi, Hz, Hl. rewrite length_take in Hi.
      replace (length ucs) with (Z.to_nat (zlen ucs)) by (unfold zlen; lia).
      rewrite at_take, Hb by (unfold zlen; lia). unfold lfn_unit. rewrite (proj2 (Z.ltb_lt _ _)) by (unfold zlen; lia). done. }
  destruct (decide (zlen ucs = n * 13)) as [E|E].
  - rewrite Eb, drop_ge, app_nil_r by (unfold zlen in *; lia). by apply cstr_id.
  - rewrite Eb. destruct (drop (length ucs) b) as [|x r] eqn:Ed.
    { apply (f_equal length) in Ed. rewrite length_drop in Ed. unfold zlen in *. cbn in Ed. lia. }
    assert (x = 0) as ->; [|by apply cstr_app].
    specialize (Hb (zlen ucs)). unfold lfn_unit in Hb. rewrite Z.ltb_irrefl, Z.eqb_refl in Hb.
    rewrite <- Hb by (unfold zlen in *; lia). unfold at_. rewrite Eb. rewrite app_nth2 by (unfold zlen; lia).
    replace (Z.to_nat (zlen ucs) - length ucs)%nat with O by (unfold zlen; lia). done.
Qed.

(** *** The short record *)

Lemma short_record_eq s attr first size now :
  length s = 11%nat ->
  short_record s attr first size now =
  s ++ [attr; 0; 0; lo8 (snd now); hi8 (snd now); lo8 (fst now); hi8 (fst now); lo8 (fst now); hi8 (fst now);
        lo8 (Z.shiftr first 16); hi8 (Z.shiftr first 16); lo8 (snd now); hi8 (snd now); lo8 (fst now); hi8 (fst now);
        lo8 (Z.land first 0xFFFF); hi8 (Z.land first 0xFFFF);
        lo8 size; lo8 (Z.shiftr size 8); lo8 (Z.shiftr size 16); lo8 (Z.shiftr size 24)].
Proof.
  intros Hs. destruct now as [d t]. do 11 (destruct s as [|? s]; [done|]). destruct s; [|done]. reflexivity.
Qed.

(** The eleven bytes of a short name as an entry may hold them. *)
Record alias_ok (s : bytes) : Prop := {
  al_len : length s = 11%nat; al_bytes : Forall byte_ok s; al_first : at_ s 0 <> 0 /\ at_ s 0 <> FAT_DELETED }.

(** The kinds of entry that name a file or a directory. *)
Definition attr_ok (attr : Z) : Prop := byte_ok attr /\ Z.land attr FAT_ATTR_VOLUME_ID = 0.

Lemma split32 x : 0 <= x < 2 ^ 32 ->
  Z.lor (Z.shiftl (Z.lor (lo8 (Z.shiftr x 16)) (Z.shiftl (hi8 (Z.shiftr x 16)) 8)) 16)
        (Z.lor (lo8 (Z.land x 0xFFFF)) (Z.shiftl (hi8 (Z.land x 0xFFFF)) 8)) = x.
Proof.
  intros Hx. change 0xFFFF with (2 ^ 16 - 1). rewrite land_mask, Z.shiftr_div_pow2 by lia.
  pose proof (Z.mod_pos_bound x (2 ^ 16) ltac:(lia)). pose proof (Z.div_mod x (2 ^ 16) ltac:(lia)).
  rewrite !join8; [rewrite Z.lor_comm, lor_shiftl by lia; lia|lia|].
  split; [apply Z.div_pos; lia|apply Z.div_lt_upper_bound; lia].
Qed.

Lemma join32 x : 0 <= x < 2 ^ 32 ->
  Z.lor (Z.lor (Z.lor (lo8 x) (Z.shiftl (lo8 (Z.shiftr x 8)) 8)) (Z.shiftl (lo8 (Z.shiftr x 16)) 16))
        (Z.shiftl (lo8 (Z.shiftr x 24)) 24) = x.
Proof.
  intros Hx. apply (rd32_wr32 (replicate 4 0) 0 x); [by repeat constructor|done|done|lia].
Qed.

Lemma short_record_fields s attr first size now :
  alias_ok s -> attr_ok attr -> 0 <= first < 2 ^ 32 -> 0 <= size < 2 ^ 32 ->
  let e := short_record s attr first size now in
  take 11 e = s /\ at_ e 0 = at_ s 0 /\ at_ e DE_ATTR = attr /\ at_ e DE_NTRES = 0 /\
  de_clus e = first /\ de_size e = size /\ zlen e = 32 /\ Forall byte_ok e.
Proof.
  intros [Hl Hb _] [Ha _] Hf Hs. cbn zeta. rewrite short_record_eq by done. unfold de_clus, de_size.
  pose proof lo8_byte as Hby. pose proof hi8_byte as Hbh.
  split; [by rewrite take_app_le, take_ge by lia|].
  split. { unfold at_. rewrite app_nth1 by (rewrite Hl; cbn; lia). done. }
  do 11 (destruct s as [|? s]; [done|]). destruct s; [|done].
  split; [done|]. split; [done|]. split; [exact (split32 first Hf)|]. split; [exact (join32 size Hs)|].
  split; [done|]. apply Forall_app_2; [done|]. by repeat (apply Forall_cons_2 || apply Forall_nil_2).
Qed.

(** Behind a run of slots, with nothing pending. *)
Definition advance (n : Z) (c : fat_dircur) : fat_dircur := set_place (c_index c + n) 0 0 (lfn_reset c).

Section Short.
Context (s : bytes) (attr first size : Z) (now : Z * Z).
Context (Hs : alias_ok s) (Ha : attr_ok attr) (Hf : 0 <= first < 2 ^ 32) (Hz : 0 <= size < 2 ^ 32).
Let e := short_record s attr first size now.

Lemma judge_short c :
  judge e c =
  let found name from := Found (Dirent name (c_index c - 1) from first size attr e) (lfn_reset c) in
  match long_name e c with
  | Some name => found name (c_first c)
  | None => found (cstr (short_to_string e)) (c_index c - 1)
  end.
Proof using Hs Ha Hf Hz.
  destruct (short_record_fields s attr first size now Hs Ha Hf Hz) as (_ & E0 & Eat & _ & Ecl & Esz & _). fold e in E0, Eat, Ecl, Esz.
  destruct Hs as [_ _ [H0 H1]]. destruct Ha as [_ Hv]. unfold judge. rewrite E0, Eat.
  rewrite !(proj2 (Z.eqb_neq _ _)) by done. rewrite Hv, Z.eqb_refl. cbn [negb].
  rewrite (proj2 (Z.eqb_neq attr _)) by by intros ->.
  change (Z.lor (Z.shiftl (fat_rd16 e DE_CLUS_HI) 16) (fat_rd16 e DE_CLUS_LO)) with (de_clus e).
  change (fat_rd32 e DE_SIZE) with (de_size e). by rewrite Ecl, Esz.
Qed.

(** A set with a long name. *)
Lemma long_set_reads ucs name n :
  Forall unit_ok ucs -> ucs2_to_utf8 ucs (VFS_NAME_MAX + 1) = Some name -> name <> [] ->
  (1 <= n <= 20)%nat -> zlen ucs <= Z.of_nat n * LFN_CHARS ->
  forall c r, entries (lfn_records ucs (fat_short_checksum s) n ++ e :: r) c =
    Dirent name (c_index c + Z.of_nat n) (c_index c) first size attr e :: entries r (advance (Z.of_nat n + 1) c).
Proof using Hs Ha Hf Hz.
  intros Hu Hname Hne Hn Hl c r. destruct (scan_records ucs (fat_short_checksum s) Hu n c (e :: r) Hn) as (c' & Hg & Ei & ->).
  cbn [entries]. rewrite judge_short. unfold long_name. cbn [c_count c_have c_sum c_lfn c_first c_index set_place].
  rewrite (gathered_name ucs (fat_short_checksum s) (Z.of_nat n) (c_index c) c') by (done || lia).
  destruct Hg as [-> -> -> -> _ _]. rewrite (proj2 (Z.ltb_lt _ _)), Z.sub_0_r, Z.eqb_refl by lia.
  destruct (short_record_fields s attr first size now Hs Ha Hf Hz) as (Et & _). fold e in Et.
  replace (fat_short_checksum e) with (fat_short_checksum s)
    by (unfold fat_short_checksum; rewrite Et, take_ge; [done|by rewrite (al_len _ Hs)]).
  rewrite Z.eqb_refl. cbn [andb]. rewrite Hname. destruct name as [|x name]; [done|].
  rewrite Ei. f_equal; [f_equal; lia|]. apply entries_sim. split; [cbn; lia|by left].
Qed.

(** A set without. *)
Lemma short_set_reads name :
  short_name_build name = (s, false) ->
  forall c r, c_count c = 0 ->
    entries (e :: r) c = Dirent name (c_index c) (c_index c) first size attr e :: entries r (advance 1 c).
Proof using Hs Ha Hf Hz.
  intros Hb c r Hc. destruct (short_name_exact name s Hb) as (b & x & Hpb & Hpx & Hne & Hlb & Hlx & Es & En).
  cbn [entries]. rewrite judge_short. unfold long_name. cbn [c_count c_index set_place]. rewrite Hc. cbn [Z.ltb andb Z.compare].
  assert (E : short_to_string e = name).
  { destruct (short_record_fields s attr first size now Hs Ha Hf Hz) as (_ & _ & _ & Ent & _). fold e in Ent.
    unfold e in *. rewrite short_record_eq in * by apply Hs. rewrite Es, <- app_assoc in *.
    rewrite En. by apply short_to_string_exact. }
  assert (Hno : no_nul name).
  { assert (Hp : forall l, Forall plain l -> no_nul l) by (intros l Hl; eapply Forall_impl; [|exact Hl]; intros y Hy; by apply plain_ok).
    rewrite En. destruct x as [|y x]; [by apply Hp|]. apply Forall_app_2; [by apply Hp|]. apply Forall_cons_2; [done|]. by apply Hp. }
  rewrite E, cstr_id by done. f_equal. f_equal; lia.
Qed.

End Short.

(** *** Short names the driver makes up *)

Definition dos_char (c : Z) : Prop := short_char_ok c = true \/ c = ch " ".

Lemma dos_char_ok c : dos_char c -> byte_ok c /\ c <> 0 /\ c <> FAT_DELETED.
Proof.
  intros Hc. assert (Hr : 32 <= c <= 126); [|unfold byte_ok, FAT_DELETED; lia]. destruct Hc as [Hc| ->]; [|done].
  unfold short_char_ok in Hc. apply orb_true_iff in Hc as [Hc|Hc]; [apply orb_true_iff in Hc as [Hc|Hc]|]; b2p.
  - change (ch "A") with 65 in *. change (ch "Z") with 90 in *. lia.
  - change (ch "0") with 48 in *. change (ch "9") with 57 in *. lia.
  - rewrite existsb_exists in Hc. destruct Hc as (x & Hin & ->%Z.eqb_eq). cbn in Hin.
    repeat destruct Hin as [<-|Hin]; done || lia.
Qed.

Definition dos_name (s : bytes) : Prop := length s = 11%nat /\ Forall dos_char s.

Lemma dos_name_alias s : dos_name s -> alias_ok s.
Proof.
  intros [Hl Hd]. split; [done|eapply Forall_impl; [|exact Hd]; intros; by apply dos_char_ok|].
  destruct s as [|c s]; [done|]. apply Forall_inv in Hd. change (at_ (c :: s) 0) with c. by apply dos_char_ok.
Qed.

Lemma pad_dos n b : Forall dos_char b -> Forall dos_char (pad_to n b).
Proof. intros Hb. apply Forall_app_2; [done|]. apply Forall_replicate. by right. Qed.

Lemma short_part_dos cap p b lost : short_part cap p = (b, lost) -> Forall dos_char b /\ (length b <= cap)%nat.
Proof.
  unfold short_part. intros [= <- _]. rewrite length_take. split; [|lia]. apply Forall_take. rewrite map_map.
  apply Forall_map, List.Forall_forall. intros c _. unfold short_char. left.
  destruct (_ && _); cbn; [destruct (short_char_ok (up c)) eqn:E|destruct (short_char_ok c) eqn:E]; done.
Qed.

Lemma build_dos name s f : short_name_build name = (s, f) -> dos_name s.
Proof.
  unfold short_name_build. set (p := skip_dots name).
  destruct (match last_dot p with Some (b, e) => (b, Some e) | None => (p, None) end) as [base ext].
  destruct (short_part 8 base) as [b lost] eqn:Eb. apply short_part_dos in Eb as [Hb Hlb].
  set (b1 := match b with [] => ([ch "_"], true) | _ => (b, false) end).
  assert (Hb1 : Forall dos_char (fst b1) /\ (length (fst b1) <= 8)%nat).
  { unfold b1. destruct b; [split; [repeat constructor|cbn; lia]|done]. }
  destruct b1 as [b1' none]. cbn [fst] in Hb1. destruct Hb1 as [Hb1 Hlb1].
  set (e1 := match ext with Some x => short_part 3 x | None => ([], false) end).
  assert (He1 : Forall dos_char (fst e1) /\ (length (fst e1) <= 3)%nat).
  { unfold e1. destruct ext as [x|]; [|by split; [apply Forall_nil_2|cbn; lia]].
    destruct (short_part 3 x) eqn:E. by apply short_part_dos in E. }
  destruct e1 as [e1' elost]. cbn [fst] in He1. destruct He1 as [He1 Hle1]. intros [= <- _].
  set (out := pad_to 8 b1' ++ pad_to 3 e1').
  assert (Ho : Forall dos_char out) by by apply Forall_app_2; apply pad_dos.
  assert (Hl : length out = 11%nat) by (unfold out; rewrite length_app, !length_pad by lia; done).
  destruct out as [|c r]; [done|]. apply Forall_inv in Ho as Hc. destruct (dos_char_ok c Hc) as (_ & _ & Hne).
  rewrite (proj2 (Z.eqb_neq _ _)) by done. done.
Qed.

Lemma cut_blanks_le k base : (cut_blanks k base <= k)%nat.
Proof. induction k as [|k IH]; cbn [cut_blanks]; [lia|]. destruct (_ =? _); lia. Qed.

Lemma tilde_dos base n : dos_name base -> 1 <= n <= 4 -> dos_name (tilde_name base n).
Proof.
  intros [Hl Hd] Hn. unfold tilde_name. pose proof (cut_blanks_le 6 base). set (cut := cut_blanks 6 base) in *. clearbody cut. split.
  - rewrite length_app, length_pad, length_drop; [lia|]. rewrite length_app, length_take. cbn. lia.
  - apply Forall_app_2; [|by apply Forall_drop]. apply pad_dos, Forall_app_2; [by apply Forall_take|].
    apply Forall_cons_2; [by left|]. apply Forall_cons_2; [|by apply Forall_nil_2]. left.
    assert (n = 1 \/ n = 2 \/ n = 3 \/ n = 4) as [->|[->|[->| ->]]] by lia; done.
Qed.

Lemma hex_dos x : dos_char (hex_digit x).
Proof.
  unfold hex_digit. change 15 with (2 ^ 4 - 1). rewrite land_mask by lia. pose proof (Z.mod_pos_bound x (2 ^ 4) ltac:(lia)).
  change (2 ^ 4) with 16 in *. set (m := x mod 16) in *. clearbody m. left. assert (Hall : forallb (fun n => short_char_ok (at_ (lit "0123456789ABCDEF") (Z.of_nat n))) (seq 0 16) = true) by done.
  rewrite forallb_forall in Hall. specialize (Hall (Z.to_nat m)). rewrite Z2Nat.id in Hall by lia. apply Hall, in_seq. lia.
Qed.

Lemma hash_dos base h i : dos_name base -> dos_name (hash_name base h i).
Proof.
  intros [Hl Hd]. unfold hash_name.
  assert (Hat : forall k, (k < 11)%nat -> dos_char (at_ base (Z.of_nat k))).
  { intros k Hk. unfold at_. rewrite Nat2Z.id. rewrite List.Forall_forall in Hd. apply Hd, nth_In. lia. }
  assert (Hnb : forall c, dos_char c -> dos_char (if c =? ch " " then ch "_" else c)).
  { intros c Hc. destruct (_ =? _); [by left|done]. }
  pose proof (Hat 0%nat ltac:(lia)). pose proof (Hat 1%nat ltac:(lia)). split.
  - rewrite length_app, length_drop, Hl. done.
  - apply Forall_app_2; [|by apply Forall_drop].
    repeat (apply Forall_cons_2; [first [by apply hex_dos|by apply Hnb|by left]|]). apply Forall_nil_2.
Qed.

(** ** The shape of a directory in good order: groups of slots, each one nothing or the whole
    set of records of one entry, and then only end marks. Putting a set into free slots
    adds one entry to the listing, marking the slots of one deleted takes it out. *)

Inductive item :=
| Gone (e : bytes)
| Named (recs : list bytes) (e name : bytes).

Definition item_slots (it : item) : list bytes :=
  match it with Gone e => [e] | Named recs e _ => recs ++ [e] end.

(** What the item is to a reader who comes to it at slot [i]. *)
Definition item_entry (it : item) (i : Z) : list fat_dirent :=
  match it with
  | Gone _ => []
  | Named recs e name =>
      [Dirent name (i + Z.of_nat (length recs)) i (de_clus e) (de_size e) (at_ e DE_ATTR) e]
  end.

Definition in_use (e : bytes) : Prop := at_ e 0 <> 0 /\ at_ e 0 <> FAT_DELETED.
Definition free_slot (e : bytes) : Prop := at_ e 0 = 0 \/ at_ e 0 = FAT_DELETED.
Definition end_mark (e : bytes) : Prop := at_ e 0 = 0.

(** A slot that scanners pass over. *)
Definition idle (e : bytes) : Prop := at_ e 0 <> 0 /\ forall c, judge e c = Skip (lfn_reset c).

Definition item_ok (it : item) : Prop :=
  match it with
  | Gone e => idle e
  | Named recs e name =>
      Forall (fun r => in_use r /\ at_ r DE_ATTR = FAT_ATTR_LFN) recs /\ in_use e /\ at_ e DE_ATTR <> FAT_ATTR_LFN /\
      forall c r, c_count c = 0 ->
        entries (recs ++ e :: r) c =
        item_entry it (c_index c) ++ entries r (advance (Z.of_nat (length recs) + 1) c)
  end.

Definition slots_of (its : list item) : list bytes := concat (map item_slots its).
Fixpoint listing (its : list item) (i : Z) : list fat_dirent :=
  match its with
  | [] => []
  | it :: its => item_entry it i ++ listing its (i + Z.of_nat (length (item_slots it)))
  end.

Definition tidy (ss : list bytes) (its : list item) : Prop :=
  Forall item_ok its /\ exists zs, ss = slots_of its ++ zs /\ Forall end_mark zs.

(** *** Reading *)

Lemma slots_of_app a b : slots_of (a ++ b) = slots_of a ++ slots_of b.
Proof. unfold slots_of. by rewrite map_app, concat_app. Qed.
Lemma slots_of_cons it its : slots_of (it :: its) = item_slots it ++ slots_of its.
Proof. done. Qed.
Lemma slots_of_gone gs : slots_of (map Gone gs) = gs.
Proof. induction gs as [|g gs IH]; [done|]. cbn [map]. rewrite slots_of_cons, IH. done. Qed.

Lemma listing_app a : forall b i,
  listing (a ++ b) i = listing a i ++ listing b (i + Z.of_nat (length (slots_of a))).
Proof.
  induction a as [|it a IH]; intros b i; cbn [app listing]; [f_equal; cbn; lia|].
  rewrite IH, <- app_assoc, slots_of_cons, length_app. do 3 f_equal. lia.
Qed.
Lemma listing_gone gs : forall i, listing (map Gone gs) i = [].
Proof. induction gs as [|g gs IH]; intros i; [done|]. apply IH. Qed.

Lemma idle_deleted e : at_ e 0 = FAT_DELETED -> idle e.
Proof. intros E. split; [by rewrite E|]. intros c. unfold judge. by rewrite E. Qed.

Lemma advance_sim a b n m : c_index a + n = c_index b + m -> csim (advance n a) (advance m b).
Proof. intros E. split; [done|by left]. Qed.

Lemma item_reads it c r :
  item_ok it -> c_count c = 0 ->
  entries (item_slots it ++ r) c = item_entry it (c_index c) ++ entries r (advance (Z.of_nat (length (item_slots it))) c).
Proof.
  intros Hok Hc. destruct it as [e|recs e name]; cbn [item_slots].
  - destruct Hok as [_ Hj]. cbn [app entries item_entry]. rewrite Hj. apply entries_sim. split; [done|by left].
  - destruct Hok as (_ & _ & _ & Hr). rewrite <- app_assoc. cbn [app]. rewrite Hr by done. f_equal.
    apply entries_sim, advance_sim. rewrite length_app. cbn. lia.
Qed.

Lemma items_read its : Forall item_ok its -> forall c r, c_count c = 0 ->
  entries (slots_of its ++ r) c = listing its (c_index c) ++ entries r (advance (Z.of_nat (length (slots_of its))) c).
Proof.
  induction 1 as [|it its Hit _ IH]; intros c r Hc.
  - cbn [slots_of map concat app listing]. apply entries_sim. split; [cbn; lia|by left].
  - rewrite slots_of_cons, <- app_assoc, item_reads, IH by done. cbn [listing]. rewrite <- app_assoc.
    f_equal. f_equal. apply entries_sim, advance_sim. rewrite length_app. cbn [c_index advance set_place lfn_reset]. lia.
Qed.

Lemma marks_read zs c : Forall end_mark zs -> entries zs c = [].
Proof. destruct 1 as [|z zs Hz _]; [done|]. cbn [entries]. unfold judge. by rewrite Hz. Qed.

Lemma tidy_reads ss its dclus : tidy ss its -> entries ss (fat_dircur_init dclus) = listing its 0.
Proof.
  intros (Hok & zs & -> & Hz). rewrite items_read, (marks_read zs), app_nil_r by done. done.
Qed.

(** The entry and its item. *)
Lemma listing_item its : forall i d, d ∈ listing its i ->
  exists its1 recs e name its2, its = its1 ++ Named recs e name :: its2 /\
    item_entry (Named recs e name) (i + Z.of_nat (length (slots_of its1))) = [d].
Proof.
  induction its as [|it its IH]; intros i d Hd; [by apply elem_of_nil in Hd|]. cbn [listing] in Hd.
  apply elem_of_app in Hd as [Hd|Hd].
  - destruct it as [g|recs e name]; [by apply elem_of_nil in Hd|]. apply list_elem_of_singleton in Hd as ->.
    exists [], recs, e, name, its. split; [done|]. cbn [slots_of map concat length]. by rewrite Z.add_0_r.
  - apply IH in Hd as (its1 & recs & e & name & its2 & -> & E). exists (it :: its1), recs, e, name, its2.
    split; [done|]. rewrite slots_of_cons, length_app, Nat2Z.inj_add, Z.add_assoc. done.
Qed.

(** *** Free slots *)

Lemma in_use_not_free e : in_use e -> free_slot e -> False.
Proof. intros [? ?] [?|?]; congruence. Qed.

Lemma named_in_use recs e name x : item_ok (Named recs e name) -> x ∈ recs ++ [e] -> in_use x.
Proof.
  intros (Hr & He & _) [Hx|Hx]%elem_of_app.
  - rewrite List.Forall_forall in Hr. by apply Hr, list_elem_of_In.
  - by apply list_elem_of_singleton in Hx as ->.
Qed.

(** A run of free slots lies between items, or runs into the end marks. *)
Lemma free_run n : forall its k zs,
  Forall item_ok its -> (k <= length (slots_of its))%nat ->
  (forall j, (k <= j < k + n)%nat -> exists x, (slots_of its ++ zs) !! j = Some x /\ free_slot x) ->
  exists its1 gs its2, its = its1 ++ map Gone gs ++ its2 /\
    (length gs = n \/ ((length gs < n)%nat /\ its2 = [])) /\
    (length (slots_of its1) = k \/ n = O).
Proof.
  induction n as [|n IHn]; intros its k zs Hok Hk Hfree.
  { exists its, [], []. rewrite app_nil_r. auto. }
  revert k Hk Hfree. induction Hok as [|it its Hit Hok IH]; intros k Hk Hfree.
  { cbn in Hk. exists [], [], []. cbn. split; [done|]. split; [right; split; [lia|done]|lia]. }
  destruct (decide (k = O)) as [->|Hk0].
  - destruct (Hfree O) as (x & Hx & Hf); [lia|]. destruct it as [g|recs e name].
    + destruct (IHn its O zs Hok) as (its1 & gs & its2 & E & Hlen & Hpos); [lia| |].
      { intros j Hj. destruct (Hfree (S j)) as (y & Hy & ?); [lia|]. by exists y. }
      destruct Hpos as [Hpos|Hn0].
      * destruct its1 as [|i1 its1].
        2: { apply nil_length_inv in Hpos. rewrite slots_of_cons in Hpos. destruct i1 as [|[|? ?]]; done. }
        exists [], (g :: gs), its2. cbn [app map length]. rewrite E. split; [done|]. split; [|by left].
        destruct Hlen as [->|[? ->]]; [by left|right; split; [lia|done]].
      * subst n. exists [], [g], its. split; [done|]. split; [by left|by left].
    + exfalso. rewrite slots_of_cons in Hx. assert (Hin : x ∈ recs ++ [e]).
      { cbn [item_slots] in Hx. rewrite <- app_assoc, lookup_app_l in Hx by (rewrite length_app; cbn; lia).
        by eapply list_elem_of_lookup_2. }
      eapply in_use_not_free; [by eapply named_in_use|done].
  - set (m := length (item_slots it)). rewrite slots_of_cons, length_app in Hk. fold m in Hk.
    destruct (decide (m <= k)%nat) as [Hm|Hm].
    + destruct (IH (k - m)%nat) as (its1 & gs & its2 & E & Hlen & Hpos); [lia| |].
      { intros j Hj. destruct (Hfree (m + j)%nat) as (y & Hy & ?); [lia|]. exists y. split; [|done].
        rewrite slots_of_cons, <- app_assoc, lookup_app_r in Hy by lia. fold m in Hy. by replace (m + j - m)%nat with j in Hy by lia. }
      exists (it :: its1), gs, its2. cbn [app]. rewrite E. split; [done|]. split; [done|]. left.
      rewrite slots_of_cons, length_app. fold m. lia.
    + exfalso. destruct (Hfree k) as (x & Hx & Hf); [lia|].
      destruct it as [g|recs e name]; [cbn in m; lia|]. rewrite slots_of_cons, <- app_assoc, lookup_app_l in Hx by lia.
      eapply in_use_not_free; [eapply named_in_use; [done|by eapply list_elem_of_lookup_2]|done].
Qed.

(** Putting an item into free slots. *)
Lemma tidy_place ss its it k :
  tidy ss its -> item_ok it -> (k <= length (slots_of its))%nat -> item_slots it <> [] ->
  let n := length (item_slots it) in
  (forall j, (k <= j < k + n)%nat -> exists x, ss !! j = Some x /\ free_slot x) ->
  exists its', tidy (take k ss ++ item_slots it ++ drop (k + n) ss) its' /\
    exists l1 l2, listing its 0 = l1 ++ l2 /\ listing its' 0 = l1 ++ item_entry it (Z.of_nat k) ++ l2.
Proof.
  intros (Hok & zs & -> & Hz) Hit Hk Hne n Hfree.
  destruct (free_run n its k zs Hok Hk Hfree) as (its1 & gs & its2 & -> & Hlen & Hpos).
  destruct Hpos as [Hpos|Hn0]; [|by apply nil_length_inv in Hn0].
  apply Forall_app in Hok as [Hok1 Hok2]. apply Forall_app in Hok2 as [_ Hok2].
  exists (its1 ++ it :: its2). split; [split|].
  - apply Forall_app_2; [done|by apply Forall_cons_2].
  - rewrite !slots_of_app, slots_of_cons, slots_of_gone, <- !app_assoc.
    rewrite take_app_le, take_ge, drop_app_ge by lia. rewrite Hpos. replace (k + n - k)%nat with n by lia.
    destruct Hlen as [Hlen|[Hlen ->]].
    + exists zs. split; [|done]. rewrite drop_app_ge, Hlen, Nat.sub_diag, drop_0 by lia. by rewrite <- !app_assoc.
    + exists (drop (n - length gs) zs). split; [|by apply Forall_drop]. rewrite drop_app_ge by lia. by rewrite <- !app_assoc.
  - exists (listing its1 0), (listing its2 (Z.of_nat (k + n))).
    rewrite !listing_app, listing_gone. cbn [app listing]. rewrite slots_of_gone, Hpos. cbn [Z.add].
    split; [|fold n; do 2 f_equal; f_equal; lia]. f_equal.
    destruct Hlen as [->|[? ->]]; [f_equal; lia|done].
Qed.

(** Retiring end marks. *)
Lemma tidy_retire ss its gs zs :
  tidy ss its -> ss = slots_of its ++ zs -> Forall idle gs -> (length gs <= length zs)%nat ->
  tidy (slots_of its ++ gs ++ drop (length gs) zs) (its ++ map Gone gs) /\
  listing (its ++ map Gone gs) 0 = listing its 0.
Proof.
  intros (Hok & zs' & -> & Hz) E%app_inv_head Hg Hl. subst zs'. split; [split|].
  - apply Forall_app_2; [done|]. by apply Forall_map.
  - exists (drop (length gs) zs). split; [by rewrite slots_of_app, slots_of_gone, app_assoc|by apply Forall_drop].
  - by rewrite listing_app, listing_gone, app_nil_r.
Qed.

Lemma tidy_grow ss its zs : tidy ss its -> Forall end_mark zs -> tidy (ss ++ zs) its.
Proof.
  intros (Hok & zs' & -> & Hz) Hzs. split; [done|]. exists (zs' ++ zs). split; [by rewrite app_assoc|by apply Forall_app_2].
Qed.

(** *** Taking an entry out *)

Lemma records_pass recs : Forall (fun r => in_use r /\ at_ r DE_ATTR = FAT_ATTR_LFN) recs ->
  forall g r c, idle g -> entries (recs ++ g :: r) c = entries r (advance (Z.of_nat (length recs) + 1) c).
Proof.
  induction 1 as [|x recs [[H0 H1] Ha] _ IH]; intros g r c [Hg0 Hg].
  - cbn [app entries]. rewrite Hg. apply entries_sim. split; [done|by left].
  - cbn [app entries]. unfold judge at 1. rewrite !(proj2 (Z.eqb_neq _ _)) by done. rewrite Ha, Z.eqb_refl.
    assert (E : exists c', lfn_entry x (set_place (c_index c + 1) 0 0 c) = Skip c' /\ c_index c' = c_index c + 1).
    { unfold lfn_entry. destruct (_ || _); [by eexists|]. cbn zeta. destruct (negb (Z.land _ 64 =? 0)); destruct (_ || _); by eexists. }
    destruct E as (c' & -> & Ei). rewrite IH by done. apply entries_sim, advance_sim. rewrite Ei. cbn [length]. lia.
Qed.

(** Deleted from slot [m] of the set on. *)
Lemma partly_removed its1 recs e name its2 zs m gs dclus :
  Forall item_ok (its1 ++ Named recs e name :: its2) -> Forall end_mark zs ->
  (m <= length recs)%nat -> length gs = (length recs + 1 - m)%nat -> Forall idle gs ->
  entries (slots_of its1 ++ (take m recs ++ gs) ++ slots_of its2 ++ zs) (fat_dircur_init dclus) =
  listing its1 0 ++ listing its2 (Z.of_nat (length (slots_of its1) + length recs + 1)).
Proof.
  intros Hok Hz Hm Hl Hg. apply Forall_app in Hok as [Hok1 Hok2]. apply Forall_cons_1 in Hok2 as [Hn Hok2].
  rewrite items_read by done. f_equal. destruct gs as [|g gs]; [cbn in Hl; lia|]. apply Forall_cons_1 in Hg as [Hg0 Hg].
  destruct Hn as (Hrecs & _). rewrite <- !app_assoc. cbn [app].
  rewrite records_pass by (by apply Forall_take || done). rewrite <- (slots_of_gone gs).
  assert (Hgs : Forall item_ok (map Gone gs)) by by apply Forall_map.
  rewrite items_read, listing_gone by done. cbn [app]. rewrite items_read, (marks_read zs), app_nil_r by done.
  f_equal. rewrite slots_of_gone, length_take. cbn [c_index advance set_place lfn_reset fat_dircur_init length] in *. lia.
Qed.

Lemma tidy_remove its1 recs e name its2 zs gs :
  tidy (slots_of (its1 ++ Named recs e name :: its2) ++ zs) (its1 ++ Named recs e name :: its2) ->
  Forall end_mark zs -> Forall idle gs -> length gs = (length recs + 1)%nat ->
  tidy (slots_of its1 ++ gs ++ slots_of its2 ++ zs) (its1 ++ map Gone gs ++ its2) /\
  listing (its1 ++ map Gone gs ++ its2) 0 = listing its1 0 ++ listing its2 (Z.of_nat (length (slots_of its1) + length recs + 1)).
Proof.
  intros [Hok _] Hz Hg Hl. apply Forall_app in Hok as [Hok1 Hok2]. apply Forall_cons_1 in Hok2 as [_ Hok2]. split; [split|].
  - apply Forall_app_2; [done|]. apply Forall_app_2; [by apply Forall_map|done].
  - exists zs. split; [|done]. by rewrite !slots_of_app, slots_of_gone, <- !app_assoc.
  - rewrite !listing_app, listing_gone, slots_of_gone. cbn [app]. do 2 f_equal. lia.
Qed.
