(* ===== verification/FatPlace.v ===== *)
(** fs/fat/fat_dir.c: a directory sector by sector, sixteen slots to a sector, and the search
    of a sector for a run of free slots. *)

From S2P Require Import Prelude Bytes Rtc Paths Vfs Block FatVol FatMount FatFile FatDisk FatChain FatRw.
From S2P Require Import FatEntry FatSpec FatName FatDir FatNameSpec FatScan FatItems.

(** *** The slots in a sector *)

Definition cut (b : bytes) : list bytes := map (fun t => slice (32 * Z.of_nat t) b) (seq 0 16).

Lemma length_cut b : length (cut b) = 16%nat.
Proof. unfold cut. by rewrite length_map, length_seq. Qed.

Lemma cut_lookup b t : (t < 16)%nat -> cut b !! t = Some (slice (32 * Z.of_nat t) b).
Proof. intros Ht. unfold cut. by rewrite list_lookup_fmap, lookup_seq_lt by done. Qed.

Lemma at_cut b t : (t < 16)%nat -> at_ b (Z.of_nat t * 32) = at_ (slice (32 * Z.of_nat t) b) 0.
Proof. intros Ht. rewrite at_slice by lia. f_equal. lia. Qed.

(** A slot overwritten. *)
Lemma cut_patch b t e : (t < 16)%nat -> zlen e = 32 -> zlen b = SECTOR ->
  cut (patch (32 * Z.of_nat t) e b) = <[t := e]> (cut b).
Proof.
  intros Ht He Hb. unfold SECTOR in Hb. apply list_eq. intros i. destruct (decide (i < 16)%nat) as [Hi|Hi].
  2: { rewrite !lookup_ge_None_2; [done|rewrite length_insert|]; rewrite length_cut; lia. }
  rewrite cut_lookup by done. destruct (decide (i = t)) as [->|Hne].
  - rewrite list_lookup_insert_eq by (rewrite length_cut; lia). f_equal. apply bytes_ext.
    { rewrite zlen_slice by (rewrite ?zlen_patch; lia). done. }
    intros j Hj. rewrite zlen_slice in Hj by (rewrite ?zlen_patch; lia).
    rewrite at_slice, at_patch, range_in by lia. f_equal. lia.
  - rewrite list_lookup_insert_ne, cut_lookup by done. f_equal. apply bytes_ext.
    { rewrite !zlen_slice by (rewrite ?zlen_patch; lia). done. }
    intros j Hj. rewrite zlen_slice in Hj by (rewrite ?zlen_patch; lia).
    rewrite !at_slice, at_patch, range_out by lia. done.
Qed.

Lemma cut_slot_len b x : zlen b = SECTOR -> x ∈ cut b -> zlen x = 32.
Proof.
  intros Hb Hx. apply list_elem_of_lookup in Hx as [t Ht]. pose proof (lookup_lt_Some _ _ _ Ht) as Hl. rewrite length_cut in Hl.
  rewrite cut_lookup in Ht by done. injection Ht as <-. apply zlen_slice; unfold SECTOR in *; lia.
Qed.

(** Slots overwritten from [t] on. *)
Lemma patch_app b off p q : 0 <= off -> off + zlen p + zlen q <= zlen b ->
  patch off (p ++ q) b = patch (off + zlen p) q (patch off p b).
Proof.
  intros H0 Hl. pose proof (zlen_nonneg p). pose proof (zlen_nonneg q). apply bytes_ext.
  { rewrite !zlen_patch; rewrite ?zlen_app, ?zlen_patch; lia. }
  intros j Hj. rewrite zlen_patch in Hj by (rewrite ?zlen_app; lia).
  rewrite !at_patch by (rewrite ?zlen_app, ?zlen_patch; lia). rewrite zlen_app.
  destruct (Z_lt_le_dec j off); [by rewrite !range_out by lia|].
  destruct (Z_lt_le_dec j (off + zlen p)).
  { rewrite range_in, range_out, range_in by lia. unfold at_. rewrite app_nth1; [done|]. unfold zlen in *. lia. }
  destruct (Z_lt_le_dec j (off + zlen p + zlen q)); [|by rewrite !range_out by lia].
  rewrite !range_in by lia. unfold at_. rewrite app_nth2; [|unfold zlen in *; lia]. f_equal. unfold zlen in *. lia.
Qed.

Lemma zlen_concat es : Forall (fun e : bytes => zlen e = 32) es -> zlen (concat es) = 32 * Z.of_nat (length es).
Proof. induction 1 as [|e es He _ IH]; [done|]. cbn [concat length]. rewrite zlen_app, He, IH. lia. Qed.

Lemma cut_set es : forall b t, Forall (fun e : bytes => zlen e = 32) es ->
  (t + length es <= 16)%nat -> zlen b = SECTOR ->
  cut (patch (32 * Z.of_nat t) (concat es) b) = take t (cut b) ++ es ++ drop (t + length es) (cut b).
Proof.
  induction es as [|e es IH]; intros b t Hes Ht Hb.
  { cbn [concat length app]. rewrite Nat.add_0_r, take_drop. f_equal. unfold patch. cbn [length app]. by rewrite Nat.add_0_r, take_drop. }
  apply Forall_cons_1 in Hes as [He Hes]. cbn [concat length app] in *. pose proof (zlen_concat es Hes) as Hz.
  unfold SECTOR in *. rewrite patch_app by lia. replace (32 * Z.of_nat t + zlen e) with (32 * Z.of_nat (S t)) by lia.
  rewrite IH, cut_patch; [|lia|done|done|done|lia|rewrite zlen_patch; lia].
  assert (Hlk : cut b !! t = Some (slice (32 * Z.of_nat t) b)) by (apply cut_lookup; lia).
  rewrite (take_S_r _ _ e) by (apply list_lookup_insert_eq; rewrite length_cut; lia).
  rewrite take_insert_ge, drop_insert_lt by lia. rewrite <- app_assoc. cbn [app]. do 3 f_equal. f_equal. lia.
Qed.

(** *** The sectors of a directory *)

Section Slots.
Context {D : Type} `{DiskLaws D}.
Implicit Types (v w : vst D) (dl : list Z).

(** Directories are scanned whole clusters at a time: the limit falls on a boundary. *)
Definition aligned v : Prop := (bytes_per_clus (vol v) / 32 | FAT_MAX_DIR_ENTRIES).

Lemma inv_aligned v : inv v -> aligned v.
Proof.
  intros Hi. destruct (slots_per_cluster v Hi) as (Ee & _). destruct (g_pow2 _ (i_geometry _ Hi)) as [m Hm]. unfold aligned.
  rewrite Ee. exists (m * 32). unfold FAT_MAX_DIR_ENTRIES. lia.
Qed.

(** Sector [s] of cluster [pos] of the directory. *)
Record sector_at v dl (pos c s : Z) : Prop := {
  sa_pos : 0 <= pos; sa_clus : dl !! Z.to_nat pos = Some c; sa_sec : 0 <= s < sec_per_clus (vol v);
  sa_max : pos * (bytes_per_clus (vol v) / 32) < FAT_MAX_DIR_ENTRIES }.

(** The slot it starts with. *)
Definition slot0 v (pos s : Z) : Z := pos * (bytes_per_clus (vol v) / 32) + 16 * s.

Lemma slot0_range v dl pos c s :
  inv v -> aligned v -> sector_at v dl pos c s ->
  0 <= slot0 v pos s /\ slot0 v pos s + 16 <= Z.min (nslots v dl) FAT_MAX_DIR_ENTRIES.
Proof.
  intros Hi [m Hm] [Hp Hc Hs Hx]. destruct (slots_per_cluster v Hi) as (Ee & He & _). unfold slot0, nslots in *.
  set (epc := bytes_per_clus (vol v) / 32) in *. apply lookup_lt_Some in Hc. rewrite Hm in Hx |- *.
  assert (pos < m) by nia. split; [nia|]. apply Z.min_glb; nia.
Qed.

Lemma slot0_aligned v pos s : inv v -> slot0 v pos s mod 16 = 0.
Proof.
  intros Hi. destruct (slots_per_cluster v Hi) as (Ee & _). unfold slot0. rewrite Ee.
  replace (pos * (sec_per_clus (vol v) * 16) + 16 * s) with ((pos * sec_per_clus (vol v) + s) * 16) by lia. apply Z.mod_mul. lia.
Qed.

Lemma sector_slot v dl pos c s t :
  inv v -> chain v dl -> sector_at v dl pos c s -> (t < 16)%nat ->
  dirent v dl (slot0 v pos s + Z.of_nat t) = slice (32 * Z.of_nat t) (sec v (dsec v c s)).
Proof.
  intros Hi Hl [Hp Hc Hs _] Ht. destruct (slots_per_cluster v Hi) as (Ee & He & Eb).
  apply dirent_slice with (pos := pos); [done|done|]. unfold entry_at, slot0, SECTOR.
  split; [done|]. split; [done|]. split; [done|]. lia.
Qed.

Lemma slots_sector v dl pos c s :
  inv v -> aligned v -> chain v dl -> sector_at v dl pos c s ->
  take 16 (drop (Z.to_nat (slot0 v pos s)) (slots v dl)) = cut (sec v (dsec v c s)).
Proof.
  intros Hi Hal Hl Hsa. destruct (slot0_range v dl pos c s Hi Hal Hsa) as [H0' Hr]. pose proof (length_slots v dl Hi) as Hlen.
  apply list_eq. intros t. destruct (decide (t < 16)%nat) as [Ht|Ht].
  - rewrite lookup_take_lt, lookup_drop, cut_lookup by done.
    replace (Z.to_nat (slot0 v pos s) + t)%nat with (Z.to_nat (slot0 v pos s + Z.of_nat t)) by lia.
    rewrite slots_lookup by (done || lia). by rewrite (sector_slot v dl pos c s).
  - rewrite !lookup_ge_None_2; [done|rewrite length_cut; lia|rewrite length_take; lia].
Qed.

(** The directory after one of its sectors was written. *)
Lemma slots_stored v w dl pos c s b :
  inv v -> aligned v -> chain v dl -> sector_at v dl pos c s -> zlen b = SECTOR ->
  written v w dl (slot0 v pos s * 32) b ->
  slots w dl = take (Z.to_nat (slot0 v pos s)) (slots v dl) ++ cut b ++ drop (Z.to_nat (slot0 v pos s + 16)) (slots v dl).
Proof.
  intros Hi Hal Hl Hsa Hb [Hw Hby]. destruct (slot0_range v dl pos c s Hi Hal Hsa) as [H0' Hr].
  set (k := slot0 v pos s) in *. pose proof (wi_next _ _ _ Hw) as [Hiw Est].
  pose proof (length_slots v dl Hi) as Hlen. pose proof (length_slots w dl Hiw) as Hlenw.
  rewrite (static_nslots v w) in Hlenw by done.
  destruct (slots_per_cluster v Hi) as (_ & _ & Eb). unfold SECTOR in Hb.
  assert (Hroom : nslots v dl * 32 = room v dl) by (unfold nslots, room; rewrite Eb at 2; lia).
  assert (Hout : forall i, 0 <= i < nslots v dl -> ~ (k <= i < k + 16) -> dirent w dl i = dirent v dl i).
  { intros i Hir Hne. apply dirent_ext. intros j Hj. rewrite Hby, range_out by lia. done. }
  apply list_eq. intros i. destruct (decide (Z.of_nat i < Z.min (nslots v dl) FAT_MAX_DIR_ENTRIES)) as [Hlt|Hlt].
  2: { rewrite !lookup_ge_None_2; [done| |lia]. rewrite !length_app, length_take, length_cut, length_drop. lia. }
  replace i with (Z.to_nat (Z.of_nat i)) at 1 by lia.
  rewrite slots_lookup by (done || rewrite ?(static_nslots v w) by done; lia).
  destruct (decide (i < Z.to_nat k)%nat) as [Hlo|Hlo].
  { rewrite lookup_app_l, lookup_take_lt by (rewrite ?length_take; lia).
    replace i with (Z.to_nat (Z.of_nat i)) at 2 by lia. rewrite slots_lookup by (done || lia). f_equal. apply Hout; lia. }
  rewrite lookup_app_r, length_take, Nat.min_l by (rewrite ?length_take; lia).
  destruct (decide (i < Z.to_nat k + 16)%nat) as [Hmid|Hhi].
  - rewrite lookup_app_l, cut_lookup by (rewrite ?length_cut; lia). f_equal. apply bytes_ext.
    { rewrite zlen_slice by lia. apply zlen_fbytes. }
    unfold dirent at 1. rewrite zlen_fbytes. intros j Hj. unfold dirent. rewrite at_fbytes, Hby, range_in, at_slice by lia. f_equal. lia.
  - rewrite lookup_app_r, length_cut, lookup_drop by (rewrite length_cut; lia).
    replace (Z.to_nat (k + 16) + (i - Z.to_nat k - 16))%nat with (Z.to_nat (Z.of_nat i)) by lia.
    rewrite slots_lookup by (done || lia). f_equal. apply Hout; lia.
Qed.

(** Reading one. *)
Lemma dir_sector_read v dl pos c s :
  inv v -> chain v dl -> sector_at v dl pos c s ->
  wrap32 (fat_clus_sector (vol v) c + s) = dsec v c s /\
  iwp (fat_sector_read (dsec v c s)) v (fun b w => same v w /\ b = sec v (dsec v c s))
    (fun rc w => same v w /\ rc = VFS_EINVAL /\ ~ reliable D).
Proof.
  intros Hi Hl [Hp Hc Hs _]. assert (Hv : valid v c) by (eapply chain_valid; [done|by eapply list_elem_of_lookup_2]).
  destruct (dsec_range v c s Hi Hv Hs) as (_ & ? & ? & ? & ?). destruct (dsec_range v c 0 Hi Hv ltac:(lia)) as (E0 & ? & _).
  pose proof (geo_bounds v Hi). split.
  - rewrite E0, wrap_small; unfold dsec in *; lia.
  - apply sector_read_spec; [done|lia|lia].
Qed.

(** Writing one. *)
Lemma dir_sector_write v dl pos c s b :
  inv v -> read_only (vol v) = false -> chain v dl -> sector_at v dl pos c s -> zlen b = SECTOR -> Forall byte_ok b ->
  iwp (fat_sector_write (dsec v c s) b) v
    (fun _ w => written v w dl (slot0 v pos s * 32) b)
    (fun rc w => atomically v w dl (slot0 v pos s * 32) b /\ rc = VFS_EINVAL /\ ~ reliable D).
Proof.
  intros Hi Hro Hl [Hp Hc Hs _] Hb Hby. destruct (slots_per_cluster v Hi) as (_ & _ & Eb).
  destruct (sec_bytes v (dsec v c s)) as [_ Hz]. assert (Ep : patch 0 b (sec v (dsec v c s)) = b).
  { unfold patch. cbn [Z.to_nat take app Nat.add]. rewrite drop_ge, app_nil_r by (unfold zlen in *; lia). done. }
  rewrite <- Ep at 1. replace (slot0 v pos s * 32) with (pos * bytes_per_clus (vol v) + s * SECTOR + 0)
    by (unfold slot0, SECTOR; lia).
  apply part_write; try done; unfold SECTOR in *; lia.
Qed.

End Slots.

(** ** fs/fat/fat_dir.c: finding room for a set of records. What the search does to the
    directory on its way (retiring end marks, adding a cluster) does not show. *)

(** *** One sector *)

Section Run.
Context (sec : bytes) (total : Z).

Definition free_at (t : Z) : Prop := at_ sec (t * 32) = 0 \/ at_ sec (t * 32) = FAT_DELETED.
Definition first_mark (n : Z) (z : option Z) : Prop :=
  match z with
  | None => forall j, 0 <= j < n -> at_ sec (j * 32) <> 0
  | Some z => 0 <= z < n /\ at_ sec (z * 32) = 0 /\ forall j, 0 <= j < z -> at_ sec (j * 32) <> 0
  end.

(** The run found is the first that is long enough, and starts where its free slots start. *)
Lemma run_scan_spec k : forall i run z,
  i + Z.of_nat k = 16 -> 0 <= run <= i -> run < total <= 16 ->
  (forall j, i - run <= j < i -> free_at j) -> (run = i \/ ~ free_at (i - run - 1)) -> first_mark i z ->
  match run_scan k i run total z sec with
  | inl t => 0 <= t /\ t + total <= 16 /\ (forall j, t <= j < t + total -> free_at j) /\ (t = 0 \/ ~ free_at (t - 1))
  | inr z => first_mark 16 z /\ exists j, 0 <= j < 16 /\ ~ free_at j
  end.
Proof.
  induction k as [|k IH]; intros i run z Hi Hr Ht Hfree Hstart Hz; cbn [run_scan].
  { replace i with 16 in * by lia. split; [done|]. destruct Hstart as [|Hs]; [lia|]. exists (16 - run - 1). split; [lia|done]. }
  unfold FAT_DIRENT_SIZE. set (f := at_ sec (i * 32)).
  set (z' := match z with None => if f =? 0 then Some i else None | _ => z end).
  assert (Hz' : first_mark (i + 1) z').
  { unfold z'. destruct z as [z|]; cbn in Hz |- *; [split; [lia|tauto]|].
    destruct (Z.eqb_spec f 0) as [E|E]; cbn; [split; [lia|done]|]. intros j Hj. destruct (decide (j = i)) as [->|]; [done|apply Hz; lia]. }
  destruct ((f =? 0) || (f =? FAT_DELETED)) eqn:Ef.
  - assert (Hfi : free_at i) by (b2p; destruct Ef; b2p; [by left|by right]).
    assert (Hfree' : forall j, i + 1 - (run + 1) <= j < i + 1 -> free_at j).
    { intros j Hj. destruct (decide (j = i)) as [->|]; [done|apply Hfree; lia]. }
    destruct (Z.eqb_spec (run + 1) total) as [E|E].
    + split; [lia|]. split; [lia|]. split; [intros; apply Hfree'; lia|]. destruct Hstart as [|Hs]; [left; lia|right].
      by replace (i + 1 - total - 1) with (i - run - 1) by lia.
    + apply IH; try done; [lia|lia|lia|]. destruct Hstart as [|Hs]; [left; lia|right].
      by replace (i + 1 - (run + 1) - 1) with (i - run - 1) by lia.
  - apply IH; try done; [lia|lia|lia|intros; lia|]. right. replace (i + 1 - 0 - 1) with i by lia. unfold f in Ef. b2p. intros [?|?]; congruence.
Qed.

End Run.

(** *** Retiring end marks *)

Definition deleted (e : bytes) : bytes := put8 0 FAT_DELETED e.

Lemma deleted_idle e : zlen e = 32 -> idle (deleted e).
Proof. intros Hz. apply idle_deleted. unfold deleted. rewrite at_put8 by lia. done. Qed.

(** A byte put into a slot of a sector. *)
Lemma cut_put8 b t x : (t < 16)%nat -> zlen b = SECTOR ->
  cut (put8 (Z.of_nat t * 32) x b) = <[t := put8 0 x (slice (32 * Z.of_nat t) b)]> (cut b).
Proof.
  intros Ht Hb. unfold SECTOR in *. rewrite <- (cut_patch b); [|done|rewrite zlen_put8; apply zlen_slice; lia|done].
  f_equal. assert (Hz : zlen (slice (32 * Z.of_nat t) b) = 32) by (apply zlen_slice; lia).
  rewrite <- put8_patch by lia. rewrite patch_slice by lia. f_equal. lia.
Qed.

Lemma zlen_retire k : forall i b, zlen (retire k i b) = zlen b.
Proof. induction k as [|k IH]; intros i b; [done|]. cbn [retire]. by rewrite IH, zlen_put8. Qed.
Lemma retire_bytes k : forall i b, Forall byte_ok b -> Forall byte_ok (retire k i b).
Proof. induction k as [|k IH]; intros i b Hb; [done|]. cbn [retire]. apply IH, put8_bytes; done. Qed.

Lemma cut_retire k : forall t b, (t + k = 16)%nat -> zlen b = SECTOR ->
  cut (retire k (Z.of_nat t) b) = take t (cut b) ++ map deleted (drop t (cut b)).
Proof.
  induction k as [|k IH]; intros t b Ht Hb; cbn [retire].
  { rewrite take_ge, drop_ge, app_nil_r by (rewrite length_cut; lia). done. }
  unfold FAT_DIRENT_SIZE. replace (Z.of_nat t + 1) with (Z.of_nat (S t)) by lia.
  rewrite IH by (rewrite ?zlen_put8; done || lia). rewrite cut_put8 by (done || lia).
  rewrite (take_S_r _ _ (deleted (slice (32 * Z.of_nat t) b))) by (apply list_lookup_insert_eq; rewrite length_cut; lia).
  rewrite take_insert_ge, drop_insert_lt by lia. rewrite <- app_assoc. f_equal.
  rewrite (drop_S _ (slice (32 * Z.of_nat t) b) t) by (apply cut_lookup; lia). done.
Qed.

Section Place.
Context {D : Type} `{DiskLaws D}.
Implicit Types (v w : vst D) (dl : list Z) (its : list item).

(** From [v] to [w] the directory may have got longer and its free slots may have changed;
    it lists what it listed, and nothing outside it but free clusters changed. *)
Record steady v dl its w dl' its' : Prop := {
  st_frame : frame (reach v dl) v w;
  st_chain : chain w dl';
  st_grow : exists new, dl' = dl ++ new /\ forall c, c ∈ new -> entry v c = FAT_FREE;
  st_tidy : tidy (slots w dl') its';
  st_list : listing its' 0 = listing its 0 }.

Lemma steady_next v dl its w dl' its' : steady v dl its w dl' its' -> next v w.
Proof. intros [Hf _ _ _ _]. apply Hf. Qed.

Lemma steady_within v dl its w its' :
  within v w dl -> chain v dl -> tidy (slots w dl) its' -> listing its' 0 = listing its 0 -> steady v dl its w dl its'.
Proof.
  intros Hw Hl Ht Hli. split; [by eapply within_frame; [|by left]|by eapply within_chain| |done|done].
  exists []. split; [by rewrite app_nil_r|by intros c ?%elem_of_nil].
Qed.

Lemma steady_same v dl its w : same v w -> chain v dl -> tidy (slots v dl) its -> steady v dl its w dl its.
Proof. intros Hs Hl Ht. apply steady_within; [by apply within_same|done|by rewrite (slots_same v)|done]. Qed.

Lemma steady_reach v dl its w dl' its' x : inv v -> chain v dl -> steady v dl its w dl' its' -> valid v x -> reach w dl' x -> reach v dl x.
Proof.
  intros Hi Hl [(Hn & Hf & _) _ (new & -> & Hnew) _ _] Hv [[Hx|Hx]%elem_of_app|Hx].
  - by left.
  - right. by apply Hnew.
  - destruct (decide (x ∈ dl)); [by left|]. destruct (decide (entry v x = FAT_FREE)); [by right|].
    destruct (Hf x Hv) as [E _]; [by intros [?|?]|]. right. by rewrite <- E.
Qed.

Lemma steady_trans v dl its w dl1 its1 x dl2 its2 :
  inv v -> chain v dl -> steady v dl its w dl1 its1 -> steady w dl1 its1 x dl2 its2 -> steady v dl its x dl2 its2.
Proof.
  intros Hi Hl S1 S2. pose proof S1 as [F1 C1 (n1 & E1 & N1) T1 L1]. pose proof S2 as [F2 C2 (n2 & -> & N2) T2 L2].
  pose proof F1 as ([Hiw Est] & Hfr & _). split; [|done| |done|congruence].
  - eapply frame_trans; [done|]. destruct F2 as (Hn2 & Hf2 & Hlow2). split; [done|]. split; [|done].
    intros y Hy Hny. apply Hf2; [done|]. intros Hr. apply Hny. eapply steady_reach; [done|done|done| |done]. by apply (static_valid v w).
  - exists (n1 ++ n2). subst dl1. split; [by rewrite app_assoc|]. intros c [Hc|Hc]%elem_of_app; [by apply N1|].
    pose proof (N2 c Hc) as Hfree. assert (Hv : valid x c) by (eapply chain_valid; [done|apply elem_of_app; by right]).
    assert (Hv' : valid v c). { destruct F2 as ([_ Es2] & _). apply (static_valid w x) in Hv; [|done]. by apply (static_valid v w) in Hv. }
    destruct (steady_reach v dl its w (dl ++ n1) its1 c Hi Hl S1 Hv') as [Hin|?]; [by right| |done].
    exfalso. apply (chain_used w (dl ++ n1) c Hiw C1); [apply elem_of_app; by left|done].
Qed.

(** In a directory in good order the end marks are the slots behind the items. *)
Lemma tidy_mark ss its j e : tidy ss its -> ss !! j = Some e -> at_ e 0 = 0 <-> (length (slots_of its) <= j)%nat.
Proof.
  intros (Hok & zs & -> & Hz) He. destruct (decide (length (slots_of its) <= j)%nat) as [Hj|Hj].
  - rewrite lookup_app_r in He by done. split; [done|]. intros _. rewrite List.Forall_forall in Hz.
    by apply Hz, list_elem_of_In, (list_elem_of_lookup_2 _ _ _ He).
  - split; [|lia]. intros E0. exfalso. revert E0. rewrite lookup_app_l in He by lia.
    apply list_elem_of_lookup_2, list_elem_of_In, in_concat in He as (l & Hin & He). apply in_map_iff in Hin as (it & <- & Hin).
    rewrite List.Forall_forall in Hok. specialize (Hok it Hin). destruct it as [g|recs x name].
    + destruct He as [<-|[]]. apply Hok.
    + apply list_elem_of_In in He. by apply (named_in_use _ _ _ _ Hok He).
Qed.

Lemma sector_mark v dl its pos c s j :
  inv v -> aligned v -> chain v dl -> sector_at v dl pos c s -> tidy (slots v dl) its -> 0 <= j < 16 ->
  at_ (sec v (dsec v c s)) (j * 32) = 0 <-> Z.of_nat (length (slots_of its)) <= slot0 v pos s + j.
Proof.
  intros Hi Hal Hl Hsa Ht Hj. destruct (slot0_range v dl pos c s Hi Hal Hsa) as [Hk0 Hr].
  pose proof (sector_slot v dl pos c s (Z.to_nat j) Hi Hl Hsa ltac:(lia)) as Hs. rewrite Z2Nat.id in Hs by lia.
  pose proof (tidy_mark _ _ (Z.to_nat (slot0 v pos s + j)) (dirent v dl (slot0 v pos s + j)) Ht) as Hm.
  rewrite slots_lookup in Hm by (done || lia). specialize (Hm eq_refl). rewrite Hs, at_slice in Hm by lia.
  replace (32 * j + 0) with (j * 32) in Hm by lia. rewrite Hm. lia.
Qed.

(** Room for [total] slots. *)
Record spot w dl its (total pos c s t : Z) : Prop := {
  sp_sector : sector_at w dl pos c s;
  sp_fit : 0 <= t /\ t + total <= 16;
  sp_low : slot0 w pos s + t <= Z.of_nat (length (slots_of its));
  sp_free : forall j, t <= j < t + total -> free_at (sec w (dsec w c s)) j }.

Lemma sector_now v w dl pos c s : same v w -> sector_at v dl pos c s -> sector_at w dl pos c s.
Proof.
  intros Hs [? ? ? ?]. pose proof (static_vol _ _ (proj2 (proj1 Hs))) as (E1&E2&_). split; rewrite ?E1, ?E2; done.
Qed.
Lemma static_slot0 v w pos s : static w = static v -> slot0 w pos s = slot0 v pos s.
Proof. intros E. pose proof (static_vol _ _ E) as (_&Eb&_). unfold slot0. by rewrite Eb. Qed.
Lemma static_aligned v w : static w = static v -> aligned v -> aligned w.
Proof. intros E. pose proof (static_vol _ _ E) as (_&Eb&_). unfold aligned. by rewrite Eb. Qed.

(** The end marks of a sector retired. *)
Lemma retire_steady v w dl its pos c s z :
  inv v -> aligned v -> chain v dl -> sector_at v dl pos c s -> tidy (slots v dl) its -> 0 <= z < 16 ->
  slot0 v pos s + z = Z.of_nat (length (slots_of its)) ->
  written v w dl (slot0 v pos s * 32) (retire (Z.to_nat (16 - z)) z (sec v (dsec v c s))) ->
  exists its', steady v dl its w dl its' /\ Z.of_nat (length (slots_of its')) = slot0 v pos s + 16.
Proof.
  intros Hi Hal Hl Hsa Ht Hz Ez Hw. destruct (slot0_range v dl pos c s Hi Hal Hsa) as [Hk0 Hr].
  pose proof (length_slots v dl Hi) as Hlen. set (k := slot0 v pos s) in *. set (b := sec v (dsec v c s)) in *.
  assert (Hbz : zlen b = SECTOR) by apply sec_bytes.
  pose proof (slots_sector v dl pos c s Hi Hal Hl Hsa) as Hcut. fold k b in Hcut.
  eapply slots_stored in Hw as Hss; [|done|done|done|exact Hsa|by rewrite zlen_retire]. fold k in Hss.
  pose proof (cut_retire (Z.to_nat (16 - z)) (Z.to_nat z) b ltac:(lia) Hbz) as Hre. rewrite Z2Nat.id in Hre by lia.
  rewrite Hre in Hss. clear Hre. set (gs := map deleted (drop (Z.to_nat z) (cut b))) in *.
  assert (Hlg : length gs = Z.to_nat (16 - z)) by (unfold gs; rewrite length_map, length_drop, length_cut; lia).
  assert (Hidle : Forall idle gs).
  { apply Forall_map, List.Forall_forall. intros e He. apply deleted_idle. apply (cut_slot_len b); [done|].
    rewrite <- (take_drop (Z.to_nat z) (cut b)). apply elem_of_app. right. by apply list_elem_of_In. }
  pose proof Ht as (Hok & zs & Ess & Hzs).
  assert (Hlz : (length (slots_of its) + length zs)%nat = length (slots v dl)) by (rewrite Ess, length_app; done).
  destruct (tidy_retire _ its gs zs Ht Ess Hidle ltac:(lia)) as [Ht' Hli].
  assert (Es : slots w dl = slots_of its ++ gs ++ drop (length gs) zs).
  { rewrite Hss, <- Hcut, take_take, Nat.min_l by lia. rewrite <- app_assoc, (app_assoc (take (Z.to_nat k) _)), take_take_drop. f_equal.
    - rewrite Ess, take_app_le, take_ge by lia. done.
    - f_equal. rewrite Ess, drop_app_ge by lia. f_equal. lia. }
  exists (its ++ map Gone gs). split.
  - rewrite <- Es in Ht'. apply steady_within; [apply Hw|done|done|done].
  - rewrite slots_of_app, slots_of_gone, length_app. lia.
Qed.

(** Nothing was written after all. *)
Lemma slots_unchanged v w dl off : inv v -> scribbled v w dl off 0 ->
  slots w dl = slots v dl /\ forall i, 0 <= i < nslots v dl -> dirent w dl i = dirent v dl i.
Proof.
  intros Hi [Hw Hb]. pose proof (wi_next _ _ _ Hw) as [_ Est]. destruct (slots_per_cluster v Hi) as (_ & Hep & Eb).
  assert (Hroom : nslots v dl * 32 = room v dl) by (unfold nslots, room; rewrite Eb at 2; lia).
  assert (Hd : forall i, 0 <= i < nslots v dl -> dirent w dl i = dirent v dl i).
  { intros i Hir. apply dirent_ext. intros j Hj. apply Hb; lia. }
  split; [|done]. unfold slots. rewrite (static_nslots v w) by done. apply map_ext_in. intros i Hin.
  apply list_elem_of_In, elem_of_seqZ in Hin. apply Hd. lia.
Qed.

Definition placed v dl its (total pos c : Z) (r : option (Z * Z)) w : Prop :=
  (forall x, valid v x -> entry w x = entry v x) /\
  exists its', steady v dl its w dl its' /\
  match r with
  | Some (i, sn) => exists s t, spot w dl its' total pos c s t /\ i = s * 16 + t /\ sn = dsec w c s
  | None => slot0 v pos (sec_per_clus (vol v)) <= Z.of_nat (length (slots_of its'))
  end.

Lemma place_sectors_spec total pos c k : forall v dl its s,
  s + Z.of_nat k = sec_per_clus (vol v) -> 0 <= s -> 1 <= total <= 16 ->
  inv v -> read_only (vol v) = false -> aligned v -> chain v dl -> tidy (slots v dl) its ->
  0 <= pos -> dl !! Z.to_nat pos = Some c -> pos * (bytes_per_clus (vol v) / 32) < FAT_MAX_DIR_ENTRIES ->
  slot0 v pos s <= Z.of_nat (length (slots_of its)) ->
  iwp (place_sectors k s c total) v
    (fun r w => placed v dl its total pos c r w /\
       (r = None -> (0 < k)%nat -> exists j, 0 <= j < 16 /\ ~ free_at (sec v (dsec v c s)) j))
    (fun rc w => (exists its', steady v dl its w dl its') /\ rc = VFS_EINVAL /\ ~ reliable D).
Proof.
  induction k as [|k IH]; intros v dl its s Hsk Hs0 Htot Hi Hro Hal Hl Ht Hp Hc Hmax Hle; cbn [place_sectors].
  { apply iwp_ret. split; [|lia]. split; [done|]. exists its. split; [by apply steady_same|]. by replace (sec_per_clus (vol v)) with s by lia. }
  assert (Hsa : sector_at v dl pos c s) by (split; [done|done|lia|done]).
  apply iwp_bind, iwp_get. destruct (dir_sector_read v dl pos c s Hi Hl Hsa) as [-> Hrd].
  eapply iwp_seq; [exact Hrd|..].
  2: { intros rc w (Hs & ?). split; [|done]. exists its. by apply steady_same. }
  intros b w [Hs ->]. set (b := sec v (dsec v c s)).
  pose proof (run_scan_spec b total 16 0 0 None eq_refl ltac:(lia) ltac:(lia)) as Hrun.
  specialize (Hrun ltac:(intros; lia) ltac:(by left) ltac:(intros ? ?; lia)).
  pose proof Hs as ([Hiw Est] & Hsec & _). pose proof (static_vol _ _ Est) as (Espc&Ebpc&_&_&_&_&_&_&_&Ero&_).
  assert (Hsw : steady v dl its w dl its) by by apply steady_same.
  assert (Hlw : chain w dl) by by eapply chain_now.
  destruct (run_scan 16 0 0 total None b) as [t|z].
  { apply iwp_ret. split; [|done]. split; [by intros; apply same_entry|]. exists its. split; [done|]. exists s, t. unfold ENTS_PER_SECTOR.
    rewrite (static_dsec v w) by done. split; [|done]. destruct Hrun as (Ht0 & Hfit & Hfree & Hst).
    split; [by eapply sector_now|done| |rewrite (static_dsec v w), Hsec by done; exact Hfree].
    rewrite (static_slot0 v w) by done. destruct Hst as [->|Hst]; [lia|]. destruct (Z_lt_le_dec (Z.of_nat (length (slots_of its))) (slot0 v pos s + t)); [|done].
    exfalso. apply Hst. left. apply (sector_mark v dl its pos c s (t - 1)); try done; [|lia]. split; [|lia].
    destruct (Z_lt_le_dec 0 t); lia. }
  destruct Hrun as [Hmark Hnf].
  assert (Hgo : forall w its1, steady v dl its w dl its1 -> (forall x, valid v x -> entry w x = entry v x) -> slot0 v pos s + 16 <= Z.of_nat (length (slots_of its1)) ->
    iwp (place_sectors k (s + 1) c total) w
      (fun r x => placed v dl its total pos c r x /\
         (r = None -> (0 < S k)%nat -> exists j, 0 <= j < 16 /\ ~ free_at b j))
      (fun rc x => (exists its', steady v dl its x dl its') /\ rc = VFS_EINVAL /\ ~ reliable D)).
  { clear w Hs Hiw Est Hsec Espc Ebpc Ero Hsw Hlw. intros w its1 Hst Hent Hlen. pose proof (steady_next _ _ _ _ _ _ Hst) as [Hiw Est].
    pose proof (static_vol _ _ Est) as (Espc&Ebpc&_&_&_&_&_&_&_&Ero&_).
    eapply iwp_mono; [apply (IH w dl its1 (s + 1)); rewrite ?Espc, ?Ebpc; try done; try lia|..].
    - congruence.
    - by eapply static_aligned.
    - apply Hst.
    - apply Hst.
    - rewrite (static_slot0 v w) by done. unfold slot0 in *. lia.
    - intros r x [(Hent' & its' & Hst' & Hr) _]. split; [|done]. split; [intros y Hy; rewrite Hent' by (by apply (static_valid v w)); by apply Hent|]. exists its'. split; [by eapply steady_trans|].
      destruct r as [[i sn]|]; [done|]. by rewrite Espc, (static_slot0 v w) in Hr.
    - intros rc x ((its' & Hst') & ?). split; [|done]. exists its'. by eapply steady_trans. }
  pose proof (fun j Hj => sector_mark v dl its pos c s j Hi Hal Hl Hsa Ht Hj) as Hmk. fold b in Hmk.
  destruct z as [z|]; cbn [first_mark] in Hmark.
  - destruct Hmark as (Hzr & Hz0 & Hlow).
    assert (Ez : slot0 v pos s + z = Z.of_nat (length (slots_of its))).
    { apply Hmk in Hz0; [|done]. destruct (decide (slot0 v pos s + z = Z.of_nat (length (slots_of its)))); [done|].
      exfalso. apply (Hlow (Z.of_nat (length (slots_of its)) - slot0 v pos s)); [lia|]. apply Hmk; lia. }
    unfold ENTS_PER_SECTOR. assert (Hbz : zlen b = SECTOR) by apply sec_bytes. assert (Hby : Forall byte_ok b) by apply sec_bytes.
    eapply iwp_seq.
    { rewrite <- (static_dsec v w) by done. apply (dir_sector_write w dl pos c s); [done|congruence|done|by eapply sector_now| |].
      - by rewrite zlen_retire.
      - by apply retire_bytes. }
    + intros [] x Hw. rewrite (static_slot0 v w) in Hw by done. eapply written_trans_same in Hw; [|exact Hs].
      destruct (retire_steady v x dl its pos c s z Hi Hal Hl Hsa Ht Hzr Ez Hw) as (its' & Hst & Elen). apply (Hgo x its' Hst); [by apply Hw|lia].
    + intros rc x (Hat & ? & ?). split; [|done]. rewrite (static_slot0 v w) in Hat by done. eapply atomically_trans_same in Hat; [|exact Hs].
      destruct Hat as [Hw|[Hw Hsame]].
      * destruct (retire_steady v x dl its pos c s z Hi Hal Hl Hsa Ht Hzr Ez Hw) as (its' & Hst & _). by exists its'.
      * exists its. apply steady_within; [done|done| |done]. destruct (slots_unchanged v x dl (slot0 v pos s * 32) Hi) as [-> _]; done.
  - apply (Hgo w its Hsw); [by intros; apply same_entry|]. destruct (Z_lt_le_dec (Z.of_nat (length (slots_of its))) (slot0 v pos s + 16)) as [Hlt|]; [|lia].
    exfalso. apply (Hmark (Z.of_nat (length (slots_of its)) - slot0 v pos s)); [lia|]. apply Hmk; lia.
Qed.

End Place.
