(* ===== verification/FatRoom.v ===== *)
(** fs/fat/fat_dir.c: room for a new entry, in the directory as it is or in a cluster added
    to it; and a short name that no other entry has. *)

From S2P Require Import Prelude Bytes Rtc Paths Vfs Block FatVol FatMount FatFile FatDisk FatChain FatRw.
From S2P Require Import FatEntry FatSpec FatName FatDir FatNameSpec FatScan FatItems FatPlace.

Section Room.
Context {D : Type} `{DiskLaws D}.
Implicit Types (v w : vst D) (dl : list Z) (its : list item).

(** *** A longer directory *)

Lemma longer_zero leak v w l new j :
  longer leak v w l new -> inv v -> room v l <= j < room v (l ++ new) -> fbyte w (l ++ new) j = 0.
Proof.
  intros [[_ Est] _ Hnew _ _] Hi Hj. destruct (bpc_pos v Hi) as (Hb & _ & Eb & _). pose proof (g_spc _ (i_geometry _ Hi)) as Hspc.
  pose proof (static_vol _ _ Est) as (_&Ebpc&_). unfold room in Hj. unfold fbyte. rewrite Ebpc. set (b := bytes_per_clus (vol v)) in *.
  assert (Hq : Z.of_nat (length l) <= j / b < Z.of_nat (length (l ++ new))).
  { split; [apply Z.div_le_lower_bound; lia|apply Z.div_lt_upper_bound; lia]. }
  destruct (lookup_lt_is_Some_2 (l ++ new) (Z.to_nat (j / b))) as [c Hc]; [lia|]. rewrite nth_lookup, Hc. change (default 0 (Some c)) with c.
  assert (Hin : c ∈ new). { rewrite lookup_app_r in Hc by lia. by eapply list_elem_of_lookup_2. }
  destruct (Hnew c Hin) as (_ & _ & Hz). pose proof (Z.mod_pos_bound j b ltac:(lia)).
  rewrite (static_dsec v w), Hz; [|split; [apply Z.div_pos; unfold SECTOR; lia|apply Z.div_lt_upper_bound; unfold SECTOR in *; lia]|done].
  apply (nth_zeros 512).
Qed.

Lemma slots_longer leak v w dl new :
  inv v -> chain v dl -> longer leak v w dl new ->
  exists zs, slots w (dl ++ new) = slots v dl ++ zs /\ Forall end_mark zs.
Proof.
  intros Hi Hl Hg. pose proof (gr_next _ _ _ _ _ Hg) as [Hiw Est]. destruct (slots_per_cluster v Hi) as (_ & Hep & Eb).
  assert (Hroom : forall l, nslots v l * 32 = room v l) by (intros l; unfold nslots, room; rewrite Eb at 2; lia).
  assert (Hn0 : 0 <= nslots v dl <= nslots v (dl ++ new)) by (unfold nslots; rewrite length_app; nia).
  unfold slots. rewrite (static_nslots v w) by done. set (M := Z.min (nslots v dl) FAT_MAX_DIR_ENTRIES).
  set (M' := Z.min (nslots v (dl ++ new)) FAT_MAX_DIR_ENTRIES). unfold FAT_MAX_DIR_ENTRIES in *.
  replace M' with (M + (M' - M)) by lia. rewrite seqZ_app, map_app by lia.
  eexists. split; [f_equal; apply map_ext_in|].
  - intros i Hin. apply list_elem_of_In, elem_of_seqZ in Hin. unfold dirent. apply bytes_ext; rewrite !zlen_fbytes; [done|].
    intros j Hj. rewrite !at_fbytes by done. specialize (Hroom dl). apply (longer_fbyte leak); [done|done|done|lia].
  - apply Forall_map, List.Forall_forall. intros i Hin. apply list_elem_of_In, elem_of_seqZ in Hin. unfold end_mark, dirent.
    rewrite at_fbytes by lia. pose proof (Hroom dl). pose proof (Hroom (dl ++ new)). apply (longer_zero leak v); [done|done|lia].
Qed.

Lemma steady_longer leak v w dl new its :
  inv v -> chain v dl -> longer leak v w dl new -> tidy (slots v dl) its -> steady v dl its w (dl ++ new) its.
Proof.
  intros Hi Hl Hg Ht. destruct (slots_longer leak v w dl new Hi Hl Hg) as (zs & Es & Hz).
  split; [by eapply longer_frame|apply Hg|exists new; split; [done|intros c Hc; by apply (gr_new _ _ _ _ _ Hg)]| |done].
  rewrite Es. by apply tidy_grow.
Qed.

(** *** dir_extend *)

Lemma dir_last_spec k : forall v dl i c,
  inv v -> chain v dl -> dl !! i = Some c -> (length dl <= i + k)%nat ->
  iwp (dir_last k c) v (fun x w => same v w /\ last dl = Some x)
    (fun rc w => same v w /\ rc = VFS_EINVAL /\ ~ reliable D).
Proof.
  induction k as [|k IH]; intros v dl i c Hi Hl Hc Hk; cbn [dir_last].
  { apply lookup_lt_Some in Hc. lia. }
  eapply iwp_seq; [by apply (chain_next_spec v dl i)|..]; [|done].
  intros n w [Hs Hn]. destruct (dl !! S i) as [d|] eqn:E.
  - destruct Hn as [-> Hn0]. rewrite (proj2 (Z.eqb_neq _ _)) by done.
    eapply iwp_mono; [apply (IH w dl (S i) d); [apply Hs|by eapply chain_now|done|lia]|..].
    + intros x u [Hs' ?]. split; [by eapply same_trans|done].
    + intros rc u (Hs' & ?). split; [by eapply same_trans|done].
  - subst n. cbn [Z.eqb]. apply iwp_ret. split; [done|]. apply lookup_ge_None in E. apply lookup_lt_Some in Hc as Hlt.
    rewrite last_lookup. by replace (pred (length dl)) with i by lia.
Qed.

Definition no_free v : Prop := forall x, valid v x -> entry v x <> FAT_FREE.

Lemma dir_extend_spec v dl dclus :
  inv v -> read_only (vol v) = false -> chain v dl -> head dl = Some dclus ->
  iwp (dir_extend dclus) v (fun nc w => longer False v w dl [nc])
    (fun rc w => (exists new, longer True v w dl new) /\ (reliable D -> rc = VFS_ENOSPC /\ no_free v)).
Proof.
  intros Hi Hro Hl Hh. unfold dir_extend. apply iwp_bind, iwp_get.
  assert (Hc0 : dl !! 0%nat = Some dclus) by by destruct dl.
  pose proof (chain_length v dl Hi Hl). pose proof (g_clusters _ (i_geometry _ Hi)).
  assert (Hnone : forall w, same v w -> exists new, longer True v w dl new) by (intros w Hs; exists []; by apply longer_same).
  eapply iwp_seq; [apply (dir_last_spec _ v dl 0 dclus); [done|done|done|lia]|..].
  2: { intros rc w (Hs & _ & ?). split; [by apply Hnone|done]. }
  intros c t [Hs Hlast]. pose proof Hs as ([Hit Est] & _). pose proof (static_vol _ _ Est) as (_&_&_&_&_&_&_&_&_&Ero&_).
  assert (exists l0, dl = l0 ++ [c]) as [l0 ->] by by apply last_Some.
  assert (Hlt : chain t (l0 ++ [c])) by by eapply chain_now.
  assert (Hpre : forall leak u new, longer leak t u (l0 ++ [c]) new -> longer leak v u (l0 ++ [c]) new).
  { intros leak u new Hg. change new with ([] ++ new). eapply longer_trans; [by apply longer_same|]. by rewrite app_nil_r. }
  eapply iwp_seq; [apply alloc_spec; [done|congruence]|..].
  2: { intros rc u [Hof Hx]. split; [exists []; by apply Hpre, leak_grown|]. intros Hrel. destruct (Hx Hrel) as [-> Hall]. split; [done|].
       intros x Hv. rewrite <- (same_entry v t) by done. apply Hall. by apply (static_valid v t). }
  intros d u Ha. pose proof Ha as (Hvd & _ & (Hnu & _) & _). pose proof Hnu as [Hiu Esu].
  pose proof (static_vol t u Esu) as (_&_&_&_&_&_&_&_&_&Ero'&_).
  assert (Hleak : forall x, frame (fun c => entry t c = FAT_FREE) u x -> exists new, longer True v x (l0 ++ [c]) new).
  { intros x Hx. exists []. apply Hpre, leak_grown; [done| |done]. eapply frame_trans; [exact (allocated_only_free t u d Ha)|done]. }
  eapply iwp_seq; [by apply barrier_spec|..].
  2: { intros rc x (Hsx & _ & ?). split; [|done]. apply Hleak. by apply same_frame. }
  intros [] x Hsx. pose proof Hsx as ([Hix Esx] & _). pose proof (static_vol u x Esx) as (_&_&_&_&_&_&_&_&_&Ero2&_).
  assert (Hax : allocated t x d).
  { destruct Ha as (? & ? & Hf & ? & Hz). split; [done|]. split; [done|]. split.
    { eapply frame_trans; [exact Hf|by apply same_frame]. } split; [by rewrite (same_entry u x)|].
    intros k Hk. rewrite <- (Hz k Hk). apply Hsx. }
  assert (Hvc : valid x c).
  { apply (static_valid u x); [done|]. apply (static_valid t u); [done|]. eapply chain_valid; [exact Hlt|apply elem_of_app; right; left]. }
  eapply iwp_seq; [apply set_spec; [done|congruence|done|]|..].
  { pose proof (valid_below_eoc t d Hit Hvd). unfold FAT_EOC in *. lia. }
  2: { intros rc w (Hw & -> & Hr). split; [|done]. destruct Hw as [Hw|Hw].
       - exists [d]. apply Hpre, longer_weaken. by apply (append_cluster t x).
       - apply Hleak. eapply frame_trans; [by apply same_frame|]. by apply (linked_noop _ x w c). }
  intros [] w Hw. apply iwp_ret. apply Hpre. by apply (append_cluster t x).
Qed.

(** *** The search *)

Definition fresh v (c : Z) : Prop := forall j, 0 <= j < 16 -> free_at (sec v (dsec v c 0)) j.

Definition found_spot v dl its (total : Z) (r : Z * Z) w : Prop :=
  exists dl' its' pos c s t, steady v dl its w dl' its' /\ spot w dl' its' total pos c s t /\
    r = (slot0 w pos s + t, dsec w c s).

Definition no_spot v dl its w : Prop := exists dl' its', steady v dl its w dl' its'.

(** The directory has all the slots it may have, or the volume is full. *)
Definition full v dl : Prop := FAT_MAX_DIR_ENTRIES <= nslots v dl \/ no_free v.

Lemma place_loop_spec total dclus fuel : forall v dl its pos c,
  inv v -> read_only (vol v) = false -> aligned v -> chain v dl -> head dl = Some dclus -> tidy (slots v dl) its ->
  1 <= total <= 16 -> 0 <= pos -> dl !! Z.to_nat pos = Some c ->
  let base := pos * (bytes_per_clus (vol v) / 32) in
  base <= Z.of_nat (length (slots_of its)) -> (Z.to_nat (FAT_MAX_DIR_ENTRIES - base) <= fuel)%nat ->
  iwp (place_loop fuel dclus c base total) v (found_spot v dl its total)
    (fun rc w => no_spot v dl its w /\
       (reliable D -> rc = VFS_ENOSPC /\ (fresh v c -> FAT_MAX_DIR_ENTRIES <= base) /\ full v dl)).
Proof.
  induction fuel as [|k IH]; intros v dl its pos c Hi Hro Hal Hl Hh Ht Htot Hp Hc base Hbase Hf; cbn [place_loop].
  { split; [exists dl, its; by apply steady_same|]. intros _. split; [done|]. split; [lia|]. left.
    pose proof (lookup_lt_Some _ _ _ Hc). destruct (slots_per_cluster v Hi) as (_ & Hepc & _). unfold nslots, base in *. nia. }
  apply iwp_bind, iwp_get. assert (Hv : valid v c) by (eapply chain_valid; [done|by eapply list_elem_of_lookup_2]).
  rewrite (proj2 (clus_valid_spec v c Hi) Hv). cbn [negb]. pose proof (lookup_lt_Some _ _ _ Hc) as Hlt.
  destruct (slots_per_cluster v Hi) as (Eepc & Hepc & _). unfold FAT_DIRENT_SIZE. set (epc := bytes_per_clus (vol v) / 32) in *.
  pose proof (g_spc _ (i_geometry _ Hi)) as Hspc.
  destruct (Z.leb_spec FAT_MAX_DIR_ENTRIES base) as [Hm|Hm].
  { split; [exists dl, its; by apply steady_same|]. intros _. split; [done|]. split; [done|]. left. unfold nslots. fold epc. unfold base in Hm. nia. }
  eapply iwp_seq; [apply (place_sectors_spec total pos c _ v dl its 0); try done; [lia|unfold slot0; fold epc; fold base; lia]|..].
  2: { intros rc w ((its' & Hst) & ? & ?). split; [by exists dl, its'|done]. }
  intros r w [(Hent & its1 & Hst & Hr) Hnf]. pose proof (steady_next _ _ _ _ _ _ Hst) as [Hiw Est].
  pose proof (static_vol _ _ Est) as (Espc&Ebpc&_&_&_&_&_&_&_&Ero&_).
  destruct r as [[i sn]|].
  { apply iwp_ret. destruct Hr as (s & t & Hsp & -> & ->). exists dl, its1, pos, c, s, t. split; [done|]. split; [done|].
    unfold slot0. rewrite Ebpc. fold epc. f_equal. unfold base. lia. }
  assert (Hnofresh : ~ fresh v c).
  { intros Hfr. destruct (Hnf eq_refl ltac:(lia)) as (j & Hj & Hn). by apply Hn, Hfr. }
  pose proof (st_chain _ _ _ _ _ _ Hst) as Hlw. pose proof (st_tidy _ _ _ _ _ _ Hst) as Htw.
  assert (Hr' : base + epc <= Z.of_nat (length (slots_of its1))) by (unfold slot0 in Hr; fold epc in Hr; unfold base; lia).
  eapply iwp_seq; [by apply (chain_next_spec w dl (Z.to_nat pos) c)|..].
  2: { intros rc x (Hs & _ & ?). split; [|done]. exists dl, its1. eapply steady_trans; [done|done|done|]. by apply steady_same. }
  intros n x [Hs Hn]. pose proof Hs as ([Hix Esx] & _). pose proof (static_vol _ _ Esx) as (Espc2&Ebpc2&_&_&_&_&_&_&_&Ero2&_).
  assert (Hstx : steady v dl its x dl its1) by (eapply steady_trans; [done|done|done|by apply steady_same]).
  assert (Esv : static x = static v) by congruence.
  assert (Hfuel : (Z.to_nat (FAT_MAX_DIR_ENTRIES - (base + epc)) <= k)%nat) by lia.
  replace (base + epc) with ((pos + 1) * epc) in * by (unfold base; lia).
  assert (Ebx : bytes_per_clus (vol x) / 32 = epc) by (unfold epc; congruence).
  replace (Z.to_nat pos + 1)%nat with (Z.to_nat (pos + 1)) in * by lia.
  destruct (dl !! S (Z.to_nat pos)) as [d|] eqn:Hd.
  - destruct Hn as [-> Hn0]. rewrite (proj2 (Z.eqb_neq _ _)) by done. apply iwp_bind, iwp_ret.
    replace (S (Z.to_nat pos)) with (Z.to_nat (pos + 1)) in Hd by lia.
    pose proof (IH x dl its1 (pos + 1) d Hix ltac:(congruence) ltac:(by eapply static_aligned) ltac:(apply Hstx) Hh ltac:(apply Hstx) Htot ltac:(lia) Hd) as Hrec.
    rewrite Ebx in Hrec. eapply iwp_mono; [apply Hrec; lia|..].
    + intros r' y (dl' & its' & p' & c' & s & t & Hst' & ?). exists dl', its', p', c', s, t. split; [by eapply steady_trans|done].
    + intros rc y ((dl' & its' & Hst') & Hx). split; [exists dl', its'; by eapply steady_trans|]. intros Hrel.
      destruct (Hx Hrel) as (-> & _ & Hfull). split; [done|]. split; [done|]. destruct Hfull as [Hfull|Hfull].
      * left. by rewrite (static_nslots v x) in Hfull.
      * right. intros z Hz. rewrite <- Hent, <- (same_entry w x) by done. apply Hfull. by apply (static_valid v x).
  - subst n. cbn [Z.eqb]. apply lookup_ge_None in Hd.
    eapply iwp_seq; [apply (dir_extend_spec x dl dclus); [done|congruence|apply Hstx|done]|..].
    2: { intros rc y ((new & Hg) & Hx). split.
         - exists (dl ++ new), its1. eapply steady_trans; [done|done|exact Hstx|]. eapply steady_longer; [done|apply Hstx|exact Hg|apply Hstx].
         - intros Hrel. destruct (Hx Hrel) as [-> Hall]. split; [done|]. split; [done|]. right.
           intros z Hz. rewrite <- Hent, <- (same_entry w x) by done. apply Hall. by apply (static_valid v x). }
    intros nc y Hg. pose proof (gr_next _ _ _ _ _ Hg) as [Hiy Esy]. pose proof (static_vol _ _ Esy) as (Espc3&Ebpc3&_&_&_&_&_&_&_&Ero3&_).
    assert (Hsty : steady v dl its y (dl ++ [nc]) its1).
    { eapply steady_trans; [done|done|exact Hstx|]. eapply steady_longer; [done|apply Hstx|exact Hg|apply Hstx]. }
    assert (Hnc : (dl ++ [nc]) !! Z.to_nat (pos + 1) = Some nc).
    { rewrite lookup_app_r by lia. by replace (Z.to_nat (pos + 1) - length dl)%nat with O by lia. }
    assert (Hhd : head (dl ++ [nc]) = Some dclus) by by destruct dl.
    assert (Hfr : fresh y nc).
    { intros j Hj. left. destruct (gr_new _ _ _ _ _ Hg nc ltac:(left)) as (_ & _ & Hz).
      rewrite (static_dsec x y), Hz by (done || lia). apply (nth_zeros 512). }
    pose proof (IH y (dl ++ [nc]) its1 (pos + 1) nc Hiy ltac:(congruence) ltac:(eapply (static_aligned v); [congruence|done]) ltac:(apply Hsty) Hhd ltac:(apply Hsty) Htot ltac:(lia) Hnc) as Hrec.
    rewrite Ebpc3, Ebx in Hrec. eapply iwp_mono; [apply Hrec; lia|..].
    + intros r' z (dl' & its' & p' & c' & s & t & Hst' & ?). exists dl', its', p', c', s, t. split; [by eapply steady_trans|done].
    + intros rc z ((dl' & its' & Hst') & Hx). split; [exists dl', its'; by eapply steady_trans|]. intros Hrel.
      destruct (Hx Hrel) as (-> & Hmax & _). split; [done|]. split; [done|]. left. specialize (Hmax Hfr).
      unfold nslots. fold epc. nia.
Qed.

End Room.

(** ** fs/fat/fat_dir.c: which short names are in use, and the choice of a new one. *)

(** Whether an entry in front of the end mark has this short name; [None] when the slots
    run out first. *)
Fixpoint short_in (nm : bytes) (ss : list bytes) : option bool :=
  match ss with
  | [] => None
  | e :: r =>
      if at_ e 0 =? 0 then Some false
      else if at_ e 0 =? FAT_DELETED then short_in nm r
      else if at_ e DE_ATTR =? FAT_ATTR_LFN then short_in nm r
      else if bool_decide (take 11 e = nm) then Some true
      else short_in nm r
  end.

Definition short_used (nm : bytes) (ss : list bytes) : bool := default false (short_in nm ss).

Lemma short_in_app nm a b :
  short_in nm (a ++ b) = match short_in nm a with Some x => Some x | None => short_in nm b end.
Proof. induction a as [|e a IH]; [done|]. cbn [app short_in]. repeat destruct (_ =? _); [done..|]. by destruct (bool_decide _). Qed.

(** A short name not in use is not the one of any entry. *)
Lemma unused_short nm ss : short_used nm ss = false ->
  forall c d, d ∈ entries ss c -> take 11 (d_raw d) <> nm.
Proof.
  unfold short_used. induction ss as [|e ss IH]; intros Hu c d Hd; [by apply elem_of_nil in Hd|].
  cbn [short_in entries] in *. unfold judge in Hd. destruct (at_ e 0 =? 0); [by apply elem_of_nil in Hd|].
  destruct (at_ e 0 =? FAT_DELETED); [by eapply IH|].
  destruct (at_ e DE_ATTR =? FAT_ATTR_LFN).
  { unfold lfn_entry in Hd. destruct (_ || _); [by eapply IH|]. cbn zeta in Hd. destruct (_ || _); by eapply IH. }
  destruct (bool_decide (take 11 e = nm)) eqn:E; [done|]. apply bool_decide_eq_false in E.
  destruct (negb _); [by eapply IH|]. destruct (long_name _ _); (apply elem_of_cons in Hd as [->|Hd]; [done|by eapply IH]).
Qed.

Section Taken.
Context {D : Type} `{DiskLaws D}.
Implicit Types (v w : vst D) (dl : list Z).

(** Slots [i, i + k) of the directory. *)
Definition slot_run v dl (i : Z) (k : nat) : list bytes := map (dirent v dl) (seqZ i (Z.of_nat k)).

Lemma slot_run_S v dl i k : slot_run v dl i (S k) = dirent v dl i :: slot_run v dl (i + 1) k.
Proof. unfold slot_run. rewrite seqZ_cons by lia. cbn [map]. do 3 f_equal; lia. Qed.

Lemma taken_slots_spec nm pos c k : forall v dl i,
  inv v -> chain v dl -> 0 <= pos -> dl !! Z.to_nat pos = Some c -> 0 <= i ->
  let epc := bytes_per_clus (vol v) / 32 in i + Z.of_nat k = epc ->
  iwp (taken_slots k i c nm) v (fun r w => same v w /\ r = short_in nm (slot_run v dl (pos * epc + i) k))
    (fun rc w => same v w /\ rc = VFS_EINVAL /\ ~ reliable D).
Proof.
  induction k as [|k IH]; intros v dl i Hi Hl Hp Hc Hi0 epc Hik; cbn [taken_slots]; [by apply iwp_ret|].
  apply iwp_bind, iwp_get. destruct (slots_per_cluster v Hi) as (_ & Hepc & _). fold epc in Hepc. set (j := pos * epc + i).
  assert (Ej : j / epc = pos /\ j mod epc = i).
  { unfold j. split; [symmetry; apply (Z.div_unique _ _ _ i); lia|symmetry; apply (Z.mod_unique _ _ pos); lia]. }
  destruct Ej as [Eq Er]. destruct (slot_place v dl j c Hi Hl ltac:(lia)) as [Hat E]; [fold epc; by rewrite Eq|].
  fold epc in Hat, E. rewrite Eq, Er in *. unfold FAT_DIRENT_SIZE. rewrite E.
  pose proof (dirent_slice v dl j pos c _ _ Hi Hl Hat) as Hde. pose proof Hat as (_ & _ & Hk & Hoff & Hfit & _).
  assert (Hv : valid v c) by (eapply chain_valid; [done|by eapply list_elem_of_lookup_2]).
  destruct (dsec_range v c _ Hi Hv Hk) as (_ & ? & ? & ? & ?). pose proof (geo_bounds v Hi).
  eapply iwp_seq; [apply (sector_read_spec v); [done|lia|lia]|..]; [|done].
  intros b w [Hs ->]. set (off := i * 32 mod SECTOR) in *. set (b := sec v _) in *.
  assert (Hbyte : forall m, 0 <= m < 32 -> at_ (drop (Z.to_nat off) b) m = at_ (dirent v dl j) m).
  { intros m Hm. rewrite Hde, at_slice, at_drop by lia. done. }
  assert (Hname : take 11 (drop (Z.to_nat off) b) = take 11 (dirent v dl j)).
  { rewrite Hde. unfold slice. by rewrite take_take. }
  rewrite slot_run_S. cbn [short_in]. rewrite !Hbyte, Hname by (unfold DE_ATTR; lia).
  destruct (at_ (dirent v dl j) 0 =? 0); [by apply iwp_ret|].
  assert (Hgo : iwp (taken_slots k (i + 1) c nm) w
    (fun r x => same v x /\ r = short_in nm (slot_run v dl (j + 1) k)) (fun rc x => same v x /\ rc = VFS_EINVAL /\ ~ reliable D)).
  { pose proof Hs as ([Hiw Est] & _). pose proof (static_vol _ _ Est) as (_&Eb&_).
    pose proof (IH w dl (i + 1) Hiw ltac:(by eapply chain_now) Hp Hc ltac:(lia)) as Hr. rewrite Eb in Hr. fold epc in Hr.
    eapply iwp_mono; [apply Hr; lia|..].
    - intros r x [Hs' ->]. split; [by eapply same_trans|]. f_equal. unfold slot_run. replace (pos * epc + (i + 1)) with (j + 1) by lia.
      apply map_ext. intros. by apply dirent_same.
    - intros rc x (Hs' & ?). split; [by eapply same_trans|done]. }
  repeat (destruct (_ =? _); [exact Hgo|]). destruct (bool_decide _); [by apply iwp_ret|exact Hgo].
Qed.

Lemma taken_loop_spec nm fuel : forall v dl pos c,
  inv v -> aligned v -> chain v dl -> 0 <= pos -> dl !! Z.to_nat pos = Some c ->
  let base := pos * (bytes_per_clus (vol v) / 32) in (Z.to_nat (FAT_MAX_DIR_ENTRIES - base) <= fuel)%nat ->
  iwp (taken_loop fuel c base nm) v
    (fun r w => same v w /\ r = short_used nm (drop (Z.to_nat base) (slots v dl)))
    (fun rc w => same v w /\ rc = VFS_EINVAL /\ ~ reliable D).
Proof.
  induction fuel as [|k IH]; intros v dl pos c Hi Hal Hl Hp Hc base Hf; cbn [taken_loop].
  { apply iwp_ret. split; [done|]. pose proof (length_slots v dl Hi). rewrite drop_ge by lia. done. }
  apply iwp_bind, iwp_get.
  assert (Hv : valid v c) by (eapply chain_valid; [done|by eapply list_elem_of_lookup_2]).
  rewrite (proj2 (clus_valid_spec v c Hi) Hv). cbn [andb]. pose proof (lookup_lt_Some _ _ _ Hc) as Hlt.
  destruct (slots_per_cluster v Hi) as (_ & Hepc & _). unfold FAT_DIRENT_SIZE. pose proof (length_slots v dl Hi) as Hlen.
  destruct Hal as [m Hm] eqn:Ea. clear Ea. unfold nslots in Hlen. set (epc := bytes_per_clus (vol v) / 32) in *.
  destruct (Z.ltb_spec base FAT_MAX_DIR_ENTRIES) as [Hx|Hx]; cbn [negb].
  2: { apply iwp_ret. split; [done|]. rewrite drop_ge by lia. done. }
  assert (Hpm : pos < m) by (unfold base in Hx; nia).
  assert (Hend : base + epc <= Z.min (Z.of_nat (length dl) * epc) FAT_MAX_DIR_ENTRIES) by (unfold base; apply Z.min_glb; nia).
  assert (Hb0 : 0 <= base) by (unfold base; nia).
  assert (Esplit : drop (Z.to_nat base) (slots v dl) = slot_run v dl base (Z.to_nat epc) ++ drop (Z.to_nat (base + epc)) (slots v dl)).
  { rewrite <- (take_drop (Z.to_nat epc) (drop (Z.to_nat base) (slots v dl))), drop_drop. f_equal; [|f_equal; lia].
    apply list_eq. intros i. destruct (decide (i < Z.to_nat epc)%nat) as [Hie|Hie].
    - rewrite lookup_take_lt, lookup_drop by done. replace (Z.to_nat base + i)%nat with (Z.to_nat (base + Z.of_nat i)) by lia.
      rewrite slots_lookup by (done || unfold nslots; fold epc; lia). unfold slot_run.
      rewrite list_lookup_fmap, lookup_seqZ_lt by lia. done.
    - rewrite !lookup_ge_None_2; [done| |rewrite length_take; lia]. unfold slot_run. rewrite length_map, length_seqZ. lia. }
  eapply iwp_seq; [apply (taken_slots_spec nm pos c (Z.to_nat epc) v dl 0); try done; fold epc; lia|..]; [|done].
  fold epc. rewrite Z.add_0_r. fold base. intros r w [Hs ->]. unfold short_used. rewrite Esplit, short_in_app.
  destruct (short_in nm (slot_run v dl base (Z.to_nat epc))) as [b|]; [by apply iwp_ret|].
  pose proof Hs as ([Hiw Est] & _). pose proof (static_vol _ _ Est) as (_&Eb&_).
  eapply iwp_seq; [apply (chain_next_spec w dl (Z.to_nat pos) c); [done|by eapply chain_now|done]|..].
  2: { intros rc x (Hs' & ?). split; [by eapply same_trans|done]. }
  intros n x [Hs' Hn]. assert (Hsx : same v x) by by eapply same_trans. clear Hs'. destruct (dl !! S (Z.to_nat pos)) as [d|] eqn:Hd.
  - destruct Hn as [-> Hn0]. rewrite (proj2 (Z.eqb_neq _ _)) by done. replace (S (Z.to_nat pos)) with (Z.to_nat (pos + 1)) in Hd by lia.
    pose proof Hsx as ([Hix Esx] & _). pose proof (static_vol _ _ Esx) as (_&Ebx&_).
    pose proof (IH x dl (pos + 1) d Hix) as Hr. unfold aligned in Hr. rewrite Ebx in Hr. fold epc in Hr.
    replace (base + epc) with ((pos + 1) * epc) in * by (unfold base; lia).
    eapply iwp_mono; [apply Hr; [by exists m|by eapply chain_now|lia|done|lia]|..].
    + intros r y [Hs' ->]. split; [by eapply same_trans|]. unfold short_used. by rewrite (slots_same v x).
    + intros rc y (Hs' & ?). split; [by eapply same_trans|done].
  - subst n. cbn [Z.eqb]. apply iwp_ret. split; [done|]. apply lookup_ge_None in Hd. rewrite drop_ge; [done|].
    assert (Z.of_nat (length dl) = pos + 1) by lia. unfold base. nia.
Qed.

(** A disk that cannot be read counts as taken. *)
Lemma short_name_taken_spec v dl dclus nm :
  inv v -> aligned v -> chain v dl -> head dl = Some dclus ->
  iwp (short_name_taken dclus nm) v
    (fun r w => same v w /\ (r = short_used nm (slots v dl) \/ r = true /\ ~ reliable D)) (fun _ _ => False).
Proof.
  intros Hi Hal Hl Hh. unfold short_name_taken, or_taken.
  assert (Hc : dl !! Z.to_nat 0 = Some dclus) by by destruct dl.
  assert (Hf : (Z.to_nat (FAT_MAX_DIR_ENTRIES - 0 * (bytes_per_clus (vol v) / 32)) <= Z.to_nat FAT_MAX_DIR_ENTRIES)%nat) by lia.
  generalize dependent (Z.to_nat FAT_MAX_DIR_ENTRIES). intros fuel Hf.
  pose proof (taken_loop_spec nm fuel v dl 0 dclus Hi Hal Hl ltac:(lia) Hc Hf) as Ht. cbv zeta in Ht. rewrite Z.mul_0_l in Ht.
  unfold iwp in *. destruct (taken_loop fuel dclus 0 nm v) as [[rc|r] w]; cbv beta iota in Ht |- *.
  - destruct Ht as (Hs & _ & Hr). split; [done|]. by right.
  - destruct Ht as [Hs ->]. split; [done|]. by left.
Qed.

(** *** The choice *)

(** A short name for a new entry: well-formed and not in use. *)
Definition unused v dl (nm : bytes) : Prop := dos_name nm /\ short_used nm (slots v dl) = false.

Lemma first_untaken_spec f dclus k : forall v dl i,
  inv v -> aligned v -> chain v dl -> head dl = Some dclus ->
  (forall j, i <= j < i + Z.of_nat k -> dos_name (f j)) ->
  iwp (first_untaken k f i dclus) v
    (fun r w => same v w /\ match r with Some nm => unused v dl nm | None => True end) (fun _ _ => False).
Proof.
  induction k as [|k IH]; intros v dl i Hi Hal Hl Hh Hf; cbn [first_untaken]; [by apply iwp_ret|].
  eapply iwp_seq; [by apply (short_name_taken_spec v dl)|..]; [|done]. intros t w [Hs Ht]. destruct t.
  - pose proof Hs as ([Hiw Est] & _). eapply iwp_mono; [apply (IH w dl (i + 1)); [done| |by eapply chain_now|done|intros; apply Hf; lia]|..].
    + pose proof (static_vol _ _ Est) as (_&Eb&_). unfold aligned. by rewrite Eb.
    + intros r x [Hs' Hr]. split; [by eapply same_trans|]. destruct r; [|done]. unfold unused in *. by rewrite (slots_same v w) in Hr.
    + done.
  - apply iwp_ret. split; [done|]. split; [apply Hf; lia|]. destruct Ht as [->|[? _]]; done.
Qed.

Lemma alias_pick_spec v dl dclus longname base :
  inv v -> aligned v -> chain v dl -> head dl = Some dclus -> dos_name base ->
  iwp (short_alias_pick dclus longname base) v (fun nm w => same v w /\ unused v dl nm)
    (fun rc w => same v w /\ rc = VFS_EEXIST).
Proof.
  intros Hi Hal Hl Hh Hb. unfold short_alias_pick.
  eapply iwp_seq; [apply (first_untaken_spec _ dclus 4 v dl 1); try done; intros; apply tilde_dos; done || lia|..]; [|done].
  intros [nm|] w [Hs Hr]; [by apply iwp_ret|]. pose proof Hs as ([Hiw Est] & _).
  eapply iwp_seq; [apply (first_untaken_spec _ dclus 4096 w dl 0); [done| |by eapply chain_now|done|intros; by apply hash_dos]|..]; [| |done].
  - pose proof (static_vol _ _ Est) as (_&Eb&_). unfold aligned. by rewrite Eb.
  - intros [nm|] x [Hs' Hr']; [apply iwp_ret|apply iwp_fail]; (split; [by eapply same_trans|]); [|done].
    unfold unused in *. by rewrite (slots_same v w) in Hr'.
Qed.

End Taken.
