(* ===== verification/FatEdit.v ===== *)
(** fs/fat/fat_dir.c: fat_dir_add puts an entry into a directory, fat_dir_remove takes one
    out. *)

From S2P Require Import Prelude Bytes Rtc Paths Vfs Block FatVol FatMount FatFile FatDisk FatChain FatRw.
From S2P Require Import FatEntry FatSpec FatName FatDir FatNameSpec FatScan FatItems FatPlace FatRoom.

(** *** The new set *)

Lemma name_ok_facts name : Forall byte_ok name -> fat_name_ok name = true ->
  name <> [] /\ no_nul name /\ exists ucs, utf8_to_ucs2 name (VFS_NAME_MAX + 1) = Some ucs /\
    Forall unit_ok ucs /\ ucs2_to_utf8 ucs (VFS_NAME_MAX + 1) = Some name /\ 0 < zlen ucs <= VFS_NAME_MAX.
Proof.
  intros Hb Hok. unfold fat_name_ok in Hok. destruct (Z.eqb_spec (zlen name) 0) as [|Hz]; [done|].
  destruct (Z.ltb_spec VFS_NAME_MAX (zlen name)); [done|]. destruct (_ || _); [done|]. destruct (_ || _); [done|].
  destruct (existsb _ name) eqn:Ex; [done|]. assert (Hn : no_nul name).
  { apply List.Forall_forall. intros c Hc ->. apply not_true_iff_false in Ex. apply Ex, existsb_exists. by exists 0. }
  split; [by intros ->|]. split; [done|]. destruct (utf8_to_ucs2 name _) as [ucs|] eqn:Eu; [|done]. exists ucs. split; [done|].
  destruct (ucs2_roundtrip name _ ucs Hb Hn ltac:(lia) Eu) as [Hr Hu]. split; [done|]. split; [done|].
  destruct (utf8_to_ucs2_units _ name _ ucs Hb Hn Eu) as [En _]. pose proof (units_length ucs). rewrite <- En in *.
  split; [|lia]. destruct ucs; [|rewrite zlen_cons; pose proof (zlen_nonneg ucs); lia]. by subst.
Qed.

(** A record of a long name is a full slot of bytes. *)
Lemma lfn_record_ok ucs sum ord last : Forall unit_ok ucs -> byte_ok sum -> 1 <= ord <= 20 ->
  let r := lfn_record ucs sum ord last in
  zlen r = 32 /\ Forall byte_ok r /\ in_use r /\ at_ r DE_ATTR = FAT_ATTR_LFN.
Proof.
  intros Hu Hs Ho r. destruct (record_seq ord last Ho) as (H0 & H1 & Hx & _). unfold r. rewrite lfn_record_eq.
  pose proof lo8_byte as Hlo. pose proof hi8_byte as Hhi.
  split; [done|]. split; [|done]. by repeat (apply Forall_cons_2 || apply Forall_nil_2).
Qed.

Lemma checksum_byte s : byte_ok (fat_short_checksum s).
Proof.
  unfold fat_short_checksum. generalize (take 11 s). intros l. assert (Hg : forall a, byte_ok a -> byte_ok (fold_left sum_step l a)); [|by apply Hg].
  induction l as [|c l IH]; intros a Ha; [done|]. cbn [fold_left]. apply IH. unfold sum_step, wrap, byte_ok.
  match goal with |- context [?x mod 2 ^ 8] => pose proof (Z.mod_pos_bound x (2 ^ 8)) end. lia.
Qed.

(** How many records a name needs. *)
Definition records_for (ucs : list Z) (needs_lfn : bool) : Z :=
  let n := if needs_lfn then (zlen ucs + LFN_CHARS - 1) / LFN_CHARS else 0 in
  if (n =? 0) && needs_lfn then 1 else n.

Lemma records_for_bounds ucs needs : 0 < zlen ucs <= VFS_NAME_MAX ->
  if needs : bool then 1 <= records_for ucs needs <= 20 /\ zlen ucs <= records_for ucs needs * LFN_CHARS < zlen ucs + LFN_CHARS
  else records_for ucs needs = 0.
Proof.
  intros Hu. destruct needs; [|done]. unfold records_for, LFN_CHARS, VFS_NAME_MAX in *. set (n := (zlen ucs + 13 - 1) / 13).
  assert (Hn : zlen ucs <= n * 13 < zlen ucs + 13).
  { pose proof (Z.div_mod (zlen ucs + 13 - 1) 13 ltac:(lia)). pose proof (Z.mod_pos_bound (zlen ucs + 13 - 1) 13 ltac:(lia)). unfold n. lia. }
  rewrite (proj2 (Z.eqb_neq n 0)) by lia. cbn [andb]. lia.
Qed.

(** The item fat_dir_add puts into the directory. *)
Lemma new_item_ok name ucs s0 needs s attr first size now :
  Forall unit_ok ucs -> ucs2_to_utf8 ucs (VFS_NAME_MAX + 1) = Some name -> name <> [] -> 0 < zlen ucs <= VFS_NAME_MAX ->
  short_name_build name = (s0, needs) -> (needs = false -> s = s0) -> dos_name s ->
  attr_ok attr -> 0 <= first < 2 ^ 32 -> 0 <= size < 2 ^ 32 ->
  let recs := lfn_records ucs (fat_short_checksum s) (Z.to_nat (records_for ucs needs)) in
  let e := short_record s attr first size now in
  item_ok (Named recs e name) /\ length recs = Z.to_nat (records_for ucs needs) /\
  Forall (fun r => zlen r = 32 /\ Forall byte_ok r) (recs ++ [e]) /\
  de_clus e = first /\ de_size e = size /\ at_ e DE_ATTR = attr /\ take 11 e = s.
Proof.
  intros Hu Hname Hne Hlen Hb Hs Hdos Ha Hf Hz recs e. pose proof (records_for_bounds ucs needs Hlen) as Hn.
  pose proof (dos_name_alias s Hdos) as Hal.
  destruct (short_record_fields s attr first size now Hal Ha Hf Hz) as (Et & E0 & Eat & _ & Ecl & Esz & Hez & Heb). fold e in Et, E0, Eat, Ecl, Esz, Hez, Heb.
  assert (Hr20 : records_for ucs needs <= 20) by (destruct needs; lia).
  set (n := Z.to_nat (records_for ucs needs)) in *.
  assert (Hlr : length recs = n) by (unfold recs, lfn_records; rewrite length_map, length_seq; done).
  assert (Hrecs : Forall (fun r => zlen r = 32 /\ Forall byte_ok r /\ in_use r /\ at_ r DE_ATTR = FAT_ATTR_LFN) recs).
  { apply Forall_map, List.Forall_forall. intros i Hi%in_seq. apply lfn_record_ok; [done|apply checksum_byte|lia]. }
  assert (Huse : in_use e) by (unfold in_use; rewrite E0; by destruct Hal).
  assert (Hlfn : attr <> FAT_ATTR_LFN) by (destruct Ha as [_ Ha]; intros ->; done).
  split; [split; [|split; [done|split; [congruence|]]]|].
  - eapply Forall_impl; [|exact Hrecs]. tauto.
  - intros c r Hc. cbn [item_entry]. rewrite Hlr, Ecl, Esz, Eat. destruct needs.
    + unfold recs. rewrite (long_set_reads s attr first size now Hal Ha Hf Hz ucs name n) by (done || lia). done.
    + specialize (Hs eq_refl). subst s0. unfold recs. replace n with O by lia. cbn [lfn_records seq map app].
      rewrite (short_set_reads s attr first size now Hal Ha Hf Hz name) by done. cbn [app Z.of_nat]. by rewrite Z.add_0_r.
  - split; [done|]. split; [|done]. apply Forall_app_2; [eapply Forall_impl; [|exact Hrecs]; tauto|]. by apply Forall_cons_2; [|apply Forall_nil_2].
Qed.

Section Add.
Context {D : Type} `{DiskLaws D}.
Implicit Types (v w : vst D) (dl : list Z) (its : list item).

(** An item written into its spot. *)
Lemma spot_write w x dl its total pos c s t it :
  inv w -> aligned w -> chain w dl -> tidy (slots w dl) its -> spot w dl its total pos c s t ->
  item_ok it -> Z.of_nat (length (item_slots it)) = total -> 0 < total -> Forall (fun e => zlen e = 32) (item_slots it) ->
  written w x dl (slot0 w pos s * 32) (put_bytes (t * 32) (concat (item_slots it)) (sec w (dsec w c s))) ->
  exists its', tidy (slots x dl) its' /\
    exists l1 l2, listing its 0 = l1 ++ l2 /\ listing its' 0 = l1 ++ item_entry it (slot0 w pos s + t) ++ l2.
Proof.
  intros Hi Hal Hl Ht [Hsa [Ht0 Hfit] Hlow Hfree] Hit Hn Hpos Hz Hw. set (k := slot0 w pos s) in *. set (es := item_slots it) in *.
  destruct (slot0_range w dl pos c s Hi Hal Hsa) as [Hk0 Hr]. fold k in Hk0, Hr. pose proof (length_slots w dl Hi) as Hlen.
  pose proof (slots_sector w dl pos c s Hi Hal Hl Hsa) as Hcut. fold k in Hcut. set (b := sec w (dsec w c s)) in *.
  assert (Hbz : zlen b = SECTOR) by apply sec_bytes. unfold put_bytes in Hw. pose proof (zlen_concat es Hz) as Hcz.
  eapply slots_stored in Hw as Hss; [|done|done|done|exact Hsa|rewrite zlen_patch; unfold SECTOR in *; lia].
  replace (t * 32) with (32 * Z.of_nat (Z.to_nat t)) in Hss by lia. rewrite cut_set in Hss by (done || lia). fold k in Hss.
  assert (Es : slots x dl = take (Z.to_nat (k + t)) (slots w dl) ++ es ++ drop (Z.to_nat (k + t) + length es) (slots w dl)).
  { rewrite Hss, <- Hcut, take_take, Nat.min_l by lia. rewrite skipn_firstn_comm, drop_drop, <- !app_assoc, app_assoc, take_take_drop.
    f_equal; [f_equal; lia|]. f_equal. transitivity (take (16 - (Z.to_nat t + length es)) (drop (Z.to_nat (k + t) + length es) (slots w dl)) ++
      drop (16 - (Z.to_nat t + length es)) (drop (Z.to_nat (k + t) + length es) (slots w dl))); [|apply take_drop].
    rewrite drop_drop. f_equal; [do 2 f_equal; lia|f_equal; lia]. }
  destruct (tidy_place (slots w dl) its it (Z.to_nat (k + t)) Ht Hit) as (its' & Ht' & l1 & l2 & El & El'); [lia|..].
  - intros E. fold es in E. rewrite E in Hn. cbn in Hn. lia.
  - intros j Hj. fold es in Hj. exists (dirent w dl (Z.of_nat j)). split.
    { replace j with (Z.to_nat (Z.of_nat j)) at 1 by lia. apply slots_lookup; done || lia. }
    assert (exists m, Z.of_nat j = k + Z.of_nat m) as [m Em] by (exists (j - Z.to_nat k)%nat; lia).
    unfold free_slot. rewrite Em, (sector_slot w dl pos c s) by (done || lia). fold b. rewrite at_slice by lia.
    replace (32 * Z.of_nat m + 0) with (Z.of_nat m * 32) by lia. apply Hfree. lia.
  - exists its'. fold es in Ht'. rewrite <- Es in Ht'. split; [done|]. exists l1, l2. split; [done|]. rewrite El'. do 3 f_equal. lia.
Qed.

(** The directory has got the entry [d]. *)
Record added v dl its (d : fat_dirent) w dl' its' : Prop := {
  ad_frame : frame (reach v dl) v w;
  ad_chain : chain w dl';
  ad_head : head dl' = head dl;
  ad_tidy : tidy (slots w dl') its';
  ad_list : exists l1 l2, listing its 0 = l1 ++ l2 /\ listing its' 0 = l1 ++ d :: l2;
  ad_short : forall d', d' ∈ listing its 0 -> take 11 (d_raw d') <> take 11 (d_raw d) }.

Lemma steady_head v dl its w dl' its' : steady v dl its w dl' its' -> dl <> [] -> head dl' = head dl.
Proof. intros [_ _ (new & -> & _) _ _] Hne. by destruct dl. Qed.

Lemma steady_added v dl its w dl1 its1 d x dl2 its2 :
  inv v -> chain v dl -> dl <> [] -> steady v dl its w dl1 its1 -> added w dl1 its1 d x dl2 its2 -> added v dl its d x dl2 its2.
Proof.
  intros Hi Hl Hne Hst [Hf Hc Hh Ht Hli Hsh]. pose proof Hst as [Hf1 _ _ _ Hl1]. split; [|done| |done|by rewrite <- Hl1|by rewrite <- Hl1].
  - eapply frame_trans; [exact Hf1|]. destruct Hf as (Hn & Hfr & Hlow). split; [done|]. split; [|done]. intros y Hy Hny.
    apply Hfr; [done|]. intros Hr. apply Hny. eapply steady_reach; [done|done|done| |done].
    destruct Hf1 as ([_ Est] & _). by apply (static_valid v w).
  - rewrite Hh. by eapply steady_head.
Qed.

Lemma spot_now v w dl its total pos c s t : same v w -> spot v dl its total pos c s t -> spot w dl its total pos c s t.
Proof.
  intros Hs [Hsa Hfit Hlow Hfree]. pose proof Hs as ([_ Est] & Hsec & _). split; [by eapply sector_now|done|by rewrite (static_slot0 v w)|].
  by rewrite (static_dsec v w), Hsec.
Qed.

(** The write that adds a set to the directory: all of it or nothing. *)
Lemma store_set v dl its recs e name total pos c s t :
  inv v -> read_only (vol v) = false -> aligned v -> chain v dl -> dl <> [] -> tidy (slots v dl) its ->
  spot v dl its total pos c s t -> item_ok (Named recs e name) -> Z.of_nat (length recs) + 1 = total ->
  Forall (fun r => zlen r = 32 /\ Forall byte_ok r) (recs ++ [e]) -> (forall d', d' ∈ listing its 0 -> take 11 (d_raw d') <> take 11 e) ->
  let i := slot0 v pos s + t in
  let d := Dirent name (i + Z.of_nat (length recs)) i (de_clus e) (de_size e) (at_ e DE_ATTR) e in
  iwp (fat_sector_write (dsec v c s) (put_bytes (t * 32) (concat recs ++ e) (sec v (dsec v c s)))) v
    (fun _ w => exists its', added v dl its d w dl its')
    (fun rc w => ((exists its', added v dl its d w dl its') \/ steady v dl its w dl its) /\ rc = VFS_EINVAL /\ ~ reliable D).
Proof.
  intros Hi Hro Hal Hl Hne Ht Hsp Hit Hn Hrec Hu i d. pose proof Hsp as [Hsa [Ht0 Hfit] _ _].
  assert (Hz : Forall (fun r => zlen r = 32) (recs ++ [e])) by (eapply Forall_impl; [|exact Hrec]; by intros ? [? ?]).
  assert (Ec : concat recs ++ e = concat (recs ++ [e])) by (rewrite concat_app; cbn [concat]; by rewrite app_nil_r). rewrite Ec.
  destruct (sec_bytes v (dsec v c s)) as [Hsb Hsz]. pose proof (zlen_concat _ Hz) as Hcz. rewrite length_app in Hcz. cbn [length] in Hcz.
  assert (Hw : forall w, written v w dl (slot0 v pos s * 32) (put_bytes (t * 32) (concat (recs ++ [e])) (sec v (dsec v c s))) ->
    exists its', added v dl its d w dl its').
  { intros w Hw. destruct (spot_write v w dl its total pos c s t (Named recs e name)) as (its' & Ht' & Hli); try done; try lia.
    { cbn [item_slots]. rewrite length_app. cbn. lia. }
    exists its'. split; [eapply within_frame; [apply Hw|by left]|eapply within_chain; [apply Hw|done]|done..]. }
  eapply iwp_mono.
  { apply (dir_sector_write v dl pos c s); try done.
    - unfold put_bytes. rewrite zlen_patch; unfold SECTOR in *; lia.
    - unfold put_bytes, patch. repeat apply Forall_app_2; [by apply Forall_take| |by apply Forall_drop].
      apply Forall_concat. eapply Forall_impl; [|exact Hrec]. by intros ? [? ?]. }
  - intros [] w Hwr. by apply Hw.
  - intros rc w (Hat & ? & ?). split; [|done]. destruct Hat as [Hwr|Hsc]; [left; by apply Hw|right].
    destruct (slots_unchanged v w dl _ Hi Hsc) as [E _]. apply steady_within; [apply Hsc|done|by rewrite E|done].
Qed.

Definition is_entry (d : fat_dirent) (name : bytes) (attr first size : Z) : Prop :=
  d_name d = name /\ d_attr d = attr /\ d_clus d = first /\ d_size d = size.

(** Why a disk that works may turn a new entry down. *)
Definition refused v dl (name : bytes) (rc : Z) : Prop :=
  rc = VFS_EINVAL /\ (fat_name_ok name = false \/ read_only (vol v) = true) \/
  rc = VFS_EEXIST \/ rc = VFS_ENOSPC /\ full v dl.

Definition dir_added v dl its name attr first size w : Prop :=
  exists d dl' its', is_entry d name attr first size /\ added v dl its d w dl' its'.

(** Room found, the set stored. *)
Lemma add_placed v dl its dclus name ucs s0 needs s attr first size :
  inv v -> read_only (vol v) = false -> aligned v -> chain v dl -> head dl = Some dclus -> tidy (slots v dl) its ->
  Forall unit_ok ucs -> ucs2_to_utf8 ucs (VFS_NAME_MAX + 1) = Some name -> name <> [] -> 0 < zlen ucs <= VFS_NAME_MAX ->
  short_name_build name = (s0, needs) -> (needs = false -> s = s0) -> unused v dl s ->
  attr_ok attr -> 0 <= first < 2 ^ 32 -> 0 <= size < 2 ^ 32 ->
  let n := records_for ucs needs in n + 1 <= 16 ->
  iwp (p <- place_loop (Z.to_nat FAT_MAX_DIR_ENTRIES) dclus dclus 0 (n + 1) ;;
       let '(found, sn) := p in
       sec <- fat_sector_read_into sn ;;
       let slot0 := found mod ENTS_PER_SECTOR in
       let sum := fat_short_checksum s in
       c <- iget clk ;;
       let e := short_record s attr first size (fat_now c) in
       fat_sector_write sn (put_bytes (slot0 * FAT_DIRENT_SIZE) (concat (lfn_records ucs sum (Z.to_nat n)) ++ e) sec) ;;;
       iret (Dirent name (found + n) found first size attr e)) v
    (fun d w => is_entry d name attr first size /\ exists dl' its', added v dl its d w dl' its')
    (fun rc w => (no_spot v dl its w \/ ~ reliable D /\ dir_added v dl its name attr first size w) /\
       (reliable D -> rc = VFS_ENOSPC /\ full v dl)).
Proof.
  intros Hi Hro Hal Hl Hh Ht Hu Hname Hne Hlen Hb Hs0 [Hdos Hun] Ha Hf Hz n Hn16.
  assert (Hdl : dl <> []) by by destruct dl. assert (Hc0 : dl !! Z.to_nat 0 = Some dclus) by by destruct dl.
  assert (Hn0 : 0 <= n) by (unfold n; pose proof (records_for_bounds ucs needs Hlen); destruct needs; lia).
  eapply iwp_seq; [|..].
  { pose proof (place_loop_spec (n + 1) dclus (Z.to_nat FAT_MAX_DIR_ENTRIES) v dl its 0 dclus Hi Hro Hal Hl Hh Ht ltac:(lia) ltac:(lia) Hc0) as Hp.
    cbv zeta in Hp. rewrite Z.mul_0_l, Z.sub_0_r in Hp. apply Hp; [lia|done]. }
  2: { intros rc w [Hno Hx]. split; [by left|]. intros Hrel. destruct (Hx Hrel) as (-> & _ & ?). done. }
  intros r w (dl1 & its1 & pos & c & s1 & t & Hst & Hsp & ->). pose proof (steady_next _ _ _ _ _ _ Hst) as [Hiw Est].
  pose proof (static_vol _ _ Est) as (_&_&_&_&_&_&_&_&_&Ero&_).
  pose proof Hsp as [Hsa [Ht0 Hfit] _ _]. pose proof (st_chain _ _ _ _ _ _ Hst) as Hlw.
  assert (Hstop : forall x, same w x -> no_spot v dl its x).
  { intros x Hs. exists dl1, its1. eapply steady_trans; [done|done|exact Hst|]. apply steady_same; [done|done|apply Hst]. }
  destruct (dir_sector_read w dl1 pos c s1 Hiw Hlw Hsa) as [_ Hrd]. eapply iwp_seq; [exact Hrd|..].
  2: { intros rc x (Hs & _ & ?). split; [left; by apply Hstop|done]. }
  intros b x [Hs ->]. pose proof Hs as ([Hix Esx] & Hsec & _). pose proof (static_vol _ _ Esx) as (_&_&_&_&_&_&_&_&_&Ero2&_).
  apply iwp_bind, iwp_get. set (now := fat_now (clk x)).
  destruct (new_item_ok name ucs s0 needs s attr first size now) as (Hit & Hlr & Hby & Ecl & Esz & Eat & Et); try done.
  fold n in Hit, Hlr, Hby. set (recs := lfn_records ucs (fat_short_checksum s) (Z.to_nat n)) in *.
  set (e := short_record s attr first size now) in *.
  unfold ENTS_PER_SECTOR, FAT_DIRENT_SIZE. rewrite Z.add_mod, slot0_aligned, Z.add_0_l, Z.mod_mod, (Z.mod_small t) by (done || lia).
  assert (Hstx : steady v dl its x dl1 its1) by (eapply steady_trans; [done|done|exact Hst|]; apply steady_same; [done|done|apply Hst]).
  assert (Hsh : forall d', d' ∈ listing its1 0 -> take 11 (d_raw d') <> take 11 e).
  { rewrite (st_list _ _ _ _ _ _ Hst), Et. intros d'. rewrite <- (tidy_reads _ its 0 Ht). by apply unused_short. }
  pose proof (store_set x dl1 its1 recs e name (n + 1) pos c s1 t Hix ltac:(congruence) ltac:(eapply (static_aligned v); [congruence|done])
    ltac:(apply Hstx) ltac:(by intros ->; destruct Hsa) ltac:(apply Hstx) ltac:(by eapply spot_now) Hit ltac:(lia) Hby Hsh) as Hstore.
  cbv zeta in Hstore. rewrite Hsec, !(static_dsec w x), !(static_slot0 w x), Hlr, Z2Nat.id, Ecl, Esz, Eat in Hstore by (done || lia).
  set (d := Dirent _ _ _ _ _ _ _) in Hstore. assert (Hd : is_entry d name attr first size) by done.
  eapply iwp_seq; [exact Hstore|..].
  - intros [] y (its' & Had). apply iwp_ret. split; [done|]. exists dl1, its'. by eapply steady_added.
  - intros rc y (Hor & -> & Hr). split; [|done]. destruct Hor as [(its' & Had)|Hst'].
    + right. split; [done|]. exists d, dl1, its'. split; [done|]. by eapply steady_added.
    + left. exists dl1, its1. by eapply steady_trans.
Qed.

(** The short name of a new entry. *)
Lemma pick_short_spec v dl dclus name s0 needs :
  inv v -> aligned v -> chain v dl -> head dl = Some dclus -> dos_name s0 ->
  iwp (if needs : bool then short_alias_pick dclus name s0
       else t <- short_name_taken dclus s0 ;; if t : bool then ifail VFS_EEXIST else iret s0) v
    (fun s w => same v w /\ unused v dl s /\ (needs = false -> s = s0)) (fun rc w => same v w /\ rc = VFS_EEXIST).
Proof.
  intros Hi Hal Hl Hh Hd. destruct needs.
  - eapply iwp_mono; [by apply (alias_pick_spec v dl)|..]; [|done]. intros s w [Hs Hu]. done.
  - eapply iwp_seq; [by apply (short_name_taken_spec v dl)|..]; [|done]. intros t w [Hs Ht].
    destruct t; [by apply iwp_fail|apply iwp_ret]. split; [done|]. split; [|done]. split; [done|]. by destruct Ht as [->|[? _]].
Qed.

Lemma dir_add_spec v dl its dclus name attr first size :
  inv v -> aligned v -> chain v dl -> head dl = Some dclus -> tidy (slots v dl) its -> Forall byte_ok name ->
  attr_ok attr -> 0 <= first < 2 ^ 32 -> 0 <= size < 2 ^ 32 ->
  iwp (fat_dir_add dclus name attr first size) v
    (fun d w => is_entry d name attr first size /\ exists dl' its', added v dl its d w dl' its')
    (fun rc w => (no_spot v dl its w \/ ~ reliable D /\ dir_added v dl its name attr first size w) /\
       (reliable D -> refused v dl name rc)).
Proof.
  intros Hi Hal Hl Hh Ht Hby Ha Hf Hz. unfold fat_dir_add. apply iwp_bind, iwp_get.
  assert (Hno : forall w, same v w -> no_spot v dl its w) by (intros w Hs; exists dl, its; by apply steady_same).
  destruct (fat_name_ok name) eqn:Eok; cbn [negb].
  2: { apply iwp_fail. split; [left; by apply Hno|]. left. split; [done|]. by left. }
  destruct (read_only (vol v)) eqn:Ero.
  { apply iwp_fail. split; [left; by apply Hno|]. left. split; [done|]. by right. }
  destruct (name_ok_facts name Hby Eok) as (Hne & Hnul & ucs & Eu & Hu & Hname & Hlen). rewrite Eu.
  destruct (short_name_build name) as [s0 needs] eqn:Eb.
  eapply iwp_seq; [apply (pick_short_spec v dl); try done; by eapply build_dos|..].
  2: { intros rc w [Hs ->]. split; [left; by apply Hno|]. right. by left. }
  intros s w (Hs & Hun & Hs0). fold (records_for ucs needs). set (n := records_for ucs needs).
  unfold ENTS_PER_SECTOR at 1. destruct (Z.ltb_spec 16 (n + 1)) as [Hbig|Hn].
  { pose proof (records_for_bounds ucs needs Hlen) as Hr. fold n in Hr. unfold LFN_CHARS, VFS_NAME_MAX in *. destruct needs; lia. }
  pose proof Hs as ([Hiw Est] & _). pose proof (static_vol _ _ Est) as (_&_&_&_&_&_&_&_&_&Erow&_).
  assert (Hunw : unused w dl s) by (unfold unused; by rewrite (slots_same v w)).
  assert (Hstw : steady v dl its w dl its) by by apply steady_same. assert (Hdl : dl <> []) by by destruct dl.
  eapply iwp_mono.
  { apply (add_placed w dl its dclus name ucs s0 needs s attr first size); try done; try congruence.
    - by eapply static_aligned.
    - by eapply chain_now.
    - by rewrite (slots_same v w). }
  - intros d x (Hd & dl' & its' & Had). split; [done|]. exists dl', its'. by eapply steady_added.
  - intros rc x [Hor Hx]. split.
    + destruct Hor as [(dl' & its' & Hst)|(Hr & d & dl' & its' & Hd & Had)].
      * left. exists dl', its'. by eapply steady_trans.
      * right. split; [done|]. exists d, dl', its'. split; [done|]. by eapply steady_added.
    + intros Hrel. destruct (Hx Hrel) as [-> Hfull]. right. right. split; [done|]. destruct Hfull as [Hm|Hfr].
      * left. by rewrite (static_nslots v w) in Hm.
      * right. intros y Hy. rewrite <- (same_entry v w) by done. apply Hfr. by apply (static_valid v w).
Qed.

End Add.

(** ** fs/fat/fat_dir.c, fat_dir_remove: an entry taken out of a directory. *)

Section Remove.
Context {D : Type} `{DiskLaws D}.
Implicit Types (v w : vst D) (dl : list Z) (its : list item).

(** One slot marked. *)
Lemma slots_put v w dl i x :
  inv v -> 0 <= i < nslots v dl -> i < FAT_MAX_DIR_ENTRIES -> written v w dl (i * 32) [x] ->
  slots w dl = <[Z.to_nat i := put8 0 x (dirent v dl i)]> (slots v dl).
Proof.
  intros Hi Hr Hm [Hw Hb]. pose proof (wi_next _ _ _ Hw) as [Hiw Est]. destruct (slots_per_cluster v Hi) as (_ & _ & Eb).
  assert (Hroom : nslots v dl * 32 = room v dl) by (unfold nslots, room; rewrite Eb at 2; lia).
  pose proof (length_slots v dl Hi) as Hlen. pose proof (length_slots w dl Hiw) as Hlenw. rewrite (static_nslots v w) in Hlenw by done.
  change (zlen [x]) with 1 in Hb. apply list_eq. intros j.
  destruct (decide (Z.of_nat j < Z.min (nslots v dl) FAT_MAX_DIR_ENTRIES)) as [Hj|Hj].
  2: { rewrite !lookup_ge_None_2; [done|rewrite length_insert; lia|lia]. }
  assert (Ew : slots w dl !! j = Some (dirent w dl (Z.of_nat j))).
  { replace j with (Z.to_nat (Z.of_nat j)) at 1 by lia. apply slots_lookup; rewrite ?(static_nslots v w) by done; done || lia. }
  rewrite Ew. destruct (decide (j = Z.to_nat i)) as [->|Hne].
  - rewrite list_lookup_insert_eq by lia. f_equal. rewrite Z2Nat.id by lia.
    assert (Hz : zlen (dirent v dl i) = 32) by apply zlen_fbytes.
    apply bytes_ext; [rewrite zlen_put8, Hz; apply zlen_fbytes|]. unfold dirent at 1. rewrite zlen_fbytes. intros k Hk.
    rewrite at_put8 by lia. unfold dirent. rewrite !at_fbytes, Hb by lia. destruct (Z.eqb_spec k 0) as [->|].
    + rewrite range_in by lia. by replace (i * 32 + 0 - i * 32) with 0 by lia.
    + by rewrite range_out by lia.
  - rewrite list_lookup_insert_ne by done. replace (slots v dl !! j) with (Some (dirent v dl (Z.of_nat j))).
    { f_equal. apply dirent_ext. intros k Hk. rewrite Hb, range_out by lia. done. }
    symmetry. replace j with (Z.to_nat (Z.of_nat j)) at 1 by lia. apply slots_lookup; done || lia.
Qed.

(** The slots of a set, deleted from [m] on. *)
Definition gone_from (m : nat) (es : list bytes) : list bytes := take m es ++ map deleted (drop m es).

Lemma gone_step m es e : es !! m = Some e -> gone_from m es = <[m := deleted e]> (gone_from (S m) es).
Proof.
  intros He. pose proof (lookup_lt_Some _ _ _ He) as Hlt. unfold gone_from.
  rewrite (take_S_r _ _ e He), (drop_S es e m He), <- app_assoc. cbn [map app].
  rewrite insert_app_r_alt by (rewrite length_take; lia). rewrite length_take, Nat.min_l, Nat.sub_diag by lia. done.
Qed.

(** One round of the loop: slot [i] marked deleted, and [k] then. *)
Lemma mark_spec w dl dclus i (k : io (vst D) unit) Q (E : Z -> vst D -> Prop) :
  inv w -> read_only (vol w) = false -> chain w dl -> head dl = Some dclus -> 0 <= i -> (i + 1) * 32 <= room w dl ->
  (forall x, written w x dl (i * 32) [FAT_DELETED] -> iwp k x Q E) ->
  (forall x, atomically w x dl (i * 32) [FAT_DELETED] -> ~ reliable D -> E VFS_EINVAL x) ->
  iwp (l <- locate dclus i ;;
       match l with
       | None => iret tt
       | Some (s, off) => sec <- fat_sector_read_into s ;; fat_sector_write s (put8 off FAT_DELETED sec) ;;; k
       end) w Q E.
Proof.
  intros Hi Hro Hl Hh Hi0 Hr Hk HE.
  assert (Hstop : forall x, same w x -> ~ reliable D -> E VFS_EINVAL x) by (intros x Hs; apply HE; right; by apply scribbled_same).
  eapply iwp_seq; [by apply (locate_spec w dl i dclus)|..].
  2: { intros rc x (Hs & -> & ?). by apply Hstop. }
  intros r x (Hs & pos & c & k0 & off & Hat & ->). pose proof Hs as ([Hix Esx] & Hsec & _).
  pose proof Hat as (Hpos & Hc & Hk0 & Hoff & Hfit & Ep).
  assert (Hv : valid w c) by (eapply chain_valid; [done|by eapply list_elem_of_lookup_2]).
  destruct (dsec_range w c k0 Hi Hv Hk0) as (_ & ? & ? & ? & ?). pose proof (geo_bounds w Hi).
  pose proof (static_vol _ _ Esx) as (_&_&_&_&_&_&_&_&_&_&Ebd&_).
  eapply iwp_seq; [apply (sector_read_spec x); [done|lia|lia]|..].
  2: { intros rc y (Hs' & -> & ?). apply Hstop; [by eapply same_trans|done]. }
  intros b y [Hs' ->]. assert (Hsy : same w y) by by eapply same_trans. clear Hs'. pose proof Hsy as ([Hiy Esy] & Hsecy & _).
  pose proof (static_vol _ _ Esy) as (Espcy&Ebpcy&_&_&_&_&_&_&_&Eroy&_).
  assert (Hly : chain y dl) by by eapply chain_now. destruct (sec_bytes w (dsec w c k0)) as [_ Hsz].
  assert (Epatch : put8 off FAT_DELETED (sec x (dsec w c k0)) = patch off [FAT_DELETED] (sec y (dsec y c k0))).
  { rewrite (static_dsec w y), Hsecy, Hsec by done. unfold SECTOR, zlen in *.
    unfold put8, patch. cbn [app length]. rewrite Nat.add_1_r. apply insert_take_drop. lia. }
  rewrite Epatch, <- (static_dsec w y) by done.
  replace (i * 32) with (pos * bytes_per_clus (vol y) + k0 * SECTOR + off) in * by (rewrite Ebpcy; exact Ep).
  eapply iwp_seq.
  { apply (part_write y dl pos c k0 Hiy Hly Hpos Hc ltac:(lia) off [FAT_DELETED]); [congruence|lia|lia|done| |by repeat constructor].
    change (zlen [FAT_DELETED]) with 1. lia. }
  - intros [] z Hz. apply Hk. by eapply written_trans_same.
  - intros rc z (Hz & -> & ?). apply HE; [|done]. by eapply atomically_trans_same.
Qed.

Section Loop.
Context (dl : list Z) (dclus : Z) (pre es post : list bytes) (index : Z) (v0 : vst D).
Context (Hl0 : chain v0 dl) (Hh : head dl = Some dclus) (Hi0 : inv v0) (Hro0 : read_only (vol v0) = false).

(** Some of the set's slots deleted, the last ones first. *)
Definition clearing (w : vst D) (m : nat) : Prop := within v0 w dl /\ slots w dl = pre ++ gone_from m es ++ post.

Lemma clearing_same w x m : clearing w m -> same w x -> clearing x m.
Proof. intros [Hw Es] Hs. split; [eapply within_trans; [exact Hw|by apply within_same]|by rewrite (slots_same w x)]. Qed.

(** The slot the loop comes to next, and what deleting it makes of the directory. *)
Lemma clearing_step w m : (m < length es)%nat -> clearing w (S m) ->
  let i := Z.of_nat (length pre) + Z.of_nat (S m) - 1 in
  (i + 1) * 32 <= room w dl /\
  (forall z, written w z dl (i * 32) [FAT_DELETED] -> clearing z m) /\
  (forall z, scribbled w z dl (i * 32) 0 -> clearing z (S m)).
Proof.
  intros Hm [Hwi Es] i. pose proof (wi_next _ _ _ Hwi) as [Hi _]. pose proof (length_slots w dl Hi) as Hlen.
  destruct (lookup_lt_is_Some_2 es m Hm) as [e He].
  assert (Hlk : slots w dl !! (length pre + m)%nat = Some e).
  { rewrite Es, lookup_app_r by lia. replace (length pre + m - length pre)%nat with m by lia. unfold gone_from.
    rewrite <- app_assoc, lookup_app_l, lookup_take_lt by (rewrite ?length_take; lia). done. }
  pose proof (lookup_lt_Some _ _ _ Hlk) as Hlt. assert (Ei : Z.to_nat i = (length pre + m)%nat) by lia.
  pose proof (slots_lookup w dl i Hi ltac:(lia) ltac:(lia)) as Hdi. rewrite Ei, Hlk in Hdi. injection Hdi as Hde.
  destruct (slots_per_cluster w Hi) as (_ & _ & Eb).
  assert (Hroom : nslots w dl * 32 = room w dl) by (unfold nslots, room; rewrite Eb at 2; lia).
  split; [lia|]. split; intros z Hz; (split; [eapply within_trans; [exact Hwi|apply Hz]|]).
  - rewrite (slots_put w z dl i FAT_DELETED Hi ltac:(lia) ltac:(lia) Hz), Ei, Es, <- Hde.
    rewrite insert_app_r, insert_app_l by (unfold gone_from; rewrite length_app, length_map, length_take, length_drop; lia).
    by rewrite (gone_step m es e He).
  - by rewrite (proj1 (slots_unchanged w z dl _ Hi Hz)).
Qed.

Lemma remove_loop_spec m : forall w, (m <= length es)%nat -> clearing w m ->
  iwp (remove_loop m (Z.of_nat (length pre) + Z.of_nat m - 1) index dclus) w
    (fun _ x => clearing x 0)
    (fun rc x => (exists m', (m' <= length es)%nat /\ clearing x m') /\ rc = VFS_EINVAL /\ ~ reliable D).
Proof using Hl0 Hh Hi0 Hro0.
  induction m as [|m IH]; intros w Hm Hw; cbn [remove_loop]; [by apply iwp_ret|].
  destruct (clearing_step w m ltac:(lia) Hw) as (Hroom & Hdone & Hnot). set (i := Z.of_nat (length pre) + Z.of_nat (S m) - 1) in *.
  pose proof (wi_next _ _ _ (proj1 Hw)) as [Hi Est]. pose proof (static_vol _ _ Est) as (_&_&_&_&_&_&_&_&_&Ero&_).
  apply (mark_spec w dl); [done|congruence|by eapply within_chain; [apply Hw|]|done|lia|done|..].
  2: { intros x [Hx|Hx] Hr; (split; [|done]); [exists m; split; [lia|by apply Hdone]|exists (S m); split; [done|by apply Hnot]]. }
  intros z Hz%Hdone. pose proof (wi_next _ _ _ (proj1 Hz)) as [Hiz _].
  assert (Hgo : forall u, clearing u m -> iwp (remove_loop m (i - 1) index dclus) u (fun _ x => clearing x 0)
    (fun rc x => (exists m', (m' <= length es)%nat /\ clearing x m') /\ rc = VFS_EINVAL /\ ~ reliable D)).
  { intros u Hu. replace (i - 1) with (Z.of_nat (length pre) + Z.of_nat m - 1) by lia. apply IH; [lia|done]. }
  destruct (i =? index); [|apply iwp_bind, iwp_ret; by apply Hgo].
  eapply iwp_seq; [by apply barrier_spec|..].
  - intros [] u Hs'. apply Hgo. by eapply clearing_same.
  - intros rc u (Hs' & ?). split; [|done]. exists m. split; [lia|]. by eapply clearing_same.
Qed.

End Loop.

(** The directory has lost the entry [d]. *)
Record removed v dl its (d : fat_dirent) w its' : Prop := {
  rm_within : within v w dl;
  rm_tidy : tidy (slots w dl) its';
  rm_list : exists l1 l2, listing its 0 = l1 ++ d :: l2 /\ listing its' 0 = l1 ++ l2 }.

(** When the disk fails half way the entry is there or it is gone. *)
Definition half_removed v dl dclus its (d : fat_dirent) w : Prop :=
  within v w dl /\ exists l1 l2, listing its 0 = l1 ++ d :: l2 /\
  (dir_list w dl dclus = l1 ++ d :: l2 \/ dir_list w dl dclus = l1 ++ l2).

Lemma dir_remove_spec v dl its dclus d :
  inv v -> read_only (vol v) = false -> chain v dl -> head dl = Some dclus -> tidy (slots v dl) its -> d ∈ listing its 0 ->
  iwp (fat_dir_remove dclus d) v (fun _ w => exists its', removed v dl its d w its')
    (fun rc w => half_removed v dl dclus its d w /\ rc = VFS_EINVAL /\ ~ reliable D).
Proof.
  intros Hi Hro Hl Hh Ht Hd. destruct (listing_item its 0 d Hd) as (its1 & recs & e & name & its2 & Eits & Ed).
  cbn [item_entry] in Ed. injection Ed as Ed. rewrite Z.add_0_l in Ed. set (k0 := Z.of_nat (length (slots_of its1))) in *.
  destruct Ht as (Hok & zs & Ess & Hz). set (es := recs ++ [e]).
  assert (Eslots : slots v dl = slots_of its1 ++ es ++ slots_of its2 ++ zs).
  { rewrite Ess, Eits, slots_of_app, slots_of_cons, <- !app_assoc. cbn [item_slots]. by unfold es. }
  assert (Hlist : listing its 0 = listing its1 0 ++ d :: listing its2 (k0 + Z.of_nat (length es))).
  { rewrite Eits, listing_app. cbn [listing item_entry]. rewrite Z.add_0_l. fold k0. rewrite Ed. cbn [app item_slots]. by fold es. }
  assert (Hzl : Forall (fun x => zlen x = 32) es).
  { apply List.Forall_forall. intros x Hx. assert (Hin : In x (slots v dl)).
    { rewrite Eslots. apply in_app_iff. right. apply in_app_iff. by left. }
    apply in_map_iff in Hin as (j & <- & _). apply zlen_fbytes. }
  assert (Hidle : forall m, Forall idle (map deleted (drop m es))).
  { intros m. apply Forall_map. eapply Forall_impl; [|by apply Forall_drop, Hzl]. intros x Hx. by apply deleted_idle. }
  assert (Hles : length es = (length recs + 1)%nat) by (unfold es; rewrite length_app; done).
  unfold fat_dir_remove. apply iwp_bind, iwp_get. rewrite Hro.
  assert (Ei : d_index d = k0 + Z.of_nat (length recs) /\ d_first_index d = k0) by by rewrite <- Ed. destruct Ei as [-> ->].
  replace (Z.to_nat (k0 + Z.of_nat (length recs) + 1 - k0)) with (length es) by lia.
  replace (k0 + Z.of_nat (length recs)) with (Z.of_nat (length (slots_of its1)) + Z.of_nat (length es) - 1) by (unfold k0; lia).
  rewrite Eits in Hok. assert (Hend : k0 + Z.of_nat (length es) = Z.of_nat (length (slots_of its1) + length recs + 1)) by lia.
  eapply iwp_mono.
  { apply (remove_loop_spec dl dclus (slots_of its1) es (slots_of its2 ++ zs) _ v); try done. split; [by apply within_refl|].
    unfold gone_from. rewrite take_ge, drop_ge by lia. cbn [map]. by rewrite app_nil_r. }
  - intros [] w [Hw Es]. unfold gone_from in Es. cbn [take drop app] in Es.
    destruct (tidy_remove its1 recs e name its2 zs (map deleted es)) as [Ht' El]; [|done|apply (Hidle O)|by rewrite length_map|].
    { split; [done|]. by exists zs. }
    exists (its1 ++ map Gone (map deleted es) ++ its2). split; [done|by rewrite Es|]. eexists _, _. split; [exact Hlist|].
    by rewrite El, Hend.
  - intros rc w ((m & Hm & Hw & Es) & ? & ?). split; [|done]. split; [done|]. eexists _, _. split; [exact Hlist|].
    unfold dir_list. rewrite Es. destruct (decide (m = length es)) as [->|Hne].
    + left. unfold gone_from. rewrite take_ge, drop_ge by lia. cbn [map]. rewrite app_nil_r, <- Hlist, Eits.
      apply tidy_reads. split; [done|]. exists zs. split; [|done]. rewrite slots_of_app, slots_of_cons, <- !app_assoc. done.
    + right. unfold gone_from, es at 1. rewrite take_app_le by lia.
      rewrite (partly_removed its1 recs e name its2 zs m _ dclus Hok Hz); [by rewrite Hend|lia|rewrite length_map, length_drop; lia|apply Hidle].
Qed.

End Remove.
