(* ===== verification/FatDirClaims.v ===== *)
(** fs/fat/fat_dir.c: what the directory routines promise. *)

From S2P Require Import Prelude Bytes Paths Vfs Rtc Block RamDisk FatVol FatMount FatFile FatName FatDir FatNameSpec.
From S2P Require Import FatDisk FatChain FatRw FatEntry FatSpec FatScan FatItems FatPlace.
From S2P Require Import FatRoom FatEdit FatDemo.

Section Claims.
Context {D : Type} `{DiskLaws D}.
Implicit Types (v w : vst D) (dl : list Z).

(** A directory in good order, on a good volume. *)
Record good_dir v dl (dclus : Z) : Prop := {
  gd_inv : inv v;
  gd_chain : chain v dl;
  gd_head : head dl = Some dclus;
  gd_tidy : exists its, tidy (slots v dl) its }.

Lemma good_list v dl its dclus : tidy (slots v dl) its -> dir_list v dl dclus = listing its 0.
Proof. apply tidy_reads. Qed.

Lemma steady_good v dl its w dl' its' dclus : head dl = Some dclus -> steady v dl its w dl' its' -> good_dir w dl' dclus.
Proof.
  intros Hh Hst. split; [apply (steady_next _ _ _ _ _ _ Hst)|apply Hst| |exists its'; apply Hst].
  rewrite <- Hh. eapply steady_head; [exact Hst|]. by intros ->.
Qed.

Lemma added_good v dl its d w dl' its' dclus : head dl = Some dclus -> added v dl its d w dl' its' -> good_dir w dl' dclus.
Proof. intros Hh [Hf Hc Hhd Ht _ _]. split; [apply Hf|done|congruence|by exists its']. Qed.

(** The directory [dl] of [v] has got [d] and is [dl'] in [w]. *)
Definition has_got v dl dclus (d : fat_dirent) w dl' : Prop :=
  (exists l1 l2, dir_list v dl dclus = l1 ++ l2 /\ dir_list w dl' dclus = l1 ++ d :: l2) /\
  forall d', d' ∈ dir_list v dl dclus -> take 11 (d_raw d') <> take 11 (d_raw d).

Lemma added_got v dl its d w dl' its' dclus : tidy (slots v dl) its -> added v dl its d w dl' its' -> has_got v dl dclus d w dl'.
Proof.
  intros Ht Had. unfold has_got. rewrite (good_list v dl its), (good_list w dl' its') by (done || apply Had).
  split; [apply Had|apply (ad_short _ _ _ _ _ _ _ Had)].
Qed.

(** C31: fat_dir_find is the search of the directory's listing for the first entry whose
    name is the one asked for up to the case of ASCII letters. Clusters, sectors, the cursor
    and the collection of long names do not show; nothing changes. *)
Theorem dir_find_is_search v dl dclus name :
  inv v -> chain v dl -> head dl = Some dclus ->
  match fat_dir_find dclus name v with
  | (inr d, w) => find (fun d => name_eq_ci (d_name d) name) (dir_list v dl dclus) = Some d /\ same v w
  | (inl rc, w) => same v w /\
      (rc = VFS_ENOENT /\ find (fun d => name_eq_ci (d_name d) name) (dir_list v dl dclus) = None \/
       rc = VFS_EINVAL /\ ~ reliable D)
  end.
Proof.
  intros Hi Hl Hh. pose proof (dir_find_spec v dl dclus name Hi Hl Hh) as Hf. unfold iwp in Hf.
  destruct (fat_dir_find dclus name v) as [[rc|d] w]; tauto.
Qed.

(** C21: fat_dir_add puts exactly one entry into the listing, with the name, attributes,
    first cluster and size given, under a short name no other entry has; every other entry
    keeps its place, its bytes and its slot, and outside the directory only free clusters are
    touched. When it fails the listing is as it was, unless the disk failed in the one write
    that stores the whole set. On a disk that works it fails only for a bad name or volume, a
    short name in use, or when the directory or the volume is full. The directory stays in
    good order in every case. *)
Theorem dir_add_inserts v dl dclus name attr first size :
  good_dir v dl dclus -> Forall byte_ok name -> attr_ok attr -> 0 <= first < 2 ^ 32 -> 0 <= size < 2 ^ 32 ->
  match fat_dir_add dclus name attr first size v with
  | (inr d, w) => is_entry d name attr first size /\ frame (reach v dl) v w /\
      exists dl', good_dir w dl' dclus /\ has_got v dl dclus d w dl'
  | (inl rc, w) => frame (reach v dl) v w /\ (reliable D -> refused v dl name rc) /\
      exists dl', good_dir w dl' dclus /\
        (dir_list w dl' dclus = dir_list v dl dclus \/
         ~ reliable D /\ exists d, is_entry d name attr first size /\ has_got v dl dclus d w dl')
  end.
Proof.
  intros [Hi Hl Hh [its Ht]] Hby Ha Hf Hz. pose proof (dir_add_spec v dl its dclus name attr first size Hi (inv_aligned v Hi) Hl Hh Ht Hby Ha Hf Hz) as Hs.
  unfold iwp in Hs. destruct (fat_dir_add dclus name attr first size v) as [[rc|d] w].
  - destruct Hs as [[(dl' & its' & Hst)|(Hr & d & dl' & its' & Hd & Had)] Href].
    + split; [apply Hst|]. split; [done|]. exists dl'. split; [by eapply steady_good|]. left.
      rewrite (good_list w dl' its'), (good_list v dl its) by (done || apply Hst). apply Hst.
    + split; [apply Had|]. split; [done|]. exists dl'. split; [by eapply added_good|]. right. split; [done|]. exists d. split; [done|].
      by eapply added_got.
  - destruct Hs as (Hd & dl' & its' & Had). split; [done|]. split; [apply Had|]. exists dl'. split; [by eapply added_good|by eapply added_got].
Qed.

(** C28: fat_dir_remove takes exactly the entry it is given out of the listing, and writes
    only into the directory's own clusters. If the disk fails on the way, the listing is the
    old one or the one without the entry, never anything else. *)
Theorem dir_remove_deletes v dl dclus d :
  good_dir v dl dclus -> read_only (vol v) = false -> d ∈ dir_list v dl dclus ->
  match fat_dir_remove dclus d v with
  | (inr _, w) => within v w dl /\ good_dir w dl dclus /\
      exists l1 l2, dir_list v dl dclus = l1 ++ d :: l2 /\ dir_list w dl dclus = l1 ++ l2
  | (inl rc, w) => within v w dl /\ rc = VFS_EINVAL /\ ~ reliable D /\
      exists l1 l2, dir_list v dl dclus = l1 ++ d :: l2 /\
        (dir_list w dl dclus = l1 ++ d :: l2 \/ dir_list w dl dclus = l1 ++ l2)
  end.
Proof.
  intros [Hi Hl Hh [its Ht]] Hro Hd. rewrite (good_list v dl its) in * by done.
  pose proof (dir_remove_spec v dl its dclus d Hi Hro Hl Hh Ht Hd) as Hs. unfold iwp in Hs.
  destruct (fat_dir_remove dclus d v) as [[rc|[]] w].
  - destruct Hs as ((Hw & Hli) & -> & Hr). done.
  - destruct Hs as (its' & [Hw Ht' Hli]). split; [done|]. split.
    + split; [apply (wi_next _ _ _ Hw)|by eapply within_chain|done|by exists its'].
    + by rewrite (good_list w dl its').
Qed.

Lemma find_inserted {A} (f : A -> bool) l1 l2 d : f d = true -> find f (l1 ++ l2) = None -> find f (l1 ++ d :: l2) = Some d.
Proof.
  intros Hd Hn. induction l1 as [|x l1 IH]; cbn [app find] in *; [by rewrite Hd|]. destruct (f x); [done|by apply IH].
Qed.

(** C26: A file that was created is found: after fat_dir_add, fat_dir_find of the name,
    written in any mix of cases, yields the entry with the attributes, first cluster and size
    it was created with, when no entry of that name was there before. On a disk that works
    the lookup cannot fail. *)
Theorem created_is_found v dl dclus name name' attr first size :
  good_dir v dl dclus -> Forall byte_ok name -> attr_ok attr -> 0 <= first < 2 ^ 32 -> 0 <= size < 2 ^ 32 ->
  name_eq_ci name name' = true -> find (fun d => name_eq_ci (d_name d) name') (dir_list v dl dclus) = None ->
  match fat_dir_add dclus name attr first size v with
  | (inr d, w) =>
      is_entry d name attr first size /\
      match fat_dir_find dclus name' w with
      | (inr d', _) => d' = d
      | (inl rc, _) => rc = VFS_EINVAL /\ ~ reliable D
      end
  | (inl rc, _) => reliable D -> refused v dl name rc
  end.
Proof.
  intros [Hi Hl Hh [its Ht]] Hby Ha Hf Hz Hci Hnone.
  pose proof (dir_add_spec v dl its dclus name attr first size Hi (inv_aligned v Hi) Hl Hh Ht Hby Ha Hf Hz) as Hs.
  unfold iwp in Hs. destruct (fat_dir_add dclus name attr first size v) as [[rc|d] w]; [apply Hs|].
  destruct Hs as (Hd & dl' & its' & Had). split; [done|]. destruct (added_good v dl its d w dl' its' dclus Hh Had) as [Hiw Hlw Hhw _].
  destruct (added_got v dl its d w dl' its' dclus Ht Had) as [(l1 & l2 & E1 & E2) _].
  assert (Hfind : find (fun d => name_eq_ci (d_name d) name') (dir_list w dl' dclus) = Some d).
  { rewrite E2. apply find_inserted; [destruct Hd as [-> _]; done|by rewrite <- E1]. }
  pose proof (dir_find_spec w dl' dclus name' Hiw Hlw Hhw) as Hfd. unfold iwp in Hfd.
  destruct (fat_dir_find dclus name' w) as [[rc|d'] x].
  - destruct Hfd as (_ & [[_ Hn]|?]); [congruence|done].
  - destruct Hfd as [_ Hn]. congruence.
Qed.

End Claims.

(** *** The root directory of the small volume *)

Lemma demo_volume_inv : inv demo_volume.
Proof.
  split; [split; first [by exists 128|vm_compute; try split; try discriminate; reflexivity]|vm_compute; split; discriminate|reflexivity|].
  intros _. split; [vm_compute; split; [discriminate|reflexivity]|vm_compute; reflexivity].
Qed.

Lemma label_idle e : at_ e 0 <> 0 -> at_ e 0 <> FAT_DELETED -> at_ e DE_ATTR = FAT_ATTR_VOLUME_ID -> idle e.
Proof.
  intros H0 H1 Ha. split; [done|]. intros c. unfold judge. rewrite !(proj2 (Z.eqb_neq _ _)) by done. rewrite Ha. done.
Qed.

Lemma demo_chain : chain demo_volume [2].
Proof. cbn [chain]. split; [vm_compute; split; [discriminate|reflexivity]|]. split; [done|]. vm_compute. discriminate. Qed.

(** It holds the volume label. *)
Lemma demo_good : good_dir demo_volume [2] 2.
Proof.
  split; [apply demo_volume_inv|apply demo_chain|done|].
  assert (Ht : exists g zs, slots demo_volume [2] = g :: zs /\ at_ g 0 = 70 /\ at_ g DE_ATTR = 8 /\ forallb (fun e => at_ e 0 =? 0) zs = true).
  { eexists _, _. split; [vm_compute; reflexivity|]. split; [reflexivity|]. split; [reflexivity|]. vm_compute. reflexivity. }
  destruct Ht as (g & zs & Es & Eg & Ea & Hz). exists [Gone g]. rewrite Es. split.
  - apply Forall_cons_2; [|apply Forall_nil_2]. by apply label_idle; [rewrite Eg|rewrite Eg|].
  - exists zs. split; [done|]. apply List.Forall_forall. intros e He. rewrite forallb_forall in Hz. by apply Z.eqb_eq, Hz.
Qed.

Definition demo_name := lit "hello world.txt".
Definition demo_named : vst ramdisk := Eval vm_compute in snd (fat_dir_add 2 demo_name 32 0 0 demo_volume).
Definition demo_entry : fat_dirent := Eval vm_compute in
  match fst (fat_dir_add 2 demo_name 32 0 0 demo_volume) with inr d => d | inl _ => Dirent [] 0 0 0 0 0 [] end.

Lemma demo_bytes : Forall byte_ok demo_name.
Proof. repeat apply Forall_cons_2; try apply Forall_nil_2; vm_compute; split; discriminate || reflexivity. Qed.
Lemma demo_attr : attr_ok 32.
Proof. split; [split; vm_compute; discriminate || reflexivity|reflexivity]. Qed.

(** The volume once a file was added to the root directory. *)
Lemma demo_named_good : exists dl, good_dir demo_named dl 2 /\ demo_entry ∈ dir_list demo_named dl 2.
Proof.
  destruct demo_good as [Hi Hl Hh [its Ht]].
  pose proof (dir_add_spec demo_volume [2] its 2 demo_name 32 0 0 Hi (inv_aligned _ Hi) Hl Hh Ht demo_bytes demo_attr ltac:(lia) ltac:(lia)) as Hs.
  assert (E : fat_dir_add 2 demo_name 32 0 0 demo_volume = (inr demo_entry, demo_named)) by (vm_compute; reflexivity).
  unfold iwp in Hs. revert Hs E. generalize (fat_dir_add 2 demo_name 32 0 0 demo_volume). intros p Hs ->.
  destruct Hs as (_ & dl' & its' & Had). exists dl'. split; [by eapply added_good|].
  rewrite (good_list _ _ its') by apply Had. destruct (ad_list _ _ _ _ _ _ _ Had) as (l1 & l2 & _ & ->). apply elem_of_app. right. left.
Qed.

Lemma dir_find_is_search_witness :
  exists w, fat_dir_find 2 demo_name demo_volume = (inl VFS_ENOENT, w) /\
            find (fun d => name_eq_ci (d_name d) demo_name) (dir_list demo_volume [2] 2) = None.
Proof.
  pose proof (dir_find_is_search demo_volume [2] 2 demo_name demo_volume_inv demo_chain eq_refl) as Hs.
  assert (E : fst (fat_dir_find 2 demo_name demo_volume) = inl VFS_ENOENT) by (vm_compute; reflexivity).
  revert Hs E. generalize (fat_dir_find 2 demo_name demo_volume). intros [r w] Hs E. cbn [fst] in E. subst r. exists w. split; [reflexivity|].
  destruct Hs as [_ [[_ Hn]|[Hn _]]]; [exact Hn|discriminate].
Defined.

Lemma dir_add_inserts_witness :
  exists d w dl', fat_dir_add 2 demo_name 32 0 0 demo_volume = (inr d, w) /\ d_name d = demo_name /\
                  has_got demo_volume [2] 2 d w dl'.
Proof.
  pose proof (dir_add_inserts demo_volume [2] 2 demo_name 32 0 0 demo_good demo_bytes demo_attr ltac:(lia) ltac:(lia)) as Hs.
  assert (E : fst (fat_dir_add 2 demo_name 32 0 0 demo_volume) = inr demo_entry) by (vm_compute; reflexivity).
  revert Hs E. generalize (fat_dir_add 2 demo_name 32 0 0 demo_volume). intros [r w] Hs E. cbn [fst] in E. subst r.
  destruct Hs as ((Hn & _) & _ & dl' & _ & Hg). exists demo_entry, w, dl'. split; [reflexivity|]. split; [exact Hn|exact Hg].
Defined.

Lemma dir_remove_deletes_witness :
  exists w dl l1 l2, fat_dir_remove 2 demo_entry demo_named = (inr tt, w) /\
    dir_list demo_named dl 2 = l1 ++ demo_entry :: l2 /\ dir_list w dl 2 = l1 ++ l2.
Proof.
  destruct demo_named_good as (dl & Hg & Hin).
  pose proof (dir_remove_deletes demo_named dl 2 demo_entry Hg eq_refl Hin) as Hs.
  assert (E : fst (fat_dir_remove 2 demo_entry demo_named) = inr tt) by (vm_compute; reflexivity).
  revert Hs E. generalize (fat_dir_remove 2 demo_entry demo_named). intros [r w] Hs E. cbn [fst] in E. subst r.
  destruct Hs as (_ & _ & l1 & l2 & E1 & E2). exists w, dl, l1, l2. split; [reflexivity|]. split; [exact E1|exact E2].
Defined.

Lemma created_is_found_witness :
  exists d w, fat_dir_add 2 demo_name 32 0 0 demo_volume = (inr d, w) /\
    match fat_dir_find 2 (lit "Hello World.TXT") w with
    | (inr d', _) => d' = d | (inl rc, _) => rc = VFS_EINVAL /\ ~ reliable ramdisk end.
Proof.
  assert (Hn : find (fun d => name_eq_ci (d_name d) (lit "Hello World.TXT")) (dir_list demo_volume [2] 2) = None) by (vm_compute; reflexivity).
  pose proof (created_is_found demo_volume [2] 2 demo_name (lit "Hello World.TXT") 32 0 0 demo_good demo_bytes demo_attr
    ltac:(lia) ltac:(lia) eq_refl Hn) as Hs.
  assert (E : fst (fat_dir_add 2 demo_name 32 0 0 demo_volume) = inr demo_entry) by (vm_compute; reflexivity).
  revert Hs E. generalize (fat_dir_add 2 demo_name 32 0 0 demo_volume). intros [r w] Hs E. cbn [fst] in E. subst r.
  exists demo_entry, w. split; [reflexivity|]. destruct Hs as [_ Hs]. exact Hs.
Defined.

(** *** A removal cut short *)

(** The volume on a disk whose next transfers fail where [fl] says so. *)
Definition with_faults (fl : list bool) (v : vst ramdisk) : vst ramdisk :=
  Vst (vol v) (BlockDevice (bd_sectors (dev v)) (bd_read_only (dev v)) (RamDisk (secs (bd_drv (dev v))) fl) 0 0 0 0) (clk v).

(** The long-name records a removal leaves behind when the disk stops between its writes
    are not inert: a file created later under the short name of the removed one is stored
    behind them, its checksum matches, and the directory lists it under the name of the
    removed file; its own name is not found. *)
Theorem orphaned_records_rename_a_file :
  exists d v1 rc v2 d3 v3 d4,
    fat_dir_add 2 (lit "longname.txt") 32 0 0 demo_volume = (inr d, v1) /\
    fat_dir_remove 2 d (with_faults [false; true] v1) = (inl rc, v2) /\
    fat_dir_add 2 (lit "LONGNA~1.TXT") 32 0 0 (with_faults [] v2) = (inr d3, v3) /\
    fst (fat_dir_find 2 (lit "LONGNA~1.TXT") v3) = inl VFS_ENOENT /\
    fst (fat_dir_find 2 (lit "longname.txt") v3) = inr d4 /\ d_index d4 = d_index d3.
Proof.
  eexists _, _, _, _, _, _, _. split; [vm_compute; reflexivity|]. split; [vm_compute; reflexivity|].
  split; [vm_compute; reflexivity|]. split; [vm_compute; reflexivity|]. split; vm_compute; reflexivity.
Qed.
