(* ===== verification/FatVnode.v ===== *)
(** fs/fat/fat.c: the vnode layer. The in-core inodes of a volume, the operations on
    directories, and mounting. *)

From stdpp Require Import gmap.
From S2P Require Import Prelude Bytes FileSpec Paths Vfs Rtc Block FatVol FatMount FatFile FatName FatDir.

Definition FAT_ICACHE_SOFT_MAX := 256.
Definition FAT_ATTR_READ_ONLY := 0x01.

(** A vnode with its inode, and the references to it. *)
Record vnode := Vnode { vn_ino : inode; vn_refs : Z }.

(** The volume, the vnodes in memory by address, the cache list of the volume and its
    count, and whether a disk is selected for the next mount. A new vnode gets an address
    not used before. *)
Record fatfs (D : Type) := FatFs {
  f_vst : vst D; f_mem : gmap nat vnode; f_cache : list nat; f_cache_n : Z; f_next : nat; f_pending : bool }.
Arguments FatFs {D}. Arguments f_vst {D}. Arguments f_mem {D}. Arguments f_cache {D}. Arguments f_cache_n {D}.
Arguments f_next {D}. Arguments f_pending {D}.

Definition no_inode := Inode 0 0 0 0 0 0 0 VNODE_FILE 0 0 0.
Definition no_vnode := Vnode no_inode 0.

Definition set_mtime (ms : Z) (n : inode) : inode :=
  Inode (first_clus n) (dir_clus n) (dir_index n) (dir_first_index n) (attr n) (cur_index n) (cur_clus n)
    (n_type n) (n_size n) ms (n_mode n).

(** DOS date and time to unix milliseconds. *)
Definition dos_to_ms (date time : Z) : Z :=
  let t := RT (1980 + Z.land (Z.shiftr date 9) 0x7F) (Z.land (Z.shiftr date 5) 0x0F) (Z.land date 0x1F)
              (Z.land (Z.shiftr time 11) 0x1F) (Z.land (Z.shiftr time 5) 0x3F) (Z.land time 0x1F * 2) in
  if (month t <? 1) || (12 <? month t) || (day t <? 1) || (31 <? day t) then 0
  else
    let s := rtc_to_unix t in
    if s <? 0 then 0 else s * 1000.

(** The inode for an entry that has none yet. *)
Definition fresh_inode (dclus : Z) (de : fat_dirent) : inode :=
  let type := if negb (Z.land (d_attr de) FAT_ATTR_DIRECTORY =? 0) then VNODE_DIR else VNODE_FILE in
  let mode := VFS_PERM_R + VFS_PERM_W + (if bool_decide (type = VNODE_DIR) then VFS_PERM_X else 0) in
  Inode (d_clus de) dclus (d_index de) (d_first_index de) (d_attr de) 0 0 type
    (if bool_decide (type = VNODE_DIR) then 0 else d_size de)
    (dos_to_ms (fat_rd16 (d_raw de) 24) (fat_rd16 (d_raw de) 22))
    (if negb (Z.land (d_attr de) FAT_ATTR_READ_ONLY =? 0) then Z.ldiff mode VFS_PERM_W else mode).

Section Vnode.
Context {D : Type} `{BlockOps D}.
Implicit Types (s : fatfs D).

Definition vnode_at s (n : nat) : vnode := default no_vnode (f_mem s !! n).
Definition ino_at s (n : nat) : inode := vn_ino (vnode_at s n).

Definition set_vst (v : vst D) s : fatfs D := FatFs v (f_mem s) (f_cache s) (f_cache_n s) (f_next s) (f_pending s).
Definition set_mem (m : gmap nat vnode) s : fatfs D := FatFs (f_vst s) m (f_cache s) (f_cache_n s) (f_next s) (f_pending s).
Definition set_icache (l : list nat) (n : Z) s : fatfs D := FatFs (f_vst s) (f_mem s) l n (f_next s) (f_pending s).
Definition upd_vnode (n : nat) (f : vnode -> vnode) s : fatfs D := set_mem (alter f n (f_mem s)) s.
Definition put_ino (n : nat) (i : inode) : fatfs D -> fatfs D := upd_vnode n (fun x => Vnode i (vn_refs x)).

(** Run an operation of the volume, or of the file of vnode [n]. *)
Definition on_vol {A} (m : io (vst D) A) : io (fatfs D) A := fun s =>
  let '(r, v) := m (f_vst s) in (r, set_vst v s).
Definition on_file {A} (n : nat) (m : io (fst_ D) A) : io (fatfs D) A := fun s =>
  let '(r, f) := m (Fst (f_vst s) (ino_at s n)) in (r, put_ino n (ino f) (set_vst (fv f) s)).

(** *** The inode cache *)

Definition has_key (dclus index : Z) (i : inode) : bool := (dir_clus i =? dclus) && (dir_index i =? index).

Definition icache_find (dclus index : Z) s : option nat :=
  find (fun n => has_key dclus index (ino_at s n)) (f_cache s).

(** The list without its first [victim], and whether there was one. *)
Fixpoint unchain (victim : nat) (l : list nat) : list nat * bool :=
  match l with
  | [] => ([], false)
  | n :: r => if Nat.eqb n victim then (r, true) else let '(r, b) := unchain victim r in (n :: r, b)
  end.

Definition icache_unlink (victim : nat) s : fatfs D :=
  let '(l, b) := unchain victim (f_cache s) in
  set_icache l (if b then f_cache_n s - 1 else f_cache_n s) s.

Definition inode_free (n : nat) s : fatfs D := set_mem (delete n (f_mem s)) s.

(** [while ( *pp && v->icache_n > FAT_ICACHE_SOFT_MAX)] *)
Fixpoint trim_list (l : list nat) (n : Z) (m : gmap nat vnode) : list nat * Z * gmap nat vnode :=
  match l with
  | [] => ([], n, m)
  | x :: r =>
      if n <=? FAT_ICACHE_SOFT_MAX then (l, n, m)
      else
        let v := default no_vnode (m !! x) in
        if negb (bool_decide (n_type (vn_ino v) = VNODE_DIR)) && (vn_refs v =? 1)
        then trim_list r (n - 1) (delete x m)
        else let '(r, n, m) := trim_list r n m in (x :: r, n, m)
  end.

Definition icache_trim s : fatfs D :=
  let '(l, n, m) := trim_list (f_cache s) (f_cache_n s) (f_mem s) in set_icache l n (set_mem m s).

(** kmalloc panics rather than return NULL. *)
Definition alloc_vnode (i : inode) s : nat * fatfs D :=
  let n := f_next s in
  (n, FatFs (f_vst s) (<[n := Vnode i 1]> (f_mem s)) (f_cache s) (f_cache_n s) (S n) (f_pending s)).

Definition inode_get (dclus : Z) (de : fat_dirent) : io (fatfs D) nat := fun s =>
  match icache_find dclus (d_index de) s with
  | Some n => (inr n, s)
  | None =>
      let s := icache_trim s in
      let '(n, s) := alloc_vnode (fresh_inode dclus de) s in
      (inr n, set_icache (n :: f_cache s) (f_cache_n s + 1) s)
  end.

(** *** Operations on directories *)

Definition is_dot (name : bytes) : bool := bool_decide (name = lit ".") || bool_decide (name = lit "..").

Definition fat_op_lookup (dir : nat) (name : bytes) : io (fatfs D) nat :=
  di <- iget (fun s => ino_at s dir) ;;
  if negb (bool_decide (n_type di = VNODE_DIR)) then ifail VFS_ENOTDIR
  else if is_dot name then ifail VFS_ENOENT
  else
    de <- on_vol (fat_dir_find (first_clus di) name) ;;
    inode_get (first_clus di) de.

(** A failure undone by freeing the cluster; the error of that is dropped. *)
Definition or_free {A} (clus : Z) (m : io (vst D) A) : io (vst D) A := fun v =>
  match m v with
  | (inl rc, v) => if clus =? 0 then (inl rc, v) else (inl rc, snd (fat_free_chain clus v))
  | r => r
  end.

(** A cluster for the new directory, with its two entries, flushed; 0 for a file. *)
Definition new_dir_cluster (type : vnode_type) (parent : Z) : io (vst D) Z :=
  match type with
  | VNODE_FILE => iret 0
  | VNODE_DIR =>
      clus <- fat_alloc_cluster ;;
      or_free clus (fat_dir_init_cluster clus parent ;;; fat_barrier) ;;;
      iret clus
  end.

(** fat_dir_find turned into "may this name be created": VFS_EEXIST when it is there. *)
Definition must_be_new (dclus : Z) (name : bytes) : io (vst D) unit := fun v =>
  match fat_dir_find dclus name v with
  | (inr _, v) => (inl VFS_EEXIST, v)
  | (inl rc, v) => if rc =? VFS_ENOENT then (inr tt, v) else (inl rc, v)
  end.

Definition fat_op_create (dir : nat) (name : bytes) (type : vnode_type) : io (fatfs D) nat :=
  di <- iget (fun s => ino_at s dir) ;;
  v <- iget (fun s => vol (f_vst s)) ;;
  if negb (bool_decide (n_type di = VNODE_DIR)) then ifail VFS_ENOTDIR
  else if read_only v then ifail VFS_EINVAL
  else if negb (fat_name_ok name) then ifail VFS_EINVAL
  else
    on_vol (must_be_new (first_clus di) name) ;;;
    clus <- on_vol (new_dir_cluster type (first_clus di)) ;;
    let attr := if bool_decide (type = VNODE_DIR) then FAT_ATTR_DIRECTORY else FAT_ATTR_ARCHIVE in
    de <- on_vol (or_free clus (fat_dir_add (first_clus di) name attr clus 0)) ;;
    on_vol fat_barrier ;;;
    iset (fun s => put_ino dir (set_mtime (now_ms (clk (f_vst s))) (ino_at s dir)) s) ;;;
    inode_get (first_clus di) de.

Definition fat_op_reclaim (n : nat) s : fatfs D := inode_free n (icache_unlink n s).

(** kobject_put and what follows it; [None] when it panics. *)
Definition drop_vnode (n : nat) : io (fatfs D) (option unit) :=
  r <- iget (fun s => vn_refs (vnode_at s n)) ;;
  if r <=? 0 then iret None
  else
    iset (upd_vnode n (fun x => Vnode (vn_ino x) (r - 1))) ;;;
    (if r - 1 =? 0 then iset (inode_free n) else iret tt) ;;;
    iret (Some tt).

Definition fat_op_unlink (dir : nat) (name : bytes) : io (fatfs D) (option unit) :=
  di <- iget (fun s => ino_at s dir) ;;
  v <- iget (fun s => vol (f_vst s)) ;;
  if negb (bool_decide (n_type di = VNODE_DIR)) then ifail VFS_ENOTDIR
  else if read_only v then ifail VFS_EINVAL
  else if is_dot name then ifail VFS_EINVAL
  else
    de <- on_vol (fat_dir_find (first_clus di) name) ;;
    (if negb (Z.land (d_attr de) FAT_ATTR_DIRECTORY =? 0) then
       empty <- on_vol (fat_dir_is_empty (d_clus de)) ;;
       if empty : bool then iret tt else ifail VFS_EINVAL
     else iret tt) ;;;
    cached <- iget (icache_find (first_clus di) (d_index de)) ;;
    refs <- iget (fun s => match cached with Some n => vn_refs (vnode_at s n) | None => 0 end) ;;
    if 1 <? refs then ifail VFS_EINVAL
    else
      on_vol (fat_dir_remove (first_clus di) de) ;;;
      on_vol (fat_free_chain (d_clus de)) ;;;
      on_vol fat_barrier ;;;
      iset (fun s => put_ino dir (set_mtime (now_ms (clk (f_vst s))) (ino_at s dir)) s) ;;;
      match cached with
      | None => iret (Some tt)
      | Some n => iset (icache_unlink n) ;;; drop_vnode n
      end.

(** [for (;;)]: the [index]-th name but for the dots. *)
Fixpoint readdir_loop (fuel : nat) (index : Z) (c : fat_dircur) : io (vst D) bytes :=
  match fuel with
  | O => ifail VFS_EINVAL
  | S k =>
      r <- fat_dir_next c ;;
      match r with
      | None => ifail VFS_ENOENT
      | Some (d, c) =>
          if dot_name d then readdir_loop k index c
          else if index =? 0 then iret (d_name d)
          else readdir_loop k (index - 1) c
      end
  end.

Definition fat_op_readdir (dir : nat) (index cap : Z) : io (fatfs D) bytes :=
  di <- iget (fun s => ino_at s dir) ;;
  if negb (bool_decide (n_type di = VNODE_DIR)) then ifail VFS_ENOTDIR
  else if cap =? 0 then ifail VFS_EINVAL
  else
    name <- on_vol (readdir_loop (Z.to_nat (FAT_MAX_DIR_ENTRIES + 1)) index (fat_dircur_init (first_clus di))) ;;
    let text := take (Z.to_nat (cap - 1)) name in
    iret (text ++ zeros (cap - zlen text)).

(** *** Mounting *)

Definition root_inode (v : fat_vol) (ms : Z) : inode :=
  Inode (root_clus v) 0 FAT_NO_ENTRY FAT_NO_ENTRY FAT_ATTR_DIRECTORY 0 0 VNODE_DIR 0 ms
    (VFS_PERM_R + VFS_PERM_W + VFS_PERM_X).

Definition fat32_do_mount : io (fatfs D) nat :=
  p <- iget f_pending ;;
  if negb p then ifail VFS_EINVAL
  else
    on_vol fat_volume_open ;;;
    fun s =>
      let '(n, s) := alloc_vnode (root_inode (vol (f_vst s)) (now_ms (clk (f_vst s)))) s in
      (inr n, set_icache [n] 1 s).

(** *** The operation table *)

Definition status {A} (r : Z + A) : Z := match r with inl rc => rc | inr _ => VFS_OK end.
Definition named {A} (m : io (fatfs D) A) s : Z * option A * fatfs D :=
  let '(r, s) := m s in (status r, match r with inr n => Some n | inl _ => None end, s).
Definition counted (m : io (fatfs D) Z) s : Z * fatfs D :=
  let '(r, s) := m s in (match r with inl rc => rc | inr n => n end, s).
Definition done_ (m : io (fatfs D) unit) s : Z * fatfs D := let '(r, s) := m s in (status r, s).

#[export] Instance fat_ops : Fs (fatfs D) := {|
  v_type s n := n_type (ino_at s n);
  v_size s n := n_size (ino_at s n);
  v_mode s n := n_mode (ino_at s n);
  v_mtime s n := n_mtime (ino_at s n);
  v_refs s n := vn_refs (vnode_at s n);
  set_refs n r := upd_vnode n (fun x => Vnode (vn_ino x) r);
  lookup_op s n := Some (fun name => named (fat_op_lookup n name));
  create_op s n := Some (fun name type => named (fat_op_create n name type));
  unlink_op s n := Some (fun name s =>
    let '(r, s) := fat_op_unlink n name s in
    match r with inr None => None | _ => Some (status r, s) end);
  read_op s n := Some (fun off len s =>
    let '(r, s) := on_file n (fat_op_read off len) s in
    match r with inl rc => (rc, [], s) | inr b => (zlen b, b, s) end);
  write_op s n := Some (fun buf off => counted (on_file n (fat_op_write buf off)));
  readdir_op s n := Some (fun index cap s =>
    let '(r, s) := fat_op_readdir n index cap s in
    match r with inl rc => (rc, [], s) | inr b => (VFS_OK, b, s) end);
  truncate_op s n := Some (fun size => done_ (on_file n (fat_op_truncate size)));
  reclaim_op s n := Some (fat_op_reclaim n) |}.

Definition mount_hook s : Z * nat * fatfs D :=
  let '(r, s) := fat32_do_mount s in (status r, match r with inr n => n | inl _ => O end, s).

Local Open Scope prog_scope.

Definition fat32_register : prog (vfs (fatfs D)) Z := vfs_register_fstype (lit "fat32") mount_hook.

Definition set_pending (b : bool) s : fatfs D :=
  FatFs (f_vst s) (f_mem s) (f_cache s) (f_cache_n s) (f_next s) b.
(** Work on the disk itself. *)
Definition on_disk_ {A} (m : block_device D -> A * block_device D) : prog (vfs (fatfs D)) A := call (fun s =>
  let '(a, d) := m (dev (f_vst s)) in (a, set_vst (Vst (vol (f_vst s)) d (clk (f_vst s))) s)).

(** vfs_mount with the disk selected. *)
Definition mount_selected (mp : bytes) : prog (vfs (fatfs D)) Z :=
  on_fs (set_pending true) ;;;
  rc <- vfs_mount mp (lit "fat32") ;;
  on_fs (set_pending false) ;;;
  ret rc.

(** [mem]: the memory fat32_format asks for is there. *)
Definition fat32_mount_disk (mem : bool) (mp : bytes) (allow_format : bool) : prog (vfs (fatfs D)) Z :=
  rc <- mount_selected mp ;;
  if rc =? VFS_OK then ret VFS_OK
  else if negb allow_format then ret rc
  else
    blank <- on_disk_ (fat_device_is_blank 8) ;;
    if negb blank then ret rc
    else
      c <- gets (fun v => clk (f_vst (fs v))) ;;
      r <- on_disk_ (fat32_format mem c (Some (lit "FABLEOS"))) ;;
      match r with
      | inl rc => ret rc
      | inr _ => mount_selected mp
      end.

End Vnode.
