(* ===== verification/FatCache.v ===== *)
(** fs/fat/fat.c: the inode cache. Which vnodes are in memory, who refers to them, and
    that every operation keeps the account, on any disk whatever it holds or does. *)

From stdpp Require Import gmap.
From S2P Require Import Prelude Bytes FileSpec Paths Vfs Rtc Block FatVol FatMount FatFile FatName FatDir FatVnode.
From S2P Require Import FatDisk FatChain FatRw FatEntry FatSpec FatScan.

(** *** The index of an entry that was found *)

Section Found.
Context {D : Type} `{BlockOps D}.

Lemma slot_index c (v : vst D) :
  iwp (dir_slot c) v (fun r _ => forall e c', r = Some (e, c') -> c_index c' = c_index c + 1) (fun _ _ => True).
Proof.
  unfold dir_slot. apply iwp_bind, iwp_get. cbn zeta. destruct (if c_clus c =? 0 then _ else _) as [clus pos].
  eapply (iwp_seq _ _ _ (fun _ _ => True) (fun _ _ => True)); [unfold iwp; by destruct (locate_walk _ _ v) as [[?|?] ?]| |done].
  intros [cl|] w _; [|by apply iwp_ret]. destruct (negb _); [by apply iwp_fail|].
  eapply (iwp_seq _ _ _ (fun _ _ => True) (fun _ _ => True)); [unfold iwp; by destruct (fat_sector_read _ w) as [[?|?] ?]| |done].
  intros p u _. apply iwp_ret. by intros e c' [= _ <-].
Qed.

Lemma scan_index fuel : forall c (v : vst D),
  iwp (dir_scan fuel c) v (fun r _ => forall d c', r = Some (d, c') -> d_index d < FAT_MAX_DIR_ENTRIES) (fun _ _ => True).
Proof.
  induction fuel as [|k IH]; intros c v; cbn [dir_scan]; [by apply iwp_fail|].
  destruct (Z.leb_spec FAT_MAX_DIR_ENTRIES (c_index c)); [by apply iwp_ret|].
  eapply iwp_seq; [apply slot_index| |done]. cbv beta. intros [[e c1]|] w Hc; [|by apply iwp_ret].
  specialize (Hc e c1 eq_refl). destruct (judge e c1) as [|c2|d c2] eqn:Ej; [by apply iwp_ret|apply IH|].
  apply iwp_ret. intros d' c' [= <- <-]. rewrite (judge_slot _ _ _ _ Ej). lia.
Qed.

Lemma loop_index fuel ok : forall c (v : vst D),
  iwp (find_loop fuel ok c) v (fun r _ => forall d, r = Some d -> d_index d < FAT_MAX_DIR_ENTRIES) (fun _ _ => True).
Proof.
  induction fuel as [|k IH]; intros c v; cbn [find_loop]; [by apply iwp_fail|].
  eapply iwp_seq; [apply scan_index| |done]. cbv beta. intros [[d c1]|] w Hc; [|by apply iwp_ret].
  destruct (ok d); [|apply IH]. apply iwp_ret. intros d' [= <-]. by apply (Hc d c1).
Qed.

Lemma found_index dclus name (v : vst D) :
  iwp (fat_dir_find dclus name) v (fun d _ => d_index d < FAT_NO_ENTRY) (fun _ _ => True).
Proof.
  unfold fat_dir_find. eapply iwp_seq; [apply loop_index| |done]. cbv beta. intros [d|] w Hd; [|by apply iwp_fail].
  apply iwp_ret. specialize (Hd d eq_refl). unfold FAT_MAX_DIR_ENTRIES, FAT_NO_ENTRY in *. lia.
Qed.

End Found.

(** *** What an operation on a file leaves of its inode *)

(** Where the entry of an inode is, and what it is. *)
Definition key (i : inode) : Z * Z := (dir_clus i, dir_index i).
Definition ident (i : inode) : Z * Z * vnode_type := (key i, n_type i).

Section Ident.
Context {D : Type} `{BlockOps D}.

Definition keeps_ident {A} (m : io (fst_ D) A) : Prop := forall s, ident (ino (snd (m s))) = ident (ino s).

Lemma ident_ret {A} (a : A) : keeps_ident (iret a).
Proof. done. Qed.
Lemma ident_fail {A} rc : keeps_ident (ifail (A := A) rc).
Proof. done. Qed.
Lemma ident_get {A} (f : fst_ D -> A) : keeps_ident (iget f).
Proof. done. Qed.
Lemma ident_lift {A} (m : io (vst D) A) : keeps_ident (lift m).
Proof. intros s. unfold lift. by destruct (m (fv s)). Qed.
Lemma ident_bind {A B} (m : io (fst_ D) A) (k : A -> io (fst_ D) B) :
  keeps_ident m -> (forall a, keeps_ident (k a)) -> keeps_ident (ibind m k).
Proof.
  intros Hm Hk s. unfold ibind. specialize (Hm s). destruct (m s) as [[rc|a] s']; [done|]. cbn [snd] in Hm. by rewrite Hk.
Qed.
Lemma ident_upd f : (forall i, ident (f i) = ident i) -> keeps_ident (iset (upd_ino f)).
Proof. intros Hf s. apply Hf. Qed.
Lemma ident_publish size : keeps_ident (publish size).
Proof. done. Qed.
Lemma ident_if {A} (b : bool) (m k : io (fst_ D) A) : keeps_ident m -> keeps_ident k -> keeps_ident (if b then m else k).
Proof. by destruct b. Qed.

Create HintDb ident.
#[local] Hint Resolve ident_ret ident_fail ident_get ident_lift ident_publish : ident.

Ltac ident := repeat first
  [ solve [auto with ident] | apply ident_bind; [|intros ?] | apply ident_if
  | apply ident_upd; intros []; reflexivity | progress cbn zeta ].

Lemma ident_chain_at pos : keeps_ident (chain_at pos).
Proof.
  unfold chain_at. ident. destruct (if negb (cur_clus a =? 0) && _ then _ else _) as [c i]. ident.
Qed.
#[local] Hint Resolve ident_chain_at : ident.

Lemma ident_ensure n : keeps_ident (ensure_clusters n).
Proof. unfold ensure_clusters. ident. Qed.

Lemma ident_rw fuel w : forall off p, keeps_ident (rw_loop fuel w off p).
Proof.
  induction fuel as [|k IH]; intros off p; cbn [rw_loop]; ident; unfold rw_step; ident.
Qed.

Lemma ident_rw_bytes w off p : keeps_ident (rw_bytes w off p).
Proof. apply ident_rw. Qed.
#[local] Hint Resolve ident_ensure ident_rw_bytes : ident.

Lemma ident_zero fuel : forall from to, keeps_ident (zero_loop fuel from to).
Proof. induction fuel as [|k IH]; intros from to; cbn [zero_loop]; ident. Qed.
Lemma ident_zero_range from to : keeps_ident (zero_range from to).
Proof. apply ident_zero. Qed.
Lemma ident_commit size : keeps_ident (commit size).
Proof. unfold commit. ident. Qed.
#[local] Hint Resolve ident_zero_range ident_commit : ident.

Lemma ident_trim keep first : keeps_ident (trim keep first).
Proof.
  unfold trim. ident. intros s. pose proof (ident_chain_at (keep - 1) s) as Hc.
  destruct (chain_at (keep - 1) s) as [[rc|last] t]; cbn [snd] in Hc; [by destruct (rc =? VFS_ENOENT)|].
  rewrite <- Hc. match goal with |- ident (ino (snd (?m t))) = _ => assert (Hm : keeps_ident m) by ident end. apply Hm.
Qed.
#[local] Hint Resolve ident_trim : ident.

Lemma ident_read off len : keeps_ident (fat_op_read off len).
Proof. unfold fat_op_read. ident. Qed.
Lemma ident_write buf off : keeps_ident (fat_op_write buf off).
Proof. unfold fat_op_write. ident. Qed.
Lemma ident_truncate size : keeps_ident (fat_op_truncate size).
Proof.
  unfold fat_op_truncate. ident. intros s. pose proof (ident_commit size s) as Hc.
  by destruct (commit size s) as [[rc|[]] t].
Qed.

End Ident.

(** *** The account *)

Section Cache.
Context {D : Type} `{BlockOps D}.
Implicit Types (s t : fatfs D) (h : nat -> Z).

(** With [h n] handles open on vnode [n]: the vnodes in memory are those in the cache
    list, each once and at most one for an entry; the cache holds one reference to each
    and the handles hold the others. *)
Record fsound h s : Prop := {
  so_nodup : NoDup (f_cache s);
  so_count : f_cache_n s = Z.of_nat (length (f_cache s));
  so_cached : forall n, n ∈ f_cache s <-> is_Some (f_mem s !! n);
  so_fresh : forall n, is_Some (f_mem s !! n) -> (n < f_next s)%nat;
  so_keys : forall a b x y, f_mem s !! a = Some x -> f_mem s !! b = Some y -> key (vn_ino x) = key (vn_ino y) -> a = b;
  so_refs : forall n x, f_mem s !! n = Some x -> vn_refs x = 1 + h n;
  so_held : forall n, 0 < h n -> is_Some (f_mem s !! n);
  so_pos : forall n, 0 <= h n }.

(** The root directory: no entry leads to it. *)
Definition rooted s (n : nat) : Prop :=
  exists x, f_mem s !! n = Some x /\ n_type (vn_ino x) = VNODE_DIR /\ dir_index (vn_ino x) = FAT_NO_ENTRY.

(** What an operation may do. *)
Record safe h s t : Prop := {
  sf_sound : fsound h t;
  sf_rooted : forall n, rooted s n -> rooted t n;
  sf_pending : f_pending t = f_pending s }.

Lemma safe_refl h s : fsound h s -> safe h s s.
Proof. by split. Qed.
Lemma safe_trans h h' s t u : safe h s t -> safe h' t u -> safe h' s u.
Proof. intros [_ R1 P1] [S2' R2 P2]. split; [done|auto|congruence]. Qed.

(** *** Changes in place *)

(** The same vnodes, for the same entries, with the same references. *)
Definition alike s t : Prop :=
  f_cache t = f_cache s /\ f_cache_n t = f_cache_n s /\ f_next t = f_next s /\ f_pending t = f_pending s /\
  forall n, (fun x => (ident (vn_ino x), vn_refs x)) <$> f_mem t !! n = (fun x => (ident (vn_ino x), vn_refs x)) <$> f_mem s !! n.

Lemma alike_some s t n y : alike s t -> f_mem t !! n = Some y ->
  exists x, f_mem s !! n = Some x /\ ident (vn_ino x) = ident (vn_ino y) /\ vn_refs x = vn_refs y.
Proof.
  intros (_ & _ & _ & _ & Hm) E. specialize (Hm n). rewrite E in Hm. destruct (f_mem s !! n) as [x|]; [|done].
  cbn in Hm. injection Hm as ? ? ? ?. exists x. unfold ident, key. split; [done|]. split; congruence.
Qed.
Lemma alike_refl s : alike s s.
Proof. done. Qed.
Lemma alike_trans s t u : alike s t -> alike t u -> alike s u.
Proof.
  intros (C1 & N1 & X1 & P1 & M1) (C2 & N2 & X2 & P2 & M2). do 4 (split; [congruence|]). intros n. by rewrite M2.
Qed.
Lemma alike_sym s t : alike s t -> alike t s.
Proof. intros (C1 & N1 & X1 & P1 & M1). by do 4 (split; [congruence|]). Qed.
Lemma alike_alive s t n : alike s t -> is_Some (f_mem t !! n) <-> is_Some (f_mem s !! n).
Proof.
  intros Ha. split; intros [x E]; [|apply alike_sym in Ha]; destruct (alike_some _ _ _ _ Ha E) as (y & -> & _); eauto.
Qed.

Lemma alike_safe h s t : fsound h s -> alike s t -> safe h s t.
Proof.
  intros [] Ha. pose proof Ha as (C & N & X & P & M). split; [split|..].
  - by rewrite C.
  - by rewrite N, C.
  - intros n. rewrite C, (alike_alive s t n Ha). apply so_cached0.
  - intros n. rewrite X, (alike_alive s t n Ha). apply so_fresh0.
  - intros a b x y Ea Eb Hk. destruct (alike_some _ _ _ _ Ha Ea) as (x' & Ex & Hx & _), (alike_some _ _ _ _ Ha Eb) as (y' & Ey & Hy & _).
    apply (so_keys0 a b x' y' Ex Ey). unfold ident in *. congruence.
  - intros n x E. destruct (alike_some _ _ _ _ Ha E) as (x' & Ex & _ & <-). by apply so_refs0.
  - intros n Hn. apply (alike_alive s t n Ha). auto.
  - done.
  - intros n (x & E & Ht & Hi). destruct (alike_some _ _ _ _ (alike_sym _ _ Ha) E) as (y & Ey & Hy & _).
    exists y. unfold ident, key in Hy. split; [done|]. split; congruence.
  - done.
Qed.

Lemma alike_vol s v : alike s (set_vst v s).
Proof. done. Qed.
Lemma alike_put s n i : ident i = ident (ino_at s n) -> alike s (put_ino n i s).
Proof.
  intros Hi. do 4 (split; [done|]). intros m. unfold put_ino, upd_vnode. cbn [f_mem set_mem].
  destruct (decide (m = n)) as [->|]; [|by rewrite lookup_alter_ne]. rewrite lookup_alter_eq.
  unfold ino_at, vnode_at in Hi. destruct (f_mem s !! n) as [x|]; [|done]. cbn in *. by rewrite Hi.
Qed.
Lemma alike_touch s n ms : alike s (put_ino n (set_mtime ms (ino_at s n)) s).
Proof. by apply alike_put. Qed.
Lemma alike_file {A} n (m : io (fst_ D) A) s : keeps_ident m -> alike s (snd (on_file n m s)).
Proof.
  intros Hm. unfold on_file. specialize (Hm (Fst (f_vst s) (ino_at s n))). destruct (m _) as [r f]. cbn [snd] in *.
  eapply alike_trans; [apply (alike_vol s (fv f))|]. by apply alike_put.
Qed.

(** Opening and closing. *)
Lemma refs_safe h h' s n x r :
  fsound h s -> f_mem s !! n = Some x -> (forall m, m <> n -> h' m = h m) -> r = 1 + h' n -> 0 <= h' n ->
  safe h' s (upd_vnode n (fun y => Vnode (vn_ino y) r) s).
Proof.
  intros [] E Hh Hr Hp. set (t := upd_vnode _ _ s).
  assert (Et : forall m, f_mem t !! m = if decide (m = n) then Some (Vnode (vn_ino x) r) else f_mem s !! m).
  { intros m. unfold t, upd_vnode. cbn [f_mem set_mem]. case_decide as Hm; [subst m|by rewrite lookup_alter_ne].
    by rewrite lookup_alter_eq, E. }
  assert (Ea : forall m, is_Some (f_mem t !! m) <-> is_Some (f_mem s !! m)).
  { intros m. rewrite Et. case_decide as Hm; [subst m; rewrite E|done]. by split; eauto. }
  assert (Ei : forall m y, f_mem t !! m = Some y -> exists y', f_mem s !! m = Some y' /\ vn_ino y' = vn_ino y).
  { intros m y. rewrite Et. case_decide as Hm; [intros [= <-]; subst m; by exists x|by exists y]. }
  split; [split|..]; try done.
  - intros m. rewrite Ea. apply so_cached0.
  - intros m. rewrite Ea. apply so_fresh0.
  - intros a b y z Ey Ez. apply Ei in Ey as (y' & Ey & <-), Ez as (z' & Ez & <-). by apply so_keys0.
  - intros m y. rewrite Et. case_decide as Hm; [by intros [= <-]; subst m|]. rewrite Hh by done. apply so_refs0.
  - intros m Hm. rewrite Ea. destruct (decide (m = n)) as [->|Hne]; [by rewrite E|]. rewrite Hh in Hm by done. auto.
  - intros m. destruct (decide (m = n)) as [->|]; [done|]. by rewrite Hh.
  - intros m (y & Ey & Hy). unfold rooted. rewrite Et. case_decide as Hm; [|by exists y]. subst m. exists (Vnode (vn_ino x) r).
    split; [done|]. by simplify_eq.
Qed.

(** *** Taking vnodes out *)

(** [t] is [s] without some vnodes that no handle is open on. *)
Record dropped h s t (l : list nat) : Prop := {
  dr_cache : forall n, n ∈ f_cache t <-> n ∈ f_cache s /\ n ∉ l;
  dr_nodup : NoDup (f_cache t);
  dr_count : f_cache_n t = Z.of_nat (length (f_cache t));
  dr_mem : forall n, f_mem t !! n = if decide (n ∈ l) then None else f_mem s !! n;
  dr_idle : forall n, n ∈ l -> h n = 0 /\ ~ rooted s n;
  dr_next : f_next t = f_next s;
  dr_pend : f_pending t = f_pending s }.

Lemma dropped_safe h s t l : fsound h s -> dropped h s t l -> safe h s t.
Proof.
  intros [] []. assert (Em : forall n x, f_mem t !! n = Some x -> f_mem s !! n = Some x).
  { intros n x. rewrite dr_mem0. by case_decide. }
  split; [split|..].
  - done.
  - done.
  - intros n. rewrite dr_cache0, dr_mem0. case_decide as Hn; [|rewrite so_cached0; tauto].
    split; [tauto|]. by intros [? ?].
  - intros n [x Ex]. rewrite dr_next0. apply so_fresh0. eauto.
  - intros a b x y Ea Eb. apply so_keys0; auto.
  - intros n x E. by apply so_refs0, Em.
  - intros n Hn. rewrite dr_mem0. case_decide as Hl; [apply dr_idle0 in Hl; lia|auto].
  - done.
  - intros n Hr. pose proof Hr as (x & E & Hx). exists x. split; [|done]. rewrite dr_mem0. case_decide as Hl; [|done].
    by apply dr_idle0 in Hl as [_ Hl].
  - done.
Qed.

(** A vnode that may be evicted. *)
Definition evictable (m : gmap nat vnode) (n : nat) : Prop :=
  exists x, m !! n = Some x /\ n_type (vn_ino x) <> VNODE_DIR /\ vn_refs x = 1.

Lemma trim_list_spec l : forall n m l' n' m',
  trim_list l n m = (l', n', m') -> NoDup l -> (forall x, x ∈ l -> is_Some (m !! x)) ->
  exists gone : list nat, (forall x, x ∈ l' <-> x ∈ l /\ x ∉ gone) /\ NoDup l' /\ n' - Z.of_nat (length l') = n - Z.of_nat (length l) /\
    (forall x, m' !! x = if decide (x ∈ gone) then None else m !! x) /\ forall x, x ∈ gone -> x ∈ l /\ evictable m x.
Proof.
  induction l as [|x r IH]; intros n m l' n' m' E Hnd Hin; cbn [trim_list] in E.
  { injection E as <- <- <-. exists []. split; [by intros y; rewrite elem_of_nil; tauto|].
    split; [done|]. split; [done|]. split; [done|]. intros y Hy. by apply elem_of_nil in Hy. }
  assert (Hstop : (l', n', m') = (x :: r, n, m) -> exists gone : list nat,
    (forall y, y ∈ l' <-> y ∈ x :: r /\ y ∉ gone) /\ NoDup l' /\ n' - Z.of_nat (length l') = n - Z.of_nat (length (x :: r)) /\
    (forall y, m' !! y = if decide (y ∈ gone) then None else m !! y) /\ forall y, y ∈ gone -> y ∈ x :: r /\ evictable m y).
  { intros [= -> -> ->]. exists []. split; [intros y; split; [intros Hy; split; [done|]; by intros Hn; apply elem_of_nil in Hn|tauto]|].
    split; [done|]. split; [done|]. split; [done|]. intros y Hy. by apply elem_of_nil in Hy. }
  destruct (n <=? FAT_ICACHE_SOFT_MAX); [by apply Hstop|]. clear Hstop.
  apply list.NoDup_cons in Hnd as [Hx Hnd]. destruct (Hin x ltac:(by left)) as [v Ev].
  rewrite Ev in E. cbn [default] in E. unfold id in E.
  destruct (negb (bool_decide (n_type (vn_ino v) = VNODE_DIR)) && (vn_refs v =? 1)) eqn:Ee.
  - b2p. case_bool_decide as Hd; [done|]. eapply IH in E as (gone & K1 & K2 & K3 & K4 & K5); [|done|].
    2: { intros y Hy. rewrite lookup_delete_ne by (intros ->; done). apply Hin. by right. }
    exists (x :: gone). split; [|split; [done|split; [cbn [length]; lia|split]]].
    + intros y. rewrite K1, !elem_of_cons. destruct (decide (y = x)) as [->|]; tauto.
    + intros y. rewrite K4. destruct (decide (y ∈ x :: gone)) as [Hy|Hy]; rewrite elem_of_cons in Hy.
      * destruct Hy as [->|Hy]; [case_decide; [done|]; by rewrite lookup_delete_eq|by case_decide].
      * case_decide; [tauto|]. rewrite lookup_delete_ne by (intros ->; tauto). done.
    + intros y Hy. apply elem_of_cons in Hy as [->|Hy]; [split; [by left|by exists v]|].
      apply K5 in Hy as [Hy (w & Ew & Hw)]. split; [by right|]. exists w. split; [|done].
      rewrite lookup_delete_ne in Ew; [done|by intros ->].
  - destruct (trim_list r n m) as [[l1 n1] m1] eqn:Er. injection E as <- <- <-.
    eapply IH in Er as (gone & K1 & K2 & K3 & K4 & K5); [|done|intros y Hy; apply Hin; by right].
    exists gone. split; [|split; [|split; [cbn [length]; lia|split]]].
    + intros y. rewrite !elem_of_cons, K1. split; [|tauto]. intros [->|?]; [|tauto]. split; [by left|]. intros Hg. by apply K5 in Hg as [? _].
    + apply list.NoDup_cons. split; [|done]. rewrite K1. tauto.
    + done.
    + intros y Hy. apply K5 in Hy as [? ?]. split; [by right|done].
Qed.

Lemma trim_safe h s : fsound h s -> safe h s (icache_trim s).
Proof.
  intros Hs. unfold icache_trim. destruct (trim_list (f_cache s) (f_cache_n s) (f_mem s)) as [[l n] m] eqn:E.
  destruct (trim_list_spec _ _ _ _ _ _ E) as (gone & K1 & K2 & K3 & K4 & K5); [apply Hs|intros x; by apply (so_cached _ _ Hs)|].
  apply dropped_safe with gone; [done|]. split; cbn [f_cache f_cache_n f_mem f_next f_pending set_icache set_mem]; try done.
  - rewrite (so_count _ _ Hs) in K3. lia.
  - intros x Hx. apply K5 in Hx as (_ & y & Ey & Hty & Hr). rewrite (so_refs _ _ Hs _ _ Ey) in Hr. split; [lia|].
    intros (z & Ez & Hz & _). by simplify_eq.
Qed.

Lemma unchain_spec v l : NoDup l ->
  let '(l', b) := unchain v l in
  (forall x, x ∈ l' <-> x ∈ l /\ x <> v) /\ NoDup l' /\
  (if b then v ∈ l /\ length l = S (length l') else (v ∉ l) /\ l' = l).
Proof.
  induction l as [|x r IH]; intros Hnd; cbn [unchain].
  { split; [intros y; by rewrite elem_of_nil; tauto|]. split; [done|]. split; [|done]. intros Hn. by apply elem_of_nil in Hn. }
  apply list.NoDup_cons in Hnd as [Hx Hnd]. destruct (Nat.eqb_spec x v) as [->|Hne].
  - split; [|split; [done|split; [by left|done]]]. intros y. rewrite elem_of_cons. split; [|tauto].
    intros Hy. split; [tauto|]. by intros ->.
  - specialize (IH Hnd). destruct (unchain v r) as [r' b]. destruct IH as (K1 & K2 & K3).
    split; [|split; [apply list.NoDup_cons; split; [rewrite K1; tauto|done]|]].
    + intros y. rewrite !elem_of_cons, K1. destruct (decide (y = x)) as [->|]; tauto.
    + destruct b; destruct K3 as [K3 K4]; [split; [by right|cbn [length]; lia]|].
      split; [rewrite elem_of_cons; by intros [->|?]|by rewrite K4].
Qed.

(** A vnode with no handle on it, taken off the list and freed. *)
Lemma drop_safe h s n m :
  fsound h s -> is_Some (f_mem s !! n) -> h n = 0 -> ~ rooted s n -> (forall x, x <> n -> m !! x = f_mem s !! x) ->
  safe h s (inode_free n (set_mem m (icache_unlink n s))).
Proof.
  intros Hs Hn Hh Hr Hm. apply dropped_safe with [n]; [done|]. pose proof (unchain_spec n (f_cache s) (so_nodup _ _ Hs)) as Hu.
  unfold inode_free, icache_unlink. destruct (unchain n (f_cache s)) as [l b]. destruct Hu as (K1 & K2 & K3).
  split; cbn [f_cache f_cache_n f_mem f_next f_pending set_icache set_mem]; try done.
  - intros x. rewrite K1, list_elem_of_singleton. done.
  - rewrite (so_count _ _ Hs). apply (so_cached _ _ Hs) in Hn. destruct b; [|tauto]. destruct K3 as [_ ->]. lia.
  - intros x. case_decide as Hx; rewrite list_elem_of_singleton in Hx; [subst; by rewrite lookup_delete_eq|].
    rewrite lookup_delete_ne by done. by apply Hm.
  - intros x Hx. apply list_elem_of_singleton in Hx as ->. done.
Qed.

(** *** Finding or making the vnode of an entry *)

Lemma find_cached h s dclus i n : fsound h s -> icache_find dclus i s = Some n ->
  exists x, f_mem s !! n = Some x /\ key (vn_ino x) = (dclus, i).
Proof.
  intros Hs E. apply List.find_some in E as [Hin Hk]. rewrite <- list_elem_of_In in Hin. apply (so_cached _ _ Hs) in Hin as [x Ex].
  exists x. split; [done|]. unfold ino_at, vnode_at, has_key in Hk. rewrite Ex in Hk. cbn in Hk. b2p. unfold key. congruence.
Qed.
Lemma find_missing h s dclus i n x : fsound h s -> icache_find dclus i s = None -> f_mem s !! n = Some x -> key (vn_ino x) <> (dclus, i).
Proof.
  intros Hs E Ex Hk. assert (Hin : n ∈ f_cache s) by (apply (so_cached _ _ Hs); eauto). rewrite list_elem_of_In in Hin.
  pose proof (List.find_none _ _ E n Hin) as Hf. unfold ino_at, vnode_at, has_key in Hf. rewrite Ex in Hf. cbn in Hf.
  injection Hk as <- <-. by rewrite !Z.eqb_refl in Hf.
Qed.

Lemma dead_count h s n : fsound h s -> f_mem s !! n = None -> h n = 0.
Proof.
  intros Hs E. pose proof (so_pos _ _ Hs n). destruct (Z.eq_dec (h n) 0); [done|].
  destruct (so_held _ _ Hs n) as [x Ex]; [lia|]. congruence.
Qed.

Lemma get_safe h s dclus de :
  fsound h s -> exists n, fst (inode_get dclus de s) = inr n /\ is_Some (f_mem (snd (inode_get dclus de s)) !! n) /\
                       safe h s (snd (inode_get dclus de s)).
Proof.
  intros Hs. unfold inode_get. destruct (icache_find dclus (d_index de) s) as [n|] eqn:Ef.
  { exists n. destruct (find_cached _ _ _ _ _ Hs Ef) as (x & Ex & _). split; [done|]. split; [by exists x|by apply safe_refl]. }
  pose proof (trim_safe h s Hs) as Ht. pose proof (sf_sound _ _ _ Ht) as Hs'. set (t := icache_trim s) in *.
  assert (Hsub : forall n x, f_mem t !! n = Some x -> f_mem s !! n = Some x).
  { intros n x. unfold t, icache_trim. destruct (trim_list _ _ _) as [[l k] m] eqn:E.
    destruct (trim_list_spec _ _ _ _ _ _ E) as (gone & _ & _ & _ & K4 & _); [apply Hs|intros y; by apply (so_cached _ _ Hs)|].
    cbn. rewrite K4. by case_decide. }
  assert (Hnew : f_mem t !! f_next t = None).
  { destruct (f_mem t !! f_next t) as [x|] eqn:E; [|done]. pose proof (so_fresh _ _ Hs' (f_next t) ltac:(eauto)). lia. }
  cbn [alloc_vnode fst snd]. exists (f_next t). split; [done|]. cbn [f_mem set_icache]. split; [rewrite lookup_insert_eq; eauto|].
  eapply safe_trans; [exact Ht|]. set (i := fresh_inode dclus de) in *.
  assert (Hno : forall n x, f_mem t !! n = Some x -> key (vn_ino x) <> key i).
  { intros n x E. change (key i) with (dclus, d_index de). apply Hsub in E. exact (find_missing h s dclus (d_index de) n x Hs Ef E). }
  pose proof Hs' as []. split; [split|..]; cbn [f_cache f_cache_n f_mem f_next f_pending set_icache].
  - apply list.NoDup_cons. split; [|done]. rewrite so_cached0, Hnew. by intros [? ?].
  - rewrite so_count0. cbn [length]. lia.
  - intros n. rewrite elem_of_cons, so_cached0. destruct (decide (n = f_next t)) as [->|];
      [rewrite lookup_insert_eq; by split; [eexists|left]|rewrite lookup_insert_ne by done; tauto].
  - intros n. destruct (decide (n = f_next t)) as [->|]; [lia|]. rewrite lookup_insert_ne by done. intros Hn. apply so_fresh0 in Hn. lia.
  - intros a b x y. destruct (decide (a = f_next t)) as [->|], (decide (b = f_next t)) as [->|]; rewrite ?lookup_insert_eq, ?lookup_insert_ne by done.
    + done.
    + intros [= <-] Eb Hk. by destruct (Hno b y Eb).
    + intros Ea [= <-] Hk. by destruct (Hno a x Ea).
    + apply so_keys0.
  - intros n x. destruct (decide (n = f_next t)) as [->|]; [|rewrite lookup_insert_ne by done; apply so_refs0].
    rewrite lookup_insert_eq. intros [= <-]. by rewrite (dead_count _ _ _ Hs' Hnew).
  - intros n Hn. destruct (decide (n = f_next t)) as [->|]; [rewrite lookup_insert_eq; eauto|rewrite lookup_insert_ne by done; auto].
  - done.
  - intros n (x & E & Hx). exists x. split; [|done]. cbn. rewrite lookup_insert_ne; [done|]. intros Hx'. rewrite <- Hx', Hnew in E. done.
  - done.
Qed.

(** *** The operations on directories *)

Lemma on_vol_wp {A} (m : io (vst D) A) s (P : A -> Prop) :
  iwp m (f_vst s) (fun a _ => P a) (fun _ _ => True) -> iwp (on_vol m) s (fun a t => alike s t /\ P a) (fun _ t => alike s t).
Proof. unfold iwp, on_vol. destruct (m (f_vst s)) as [[rc|a] v]; [done|]. by split. Qed.
Lemma on_vol_any {A} (m : io (vst D) A) s : iwp (on_vol m) s (fun a t => alike s t /\ True) (fun _ t => alike s t).
Proof. apply (on_vol_wp m s (fun _ => True)). unfold iwp. by destruct (m (f_vst s)) as [[rc|a] v]. Qed.

(** An operation on the volume first. *)
Lemma vol_first {A B} (m : io (vst D) A) (P : A -> Prop) (k : A -> io (fatfs D) B) h s Q :
  fsound h s -> iwp m (f_vst s) (fun a _ => P a) (fun _ _ => True) ->
  (forall a t, alike s t -> fsound h t -> P a -> iwp (k a) t (fun b u => safe h t u /\ Q b u) (fun _ u => safe h t u)) ->
  iwp (ibind (on_vol m) k) s (fun b u => safe h s u /\ Q b u) (fun _ u => safe h s u).
Proof.
  intros Hs Hm Hk. eapply iwp_seq; [by apply (on_vol_wp m s P)| |].
  - intros a t [Ha Hp]. pose proof (alike_safe h s t Hs Ha) as Ht. eapply iwp_mono; [apply Hk; [done|apply Ht|done]|..].
    + intros b u [Hu Hq]. split; [by eapply safe_trans|done].
    + intros rc u Hu. by eapply safe_trans.
  - intros rc t Ha. by apply alike_safe.
Qed.
Lemma vol_then {A B} (m : io (vst D) A) (k : A -> io (fatfs D) B) h s Q :
  fsound h s -> (forall a t, alike s t -> fsound h t -> iwp (k a) t (fun b u => safe h t u /\ Q b u) (fun _ u => safe h t u)) ->
  iwp (ibind (on_vol m) k) s (fun b u => safe h s u /\ Q b u) (fun _ u => safe h s u).
Proof.
  intros Hs Hk. apply (vol_first m (fun _ => True)); [done|unfold iwp; by destruct (m (f_vst s)) as [[rc|a] v]|auto].
Qed.

Definition alive s (n : nat) : Prop := is_Some (f_mem s !! n).

Lemma get_alive h s dclus de : fsound h s ->
  iwp (inode_get dclus de) s (fun n t => safe h s t /\ alive t n) (fun _ t => safe h s t).
Proof.
  intros Hs. destruct (get_safe h s dclus de Hs) as (n & E & Hn & Ht). unfold iwp.
  destruct (inode_get dclus de s) as [r t]. cbn [fst snd] in *. by subst r.
Qed.

Lemma lookup_safe h s d name : fsound h s ->
  iwp (fat_op_lookup d name) s (fun n t => safe h s t /\ alive t n) (fun _ t => safe h s t).
Proof.
  intros Hs. unfold fat_op_lookup. apply iwp_bind, iwp_get.
  destruct (negb _); [by apply iwp_fail, safe_refl|]. destruct (is_dot name); [by apply iwp_fail, safe_refl|].
  apply vol_then; [done|]. intros de t _ Ht. by apply get_alive.
Qed.

Lemma create_safe h s d name type : fsound h s ->
  iwp (fat_op_create d name type) s (fun n t => safe h s t /\ alive t n) (fun _ t => safe h s t).
Proof.
  intros Hs. unfold fat_op_create. do 2 apply iwp_bind, iwp_get.
  do 3 (destruct (_ : bool); [by apply iwp_fail, safe_refl|]). cbn zeta.
  apply vol_then; [done|]. intros _ t1 _ Ht1. apply vol_then; [done|]. intros clus t2 _ Ht2.
  apply vol_then; [done|]. intros de t3 _ Ht3. apply vol_then; [done|]. intros _ t4 _ Ht4.
  apply iwp_bind, iwp_set. pose proof (alike_safe h t4 _ Ht4 (alike_touch t4 d (now_ms (clk (f_vst t4))))) as Ht5.
  eapply iwp_mono; [apply (get_alive h), Ht5|..]; cbv beta.
  - intros n u [Hu Hn]. split; [by eapply safe_trans|done].
  - intros rc u Hu. by eapply safe_trans.
Qed.

(** A vnode found under an entry is not the root. *)
Lemma found_not_root h s dclus i n : fsound h s -> icache_find dclus i s = Some n -> i < FAT_NO_ENTRY -> ~ rooted s n.
Proof.
  intros Hs Hf Hi (x & Ex & _ & Hx). destruct (find_cached _ _ _ _ _ Hs Hf) as (y & Ey & Hk). simplify_eq.
  injection Hk as _ Hk. lia.
Qed.

Lemma drop_vnode_safe h s n : fsound h s -> alive s n -> h n = 0 -> ~ rooted s n ->
  iwp (ibind (iset (icache_unlink n)) (fun _ => drop_vnode n)) s (fun r t => safe h s t /\ r = Some tt) (fun _ t => safe h s t).
Proof.
  intros Hs [x Ex] Hh Hr. apply iwp_bind, iwp_set. unfold drop_vnode. apply iwp_bind, iwp_get.
  assert (Em : f_mem (icache_unlink n s) = f_mem s) by (unfold icache_unlink; by destruct (unchain _ _)).
  assert (Er : vn_refs (vnode_at (icache_unlink n s) n) = 1).
  { unfold vnode_at. rewrite Em, Ex. cbn. rewrite (so_refs _ _ Hs _ _ Ex). lia. }
  rewrite Er. cbn [Z.leb Z.compare Z.sub Z.add Z.opp Z.pos_sub Z.eqb]. do 2 apply iwp_bind, iwp_set. apply iwp_ret. split; [|done].
  unfold upd_vnode. rewrite Em. apply drop_safe; [done|by exists x|done|done|]. intros y Hy. by rewrite lookup_alter_ne.
Qed.

Lemma alike_rooted s t n : alike s t -> rooted t n -> rooted s n.
Proof.
  intros Ha (x & E & Ht & Hi). destruct (alike_some _ _ _ _ Ha E) as (y & Ey & Hy & _).
  exists y. unfold ident, key in Hy. split; [done|]. split; congruence.
Qed.

(** A change in place first. *)
Lemma alike_first {A} (m : io (fatfs D) A) h s t Q :
  fsound h s -> alike s t -> iwp m t (fun a u => safe h t u /\ Q a u) (fun _ u => safe h t u) ->
  iwp m t (fun a u => safe h s u /\ Q a u) (fun _ u => safe h s u).
Proof.
  intros Hs Ha Hm. pose proof (alike_safe h s t Hs Ha) as Ht. eapply iwp_mono; [exact Hm|..]; cbv beta.
  - intros a u [Hu Hq]. split; [by eapply safe_trans|done].
  - intros rc u Hu. by eapply safe_trans.
Qed.

(** The panic of kobject_put is not reached. *)
Lemma unlink_safe h s d name : fsound h s ->
  iwp (fat_op_unlink d name) s (fun r t => safe h s t /\ r = Some tt) (fun _ t => safe h s t).
Proof.
  intros Hs. unfold fat_op_unlink. do 2 apply iwp_bind, iwp_get.
  do 3 (destruct (_ : bool); [by apply iwp_fail, safe_refl|]).
  apply (vol_first _ (fun de => d_index de < FAT_NO_ENTRY)); [done|apply found_index|]. intros de t1 _ Ht1 Hde.
  eapply (iwp_seq _ _ _ (fun _ t => alike t1 t) (fun _ t => alike t1 t)); [|cbv beta|intros rc u Hu; by apply alike_safe].
  { destruct (negb _); [|by apply iwp_ret]. eapply iwp_seq; [apply on_vol_any| |by intros]. intros b u [Hu _].
    destruct b; [by apply iwp_ret|by apply iwp_fail]. }
  intros _ t2 Ha. apply alike_first; [done|done|]. apply (alike_safe h) in Ha; [|done]. apply sf_sound in Ha as Ht2.
  do 2 apply iwp_bind, iwp_get. set (cached := icache_find _ _ t2). destruct (Z.ltb_spec 1 (match cached with Some n => vn_refs (vnode_at t2 n) | None => 0 end)) as [|Hr];
    [by apply iwp_fail, safe_refl|].
  apply vol_then; [done|]. intros _ t3 A3 Ht3. apply vol_then; [done|]. intros _ t4 A4 Ht4. apply vol_then; [done|]. intros _ t5 A5 Ht5.
  apply iwp_bind, iwp_set. pose proof (alike_touch t5 d (now_ms (clk (f_vst t5)))) as A6.
  apply alike_first; [done|done|]. apply (alike_safe h) in A6 as Ht6; [|done]. apply sf_sound in Ht6.
  set (t6 := put_ino _ _ _) in *. assert (A26 : alike t2 t6) by eauto using alike_trans.
  destruct cached as [n|] eqn:Ec; [|by apply iwp_ret; split; [apply safe_refl|]].
  destruct (find_cached _ _ _ _ _ Ht2 Ec) as (x & Ex & _).
  apply drop_vnode_safe; [done|apply (alike_alive t2 t6); [done|by exists x]| |].
  - unfold vnode_at in Hr. rewrite Ex in Hr. cbn in Hr. rewrite (so_refs _ _ Ht2 _ _ Ex) in Hr. pose proof (so_pos _ _ Ht2 n). lia.
  - intros Hroot. apply (found_not_root h t2 _ _ n Ht2 Ec Hde). by eapply alike_rooted.
Qed.

Lemma readdir_safe h s d index cap : fsound h s -> iwp (fat_op_readdir d index cap) s (fun _ t => safe h s t) (fun _ t => safe h s t).
Proof.
  intros Hs. unfold fat_op_readdir. apply iwp_bind, iwp_get. do 2 (destruct (_ : bool); [by apply iwp_fail, safe_refl|]).
  eapply iwp_mono; [apply (vol_then _ _ h s (fun _ _ => True)); [done|]|by intros ? ? [? _]|done].
  intros name t _ Ht. apply iwp_ret. split; [by apply safe_refl|done].
Qed.

End Cache.
