(* ===== verification/FatLife.v ===== *)
(** Lifetimes on a FAT volume: along any sequence of VFS requests, whatever the disk holds
    and however it fails, no vnode in use is freed and no reference is lost. *)

From stdpp Require Import gmap.
From S2P Require Import Prelude Bytes FileSpec Paths Vfs VfsSpec Rtc Block FatVol FatMount FatFile FatName FatDir FatVnode.
From S2P Require Import FatDisk FatCache.

(** The computation returns, and [Q] holds of what it does. *)
Definition pwp {S A} (m : prog S A) (s : S) (Q : A -> S -> Prop) : Prop :=
  match m s with Ok a s' => Q a s' | _ => False end.

Lemma pwp_ret {S A} (a : A) (s : S) (Q : A -> S -> Prop) : Q a s -> pwp (ret a) s Q.
Proof. done. Qed.
Lemma pwp_gets {S A} (f : S -> A) (s : S) (Q : A -> S -> Prop) : Q (f s) s -> pwp (gets f) s Q.
Proof. done. Qed.
Lemma pwp_bind {S A B} (m : prog S A) (k : A -> prog S B) (s : S) Q :
  pwp m s (fun a t => pwp (k a) t Q) -> pwp (bind m k) s Q.
Proof. unfold pwp, bind. by destruct (m s). Qed.
Lemma pwp_mono {S A} (m : prog S A) (s : S) (Q Q' : A -> S -> Prop) :
  pwp m s Q -> (forall a t, Q a t -> Q' a t) -> pwp m s Q'.
Proof. unfold pwp. destruct (m s); eauto. Qed.
Lemma pwp_seq {S A B} (m : prog S A) (k : A -> prog S B) (s : S) P Q :
  pwp m s P -> (forall a t, P a t -> pwp (k a) t Q) -> pwp (bind m k) s Q.
Proof. intros Hm Hk. apply pwp_bind. by eapply pwp_mono. Qed.

Section Life.
Context {D : Type} `{BlockOps D}.
Implicit Types (s t : fatfs D) (v w : vfs (fatfs D)) (hs : list file).

Local Notation "'held' hs" := (fun n => handles_on n hs) (at level 10, hs at level 9).

(** Every handle and every mount is accounted for. *)
Record vsound v hs : Prop := {
  vs_sound : fsound (held hs) (fs v);
  vs_roots : forall m, m ∈ mounts v -> rooted (fs v) (root m);
  vs_types : fstypes v = [(lit "fat32", mount_hook)];
  vs_pending : f_pending (fs v) = false }.

(** [w] is [v] with another state of the filesystem. *)
Definition only_fs v w : Prop := fstypes w = fstypes v /\ mounts w = mounts v.

Lemma vsound_safe v w hs hs' : vsound v hs -> only_fs v w -> safe (held hs') (fs v) (fs w) -> vsound w hs'.
Proof.
  intros [] [Et Em] []. split; [done| |congruence|congruence]. intros m. rewrite Em. auto.
Qed.

Lemma alive_type s n : v_type s n = n_type (ino_at s n).
Proof. done. Qed.

(** A call of an operation of the filesystem. *)
Lemma pwp_call {A B} (op : fatfs D -> A * fatfs D) (m : io (fatfs D) B) (P : B -> fatfs D -> Prop) v hs (Q : A -> vfs (fatfs D) -> Prop) :
  vsound v hs ->
  iwp m (fs v) (fun b t => safe (held hs) (fs v) t /\ P b t) (fun _ t => safe (held hs) (fs v) t) ->
  (forall r t w, m (fs v) = (r, t) -> fs w = t -> vsound w hs -> (forall b, r = inr b -> P b t) -> Q (fst (op (fs v))) w) ->
  snd (op (fs v)) = snd (m (fs v)) -> pwp (call op) v Q.
Proof.
  intros Hv Hm Hq Ht. unfold pwp, call. destruct (op (fs v)) as [a t]. cbn [fst snd] in *. subst t.
  unfold iwp in Hm. destruct (m (fs v)) as [[rc|b] t] eqn:E; cbn [snd].
  - apply (Hq (inl rc) t); [done|done|by eapply vsound_safe|done].
  - destruct Hm as [Hs Hp]. apply (Hq (inr b) t); [done|done|by eapply vsound_safe|by intros ? [= <-]].
Qed.

Lemma lookup_runs v hs d name : vsound v hs ->
  pwp (call (fun s => named (fat_op_lookup d name) s)) v
    (fun r w => vsound w hs /\ forall n, r.2 = Some n -> alive (fs w) n).
Proof.
  intros Hv. eapply (pwp_call _ (fat_op_lookup d name)); [done|apply lookup_safe, Hv| |].
  - intros r t w E <- Hw Hp. split; [done|]. intros n. unfold named. rewrite E. destruct r; [done|]. cbn. intros [= <-]. by apply Hp.
  - unfold named. by destruct (fat_op_lookup d name (fs v)).
Qed.
Lemma create_runs v hs d name type : vsound v hs ->
  pwp (call (fun s => named (fat_op_create d name type) s)) v
    (fun r w => vsound w hs /\ forall n, r.2 = Some n -> alive (fs w) n).
Proof.
  intros Hv. eapply (pwp_call _ (fat_op_create d name type)); [done|apply create_safe, Hv| |].
  - intros r t w E <- Hw Hp. split; [done|]. intros n. unfold named. rewrite E. destruct r; [done|]. cbn. intros [= <-]. by apply Hp.
  - unfold named. by destruct (fat_op_create d name type (fs v)).
Qed.

(** *** Paths *)

Lemma walk_runs fuel hs : forall rel cur v, vsound v hs -> alive (fs v) cur -> (length rel < fuel)%nat ->
  pwp (walk_path fuel rel cur) v (fun r w => vsound w hs /\ forall n, r = Some n -> alive (fs w) n).
Proof.
  induction fuel as [|fuel IH]; intros rel cur v Hv Hc Hf; [lia|]. cbn [walk_path].
  rewrite next_component_spec. destruct (components rel) as [|c cs] eqn:Ec.
  { cbn. split; [done|]. by intros n [= <-]. }
  destruct (VFS_NAME_MAX + 1 - 1 <? zlen c); [by apply pwp_ret|]. change (1 =? 1) with true. cbn match.
  assert (Hne : rel <> []) by (by intros ->). pose proof (span_progress rel Hne) as Hp.
  case_bool_decide; [apply IH; [done|done|lia]|]. apply pwp_bind, pwp_gets.
  destruct (negb _); [by apply pwp_ret|]. cbn [lookup_op fat_ops].
  eapply pwp_seq; [by apply lookup_runs|]. cbv beta. intros [rc [n|]] w [Hw Hn]; [|by apply pwp_ret].
  destruct (rc =? VFS_OK); [|by apply pwp_ret]. apply IH; [done|by apply Hn|lia].
Qed.

Lemma root_alive s n : rooted s n -> alive s n.
Proof. intros (x & E & _). by exists x. Qed.

Lemma resolves v hs path : vsound v hs ->
  pwp (resolve_path path) v (fun r w => vsound w hs /\ forall n, r = Some n -> alive (fs w) n).
Proof.
  intros Hv. unfold resolve_path. destruct (negb _); [by apply pwp_ret|]. destruct (_ <? _); [by apply pwp_ret|].
  apply pwp_bind, pwp_gets. pose proof (best_mount_spec path (mounts v) None) as Hb. fold (mount_for path (mounts v)) in Hb.
  destruct (mount_for path (mounts v)) as [[m len]|]; [|by apply pwp_ret]. destruct Hb as ([?|(Hm & _)] & _); [done|].
  apply walk_runs; [done|apply root_alive; by apply Hv|lia].
Qed.

Lemma parents v hs path : vsound v hs ->
  pwp (resolve_parent path) v (fun r w => vsound w hs /\ forall p leaf, r = inr (p, leaf) -> alive (fs w) p).
Proof.
  intros Hv. unfold resolve_parent. do 2 (destruct (_ : bool); [by apply pwp_ret|]).
  destruct (split_last path) as [[d l]|]; [|by apply pwp_ret]. do 2 (destruct (_ : bool); [by apply pwp_ret|]).
  eapply pwp_seq; [by apply resolves|]. cbv beta. intros [p|] w [Hw Hp]; [|by apply pwp_ret].
  apply pwp_bind, pwp_gets. destruct (negb _); [by apply pwp_ret|]. apply pwp_ret. split; [done|]. intros ? ? [= <- <-]. by apply Hp.
Qed.

Lemma creates v hs path : vsound v hs ->
  pwp (create_missing path) v (fun r w => vsound w hs /\ forall n, r = Some n -> alive (fs w) n).
Proof.
  intros Hv. unfold create_missing. eapply pwp_seq; [by apply parents|]. cbv beta. intros [rc|[p leaf]] w [Hw Hp]; [by apply pwp_ret|].
  apply pwp_bind, pwp_gets. cbn [create_op fat_ops]. eapply pwp_seq; [by apply create_runs|]. cbv beta.
  intros c u [Hu Hn]. destruct (c.1 =? VFS_OK); by apply pwp_ret.
Qed.

(** *** Files *)

Lemma file_call_runs {A B} v hs n (m : io (fst_ D) B) (op : fatfs D -> A * fatfs D) :
  vsound v hs -> keeps_ident m -> snd (op (fs v)) = snd (on_file n m (fs v)) ->
  pwp (call op) v (fun _ w => vsound w hs /\ forall k, alive (fs v) k -> alive (fs w) k).
Proof.
  intros Hv Hm Ho. pose proof (alike_file n m (fs v) Hm) as Ha. unfold pwp, call. destruct (op (fs v)) as [a t]. cbn [snd] in Ho.
  subst t. split; [eapply vsound_safe; [done|done|by apply alike_safe; [apply Hv|]]|].
  intros k. by apply (alike_alive (fs v)).
Qed.

Lemma set_refs_safe v hs hs' n r :
  vsound v hs -> alive (fs v) n -> (forall m, m <> n -> handles_on m hs' = handles_on m hs) -> r = 1 + handles_on n hs' ->
  vsound (Vfs (fstypes v) (mounts v) (set_refs n r (fs v))) hs'.
Proof.
  intros Hv [x Ex] Hh Hr. eapply vsound_safe; [exact Hv|done|]. cbn [fs set_refs fat_ops].
  eapply refs_safe; [apply Hv|exact Ex|done|done|apply cnt_if_nonneg].
Qed.

Lemma alive_refs s h n : fsound h s -> alive s n -> v_refs s n = 1 + h n.
Proof. intros Hs [x Ex]. cbn [v_refs fat_ops]. unfold vnode_at. rewrite Ex. by apply (so_refs _ _ Hs). Qed.

Definition opened (r : option file) hs : list file := match r with Some f => f :: hs | None => hs end.

Lemma open_runs_fat v hs path fl : vsound v hs -> pwp (vfs_open path fl) v (fun r w => vsound w (opened r hs)).
Proof.
  intros Hv. unfold vfs_open. eapply pwp_seq; [by apply resolves|]. cbv beta. intros r w [Hw Hr].
  eapply (pwp_seq _ _ _ (fun r w => vsound w hs /\ forall n, r = Some n -> alive (fs w) n)).
  { destruct r; [by apply pwp_ret|]. destruct (has fl O_CREAT); [by apply creates|by apply pwp_ret]. }
  clear v Hv r w Hw Hr. intros [n|] v [Hv Hn]; [|by apply pwp_ret]. specialize (Hn n eq_refl). apply pwp_bind, pwp_gets.
  eapply (pwp_seq _ _ _ (fun _ w => vsound w hs /\ alive (fs w) n)).
  { destruct (_ && _); [|by apply pwp_ret]. cbn [truncate_op fat_ops].
    eapply pwp_seq; [apply (file_call_runs v hs n (fat_op_truncate 0)); [done|apply ident_truncate|]|].
    - unfold done_. by destruct (on_file n _ _).
    - cbv beta. intros rc w [Hw Ha]. apply pwp_ret. auto. }
  intros _ w [Hw Ha]. apply pwp_bind. unfold kobject_get, on_fs, pwp, modify. cbn beta. unfold pwp, bind, gets, ret. cbn [opened].
  apply (set_refs_safe w hs); [done|done|intros m Hm; rewrite handles_cons; cbn [node]; destruct (Nat.eqb_spec n m); congruence || lia|].
  rewrite (alive_refs _ _ _ (vs_sound _ _ Hw) Ha), handles_cons. cbn [node]. rewrite Nat.eqb_refl. lia.
Qed.

Lemma close_runs_fat v hs f : vsound v (f :: hs) -> pwp (vfs_close f) v (fun _ w => vsound w hs).
Proof.
  intros Hv. assert (Hf : handles_on (node f) (f :: hs) = 1 + handles_on (node f) hs) by (by rewrite handles_cons, Nat.eqb_refl).
  assert (Ha : alive (fs v) (node f)).
  { apply (so_held _ _ (vs_sound _ _ Hv)). rewrite Hf. pose proof (cnt_if_nonneg (fun g => Nat.eqb (node g) (node f)) hs). unfold handles_on. lia. }
  pose proof (alive_refs _ _ _ (vs_sound _ _ Hv) Ha) as Er. cbv beta in Er. rewrite Hf in Er.
  pose proof (cnt_if_nonneg (fun g => Nat.eqb (node g) (node f)) hs) as Hp. fold (handles_on (node f) hs) in Hp.
  unfold vfs_close, kobject_put. do 2 apply pwp_bind. apply pwp_gets. rewrite (proj2 (Z.leb_gt _ _)) by lia.
  unfold on_fs, pwp, bind, modify, ret. rewrite (proj2 (Z.eqb_neq _ _)) by lia.
  apply (set_refs_safe v (f :: hs)); [done|done| |lia].
  intros m Hm. rewrite handles_cons. destruct (Nat.eqb_spec (node f) m); congruence || lia.
Qed.

Lemma read_runs_fat v hs f len : vsound v hs -> pwp (vfs_read f len) v (fun r w => vsound w hs /\ node r.2 = node f).
Proof.
  intros Hv. unfold vfs_read. apply pwp_bind, pwp_gets. cbn [read_op fat_ops]. destruct (_ =? _); [by apply pwp_ret|].
  eapply pwp_seq; [apply (file_call_runs v hs (node f) (fat_op_read (pos f) len)); [done|apply ident_read|]|].
  - by destruct (on_file _ _ _) as [[?|?] ?].
  - cbv beta. intros [n bs] w [Hw _]. apply pwp_ret. split; [done|]. cbn. by destruct (0 <? n).
Qed.
Lemma write_runs_fat v hs f buf : vsound v hs -> pwp (vfs_write f buf) v (fun r w => vsound w hs /\ node r.2 = node f).
Proof.
  intros Hv. unfold vfs_write. apply pwp_bind, pwp_gets. cbn [write_op fat_ops]. destruct (_ =? _); [by apply pwp_ret|].
  cbn zeta. set (g := if has _ _ then _ else f). assert (Hg : node g = node f) by (unfold g; by destruct (has _ _)).
  eapply pwp_seq; [apply (file_call_runs v hs (node f) (fat_op_write buf (pos g))); [done|apply ident_write|]|].
  - unfold counted. by destruct (on_file _ _ _).
  - cbv beta. intros n w [Hw _]. apply pwp_ret. split; [done|]. cbn. by destruct (0 <? n).
Qed.

(** *** Names *)

Lemma mkdir_runs_fat v hs path : vsound v hs -> pwp (vfs_mkdir path) v (fun _ w => vsound w hs).
Proof.
  intros Hv. unfold vfs_mkdir. eapply pwp_seq; [by apply resolves|]. cbv beta. intros [n|] w [Hw _]; [by apply pwp_ret|].
  eapply pwp_seq; [by apply parents|]. cbv beta. intros [rc|[p leaf]] u [Hu Hp]; [by apply pwp_ret|].
  apply pwp_bind, pwp_gets. cbn [create_op fat_ops]. eapply pwp_seq; [by apply create_runs|]. cbv beta.
  intros c x [Hx _]. by apply pwp_ret.
Qed.

Lemma unlink_runs_fat v hs dir leaf : vsound v hs -> pwp (unlink_at dir leaf) v (fun _ w => vsound w hs).
Proof.
  intros Hv. unfold unlink_at. eapply pwp_seq; [by apply open_runs_fat|]. cbv beta. intros [d|] w Hw; [|by apply pwp_ret].
  cbn [opened] in Hw. apply pwp_bind, pwp_gets. eapply (pwp_seq _ _ _ (fun _ w => vsound w (d :: hs))).
  - destruct (bool_decide _); [|by apply pwp_ret]. cbn [unlink_op fat_ops]. unfold pwp.
    pose proof (unlink_safe _ _ (node d) leaf (vs_sound _ _ Hw)) as Hu. unfold iwp in Hu.
    destruct (fat_op_unlink (node d) leaf (fs w)) as [[rc|r] t]; [by eapply vsound_safe|].
    destruct Hu as [Hu ->]. by eapply vsound_safe.
  - intros rc u Hu. eapply pwp_seq; [by apply close_runs_fat|]. cbv beta. intros _ x Hx. by apply pwp_ret.
Qed.

Lemma readdir_runs_fat v hs path index cap : vsound v hs -> pwp (vfs_readdir path index cap) v (fun _ w => vsound w hs).
Proof.
  intros Hv. unfold vfs_readdir. destruct (cap =? 0); [by apply pwp_ret|].
  eapply pwp_seq; [by apply resolves|]. cbv beta. intros [n|] w [Hw _]; [|by apply pwp_ret].
  apply pwp_bind, pwp_gets. destruct (negb _); [by apply pwp_ret|]. cbn [readdir_op fat_ops].
  eapply (pwp_call _ (fat_op_readdir n index cap) (fun _ _ => True)); [done| | |].
  - eapply iwp_mono; [apply readdir_safe, Hw|done|done].
  - by intros.
  - by destruct (fat_op_readdir n index cap (fs w)) as [[?|?] ?].
Qed.

(** A second mount of the type is refused when no disk is selected. *)
Lemma mount_runs_fat v hs mp type : vsound v hs -> pwp (vfs_mount mp type) v (fun _ w => vsound w hs).
Proof.
  intros Hv. unfold vfs_mount. apply pwp_bind, pwp_gets. rewrite (vs_types _ _ Hv). cbn [find fst].
  destruct (bool_decide _); [|by apply pwp_ret]. do 2 (destruct (_ : bool); [by apply pwp_ret|]).
  unfold pwp, bind, call, mount_hook, fat32_do_mount, ibind, iget. cbn [snd]. rewrite (vs_pending _ _ Hv). cbn.
  by destruct v.
Qed.

Lemma serve_runs_fat r v hs : vsound v hs -> pwp (serve r hs) v (fun hs' w => vsound w hs').
Proof.
  assert (Hmove : forall h f f' w, hs !! h = Some f -> node f' = node f -> vsound w hs -> vsound w (<[h := f']> hs)).
  { intros h f f' w E Hn [[] ? ? ?]. split; [|done..]. assert (Eh : forall n, handles_on n (<[h := f']> hs) = handles_on n hs)
      by (intros n; by eapply handles_replace).
    split; try done; intros n; rewrite ?Eh; auto. }
  assert (Hdrop : forall h f w, hs !! h = Some f -> vsound w hs -> vsound w (f :: (take h hs ++ drop (S h) hs))).
  { intros h f w E [[] ? ? ?]. split; [|done..]. split; try done; intros n; rewrite <- ?(handles_remove hs h f n E); auto. }
  intros Hv. destruct r; cbn [serve]; try (unfold with_handle; destruct (hs !! h) as [f|] eqn:E; [|by apply pwp_ret]).
  - eapply pwp_seq; [by apply open_runs_fat|]. cbv beta. intros r w Hw. by apply pwp_ret.
  - eapply pwp_seq; [apply close_runs_fat; by apply Hdrop|]. cbv beta. intros _ w Hw. by apply pwp_ret.
  - eapply pwp_seq; [by apply read_runs_fat|]. cbv beta. intros x w [Hw Hn]. apply pwp_ret. by eapply Hmove.
  - eapply pwp_seq; [by apply write_runs_fat|]. cbv beta. intros x w [Hw Hn]. apply pwp_ret. by eapply Hmove.
  - eapply (pwp_seq _ _ _ (fun x w => vsound w hs /\ node x.2 = node f)).
    + unfold vfs_seek. apply pwp_bind, pwp_gets. cbn zeta. destruct (if whence =? SEEK_SET then _ else _); [|by apply pwp_ret].
      destruct (_ <? 0); by apply pwp_ret.
    + intros x w [Hw Hn]. apply pwp_ret. by eapply Hmove.
  - eapply pwp_seq; [by apply mkdir_runs_fat|done].
  - eapply pwp_seq; [by apply unlink_runs_fat|done].
  - eapply pwp_seq; [by apply mount_runs_fat|done].
  - eapply (pwp_seq _ _ _ (fun _ w => vsound w hs)); [|done]. unfold vfs_stat. eapply pwp_seq; [by apply resolves|]. cbv beta.
    intros [n|] w [Hw _]; [by apply pwp_gets|by apply pwp_ret].
  - eapply pwp_seq; [by apply readdir_runs_fat|done].
Qed.

Lemma serve_all_runs_fat rs : forall v hs, vsound v hs -> pwp (serve_all rs hs) v (fun hs' w => vsound w hs').
Proof.
  induction rs as [|r rs IH]; intros v hs Hv; cbn [serve_all]; [by apply pwp_ret|].
  eapply pwp_seq; [by apply serve_runs_fat|]. cbv beta. intros hs' w. apply IH.
Qed.

(** *** The mount *)

(** Nothing is in memory and nothing mounted. *)
Definition unmounted v : Prop :=
  fstypes v = [(lit "fat32", mount_hook)] /\ mounts v = [] /\
  f_mem (fs v) = ∅ /\ f_cache (fs v) = [] /\ f_cache_n (fs v) = 0.

Lemma empty_sound s : f_mem s = ∅ -> f_cache s = [] -> f_cache_n s = 0 -> fsound (held []) s.
Proof.
  intros Em Ec En. split; rewrite ?Em, ?Ec, ?En; try done.
  - apply NoDup_nil_2.
  - intros n. rewrite lookup_empty, elem_of_nil. split; [done|by intros [? ?]].
  - intros n. rewrite lookup_empty. by intros [? ?].
Qed.

Lemma read_einval i (u : vst D) : iwp (fat_sector_read i) u (fun _ _ => True) (fun rc _ => rc = VFS_EINVAL).
Proof.
  unfold fat_sector_read. apply iwp_bind, iwp_get. destruct (_ && _); [by apply iwp_ret|]. apply iwp_bind.
  unfold iwp, via. destruct (block_read i 1 (dev u)) as [[?|?] ?]; done.
Qed.

(** A mount that is refused says so. *)
Lemma open_einval (u : vst D) : iwp fat_volume_open u (fun _ _ => True) (fun rc _ => rc = VFS_EINVAL).
Proof.
  unfold fat_volume_open. apply iwp_bind, iwp_set. eapply (iwp_seq _ _ _ (fun _ _ => True) (fun rc _ => rc = VFS_EINVAL)); [| |done].
  { unfold iwp, via. by destruct (block_read 0 1 _) as [[?|?] ?]. }
  intros bs u1 _. apply iwp_bind, iwp_get. destruct (check_bpb _ _ bs) as [v|]; [|by apply iwp_fail].
  apply iwp_bind, iwp_set. eapply iwp_seq; [apply read_einval| |done]. intros fatsec u2 _.
  destruct (negb _); [by apply iwp_fail|]. unfold iwp, read_hint. destruct (_ =? 0); [done|].
  destruct (fat_sector_read _ u2) as [[?|?] ?]; [done|]. by destruct (_ && _).
Qed.

Lemma do_mount_runs s : f_mem s = ∅ -> f_cache s = [] -> f_cache_n s = 0 ->
  iwp fat32_do_mount s
    (fun n t => fsound (held []) t /\ rooted t n)
    (fun rc t => rc = VFS_EINVAL /\ f_mem t = ∅ /\ f_cache t = [] /\ f_cache_n t = 0).
Proof.
  intros Em Ec En. unfold fat32_do_mount. apply iwp_bind, iwp_get. destruct (negb _); [by apply iwp_fail|].
  pose proof (open_einval (f_vst s)) as Ho. unfold iwp, ibind, on_vol in *. destruct (fat_volume_open (f_vst s)) as [[rc|a] u]; [done|]. cbn.
  set (x := Vnode _ 1). unfold set_icache, set_vst. cbn. rewrite Em. split.
  - split; cbn [f_cache f_cache_n f_mem f_next]; try done.
    + apply NoDup_singleton.
    + intros n. rewrite list_elem_of_singleton. split; [intros ->; rewrite lookup_insert_eq; by eexists|].
      intros [y Hy]. by apply lookup_singleton_Some in Hy as [-> _].
    + intros n [y Hy]. apply lookup_singleton_Some in Hy as [<- _]. lia.
    + intros a0 b y z Hy Hz _. apply lookup_singleton_Some in Hy as [<- _], Hz as [<- _]. done.
    + intros n y Hy. by apply lookup_singleton_Some in Hy as [<- <-].
  - exists x. cbn. rewrite lookup_insert_eq. done.
Qed.

Lemma mount_selected_runs v mp : unmounted v ->
  pwp (mount_selected mp) v (fun rc w => rc = VFS_OK /\ vsound w [] \/ unmounted w /\ f_pending (fs w) = false).
Proof.
  intros (Et & Em & E1 & E2 & E3). unfold mount_selected. apply pwp_bind. unfold on_fs at 1, pwp at 1, modify at 1. cbv beta.
  set (v1 := Vfs _ _ _). eapply (pwp_seq _ _ _ (fun rc w => (rc = VFS_OK /\ fsound (held []) (fs w) /\ fstypes w = fstypes v /\
    forall m, m ∈ mounts w -> rooted (fs w) (root m)) \/ unmounted w)).
  - unfold vfs_mount. apply pwp_bind, pwp_gets. cbn [v1 fstypes]. rewrite Et. cbn [find fst].
    assert (Hu1 : unmounted v1) by done.
    destruct (bool_decide _); [|by apply pwp_ret; right]. destruct (negb _); [by apply pwp_ret; right|].
    destruct (_ <=? _); [by apply pwp_ret; right|].
    pose proof (do_mount_runs (fs v1) E1 E2 E3) as Hm. unfold iwp in Hm. unfold pwp, bind, call, mount_hook. cbn [snd].
    destruct (fat32_do_mount (fs v1)) as [[rc|n] t]; [destruct Hm as (-> & ? & ? & ?); by right|].
    left. split; [done|]. split; [apply Hm|]. split; [done|]. cbn [modify fs mounts].
    intros m Hin. cbn in Hin. rewrite Em in Hin. apply list_elem_of_singleton in Hin as ->. apply Hm.
  - intros rc w Hw. unfold pwp, bind, on_fs, modify, ret. destruct Hw as [(-> & Hs & Ht & Hr)|Hu]; [left|right; by split].
    split; [done|]. split; [|done|cbn [fstypes]; by rewrite Ht|done]. by destruct Hs.
Qed.

Lemma unmounted_sound v : unmounted v -> f_pending (fs v) = false -> vsound v [].
Proof.
  intros (Et & Em & E1 & E2 & E3) Hp. split; [by apply empty_sound| |done|done]. rewrite Em. intros m Hm. by apply elem_of_nil in Hm.
Qed.

Lemma disk_step_unmounted {A} (m : block_device D -> A * block_device D) v :
  unmounted v -> pwp (on_disk_ m) v (fun _ w => unmounted w /\ f_pending (fs w) = f_pending (fs v)).
Proof. intros Hu. unfold pwp, on_disk_, call. by destruct (m (dev (f_vst (fs v)))). Qed.

Lemma mount_disk_runs mem fmt mp v : unmounted v -> pwp (fat32_mount_disk mem mp fmt) v (fun _ w => vsound w []).
Proof.
  intros Hu. unfold fat32_mount_disk. eapply pwp_seq; [by apply mount_selected_runs|]. cbv beta. intros rc w Hw.
  destruct (Z.eqb_spec rc VFS_OK); [apply pwp_ret; destruct Hw as [[_ ?]|[? ?]]; [done|by apply unmounted_sound]|].
  destruct Hw as [[? _]|[Hw Hp]]; [done|]. pose proof (unmounted_sound w Hw Hp). destruct (negb _); [by apply pwp_ret|].
  eapply pwp_seq; [by apply disk_step_unmounted|]. cbv beta. intros b w1 [Hw1 Hp1]. rewrite Hp in Hp1.
  pose proof (unmounted_sound w1 Hw1 Hp1). destruct (negb b); [by apply pwp_ret|]. apply pwp_bind, pwp_gets.
  eapply pwp_seq; [by apply disk_step_unmounted|]. cbv beta. intros [rc2|[]] w2 [Hw2 Hp2]; rewrite Hp1 in Hp2; [apply pwp_ret; by apply unmounted_sound|].
  eapply pwp_mono; [by apply mount_selected_runs|]. cbv beta. intros rc3 w3 [[_ ?]|[? ?]]; [done|by apply unmounted_sound].
Qed.

(** Boot with a FAT disk: register the filesystem, mount the disk at the root, formatting it
    when that is allowed and it is blank, and serve. *)
Definition fat_session (mem fmt : bool) (rs : list request) : prog (vfs (fatfs D)) (list file) :=
  bind fat32_register (fun _ => bind (fat32_mount_disk mem (lit "/") fmt) (fun _ => serve_all rs [])).

(** C2: Vnode lifetimes on a FAT volume are right, whatever the disk holds (a damaged or
    hostile volume included) and however its transfers fail. Whatever programs ask of a VFS
    with the disk at its root, in any order, every call returns: no reference count
    underflows, no path walk runs on. Afterwards every open handle and every mount refers to
    a vnode that is still allocated, although the cache evicts vnodes and unlink frees them; a
    vnode is referred to by the cache, once, and by the handles open on it, and by nothing
    else (nothing leaks); and no directory entry has two vnodes, so two openers of a file
    share one size and one cluster chain. *)
Theorem fat_sessions_keep_lifetimes (disk : vst D) (mem fmt : bool) (rs : list request) :
  exists hs v, fat_session mem fmt rs (Vfs [] [] (FatFs disk ∅ [] 0 0 false)) = Ok hs v /\
    (forall f, f ∈ hs -> is_Some (f_mem (fs v) !! node f)) /\
    (forall m, m ∈ mounts v -> is_Some (f_mem (fs v) !! root m)) /\
    NoDup (f_cache (fs v)) /\ f_cache_n (fs v) = Z.of_nat (length (f_cache (fs v))) /\
    (forall n, n ∈ f_cache (fs v) <-> is_Some (f_mem (fs v) !! n)) /\
    (forall n x, f_mem (fs v) !! n = Some x -> vn_refs x = 1 + handles_on n hs) /\
    (forall a b x y, f_mem (fs v) !! a = Some x -> f_mem (fs v) !! b = Some y ->
       dir_clus (vn_ino x) = dir_clus (vn_ino y) -> dir_index (vn_ino x) = dir_index (vn_ino y) -> a = b).
Proof.
  set (boot := Vfs [] [] _). assert (Hs : pwp (fat_session mem fmt rs) boot (fun hs v => vsound v hs)).
  { unfold fat_session. apply pwp_bind. unfold pwp at 1. cbn. eapply pwp_seq; [by apply mount_disk_runs|]. cbv beta.
    intros _ w Hw. by apply serve_all_runs_fat. }
  unfold pwp in Hs. destruct (fat_session mem fmt rs boot) as [hs v| | |]; [|done..]. exists hs, v. split; [done|].
  destruct Hs as [Hfs Hroots _ _].
  split; [|split; [|split; [apply Hfs|split; [apply Hfs|split; [apply Hfs|split; [apply Hfs|]]]]]].
  - intros f Hf. apply (so_held _ _ Hfs). pose proof (cnt_if_in (fun g => Nat.eqb (node g) (node f)) f hs Hf (Nat.eqb_refl _)). unfold handles_on. lia.
  - intros m Hm. apply root_alive. auto.
  - intros a b x y Ea Eb H1 H2. apply (so_keys _ _ Hfs a b x y Ea Eb). unfold key. congruence.
Qed.

End Life.
