(* ===== verification/FatRefresh.v ===== *)
(** A commit of a file's size rewrites its directory entry in place. The names a directory
    lists stay as they are; the entry of the file has its new first cluster and size. *)

From S2P Require Import Prelude Bytes Paths Vfs Rtc Block FatVol FatMount FatFile FatName FatDir FatNameSpec.
From S2P Require Import FatDisk FatChain FatRw FatEntry FatSpec FatScan FatItems FatPlace FatEdit.
From S2P Require Import FatDirClaims.

(** [e'] is [e] with another size, first cluster and times, perhaps marked for the archive. *)
Record touched (e e' : bytes) : Prop := {
  to_name : take 11 e' = take 11 e;
  to_case : at_ e' DE_NTRES = at_ e DE_NTRES;
  to_attr : at_ e' DE_ATTR = at_ e DE_ATTR \/ at_ e' DE_ATTR = Z.lor (at_ e DE_ATTR) FAT_ATTR_ARCHIVE }.

(** The entry at slot [i] as it is listed then. *)
Definition refresh (i : Z) (e' : bytes) (d : fat_dirent) : fat_dirent :=
  if d_index d =? i then Dirent (d_name d) (d_index d) (d_first_index d) (de_clus e') (de_size e') (at_ e' DE_ATTR) e' else d.

Lemma refresh_name i e' d : d_name (refresh i e' d) = d_name d.
Proof. unfold refresh. by destruct (_ =? _). Qed.
Lemma refresh_index i e' d : d_index (refresh i e' d) = d_index d.
Proof. unfold refresh. by destruct (_ =? _). Qed.
Lemma refresh_other i e' d : d_index d <> i -> refresh i e' d = d.
Proof. intros Hn. unfold refresh. by rewrite (proj2 (Z.eqb_neq _ _) Hn). Qed.

Lemma at_of_take (a b : bytes) n i : take n a = take n b -> 0 <= i < Z.of_nat n -> at_ a i = at_ b i.
Proof. intros E Hi. rewrite <- (at_take a (Z.of_nat n)), <- (at_take b (Z.of_nat n)) by lia. by rewrite Nat2Z.id, E. Qed.

Lemma touched_short e e' : touched e e' -> short_to_string e' = short_to_string e /\ fat_short_checksum e' = fat_short_checksum e.
Proof.
  intros [Hn Hc _]. unfold short_to_string, fat_short_checksum. rewrite Hc, Hn.
  assert (E8 : take 8 e' = take 8 e) by (pose proof (f_equal (take 8) Hn) as E; by rewrite !take_take in E).
  assert (E3 : take 3 (drop 8 e') = take 3 (drop 8 e)) by (rewrite !take_drop_commute; exact (f_equal (drop 8) Hn)).
  rewrite E8, E3, (at_of_take e' e 11 8) by (done || lia). done.
Qed.

Lemma judge_touched e e' c : touched e e' -> at_ e DE_ATTR <> FAT_ATTR_LFN ->
  judge e' c = match judge e c with Found d c' => Found (refresh (c_index c - 1) e' d) c' | x => x end.
Proof.
  intros Ht Ha. destruct (touched_short e e' Ht) as [Es Ec]. pose proof Ht as [Hn _ Hat]. unfold judge, long_name.
  rewrite (at_of_take e' e 11 0), Ec, Es by (done || lia). destruct (at_ e 0 =? 0); [done|]. destruct (at_ e 0 =? FAT_DELETED); [done|].
  assert (Ha' : at_ e' DE_ATTR <> FAT_ATTR_LFN).
  { destruct Hat as [->| ->]; [done|]. intros E. apply (f_equal (fun x => Z.testbit x 5)) in E. rewrite Z.lor_spec in E.
    cbn in E. rewrite orb_true_r in E. done. }
  assert (Ev : Z.land (at_ e' DE_ATTR) FAT_ATTR_VOLUME_ID = Z.land (at_ e DE_ATTR) FAT_ATTR_VOLUME_ID).
  { destruct Hat as [->| ->]; [done|]. rewrite Z.land_lor_distr_l. change (Z.land FAT_ATTR_ARCHIVE FAT_ATTR_VOLUME_ID) with 0. by rewrite Z.lor_0_r. }
  rewrite (proj2 (Z.eqb_neq _ _) Ha), (proj2 (Z.eqb_neq _ _) Ha'), Ev. destruct (negb _); [done|].
  destruct (if (0 <? c_count c) && _ && _ then _ else _); unfold refresh; cbn [d_index]; by rewrite Z.eqb_refl.
Qed.

Lemma entries_from es : forall c d, d ∈ entries es c -> c_index c <= d_index d.
Proof.
  induction es as [|e es IH]; intros c d Hd; cbn [entries] in Hd; [by apply elem_of_nil in Hd|].
  destruct (judge e _) as [|c'|d' c'] eqn:Ej; [by apply elem_of_nil in Hd|..].
  - destruct (judge_keeps e _ c' (or_introl Ej)) as (Ei & _). apply IH in Hd. cbn in Ei. lia.
  - destruct (judge_keeps e _ c' (or_intror (ex_intro _ _ Ej))) as (Ei & _). cbn in Ei.
    apply elem_of_cons in Hd as [->|Hd]; [apply judge_slot in Ej; cbn in Ej; lia|]. apply IH in Hd. lia.
Qed.

Lemma refresh_later i e' l : (forall d, d ∈ l -> i < d_index d) -> map (refresh i e') l = l.
Proof.
  induction l as [|d l IH]; intros Hl; [done|]. cbn [map]. rewrite IH by (intros; apply Hl; by right). f_equal.
  apply refresh_other. specialize (Hl d ltac:(by left)). lia.
Qed.

(** Rewriting an entry in place changes nothing else of the listing. *)
Lemma entries_touched e e' r : touched e e' -> at_ e DE_ATTR <> FAT_ATTR_LFN -> forall pre c,
  entries (pre ++ e' :: r) c = map (refresh (c_index c + Z.of_nat (length pre)) e') (entries (pre ++ e :: r) c).
Proof.
  intros Ht Ha. induction pre as [|x pre IH]; intros c; cbn [app entries length].
  - rewrite (judge_touched e e') by done. cbn [c_index set_place]. replace (c_index c + 1 - 1) with (c_index c + Z.of_nat 0) by lia.
    assert (Hlater : forall c', c_index c' = c_index c + 1 -> map (refresh (c_index c + Z.of_nat 0) e') (entries r c') = entries r c').
    { intros c' Ec. apply refresh_later. intros d Hd%entries_from. lia. }
    destruct (judge e _) as [|c'|d c'] eqn:Ej; [done|..].
    + destruct (judge_keeps e _ c' (or_introl Ej)) as (Ei & _). symmetry. by apply Hlater.
    + destruct (judge_keeps e _ c' (or_intror (ex_intro _ _ Ej))) as (Ei & _). cbn [map]. by rewrite Hlater.
  - destruct (judge x _) as [|c'|d c'] eqn:Ej; [done|..].
    + destruct (judge_keeps x _ c' (or_introl Ej)) as (Ei & _). cbn in Ei. rewrite IH. f_equal. f_equal. lia.
    + destruct (judge_keeps x _ c' (or_intror (ex_intro _ _ Ej))) as (Ei & _). cbn in Ei. cbn [map]. apply judge_slot in Ej. cbn in Ej.
      rewrite refresh_other by lia. rewrite IH. f_equal. f_equal. f_equal. lia.
Qed.

Lemma item_touched recs e name e' : item_ok (Named recs e name) -> touched e e' -> item_ok (Named recs e' name).
Proof.
  intros (Hr & [He0 He1] & Ha & Hd) Ht. pose proof Ht as [Hn _ Hat]. pose proof (at_of_take e' e 11 0 Hn ltac:(lia)) as E0.
  split; [done|]. split; [split; by rewrite E0|]. split.
  - destruct Hat as [->| ->]; [done|]. intros E. apply (f_equal (fun x => Z.testbit x 5)) in E. rewrite Z.lor_spec in E.
    cbn in E. rewrite orb_true_r in E. done.
  - intros c r Hc. rewrite (entries_touched e e') by done. rewrite Hd by done. rewrite map_app. f_equal.
    + cbn [item_entry map]. unfold refresh. cbn [d_index]. by rewrite Z.eqb_refl.
    + apply refresh_later. intros d Hd'%entries_from. cbn in Hd'. lia.
Qed.

Lemma tidy_touched its1 recs e name its2 zs e' :
  tidy (slots_of (its1 ++ Named recs e name :: its2) ++ zs) (its1 ++ Named recs e name :: its2) -> Forall end_mark zs -> touched e e' ->
  tidy (slots_of (its1 ++ Named recs e' name :: its2) ++ zs) (its1 ++ Named recs e' name :: its2).
Proof.
  intros [Hok _] Hz Ht. apply Forall_app in Hok as [Hok1 Hok2]. apply Forall_cons_1 in Hok2 as [Hn Hok2]. split.
  - apply Forall_app_2; [done|]. apply Forall_cons_2; [|done]. by eapply item_touched.
  - by exists zs.
Qed.

Section Refresh.
Context {D : Type} `{DiskLaws D}.
Implicit Types (v w : vst D) (dl l : list Z).

(** A listed entry is on the disk at its slot. *)
Record listed v dl (dclus : Z) (d : fat_dirent) its1 recs name its2 zs : Prop := {
  li_slots : slots v dl = slots_of (its1 ++ Named recs (d_raw d) name :: its2) ++ zs;
  li_marks : Forall end_mark zs;
  li_items : Forall item_ok (its1 ++ Named recs (d_raw d) name :: its2);
  li_index : d_index d = Z.of_nat (length (slots_of its1 ++ recs));
  li_raw : dirent v dl (d_index d) = d_raw d;
  li_entry : has_entry v dl dclus (d_index d);
  li_small : d_index d < Z.min (nslots v dl) FAT_MAX_DIR_ENTRIES;
  li_fields : d = Dirent name (d_index d) (d_first_index d) (de_clus (d_raw d)) (de_size (d_raw d)) (at_ (d_raw d) DE_ATTR) (d_raw d) }.

Lemma listed_slot v dl dclus d : good_dir v dl dclus -> d ∈ dir_list v dl dclus ->
  exists its1 recs name its2 zs, listed v dl dclus d its1 recs name its2 zs.
Proof.
  intros [Hi Hl Hh [its Ht]] Hd. rewrite (good_list v dl its) in Hd by done.
  destruct (listing_item its 0 d Hd) as (its1 & recs & e & name & its2 & Eits & Ed). cbn [item_entry] in Ed. injection Ed as Ed.
  rewrite Z.add_0_l in Ed. destruct Ht as (Hok & zs & Ess & Hz). subst its.
  assert (Ei : d_index d = Z.of_nat (length (slots_of its1 ++ recs))) by (rewrite <- Ed, length_app; cbn; lia).
  assert (Eraw : d_raw d = e) by by rewrite <- Ed.
  assert (Hlk : slots v dl !! Z.to_nat (d_index d) = Some e).
  { rewrite Ess, Ei, Nat2Z.id, slots_of_app, slots_of_cons. cbn [item_slots]. rewrite <- !app_assoc. rewrite app_assoc.
    rewrite lookup_app_r by lia. by rewrite Nat.sub_diag. }
  pose proof (length_slots v dl Hi) as Hlen. apply lookup_lt_Some in Hlk as Hlt.
  assert (Hdi : dirent v dl (d_index d) = e) by (rewrite slots_lookup in Hlk by (done || lia); by injection Hlk).
  destruct (slots_per_cluster v Hi) as (_ & _ & Eb).
  assert (Hroom : nslots v dl * 32 = room v dl) by (unfold nslots, room; rewrite Eb at 2; lia).
  apply Forall_app in Hok as Hok'. destruct Hok' as [_ Hn]. apply Forall_cons_1 in Hn as [(_ & [He0 He1] & Ha & _) _].
  exists its1, recs, name, its2, zs. split; rewrite ?Eraw; try done.
  - split; [done|done| |by rewrite Hdi]. unfold FAT_MAX_DIR_ENTRIES, FAT_NO_ENTRY in *. lia.
  - lia.
  - rewrite <- Ed at 1. rewrite Ei, <- Ed, length_app, Nat2Z.inj_add. done.
Qed.

Lemma dir_kept_touched v w l dl i :
  (forall x, x ∈ dl -> x ∉ l) -> chain v dl -> 0 <= i -> (i + 1) * 32 <= room v dl ->
  dir_kept v w l dl i -> touched (dirent v dl i) (dirent w dl i).
Proof.
  intros Hx Hl Hi Hr Hk. destruct (Hk Hx Hl Hi Hr) as (Est & Hc & Hb & Ha).
  assert (Hat : forall j, 0 <= j < 32 -> j <> DE_ATTR -> j < 18 -> at_ (dirent w dl i) j = at_ (dirent v dl i) j).
  { intros j Hj Hne Hlt. unfold dirent. rewrite !at_fbytes by lia. apply Hb; lia. }
  unfold DE_ATTR in *. split.
  - assert (Hz : forall u, zlen (dirent u dl i) = 32) by (intros u; apply zlen_fbytes). pose proof (Hz v). pose proof (Hz w).
    apply bytes_ext; [unfold zlen in *; rewrite !length_take; lia|].
    intros j Hj. assert (Hj' : 0 <= j < 11) by (unfold zlen in Hj; rewrite length_take in Hj; lia).
    rewrite <- (Nat2Z.id 11), !at_take by lia. apply Hat; lia.
  - apply Hat; unfold DE_NTRES; lia.
  - unfold dirent. by rewrite !at_fbytes by (unfold DE_ATTR; lia).
Qed.

Lemma slots_touched v w dl i :
  inv v -> inv w -> static w = static v -> 0 <= i < Z.min (nslots v dl) FAT_MAX_DIR_ENTRIES ->
  (forall j, 0 <= j < nslots v dl -> j <> i -> dirent w dl j = dirent v dl j) ->
  slots w dl = <[Z.to_nat i := dirent w dl i]> (slots v dl).
Proof.
  intros Hi Hiw Est Hr Hsame. pose proof (length_slots v dl Hi) as Hlen. pose proof (length_slots w dl Hiw) as Hlenw.
  rewrite (static_nslots v w) in Hlenw by done. apply list_eq. intros j.
  destruct (decide (Z.of_nat j < Z.min (nslots v dl) FAT_MAX_DIR_ENTRIES)) as [Hj|Hj].
  2: { rewrite !lookup_ge_None_2; [done|rewrite length_insert; lia|lia]. }
  assert (Ew : forall u, inv u -> nslots u dl = nslots v dl -> slots u dl !! j = Some (dirent u dl (Z.of_nat j))).
  { intros u Hu Eu. replace j with (Z.to_nat (Z.of_nat j)) at 1 by lia. apply slots_lookup; [done|rewrite Eu; lia|lia]. }
  rewrite (Ew w Hiw (static_nslots v w dl Est)). destruct (decide (j = Z.to_nat i)) as [->|Hne].
  - rewrite list_lookup_insert_eq by lia. by rewrite Z2Nat.id by lia.
  - rewrite list_lookup_insert_ne, (Ew v Hi eq_refl) by done. f_equal. apply Hsame; lia.
Qed.

(** What a commit leaves of a directory. *)
Lemma kept_listing v w l dl dclus d :
  good_dir v dl dclus -> d ∈ dir_list v dl dclus -> (forall x, x ∈ dl -> x ∉ l) -> inv w -> dir_kept v w l dl (d_index d) ->
  good_dir w dl dclus /\
  dir_list w dl dclus = map (refresh (d_index d) (dirent w dl (d_index d))) (dir_list v dl dclus).
Proof.
  intros Hg Hd Hx Hiw Hk. destruct (listed_slot v dl dclus d Hg Hd) as (its1 & recs & name & its2 & zs & Hli).
  pose proof Hg as [Hi Hl Hh _]. destruct Hli as [Es Hz Hok Ei Eraw [_ _ [Hi0 Hroom] _] Hsm _].
  pose proof (dir_kept_touched v w l dl (d_index d) Hx Hl ltac:(lia) Hroom Hk) as Ht. rewrite Eraw in Ht.
  destruct (Hk Hx Hl ltac:(lia) Hroom) as (Est & Hc & Hb & _). set (e' := dirent w dl (d_index d)) in *.
  destruct (slots_per_cluster v Hi) as (_ & _ & Eb).
  assert (Hnr : nslots v dl * 32 = room v dl) by (unfold nslots, room; rewrite Eb at 2; lia).
  assert (Esw : slots w dl = <[Z.to_nat (d_index d) := e']> (slots v dl)).
  { apply slots_touched; [done|done|done|lia|]. intros j Hj Hne. apply dirent_ext. intros k Hk'. apply Hb; unfold DE_ATTR; lia. }
  assert (Eparts : forall e, slots_of (its1 ++ Named recs e name :: its2) ++ zs = (slots_of its1 ++ recs) ++ e :: slots_of its2 ++ zs).
  { intros e. rewrite slots_of_app, slots_of_cons. cbn [item_slots]. by rewrite <- !app_assoc. }
  rewrite Es, Eparts, Ei, Nat2Z.id, insert_app_r_alt, Nat.sub_diag in Esw by done. cbn [insert list_insert] in Esw.
  assert (Ha : at_ (d_raw d) DE_ATTR <> FAT_ATTR_LFN).
  { apply Forall_app in Hok as [_ Hn]. by apply Forall_cons_1 in Hn as [(_ & _ & ? & _) _]. }
  split.
  - split; [done|done|done|]. exists (its1 ++ Named recs e' name :: its2). rewrite Esw.
    change (<[O := e']> (d_raw d :: slots_of its2 ++ zs)) with (e' :: slots_of its2 ++ zs). rewrite <- Eparts.
    eapply tidy_touched; [split; [exact Hok|by exists zs]|done|done].
  - unfold dir_list. rewrite Esw, Es, Eparts. rewrite Ei.
    change (<[O := e']> (d_raw d :: slots_of its2 ++ zs)) with (e' :: slots_of its2 ++ zs).
    rewrite (entries_touched (d_raw d) e' (slots_of its2 ++ zs) Ht Ha). done.
Qed.

Lemma find_refreshed i e' name (ds : list fat_dirent) :
  find (fun d => name_eq_ci (d_name d) name) (map (refresh i e') ds) = refresh i e' <$> find (fun d => name_eq_ci (d_name d) name) ds.
Proof.
  induction ds as [|d ds IH]; [done|]. cbn [map find]. rewrite refresh_name. by destruct (name_eq_ci _ _).
Qed.

End Refresh.
