(* ===== verification/FatNames.v ===== *)
(** fs/fat/fat.c: names and files together. What creating, looking up and deleting a name
    does to the directory on the disk and to the vnodes in memory. *)

From stdpp Require Import gmap.
From S2P Require Import Prelude Bytes Rtc FileSpec Paths Vfs VfsSpec Block RamDisk FatVol FatMount FatFile FatDisk.
From S2P Require Import FatChain FatRw FatEntry FatSpec FatWrite FatTrunc FatDemo FatClaims FatName FatDir.
From S2P Require Import FatNameSpec FatScan FatItems FatPlace FatRoom FatEdit FatDirClaims FatVnode FatCache FatRefresh.

Section Names.
Context {D : Type} `{DiskLaws D}.
Implicit Types (s t u : fatfs D) (v w : vst D) (l dl : list Z) (h : nat -> Z).

Lemma iwp_on_vol {A} (m : io (vst D) A) s Q E (Q' : A -> fatfs D -> Prop) (E' : Z -> fatfs D -> Prop) :
  iwp m (f_vst s) Q E -> (forall a v, Q a v -> Q' a (set_vst v s)) -> (forall rc v, E rc v -> E' rc (set_vst v s)) ->
  iwp (on_vol m) s Q' E'.
Proof. unfold iwp, on_vol. destruct (m (f_vst s)) as [[rc|a] v]; eauto. Qed.

(** *** Slots of a listing *)

Lemma listing_distinct es : forall c (a : list fat_dirent) d b, entries es c = a ++ d :: b ->
  forall d', d' ∈ a ++ b -> d_index d' <> d_index d.
Proof.
  induction es as [|e es IH]; intros c a d b E d' Hd'; cbn [entries] in E; [by destruct a|].
  destruct (judge e _) as [|c'|x c'] eqn:Ej; [by destruct a|by eapply IH|].
  destruct (judge_keeps e _ c' (or_intror (ex_intro _ _ Ej))) as (Ei & _). cbn in Ei. apply judge_slot in Ej. cbn in Ej.
  assert (Hx : forall y, y ∈ entries es c' -> d_index x < d_index y) by (intros y Hy%entries_from; lia).
  destruct a as [|x1 a]; injection E as Ex E.
  - rewrite <- Ex, <- E in *. apply Hx in Hd'. lia.
  - subst x1. apply elem_of_cons in Hd' as [->|Hd']; [|by eapply IH].
    assert (Hd : d ∈ entries es c') by (rewrite E; apply elem_of_app; right; by left). apply Hx in Hd. lia.
Qed.

(** *** Directories and their vnodes *)

(** Vnode [dir] is the directory with chain [dl], in good order. *)
Record dir_vnode s (dir : nat) dl : Prop := {
  dv_alive : alive s dir;
  dv_type : n_type (ino_at s dir) = VNODE_DIR;
  dv_good : good_dir (f_vst s) dl (first_clus (ino_at s dir)) }.

(** The vnodes in memory for entries of the directory are for entries it has. *)
Definition placed s dl (dclus : Z) : Prop :=
  forall n x, f_mem s !! n = Some x -> dir_clus (vn_ino x) = dclus ->
    exists d, d ∈ dir_list (f_vst s) dl dclus /\ d_index d = dir_index (vn_ino x).

(** A new vnode: directories stay, nothing else comes. *)
Record brought s t (n : nat) (i : inode) : Prop := {
  br_vst : f_vst t = f_vst s;
  br_new : f_mem t !! n = Some (Vnode i 1);
  br_dirs : forall k x, f_mem s !! k = Some x -> n_type (vn_ino x) = VNODE_DIR -> f_mem t !! k = Some x }.

Lemma get_new h s dclus de : fsound h s -> icache_find dclus (d_index de) s = None ->
  exists n t, inode_get dclus de s = (inr n, t) /\ brought s t n (fresh_inode dclus de).
Proof.
  intros Hs Ef. unfold inode_get. rewrite Ef. cbn [alloc_vnode]. eexists _, _. split; [reflexivity|].
  unfold icache_trim. destruct (trim_list (f_cache s) (f_cache_n s) (f_mem s)) as [[l k] m] eqn:E.
  destruct (trim_list_spec _ _ _ _ _ _ E) as (gone & _ & _ & _ & Hm & Hg); [apply Hs|intros x; by apply (so_cached _ _ Hs)|].
  split; cbn [f_vst f_mem set_icache set_mem f_next]; [done|by rewrite lookup_insert_eq|].
  intros j x Ex Ht. rewrite lookup_insert_ne.
  - rewrite Hm. case_decide as Hin; [|done]. apply Hg in Hin as (_ & y & Ey & Hy & _). by simplify_eq.
  - pose proof (so_fresh _ _ Hs j ltac:(by exists x)). cbn. lia.
Qed.

Lemma ino_now s n x : f_mem s !! n = Some x -> ino_at s n = vn_ino x.
Proof. intros E. unfold ino_at, vnode_at. by rewrite E. Qed.

Lemma dir_vnode_at s dir dl : dir_vnode s dir dl -> exists x, f_mem s !! dir = Some x /\ ino_at s dir = vn_ino x.
Proof. intros [[x Ex] _ _]. exists x. split; [done|by apply ino_now]. Qed.

(** *** Creating a file *)

(** [n] is the vnode of the new file with entry [d]. *)
Record created s t (dir n : nat) dl dl' (d : fat_dirent) (name : bytes) : Prop := {
  cr_dir : dir_vnode t dir dl';
  cr_clus : first_clus (ino_at t dir) = first_clus (ino_at s dir);
  cr_new : find (fun d => name_eq_ci (d_name d) name) (dir_list (f_vst s) dl (first_clus (ino_at s dir))) = None;
  cr_got : has_got (f_vst s) dl (first_clus (ino_at s dir)) d (f_vst t) dl';
  cr_entry : is_entry d name FAT_ATTR_ARCHIVE 0 0;
  cr_writable : read_only (vol (f_vst t)) = false;
  cr_vnode : f_mem t !! n = Some (Vnode (fresh_inode (first_clus (ino_at s dir)) d) 1) }.

Lemma must_be_new_spec v dl dclus name : good_dir v dl dclus ->
  iwp (must_be_new dclus name) v
    (fun _ w => same v w /\ find (fun d => name_eq_ci (d_name d) name) (dir_list v dl dclus) = None)
    (fun rc w => rc = VFS_EEXIST /\ find (fun d => name_eq_ci (d_name d) name) (dir_list v dl dclus) <> None \/ ~ reliable D).
Proof.
  intros [Hi Hl Hh _]. pose proof (dir_find_spec v dl dclus name Hi Hl Hh) as Hf. unfold iwp, must_be_new in *.
  destruct (fat_dir_find dclus name v) as [[rc|d] w]; [|left; split; [done|]; destruct Hf as [_ ->]; done].
  destruct Hf as [Hs [[-> Hn]|[-> Hr]]]; [by split|]. by right.
Qed.

Lemma good_same v w dl dclus : same v w -> good_dir v dl dclus -> good_dir w dl dclus.
Proof.
  intros Hs [Hi Hl Hh [its Ht]]. split; [apply Hs|by eapply chain_now|done|]. exists its. by rewrite (slots_same v w).
Qed.
Lemma list_same v w dl dclus : same v w -> dir_list w dl dclus = dir_list v dl dclus.
Proof. intros Hs. unfold dir_list. by rewrite (slots_same v w). Qed.

(** The entry that was added has no vnode yet. *)
Lemma got_uncached h s v dl dclus d dl' :
  fsound h s -> has_got v dl dclus d (f_vst s) dl' ->
  (forall n x, f_mem s !! n = Some x -> dir_clus (vn_ino x) = dclus ->
     exists d, d ∈ dir_list v dl dclus /\ d_index d = dir_index (vn_ino x)) ->
  icache_find dclus (d_index d) s = None.
Proof.
  intros Hs [(a & b & E1 & E2) _] Hpl. destruct (icache_find dclus (d_index d) s) as [n|] eqn:Ef; [|done]. exfalso.
  destruct (find_cached _ _ _ _ _ Hs Ef) as (x & Ex & Hk). injection Hk as Hc Hi.
  destruct (Hpl n x Ex Hc) as (d' & Hd' & Hi'). rewrite E1 in Hd'. apply (listing_distinct _ _ _ _ _ E2 d' Hd'). congruence.
Qed.

(** The last steps: the directory's time and the vnode. *)
Lemma create_finish h s dir v dl dclus d dl' ms :
  fsound h s -> dclus = first_clus (ino_at s dir) -> alive s dir -> n_type (ino_at s dir) = VNODE_DIR ->
  good_dir (f_vst s) dl' dclus -> has_got v dl dclus d (f_vst s) dl' ->
  (forall n x, f_mem s !! n = Some x -> dir_clus (vn_ino x) = dclus ->
     exists d, d ∈ dir_list v dl dclus /\ d_index d = dir_index (vn_ino x)) ->
  iwp (inode_get dclus d) (put_ino dir (set_mtime ms (ino_at s dir)) s)
    (fun n t => dir_vnode t dir dl' /\ first_clus (ino_at t dir) = dclus /\ f_vst t = f_vst s /\
       f_mem t !! n = Some (Vnode (fresh_inode dclus d) 1))
    (fun rc t => False).
Proof.
  intros Hs Ecl [x Ex] Hty Hg Hgot Hpl. pose proof (alike_touch s dir ms) as Ha. set (s1 := put_ino _ _ _) in *.
  pose proof (sf_sound _ _ _ (alike_safe h s s1 Hs Ha)) as Hs1.
  assert (Hd1 : f_mem s1 !! dir = Some (Vnode (set_mtime ms (ino_at s dir)) (vn_refs x))).
  { unfold s1, put_ino, upd_vnode. cbn [f_mem set_mem]. by rewrite lookup_alter_eq, Ex. }
  assert (Hnone : icache_find dclus (d_index d) s1 = None).
  { eapply (got_uncached h s1); [done|exact Hgot|]. intros n y Ey Hy. destruct (alike_some _ _ _ _ Ha Ey) as (z & Ez & Hz & _).
    injection Hz as Hz1 Hz2 _. destruct (Hpl n z Ez) as (d' & ? & ?); [congruence|]. exists d'. split; [done|congruence]. }
  destruct (get_new h s1 dclus d Hs1 Hnone) as (n & t & E & [Ev Hn Hdirs]). unfold iwp. rewrite E.
  specialize (Hdirs dir _ Hd1 Hty). pose proof (ino_now _ _ _ Hdirs) as Ei. cbn [vn_ino] in Ei.
  split; [split|]; rewrite ?Ei, ?Ev; [by eexists|done|by rewrite Ecl in Hg|done].
Qed.

Lemma iwp_or_free_0 {A} (m : io (vst D) A) v Q E : iwp m v Q E -> iwp (or_free 0 m) v Q E.
Proof. unfold iwp, or_free. by destruct (m v) as [[rc|a] w]. Qed.

Lemma refused_same v w dl name rc : same v w -> refused w dl name rc -> refused v dl name rc.
Proof.
  intros Hs. pose proof (static_vol _ _ (proj2 (proj1 Hs))) as (_&_&_&_&_&_&_&_&_&Ero&_).
  intros [(-> & Hr)|[->|[-> Hf]]]; [left; by rewrite <- Ero|by right; left|right; right]. split; [done|].
  destruct Hf as [Hf|Hf]; [left; by rewrite <- (static_nslots v w) by apply Hs|right]. intros x Hx He.
  apply (Hf x); [by apply (static_valid v w); [apply Hs|]|]. by rewrite (same_entry v w).
Qed.

Lemma create_file_spec h s dir dl name :
  fsound h s -> dir_vnode s dir dl -> placed s dl (first_clus (ino_at s dir)) -> Forall byte_ok name ->
  iwp (fat_op_create dir name VNODE_FILE) s
    (fun n t => exists d dl', created s t dir n dl dl' d name)
    (fun rc t => reliable D -> rc = VFS_EEXIST \/ refused (f_vst s) dl name rc).
Proof.
  intros Hs [Hal Hty Hg] Hpl Hby. unfold fat_op_create. do 2 apply iwp_bind, iwp_get. rewrite Hty, bool_decide_eq_true_2 by done. cbn [negb].
  destruct (read_only _) eqn:Ero; [apply iwp_fail; intros _; right; left; auto|].
  destruct (fat_name_ok name) eqn:Eok; cbn [negb]; [|apply iwp_fail; intros _; right; left; auto].
  set (dclus := first_clus (ino_at s dir)) in *. set (v := f_vst s) in *.
  apply iwp_bind. eapply iwp_on_vol; [by apply (must_be_new_spec v dl)| |intros rc w [[-> _]|?]; [by left|done]].
  intros [] w [Hsw Hnone]. cbn [new_dir_cluster]. apply iwp_bind. eapply (iwp_on_vol _ _ (fun a w1 => a = 0 /\ w1 = w) (fun _ _ => False)); [done| |done].
  intros ? ? [-> ->]. change (bool_decide (VNODE_FILE = VNODE_DIR)) with false. cbn match zeta.
  pose proof (good_same v w dl dclus Hsw Hg) as Hgw. pose proof Hgw as [Hiw Hlw Hhw [its Htw]].
  apply iwp_bind. eapply iwp_on_vol; [apply iwp_or_free_0, (dir_add_spec w dl its); first [done|by apply inv_aligned|lia|idtac]| |].
  2: { intros rc w2 [_ Hr] Hrel. right. specialize (Hr Hrel). by eapply refused_same. }
  intros d w2 (Hd & dl' & its' & Had). pose proof (added_good w dl its d w2 dl' its' dclus Hhw Had) as Hg2.
  pose proof (added_got w dl its d w2 dl' its' dclus Htw Had) as Hgot2.
  apply iwp_bind. eapply iwp_on_vol; [apply barrier_spec, Hg2| |intros rc w3 (_ & _ & Hr) Hrel; done].
  intros [] w3 Hs3. apply iwp_bind, iwp_set. set (s3 := set_vst w3 _). eapply iwp_mono.
  - apply (create_finish h s3 dir v dl dclus d dl'); [by apply (alike_safe h s s3)|done|done|done|by apply (good_same w2)| |done].
    destruct Hgot2 as [(l1 & l2 & E1 & E2) Hsh]. rewrite (list_same v w) in * by done. unfold has_got. cbn [f_vst s3 set_vst].
    rewrite (list_same w2 w3) by done. split; [by exists l1, l2|done].
  - cbv beta. intros n t (Hdv & Ecl & Ev & Hn). exists d, dl'. split; [done|done|done| |done| |done].
    2: { rewrite Ev. cbn [f_vst s3 set_vst]. rewrite <- Ero. pose proof (proj2 (proj1 (ad_frame _ _ _ _ _ _ _ Had))) as E2'.
      pose proof (proj2 (proj1 Hsw)) as E1'. pose proof (proj2 (proj1 Hs3)) as E3'.
      assert (Est : static w3 = static v) by (etransitivity; [exact E3'|]; etransitivity; [exact E2'|exact E1']). by pose proof (static_vol _ _ Est) as (_&_&_&_&_&_&_&_&_&Er&_). }
    destruct Hgot2 as [(l1 & l2 & E1 & E2) Hsh]. rewrite (list_same v w) in * by done. fold dclus v. rewrite Ev.
    unfold has_got. cbn [f_vst s3 set_vst]. rewrite (list_same w2 w3) by done. split; [by exists l1, l2|done].
  - by intros.
Qed.

(** *** Looking a file up *)

Definition file_entry (d : fat_dirent) : Prop := Z.land (d_attr d) FAT_ATTR_DIRECTORY = 0.

(** The vnode made for an entry describes the file the disk holds there. *)
Lemma fresh_file v l dl c dclus d :
  good_dir v dl dclus -> d ∈ dir_list v dl dclus -> file_entry d ->
  on_disk v l dl dclus (d_index d) c -> (forall x, x ∈ l -> x ∉ dl) -> fat_file (Fst v (fresh_inode dclus d)) l dl c.
Proof.
  intros Hg Hd Hf Ho Hx. destruct (listed_slot v dl dclus d Hg Hd) as (? & ? & name & ? & ? & Hli).
  pose proof (li_fields _ _ _ _ _ _ _ _ _ Hli) as Ed. pose proof (li_raw _ _ _ _ _ _ _ _ _ Hli) as Er. pose proof Ho as [_ _ Ofst Osz _].
  rewrite Er in Ofst, Osz. assert (Ec : d_clus d = de_clus (d_raw d)) by by rewrite Ed at 1.
  assert (Es : d_size d = de_size (d_raw d)) by by rewrite Ed at 1.
  unfold file_entry in Hf. unfold fresh_inode. rewrite Hf. cbn [Z.eqb negb]. split; cbn [fv ino n_type n_size dir_clus dir_index].
  - apply Hg.
  - done.
  - rewrite bool_decide_eq_false_2 by done. congruence.
  - split; [cbn; congruence|done].
  - done.
  - done.
Qed.

Lemma find_listed name (ds : list fat_dirent) d : find (fun d => name_eq_ci (d_name d) name) ds = Some d -> d ∈ ds.
Proof. intros E. apply List.find_some in E as [Hd _]. by apply list_elem_of_In. Qed.

Lemma fat_file_now v w i l dl c : same v w -> fat_file (Fst v i) l dl c -> fat_file (Fst w i) l dl c.
Proof. intros Hs Hf. eapply fat_file_same; [exact Hf|exact Hs|]. split; [apply Hf|done]. Qed.

Lemma lookup_file_spec h s dir dl name d l c :
  fsound h s -> dir_vnode s dir dl -> is_dot name = false ->
  let dclus := first_clus (ino_at s dir) in
  find (fun d => name_eq_ci (d_name d) name) (dir_list (f_vst s) dl dclus) = Some d -> file_entry d ->
  on_disk (f_vst s) l dl dclus (d_index d) c -> (forall x, x ∈ l -> x ∉ dl) ->
  (forall n x, f_mem s !! n = Some x -> key (vn_ino x) = (dclus, d_index d) -> fat_file (Fst (f_vst s) (vn_ino x)) l dl c) ->
  iwp (fat_op_lookup dir name) s
    (fun n t => fat_file (Fst (f_vst t) (ino_at t n)) l dl c)
    (fun rc t => rc = VFS_EINVAL /\ ~ reliable D).
Proof.
  intros Hs [_ Hty Hg] Hdot dclus Hfind Hf Ho Hx Hcached. unfold fat_op_lookup. apply iwp_bind, iwp_get.
  rewrite Hty, Hdot, bool_decide_eq_true_2 by done. cbn [negb]. fold dclus in Hg |- *. pose proof Hg as [Hi Hl Hh _].
  apply iwp_bind. eapply iwp_on_vol; [by apply (dir_find_spec _ dl)| |].
  2: { intros rc w [_ [[_ Hn]|?]]; [congruence|done]. }
  intros d' w [Hw Hd']. assert (d' = d) by congruence. subst d'. clear Hd'.
  set (s1 := set_vst w s). assert (Hs1 : fsound h s1) by by apply (alike_safe h s s1).
  destruct (icache_find dclus (d_index d) s1) as [n|] eqn:Ef.
  - unfold iwp, inode_get. rewrite Ef. destruct (find_cached _ _ _ _ _ Hs1 Ef) as (x & Ex & Hk). rewrite (ino_now s1 n x Ex).
    eapply fat_file_now; [exact Hw|]. by apply (Hcached n).
  - destruct (get_new h s1 dclus d Hs1 Ef) as (n & t & E & [Ev Hn _]). unfold iwp. rewrite E, (ino_now _ _ _ Hn), Ev.
    eapply fat_file_now; [exact Hw|]. eapply fresh_file; [done|by eapply find_listed|done|done|done].
Qed.

(** *** A file by its name *)

Lemma created_file s t dir n dl dl' d name : created s t dir n dl dl' d name ->
  d ∈ dir_list (f_vst t) dl' (first_clus (ino_at s dir)) /\ file_entry d /\
  fat_file (Fst (f_vst t) (ino_at t n)) [] dl' [].
Proof.
  intros [[_ _ Hg] Ecl Hnew [(a & b & E1 & E2) _] (Hn & Ha & Hc & Hz) _ Hv]. rewrite Ecl in Hg.
  assert (Hd : d ∈ dir_list (f_vst t) dl' (first_clus (ino_at s dir))) by (rewrite E2; apply elem_of_app; right; left).
  assert (Hf : file_entry d) by (unfold file_entry; by rewrite Ha). split; [done|]. split; [done|]. rewrite (ino_now _ _ _ Hv). cbn [vn_ino].
  destruct (listed_slot _ _ _ _ Hg Hd) as (? & ? & nm & ? & ? & Hli). pose proof (li_fields _ _ _ _ _ _ _ _ _ Hli) as Ed.
  pose proof (li_raw _ _ _ _ _ _ _ _ _ Hli) as Er.
  apply fresh_file; [done|done|done| |by intros ? ?%elem_of_nil]. split.
  - apply Hli.
  - done.
  - rewrite Er, <- Hc. by rewrite Ed at 2.
  - rewrite Er, zlen_nil, <- Hz. by rewrite Ed at 2.
  - split; [|intros j; rewrite zlen_nil; lia]. rewrite zlen_nil. unfold room. cbn. lia.
Qed.

(** The names of the directory once the file was written. *)
Lemma written_names v dl dclus d name l f :
  good_dir v dl dclus -> find (fun d => name_eq_ci (d_name d) name) (dir_list v dl dclus) = Some d -> file_entry d ->
  (forall x, x ∈ l -> x ∉ dl) -> inv (fv f) -> others_kept v (fv f) l dl (d_index d) ->
  good_dir (fv f) dl dclus /\ exists d', d_index d' = d_index d /\ file_entry d' /\
    find (fun d => name_eq_ci (d_name d) name) (dir_list (fv f) dl dclus) = Some d'.
Proof.
  intros Hg Hfind Hf Hx Hi [_ Hk]. pose proof (find_listed _ _ _ Hfind) as Hd.
  assert (Hx' : forall x, x ∈ dl -> x ∉ l) by (intros x Hin Hl; by apply (Hx x)).
  destruct (kept_listing v (fv f) l dl dclus d Hg Hd Hx' Hi Hk) as [Hg' El]. split; [done|].
  exists (refresh (d_index d) (dirent (fv f) dl (d_index d)) d). split; [apply refresh_index|].
  split; [|by rewrite El, find_refreshed, Hfind].
  destruct (listed_slot v dl dclus d Hg Hd) as (? & ? & ? & ? & ? & Hli). destruct (li_entry _ _ _ _ _ _ _ _ _ Hli) as [Hc _ [Hi0 Hr] _].
  destruct (dir_kept_touched v (fv f) l dl (d_index d) Hx' Hc ltac:(lia) Hr Hk) as [_ _ Ha].
  rewrite (li_raw _ _ _ _ _ _ _ _ _ Hli) in Ha. assert (Ea : at_ (d_raw d) DE_ATTR = d_attr d) by by rewrite (li_fields _ _ _ _ _ _ _ _ _ Hli) at 2.
  unfold file_entry, refresh in *. rewrite Z.eqb_refl. cbn [d_attr]. rewrite Ea in Ha. destruct Ha as [->| ->]; [done|].
  rewrite Z.land_lor_distr_l, Hf. done.
Qed.

Lemma name_ci_spec a : forall b, name_eq_ci a b = true <-> map up a = map up b.
Proof.
  induction a as [|x a IH]; intros [|y b]; cbn [name_eq_ci map]; [done|done|done|]. destruct (Z.eqb_spec (up x) (up y)) as [E|E].
  - rewrite IH, E. split; [by intros ->|by intros [= ->]].
  - split; [done|by intros [= ? ?]].
Qed.
Lemma name_ci_same x a b : name_eq_ci a b = true -> name_eq_ci x a = name_eq_ci x b.
Proof. intros E%name_ci_spec. apply eq_true_iff_eq. by rewrite !name_ci_spec, E. Qed.

Lemma find_ci a b (ds : list fat_dirent) : name_eq_ci a b = true ->
  find (fun d => name_eq_ci (d_name d) b) ds = find (fun d => name_eq_ci (d_name d) a) ds.
Proof. intros E. induction ds as [|d ds IH]; [done|]. cbn [find]. by rewrite IH, (name_ci_same _ _ _ E). Qed.

(** Looking the new file up, in any mix of cases. *)
Lemma created_found s t dir n dl dl' d name name' : created s t dir n dl dl' d name -> name_eq_ci name name' = true ->
  find (fun d => name_eq_ci (d_name d) name') (dir_list (f_vst t) dl' (first_clus (ino_at s dir))) = Some d.
Proof.
  intros [_ _ Hnew [(a & b & E1 & E2) _] (Hn & _) _ _] Hci. rewrite E2. apply find_inserted; [by rewrite Hn|].
  by rewrite <- E1, (find_ci name name').
Qed.

(** *** Deleting a file *)

Lemma frame_slots X v w dl : frame X v w -> inv v -> chain v dl -> (forall x, x ∈ dl -> ~ X x) -> slots w dl = slots v dl.
Proof.
  intros Hf Hi Hl Hx. pose proof Hf as ([Hiw Est] & _). unfold slots. rewrite (static_nslots v w) by done.
  apply map_ext_in. intros i Hin%list_elem_of_In%elem_of_seqZ. apply dirent_ext. intros j Hj.
  destruct (slots_per_cluster v Hi) as (_ & _ & Eb). eapply frame_fbyte; [exact Hf|done|done|done|].
  assert (Hnr : nslots v dl * 32 = room v dl) by (unfold nslots, room; rewrite Eb at 2; lia). lia.
Qed.

(** [t] is [s] without the file of entry [d] with chain [l]. *)
Record deleted_file s t dl l (dclus : Z) (d : fat_dirent) : Prop := {
  df_good : good_dir (f_vst t) dl dclus;
  df_list : exists a b, dir_list (f_vst s) dl dclus = a ++ d :: b /\ dir_list (f_vst t) dl dclus = a ++ b;
  df_free : forall x, x ∈ l -> entry (f_vst t) x = FAT_FREE;
  df_frame : frame (fun x => x ∈ l \/ x ∈ dl) (f_vst s) (f_vst t);
  df_vnode : forall n x, f_mem s !! n = Some x -> key (vn_ino x) = (dclus, d_index d) -> f_mem t !! n = None }.

Lemma drop_vnode_result s n : vn_refs (vnode_at s n) = 1 ->
  iwp (ibind (iset (icache_unlink n)) (fun _ => drop_vnode n)) s
    (fun r t => r = Some tt /\ f_vst t = f_vst s /\ f_mem t !! n = None) (fun _ _ => False).
Proof.
  intros Hr. apply iwp_bind, iwp_set. unfold drop_vnode. apply iwp_bind, iwp_get.
  assert (Em : f_mem (icache_unlink n s) = f_mem s /\ f_vst (icache_unlink n s) = f_vst s) by (unfold icache_unlink; by destruct (unchain _ _)).
  destruct Em as [Em Ev]. assert (Er : vn_refs (vnode_at (icache_unlink n s) n) = 1) by (unfold vnode_at in *; by rewrite Em).
  rewrite Er. cbn [Z.leb Z.compare Z.sub Z.add Z.opp Z.pos_sub Z.eqb]. do 2 apply iwp_bind, iwp_set. apply iwp_ret. split; [done|].
  split; [exact Ev|]. unfold inode_free. cbn [f_mem set_mem]. apply lookup_delete_eq.
Qed.

Lemma key_cached h s dclus i n x : fsound h s -> f_mem s !! n = Some x -> key (vn_ino x) = (dclus, i) -> icache_find dclus i s = Some n.
Proof.
  intros Hs Ex Hk. destruct (icache_find dclus i s) as [m|] eqn:Ef; [|by destruct (find_missing _ _ _ _ _ _ Hs Ef Ex)].
  destruct (find_cached _ _ _ _ _ Hs Ef) as (y & Ey & Hy). f_equal. apply (so_keys _ _ Hs m n y x Ey Ex). congruence.
Qed.

(** Removing the entry and freeing the clusters. *)
Lemma delete_on_disk v dl dclus d l :
  good_dir v dl dclus -> read_only (vol v) = false -> d ∈ dir_list v dl dclus -> chain v l -> d_clus d = default 0 (head l) ->
  (forall x, x ∈ l -> x ∉ dl) ->
  iwp (fat_dir_remove dclus d ;;; fat_free_chain (d_clus d) ;;; fat_barrier)%io v
    (fun _ w => good_dir w dl dclus /\ (exists a b, dir_list v dl dclus = a ++ d :: b /\ dir_list w dl dclus = a ++ b) /\
       (forall x, x ∈ l -> entry w x = FAT_FREE) /\ frame (fun x => x ∈ l \/ x ∈ dl) v w)
    (fun rc w => rc = VFS_EINVAL /\ ~ reliable D).
Proof.
  intros [Hi Hl Hh [its Ht]] Hro Hd Hc Ec Hx. rewrite (good_list v dl its) in * by done.
  eapply iwp_seq; [by apply (dir_remove_spec v dl its)|..]; [|by intros rc w (_ & ?)].
  intros [] w (its' & [Hw Ht' Hli]). pose proof (wi_next _ _ _ Hw) as [Hiw Est]. rewrite Ec.
  pose proof (static_vol _ _ Est) as (_&_&_&_&_&_&_&_&_&Ero&_).
  eapply iwp_seq; [apply (free_chain_spec w l); [done|congruence|by eapply within_chain]|..]; [|by intros rc u (_ & ?)].
  intros [] w2 [Hf Hfree]. pose proof Hf as ([Hi2 _] & _).
  eapply iwp_mono; [by apply barrier_spec|..]; [|by intros rc u (_ & ?)]. intros [] w3 Hs3.
  assert (Hdl : forall x, x ∈ dl -> ~ (x ∈ l)) by (intros x Hin Hl'; by apply (Hx x)).
  assert (Hlw : chain w dl) by by eapply within_chain.
  assert (Esl : slots w3 dl = slots w dl) by (rewrite (slots_same w2 w3) by done; by eapply frame_slots).
  split; [|split; [|split]].
  - split; [apply Hs3|eapply chain_now; [exact Hs3|]; by eapply chain_frame|done|]. exists its'. by rewrite Esl.
  - unfold dir_list at 1. rewrite Esl. fold (dir_list w dl dclus). by rewrite (good_list w dl its').
  - intros x Hin. rewrite (same_entry w2 w3) by done. by apply Hfree.
  - eapply frame_trans; [eapply (within_frame _ v w dl); [done|by right]|].
    eapply frame_trans; [eapply frame_mono; [|exact Hf]; by left|by apply same_frame].
Qed.

Lemma on_vol_three {A B C R} (m1 : io (vst D) A) (m2 : io (vst D) B) (m3 : io (vst D) C) (k : io (fatfs D) R) s Q0 E0 Q (E : Z -> fatfs D -> Prop) :
  iwp (m1 ;;; m2 ;;; m3)%io (f_vst s) Q0 E0 -> (forall a v, Q0 a v -> iwp k (set_vst v s) Q E) ->
  (forall rc v, E0 rc v -> E rc (set_vst v s)) -> iwp (on_vol m1 ;;; on_vol m2 ;;; on_vol m3 ;;; k)%io s Q E.
Proof.
  unfold iwp, ibind, on_vol. intros Hm Hk He. destruct (m1 (f_vst s)) as [[rc|a] v1]; [by apply He|]. cbn [f_vst set_vst].
  destruct (m2 v1) as [[rc|b] v2]; [by apply He|]. cbn [f_vst set_vst]. destruct (m3 v2) as [[rc|c] v3]; [by apply He|]. by apply (Hk c).
Qed.

Lemma unlink_file_spec h s dir dl name d l :
  fsound h s -> dir_vnode s dir dl -> is_dot name = false -> read_only (vol (f_vst s)) = false ->
  let dclus := first_clus (ino_at s dir) in
  find (fun d => name_eq_ci (d_name d) name) (dir_list (f_vst s) dl dclus) = Some d -> file_entry d ->
  chain (f_vst s) l -> d_clus d = default 0 (head l) -> (forall x, x ∈ l -> x ∉ dl) ->
  iwp (fat_op_unlink dir name) s
    (fun r t => r = Some tt /\ deleted_file s t dl l dclus d)
    (fun rc t => rc = VFS_EINVAL /\
       ((exists n x, f_mem s !! n = Some x /\ key (vn_ino x) = (dclus, d_index d) /\ 0 < h n) /\ same (f_vst s) (f_vst t) \/ ~ reliable D)).
Proof.
  intros Hs [_ Hty Hg] Hdot Hro dclus Hfind Hf Hc Ec Hx. unfold fat_op_unlink. do 2 apply iwp_bind, iwp_get.
  rewrite Hty, Hdot, Hro, bool_decide_eq_true_2 by done. cbn [negb]. fold dclus in Hg |- *. pose proof Hg as [Hi Hl Hh _].
  apply iwp_bind. eapply iwp_on_vol; [by apply (dir_find_spec _ dl)| |].
  2: { intros rc w [_ [[_ Hn]|?]]; [congruence|]. split; [tauto|]. right. tauto. }
  intros d' w [Hw Hd']. assert (d' = d) by congruence. subst d'. clear Hd'. unfold file_entry in Hf. rewrite Hf. cbn [Z.eqb negb].
  apply iwp_bind, iwp_ret. set (s1 := set_vst w s). assert (Hs1 : fsound h s1) by by apply (alike_safe h s s1).
  do 2 apply iwp_bind, iwp_get. set (cached := icache_find dclus (d_index d) s1).
  destruct (Z.ltb_spec 1 (match cached with Some n => vn_refs (vnode_at s1 n) | None => 0 end)) as [Ho|Hr].
  { apply iwp_fail. split; [done|]. left. split; [|exact Hw]. destruct cached as [n|] eqn:Ef; [|lia].
    destruct (find_cached _ _ _ _ _ Hs1 Ef) as (x & Ex & Hk). exists n, x. split; [exact Ex|]. split; [done|].
    unfold vnode_at in Ho. rewrite Ex in Ho. cbn in Ho. rewrite (so_refs _ _ Hs1 _ _ Ex) in Ho. lia. }
  destruct (static_vol _ _ (proj2 (proj1 Hw))) as (_&_&_&_&_&_&_&_&_&Ero&_).
  assert (Hd : d ∈ dir_list w dl dclus) by (rewrite (list_same (f_vst s) w) by done; by eapply find_listed).
  eapply on_vol_three; [apply (delete_on_disk w dl dclus d l); [by apply (good_same (f_vst s))|congruence|done|by apply (chain_now (f_vst s))|done|done]| |].
  2: { intros rc w2 [-> Hnr]. split; [done|by right]. }
  intros a w2 (Hg2 & Hli & Hfree & Hfr). apply iwp_bind, iwp_set. set (s2 := put_ino dir _ _).
  assert (A12 : alike s1 s2) by (eapply alike_trans; [apply (alike_vol s1 w2)|apply alike_touch]).
  assert (Hdel : forall t, f_vst t = w2 -> (forall n, cached = Some n -> f_mem t !! n = None) -> deleted_file s t dl l dclus d).
  { intros t Ev Hn. split; rewrite ?Ev; [done|by rewrite <- (list_same (f_vst s) w)|done|eapply frame_trans; [by apply same_frame|done]|].
    intros n x Ex Hk. apply Hn. by apply (key_cached h s1 _ _ n x). }
  destruct cached as [n|] eqn:Ef; [|apply iwp_ret; split; [done|by apply Hdel]].
  destruct (find_cached _ _ _ _ _ Hs1 Ef) as (x & Ex & Hk). pose proof (so_refs _ _ Hs1 _ _ Ex) as Hrx. pose proof (so_pos _ _ Hs1 n).
  unfold vnode_at in Hr. rewrite Ex in Hr. cbn in Hr.
  eapply iwp_mono; [apply (drop_vnode_result s2 n)|intros r t (-> & Ev & Hn); split; [done|]; apply Hdel; [done|by intros ? [= <-]]|done].
  destruct (alike_some _ _ _ _ (alike_sym _ _ A12) Ex) as (y & Ey & _ & Hy). unfold vnode_at. rewrite Ey. cbn. lia.
Qed.

End Names.

(** ** fs/fat/fat.c: what the operations on names promise. *)

Section Claims.
Context {D : Type} `{DiskLaws D}.
Implicit Types (s t u : fatfs D) (dl l : list Z) (h : nat -> Z).

(** The vnodes of [s] for the entry of [i] are [i]. *)
Definition in_step s (i : inode) : Prop :=
  forall n x, f_mem s !! n = Some x -> key (vn_ino x) = key i -> vn_ino x = i.

(** C5: A file is what was written under its name. Create a file in a directory, write to it,
    and look its name up, in any mix of cases: reading the vnode that is found yields the
    bytes that were written. This holds whether the vnode of the file is still cached or was
    evicted and is read back from the directory entry on the disk, and in whatever state the
    rest of the cache is by then. On a disk that works, creating fails only for a name in
    use, a bad name or volume, or lack of room; writing only for lack of room; the rest
    cannot fail. *)
Theorem fat_file_by_name h s dir dl name name' buf len :
  fsound h s -> dir_vnode s dir dl -> placed s dl (first_clus (ino_at s dir)) ->
  Forall byte_ok name -> name_eq_ci name name' = true -> is_dot name' = false ->
  Forall byte_ok buf -> buf <> [] -> 0 <= len ->
  match fat_op_create dir name VNODE_FILE s with
  | (inl rc, _) => reliable D -> rc = VFS_EEXIST \/ refused (f_vst s) dl name rc
  | (inr n, t) =>
      match on_file n (fat_op_write buf 0) t with
      | (inl rc, _) => reliable D -> rc = VFS_ENOSPC
      | (inr k, u) => k = zlen buf /\
          forall h' s' dir', f_vst s' = f_vst u -> fsound h' s' -> in_step s' (ino_at u n) -> alive s' dir' ->
            n_type (ino_at s' dir') = VNODE_DIR -> first_clus (ino_at s' dir') = first_clus (ino_at s dir) ->
            match fat_op_lookup dir' name' s' with
            | (inl rc, _) => rc = VFS_EINVAL /\ ~ reliable D
            | (inr n', t') =>
                match on_file n' (fat_op_read 0 len) t' with
                | (inl rc, _) => rc = VFS_EINVAL /\ ~ reliable D
                | (inr b, _) => b = take (Z.to_nat len) buf
                end
            end
      end
  end.
Proof.
  intros Hs Hdv Hpl Hby Hci Hdot Hbuf Hne Hlen.
  pose proof (create_file_spec h s dir dl name Hs Hdv Hpl Hby) as Hc. unfold iwp in Hc.
  destruct (fat_op_create dir name VNODE_FILE s) as [[rc|n] t]; [done|]. destruct Hc as (d & dl' & Hcr).
  destruct (created_file s t dir n dl dl' d name Hcr) as (Hd & Hf & Hff). pose proof (created_found s t dir n dl dl' d name name' Hcr Hci) as Hfind.
  pose proof Hcr as [[_ _ Hg] Ecl _ _ _ Hro Hvn]. rewrite Ecl in Hg. set (dclus := first_clus (ino_at s dir)) in *.
  pose proof (ino_now _ _ _ Hvn) as Ein. cbn [vn_ino] in Ein.
  assert (Hz : zlen buf <> 0) by (destruct buf; [done|]; rewrite zlen_cons; pose proof (zlen_nonneg buf); lia).
  pose proof (ident_write buf 0 (Fst (f_vst t) (ino_at t n))) as Hid. unfold on_file. pose proof (zlen_nonneg buf).
  destruct (Z.ltb_spec FAT_MAX_FILE (zlen buf)) as [Hbig|Hfit].
  { unfold fat_op_write, ibind, iget, the_vol. cbn [fv]. rewrite (ff_type _ _ _ _ Hff), Hro, bool_decide_eq_true_2, (proj2 (Z.eqb_neq _ _) Hz) by done.
    cbn [negb]. by replace ((FAT_MAX_FILE <? 0) || (FAT_MAX_FILE - 0 <? zlen buf)) with true by (unfold FAT_MAX_FILE in *; lia). }
  pose proof (write_spec _ [] dl' [] buf 0 Hff Hro Hbuf Hne ltac:(lia) ltac:(done) ltac:(lia) ltac:(done)) as Hw. unfold iwp in Hw.
  destruct (fat_op_write buf 0 _) as [[rc|k] f]; [by intros Hrel; apply Hw|]. destruct Hw as (-> & [Hk _ _] & new & Hfw). split; [done|]. set (u := put_ino n (ino f) (set_vst (fv f) t)).
  assert (Eu : ino_at u n = ino f).
  { unfold ino_at, vnode_at, u, put_ino, upd_vnode. cbn [f_mem set_mem set_vst]. by rewrite lookup_alter_eq, Hvn. }
  cbn [snd ino] in Hid. rewrite Ein in Hid, Hk. injection Hid as Eic Eii _. cbn [dir_clus fresh_inode] in Eic. cbn [dir_index fresh_inode] in Eii, Hk.
  change (f_write [] 0 buf) with (@nil Z ++ buf ++ drop (0 + length buf) []) in Hfw. rewrite drop_nil, app_nil_r in Hfw. cbn [app] in Hfw.
  destruct (written_names (f_vst t) dl' dclus d name' [] f Hg Hfind Hf) as (Hgf & d' & Ed' & Hf' & Hfind'); [by intros ? ?%elem_of_nil|apply Hfw|done|].
  intros h' s' dir' Ev Hs' Hst Hal Hty Hcl. cbn [f_vst u put_ino upd_vnode set_mem set_vst] in Ev.
  assert (Hdv' : dir_vnode s' dir' dl') by (split; [done|done|by rewrite Ev, Hcl]).
  pose proof (lookup_file_spec h' s' dir' dl' name' d' new buf Hs' Hdv' Hdot) as Hl. rewrite Hcl, Ev, Ed' in Hl.
  assert (Hod : on_disk (fv f) new dl' dclus (d_index d) buf) by (pose proof (ff_disk _ _ _ _ Hfw) as Ho; by rewrite Eic, Eii in Ho).
  specialize (Hl Hfind' Hf' Hod (ff_apart _ _ _ _ Hfw)). unfold iwp in Hl.
  assert (Hst' : forall n x, f_mem s' !! n = Some x -> key (vn_ino x) = (dclus, d_index d) -> fat_file (Fst (fv f) (vn_ino x)) new dl' buf).
  { intros m x Ex Hkx. rewrite (Hst m x Ex), Eu; [by destruct f|]. rewrite Eu. unfold key at 2. by rewrite Eic, Eii. }
  specialize (Hl Hst'). destruct (fat_op_lookup dir' name' s') as [[rc|n'] t']; [done|].
  pose proof (read_spec _ new dl' buf 0 len Hl ltac:(lia) Hlen) as Hr. unfold on_file, iwp in *.
  destruct (fat_op_read 0 len _) as [[rc|b] g]; [tauto|]. destruct Hr as [-> _]. done.
Qed.

(** Another file of the directory, on other clusters, is as it was. *)
Lemma deleted_others s t dl l dclus d d2 l2 c2 :
  good_dir (f_vst s) dl dclus -> deleted_file s t dl l dclus d -> d2 ∈ dir_list (f_vst s) dl dclus -> d2 <> d ->
  on_disk (f_vst s) l2 dl dclus (d_index d2) c2 -> (forall x, x ∈ l2 -> (x ∉ l) /\ x ∉ dl) ->
  on_disk (f_vst t) l2 dl dclus (d_index d2) c2.
Proof.
  intros Hg [Hg' (a & b & E1 & E2) _ Hf _] Hd2 Hne Ho Hx.
  assert (Hd2' : d2 ∈ dir_list (f_vst t) dl dclus).
  { rewrite E2. rewrite E1 in Hd2. apply elem_of_app in Hd2 as [?|Hd2]; apply elem_of_app; [by left|right].
    by apply elem_of_cons in Hd2 as [?|?]. }
  destruct (listed_slot _ _ _ _ Hg Hd2) as (? & ? & ? & ? & ? & Hli). destruct (listed_slot _ _ _ _ Hg' Hd2') as (? & ? & ? & ? & ? & Hli').
  pose proof (li_raw _ _ _ _ _ _ _ _ _ Hli) as Er. pose proof (li_raw _ _ _ _ _ _ _ _ _ Hli') as Er'.
  destruct Ho as [_ Hc Hfst Hsz Hby]. assert (Hno : forall x, x ∈ l2 -> ~ (x ∈ l \/ x ∈ dl)) by (intros y Hy; apply Hx in Hy; tauto).
  rewrite Er in Hfst, Hsz. split; rewrite ?Er'; [apply Hli'|by eapply chain_frame|done|done|].
  pose proof Hf as ([_ Est] & _). eapply holds_ext; [exact Est|exact Hby|]. destruct Hby as [Hr _]. intros j Hj.
  eapply frame_fbyte; [exact Hf|apply Hg|done|done|lia].
Qed.

(** C23: fat_op_unlink of a file takes exactly its name out of the directory, frees exactly
    its clusters and its vnode, and leaves every other file of the directory as it was. A
    file that is open is refused and nothing happens; on a disk that works that is the only
    way it fails. *)
Theorem fat_unlink_deletes h s dir dl name d l :
  fsound h s -> dir_vnode s dir dl -> is_dot name = false -> read_only (vol (f_vst s)) = false ->
  let dclus := first_clus (ino_at s dir) in
  find (fun d => name_eq_ci (d_name d) name) (dir_list (f_vst s) dl dclus) = Some d -> file_entry d ->
  chain (f_vst s) l -> d_clus d = default 0 (head l) -> (forall x, x ∈ l -> x ∉ dl) ->
  let is_open := exists n x, f_mem s !! n = Some x /\ key (vn_ino x) = (dclus, d_index d) /\ 0 < h n in
  match fat_op_unlink dir name s with
  | (inr r, t) => r = Some tt /\ ~ is_open /\ deleted_file s t dl l dclus d /\
      forall d2 l2 c2, d2 ∈ dir_list (f_vst s) dl dclus -> d2 <> d -> on_disk (f_vst s) l2 dl dclus (d_index d2) c2 ->
        (forall x, x ∈ l2 -> (x ∉ l) /\ x ∉ dl) -> on_disk (f_vst t) l2 dl dclus (d_index d2) c2
  | (inl rc, t) => rc = VFS_EINVAL /\ (is_open /\ same (f_vst s) (f_vst t) \/ ~ reliable D)
  end.
Proof.
  intros Hs Hdv Hdot Hro dclus Hfind Hf Hc Ec Hx is_open.
  pose proof (unlink_file_spec h s dir dl name d l Hs Hdv Hdot Hro Hfind Hf Hc Ec Hx) as Hu.
  pose proof (unlink_safe h s dir name Hs) as Hsafe. unfold iwp in *. destruct (fat_op_unlink dir name s) as [[rc|r] t]; [done|].
  destruct Hu as [-> Hdel]. split; [done|]. split.
  - intros (n & x & Ex & Hk & Hn). destruct Hsafe as [[Hst _ _] _]. destruct (so_held _ _ Hst n Hn) as [y Ey].
    by rewrite (df_vnode _ _ _ _ _ _ Hdel n x Ex Hk) in Ey.
  - split; [done|]. intros d2 l2 c2 Hd2 Hne Ho Hx2. eapply deleted_others; [apply Hdv|done|done|done|done|done].
Qed.

End Claims.

(** *** Runs *)

(** The volume [v] mounted, nothing but the root in memory. *)
Definition demo_mounted (v : vst ramdisk) : fatfs ramdisk := FatFs v {[ O := Vnode (root_inode (vol v) 1000) 1 ]} [O] 1 1 false.

Definition nobody (n : nat) : Z := 0.

Lemma demo_mounted_sound v : fsound nobody (demo_mounted v).
Proof.
  assert (Hone : forall n x, f_mem (demo_mounted v) !! n = Some x -> n = O /\ x = Vnode (root_inode (vol v) 1000) 1).
  { intros n x E. cbn [f_mem demo_mounted] in E. by apply lookup_singleton_Some in E as [<- <-]. }
  split; unfold nobody; try done.
  - apply NoDup_singleton.
  - intros n. cbn [f_cache demo_mounted]. rewrite list_elem_of_singleton. split; [intros ->; by eexists|intros [x Ex]; by apply Hone in Ex as [-> _]].
  - intros n [x Ex]. apply Hone in Ex as [-> _]. cbn. lia.
  - intros a b x y Ea Eb _. apply Hone in Ea as [-> _], Eb as [-> _]. done.
  - intros n x Ex. by apply Hone in Ex as [_ ->].
Qed.

Lemma demo_dir v dl : root_clus (vol v) = 2 -> good_dir v dl 2 -> dir_vnode (demo_mounted v) O dl.
Proof. intros E Hg. split; [by eexists|done|]. change (first_clus _) with (root_clus (vol v)). by rewrite E. Qed.

Lemma demo_placed v dl : root_clus (vol v) = 2 -> placed (demo_mounted v) dl (first_clus (ino_at (demo_mounted v) O)).
Proof.
  intros E n x Ex. cbn [f_mem demo_mounted] in Ex. apply lookup_singleton_Some in Ex as [<- <-].
  change (first_clus _) with (root_clus (vol v)). rewrite E. done.
Qed.

Lemma fat_file_by_name_witness :
  exists n t u n' t', fat_op_create O demo_name VNODE_FILE (demo_mounted demo_volume) = (inr n, t) /\
    on_file n (fat_op_write demo_text 0) t = (inr 5, u) /\ fat_op_lookup O (lit "HELLO World.txt") u = (inr n', t') /\
    match on_file n' (fat_op_read 0 4) t' with
    | (inr b, _) => b = lit "hell" | (inl rc, _) => rc = VFS_EINVAL /\ ~ reliable ramdisk end.
Proof.
  set (s := demo_mounted demo_volume). pose proof (demo_mounted_sound demo_volume) as Hs. fold s in Hs.
  assert (Hbuf : Forall byte_ok demo_text) by (repeat apply Forall_cons_2; try apply Forall_nil_2; vm_compute; split; discriminate || reflexivity).
  pose proof (fat_file_by_name nobody s O [2] demo_name (lit "HELLO World.txt") demo_text 4 Hs
    (demo_dir demo_volume [2] eq_refl demo_good) (demo_placed demo_volume [2] eq_refl) demo_bytes eq_refl eq_refl Hbuf ltac:(discriminate) ltac:(lia)) as Ht.
  pose proof (create_safe nobody s O demo_name VNODE_FILE Hs) as Hc. unfold iwp in Hc.
  assert (E1 : fst (fat_op_create O demo_name VNODE_FILE s) = inr 1%nat) by (vm_compute; reflexivity).
  assert (E2 : fst (on_file 1 (fat_op_write demo_text 0) (snd (fat_op_create O demo_name VNODE_FILE s))) = inr 5) by (vm_compute; reflexivity).
  set (u := snd (on_file 1 (fat_op_write demo_text 0) (snd (fat_op_create O demo_name VNODE_FILE s)))).
  assert (E3 : fst (fat_op_lookup O (lit "HELLO World.txt") u) = inr 1%nat) by (vm_compute; reflexivity).
  assert (Eu : alive u 1 /\ alive u O /\ n_type (ino_at u O) = VNODE_DIR /\ first_clus (ino_at u O) = 2) by (split; [vm_compute; eauto|split; [vm_compute; eauto|vm_compute; auto]]).
  revert Ht Hc E1 E2 E3 Eu. unfold u. clear u. generalize (fat_op_create O demo_name VNODE_FILE s). intros [r t] Ht Hc E1 E2 E3 Eu.
  cbn [fst snd] in *. subst r. destruct Hc as [Hsf _]. pose proof (alike_file 1 (fat_op_write demo_text 0) t (ident_write _ _)) as Ha.
  destruct (on_file 1 (fat_op_write demo_text 0) t) as [r u] eqn:Eo. destruct Eu as ([y Ey] & Hal & Hty & Hcl). cbn [fst snd] in *. subst r.
  destruct Ht as [_ Ht]. pose proof (sf_sound _ _ _ (alike_safe _ _ _ (sf_sound _ _ _ Hsf) Ha)) as Hsu.
  assert (Hst : in_step u (ino_at u 1)).
  { intros n x Ex Hk. rewrite (ino_now u 1 y Ey) in *. pose proof (so_keys _ _ Hsu n 1%nat x y Ex Ey Hk). subst n. congruence. }
  specialize (Ht nobody u O eq_refl Hsu Hst Hal Hty Hcl). destruct (fat_op_lookup O (lit "HELLO World.txt") u) as [r t'] eqn:El.
  cbn [fst] in E3. subst r. exists 1%nat, t, u, 1%nat, t'. split; [reflexivity|]. split; [exact Eo|]. split; [exact El|].
  exact Ht.
Defined.

(** The entry of the volume with one file. *)
Lemma demo_named_find dl : good_dir demo_named dl 2 ->
  find (fun d => name_eq_ci (d_name d) demo_name) (dir_list demo_named dl 2) = Some demo_entry.
Proof.
  intros [Hi Hl Hh _]. pose proof (dir_find_spec demo_named dl 2 demo_name Hi Hl Hh) as Hf. unfold iwp in Hf.
  assert (E : fst (fat_dir_find 2 demo_name demo_named) = inr demo_entry) by (vm_compute; reflexivity).
  revert Hf E. generalize (fat_dir_find 2 demo_name demo_named). intros [r w] Hf E. cbn [fst] in E. subst r. apply Hf.
Qed.

Lemma fat_unlink_deletes_witness :
  exists dl t, fat_op_unlink O demo_name (demo_mounted demo_named) = (inr (Some tt), t) /\
    deleted_file (demo_mounted demo_named) t dl [] 2 demo_entry.
Proof.
  destruct demo_named_good as (dl & Hg & _). set (s := demo_mounted demo_named).
  pose proof (fat_unlink_deletes nobody s O dl demo_name demo_entry [] (demo_mounted_sound demo_named) (demo_dir demo_named dl eq_refl Hg)
    eq_refl eq_refl (demo_named_find dl Hg) eq_refl I eq_refl) as Ht.
  assert (Hno : forall x : Z, x ∈ [] -> x ∉ dl) by (intros x Hx; inversion Hx). specialize (Ht Hno). cbv zeta in Ht.
  assert (E : fst (fat_op_unlink O demo_name s) = inr (Some tt)) by (vm_compute; reflexivity).
  revert Ht E. generalize (fat_op_unlink O demo_name s). intros [r t] Ht E. cbn [fst] in E. subst r.
  exists dl, t. split; [reflexivity|]. destruct Ht as (_ & _ & Hd & _). exact Hd.
Defined.
