(* ===== verification/Dvm.v ===== *)
(** vm/dvm.c, the driver VM, part 1: programs and their validator, policies and
    their checks. Diagnostic texts (the messages of traps and refusals) are not
    modelled; every decision that produces one is. *)

From S2P Require Import Prelude Bytes Paths.

(** ** Limits (include/dvm.h) *)

Definition DVM_NREGS := 16.
Definition DVM_MAX_INSNS := 256.
Definition DVM_MAX_LABELS := 64.
Definition DVM_MAX_STRINGS := 32.
Definition DVM_STRPOOL := 512.
Definition DVM_DSTACK := 32.
Definition DVM_CSTACK := 16.
Definition DVM_DMA_SIZE := 0x40000.
Definition DVM_DMA_GUARD := 0x10000.
Definition DVM_MEM_SIZE := 0x10000.
Definition DVM_PATH_MAX := 96.
Definition DVM_SAY_MAX := 160.
Definition DVM_MAX_PORT_RANGES := 8.
Definition DVM_MAX_MMIO_WINS := 8.
Definition DVM_MAX_PCI_FNS := 8.
Definition DVM_NOREG := 0xFF.
Definition FETCH_URL_MAX := 2048.

Definition CEIL_STEPS := 5000000.
Definition CEIL_IO := 1000000.
Definition CEIL_DELAY_US := 2000000.
Definition CEIL_SINGLE_US := 1000000.
Definition CEIL_PRINTS := 4096.
Definition CEIL_TRACE := 100000.
Definition CEIL_DMA_OPS := DVM_DMA_SIZE.
Definition CEIL_MEM_BYTES := 0x4000000.
Definition CEIL_SYS := 4096.
Definition MMIO_TOP := 0x100000000.
Definition DVM_PLATFORM_LO := 0xFEC00000.
Definition DVM_PLATFORM_HI := 0xFEF00000.

Inductive dvm_status :=
  | DVM_OK | DVM_TRAP_ABORT | DVM_TRAP_STEPS | DVM_TRAP_IO_BUDGET
  | DVM_TRAP_DELAY_BUDGET | DVM_TRAP_PRINT_BUDGET | DVM_TRAP_PORT_DENIED
  | DVM_TRAP_MMIO_DENIED | DVM_TRAP_PCI_DENIED | DVM_TRAP_ALIGN | DVM_TRAP_RANGE
  | DVM_TRAP_PC | DVM_TRAP_STACK | DVM_TRAP_DIV0 | DVM_TRAP_BADOP | DVM_TRAP_NOIO
  | DVM_TRAP_POLICY | DVM_TRAP_DMA_BUDGET | DVM_TRAP_MEM | DVM_TRAP_MEM_BUDGET
  | DVM_TRAP_SYS_DENIED | DVM_TRAP_SYS_BUDGET | DVM_TRAP_REENTRY.
#[export] Instance dvm_status_eq : EqDecision dvm_status.
Proof. solve_decision. Defined.

(** ** Opcodes *)

Inductive dvm_op :=
  | HALT | ABORT | NOP | MOV
  | ADD | SUB | MUL | DIV | MOD | AND | OR | XOR | NOT | SHL | SHR
  | CMP | TEST
  | JMP | BEQ | BNE | BLT | BLE | BGT | BGE
  | CALL | RET | PUSH | POP
  | OUT8 | OUT16 | OUT32 | IN8 | IN16 | IN32
  | LD8 | LD16 | LD32 | ST8 | ST16 | ST32
  | PCICFG | DELAY | PRINT
  | MLD8 | MLD16 | MLD32 | MLD64 | MST8 | MST16 | MST32 | MST64
  | MSTR | MCPY | MSET | MCMP | MFIND | MCHR | MATOI | MITOA
  | SYS.
#[export] Instance dvm_op_eq : EqDecision dvm_op.
Proof. solve_decision. Defined.

(** The numbering of the enum. *)
Definition op_table : list dvm_op :=
  [HALT; ABORT; NOP; MOV; ADD; SUB; MUL; DIV; MOD; AND; OR; XOR; NOT; SHL; SHR;
   CMP; TEST; JMP; BEQ; BNE; BLT; BLE; BGT; BGE; CALL; RET; PUSH; POP;
   OUT8; OUT16; OUT32; IN8; IN16; IN32; LD8; LD16; LD32; ST8; ST16; ST32;
   PCICFG; DELAY; PRINT; MLD8; MLD16; MLD32; MLD64; MST8; MST16; MST32; MST64;
   MSTR; MCPY; MSET; MCMP; MFIND; MCHR; MATOI; MITOA; SYS].
Definition op_of (n : Z) : option dvm_op := if n <? 0 then None else op_table !! Z.to_nat n.

Inductive fmt :=
  | F_NONE | F_STR | F_STR_OPT_A | F_RD_A | F_RD_A_B | F_A_B | F_A | F_RD | F_LBL
  | F_PORT_A | F_RD_PORT | F_RD_ADDR | F_ADDR_A | F_RD_BDF_OFF
  | F_RD_A_B_C | F_A_B_C | F_RD_STR_A | F_RD_STR_A_B | F_SYS.

Definition op_info (o : dvm_op) : fmt :=
  match o with
  | HALT | NOP | RET => F_NONE
  | ABORT => F_STR
  | MOV | NOT => F_RD_A
  | ADD | SUB | MUL | DIV | MOD | AND | OR | XOR | SHL | SHR => F_RD_A_B
  | CMP | TEST => F_A_B
  | JMP | BEQ | BNE | BLT | BLE | BGT | BGE | CALL => F_LBL
  | PUSH | DELAY => F_A
  | POP => F_RD
  | OUT8 | OUT16 | OUT32 => F_PORT_A
  | IN8 | IN16 | IN32 => F_RD_PORT
  | LD8 | LD16 | LD32 | MLD8 | MLD16 | MLD32 | MLD64 => F_RD_ADDR
  | ST8 | ST16 | ST32 | MST8 | MST16 | MST32 | MST64 => F_ADDR_A
  | PCICFG => F_RD_BDF_OFF
  | PRINT => F_STR_OPT_A
  | MSTR => F_RD_STR_A
  | MCPY | MSET | MCHR | MATOI | MITOA => F_RD_A_B_C
  | MCMP => F_A_B_C
  | MFIND => F_RD_STR_A_B
  | SYS => F_SYS
  end.

Inductive dvm_sys_nr :=
  | SYS_CON_WRITE | SYS_FS_READ | SYS_FS_WRITE | SYS_FS_SIZE | SYS_AUDIO_TONE
  | SYS_TIME_MS | SYS_NET_FETCH.
Definition sys_table : list dvm_sys_nr :=
  [SYS_CON_WRITE; SYS_FS_READ; SYS_FS_WRITE; SYS_FS_SIZE; SYS_AUDIO_TONE; SYS_TIME_MS;
   SYS_NET_FETCH].
Definition DVM_SYS__COUNT := 7.
Definition sys_of (n : Z) : option dvm_sys_nr := if n <? 0 then None else sys_table !! Z.to_nat n.

Definition sys_arity (s : dvm_sys_nr) : Z :=
  match s with
  | SYS_CON_WRITE | SYS_FS_SIZE | SYS_AUDIO_TONE => 2
  | SYS_FS_READ | SYS_FS_WRITE | SYS_NET_FETCH => 4
  | SYS_TIME_MS => 0
  end.
Definition dvm_sys_arity (n : Z) : Z :=
  match sys_of n with Some s => sys_arity s | None => -1 end.
Definition sys_is_fs (s : dvm_sys_nr) : bool :=
  match s with SYS_FS_READ | SYS_FS_WRITE | SYS_FS_SIZE => true | _ => false end.

(** ** Programs *)

Definition O_NONE := 0.
Definition O_REG := 1.
Definition O_IMM := 2.
Definition O_PC := 3.
Definition O_STR := 4.

(** [kind[3]] and [val[3]] are lists of three. *)
Record dvm_insn := Insn {
  iop : Z; dst : Z; kind : list Z; iline : Z; val : list Z }.

Definition at_ (l : list Z) (k : Z) : Z := nth (Z.to_nat k) l 0.
Definition kind_at (i : dvm_insn) (k : Z) : Z := at_ (kind i) k.
Definition val_at (i : dvm_insn) (k : Z) : Z := at_ (val i) k.

(** Arrays are the lists of their elements; the counts say how much of them is in
    use. Labels only serve listings; their count is validated. *)
Record dvm_program := Program {
  insn : list dvm_insn; ninsn : Z; nlabel : Z;
  strpool : bytes; stroff : list Z; nstr : Z; strused : Z }.

Definition str_at (p : dvm_program) (idx : Z) : bytes :=
  if nstr p <=? idx then []
  else let off := at_ (stroff p) idx in
       if DVM_STRPOOL <=? off then [] else cstr (drop (Z.to_nat off) (strpool p)).

(** ** The validator *)

Definition kind_is_value (k : Z) : bool := (k =? O_NONE) || (k =? O_REG) || (k =? O_IMM).

Definition fmt_wants_dst (f : fmt) : bool :=
  match f with
  | F_RD | F_RD_A | F_RD_A_B | F_RD_PORT | F_RD_ADDR | F_RD_BDF_OFF | F_RD_A_B_C
  | F_RD_STR_A | F_RD_STR_A_B | F_SYS => true
  | _ => false
  end.
Definition fmt_wants_str (f : fmt) : bool :=
  match f with F_STR | F_STR_OPT_A | F_RD_STR_A | F_RD_STR_A_B => true | _ => false end.
Definition is_lbl (f : fmt) : bool := match f with F_LBL => true | _ => false end.
Definition is_str_opt (f : fmt) : bool := match f with F_STR_OPT_A => true | _ => false end.
Definition is_sys (f : fmt) : bool := match f with F_SYS => true | _ => false end.

(** The first of the two operand loops: a branch target only in slot 0 of a
    branch, a string only in slot 0 of an instruction that takes one. *)
Definition kind_fits (f : fmt) (i : dvm_insn) (k : Z) : bool :=
  let is_pc := kind_at i k =? O_PC in
  let is_str := kind_at i k =? O_STR in
  negb ((is_pc && negb (is_lbl f && (k =? 0))) ||
        (is_str && negb (fmt_wants_str f && (k =? 0))) ||
        (negb is_pc && negb is_str && negb (kind_is_value (kind_at i k)))).

(** The second: the value of each operand against what it indexes. *)
Definition operand_check (p : dvm_program) (i : dvm_insn) (k : Z) : dvm_status :=
  let kd := kind_at i k in
  let v := val_at i k in
  if (kd =? O_NONE) || (kd =? O_IMM) then DVM_OK
  else if kd =? O_REG then if DVM_NREGS <=? v then DVM_TRAP_RANGE else DVM_OK
  else if kd =? O_PC then if ninsn p <=? v then DVM_TRAP_PC else DVM_OK
  else if kd =? O_STR then
    if (nstr p <=? v) || (DVM_STRPOOL <=? at_ (stroff p) v) then DVM_TRAP_BADOP else DVM_OK
  else DVM_TRAP_BADOP.

(** The first check that does not return DVM_OK decides. *)
Fixpoint first_bad (cs : list dvm_status) : dvm_status :=
  match cs with
  | [] => DVM_OK
  | c :: cs => if bool_decide (c = DVM_OK) then first_bad cs else c
  end.

Definition reject (bad : bool) (s : dvm_status) : dvm_status := if bad then s else DVM_OK.

Definition insn_check (p : dvm_program) (i : dvm_insn) : dvm_status :=
  match op_of (iop i) with
  | None => DVM_TRAP_BADOP
  | Some o =>
      let f := op_info o in
      first_bad
        [ reject (negb (dst i =? DVM_NOREG) && (DVM_NREGS <=? dst i)) DVM_TRAP_RANGE;
          reject (fmt_wants_dst f && (dst i =? DVM_NOREG)) DVM_TRAP_BADOP;
          reject (negb (kind_fits f i 0)) DVM_TRAP_BADOP;
          reject (negb (kind_fits f i 1)) DVM_TRAP_BADOP;
          reject (negb (kind_fits f i 2)) DVM_TRAP_BADOP;
          reject (is_lbl f && negb (kind_at i 0 =? O_PC)) DVM_TRAP_BADOP;
          reject (negb (is_str_opt f) && fmt_wants_str f && negb (kind_at i 0 =? O_STR))
            DVM_TRAP_BADOP;
          reject (is_sys f && (negb (kind_at i 0 =? O_IMM) || (DVM_SYS__COUNT <=? val_at i 0)))
            DVM_TRAP_BADOP;
          operand_check p i 0; operand_check p i 1; operand_check p i 2 ]
  end.

(** A string is terminated when a NUL follows inside the pool. *)
Definition str_terminated (p : dvm_program) (off : Z) : bool :=
  existsb (fun c => c =? 0) (drop (Z.to_nat off) (strpool p)).

Definition dvm_program_validate (p : dvm_program) : dvm_status :=
  if (ninsn p =? 0) || (DVM_MAX_INSNS <? ninsn p) then DVM_TRAP_BADOP
  else if (DVM_MAX_STRINGS <? nstr p) || (DVM_STRPOOL <? strused p) || (DVM_MAX_LABELS <? nlabel p)
  then DVM_TRAP_BADOP
  else
    match first_bad (insn_check p <$> take (Z.to_nat (ninsn p)) (insn p)) with
    | DVM_OK =>
        if forallb (str_terminated p) (take (Z.to_nat (nstr p)) (stroff p))
        then DVM_OK else DVM_TRAP_BADOP
    | s => s
    end.

(** ** Policies *)

Definition DVM_MMIO_R := 1.
Definition DVM_MMIO_W := 2.
Definition DVM_MMIO_RW := 3.

Record port_range := Ports { lo : Z; hi : Z }.
Record mmio_win := Win { wbase : Z; wsize : Z; wflags : Z }.
Record pci_fn := Pci { bus : Z; pdev : Z; fn : Z }.

(** A table and its count are one list. [trace] is 0 (off), 1 (io) or 2 (all). *)
Record dvm_policy := Policy {
  port : list port_range; mmio : list mmio_win; pci : list pci_fn;
  dma_base : Z; dma_size : Z; sys_allow : Z; fs_root : bytes;
  max_steps : Z; max_io : Z; max_dma_ops : Z; max_mem_bytes : Z; max_sys : Z;
  max_delay_us : Z; max_single_delay_us : Z; max_prints : Z; max_trace : Z; trace : Z }.

Definition dvm_policy_init : dvm_policy :=
  Policy [] [] [] 0 0 0 (replicate (Z.to_nat DVM_PATH_MAX) 0)
    100000 4096 (DVM_DMA_SIZE / 2) (64 * DVM_MEM_SIZE) 64 200000 50000 64 512 1.

Definition set_port (l : list port_range) (p : dvm_policy) : dvm_policy :=
  Policy l (mmio p) (pci p) (dma_base p) (dma_size p) (sys_allow p) (fs_root p) (max_steps p)
    (max_io p) (max_dma_ops p) (max_mem_bytes p) (max_sys p) (max_delay_us p)
    (max_single_delay_us p) (max_prints p) (max_trace p) (trace p).
Definition set_mmio (l : list mmio_win) (p : dvm_policy) : dvm_policy :=
  Policy (port p) l (pci p) (dma_base p) (dma_size p) (sys_allow p) (fs_root p) (max_steps p)
    (max_io p) (max_dma_ops p) (max_mem_bytes p) (max_sys p) (max_delay_us p)
    (max_single_delay_us p) (max_prints p) (max_trace p) (trace p).
Definition set_pci (l : list pci_fn) (p : dvm_policy) : dvm_policy :=
  Policy (port p) (mmio p) l (dma_base p) (dma_size p) (sys_allow p) (fs_root p) (max_steps p)
    (max_io p) (max_dma_ops p) (max_mem_bytes p) (max_sys p) (max_delay_us p)
    (max_single_delay_us p) (max_prints p) (max_trace p) (trace p).
Definition set_dma_grant (b s : Z) (p : dvm_policy) : dvm_policy :=
  Policy (port p) (mmio p) (pci p) b s (sys_allow p) (fs_root p) (max_steps p)
    (max_io p) (max_dma_ops p) (max_mem_bytes p) (max_sys p) (max_delay_us p)
    (max_single_delay_us p) (max_prints p) (max_trace p) (trace p).
Definition set_sys_root (a : Z) (r : bytes) (p : dvm_policy) : dvm_policy :=
  Policy (port p) (mmio p) (pci p) (dma_base p) (dma_size p) a r (max_steps p)
    (max_io p) (max_dma_ops p) (max_mem_bytes p) (max_sys p) (max_delay_us p)
    (max_single_delay_us p) (max_prints p) (max_trace p) (trace p).

Abbreviation count l := (Z.of_nat (length l)).

Definition dvm_policy_allow_ports (l h : Z) (p : dvm_policy) : Z * dvm_policy :=
  if h <? l then (-1, p)
  else if DVM_MAX_PORT_RANGES <=? count (port p) then (-1, p)
  else (0, set_port (port p ++ [Ports l h]) p).

Definition dvm_policy_allow_mmio (base size flags : Z) (p : dvm_policy) : Z * dvm_policy :=
  if size =? 0 then (-1, p)
  else if negb (Z.land flags (wrap32 (Z.lnot DVM_MMIO_RW)) =? 0) then (-1, p)
  else if Z.land flags DVM_MMIO_RW =? 0 then (-1, p)
  else if wrap64 (base + size) <? base then (-1, p)
  else if DVM_MAX_MMIO_WINS <=? count (mmio p) then (-1, p)
  else (0, set_mmio (mmio p ++ [Win base size flags]) p).

Definition dvm_policy_allow_pci (b d f : Z) (p : dvm_policy) : Z * dvm_policy :=
  if (31 <? d) || (7 <? f) then (-1, p)
  else if DVM_MAX_PCI_FNS <=? count (pci p) then (-1, p)
  else (0, set_pci (pci p ++ [Pci b d f]) p).

Definition dvm_policy_allow_sys (nr : Z) (p : dvm_policy) : Z * dvm_policy :=
  match sys_of nr with
  | None => (-1, p)
  | Some _ => (0, set_sys_root (Z.lor (sys_allow p) (Z.shiftl 1 nr)) (fs_root p) p)
  end.

(** *** Paths *)

(** The component walk: no component is "." or "..". *)
Fixpoint components_ok (fuel : nat) (s : bytes) : bool :=
  match s with
  | [] => true
  | _ =>
      match fuel with
      | O => false
      | S fuel =>
          let '(c, r) := span_until (ch "/") (skip_seps s) in
          if bool_decide (c = lit ".") || bool_decide (c = lit "..") then false
          else components_ok fuel r
      end
  end.

Definition printable (c : Z) : bool := (0x20 <=? c) && (c <? 0x7F).

Definition path_ok (s : bytes) : bool :=
  if zlen s =? 0 then false
  else if DVM_PATH_MAX <=? zlen s then false
  else if negb (bool_decide (head s = Some (ch "/"))) then false
  else if negb (forallb printable s) then false
  else components_ok (length s) s.

Definition dvm_policy_set_fs_root (root : bytes) (p : dvm_policy) : Z * dvm_policy :=
  let n := zlen (cstr root) in
  if DVM_PATH_MAX <=? n then (-1, p)
  else if negb (path_ok (cstr root)) then (-1, p)
  else (0, set_sys_root (sys_allow p)
             (cstr root ++ replicate (Z.to_nat (DVM_PATH_MAX - n)) 0) p).

(** *** The compiled-in deny list *)

Definition port_deny : list port_range :=
  [Ports 0x0020 0x0021; Ports 0x0040 0x0043; Ports 0x0060 0x0064; Ports 0x0070 0x0071;
   Ports 0x0092 0x0092; Ports 0x00A0 0x00A1; Ports 0x02F8 0x02FF; Ports 0x03F8 0x03FF;
   Ports 0x0CF8 0x0CFF; Ports 0x0000 0x000F; Ports 0x0080 0x008F; Ports 0x00C0 0x00DF;
   Ports 0x0170 0x0177; Ports 0x01F0 0x01F7; Ports 0x03B0 0x03DF; Ports 0x03F0 0x03F7].

Section Check.

(** Where the linker put the end of the kernel's image and this module's arena. *)
Context (bss_end dma_arena : Z).

Definition kernel_top : Z :=
  let e := Z.land (wrap64 (bss_end + 0x1FFFFF)) (wrap64 (Z.lnot 0x1FFFFF)) in
  if e <? 0x1000000 then 0x1000000 else e.

Definition dvm_policy_allow_dma (base size : Z) (p : dvm_policy) : Z * dvm_policy :=
  if size =? 0 then (-1, p)
  else if wrap64 (base + size) <? base then (-1, p)
  else if (base <? dma_arena) || (wrap64 (dma_arena + DVM_DMA_SIZE) <? wrap64 (base + size))
  then (-1, p)
  else (0, set_dma_grant base size p).

Definition port_range_bad (r : port_range) : bool :=
  (hi r <? lo r) ||
  existsb (fun d => (lo r <=? hi d) && (lo d <=? hi r)) port_deny.

Definition dma_grant_bad (p : dvm_policy) : bool :=
  (dma_size p =? 0) || (wrap64 (dma_base p + dma_size p) <? dma_base p) ||
  (dma_base p <? dma_arena) ||
  (wrap64 (dma_arena + DVM_DMA_SIZE) <? wrap64 (dma_base p + dma_size p)) ||
  (MMIO_TOP <? wrap64 (dma_arena + DVM_DMA_SIZE)) ||
  existsb (fun w => (wbase w <? wrap64 (dma_base p + dma_size p)) &&
                    (dma_base p <? wrap64 (wbase w + wsize w))) (mmio p).

Definition mmio_win_bad (w : mmio_win) : bool :=
  (wsize w =? 0) || (wrap64 (wbase w + wsize w) <? wbase w) ||
  (Z.land (wflags w) DVM_MMIO_RW =? 0) ||
  negb (Z.land (wflags w) (wrap32 (Z.lnot DVM_MMIO_RW)) =? 0) ||
  (wbase w <? kernel_top) ||
  (MMIO_TOP <? wrap64 (wbase w + wsize w)) ||
  ((DVM_PLATFORM_LO <? wrap64 (wbase w + wsize w)) && (wbase w <? DVM_PLATFORM_HI)).

Definition fs_open (p : dvm_policy) : bool :=
  existsb (fun i => negb (Z.land (sys_allow p) (Z.shiftl 1 i) =? 0) &&
                    match sys_of i with Some s => sys_is_fs s | None => false end)
    [0; 1; 2; 3; 4; 5; 6].

Definition fs_root_bad (p : dvm_policy) : bool :=
  let root := cstr (fs_root p) in
  (DVM_PATH_MAX <=? zlen root) ||
  (if 0 <? zlen root then negb (path_ok root) else fs_open p).

Definition dvm_policy_check (p : dvm_policy) : dvm_status :=
  if (DVM_MAX_PORT_RANGES <? count (port p)) || (DVM_MAX_MMIO_WINS <? count (mmio p)) ||
     (DVM_MAX_PCI_FNS <? count (pci p)) then DVM_TRAP_POLICY
  else if existsb port_range_bad (port p) then DVM_TRAP_POLICY
  else if (negb (dma_base p =? 0) || negb (dma_size p =? 0)) && dma_grant_bad p
  then DVM_TRAP_POLICY
  else if existsb mmio_win_bad (mmio p) then DVM_TRAP_POLICY
  else if existsb (fun f => (31 <? pdev f) || (7 <? fn f)) (pci p) then DVM_TRAP_POLICY
  else if (max_steps p =? 0) || (CEIL_STEPS <? max_steps p) then DVM_TRAP_POLICY
  else if CEIL_IO <? max_io p then DVM_TRAP_POLICY
  else if CEIL_DMA_OPS <? max_dma_ops p then DVM_TRAP_POLICY
  else if CEIL_MEM_BYTES <? max_mem_bytes p then DVM_TRAP_POLICY
  else if CEIL_SYS <? max_sys p then DVM_TRAP_POLICY
  else if negb (Z.shiftr (sys_allow p) DVM_SYS__COUNT =? 0) then DVM_TRAP_POLICY
  else if fs_root_bad p then DVM_TRAP_POLICY
  else if CEIL_DELAY_US <? max_delay_us p then DVM_TRAP_POLICY
  else if CEIL_SINGLE_US <? max_single_delay_us p then DVM_TRAP_POLICY
  else if CEIL_PRINTS <? max_prints p then DVM_TRAP_POLICY
  else if CEIL_TRACE <? max_trace p then DVM_TRAP_POLICY
  else if (trace p <? 0) || (2 <? trace p) then DVM_TRAP_POLICY
  else DVM_OK.

End Check.
