(* ===== verification/DvmRun.v ===== *)
(** vm/dvm.c, the driver VM, part 2: the interpreter. The machine outside (devices,
    the kernel's services) is a record of hooks over a state [ctx] of its own, as in
    dvm_io_t and dvm_sys_t; a hook that is NULL is [None]. Trace and message texts are
    not modelled; the trace line budget is. *)

From S2P Require Import Prelude Bytes Dvm.

(** ** The backends *)

(** Hooks return the value the C hook returns (and, for the two that fill a buffer,
    the bytes they stored from its start). *)
Record dvm_sys (ctx : Type) := Sys {
  con_write : option (bytes -> ctx -> Z * ctx);
  fs_read : option (bytes -> Z -> ctx -> Z * bytes * ctx);
  fs_write : option (bytes -> bytes -> ctx -> Z * ctx);
  fs_size : option (bytes -> ctx -> Z * ctx);
  audio_tone : option (Z -> Z -> ctx -> Z * ctx);
  time_ms : option (ctx -> Z * ctx);
  net_fetch : option (bytes -> Z -> ctx -> Z * bytes * ctx) }.
Arguments con_write {ctx}. Arguments fs_read {ctx}. Arguments fs_write {ctx}.
Arguments fs_size {ctx}. Arguments audio_tone {ctx}. Arguments time_ms {ctx}.
Arguments net_fetch {ctx}. Arguments Sys {ctx}.

Record dvm_io (ctx : Type) := Io {
  port_write : option (Z -> Z -> Z -> ctx -> ctx);
  port_read : option (Z -> Z -> ctx -> Z * ctx);
  mmio_write : option (Z -> Z -> Z -> ctx -> ctx);
  mmio_read : option (Z -> Z -> ctx -> Z * ctx);
  pci_read32 : option (Z -> Z -> Z -> Z -> ctx -> Z * ctx);
  delay_us : option (Z -> ctx -> ctx);
  sys : option (dvm_sys ctx) }.
Arguments port_write {ctx}. Arguments port_read {ctx}. Arguments mmio_write {ctx}.
Arguments mmio_read {ctx}. Arguments pci_read32 {ctx}. Arguments delay_us {ctx}.
Arguments sys {ctx}. Arguments Io {ctx}.

(** ** The state of a run *)

(** The counters of dvm_result_t. *)
Inductive ctr :=
  | STEPS | IO_OPS | DELAY_US | PRINTS | N_PORT_RD | N_PORT_WR | N_MMIO_RD | N_MMIO_WR
  | N_PCI_RD | N_DMA_RD | N_DMA_WR | N_MEM_RD | N_MEM_WR | MEM_BYTES | MEM_HWM | N_SYS
  | TRACE_LINES | TRACE_DROPPED.
#[export] Instance ctr_eq : EqDecision ctr.
Proof. solve_decision. Defined.

Definition ctr_width (c : ctr) : Z :=
  match c with STEPS | IO_OPS | DELAY_US | MEM_BYTES => 64 | _ => 32 end.

(** run_t and the counters of its dvm_result_t, with the two arenas it works on and
    the machine outside. The stacks list their top first; [mem] is the scratch arena
    by offset and [dma] the DMA block by address. *)
Record vm (ctx : Type) := Vm {
  reg : list Z; dstack : list Z; cstack : list Z; pc : Z; line : Z;
  zero : bool; below : bool; quiet : bool;
  cnt : ctr -> Z; mem : Z -> Z; dma : Z -> Z; world : ctx }.
Arguments Vm {ctx}. Arguments reg {ctx}. Arguments dstack {ctx}. Arguments cstack {ctx}.
Arguments pc {ctx}. Arguments line {ctx}. Arguments zero {ctx}. Arguments below {ctx}.
Arguments quiet {ctx}. Arguments cnt {ctx}. Arguments mem {ctx}. Arguments dma {ctx}.
Arguments world {ctx}.

(** A computation of the interpreter: it goes on, it stops the run with a status
    ([return] from execute), or it touched an array outside its bounds, which is
    undefined behaviour in C. *)
Inductive vres (ctx A : Type) :=
  | Go (a : A) (s : vm ctx)
  | Stop (w : dvm_status) (s : vm ctx)
  | Oob.
Arguments Go {ctx A}. Arguments Stop {ctx A}. Arguments Oob {ctx A}.

Definition vmm (ctx A : Type) := vm ctx -> vres ctx A.

Definition vret {ctx A} (a : A) : vmm ctx A := fun s => Go a s.
Definition vbind {ctx A B} (m : vmm ctx A) (k : A -> vmm ctx B) : vmm ctx B := fun s =>
  match m s with Go a s => k a s | Stop w s => Stop w s | Oob => Oob end.

Declare Scope vm_scope.
Delimit Scope vm_scope with vm.
Notation "x <- m ;; k" := (vbind m (fun x => k))
  (at level 100, m at next level, right associativity) : vm_scope.
Notation "m ;;; k" := (vbind m (fun _ => k))
  (at level 100, right associativity) : vm_scope.
Open Scope vm_scope.

Section Run.

Context {ctx : Type}.

Definition vget {A} (f : vm ctx -> A) : vmm ctx A := fun s => Go (f s) s.
Definition vmod (f : vm ctx -> vm ctx) : vmm ctx unit := fun s => Go tt (f s).
Definition oob {A} : vmm ctx A := fun _ => Oob.

Definition set_reg (r : list Z) (s : vm ctx) : vm ctx :=
  Vm r (dstack s) (cstack s) (pc s) (line s) (zero s) (below s) (quiet s) (cnt s) (mem s) (dma s) (world s).
Definition set_dstack (l : list Z) (s : vm ctx) : vm ctx :=
  Vm (reg s) l (cstack s) (pc s) (line s) (zero s) (below s) (quiet s) (cnt s) (mem s) (dma s) (world s).
Definition set_cstack (l : list Z) (s : vm ctx) : vm ctx :=
  Vm (reg s) (dstack s) l (pc s) (line s) (zero s) (below s) (quiet s) (cnt s) (mem s) (dma s) (world s).
Definition set_pc (x : Z) (s : vm ctx) : vm ctx :=
  Vm (reg s) (dstack s) (cstack s) x (line s) (zero s) (below s) (quiet s) (cnt s) (mem s) (dma s) (world s).
Definition set_line (x : Z) (s : vm ctx) : vm ctx :=
  Vm (reg s) (dstack s) (cstack s) (pc s) x (zero s) (below s) (quiet s) (cnt s) (mem s) (dma s) (world s).
Definition set_flags (z b : bool) (s : vm ctx) : vm ctx :=
  Vm (reg s) (dstack s) (cstack s) (pc s) (line s) z b (quiet s) (cnt s) (mem s) (dma s) (world s).
Definition set_quiet (s : vm ctx) : vm ctx :=
  Vm (reg s) (dstack s) (cstack s) (pc s) (line s) (zero s) (below s) true (cnt s) (mem s) (dma s) (world s).
Definition set_cnt (c : ctr) (x : Z) (s : vm ctx) : vm ctx :=
  Vm (reg s) (dstack s) (cstack s) (pc s) (line s) (zero s) (below s) (quiet s)
     (fun c' => if bool_decide (c' = c) then x else cnt s c') (mem s) (dma s) (world s).
Definition set_mem (m : Z -> Z) (s : vm ctx) : vm ctx :=
  Vm (reg s) (dstack s) (cstack s) (pc s) (line s) (zero s) (below s) (quiet s) (cnt s) m (dma s) (world s).
Definition set_dma (m : Z -> Z) (s : vm ctx) : vm ctx :=
  Vm (reg s) (dstack s) (cstack s) (pc s) (line s) (zero s) (below s) (quiet s) (cnt s) (mem s) m (world s).
Definition set_world (w : ctx) (s : vm ctx) : vm ctx :=
  Vm (reg s) (dstack s) (cstack s) (pc s) (line s) (zero s) (below s) (quiet s) (cnt s) (mem s) (dma s) w.

(** [res->c += n] at the counter's width. *)
Definition bump (c : ctr) (n : Z) (s : vm ctx) : vm ctx :=
  set_cnt c (wrap (ctr_width c) (cnt s c + n)) s.

Context (bss_end dma_arena : Z) (io : dvm_io ctx) (p : dvm_program) (pol : dvm_policy).

(** ** Trace budget and traps *)

Definition trace_budget (s : vm ctx) : bool * vm ctx :=
  if quiet s || (max_trace pol <=? cnt s TRACE_LINES) then
    let s := if quiet s then s else bump TRACE_LINES 1 (set_quiet s) in
    (false, bump TRACE_DROPPED 1 s)
  else (true, bump TRACE_LINES 1 s).

(** [if (tracing(st, level)) tline(st, ...)] *)
Definition tline (level : Z) : vmm ctx unit :=
  if level <=? trace pol then vmod (fun s => snd (trace_budget s)) else vret tt.

Definition TRACE_IO := 1.
Definition TRACE_ALL := 2.

Definition trap {A} (w : dvm_status) : vmm ctx A := fun s =>
  Stop w (if trace pol =? 0 then s else bump TRACE_LINES 1 s).

(** [if (bad) return trap(...)] *)
Definition refuse (bad : bool) (w : dvm_status) : vmm ctx unit :=
  if bad then trap w else vret tt.

Definition rd (s : vm ctx) (i : dvm_insn) (k : Z) : Z :=
  let kd := kind_at i k in
  if kd =? O_REG then at_ (reg s) (Z.land (val_at i k) (DVM_NREGS - 1))
  else if (kd =? O_IMM) || (kd =? O_PC) || (kd =? O_STR) then val_at i k
  else 0.

(** ** Access gates *)

Definition port_denied (prt width : Z) : bool :=
  existsb (fun d => (prt <=? hi d) && (lo d <=? prt + width - 1)) port_deny.
Definition port_allowed (prt width : Z) : bool :=
  existsb (fun r => (lo r <=? prt) && (prt + width - 1 <=? hi r)) (port pol).

Definition charge_io : vmm ctx unit :=
  n <- vget (fun s => cnt s IO_OPS) ;;
  refuse (max_io pol <=? n) DVM_TRAP_IO_BUDGET ;;;
  vmod (bump IO_OPS 1).

Definition port_gate (raw width : Z) : vmm ctx unit :=
  refuse ((0xFFFF <? raw) || (0xFFFF <? wrap64 (raw + width - 1))) DVM_TRAP_RANGE ;;;
  refuse (port_denied raw width) DVM_TRAP_PORT_DENIED ;;;
  refuse (negb (port_allowed raw width)) DVM_TRAP_PORT_DENIED ;;;
  charge_io.

Definition dma_touches (addr width : Z) : bool :=
  if dma_size pol =? 0 then false
  else (addr <? wrap64 (dma_base pol + dma_size pol)) && (dma_base pol <? wrap64 (addr + width)).

Definition dma_gate (addr width : Z) : vmm ctx unit :=
  refuse ((addr <? dma_base pol) ||
          (wrap64 (dma_base pol + dma_size pol) <? wrap64 (addr + width))) DVM_TRAP_MMIO_DENIED ;;;
  refuse (negb (addr mod width =? 0)) DVM_TRAP_ALIGN ;;;
  n <- vget (fun s => cnt s N_DMA_RD + cnt s N_DMA_WR) ;;
  refuse (max_dma_ops pol <=? n) DVM_TRAP_DMA_BUDGET.

(** The arena byte at [addr]. *)
Definition dget (addr : Z) : vmm ctx Z := fun s =>
  if (dma_arena <=? addr) && (addr <? dma_arena + DVM_DMA_SIZE) then Go (dma s addr) s else Oob.
Definition dput (addr v : Z) : vmm ctx unit := fun s =>
  if (dma_arena <=? addr) && (addr <? dma_arena + DVM_DMA_SIZE)
  then Go tt (set_dma (fun a => if a =? addr then v else dma s a) s) else Oob.

(** Little-endian accesses of [n] bytes. *)
Fixpoint dma_load (n : nat) (addr : Z) : vmm ctx Z :=
  match n with
  | O => vret 0
  | S n => b <- dget addr ;; r <- dma_load n (addr + 1) ;; vret (b + 256 * r)
  end.
Fixpoint dma_store (n : nat) (addr v : Z) : vmm ctx unit :=
  match n with
  | O => vret tt
  | S n => dput addr (v mod 256) ;;; dma_store n (addr + 1) (v / 256)
  end.

Definition in_window (addr width : Z) (w : mmio_win) : bool :=
  (wbase w <=? addr) && (wrap64 (addr + width) <=? wrap64 (wbase w + wsize w)).

Definition mmio_gate (addr width : Z) (write : bool) : vmm ctx unit :=
  refuse ((wrap64 (addr + width) <? addr) || (MMIO_TOP <? wrap64 (addr + width))) DVM_TRAP_RANGE ;;;
  refuse (addr <? kernel_top bss_end) DVM_TRAP_MMIO_DENIED ;;;
  refuse ((DVM_PLATFORM_LO <? wrap64 (addr + width)) && (addr <? DVM_PLATFORM_HI))
    DVM_TRAP_MMIO_DENIED ;;;
  match find (in_window addr width) (mmio pol) with
  | None => trap DVM_TRAP_MMIO_DENIED
  | Some w =>
      refuse (write && (Z.land (wflags w) DVM_MMIO_W =? 0)) DVM_TRAP_MMIO_DENIED ;;;
      refuse (negb write && (Z.land (wflags w) DVM_MMIO_R =? 0)) DVM_TRAP_MMIO_DENIED ;;;
      refuse (negb (addr mod width =? 0)) DVM_TRAP_ALIGN ;;;
      charge_io
  end.

(** ** Scratch memory *)

Definition mem_span (off len : Z) : vmm ctx unit :=
  refuse ((DVM_MEM_SIZE <? off) || (DVM_MEM_SIZE - off <? len)) DVM_TRAP_MEM.

Definition mem_charge (n : Z) : vmm ctx unit :=
  m <- vget (fun s => cnt s MEM_BYTES) ;;
  refuse ((wrap64 (m + n) <? m) || (max_mem_bytes pol <? wrap64 (m + n))) DVM_TRAP_MEM_BUDGET ;;;
  vmod (bump MEM_BYTES n).

Definition mget (off : Z) : vmm ctx Z := fun s =>
  if (0 <=? off) && (off <? DVM_MEM_SIZE) then Go (mem s off) s else Oob.
Definition mput (off v : Z) : vmm ctx unit := fun s =>
  if (0 <=? off) && (off <? DVM_MEM_SIZE)
  then Go tt (set_mem (fun o => if o =? off then wrap8 v else mem s o) s) else Oob.

Fixpoint mgets (n : nat) (off : Z) : vmm ctx bytes :=
  match n with
  | O => vret []
  | S n => b <- mget off ;; r <- mgets n (off + 1) ;; vret (b :: r)
  end.
Fixpoint mputs (off : Z) (bs : bytes) : vmm ctx unit :=
  match bs with
  | [] => vret tt
  | b :: bs => mput off b ;;; mputs (off + 1) bs
  end.

(** The value of little-endian bytes, and the bytes of a value. *)
Fixpoint le_value (bs : bytes) : Z :=
  match bs with [] => 0 | b :: bs => Z.lor b (Z.shiftl (le_value bs) 8) end.
Fixpoint le_bytes (n : nat) (v : Z) : bytes :=
  match n with O => [] | S n => wrap8 v :: le_bytes n (Z.shiftr v 8) end.

Definition raise_hwm (e : Z) : vmm ctx unit :=
  vmod (fun s => if cnt s MEM_HWM <? e then set_cnt MEM_HWM (wrap32 e) s else s).

Definition mem_load (off width : Z) : vmm ctx Z :=
  bs <- mgets (Z.to_nat width) off ;; vret (le_value bs).
Definition mem_store (off width v : Z) : vmm ctx unit :=
  mputs off (le_bytes (Z.to_nat width) v) ;;; raise_hwm (off + width).

(** The two directions of mcpy. *)
Fixpoint mcopy_up (n : nat) (d s : Z) : vmm ctx unit :=
  match n with
  | O => vret tt
  | S n => b <- mget s ;; mput d b ;;; mcopy_up n (d + 1) (s + 1)
  end.
Fixpoint mcopy_down (n : nat) (d s : Z) : vmm ctx unit :=
  match n with
  | O => vret tt
  | S n => b <- mget (s + Z.of_nat n) ;; mput (d + Z.of_nat n) b ;;; mcopy_down n d s
  end.

(** The flags mcmp leaves. *)
Fixpoint cmp_loop (n : nat) (x y : Z) : vmm ctx (bool * bool) :=
  match n with
  | O => vret (true, false)
  | S n =>
      u <- mget x ;; w <- mget y ;;
      if u =? w then cmp_loop n (x + 1) (y + 1) else vret (false, u <? w)
  end.

(** How many bytes of [needle] match from [off]. *)
Fixpoint match_loop (needle : bytes) (off : Z) : vmm ctx Z :=
  match needle with
  | [] => vret 0
  | c :: r =>
      b <- mget off ;;
      if b =? c then n <- match_loop r (off + 1) ;; vret (n + 1) else vret 0
  end.

(** The search of mfind over [todo] start positions from [at]. *)
Fixpoint find_loop (todo : nat) (c0 : Z) (rest : bytes) (at_ : Z) : vmm ctx (option Z) :=
  match todo with
  | O => vret None
  | S todo =>
      mem_charge 1 ;;;
      b <- mget at_ ;;
      if negb (b =? c0) then find_loop todo c0 rest (at_ + 1)
      else
        k <- match_loop rest (at_ + 1) ;;
        mem_charge k ;;;
        if k =? zlen rest then vret (Some at_) else find_loop todo c0 rest (at_ + 1)
  end.

Fixpoint chr_loop (n : nat) (at_ want : Z) : vmm ctx (option Z) :=
  match n with
  | O => vret None
  | S n => b <- mget at_ ;; if b =? want then vret (Some at_) else chr_loop n (at_ + 1) want
  end.

Definition dlower (c : Z) : Z := if (ch "A" <=? c) && (c <=? ch "Z") then c + 32 else c.

Definition digit_of (c : Z) : option Z :=
  let c := dlower c in
  if (ch "0" <=? c) && (c <=? ch "9") then Some (c - ch "0")
  else if (ch "a" <=? c) && (c <=? ch "f") then Some (c - ch "a" + 10)
  else None.

(** matoi: the accumulator, the number of digits and whether it overflowed. *)
Fixpoint atoi_loop (n : nat) (off base acc digits : Z) : vmm ctx (Z * Z * bool) :=
  match n with
  | O => vret (acc, digits, false)
  | S n =>
      c <- mget off ;;
      match digit_of c with
      | None => vret (acc, digits, false)
      | Some d =>
          if base <=? d then vret (acc, digits, false)
          else if (0xFFFFFFFFFFFFFFFF - d) / base <? acc then vret (acc, digits, true)
          else atoi_loop n (off + 1) base (wrap64 (wrap64 (acc * base) + d)) (digits + 1)
      end
  end.

(** mitoa: the digits of [val], least significant first, at most [room]. *)
Fixpoint itoa_digits (room : nat) (v base : Z) : bytes :=
  match room with
  | O => []
  | S room =>
      let d := v mod base in
      (if d <? 10 then ch "0" + d else ch "a" + d - 10) ::
      (if v / base =? 0 then [] else itoa_digits room (v / base) base)
  end.

(** ** Syscalls *)

Fixpoint under_root (root path : bytes) : bool :=
  match root with
  | [] => true
  | r :: root => match path with c :: path => (c =? r) && under_root root path | [] => false end
  end.

Definition sys_path (off len : Z) : vmm ctx bytes :=
  mem_span off len ;;;
  mem_charge len ;;;
  refuse (DVM_PATH_MAX <=? len) DVM_TRAP_SYS_DENIED ;;;
  out <- mgets (Z.to_nat len) off ;;
  refuse (negb (path_ok out)) DVM_TRAP_SYS_DENIED ;;;
  let root := cstr (fs_root pol) in
  refuse (zlen root =? 0) DVM_TRAP_SYS_DENIED ;;;
  let next := nth (length root) out 0 in
  refuse (negb (under_root root out &&
                negb ((1 <? zlen root) && negb (next =? ch "/") && negb (next =? 0))))
    DVM_TRAP_SYS_DENIED ;;;
  vret out.

(** Call a hook of the backend, or trap when there is none. *)
Definition hook {H A} (h : option H) (f : H -> ctx -> A * ctx) : vmm ctx A :=
  match h with
  | None => trap DVM_TRAP_NOIO
  | Some h => fun s => let '(a, w) := f h (world s) in Go a (set_world w s)
  end.

Definition sanitise (c : Z) : Z := if printable c then c else ch "?".

Definition con_write_call (y : dvm_sys ctx) (off len : Z) : vmm ctx Z :=
  mem_span off len ;;;
  refuse (DVM_SAY_MAX <? len) DVM_TRAP_SYS_DENIED ;;;
  mem_charge len ;;;
  n <- vget (fun s => cnt s PRINTS) ;;
  refuse (max_prints pol <=? n) DVM_TRAP_PRINT_BUDGET ;;;
  match con_write y with
  | None => trap DVM_TRAP_NOIO
  | Some h =>
      bs <- mgets (Z.to_nat len) off ;;
      vmod (bump PRINTS 1) ;;;
      hook (Some h) (fun h w => h (sanitise <$> bs) w)
  end.

Definition fs_read_call (y : dvm_sys ctx) (po pl d c : Z) : vmm ctx Z :=
  path <- sys_path po pl ;;
  mem_span d c ;;;
  mem_charge c ;;;
  r <- hook (fs_read y) (fun h w => h path c w) ;;
  mputs d (snd r) ;;;
  let rc := fst r in
  if 0 <? rc then
    refuse (c <? rc) DVM_TRAP_NOIO ;;;
    raise_hwm (d + rc) ;;;
    vret rc
  else vret rc.

Definition fs_write_call (y : dvm_sys ctx) (po pl src len : Z) : vmm ctx Z :=
  path <- sys_path po pl ;;
  mem_span src len ;;;
  mem_charge len ;;;
  match fs_write y with
  | None => trap DVM_TRAP_NOIO
  | Some h => bs <- mgets (Z.to_nat len) src ;; hook (Some h) (fun h w => h path bs w)
  end.

Definition fs_size_call (y : dvm_sys ctx) (po pl : Z) : vmm ctx Z :=
  path <- sys_path po pl ;;
  hook (fs_size y) (fun h w => h path w).

Definition audio_tone_call (y : dvm_sys ctx) (hz ms : Z) : vmm ctx Z :=
  refuse ((hz <? 20) || (20000 <? hz)) DVM_TRAP_SYS_DENIED ;;;
  refuse ((ms <? 1) || (5000 <? ms)) DVM_TRAP_SYS_DENIED ;;;
  hook (audio_tone y) (fun h w => h hz ms w).

Definition net_fetch_call (y : dvm_sys ctx) (uo ul d c : Z) : vmm ctx Z :=
  mem_span uo ul ;;;
  refuse ((ul =? 0) || (FETCH_URL_MAX <=? ul)) DVM_TRAP_SYS_DENIED ;;;
  mem_span d c ;;;
  mem_charge (wrap64 (ul + c)) ;;;
  url <- mgets (Z.to_nat ul) uo ;;
  r <- hook (net_fetch y) (fun h w => h (cstr url) c w) ;;
  mputs d (snd r) ;;;
  let rc := fst r in
  if (0 <? rc) && (0 <? c) then
    let e := d + (if rc <? c then rc else c - 1) in
    (if e <? d + c then mput e 0 else vret tt) ;;;
    vret rc
  else vret rc.

(** The result register and the flag: a failure hands out the magnitude of its
    code. *)
Definition sys_call (y : dvm_sys ctx) (nr : dvm_sys_nr) (a0 a1 a2 a3 : Z) : vmm ctx (Z * bool) :=
  rc <- (match nr with
         | SYS_CON_WRITE => con_write_call y a0 a1
         | SYS_FS_READ => fs_read_call y a0 a1 a2 a3
         | SYS_FS_WRITE => fs_write_call y a0 a1 a2 a3
         | SYS_FS_SIZE => fs_size_call y a0 a1
         | SYS_AUDIO_TONE => audio_tone_call y a0 a1
         | SYS_TIME_MS => hook (time_ms y) (fun h w => h w)
         | SYS_NET_FETCH => net_fetch_call y a0 a1 a2 a3
         end) ;;
  if rc <? 0 then tline TRACE_IO ;;; vret (wrap64 (- rc), false)
  else vret (rc, true).

(** ** Instructions *)

(** What an instruction leaves for the end of the loop body: the value for the
    destination register, if it has one ([is_alu]), and the next pc. *)
Definition done (next : Z) : vmm ctx (option Z * Z) := vret (None, next).
Definition alu (v next : Z) : vmm ctx (option Z * Z) := vret (Some v, next).

Definition width_of (o : dvm_op) : Z :=
  match o with
  | OUT8 | IN8 | LD8 | ST8 | MLD8 | MST8 => 1
  | OUT16 | IN16 | LD16 | ST16 | MLD16 | MST16 => 2
  | MLD64 | MST64 => 8
  | _ => 4
  end.

Definition low_bytes (width v : Z) : Z :=
  if width =? 1 then Z.land v 0xFF
  else if width =? 2 then Z.land v 0xFFFF
  else Z.land v 0xFFFFFFFF.

Definition alu_value (o : dvm_op) (a b : Z) : Z :=
  match o with
  | ADD => wrap64 (a + b)
  | SUB => wrap64 (a - b)
  | MUL => wrap64 (a * b)
  | DIV => a / b
  | MOD => a mod b
  | AND => Z.land a b
  | OR => Z.lor a b
  | XOR => Z.lxor a b
  | NOT => wrap64 (Z.lnot a)
  | SHL => wrap64 (Z.shiftl a (Z.land b 63))
  | SHR => Z.shiftr a (Z.land b 63)
  | _ => a
  end.

Definition taken (o : dvm_op) (z b : bool) : bool :=
  match o with
  | JMP => true
  | BEQ => z
  | BNE => negb z
  | BLT => b
  | BLE => b || z
  | BGT => negb b && negb z
  | BGE => negb b
  | _ => false
  end.

Definition op_branch (o : dvm_op) (i : dvm_insn) (next : Z) : vmm ctx (option Z * Z) :=
  t <- vget (fun s => taken o (zero s) (below s)) ;;
  let target := val_at i 0 in
  (if t then refuse (negb (kind_at i 0 =? O_PC) || (ninsn p <=? target)) DVM_TRAP_PC
   else vret tt) ;;;
  tline TRACE_ALL ;;;
  done (if t then target else next).

Definition op_call (i : dvm_insn) (next : Z) : vmm ctx (option Z * Z) :=
  cs <- vget cstack ;;
  refuse (DVM_CSTACK <=? count cs) DVM_TRAP_STACK ;;;
  refuse (negb (kind_at i 0 =? O_PC) || (ninsn p <=? val_at i 0)) DVM_TRAP_PC ;;;
  vmod (set_cstack (next :: cs)) ;;;
  tline TRACE_ALL ;;;
  done (val_at i 0).

Definition op_ret : vmm ctx (option Z * Z) :=
  cs <- vget cstack ;;
  match cs with
  | [] => trap DVM_TRAP_STACK
  | next :: cs =>
      vmod (set_cstack cs) ;;;
      refuse (ninsn p <? next) DVM_TRAP_PC ;;;
      tline TRACE_ALL ;;;
      done next
  end.

Definition op_push (a next : Z) : vmm ctx (option Z * Z) :=
  ds <- vget dstack ;;
  refuse (DVM_DSTACK <=? count ds) DVM_TRAP_STACK ;;;
  vmod (set_dstack (a :: ds)) ;;;
  tline TRACE_ALL ;;;
  done next.

Definition op_pop (next : Z) : vmm ctx (option Z * Z) :=
  ds <- vget dstack ;;
  match ds with
  | [] => trap DVM_TRAP_STACK
  | v :: ds => vmod (set_dstack ds) ;;; alu v next
  end.

Definition op_out (width a b next : Z) : vmm ctx (option Z * Z) :=
  port_gate a width ;;;
  hook (port_write io) (fun h w => (tt, h a width (low_bytes width b) w)) ;;;
  vmod (bump N_PORT_WR 1) ;;;
  tline TRACE_IO ;;;
  done next.

Definition op_in (width a next : Z) : vmm ctx (option Z * Z) :=
  port_gate a width ;;;
  v <- hook (port_read io) (fun h w => h a width w) ;;
  vmod (bump N_PORT_RD 1) ;;;
  tline TRACE_IO ;;;
  alu (low_bytes width v) next.

Definition op_ld (width a b next : Z) : vmm ctx (option Z * Z) :=
  let addr := wrap64 (a + b) in
  if dma_touches addr width then
    dma_gate addr width ;;;
    v <- dma_load (Z.to_nat width) addr ;;
    vmod (bump N_DMA_RD 1) ;;;
    tline TRACE_ALL ;;;
    alu v next
  else
    mmio_gate addr width false ;;;
    v <- hook (mmio_read io) (fun h w => h addr width w) ;;
    vmod (bump N_MMIO_RD 1) ;;;
    tline TRACE_IO ;;;
    alu (low_bytes width v) next.

Definition op_st (width a b c next : Z) : vmm ctx (option Z * Z) :=
  let addr := wrap64 (a + b) in
  let v := low_bytes width c in
  if dma_touches addr width then
    dma_gate addr width ;;;
    dma_store (Z.to_nat width) addr v ;;;
    vmod (bump N_DMA_WR 1) ;;;
    tline TRACE_ALL ;;;
    done next
  else
    mmio_gate addr width true ;;;
    hook (mmio_write io) (fun h w => (tt, h addr width v w)) ;;;
    vmod (bump N_MMIO_WR 1) ;;;
    tline TRACE_IO ;;;
    done next.

Definition op_pcicfg (a b next : Z) : vmm ctx (option Z * Z) :=
  refuse (0xFFFF <? a) DVM_TRAP_RANGE ;;;
  let bs := Z.land (Z.shiftr a 8) 0xFF in
  let dv := Z.land (Z.shiftr a 3) 0x1F in
  let f := Z.land a 7 in
  refuse (0xFF <? b) DVM_TRAP_RANGE ;;;
  refuse (negb (existsb (fun g => (bus g =? bs) && (pdev g =? dv) && (fn g =? f)) (pci pol)))
    DVM_TRAP_PCI_DENIED ;;;
  refuse (negb (Z.land b 3 =? 0)) DVM_TRAP_ALIGN ;;;
  n <- vget (fun s => cnt s IO_OPS) ;;
  refuse (max_io pol <=? n) DVM_TRAP_IO_BUDGET ;;;
  match pci_read32 io with
  | None => trap DVM_TRAP_NOIO
  | Some h =>
      vmod (bump IO_OPS 1) ;;;
      v <- hook (Some h) (fun h w => h bs dv f b w) ;;
      vmod (bump N_PCI_RD 1) ;;;
      tline TRACE_IO ;;;
      alu v next
  end.

Definition op_mld (width a b next : Z) : vmm ctx (option Z * Z) :=
  let off := wrap64 (a + b) in
  refuse (off <? a) DVM_TRAP_MEM ;;;
  mem_span off width ;;;
  mem_charge width ;;;
  v <- mem_load off width ;;
  vmod (bump N_MEM_RD 1) ;;;
  tline TRACE_ALL ;;;
  alu v next.

Definition op_mst (width a b c next : Z) : vmm ctx (option Z * Z) :=
  let off := wrap64 (a + b) in
  refuse (off <? a) DVM_TRAP_MEM ;;;
  mem_span off width ;;;
  mem_charge width ;;;
  mem_store off width c ;;;
  vmod (bump N_MEM_WR 1) ;;;
  tline TRACE_ALL ;;;
  done next.

Definition op_mstr (i : dvm_insn) (b next : Z) : vmm ctx (option Z * Z) :=
  let text := str_at p (val_at i 0) in
  let n := zlen text in
  mem_span b n ;;;
  mem_charge n ;;;
  mputs b text ;;;
  raise_hwm (b + n) ;;;
  vmod (bump N_MEM_WR 1) ;;;
  alu (b + n) next.

Definition op_mcpy (d s n next : Z) : vmm ctx (option Z * Z) :=
  mem_span d n ;;;
  mem_span s n ;;;
  mem_charge (wrap64 (n * 2)) ;;;
  (if d <? s then mcopy_up (Z.to_nat n) d s else mcopy_down (Z.to_nat n) d s) ;;;
  raise_hwm (d + n) ;;;
  vmod (bump N_MEM_RD 1) ;;;
  vmod (bump N_MEM_WR 1) ;;;
  alu (d + n) next.

Definition op_mset (d b n next : Z) : vmm ctx (option Z * Z) :=
  mem_span d n ;;;
  mem_charge n ;;;
  mputs d (replicate (Z.to_nat n) (wrap8 b)) ;;;
  raise_hwm (d + n) ;;;
  vmod (bump N_MEM_WR 1) ;;;
  alu (d + n) next.

Definition op_mcmp (x y n next : Z) : vmm ctx (option Z * Z) :=
  mem_span x n ;;;
  mem_span y n ;;;
  mem_charge (wrap64 (n * 2)) ;;;
  f <- cmp_loop (Z.to_nat n) x y ;;
  vmod (set_flags (fst f) (snd f)) ;;;
  vmod (bump N_MEM_RD 1) ;;;
  tline TRACE_ALL ;;;
  done next.

Definition op_mfind (i : dvm_insn) (hay n next : Z) : vmm ctx (option Z * Z) :=
  let needle := str_at p (val_at i 0) in
  mem_span hay n ;;;
  r <- (match needle with
        | [] => vret (Some hay)
        | c0 :: rest =>
            if zlen needle <=? n
            then find_loop (Z.to_nat (n - zlen needle + 1)) c0 rest hay
            else vret None
        end) ;;
  b <- vget below ;;
  vmod (set_flags (match r with Some _ => true | None => false end) b) ;;;
  vmod (bump N_MEM_RD 1) ;;;
  alu (default (hay + n) r) next.

Definition op_mchr (hay n c next : Z) : vmm ctx (option Z * Z) :=
  mem_span hay n ;;;
  mem_charge n ;;;
  r <- chr_loop (Z.to_nat n) hay (wrap8 c) ;;
  b <- vget below ;;
  vmod (set_flags (match r with Some _ => true | None => false end) b) ;;;
  vmod (bump N_MEM_RD 1) ;;;
  alu (default (hay + n) r) next.

Definition op_matoi (off n base next : Z) : vmm ctx (option Z * Z) :=
  refuse ((base <? 2) || (16 <? base)) DVM_TRAP_RANGE ;;;
  mem_span off n ;;;
  mem_charge n ;;;
  r <- atoi_loop (Z.to_nat n) off base 0 0 ;;
  let '(acc, digits, over) := r in
  let z := (0 <? digits) && negb over in
  vmod (set_flags z false) ;;;
  tline TRACE_ALL ;;;
  alu (if z then acc else 0) next.

Definition op_mitoa (d v base next : Z) : vmm ctx (option Z * Z) :=
  refuse ((base <? 2) || (16 <? base)) DVM_TRAP_RANGE ;;;
  let tmp := itoa_digits 64 v base in
  let n := zlen tmp in
  mem_span d n ;;;
  mem_charge n ;;;
  mputs d (rev tmp) ;;;
  raise_hwm (d + n) ;;;
  vmod (bump N_MEM_WR 1) ;;;
  alu (d + n) next.

Definition op_sys (i : dvm_insn) (next : Z) : vmm ctx (option Z * Z) :=
  match sys_of (val_at i 0) with
  | None => trap DVM_TRAP_BADOP
  | Some nr =>
      refuse (Z.land (sys_allow pol) (Z.shiftl 1 (val_at i 0)) =? 0) DVM_TRAP_SYS_DENIED ;;;
      n <- vget (fun s => cnt s N_SYS) ;;
      refuse (max_sys pol <=? n) DVM_TRAP_SYS_BUDGET ;;;
      match sys io with
      | None => trap DVM_TRAP_NOIO
      | Some y =>
          ds <- vget dstack ;;
          let k := Z.to_nat (sys_arity nr) in
          refuse (count ds <? sys_arity nr) DVM_TRAP_STACK ;;;
          let args := rev (take k ds) in
          vmod (set_dstack (drop k ds)) ;;;
          vmod (bump N_SYS 1) ;;;
          r <- sys_call y nr (at_ args 0) (at_ args 1) (at_ args 2) (at_ args 3) ;;
          vmod (set_flags (snd r) false) ;;;
          tline TRACE_IO ;;;
          alu (fst r) next
      end
  end.

Definition op_delay (a next : Z) : vmm ctx (option Z * Z) :=
  refuse (max_single_delay_us pol <? a) DVM_TRAP_DELAY_BUDGET ;;;
  n <- vget (fun s => cnt s DELAY_US) ;;
  refuse (max_delay_us pol <? wrap64 (n + a)) DVM_TRAP_DELAY_BUDGET ;;;
  match delay_us io with
  | None => trap DVM_TRAP_NOIO
  | Some h =>
      vmod (bump DELAY_US a) ;;;
      hook (Some h) (fun h w => (tt, h a w)) ;;;
      tline TRACE_IO ;;;
      done next
  end.

Definition op_print (next : Z) : vmm ctx (option Z * Z) :=
  n <- vget (fun s => cnt s PRINTS) ;;
  refuse (max_prints pol <=? n) DVM_TRAP_PRINT_BUDGET ;;;
  vmod (bump PRINTS 1) ;;;
  (if trace pol =? 0 then vret tt else vmod (fun s => snd (trace_budget s))) ;;;
  done next.

(** The switch. [HALT] is the [return DVM_OK]. *)
Definition exec_op (o : dvm_op) (i : dvm_insn) (a b c next : Z) : vmm ctx (option Z * Z) :=
  match o with
  | HALT => fun s => Stop DVM_OK s
  | ABORT => trap DVM_TRAP_ABORT
  | NOP => tline TRACE_ALL ;;; done next
  | MOV | ADD | SUB | MUL | AND | OR | XOR | NOT | SHL | SHR => alu (alu_value o a b) next
  | DIV | MOD => refuse (b =? 0) DVM_TRAP_DIV0 ;;; alu (alu_value o a b) next
  | CMP => vmod (set_flags (a =? b) (a <? b)) ;;; tline TRACE_ALL ;;; done next
  | TEST => vmod (set_flags (Z.land a b =? 0) false) ;;; tline TRACE_ALL ;;; done next
  | JMP | BEQ | BNE | BLT | BLE | BGT | BGE => op_branch o i next
  | CALL => op_call i next
  | RET => op_ret
  | PUSH => op_push a next
  | POP => op_pop next
  | OUT8 | OUT16 | OUT32 => op_out (width_of o) a b next
  | IN8 | IN16 | IN32 => op_in (width_of o) a next
  | LD8 | LD16 | LD32 => op_ld (width_of o) a b next
  | ST8 | ST16 | ST32 => op_st (width_of o) a b c next
  | PCICFG => op_pcicfg a b next
  | MLD8 | MLD16 | MLD32 | MLD64 => op_mld (width_of o) a b next
  | MST8 | MST16 | MST32 | MST64 => op_mst (width_of o) a b c next
  | MSTR => op_mstr i b next
  | MCPY => op_mcpy a b c next
  | MSET => op_mset a b c next
  | MCMP => op_mcmp a b c next
  | MFIND => op_mfind i b c next
  | MCHR => op_mchr a b c next
  | MATOI => op_matoi a b c next
  | MITOA => op_mitoa a b c next
  | SYS => op_sys i next
  | DELAY => op_delay a next
  | PRINT => op_print next
  end.

Definition traced_itself (o : dvm_op) : bool :=
  match o with
  | IN8 | IN16 | IN32 | LD8 | LD16 | LD32 | MLD8 | MLD16 | MLD32 | MLD64
  | MATOI | SYS | PCICFG => true
  | _ => false
  end.

(** The end of the loop body: [if (is_alu) { ... } st->pc = next;] *)
Definition write_back (o : dvm_op) (i : dvm_insn) (r : option Z * Z) : vmm ctx unit :=
  (match fst r with
   | Some v =>
       refuse (DVM_NREGS <=? dst i) DVM_TRAP_RANGE ;;;
       vmod (fun s => set_reg (<[Z.to_nat (dst i) := v]> (reg s)) s) ;;;
       (if traced_itself o then vret tt else tline TRACE_ALL)
   | None => vret tt
   end) ;;;
  vmod (set_pc (snd r)).

(** One round of the loop of execute. *)
Definition step : vmm ctx unit :=
  n <- vget (fun s => cnt s STEPS) ;;
  x <- vget pc ;;
  if max_steps pol <=? n then
    vmod (set_line (match insn p !! Z.to_nat x with
                    | Some i => if x <? ninsn p then iline i else 0
                    | None => 0 end)) ;;;
    trap DVM_TRAP_STEPS
  else if ninsn p <=? x then
    vmod (set_line (match insn p !! Z.to_nat (ninsn p - 1) with Some i => iline i | None => 0 end)) ;;;
    trap DVM_TRAP_PC
  else
    match insn p !! Z.to_nat x with
    | None => oob
    | Some i =>
        vmod (set_line (iline i)) ;;;
        vmod (bump STEPS 1) ;;;
        a <- vget (fun s => rd s i 0) ;;
        b <- vget (fun s => rd s i 1) ;;
        c <- vget (fun s => rd s i 2) ;;
        match op_of (iop i) with
        | None => trap DVM_TRAP_BADOP
        | Some o => r <- exec_op o i a b c (wrap32 (x + 1)) ;; write_back o i r
        end
    end.

(** [None]: out of bounds, or (never, see [execute_stops]) out of fuel. *)
Fixpoint execute (fuel : nat) (s : vm ctx) : option (dvm_status * vm ctx) :=
  match fuel with
  | O => None
  | S fuel =>
      match step s with
      | Go _ s => execute fuel s
      | Stop w s => Some (w, s)
      | Oob => None
      end
  end.

End Run.

(** ** A whole run *)

(** What outlives a run: the re-entry flag, the two arenas, whether the guard bands
    were ever poisoned, and the machine outside. *)
Record machine (ctx : Type) := Machine {
  in_run : bool; m_mem : Z -> Z; m_dma : Z -> Z; guard_armed : bool; m_world : ctx }.
Arguments Machine {ctx}. Arguments in_run {ctx}. Arguments m_mem {ctx}.
Arguments m_dma {ctx}. Arguments guard_armed {ctx}. Arguments m_world {ctx}.

Definition DVM_DMA_POISON := 0xA5.

Section Machine.

Context {ctx : Type} (bss_end dma_arena : Z).

(** Inside one of the two guard bands around the arena. *)
Definition in_guard (a : Z) : bool :=
  ((dma_arena - DVM_DMA_GUARD <=? a) && (a <? dma_arena)) ||
  ((dma_arena + DVM_DMA_SIZE <=? a) && (a <? dma_arena + DVM_DMA_SIZE + DVM_DMA_GUARD)).

Definition dma_guard_arm (m : Z -> Z) : Z -> Z := fun a =>
  if in_guard a then DVM_DMA_POISON else m a.

(** The first damaged byte above the arena: [over]; [fuel] counts what is left of
    the band. *)
Fixpoint scan_over (fuel : nat) (m : Z -> Z) (i : Z) : option Z :=
  match fuel with
  | O => None
  | S fuel => if negb (m (dma_arena + DVM_DMA_SIZE + i) =? DVM_DMA_POISON) then Some i
              else scan_over fuel m (i + 1)
  end.
Fixpoint scan_under (fuel : nat) (m : Z -> Z) (i : Z) : option Z :=
  match fuel with
  | O => None
  | S fuel => if negb (m (dma_arena - DVM_DMA_GUARD + i - 1) =? DVM_DMA_POISON)
              then Some (DVM_DMA_GUARD - i + 1) else scan_under fuel m (i - 1)
  end.

Definition dvm_dma_check (m : machine ctx) : Z * machine ctx :=
  let arm := Machine (in_run m) (m_mem m) (dma_guard_arm (m_dma m)) true (m_world m) in
  if negb (guard_armed m) then (0, arm)
  else
    let n := Z.to_nat DVM_DMA_GUARD in
    match scan_over n (m_dma m) 0, scan_under n (m_dma m) DVM_DMA_GUARD with
    | None, None => (0, m)
    | _, _ => (1, arm)
    end.

(** What dvm_mem_peek copies out. *)
Definition dvm_mem_peek (m : machine ctx) (off n : Z) : bytes :=
  if (n =? 0) || (DVM_MEM_SIZE <=? off) then []
  else
    let n := if DVM_MEM_SIZE - off <? n then DVM_MEM_SIZE - off else n in
    (fun k => m_mem m (off + Z.of_nat k)) <$> seq 0 (Z.to_nat n).

(** A run that was refused: the result is all zeroes but the status. *)
Definition vm_zero (w : ctx) : vm ctx :=
  Vm (replicate 16 0) [] [] 0 0 false false false (fun _ => 0) (fun _ => 0) (fun _ => 0) w.

(** r0.. from the argument vector, at most 16 of them. *)
Definition entry_regs (args : list Z) : list Z :=
  let l := take 16 args in l ++ replicate (16 - length l) 0.

Definition dvm_run_at (p : dvm_program) (pol : dvm_policy) (io : dvm_io ctx)
    (args : list Z) (start_pc : Z) (m : machine ctx)
  : option (dvm_status * vm ctx * machine ctx) :=
  if in_run m then Some (DVM_TRAP_REENTRY, vm_zero (m_world m), m)
  else
    match dvm_policy_check bss_end dma_arena pol with
    | DVM_OK =>
        match dvm_program_validate p with
        | DVM_OK =>
            if (0 <? start_pc) && (ninsn p <=? start_pc)
            then Some (DVM_TRAP_BADOP, vm_zero (m_world m), m)
            else
              let lines := if trace pol =? 0 then 0 else 6 in
              let armed := negb (dma_size pol =? 0) in
              let dma0 := if armed then dma_guard_arm (m_dma m) else m_dma m in
              let st := Vm (entry_regs args) [] [] start_pc 0 false false false
                           (fun c => if bool_decide (c = TRACE_LINES) then lines else 0)
                           (fun _ => 0) dma0 (m_world m) in
              match execute bss_end dma_arena io p pol (S (Z.to_nat (max_steps pol))) st with
              | None => None
              | Some (w, st) =>
                  Some (w, if trace pol =? 0 then st else bump TRACE_LINES 1 st,
                        Machine false (mem st) (dma st) (armed || guard_armed m) (world st))
              end
        | s => Some (s, vm_zero (m_world m), m)
        end
    | s => Some (s, vm_zero (m_world m), m)
    end.

Definition dvm_run (p : dvm_program) (pol : dvm_policy) (io : dvm_io ctx) (args : list Z)
    (m : machine ctx) := dvm_run_at p pol io args 0 m.

End Machine.
