(* ===== verification/DvmPath.v ===== *)
(** The driver VM: paths. What a path of a program names once "." and ".." are
    resolved, and that a path that reaches the filesystem names something inside the
    granted subtree. *)

From S2P Require Import Prelude Bytes Paths Dvm DvmRun.

(** ** What a path names *)

(** The directory walk: "." stays, ".." goes up, anything else goes down. *)
Definition walk (at_ : list bytes) (c : bytes) : list bytes :=
  if bool_decide (c = lit ".") then at_
  else if bool_decide (c = lit "..") then removelast at_
  else at_ ++ [c].
Definition resolve (path : bytes) : list bytes := fold_left walk (components path) [].

Definition plain (c : bytes) : Prop := c <> lit "." /\ c <> lit "..".

Lemma walk_plain cs : forall at_, Forall plain cs -> fold_left walk cs at_ = at_ ++ cs.
Proof.
  induction cs as [|c cs IH]; intros at_ H; cbn [fold_left]; [by rewrite app_nil_r|].
  apply Forall_cons_iff in H as [[H1 H2] H]. rewrite IH by done. unfold walk.
  rewrite !bool_decide_eq_false_2 by done. by rewrite <- app_assoc.
Qed.

(** ** The component walk of path_ok *)

(** The walk accepts exactly the paths all of whose components are plain. *)
Lemma components_ok_spec fuel : forall s, (length s <= fuel)%nat ->
  components_ok fuel s = true <-> Forall plain (components s).
Proof.
  induction fuel as [|fuel IH]; intros s Hl.
  - destruct s; [|cbn in Hl; lia]. by split; [constructor|].
  - destruct s as [|x s']; [by split; [constructor|]|]. set (s := x :: s') in *.
    change (components_ok (S fuel) s) with
      (let '(c, r) := span_until (ch "/") (skip_seps s) in
       if bool_decide (c = lit ".") || bool_decide (c = lit "..") then false else components_ok fuel r).
    pose proof (span_progress s ltac:(done)) as Hp.
    rewrite <- (components_skip s). unfold components at 1. rewrite comps_span.
    destruct (span_until _ (skip_seps s)) as [c r]. cbn [fst snd app] in *.
    assert (Hf : Forall plain (flush c (components r)) <-> plain c /\ Forall plain (components r)).
    { destruct c; cbn [flush]; [|by rewrite Forall_cons_iff]. split; [|by intros [_ ?]]. by split. }
    rewrite Hf. destruct (bool_decide (c = lit ".")) eqn:E1; cbn [orb].
    { apply bool_decide_eq_true in E1. unfold plain. split; [done|tauto]. }
    destruct (bool_decide (c = lit "..")) eqn:E2.
    { apply bool_decide_eq_true in E2. unfold plain. split; [done|tauto]. }
    apply bool_decide_eq_false in E1, E2. rewrite IH by lia. unfold plain. tauto.
Qed.

Lemma path_ok_spec s :
  path_ok s = true <->
  0 < zlen s < DVM_PATH_MAX /\ head s = Some (ch "/") /\ Forall (fun c => 0x20 <= c < 0x7F) s /\
  Forall plain (components s).
Proof.
  unfold path_ok. pose proof (zlen_nonneg s). rewrite <- (components_ok_spec (length s) s) by done.
  assert (Hpr : forallb printable s = true <-> Forall (fun c => 0x20 <= c < 0x7F) s).
  { rewrite forallb_forall, Forall_forall. unfold printable. split; intros H0 c Hc; specialize (H0 c Hc); lia. }
  rewrite <- Hpr. clear Hpr.
  ztest; [split; [done|lia]|]. ztest; [split; [done|lia]|].
  destruct (bool_decide _) eqn:E; cbn [negb];
    [apply bool_decide_eq_true in E|apply bool_decide_eq_false in E; split; [done|tauto]].
  destruct (forallb printable s); cbn [negb]; intuition (try done; lia).
Qed.

(** ** Confinement *)

Lemma components_below root rest :
  zlen root = 1 /\ head root = Some (ch "/") \/ rest = [] \/ (exists t, rest = ch "/" :: t) ->
  exists tail, components (root ++ rest) = components root ++ tail.
Proof.
  intros [[H1 H2]|[->|[t ->]]].
  - destruct root as [|c [|c' r]]; [done| |autorewrite with zlen in H1; pose proof (zlen_nonneg r); lia].
    injection H2 as ->. by exists (components rest).
  - exists []. by rewrite !app_nil_r.
  - exists (components t). apply comps_app.
Qed.


Lemma under_root_spec root : forall path,
  under_root root path = true <-> exists rest, path = root ++ rest.
Proof.
  induction root as [|r root IH]; intros path; cbn [under_root app]; [by split; eauto|].
  destruct path as [|c path]; [split; [done|by intros (? & ?)]|].
  rewrite andb_true_iff, Z.eqb_eq, IH. split.
  - intros (-> & rest & ->). eauto.
  - intros (rest & [= -> ->]). eauto.
Qed.

(** What the byte after the root says. *)
Lemma below_boundary root rest :
  zlen root <> 0 -> head (root ++ rest) = Some (ch "/") ->
  Forall (fun c => 0x20 <= c < 0x7F) (root ++ rest) ->
  (1 <? zlen root) && negb (nth (length root) (root ++ rest) 0 =? ch "/") &&
    negb (nth (length root) (root ++ rest) 0 =? 0) = false ->
  zlen root = 1 /\ head root = Some (ch "/") \/ rest = [] \/ (exists t, rest = ch "/" :: t).
Proof.
  intros Hne Hh Hpr Hb. pose proof (zlen_nonneg root).
  assert (Hr : head root = Some (ch "/")) by (by destruct root).
  rewrite app_nth2, Nat.sub_diag in Hb by lia.
  destruct rest as [|c t]; [auto|]. cbn [nth] in Hb.
  apply Forall_app in Hpr as [_ Hpr]. apply Forall_cons_iff in Hpr as [Hc _].
  destruct (Z.eqb_spec c (ch "/")) as [->|Hs]; [eauto|]. left. split; [|done].
  rewrite (proj2 (Z.eqb_neq c 0)) in Hb by lia. cbn [negb andb] in Hb. b2p. lia.
Qed.

Section Confined.

Context {ctx : Type} (pol : dvm_policy).

(** Inversion of the computations sys_path is made of. *)
Lemma refuse_go bad w s a (s' : vm ctx) : refuse pol bad w s = Go a s' -> bad = false /\ s' = s.
Proof using. unfold refuse, trap, vret. destruct bad; [done|]. by intros [= <- <-]. Qed.

Lemma bind_go {A B} (m : vmm ctx A) (k : A -> vmm ctx B) s b s' :
  vbind m k s = Go b s' -> exists a s1, m s = Go a s1 /\ k a s1 = Go b s'.
Proof using. unfold vbind. destruct (m s) as [a s1|w s1|]; try done. eauto. Qed.

Lemma mgets_go k : forall off s bs (s' : vm ctx), mgets k off s = Go bs s' ->
  s' = s /\ bs = (fun j => mem s (off + Z.of_nat j)) <$> seq 0 k.
Proof using.
  induction k as [|k IH]; intros off s bs s'; cbn [mgets]; [by intros [= <- <-]|]. intros H.
  apply bind_go in H as (b & s1 & H1 & H). apply bind_go in H as (r & s2 & H2 & H).
  unfold mget in H1. destruct (_ && _) in H1; [|done]. injection H1 as <- <-.
  apply IH in H2 as [-> ->]. injection H as <- <-. split; [done|].
  cbn [seq fmap list_fmap]. f_equal; [f_equal; lia|]. rewrite <- fmap_S_seq, <- list_fmap_compose.
  apply list_fmap_ext. intros j x _. cbn. f_equal. lia.
Qed.

(** C35: the filesystem sandbox. When a syscall's path is let through, it is the bytes
    of scratch memory the program named, it is absolute, printable and short, and the
    directory walk it stands for, "." and ".." included, ends at the granted root or
    below it. *)
Theorem sys_path_confined off len (s : vm ctx) path s' :
  sys_path pol off len s = Go path s' ->
  path = (fun j => mem s (off + Z.of_nat j)) <$> seq 0 (Z.to_nat len) /\
  0 < zlen path < DVM_PATH_MAX /\ Forall (fun c => 0x20 <= c < 0x7F) path /\
  resolve path = components path /\
  exists tail, resolve path = resolve (cstr (fs_root pol)) ++ tail.
Proof using.
  unfold sys_path. intros H.
  apply bind_go in H as (u1 & s1 & H1 & H). apply refuse_go in H1 as [_ ->].
  apply bind_go in H as (u2 & s2 & H2 & H).
  apply bind_go in H as (u3 & s3 & H3 & H). apply refuse_go in H3 as [_ ->].
  apply bind_go in H as (bs & s4 & H4 & H). apply mgets_go in H4 as [-> Hbs].
  apply bind_go in H as (u5 & s5 & H5 & H). apply refuse_go in H5 as [Hok ->].
  apply bind_go in H as (u6 & s6 & H6 & H). apply refuse_go in H6 as [Hne ->].
  apply bind_go in H as (u7 & s7 & H7 & H). apply refuse_go in H7 as [Hu ->].
  injection H as <- <-. apply negb_false_iff in Hok. apply Z.eqb_neq in Hne.
  apply negb_false_iff, andb_true_iff in Hu as [Hu Hb]. apply negb_true_iff in Hb.
  assert (Hmem : mem s2 = mem s).
  { unfold mem_charge in H2. apply bind_go in H2 as (n & s0 & E0 & H2). injection E0 as <- <-.
    apply bind_go in H2 as (? & s0 & E0 & H2). apply refuse_go in E0 as [_ ->]. by injection H2 as <- <-. }
  rewrite Hmem in Hbs. split; [done|]. clear Hbs.
  apply path_ok_spec in Hok as (Hl & Hh & Hpr & Hpl).
  assert (Hres : forall s, Forall plain (components s) -> resolve s = components s).
  { intros x Hx. unfold resolve. by rewrite walk_plain. }
  split; [done|]. split; [done|]. split; [by apply Hres|].
  apply under_root_spec in Hu as (rest & ->).
  destruct (components_below (cstr (fs_root pol)) rest) as [tail Ht].
  { by eapply below_boundary. }
  exists tail. rewrite Ht in Hpl. apply Forall_app in Hpl as [Hpr' Hpt].
  rewrite !Hres by (rewrite ?Ht; try apply Forall_app; done). done.
Qed.

End Confined.

(** A program that may use "/apps" opens "/apps/x". *)
Definition apps_policy : dvm_policy :=
  (dvm_policy_set_fs_root (lit "/apps") dvm_policy_init).2.
Definition apps_vm : vm unit :=
  Vm (replicate 16 0) [] [] 0 0 false false false (fun _ => 0)
    (fun o => nth (Z.to_nat o) (lit "/apps/x") 0) (fun _ => 0) tt.

Lemma sys_path_confined_witness :
  exists tail, resolve (lit "/apps/x") = resolve (cstr (fs_root apps_policy)) ++ tail.
Proof.
  destruct (sys_path_confined apps_policy 0 7 apps_vm (lit "/apps/x") (bump MEM_BYTES 7 apps_vm))
    as (_ & _ & _ & _ & H); [vm_compute; reflexivity|exact H].
Defined.
