(* ===== verification/DvmSafe.v ===== *)
(** The driver VM: what a run may touch and how long it may take. An invariant of
    the interpreter is established and carried through every instruction with a
    weakest-precondition calculus for its computations. *)

From S2P Require Import Prelude Bytes Paths Dvm DvmRun DvmPath.

Definition u64 (x : Z) : Prop := 0 <= x < 2 ^ 64.

(** A 64-bit sum that is not below its first term did not wrap. *)
Lemma wrap64_no_carry x k : 0 <= x < 2 ^ 64 -> 0 <= k < 2 ^ 64 -> x <= wrap64 (x + k) -> x + k < 2 ^ 64.
Proof.
  intros Hx Hk H. destruct (Z.lt_ge_cases (x + k) (2 ^ 64)); [done|].
  unfold wrap in H. replace (x + k) with (x + k - 2 ^ 64 + 1 * 2 ^ 64) in H by lia.
  rewrite Z_mod_plus_full, Z.mod_small in H by lia. lia.
Qed.

(** ** What the C types guarantee *)

Record insn_typed (i : dvm_insn) : Prop := {
  it_dst : 0 <= dst i <= 255;
  it_val : Forall u64 (val i) }.

(** The array of instructions has DVM_MAX_INSNS elements, whatever [ninsn] says. *)
Record program_typed (p : dvm_program) : Prop := {
  pt_insn : Forall insn_typed (insn p);
  pt_size : length (insn p) = 256%nat;
  pt_count : 0 <= ninsn p }.

Record policy_typed (pol : dvm_policy) : Prop := {
  lt_ports : Forall (fun r => 0 <= lo r) (port pol);
  lt_mmio : Forall (fun w => u64 (wbase w) /\ u64 (wsize w)) (mmio pol);
  lt_dma : u64 (dma_base pol) /\ u64 (dma_size pol);
  lt_budgets : 0 <= max_steps pol /\ 0 <= max_io pol /\ 0 <= max_dma_ops pol /\
               0 <= max_mem_bytes pol /\ 0 <= max_sys pol /\ 0 <= max_delay_us pol /\
               0 <= max_single_delay_us pol /\ 0 <= max_prints pol /\ 0 <= max_trace pol }.

(** ** What is permitted *)

Section Permitted.

Context (bss_end : Z) (pol : dvm_policy).

Definition access_width (w : Z) : Prop := w = 1 \/ w = 2 \/ w = 4.

(** Inside a granted range, in the I/O space, and clear of the deny list. *)
Definition permitted_port (prt w : Z) : Prop :=
  access_width w /\ 0 <= prt /\ prt + w - 1 <= 0xFFFF /\
  (exists r, r ∈ port pol /\ lo r <= prt /\ prt + w - 1 <= hi r) /\
  (forall d, d ∈ port_deny -> hi d < prt \/ prt + w - 1 < lo d).

(** Inside a granted window with the right to this access, above the kernel, below
    4 GiB, clear of the platform block, and naturally aligned. *)
Definition permitted_mmio (addr w flag : Z) : Prop :=
  access_width w /\ kernel_top bss_end <= addr /\ addr + w <= MMIO_TOP /\
  (addr + w <= DVM_PLATFORM_LO \/ DVM_PLATFORM_HI <= addr) /\ addr mod w = 0 /\
  exists win, win ∈ mmio pol /\ wbase win <= addr /\ addr + w <= wbase win + wsize win /\
              Z.land (wflags win) flag <> 0.

Definition permitted_pci (b d f off : Z) : Prop :=
  0 <= off <= 0xFF /\ Z.land off 3 = 0 /\
  exists g, g ∈ pci pol /\ bus g = b /\ pdev g = d /\ fn g = f.

Definition granted (nr : Z) : Prop := Z.land (sys_allow pol) (Z.shiftl 1 nr) <> 0.

(** A legal path inside the granted subtree: the root itself, or below it. *)
Definition permitted_path (path : bytes) : Prop :=
  path_ok path = true /\ cstr (fs_root pol) <> [] /\
  exists rest, path = cstr (fs_root pol) ++ rest /\
    (zlen (cstr (fs_root pol)) = 1 \/ rest = [] \/ exists t, rest = ch "/" :: t).

End Permitted.

(** ** Backends *)

(** A backend that keeps [P] as long as it is only asked for what is permitted, and
    returns values of its C types. *)
Record sys_ok {ctx} (pol : dvm_policy) (P : ctx -> Prop) (y : dvm_sys ctx) : Prop := {
  ok_con : forall h, con_write y = Some h -> granted pol 0 -> forall t w, P w ->
    zlen t <= DVM_SAY_MAX -> forallb printable t = true ->
    P (h t w).2 /\ - 2 ^ 63 <= (h t w).1 < 2 ^ 63;
  ok_read : forall h, fs_read y = Some h -> granted pol 1 -> forall path c w, P w ->
    0 <= c -> permitted_path pol path ->
    P (h path c w).2 /\ - 2 ^ 63 <= (h path c w).1.1 < 2 ^ 63 /\ zlen (h path c w).1.2 <= c;
  ok_write : forall h, fs_write y = Some h -> granted pol 2 -> forall path t w, P w ->
    permitted_path pol path ->
    P (h path t w).2 /\ - 2 ^ 63 <= (h path t w).1 < 2 ^ 63;
  ok_size : forall h, fs_size y = Some h -> granted pol 3 -> forall path w, P w ->
    permitted_path pol path -> P (h path w).2 /\ - 2 ^ 63 <= (h path w).1 < 2 ^ 63;
  ok_tone : forall h, audio_tone y = Some h -> granted pol 4 -> forall hz ms w, P w ->
    20 <= hz <= 20000 -> 1 <= ms <= 5000 -> P (h hz ms w).2 /\ - 2 ^ 63 <= (h hz ms w).1 < 2 ^ 63;
  ok_time : forall h, time_ms y = Some h -> granted pol 5 -> forall w, P w ->
    P (h w).2 /\ - 2 ^ 63 <= (h w).1 < 2 ^ 63;
  ok_fetch : forall h, net_fetch y = Some h -> granted pol 6 -> forall url c w, P w ->
    0 <= c -> zlen url < FETCH_URL_MAX ->
    P (h url c w).2 /\ - 2 ^ 63 <= (h url c w).1.1 < 2 ^ 63 /\ zlen (h url c w).1.2 <= c }.

Record backend_ok {ctx} (bss_end : Z) (pol : dvm_policy) (P : ctx -> Prop) (io : dvm_io ctx)
  : Prop := {
  ok_out : forall h, port_write io = Some h -> forall prt w v c, P c ->
    permitted_port pol prt w -> P (h prt w v c);
  ok_in : forall h, port_read io = Some h -> forall prt w c, P c ->
    permitted_port pol prt w -> P (h prt w c).2 /\ 0 <= (h prt w c).1 < 2 ^ 32;
  ok_st : forall h, mmio_write io = Some h -> forall addr w v c, P c ->
    permitted_mmio bss_end pol addr w DVM_MMIO_W -> P (h addr w v c);
  ok_ld : forall h, mmio_read io = Some h -> forall addr w c, P c ->
    permitted_mmio bss_end pol addr w DVM_MMIO_R -> P (h addr w c).2 /\ 0 <= (h addr w c).1 < 2 ^ 32;
  ok_pci : forall h, pci_read32 io = Some h -> forall b d f off c, P c ->
    permitted_pci pol b d f off -> P (h b d f off c).2 /\ 0 <= (h b d f off c).1 < 2 ^ 32;
  ok_delay : forall h, delay_us io = Some h -> forall us c, P c ->
    0 <= us <= max_single_delay_us pol -> P (h us c);
  ok_sys : forall y, sys io = Some y -> sys_ok pol P y }.

(** ** The invariant *)

Section Safe.

Context {ctx : Type} (bss_end dma_arena : Z) (io : dvm_io ctx) (p : dvm_program)
        (pol : dvm_policy) (P : ctx -> Prop) (dma0 : Z -> Z).

Context (Hpol : dvm_policy_check bss_end dma_arena pol = DVM_OK).
Context (Hprog : dvm_program_validate p = DVM_OK).
Context (Tprog : program_typed p) (Tpol : policy_typed pol).
Context (Hio : backend_ok bss_end pol P io).
Context (Harena : 0 <= dma_arena /\ dma_arena + DVM_DMA_SIZE < 2 ^ 64).

(** The DMA addresses this run was granted. *)
Definition in_grant (a : Z) : Prop := dma_base pol <= a < dma_base pol + dma_size pol.

Record Inv (n : Z) (s : vm ctx) : Prop := {
  i_reg : length (reg s) = 16%nat /\ Forall u64 (reg s);
  i_dstack : count (dstack s) <= DVM_DSTACK /\ Forall u64 (dstack s);
  i_cstack : count (cstack s) <= DVM_CSTACK /\ Forall (fun x => 0 <= x) (cstack s);
  i_pc : 0 <= pc s <= ninsn p;
  i_mem : forall o, 0 <= mem s o < 256;
  i_dma : forall a, 0 <= dma s a < 256;
  i_dma0 : forall a, ~ in_grant a -> dma s a = dma0 a;
  i_world : P (world s);
  i_nonneg : forall c, 0 <= cnt s c;
  i_steps : cnt s STEPS = n;
  i_io : cnt s IO_OPS <= max_io pol;
  i_bytes : cnt s MEM_BYTES <= max_mem_bytes pol;
  i_sys : cnt s N_SYS <= max_sys pol;
  i_delay : cnt s DELAY_US <= max_delay_us pol;
  i_prints : cnt s PRINTS <= max_prints pol;
  i_ndma : cnt s N_DMA_RD + cnt s N_DMA_WR <= max_dma_ops pol;
  i_trace : cnt s TRACE_LINES <= Z.max 6 (max_trace pol) + if quiet s then 1 else 0 }.

(** Where a run may stop: in the invariant, after at most one trap line. *)
Definition Fin (s : vm ctx) : Prop :=
  exists n s0, n <= max_steps pol /\ Inv n s0 /\ (s = s0 \/ s = bump TRACE_LINES 1 s0).

(** The statuses a run can end with once it has started. *)
Definition run_status (w : dvm_status) : bool :=
  match w with DVM_TRAP_BADOP | DVM_TRAP_POLICY | DVM_TRAP_REENTRY => false | _ => true end.

(** The budgets of a checked policy are below the ceilings. *)
Record capped : Prop := {
  cap_steps : 1 <= max_steps pol <= CEIL_STEPS;
  cap_io : max_io pol <= CEIL_IO;
  cap_dma : max_dma_ops pol <= CEIL_DMA_OPS;
  cap_mem : max_mem_bytes pol <= CEIL_MEM_BYTES;
  cap_sys : max_sys pol <= CEIL_SYS;
  cap_delay : max_delay_us pol <= CEIL_DELAY_US;
  cap_single : max_single_delay_us pol <= CEIL_SINGLE_US;
  cap_prints : max_prints pol <= CEIL_PRINTS;
  cap_trace : max_trace pol <= CEIL_TRACE;
  cap_wins : forall w, w ∈ mmio pol -> mmio_win_bad bss_end w = false;
  cap_grant : dma_base pol <> 0 \/ dma_size pol <> 0 -> dma_grant_bad dma_arena pol = false }.

Lemma existsb_false {A} (f : A -> bool) l x : existsb f l = false -> x ∈ l -> f x = false.
Proof using.
  intros H Hx. destruct (f x) eqn:E; [|done].
  assert (existsb f l = true) by (apply existsb_exists; exists x; by rewrite <- list_elem_of_In).
  congruence.
Qed.

Lemma policy_capped : capped.
Proof using Hpol Tpol.
  pose proof Hpol as H. pose proof (lt_budgets _ Tpol). unfold dvm_policy_check in H.
  repeat match type of H with (if ?b then DVM_TRAP_POLICY else _) = _ =>
    let E := fresh "E" in destruct b eqn:E; [discriminate|] end.
  b2p. split; try lia.
  - intros w Hw. by eapply existsb_false.
  - intros Hg. match goal with E : _ || _ = false |- _ => idtac | _ => idtac end.
    destruct (dma_grant_bad dma_arena pol) eqn:Eg; [|done]. exfalso.
    repeat match goal with E : _ \/ _ |- _ => destruct E end; b2p; try done; lia.
Qed.

(** ** Weakest preconditions *)

Definition wp {A} (m : vmm ctx A) (Q : A -> vm ctx -> Prop) (s : vm ctx) : Prop :=
  match m s with Go a s' => Q a s' | Stop w s' => run_status w = true /\ Fin s' | Oob => False end.

Lemma wp_bind {A B} (m : vmm ctx A) (k : A -> vmm ctx B) Q s :
  wp m (fun a => wp (k a) Q) s -> wp (vbind m k) Q s.
Proof using. unfold wp, vbind. by destruct (m s). Qed.

Lemma wp_mono {A} (m : vmm ctx A) (Q R : A -> vm ctx -> Prop) s :
  wp m Q s -> (forall a s', Q a s' -> R a s') -> wp m R s.
Proof using. unfold wp. intros H HQ. destruct (m s); auto. Qed.

Lemma wp_trap {A} n w (Q : A -> vm ctx -> Prop) s :
  n <= max_steps pol -> run_status w = true -> Inv n s -> wp (trap pol w) Q s.
Proof using.
  intros. unfold wp, trap. split; [done|]. exists n, s. split; [done|]. split; [done|]. destruct (trace pol =? 0); auto.
Qed.

Lemma wp_refuse n bad w Q s :
  n <= max_steps pol -> run_status w = true -> Inv n s -> (bad = false -> Q tt s) ->
  wp (refuse pol bad w) Q s.
Proof using. intros Hn Hw Hi HQ. destruct bad; [by eapply wp_trap|]. by apply HQ. Qed.

Lemma wp_mod n f Q s :
  Inv n (f s) -> (Inv n (f s) -> Q tt (f s)) -> wp (vmod f) Q s.
Proof using. unfold wp, vmod. auto. Qed.

(** ** Changes that keep the invariant *)

Lemma cnt_bump_ne c c' k (s : vm ctx) : c' <> c -> cnt (bump c k s) c' = cnt s c'.
Proof using. intros. unfold bump, set_cnt. cbn. by rewrite bool_decide_eq_false_2. Qed.
Lemma cnt_bump_eq c k (s : vm ctx) : cnt (bump c k s) c = wrap (ctr_width c) (cnt s c + k).
Proof using. unfold bump, set_cnt. cbn. by rewrite bool_decide_eq_true_2. Qed.

Lemma cnt_bump_small c k (s : vm ctx) :
  0 <= cnt s c + k < 2 ^ 32 -> cnt (bump c k s) c = cnt s c + k.
Proof using.
  intros. rewrite cnt_bump_eq. apply wrap_small. destruct c; cbn [ctr_width]; lia.
Qed.

Lemma cnt_nonneg_bump c k (s : vm ctx) : (forall c, 0 <= cnt s c) -> forall c', 0 <= cnt (bump c k s) c'.
Proof using.
  intros H c'. destruct (decide (c' = c)) as [->|Hne].
  - rewrite cnt_bump_eq. apply wrap_range. destruct c; cbn [ctr_width]; lia.
  - by rewrite cnt_bump_ne.
Qed.

(** A counter with no budget of its own. *)
Definition loose (c : ctr) : Prop :=
  match c with
  | N_PORT_RD | N_PORT_WR | N_MMIO_RD | N_MMIO_WR | N_PCI_RD | N_MEM_RD | N_MEM_WR | MEM_HWM
  | TRACE_DROPPED => True
  | _ => False
  end.

Ltac inv_fields := match goal with H : Inv _ _ |- _ => destruct H end.

Lemma inv_set_reg n s r : length r = 16%nat -> Forall u64 r -> Inv n s -> Inv n (set_reg r s).
Proof using. intros. inv_fields. by split. Qed.
Lemma inv_set_dstack n s l :
  count l <= DVM_DSTACK -> Forall u64 l -> Inv n s -> Inv n (set_dstack l s).
Proof using. intros. inv_fields. by split. Qed.
Lemma inv_set_cstack n s l :
  count l <= DVM_CSTACK -> Forall (fun x => 0 <= x) l -> Inv n s -> Inv n (set_cstack l s).
Proof using. intros. inv_fields. by split. Qed.
Lemma inv_set_pc n s x : 0 <= x <= ninsn p -> Inv n s -> Inv n (set_pc x s).
Proof using. intros. inv_fields. by split. Qed.
Lemma inv_set_line n s x : Inv n s -> Inv n (set_line x s).
Proof using. intros. inv_fields. by split. Qed.
Lemma inv_set_flags n s z b : Inv n s -> Inv n (set_flags z b s).
Proof using. intros. inv_fields. by split. Qed.
Lemma inv_set_mem n s m : (forall o, 0 <= m o < 256) -> Inv n s -> Inv n (set_mem m s).
Proof using. intros. inv_fields. by split. Qed.
Lemma inv_set_world n s w : P w -> Inv n s -> Inv n (set_world w s).
Proof using. intros. inv_fields. by split. Qed.
Lemma inv_set_dma n s m :
  (forall a, 0 <= m a < 256) -> (forall a, ~ in_grant a -> m a = dma0 a) ->
  Inv n s -> Inv n (set_dma m s).
Proof using. intros. inv_fields. by split. Qed.

Ltac bumped :=
  inv_fields; split; try done; try (by apply cnt_nonneg_bump);
  rewrite ?cnt_bump_ne by done; try done.

Lemma inv_bump_loose n s c k : loose c -> Inv n s -> Inv n (bump c k s).
Proof using. intros Hc ?. destruct c; try destruct Hc; bumped. Qed.

Lemma inv_set_hwm n s x : 0 <= x -> Inv n s -> Inv n (set_cnt MEM_HWM x s).
Proof using.
  intros Hx ?. inv_fields. split; try done. intros c. cbn. by case_bool_decide.
Qed.

(** Charging a counter that stays within its budget. *)
Lemma inv_bump_budget n s c k :
  Inv n s -> 0 <= k -> cnt s c + k < 2 ^ 32 ->
  match c with
  | IO_OPS => cnt s c + k <= max_io pol
  | MEM_BYTES => cnt s c + k <= max_mem_bytes pol
  | N_SYS => cnt s c + k <= max_sys pol
  | DELAY_US => cnt s c + k <= max_delay_us pol
  | PRINTS => cnt s c + k <= max_prints pol
  | N_DMA_RD | N_DMA_WR => cnt s N_DMA_RD + cnt s N_DMA_WR + k <= max_dma_ops pol
  | TRACE_LINES => cnt s c + k <= Z.max 6 (max_trace pol) + if quiet s then 1 else 0
  | _ => False
  end -> Inv n (bump c k s).
Proof using.
  intros Hi Hk Hs Hb. pose proof (i_nonneg _ _ Hi c) as H0.
  destruct c; try done; bumped; rewrite cnt_bump_small by lia;
    rewrite ?cnt_bump_ne by done; cbn [quiet bump set_cnt]; lia.
Qed.

Lemma inv_step n s : Inv n s -> n < max_steps pol -> Inv (n + 1) (bump STEPS 1 s).
Proof using Hpol Tpol.
  intros Hi Hn. destruct policy_capped as [Hc _ _ _ _ _ _ _ _ _ _]. unfold CEIL_STEPS in Hc.
  pose proof (i_nonneg _ _ Hi STEPS). pose proof (i_steps _ _ Hi).
  bumped. rewrite cnt_bump_small; lia.
Qed.

Lemma inv_set_quiet n s : Inv n s -> quiet s = false -> Inv n (set_quiet s).
Proof using. intros ? Hq. inv_fields. rewrite Hq in *. split; try done. cbn. lia. Qed.

Lemma inv_trace n s : Inv n s -> Inv n (snd (trace_budget pol s)).
Proof using Hpol Tpol.
  intros Hi. pose proof policy_capped as Hc. pose proof (cap_trace Hc) as Ht. unfold CEIL_TRACE in Ht.
  pose proof (i_trace _ _ Hi) as Hl. pose proof (i_nonneg _ _ Hi TRACE_LINES) as H0.
  unfold trace_budget. destruct (quiet s) eqn:Eq; cbn [orb].
  - by apply inv_bump_loose.
  - destruct (Z.leb_spec (max_trace pol) (cnt s TRACE_LINES)) as [H|H]; cbn [snd].
    + apply inv_bump_loose; [done|]. apply inv_bump_budget; cbn [quiet set_quiet cnt]; try lia.
      by apply inv_set_quiet.
    + apply inv_bump_budget; rewrite ?Eq; try lia. done.
Qed.

Lemma wp_tline n l Q s : Inv n s -> (forall s', Inv n s' -> Q tt s') -> wp (tline pol l) Q s.
Proof using Hpol Tpol.
  intros Hi HQ. unfold tline. destruct (l <=? trace pol); [|by apply HQ].
  apply (wp_mod n); auto using inv_trace.
Qed.

(** ** The gates *)

Section Ops.

Context (n : Z) (Hn : n <= max_steps pol).

Lemma wp_get_bind {A B} (f : vm ctx -> A) (k : A -> vmm ctx B) Q s :
  wp (k (f s)) Q s -> wp (vbind (vget f) k) Q s.
Proof using. auto. Qed.

Lemma wp_mod_bind {B} f (k : unit -> vmm ctx B) Q s :
  Inv n (f s) -> (Inv n (f s) -> wp (k tt) Q (f s)) -> wp (vbind (vmod f) k) Q s.
Proof using. intros Hi H. apply wp_bind. by apply (wp_mod n). Qed.

Lemma wp_refuse_bind {B} bad w (k : unit -> vmm ctx B) Q s :
  run_status w = true -> Inv n s -> (bad = false -> wp (k tt) Q s) ->
  wp (vbind (refuse pol bad w) k) Q s.
Proof using Hn. intros Hw Hi H. apply wp_bind. by apply (wp_refuse n). Qed.

Lemma wp_tline_bind {B} l (k : unit -> vmm ctx B) Q s :
  Inv n s -> (forall s', Inv n s' -> wp (k tt) Q s') -> wp (vbind (tline pol l) k) Q s.
Proof using Hpol Tpol. intros Hi H. apply wp_bind. by apply (wp_tline n). Qed.

(** One instruction of the interpreter's own code. *)
Local Ltac vstep :=
  lazymatch goal with
  | |- wp (vbind (refuse _ _ _) _) _ _ => apply wp_refuse_bind; [reflexivity|eassumption|intros ?]
  | |- wp (vbind (vget _) _) _ _ => apply wp_get_bind
  | |- wp (vbind (tline _ _) _) _ _ => apply wp_tline_bind; [eassumption|intros ? ?]
  | |- wp (trap _ _) _ _ => by eapply wp_trap
  end.

Lemma wp_charge_io Q s : Inv n s -> (forall s', Inv n s' -> Q tt s') -> wp (charge_io pol) Q s.
Proof using Hpol Tpol Hn.
  intros Hi HQ. unfold charge_io. do 2 vstep. b2p.
  pose proof (cap_io policy_capped) as Hc. unfold CEIL_IO in Hc.
  apply (wp_mod n); [|auto]. apply inv_bump_budget; try done; lia.
Qed.

Lemma wp_port_gate raw w Q s :
  u64 raw -> access_width w -> Inv n s ->
  (forall s', Inv n s' -> permitted_port pol raw w -> Q tt s') -> wp (port_gate pol raw w) Q s.
Proof using Hpol Tpol Hn.
  intros Hr Hw Hi HQ. unfold port_gate, u64 in *. do 3 vstep.
  apply wp_charge_io; [done|]. intros s' Hs. apply HQ; [done|]. b2p.
  assert (0 <= w <= 4) by (destruct Hw as [->|[->| ->]]; lia).
  rewrite wrap64_small in * by (destruct Hw as [->|[->| ->]]; lia).
  split; [done|]. split; [lia|]. split; [done|]. split.
  - match goal with H : port_allowed _ _ _ = true |- _ => 
      apply existsb_exists in H as (r & Hin & Hb) end. b2p. exists r. by rewrite list_elem_of_In.
  - intros d Hd. match goal with H : port_denied _ _ = false |- _ =>
      pose proof (existsb_false _ _ d H Hd) as Hf end. cbn beta in Hf. b2p. lia.
Qed.

Lemma wp_mmio_gate addr w (write : bool) Q s :
  u64 addr -> access_width w -> Inv n s ->
  (forall s', Inv n s' ->
     permitted_mmio bss_end pol addr w (if write then DVM_MMIO_W else DVM_MMIO_R) -> Q tt s') ->
  wp (mmio_gate bss_end pol addr w write) Q s.
Proof using Hpol Tpol Hn.
  intros Ha Hw Hi HQ. unfold mmio_gate, u64 in *. do 3 vstep. b2p.
  assert (0 < w <= 4) by (destruct Hw as [->|[->| ->]]; lia).
  pose proof (wrap64_no_carry addr w ltac:(lia) ltac:(lia) ltac:(lia)) as Hnw.
  rewrite (wrap64_small (addr + w)) in * by lia.
  destruct (find _ _) as [win|] eqn:Ef; [|vstep].
  apply find_some in Ef as [HIn Hwin]. pose proof (proj2 (list_elem_of_In _ _) HIn) as Hin.
  do 3 vstep. apply wp_charge_io; [done|]. intros s' Hs. apply HQ; [done|].
  pose proof (cap_wins policy_capped win Hin) as Hbad. unfold mmio_win_bad in Hbad.
  destruct (proj1 (Forall_forall _ _) (lt_mmio _ Tpol) win HIn) as [Hb1 Hb2]. unfold u64 in *.
  unfold in_window in Hwin. b2p. rewrite (wrap64_small (addr + w)) in * by lia.
  pose proof (wrap64_no_carry (wbase win) (wsize win) ltac:(lia) ltac:(lia) ltac:(lia)) as Hnb.
  rewrite (wrap64_small (wbase win + wsize win)) in * by lia.
  split; [done|]. repeat split; try lia.
  exists win. repeat split; try lia; try done.
  destruct write; cbn [andb negb] in *; b2p; lia.
Qed.

(** ** The DMA arena *)

Lemma grant_inside : dma_size pol <> 0 ->
  dma_arena <= dma_base pol /\ dma_base pol + dma_size pol <= dma_arena + DVM_DMA_SIZE /\
  dma_arena + DVM_DMA_SIZE <= MMIO_TOP.
Proof using Hpol Tpol Harena.
  intros Hs. pose proof (cap_grant policy_capped (or_intror Hs)) as Hg.
  destruct (lt_dma _ Tpol) as [Hb Hz]. unfold dma_grant_bad, u64, DVM_DMA_SIZE in *. b2p.
  pose proof (wrap64_no_carry (dma_base pol) (dma_size pol) ltac:(lia) ltac:(lia) ltac:(lia)).
  rewrite !wrap64_small in * by lia. lia.
Qed.

(** An access the gate lets through lies inside the grant. *)
Lemma wp_dma_gate addr w Q s :
  u64 addr -> access_width w -> dma_touches pol addr w = true -> Inv n s ->
  (dma_base pol <= addr -> addr + w <= dma_base pol + dma_size pol -> dma_size pol <> 0 ->
   cnt s N_DMA_RD + cnt s N_DMA_WR < max_dma_ops pol -> Q tt s) ->
  wp (dma_gate pol addr w) Q s.
Proof using Hpol Tpol Hn Harena.
  intros Ha Hw Ht Hi HQ. unfold dma_gate, dma_touches, u64 in *.
  destruct (Z.eqb_spec (dma_size pol) 0) as [?|Hs]; [done|].
  destruct (grant_inside Hs) as (G1 & G2 & G3). do 3 vstep. apply (wp_refuse n); [done..|]. intros ?.
  destruct (lt_dma _ Tpol) as [Hb Hz]. unfold u64, MMIO_TOP in *. b2p.
  rewrite (wrap64_small (dma_base pol + dma_size pol)) in * by lia.
  rewrite (wrap64_small (addr + w)) in * by (destruct Hw as [->|[->| ->]]; lia).
  apply HQ; lia.
Qed.

Lemma dget_in a (s : vm ctx) :
  dma_base pol <= a < dma_base pol + dma_size pol -> dma_size pol <> 0 ->
  dget dma_arena a s = Go (dma s a) s.
Proof using Hpol Tpol Harena.
  intros Ha Hs. destruct (grant_inside Hs) as (G1 & G2 & G3). unfold dget.
  by rewrite range_in by lia.
Qed.

Lemma wp_dma_load k : forall addr Q s, Inv n s ->
  dma_base pol <= addr -> addr + Z.of_nat k <= dma_base pol + dma_size pol -> dma_size pol <> 0 ->
  (forall v, 0 <= v < 256 ^ Z.of_nat k -> Q v s) -> wp (dma_load dma_arena k addr) Q s.
Proof using Hpol Tpol Harena.
  induction k as [|k IH]; intros addr Q s Hi Ha He Hs HQ; cbn [dma_load].
  - apply HQ. lia.
  - apply wp_bind. unfold wp at 1. rewrite dget_in by lia. apply wp_bind.
    apply IH; [done|lia..|]. intros v Hv. apply HQ.
    pose proof (i_dma _ _ Hi addr). rewrite Nat2Z.inj_succ, Z.pow_succ_r by lia. lia.
Qed.

Lemma wp_dma_store k : forall addr v Q s, Inv n s ->
  dma_base pol <= addr -> addr + Z.of_nat k <= dma_base pol + dma_size pol -> dma_size pol <> 0 ->
  (forall s', Inv n s' -> cnt s' = cnt s -> Q tt s') -> wp (dma_store dma_arena k addr v) Q s.
Proof using Hpol Tpol Harena.
  induction k as [|k IH]; intros addr v Q s Hi Ha He Hs HQ; cbn [dma_store].
  - by apply HQ.
  - destruct (grant_inside Hs) as (G1 & G2 & G3).
    apply wp_bind. unfold wp at 1, dput. rewrite range_in by lia.
    assert (Hv : 0 <= v mod 256 < 256) by (apply Z.mod_pos_bound; lia).
    apply IH; try lia.
    + apply inv_set_dma; [..|done].
      * intros a. ztest; [done|]. apply (i_dma _ _ Hi).
      * intros a Hg. ztest; [|by apply (i_dma0 _ _ Hi)]. exfalso. apply Hg. unfold in_grant. lia.
    + intros s' Hs' Hc. by apply HQ.
Qed.

(** ** Scratch memory *)

Lemma wp_mem_span off len Q s :
  Inv n s -> (off <= DVM_MEM_SIZE -> off + len <= DVM_MEM_SIZE -> Q tt s) ->
  wp (mem_span pol off len) Q s.
Proof using Hn. intros Hi HQ. apply (wp_refuse n); [done..|]. intros ?. b2p. apply HQ; lia. Qed.

Lemma wp_mem_charge k Q s :
  0 <= k < 2 ^ 63 -> Inv n s -> (forall s', Inv n s' -> Q tt s') -> wp (mem_charge pol k) Q s.
Proof using Hpol Tpol Hn.
  intros Hk Hi HQ. unfold mem_charge. do 2 vstep. b2p.
  pose proof (cap_mem policy_capped) as Hc. unfold CEIL_MEM_BYTES in Hc.
  pose proof (i_bytes _ _ Hi). pose proof (i_nonneg _ _ Hi MEM_BYTES).
  rewrite wrap64_small in * by lia.
  apply (wp_mod n); [|auto]. apply inv_bump_budget; try done; lia.
Qed.

Lemma wp_mget off Q s :
  0 <= off < DVM_MEM_SIZE -> (0 <= mem s off < 256 -> Q (mem s off) s) -> Inv n s -> wp (mget off) Q s.
Proof using. intros Ho HQ Hi. unfold wp, mget. rewrite range_in by lia. apply HQ, (i_mem _ _ Hi). Qed.

Lemma wp_mput off v Q s :
  0 <= off < DVM_MEM_SIZE -> Inv n s -> (forall s', Inv n s' -> Q tt s') -> wp (mput off v) Q s.
Proof using.
  intros Ho Hi HQ. unfold wp, mput. rewrite range_in by lia. apply HQ, inv_set_mem; [|done].
  intros o. ztest; [|apply (i_mem _ _ Hi)]. by apply (wrap_range 8).
Qed.

Lemma wp_mgets k : forall off Q s, Inv n s -> 0 <= off -> off + Z.of_nat k <= DVM_MEM_SIZE ->
  (forall bs, Forall byte_ok bs -> length bs = k -> Q bs s) -> wp (mgets k off) Q s.
Proof using.
  induction k as [|k IH]; intros off Q s Hi H0 He HQ; cbn [mgets].
  - by apply HQ.
  - apply wp_bind, wp_mget; [lia| |done]. intros Hb. apply wp_bind, IH; [done|lia..|].
    intros bs Hbs Hl. apply HQ; [by constructor|]. cbn. lia.
Qed.

Lemma wp_mputs bs : forall off Q s, Inv n s -> 0 <= off -> off + zlen bs <= DVM_MEM_SIZE ->
  (forall s', Inv n s' -> Q tt s') -> wp (mputs off bs) Q s.
Proof using.
  induction bs as [|b bs IH]; intros off Q s Hi H0 He HQ; cbn [mputs].
  - by apply HQ.
  - autorewrite with zlen in He. pose proof (zlen_nonneg bs).
    apply wp_bind, wp_mput; [lia|done|]. intros s' Hs'. apply IH; [done|lia..|done].
Qed.

Lemma wp_raise_hwm e Q s : Inv n s -> (forall s', Inv n s' -> Q tt s') -> wp (raise_hwm e) Q s.
Proof using.
  intros Hi HQ. apply (wp_mod n); [|auto]. ztest; [|done].
  apply inv_set_hwm; [|done]. by apply (wrap_range 32).
Qed.

(** ** The block instructions *)

Lemma wp_mcopy_up k : forall d c Q s, Inv n s ->
  0 <= d -> 0 <= c -> d + Z.of_nat k <= DVM_MEM_SIZE -> c + Z.of_nat k <= DVM_MEM_SIZE ->
  (forall s', Inv n s' -> Q tt s') -> wp (mcopy_up k d c) Q s.
Proof using.
  induction k as [|k IH]; intros d c Q s Hi H0 H1 H2 H3 HQ; cbn [mcopy_up].
  - by apply HQ.
  - apply wp_bind, wp_mget; [lia| |done]. intros _. apply wp_bind, wp_mput; [lia|done|].
    intros s' Hs'. apply IH; [done|lia..|done].
Qed.

Lemma wp_mcopy_down k : forall d c Q s, Inv n s ->
  0 <= d -> 0 <= c -> d + Z.of_nat k <= DVM_MEM_SIZE -> c + Z.of_nat k <= DVM_MEM_SIZE ->
  (forall s', Inv n s' -> Q tt s') -> wp (mcopy_down k d c) Q s.
Proof using.
  induction k as [|k IH]; intros d c Q s Hi H0 H1 H2 H3 HQ; cbn [mcopy_down].
  - by apply HQ.
  - apply wp_bind, wp_mget; [lia| |done]. intros _. apply wp_bind, wp_mput; [lia|done|].
    intros s' Hs'. apply IH; [done|lia..|done].
Qed.

Lemma wp_cmp_loop k : forall x y Q s, Inv n s ->
  0 <= x -> 0 <= y -> x + Z.of_nat k <= DVM_MEM_SIZE -> y + Z.of_nat k <= DVM_MEM_SIZE ->
  (forall f, Q f s) -> wp (cmp_loop k x y) Q s.
Proof using.
  induction k as [|k IH]; intros x y Q s Hi H0 H1 H2 H3 HQ; cbn [cmp_loop].
  - by apply HQ.
  - apply wp_bind, wp_mget; [lia| |done]. intros _. apply wp_bind, wp_mget; [lia| |done]. intros _.
    ztest; [|by apply HQ]. apply IH; [done|lia..|done].
Qed.

Lemma wp_match_loop needle : forall off Q s, Inv n s ->
  0 <= off -> off + zlen needle <= DVM_MEM_SIZE ->
  (forall k, 0 <= k <= zlen needle -> Q k s) -> wp (match_loop needle off) Q s.
Proof using.
  induction needle as [|c r IH]; intros off Q s Hi H0 He HQ; cbn [match_loop].
  - apply HQ. unfold zlen. cbn. lia.
  - autorewrite with zlen in *. pose proof (zlen_nonneg r).
    apply wp_bind, wp_mget; [lia| |done]. intros _. ztest; [|apply HQ; lia].
    apply wp_bind, IH; [done|lia..|]. intros k Hk. apply HQ. lia.
Qed.

Lemma wp_find_loop todo c0 rest : forall x Q s, Inv n s ->
  0 <= x -> x + Z.of_nat todo + zlen rest <= DVM_MEM_SIZE ->
  (forall r s', Inv n s' -> (forall y, r = Some y -> x <= y < x + Z.of_nat todo) -> Q r s') ->
  wp (find_loop pol todo c0 rest x) Q s.
Proof using Hpol Tpol Hn.
  induction todo as [|k IH]; intros x Q s Hi H0 He HQ; cbn [find_loop].
  - by apply HQ.
  - pose proof (zlen_nonneg rest). unfold DVM_MEM_SIZE in *.
    assert (Hrec : forall s, Inv n s -> wp (find_loop pol k c0 rest (x + 1)) Q s).
    { intros s' Hs'. apply IH; [done|lia..|]. intros r s'' Hs'' Hr. apply HQ; [done|].
      intros y Hy. specialize (Hr y Hy). lia. }
    apply wp_bind, wp_mem_charge; [lia|done|]. intros s1 Hs1.
    apply wp_bind, wp_mget; [unfold DVM_MEM_SIZE; lia| |done]. intros _.
    destruct (negb _); [by apply Hrec|].
    apply wp_bind, wp_match_loop; [done|unfold DVM_MEM_SIZE; lia..|]. intros m Hm.
    apply wp_bind, wp_mem_charge; [lia|done|]. intros s2 Hs2.
    ztest; [|by apply Hrec]. apply HQ; [done|]. intros y [= ->]. lia.
Qed.

Lemma wp_chr_loop k want : forall x Q s, Inv n s -> 0 <= x -> x + Z.of_nat k <= DVM_MEM_SIZE ->
  (forall r, (forall y, r = Some y -> x <= y < x + Z.of_nat k) -> Q r s) ->
  wp (chr_loop k x want) Q s.
Proof using.
  induction k as [|k IH]; intros x Q s Hi H0 He HQ; cbn [chr_loop].
  - by apply HQ.
  - apply wp_bind, wp_mget; [lia| |done]. intros _.
    ztest; [apply HQ; intros y [= ->]; lia|].
    apply IH; [done|lia..|]. intros r Hr. apply HQ. intros y Hy. specialize (Hr y Hy). lia.
Qed.

Lemma wp_atoi_loop k base : forall x acc d Q s, Inv n s -> 0 <= x ->
  x + Z.of_nat k <= DVM_MEM_SIZE -> u64 acc ->
  (forall acc' d' over, u64 acc' -> Q (acc', d', over) s) -> wp (atoi_loop k x base acc d) Q s.
Proof using.
  induction k as [|k IH]; intros x acc d Q s Hi H0 He Ha HQ; cbn [atoi_loop].
  - by apply HQ.
  - apply wp_bind, wp_mget; [lia| |done]. intros _.
    destruct (digit_of _) as [v|]; [|by apply HQ]. destruct (base <=? v); [by apply HQ|].
    destruct (_ <? acc); [by apply HQ|].
    apply IH; [done|lia..| |done]. by apply (wrap_range 64).
Qed.

(** ** Syscalls *)

(** What sys_path lets through is confined to the root. *)
Lemma wp_sys_path off len Q s :
  u64 off -> u64 len -> Inv n s ->
  (forall path s', Inv n s' -> permitted_path pol path -> Q path s') ->
  wp (sys_path pol off len) Q s.
Proof using Hpol Tpol Hn.
  intros Ho Hl Hi HQ. unfold sys_path, u64, DVM_MEM_SIZE in *.
  apply wp_bind, wp_mem_span; [done|]. intros H1 H2. unfold DVM_MEM_SIZE in *.
  apply wp_bind, wp_mem_charge; [lia|done|]. intros s1 Hs1. vstep.
  apply wp_bind, wp_mgets; [done|lia|unfold DVM_MEM_SIZE; lia|]. intros path Hb Hlen. do 3 vstep.
  apply HQ; [done|]. b2p. unfold permitted_path.
  match goal with H : under_root _ _ = true |- _ => apply under_root_spec in H as (rest & Hr) end.
  assert (Hne : zlen (cstr (fs_root pol)) <> 0) by done.
  split; [done|]. split; [intros E; rewrite E in Hne; done|]. exists rest. split; [done|].
  subst path. rewrite app_nth2, Nat.sub_diag in * by lia.
  destruct rest as [|c t]; [auto|]. cbn [nth] in *.
  assert (Hc : c <> 0).
  { match goal with H : path_ok _ = true |- _ => apply path_ok_spec in H as (_ & _ & H & _);
      apply Forall_app in H as [_ H]; apply Forall_cons_iff in H as [H _] end. lia. }
  pose proof (zlen_nonneg (cstr (fs_root pol))).
  destruct (Z.eqb_spec c (ch "/")) as [->|]; [eauto|]. left. b2p. lia.
Qed.

Definition i64 (x : Z) : Prop := - 2 ^ 63 <= x < 2 ^ 63.

Lemma wp_hook {H A} (h : option H) (f : H -> ctx -> A * ctx) (R : A -> Prop) Q s :
  Inv n s -> (forall h', h = Some h' -> P (f h' (world s)).2 /\ R (f h' (world s)).1) ->
  (forall a s', Inv n s' -> R a -> Q a s') -> wp (hook pol h f) Q s.
Proof using Hn.
  intros Hi Hh HQ. unfold hook. destruct h as [h|]; [|by eapply wp_trap].
  destruct (Hh h eq_refl) as [HP HR]. unfold wp. destruct (f h (world s)) as [a w].
  apply HQ; [|done]. by apply inv_set_world.
Qed.

Lemma sanitise_printable bs : forallb printable (sanitise <$> bs) = true.
Proof using.
  induction bs as [|b bs IH]; [done|]. cbn [fmap list_fmap forallb]. rewrite IH, andb_true_r.
  unfold sanitise. by destruct (printable b) eqn:E.
Qed.

Section Calls.

Context (y : dvm_sys ctx) (Hy : sys_ok pol P y).

Lemma wp_con_write_call off len Q s :
  u64 off -> u64 len -> granted pol 0 -> Inv n s -> (forall rc s', Inv n s' -> i64 rc -> Q rc s') ->
  wp (con_write_call pol y off len) Q s.
Proof using Hpol Tpol Hn Hy.
  intros Ho Hl Hg Hi HQ. unfold con_write_call, u64 in *.
  apply wp_bind, wp_mem_span; [done|]. intros H1 H2. vstep.
  apply wp_bind, wp_mem_charge; [unfold DVM_MEM_SIZE in *; lia|done|]. intros s1 Hs1. do 2 vstep.
  destruct (con_write y) as [h|] eqn:Eh; [|vstep].
  apply wp_bind, wp_mgets; [done|lia..|]. intros bs Hb Hlen.
  pose proof (cap_prints policy_capped) as Hc. unfold CEIL_PRINTS in Hc. b2p.
  apply wp_mod_bind; [apply inv_bump_budget; try done; lia|]. intros Hs2.
  apply (wp_hook _ _ i64); [done| |done]. intros h' [= <-].
  apply (ok_con _ _ _ Hy h Eh Hg); [apply (i_world _ _ Hs2)| |apply sanitise_printable].
  unfold zlen. rewrite length_fmap, Hlen. lia.
Qed.

Lemma wp_fs_read_call po pl d c Q s :
  u64 po -> u64 pl -> u64 d -> u64 c -> granted pol 1 -> Inv n s ->
  (forall rc s', Inv n s' -> i64 rc -> Q rc s') -> wp (fs_read_call pol y po pl d c) Q s.
Proof using Hpol Tpol Hn Hy.
  intros Hpo Hpl Hd Hc Hg Hi HQ. unfold fs_read_call.
  apply wp_bind, wp_sys_path; [done..|]. intros path s1 Hs1 Hp. unfold u64 in *.
  apply wp_bind, wp_mem_span; [done|]. intros H1 H2.
  apply wp_bind, wp_mem_charge; [unfold DVM_MEM_SIZE in *; lia|done|]. intros s2 Hs2.
  apply wp_bind, (wp_hook _ _ (fun r => i64 r.1 /\ zlen r.2 <= c)); [done| |].
  { intros h Eh. apply (ok_read _ _ _ Hy h Eh Hg); [apply (i_world _ _ Hs2)|lia|done]. }
  intros [rc bs] s3 Hs3 [Hrc Hz]. cbn [fst snd] in *.
  apply wp_bind, wp_mputs; [done|lia..|]. intros s4 Hs4. ztest; [|by apply HQ]. vstep.
  apply wp_bind, wp_raise_hwm; [done|]. intros s5 Hs5. by apply HQ.
Qed.

Lemma wp_fs_write_call po pl c len Q s :
  u64 po -> u64 pl -> u64 c -> u64 len -> granted pol 2 -> Inv n s ->
  (forall rc s', Inv n s' -> i64 rc -> Q rc s') -> wp (fs_write_call pol y po pl c len) Q s.
Proof using Hpol Tpol Hn Hy.
  intros Hpo Hpl Hc Hl Hg Hi HQ. unfold fs_write_call.
  apply wp_bind, wp_sys_path; [done..|]. intros path s1 Hs1 Hp. unfold u64 in *.
  apply wp_bind, wp_mem_span; [done|]. intros H1 H2.
  apply wp_bind, wp_mem_charge; [unfold DVM_MEM_SIZE in *; lia|done|]. intros s2 Hs2.
  destruct (fs_write y) as [h|] eqn:Eh; [|vstep].
  apply wp_bind, wp_mgets; [done|lia..|]. intros bs Hb Hlen.
  apply (wp_hook _ _ i64); [done| |done]. intros h' [= <-].
  apply (ok_write _ _ _ Hy h Eh Hg); [apply (i_world _ _ Hs2)|done].
Qed.

Lemma wp_fs_size_call po pl Q s :
  u64 po -> u64 pl -> granted pol 3 -> Inv n s ->
  (forall rc s', Inv n s' -> i64 rc -> Q rc s') -> wp (fs_size_call pol y po pl) Q s.
Proof using Hpol Tpol Hn Hy.
  intros Hpo Hpl Hg Hi HQ. apply wp_bind, wp_sys_path; [done..|]. intros path s1 Hs1 Hp.
  apply (wp_hook _ _ i64); [done| |done]. intros h Eh.
  apply (ok_size _ _ _ Hy h Eh Hg); [apply (i_world _ _ Hs1)|done].
Qed.

Lemma wp_audio_tone_call hz ms Q s :
  granted pol 4 -> Inv n s -> (forall rc s', Inv n s' -> i64 rc -> Q rc s') ->
  wp (audio_tone_call pol y hz ms) Q s.
Proof using Hn Hy.
  intros Hg Hi HQ. unfold audio_tone_call. do 2 vstep. b2p.
  apply (wp_hook _ _ i64); [done| |done]. intros h Eh.
  apply (ok_tone _ _ _ Hy h Eh Hg); [apply (i_world _ _ Hi)|lia..].
Qed.

Lemma zlen_cstr bs : zlen (cstr bs) <= zlen bs.
Proof using.
  induction bs as [|b bs IH]; cbn [cstr]; [done|].
  ztest; autorewrite with zlen; pose proof (zlen_nonneg bs); lia.
Qed.

Lemma wp_net_fetch_call uo ul d c Q s :
  u64 uo -> u64 ul -> u64 d -> u64 c -> granted pol 6 -> Inv n s ->
  (forall rc s', Inv n s' -> i64 rc -> Q rc s') -> wp (net_fetch_call pol y uo ul d c) Q s.
Proof using Hpol Tpol Hn Hy.
  intros Huo Hul Hd Hc Hg Hi HQ. unfold net_fetch_call, u64 in *.
  apply wp_bind, wp_mem_span; [done|]. intros H1 H2. vstep.
  apply wp_bind, wp_mem_span; [done|]. intros H3 H4. unfold DVM_MEM_SIZE in *. unwrap64.
  apply wp_bind, wp_mem_charge; [lia|done|]. intros s1 Hs1.
  apply wp_bind, wp_mgets; [done|unfold DVM_MEM_SIZE; lia..|]. intros url Hb Hlen.
  apply wp_bind, (wp_hook _ _ (fun r => i64 r.1 /\ zlen r.2 <= c)); [done| |].
  { intros h Eh. apply (ok_fetch _ _ _ Hy h Eh Hg); [apply (i_world _ _ Hs1)|lia|].
    pose proof (zlen_cstr url). unfold zlen in *. b2p. lia. }
  intros [rc bs] s3 Hs3 [Hrc Hz]. cbn [fst snd] in *.
  apply wp_bind, wp_mputs; [done|unfold DVM_MEM_SIZE; lia..|]. intros s4 Hs4.
  destruct ((0 <? rc) && (0 <? c)) eqn:E; [|by apply HQ]. b2p. apply wp_bind.
  destruct (_ <? d + c) eqn:E2; [|by apply HQ]. b2p.
  apply wp_mput; [revert E2; unfold DVM_MEM_SIZE; ztest; lia|done|]. intros s5 Hs5. by apply HQ.
Qed.

Lemma wp_sys_call nr k a0 a1 a2 a3 Q s :
  sys_of k = Some nr -> granted pol k -> u64 a0 -> u64 a1 -> u64 a2 -> u64 a3 -> Inv n s ->
  (forall r s', Inv n s' -> u64 r.1 -> Q r s') -> wp (sys_call pol y nr a0 a1 a2 a3) Q s.
Proof using Hpol Tpol Hn Hy.
  intros Hk Hg H0 H1 H2 H3 Hi HQ. unfold sys_call. apply wp_bind.
  assert (Hrest : forall rc s', Inv n s' -> i64 rc ->
    wp (if rc <? 0 then vbind (tline pol TRACE_IO) (fun _ => vret (wrap64 (- rc), false))
        else vret (rc, true)) Q s').
  { intros rc s' Hs' Hrc. ztest.
    - vstep. apply HQ; [done|]. by apply (wrap_range 64).
    - apply HQ; [done|]. unfold i64, u64 in *. cbn [fst]. lia. }
  unfold sys_of in Hk. destruct (Z.ltb_spec k 0); [done|].
  assert (Hk' : exists j, k = Z.of_nat j /\ sys_table !! j = Some nr) by (exists (Z.to_nat k); split; [lia|done]).
  destruct Hk' as (j & -> & Hj).
  destruct j as [|[|[|[|[|[|[|j]]]]]]]; [injection Hj as <-..|done].
  - by apply wp_con_write_call.
  - by apply wp_fs_read_call.
  - by apply wp_fs_write_call.
  - by apply wp_fs_size_call.
  - by apply wp_audio_tone_call.
  - apply (wp_hook _ _ i64); [done| |done]. intros h Eh.
    apply (ok_time _ _ _ Hy h Eh Hg), (i_world _ _ Hi).
  - by apply wp_net_fetch_call.
Qed.

End Calls.

(** ** Instructions *)

(** What an instruction hands to the end of the loop body. *)
Definition result_ok (r : option Z * Z) : Prop :=
  (forall v, r.1 = Some v -> u64 v) /\ 0 <= r.2 <= ninsn p.
Definition Post (r : option Z * Z) (s : vm ctx) : Prop := Inv n s /\ result_ok r.

Lemma post_done next s : Inv n s -> 0 <= next <= ninsn p -> wp (done next) Post s.
Proof using. intros Hi Hx. split; [done|]. by split. Qed.
Lemma post_alu v next s : Inv n s -> u64 v -> 0 <= next <= ninsn p -> wp (alu v next) Post s.
Proof using. intros Hi Hv Hx. split; [done|]. split; [by intros ? [= <-]|done]. Qed.

Lemma lor_byte b r : byte_ok b -> Z.lor b (Z.shiftl r 8) = b + 256 * r.
Proof using.
  intros Hb. unfold byte_ok in Hb.
  assert (Hz : Z.land b (Z.shiftl r 8) = 0).
  { replace b with (Z.land b (Z.ones 8)) by (rewrite Z.land_ones, Z.mod_small by lia; done).
    rewrite <- Z.land_assoc, (Z.land_comm (Z.ones 8)), Z.land_ones, Z.shiftl_mul_pow2 by lia.
    by rewrite Z.mod_mul, Z.land_0_r by lia. }
  pose proof (Z.add_lor_land b (Z.shiftl r 8)) as H. rewrite Hz, Z.shiftl_mul_pow2 in * by lia. lia.
Qed.

Lemma le_value_range bs : Forall byte_ok bs -> 0 <= le_value bs < 256 ^ zlen bs.
Proof using.
  induction 1 as [|b bs Hb _ IH]; cbn [le_value]; [done|].
  rewrite lor_byte by done. autorewrite with zlen. pose proof (zlen_nonneg bs).
  unfold byte_ok in Hb. rewrite Z.add_1_r, Z.pow_succ_r by lia. lia.
Qed.

Lemma low_bytes_range w v : 0 <= low_bytes w v < 2 ^ 32.
Proof using.
  unfold low_bytes. change 0xFF with (2 ^ 8 - 1). change 0xFFFF with (2 ^ 16 - 1).
  change 0xFFFFFFFF with (2 ^ 32 - 1). repeat ztest; rewrite land_mask by lia;
    match goal with |- _ <= ?x mod ?m < _ => pose proof (Z.mod_pos_bound x m ltac:(lia)) end; lia.
Qed.

(** No longer in bits than one of two 64-bit values. *)
Lemma u64_log2 a b c :
  u64 a -> u64 b -> 0 <= c -> Z.log2 c <= Z.max (Z.log2 a) (Z.log2 b) -> u64 c.
Proof using.
  unfold u64. intros Ha Hb Hc Hl. split; [done|]. destruct (Z.eq_dec c 0); [lia|].
  assert (Hlog : forall x, 0 <= x < 2 ^ 64 -> Z.log2 x < 64).
  { intros x Hx. destruct (Z.eq_dec x 0) as [->|]; [cbn; lia|]. apply Z.log2_lt_pow2; lia. }
  pose proof (Hlog a Ha). pose proof (Hlog b Hb). apply Z.log2_lt_pow2; lia.
Qed.

Lemma u64_land a b : u64 a -> u64 b -> u64 (Z.land a b).
Proof using.
  intros Ha Hb. pose proof Ha. pose proof Hb. unfold u64 in H, H0. apply (u64_log2 a b); try done.
  - apply Z.land_nonneg. lia.
  - pose proof (Z.log2_land a b ltac:(lia) ltac:(lia)). lia.
Qed.
Lemma u64_lor a b : u64 a -> u64 b -> u64 (Z.lor a b).
Proof using.
  intros Ha Hb. pose proof Ha. pose proof Hb. unfold u64 in H, H0. apply (u64_log2 a b); try done.
  - apply Z.lor_nonneg. lia.
  - rewrite Z.log2_lor; lia.
Qed.
Lemma u64_lxor a b : u64 a -> u64 b -> u64 (Z.lxor a b).
Proof using.
  intros Ha Hb. pose proof Ha. pose proof Hb. unfold u64 in H, H0. apply (u64_log2 a b); try done.
  - apply Z.lxor_nonneg. lia.
  - apply Z.log2_lxor; lia.
Qed.

(** The ALU keeps 64-bit values 64-bit. *)
Lemma alu_value_u64 o a b : u64 a -> u64 b -> (o = DIV \/ o = MOD -> b <> 0) -> u64 (alu_value o a b).
Proof using.
  intros Ha Hb Hz. destruct o; cbn [alu_value]; auto using u64_land, u64_lor, u64_lxor;
    try (by apply (wrap_range 64)); unfold u64 in *.
  - specialize (Hz (or_introl eq_refl)). split; [apply Z.div_pos; lia|].
    apply (Z.le_lt_trans _ a); [|lia]. apply Z.div_le_upper_bound; nia.
  - specialize (Hz (or_intror eq_refl)). pose proof (Z.mod_pos_bound a b). lia.
  - assert (0 <= Z.land b 63) by (apply Z.land_nonneg; lia).
    rewrite Z.shiftr_div_pow2 by done. pose proof (Z.pow_pos_nonneg 2 (Z.land b 63)).
    split; [apply Z.div_pos; lia|]. apply (Z.le_lt_trans _ a); [|lia].
    apply Z.div_le_upper_bound; nia.
Qed.

Section Insn.

Context (i : dvm_insn) (a b c next : Z).
Context (Hval : u64 (val_at i 0)) (Ha : u64 a) (Hb : u64 b) (Hc : u64 c).
Context (Hnext : 0 <= next <= ninsn p).

Local Ltac finish := first [apply post_done | apply post_alu]; try done; try lia.
Local Ltac loose_bump := apply wp_mod_bind; [by apply inv_bump_loose|intros ?].

Lemma wp_op_branch o s : Inv n s -> wp (op_branch p pol o i next) Post s.
Proof using Hpol Tpol Hn Hval Hnext.
  intros Hi. unfold op_branch. vstep. apply wp_bind. unfold u64 in *.
  destruct (taken o _ _).
  - apply (wp_refuse n); [done..|]. intros E. b2p. vstep. finish.
  - unfold wp at 1, vret. vstep. finish.
Qed.

Lemma wp_op_call s : Inv n s -> wp (op_call p pol i next) Post s.
Proof using Hpol Tpol Hn Hval Hnext.
  intros Hi. unfold op_call. do 3 vstep. b2p. unfold u64 in *.
  apply wp_mod_bind; [|intros ?; vstep; finish].
  destruct (i_cstack _ _ Hi) as [Hd1 Hd2]. apply inv_set_cstack; [cbn [length]; lia| |done].
  constructor; [lia|done].
Qed.

Lemma wp_op_ret s : Inv n s -> wp (op_ret p pol) Post s.
Proof using Hpol Tpol Hn.
  intros Hi. unfold op_ret. vstep. destruct (i_cstack _ _ Hi) as [Hd1 Hd2].
  destruct (cstack s) as [|x cs] eqn:E; [vstep|]. apply Forall_cons_iff in Hd2 as [Hx Hd2].
  apply wp_mod_bind; [apply inv_set_cstack; [cbn [length] in Hd1; lia|done..]|].
  intros ?. do 2 vstep. b2p. finish.
Qed.

Lemma wp_op_push s : Inv n s -> wp (op_push pol a next) Post s.
Proof using Hpol Tpol Hn Ha Hnext.
  intros Hi. unfold op_push. do 2 vstep. b2p. destruct (i_dstack _ _ Hi) as [Hd1 Hd2].
  apply wp_mod_bind; [|intros ?; vstep; finish].
  apply inv_set_dstack; [cbn [length]; lia|by constructor|done].
Qed.

Lemma wp_op_pop s : Inv n s -> wp (op_pop pol next) Post s.
Proof using Hn Hnext.
  intros Hi. unfold op_pop. vstep. destruct (i_dstack _ _ Hi) as [Hd1 Hd2].
  destruct (dstack s) as [|x ds] eqn:E; [vstep|]. apply Forall_cons_iff in Hd2 as [Hx Hd2].
  apply wp_mod_bind; [apply inv_set_dstack; [cbn [length] in Hd1; lia|done..]|]. intros ?. finish.
Qed.

Lemma wp_op_out w s : access_width w -> Inv n s -> wp (op_out io pol w a b next) Post s.
Proof using Hpol Tpol Hio Hn Ha Hnext.
  intros Hw Hi. unfold op_out. apply wp_bind, wp_port_gate; [done..|]. intros s1 Hs1 Hp.
  apply wp_bind, (wp_hook _ _ (fun _ => True)); [done| |].
  { intros h Eh. split; [|done]. apply (ok_out _ _ _ _ Hio h Eh); [apply (i_world _ _ Hs1)|done]. }
  intros [] s2 Hs2 _. loose_bump. vstep. finish.
Qed.

Lemma wp_op_in w s : access_width w -> Inv n s -> wp (op_in io pol w a next) Post s.
Proof using Hpol Tpol Hio Hn Ha Hnext.
  intros Hw Hi. unfold op_in. apply wp_bind, wp_port_gate; [done..|]. intros s1 Hs1 Hp.
  apply wp_bind, (wp_hook _ _ (fun _ => True)); [done| |].
  { intros h Eh. split; [|done]. apply (ok_in _ _ _ _ Hio h Eh); [apply (i_world _ _ Hs1)|done]. }
  intros v s2 Hs2 _. loose_bump. vstep. finish.
  unfold u64. pose proof (low_bytes_range w v). lia.
Qed.

Lemma wp_op_ld w s : access_width w -> Inv n s ->
  wp (op_ld bss_end dma_arena io pol w a b next) Post s.
Proof using Hpol Tpol Hio Harena Hn Hnext.
  intros Hw Hi. unfold op_ld. set (addr := wrap64 (a + b)).
  assert (Haddr : u64 addr) by (by apply (wrap_range 64)). clearbody addr.
  destruct (dma_touches pol addr w) eqn:Et.
  - apply wp_bind, wp_dma_gate; [done..|]. intros H1 H2 H3 H4.
    pose proof (cap_dma policy_capped) as Hcap. unfold CEIL_DMA_OPS, DVM_DMA_SIZE in Hcap.
    pose proof (i_nonneg _ _ Hi N_DMA_WR). assert (0 < w <= 4) by (destruct Hw as [->|[->| ->]]; lia).
    apply wp_bind, wp_dma_load; [done|lia..|]. intros v Hv.
    apply wp_mod_bind; [apply inv_bump_budget; try done; lia|]. intros ?. vstep. finish.
    rewrite Z2Nat.id in Hv by lia. unfold u64. destruct Hw as [->|[->| ->]]; lia.
  - apply wp_bind, wp_mmio_gate; [done..|]. intros s1 Hs1 Hp.
    apply wp_bind, (wp_hook _ _ (fun _ => True)); [done| |].
    { intros h Eh. split; [|done]. apply (ok_ld _ _ _ _ Hio h Eh); [apply (i_world _ _ Hs1)|done]. }
    intros v s2 Hs2 _. loose_bump. vstep. finish.
    unfold u64. pose proof (low_bytes_range w v). lia.
Qed.

Lemma wp_op_st w s : access_width w -> Inv n s ->
  wp (op_st bss_end dma_arena io pol w a b c next) Post s.
Proof using Hpol Tpol Hio Harena Hn Hnext.
  intros Hw Hi. unfold op_st. set (addr := wrap64 (a + b)).
  assert (Haddr : u64 addr) by (by apply (wrap_range 64)). clearbody addr.
  destruct (dma_touches pol addr w) eqn:Et.
  - apply wp_bind, wp_dma_gate; [done..|]. intros H1 H2 H3 H4.
    pose proof (cap_dma policy_capped) as Hcap. unfold CEIL_DMA_OPS, DVM_DMA_SIZE in Hcap.
    pose proof (i_nonneg _ _ Hi N_DMA_RD). assert (0 < w <= 4) by (destruct Hw as [->|[->| ->]]; lia).
    apply wp_bind, wp_dma_store; [done|lia..|]. intros s1 Hs1 Hcnt.
    apply wp_mod_bind; [apply inv_bump_budget; try done; rewrite Hcnt; lia|].
    intros ?. vstep. finish.
  - apply wp_bind, wp_mmio_gate; [done..|]. intros s1 Hs1 Hp.
    apply wp_bind, (wp_hook _ _ (fun _ => True)); [done| |].
    { intros h Eh. split; [|done]. apply (ok_st _ _ _ _ Hio h Eh); [apply (i_world _ _ Hs1)|done]. }
    intros [] s2 Hs2 _. loose_bump. vstep. finish.
Qed.

Lemma wp_op_pcicfg s : Inv n s -> wp (op_pcicfg io pol a b next) Post s.
Proof using Hpol Tpol Hio Hn Hb Hnext.
  intros Hi. unfold op_pcicfg. do 6 vstep. b2p.
  match goal with H : existsb _ (pci pol) = true |- _ => apply existsb_exists in H as (g & Hg & Hm) end.
  b2p. destruct (pci_read32 io) as [h|] eqn:Eh; [|vstep].
  pose proof (cap_io policy_capped) as Hcap. unfold CEIL_IO, u64 in *.
  apply wp_mod_bind; [apply inv_bump_budget; try done; lia|]. intros Hs1.
  apply wp_bind, (wp_hook _ _ u64); [done| |].
  { intros h' [= <-]. set (w := world _). assert (Hw : P w) by apply (i_world _ _ Hs1).
    destruct (ok_pci _ _ _ _ Hio h Eh (Z.land (Z.shiftr a 8) 0xFF) (Z.land (Z.shiftr a 3) 0x1F)
      (Z.land a 7) b w Hw) as [Hp1 Hp2]; [|split; [done|unfold u64; lia]].
    split; [lia|]. split; [done|]. exists g. by rewrite list_elem_of_In. }
  intros v s2 Hs2 Hv. loose_bump. vstep. finish.
Qed.

(** Widths of scratch accesses. *)
Definition mem_width (w : Z) : Prop := w = 1 \/ w = 2 \/ w = 4 \/ w = 8.

Lemma wp_op_mld w s : mem_width w -> Inv n s -> wp (op_mld pol w a b next) Post s.
Proof using Hpol Tpol Hn Hnext.
  intros Hw Hi. unfold op_mld. set (off := wrap64 (a + b)).
  assert (Hoff : u64 off) by (by apply (wrap_range 64)). clearbody off. unfold u64 in Hoff.
  assert (0 < w <= 8) by (unfold mem_width in Hw; lia). vstep.
  apply wp_bind, wp_mem_span; [done|]. intros H1 H2.
  apply wp_bind, wp_mem_charge; [lia|done|]. intros s1 Hs1.
  apply wp_bind. unfold mem_load. apply wp_bind, wp_mgets; [done|lia..|]. intros bs Hbs Hl.
  unfold wp at 1, vret. loose_bump. vstep. finish.
  pose proof (le_value_range bs Hbs) as Hr. unfold zlen in Hr. rewrite Hl, Z2Nat.id in Hr by lia.
  unfold u64. destruct Hw as [->|[->|[->| ->]]]; lia.
Qed.

Lemma length_le_bytes k v : length (le_bytes k v) = k.
Proof using. revert v. induction k as [|k IH]; intros v; cbn; [done|]. by rewrite IH. Qed.

Lemma wp_op_mst w s : mem_width w -> Inv n s -> wp (op_mst pol w a b c next) Post s.
Proof using Hpol Tpol Hn Hnext.
  intros Hw Hi. unfold op_mst. set (off := wrap64 (a + b)).
  assert (Hoff : u64 off) by (by apply (wrap_range 64)). clearbody off. unfold u64 in Hoff.
  assert (0 < w <= 8) by (unfold mem_width in Hw; lia). vstep.
  apply wp_bind, wp_mem_span; [done|]. intros H1 H2.
  apply wp_bind, wp_mem_charge; [lia|done|]. intros s1 Hs1.
  apply wp_bind. unfold mem_store. apply wp_bind, wp_mputs; [done|lia| |].
  { unfold zlen. rewrite length_le_bytes. lia. }
  intros s2 Hs2. apply wp_raise_hwm; [done|]. intros s3 Hs3. loose_bump. vstep. finish.
Qed.

(** Store [bs] at [d], charge [k] for it and hand out the offset after it: the end
    of mstr, mset and mitoa. *)
Lemma wp_store_block d k bs s :
  u64 d -> zlen bs = k -> Inv n s ->
  wp (vbind (mem_span pol d k) (fun _ => vbind (mem_charge pol k) (fun _ => vbind (mputs d bs) (fun _ =>
      vbind (raise_hwm (d + k)) (fun _ => vbind (vmod (bump N_MEM_WR 1)) (fun _ => alu (d + k) next))))))
    Post s.
Proof using Hpol Tpol Hn Hnext.
  intros Hd Hk Hi. unfold u64 in Hd. pose proof (zlen_nonneg bs).
  apply wp_bind, wp_mem_span; [done|]. intros H1 H2. unfold DVM_MEM_SIZE in *.
  apply wp_bind, wp_mem_charge; [lia|done|]. intros s1 Hs1.
  apply wp_bind, wp_mputs; [done|unfold DVM_MEM_SIZE; lia..|]. intros s2 Hs2.
  apply wp_bind, wp_raise_hwm; [done|]. intros s3 Hs3. loose_bump. finish. unfold u64. lia.
Qed.

Lemma wp_op_mstr s : Inv n s -> wp (op_mstr p pol i b next) Post s.
Proof using Hpol Tpol Hn Hb Hnext. intros Hi. by apply wp_store_block. Qed.

Lemma wp_op_mset s : Inv n s -> wp (op_mset pol a b c next) Post s.
Proof using Hpol Tpol Hn Ha Hc Hnext.
  intros Hi. unfold u64 in *. apply wp_store_block; [done| |done].
  unfold zlen. rewrite length_replicate. lia.
Qed.

Lemma wp_op_mitoa s : Inv n s -> wp (op_mitoa pol a b c next) Post s.
Proof using Hpol Tpol Hn Ha Hnext.
  intros Hi. unfold op_mitoa. vstep. apply wp_store_block; [done| |done].
  unfold zlen. by rewrite length_rev.
Qed.

Lemma wp_op_mcpy s : Inv n s -> wp (op_mcpy pol a b c next) Post s.
Proof using Hpol Tpol Hn Ha Hb Hc Hnext.
  intros Hi. unfold op_mcpy, u64 in *.
  apply wp_bind, wp_mem_span; [done|]. intros H1 H2.
  apply wp_bind, wp_mem_span; [done|]. intros H3 H4. unfold DVM_MEM_SIZE in *. unwrap64.
  apply wp_bind, wp_mem_charge; [lia|done|]. intros s1 Hs1. apply wp_bind.
  assert (Hrest : forall s, Inv n s ->
    wp (vbind (raise_hwm (a + c)) (fun _ => vbind (vmod (bump N_MEM_RD 1)) (fun _ =>
        vbind (vmod (bump N_MEM_WR 1)) (fun _ => alu (a + c) next)))) Post s).
  { intros s2 Hs2. apply wp_bind, wp_raise_hwm; [done|]. intros s3 Hs3. do 2 loose_bump.
    finish. unfold u64. lia. }
  ztest; [apply wp_mcopy_up|apply wp_mcopy_down]; try done; unfold DVM_MEM_SIZE; lia.
Qed.

Lemma wp_op_mcmp s : Inv n s -> wp (op_mcmp pol a b c next) Post s.
Proof using Hpol Tpol Hn Ha Hb Hc Hnext.
  intros Hi. unfold op_mcmp, u64 in *.
  apply wp_bind, wp_mem_span; [done|]. intros H1 H2.
  apply wp_bind, wp_mem_span; [done|]. intros H3 H4. unfold DVM_MEM_SIZE in *. unwrap64.
  apply wp_bind, wp_mem_charge; [lia|done|]. intros s1 Hs1.
  apply wp_bind, wp_cmp_loop; [done|unfold DVM_MEM_SIZE; lia..|]. intros f.
  apply wp_mod_bind; [by apply inv_set_flags|]. intros ?. loose_bump. vstep. finish.
Qed.

(** The end of mfind and mchr. *)
Lemma wp_found r x k s :
  0 <= x -> 0 <= k -> x + k <= DVM_MEM_SIZE -> (forall y, r = Some y -> x <= y <= x + k) -> Inv n s ->
  wp (vbind (vget below) (fun b => vbind (vmod (set_flags (match r with Some _ => true | None => false end) b))
       (fun _ => vbind (vmod (bump N_MEM_RD 1)) (fun _ => alu (default (x + k) r) next)))) Post s.
Proof using Hnext.
  intros Hx Hk He Hr Hi. vstep. apply wp_mod_bind; [by apply inv_set_flags|]. intros ?. loose_bump.
  unfold DVM_MEM_SIZE in *. finish. unfold u64.
  destruct r as [y|]; cbn; [specialize (Hr y eq_refl)|]; lia.
Qed.

Lemma wp_op_mfind s : Inv n s -> wp (op_mfind p pol i b c next) Post s.
Proof using Hpol Tpol Hn Hb Hc Hnext.
  intros Hi. unfold op_mfind, u64 in *. apply wp_bind, wp_mem_span; [done|]. intros H1 H2.
  apply wp_bind. destruct (str_at p (val_at i 0)) as [|c0 rest].
  - apply wp_found; try done; try lia. intros y [= <-]. lia.
  - ztest; [|apply wp_found; try done; lia]. autorewrite with zlen in *. pose proof (zlen_nonneg rest).
    apply wp_find_loop; [done|lia..|]. intros r s1 Hs1 Hr. apply wp_found; try done; try lia.
    intros y Hy. specialize (Hr y Hy). lia.
Qed.

Lemma wp_op_mchr s : Inv n s -> wp (op_mchr pol a b c next) Post s.
Proof using Hpol Tpol Hn Ha Hb Hnext.
  intros Hi. unfold op_mchr, u64 in *. apply wp_bind, wp_mem_span; [done|]. intros H1 H2.
  apply wp_bind, wp_mem_charge; [unfold DVM_MEM_SIZE in *; lia|done|]. intros s1 Hs1.
  apply wp_bind, wp_chr_loop; [done|lia..|]. intros r Hr. apply wp_found; try done; try lia.
  intros y Hy. specialize (Hr y Hy). lia.
Qed.

Lemma wp_op_matoi s : Inv n s -> wp (op_matoi pol a b c next) Post s.
Proof using Hpol Tpol Hn Ha Hb Hnext.
  intros Hi. unfold op_matoi, u64 in *. vstep. apply wp_bind, wp_mem_span; [done|]. intros H1 H2.
  apply wp_bind, wp_mem_charge; [unfold DVM_MEM_SIZE in *; lia|done|]. intros s1 Hs1.
  apply wp_bind, wp_atoi_loop; [done|lia..|done|]. intros acc d over Hacc.
  apply wp_mod_bind; [by apply inv_set_flags|]. intros ?. vstep. finish.
  by destruct ((0 <? d) && negb over).
Qed.

Lemma u64_at l k : Forall u64 l -> u64 (at_ l k).
Proof using.
  intros H. unfold at_. destruct (nth_in_or_default (Z.to_nat k) l 0) as [Hin| ->]; [|by unfold u64].
  rewrite Forall_forall in H. by apply H.
Qed.

Lemma wp_op_sys s : is_Some (sys_of (val_at i 0)) -> Inv n s -> wp (op_sys io pol i next) Post s.
Proof using Hpol Tpol Hio Hn Hnext.
  intros [nr Enr] Hi. unfold op_sys. rewrite Enr. do 3 vstep.
  destruct (sys io) as [y|] eqn:Ey; [|vstep]. do 2 vstep. b2p.
  destruct (i_dstack _ _ Hi) as [Hd1 Hd2]. pose proof (cap_sys policy_capped) as Hcap.
  unfold CEIL_SYS in Hcap. set (k := Z.to_nat (sys_arity nr)).
  assert (Hargs : forall j, u64 (at_ (rev (take k (dstack s))) j)).
  { intros j. apply u64_at, Forall_rev. by apply Forall_take. }
  apply wp_mod_bind.
  { apply inv_set_dstack; [|by apply Forall_drop|done].
    rewrite length_drop. lia. }
  intros Hs1. apply wp_mod_bind; [apply inv_bump_budget; try done; cbn [cnt set_dstack]; lia|].
  intros Hs2. apply wp_bind, (wp_sys_call y (ok_sys _ _ _ _ Hio y Ey) nr (val_at i 0)); auto.
  intros r s3 Hs3 Hr. apply wp_mod_bind; [by apply inv_set_flags|]. intros ?. vstep. finish.
Qed.

Lemma wp_op_delay s : Inv n s -> wp (op_delay io pol a next) Post s.
Proof using Hpol Tpol Hio Hn Ha Hnext.
  intros Hi. unfold op_delay, u64 in *. do 3 vstep. b2p.
  destruct (delay_us io) as [h|] eqn:Eh; [|vstep].
  pose proof (cap_delay policy_capped) as Hcap. pose proof (cap_single policy_capped) as Hcap2.
  unfold CEIL_DELAY_US, CEIL_SINGLE_US in *.
  pose proof (i_delay _ _ Hi). pose proof (i_nonneg _ _ Hi DELAY_US).
  rewrite wrap64_small in * by lia.
  apply wp_mod_bind; [apply inv_bump_budget; try done; lia|]. intros Hs1.
  apply wp_bind, (wp_hook _ _ (fun _ => True)); [done| |].
  { intros h' [= <-]. split; [|done]. apply (ok_delay _ _ _ _ Hio h Eh); [apply (i_world _ _ Hs1)|lia]. }
  intros [] s2 Hs2 _. vstep. finish.
Qed.

Lemma wp_op_print s : Inv n s -> wp (op_print pol next) Post s.
Proof using Hpol Tpol Hn Hnext.
  intros Hi. unfold op_print. do 2 vstep. b2p.
  pose proof (cap_prints policy_capped) as Hcap. unfold CEIL_PRINTS in Hcap.
  apply wp_mod_bind; [apply inv_bump_budget; try done; lia|]. intros Hs1. apply wp_bind.
  destruct (trace pol =? 0); [unfold wp at 1, vret; finish|].
  apply (wp_mod n); [by apply inv_trace|]. intros Hs2. finish.
Qed.

Lemma wp_exec_op o s : (o = SYS -> is_Some (sys_of (val_at i 0))) -> Inv n s ->
  wp (exec_op bss_end dma_arena io p pol o i a b c next) Post s.
Proof using Hpol Tpol Hio Harena Hn Hval Ha Hb Hc Hnext.
  intros Hsys Hi.
  assert (Hw : forall w, w = 1 \/ w = 2 \/ w = 4 -> access_width w) by done.
  destruct o; cbn [exec_op width_of];
    try (apply post_alu; [done| |done]; apply alu_value_u64; [done..|by intros [?|?]]);
    try (by apply wp_op_branch);
    auto using wp_op_call, wp_op_ret, wp_op_push, wp_op_pop, wp_op_pcicfg, wp_op_mstr, wp_op_mcpy,
      wp_op_mset, wp_op_mcmp, wp_op_mfind, wp_op_mchr, wp_op_matoi, wp_op_mitoa, wp_op_sys,
      wp_op_delay, wp_op_print;
    try (apply wp_op_out; unfold access_width; auto; fail);
    try (apply wp_op_in; unfold access_width; auto; fail);
    try (apply wp_op_ld; unfold access_width; auto; fail);
    try (apply wp_op_st; unfold access_width; auto; fail);
    try (apply wp_op_mld; unfold mem_width; auto; fail);
    try (apply wp_op_mst; unfold mem_width; auto; fail).
  - split; [done|]. exists n, s. auto.
  - vstep.
  - vstep. finish.
  - vstep. b2p. finish. by apply alu_value_u64.
  - vstep. b2p. finish. by apply alu_value_u64.
  - apply wp_mod_bind; [by apply inv_set_flags|]. intros ?. vstep. finish.
  - apply wp_mod_bind; [by apply inv_set_flags|]. intros ?. vstep. finish.
Qed.

End Insn.

Lemma wp_write_back o i r s :
  insn_typed i -> result_ok r -> Inv n s ->
  wp (write_back pol o i r) (fun _ s' => Inv n s') s.
Proof using Hpol Tpol Hn.
  intros Hti [Hv Hx] Hi. unfold write_back. apply wp_bind.
  assert (Hend : forall s, Inv n s -> wp (vmod (set_pc r.2)) (fun _ s' => Inv n s') s).
  { intros s' Hs'. apply (wp_mod n); [|done]. by apply inv_set_pc. }
  destruct r as [[v|] x]; cbn [fst snd] in *; [|by apply Hend].
  vstep. b2p. apply wp_mod_bind.
  { destruct (i_reg _ _ Hi) as [H1 H2].
    apply inv_set_reg; [by rewrite length_insert|by apply Forall_insert; auto|done]. }
  intros Hs1. destruct (traced_itself o); [by apply Hend|].
  apply (wp_tline n); [done|]. intros s2 Hs2. by apply Hend.
Qed.

End Ops.

(** ** The loop *)

Lemma program_bounds : 0 < ninsn p <= 256.
Proof using Hprog Tprog.
  pose proof Hprog as H. unfold dvm_program_validate, DVM_MAX_INSNS in H.
  destruct (_ || _) eqn:E in H; [done|]. b2p. pose proof (pt_count _ Tprog). lia.
Qed.

Lemma first_bad_ok cs : first_bad cs = DVM_OK -> Forall (fun c => c = DVM_OK) cs.
Proof using.
  induction cs as [|c cs IH]; cbn [first_bad]; [done|]. case_bool_decide; [auto|done].
Qed.

(** What the validator established about each instruction in use. *)
Lemma insn_checked k i : insn p !! k = Some i -> Z.of_nat k < ninsn p -> insn_check p i = DVM_OK.
Proof using Hprog.
  intros Hk Hlt. pose proof Hprog as H. unfold dvm_program_validate in H.
  do 2 (destruct (_ || _) in H; [done|]).
  destruct (first_bad _) eqn:E in H; try done. apply first_bad_ok in E.
  eapply (Forall_lookup_1 _ _ k) in E; [done|].
  rewrite list_lookup_fmap, lookup_take_lt, Hk by lia. done.
Qed.

Lemma insn_op_known i : insn_check p i = DVM_OK ->
  exists o, op_of (iop i) = Some o /\ (o = SYS -> u64 (val_at i 0) -> is_Some (sys_of (val_at i 0))).
Proof using.
  unfold insn_check. destruct (op_of (iop i)) as [o|]; [|done]. intros H. exists o. split; [done|].
  intros -> Hv. apply first_bad_ok in H. do 7 apply Forall_cons_iff in H as [_ H].
  apply Forall_cons_iff in H as [H _]. unfold reject in H. cbn [op_info is_sys andb] in H.
  destruct (_ || _) eqn:E in H; [done|]. b2p. unfold DVM_SYS__COUNT, u64, sys_of in *.
  destruct (Z.ltb_spec (val_at i 0) 0); [lia|]. apply lookup_lt_is_Some. cbn. lia.
Qed.

Lemma wp_step n s : n <= max_steps pol -> Inv n s ->
  wp (step bss_end dma_arena io p pol) (fun _ s' => n < max_steps pol /\ Inv (n + 1) s') s.
Proof using Hpol Hprog Tprog Tpol Hio Harena.
  intros Hn Hi. unfold step. do 2 apply wp_get_bind. pose proof program_bounds as Hp.
  pose proof (i_pc _ _ Hi) as Hpc. pose proof (i_steps _ _ Hi) as Hst. rewrite Hst.
  destruct (Z.leb_spec (max_steps pol) n) as [?|Hlt].
  { apply (wp_mod_bind n); [by apply inv_set_line|]. intros ?. by eapply wp_trap. }
  destruct (Z.leb_spec (ninsn p) (pc s)) as [?|Hin].
  { apply (wp_mod_bind n); [by apply inv_set_line|]. intros ?. by eapply wp_trap. }
  destruct (insn p !! Z.to_nat (pc s)) as [i|] eqn:Ei; cycle 1.
  { apply lookup_ge_None in Ei. rewrite (pt_size _ Tprog) in Ei. lia. }
  apply (wp_mod_bind n); [by apply inv_set_line|]. intros Hs1.
  apply (wp_mod_bind (n + 1)); [by apply inv_step|]. intros Hs2. do 3 apply wp_get_bind.
  destruct (insn_op_known i) as (o & Eo & Hsys); [eapply insn_checked; [done|lia]|]. rewrite Eo.
  assert (Hti : insn_typed i) by (by eapply Forall_lookup_1; [apply (pt_insn _ Tprog)|]).
  assert (Hrd : forall k, u64 (rd (bump STEPS 1 (set_line (iline i) s)) i k)).
  { intros k. unfold rd. repeat ztest; try (by unfold u64); try (by apply u64_at; apply it_val).
    - apply u64_at. apply (i_reg _ _ Hs2).
    - destruct (_ || _); [by apply u64_at; apply it_val|by unfold u64]. }
  apply wp_bind. eapply wp_mono.
  - apply (wp_exec_op (n + 1)); try done; [lia| |rewrite (wrap_small 32) by lia; lia|].
    all: try intros Ho; try apply (Hsys Ho); by apply u64_at, it_val.
  - intros r s' [Hs' Hr]. eapply wp_mono; [apply (wp_write_back (n + 1)); try done; lia|]. auto.
Qed.

(** With more fuel than steps left, the loop ends, and ends well. *)
Lemma execute_stops fuel : forall n s, n <= max_steps pol -> max_steps pol - n < Z.of_nat fuel -> Inv n s ->
  exists w s', execute bss_end dma_arena io p pol fuel s = Some (w, s') /\ run_status w = true /\ Fin s'.
Proof using Hpol Hprog Tprog Tpol Hio Harena.
  induction fuel as [|fuel IH]; intros n s Hn Hf Hi; [lia|]. cbn [execute].
  pose proof (wp_step n s Hn Hi) as Hs. unfold wp in Hs.
  destruct (step bss_end dma_arena io p pol s) as [[] s'|w s'|]; [|by exists w, s'|done].
  destruct Hs as [Hlt Hs]. apply (IH (n + 1)); [lia..|done].
Qed.

End Safe.
