(* ===== verification/DvmClaims.v ===== *)
(** The driver VM: what a whole run guarantees. *)

From S2P Require Import Prelude Bytes Dvm DvmRun DvmSafe.

(** What the C types guarantee about the state that outlives a run. *)
Record machine_typed {ctx} (m : machine ctx) : Prop := {
  mt_dma : forall a, 0 <= m_dma m a < 256 }.

Section Runs.

Context {ctx : Type} (bss_end dma_arena : Z) (io : dvm_io ctx) (p : dvm_program)
        (pol : dvm_policy) (P : ctx -> Prop).
Context (Tprog : program_typed p) (Tpol : policy_typed pol).
Context (Hio : backend_ok bss_end pol P io).
Context (Harena : 0 <= dma_arena /\ dma_arena + DVM_DMA_SIZE < 2 ^ 64).

Lemma entry_regs_ok args : Forall u64 args ->
  length (entry_regs args) = 16%nat /\ Forall u64 (entry_regs args).
Proof using.
  intros H. unfold entry_regs. split.
  - rewrite length_app, length_replicate, length_take. lia.
  - apply Forall_app. split; [by apply Forall_take|]. by apply Forall_replicate.
Qed.

(** The state a run starts in. *)
Definition start_dma (m : machine ctx) : Z -> Z :=
  if negb (dma_size pol =? 0) then dma_guard_arm dma_arena (m_dma m) else m_dma m.
Definition start_vm (args : list Z) (start_pc : Z) (m : machine ctx) : vm ctx :=
  Vm (entry_regs args) [] [] start_pc 0 false false false
    (fun c => if bool_decide (c = TRACE_LINES) then if trace pol =? 0 then 0 else 6 else 0)
    (fun _ => 0) (start_dma m) (m_world m).

Lemma start_dma_byte m a : machine_typed m -> 0 <= start_dma m a < 256.
Proof using.
  intros [H]. unfold start_dma, dma_guard_arm, DVM_DMA_POISON.
  destruct (negb (dma_size pol =? 0)), (in_guard dma_arena a); try lia; apply H.
Qed.

Lemma start_inv args start_pc m :
  Forall u64 args -> 0 <= start_pc <= ninsn p -> machine_typed m -> P (m_world m) ->
  Inv p pol P (start_dma m) 0 (start_vm args start_pc m).
Proof using Tpol.
  intros Ha Hpc Hm HP. pose proof (lt_budgets _ Tpol). unfold DVM_DSTACK, DVM_CSTACK in *.
  split; cbn; try done; try lia; try (by apply entry_regs_ok); try (split; [lia|by constructor]).
  2: intros c.
  2-9: repeat case_bool_decide; try done; try destruct (trace pol =? 0); lia.
  intros a. by apply start_dma_byte.
Qed.

(** A run is refused with nothing changed, or it starts and reaches an end. *)
Lemma run_cases args start_pc m :
  Forall u64 args -> 0 <= start_pc -> machine_typed m -> P (m_world m) ->
  (exists w, dvm_run_at bss_end dma_arena p pol io args start_pc m = Some (w, vm_zero (m_world m), m)) \/
  (exists w st, in_run m = false /\ dvm_policy_check bss_end dma_arena pol = DVM_OK /\
     run_status w = true /\ Fin p pol P (start_dma m) st /\
     dvm_run_at bss_end dma_arena p pol io args start_pc m =
       Some (w, if trace pol =? 0 then st else bump TRACE_LINES 1 st,
             Machine false (mem st) (dma st) (negb (dma_size pol =? 0) || guard_armed m) (world st))).
Proof using Tprog Tpol Hio Harena.
  intros Ha Hpc Hm HP. unfold dvm_run_at. destruct (in_run m); [left; eauto|].
  destruct (dvm_policy_check bss_end dma_arena pol) eqn:Ep; try (left; by eauto).
  destruct (dvm_program_validate p) eqn:Ev; try (left; by eauto).
  destruct ((0 <? start_pc) && _) eqn:Es; [left; by eauto|]. right.
  pose proof (program_bounds p Ev Tprog) as Hb. pose proof (policy_capped bss_end dma_arena pol Ep Tpol) as Hcap.
  destruct (execute_stops bss_end dma_arena io p pol P (start_dma m) Ep Ev Tprog Tpol Hio Harena
    (S (Z.to_nat (max_steps pol))) 0 (start_vm args start_pc m)) as (w & st & E & Hw & Hf).
  - pose proof (cap_steps _ _ _ Hcap). lia.
  - pose proof (cap_steps _ _ _ Hcap). lia.
  - apply start_inv; try done. b2p. lia.
  - exists w, st. repeat split; try done. unfold start_vm, start_dma in E. by rewrite E.
Qed.

End Runs.

(** ** Guard bands *)

Definition guards_intact {ctx} (dma_arena : Z) (m : machine ctx) : Prop :=
  forall a, in_guard dma_arena a = true -> m_dma m a = DVM_DMA_POISON.

Lemma scan_over_none {ctx} dma_arena (m : machine ctx) k : guards_intact dma_arena m ->
  forall i, 0 <= i -> i + Z.of_nat k <= DVM_DMA_GUARD -> scan_over dma_arena k (m_dma m) i = None.
Proof.
  intros Hg. induction k as [|k IH]; intros i Hi He; cbn [scan_over]; [done|].
  rewrite Hg by (unfold in_guard, DVM_DMA_GUARD, DVM_DMA_SIZE in *; lia). cbn [negb Z.eqb].
  apply IH; lia.
Qed.

Lemma scan_under_none {ctx} dma_arena (m : machine ctx) k : guards_intact dma_arena m ->
  forall i, i <= DVM_DMA_GUARD -> Z.of_nat k <= i -> scan_under dma_arena k (m_dma m) i = None.
Proof.
  intros Hg. induction k as [|k IH]; intros i Hi He; cbn [scan_under]; [done|].
  rewrite Hg by (unfold in_guard, DVM_DMA_GUARD, DVM_DMA_SIZE in *; lia). cbn [negb Z.eqb].
  apply IH; lia.
Qed.

Lemma dma_check_intact {ctx} dma_arena (m : machine ctx) :
  (guard_armed m = true -> guards_intact dma_arena m) -> (dvm_dma_check dma_arena m).1 = 0.
Proof.
  intros Hg. unfold dvm_dma_check. destruct (guard_armed m) eqn:E; [|done]. cbn [negb].
  rewrite scan_over_none, scan_under_none by (auto; unfold DVM_DMA_GUARD; lia). done.
Qed.

Lemma grant_not_guard bss_end dma_arena pol a :
  dvm_policy_check bss_end dma_arena pol = DVM_OK -> policy_typed pol ->
  0 <= dma_arena /\ dma_arena + DVM_DMA_SIZE < 2 ^ 64 ->
  in_guard dma_arena a = true -> ~ in_grant pol a.
Proof.
  intros Hc Ht Ha Hg Hin. unfold in_grant in Hin.
  destruct (Z.eq_dec (dma_size pol) 0) as [E|Hne]; [lia|].
  destruct (grant_inside bss_end dma_arena pol Hc Ht Ha Hne) as (H1 & H2 & H3).
  unfold in_guard in Hg. lia.
Qed.

(** ** Claims *)

Section Claims.

Context {ctx : Type} (bss_end dma_arena : Z) (io : dvm_io ctx) (p : dvm_program)
        (pol : dvm_policy) (P : ctx -> Prop) (args : list Z) (start_pc : Z) (m : machine ctx).



(** DMA stays in its grant. A run changes no byte of memory around the DMA arena
    outside the granted block, except for poisoning the guard bands, so the guard
    check that follows a driver run finds the bands intact when it found them intact
    before. *)
Theorem dvm_dma_confined :
  program_typed p -> policy_typed pol -> backend_ok bss_end pol P io ->
  0 <= dma_arena /\ dma_arena + DVM_DMA_SIZE < 2 ^ 64 ->
  Forall u64 args -> 0 <= start_pc -> machine_typed m -> P (m_world m) ->
  (guard_armed m = true -> guards_intact dma_arena m) ->
  exists w st m', dvm_run_at bss_end dma_arena p pol io args start_pc m = Some (w, st, m') /\
    (forall a, ~ in_grant pol a -> in_guard dma_arena a = false -> m_dma m' a = m_dma m a) /\
    (guard_armed m' = true -> guards_intact dma_arena m') /\ (dvm_dma_check dma_arena m').1 = 0.
Proof.
  intros Tp Tl Hio Har Ha Hpc Hm HP Hg.
  destruct (run_cases bss_end dma_arena io p pol P Tp Tl Hio Har args start_pc m Ha Hpc Hm HP)
    as [[w E]|(w & st & _ & Hc & _ & (k & s0 & _ & Hi & Hs) & E)].
  - exists w, (vm_zero (m_world m)), m. auto using dma_check_intact.
  - eexists _, _, _. split; [exact E|]. cbn [m_dma guard_armed].
    assert (Hd : dma st = dma s0) by (by destruct Hs as [->| ->]). rewrite Hd.
    pose proof (i_dma0 _ _ _ _ _ _ Hi) as H0.
    assert (Hgi : negb (dma_size pol =? 0) || guard_armed m = true ->
      forall a, in_guard dma_arena a = true -> dma s0 a = DVM_DMA_POISON).
    { intros Harm a Hga. rewrite H0 by (by eapply grant_not_guard).
      unfold start_dma, dma_guard_arm. destruct (negb _); [by rewrite Hga|]. by apply Hg. }
    split; [|split; [done|apply dma_check_intact; done]].
    intros a Hna Hng. rewrite H0 by done. unfold start_dma, dma_guard_arm.
    destruct (negb _); [by rewrite Hng|done].
Qed.

(** C39: What a refusal means. A run that reports a malformed program, a bad policy or
    re-entry did nothing: no step was taken and the machine is as it was. In
    particular a validated program never meets an unknown opcode or syscall. *)
Theorem dvm_refusal_is_clean w st m' :
  program_typed p -> policy_typed pol -> backend_ok bss_end pol P io ->
  0 <= dma_arena /\ dma_arena + DVM_DMA_SIZE < 2 ^ 64 ->
  Forall u64 args -> 0 <= start_pc -> machine_typed m -> P (m_world m) ->
  dvm_run_at bss_end dma_arena p pol io args start_pc m = Some (w, st, m') ->
  w = DVM_TRAP_BADOP \/ w = DVM_TRAP_POLICY \/ w = DVM_TRAP_REENTRY ->
  m' = m /\ forall c, cnt st c = 0.
Proof.
  intros Tp Tl Hio Har Ha Hpc Hm HP Hrun Hw.
  destruct (run_cases bss_end dma_arena io p pol P Tp Tl Hio Har args start_pc m Ha Hpc Hm HP)
    as [[w' E]|(w' & st' & _ & _ & Hr & _ & E)]; rewrite E in Hrun; injection Hrun as <- <- <-.
  - done.
  - by destruct Hw as [->|[->| ->]].
Qed.

End Claims.

(** ** A machine that records what it is asked for *)

Inductive event :=
  | PortEv (prt w : Z) | MmioEv (addr w flag : Z) | PciEv (b d f off : Z) | DelayEv (us : Z)
  | SayEv (text : bytes) | FileEv (nr : Z) (path : bytes) | ToneEv (hz ms : Z) | ClockEv
  | UrlEv (url : bytes).

Definition permitted (bss_end : Z) (pol : dvm_policy) (e : event) : Prop :=
  match e with
  | PortEv prt w => permitted_port pol prt w
  | MmioEv addr w flag => permitted_mmio bss_end pol addr w flag
  | PciEv b d f off => permitted_pci pol b d f off
  | DelayEv us => 0 <= us <= max_single_delay_us pol
  | SayEv t => granted pol 0 /\ zlen t <= DVM_SAY_MAX /\ forallb printable t = true
  | FileEv nr path => granted pol nr /\ permitted_path pol path
  | ToneEv hz ms => granted pol 4 /\ 20 <= hz <= 20000 /\ 1 <= ms <= 5000
  | ClockEv => granted pol 5
  | UrlEv url => granted pol 6 /\ zlen url < FETCH_URL_MAX
  end.

(** Every hook records the request and answers 0. *)
Definition log_sys : dvm_sys (list event) :=
  Sys (Some (fun t w => (0, SayEv t :: w))) (Some (fun path _ w => (0, [], FileEv 1 path :: w)))
      (Some (fun path _ w => (0, FileEv 2 path :: w))) (Some (fun path w => (0, FileEv 3 path :: w)))
      (Some (fun hz ms w => (0, ToneEv hz ms :: w))) (Some (fun w => (0, ClockEv :: w)))
      (Some (fun url _ w => (0, [], UrlEv url :: w))).
Definition log_io : dvm_io (list event) :=
  Io (Some (fun prt w _ c => PortEv prt w :: c)) (Some (fun prt w c => (0, PortEv prt w :: c)))
     (Some (fun a w _ c => MmioEv a w DVM_MMIO_W :: c)) (Some (fun a w c => (0, MmioEv a w DVM_MMIO_R :: c)))
     (Some (fun b d f off c => (0, PciEv b d f off :: c))) (Some (fun us c => DelayEv us :: c))
     (Some log_sys).

Lemma log_io_ok bss_end pol : backend_ok bss_end pol (Forall (permitted bss_end pol)) log_io.
Proof.
  split; cbn [log_io port_write port_read mmio_write mmio_read pci_read32 delay_us sys].
  7: intros y [= <-]; split; cbn [log_sys con_write fs_read fs_write fs_size audio_tone time_ms net_fetch].
  all: intros h [= <-] *; cbn [fst snd]; intros; repeat split;
    try (constructor; [cbn [permitted]; auto|done]); unfold zlen; cbn [length]; lia.
Qed.

(** A policy with one port range, and a program that writes one byte there. *)
Definition demo_policy : dvm_policy := (dvm_policy_allow_ports 0x300 0x30F dvm_policy_init).2.
Definition demo_insns : list dvm_insn :=
  [Insn 28 DVM_NOREG [O_IMM; O_REG; O_NONE] 1 [0x300; 0; 0]; Insn 0 DVM_NOREG [0; 0; 0] 2 [0; 0; 0]].
Definition demo_program : dvm_program :=
  Program (demo_insns ++ replicate 254 (Insn 0 0 [0; 0; 0] 0 [0; 0; 0])) 2 0 (replicate 512 0)
    (replicate 32 0) 0 0.
Definition demo_machine : machine (list event) := Machine false (fun _ => 0) (fun _ => 0) false [].
Definition demo_arena := 0x200000.

Lemma demo_program_typed : program_typed demo_program.
Proof.
  assert (Hi : forall o d k l a b c, 0 <= d <= 255 -> u64 a -> u64 b -> u64 c -> insn_typed (Insn o d k l [a; b; c])).
  { intros. split; cbn; [lia|]. do 3 (constructor; [done|]). constructor. }
  split; [|reflexivity|cbn; lia]. cbn [insn demo_program]. apply Forall_app.
  split; [|by apply Forall_replicate, Hi].
  do 2 (constructor; [apply Hi; unfold DVM_NOREG, u64; lia|]). constructor.
Qed.

Lemma demo_policy_typed : policy_typed demo_policy.
Proof.
  split.
  - constructor; [cbn; lia|constructor].
  - constructor.
  - vm_compute. repeat split; discriminate || reflexivity.
  - vm_compute. repeat split; discriminate.
Qed.

Lemma demo_machine_typed : machine_typed demo_machine.
Proof. split. cbn. lia. Qed.

(** The run reaches its end and the write happened: the witnesses below are about a
    run that does something. *)
Lemma demo_run :
  option_map (fun r => (r.1.1, m_world r.2))
    (dvm_run 0 demo_arena demo_program demo_policy log_io [7] demo_machine)
  = Some (DVM_OK, [PortEv 0x300 1]).
Proof. vm_compute. reflexivity. Qed.

Ltac demo := first [exact demo_program_typed | exact demo_policy_typed | apply log_io_ok
  | exact demo_machine_typed | by constructor | by (constructor; [unfold u64; lia|constructor])
  | vm_compute; split; discriminate || reflexivity | lia].



Lemma dvm_dma_confined_witness :
  exists w st m', dvm_run_at 0 demo_arena demo_program demo_policy log_io [7] 0 demo_machine
    = Some (w, st, m') /\ (dvm_dma_check demo_arena m').1 = 0.
Proof.
  destruct (dvm_dma_confined 0 demo_arena log_io demo_program demo_policy
    (Forall (permitted 0 demo_policy)) [7] 0 demo_machine) as (w & st & m' & E & _ & _ & H);
    [demo|demo|demo|demo|demo|demo|demo|demo|discriminate|].
  exists w, st, m'. split; [exact E|exact H].
Defined.

(** The same machine in the middle of a run refuses a second one. *)
Definition busy_machine : machine (list event) := Machine true (fun _ => 0) (fun _ => 0) false [].

Lemma dvm_refusal_is_clean_witness :
  exists st m', dvm_run_at 0 demo_arena demo_program demo_policy log_io [7] 0 busy_machine
    = Some (DVM_TRAP_REENTRY, st, m') /\ m' = busy_machine /\ forall c, cnt st c = 0.
Proof.
  exists (vm_zero []), busy_machine. split; [reflexivity|].
  apply (dvm_refusal_is_clean 0 demo_arena log_io demo_program demo_policy
    (Forall (permitted 0 demo_policy)) [7] 0 busy_machine DVM_TRAP_REENTRY (vm_zero []) busy_machine
    demo_program_typed demo_policy_typed (log_io_ok 0 demo_policy)).
  - demo.
  - demo.
  - lia.
  - split. cbn. lia.
  - constructor.
  - reflexivity.
  - auto.
Defined.
