(* ===== verification/DvmMem.v ===== *)
(** The driver VM: what the scratch-memory instructions compute. *)

From S2P Require Import Prelude Bytes Dvm DvmRun DvmSafe.

Section Mem.

Context {ctx : Type} (p : dvm_program) (pol : dvm_policy).

(** Scratch memory holds bytes. *)
Definition mem_ok (s : vm ctx) : Prop := forall o, 0 <= mem s o < 256.

(** Room in the byte budget for [k] more. *)
Definition affords (k : Z) (s : vm ctx) : Prop :=
  0 <= cnt s MEM_BYTES /\ 0 <= k /\ cnt s MEM_BYTES + k <= max_mem_bytes pol /\
  max_mem_bytes pol < 2 ^ 32.

(** Memory after [bs] was stored at [off]. *)
Definition stored (off : Z) (bs : bytes) (m : Z -> Z) : Z -> Z := fun o =>
  if (off <=? o) && (o <? off + zlen bs) then nth (Z.to_nat (o - off)) bs 0 else m o.

(** ** Running the pieces *)

Lemma run_bind {A B} (m : vmm ctx A) (k : A -> vmm ctx B) s a s1 :
  m s = Go a s1 -> vbind m k s = k a s1.
Proof using. unfold vbind. by intros ->. Qed.

Lemma run_refuse bad w (s : vm ctx) : bad = false -> refuse pol bad w s = Go tt s.
Proof using. by intros ->. Qed.

Lemma run_span off len (s : vm ctx) :
  0 <= off -> 0 <= len -> off + len <= DVM_MEM_SIZE -> mem_span pol off len s = Go tt s.
Proof using. intros. apply run_refuse. lia. Qed.

Lemma run_charge k (s : vm ctx) : affords k s -> mem_charge pol k s = Go tt (bump MEM_BYTES k s).
Proof using.
  intros (H0 & Hk & Hm & Hc). unfold mem_charge. erewrite run_bind by reflexivity.
  rewrite wrap64_small by lia. erewrite run_bind by (apply run_refuse; lia). done.
Qed.

Lemma charged k (s : vm ctx) : affords k s -> cnt (bump MEM_BYTES k s) MEM_BYTES = cnt s MEM_BYTES + k.
Proof using. intros (H0 & Hk & Hm & Hc). rewrite cnt_bump_small; lia. Qed.

Lemma run_hwm e (s : vm ctx) : exists s', raise_hwm e s = Go tt s' /\ mem s' = mem s /\
  cnt s' MEM_BYTES = cnt s MEM_BYTES /\ below s' = below s.
Proof using.
  unfold raise_hwm, vmod. eexists. split; [reflexivity|]. by destruct (_ <? e).
Qed.

Lemma run_tline l (s : vm ctx) : exists s', tline pol l s = Go tt s' /\ mem s' = mem s /\ zero s' = zero s.
Proof using.
  unfold tline. destruct (l <=? trace pol); [|by exists s]. eexists. split; [reflexivity|].
  unfold trace_budget. by destruct (_ || _), (quiet s).
Qed.

Lemma run_mget o (s : vm ctx) : 0 <= o < DVM_MEM_SIZE -> mget o s = Go (mem s o) s.
Proof using. intros. unfold mget. by rewrite range_in. Qed.

Lemma run_mput o v (s : vm ctx) : 0 <= o < DVM_MEM_SIZE ->
  mput o v s = Go tt (set_mem (fun x => if x =? o then wrap8 v else mem s x) s).
Proof using. intros. unfold mput. by rewrite range_in. Qed.

Lemma run_mgets k : forall off (s : vm ctx), 0 <= off -> off + Z.of_nat k <= DVM_MEM_SIZE ->
  exists bs, mgets k off s = Go bs s.
Proof using.
  induction k as [|k IH]; intros off s H0 He; cbn [mgets]; [by eexists|].
  erewrite run_bind by (apply run_mget; lia). destruct (IH (off + 1) s) as [bs E]; [lia..|].
  erewrite run_bind by exact E. by eexists.
Qed.

Lemma run_mputs bs : forall off (s : vm ctx), Forall byte_ok bs ->
  0 <= off -> off + zlen bs <= DVM_MEM_SIZE ->
  exists m', mputs off bs s = Go tt (set_mem m' s) /\ forall o, m' o = stored off bs (mem s) o.
Proof using.
  induction bs as [|b bs IH]; intros off s Hb H0 He; cbn [mputs].
  - exists (mem s). split; [by destruct s|]. intros o. unfold stored. cbn.
    rewrite range_out by (unfold zlen; cbn; lia). done.
  - autorewrite with zlen in He. apply Forall_cons_iff in Hb as [Hb0 Hb]. pose proof (zlen_nonneg bs).
    erewrite run_bind by (apply run_mput; lia).
    destruct (IH (off + 1) (set_mem (fun x => if x =? off then wrap8 b else mem s x) s)) as (m' & E & Hm);
      [done|lia..|].
    exists m'. split; [exact E|]. intros o. rewrite Hm. unfold stored. cbn [mem set_mem].
    autorewrite with zlen. destruct (Z.eq_dec o off) as [->|Hne].
    + rewrite range_out, range_in, Z.eqb_refl, Z.sub_diag by lia. by apply (wrap_small 8).
    + replace ((off <=? o) && (o <? off + (zlen bs + 1)))
        with ((off + 1 <=? o) && (o <? off + 1 + zlen bs)) by lia.
      destruct ((off + 1 <=? o) && _) eqn:E2; [|by rewrite (proj2 (Z.eqb_neq o off))]. b2p.
      by replace (Z.to_nat (o - off)) with (S (Z.to_nat (o - (off + 1)))) by lia.
Qed.

(** ** mcpy is memmove *)

Lemma run_mcopy_up k : forall d c (s : vm ctx), mem_ok s -> 0 <= d <= c ->
  c + Z.of_nat k <= DVM_MEM_SIZE ->
  exists m', mcopy_up k d c s = Go tt (set_mem m' s) /\
    forall o, m' o = if (d <=? o) && (o <? d + Z.of_nat k) then mem s (c + (o - d)) else mem s o.
Proof using.
  induction k as [|k IH]; intros d c s Hb Hd He; cbn [mcopy_up].
  - exists (mem s). split; [by destruct s|]. intros o. by rewrite range_out by lia.
  - erewrite run_bind by (apply run_mget; lia). erewrite run_bind by (apply run_mput; lia).
    set (s1 := set_mem _ s).
    destruct (IH (d + 1) (c + 1) s1) as (m' & E & Hm); [|lia..|].
    { intros o. cbn. ztest; [apply (wrap_range 8); lia|apply Hb]. }
    exists m'. split; [exact E|]. intros o. rewrite Hm. cbn [mem set_mem s1].
    rewrite (wrap_small 8) by (apply Hb).
    destruct (Z.eq_dec o d) as [->|Hne].
    + rewrite range_out, range_in, Z.eqb_refl, Z.sub_diag, Z.add_0_r by lia. done.
    + destruct (decide (d <= o < d + Z.of_nat (S k))).
      * rewrite !range_in by lia. rewrite (proj2 (Z.eqb_neq _ d)) by lia. f_equal. lia.
      * rewrite !range_out by lia. by rewrite (proj2 (Z.eqb_neq o d)) by lia.
Qed.

Lemma run_mcopy_down k : forall d c (s : vm ctx), mem_ok s -> 0 <= c <= d ->
  d + Z.of_nat k <= DVM_MEM_SIZE ->
  exists m', mcopy_down k d c s = Go tt (set_mem m' s) /\
    forall o, m' o = if (d <=? o) && (o <? d + Z.of_nat k) then mem s (c + (o - d)) else mem s o.
Proof using.
  induction k as [|k IH]; intros d c s Hb Hd He; cbn [mcopy_down].
  - exists (mem s). split; [by destruct s|]. intros o. by rewrite range_out by lia.
  - erewrite run_bind by (apply run_mget; lia). erewrite run_bind by (apply run_mput; lia).
    set (s1 := set_mem _ s).
    destruct (IH d c s1) as (m' & E & Hm); [|lia..|].
    { intros o. cbn. ztest; [apply (wrap_range 8); lia|apply Hb]. }
    exists m'. split; [exact E|]. intros o. rewrite Hm. cbn [mem set_mem s1].
    rewrite (wrap_small 8) by (apply Hb).
    destruct (Z.eq_dec o (d + Z.of_nat k)) as [->|Hne].
    + rewrite range_out, range_in, Z.eqb_refl by lia. f_equal. lia.
    + destruct (decide (d <= o < d + Z.of_nat (S k))).
      * rewrite !range_in by lia. by rewrite (proj2 (Z.eqb_neq _ (d + Z.of_nat k))) by lia.
      * rewrite !range_out by lia. by rewrite (proj2 (Z.eqb_neq o (d + Z.of_nat k))) by lia.
Qed.

(** Mcpy is memmove. Whenever both blocks lie in scratch memory and the byte
    budget covers the copy, the destination holds what the source held before, also
    when the blocks overlap, nothing else changes, and the offset after the copy is
    handed out. *)
Theorem mcpy_is_memmove d c n next (s : vm ctx) :
  mem_ok s -> 0 <= d -> 0 <= c -> 0 <= n -> d + n <= DVM_MEM_SIZE -> c + n <= DVM_MEM_SIZE ->
  affords (2 * n) s ->
  exists s', op_mcpy pol d c n next s = Go (Some (d + n), next) s' /\
    forall o, mem s' o = if (d <=? o) && (o <? d + n) then mem s (c + (o - d)) else mem s o.
Proof using.
  intros Hb Hd Hc Hn Hde Hce Ha. unfold op_mcpy.
  erewrite run_bind by (apply run_span; lia). erewrite run_bind by (apply run_span; lia).
  rewrite wrap64_small by (unfold DVM_MEM_SIZE in *; lia). rewrite (Z.mul_comm n 2).
  erewrite run_bind by (by apply run_charge).
  set (s1 := bump MEM_BYTES (2 * n) s).
  assert (Hcp : exists m', (if d <? c then mcopy_up (Z.to_nat n) d c else mcopy_down (Z.to_nat n) d c) s1
    = Go tt (set_mem m' s1) /\
    forall o, m' o = if (d <=? o) && (o <? d + n) then mem s (c + (o - d)) else mem s o).
  { ztest; [destruct (run_mcopy_up (Z.to_nat n) d c s1) as (m' & E & Hm)
           |destruct (run_mcopy_down (Z.to_nat n) d c s1) as (m' & E & Hm)]; try done; try lia;
    rewrite Z2Nat.id in Hm by lia; eauto. }
  destruct Hcp as (m' & E & Hm). erewrite run_bind by exact E.
  destruct (run_hwm (d + n) (set_mem m' s1)) as (s2 & E2 & Hm2 & _).
  erewrite run_bind by exact E2. do 2 (erewrite run_bind by reflexivity).
  eexists. split; [reflexivity|]. intros o. cbn. rewrite Hm2. apply Hm.
Qed.

(** ** Numbers and text *)

(** The digit characters of mitoa, and the value of a digit string read from its most
    significant digit. *)
Definition dchar (d : Z) : Z := if d <? 10 then ch "0" + d else ch "a" + d - 10.
Definition horner (base acc : Z) (ds : list Z) : Z := fold_left (fun x d => x * base + d) ds acc.

Fixpoint digits (room : nat) (v base : Z) : list Z :=
  match room with
  | O => []
  | S room => v mod base :: (if v / base =? 0 then [] else digits room (v / base) base)
  end.

Lemma itoa_digits_eq room : forall v base, itoa_digits room v base = dchar <$> digits room v base.
Proof using.
  induction room as [|room IH]; intros v base; cbn [itoa_digits digits fmap list_fmap]; [done|].
  ztest; cbn; [done|]. by rewrite IH.
Qed.

Lemma digits_range room base : 2 <= base -> forall v, Forall (fun d => 0 <= d < base) (digits room v base).
Proof using.
  intros Hb. induction room as [|room IH]; intros v; cbn [digits]; [done|].
  constructor; [apply Z.mod_pos_bound; lia|]. by ztest.
Qed.

Lemma digits_value room base : 2 <= base -> forall v, 0 <= v < base ^ Z.of_nat room ->
  horner base 0 (rev (digits room v base)) = v.
Proof using.
  intros Hb. induction room as [|room IH]; intros v Hv; [cbn in *; lia|].
  cbn [digits rev]. unfold horner. rewrite fold_left_app. cbn [fold_left].
  rewrite Nat2Z.inj_succ, Z.pow_succ_r in Hv by lia. pose proof (Z.div_mod v base ltac:(lia)).
  ztest; [cbn; lia|]. fold (horner base 0 (rev (digits room (v / base) base))). rewrite IH; [lia|].
  split; [apply Z.div_pos; lia|]. apply Z.div_lt_upper_bound; lia.
Qed.

Lemma digits_length room base : 2 <= base -> forall v, (0 < room)%nat ->
  (0 < length (digits room v base) <= room)%nat.
Proof using.
  intros Hb. induction room as [|room IH]; intros v Hr; [lia|]. cbn [digits length].
  ztest; cbn [length]; [lia|]. destruct room as [|room]; [cbn; lia|]. specialize (IH (v / base)). lia.
Qed.

Lemma digit_of_dchar d : 0 <= d < 16 -> digit_of (dchar d) = Some d.
Proof using.
  intros Hd. assert (H : d = 0 \/ d = 1 \/ d = 2 \/ d = 3 \/ d = 4 \/ d = 5 \/ d = 6 \/ d = 7 \/ d = 8 \/
    d = 9 \/ d = 10 \/ d = 11 \/ d = 12 \/ d = 13 \/ d = 14 \/ d = 15) by lia.
  repeat destruct H as [->|H]; try reflexivity. by subst.
Qed.

Lemma dchar_byte d : 0 <= d < 16 -> byte_ok (dchar d).
Proof using. unfold dchar, byte_ok. ztest; lia. Qed.

Lemma horner_grows base ds : 2 <= base -> Forall (fun d => 0 <= d < base) ds ->
  forall acc, 0 <= acc -> acc <= horner base acc ds.
Proof using.
  intros Hb. induction 1 as [|d ds Hd _ IH]; intros acc Ha; unfold horner; cbn [fold_left]; [lia|].
  fold (horner base (acc * base + d) ds). specialize (IH (acc * base + d) ltac:(nia)). nia.
Qed.

(** matoi over digit characters that spell a 64-bit number. *)
Lemma run_atoi base ds : 2 <= base <= 16 -> Forall (fun d => 0 <= d < base) ds ->
  forall off acc k (s : vm ctx), 0 <= off -> off + Z.of_nat (length ds) <= DVM_MEM_SIZE -> 0 <= acc ->
  horner base acc ds < 2 ^ 64 ->
  (forall j d, ds !! j = Some d -> mem s (off + Z.of_nat j) = dchar d) ->
  atoi_loop (length ds) off base acc k s =
    Go (horner base acc ds, k + Z.of_nat (length ds), false) s.
Proof using.
  intros Hb. induction 1 as [|d ds Hd Hds IH]; intros off acc k s H0 He Ha Hh Hm;
    cbn [atoi_loop length]; [by rewrite Z.add_0_r|].
  cbn [length] in He. erewrite run_bind by (apply run_mget; lia).
  pose proof (Hm 0%nat d eq_refl) as Hm0. rewrite Z.add_0_r in Hm0. rewrite Hm0, digit_of_dchar by lia.
  destruct (Z.leb_spec base d); [lia|].
  change (horner base acc (d :: ds)) with (horner base (acc * base + d) ds) in *.
  pose proof (horner_grows base ds ltac:(lia) Hds (acc * base + d) ltac:(nia)).
  destruct (Z.ltb_spec ((0xFFFFFFFFFFFFFFFF - d) / base) acc) as [Hov|_].
  { exfalso. pose proof (Z.div_le_lower_bound (0xFFFFFFFFFFFFFFFF - d) base acc). lia. }
  assert (0 <= acc * base) by nia. rewrite !wrap64_small by (rewrite ?wrap64_small; lia).
  rewrite IH; [do 3 f_equal; lia|lia..|done|].
  intros j x Hj. specialize (Hm (S j) x Hj). rewrite <- Hm. f_equal. lia.
Qed.

(** The end of a store: what mitoa leaves. *)
Lemma run_mitoa d v base next (s : vm ctx) :
  2 <= base <= 16 -> 0 <= v < 2 ^ 64 -> 0 <= d -> d + 64 <= DVM_MEM_SIZE -> affords 64 s ->
  let ds := rev (digits 64 v base) in
  exists s', op_mitoa pol d v base next s = Go (Some (d + Z.of_nat (length ds)), next) s' /\
    cnt s' MEM_BYTES = cnt s MEM_BYTES + Z.of_nat (length ds) /\
    forall o, mem s' o = stored d (dchar <$> ds) (mem s) o.
Proof using.
  intros Hb Hv Hd He (A1 & A2 & A3 & A4) ds. unfold op_mitoa.
  pose proof (digits_length 64 base ltac:(lia) v ltac:(lia)) as Hl.
  assert (Hlen : zlen (itoa_digits 64 v base) = Z.of_nat (length ds)).
  { unfold zlen, ds. by rewrite itoa_digits_eq, length_fmap, length_rev. }
  assert (Hds : rev (itoa_digits 64 v base) = dchar <$> ds).
  { unfold ds. rewrite itoa_digits_eq. symmetry. apply map_rev. }
  assert (Hl2 : length ds = length (digits 64 v base)) by (unfold ds; by rewrite length_rev).
  erewrite run_bind by (apply run_refuse; lia). rewrite Hlen, Hds.
  erewrite run_bind by (apply run_span; lia).
  erewrite run_bind by (apply run_charge; unfold affords; lia).
  set (s1 := bump MEM_BYTES _ s).
  destruct (run_mputs (dchar <$> ds) d s1) as (m' & E & Hm).
  { apply Forall_fmap. eapply Forall_impl; [|apply Forall_rev, (digits_range 64 base); lia].
    cbn beta. intros x Hx. apply dchar_byte. lia. }
  { lia. }
  { unfold zlen. rewrite length_fmap. lia. }
  erewrite run_bind by exact E.
  destruct (run_hwm (d + Z.of_nat (length ds)) (set_mem m' s1)) as (s2 & E2 & Hm2 & Hc2 & _).
  erewrite run_bind by exact E2. erewrite run_bind by reflexivity.
  eexists. split; [reflexivity|]. split; [|intros o; cbn; rewrite Hm2; apply Hm].
  rewrite cnt_bump_ne, Hc2 by done. cbn [cnt set_mem]. apply charged. unfold affords. lia.
Qed.

(** Numbers survive the trip through text. In every base the VM offers, writing a
    64-bit number with mitoa and reading the characters back with matoi yields that
    number and sets the zero flag; the text has between 1 and 64 characters. *)
Theorem mitoa_matoi_roundtrip d v base next (s : vm ctx) :
  2 <= base <= 16 -> 0 <= v < 2 ^ 64 -> 0 <= d -> d + 64 <= DVM_MEM_SIZE -> affords 128 s ->
  exists k s1 s2, 1 <= k <= 64 /\
    op_mitoa pol d v base next s = Go (Some (d + k), next) s1 /\
    op_matoi pol d k base next s1 = Go (Some v, next) s2 /\ zero s2 = true.
Proof using.
  intros Hb Hv Hd He (A1 & A2 & A3 & A4).
  destruct (run_mitoa d v base next s Hb Hv Hd He ltac:(unfold affords; lia)) as (s1 & E1 & Hc & Hm).
  pose proof (digits_length 64 base ltac:(lia) v ltac:(lia)) as Hl.
  pose proof (digits_range 64 base ltac:(lia) v) as Hr. apply Forall_rev in Hr.
  pose proof (digits_value 64 base ltac:(lia) v) as Hval.
  rewrite <- length_rev in Hl. set (ds := rev (digits 64 v base)) in *.
  exists (Z.of_nat (length ds)), s1. unfold op_matoi.
  erewrite run_bind by (apply run_refuse; lia). erewrite run_bind by (apply run_span; lia).
  erewrite run_bind by (apply run_charge; unfold affords; lia). rewrite Nat2Z.id.
  assert (Hpow : 2 ^ 64 <= base ^ Z.of_nat 64) by (apply Z.pow_le_mono_l; lia).
  erewrite run_bind; cycle 1.
  { apply (run_atoi base ds); [done..|lia|lia|rewrite Hval; lia|].
    intros j x Hj. cbn [mem bump set_cnt]. rewrite Hm. unfold stored.
    pose proof (lookup_lt_Some _ _ _ Hj). rewrite range_in by (unfold zlen; rewrite length_fmap; lia).
    replace (Z.to_nat (d + Z.of_nat j - d)) with j by lia.
    apply nth_lookup_Some. by rewrite list_lookup_fmap, Hj. }
  rewrite Hval by lia.
  replace ((0 <? 0 + Z.of_nat (length ds)) && negb false) with true by lia.
  erewrite run_bind by reflexivity.
  edestruct (run_tline TRACE_ALL) as (s2 & E2 & _ & Hz). erewrite run_bind by exact E2.
  exists s2. split; [lia|]. split; [done|]. split; [done|]. by rewrite Hz.
Qed.

(** ** Searching *)

(** The bytes of [needle] are at [y]. *)
Definition occurs (s : vm ctx) (needle : bytes) (y : Z) : Prop :=
  forall j c, needle !! j = Some c -> mem s (y + Z.of_nat j) = c.

Lemma occurs_cons s c r y : occurs s (c :: r) y <-> mem s y = c /\ occurs s r (y + 1).
Proof using.
  unfold occurs. split.
  - intros H. split; [specialize (H 0%nat c eq_refl); by rewrite Z.add_0_r in H|].
    intros j x Hj. rewrite <- (H (S j) x Hj). f_equal. lia.
  - intros [H1 H2] [|j] x Hj; [injection Hj as <-; by rewrite Z.add_0_r|].
    rewrite <- (H2 j x Hj). f_equal. lia.
Qed.

Lemma run_match needle : forall off (s : vm ctx), 0 <= off -> off + zlen needle <= DVM_MEM_SIZE ->
  exists k, match_loop needle off s = Go k s /\ 0 <= k <= zlen needle /\
    (k = zlen needle <-> occurs s needle off).
Proof using.
  induction needle as [|c r IH]; intros off s H0 He; cbn [match_loop].
  - exists 0. by repeat split.
  - autorewrite with zlen in He |- *. pose proof (zlen_nonneg r).
    erewrite run_bind by (apply run_mget; lia). destruct (Z.eqb_spec (mem s off) c) as [Hc|Hc].
    + destruct (IH (off + 1) s) as (k & E & Hk & Hi); [lia..|]. erewrite run_bind by exact E.
      exists (k + 1). split; [done|]. split; [lia|]. rewrite occurs_cons, <- Hi. intuition lia.
    + exists 0. split; [done|]. split; [lia|]. rewrite occurs_cons. intuition lia.
Qed.

(** What a search over start positions [x, x + todo) found. *)
Definition first_from (s : vm ctx) (needle : bytes) (x todo : Z) (r : option Z) : Prop :=
  match r with
  | Some y => x <= y < x + todo /\ occurs s needle y /\ forall z, x <= z < y -> ~ occurs s needle z
  | None => forall z, x <= z < x + todo -> ~ occurs s needle z
  end.

Lemma first_from_next s needle x todo r :
  ~ occurs s needle x -> first_from s needle (x + 1) todo r -> first_from s needle x (todo + 1) r.
Proof using.
  intros Hx. destruct r as [y|]; cbn.
  - intros (H1 & H2 & H3). split; [lia|]. split; [done|]. intros z Hz.
    destruct (Z.eq_dec z x) as [->|]; [done|]. apply H3. lia.
  - intros H z Hz. destruct (Z.eq_dec z x) as [->|]; [done|]. apply H. lia.
Qed.

Lemma charge_or_stop k (s : vm ctx) :
  (exists s', mem_charge pol k s = Stop DVM_TRAP_MEM_BUDGET s') \/
  (exists s', mem_charge pol k s = Go tt s' /\ mem s' = mem s).
Proof using.
  unfold mem_charge. erewrite run_bind by reflexivity. unfold refuse, vbind, trap, vret, vmod.
  destruct (_ || _); eauto.
Qed.

Lemma occurs_same s s' needle y : mem s' = mem s -> occurs s' needle y <-> occurs s needle y.
Proof using. unfold occurs. by intros ->. Qed.

Lemma run_find todo c0 rest : forall x (s : vm ctx), 0 <= x ->
  x + Z.of_nat todo + zlen rest <= DVM_MEM_SIZE ->
  (exists s', find_loop pol todo c0 rest x s = Stop DVM_TRAP_MEM_BUDGET s') \/
  (exists r s', find_loop pol todo c0 rest x s = Go r s' /\ mem s' = mem s /\
     first_from s (c0 :: rest) x (Z.of_nat todo) r).
Proof using.
  induction todo as [|todo IH]; intros x s H0 He; cbn [find_loop].
  { right. exists None, s. repeat split. cbn. lia. }
  pose proof (zlen_nonneg rest). rewrite Nat2Z.inj_succ, <- Z.add_1_r.
  destruct (charge_or_stop 1 s) as [[s1 E1]|(s1 & E1 & M1)]; [left; unfold vbind; rewrite E1; eauto|].
  erewrite run_bind by exact E1. erewrite run_bind by (apply run_mget; lia).
  assert (Hskip : forall s2 : vm ctx, mem s2 = mem s -> ~ occurs s (c0 :: rest) x ->
    (exists s', find_loop pol todo c0 rest (x + 1) s2 = Stop DVM_TRAP_MEM_BUDGET s') \/
    (exists r s', find_loop pol todo c0 rest (x + 1) s2 = Go r s' /\ mem s' = mem s /\
       first_from s (c0 :: rest) x (Z.of_nat todo + 1) r)).
  { intros s2 M2 Hno. destruct (IH (x + 1) s2) as [?|(r & s' & E & M & Hf)]; [lia..|by left|].
    right. exists r, s'. split; [done|]. split; [congruence|]. apply first_from_next; [done|].
    unfold first_from in *. destruct r; unfold occurs in *; by rewrite M2 in Hf. }
  rewrite M1. destruct (Z.eqb_spec (mem s x) c0) as [Hc|Hc]; cbn [negb];
    [|apply Hskip; [done|rewrite occurs_cons; tauto]].
  destruct (run_match rest (x + 1) s1) as (k & E2 & Hk & Hi); [lia..|]. erewrite run_bind by exact E2.
  destruct (charge_or_stop k s1) as [[s2 E3]|(s2 & E3 & M2)]; [left; unfold vbind; rewrite E3; eauto|].
  erewrite run_bind by exact E3. rewrite (occurs_same _ _ _ _ M1) in Hi. rewrite M1 in M2.
  destruct (Z.eqb_spec k (zlen rest)) as [Hkk|Hkk].
  - right. exists (Some x), s2. split; [done|]. split; [done|]. split; [lia|].
    split; [apply occurs_cons; tauto|lia].
  - apply Hskip; [done|]. rewrite occurs_cons. tauto.
Qed.

(** Mfind finds the first occurrence. On a block inside scratch memory the
    instruction runs out of byte budget, or hands out the least offset at which the
    string occurs inside the block and sets the zero flag, or, exactly when the string
    occurs nowhere in the block, hands out the end of the block and clears the flag.
    Memory is unchanged. *)
Theorem mfind_finds_first i hay n next (s : vm ctx) :
  0 <= hay -> 0 <= n -> hay + n <= DVM_MEM_SIZE ->
  let needle := str_at p (val_at i 0) in
  (exists s', op_mfind p pol i hay n next s = Stop DVM_TRAP_MEM_BUDGET s') \/
  (exists r s', op_mfind p pol i hay n next s = Go (Some (default (hay + n) r), next) s' /\
     zero s' = bool_decide (is_Some r) /\ mem s' = mem s /\
     first_from s needle hay (n - zlen needle + 1) r).
Proof using.
  intros H0 Hn He needle. unfold op_mfind. fold needle. erewrite run_bind by (apply run_span; lia).
  assert (Hend : forall r (s1 : vm ctx), mem s1 = mem s -> first_from s needle hay (n - zlen needle + 1) r ->
    exists s', vbind (vget below) (fun b => vbind (vmod (set_flags (match r with Some _ => true | None => false end) b))
       (fun _ => vbind (vmod (bump N_MEM_RD 1)) (fun _ => alu (default (hay + n) r) next))) s1
      = Go (Some (default (hay + n) r), next) s' /\ zero s' = bool_decide (is_Some r) /\
        mem s' = mem s /\ first_from s needle hay (n - zlen needle + 1) r).
  { intros r s1 M Hf. eexists. split; [reflexivity|]. split; [by destruct r|]. by split. }
  destruct needle as [|c0 rest] eqn:En.
  { right. exists (Some hay). erewrite run_bind by reflexivity. apply Hend; [done|].
    split; [autorewrite with zlen; lia|]. split; [intros j c Hj; by destruct j|lia]. }
  destruct (Z.leb_spec (zlen (c0 :: rest)) n) as [Hle|Hgt].
  - autorewrite with zlen in *. pose proof (zlen_nonneg rest).
    destruct (run_find (Z.to_nat (n - (zlen rest + 1) + 1)) c0 rest hay s) as [[s' E]|(r & s' & E & M & Hf)];
      [lia..|left; unfold vbind at 1; rewrite E; eauto|].
    right. exists r. erewrite run_bind by exact E. apply Hend; [done|]. by rewrite Z2Nat.id in Hf by lia.
  - right. exists None. erewrite run_bind by reflexivity. apply Hend; [done|]. cbn. lia.
Qed.

(** ** net.fetch *)

(** What net.fetch leaves in scratch memory. The backend stores the body at the
    start of the destination and returns the HTTP status; the VM then writes a NUL at
    the offset the status names, not at the end of the body. So when the status is
    smaller than the room, exactly the byte at that offset is 0 and the rest of a body
    longer than the status is kept after it; and the high-water mark does not move,
    although bytes were stored. *)
Theorem net_fetch_nul_at_status (y : dvm_sys ctx) h uo ul d c (s : vm ctx) rc body w :
  net_fetch y = Some h -> 0 <= uo -> 0 < ul < FETCH_URL_MAX -> uo + ul <= DVM_MEM_SIZE ->
  0 <= d -> d + c <= DVM_MEM_SIZE -> 0 < rc < c -> zlen body <= c -> Forall byte_ok body ->
  affords (ul + c) s -> (forall url, h url c (world s) = (rc, body, w)) ->
  exists s', net_fetch_call pol y uo ul d c s = Go rc s' /\
    (forall o, mem s' o = if o =? d + rc then 0 else stored d body (mem s) o) /\
    cnt s' MEM_HWM = cnt s MEM_HWM.
Proof using.
  intros Hh Hu Hl Hue Hd Hde Hrc Hb Hbb Ha Hres. unfold net_fetch_call, FETCH_URL_MAX in *.
  erewrite run_bind by (apply run_span; lia). erewrite run_bind by (apply run_refuse; lia).
  erewrite run_bind by (apply run_span; lia).
  rewrite wrap64_small by (unfold DVM_MEM_SIZE in *; lia).
  erewrite run_bind by (by apply run_charge). set (s1 := bump MEM_BYTES _ s).
  destruct (run_mgets (Z.to_nat ul) uo s1) as [url Eu]; [lia..|]. erewrite run_bind by exact Eu.
  assert (Ek : hook pol (net_fetch y) (fun h w => h (cstr url) c w) s1 = Go (rc, body) (set_world w s1)).
  { rewrite Hh. cbn. by rewrite Hres. }
  erewrite run_bind by exact Ek. cbn [fst snd].
  destruct (run_mputs body d (set_world w s1)) as (m' & E & Hm); [done|lia..|].
  erewrite run_bind by exact E.
  replace ((0 <? rc) && (0 <? c)) with true by lia. replace (rc <? c) with true by lia.
  replace (d + rc <? d + c) with true by lia.
  erewrite run_bind by (apply run_mput; lia). eexists. split; [reflexivity|]. cbn [mem set_mem].
  split; [|by apply (cnt_bump_ne MEM_BYTES MEM_HWM (ul + c) s)]. intros o. ztest; [done|]. by rewrite Hm.
Qed.

End Mem.

(** ** The theorems at work *)

(** A fresh state with the letters of the alphabet repeating in scratch memory. *)
Definition abc_vm : vm unit :=
  Vm (replicate 16 0) [] [] 0 0 false false false (fun _ => 0) (fun o => 97 + o mod 26) (fun _ => 0) tt.

Lemma abc_ok : mem_ok abc_vm.
Proof. intros o. cbn. pose proof (Z.mod_pos_bound o 26 ltac:(lia)). lia. Qed.

Lemma abc_affords k : 0 <= k <= 4194304 -> affords dvm_policy_init k abc_vm.
Proof. intros. unfold affords. cbn -[Z.pow]. unfold DVM_MEM_SIZE. lia. Qed.

(** An overlapping copy: "abcdef" one byte up. *)
Lemma mcpy_is_memmove_witness :
  exists s', op_mcpy dvm_policy_init 1 0 6 0 abc_vm = Go (Some 7, 0) s' /\ mem s' 6 = 102.
Proof.
  destruct (mcpy_is_memmove dvm_policy_init 1 0 6 0 abc_vm abc_ok) as (s' & E & Hm);
    [unfold DVM_MEM_SIZE; lia..|apply abc_affords; lia|].
  exists s'. split; [exact E|]. rewrite Hm. reflexivity.
Defined.

Lemma mitoa_matoi_roundtrip_witness :
  exists k s1 s2, 1 <= k <= 64 /\
    op_mitoa dvm_policy_init 8 48879 16 0 abc_vm = Go (Some (8 + k), 0) s1 /\
    op_matoi dvm_policy_init 8 k 16 0 s1 = Go (Some 48879, 0) s2 /\ zero s2 = true.
Proof.
  apply (mitoa_matoi_roundtrip dvm_policy_init 8 48879 16 0 abc_vm);
    [unfold DVM_MEM_SIZE; lia..|apply abc_affords; lia].
Defined.

(** The string "cd" of a program, found in the alphabet. *)
Definition cd_program : dvm_program := Program [] 0 0 [99; 100; 0] [0] 1 3.
Definition find_cd : dvm_insn := Insn 55 1 [O_STR; O_IMM; O_IMM] 1 [0; 0; 26].

Lemma mfind_finds_first_witness :
  (exists s', op_mfind cd_program dvm_policy_init find_cd 0 26 0 abc_vm = Stop DVM_TRAP_MEM_BUDGET s') \/
  (exists r s', op_mfind cd_program dvm_policy_init find_cd 0 26 0 abc_vm = Go (Some (default 26 r), 0) s' /\
     zero s' = bool_decide (is_Some r) /\ mem s' = mem abc_vm /\ first_from abc_vm [99; 100] 0 25 r).
Proof.
  apply (mfind_finds_first cd_program dvm_policy_init find_cd 0 26 0 abc_vm);
    unfold DVM_MEM_SIZE; lia.
Defined.

(** A page of 300 bytes "x" served with status 200: byte 200 is lost. *)
Definition page_sys : dvm_sys unit :=
  Sys None None None None None None (Some (fun _ _ w => (200, replicate 300 120, w))).

Lemma net_fetch_nul_at_status_witness :
  exists s', net_fetch_call dvm_policy_init page_sys 0 8 1024 4096 abc_vm = Go 200 s' /\
    mem s' (1024 + 199) = 120 /\ mem s' (1024 + 200) = 0 /\ mem s' (1024 + 201) = 120.
Proof.
  destruct (net_fetch_nul_at_status dvm_policy_init page_sys (fun _ _ w => (200, replicate 300 120, w))
    0 8 1024 4096 abc_vm 200 (replicate 300 120) tt) as (s' & E & Hm & _);
    [reflexivity|lia|unfold FETCH_URL_MAX; lia|unfold DVM_MEM_SIZE; lia|lia|unfold DVM_MEM_SIZE; lia
    |lia|vm_compute; discriminate|by apply Forall_replicate|apply abc_affords; lia|reflexivity|].
  exists s'. split; [exact E|]. rewrite !Hm. vm_compute. auto.
Defined.
